(* ===== verification/_CoqProject ===== *)
-Q . S2P
Prelude.v
RustStr.v
Lines.v
Headers.v
Net.v
RateLimit.v
TrustedProxy.v
Fs.v
Geo.v
Routes.v
Url.v
Systems.v
Config.v
Upstreams.v
ConfigCheck.v
Cache.v
CacheCodec.v
CacheSpec.v
Selector.v
Redirect.v
Forward.v
Json.v
Oci.v
Adapters.v
Quota.v
Traffic.v
Users.v
AdminAuth.v
Secrets.v
Email.v
EmailFlow.v
Sso.v
Download.v
DownloadSpec.v
ClientFiles.v
Setup.v
SetupSpec.v
Catalog.v
SystemRewrite.v
SystemRewriteSpec.v
ClientSources.v
ClientSteps.v
ClientSourcesSpec.v
SystemPlan.v
SystemPrepare.v
SystemPlanSpec.v
MigrationSpec.v
Requests.v
Metadata.v
MetadataSpec.v
HuggingFace.v
HuggingFaceSpec.v
SourceHealth.v
SourceHealthSpec.v
Alerts.v
AcmeDns.v
AcmeDnsSpec.v
Acme.v
AcmeSpec.v
ClientDownload.v
ClientDownloadSpec.v
Agent.v
AgentSpec.v
SsoFlow.v
SsoSpec.v
SsoSafety.v
Pipeline.v
