(* ===== verification/Prelude.v ===== *)
(** * MirrorProxy: a verification library

    MirrorProxy (the Rust workspace under [src/crates/]) is a caching proxy for
    package registries, container registries and operating-system mirrors, with
    users, teams and quotas, an administration console, authenticated downloads
    and a command-line client that points a machine at it.  This library is a
    shallow embedding of the server, of the catalogue both share and of the
    client's changes to files: Rust functions are functions of the same name,
    and theorems about them follow the definitions or stand in a [..Spec] file
    of their own.  Names under [crates/server/src/] are given without that
    prefix.

    ** How a request runs, and where its parts are modelled

    A connection carries a request through the layers of [main.rs]
    ([Pipeline]): security headers, the removal of forwarding headers that
    strangers sent, the check against cross-site requests, the routing of user
    subdomains, and admission.  The layers read hosts, transports, cookies and
    tokens with [Requests], find the client's address with [TrustedProxy], ask
    [Geo] for its place and [RateLimit] for its budget, recognise a user with
    [Users], check the team's targets and reserve bytes with [Quota], and leave
    the reservation with the guard of [Traffic].  [Routes] says which handler a
    path belongs to.  A proxy handler ([Adapters], [Metadata], [Oci]) checks the path,
    builds upstream candidates with [Upstreams] and forwards with [Forward],
    which ranks candidates with [Selector], serves and fills the response
    [Cache], and sends requests and follows redirects with [Redirect]; the
    public downloads of [HuggingFace] rank and send on their own terms.  A
    download goes through [Download].  People sign in through [Users],
    [AdminAuth], [Email] with [EmailFlow], and [Sso] with [SsoFlow]; secrets at
    rest are sealed by [Secrets].  The configuration all of them read is
    [Config], checked by [ConfigCheck].

    The client plans a change with the tables of [Catalog], [Systems] and
    [SystemRewrite] and carries it out with the careful writes of
    [ClientFiles]: one source ([ClientSources]), a whole system
    ([SystemPrepare], [SystemPlan]), or the settings of coding agents
    ([Setup]).

    ** Files

    - [Prelude]: results and the [?] operator, integer bounds with Rust's
      wrapping and saturating operations, generic lemmas, tactics, hints.
      [RustStr], [Lines]: the methods of [str] and [BTreeMap]; lines of texts.
    - [Net]: [std::net] addresses, parser and printer.  [Fs]: the calls of
      [std::fs] the server makes, each of which can fail.  [Headers], [Url],
      [Json]: what the server uses of the crates [http], [url] and
      [serde_json], as classes with laws and a concrete instance each.
    - [Config], [ConfigCheck]: [config.rs], the records and
      [Config::validate] with every section's checks in their order.
      [Systems], [Catalog]: [crates/catalog/src/systems.rs],
      [system_mirrors.rs] and [lib.rs].
    - [RateLimit]: the limiters of [main.rs].  [TrustedProxy]: trusted networks
      and the walk back through [X-Forwarded-For].  [Geo]: [geoip.rs], the XDB
      reader, the access policy, the installation of a database.
    - [Routes], [Requests], [Pipeline]: [main.rs], as above.
    - [Upstreams], [Selector], [Redirect], [Forward], [Adapters], [Oci]:
      [config.rs], [upstream_selection.rs] and [proxy/].  [Cache],
      [CacheCodec], [CacheSpec]: [proxy/cache.rs].
    - [Metadata], [MetadataSpec]: [proxy/npm.rs], [pypi.rs], [composer.rs] and
      [nuget.rs].  [HuggingFace], [HuggingFaceSpec]: [proxy/huggingface.rs].
    - [SourceHealth], [SourceHealthSpec]: [source_health.rs], its tables in
      [database.rs] and its routes in [main.rs].  [Alerts]: [alerts.rs].
    - [Acme], [AcmeSpec]: [acme.rs], the manager of the certificate on the files
      of [ClientFiles].  [AcmeDns], [AcmeDnsSpec]: [acme_dns.rs].
    - [Quota], [Traffic]: billing groups, targets and the traffic ledger of
      [database.rs] and [database/download.rs]; [traffic.rs].
    - [Users]: accounts, sessions, routing ids, passwords and registration
      links of [database.rs] and [database/local_accounts.rs].  [AdminAuth]:
      administrators, their sessions and passkeys, with the handlers of
      [main.rs].  [Secrets]: [secrets.rs] and the upgrade of stored secrets.
      [Email], [EmailFlow]: the mail tables of [database.rs]; [email.rs].
    - [Sso]: the providers, identities and flows of [database.rs].  [SsoFlow]:
      [oauth.rs], every handler as a [Task] that [advance] runs from one await
      to the next.  [SsoSpec], [SsoSafety]: theorems over all interleavings.
    - [Download], [DownloadSpec]: [download.rs], [database/download.rs].
    - [ClientFiles]: the files of the client with their permissions and links,
      atomic writes and their failures ([crates/client/src/]).  [Setup],
      [SetupSpec]: [setup.rs].  [ClientSources], [ClientSourcesSpec]: setting
      and resetting one source, of [main.rs] of the client.
      [SystemRewrite], [SystemRewriteSpec]: the rewriting of source lists.
      [SystemPlan], [SystemPrepare]: [system.rs] and [apt.rs].
      [SystemPlanSpec], [MigrationSpec]: theorems about migrations, on the
      logic of steps in [ClientSteps].  [ClientDownload], [ClientDownloadSpec]:
      [download.rs] of the client.  [Agent], [AgentSpec]: [agent.rs], the
      server for agents.

    ** Conventions

    A machine integer is a [Z] with its wrapping, saturating or checked
    operations written out; times are seconds or nanoseconds passed in as
    arguments, as are random draws and fresh identifiers.  A [&str] is the
    [string] of its bytes.  A [HashMap] is a [gmap], and an iteration order the
    code depends on is a variable.  SQLite is a set of tables: a transaction is
    one function of the state and, when it returns early, leaves it unchanged;
    code that awaits between two statements outside a transaction is two steps,
    so that others may come in between (logging in, storing a code, changing a
    block, inserting a session, every call of single sign-on); the handlers of
    sign-in by email are run from one end to the other, and their theorems are
    about handlers one after the other.  Concurrency is a sequence of such
    steps in any order; what happens around a long-running task is a variable
    of its theorems ([Surroundings] of [Download]).  A Rust panic is a value of
    its own where the code could reach one.  Failures of the database that the
    code answers with an internal error are modelled where a theorem depends on
    them ([db_up] of [Pipeline]) and otherwise left out.  A call of the client
    to its file system takes its outcome from a tape of faults, so theorems
    hold whatever calls fail; the tests whether a file exists do not fail, and
    an empty directory is not told from a missing one.  Third-party code is a
    class; the laws a theorem needs are its documented behaviour, and every
    such theorem has a witness with a concrete instance.

    ** What the theorems show

    - Accounting: reserved bytes are those of requests in flight and billed
      bytes those of settled ones, at every point of every interleaving
      ([Traffic.traffic_conserved], refined to whole requests by
      [Pipeline.requests_refine_accounting]); the limit holds but for single
      responses ([Traffic.quota_not_overbooked]); the cache's byte counter is
      exact under every sequence of operations ([CacheSpec.cache_accounting]);
      a download is charged what it delivers
      ([DownloadSpec.downloads_charge_what_they_send]).
    - Identity: guesses of passwords and codes are bounded also in parallel;
      ended sessions, used links, used challenges and void tokens stay so;
      a routing id never names a second user; a session by email needs a
      credential issued for the address, in time and not used before
      ([EmailFlow.email_login_needs_issued_credential]).  Of single sign-on:
      identities never move ([SsoSpec.identities_never_move]), each rests on
      one provider that vouched for it and on a request of its user, a verified
      address of his or an admitted registration
      ([SsoSafety.identities_have_consent]), sessions come with an identity
      ([SsoSafety.sso_sessions_have_identities]), state tokens are used once
      ([SsoSafety.state_tokens_single_use]).
    - Admission: each gate in front of the adapters has its own answer, and the
      first that is shut decides ([Pipeline.admission_gate]); a key is admitted
      at most as often as its limit says in any minute
      ([RateLimit.rate_limit_bound]).
    - Links: what a client finds in rewritten metadata leads back to the server
      and on to the original path ([MetadataSpec]).
    - Confinement: requests stay at the origin of their upstream, and below its
      base path when the path has no percent sign
      ([Adapters.adapters_confined]); redirects neither downgrade nor reach
      private addresses nor carry credentials to another origin ([Redirect]),
      downloads connect to public hosts only, a block and a running download
      cannot miss each other ([DownloadSpec]); forwarding headers of strangers
      change nothing but one bit of the diagnostics
      ([Pipeline.strangers_cannot_forward]), and what a client puts in front of
      [X-Forwarded-For] never becomes its address
      ([TrustedProxy.resolve_client_ip_unforgeable]); downloads of
      the Hub carry no credentials out and no redirect or cookie back
      ([HuggingFaceSpec]); a migration
      is reset within the files of its system whatever its record says
      ([MigrationSpec.reset_confined]).
    - Monitoring: a check of the upstreams ends and reports each target once
      ([SourceHealthSpec.checks_report_every_target]), one runs at a time
      ([SourceHealthSpec.one_check_at_a_time]); what a channel
      was told successfully keeps its distance, and an alert that is due and
      not cooling down is told ([Alerts.alerts_are_spaced]).
    - Downloads of the client: what was fetched is whole, at the output that
      was asked for and where nothing was; a failure of the download leaves
      nothing; a file that others bring meanwhile stays
      ([ClientDownloadSpec]).  Agents: every request is answered once, no tool
      runs before the session is initialized, and only the instance is asked
      ([AgentSpec]).
    - Certificates: a refresh asks the provider to take back every record it
      reported as made, and withdraws its answers over HTTP, whatever fails
      ([AcmeSpec.challenges_are_withdrawn]); keys stay private
      ([AcmeSpec.secrets_stay_private]) and a shared record set of a zone comes
      back as it was ([AcmeDnsSpec.route53_records_restored]).
    - Availability and faults: forwarding fails over in rank order and never
      panics ([Forward]); circuits open and close ([Selector]); a cache entry
      written reads back, a database file is installed whole or not at all,
      whatever calls of the file system fail; the XDB search ends and finds the
      record of the address ([Geo.xdb_lookup_correct]); an upgrade of secrets keeps what they read as; the client
      records what it replaces before it replaces it, leaves text of the user
      alone unless it extends it or was told to ([ClientSourcesSpec]), and
      brings back what it replaced ([SetupSpec], [MigrationSpec]).

    Lemmas named in the findings are counterexamples that evaluate the
    definitions: two codes requested at once leave one that can be guessed
    without limit ([Email.interleaved_codes_unlimited]), failures that overlap
    count once ([AdminAuth.parallel_failures_count_once]), two requests at once
    remove the last identity of an account
    ([SsoSafety.Example.parallel_unlinks_remove_the_last]), and others.

    ** Fuel and bounds

    The XDB search runs on [SEARCH_FUEL] = 64, enough for the 32-bit index
    counts of a file; redirects on 11 turns (the first request and the ten the
    code allows, also those of the Hub) and downloads on 6, as the loops of the code; parsing an
    address consumes its input; links of files are followed [MAX_LINKS] = 40
    times, as by Linux.  Routing ids are tried [ROUTING_ID_INSERT_ATTEMPTS] =
    16 times, the selector keeps [MAX_ENDPOINTS] = 512, a part of a download
    has 64 KiB: the constants of the code.

    ** What is not modelled, and why

    Of the client: the detection of installed agents, prompts, the text it
    prints, and the branches for Windows and macOS.  Of the server:
    the protocol of ACME and the TLS listener are those of their crates; static
    assets and observability are wiring; the probes of
    one check run at the same time in the code and one after the other, in any
    order, in the model; listings and reports only print the tables; the pace of
    downloads is a floating-point delay.  Handlers that decode a request, call
    one modelled operation and print its answer are modelled by that operation.
    The browser application is TypeScript. *)
From stdpp Require Export base decidable option list gmap strings.
From stdpp Require Export sorting.
From Stdlib Require Export ZArith Lia Bool Sorted.

(** ** Hint database and tactics of the library *)

Create HintDb mirror.

Declare Scope mirror_scope.
Delimit Scope mirror_scope with mirror.

(** Error-returning Rust functions, [Result<A, E>]. *)
Inductive result (A E : Type) : Type :=
| Ok (a : A)
| Err (e : E).
Arguments Ok {A E} a.
Arguments Err {A E} e.

(** The [?] operator. *)
Definition result_bind {A B E} (m : result A E) (k : A -> result B E) : result B E :=
  match m with Ok a => k a | Err e => Err e end.

Definition result_of_option {A E} (o : option A) (e : E) : result A E :=
  match o with Some a => Ok a | None => Err e end.

#[global] Instance Ok_inj {A E} : Inj (=) (=) (@Ok A E).
Proof. by intros a b [= ->]. Qed.

Definition is_ok {A E} (r : result A E) : bool :=
  match r with Ok _ => true | Err _ => false end.

Notation "'let?' x ':=' m 'in' k" := (result_bind m (fun x => k))
  (at level 200, x pattern, m at level 100, k at level 200) : mirror_scope.

(** Case analysis on the boolean tests of a guard, one at a time. *)
Ltac case_bool :=
  match goal with
  | |- context [if ?b then _ else _] =>
      lazymatch type of b with bool => destruct b eqn:? end
  | H : context [if ?b then _ else _] |- _ =>
      lazymatch type of b with bool => destruct b eqn:? end
  end.

(** Turn boolean comparisons of the code into propositions. *)
Ltac bool_to_prop :=
  repeat match goal with
  | H : _ && _ = true |- _ => apply andb_true_iff in H as [? ?]
  | H : _ || _ = false |- _ => apply orb_false_iff in H as [? ?]
  | H : negb _ = true |- _ => apply negb_true_iff in H
  | H : negb _ = false |- _ => apply negb_false_iff in H
  | H : (_ <=? _)%Z = true |- _ => apply Z.leb_le in H
  | H : (_ <=? _)%Z = false |- _ => apply Z.leb_gt in H
  | H : (_ <? _)%Z = true |- _ => apply Z.ltb_lt in H
  | H : (_ <? _)%Z = false |- _ => apply Z.ltb_ge in H
  | H : (_ =? _)%Z = true |- _ => apply Z.eqb_eq in H
  | H : (_ =? _)%Z = false |- _ => apply Z.eqb_neq in H
  | H : (_ <=? _)%nat = true |- _ => apply Nat.leb_le in H
  | H : (_ <=? _)%nat = false |- _ => apply Nat.leb_gt in H
  | H : (_ <? _)%nat = true |- _ => apply Nat.ltb_lt in H
  | H : (_ <? _)%nat = false |- _ => apply Nat.ltb_ge in H
  | H : (_ =? _)%string = true |- _ => apply String.eqb_eq in H
  | H : (_ =? _)%string = false |- _ => apply String.eqb_neq in H
  end.

(** ** Machine integers

    Integers of width [w] are [Z] in range; every operation that can leave
    the range is written out (saturating, checked, or wrapping). *)

Definition U8_MAX : Z := 255.
Definition U16_MAX : Z := 65535.
Definition U32_MAX : Z := 4294967295.
Definition U64_MAX : Z := 18446744073709551615.
Definition I64_MAX : Z := 9223372036854775807.
Definition U128_MAX : Z := 340282366920938463463374607431768211455.

Definition sat_add_u64 (a b : Z) : Z := Z.min U64_MAX (a + b).
Definition sat_sub_u64 (a b : Z) : Z := Z.max 0 (a - b).
Definition sat_mul_u64 (a b : Z) : Z := Z.min U64_MAX (a * b).
Definition sat_add_u32 (a b : Z) : Z := Z.min U32_MAX (a + b).
Definition sat_add_i64 (a b : Z) : Z := Z.max (- I64_MAX - 1) (Z.min I64_MAX (a + b)).
Definition sat_sub_i64 (a b : Z) : Z := Z.max (- I64_MAX - 1) (Z.min I64_MAX (a - b)).
Definition sat_mul_i64 (a b : Z) : Z := Z.max (- I64_MAX - 1) (Z.min I64_MAX (a * b)).

(** [i64::try_from(value).unwrap_or(i64::MAX)] on a [u64]. *)
Definition u64_to_i64_max (v : Z) : Z := if (v <=? I64_MAX)%Z then v else I64_MAX.

Lemma u64_to_i64_max_min (v : Z) : u64_to_i64_max v = Z.min I64_MAX v.
Proof. unfold u64_to_i64_max. destruct (Z.leb_spec v I64_MAX); lia. Qed.

Lemma u64_to_i64_max_nonneg (v : Z) : (0 <= v)%Z -> (0 <= u64_to_i64_max v <= I64_MAX)%Z.
Proof. rewrite u64_to_i64_max_min. unfold I64_MAX. lia. Qed.

#[export] Hint Resolve u64_to_i64_max_nonneg : mirror.

(** ** Iterator adaptors *)

(** [Iterator::find_map]. *)
Fixpoint find_map {A B} (f : A -> option B) (l : list A) : option B :=
  match l with
  | [] => None
  | x :: t => match f x with Some y => Some y | None => find_map f t end
  end.

(** [Iterator::find]. *)
Definition find_first {A} (p : A -> bool) (l : list A) : option A :=
  find_map (fun x => if p x then Some x else None) l.

Lemma find_map_Some {A B} (f : A -> option B) (l : list A) (y : B) :
  find_map f l = Some y <->
  exists pre x post, l = pre ++ x :: post /\ f x = Some y /\ Forall (fun z => f z = None) pre.
Proof.
  induction l as [|a l IH]; simpl.
  - split; [done|]. by intros ([|? ?] & x & post & ? & _).
  - destruct (f a) eqn:Ha.
    + split.
      * intros [= ->]. by exists [], a, l.
      * intros ([|p pre] & x & post & Heq & Hx & Hpre); simplify_eq/=; [done|].
        apply Forall_cons in Hpre as [??]. congruence.
    + rewrite IH. split.
      * intros (pre & x & post & -> & Hx & Hpre). exists (a :: pre), x, post. auto.
      * intros ([|p pre] & x & post & Heq & Hx & Hpre); simplify_eq/=.
        apply Forall_cons in Hpre as [??]. eauto 6.
Qed.

Lemma find_map_None {A B} (f : A -> option B) (l : list A) :
  find_map f l = None <-> Forall (fun z => f z = None) l.
Proof.
  induction l as [|a l IH]; simpl; [by rewrite Forall_nil|].
  rewrite Forall_cons. destruct (f a); naive_solver.
Qed.

Lemma find_first_Some {A} (p : A -> bool) (l : list A) (x : A) : find_first p l = Some x -> x ∈ l /\ p x = true.
Proof.
  unfold find_first. intros (pre & y & post & -> & Hy & _)%find_map_Some. destruct (p y) eqn:Hp; [|done].
  injection Hy as ->. split; [|done]. apply elem_of_app. right. by left.
Qed.

Lemma existsb_false_Forall {A} (p : A -> bool) (l : list A) :
  existsb p l = false <-> Forall (fun x => p x = false) l.
Proof.
  induction l as [|a l IH]; simpl; [by rewrite Forall_nil|].
  rewrite Forall_cons, orb_false_iff. naive_solver.
Qed.

Lemma existsb_true_Exists {A} (p : A -> bool) (l : list A) :
  existsb p l = true <-> Exists (fun x => p x = true) l.
Proof.
  induction l as [|a l IH]; simpl; [by rewrite Exists_nil|].
  rewrite Exists_cons, orb_true_iff. naive_solver.
Qed.

Lemma forallb_true_Forall {A} (p : A -> bool) (l : list A) :
  forallb p l = true <-> Forall (fun x => p x = true) l.
Proof.
  induction l as [|a l IH]; simpl; [by rewrite Forall_nil|].
  rewrite Forall_cons, andb_true_iff. naive_solver.
Qed.

(** ** Stable sorting: [slice::sort_by_key] and [slice::sort_by]

    The standard library's sorts are stable; the stable sort of a list by a
    total preorder is unique, so insertion sort denotes the same function. *)

Section StableSort.
Context {A : Type} (le : A -> A -> bool).

Fixpoint insert_by (x : A) (l : list A) : list A :=
  match l with
  | [] => [x]
  | y :: t => if le x y then x :: y :: t else y :: insert_by x t
  end.

Definition sort_by (l : list A) : list A := foldr insert_by [] l.

Lemma insert_by_perm (x : A) (l : list A) : insert_by x l ≡ₚ x :: l.
Proof.
  induction l as [|y t IH]; simpl; [done|].
  destruct (le x y); [done|]. rewrite IH. apply Permutation_swap.
Qed.

Lemma sort_by_perm (l : list A) : sort_by l ≡ₚ l.
Proof. induction l as [|x t IH]; simpl; [done|]. by rewrite insert_by_perm, IH. Qed.

Lemma sort_by_length (l : list A) : length (sort_by l) = length l.
Proof. apply Permutation_length, sort_by_perm. Qed.

Lemma sort_by_elem_of (x : A) (l : list A) : x ∈ sort_by l <-> x ∈ l.
Proof. by rewrite sort_by_perm. Qed.

Context (le_total : forall x y, le x y = true \/ le y x = true).
Context (le_trans : forall x y z, le x y = true -> le y z = true -> le x z = true).

Lemma insert_by_sorted (x : A) (l : list A) :
  StronglySorted (fun a b => le a b = true) l ->
  StronglySorted (fun a b => le a b = true) (insert_by x l).
Proof.
  induction 1 as [|y t Hs IH Hy]; simpl; [by repeat constructor|].
  destruct (le x y) eqn:Hxy.
  - constructor; [by constructor|]. constructor; [done|].
    eapply Forall_impl; [exact Hy|]. simpl. eauto.
  - constructor; [done|]. rewrite insert_by_perm. constructor; [|done].
    destruct (le_total x y); congruence.
Qed.

Lemma sort_by_sorted (l : list A) : StronglySorted (fun a b => le a b = true) (sort_by l).
Proof. induction l; simpl; [constructor|]. by apply insert_by_sorted. Qed.

End StableSort.

Lemma StronglySorted_weaken {A} (R S : A -> A -> Prop) (l : list A) :
  (forall x y, R x y -> S x y) -> StronglySorted R l -> StronglySorted S l.
Proof.
  intros HRS. induction 1 as [|x l Hs IH Hx]; constructor; [done|]. eapply Forall_impl; [exact Hx|]. auto.
Qed.

(** Stability: among elements the order does not separate, the positions of
    the input, any [before] its elements are in, are kept. *)
Lemma sort_by_stable {A} (le : A -> A -> bool) (before : A -> A -> Prop) (l : list A) :
  (forall x y, le x y = true \/ le y x = true) ->
  (forall x y z, le x y = true -> le y z = true -> le x z = true) ->
  StronglySorted before l ->
  StronglySorted (fun a b => le a b = true /\ (le b a = true -> before a b)) (sort_by le l).
Proof.
  intros Htotal Htrans. induction 1 as [|x l Hs IH Hx]; simpl; [constructor|].
  rewrite <- (sort_by_perm le) in Hx. revert IH Hx. generalize (sort_by le l). clear Hs l.
  induction 1 as [|y t Hs IH Hy]; intros Hx; simpl; [by repeat constructor|].
  apply Forall_cons in Hx as [Hxy Hx]. destruct (le x y) eqn:Exy.
  - constructor; [by constructor|]. constructor; [done|].
    rewrite !Forall_forall in *. intros z Hz. destruct (Hy z Hz) as [Hyz _]. split; [by eapply Htrans|].
    intros _. by apply Hx.
  - constructor; [by apply IH|]. rewrite insert_by_perm. constructor; [|done].
    destruct (Htotal x y) as [|Hyx]; [congruence|]. split; [done|]. congruence.
Qed.

(** A list that is already sorted is left as it is. *)
Lemma sort_by_id {A} (le : A -> A -> bool) (l : list A) :
  StronglySorted (fun a b => le a b = true) l -> sort_by le l = l.
Proof.
  induction 1 as [|y t Hs IH Hy]; simpl; [done|]. rewrite IH.
  destruct t as [|z t]; simpl; [done|]. apply Forall_cons in Hy as [-> _]. done.
Qed.

Lemma NoDup_fmap_inj {A B} (g : A -> B) (l : list A) (x y : A) :
  NoDup (g <$> l) -> x ∈ l -> y ∈ l -> g x = g y -> x = y.
Proof.
  intros Hn (i & Hi)%list_elem_of_lookup (j & Hj)%list_elem_of_lookup He.
  assert (i = j) as ->; [|congruence]. eapply (NoDup_lookup _ _ _ _ Hn); rewrite list_lookup_fmap; [by rewrite Hi|].
  rewrite Hj. simpl. by rewrite He.
Qed.

(** Lists of the same elements sort alike when the order tells them apart. *)
Lemma sort_by_unique {A} (le : A -> A -> bool) (l l' : list A) :
  (forall x y, le x y = true \/ le y x = true) ->
  (forall x y z, le x y = true -> le y z = true -> le x z = true) ->
  (forall x y, x ∈ l -> y ∈ l -> le x y = true -> le y x = true -> x = y) ->
  l ≡ₚ l' -> sort_by le l = sort_by le l'.
Proof.
  intros Htotal Htrans Hanti Hl. eapply StronglySorted_unique_strong.
  - intros x y Hx Hy. apply Hanti; [by apply (sort_by_elem_of le)|]. rewrite Hl. by apply (sort_by_elem_of le).
  - by apply sort_by_sorted.
  - by apply sort_by_sorted.
  - by rewrite !sort_by_perm.
Qed.

(** [sort_by_key] with an integer key. *)
Definition sort_by_key {A} (key : A -> Z) (l : list A) : list A :=
  sort_by (fun a b => (key a <=? key b)%Z) l.

Lemma sort_by_key_perm {A} (key : A -> Z) (l : list A) : sort_by_key key l ≡ₚ l.
Proof. apply sort_by_perm. Qed.

Lemma sort_by_key_sorted {A} (key : A -> Z) (l : list A) :
  StronglySorted (fun a b => (key a <= key b)%Z) (sort_by_key key l).
Proof.
  assert (H : StronglySorted (fun a b => (key a <=? key b)%Z = true) (sort_by_key key l)).
  { apply sort_by_sorted; intros *; [|]; rewrite ?Z.leb_le; lia. }
  revert H. generalize (sort_by_key key l). induction 1 as [|y t Hs IH Hy]; constructor; [done|].
  eapply Forall_impl; [exact Hy|]. simpl. intros ?. by rewrite Z.leb_le.
Qed.

Lemma sort_by_key_unique {A} (key : A -> Z) (l l' : list A) :
  NoDup (key <$> l) -> l ≡ₚ l' -> sort_by_key key l = sort_by_key key l'.
Proof.
  intros Hnd. apply sort_by_unique; intros *; rewrite ?Z.leb_le; [lia|lia|].
  intros Hx Hy Hxy Hyx. apply (NoDup_fmap_inj key l); [done|done|done|lia].
Qed.
