(* ===== verification/RustStr.v ===== *)
(** * The string functions of the Rust standard library

    A [&str] is the [string] of its UTF-8 bytes.  This file defines the
    methods of [str] the server uses, and the lemmas on splitting, joining
    and stripping that the components share. *)
From S2P Require Import Prelude.
From Stdlib Require Export Ascii.
From Stdlib Require String.
From stdpp Require Import pretty.
Open Scope string_scope.
Open Scope list_scope.

#[global] Arguments String.append !_ _ / : simpl nomatch.

(** ** Bytes *)

Definition byte_val (c : ascii) : Z := Z.of_nat (nat_of_ascii c).

Definition is_digit (c : ascii) : bool := (48 <=? byte_val c)%Z && (byte_val c <=? 57)%Z.
Definition is_upper (c : ascii) : bool := (65 <=? byte_val c)%Z && (byte_val c <=? 90)%Z.
Definition is_lower (c : ascii) : bool := (97 <=? byte_val c)%Z && (byte_val c <=? 122)%Z.

(** [u8::is_ascii_alphanumeric]. *)
Definition is_ascii_alphanumeric (c : ascii) : bool := is_digit c || is_upper c || is_lower c.

Definition ascii_lower (c : ascii) : ascii :=
  if is_upper c then ascii_of_nat (nat_of_ascii c + 32) else c.

(** [str::to_ascii_lowercase]. *)
Fixpoint to_ascii_lowercase (s : string) : string :=
  match s with
  | EmptyString => EmptyString
  | String c t => String (ascii_lower c) (to_ascii_lowercase t)
  end.

(** [str::eq_ignore_ascii_case]. *)
Definition eq_ignore_ascii_case (a b : string) : bool :=
  (to_ascii_lowercase a =? to_ascii_lowercase b)%string.

(** [str::is_empty]. *)
Definition str_is_empty (s : string) : bool :=
  match s with EmptyString => true | _ => false end.

(** ** White space: [str::trim]

    The code points with the Unicode property White_Space, in UTF-8. *)

Definition ws1 (a : ascii) : bool :=
  let n := byte_val a in ((9 <=? n) && (n <=? 13) || (n =? 32))%Z.
Definition ws2 (a b : ascii) : bool :=
  (byte_val a =? 194)%Z && ((byte_val b =? 133) || (byte_val b =? 160))%Z.
Definition ws3 (a b c : ascii) : bool :=
  let '(x, y, z) := (byte_val a, byte_val b, byte_val c) in
  (((x =? 225) && (y =? 154) && (z =? 128))
   || ((x =? 226) && (y =? 128)
       && (((128 <=? z) && (z <=? 138)) || (z =? 168) || (z =? 169) || (z =? 175)))
   || ((x =? 226) && (y =? 129) && (z =? 159))
   || ((x =? 227) && (y =? 128) && (z =? 128)))%Z.

Fixpoint trim_start (s : string) : string :=
  match s with
  | String a r1 =>
      if ws1 a then trim_start r1 else
      match r1 with
      | String b r2 =>
          if ws2 a b then trim_start r2 else
          match r2 with
          | String c r3 => if ws3 a b c then trim_start r3 else s
          | EmptyString => s
          end
      | EmptyString => s
      end
  | EmptyString => s
  end.

(** The same scan on the reversed bytes. *)
Fixpoint trim_start_rev (s : string) : string :=
  match s with
  | String a r1 =>
      if ws1 a then trim_start_rev r1 else
      match r1 with
      | String b r2 =>
          if ws2 b a then trim_start_rev r2 else
          match r2 with
          | String c r3 => if ws3 c b a then trim_start_rev r3 else s
          | EmptyString => s
          end
      | EmptyString => s
      end
  | EmptyString => s
  end.

Definition str_trim (s : string) : string :=
  String.rev (trim_start_rev (String.rev (trim_start s))).

(** ** Searching *)

(** [str::starts_with(&str)]. *)
Fixpoint starts_with (p s : string) : bool :=
  match p, s with
  | EmptyString, _ => true
  | String a p', String b s' => Ascii.eqb a b && starts_with p' s'
  | String _ _, EmptyString => false
  end.

(** [str::strip_prefix]. *)
Fixpoint strip_prefix (p s : string) : option string :=
  match p, s with
  | EmptyString, _ => Some s
  | String a p', String b s' => if Ascii.eqb a b then strip_prefix p' s' else None
  | String _ _, EmptyString => None
  end.

(** [str::ends_with]. *)
Definition ends_with (p s : string) : bool := starts_with (String.rev p) (String.rev s).

(** [str::strip_suffix]. *)
Definition strip_suffix (p s : string) : option string :=
  String.rev <$> strip_prefix (String.rev p) (String.rev s).

(** [str::contains(char)] for an ASCII character. *)
Fixpoint contains_char (c : ascii) (s : string) : bool :=
  match s with
  | EmptyString => false
  | String a t => Ascii.eqb a c || contains_char c t
  end.

(** [str::contains(&str)]. *)
Fixpoint contains_str (p s : string) : bool :=
  starts_with p s ||
  match s with EmptyString => false | String _ t => contains_str p t end.

(** [s.bytes().all(p)]. *)
Fixpoint all_bytes (p : ascii -> bool) (s : string) : bool :=
  match s with EmptyString => true | String a t => p a && all_bytes p t end.

(** [s.chars().any(char::is_control)]: U+0000..1F, U+7F and U+80..9F. *)
Fixpoint has_control (s : string) : bool :=
  match s with
  | EmptyString => false
  | String a t =>
      ((byte_val a <? 32) || (byte_val a =? 127))%Z
      || match t with
         | String b _ => ((byte_val a =? 194) && (128 <=? byte_val b) && (byte_val b <=? 159))%Z
         | EmptyString => false
         end
      || has_control t
  end.

(** ** Splitting *)

(** [s.chars().any(char::is_whitespace)], on well-formed UTF-8. *)
Fixpoint has_whitespace (s : string) : bool :=
  match s with
  | EmptyString => false
  | String a r1 =>
      ws1 a
      || match r1 with
         | String b r2 => ws2 a b || match r2 with String c _ => ws3 a b c | EmptyString => false end
         | EmptyString => false
         end
      || has_whitespace r1
  end.

(** [str::chars().count()]: the bytes that do not continue a character. *)
Fixpoint char_count (s : string) : Z :=
  match s with
  | EmptyString => 0
  | String c t => ((if (128 <=? byte_val c) && (byte_val c <=? 191) then 0 else 1) + char_count t)%Z
  end.

(** [str::len]. *)
Definition str_len (s : string) : Z := Z.of_nat (String.length s).

(** ** [BTreeMap<String, V>]: an association list in the order of its keys *)

Fixpoint btree_get {V} (k : string) (m : list (string * V)) : option V :=
  match m with
  | [] => None
  | (k', v) :: r => if (k =? k')%string then Some v else btree_get k r
  end.

Fixpoint btree_insert {V} (k : string) (v : V) (m : list (string * V)) : list (string * V) :=
  match m with
  | [] => [(k, v)]
  | (k', v') :: r =>
      if (k =? k')%string then (k, v) :: r
      else if String.ltb k k' then (k, v) :: m
      else (k', v') :: btree_insert k v r
  end.

(** [entry(k).or_insert(v)]. *)
Definition btree_or_insert {V} (k : string) (v : V) (m : list (string * V)) : list (string * V) :=
  match btree_get k m with Some _ => m | None => btree_insert k v m end.

(** The bytes of a string, as numbers. *)
Fixpoint string_of_bytes (l : list Z) : string :=
  match l with
  | [] => ""
  | b :: t => String (ascii_of_nat (Z.to_nat b)) (string_of_bytes t)
  end.

Fixpoint bytes_of_string (s : string) : list Z :=
  match s with
  | EmptyString => []
  | String c t => byte_val c :: bytes_of_string t
  end.

(** [str::from_utf8]: the well-formed sequences of UTF-8. *)
Definition in_range (lo hi : Z) (c : ascii) : bool := (lo <=? byte_val c)%Z && (byte_val c <=? hi)%Z.

Fixpoint utf8_valid (s : string) : bool :=
  match s with
  | EmptyString => true
  | String a t =>
      if (byte_val a <? 128)%Z then utf8_valid t
      else match t with
      | EmptyString => false
      | String b t =>
          if in_range 194 223 a then in_range 128 191 b && utf8_valid t
          else match t with
          | EmptyString => false
          | String c t =>
              if in_range 224 239 a then
                in_range (if (byte_val a =? 224)%Z then 160 else 128)
                         (if (byte_val a =? 237)%Z then 159 else 191) b
                && in_range 128 191 c && utf8_valid t
              else match t with
              | EmptyString => false
              | String d t =>
                  in_range 240 244 a
                  && in_range (if (byte_val a =? 240)%Z then 144 else 128)
                              (if (byte_val a =? 244)%Z then 143 else 191) b
                  && in_range 128 191 c && in_range 128 191 d && utf8_valid t
              end
          end
      end
  end.

(** [str::split(char)]: never empty. *)
Fixpoint str_split (sep : ascii) (s : string) : list string :=
  match s with
  | EmptyString => [""]
  | String c t =>
      if Ascii.eqb c sep then "" :: str_split sep t
      else match str_split sep t with
           | h :: r => String c h :: r
           | [] => [String c ""]
           end
  end.

(** [[T]::join]. *)
Fixpoint str_join (sep : string) (l : list string) : string :=
  match l with
  | [] => ""
  | [x] => x
  | x :: t => x +:+ sep +:+ str_join sep t
  end.

(** [str::split_once(char)]. *)
Fixpoint split_once (sep : ascii) (s : string) : option (string * string) :=
  match s with
  | EmptyString => None
  | String c t =>
      if Ascii.eqb c sep then Some ("", t)
      else match split_once sep t with
           | Some (a, b) => Some (String c a, b)
           | None => None
           end
  end.

(** [str::trim_start_matches(char)]. *)
Fixpoint trim_start_matches (c : ascii) (s : string) : string :=
  match s with
  | String a t => if Ascii.eqb a c then trim_start_matches c t else s
  | EmptyString => s
  end.

(** [str::trim_end_matches(char)]. *)
Fixpoint trim_end_matches (c : ascii) (s : string) : string :=
  match s with
  | EmptyString => EmptyString
  | String a t =>
      match trim_end_matches c t with
      | EmptyString => if Ascii.eqb a c then EmptyString else String a EmptyString
      | t' => String a t'
      end
  end.

(** [str::trim_matches(char)]. *)
Definition trim_matches (c : ascii) (s : string) : string :=
  trim_end_matches c (trim_start_matches c s).

(** ** Unsigned decimal numbers: [str::parse::<uN>()] *)

Definition digit_val (c : ascii) : option Z :=
  if is_digit c then Some (byte_val c - 48)%Z else None.

Fixpoint parse_digits (max acc : Z) (s : string) : option Z :=
  match s with
  | EmptyString => Some acc
  | String c t =>
      match digit_val c with
      | Some d => let acc' := (acc * 10 + d)%Z in
                  if (acc' <=? max)%Z then parse_digits max acc' t else None
      | None => None
      end
  end.

Definition parse_uint (max : Z) (s : string) : option Z :=
  let body := match s with
              | String c t => if Ascii.eqb c "+" then t else s
              | EmptyString => s
              end in
  match body with
  | EmptyString => None
  | _ => parse_digits max 0 body
  end.

(** [format!("{}", n)] for an unsigned integer. *)
Definition show_uint (n : Z) : string := pretty (Z.to_N n).

(** ** Lemmas *)

Lemma str_app_nil_r (s : string) : s +:+ "" = s.
Proof. induction s; simpl; congruence. Qed.

Lemma str_app_assoc (a b c : string) : a +:+ (b +:+ c) = (a +:+ b) +:+ c.
Proof. induction a; simpl; congruence. Qed.

Lemma str_app_inj_l (a b c : string) : a +:+ b = a +:+ c -> b = c.
Proof. induction a; simpl; [done|]. intros [= H]. auto. Qed.

Lemma str_length_app (a b : string) :
  String.length (a +:+ b) = (String.length a + String.length b)%nat.
Proof. induction a; simpl; congruence. Qed.

Lemma strip_prefix_Some (p s t : string) : strip_prefix p s = Some t <-> s = p +:+ t.
Proof.
  revert s. induction p as [|a p IH]; intros s; simpl.
  - naive_solver.
  - destruct s as [|b s]; [naive_solver|].
    destruct (Ascii.eqb_spec a b) as [->|Hne]; [rewrite IH|]; naive_solver.
Qed.

Lemma strip_prefix_app (p t : string) : strip_prefix p (p +:+ t) = Some t.
Proof. by apply strip_prefix_Some. Qed.

Lemma starts_with_strip (p s : string) : starts_with p s = true <-> is_Some (strip_prefix p s).
Proof.
  revert s. induction p as [|a p IH]; intros s; simpl; [naive_solver|].
  destruct s as [|b s]; [naive_solver|].
  destruct (Ascii.eqb_spec a b); simpl; [apply IH|]. split; [done|by intros [??]].
Qed.

Lemma starts_with_spec (p s : string) : starts_with p s = true <-> exists t, s = p +:+ t.
Proof.
  rewrite starts_with_strip. split.
  - intros [t H]. exists t. by apply strip_prefix_Some.
  - intros [t ->]. exists t. apply strip_prefix_app.
Qed.

Lemma starts_with_app (p t : string) : starts_with p (p +:+ t) = true.
Proof. apply starts_with_spec. eauto. Qed.

Lemma contains_char_app (c : ascii) (a b : string) :
  contains_char c (a +:+ b) = contains_char c a || contains_char c b.
Proof. induction a; simpl; [done|]. by rewrite IHa, orb_assoc. Qed.

Lemma str_split_nonempty (c : ascii) (s : string) : str_split c s <> [].
Proof. destruct s as [|a s]; simpl; [done|]. by destruct (Ascii.eqb a c), (str_split c s). Qed.

(** Joining the pieces of a split gives the string back. *)
Lemma str_join_split (c : ascii) (s : string) :
  str_join (String c "") (str_split c s) = s.
Proof.
  induction s as [|a s IH]; simpl; [done|].
  pose proof (str_split_nonempty c s) as Hne.
  destruct (Ascii.eqb_spec a c) as [->|Hac]; destruct (str_split c s) as [|h r]; try done.
  - simpl in *. by rewrite IH.
  - simpl in *. destruct r; simpl in *; by rewrite IH.
Qed.

(** No piece of a split contains the separator. *)
Lemma str_split_pieces (c : ascii) (s : string) :
  Forall (fun p => contains_char c p = false) (str_split c s).
Proof.
  induction s as [|a s IH]; simpl; [by repeat constructor|].
  destruct (Ascii.eqb a c) eqn:Ha; [by constructor|].
  destruct (str_split c s) as [|h r]; [repeat constructor; simpl; by rewrite Ha|].
  apply Forall_cons in IH as [Hh Hr]. constructor; [simpl; by rewrite Ha|done].
Qed.

Lemma str_split_no_sep (c : ascii) (s : string) :
  contains_char c s = false -> str_split c s = [s].
Proof.
  induction s as [|a s IH]; simpl; [done|].
  intros [Ha Hs]%orb_false_iff. by rewrite Ha, IH.
Qed.

Lemma str_split_app (c : ascii) (a b : string) :
  contains_char c a = false ->
  str_split c (a +:+ String c b) = a :: str_split c b.
Proof.
  induction a as [|x a IH]; simpl; [by rewrite Ascii.eqb_refl|].
  intros [Hx Ha]%orb_false_iff. by rewrite Hx, IH.
Qed.

Lemma str_split_concat (c : ascii) (a b : string) :
  str_split c (a +:+ String c b) = str_split c a ++ str_split c b.
Proof.
  induction a as [|x a IH]; simpl; [by rewrite Ascii.eqb_refl|].
  rewrite IH. destruct (Ascii.eqb x c); [done|].
  pose proof (str_split_nonempty c a). by destruct (str_split c a).
Qed.

Lemma split_once_Some (c : ascii) (s a b : string) :
  split_once c s = Some (a, b) <-> s = a +:+ String c b /\ contains_char c a = false.
Proof.
  revert a b. induction s as [|x s IH]; intros a b; simpl.
  { split; [done|]. by intros [H%eq_sym ?]; destruct a. }
  destruct (Ascii.eqb_spec x c) as [->|Hx].
  - split; [by intros [= <- <-]|]. intros [H Hc]. destruct a as [|y a]; simplify_eq/=; [done|].
    by rewrite Ascii.eqb_refl in Hc.
  - assert (Hxf : Ascii.eqb x c = false) by (by apply Ascii.eqb_neq).
    assert (IH' : split_once c (String x s) = (fun p => (String x p.1, p.2)) <$> split_once c s).
    { simpl. rewrite Hxf. by destruct (split_once c s) as [[??]|]. }
    simpl in IH'. rewrite Hxf in IH'. rewrite IH', fmap_Some. split.
    + intros ([a' b'] & Hs & [= -> ->]). apply IH in Hs as [-> Hc]. simpl. by rewrite Hxf.
    + intros [H Hc]. destruct a as [|y a]; simplify_eq/=.
      rewrite Hxf in Hc. exists (a, b). split; [by apply IH|done].
Qed.

Lemma split_once_None (c : ascii) (s : string) :
  split_once c s = None <-> contains_char c s = false.
Proof.
  induction s as [|x s IH]; simpl; [done|].
  destruct (Ascii.eqb x c); simpl; [done|].
  rewrite <- IH. by destruct (split_once c s) as [[??]|].
Qed.

Lemma trim_start_matches_head (c : ascii) (s : string) :
  match trim_start_matches c s with
  | String a _ => Ascii.eqb a c = false
  | EmptyString => True
  end.
Proof. induction s as [|a s IH]; simpl; [done|]. by destruct (Ascii.eqb a c) eqn:E. Qed.

Lemma trim_start_matches_id (c : ascii) (s : string) :
  starts_with (String c "") s = false -> trim_start_matches c s = s.
Proof.
  destruct s as [|a s]; simpl; [done|].
  rewrite (Ascii.eqb_sym a). destruct (Ascii.eqb c a); simpl; [by destruct s|done].
Qed.

Lemma trim_end_matches_no_suffix (c : ascii) (s a : string) :
  trim_end_matches c s <> a +:+ String c "".
Proof.
  revert a. induction s as [|x s IH]; intros a; simpl.
  { by destruct a. }
  destruct (trim_end_matches c s) as [|y t] eqn:Hs.
  - destruct (Ascii.eqb_spec x c); destruct a as [|z a]; simpl; try congruence.
  - destruct a as [|z a]; simpl; [congruence|]. intros [= _ H]. by apply (IH a).
Qed.

(** The cases of a digit. *)
Ltac by_ten Hm :=
  match type of Hm with (?d < 10)%N =>
    revert Hm; generalize d; let m := fresh "m" in intros m Hm;
    destruct m as [|m]; [done|do 4 (try destruct m as [m|m|]); first [done|lia]]
  end.

(** A printed number is digits. *)
Lemma show_uint_digits (n : Z) : all_bytes is_digit (show_uint n) = true.
Proof.
  unfold show_uint, pretty, pretty_N. case_decide; [done|]. generalize (Z.to_N n). intros x.
  assert (forall s, all_bytes is_digit s = true -> all_bytes is_digit (pretty_N_go x s) = true) as Hgo; [|by apply Hgo].
  induction (N.lt_wf_0 x) as [x _ IH]. intros s Hs. destruct (decide (x = 0)%N) as [->|Hx]; [by rewrite pretty_N_go_0|].
  rewrite pretty_N_go_step by lia. apply IH; [apply N.div_lt; lia|]. cbn [all_bytes]. rewrite Hs, andb_true_r.
  pose proof (N.mod_lt x 10 ltac:(lia)) as Hm. by_ten Hm.
Qed.

(** A printed number reads back. *)
Lemma parse_digits_pretty (max : Z) (x : N) (s : string) :
  (Z.of_N x <= max)%Z -> parse_digits max 0 (pretty_N_go x s) = parse_digits max (Z.of_N x) s.
Proof.
  revert s. induction (N.lt_wf_0 x) as [x _ IH]; intros s Hx. destruct (decide (x = 0)%N) as [->|Hne].
  { by rewrite pretty_N_go_0. }
  rewrite pretty_N_go_step by lia. pose proof (N.div_mod x 10 ltac:(lia)) as Hd.
  assert (Hm : (x `mod` 10 < 10)%N) by (apply N.mod_lt; lia).
  assert (Hlt : (x `div` 10 < x)%N) by (apply N.div_lt; lia).
  rewrite IH; [|exact Hlt|generalize dependent (x `div` 10)%N; intros; lia]. cbn [parse_digits].
  assert (digit_val (pretty_N_char (x `mod` 10)) = Some (Z.of_N (x `mod` 10))) as -> by by_ten Hm.
  assert (Z.of_N (x `div` 10) * 10 + Z.of_N (x `mod` 10) = Z.of_N x)%Z as -> by lia.
  destruct (Z.leb_spec (Z.of_N x) max); [done|lia].
Qed.

Lemma pretty_N_go_digit (x : N) (s : string) :
  (0 < x)%N -> exists c t, pretty_N_go x s = String c t /\ is_digit c = true.
Proof.
  revert s. induction (N.lt_wf_0 x) as [x _ IH]; intros s Hx. rewrite pretty_N_go_step by lia.
  destruct (decide (x `div` 10 = 0)%N) as [->|Hne].
  - rewrite pretty_N_go_0. eexists _, _. split; [done|].
    assert (x `mod` 10 < 10)%N as Hm by (apply N.mod_lt; lia). by_ten Hm.
  - apply IH; [apply N.div_lt; lia|]. by apply N.neq_0_lt_0.
Qed.

Lemma parse_show_uint (max n : Z) : (0 <= n <= max)%Z -> parse_uint max (show_uint n) = Some n.
Proof.
  intros Hn. unfold show_uint, pretty, pretty_N. case_decide as Hz.
  { assert (n = 0)%Z as -> by lia. unfold parse_uint. cbn. change (digit_val "0") with (Some 0%Z). cbv beta iota.
    change (0 * 10 + 0)%Z with 0%Z. destruct (Z.leb_spec 0 max); [done|lia]. }
  destruct (pretty_N_go_digit (Z.to_N n) "" ltac:(lia)) as (c & t & Hc & Hd).
  unfold parse_uint. rewrite Hc.
  assert (Ascii.eqb c "+" = false) as -> by (destruct (Ascii.eqb_spec c "+") as [->|]; [done|done]).
  rewrite <- Hc, parse_digits_pretty by lia. cbn. by rewrite Z2N.id by lia.
Qed.

Lemma parse_digits_bound (max acc : Z) (s : string) (n : Z) :
  (0 <= acc <= max)%Z -> parse_digits max acc s = Some n -> (0 <= n <= max)%Z.
Proof.
  revert acc. induction s as [|c s IH]; intros acc Hacc; simpl; [congruence|].
  unfold digit_val. destruct (is_digit c) eqn:Hd; [|done].
  destruct (Z.leb_spec (acc * 10 + (byte_val c - 48)) max); [|done].
  unfold is_digit in Hd. bool_to_prop. apply IH. lia.
Qed.

(** A parsed number is in the range of its type. *)
Lemma parse_uint_bound (max : Z) (s : string) (n : Z) :
  (0 <= max)%Z -> parse_uint max s = Some n -> (0 <= n <= max)%Z.
Proof.
  intros Hmax. unfold parse_uint.
  destruct (match s with String c t => if Ascii.eqb c "+" then t else s | "" => s end); [done|].
  apply parse_digits_bound. lia.
Qed.

#[export] Hint Resolve str_split_nonempty str_split_pieces : mirror.
#[export] Hint Rewrite str_app_nil_r strip_prefix_app starts_with_app : mirror.

(** ** Predicates on every byte *)

Lemma all_bytes_app (p : ascii -> bool) (a b : string) :
  all_bytes p (a +:+ b) = all_bytes p a && all_bytes p b.
Proof. induction a as [|x a IH]; simpl; [done|]. by rewrite IH, andb_assoc. Qed.

Lemma rev_app_spec (a b : string) : String.rev_app a b = String.rev a +:+ b.
Proof.
  unfold String.rev. revert b. induction a as [|x a IH]; intros b; simpl; [done|].
  rewrite IH, (IH (String x "")). by rewrite <- str_app_assoc.
Qed.

Lemma string_rev_cons (x : ascii) (s : string) : String.rev (String x s) = String.rev s +:+ String x "".
Proof. unfold String.rev at 1. simpl. apply rev_app_spec. Qed.

Lemma string_rev_app (a b : string) : String.rev (a +:+ b) = String.rev b +:+ String.rev a.
Proof.
  induction a as [|x a IH]; simpl; [by rewrite str_app_nil_r|].
  by rewrite !string_rev_cons, IH, str_app_assoc.
Qed.

Lemma string_rev_involutive (s : string) : String.rev (String.rev s) = s.
Proof. induction s as [|x s IH]; [done|]. by rewrite string_rev_cons, string_rev_app, IH. Qed.

Lemma all_bytes_rev (p : ascii -> bool) (s : string) : all_bytes p (String.rev s) = all_bytes p s.
Proof.
  induction s as [|x s IH]; simpl; [done|].
  rewrite string_rev_cons, all_bytes_app, IH. simpl. by rewrite andb_true_r, andb_comm.
Qed.

Lemma all_bytes_impl (p q : ascii -> bool) (s : string) :
  (forall c, p c = true -> q c = true) -> all_bytes p s = true -> all_bytes q s = true.
Proof.
  intros Hpq. induction s as [|x s IH]; simpl; [done|].
  intros [Hx Hs]%andb_true_iff. by rewrite (Hpq _ Hx), IH.
Qed.

Lemma all_bytes_no_char (p : ascii -> bool) (c : ascii) (s : string) :
  p c = false -> all_bytes p s = true -> contains_char c s = false.
Proof.
  intros Hc. induction s as [|x s IH]; simpl; [done|]. intros [Hx Hs]%andb_true_iff.
  destruct (Ascii.eqb_spec x c) as [->|]; [congruence|]. by rewrite IH.
Qed.

(** Printable ASCII without the space. *)
Definition is_graphic (c : ascii) : bool := (33 <=? byte_val c)%Z && (byte_val c <=? 126)%Z.

Lemma trim_start_graphic (a : ascii) (s : string) :
  is_graphic a = true -> trim_start (String a s) = String a s /\ trim_start_rev (String a s) = String a s.
Proof.
  unfold is_graphic. intros Ha. bool_to_prop. simpl.
  assert (ws1 a = false) as ->.
  { unfold ws1. apply orb_false_iff. rewrite andb_false_iff. split; [right|]; lia. }
  destruct s as [|b s]; [done|].
  assert (ws2 a b = false) as ->.
  { unfold ws2. apply andb_false_iff. left. lia. }
  assert (ws2 b a = false) as ->.
  { unfold ws2. apply andb_false_iff. right. apply orb_false_iff. lia. }
  destruct s as [|c s]; [done|].
  assert (ws3 a b c = false) as ->.
  { unfold ws3. rewrite !orb_false_iff, !andb_false_iff. lia. }
  assert (ws3 c b a = false) as ->; [|done].
  unfold ws3. rewrite !orb_false_iff, !andb_false_iff, !orb_false_iff, !andb_false_iff. lia.
Qed.

(** The parts of a text. *)
Lemma str_len_app (a b : string) : str_len (a +:+ b) = (str_len a + str_len b)%Z.
Proof. unfold str_len. rewrite str_length_app. lia. Qed.

Lemma substring_cut (s : string) (n : nat) :
  (n <= String.length s)%nat ->
  String.substring 0 n s +:+ String.substring n (String.length s - n) s = s /\
  String.length (String.substring 0 n s) = n /\
  String.length (String.substring n (String.length s - n) s) = (String.length s - n)%nat.
Proof.
  revert n. induction s as [|c s IH]; intros [|n] Hn; cbn in *; try done; try lia.
  - destruct (IH 0%nat ltac:(lia)) as (P1 & P2 & P3). rewrite Nat.sub_0_r in P1, P3.
    assert (String.substring 0 0 s = "") as He by by destruct s. rewrite He in P1. cbn in P1. by rewrite P1.
  - destruct (IH n ltac:(lia)) as (P1 & P2 & P3). rewrite P1, P2, P3. done.
Qed.

Lemma substring_short (s : string) (n : nat) :
  (String.length s <= n)%nat -> String.substring 0 n s = s /\ String.substring n (String.length s - n) s = "".
Proof.
  revert n. induction s as [|c s IH]; intros [|n] Hn; cbn in *; try done; try lia.
  destruct (IH n ltac:(lia)) as [-> ->]. done.
Qed.

(** Text without white space is its own trimming. *)
Lemma str_trim_graphic (s : string) : all_bytes is_graphic s = true -> str_trim s = s.
Proof.
  intros H. unfold str_trim. destruct s as [|a s]; [done|].
  assert (Ha : is_graphic a = true) by (simpl in H; by apply andb_true_iff in H as [? _]).
  rewrite (proj1 (trim_start_graphic a s Ha)).
  rewrite <- all_bytes_rev in H. destruct (String.rev (String a s)) as [|z r] eqn:E; simpl in H.
  - apply (f_equal String.rev) in E. rewrite string_rev_involutive in E. done.
  - apply andb_true_iff in H as [Hz _]. rewrite (proj2 (trim_start_graphic z r Hz)), <- E.
    apply string_rev_involutive.
Qed.

Lemma str_split_join (c : ascii) (l : list string) :
  l <> [] -> Forall (fun s => contains_char c s = false) l ->
  str_split c (str_join (String c "") l) = l.
Proof.
  intros Hne H. induction H as [|s l Hs Hl IH]; [done|]. destruct l as [|t l]; simpl.
  - by apply str_split_no_sep.
  - change (String c "" +:+ ?r) with (String c r). rewrite str_split_app by done. f_equal. by apply IH.
Qed.

Lemma all_bytes_split (p : ascii -> bool) (c : ascii) (s : string) :
  all_bytes p s = true -> Forall (fun t => all_bytes p t = true) (str_split c s).
Proof.
  induction s as [|x s IH]; simpl; [by repeat constructor|].
  intros [Hx Hs]%andb_true_iff. specialize (IH Hs).
  destruct (Ascii.eqb x c); [by constructor|].
  destruct (str_split c s); [|inversion IH; subst]; constructor; simpl; by rewrite ?Hx.
Qed.

Lemma all_bytes_join (p : ascii -> bool) (sep : string) (l : list string) :
  all_bytes p sep = true -> Forall (fun t => all_bytes p t = true) l -> all_bytes p (str_join sep l) = true.
Proof.
  intros Hsep H. induction H as [|s l Hs Hl IH]; [done|]. cbn [str_join].
  destruct l; [done|]. by rewrite !all_bytes_app, Hs, Hsep, IH.
Qed.

Fixpoint str_repeat (c : ascii) (n : nat) : string :=
  match n with O => "" | S n => String c (str_repeat c n) end.

(** [trim_end_matches] removes a run of the character. *)
Lemma trim_end_matches_decomp (c : ascii) (s : string) :
  exists n, s = trim_end_matches c s +:+ str_repeat c n.
Proof.
  induction s as [|x s [n IH]]; [by exists 0%nat|]. simpl.
  destruct (trim_end_matches c s) as [|y t].
  - destruct (Ascii.eqb_spec x c) as [->|_].
    + exists (S n). simpl in *. by rewrite <- IH.
    + exists n. simpl in *. by rewrite <- IH.
  - exists n. simpl in *. by rewrite <- IH.
Qed.

(** [trim_start_matches] too. *)
Lemma trim_start_matches_decomp (c : ascii) (s : string) :
  exists n, s = str_repeat c n +:+ trim_start_matches c s.
Proof.
  induction s as [|x s [n IH]]; [by exists 0%nat|]. simpl. destruct (Ascii.eqb_spec x c) as [->|_].
  - exists (S n). simpl. by rewrite <- IH.
  - by exists 0%nat.
Qed.

Lemma lower_idem (s : string) : to_ascii_lowercase (to_ascii_lowercase s) = to_ascii_lowercase s.
Proof.
  induction s as [|c s IH]; [done|]. simpl. rewrite IH. f_equal.
  by destruct c as [[] [] [] [] [] [] [] []].
Qed.
