(* ===== verification/Lines.v ===== *)
(** * Texts, lines and words

    More methods of [str]: replacing, splitting at a string, into lines and
    into words, with the lemmas that put the pieces together again. *)
From S2P Require Import Prelude RustStr.
Open Scope string_scope.
Open Scope list_scope.

Definition nl : string := String (ascii_of_nat 10) EmptyString.
Definition cr : string := String (ascii_of_nat 13) EmptyString.
Definition tab : string := String (ascii_of_nat 9) EmptyString.
Definition dq : string := String (ascii_of_nat 34) EmptyString.

(** The concatenation of some pieces. *)
Definition joined (parts : list string) : string := foldr String.append "" parts.

Lemma joined_app (a b : list string) : joined (a ++ b) = joined a +:+ joined b.
Proof.
  induction a as [|x a IH]; [done|]. change (x +:+ joined (a ++ b) = (x +:+ joined a) +:+ joined b).
  by rewrite IH, str_app_assoc.
Qed.

(** [str::replace(&str, &str)], for a pattern that is not empty. *)
Fixpoint replace_fuel (fuel : nat) (from to s : string) : string :=
  match fuel with
  | O => s
  | S fuel =>
      match strip_prefix from s, s with
      | Some rest, _ => to +:+ replace_fuel fuel from to rest
      | None, String c t => String c (replace_fuel fuel from to t)
      | None, EmptyString => EmptyString
      end
  end.

Definition str_replace (from to s : string) : string := replace_fuel (String.length s) from to s.

(** [str::split_once(&str)]. *)
Fixpoint split_once_str (sep s : string) : option (string * string) :=
  match strip_prefix sep s with
  | Some rest => Some ("", rest)
  | None =>
      match s with
      | EmptyString => None
      | String c t => match split_once_str sep t with Some (a, b) => Some (String c a, b) | None => None end
      end
  end.

(** [str::split_inclusive(char)]. *)
Fixpoint split_inclusive (sep : ascii) (s : string) : list string :=
  match s with
  | EmptyString => []
  | String c t =>
      if Ascii.eqb c sep then String c EmptyString :: split_inclusive sep t
      else match split_inclusive sep t with
           | h :: r => String c h :: r
           | [] => [String c EmptyString]
           end
  end.

Definition newline : ascii := ascii_of_nat 10.

Definition drop_line_end (line : string) : string :=
  match strip_suffix nl line with
  | Some line => default line (strip_suffix cr line)
  | None => line
  end.

(** [str::lines]. *)
Definition str_lines (s : string) : list string := drop_line_end <$> split_inclusive newline s.

(** The white space character at the head, and what follows it. *)
Definition ws_head (s : string) : option (string * string) :=
  match s with
  | String a r1 =>
      if ws1 a then Some (String a EmptyString, r1)
      else match r1 with
           | String b r2 =>
               if ws2 a b then Some (String a (String b EmptyString), r2)
               else match r2 with
                    | String c r3 => if ws3 a b c then Some (String a (String b (String c EmptyString)), r3) else None
                    | EmptyString => None
                    end
           | EmptyString => None
           end
  | EmptyString => None
  end.

(** A run of white space, or of other characters: [ws] says which. *)
Fixpoint span_ws (ws : bool) (fuel : nat) (s : string) : string * string :=
  match fuel with
  | O => (EmptyString, s)
  | S fuel =>
      match s with
      | EmptyString => (EmptyString, EmptyString)
      | String c t =>
          match ws_head s with
          | Some (h, rest) =>
              if ws then let '(a, b) := span_ws ws fuel rest in (h +:+ a, b) else (EmptyString, s)
          | None =>
              if ws then (EmptyString, s) else let '(a, b) := span_ws ws fuel t in (String c a, b)
          end
      end
  end.

(** The alternating runs of a text, none of them empty. *)
Fixpoint runs (fuel : nat) (s : string) : list (bool * string) :=
  match fuel with
  | O => []
  | S fuel =>
      if str_is_empty s then []
      else
        let ws := match ws_head s with Some _ => true | None => false end in
        let '(a, b) := span_ws ws (String.length s) s in
        (ws, a) :: runs fuel b
  end.

(** [str::split_whitespace]. *)
Definition split_whitespace (s : string) : list string :=
  omap (fun r : bool * string => if r.1 then None else Some r.2) (runs (String.length s) s).

(** ** Lemmas *)

Lemma split_inclusive_joined (sep : ascii) (s : string) : joined (split_inclusive sep s) = s.
Proof.
  induction s as [|c s IH]; [done|]. cbn [split_inclusive]. destruct (Ascii.eqb c sep).
  - change (String c "" +:+ joined (split_inclusive sep s) = String c s). by rewrite IH.
  - destruct (split_inclusive sep s) as [|h r]; cbn in *; by rewrite <-IH.
Qed.

(** A line has its end as its last byte only. *)
Lemma split_inclusive_lines (sep : ascii) (s : string) :
  Forall (fun l => contains_char sep l = false \/ exists a, l = a +:+ String sep "" /\ contains_char sep a = false)
    (split_inclusive sep s).
Proof.
  induction s as [|c s IH]; cbn [split_inclusive]; [constructor|]. destruct (Ascii.eqb_spec c sep) as [->|Hc].
  { constructor; [|done]. right. by exists "". }
  destruct (split_inclusive sep s) as [|h r].
  - constructor; [left; cbn|constructor]. rewrite orb_false_r. by apply Ascii.eqb_neq.
  - apply Forall_cons in IH as [Hh Hr]. constructor; [|done]. apply Ascii.eqb_neq in Hc.
    destruct Hh as [Hh|(a & -> & Ha)]; [left|right; exists (String c a); split; [done|]]; cbn; by rewrite Hc.
Qed.

Lemma ws_head_split (s h rest : string) : ws_head s = Some (h, rest) -> s = h +:+ rest /\ h <> "".
Proof.
  unfold ws_head. destruct s as [|a r1]; [done|]. destruct (ws1 a); [intros [= <- <-]; done|].
  destruct r1 as [|b r2]; [done|]. destruct (ws2 a b); [intros [= <- <-]; done|].
  destruct r2 as [|c r3]; [done|]. destruct (ws3 a b c); [intros [= <- <-]; done|done].
Qed.

Lemma span_ws_split (ws : bool) (fuel : nat) (s : string) :
  let '(a, b) := span_ws ws fuel s in s = a +:+ b.
Proof.
  revert s. induction fuel as [|fuel IH]; intros s; cbn [span_ws]; [done|]. destruct s as [|c t]; [done|].
  destruct (ws_head (String c t)) as [[h rest]|] eqn:E; destruct ws; try done.
  - apply ws_head_split in E as [E _]. specialize (IH rest). destruct (span_ws true fuel rest) as [a b].
    rewrite E, IH. apply str_app_assoc.
  - specialize (IH t). destruct (span_ws false fuel t) as [a b]. cbn. by rewrite IH.
Qed.

Lemma span_ws_moves (ws : bool) (s : string) :
  s <> "" -> ws = match ws_head s with Some _ => true | None => false end ->
  let '(a, b) := span_ws ws (String.length s) s in (String.length b < String.length s)%nat.
Proof.
  intros Hs Hw. destruct s as [|c t]; [done|]. cbn [String.length span_ws].
  destruct (ws_head (String c t)) as [[h rest]|] eqn:E; subst ws.
  - apply ws_head_split in E as [E Hh]. pose proof (span_ws_split true (String.length t) rest) as Hsp.
    destruct (span_ws true _ rest) as [a b].
    assert (Hl : String.length (String c t) = String.length (h +:+ rest)) by by rewrite E.
    rewrite str_length_app, Hsp, str_length_app in Hl. cbn in Hl. destruct h; [done|cbn in Hl; lia].
  - pose proof (span_ws_split false (String.length t) t) as Hsp. destruct (span_ws false _ t) as [a b].
    assert (Hl : String.length t = String.length (a +:+ b)) by by rewrite <-Hsp. rewrite str_length_app in Hl. cbn. lia.
Qed.

(** The runs are the text. *)
Lemma runs_joined (fuel : nat) (s : string) : (String.length s <= fuel)%nat -> joined (snd <$> runs fuel s) = s.
Proof.
  revert s. induction fuel as [|fuel IH]; intros s Hl; cbn [runs].
  { destruct s; [done|cbn in Hl; lia]. }
  destruct (str_is_empty s) eqn:He; [by destruct s|]. assert (s <> "") as Hs by by destruct s.
  pose proof (span_ws_split (match ws_head s with Some _ => true | None => false end) (String.length s) s) as Hsp.
  pose proof (span_ws_moves _ s Hs eq_refl) as Hm. destruct (span_ws _ _ s) as [a b].
  change (a +:+ joined (snd <$> runs fuel b) = s). rewrite IH by lia. by symmetry.
Qed.

(** What [trim_start] removes. *)
Lemma trim_start_suffix (s : string) : exists a, s = a +:+ trim_start s.
Proof.
  induction s as [s IH] using (induction_ltof1 _ String.length). unfold ltof in IH.
  assert (Hstep : forall a t, s = a +:+ t -> a <> "" -> exists b, s = b +:+ trim_start t).
  { intros a t -> Ha. destruct (IH t) as [b Hb]; [rewrite str_length_app; destruct a; [done|cbn; lia]|].
    exists (a +:+ b). rewrite <-str_app_assoc. by rewrite <-Hb. }
  destruct s as [|a r1]; [by exists ""|]. cbn [trim_start]. destruct (ws1 a).
  { by apply (Hstep (String a "") r1). }
  destruct r1 as [|b r2]; [by exists ""|]. destruct (ws2 a b).
  { by apply (Hstep (String a (String b "")) r2). }
  destruct r2 as [|c r3]; [by exists ""|]. destruct (ws3 a b c).
  { by apply (Hstep (String a (String b (String c ""))) r3). }
  by exists "".
Qed.

(** ** Pieces that are lines *)

(** The end of a line is its last byte only. *)
Definition Whole (sep : ascii) (line : string) : Prop := exists a, line = a +:+ String sep "" /\ contains_char sep a = false.

Fixpoint Pieces (sep : ascii) (ls : list string) : Prop :=
  match ls with
  | [] => True
  | l :: rest => (Whole sep l \/ rest = [] /\ l <> "" /\ contains_char sep l = false) /\ Pieces sep rest
  end.

Lemma split_inclusive_pieces (sep : ascii) (s : string) : Pieces sep (split_inclusive sep s).
Proof.
  induction s as [|c s IH]; cbn [split_inclusive]; [done|]. destruct (Ascii.eqb_spec c sep) as [->|Hc].
  { split; [left; by exists ""|done]. }
  apply Ascii.eqb_neq in Hc. destruct (split_inclusive sep s) as [|h r].
  - split; [right; split_and!; [done|done|cbn; by rewrite Hc]|done].
  - destruct IH as [[(a & -> & Ha)|(-> & Hh & Hn)] Hr]; (split; [|done]).
    + left. exists (String c a). split; [done|]. cbn. by rewrite Hc.
    + right. split_and!; [done|done|]. cbn. by rewrite Hc.
Qed.

Lemma split_inclusive_unbroken (sep : ascii) (a rest : string) : contains_char sep a = false ->
  split_inclusive sep (a +:+ String sep rest) = (a +:+ String sep "") :: split_inclusive sep rest.
Proof.
  induction a as [|c a IH]; cbn.
  - intros _. by rewrite Ascii.eqb_refl.
  - rewrite orb_false_iff. intros [Hc Ha]. rewrite Hc. by rewrite IH.
Qed.

Lemma split_inclusive_last (sep : ascii) (a : string) : contains_char sep a = false -> a <> "" -> split_inclusive sep a = [a].
Proof.
  induction a as [|c a IH]; [done|]. cbn. rewrite orb_false_iff. intros [Hc Ha] _. rewrite Hc.
  destruct (decide (a = "")) as [->|Hn]; [done|]. by rewrite IH.
Qed.

(** Pieces come apart again. *)
Lemma split_inclusive_of_pieces (sep : ascii) (ls : list string) : Pieces sep ls -> split_inclusive sep (joined ls) = ls.
Proof.
  induction ls as [|l ls IH]; [done|]. intros [[(a & -> & Ha)|(-> & Hl & Hn)] Hls].
  - change (split_inclusive sep ((a +:+ String sep "") +:+ joined ls) = (a +:+ String sep "") :: ls).
    rewrite <-str_app_assoc. cbn. rewrite split_inclusive_unbroken by done. by rewrite IH.
  - cbn. rewrite str_app_nil_r. by apply split_inclusive_last.
Qed.

Lemma pieces_parts (sep : ascii) (a b : list string) : Pieces sep (a ++ b) -> Pieces sep a /\ Pieces sep b.
Proof.
  induction a as [|l a IH]; [done|]. intros [Hl Hr]. destruct (IH Hr) as [Ha Hb]. split; [|done].
  split; [|done]. destruct Hl as [Hl|(Hn & Hl)]; [by left|right]. destruct a; [by split|done].
Qed.
