(* ===== verification/Headers.v ===== *)
(** * The header maps of the [http] crate

    [http::HeaderMap] is third-party code: the model takes it as an interface,
    the class [HeaderApi], whose laws are the documented behaviour the server
    relies on.  [AssocHeaders] is a concrete instance used by the witnesses. *)
From S2P Require Import Prelude RustStr.

(** Header names are stored in lower case; a name that is looked up is
    compared case-insensitively. *)
Class HeaderApi : Type := {
  HeaderMap : Type;
  HeaderValue : Type;
  (** [HeaderMap::iter], in some order that keeps the order of one name's values *)
  h_iter : HeaderMap -> list (string * HeaderValue);
  h_empty : HeaderMap;
  (** [insert], [append], [remove] *)
  h_insert : string -> HeaderValue -> HeaderMap -> HeaderMap;
  h_append : string -> HeaderValue -> HeaderMap -> HeaderMap;
  h_remove : string -> HeaderMap -> HeaderMap;
  (** [RequestBuilder::headers]: the names of the second map replace those of the first *)
  h_merge : HeaderMap -> HeaderMap -> HeaderMap;
  (** [HeaderValue::to_str] and [HeaderValue::from_str] *)
  h_to_str : HeaderValue -> option string;
  h_from_str : string -> option HeaderValue;
  (** [HeaderValue::from(u64)] *)
  h_from_u64 : Z -> HeaderValue;
  (** [HeaderName::try_from]: the lower-case name *)
  h_name : string -> option string;
}.

Section Ops.
Context `{HeaderApi}.

(** [HeaderMap::get_all]. *)
Definition h_get_all (m : HeaderMap) (name : string) : list HeaderValue :=
  snd <$> filter (fun e => e.1 = to_ascii_lowercase name) (h_iter m).

(** [HeaderMap::get]: the first value. *)
Definition h_get (m : HeaderMap) (name : string) : option HeaderValue := head (h_get_all m name).

(** [HeaderMap::contains_key]. *)
Definition h_contains (m : HeaderMap) (name : string) : bool :=
  match h_get m name with Some _ => true | None => false end.

(** [headers.get(name).and_then(|v| v.to_str().ok())]. *)
Definition h_get_str (m : HeaderMap) (name : string) : option string := h_get m name ≫= h_to_str.

(** [header_value]: the trimmed value, if not empty. *)
Definition header_value (headers : HeaderMap) (name : string) : option string :=
  match str_trim <$> h_get_str headers name with
  | Some v => if str_is_empty v then None else Some v
  | None => None
  end.

(** [forwarded_header_value]: the first element of a comma-separated value. *)
Definition forwarded_header_value (headers : HeaderMap) (name : string) : option string :=
  match h_get_str headers name with
  | Some value =>
      match str_trim <$> head (str_split "," value) with
      | Some v => if str_is_empty v then None else Some v
      | None => None
      end
  | None => None
  end.

End Ops.

Class HeaderLaws `{HeaderApi} : Prop := {
  h_iter_empty : h_iter h_empty = [];
  h_iter_lower m e : e ∈ h_iter m -> to_ascii_lowercase e.1 = e.1;
  h_get_all_insert m n v n' :
    h_get_all (h_insert n v m) n' =
    if decide (to_ascii_lowercase n' = to_ascii_lowercase n) then [v] else h_get_all m n';
  h_get_all_append m n v n' :
    h_get_all (h_append n v m) n' =
    if decide (to_ascii_lowercase n' = to_ascii_lowercase n) then h_get_all m n' ++ [v] else h_get_all m n';
  h_get_all_remove m n n' :
    h_get_all (h_remove n m) n' =
    if decide (to_ascii_lowercase n' = to_ascii_lowercase n) then [] else h_get_all m n';
  h_get_all_merge m src n :
    h_get_all (h_merge m src) n = match h_get_all src n with [] => h_get_all m n | l => l end;
  h_to_from_str s v : h_from_str s = Some v -> h_to_str v = Some s;
}.

(** ** A concrete header map *)

(** Visible ASCII and tabs, the values [to_str] accepts. *)
Definition visible_ascii (c : ascii) : bool :=
  ((32 <=? byte_val c) && (byte_val c <? 127) || (byte_val c =? 9))%Z.

(** The characters of a token. *)
Definition is_token_char (c : ascii) : bool :=
  is_ascii_alphanumeric c || contains_char c "!#$%&'*+-.^_`|~".

Definition assoc_drop (n : string) (m : list (string * string)) : list (string * string) :=
  filter (fun e => to_ascii_lowercase e.1 <> to_ascii_lowercase n) m.

Definition assoc_iter (m : list (string * string)) : list (string * string) :=
  (fun e => (to_ascii_lowercase e.1, e.2)) <$> m.

Definition assoc_merge (m src : list (string * string)) : list (string * string) :=
  filter (fun e => to_ascii_lowercase e.1 ∉ (fst <$> assoc_iter src)) m ++ src.

#[export] Instance AssocHeaders : HeaderApi := {|
  HeaderMap := list (string * string);
  HeaderValue := string;
  h_iter := assoc_iter;
  h_empty := [];
  h_insert n v m := assoc_drop n m ++ [(to_ascii_lowercase n, v)];
  h_append n v m := m ++ [(to_ascii_lowercase n, v)];
  h_remove n m := assoc_drop n m;
  h_merge := assoc_merge;
  h_to_str v := if all_bytes visible_ascii v then Some v else None;
  h_from_str s := if all_bytes visible_ascii s then Some s else None;
  h_from_u64 := show_uint;
  h_name s := if negb (str_is_empty s) && all_bytes is_token_char s then Some (to_ascii_lowercase s) else None;
|}.

Lemma assoc_get (m : list (string * string)) (n : string) :
  snd <$> filter (fun e => e.1 = to_ascii_lowercase n) (assoc_iter m) =
  snd <$> filter (fun e => to_ascii_lowercase e.1 = to_ascii_lowercase n) m.
Proof.
  unfold assoc_iter. induction m as [|[k v] m IH]; [done|]. rewrite fmap_cons, !filter_cons. simpl.
  case_decide; rewrite ?fmap_cons; by rewrite IH.
Qed.

Lemma assoc_drop_get (m : list (string * string)) (n n' : string) :
  snd <$> filter (fun e => to_ascii_lowercase e.1 = to_ascii_lowercase n') (assoc_drop n m) =
  if decide (to_ascii_lowercase n' = to_ascii_lowercase n) then []
  else snd <$> filter (fun e => to_ascii_lowercase e.1 = to_ascii_lowercase n') m.
Proof.
  unfold assoc_drop. induction m as [|[k v] m IH]; [by case_decide|].
  rewrite (filter_cons _ (k, v)). simpl.
  destruct (decide (to_ascii_lowercase k <> to_ascii_lowercase n)) as [Hk|Hk]; rewrite (filter_cons _ (k, v)); simpl.
  - rewrite filter_cons. simpl. destruct (decide (to_ascii_lowercase k = to_ascii_lowercase n')) as [Heq|].
    + rewrite fmap_cons, IH. rewrite !decide_False by congruence. done.
    + by rewrite IH.
  - rewrite IH. apply dec_stable in Hk.
    case_decide as Hn; [done|]. by rewrite decide_False by congruence.
Qed.

Lemma filter_all_false {A} (P : A -> Prop) `{forall x, Decision (P x)} (l : list A) :
  (forall x, x ∈ l -> ~ P x) -> filter P l = [].
Proof.
  induction l as [|x l IH]; intros Hl; [done|]. rewrite filter_cons_False by (apply Hl; by left).
  apply IH. intros y Hy. apply Hl. by right.
Qed.

Lemma assoc_merge_get (m src : list (string * string)) (n : string) :
  let get l := snd <$> filter (fun e => to_ascii_lowercase e.1 = to_ascii_lowercase n) l in
  get (assoc_merge m src) = match get src with [] => get m | l => l end.
Proof.
  cbv zeta. unfold assoc_merge. rewrite filter_app, fmap_app.
  destruct (decide (to_ascii_lowercase n ∈ (fst <$> assoc_iter src))) as [Hin|Hin].
  - rewrite (filter_all_false _ (filter _ m)).
    2:{ intros e [He _]%list_elem_of_filter Hn. by rewrite Hn in He. }
    simpl. apply list_elem_of_fmap in Hin as ([k v] & Hk & Hin). simpl in Hk.
    apply list_elem_of_fmap in Hin as ([k' v'] & [= -> ->] & Hin).
    assert (Hv : (k', v') ∈ filter (fun e => to_ascii_lowercase e.1 = to_ascii_lowercase n) src)
      by (by apply list_elem_of_filter).
    destruct (filter (fun e => to_ascii_lowercase e.1 = to_ascii_lowercase n) src); [by apply elem_of_nil in Hv|done].
  - rewrite (filter_all_false _ src).
    2:{ intros e He Hn. apply Hin. rewrite <- Hn. unfold assoc_iter. rewrite <- list_fmap_compose.
        apply list_elem_of_fmap. by exists e. }
    simpl. rewrite app_nil_r. f_equal. apply list_filter_filter_l. by intros e ->.
Qed.

#[export] Instance AssocHeaders_laws : HeaderLaws.
Proof.
  split; unfold h_get_all; simpl; intros; rewrite ?assoc_get.
  - done.
  - unfold assoc_iter in *. match goal with He : _ ∈ _ <$> _ |- _ => apply list_elem_of_fmap in He as (? & -> & _) end.
    apply lower_idem.
  - rewrite filter_app, fmap_app, assoc_drop_get, filter_cons. simpl. rewrite lower_idem.
    destruct (decide (to_ascii_lowercase n' = to_ascii_lowercase n)) as [->|Hne].
    + by rewrite decide_True.
    + rewrite decide_False by congruence. by rewrite app_nil_r.
  - rewrite filter_app, fmap_app, filter_cons. simpl. rewrite lower_idem.
    destruct (decide (to_ascii_lowercase n' = to_ascii_lowercase n)) as [->|Hne].
    + by rewrite decide_True.
    + rewrite decide_False by congruence. by rewrite app_nil_r.
  - apply assoc_drop_get.
  - apply (assoc_merge_get m src n).
  - destruct (all_bytes visible_ascii s) eqn:E; simplify_eq. by rewrite E.
Qed.
