(* ===== verification/Net.v ===== *)
(** * [std::net]: addresses, their parser and their printer

    An address is its unsigned integer value ([u32::from], [u128::from]).
    [parse::<IpAddr>()] and [parse::<SocketAddr>()] are the recursive descent
    parser of the standard library: each reader returns what is left of the
    input, and a reader that fails consumes nothing. *)
From S2P Require Import Prelude RustStr.
Open Scope Z_scope.

Inductive IpAddr : Type :=
| V4 (a : Z)
| V6 (a : Z).

#[global] Instance IpAddr_eq_dec : EqDecision IpAddr.
Proof. solve_decision. Defined.

Definition wf_ip (ip : IpAddr) : Prop :=
  match ip with V4 a => 0 <= a <= U32_MAX | V6 a => 0 <= a <= U128_MAX end.

Definition is_ipv4 (ip : IpAddr) : bool := match ip with V4 _ => true | V6 _ => false end.

(** Big-endian bytes and 16-bit groups. *)
Fixpoint be_digits (width : Z) (n : nat) (a : Z) : list Z :=
  match n with
  | O => []
  | S n' => be_digits width n' (a / 2 ^ width) ++ [a mod 2 ^ width]
  end.

Definition from_be (width : Z) (l : list Z) : Z := fold_left (fun acc d => acc * 2 ^ width + d) l 0.

Definition octets4 (a : Z) : list Z := be_digits 8 4 a.
Definition octets16 (a : Z) : list Z := be_digits 8 16 a.
Definition segments (a : Z) : list Z := be_digits 16 8 a.

(** [IpAddr::octets]. *)
Definition octets (ip : IpAddr) : list Z :=
  match ip with V4 a => octets4 a | V6 a => octets16 a end.

(** ** Predicates of [Ipv4Addr] and [Ipv6Addr] *)

Definition nth_z (l : list Z) (i : nat) : Z := nth i l 0.

Definition v4_is_unspecified (a : Z) : bool := a =? 0.
Definition v4_is_loopback (a : Z) : bool := nth_z (octets4 a) 0 =? 127.
Definition v4_is_private (a : Z) : bool :=
  let o := nth_z (octets4 a) in
  (o 0%nat =? 10)
  || ((o 0%nat =? 172) && (16 <=? o 1%nat) && (o 1%nat <=? 31))
  || ((o 0%nat =? 192) && (o 1%nat =? 168)).
Definition v4_is_link_local (a : Z) : bool :=
  let o := nth_z (octets4 a) in (o 0%nat =? 169) && (o 1%nat =? 254).
Definition v4_is_broadcast (a : Z) : bool := a =? U32_MAX.
Definition v4_is_documentation (a : Z) : bool :=
  let o := nth_z (octets4 a) in
  ((o 0%nat =? 192) && (o 1%nat =? 0) && (o 2%nat =? 2))
  || ((o 0%nat =? 198) && (o 1%nat =? 51) && (o 2%nat =? 100))
  || ((o 0%nat =? 203) && (o 1%nat =? 0) && (o 2%nat =? 113)).
Definition v4_is_multicast (a : Z) : bool :=
  let o := nth_z (octets4 a) 0 in (224 <=? o) && (o <=? 239).

Definition v6_is_unspecified (a : Z) : bool := a =? 0.
Definition v6_is_loopback (a : Z) : bool := a =? 1.
Definition v6_is_multicast (a : Z) : bool := nth_z (octets16 a) 0 =? 255.
Definition v6_is_unique_local (a : Z) : bool := Z.land (nth_z (segments a) 0) 65024 =? 64512.
Definition v6_is_unicast_link_local (a : Z) : bool := Z.land (nth_z (segments a) 0) 65472 =? 65152.
Definition to_ipv4_mapped (a : Z) : option Z :=
  if a / 2 ^ 32 =? 65535 then Some (a mod 2 ^ 32) else None.

(** ** The parser *)

Definition reader (A : Type) : Type := string -> option (A * string).

Definition to_digit (radix : Z) (c : ascii) : option Z :=
  let v := byte_val c in
  let d := if is_digit c then v - 48
           else if is_lower c then v - 87
           else if is_upper c then v - 55 else radix in
  if d <? radix then Some d else None.

Definition read_given_char (c : ascii) : reader unit := fun s =>
  match s with
  | String a t => if Ascii.eqb a c then Some (tt, t) else None
  | EmptyString => None
  end.

(** The digit loop; [None] is an overflow of the checked arithmetic. *)
Fixpoint read_digits (radix max : Z) (acc : Z) (count : nat) (s : string) : option (Z * nat * string) :=
  match s with
  | String c t =>
      match to_digit radix c with
      | Some d =>
          let acc' := acc * radix + d in
          if acc' <=? max then read_digits radix max acc' (S count) t else None
      | None => Some (acc, count, s)
      end
  | EmptyString => Some (acc, count, s)
  end.

(** [read_number(radix, max_digits, allow_zero_prefix)] at a type with maximum [max]. *)
Definition read_number (radix max : Z) (max_digits : option nat) (allow_zero_prefix : bool) : reader Z :=
  fun s =>
  let has_leading_zero := starts_with "0" s in
  match read_digits radix max 0 0 s with
  | None => None
  | Some (v, count, rest) =>
      if match max_digits with Some m => (m <? count)%nat | None => false end then None
      else if (count =? 0)%nat then None
      else if negb allow_zero_prefix && has_leading_zero && (1 <? count)%nat then None
      else Some (v, rest)
  end.

(** [read_separator(sep, index, inner)]. *)
Definition read_separator {A} (sep : ascii) (index : nat) (inner : reader A) : reader A := fun s =>
  match index with
  | O => inner s
  | S _ => match read_given_char sep s with Some (_, t) => inner t | None => None end
  end.

Fixpoint read_octets (index n : nat) (s : string) : option (list Z * string) :=
  match n with
  | O => Some ([], s)
  | S n' =>
      match read_separator "." index (read_number 10 U8_MAX (Some 3%nat) false) s with
      | Some (o, t) => match read_octets (S index) n' t with
                       | Some (os, t') => Some (o :: os, t')
                       | None => None
                       end
      | None => None
      end
  end.

Definition read_ipv4_addr : reader Z := fun s =>
  match read_octets 0 4 s with
  | Some (os, t) => Some (from_be 8 os, t)
  | None => None
  end.

(** [read_groups]: up to [limit] groups; [true] when the last two were an IPv4 address. *)
Fixpoint read_groups (i n : nat) (s : string) : list Z * bool * string :=
  match n with
  | O => ([], false, s)
  | S n' =>
      match (match n' with
             | O => None
             | S _ => read_separator ":" i read_ipv4_addr s
             end) with
      | Some (a, t) => ([a / 2 ^ 16; a mod 2 ^ 16], true, t)
      | None =>
          match read_separator ":" i (read_number 16 U16_MAX (Some 4%nat) true) s with
          | Some (g, t) => let '(gs, v4, t') := read_groups (S i) n' t in (g :: gs, v4, t')
          | None => ([], false, s)
          end
      end
  end.

Definition read_ipv6_addr : reader Z := fun s =>
  let '(head, head_ipv4, t) := read_groups 0 8 s in
  if (length head =? 8)%nat then Some (from_be 16 head, t)
  else if head_ipv4 then None
  else match read_given_char ":" t with
       | None => None
       | Some (_, t1) =>
           match read_given_char ":" t1 with
           | None => None
           | Some (_, t2) =>
               let limit := (8 - (length head + 1))%nat in
               let '(tail, _, t3) := read_groups 0 limit t2 in
               let zeros := repeat 0 (8 - length head - length tail) in
               Some (from_be 16 (head ++ zeros ++ tail), t3)
           end
       end.

Definition read_ip_addr : reader IpAddr := fun s =>
  match read_ipv4_addr s with
  | Some (a, t) => Some (V4 a, t)
  | None => match read_ipv6_addr s with Some (a, t) => Some (V6 a, t) | None => None end
  end.

(** [parse_with]: the whole input must be consumed. *)
Definition parse_with {A} (r : reader A) (s : string) : option A :=
  match r s with Some (a, EmptyString) => Some a | _ => None end.

(** [str::parse::<IpAddr>()]. *)
Definition parse_ip : string -> option IpAddr := parse_with read_ip_addr.

Definition read_port : reader Z := fun s =>
  match read_given_char ":" s with
  | Some (_, t) => read_number 10 U16_MAX None true t
  | None => None
  end.

Definition read_scope_id : reader Z := fun s =>
  match read_given_char "%" s with
  | Some (_, t) => read_number 10 U32_MAX None true t
  | None => None
  end.

(** An IPv4 or IPv6 socket address: address, scope id, port. *)
Definition SocketAddr : Type := IpAddr * Z * Z.

Definition read_socket_addr_v4 : reader SocketAddr := fun s =>
  match read_ipv4_addr s with
  | Some (a, t) => match read_port t with Some (p, t') => Some ((V4 a, 0, p), t') | None => None end
  | None => None
  end.

Definition read_socket_addr_v6 : reader SocketAddr := fun s =>
  match read_given_char "[" s with
  | None => None
  | Some (_, t) =>
      match read_ipv6_addr t with
      | None => None
      | Some (a, t1) =>
          let '(scope, t2) := match read_scope_id t1 with Some (i, t') => (i, t') | None => (0, t1) end in
          match read_given_char "]" t2 with
          | None => None
          | Some (_, t3) => match read_port t3 with Some (p, t4) => Some ((V6 a, scope, p), t4) | None => None end
          end
      end
  end.

(** [str::parse::<SocketAddr>()]. *)
Definition parse_socket_addr : string -> option SocketAddr := parse_with (fun s =>
  match read_socket_addr_v4 s with Some r => Some r | None => read_socket_addr_v6 s end).

(** ** [Display] *)

Definition show_v4 (a : Z) : string := str_join "." (show_uint <$> octets4 a).

Definition hex_char (d : Z) : ascii :=
  ascii_of_nat (Z.to_nat (if d <? 10 then 48 + d else 87 + d)).

(** [{:x}] of a 16-bit group. *)
Definition show_hex16 (g : Z) : string :=
  let ds := be_digits 4 4 g in
  let fix strip (l : list Z) := match l with
                                | d :: ((_ :: _) as r) => if d =? 0 then strip r else l
                                | l => l
                                end in
  fold_right (fun d s => String (hex_char d) s) "" (strip ds).

(** The first longest run of zero groups: [(start, length)]. *)
Fixpoint longest_zeros (l : list Z) (i : nat) (current longest : nat * nat) : nat * nat :=
  match l with
  | [] => longest
  | g :: rest =>
      if g =? 0 then
        let start := if (current.2 =? 0)%nat then i else current.1 in
        let cur := (start, S current.2) in
        longest_zeros rest (S i) cur (if (longest.2 <? cur.2)%nat then cur else longest)
      else longest_zeros rest (S i) (0, 0)%nat longest
  end.

Definition show_v6 (a : Z) : string :=
  match to_ipv4_mapped a with
  | Some v4 => "::ffff:" +:+ show_v4 v4
  | None =>
      let gs := segments a in
      let '(start, len) := longest_zeros gs 0 (0, 0)%nat (0, 0)%nat in
      if (1 <? len)%nat
      then str_join ":" (show_hex16 <$> take start gs) +:+ "::" +:+
           str_join ":" (show_hex16 <$> drop (start + len) gs)
      else str_join ":" (show_hex16 <$> gs)
  end.

Definition show_ip (ip : IpAddr) : string :=
  match ip with V4 a => show_v4 a | V6 a => show_v6 a end.

Example parse_ip_1 : parse_ip "192.168.1.7" = Some (V4 3232235783). Proof. reflexivity. Qed.
Example parse_ip_2 : parse_ip "01.2.3.4" = None. Proof. reflexivity. Qed.
Example parse_ip_3 : parse_ip "2606:4700:4700::1111" = Some (V6 50543257694033307102031451402929180945).
Proof. reflexivity. Qed.
Example parse_ip_4 : parse_ip "::ffff:10.0.0.1" = Some (V6 281470849515521). Proof. reflexivity. Qed.
Example show_ip_1 : show_ip (V6 50543257694033307102031451402929180945) = "2606:4700:4700::1111".
Proof. reflexivity. Qed.
Example parse_sock_1 : parse_socket_addr "[::1%3]:443" = Some (V6 1, 3, 443). Proof. reflexivity. Qed.

(** ** The IPv4 printer and parser are inverse *)

Lemma be_digits_length (w : Z) (n : nat) (a : Z) : length (be_digits w n a) = n.
Proof. revert a. induction n; intros a; simpl; [done|]. rewrite length_app, IHn. simpl. lia. Qed.

Lemma from_be_snoc (w : Z) (l : list Z) (d : Z) : from_be w (l ++ [d]) = from_be w l * 2 ^ w + d.
Proof. unfold from_be. by rewrite fold_left_app. Qed.

Lemma from_be_digits (w : Z) (n : nat) (a : Z) :
  0 <= w -> 0 <= a < 2 ^ (w * Z.of_nat n) -> from_be w (be_digits w n a) = a.
Proof.
  intros Hw. revert a. induction n as [|n IH]; intros a Ha.
  - rewrite Z.mul_0_r in Ha. unfold from_be. simpl. lia.
  - simpl. rewrite from_be_snoc.
    assert (0 < 2 ^ w) by (apply Z.pow_pos_nonneg; lia).
    rewrite IH.
    + rewrite Z.mul_comm. symmetry. apply Z.div_mod. lia.
    + split; [apply Z.div_pos; lia|].
      apply Z.div_lt_upper_bound; [lia|].
      rewrite <- Z.pow_add_r by lia. replace (w + w * Z.of_nat n) with (w * Z.of_nat (S n)) by lia. lia.
Qed.

Lemma be_digits_bound (w : Z) (n : nat) (a : Z) :
  0 <= w -> Forall (fun d => 0 <= d < 2 ^ w) (be_digits w n a).
Proof.
  intros Hw. revert a. induction n as [|n IH]; intros a; simpl; [constructor|].
  apply Forall_app. split; [apply IH|]. constructor; [|constructor].
  apply Z.mod_pos_bound. apply Z.pow_pos_nonneg; lia.
Qed.

(** A string whose first byte is not a digit of the radix. *)
Definition no_digit_head (radix : Z) (s : string) : bool :=
  match s with
  | String c _ => match to_digit radix c with Some _ => false | None => true end
  | EmptyString => true
  end.

Lemma read_digits_app (radix max : Z) (ds : string) : forall acc count v n rest,
  no_digit_head radix rest = true ->
  read_digits radix max acc count ds = Some (v, n, "") ->
  read_digits radix max acc count (ds +:+ rest) = Some (v, n, rest).
Proof.
  induction ds as [|c ds IH]; intros acc count v n rest Hr; simpl.
  - intros [= <- <-]. destruct rest as [|c t]; simpl in *; [done|]. by destruct (to_digit radix c).
  - destruct (to_digit radix c) as [d|]; [|done].
    destruct (_ <=? max); [|done]. by apply IH.
Qed.

Definition octet_ok (n : Z) : bool :=
  match read_digits 10 U8_MAX 0 0 (show_uint n) with
  | Some (v, count, rest) =>
      (v =? n) && str_is_empty rest && (1 <=? count)%nat && (count <=? 3)%nat
      && (negb (starts_with "0" (show_uint n)) || (count =? 1)%nat)
      && (negb (str_is_empty (show_uint n)))
  | None => false
  end.

Lemma octets_all_ok : forallb (fun i => octet_ok (Z.of_nat i)) (seq 0 256) = true.
Proof. vm_compute. reflexivity. Qed.

Lemma octet_ok_range (n : Z) : 0 <= n < 256 -> octet_ok n = true.
Proof.
  intros Hn. pose proof octets_all_ok as H. rewrite forallb_forall in H.
  specialize (H (Z.to_nat n)). rewrite Z2Nat.id in H by lia. apply H.
  apply in_seq. lia.
Qed.

Lemma starts_with_app_nonempty (a b : string) :
  str_is_empty a = false -> starts_with "0" (a +:+ b) = starts_with "0" a.
Proof. by destruct a. Qed.

Lemma read_octet (n : Z) (rest : string) :
  0 <= n < 256 -> no_digit_head 10 rest = true ->
  read_number 10 U8_MAX (Some 3%nat) false (show_uint n +:+ rest) = Some (n, rest).
Proof.
  intros Hn Hr. pose proof (octet_ok_range n Hn) as Hok. unfold octet_ok in Hok.
  destruct (read_digits 10 U8_MAX 0 0 (show_uint n)) as [[[v count] r]|] eqn:E; [|done].
  bool_to_prop. destruct r; [|done]. subst v.
  unfold read_number. rewrite (read_digits_app 10 U8_MAX _ 0 0 n count rest Hr E).
  rewrite starts_with_app_nonempty by done.
  destruct (Nat.ltb_spec 3 count); [lia|].
  destruct (Nat.eqb_spec count 0); [lia|].
  destruct (starts_with "0" (show_uint n)); cbn [negb andb orb] in *; [|done].
  destruct (Nat.ltb_spec 1 count); [|done].
  destruct (Nat.eqb_spec count 1); [lia|done].
Qed.

Lemma read_ipv4_show (a : Z) (rest : string) :
  0 <= a <= U32_MAX -> no_digit_head 10 rest = true ->
  read_ipv4_addr (show_v4 a +:+ rest) = Some (a, rest).
Proof.
  intros Ha Hr. unfold show_v4, read_ipv4_addr.
  assert (Hb : from_be 8 (octets4 a) = a).
  { apply from_be_digits; [lia|]. unfold U32_MAX in Ha. simpl. lia. }
  pose proof (be_digits_length 8 4 a) as Hlen. pose proof (be_digits_bound 8 4 a) as Hbd.
  fold (octets4 a) in Hlen, Hbd. revert Hb Hlen Hbd.
  destruct (octets4 a) as [|o0 [|o1 [|o2 [|o3 [|]]]]]; try done. intros Hb _ Hbd.
  specialize (Hbd ltac:(lia)). change (2 ^ 8) with 256 in Hbd.
  repeat (apply Forall_cons in Hbd as [? Hbd]). clear Hbd.
  cbn [fmap list_fmap str_join]. rewrite <- !str_app_assoc.
  cbn [read_octets read_separator].
  rewrite read_octet by done. cbn [read_given_char String.append Ascii.eqb Bool.eqb].
  rewrite read_octet by done. cbn [read_given_char String.append Ascii.eqb Bool.eqb].
  rewrite read_octet by done. cbn [read_given_char String.append Ascii.eqb Bool.eqb].
  rewrite read_octet by done. by rewrite Hb.
Qed.

Lemma parse_show_v4 (a : Z) : 0 <= a <= U32_MAX -> parse_ip (show_v4 a) = Some (V4 a).
Proof.
  intros Ha. unfold parse_ip, parse_with, read_ip_addr.
  rewrite <- (str_app_nil_r (show_v4 a)). by rewrite read_ipv4_show.
Qed.

(** ** Prefix masks *)

(** [if prefix == 0 { 0 } else { uN::MAX << (N - prefix) }] at width [w]. *)
Definition prefix_mask (w prefix : Z) : Z :=
  if prefix =? 0 then 0 else Z.land (Z.shiftl (Z.ones w) (w - prefix)) (Z.ones w).

(** Masking clears the low [w - prefix] bits. *)
Lemma land_prefix_mask (w prefix a : Z) :
  0 <= prefix <= w -> 0 <= a < 2 ^ w ->
  Z.land a (prefix_mask w prefix) = Z.shiftl (Z.shiftr a (w - prefix)) (w - prefix).
Proof.
  intros Hp Ha. unfold prefix_mask. destruct (Z.eqb_spec prefix 0) as [->|Hne].
  - rewrite Z.land_0_r, Z.sub_0_r, Z.shiftr_div_pow2 by lia.
    by rewrite Z.div_small, Z.shiftl_0_l by lia.
  - apply Z.bits_inj'. intros n Hn.
    rewrite Z.shiftl_spec, !Z.land_spec, Z.shiftl_spec by lia.
    destruct (Z.lt_ge_cases n (w - prefix)).
    + rewrite !(Z.testbit_neg_r _ (n - (w - prefix))) by lia. simpl. by rewrite andb_false_r.
    + rewrite Z.shiftr_spec by lia. replace (n - (w - prefix) + (w - prefix)) with n by lia.
      destruct (Z.lt_ge_cases n w).
      * rewrite !Z.ones_spec_low by lia. by rewrite andb_true_r.
      * assert (Z.testbit a n = false) as ->; [|done].
        rewrite <- (Z.mod_small a (2 ^ w)) by lia. by rewrite Z.mod_pow2_bits_high by lia.
Qed.

(** Equal after masking is equal in the first [prefix] bits. *)
Lemma land_prefix_mask_eq (w prefix a b : Z) :
  0 <= prefix <= w -> 0 <= a < 2 ^ w -> 0 <= b < 2 ^ w ->
  Z.land a (prefix_mask w prefix) = Z.land b (prefix_mask w prefix) <->
  a / 2 ^ (w - prefix) = b / 2 ^ (w - prefix).
Proof.
  intros Hp Ha Hb. rewrite !land_prefix_mask by done.
  rewrite !Z.shiftr_div_pow2, !Z.shiftl_mul_pow2 by lia.
  assert (0 < 2 ^ (w - prefix)) by (apply Z.pow_pos_nonneg; lia). split; [|congruence].
  intros He%Z.mul_cancel_r; lia.
Qed.

Lemma prefix_mask_idem (w prefix a : Z) :
  Z.land (Z.land a (prefix_mask w prefix)) (prefix_mask w prefix) = Z.land a (prefix_mask w prefix).
Proof. by rewrite <- Z.land_assoc, Z.land_diag. Qed.

Lemma land_prefix_mask_bound (w prefix a : Z) :
  0 <= w -> 0 <= a < 2 ^ w -> 0 <= Z.land a (prefix_mask w prefix) < 2 ^ w.
Proof.
  intros Hw Ha. split; [apply Z.land_nonneg; lia|].
  destruct (Z.eq_dec (Z.land a (prefix_mask w prefix)) 0) as [->|Hne]; [lia|].
  apply Z.log2_lt_cancel. rewrite Z.log2_pow2 by lia.
  pose proof (Z.log2_land a (prefix_mask w prefix)) as Hl.
  assert (0 <= prefix_mask w prefix).
  { unfold prefix_mask. destruct (prefix =? 0); [lia|]. apply Z.land_nonneg. right.
    rewrite Z.ones_equiv. assert (0 < 2 ^ w) by (apply Z.pow_pos_nonneg; lia). lia. }
  specialize (Hl ltac:(lia) ltac:(lia)).
  assert (0 < a).
  { destruct (Z.eq_dec a 0) as [->|]; [by rewrite Z.land_0_l in Hne|lia]. }
  assert (Z.log2 a < w) by (apply Z.log2_lt_pow2; lia). lia.
Qed.

(** The bounds of the addresses the readers return. *)
Lemma read_number_bound (radix max : Z) (md : option nat) (z : bool) (s t : string) (v : Z) :
  0 <= max -> 2 <= radix <= 16 -> read_number radix max md z s = Some (v, t) -> 0 <= v <= max.
Proof.
  intros Hmax Hradix. unfold read_number.
  assert (Hd : forall s acc n v' n' t', 0 <= acc <= max ->
    read_digits radix max acc n s = Some (v', n', t') -> 0 <= v' <= max).
  { clear. induction s as [|c s IH]; intros acc n v' n' t' Hacc; simpl; [naive_solver|].
    destruct (to_digit radix c) as [d|] eqn:Ed; [|naive_solver].
    destruct (Z.leb_spec (acc * radix + d) max); [|done]. apply IH.
    assert (0 <= d); [|].
    { unfold to_digit in Ed. unfold is_digit, is_lower, is_upper in Ed.
      repeat case_bool; simplify_eq; bool_to_prop; lia. }
    assert (0 <= radix); [|nia].
    unfold to_digit in Ed. repeat case_bool; simplify_eq; bool_to_prop; lia. }
  destruct (read_digits radix max 0 0 s) as [[[v' n'] t']|] eqn:E; [|done].
  apply Hd in E; [|lia]. repeat case_bool; naive_solver.
Qed.

Lemma from_be_bound (w : Z) (l : list Z) :
  0 <= w -> Forall (fun d => 0 <= d < 2 ^ w) l -> 0 <= from_be w l < 2 ^ (w * Z.of_nat (length l)).
Proof.
  intros Hw. induction l as [|d l IH] using rev_ind; intros Hl.
  - unfold from_be. simpl. rewrite Z.mul_0_r. simpl. lia.
  - apply Forall_app in Hl as [Hl Hd]. apply Forall_cons in Hd as [Hd _].
    specialize (IH Hl). rewrite from_be_snoc, length_app. simpl.
    assert (0 < 2 ^ w) by (apply Z.pow_pos_nonneg; lia).
    replace (w * Z.of_nat (length l + 1)) with (w * Z.of_nat (length l) + w) by lia.
    rewrite Z.pow_add_r by lia. nia.
Qed.

Lemma read_separator_inv {A} (sep : ascii) (i : nat) (r : reader A) (s : string) (a : A) (t : string) :
  read_separator sep i r s = Some (a, t) -> exists s', r s' = Some (a, t).
Proof.
  destruct i; simpl; [eauto|]. destruct (read_given_char sep s) as [[[] u]|]; [eauto|done].
Qed.

Lemma read_octets_bound (n : nat) : forall i s os t,
  read_octets i n s = Some (os, t) -> length os = n /\ Forall (fun d => 0 <= d < 2 ^ 8) os.
Proof.
  induction n as [|n IH]; intros i s os t; cbn [read_octets]; [intros [= <- <-]; by split|].
  destruct (read_separator "." i _ s) as [[o u]|] eqn:Ho; [|done].
  destruct (read_octets (S i) n u) as [[os' t']|] eqn:Hos; [|done].
  intros [= <- <-]. apply IH in Hos as [Hlen Hb].
  apply read_separator_inv in Ho as [s' Ho%read_number_bound]; [|unfold U8_MAX; lia|lia].
  split; [simpl; lia|]. constructor; [unfold U8_MAX in Ho; simpl; lia|done].
Qed.

Lemma read_ipv4_bound (s t : string) (a : Z) : read_ipv4_addr s = Some (a, t) -> 0 <= a < 2 ^ 32.
Proof.
  unfold read_ipv4_addr. destruct (read_octets 0 4 s) as [[os u]|] eqn:E; [|done].
  intros [= <- <-]. apply read_octets_bound in E as [Hlen Hb].
  apply from_be_bound in Hb; [|lia]. rewrite Hlen in Hb. simpl in *. lia.
Qed.

Lemma read_groups_bound (n : nat) : forall i s gs v4 t,
  read_groups i n s = (gs, v4, t) -> (length gs <= n)%nat /\ Forall (fun d => 0 <= d < 2 ^ 16) gs.
Proof.
  induction n as [|n IH]; intros i s gs v4 t; cbn [read_groups].
  { intros [= <- <- <-]. by split. }
  set (r4 := match n with O => None | S _ => read_separator ":" i read_ipv4_addr s end).
  destruct r4 as [[a u]|] eqn:E4.
  - intros [= <- <- <-]. subst r4. destruct n as [|n]; [done|].
    apply read_separator_inv in E4 as [s' E4%read_ipv4_bound].
    split; [simpl; lia|]. repeat constructor; try apply Z.mod_pos_bound; try lia.
    + apply Z.div_pos; lia.
    + apply Z.div_lt_upper_bound; lia.
  - destruct (read_separator ":" i (read_number 16 U16_MAX (Some 4%nat) true) s) as [[g u]|] eqn:Eg.
    2:{ intros ?; simplify_eq; split; [simpl; lia|constructor]. }
    destruct (read_groups (S i) n u) as [[gs' v4'] t'] eqn:Er.
    intros [= <- <- <-]. apply IH in Er as [Hlen Hb].
    apply read_separator_inv in Eg as [s' Eg%read_number_bound]; [|unfold U16_MAX; lia|lia].
    split; [simpl; lia|]. constructor; [unfold U16_MAX in Eg; simpl; lia|done].
Qed.

Lemma read_ipv6_bound (s t : string) (a : Z) : read_ipv6_addr s = Some (a, t) -> 0 <= a < 2 ^ 128.
Proof.
  unfold read_ipv6_addr. destruct (read_groups 0 8 s) as [[head h4] u] eqn:Eh.
  apply read_groups_bound in Eh as [Hlen Hb].
  destruct (Nat.eqb_spec (length head) 8) as [H8|H8].
  { intros [= <- <-]. apply from_be_bound in Hb; [|lia]. rewrite H8 in Hb. exact Hb. }
  destruct h4; [done|]. destruct (read_given_char ":" u) as [[c1 w1]|]; [|done].
  destruct (read_given_char ":" w1) as [[c2 w2]|]; [|done].
  destruct (read_groups 0 _ w2) as [[tail t4] w3] eqn:Et.
  apply read_groups_bound in Et as [Hlent Hbt].
  intros [= <- <-].
  assert (Hall : Forall (fun d => 0 <= d < 2 ^ 16) (head ++ repeat 0 (8 - length head - length tail) ++ tail)).
  { rewrite !Forall_app. split_and!; [done| |done]. apply Forall_forall. intros d Hd.
    apply list_elem_of_In, repeat_spec in Hd as ->. lia. }
  apply from_be_bound in Hall; [|lia].
  rewrite !length_app, repeat_length in Hall.
  replace (length head + (8 - length head - length tail + length tail))%nat with 8%nat in Hall by lia.
  exact Hall.
Qed.

(** A parsed address is in range. *)
Lemma parse_ip_wf (s : string) (ip : IpAddr) : parse_ip s = Some ip -> wf_ip ip.
Proof.
  unfold parse_ip, parse_with, read_ip_addr.
  destruct (read_ipv4_addr s) as [[a t]|] eqn:E4.
  - apply read_ipv4_bound in E4. destruct t; [|done]. intros [= <-]. unfold wf_ip, U32_MAX. lia.
  - destruct (read_ipv6_addr s) as [[a t]|] eqn:E6; [|done].
    apply read_ipv6_bound in E6. destruct t; [|done]. intros [= <-]. unfold wf_ip, U128_MAX. lia.
Qed.

#[export] Hint Resolve parse_ip_wf : mirror.

(** ** The text of a byte and of an IPv4 address *)

Definition byte_text_ok (n : Z) : bool :=
  all_bytes is_digit (show_uint n)
  && match parse_uint U8_MAX (show_uint n) with Some v => v =? n | None => false end.

Lemma byte_text_all_ok : forallb (fun i => byte_text_ok (Z.of_nat i)) (seq 0 256) = true.
Proof. vm_compute. reflexivity. Qed.

Lemma byte_text (n : Z) :
  0 <= n < 256 -> all_bytes is_digit (show_uint n) = true /\ parse_uint U8_MAX (show_uint n) = Some n.
Proof.
  intros Hn. pose proof byte_text_all_ok as H. rewrite forallb_forall in H.
  specialize (H (Z.to_nat n)). rewrite Z2Nat.id in H by lia.
  assert (Hok : byte_text_ok n = true) by (apply H, in_seq; lia).
  unfold byte_text_ok in Hok. destruct (parse_uint U8_MAX (show_uint n)) as [v|]; bool_to_prop; [|done].
  by subst.
Qed.

Definition is_v4_char (c : ascii) : bool := is_digit c || Ascii.eqb c ".".

Lemma show_v4_chars (a : Z) : all_bytes is_v4_char (show_v4 a) = true.
Proof.
  assert (H : Forall (fun o => all_bytes is_v4_char (show_uint o) = true) (octets4 a)).
  { pose proof (be_digits_bound 8 4 a ltac:(lia)) as Hb. eapply Forall_impl; [exact Hb|].
    intros o Ho. eapply all_bytes_impl; [|apply (byte_text o); simpl in Ho; lia].
    intros c Hc. unfold is_v4_char. by rewrite Hc. }
  unfold show_v4. induction H as [|o l Ho Hl IH]; [done|].
  rewrite fmap_cons. cbn [str_join]. destruct (show_uint <$> l); [exact Ho|].
  by rewrite !all_bytes_app, Ho, IH.
Qed.
