(* ===== verification/RateLimit.v ===== *)
(** * In-memory limiters of [crates/server/src/main.rs]

    [RateLimiter] (requests per minute and key), [AdminLoginRateLimiter]
    (failed logins in a quarter of an hour) and [DiscoverableChallenges]
    (pending passkey challenges).  An [Instant] is an integer number of
    nanoseconds; each call reads the clock once, so [now] is an argument.
    The mutexes make every call atomic: a history of the program is a
    sequence of calls. *)
From S2P Require Import Prelude RustStr.
Open Scope Z_scope.

Definition NANOS : Z := 1000000000.

(** [Duration::from_secs]. *)
Definition from_secs (s : Z) : Z := s * NANOS.

(** ** The pruning loop shared by both limiters

    [while window.front().is_some_and(|t| *t <= cutoff) { pop_front }] *)
Fixpoint pop_expired (cutoff : Z) (window : list Z) : list Z :=
  match window with
  | t :: rest => if t <=? cutoff then pop_expired cutoff rest else window
  | [] => []
  end.

(** [HashMap::retain] with the pruning loop: windows left empty are dropped. *)
Definition retain_windows (cutoff : Z) (windows : gmap string (list Z)) : gmap string (list Z) :=
  omap (fun w => match pop_expired cutoff w with [] => None | w' => Some w' end) windows.

(** ** [RateLimiter] *)

Module RateLimiter.

Record t : Type := mk { windows : gmap string (list Z) }.

Definition new : t := mk ∅.

Definition check (key : string) (requests_per_minute now : Z) (self : t) : bool * t :=
  let cutoff := now - from_secs 60 in
  let ws := retain_windows cutoff (windows self) in
  let window := pop_expired cutoff (default [] (ws !! key)) in
  if Z.of_nat (length window) >=? requests_per_minute
  then (false, mk (<[key := window]> ws))
  else (true, mk (<[key := window ++ [now]]> ws)).

End RateLimiter.

(** ** [AdminLoginRateLimiter] *)

Module AdminLoginRateLimiter.

Record t : Type := mk { attempts : gmap string (list Z) }.

Definition new : t := mk ∅.

Definition is_limited (key : string) (limit now : Z) (self : t) : bool * t :=
  let cutoff := now - from_secs (15 * 60) in
  let attempts' := retain_windows cutoff (attempts self) in
  (match attempts' !! key with
   | Some entries => Z.of_nat (length entries) >=? limit
   | None => false
   end, mk attempts').

Definition record (key : string) (now : Z) (self : t) : t :=
  mk (<[key := default [] (attempts self !! key) ++ [now]]> (attempts self)).

Definition clear (key : string) (self : t) : t := mk (delete key (attempts self)).

End AdminLoginRateLimiter.

(** ** [DiscoverableChallenges]

    The authentication state is opaque; the random identifier
    [format!("discoverable-{}", Uuid::new_v4())] is an argument. *)

Module DiscoverableChallenges.
Section Challenges.
Context {Auth : Type}.

Record t : Type := mk { pending : gmap string (Z * Auth) }.

Definition new : t := mk ∅.

Definition live (now : Z) (p : gmap string (Z * Auth)) : gmap string (Z * Auth) :=
  omap (fun e : Z * Auth => if now <? e.1 then Some e else None) p.

Definition insert (uuid : string) (authentication : Auth) (now : Z) (self : t) : option string * t :=
  let p := live now (pending self) in
  if (1024 <=? size p)%nat then (None, mk p)
  else let id := "discoverable-" +:+ uuid in
       (Some id, mk (<[id := (now + from_secs 300, authentication)]> p)).

Definition take (id : string) (now : Z) (self : t) : option Auth * t :=
  match pending self !! id with
  | None => (None, self)
  | Some (expires, state) =>
      (if now <? expires then Some state else None, mk (delete id (pending self)))
  end.

End Challenges.
Arguments t : clear implicits.
End DiscoverableChallenges.

(** ** Histories of [RateLimiter::check] *)

Record Call : Type := mkCall { call_key : string; call_rpm : Z; call_now : Z }.

(** Run a sequence of calls; the log holds the admitted [(key, now)], oldest first. *)
Fixpoint run_checks (calls : list Call) (st : RateLimiter.t) : list (string * Z) * RateLimiter.t :=
  match calls with
  | [] => ([], st)
  | c :: rest =>
      let '(ok, st') := RateLimiter.check (call_key c) (call_rpm c) (call_now c) st in
      let '(log, st'') := run_checks rest st' in
      ((if ok then [(call_key c, call_now c)] else []) ++ log, st'')
  end.

(** The clock never runs backwards. *)
Fixpoint monotone_from (t0 : Z) (calls : list Call) : Prop :=
  match calls with
  | [] => True
  | c :: rest => t0 <= call_now c /\ monotone_from (call_now c) rest
  end.

(** Admissions of [key] in the window [(T - 60s, T]]. *)
Definition admitted_in (key : string) (T : Z) (log : list (string * Z)) : list (string * Z) :=
  filter (fun e => e.1 = key /\ T - from_secs 60 < e.2 /\ e.2 <= T) log.

(** ** Lemmas on pruning *)

Lemma pop_expired_suffix (cutoff : Z) (w : list Z) :
  exists pre, w = pre ++ pop_expired cutoff w /\ Forall (fun t => t <= cutoff) pre.
Proof.
  induction w as [|t w (pre & Hw & Hpre)]; simpl; [by exists []|].
  destruct (Z.leb_spec t cutoff); [|by exists []].
  exists (t :: pre). simpl. rewrite <- Hw. auto.
Qed.

(** Pruning twice, the second time later, is pruning once. *)
Lemma pop_expired_compose (c1 c2 : Z) (w : list Z) :
  c1 <= c2 -> pop_expired c2 (pop_expired c1 w) = pop_expired c2 w.
Proof.
  intros Hc. induction w as [|t w IH]; simpl; [done|].
  destruct (Z.leb_spec t c1).
  - rewrite IH. destruct (Z.leb_spec t c2); [done|lia].
  - done.
Qed.

Lemma retain_windows_lookup (cutoff : Z) (ws : gmap string (list Z)) (key : string) :
  default [] (retain_windows cutoff ws !! key) = pop_expired cutoff (default [] (ws !! key)).
Proof.
  unfold retain_windows. rewrite lookup_omap.
  destruct (ws !! key) as [w|]; simpl; [|done]. by destruct (pop_expired cutoff w).
Qed.

(** On a window in time order pruning keeps exactly the instants after the cutoff. *)
Lemma pop_expired_filter (cutoff : Z) (w : list Z) :
  StronglySorted Z.le w -> pop_expired cutoff w = filter (fun t => cutoff < t) w.
Proof.
  induction 1 as [|t w Hs IH Ht]; simpl; [done|]. rewrite filter_cons.
  destruct (Z.leb_spec t cutoff); [rewrite decide_False by lia; done|].
  rewrite decide_True by lia. f_equal. clear IH Hs.
  induction Ht as [|u w Hu Hw IHw]; [done|]. rewrite filter_cons, decide_True by lia. by f_equal.
Qed.

#[export] Hint Rewrite retain_windows_lookup : mirror.

(** The window of a key after a check, and its answer, depend on that key's window only. *)
Lemma check_eq (key : string) (rpm now : Z) (st : RateLimiter.t) :
  let w := pop_expired (now - from_secs 60) (default [] (RateLimiter.windows st !! key)) in
  let ok := negb (Z.of_nat (length w) >=? rpm) in
  RateLimiter.check key rpm now st =
  (ok, RateLimiter.mk (<[key := if ok then w ++ [now] else w]>
         (retain_windows (now - from_secs 60) (RateLimiter.windows st)))).
Proof.
  simpl. unfold RateLimiter.check. rewrite retain_windows_lookup, pop_expired_compose by lia.
  by destruct (_ >=? _).
Qed.

Lemma check_window (key k : string) (rpm now : Z) (st : RateLimiter.t) :
  default [] (RateLimiter.windows (RateLimiter.check key rpm now st).2 !! k) =
  let w := pop_expired (now - from_secs 60) (default [] (RateLimiter.windows st !! k)) in
  if decide (k = key) then
    (if (RateLimiter.check key rpm now st).1 then w ++ [now] else w) else w.
Proof.
  rewrite check_eq. simpl. destruct (decide (k = key)) as [->|Hne].
  - by rewrite lookup_insert_eq.
  - by rewrite lookup_insert_ne, retain_windows_lookup.
Qed.

(** ** The limiter's invariant along a history *)

Definition times_of (key : string) (log : list (string * Z)) : list Z :=
  snd <$> filter (fun e => e.1 = key) log.

Lemma times_of_app (key : string) (l1 l2 : list (string * Z)) :
  times_of key (l1 ++ l2) = times_of key l1 ++ times_of key l2.
Proof. unfold times_of. by rewrite filter_app, fmap_app. Qed.

Lemma times_of_single (key k : string) (t : Z) :
  times_of k [(key, t)] = if decide (k = key) then [t] else [].
Proof.
  unfold times_of. rewrite filter_cons. simpl.
  by destruct (decide (key = k)), (decide (k = key)); simplify_eq.
Qed.

(** Every admitted instant missing from a window is at least a minute old. *)
Definition covers (log : list (string * Z)) (st : RateLimiter.t) (last : Z) : Prop :=
  forall k, exists pre,
    times_of k log = pre ++ default [] (RateLimiter.windows st !! k) /\
    Forall (fun t => t <= last - from_secs 60) pre.

Definition log_entry (c : Call) (ok : bool) : list (string * Z) :=
  if ok then [(call_key c, call_now c)] else [].

Lemma covers_step (log : list (string * Z)) (st : RateLimiter.t) (last : Z) (c : Call) :
  covers log st last -> last <= call_now c ->
  covers (log ++ log_entry c (RateLimiter.check (call_key c) (call_rpm c) (call_now c) st).1)
         (RateLimiter.check (call_key c) (call_rpm c) (call_now c) st).2 (call_now c).
Proof.
  intros Hcov Hle k. destruct (Hcov k) as (pre & Htimes & Hpre).
  rewrite check_window, times_of_app, Htimes.
  set (w := default [] (RateLimiter.windows st !! k)).
  destruct (pop_expired_suffix (call_now c - from_secs 60) w) as (q & Hw & Hq).
  exists (pre ++ q). split.
  - rewrite Hw at 1. simpl. unfold log_entry.
    destruct (RateLimiter.check _ _ _ _).1; rewrite ?times_of_single; simpl;
      destruct (decide (k = call_key c)); by rewrite ?app_nil_r, <- ?app_assoc.
  - apply Forall_app. split; [|done]. eapply Forall_impl; [exact Hpre|]. simpl. lia.
Qed.

(** No window of a minute holds more than [N] admissions of any key. *)
Definition bounded (N : Z) (log : list (string * Z)) : Prop :=
  forall key T, Z.of_nat (length (admitted_in key T log)) <= N.

Lemma admitted_in_times (key : string) (T : Z) (log : list (string * Z)) :
  length (admitted_in key T log) =
  length (filter (fun t => T - from_secs 60 < t /\ t <= T) (times_of key log)).
Proof.
  unfold admitted_in, times_of. induction log as [|[k t] log IH]; [done|].
  rewrite !filter_cons. simpl. destruct (decide (k = key)) as [->|Hne].
  - simpl. rewrite filter_cons.
    destruct (decide (T - from_secs 60 < t /\ t <= T)).
    + rewrite decide_True by done. simpl. by rewrite IH.
    + rewrite decide_False by tauto. done.
  - by rewrite decide_False by tauto.
Qed.

Lemma filter_none {A} (P : A -> Prop) `{forall x, Decision (P x)} (l : list A) :
  Forall (fun x => ~ P x) l -> filter P l = [].
Proof. induction 1; [done|]. by rewrite filter_cons, decide_False. Qed.

Lemma bounded_step (N : Z) (log : list (string * Z)) (st : RateLimiter.t) (last : Z) (c : Call) :
  covers log st last -> bounded N log -> last <= call_now c -> call_rpm c <= N ->
  bounded N (log ++ log_entry c (RateLimiter.check (call_key c) (call_rpm c) (call_now c) st).1).
Proof.
  intros Hcov Hb Hle Hrpm key T. unfold log_entry.
  rewrite check_eq. simpl.
  set (w := pop_expired _ _). destruct (Z.geb_spec (Z.of_nat (length w)) (call_rpm c)); simpl.
  { rewrite app_nil_r. apply Hb. }
  rewrite admitted_in_times, times_of_app, times_of_single.
  destruct (decide (key = call_key c)) as [->|Hne].
  2:{ rewrite app_nil_r, <- admitted_in_times. apply Hb. }
  rewrite filter_app, length_app, filter_cons. simpl.
  destruct (decide (T - from_secs 60 < call_now c /\ call_now c <= T)) as [[HT1 HT2]|HT]; simpl.
  2:{ rewrite Nat.add_0_r, <- admitted_in_times. apply Hb. }
  destruct (Hcov (call_key c)) as (pre & -> & Hpre).
  destruct (pop_expired_suffix (call_now c - from_secs 60)
             (default [] (RateLimiter.windows st !! call_key c))) as (q & Hw & Hq).
  rewrite Hw, !filter_app, !length_app, (filter_none _ pre), (filter_none _ q).
  2,3: (eapply Forall_impl; [eassumption|]; simpl; lia).
  pose proof (length_filter (fun t => T - from_secs 60 < t /\ t <= T) w) as Hlen.
  fold w. simpl. lia.
Qed.

Lemma run_checks_inv (N : Z) (calls : list Call) : forall log st last,
  covers log st last -> bounded N log -> monotone_from last calls ->
  Forall (fun c => call_rpm c <= N) calls ->
  bounded N (log ++ (run_checks calls st).1).
Proof.
  induction calls as [|c calls IH]; intros log st last Hcov Hb Hm Hrpm; simpl.
  { by rewrite app_nil_r. }
  destruct Hm as [Hle Hm]. apply Forall_cons in Hrpm as [Hc Hrpm].
  pose proof (covers_step log st last c Hcov Hle) as Hcov'.
  pose proof (bounded_step N log st last c Hcov Hb Hle Hc) as Hb'.
  destruct (RateLimiter.check _ _ _ _) as [ok st'] eqn:Hchk. simpl in *.
  specialize (IH _ _ _ Hcov' Hb' Hm Hrpm).
  destruct (run_checks calls st') as [log' st'']. simpl in *.
  by rewrite app_assoc.
Qed.

(** C36:Whatever the sequence of calls (any keys, any limits up to [N], a
    clock that does not run backwards), in every window of sixty seconds at
    most [N] requests of one key are admitted. *)
Theorem rate_limit_bound (N : Z) (calls : list Call) (t0 : Z) (key : string) (T : Z) :
  0 <= N -> monotone_from t0 calls -> Forall (fun c => call_rpm c <= N) calls ->
  Z.of_nat (length (admitted_in key T (run_checks calls RateLimiter.new).1)) <= N.
Proof.
  intros HN Hm Hrpm. apply (run_checks_inv N calls [] RateLimiter.new t0); [| |done|done].
  - intros k. exists []. split; [done|constructor].
  - intros k T'. unfold admitted_in. simpl. lia.
Qed.

Lemma rate_limit_bound_witness :
  let calls := [mkCall "ip:1" 1 0; mkCall "ip:1" 1 5; mkCall "ip:2" 1 6; mkCall "ip:1" 1 (from_secs 61)] in
  (run_checks calls RateLimiter.new).1 = [("ip:1", 0); ("ip:2", 6); ("ip:1", from_secs 61)] /\
  Z.of_nat (length (admitted_in "ip:1" (from_secs 61) (run_checks calls RateLimiter.new).1)) <= 1.
Proof.
  intros calls. split; [vm_compute; reflexivity|].
  apply (rate_limit_bound 1 calls 0); [lia | vm_compute; repeat split; discriminate |].
  repeat constructor; simpl; lia.
Defined.

(** Keys are isolated: a call for another key, at an earlier instant,
    never changes the answer of [check]. *)
Theorem check_isolated (key other : string) (rpm rpm' now before : Z) (st : RateLimiter.t) :
  key <> other -> before <= now ->
  (RateLimiter.check key rpm now (RateLimiter.check other rpm' before st).2).1
  = (RateLimiter.check key rpm now st).1.
Proof.
  intros Hne Hle. rewrite (check_eq key rpm now (_).2), (check_eq key rpm now st). simpl.
  rewrite check_window, decide_False by done. simpl.
  by rewrite pop_expired_compose by lia.
Qed.

Lemma check_isolated_witness :
  "a" <> "b" /\ (RateLimiter.check "a" 1 5 (RateLimiter.check "b" 0 3 RateLimiter.new).2).1 = true.
Proof.
  split; [discriminate|].
  rewrite (check_isolated "a" "b" 1 0 5 3 RateLimiter.new); [reflexivity|discriminate|lia].
Defined.

(** ** Histories of the login limiter *)

Inductive LoginEvent : Type :=
| Record_ (key : string) (now : Z)
| Clear_ (key : string)
| Query_ (key : string) (limit now : Z).

Definition apply_login (e : LoginEvent) (st : AdminLoginRateLimiter.t) : AdminLoginRateLimiter.t :=
  match e with
  | Record_ key now => AdminLoginRateLimiter.record key now st
  | Clear_ key => AdminLoginRateLimiter.clear key st
  | Query_ key limit now => (AdminLoginRateLimiter.is_limited key limit now st).2
  end.

Definition run_login (es : list LoginEvent) : AdminLoginRateLimiter.t :=
  fold_left (fun st e => apply_login e st) es AdminLoginRateLimiter.new.

(** Reference: the instants recorded for [key] since it was last cleared. *)
Definition failure_step (key : string) (acc : list Z) (e : LoginEvent) : list Z :=
  match e with
  | Record_ k now => if decide (k = key) then acc ++ [now] else acc
  | Clear_ k => if decide (k = key) then [] else acc
  | Query_ _ _ _ => acc
  end.

Definition failures (key : string) (es : list LoginEvent) : list Z :=
  fold_left (failure_step key) es [].

Definition event_time (last : Z) (e : LoginEvent) : Z :=
  match e with Record_ _ t => t | Clear_ _ => last | Query_ _ _ t => t end.

Fixpoint login_monotone (last : Z) (es : list LoginEvent) : Prop :=
  match es with
  | [] => True
  | e :: rest => last <= event_time last e /\ login_monotone (event_time last e) rest
  end.

Definition end_time (last : Z) (es : list LoginEvent) : Z := fold_left event_time es last.

Definition QUARTER : Z := from_secs (15 * 60).

Definition login_covers (key : string) (fs : list Z) (st : AdminLoginRateLimiter.t) (last : Z) : Prop :=
  StronglySorted Z.le fs /\ Forall (fun t => t <= last) fs /\
  exists pre, fs = pre ++ default [] (AdminLoginRateLimiter.attempts st !! key) /\
              Forall (fun t => t <= last - QUARTER) pre.

Lemma sorted_snoc (l : list Z) (t : Z) :
  StronglySorted Z.le l -> Forall (fun u => u <= t) l -> StronglySorted Z.le (l ++ [t]).
Proof.
  induction 1 as [|u l Hs IH Hu]; simpl; [by repeat constructor|].
  intros [Hut Hl]%Forall_cons. constructor; [auto|]. apply Forall_app. auto.
Qed.

Lemma login_covers_step (key : string) (fs : list Z) (st : AdminLoginRateLimiter.t) (last : Z) (e : LoginEvent) :
  login_covers key fs st last -> last <= event_time last e ->
  login_covers key (failure_step key fs e) (apply_login e st) (event_time last e).
Proof.
  intros (Hs & Hle & pre & Hfs & Hpre) Ht. unfold login_covers.
  assert (Hle' : Forall (fun t => t <= event_time last e) fs)
    by (eapply Forall_impl; [exact Hle|]; simpl; lia).
  assert (Hpre' : Forall (fun t => t <= event_time last e - QUARTER) pre)
    by (eapply Forall_impl; [exact Hpre|]; simpl; lia).
  destruct e as [k t|k|k limit t]; simpl in *.
  - destruct (decide (k = key)) as [->|Hne].
    + split_and!; [by apply sorted_snoc|apply Forall_app; split; [done|by repeat constructor]|].
      exists pre. rewrite lookup_insert_eq. simpl. by rewrite app_assoc, <- Hfs.
    + split_and!; [done|done|]. exists pre. by rewrite lookup_insert_ne.
  - destruct (decide (k = key)) as [->|Hne].
    + split_and!; [constructor|constructor|]. exists []. by rewrite lookup_delete_eq.
    + split_and!; [done|done|]. exists pre. by rewrite lookup_delete_ne.
  - split_and!; [done|done|].
    rewrite retain_windows_lookup.
    destruct (pop_expired_suffix (t - from_secs (15 * 60))
                (default [] (AdminLoginRateLimiter.attempts st !! key))) as (q & Hq & Hqle).
    exists (pre ++ q). rewrite Hfs, Hq at 1. rewrite app_assoc. split; [done|].
    apply Forall_app. auto.
Qed.

Lemma login_covers_run (key : string) (es : list LoginEvent) : forall fs st last,
  login_covers key fs st last -> login_monotone last es ->
  login_covers key (fold_left (failure_step key) es fs)
               (fold_left (fun st e => apply_login e st) es st) (end_time last es).
Proof.
  induction es as [|e es IH]; intros fs st last Hc Hm; simpl; [done|].
  destruct Hm as [Ht Hm]. apply IH; [by apply login_covers_step|done].
Qed.

Lemma is_limited_pruned (key : string) (limit now : Z) (st : AdminLoginRateLimiter.t) :
  (AdminLoginRateLimiter.is_limited key limit now st).1 =
  match pop_expired (now - QUARTER) (default [] (AdminLoginRateLimiter.attempts st !! key)) with
  | [] => false
  | w => Z.of_nat (length w) >=? limit
  end.
Proof.
  unfold AdminLoginRateLimiter.is_limited, retain_windows, QUARTER. simpl. rewrite lookup_omap.
  destruct (AdminLoginRateLimiter.attempts st !! key) as [w|]; simpl; [|done].
  by destruct (pop_expired _ w).
Qed.

(** Along every history of recorded, cleared and queried logins, a key
    is limited exactly when, of the failures recorded for it since it was
    last cleared, at least [limit] (and at least one) fall in the last
    fifteen minutes. *)
Theorem login_limited_iff (es : list LoginEvent) (t0 : Z) (key : string) (limit now : Z) :
  login_monotone t0 es -> end_time t0 es <= now ->
  (AdminLoginRateLimiter.is_limited key limit now (run_login es)).1 = true <->
  let recent := filter (fun t => now - QUARTER < t) (failures key es) in
  recent <> [] /\ limit <= Z.of_nat (length recent).
Proof.
  intros Hm Hnow.
  destruct (login_covers_run key es [] AdminLoginRateLimiter.new t0) as (Hs & Hle & pre & Hfs & Hpre);
    [|done|].
  { split_and!; [constructor|constructor|]. by exists []. }
  fold (failures key es) in *. fold (run_login es) in Hfs.
  rewrite is_limited_pruned. simpl.
  assert (Hsw : StronglySorted Z.le (default [] (AdminLoginRateLimiter.attempts (run_login es) !! key))).
  { rewrite Hfs in Hs. clear -Hs. induction pre as [|t pre IH]; simpl in *; [done|].
    apply IH. by inversion Hs. }
  rewrite pop_expired_filter by done.
  assert (Hrec : filter (fun t => now - QUARTER < t) (failures key es) =
                 filter (fun t => now - QUARTER < t)
                   (default [] (AdminLoginRateLimiter.attempts (run_login es) !! key))).
  { rewrite Hfs, filter_app, (filter_none _ pre); [done|].
    eapply Forall_impl; [exact Hpre|]. simpl. lia. }
  rewrite Hrec. clear Hrec. destruct (filter _ _) as [|u w].
  - split; [intros; discriminate|]. intros [Hne _]. by destruct Hne.
  - rewrite Z.geb_le. split; [by intros|by intros [_ ?]].
Qed.

Lemma login_limited_iff_witness :
  let es := [Record_ "a" 0; Record_ "a" 1; Clear_ "a"; Record_ "a" 2; Record_ "a" 3] in
  (AdminLoginRateLimiter.is_limited "a" 2 4 (run_login es)).1 = true.
Proof.
  intros es. apply (login_limited_iff es 0 "a" 2 4).
  - vm_compute. repeat split; discriminate.
  - vm_compute. discriminate.
  - split; vm_compute; discriminate.
Defined.

(** ** Pending passkey challenges *)

Lemma size_omap_le {A B} (f : A -> option B) (m : gmap string A) : (size (omap f m) <= size m)%nat.
Proof.
  induction m as [|i x m Hi IH] using map_ind; [done|].
  assert (Hf : omap f m !! i = None) by (by rewrite lookup_omap, Hi).
  rewrite omap_insert, (map_size_insert_None i x m) by done. destruct (f x) as [y|].
  - rewrite map_size_insert_None by done. lia.
  - rewrite delete_id by done. lia.
Qed.

Section Challenges.
Context {Auth : Type}.
Import DiscoverableChallenges.

Inductive ChallengeStep : t Auth -> t Auth -> Prop :=
| step_insert uuid a now st : ChallengeStep st (insert uuid a now st).2
| step_take id now st : ChallengeStep st (take id now st).2.

Lemma challenge_step_size (st st' : t Auth) :
  ChallengeStep st st' -> (size (pending st) <= 1024)%nat -> (size (pending st') <= 1024)%nat.
Proof.
  destruct 1 as [uuid a now st|id now st]; intros Hsz.
  - unfold insert. destruct (Nat.leb_spec 1024 (size (live now (pending st)))); simpl.
    + unfold live. pose proof (size_omap_le (fun e : Z * Auth => if now <? e.1 then Some e else None) (pending st)). lia.
    + destruct (live now (pending st) !! ("discoverable-" +:+ uuid)) eqn:E.
      * rewrite map_size_insert_Some by eauto. lia.
      * rewrite map_size_insert_None by done. lia.
  - unfold take. destruct (pending st !! id) as [[e a]|] eqn:E; simpl; [|done].
    rewrite map_size_delete, E. simpl. lia.
Qed.

(** Unauthenticated requests cannot grow the challenge table: every
    reachable table holds at most 1024 challenges. *)
Theorem challenges_bounded (st : t Auth) :
  rtc ChallengeStep new st -> (size (pending st) <= 1024)%nat.
Proof.
  intros Hr.
  assert (H0 : (size (pending (@new Auth)) <= 1024)%nat) by (unfold new; simpl; rewrite map_size_empty; lia).
  revert H0. induction Hr as [|x y z Hxy Hyz IH]; [done|].
  intros Hx. apply IH. by eapply challenge_step_size.
Qed.

(** A challenge is single use and expires: what was inserted is returned
    by the first [take] in the next 300 seconds (the clock not running
    backwards), an expired one never is, and no second [take] finds it. *)
Theorem challenge_single_use (uuid : string) (a : Auth) (now now' now'' : Z) (st : t Auth) :
  (size (live now (pending st)) < 1024)%nat ->
  exists id st1, insert uuid a now st = (Some id, st1) /\
    (take id now' st1).1 = (if now' <? now + from_secs 300 then Some a else None) /\
    (take id now'' (take id now' st1).2).1 = None.
Proof.
  intros Hsz. unfold insert. destruct (Nat.leb_spec 1024 (size (live now (pending st)))); [lia|].
  eexists _, _. split; [done|]. unfold take. simpl. rewrite lookup_insert_eq. simpl.
  split; [done|]. by rewrite lookup_delete_eq.
Qed.

End Challenges.

Lemma challenges_bounded_witness :
  (size (DiscoverableChallenges.pending
     (DiscoverableChallenges.insert "u" tt 0 DiscoverableChallenges.new).2) <= 1024)%nat.
Proof.
  apply (challenges_bounded (Auth := unit)). eapply rtc_l; [|apply rtc_refl].
  apply (step_insert "u" tt 0 DiscoverableChallenges.new).
Defined.

Lemma challenge_single_use_witness :
  exists id st1, DiscoverableChallenges.insert "u" 7%nat 0 DiscoverableChallenges.new = (Some id, st1) /\
    (DiscoverableChallenges.take id 5 st1).1 = Some 7%nat /\
    (DiscoverableChallenges.take id 6 (DiscoverableChallenges.take id 5 st1).2).1 = None.
Proof. apply (challenge_single_use "u" 7%nat 0 5 6). vm_compute. lia. Defined.
