(* ===== verification/TrustedProxy.v ===== *)
(** * Trusted proxies and the client address

    [crates/server/src/config.rs]: [TrustedProxy], [parse_trusted_proxy],
    [Config::is_trusted_proxy]; [crates/server/src/main.rs]:
    [resolve_client_ip_from], [parse_forwarded_ip]. *)
From S2P Require Import Prelude RustStr Headers Net.
Open Scope Z_scope.

Module TrustedProxy.

Inductive t : Type :=
| V4 (network prefix : Z)
| V6 (network prefix : Z).

Definition contains (self : t) (address : IpAddr) : bool :=
  match self, address with
  | V4 network prefix, Net.V4 address =>
      let mask := prefix_mask 32 prefix in
      Z.land address mask =? Z.land network mask
  | V6 network prefix, Net.V6 address =>
      let mask := prefix_mask 128 prefix in
      Z.land address mask =? Z.land network mask
  | _, _ => false
  end.

End TrustedProxy.

Definition parse_trusted_proxy (value : string) : result TrustedProxy.t string :=
  let '(address, prefix) :=
    match split_once "/" (str_trim value) with
    | Some (address, prefix) => (address, Some prefix)
    | None => (str_trim value, None)
    end in
  match parse_ip address with
  | None => Err "expected an IP address or CIDR range"
  | Some (V4 a) =>
      match (match prefix with None => Some 32 | Some p => parse_uint U8_MAX p end) with
      | None => Err "invalid IPv4 prefix"
      | Some prefix =>
          if 32 <? prefix then Err "IPv4 prefix must be between 0 and 32"
          else Ok (TrustedProxy.V4 a prefix)
      end
  | Some (V6 a) =>
      match (match prefix with None => Some 128 | Some p => parse_uint U8_MAX p end) with
      | None => Err "invalid IPv6 prefix"
      | Some prefix =>
          if 128 <? prefix then Err "IPv6 prefix must be between 0 and 128"
          else Ok (TrustedProxy.V6 a prefix)
      end
  end.

(** [Config::is_trusted_proxy], over the field [trusted_proxies]. *)
Definition is_trusted_proxy (trusted_proxies : list string) (address : IpAddr) : bool :=
  existsb (fun proxy => match parse_trusted_proxy proxy with
                        | Ok network => TrustedProxy.contains network address
                        | Err _ => false
                        end) trusted_proxies.

Definition parse_forwarded_ip (value : string) : option IpAddr :=
  match parse_ip value with
  | Some ip => Some ip
  | None => (fun a : SocketAddr => a.1.1) <$> parse_socket_addr value
  end.

(** The loop over the addresses, last one first. *)
Fixpoint walk_back (trusted : IpAddr -> bool) (current : IpAddr) (rev_addresses : list IpAddr) : IpAddr :=
  match rev_addresses with
  | [] => current
  | candidate :: rest =>
      if trusted current then walk_back trusted candidate rest else current
  end.

(** [.map(f).collect::<Option<Vec<_>>>()]. *)
Fixpoint collect_options {A B} (f : A -> option B) (l : list A) : option (list B) :=
  match l with
  | [] => Some []
  | x :: t => match f x with
              | Some y => cons y <$> collect_options f t
              | None => None
              end
  end.

Definition resolve_client_ip_from `{HeaderApi} (peer : IpAddr) (headers : HeaderMap)
    (trusted_proxies : list string) : IpAddr :=
  if negb (is_trusted_proxy trusted_proxies peer) then peer
  else match h_get_str headers "x-forwarded-for" with
       | None => peer
       | Some value =>
           match collect_options parse_forwarded_ip (str_trim <$> str_split "," value) with
           | None => peer
           | Some addresses => walk_back (is_trusted_proxy trusted_proxies) peer (rev addresses)
           end
       end.

(** ** Lemmas *)

Lemma collect_options_Some {A B} (f : A -> option B) (l : list A) (r : list B) :
  collect_options f l = Some r <-> Forall2 (fun x y => f x = Some y) l r.
Proof.
  revert r. induction l as [|x l IH]; intros r; simpl.
  - split; [intros [= <-]; constructor|]. by inversion 1.
  - destruct (f x) as [y|] eqn:Hx.
    + rewrite fmap_Some. split.
      * intros (r' & Hr & ->). constructor; [done|]. by apply IH.
      * inversion 1; subst. simplify_eq. eexists. split; [by apply IH|done].
    + split; [done|]. inversion 1; simplify_eq.
Qed.

Lemma collect_options_app {A B} (f : A -> option B) (l1 l2 : list A) (r1 r2 : list B) :
  collect_options f l1 = Some r1 -> collect_options f l2 = Some r2 ->
  collect_options f (l1 ++ l2) = Some (r1 ++ r2).
Proof. rewrite !collect_options_Some. apply Forall2_app. Qed.

Lemma last_cons_default {A} (x d d' : A) (l : list A) : List.last (x :: l) d = List.last (x :: l) d'.
Proof. revert x. induction l as [|y l IH]; intros x; [done|]. exact (IH y). Qed.

(** The walk stops at the first untrusted address of the chain. *)
Lemma walk_back_spec (trusted : IpAddr -> bool) (current : IpAddr) (l : list IpAddr) :
  walk_back trusted current l =
  match find_first (fun ip => negb (trusted ip)) (current :: l) with
  | Some ip => ip
  | None => List.last l current
  end.
Proof.
  revert current. induction l as [|c l IH]; intros current; simpl; unfold find_first; simpl.
  - by destruct (trusted current).
  - destruct (trusted current); simpl; [|done]. rewrite IH. unfold find_first. simpl.
    destruct (trusted c); simpl; [|done].
    destruct (find_map _ l); [done|]. destruct l as [|x l]; [done|]. apply last_cons_default.
Qed.

Lemma walk_back_stop (trusted : IpAddr -> bool) (current ip : IpAddr) (pre post : list IpAddr) :
  trusted ip = false -> Forall (fun x => trusted x = true) (current :: pre) ->
  walk_back trusted current (pre ++ ip :: post) = ip.
Proof.
  intros Hip. revert current. induction pre as [|x pre IH]; intros current Hall; simpl.
  - apply Forall_cons in Hall as [-> _]. destruct post; simpl; [done|]. by rewrite Hip.
  - apply Forall_cons in Hall as [-> Hall]. by apply IH.
Qed.


(** The prefix test of a parsed network: the families agree and the first
    [prefix] bits are equal. *)
Lemma trusted_contains_iff (net : TrustedProxy.t) (v : string) (address : IpAddr) :
  parse_trusted_proxy v = Ok net -> wf_ip address ->
  TrustedProxy.contains net address = true <->
  match net, address with
  | TrustedProxy.V4 n p, Net.V4 a => a / 2 ^ (32 - p) = n / 2 ^ (32 - p)
  | TrustedProxy.V6 n p, Net.V6 a => a / 2 ^ (128 - p) = n / 2 ^ (128 - p)
  | _, _ => False
  end.
Proof.
  unfold parse_trusted_proxy. destruct (match split_once "/" _ with Some _ => _ | None => _ end) as [addr pre].
  destruct (parse_ip addr) as [ip|] eqn:Hip; [|done]. apply parse_ip_wf in Hip.
  intros H Hwf. destruct ip as [n|n];
    (destruct (match pre with None => _ | Some _ => _ end) as [p|] eqn:Hp; [|done]);
    (revert H; case_bool; [done|]; intros [= <-]; bool_to_prop);
    (assert (0 <= p) by (destruct pre; [apply parse_uint_bound in Hp; unfold U8_MAX in *|simplify_eq]; lia));
    destruct address as [a|a]; simpl in *; unfold U32_MAX, U128_MAX in *; try (split; [done|tauto]);
    rewrite Z.eqb_eq; apply land_prefix_mask_eq; lia.
Qed.

Lemma walk_back_shadow (trusted : IpAddr -> bool) (current ip : IpAddr) (l forged : list IpAddr) :
  ip ∈ current :: l -> trusted ip = false ->
  walk_back trusted current (l ++ forged) = walk_back trusted current l.
Proof.
  revert current. induction l as [|x l IH]; intros current Hin Hip; simpl.
  - apply list_elem_of_singleton in Hin as <-. destruct forged; simpl; [done|]. by rewrite Hip.
  - destruct (trusted current) eqn:Hc; [|done]. apply IH; [|done].
    apply elem_of_cons in Hin as [->|Hin]; [congruence|done].
Qed.

(** The addresses of an [X-Forwarded-For] value. *)
Definition forwarded_addresses (value : string) : option (list IpAddr) :=
  collect_options parse_forwarded_ip (str_trim <$> str_split "," value).

Lemma forwarded_addresses_app (a b : string) (la lb : list IpAddr) :
  forwarded_addresses a = Some la -> forwarded_addresses b = Some lb ->
  forwarded_addresses (a +:+ String "," b) = Some (la ++ lb).
Proof.
  unfold forwarded_addresses. intros. rewrite str_split_concat, fmap_app. by apply collect_options_app.
Qed.

(** One entry that does not parse spoils the whole value. *)
Lemma collect_options_app_none {A B} (f : A -> option B) (l1 l2 : list A) :
  collect_options f l1 = None -> collect_options f (l1 ++ l2) = None.
Proof.
  induction l1 as [|x l1 IH]; simpl; [done|]. destruct (f x); [|done].
  destruct (collect_options f l1); simpl; [done|]. intros _. by rewrite IH.
Qed.

Lemma forwarded_addresses_app_none (a b : string) :
  forwarded_addresses a = None -> forwarded_addresses (a +:+ String "," b) = None.
Proof. unfold forwarded_addresses. rewrite str_split_concat, fmap_app. apply collect_options_app_none. Qed.

(** ** Properties *)

(** For a peer that is a trusted proxy and a well-formed [X-Forwarded-For]
    header, the client address is the first address that is not a trusted
    proxy on the way from the peer back through the header, and the header's
    leftmost address when all of them are trusted. *)
Theorem resolve_client_ip_first_untrusted `{HeaderApi} (peer : IpAddr) (headers : HeaderMap)
    (trusted : list string) (value : string) (addresses : list IpAddr) :
  h_get_str headers "x-forwarded-for" = Some value ->
  forwarded_addresses value = Some addresses ->
  resolve_client_ip_from peer headers trusted =
  match find_first (fun ip => negb (is_trusted_proxy trusted ip)) (peer :: rev addresses) with
  | Some ip => ip
  | None => List.hd peer addresses
  end.
Proof.
  intros Hv Ha. unfold resolve_client_ip_from. rewrite Hv. unfold forwarded_addresses in Ha. rewrite Ha.
  destruct (is_trusted_proxy trusted peer) eqn:Hp; unfold find_first; simpl; rewrite Hp; [|done]. simpl.
  rewrite walk_back_spec. unfold find_first. simpl. rewrite Hp. simpl.
  destruct (find_map _ (rev addresses)); [done|].
  destruct addresses as [|x l]; [done|]. simpl. by rewrite last_last.
Qed.

Lemma resolve_client_ip_first_untrusted_witness :
  resolve_client_ip_from (V4 167772161) [("x-forwarded-for", "9.9.9.9, 203.0.113.7, 10.0.0.2")] ["10.0.0.0/8"]
  = V4 3405803783.
Proof.
  rewrite (@resolve_client_ip_first_untrusted AssocHeaders (V4 167772161)
    [("x-forwarded-for", "9.9.9.9, 203.0.113.7, 10.0.0.2")] ["10.0.0.0/8"]
    "9.9.9.9, 203.0.113.7, 10.0.0.2" [V4 151587081; V4 3405803783; V4 167772162]);
  vm_compute; reflexivity.
Defined.

(** C38: a client cannot choose its address: whatever it puts in front of the
    [X-Forwarded-For] value the proxies append, the address is the one the
    proxies' part gives when every forged entry parses, and the address of the
    peer, the proxy itself, when one does not; whenever the part the proxies
    wrote (or the peer) holds an address that is not a trusted proxy. *)
Theorem resolve_client_ip_unforgeable `{HeaderApi} (peer : IpAddr) (headers headers' : HeaderMap)
    (trusted : list string) (forged value : string) (addresses : list IpAddr) (ip : IpAddr) :
  h_get_str headers "x-forwarded-for" = Some value ->
  h_get_str headers' "x-forwarded-for" = Some (forged +:+ String "," value) ->
  forwarded_addresses value = Some addresses ->
  ip ∈ peer :: addresses -> is_trusted_proxy trusted ip = false ->
  resolve_client_ip_from peer headers' trusted =
  match forwarded_addresses forged with
  | Some _ => resolve_client_ip_from peer headers trusted
  | None => peer
  end.
Proof.
  intros Hv Hv' Ha Hin Hip. unfold resolve_client_ip_from. rewrite Hv, Hv'.
  destruct (forwarded_addresses forged) as [fs|] eqn:Hf.
  - pose proof (forwarded_addresses_app _ _ _ _ Hf Ha) as Hfa.
    unfold forwarded_addresses in Ha, Hfa. rewrite Ha, Hfa.
    rewrite rev_app_distr. case_bool; [done|]. apply (walk_back_shadow _ _ ip); [|done].
    apply elem_of_cons in Hin as [->|Hin]; [left|right]. rewrite rev_alt. by apply elem_of_reverse.
  - pose proof (forwarded_addresses_app_none _ value Hf) as Hfa. unfold forwarded_addresses in Hfa.
    rewrite Hfa. by case_bool.
Qed.

(** A forged address in front changes nothing; a forged entry that is no
    address gives the proxy's own. *)
Lemma resolve_client_ip_unforgeable_witness :
  resolve_client_ip_from (V4 167772161) [("x-forwarded-for", "8.8.8.8,203.0.113.7")] ["10.0.0.0/8"] =
  V4 3405803783 /\
  resolve_client_ip_from (V4 167772161) [("x-forwarded-for", "me,203.0.113.7")] ["10.0.0.0/8"] =
  V4 167772161.
Proof.
  split.
  - rewrite (@resolve_client_ip_unforgeable AssocHeaders (V4 167772161) [("x-forwarded-for", "203.0.113.7")]
      [("x-forwarded-for", "8.8.8.8,203.0.113.7")] ["10.0.0.0/8"] "8.8.8.8" "203.0.113.7"
      [V4 3405803783] (V4 3405803783));
    try (vm_compute; reflexivity).
    right. left.
  - rewrite (@resolve_client_ip_unforgeable AssocHeaders (V4 167772161) [("x-forwarded-for", "203.0.113.7")]
      [("x-forwarded-for", "me,203.0.113.7")] ["10.0.0.0/8"] "me" "203.0.113.7"
      [V4 3405803783] (V4 3405803783));
    try (vm_compute; reflexivity).
    right. left.
Defined.
