(* ===== verification/Fs.v ===== *)
(** * The file system

    The calls of [std::fs] the server makes, on a map from paths to files.
    Every call can fail: the field [faults] is the tape that says, call after
    call, whether the operating system reports an error; an empty tape
    reports none.  A failed write leaves a prefix of the data behind; a rename
    either happens or does not.  Time is in nanoseconds. *)
From stdpp Require Import gmap.
From S2P Require Import Prelude RustStr.

Inductive fault : Type :=
| Fine
| Fails (written : nat).

Record file : Type := File { data : string; modified : Z }.

Record fs : Type := Fs { files : gmap string file; faults : list fault; now : Z }.

Inductive io_error : Type := NotFound | Other.

Definition io (A : Type) : Type := fs -> result A io_error * fs.

(** What a path holds. *)
Definition content (s : fs) (path : string) : option string := data <$> files s !! path.

Definition set_files (m : gmap string file) (s : fs) : fs := Fs m (faults s) (now s).

Definition next_fault (s : fs) : fault * fs :=
  match faults s with
  | [] => (Fine, s)
  | f :: t => (f, Fs (files s) t (now s))
  end.

(** [fs::read], [fs::read_to_string]. *)
Definition fs_read (path : string) : io string := fun s =>
  match next_fault s with
  | (Fine, s') => (match files s !! path with Some f => Ok (data f) | None => Err NotFound end, s')
  | (Fails _, s') => (Err Other, s')
  end.

(** [fs::metadata]. *)
Definition fs_metadata (path : string) : io file := fun s =>
  match next_fault s with
  | (Fine, s') => (result_of_option (files s !! path) NotFound, s')
  | (Fails _, s') => (Err Other, s')
  end.

Definition put (path : string) (d : string) (s : fs) : fs :=
  set_files (<[path := File d (now s)]> (files s)) s.

(** [fs::write]: creates or truncates the file, then writes. *)
Definition fs_write (path d : string) : io unit := fun s =>
  match next_fault s with
  | (Fine, s') => (Ok tt, put path d s')
  | (Fails n, s') => (Err Other, put path (String.substring 0 n d) s')
  end.

(** [fs::rename]. *)
Definition fs_rename (from to : string) : io unit := fun s =>
  match next_fault s with
  | (Fine, s') =>
      match files s' !! from with
      | Some f => (Ok tt, set_files (<[to := f]> (delete from (files s'))) s')
      | None => (Err NotFound, s')
      end
  | (Fails _, s') => (Err Other, s')
  end.

(** [fs::remove_file]. *)
Definition fs_remove (path : string) : io unit := fun s =>
  match next_fault s with
  | (Fine, s') =>
      match files s' !! path with
      | Some _ => (Ok tt, set_files (delete path (files s')) s')
      | None => (Err NotFound, s')
      end
  | (Fails _, s') => (Err Other, s')
  end.

(** [fs::copy]. *)
Definition fs_copy (from to : string) : io unit := fun s =>
  match next_fault s with
  | (Fine, s') =>
      match files s' !! from with
      | Some f => (Ok tt, put to (data f) s')
      | None => (Err NotFound, s')
      end
  | (Fails n, s') =>
      (Err Other, match files s' !! from with
                  | Some f => put to (String.substring 0 n (data f)) s'
                  | None => s'
                  end)
  end.

(** [OpenOptions::new().write(true).open(path)] and [set_modified(now)]. *)
Definition fs_touch (path : string) : io unit := fun s =>
  match next_fault s with
  | (Fine, s') =>
      match files s' !! path with
      | Some f => (Ok tt, put path (data f) s')
      | None => (Err NotFound, s')
      end
  | (Fails _, s') => (Err Other, s')
  end.

(** [fs::create_dir_all]: directories are not part of the map. *)
Definition fs_create_dir_all (path : string) : io unit := fun s =>
  match next_fault s with
  | (Fine, s') => (Ok tt, s')
  | (Fails _, s') => (Err Other, s')
  end.

(** [Path::exists]. *)
Definition fs_exists (path : string) (s : fs) : bool :=
  match files s !! path with Some _ => true | None => false end.

(** ** Paths *)

(** The file name and what precedes it, with its slash. *)
Definition split_name (path : string) : string * string :=
  match split_once "/" (String.rev path) with
  | Some (name, parent) => (String.rev name, String.rev (String "/" parent))
  | None => (path, "")
  end.

(** Stem and extension of a file name: the last dot, unless it comes first. *)
Definition split_extension (name : string) : string * option string :=
  match split_once "." (String.rev name) with
  | Some (ext, stem) => if str_is_empty stem then (name, None) else (String.rev stem, Some (String.rev ext))
  | None => (name, None)
  end.

(** [Path::extension]. *)
Definition extension (path : string) : option string := (split_extension (split_name path).1).2.

(** [Path::with_extension]. *)
Definition with_extension (path ext : string) : string :=
  let '(name, parent) := split_name path in
  parent +:+ (split_extension name).1 +:+ "." +:+ ext.

(** [Path::join] of a relative name. *)
Definition path_join (dir name : string) : string :=
  if str_is_empty dir then name
  else if starts_with "/" (String.rev dir) then dir +:+ name
  else dir +:+ "/" +:+ name.

(** ** What an operation leaves alone *)

Lemma next_fault_files (s : fs) : files (next_fault s).2 = files s.
Proof. unfold next_fault. by destruct s as [m [|f t] n]. Qed.

Lemma next_fault_none (s : fs) : faults s = [] -> next_fault s = (Fine, s).
Proof. unfold next_fault. by intros ->. Qed.

Ltac fs_unfold :=
  unfold fs_read, fs_metadata, fs_write, fs_rename, fs_remove, fs_copy, fs_touch, fs_create_dir_all;
  match goal with
  | |- context [next_fault ?s] =>
      let H := fresh "Hfiles" in pose proof (next_fault_files s) as H;
      destruct (next_fault s) as [[|?n] ?s']; simpl in H |- *
  end.

Lemma fs_read_files (p : string) (s : fs) : files (fs_read p s).2 = files s.
Proof. by fs_unfold. Qed.

Lemma fs_metadata_files (p : string) (s : fs) : files (fs_metadata p s).2 = files s.
Proof. by fs_unfold. Qed.

Lemma fs_create_dir_all_files (p : string) (s : fs) : files (fs_create_dir_all p s).2 = files s.
Proof. by fs_unfold. Qed.

Lemma fs_write_frame (p d q : string) (s : fs) :
  q <> p -> files (fs_write p d s).2 !! q = files s !! q.
Proof. intros Hq. fs_unfold; by rewrite lookup_insert_ne, Hfiles. Qed.

Lemma fs_write_ok (p d : string) (s : fs) :
  (fs_write p d s).1 = Ok tt -> content (fs_write p d s).2 p = Some d.
Proof. unfold content. fs_unfold; [by rewrite lookup_insert_eq|done]. Qed.

Lemma fs_copy_frame (p q r : string) (s : fs) :
  r <> q -> files (fs_copy p q s).2 !! r = files s !! r.
Proof.
  intros Hr. fs_unfold; destruct (files s' !! p); simpl;
    rewrite ?lookup_insert_ne by done; by rewrite Hfiles.
Qed.

Lemma fs_remove_frame (p q : string) (s : fs) :
  q <> p -> files (fs_remove p s).2 !! q = files s !! q.
Proof.
  intros Hq. fs_unfold; [destruct (files s' !! p); simpl|];
    rewrite ?lookup_delete_ne by done; by rewrite Hfiles.
Qed.

Lemma fs_rename_frame (p q r : string) (s : fs) :
  r <> p -> r <> q -> files (fs_rename p q s).2 !! r = files s !! r.
Proof.
  intros Hp Hq. fs_unfold; [destruct (files s' !! p); simpl|];
    rewrite ?lookup_insert_ne, ?lookup_delete_ne by done; by rewrite Hfiles.
Qed.

(** A rename that reports an error did not happen. *)
Lemma fs_rename_err (p q : string) (s : fs) (e : io_error) :
  (fs_rename p q s).1 = Err e -> files (fs_rename p q s).2 = files s.
Proof. fs_unfold; [by destruct (files s' !! p)|done]. Qed.

Lemma fs_rename_ok (p q c : string) (s : fs) :
  (fs_rename p q s).1 = Ok tt -> content s p = Some c -> content (fs_rename p q s).2 q = Some c.
Proof.
  unfold content. fs_unfold; [|done]. rewrite Hfiles. intros H (f & Hf & Hd)%fmap_Some.
  rewrite Hf. simpl. rewrite lookup_insert_eq. by rewrite Hd.
Qed.

#[export] Hint Rewrite fs_read_files fs_metadata_files fs_create_dir_all_files : mirror.

(** ** Without faults *)

Section Quiet.
Variable s : fs.
Hypothesis Hq : faults s = [].

Lemma quiet_read (p : string) :
  fs_read p s = (match files s !! p with Some f => Ok (data f) | None => Err NotFound end, s).
Proof. unfold fs_read. by rewrite next_fault_none. Qed.

Lemma quiet_metadata (p : string) : fs_metadata p s = (result_of_option (files s !! p) NotFound, s).
Proof. unfold fs_metadata. by rewrite next_fault_none. Qed.

Lemma quiet_write (p d : string) : fs_write p d s = (Ok tt, put p d s).
Proof. unfold fs_write. by rewrite next_fault_none. Qed.

Lemma quiet_rename (p q : string) (f : file) :
  files s !! p = Some f -> fs_rename p q s = (Ok tt, set_files (<[q := f]> (delete p (files s))) s).
Proof. intros Hf. unfold fs_rename. rewrite next_fault_none by done. by rewrite Hf. Qed.

Lemma quiet_remove (p : string) :
  (fs_remove p s).2 = set_files (delete p (files s)) s /\
  is_ok (fs_remove p s).1 = match files s !! p with Some _ => true | None => false end.
Proof.
  unfold fs_remove. rewrite next_fault_none by done. destruct (files s !! p) eqn:E; simpl; [done|].
  split; [|done]. rewrite delete_id by done. by destruct s.
Qed.

Lemma quiet_touch (p : string) (f : file) :
  files s !! p = Some f -> (fs_touch p s).2 = put p (data f) s.
Proof. intros Hf. unfold fs_touch. rewrite next_fault_none by done. by rewrite Hf. Qed.

Lemma quiet_create_dir_all (p : string) : fs_create_dir_all p s = (Ok tt, s).
Proof. unfold fs_create_dir_all. by rewrite next_fault_none. Qed.
End Quiet.

(** ** Lemmas on paths *)

Lemma contains_char_rev (c : ascii) (s : string) : contains_char c (String.rev s) = contains_char c s.
Proof.
  induction s as [|x s IH]; [done|]. rewrite string_rev_cons, contains_char_app, IH. simpl.
  by rewrite orb_false_r, orb_comm.
Qed.

(** A joined path is a fixed prefix and the name; the prefix is empty or ends
    with a slash. *)
Lemma path_join_prefix (dir name : string) : path_join dir name = path_join dir "" +:+ name.
Proof.
  unfold path_join. destruct (str_is_empty dir); [done|]. case_bool.
  - by rewrite str_app_nil_r.
  - by rewrite <- str_app_assoc.
Qed.

Lemma path_join_slash (dir : string) :
  path_join dir "" = "" \/ exists rest, String.rev (path_join dir "") = String "/" rest.
Proof.
  unfold path_join. destruct (str_is_empty dir); [by left|right]. case_bool.
  - rewrite str_app_nil_r. apply starts_with_spec in Heqb as [t ->]. by exists t.
  - exists (String.rev dir). rewrite string_rev_app. reflexivity.
Qed.

Lemma split_name_join (dir name : string) :
  contains_char "/" name = false -> split_name (path_join dir name) = (name, path_join dir "").
Proof.
  intros Hn. unfold split_name. rewrite path_join_prefix, string_rev_app.
  destruct (path_join_slash dir) as [->|[rest Hr]].
  - rewrite str_app_nil_r.
    assert (split_once "/" (String.rev name) = None) as ->; [|done].
    apply split_once_None. by rewrite contains_char_rev.
  - rewrite Hr. rewrite (proj2 (split_once_Some "/" _ (String.rev name) rest)).
    + by rewrite string_rev_involutive, <- Hr, string_rev_involutive.
    + split; [done|]. by rewrite contains_char_rev.
Qed.

Lemma split_extension_dot (stem ext : string) :
  str_is_empty stem = false -> contains_char "." ext = false ->
  split_extension (stem +:+ String "." ext) = (stem, Some ext).
Proof.
  intros Hs He. unfold split_extension.
  rewrite (proj2 (split_once_Some "." _ (String.rev ext) (String.rev stem))).
  - destruct (str_is_empty (String.rev stem)) eqn:E.
    + destruct (String.rev stem) eqn:E'; [|done]. apply (f_equal String.rev) in E'.
      rewrite string_rev_involutive in E'. by subst.
    + by rewrite !string_rev_involutive.
  - rewrite string_rev_app, string_rev_cons, <- str_app_assoc. split; [done|]. by rewrite contains_char_rev.
Qed.

(** The paths of one entry: same key, another extension. *)
Lemma with_extension_join (dir key ext ext' : string) :
  contains_char "/" key = false -> str_is_empty key = false ->
  contains_char "/" ext = false -> contains_char "." ext = false ->
  with_extension (path_join dir (key +:+ String "." ext)) ext' = path_join dir (key +:+ String "." ext').
Proof.
  intros Hk Hne He Hd. unfold with_extension.
  rewrite split_name_join by (by rewrite contains_char_app; simpl; rewrite Hk, He).
  rewrite split_extension_dot by done. simpl. by rewrite (path_join_prefix dir (key +:+ String "." ext')).
Qed.

Lemma path_join_inj (dir a b : string) : path_join dir a = path_join dir b -> a = b.
Proof. rewrite (path_join_prefix dir a), (path_join_prefix dir b). apply str_app_inj_l. Qed.

Lemma split_name_app (path : string) : path = (split_name path).2 +:+ (split_name path).1.
Proof.
  unfold split_name. destruct (split_once "/" (String.rev path)) as [[n p]|] eqn:E; [|done]. simpl.
  apply split_once_Some in E as [E _]. apply (f_equal String.rev) in E.
  rewrite string_rev_involutive in E. rewrite E at 1. by rewrite string_rev_app.
Qed.

(** A path with an extension ends with it. *)
Lemma extension_suffix (path ext : string) :
  extension path = Some ext -> exists pre, path = pre +:+ String "." ext.
Proof.
  unfold extension, split_extension. intros H.
  destruct (split_once "." _) as [[e stem]|] eqn:E; [|done].
  destruct (str_is_empty stem); [done|]. simpl in H. injection H as <-.
  apply split_once_Some in E as [E _]. apply (f_equal String.rev) in E.
  rewrite string_rev_involutive, string_rev_app, string_rev_cons in E.
  exists ((split_name path).2 +:+ String.rev stem). rewrite (split_name_app path) at 1. rewrite E.
  by rewrite <- !str_app_assoc.
Qed.

Lemma extension_join (dir key ext : string) :
  contains_char "/" key = false -> str_is_empty key = false ->
  contains_char "/" ext = false -> contains_char "." ext = false ->
  extension (path_join dir (key +:+ String "." ext)) = Some ext.
Proof.
  intros Hk Hne He Hd. unfold extension.
  rewrite split_name_join by (by rewrite contains_char_app; simpl; rewrite Hk, He).
  simpl. by rewrite split_extension_dot.
Qed.
