(* ===== verification/Geo.v ===== *)
(** * Offline IP lookup and IP access policy

    [crates/server/src/geoip.rs]: the XDB reader and its binary search, the
    location fields, the IP access policy and its networks, the public-address
    test; [crates/server/src/main.rs]: [normalize_ip_access_rule]. *)
From S2P Require Import Prelude RustStr Net TrustedProxy Fs.
Open Scope Z_scope.
Open Scope mirror_scope.

Inductive GeoError : Type :=
| Message (m : string)
| AddrParseError
| ParseIntError
| Utf8Error
| Io (e : io_error).

Definition HEADER_LENGTH : Z := 256.
Definition VECTOR_INDEX_LENGTH : Z := 256 * 256 * 8.
Definition MAX_XDB_BYTES : Z := 80 * 1024 * 1024.

(** ** Locations *)

Record GeoLocation : Type := {
  country : option string;
  province : option string;
  city : option string;
  isp : option string;
  country_code : option string;
}.

Definition GeoLocation_unknown : GeoLocation :=
  {| country := None; province := None; city := None; isp := None; country_code := None |}.

Definition normalize_field (value : string) : option string :=
  let value := str_trim value in
  if negb (str_is_empty value) && negb (value =? "0")%string && negb (eq_ignore_ascii_case value "reserved")
  then Some value else None.

(** [fields.next().flatten()] on the i-th call. *)
Definition field (fields : list (option string)) (i : nat) : option string :=
  match fields !! i with Some f => f | None => None end.

(** [from_xdb]; [to_uppercase] is the Unicode mapping of the standard library. *)
Definition from_xdb (to_uppercase : string -> string) (value : string) : GeoLocation :=
  let fields := normalize_field <$> str_split "|" value in
  {| country := field fields 0;
     province := field fields 1;
     city := field fields 2;
     isp := field fields 3;
     country_code := to_uppercase <$> field fields 4 |}.

Definition country_bucket (self : GeoLocation) : string * string :=
  (default "ZZ" (country_code self), default "Unknown" (country self)).

Definition province_bucket (self : GeoLocation) : string := default "Unknown" (province self).
Definition city_bucket (self : GeoLocation) : string := default "Unknown" (city self).

(** ** The public-address test *)

Definition is_public_ip (ip : IpAddr) : bool :=
  match ip with
  | V4 ip =>
      negb (v4_is_private ip || v4_is_loopback ip || v4_is_link_local ip || v4_is_broadcast ip
            || v4_is_documentation ip || v4_is_unspecified ip || v4_is_multicast ip)
  | V6 ip =>
      negb (v6_is_loopback ip || v6_is_unspecified ip || v6_is_multicast ip
            || (Z.land (nth_z (segments ip) 0) 65024 =? 64512)
            || (Z.land (nth_z (segments ip) 0) 65472 =? 65152))
  end.

(** ** The XDB reader *)

Inductive XdbIpVersion : Type := XV4 | XV6.

#[global] Instance XdbIpVersion_eq_dec : EqDecision XdbIpVersion.
Proof. solve_decision. Defined.

Record XdbReader : Type := {
  bytes : list Z;
  ip_version : XdbIpVersion;
  created_at : Z;
  sha256 : string;
}.

(** [u16::from_le_bytes], [u32::from_le_bytes]. *)
Definition from_le_bytes (l : list Z) : Z := from_be 8 (rev l).

Definition byte_at (l : list Z) (i : nat) : Z := nth i l 0.

Definition blen (l : list Z) : Z := Z.of_nat (length l).

Definition slice (bytes : list Z) (offset length : Z) : result (list Z) GeoError :=
  let stop := sat_add_u64 offset length in
  if (offset <=? stop) && (stop <=? blen bytes)
  then Ok (take (Z.to_nat (stop - offset)) (drop (Z.to_nat offset) bytes))
  else Err (Message "XDB pointer is outside the database").

Definition read_u32 (bytes : list Z) (offset : Z) : result Z GeoError :=
  let? s := slice bytes offset 4 in Ok (from_le_bytes s).

Definition decode_index_ip (bytes : list Z) (version : XdbIpVersion) : list Z :=
  match version with XV4 => rev bytes | XV6 => bytes end.

(** Lexicographic order of [Vec<u8>]. *)
Fixpoint bytes_ltb (a b : list Z) : bool :=
  match a, b with
  | [], [] => false
  | [], _ :: _ => true
  | _ :: _, [] => false
  | x :: a', y :: b' => (x <? y) || ((x =? y) && bytes_ltb a' b')
  end.

(** The header checks of [from_bytes]; [digest] is the hexadecimal SHA-256. *)
Definition from_bytes (digest : list Z -> string) (bytes : list Z) : result XdbReader GeoError :=
  if blen bytes <? HEADER_LENGTH + VECTOR_INDEX_LENGTH then Err (Message "XDB file is truncated")
  else
  let u16 i := from_le_bytes [byte_at bytes i; byte_at bytes (S i)] in
  if negb (u16 0%nat =? 3) then Err (Message "unsupported XDB version")
  else if negb (u16 2%nat =? 1) then Err (Message "unsupported XDB index policy")
  else
  let created_at := from_le_bytes (take 4 (drop 4 bytes)) in
  let? ip_version :=
    (if u16 16%nat =? 4 then Ok XV4
     else if u16 16%nat =? 6 then Ok XV6
     else Err (Message "unsupported XDB IP version")) in
  if negb (u16 18%nat =? 4) then Err (Message "unsupported XDB pointer width")
  else Ok {| bytes := bytes; ip_version := ip_version; created_at := created_at; sha256 := digest bytes |}.

(** The binary search of [lookup]: record [mid], then its half.  [None] is
    running out of fuel. *)
Section Search.
Variables (bytes : list Z) (version : XdbIpVersion) (octets : list Z) (start ip_len record_len : Z).

Definition record_at (mid : Z) : result (list Z) GeoError :=
  slice bytes (sat_add_u64 start (sat_mul_u64 mid record_len)) record_len.

Definition start_ip (record : list Z) : list Z :=
  decode_index_ip (take (Z.to_nat ip_len) record) version.

Definition end_ip (record : list Z) : list Z :=
  decode_index_ip (take (Z.to_nat ip_len) (drop (Z.to_nat ip_len) record)) version.

(** The region text a record points to. *)
Definition record_data (record : list Z) : result (option string) GeoError :=
  let length := from_le_bytes (take 2 (drop (Z.to_nat (ip_len * 2)) record)) in
  let data_offset := from_le_bytes (take 4 (drop (Z.to_nat (ip_len * 2 + 2)) record)) in
  let? data := slice bytes data_offset length in
  let s := string_of_bytes data in
  if utf8_valid s then Ok (Some s) else Err Utf8Error.

Fixpoint search (fuel : nat) (left right : Z) : option (result (option string) GeoError) :=
  match fuel with
  | O => None
  | S fuel =>
      if left <=? right then
        let mid := (left + right) / 2 in
        match record_at mid with
        | Err e => Some (Err e)
        | Ok record =>
            if bytes_ltb octets (start_ip record) then
              if mid <? 1 then Some (Ok None) else search fuel left (mid - 1)
            else if bytes_ltb (end_ip record) octets then search fuel (mid + 1) right
            else Some (record_data record)
        end
      else Some (Ok None)
  end.
End Search.

(** A search halves its interval: 64 rounds are enough for every file. *)
Definition SEARCH_FUEL : nat := 64.

Definition xdb_lookup (self : XdbReader) (ip : IpAddr) : option (result (option string) GeoError) :=
  match (match ip, ip_version self with
         | V4 _, XV4 | V6 _, XV6 => Some (Net.octets ip)
         | _, _ => None
         end) with
  | None => Some (Err (Message "IP version does not match XDB database"))
  | Some octets =>
      let point := HEADER_LENGTH + (byte_at octets 0 * 256 + byte_at octets 1) * 8 in
      match read_u32 (bytes self) point with
      | Err e => Some (Err e)
      | Ok start =>
          match read_u32 (bytes self) (point + 4) with
          | Err e => Some (Err e)
          | Ok stop =>
              if (start =? 0) || (stop =? 0) || (stop <? start) then Some (Ok None)
              else
                let ip_len := blen octets in
                let record_len := ip_len * 2 + 6 in
                search (bytes self) (ip_version self) octets start ip_len record_len SEARCH_FUEL
                  0 ((stop - start) / record_len)
          end
      end
  end.

(** ** The service *)

Record Readers : Type := {
  r_ipv4 : option XdbReader;
  r_ipv6 : option XdbReader;
  ipv4_error : option GeoError;
  ipv6_error : option GeoError;
}.

(** [GeoIpService]: the reader lock's content is a field of the state. *)
Record GeoIpService : Type := {
  enabled : bool;
  ipv4_path : string;
  ipv6_path : string;
  readers : Readers;
}.

Definition geo_lookup (to_uppercase : string -> string) (self : GeoIpService) (ip : IpAddr) : GeoLocation :=
  if negb (enabled self) || negb (is_public_ip ip) then GeoLocation_unknown
  else
    let reader := match ip with V4 _ => r_ipv4 (readers self) | V6 _ => r_ipv6 (readers self) end in
    match reader with
    | Some reader =>
        match xdb_lookup reader ip with
        | Some (Ok (Some value)) => from_xdb to_uppercase value
        | _ => GeoLocation_unknown
        end
    | None => GeoLocation_unknown
    end.

Definition database_path (self : GeoIpService) (version : Z) : result string GeoError :=
  if version =? 4 then Ok (ipv4_path self)
  else if version =? 6 then Ok (ipv6_path self)
  else Err (Message "ip_version must be 4 or 6").

Definition open_reader (digest : list Z -> string) (path : string) (s : fs) : result XdbReader GeoError * fs :=
  match fs_read path s with
  | (Ok data, s) => (from_bytes digest (bytes_of_string data), s)
  | (Err e, s) => (Err (Io e), s)
  end.

Definition load_reader (digest : list Z -> string) (path : string) (expected : XdbIpVersion) (s : fs) :
    option XdbReader * option GeoError * fs :=
  match open_reader digest path s with
  | (Ok reader, s) =>
      if decide (ip_version reader = expected) then (Some reader, None, s)
      else (None, Some (Message "XDB IP version mismatch"), s)
  | (Err e, s) => (None, Some e, s)
  end.

Definition reload (digest : list Z -> string) (self : GeoIpService) (s : fs) : GeoIpService * fs :=
  let '(ipv4, e4, s) := load_reader digest (ipv4_path self) XV4 s in
  let '(ipv6, e6, s) := load_reader digest (ipv6_path self) XV6 s in
  ({| enabled := enabled self; ipv4_path := ipv4_path self; ipv6_path := ipv6_path self;
      readers := {| r_ipv4 := ipv4; r_ipv6 := ipv6; ipv4_error := e4; ipv6_error := e6 |} |}, s).

(** The probes 1.1.1.1 and 2606:4700:4700::1111. *)
Definition probe (version : Z) : IpAddr :=
  if version =? 4 then V4 16843009 else V6 50543257694033307102031451402929180945.

(** Everything [install_database] does before it touches the disk. *)
Definition check_database (digest : list Z -> string) (version : Z) (data : string) : result unit GeoError :=
  if MAX_XDB_BYTES <? Z.of_nat (String.length data)
  then Err (Message "XDB database exceeds the 80 MiB safety limit")
  else
  let? expected_version :=
    (if version =? 4 then Ok XV4 else if version =? 6 then Ok XV6
     else Err (Message "ip_version must be 4 or 6")) in
  let? reader := from_bytes digest (bytes_of_string data) in
  if negb (bool_decide (ip_version reader = expected_version))
  then Err (Message "XDB IP version does not match the requested database")
  else match xdb_lookup reader (probe version) with
       | Some (Ok _) => Ok tt
       | Some (Err e) => Err e
       | None => Err (Message "out of fuel")
       end.

Definition install_database (digest : list Z -> string) (self : GeoIpService) (version : Z) (data : string)
    (s : fs) : result unit GeoError * GeoIpService * fs :=
  match check_database digest version data with
  | Err e => (Err e, self, s)
  | Ok _ =>
  match database_path self version with
  | Err e => (Err e, self, s)
  | Ok path =>
  let '(r, s) := fs_create_dir_all path s in
  match r with
  | Err e => (Err (Io e), self, s)
  | Ok _ =>
  let temporary := with_extension path "xdb.tmp" in
  let backup := with_extension path "xdb.bak" in
  let '(r, s) := fs_write temporary data s in
  match r with
  | Err e => (Err (Io e), self, s)
  | Ok _ =>
  let s := if fs_exists path s then (fs_copy path backup s).2 else s in
  let '(r, s) := fs_rename temporary path s in
  match r with
  | Err e => (Err (Io e), self, s)
  | Ok _ => let '(self, s) := reload digest self s in (Ok tt, self, s)
  end end end end end.

(** ** The IP access policy *)

Module IpNetwork.

Record t : Type := { network : IpAddr; prefix : Z }.

End IpNetwork.

Definition mask_ip (ip : IpAddr) (prefix : Z) : IpAddr :=
  match ip with
  | V4 ip => V4 (Z.land ip (prefix_mask 32 prefix))
  | V6 ip => V6 (Z.land ip (prefix_mask 128 prefix))
  end.

Definition ip_max (ip : IpAddr) : Z := if is_ipv4 ip then 32 else 128.

Definition network_parse (value : string) : result (IpNetwork.t * bool) GeoError :=
  let value := str_trim value in
  let? parsed :=
    match split_once "/" value with
    | Some (ip, prefix) =>
        let? ip := result_of_option (parse_ip ip) AddrParseError in
        let? prefix := result_of_option (parse_uint U8_MAX prefix) ParseIntError in
        Ok (ip, prefix, false)
    | None =>
        let? ip := result_of_option (parse_ip value) AddrParseError in
        Ok (ip, ip_max ip, true)
    end in
  let '(ip, prefix, exact) := parsed in
  if ip_max ip <? prefix then Err (Message "CIDR prefix exceeds the width")
  else Ok ({| IpNetwork.network := mask_ip ip prefix; IpNetwork.prefix := prefix |}, exact).

Definition network_contains (self : IpNetwork.t) (ip : IpAddr) : bool :=
  if negb (Bool.eqb (is_ipv4 (IpNetwork.network self)) (is_ipv4 ip)) then false
  else bool_decide (mask_ip ip (IpNetwork.prefix self) = IpNetwork.network self).

Definition canonical (self : IpNetwork.t) : string :=
  show_ip (IpNetwork.network self) +:+ "/" +:+ show_uint (IpNetwork.prefix self).

Inductive AccessDecision : Type := Allow | DenyRule | AllowlistRequired.

Record IpAccessPolicy : Type := { allow : list IpNetwork.t; deny : list IpNetwork.t }.

(** The loop of [compile] over [(action, network, enabled)]. *)
Fixpoint compile_rules (policy : IpAccessPolicy) (rules : list (string * string * bool)) :
    result IpAccessPolicy GeoError :=
  match rules with
  | [] => Ok policy
  | (action, network, enabled) :: rest =>
      if negb enabled then compile_rules policy rest
      else
        let? parsed := network_parse network in
        let network := parsed.1 in
        if (action =? "allow")%string
        then compile_rules {| allow := allow policy ++ [network]; deny := deny policy |} rest
        else if (action =? "deny")%string
        then compile_rules {| allow := allow policy; deny := deny policy ++ [network] |} rest
        else Err (Message "unsupported IP access action")
  end.

Definition compile (rules : list (string * string * bool)) : result IpAccessPolicy GeoError :=
  compile_rules {| allow := []; deny := [] |} rules.

Definition decide_access (self : IpAccessPolicy) (ip : IpAddr) : AccessDecision :=
  if existsb (fun network => network_contains network ip) (deny self) then DenyRule
  else if negb (match allow self with [] => true | _ => false end)
          && negb (existsb (fun network => network_contains network ip) (allow self))
  then AllowlistRequired
  else Allow.

(** ** [normalize_ip_access_rule] of [main.rs] *)

Record IpAccessRuleRequest : Type := {
  rule_action : string;
  rule_value : string;
  rule_note : string;
  rule_enabled : bool;
}.

Definition normalize_ip_access_rule (request : IpAccessRuleRequest) :
    result (string * string * string * string * bool) string :=
  let action := to_ascii_lowercase (str_trim (rule_action request)) in
  if negb (action =? "allow")%string && negb (action =? "deny")%string
  then Err "action must be allow or deny"
  else if 200 <? char_count (rule_note request) then Err "note must not exceed 200 characters"
  else match network_parse (rule_value request) with
       | Err _ => Err "invalid IP or CIDR"
       | Ok (network, exact) =>
           Ok (action, if exact then "ip" else "cidr", canonical network,
               str_trim (rule_note request), rule_enabled request)
       end.

(** ** Lemmas: the access policy *)

(** The networks the enabled rules of one action contribute. *)
Definition rule_networks (action : string) (rules : list (string * string * bool)) : list IpNetwork.t :=
  omap (fun '(a, network, enabled) =>
    if enabled && (a =? action)%string
    then match network_parse network with Ok (n, _) => Some n | Err _ => None end
    else None) rules.

Lemma compile_rules_spec (rules : list (string * string * bool)) (p q : IpAccessPolicy) :
  compile_rules p rules = Ok q ->
  allow q = allow p ++ rule_networks "allow" rules /\ deny q = deny p ++ rule_networks "deny" rules.
Proof.
  revert p. induction rules as [|[[action network] enabled] rules IH]; intros p; simpl.
  { intros [= <-]. unfold rule_networks. simpl. by rewrite !app_nil_r. }
  destruct enabled; simpl; [|apply IH].
  unfold rule_networks. simpl. destruct (network_parse network) as [[n ?]|]; [|done]. simpl.
  destruct (String.eqb_spec action "allow") as [->|_]; simpl.
  { intros [Ha Hd]%IH. simpl in *. by rewrite Ha, Hd, <- app_assoc. }
  destruct (String.eqb_spec action "deny") as [->|_]; simpl; [|done].
  intros [Ha Hd]%IH. simpl in *. by rewrite Ha, Hd, <- app_assoc.
Qed.

Lemma decide_access_deny (p : IpAccessPolicy) (ip : IpAddr) :
  decide_access p ip = DenyRule <-> Exists (fun n => network_contains n ip = true) (deny p).
Proof.
  unfold decide_access. rewrite <- existsb_true_Exists.
  destruct (existsb _ (deny p)); [done|]. split; [|done]. by case_bool.
Qed.

Lemma decide_access_allow (p : IpAccessPolicy) (ip : IpAddr) :
  decide_access p ip = Allow <->
  Forall (fun n => network_contains n ip = false) (deny p) /\
  (allow p = [] \/ Exists (fun n => network_contains n ip = true) (allow p)).
Proof.
  unfold decide_access. rewrite <- existsb_true_Exists, <- existsb_false_Forall.
  destruct (existsb _ (deny p)); [split; [done|by intros [? _]]|].
  destruct (allow p) as [|n l]; simpl; [by split; auto|].
  destruct (network_contains n ip || _); simpl; [by split; auto|].
  split; [done|]. by intros [_ [?|?]].
Qed.

(** ** Lemmas: networks *)

Lemma network_parse_trusted (v : string) (n : IpNetwork.t) (exact : bool) :
  network_parse v = Ok (n, exact) ->
  exists a p, wf_ip a /\ 0 <= p <= ip_max a /\
    n = {| IpNetwork.network := mask_ip a p; IpNetwork.prefix := p |} /\
    parse_trusted_proxy v = Ok (match a with V4 a => TrustedProxy.V4 a p | V6 a => TrustedProxy.V6 a p end).
Proof.
  unfold network_parse, parse_trusted_proxy. destruct (split_once "/" (str_trim v)) as [[addr pre]|].
  - destruct (parse_ip addr) as [a|] eqn:Ha; simpl; [|done]. apply parse_ip_wf in Ha.
    destruct (parse_uint U8_MAX pre) as [p|] eqn:Hp; simpl; [|by destruct a].
    apply parse_uint_bound in Hp; [|done]. unfold ip_max.
    destruct a as [a|a]; simpl; (case_bool; [done|]); intros [= <- <-]; bool_to_prop;
      eexists _, p; (split; [exact Ha|]); simpl; split_and!; (lia || done).
  - destruct (parse_ip (str_trim v)) as [a|] eqn:Ha; simpl; [|done]. apply parse_ip_wf in Ha.
    rewrite Z.ltb_irrefl. intros [= <- <-]. exists a, (ip_max a). unfold ip_max.
    destruct a; (split; [exact Ha|]); simpl; split_and!; (lia || done).
Qed.

Lemma mask_ip_wf (ip : IpAddr) (p : Z) : wf_ip ip -> wf_ip (mask_ip ip p).
Proof.
  destruct ip as [a|a]; simpl; intros Ha;
    [pose proof (land_prefix_mask_bound 32 p a)|pose proof (land_prefix_mask_bound 128 p a)];
    unfold U32_MAX, U128_MAX in *; lia.
Qed.

Lemma mask_ip_idem (ip : IpAddr) (p : Z) : mask_ip (mask_ip ip p) p = mask_ip ip p.
Proof. destruct ip; simpl; by rewrite prefix_mask_idem. Qed.

Lemma mask_ip_is_ipv4 (ip : IpAddr) (p : Z) : is_ipv4 (mask_ip ip p) = is_ipv4 ip.
Proof. by destruct ip. Qed.

#[export] Hint Resolve mask_ip_wf : mirror.
#[export] Hint Rewrite mask_ip_idem mask_ip_is_ipv4 : mirror.

Lemma network_contains_trusted (a ip : IpAddr) (p : Z) :
  network_contains {| IpNetwork.network := mask_ip a p; IpNetwork.prefix := p |} ip =
  TrustedProxy.contains (match a with V4 a => TrustedProxy.V4 a p | V6 a => TrustedProxy.V6 a p end) ip.
Proof.
  unfold network_contains. destruct a as [a|a], ip as [b|b]; simpl; try done;
    case_bool_decide as H; symmetry; first [apply Z.eqb_eq | apply Z.eqb_neq]; congruence.
Qed.

Lemma v4_text_trim (t : string) :
  all_bytes (fun c => is_v4_char c || Ascii.eqb c "/") t = true -> str_trim t = t.
Proof.
  intros H. apply str_trim_graphic. eapply all_bytes_impl; [|exact H]. intros c.
  unfold is_v4_char, is_digit, is_graphic. intros Hc.
  destruct (Ascii.eqb_spec c "/") as [Hs|_]; [by subst|].
  destruct (Ascii.eqb_spec c ".") as [Hs|_]; [by subst|].
  rewrite !orb_false_r in Hc. bool_to_prop. apply andb_true_iff. lia.
Qed.

Lemma canonical_v4_chars (a p : Z) :
  0 <= p < 256 ->
  all_bytes (fun c => is_v4_char c || Ascii.eqb c "/") (show_v4 a +:+ "/" +:+ show_uint p) = true.
Proof.
  intros Hp. rewrite !all_bytes_app. apply andb_true_iff. split; [|apply andb_true_iff; split; [done|]].
  - eapply all_bytes_impl; [|apply show_v4_chars]. by intros c ->.
  - eapply all_bytes_impl; [|by apply (byte_text p)]. unfold is_v4_char. by intros c ->.
Qed.

(** ** Properties: the access policy *)

(** An address passes the compiled policy exactly when no enabled deny
    rule covers it and, if there are enabled allow rules, one of them does:
    deny rules win over allow rules, whatever their order. *)
Theorem access_policy_spec (rules : list (string * string * bool)) (policy : IpAccessPolicy) (ip : IpAddr) :
  compile rules = Ok policy ->
  (decide_access policy ip = Allow <->
   Forall (fun n => network_contains n ip = false) (rule_networks "deny" rules) /\
   (rule_networks "allow" rules = [] \/
    Exists (fun n => network_contains n ip = true) (rule_networks "allow" rules))) /\
  (decide_access policy ip = DenyRule <->
   Exists (fun n => network_contains n ip = true) (rule_networks "deny" rules)).
Proof.
  intros [Ha Hd]%compile_rules_spec. simpl in *.
  rewrite decide_access_allow, decide_access_deny. by rewrite Ha, Hd.
Qed.

Lemma access_policy_spec_witness :
  exists policy, compile [("allow", "10.0.0.0/8", true); ("deny", "10.1.0.0/16", true)] = Ok policy /\
    decide_access policy (V4 167837954) = DenyRule.
Proof.
  eexists. split; [vm_compute; reflexivity|].
  apply (access_policy_spec [("allow", "10.0.0.0/8", true); ("deny", "10.1.0.0/16", true)]);
    [vm_compute; reflexivity|]. apply existsb_true_Exists. vm_compute. reflexivity.
Defined.

(** The access policy and the trusted-proxy list read the same text the
    same way: a network the policy accepts is accepted by
    [parse_trusted_proxy], and both contain the same addresses. *)
Theorem network_readers_agree (v : string) (n : IpNetwork.t) (exact : bool) :
  network_parse v = Ok (n, exact) ->
  exists t, parse_trusted_proxy v = Ok t /\ forall ip, network_contains n ip = TrustedProxy.contains t ip.
Proof.
  intros (a & p & _ & _ & -> & Ht)%network_parse_trusted. eexists. split; [exact Ht|].
  intros ip. apply network_contains_trusted.
Qed.

Lemma network_readers_agree_witness :
  exists t, parse_trusted_proxy " 192.168.4.9/22" = Ok t /\
    forall ip, network_contains {| IpNetwork.network := V4 3232236544; IpNetwork.prefix := 22 |} ip
               = TrustedProxy.contains t ip.
Proof.
  apply (network_readers_agree " 192.168.4.9/22" _ false). vm_compute. reflexivity.
Defined.

(** The canonical text an IPv4 rule is stored as reads back as the same
    network, whatever host bits the original text had set. *)
Theorem canonical_roundtrip (v : string) (n : IpNetwork.t) (exact : bool) :
  network_parse v = Ok (n, exact) -> is_ipv4 (IpNetwork.network n) = true ->
  network_parse (canonical n) = Ok (n, false).
Proof.
  intros (a & p & Hwf & Hp & -> & _)%network_parse_trusted H4. simpl in H4. rewrite mask_ip_is_ipv4 in H4.
  destruct a as [a|]; [|done]. unfold ip_max in Hp. simpl in Hp.
  unfold canonical, network_parse. simpl. set (m := Z.land a (prefix_mask 32 p)).
  assert (Hm : 0 <= m <= U32_MAX) by (apply (mask_ip_wf (V4 a) p Hwf)).
  rewrite v4_text_trim by (apply canonical_v4_chars; lia).
  rewrite (proj2 (split_once_Some "/" _ (show_v4 m) (show_uint p))).
  2:{ split; [done|]. eapply all_bytes_no_char; [|apply show_v4_chars]. done. }
  rewrite parse_show_v4 by done. simpl. rewrite (proj2 (byte_text p ltac:(lia))). simpl.
  unfold ip_max. simpl. replace (32 <? p) with false by lia.
  unfold m. by rewrite prefix_mask_idem.
Qed.

Lemma canonical_roundtrip_witness :
  network_parse (canonical {| IpNetwork.network := V4 3232236544; IpNetwork.prefix := 22 |}) =
  Ok ({| IpNetwork.network := V4 3232236544; IpNetwork.prefix := 22 |}, false).
Proof.
  apply (canonical_roundtrip "192.168.4.9/22" _ false); vm_compute; reflexivity.
Defined.

(** ** Lemmas: the order of address bytes *)

Lemma bytes_ltb_irrefl (a : list Z) : bytes_ltb a a = false.
Proof. induction a as [|x a IH]; simpl; [done|]. by rewrite Z.ltb_irrefl, Z.eqb_refl. Qed.

(** [a < b <= c]. *)
Lemma bytes_lt_le_trans (a b c : list Z) :
  bytes_ltb a b = true -> bytes_ltb c b = false -> bytes_ltb a c = true.
Proof.
  revert b c. induction a as [|x a IH]; intros [|y b] [|z c]; simpl; try done.
  intros Hab Hcb. apply orb_false_iff in Hcb as [Hzy Hcb]. bool_to_prop.
  apply orb_true_iff in Hab as [Hxy|[Hxy Hab]%andb_true_iff]; bool_to_prop; apply orb_true_iff.
  - left. lia.
  - subst y. destruct (Z.eqb_spec z x) as [->|]; [|left; lia].
    right. rewrite Z.eqb_refl. simpl in *. by apply (IH b).
Qed.

(** [a <= b < c]. *)
Lemma bytes_le_lt_trans (a b c : list Z) :
  bytes_ltb b a = false -> bytes_ltb b c = true -> bytes_ltb a c = true.
Proof.
  revert b c. induction a as [|x a IH]; intros [|y b] [|z c]; simpl; try done.
  intros Hba Hbc. apply orb_false_iff in Hba as [Hyx Hba]. bool_to_prop.
  apply orb_true_iff in Hbc as [Hyz|[Hyz Hbc]%andb_true_iff]; bool_to_prop; apply orb_true_iff.
  - left. lia.
  - subst y. destruct (Z.eqb_spec z x) as [->|]; [|left; lia].
    right. rewrite Z.eqb_refl. simpl in *. by apply (IH b).
Qed.

Lemma bytes_ltb_asym (a b : list Z) : bytes_ltb a b = true -> bytes_ltb b a = false.
Proof.
  revert b. induction a as [|x a IH]; intros [|y b]; simpl; try done.
  intros [Hxy|[Hxy Hab]%andb_true_iff]%orb_true_iff; bool_to_prop; apply orb_false_iff.
  - rewrite andb_false_iff. lia.
  - rewrite (IH b Hab), andb_false_r. lia.
Qed.

(** ** Lemmas: the binary search *)

Section SearchLemmas.
Variables (data : list Z) (version : XdbIpVersion) (octets : list Z) (start ip_len record_len : Z).

Notation search' := (search data version octets start ip_len record_len).
Notation record_at' := (record_at data start record_len).
Notation start_ip' := (start_ip version ip_len).
Notation end_ip' := (end_ip version ip_len).

Lemma search_total (n : nat) (left right : Z) :
  right - left + 1 < 2 ^ Z.of_nat n -> search' (S n) left right <> None.
Proof.
  revert left right. induction n as [|n IH]; intros left right Hn.
  { simpl in *. destruct (Z.leb_spec left right); [lia|done]. }
  rewrite Nat2Z.inj_succ, Z.pow_succ_r in Hn by lia.
  change (search' (S (S n)) left right) with
    (let go := search' (S n) in
     if left <=? right then
        let mid := (left + right) / 2 in
        match record_at' mid with
        | Err e => Some (Err e)
        | Ok record =>
            if bytes_ltb octets (start_ip' record) then
              if mid <? 1 then Some (Ok None) else go left (mid - 1)
            else if bytes_ltb (end_ip' record) octets then go (mid + 1) right
            else Some (record_data data ip_len record)
        end
      else Some (Ok None)).
  cbv zeta. destruct (Z.leb_spec left right); [|done].
  pose proof (Z.div_mod (left + right) 2 ltac:(lia)). pose proof (Z.mod_pos_bound (left + right) 2 ltac:(lia)).
  destruct (record_at' _); [|done].
  case_bool; [case_bool; [done|apply IH; lia]|]. case_bool; [apply IH; lia|done].
Qed.

(** A sorted index: every record up to [last] is readable, its range is not
    empty and ends before the next ranges start. *)
Variables (last : Z) (records : Z -> list Z).

Definition index_sorted : Prop :=
  (forall i, 0 <= i <= last -> record_at' i = Ok (records i)) /\
  (forall i, 0 <= i <= last -> bytes_ltb (end_ip' (records i)) (start_ip' (records i)) = false) /\
  (forall i j, 0 <= i -> i < j <= last -> bytes_ltb (end_ip' (records i)) (start_ip' (records j)) = true).

Definition covers (i : Z) : Prop :=
  bytes_ltb octets (start_ip' (records i)) = false /\ bytes_ltb (end_ip' (records i)) octets = false.

Lemma covers_before (i k : Z) :
  index_sorted -> covers k -> 0 <= i <= last -> 0 <= k <= last ->
  bytes_ltb octets (start_ip' (records i)) = true -> k < i.
Proof.
  intros (_ & Hne & Hs) [Hk1 Hk2] Hi Hk Hlt. destruct (Z.lt_trichotomy k i) as [|[->|Hik]]; [done|congruence|].
  specialize (Hs i k ltac:(lia) ltac:(lia)).
  pose proof (bytes_lt_le_trans _ _ _ Hlt (Hne i Hi)) as H1.
  pose proof (bytes_lt_le_trans _ _ _ H1 (bytes_ltb_asym _ _ Hs)) as H2. congruence.
Qed.

Lemma covers_after (i k : Z) :
  index_sorted -> covers k -> 0 <= i <= last -> 0 <= k <= last ->
  bytes_ltb (end_ip' (records i)) octets = true -> i < k.
Proof.
  intros (_ & Hne & Hs) [Hk1 Hk2] Hi Hk Hlt. destruct (Z.lt_trichotomy i k) as [|[->|Hik]]; [done|congruence|].
  specialize (Hs k i ltac:(lia) ltac:(lia)).
  pose proof (bytes_lt_le_trans _ _ _ Hs (Hne i Hi)) as H1.
  pose proof (bytes_lt_le_trans _ _ _ H1 (bytes_ltb_asym _ _ Hlt)) as H2. congruence.
Qed.

(** The search returns the record that covers the address, and nothing when
    no record does. *)
Lemma search_spec (fuel : nat) : forall left right r,
  index_sorted -> 0 <= left -> right <= last -> search' fuel left right = Some r ->
  (forall k, left <= k <= right -> covers k -> r = record_data data ip_len (records k)) /\
  ((forall k, left <= k <= right -> ~ covers k) -> r = Ok None).
Proof.
  induction fuel as [|fuel IH]; intros left right r Hs Hl Hr; simpl; [done|].
  destruct (Z.leb_spec left right) as [Hle|Hgt]; [|intros [= <-]; split; [lia|done]].
  pose proof (Z.div_mod (left + right) 2 ltac:(lia)). pose proof (Z.mod_pos_bound (left + right) 2 ltac:(lia)).
  set (mid := (left + right) / 2) in *.
  rewrite (proj1 Hs mid) by lia.
  destruct (bytes_ltb octets (start_ip' (records mid))) eqn:Hlt.
  - destruct (Z.ltb_spec mid 1).
    + intros [= <-]. split; [|done]. intros k Hk Hc. pose proof (covers_before mid k Hs Hc ltac:(lia) ltac:(lia) Hlt). lia.
    + intros [Hf Hnf]%IH; [|done|lia|lia]. split.
      * intros k Hk Hc. apply Hf; [|done]. pose proof (covers_before mid k Hs Hc ltac:(lia) ltac:(lia) Hlt). lia.
      * intros Hn. apply Hnf. intros k Hk. apply Hn. lia.
  - destruct (bytes_ltb (end_ip' (records mid)) octets) eqn:Hgt.
    + intros [Hf Hnf]%IH; [|done|lia|lia]. split.
      * intros k Hk Hc. apply Hf; [|done]. pose proof (covers_after mid k Hs Hc ltac:(lia) ltac:(lia) Hgt). lia.
      * intros Hn. apply Hnf. intros k Hk. apply Hn. lia.
    + intros [= <-]. split.
      * intros k Hk Hc. f_equal. destruct (Z.lt_trichotomy k mid) as [Hkm|[->|Hkm]]; [|done|]; exfalso.
        -- destruct Hs as (_ & Hne & Hs), Hc as [Hc1 Hc2]. specialize (Hs k mid ltac:(lia) ltac:(lia)).
           pose proof (bytes_lt_le_trans _ _ _ Hs Hlt). congruence.
        -- destruct Hs as (_ & Hne & Hs), Hc as [Hc1 Hc2]. specialize (Hs mid k ltac:(lia) ltac:(lia)).
           pose proof (bytes_le_lt_trans _ _ _ Hgt Hs). congruence.
      * intros Hn. destruct (Hn mid); [lia|done].
Qed.
End SearchLemmas.

Definition is_bytes (l : list Z) : Prop := Forall (fun b => 0 <= b < 2 ^ 8) l.

Lemma from_le_bytes_bound (l : list Z) :
  is_bytes l -> 0 <= from_le_bytes l < 2 ^ (8 * Z.of_nat (length l)).
Proof.
  intros H. unfold from_le_bytes. rewrite <- length_rev. apply from_be_bound; [lia|].
  apply Forall_rev. exact H.
Qed.

Lemma slice_bytes (data s : list Z) (o n : Z) :
  is_bytes data -> slice data o n = Ok s -> is_bytes s /\ Z.of_nat (length s) <= Z.max 0 n.
Proof.
  unfold slice, sat_add_u64. intros Hd. case_bool; [|done]. intros [= <-]. bool_to_prop. split.
  - by apply Forall_take, Forall_drop.
  - rewrite length_take. unfold U64_MAX in *. lia.
Qed.

Lemma read_u32_bound (data : list Z) (o v : Z) :
  is_bytes data -> read_u32 data o = Ok v -> 0 <= v < 2 ^ 32.
Proof.
  intros Hd. unfold read_u32. destruct (slice data o 4) as [s|] eqn:Hs; simpl; [|done].
  intros [= <-]. apply slice_bytes in Hs as [Hb Hl]; [|done]. apply from_le_bytes_bound in Hb.
  split; [lia|]. eapply Z.lt_le_trans; [apply Hb|]. apply Z.pow_le_mono_r; lia.
Qed.

(** Where the vector index keeps the two pointers of an address. *)
Definition vector_point (octets : list Z) : Z :=
  HEADER_LENGTH + (byte_at octets 0 * 256 + byte_at octets 1) * 8.

Definition version_of (ip : IpAddr) : XdbIpVersion := match ip with V4 _ => XV4 | V6 _ => XV6 end.

Lemma xdb_lookup_unfold (self : XdbReader) (ip : IpAddr) (start stop : Z) :
  ip_version self = version_of ip ->
  read_u32 (bytes self) (vector_point (octets ip)) = Ok start ->
  read_u32 (bytes self) (vector_point (octets ip) + 4) = Ok stop ->
  0 < start <= stop ->
  xdb_lookup self ip =
  search (bytes self) (ip_version self) (octets ip) start (blen (octets ip)) (blen (octets ip) * 2 + 6)
    SEARCH_FUEL 0 ((stop - start) / (blen (octets ip) * 2 + 6)).
Proof.
  intros Hv Hs He Hle. unfold xdb_lookup. rewrite Hv. unfold vector_point in *.
  destruct ip as [a|a]; cbn [version_of]; rewrite Hs, He;
    (replace (start =? 0) with false by lia); (replace (stop =? 0) with false by lia);
    (replace (stop <? start) with false by lia); reflexivity.
Qed.

Lemma load_reader_files (digest : list Z -> string) (path : string) (v : XdbIpVersion) (s : fs) :
  files (load_reader digest path v s).2 = files s.
Proof.
  unfold load_reader, open_reader. pose proof (fs_read_files path s) as H.
  destruct (fs_read path s) as [[d|e] s1]; simpl in H; [|done].
  destruct (from_bytes digest (bytes_of_string d)); simpl; [|done]. by case_decide.
Qed.

Lemma reload_files (digest : list Z -> string) (self : GeoIpService) (s : fs) :
  files (reload digest self s).2 = files s.
Proof.
  unfold reload. pose proof (load_reader_files digest (ipv4_path self) XV4 s) as H4.
  destruct (load_reader digest (ipv4_path self) XV4 s) as [[r4 e4] s4].
  pose proof (load_reader_files digest (ipv6_path self) XV6 s4) as H6.
  destruct (load_reader digest (ipv6_path self) XV6 s4) as [[r6 e6] s6].
  simpl in *. congruence.
Qed.

(** ** Properties: lookup and installation *)

(** A lookup always ends, on every file of bytes and every address: 64
    halvings are enough for the largest index a 32-bit pointer can span. *)
Lemma xdb_lookup_terminates (self : XdbReader) (ip : IpAddr) :
  is_bytes (bytes self) -> xdb_lookup self ip <> None.
Proof.
  intros Hb. unfold xdb_lookup.
  destruct (match ip with V4 _ => _ | V6 _ => _ end) as [o|] eqn:Ho; [|done].
  destruct (read_u32 (bytes self) (_ + _)) as [start|] eqn:Hs; [|done].
  destruct (read_u32 (bytes self) (_ + _ + 4)) as [stop|] eqn:He; [|done].
  apply read_u32_bound in Hs; [|done]. apply read_u32_bound in He; [|done].
  case_bool; [done|]. bool_to_prop. apply (search_total _ _ _ _ _ _ 63).
  assert (0 <= blen o) by (unfold blen; lia).
  assert ((stop - start) / (blen o * 2 + 6) <= stop - start) by (apply Z.div_le_upper_bound; nia).
  change (2 ^ Z.of_nat 63) with 9223372036854775808. lia.
Qed.

(** A database with two ranges below 0.0.0.0/16: 0.0.1.0-0.0.1.255 and 0.0.2.0-0.0.2.255. *)
Definition sample_record (i : Z) : list Z :=
  if i =? 0 then [0; 1; 0; 0; 255; 1; 0; 0; 1; 0; 36; 1; 0; 0]
  else [0; 2; 0; 0; 255; 2; 0; 0; 2; 0; 37; 1; 0; 0].

Definition sample_reader : XdbReader :=
  {| bytes := repeat 0 256 ++ [8; 1; 0; 0; 22; 1; 0; 0] ++ sample_record 0 ++ sample_record 1 ++ [65; 66; 67];
     ip_version := XV4; created_at := 0; sha256 := "" |}.

Lemma sample_reader_bytes : is_bytes (bytes sample_reader).
Proof.
  apply (Forall_impl (fun b => (0 <=? b) && (b <? 256) = true)); [|intros b Hb; bool_to_prop; simpl; lia].
  apply forallb_true_Forall. vm_compute. reflexivity.
Qed.

(** C39: the binary search ends and finds what is there: on a file of bytes
    with a sorted index, a lookup returns the text of the record whose range
    covers the address, and no text when no record covers it.  That the rounds
    allowed are enough is part of the statement. *)
Theorem xdb_lookup_correct (self : XdbReader) (ip : IpAddr) (start stop : Z) (records : Z -> list Z) :
  let len := blen (octets ip) in
  let last := (stop - start) / (len * 2 + 6) in
  is_bytes (bytes self) ->
  ip_version self = version_of ip ->
  read_u32 (bytes self) (vector_point (octets ip)) = Ok start ->
  read_u32 (bytes self) (vector_point (octets ip) + 4) = Ok stop ->
  0 < start <= stop ->
  index_sorted (bytes self) (ip_version self) start len (len * 2 + 6) last records ->
  (forall k, 0 <= k <= last -> covers (ip_version self) (octets ip) len records k ->
     xdb_lookup self ip = Some (record_data (bytes self) len (records k))) /\
  ((forall k, 0 <= k <= last -> ~ covers (ip_version self) (octets ip) len records k) ->
     xdb_lookup self ip = Some (Ok None)).
Proof.
  intros len last Hb Hv Hs He Hle Hi.
  destruct (xdb_lookup self ip) as [r|] eqn:Hr; [|by apply xdb_lookup_terminates in Hr].
  rewrite (xdb_lookup_unfold _ _ _ _ Hv Hs He Hle) in Hr.
  apply (search_spec _ _ _ _ _ _ last records) in Hr as [Hf Hn]; [|done|lia|done].
  split; [intros k Hk Hc; by rewrite (Hf k Hk Hc)|intros Hk; by rewrite (Hn Hk)].
Qed.

(** The sample's index is sorted. *)
Lemma sample_index_sorted : index_sorted (bytes sample_reader) XV4 264 4 14 1 sample_record.
Proof.
  split_and!; intros i; intros;
    (assert (Hi : i = 0 \/ i = 1) by lia);
    destruct Hi as [-> | ->]; try (vm_compute; reflexivity);
    match goal with
    | H : _ < ?j <= _ |- _ => (assert (j = 1) as -> by lia); first [vm_compute; reflexivity | lia]
    end.
Qed.

(** 0.0.2.5 lies in the second range, 0.0.3.1 in none. *)
Lemma xdb_lookup_correct_witness :
  xdb_lookup sample_reader (V4 517) = Some (record_data (bytes sample_reader) 4 (sample_record 1)) /\
  record_data (bytes sample_reader) 4 (sample_record 1) = Ok (Some "BC") /\
  xdb_lookup sample_reader (V4 769) = Some (Ok None).
Proof.
  split_and!.
  - apply (proj1 (xdb_lookup_correct sample_reader (V4 517) 264 278 sample_record sample_reader_bytes
      eq_refl eq_refl eq_refl ltac:(lia) sample_index_sorted) 1);
      [vm_compute; split; discriminate|vm_compute; split; reflexivity].
  - vm_compute. reflexivity.
  - apply (proj2 (xdb_lookup_correct sample_reader (V4 769) 264 278 sample_record sample_reader_bytes
      eq_refl eq_refl eq_refl ltac:(lia) sample_index_sorted)).
    intros k Hk. change (0 <= k <= 1) in Hk. (assert (Hi : k = 0 \/ k = 1) by lia).
    destruct Hi as [-> | ->]; intros [_ H]; vm_compute in H; discriminate.
Defined.

(** Installing a database is all or nothing for readers: when any step
    fails, the database file and the running service are what they were;
    when it succeeds, the file holds the new data, and in every case only
    the database, its temporary and its backup can have changed. *)
Theorem install_database_atomic (digest : list Z -> string) (self self' : GeoIpService) (version : Z)
    (data path : string) (s s' : fs) (r : result unit GeoError) :
  install_database digest self version data s = (r, self', s') ->
  database_path self version = Ok path ->
  with_extension path "xdb.tmp" <> path -> with_extension path "xdb.bak" <> path ->
  with_extension path "xdb.tmp" <> with_extension path "xdb.bak" ->
  match r with
  | Ok _ => content s' path = Some data /\ check_database digest version data = Ok tt
  | Err _ => files s' !! path = files s !! path /\ self' = self
  end /\
  (forall q, q <> path -> q <> with_extension path "xdb.tmp" -> q <> with_extension path "xdb.bak" ->
     files s' !! q = files s !! q).
Proof.
  intros H Hp Ht Hb Htb. unfold install_database in H. rewrite Hp in H.
  destruct (check_database digest version data) as [[]|] eqn:Hc; [|by simplify_eq].
  destruct (fs_create_dir_all path s) as [r0 s0] eqn:E0.
  assert (F0 : files s0 = files s) by (by rewrite <- (fs_create_dir_all_files path s), E0).
  destruct r0; [|simplify_eq; by rewrite F0].
  set (tmp := with_extension path "xdb.tmp") in *. set (bak := with_extension path "xdb.bak") in *.
  destruct (fs_write tmp data s0) as [r1 s1] eqn:E1.
  assert (F1 : forall q, q <> tmp -> files s1 !! q = files s !! q).
  { intros q Hq. by rewrite <- F0, <- (fs_write_frame tmp data q s0), E1. }
  destruct r1 as [[]|]; [|simplify_eq; split; [split; [by apply F1|done]|intros; by apply F1]].
  assert (D1 : content s1 tmp = Some data).
  { pose proof (fs_write_ok tmp data s0) as W. rewrite E1 in W. by apply W. }
  set (s2 := if fs_exists path s1 then _ else _) in H.
  assert (F2 : forall q, q <> bak -> files s2 !! q = files s1 !! q).
  { intros q Hq. unfold s2. case_bool; [by apply fs_copy_frame|done]. }
  destruct (fs_rename tmp path s2) as [r3 s3] eqn:E3.
  assert (F3 : forall q, q <> tmp -> q <> path -> files s3 !! q = files s2 !! q).
  { intros q Hq1 Hq2. pose proof (fs_rename_frame tmp path q s2 Hq1 Hq2) as W. by rewrite E3 in W. }
  destruct r3 as [[]|].
  - pose proof (fs_rename_ok tmp path data s2) as W. rewrite E3 in W. simpl in W.
    assert (D3 : content s3 path = Some data).
    { apply W; [done|]. unfold content. by rewrite F2. }
    pose proof (reload_files digest self s3) as Hr. destruct (reload digest self s3) as [self'' s4].
    simplify_eq. simpl in Hr. unfold content. rewrite Hr. split; [by split|].
    intros q Hq1 Hq2 Hq3. by rewrite F3, F2, F1.
  - pose proof (fs_rename_err tmp path s2 e) as W. rewrite E3 in W. specialize (W eq_refl). simpl in W.
    simplify_eq. rewrite W. split; [split; [by rewrite F2, F1|done]|].
    intros q Hq1 Hq2 Hq3. by rewrite F2, F1.
Qed.

Definition sample_service : GeoIpService :=
  {| enabled := true; ipv4_path := "data/v4.xdb"; ipv6_path := "data/v6.xdb";
     readers := {| r_ipv4 := Some sample_reader; r_ipv6 := None; ipv4_error := None; ipv6_error := None |} |}.

Lemma install_database_atomic_witness :
  let s := Fs (<["data/v4.xdb" := File "old" 0]> ∅) [] 0 in
  let '(r, self', s') := install_database (fun _ => "") sample_service 4 "new" s in
  is_ok r = false /\ content s' "data/v4.xdb" = Some "old" /\ self' = sample_service.
Proof.
  intros s. destruct (install_database (fun _ => "") sample_service 4 "new" s) as [[r self'] s'] eqn:E.
  pose proof (install_database_atomic (fun _ => "") sample_service self' 4 "new" "data/v4.xdb" s s' r E
    eq_refl ltac:(done) ltac:(done) ltac:(done)) as [H _].
  vm_compute in E. destruct r; [discriminate E|]. destruct H as [H1 H2].
  split; [reflexivity|]. split; [|exact H2]. unfold content. rewrite H1. vm_compute. reflexivity.
Defined.
