(* ===== verification/Routes.v ===== *)
(** * The paths of the server

    [crates/server/src/main.rs]: which paths belong to the management plane,
    which to a proxy adapter and which to the user pages, and the label a
    path is measured under; [proxy/github.rs]: the absolute-URL paths. *)
From S2P Require Import Prelude RustStr.
Open Scope string_scope.

(** [proxy/github.rs]. *)
Definition is_github_proxy_path (path : string) : bool :=
  starts_with "/https://github.com/" path
  || starts_with "/https://api.github.com/" path
  || starts_with "/https://raw.githubusercontent.com/" path
  || starts_with "/https://objects.githubusercontent.com/" path
  || starts_with "/https://codeload.github.com/" path.

Definition is_management_path (path : string) : bool :=
  (path =? "/admin") || starts_with "/admin/" path || starts_with "/api/admin/" path || (path =? "/metrics").

(** [management_plane_guard]: whether the request is passed on; otherwise it is 404. *)
Definition management_plane_guard (path : string) : bool :=
  negb (negb (is_management_path path)
        && negb (path =? "/healthz")
        && negb (path =? "/version")
        && negb (starts_with "/assets/" path)
        && negb (path =? "/favicon.svg")).

Definition proxy_target_for_path (path : string) : option string :=
  if (path =? "/composer") || starts_with "/composer/" path
  then Some "composer"
  else if (path =? "/npm") || starts_with "/npm/" path
  then Some "npm"
  else if (path =? "/nvm") || starts_with "/nvm/" path
  then Some "nvm"
  else if (path =? "/opam") || starts_with "/opam/" path
  then Some "opam"
  else if (path =? "/goproxy") || starts_with "/goproxy/" path
  then Some "go"
  else if (path =? "/maven") || starts_with "/maven/" path
  then Some "maven"
  else if (path =? "/rubygems") || starts_with "/rubygems/" path
  then Some "rubygems"
  else if (path =? "/rustup") || starts_with "/rustup/" path
  then Some "rustup"
  else if (path =? "/luarocks") || starts_with "/luarocks/" path
  then Some "luarocks"
  else if (path =? "/nuget") || starts_with "/nuget/" path
  then Some "nuget"
  else if (path =? "/cpan") || starts_with "/cpan/" path
  then Some "cpan"
  else if (path =? "/cran") || starts_with "/cran/" path
  then Some "cran"
  else if (path =? "/hackage") || starts_with "/hackage/" path
  then Some "hackage"
  else if (path =? "/julia") || starts_with "/julia/" path
  then Some "julia"
  else if (path =? "/clojars") || starts_with "/clojars/" path
  then Some "clojars"
  else if (path =? "/cocoapods") || starts_with "/cocoapods/" path
  then Some "cocoapods"
  else if (path =? "/pub") || starts_with "/pub/" path
  then Some "pub"
  else if (path =? "/anaconda") || starts_with "/anaconda/" path
  then Some "anaconda"
  else if (path =? "/texlive") || starts_with "/texlive/" path
  then Some "texlive"
  else if (path =? "/winget") || starts_with "/winget/" path
  then Some "winget"
  else if (path =? "/huggingface") || starts_with "/huggingface/" path
  then Some "huggingface"
  else if (path =? "/elpa") || starts_with "/elpa/" path
  then Some "elpa"
  else if (path =? "/nix") || starts_with "/nix/" path
  then Some "nix"
  else if (path =? "/guix") || starts_with "/guix/" path
  then Some "guix"
  else if (path =? "/flatpak") || starts_with "/flatpak/" path
  then Some "flatpak"
  else if (path =? "/homebrew") || starts_with "/homebrew/" path
  then Some "homebrew"
  else if (path =? "/os") || starts_with "/os/" path
  then Some "os"
  else if (path =? "/pypi/simple") || starts_with "/pypi/simple/" path || starts_with "/pypi/files/" path || starts_with "/pypi/packages/" path
  then Some "pypi"
  else if starts_with "/crates/api/" path || (path =? "/crates-index") || starts_with "/crates-index/" path
  then Some "crates"
  else if (path =? "/v2") || starts_with "/v2/" path
  then Some "oci"
  else if is_github_proxy_path path
  then Some "github"
  else None.

Definition is_proxy_path (path : string) : bool :=
  (path =? "/composer")
  || starts_with "/composer/" path
  || (path =? "/npm")
  || starts_with "/npm/" path
  || (path =? "/nvm")
  || starts_with "/nvm/" path
  || (path =? "/opam")
  || starts_with "/opam/" path
  || (path =? "/goproxy")
  || starts_with "/goproxy/" path
  || (path =? "/maven")
  || starts_with "/maven/" path
  || (path =? "/rubygems")
  || starts_with "/rubygems/" path
  || (path =? "/rustup")
  || starts_with "/rustup/" path
  || (path =? "/luarocks")
  || starts_with "/luarocks/" path
  || (path =? "/nuget")
  || starts_with "/nuget/" path
  || (path =? "/cpan")
  || starts_with "/cpan/" path
  || (path =? "/cran")
  || starts_with "/cran/" path
  || (path =? "/hackage")
  || starts_with "/hackage/" path
  || (path =? "/julia")
  || starts_with "/julia/" path
  || (path =? "/clojars")
  || starts_with "/clojars/" path
  || (path =? "/cocoapods")
  || starts_with "/cocoapods/" path
  || (path =? "/pub")
  || starts_with "/pub/" path
  || (path =? "/anaconda")
  || starts_with "/anaconda/" path
  || (path =? "/texlive")
  || starts_with "/texlive/" path
  || (path =? "/winget")
  || starts_with "/winget/" path
  || (path =? "/huggingface")
  || starts_with "/huggingface/" path
  || (path =? "/elpa")
  || starts_with "/elpa/" path
  || (path =? "/nix")
  || starts_with "/nix/" path
  || (path =? "/guix")
  || starts_with "/guix/" path
  || (path =? "/flatpak")
  || starts_with "/flatpak/" path
  || (path =? "/homebrew")
  || starts_with "/homebrew/" path
  || (path =? "/os")
  || starts_with "/os/" path
  || (path =? "/pypi/simple")
  || starts_with "/pypi/simple/" path
  || starts_with "/pypi/files/" path
  || starts_with "/pypi/packages/" path
  || starts_with "/crates/api/" path
  || (path =? "/crates-index")
  || starts_with "/crates-index/" path
  || (path =? "/v2")
  || starts_with "/v2/" path
  || is_github_proxy_path path.

Definition route_group_for_path (path : string) : string :=
  match proxy_target_for_path path with
  | Some target => "/proxy/" +:+ target
  | None =>
      if path =? "/healthz" then "/healthz"
      else if path =? "/metrics" then "/metrics"
      else if path =? "/version" then "/version"
      else if (path =? "/api/download") || (path =? "/api/download/check") then "/api/download"
      else if path =? "/api/sources" then "/api/sources"
      else if (path =? "/api/config") || (path =? "/api/public-config") then "/api/public-config"
      else if starts_with "/api/admin/" path then "/api/admin/:action"
      else if starts_with "/admin/api/" path then "/admin/api/:resource"
      else if (path =? "/admin") || starts_with "/admin/" path then "/admin"
      else "/static"
  end.

Definition is_reserved_user_subdomain (value : string) : bool :=
  existsb (String.eqb value) ["www"; "admin"; "api"; "login"; "account"; "mail"; "smtp"; "status"].

Definition is_user_control_path (path : string) : bool :=
  (path =? "/login")
  || starts_with "/login/" path
  || (path =? "/account")
  || starts_with "/account/" path
  || (path =? "/admin")
  || starts_with "/admin/" path
  || starts_with "/api/auth/" path
  || starts_with "/api/account/" path.

(** ** Lemmas *)

Ltac path_cases H :=
  repeat match type of H with
  | _ || _ = true => apply orb_true_iff in H as [H|H]
  end;
  first [apply String.eqb_eq in H; subst
        |apply starts_with_spec in H as [? ->]];
  reflexivity.

(** Replace the tests on a path by boolean variables. *)
Ltac abstract_tests path :=
  repeat match goal with
  | |- context [starts_with ?p path] => generalize (starts_with p path); intros ?
  | |- context [path =? ?p] => generalize (path =? p); intros ?
  | |- context [is_github_proxy_path path] => generalize (is_github_proxy_path path); intros ?
  end.

Lemma is_some_if {A} (b : bool) (x : A) (o : option A) :
  match (if b then Some x else o) with Some _ => true | None => false end =
  b || match o with Some _ => true | None => false end.
Proof. by destruct b. Qed.

(** ** Properties *)

(** The router's test for proxy requests and the adapter lookup agree on
    every path: a path is a proxy path exactly when it has a target. *)
Theorem is_proxy_path_iff_target (path : string) :
  is_proxy_path path = match proxy_target_for_path path with Some _ => true | None => false end.
Proof.
  unfold is_proxy_path, proxy_target_for_path. rewrite !is_some_if.
  abstract_tests path. rewrite orb_false_r. by rewrite <- !orb_assoc.
Qed.

(** The three groups of paths are disjoint: no management path and no
    user page is ever handled by a proxy adapter. *)
Theorem control_paths_not_proxied (path : string) :
  is_management_path path = true \/ is_user_control_path path = true -> is_proxy_path path = false.
Proof.
  intros [H|H]; unfold is_management_path, is_user_control_path in H; path_cases H.
Qed.

Lemma control_paths_not_proxied_witness : is_proxy_path "/api/account/profile" = false.
Proof. apply control_paths_not_proxied. right. reflexivity. Defined.

(** The metrics label of a path is the label of an adapter exactly for
    the proxy paths, so its values are a fixed finite set. *)
Theorem route_group_of_proxy (path target : string) :
  proxy_target_for_path path = Some target <-> route_group_for_path path = "/proxy/" +:+ target.
Proof.
  unfold route_group_for_path. destruct (proxy_target_for_path path) as [t|].
  - split; [by intros [= ->]|]. by intros [= ->].
  - split; [done|]. repeat case_match; done.
Qed.
