(* ===== verification/Url.v ===== *)
(** * The [url] crate

    [reqwest::Url] is third-party code: the class [UrlApi] is the interface
    the server uses and [UrlLaws] the documented behaviour its theorems rely
    on.  [SimpleUrl] is a concrete instance for the witnesses: it has the
    dot-segment and percent-encoding rules of the URL standard. *)
From S2P Require Import Prelude RustStr.
Open Scope string_scope.
Open Scope list_scope.

Class UrlApi : Type := {
  Url : Type;
  Origin : Type;
  url_eq_dec :: EqDecision Url;
  origin_eq_dec :: EqDecision Origin;
  url_parse : string -> option Url;
  url_as_str : Url -> string;
  url_scheme : Url -> string;
  url_username : Url -> string;
  url_password : Url -> option string;
  url_host_str : Url -> option string;
  url_port : Url -> option Z;
  url_port_or_known_default : Url -> option Z;
  url_path : Url -> string;
  url_query : Url -> option string;
  url_fragment : Url -> option string;
  url_origin : Url -> Origin;
  url_origin_serialization : Origin -> string;
  url_set_path : string -> Url -> Url;
  url_set_query : option string -> Url -> Url;
  url_join : Url -> string -> option Url;
  (** the bytes the parser leaves as they are in a path *)
  url_path_keeps : ascii -> bool;
}.

(** [Url::query_pairs]. *)
Class QueryApi `{UrlApi} : Type := {
  query_pairs : Url -> list (string * string);
}.

(** ** Normal paths

    Characters every version of the parser leaves alone in a path, and the
    segments it resolves. *)
Definition is_path_char (c : ascii) : bool :=
  is_ascii_alphanumeric c || contains_char c "-._~!$&'()*+,;=:@%/".

Definition is_dot (s : string) : bool := existsb (String.eqb s) ["."; "%2e"; "%2E"].

Definition is_dot_dot (s : string) : bool :=
  existsb (String.eqb s) [".."; "%2e%2e"; "%2e%2E"; "%2E%2e"; "%2E%2E"; "%2e."; "%2E."; ".%2e"; ".%2E"].

Definition no_dot_segment (p : string) : bool :=
  forallb (fun s => negb (is_dot s || is_dot_dot s)) (str_split "/" p).

Definition normal_path (keep : ascii -> bool) (p : string) : bool :=
  starts_with "/" p && all_bytes keep p && no_dot_segment p.

(** The URLs the crate calls special, without [ftp], [ws] and [wss]. *)
Definition web `{UrlApi} (u : Url) : Prop := url_scheme u = "http" \/ url_scheme u = "https".

Class UrlLaws `{UrlApi} : Prop := {
  url_scheme_set_path p u : url_scheme (url_set_path p u) = url_scheme u;
  url_host_set_path p u : url_host_str (url_set_path p u) = url_host_str u;
  url_port_set_path p u : url_port_or_known_default (url_set_path p u) = url_port_or_known_default u;
  url_origin_set_path p u : web u -> url_origin (url_set_path p u) = url_origin u;
  url_scheme_set_query q u : url_scheme (url_set_query q u) = url_scheme u;
  url_host_set_query q u : url_host_str (url_set_query q u) = url_host_str u;
  url_port_set_query q u : url_port_or_known_default (url_set_query q u) = url_port_or_known_default u;
  url_origin_set_query q u : web u -> url_origin (url_set_query q u) = url_origin u;
  url_path_set_query q u : url_path (url_set_query q u) = url_path u;
  url_path_keeps_plain c : is_path_char c = true -> url_path_keeps c = true;
  (** a web URL has a host *)
  url_web_host u : web u -> is_Some (url_host_str u);
  (** a path that is already normal is stored as it is *)
  url_path_set_path p u : is_Some (url_host_str u) -> normal_path url_path_keeps p = true ->
    url_path (url_set_path p u) = p;
  (** and every path of a web URL is normal *)
  url_path_normal u : web u -> normal_path url_path_keeps (url_path u) = true;
  (** the query of a web URL is stored as it is *)
  url_query_set_query u v : web v -> url_query (url_set_query (url_query v) u) = url_query v;
  (** the origin of a web URL is its scheme, host and port *)
  url_origin_tuple u v : web u -> web v ->
    (url_origin u = url_origin v <->
     url_scheme u = url_scheme v /\ url_host_str u = url_host_str v /\
     url_port_or_known_default u = url_port_or_known_default v);
}.

#[export] Hint Rewrite @url_scheme_set_path @url_host_set_path @url_port_set_path
  @url_scheme_set_query @url_host_set_query @url_port_set_query
  @url_path_set_query using (typeclasses eauto) : url.

(** Two URLs of one origin: the comparison the server writes out. *)
Definition same_origin `{UrlApi} (a b : Url) : bool :=
  (url_scheme a =? url_scheme b)
  && bool_decide (url_host_str a = url_host_str b)
  && bool_decide (url_port_or_known_default a = url_port_or_known_default b).

Section Origin.
Context `{UrlApi}.

Lemma same_origin_iff (a b : Url) :
  same_origin a b = true <->
  url_scheme a = url_scheme b /\ url_host_str a = url_host_str b /\
  url_port_or_known_default a = url_port_or_known_default b.
Proof. unfold same_origin. rewrite !andb_true_iff, String.eqb_eq, !bool_decide_eq_true. tauto. Qed.

Lemma same_origin_refl (a : Url) : same_origin a a = true.
Proof. by apply same_origin_iff. Qed.

Lemma same_origin_sym (a b : Url) : same_origin a b = same_origin b a.
Proof. apply eq_true_iff_eq. rewrite !same_origin_iff. intuition congruence. Qed.

Lemma same_origin_trans (a b c : Url) :
  same_origin a b = true -> same_origin b c = true -> same_origin a c = true.
Proof. rewrite !same_origin_iff. intuition congruence. Qed.
End Origin.

(** ** A concrete instance *)

Definition hex_digit (n : Z) : ascii := ascii_of_nat (Z.to_nat (if (n <? 10)%Z then 48 + n else 55 + n)).

Fixpoint percent_encode (keep : ascii -> bool) (s : string) : string :=
  match s with
  | EmptyString => ""
  | String c t =>
      if keep c then String c (percent_encode keep t)
      else String "%" (String (hex_digit (byte_val c / 16)) (String (hex_digit (byte_val c mod 16))
             (percent_encode keep t)))
  end.

(** Dot segments are resolved on a stack; a final one leaves a slash. *)
Fixpoint resolve_dots (stack segments : list string) : list string :=
  match segments with
  | [] => rev stack
  | s :: rest =>
      if is_dot_dot s then
        match rest with [] => rev ("" :: List.tl stack) | _ => resolve_dots (List.tl stack) rest end
      else if is_dot s then
        match rest with [] => rev ("" :: stack) | _ => resolve_dots stack rest end
      else resolve_dots (s :: stack) rest
  end.

Definition norm_path (p : string) : string :=
  let encoded := percent_encode is_path_char p in
  let segments := match encoded with String "/" t => str_split "/" t | _ => str_split "/" encoded end in
  "/" +:+ str_join "/" (resolve_dots [] segments).

Record simple_url : Type := SimpleUrl {
  su_scheme : string;
  su_user : string;
  su_password : option string;
  su_host : string;
  su_port : option Z;
  su_path : string;
  su_query : option string;
  su_fragment : option string;
}.

#[global] Instance simple_url_eq_dec : EqDecision simple_url.
Proof. solve_decision. Defined.

Definition known_port (scheme : string) : option Z :=
  if (scheme =? "http") || (scheme =? "ws") then Some 80%Z
  else if (scheme =? "https") || (scheme =? "wss") then Some 443%Z
  else if scheme =? "ftp" then Some 21%Z else None.

(** Split before the first character that satisfies [p]. *)
Fixpoint split_before (p : ascii -> bool) (s : string) : string * string :=
  match s with
  | EmptyString => ("", "")
  | String c t => if p c then ("", s) else let '(a, b) := split_before p t in (String c a, b)
  end.

(** Path, query and fragment of what follows the authority. *)
Definition parse_tail (s : string) : string * option string * option string :=
  let '(before, fragment) :=
    match split_once "#" s with Some (a, f) => (a, Some f) | None => (s, None) end in
  match split_once "?" before with
  | Some (p, q) => (p, Some q, fragment)
  | None => (before, None, fragment)
  end.

Definition parse_authority (s : string) : option (string * option string * string * option Z) :=
  let '(user, password, hostport) :=
    match split_once "@" s with
    | Some (userinfo, h) =>
        match split_once ":" userinfo with
        | Some (u, p) => (u, Some p, h)
        | None => (userinfo, None, h)
        end
    | None => ("", None, s)
    end in
  let '(host, port) :=
    match split_once ":" hostport with
    | Some (h, p) => (h, if str_is_empty p then Some None else Some <$> parse_uint U16_MAX p)
    | None => (hostport, Some None)
    end in
  match port with
  | Some port =>
      if str_is_empty host || negb (all_bytes is_graphic host) then None
      else Some (user, password, to_ascii_lowercase host, port)
  | None => None
  end.

Definition simple_parse (s : string) : option simple_url :=
  match split_once ":" s with
  | Some (scheme, rest) =>
      match strip_prefix "//" rest with
      | Some rest =>
          let '(authority, tail) :=
            split_before (fun c => Ascii.eqb c "/" || Ascii.eqb c "?" || Ascii.eqb c "#") rest in
          let scheme := to_ascii_lowercase scheme in
          if str_is_empty scheme || negb (all_bytes is_ascii_alphanumeric scheme) then None
          else match parse_authority authority with
          | Some (user, password, host, port) =>
              let '(path, query, fragment) := parse_tail tail in
              Some (SimpleUrl scheme user password host
                      (if bool_decide (port = known_port scheme) then None else port)
                      (norm_path path) query fragment)
          | None => None
          end
      | None => None
      end
  | None => None
  end.

Definition simple_port_or_default (u : simple_url) : option Z :=
  match su_port u with Some p => Some p | None => known_port (su_scheme u) end.

Definition show_opt (pre : string) (o : option string) : string :=
  match o with Some s => pre +:+ s | None => "" end.

Definition simple_origin_str (o : string * string * option Z) : string :=
  let '(scheme, host, port) := o in
  scheme +:+ "://" +:+ host +:+
  (if bool_decide (port = known_port scheme) then ""
   else match port with Some p => ":" +:+ show_uint p | None => "" end).

Definition simple_as_str (u : simple_url) : string :=
  su_scheme u +:+ "://"
  +:+ (if str_is_empty (su_user u) then "" else su_user u +:+ show_opt ":" (su_password u) +:+ "@")
  +:+ su_host u
  +:+ match su_port u with Some p => ":" +:+ show_uint p | None => "" end
  +:+ norm_path (su_path u) +:+ show_opt "?" (su_query u) +:+ show_opt "#" (su_fragment u).

Definition simple_set_path (p : string) (u : simple_url) : simple_url :=
  SimpleUrl (su_scheme u) (su_user u) (su_password u) (su_host u) (su_port u) (norm_path p)
    (su_query u) (su_fragment u).

Definition simple_set_query (q : option string) (u : simple_url) : simple_url :=
  SimpleUrl (su_scheme u) (su_user u) (su_password u) (su_host u) (su_port u) (su_path u) q (su_fragment u).

(** An absolute reference, or a path that replaces the base's. *)
Definition simple_join (base : simple_url) (reference : string) : option simple_url :=
  match simple_parse reference with
  | Some u => Some u
  | None =>
      let '(path, query, fragment) := parse_tail reference in
      let path := if starts_with "/" path then path
                  else String.rev (snd (split_before (Ascii.eqb "/") (String.rev (su_path base)))) +:+ path in
      Some (SimpleUrl (su_scheme base) (su_user base) (su_password base) (su_host base) (su_port base)
              (norm_path path) query fragment)
  end.

#[export] Instance SimpleUrlApi : UrlApi := {|
  Url := simple_url;
  Origin := string * string * option Z;
  url_parse := simple_parse;
  url_as_str := simple_as_str;
  url_scheme := su_scheme;
  url_username := su_user;
  url_password := su_password;
  url_host_str u := Some (su_host u);
  url_port := su_port;
  url_port_or_known_default := simple_port_or_default;
  url_path u := norm_path (su_path u);
  url_query := su_query;
  url_fragment := su_fragment;
  url_origin u := (su_scheme u, su_host u, simple_port_or_default u);
  url_origin_serialization := simple_origin_str;
  url_set_path := simple_set_path;
  url_set_query := simple_set_query;
  url_join := simple_join;
  url_path_keeps := is_path_char;
|}.

(** ** The laws hold of the instance *)

Lemma percent_encode_id (p : ascii -> bool) (s : string) : all_bytes p s = true -> percent_encode p s = s.
Proof. induction s as [|c s IH]; simpl; [done|]. intros [-> Hs]%andb_true_iff. by rewrite IH. Qed.

Lemma hex_digits_are_path_chars (c : ascii) :
  is_path_char (hex_digit (byte_val c / 16)) && is_path_char (hex_digit (byte_val c mod 16)) = true.
Proof. destruct c as [[] [] [] [] [] [] [] []]; vm_compute; reflexivity. Qed.

Lemma percent_encode_path_chars (s : string) : all_bytes is_path_char (percent_encode is_path_char s) = true.
Proof.
  induction s as [|c s IH]; [done|]. cbn [percent_encode]. destruct (is_path_char c) eqn:Hc; cbn [all_bytes].
  - by rewrite Hc, IH.
  - pose proof (hex_digits_are_path_chars c) as Hh. bool_to_prop.
    by rewrite IH, H, H0.
Qed.

Definition good_segment (s : string) : Prop :=
  all_bytes is_path_char s = true /\ contains_char "/" s = false /\ is_dot s || is_dot_dot s = false.

Lemma good_empty : good_segment "".
Proof. done. Qed.

#[export] Hint Resolve good_empty : mirror.

Lemma resolve_dots_good (segments : list string) : forall stack,
  Forall good_segment stack ->
  Forall (fun s => all_bytes is_path_char s = true /\ contains_char "/" s = false) segments ->
  Forall good_segment (resolve_dots stack segments) /\
  (stack ++ segments <> [] -> resolve_dots stack segments <> []).
Proof.
  induction segments as [|s rest IH]; intros stack Hst Hs; cbn [resolve_dots].
  { rewrite app_nil_r. split; [by apply Forall_rev|]. intros Hne Hr.
    apply Hne. by rewrite <- (rev_involutive stack), Hr. }
  apply Forall_cons in Hs as [[Hc Hn] Hs].
  assert (Htl : Forall good_segment (List.tl stack)) by (by destruct Hst).
  destruct (is_dot_dot s) eqn:Hdd; [|destruct (is_dot s) eqn:Hd].
  - destruct rest as [|r rest].
    + split; [apply Forall_rev; auto with mirror|]. intros _ Hr. by apply (f_equal length) in Hr; rewrite length_rev in Hr.
    + destruct (IH (List.tl stack) Htl Hs) as [IH1 IH2]. split; [done|]. intros _. apply IH2. by destruct stack as [|? []].
  - destruct rest as [|r rest].
    + split; [apply Forall_rev; auto with mirror|]. intros _ Hr. by apply (f_equal length) in Hr; rewrite length_rev in Hr.
    + destruct (IH stack Hst Hs) as [IH1 IH2]. split; [done|]. intros _. apply IH2. by destruct stack.
  - destruct (IH (s :: stack)) as [IH1 IH2]; [constructor; [|done]; split_and!; [done|done|by rewrite Hd, Hdd]|done|].
    split; [done|]. intros _. by apply IH2.
Qed.

Lemma resolve_dots_id (segments : list string) : forall stack,
  Forall (fun s => is_dot s || is_dot_dot s = false) segments ->
  resolve_dots stack segments = rev stack ++ segments.
Proof.
  induction segments as [|s rest IH]; intros stack H; cbn [resolve_dots]; [by rewrite app_nil_r|].
  apply Forall_cons in H as [[Hd Hdd]%orb_false_iff H]. rewrite Hd, Hdd, IH by done. simpl.
  by rewrite <- app_assoc.
Qed.

Definition path_segments (p : string) : list string :=
  match p with String "/" t => str_split "/" t | _ => str_split "/" p end.

Lemma path_segments_good (p : string) :
  all_bytes is_path_char p = true ->
  path_segments p <> [] /\
  Forall (fun s => all_bytes is_path_char s = true /\ contains_char "/" s = false) (path_segments p).
Proof.
  intros Hp.
  assert (H : exists q, path_segments p = str_split "/" q /\ all_bytes is_path_char q = true).
  { destruct p as [|c t]; [by exists ""|]. simpl in Hp. apply andb_true_iff in Hp as [Hc Ht].
    destruct (Ascii.eqb_spec c "/") as [->|Hne]; [by exists t|]. exists (String c t).
    simpl all_bytes. rewrite Hc, Ht. split; [|done].
    destruct c as [[] [] [] [] [] [] [] []]; try reflexivity. by contradiction Hne. }
  destruct H as (q & -> & Hq). split; [apply str_split_nonempty|].
  pose proof (all_bytes_split is_path_char "/" q Hq) as H1. pose proof (str_split_pieces "/" q) as H2.
  rewrite Forall_forall in *. intros s Hs. split; [by apply H1|by apply H2].
Qed.

Lemma norm_path_eq (p : string) :
  norm_path p = "/" +:+ str_join "/" (resolve_dots [] (path_segments (percent_encode is_path_char p))).
Proof. reflexivity. Qed.

Lemma split_slash_join (l : list string) :
  l <> [] -> Forall good_segment l -> str_split "/" ("/" +:+ str_join "/" l) = "" :: l.
Proof.
  intros Hne Hl. simpl. f_equal. apply str_split_join; [done|].
  eapply Forall_impl; [exact Hl|]. by intros s (_ & Hn & _).
Qed.

Lemma normal_norm_path (p : string) : normal_path is_path_char (norm_path p) = true.
Proof.
  rewrite norm_path_eq. destruct (path_segments_good _ (percent_encode_path_chars p)) as [Hne Hg].
  destruct (resolve_dots_good _ [] (Forall_nil_2 _) Hg) as [Hr Hrne]. specialize (Hrne Hne).
  set (l := resolve_dots _ _) in *. unfold normal_path. apply andb_true_iff. split.
  - apply andb_true_iff. split; [done|]. rewrite all_bytes_app. apply all_bytes_join; [done|].
    eapply Forall_impl; [exact Hr|]. by intros s (Hs & _).
  - unfold no_dot_segment. rewrite split_slash_join by done. simpl. apply forallb_true_Forall.
    eapply Forall_impl; [exact Hr|]. by intros s (_ & _ & ->).
Qed.

Lemma norm_path_id (p : string) : normal_path is_path_char p = true -> norm_path p = p.
Proof.
  unfold normal_path, no_dot_segment. intros H. bool_to_prop.
  rewrite norm_path_eq, percent_encode_id by done.
  apply starts_with_spec in H as [t ->]. simpl path_segments.
  rewrite resolve_dots_id; simpl.
  - by rewrite str_join_split.
  - apply forallb_true_Forall in H0. simpl in H0. apply Forall_cons in H0 as [_ H0].
    eapply Forall_impl; [exact H0|]. by intros s ?%negb_true_iff.
Qed.

#[export] Instance SimpleUrl_laws : UrlLaws.
Proof.
  split; try (intros; reflexivity).
  - done.
  - intros u _. by eexists.
  - intros p u _ Hp. simpl. rewrite (norm_path_id p Hp). by apply norm_path_id.
  - intros u _. apply normal_norm_path.
  - intros u v _ _. simpl. unfold simple_port_or_default. split; [by intros [= -> -> ->]|].
    intros (-> & [= ->] & ->). done.
Qed.
