(* ===== verification/Systems.v ===== *)
(** * The system catalogue

    [crates/catalog/src/systems.rs]: the distributions the client knows, the
    repository roots, the version test; [system_mirrors.rs]: the recognized
    mirror roots. *)
From S2P Require Import Prelude RustStr.
Open Scope string_scope.

Inductive SystemFormat : Type := Apt | Rpm | Pacman | Apk | Gentoo | Nix | Xbps.

#[export] Instance SystemFormat_eq_dec : EqDecision SystemFormat.
Proof. solve_decision. Defined.

Definition format_as_str (self : SystemFormat) : string :=
  match self with
  | Apt => "apt"
  | Rpm => "rpm"
  | Pacman => "pacman"
  | Apk => "apk"
  | Gentoo => "gentoo"
  | Nix => "nix"
  | Xbps => "xbps"
  end.

Record SystemDistribution : Type := Distro {
  d_code : string;
  d_name : string;
  d_ids : list string;
  d_versions : string;
  d_format : SystemFormat;
  d_repositories : list string;
}.

Record SystemRepository : Type := Repo {
  r_code : string;
  (** empty for entitlement-protected repositories *)
  r_upstream : string;
  r_mirror_path : string;
  r_aliases : list string;
}.

Definition SYSTEM_DISTRIBUTIONS : list SystemDistribution := [
  Distro "debian" "Debian" ["debian"] "8-14" Apt ["debian"; "debian-security"; "debian-archive"; "debian-security-archive"];
  Distro "ubuntu" "Ubuntu" ["ubuntu"] "14-26" Apt ["ubuntu"; "ubuntu-security"; "ubuntu-ports"; "ubuntu-old"];
  Distro "kali" "Kali Linux" ["kali"] "rolling" Apt ["kali"];
  Distro "linuxmint" "Linux Mint / LMDE" ["linuxmint"; "lmde"] "19-22 / LMDE 6-7" Apt ["linuxmint"; "ubuntu"; "ubuntu-security"; "ubuntu-ports"; "ubuntu-old"; "debian"; "debian-security"; "debian-archive"; "debian-security-archive"];
  Distro "deepin" "Deepin" ["deepin"] "all" Apt ["deepin-root"];
  Distro "zorin" "Zorin OS" ["zorin"] "all" Apt ["ubuntu"; "ubuntu-security"; "ubuntu-ports"; "ubuntu-old"];
  Distro "armbian" "Armbian" ["armbian"] "all" Apt ["armbian"; "ubuntu"; "ubuntu-security"; "ubuntu-ports"; "ubuntu-old"; "debian"; "debian-security"; "debian-archive"; "debian-security-archive"];
  Distro "proxmox" "Proxmox VE" ["proxmox"; "pve"] "all" Apt ["proxmox"; "debian"; "debian-security"; "debian-archive"; "debian-security-archive"];
  Distro "raspios" "Raspberry Pi OS" ["raspbian"; "raspios"] "all" Apt ["raspios"; "raspbian"; "debian"; "debian-security"; "debian-archive"; "debian-security-archive"];
  Distro "rhel" "Red Hat Enterprise Linux" ["rhel"] "7-10 (customer mirror required)" Rpm ["rhel"; "epel"; "epel-next"; "epel-archive"];
  Distro "fedora" "Fedora" ["fedora"] "30-44" Rpm ["fedora"; "fedora-archive"];
  Distro "centos" "CentOS" ["centos"] "7-8" Rpm ["centos-vault"; "epel"; "epel-next"; "epel-archive"];
  Distro "centos-stream" "CentOS Stream" ["centos-stream"] "8-10" Rpm ["centos-stream"; "centos-vault"; "epel"; "epel-next"; "epel-archive"];
  Distro "rocky" "Rocky Linux" ["rocky"] "8-10" Rpm ["rocky"; "epel"; "epel-next"; "epel-archive"];
  Distro "alma" "AlmaLinux" ["almalinux"; "alma"] "8-10" Rpm ["alma"; "alma-vault"; "epel"; "epel-next"; "epel-archive"];
  Distro "oraclelinux" "Oracle Linux" ["ol"; "oraclelinux"] "8-10" Rpm ["oraclelinux"; "epel"; "epel-next"; "epel-archive"];
  Distro "openeuler" "openEuler" ["openeuler"] "20-26" Rpm ["openeuler"];
  Distro "opencloudos" "OpenCloudOS" ["opencloudos"] "8.6-9 / Stream 23" Rpm ["opencloudos"; "opencloudos-stream"];
  Distro "openkylin" "openKylin" ["openkylin"] "all" Apt ["openkylin"];
  Distro "anolis" "Anolis OS" ["anolis"] "8 / 23" Rpm ["anolis"];
  Distro "opensuse" "openSUSE Leap / Tumbleweed" ["opensuse-leap"; "opensuse-tumbleweed"; "opensuse"] "Leap 15-16 / Tumbleweed" Rpm ["opensuse"];
  Distro "archlinux" "Arch Linux" ["arch"; "archarm"] "rolling" Pacman ["archlinux"; "archlinuxarm"];
  Distro "manjaro" "Manjaro" ["manjaro"] "rolling" Pacman ["manjaro"];
  Distro "endeavouros" "EndeavourOS" ["endeavouros"] "rolling" Pacman ["archlinux"; "endeavouros"];
  Distro "alpine" "Alpine Linux" ["alpine"] "v3 / edge" Apk ["alpine"];
  Distro "gentoo" "Gentoo" ["gentoo"] "all" Gentoo ["gentoo"];
  Distro "nixos" "NixOS" ["nixos"] "19-26" Nix ["nix-store"; "nix-channels"];
  Distro "void" "Void Linux" ["void"] "rolling" Xbps ["void"]
].

Definition SYSTEM_REPOSITORIES : list SystemRepository := [
  Repo "epel" "https://dl.fedoraproject.org/pub/epel" "epel" ["https://download.fedoraproject.org/pub/epel"];
  Repo "epel-next" "https://dl.fedoraproject.org/pub/epel/next" "epel/next" ["https://download.fedoraproject.org/pub/epel/next"];
  Repo "epel-archive" "https://archives.fedoraproject.org/pub/archive/epel" "epel-archive" ["https://dl.fedoraproject.org/pub/archive/epel"];
  Repo "alma-vault" "https://vault.almalinux.org" "almalinux-vault" ["https://repo.almalinux.org/vault"];
  Repo "docker-ce" "https://download.docker.com" "docker-ce" [];
  Repo "debian" "https://deb.debian.org/debian" "debian" ["https://ftp.debian.org/debian"];
  Repo "debian-security" "https://security.debian.org/debian-security" "debian-security" ["https://deb.debian.org/debian-security"; "https://security.debian.org"];
  Repo "debian-archive" "https://archive.debian.org/debian" "debian-archive/debian" [];
  Repo "debian-security-archive" "https://archive.debian.org/debian-security" "debian-archive/debian-security" [];
  Repo "ubuntu" "https://archive.ubuntu.com/ubuntu" "ubuntu" [];
  Repo "ubuntu-security" "https://security.ubuntu.com/ubuntu" "ubuntu" [];
  Repo "ubuntu-ports" "https://ports.ubuntu.com/ubuntu-ports" "ubuntu-ports" [];
  Repo "ubuntu-old" "https://old-releases.ubuntu.com/ubuntu" "ubuntu-old-releases" [];
  Repo "kali" "https://kali.download/kali" "kali" ["https://http.kali.org/kali"; "https://http.kali.org"];
  Repo "linuxmint" "https://packages.linuxmint.com" "linuxmint-packages" [];
  Repo "deepin-root" "https://community-packages.deepin.com" "deepin" ["https://packages.deepin.com/deepin"];
  Repo "armbian" "https://apt.armbian.com" "armbian" [];
  Repo "proxmox" "https://download.proxmox.com/debian" "proxmox/debian" [];
  Repo "raspios" "https://archive.raspberrypi.com/debian" "raspberrypi" ["https://archive.raspberrypi.org/debian"];
  Repo "raspbian" "https://raspbian.raspberrypi.com/raspbian" "raspbian/raspbian" ["https://raspbian.raspberrypi.org/raspbian"; "https://raspbian.raspberrypi.com"];
  Repo "rhel" "" "rhel" ["https://cdn.redhat.com"];
  Repo "fedora" "https://dl.fedoraproject.org/pub/fedora/linux" "fedora" ["https://download.fedoraproject.org/pub/fedora/linux"];
  Repo "fedora-archive" "https://archives.fedoraproject.org/pub/archive/fedora/linux" "fedora-archive" [];
  Repo "centos-vault" "https://vault.centos.org" "centos-vault" ["https://mirror.centos.org/centos"; "https://mirror.centos.org/$contentdir"; "https://mirror.centos.org/altarch"; "https://vault.centos.org/centos"];
  Repo "centos-stream" "https://mirror.stream.centos.org" "centos-stream" [];
  Repo "rocky" "https://dl.rockylinux.org/pub/rocky" "rocky" ["https://dl.rockylinux.org/$contentdir"];
  Repo "alma" "https://repo.almalinux.org/almalinux" "almalinux" [];
  Repo "oraclelinux" "https://yum.oracle.com/repo" "oraclelinux" ["https://yum$ociregion.$ocidomain/repo"; "https://yum${ociregion}.${ocidomain}/repo"];
  Repo "openeuler" "https://repo.openeuler.org" "openeuler" [];
  Repo "opencloudos" "https://mirrors.opencloudos.tech/opencloudos" "opencloudos" ["https://mirrors.tencent.com/opencloudos"];
  Repo "opencloudos-stream" "https://mirrors.opencloudos.tech/opencloudos-stream" "opencloudos-stream" [];
  Repo "openkylin" "https://archive.build.openkylin.top/openkylin" "openkylin" [];
  Repo "anolis" "https://mirrors.openanolis.cn/anolis" "anolis" [];
  Repo "opensuse" "https://download.opensuse.org" "opensuse" ["https://cdn.opensuse.org"];
  Repo "archlinuxarm" "https://mirror.archlinuxarm.org" "archlinuxarm" [];
  Repo "archlinux" "https://geo.mirror.pkgbuild.com" "archlinux" [];
  Repo "manjaro" "https://repo.manjaro.org/repo" "manjaro" [];
  Repo "endeavouros" "https://mirrors.alpix.eu/endeavouros/repo" "endeavouros/repo" [];
  Repo "alpine" "https://dl-cdn.alpinelinux.org/alpine" "alpine" ["https://dl-1.alpinelinux.org/alpine"; "https://dl-2.alpinelinux.org/alpine"];
  Repo "gentoo" "https://distfiles.gentoo.org" "gentoo" [];
  Repo "nix-store" "https://cache.nixos.org" "nix-channels/store" [];
  Repo "nix-channels" "https://channels.nixos.org" "nix-channels" ["https://nixos.org/channels"];
  Repo "void" "https://repo-default.voidlinux.org" "voidlinux" ["https://repo-us.voidlinux.org"; "https://repo-de.voidlinux.org"; "https://alpha.de.repo.voidlinux.org"]
].

Definition SYSTEM_MIRROR_ROOTS : list string := [
  "mirrors.aliyun.com";
  "mirrors.tencent.com";
  "mirrors.huaweicloud.com";
  "mirrors.cmecloud.cn";
  "mirrors.ctyun.cn";
  "mirrors.163.com";
  "mirrors.volces.com";
  "mirrors.tuna.tsinghua.edu.cn";
  "mirrors.pku.edu.cn";
  "mirrors.zju.edu.cn";
  "mirrors.nju.edu.cn";
  "mirror.lzu.edu.cn";
  "mirror.sjtu.edu.cn";
  "mirrors.hust.edu.cn";
  "mirrors.ustc.edu.cn";
  "mirror.iscas.ac.cn";
  "mirrors.cstcloud.cn";
  "mirrors.bfsu.edu.cn";
  "mirrors.cqu.edu.cn";
  "mirrors.cqupt.edu.cn";
  "mirrors.jlu.edu.cn";
  "mirrors.jcut.edu.cn";
  "mirrors.njtech.edu.cn";
  "mirrors.njupt.edu.cn";
  "mirrors.sustech.edu.cn";
  "mirror.nyist.edu.cn";
  "mirrors.qlu.edu.cn";
  "mirrors.sdu.edu.cn";
  "mirrors.sjtug.sjtu.edu.cn";
  "mirrors.wsyu.edu.cn";
  "mirrors.xjtu.edu.cn";
  "mirrors.nwafu.edu.cn";
  "mirrors.xtom.hk";
  "mirror.01link.hk";
  "download.nus.edu.sg/mirror";
  "mirror.sg.gs";
  "mirrors.xtom.sg";
  "free.nchc.org.tw";
  "mirror.ossplanet.net";
  "linux.cs.nycu.edu.tw";
  "mirror.twds.com.tw";
  "mirror.siwoo.org";
  "ftp.kaist.ac.kr";
  "mirror.elice.io";
  "ftp.udx.icscoe.jp/Linux";
  "ftp.jaist.ac.jp/pub/Linux";
  "linux2.yz.yamagata-u.ac.jp/pub/Linux";
  "mirrors.xtom.jp";
  "mirrors.gbnetwork.com";
  "mirror.kku.ac.th";
  "mirror.vorboss.net";
  "mirror.dogado.de";
  "mirrors.xtom.de";
  "ftp.halifax.rwth-aachen.de";
  "ftp.agdsn.de";
  "mirror.in2p3.fr/pub/linux";
  "mirrors.ircam.fr/pub";
  "eclats.crans.org";
  "ftp.crihan.fr";
  "mirrors.xtom.nl";
  "eu.edge.kernel.org";
  "mirrors.xtom.ee";
  "mirror.netsite.dk";
  "mirrors.dotsrc.org";
  "mirror.accum.se";
  "ftp.lysator.liu.se";
  "mirror.yandex.ru";
  "ftp.belnet.be/mirror";
  "ftp.fi.muni.cz/pub/linux";
  "ftp.sh.cvut.cz";
  "mirror.karneval.cz/pub/linux";
  "mirrors.kernel.org";
  "mirrors.mit.edu";
  "mirror.math.princeton.edu/pub";
  "ftp-chi.osuosl.org/pub";
  "mirror.fcix.net";
  "mirrors.xtom.com";
  "mirror.steadfast.net";
  "mirror.it.ubc.ca";
  "mirror.xenyth.net";
  "mirrors.switch.ca";
  "mirror.pop-sc.rnp.br/mirror";
  "mirror.uepg.br";
  "gsl-syd.mm.fcix.net";
  "mirror.aarnet.edu.au/pub";
  "mirror.datamossa.io";
  "mirror.amaze.com.au";
  "mirrors.xtom.au";
  "mirror.fsmg.org.nz";
  "mirror.liquidtelecom.com";
  "mirror.dimensiondata.com";
  "mirrors.cloud.aliyuncs.com";
  "mirrors.tencentyun.com";
  "mirrors.myhuaweicloud.com";
  "internal.mirrors.ctyun.cn";
  "mirrors.ivolces.com"
].

Definition system_distribution (code : string) : option SystemDistribution :=
  find_first (fun d => (d_code d =? code) || existsb (fun id => eq_ignore_ascii_case id code) (d_ids d))
    SYSTEM_DISTRIBUTIONS.

Definition system_repository (code : string) : option SystemRepository :=
  find_first (fun r => r_code r =? code) SYSTEM_REPOSITORIES.

Definition nth_part (s : string) (i : nat) : option Z :=
  match str_split "." s !! i with Some p => parse_uint U32_MAX p | None => None end.

(** [SystemDistribution::supports_version]. *)
Definition supports_version (self : SystemDistribution) (version name : string) : bool :=
  let major := nth_part (trim_start_matches "v" version) 0 in
  let equals (n : Z) := match major with Some m => (m =? n)%Z | None => false end in
  let within (min max : Z) := match major with Some n => (min <=? n)%Z && (n <=? max)%Z | None => false end in
  let code := d_code self in
  if code =? "debian" then
    within 8%Z 14%Z
    || existsb (String.eqb version)
         ["jessie"; "stretch"; "buster"; "bullseye"; "bookworm"; "trixie"; "forky"; "sid"; "testing"]
  else if code =? "ubuntu" then within 14%Z 26%Z
  else if (code =? "linuxmint") && (contains_str "LMDE" name || eq_ignore_ascii_case name "lmde")
  then within 6%Z 7%Z
  else if code =? "linuxmint" then within 19%Z 22%Z
  else if code =? "rhel" then within 7%Z 10%Z
  else if code =? "fedora" then within 30%Z 44%Z
  else if code =? "centos" then within 7%Z 8%Z
  else if existsb (String.eqb code) ["centos-stream"; "rocky"; "alma"; "oraclelinux"] then within 8%Z 10%Z
  else if code =? "openeuler" then within 20%Z 26%Z
  else if code =? "opencloudos" then
    within 9%Z 9%Z || within 23%Z 23%Z
    || (equals 8%Z && match nth_part version 1 with Some n => (6 <=? n)%Z | None => false end)
  else if code =? "anolis" then equals 8%Z || equals 23%Z
  else if code =? "opensuse" then within 15%Z 16%Z || contains_str "tumbleweed" (to_ascii_lowercase name)
  else if code =? "alpine" then equals 3%Z || (version =? "edge")
  else if code =? "nixos" then within 19%Z 26%Z
  else true.

(** ** Properties *)

(** The catalogue is consistent: codes are unique in both tables, every
    repository a distribution names exists, and every declared code resolves
    to its own entry. *)
Theorem catalogue_consistent :
  NoDup (d_code <$> SYSTEM_DISTRIBUTIONS) /\ NoDup (r_code <$> SYSTEM_REPOSITORIES) /\
  Forall (fun d => Forall (fun key => is_Some (system_repository key)) (d_repositories d)) SYSTEM_DISTRIBUTIONS /\
  Forall (fun d => system_distribution (d_code d) = Some d) SYSTEM_DISTRIBUTIONS /\
  Forall (fun r => system_repository (r_code r) = Some r) SYSTEM_REPOSITORIES.
Proof.
  split_and!.
  - apply (bool_decide_eq_true_1 _). vm_compute. reflexivity.
  - apply (bool_decide_eq_true_1 _). vm_compute. reflexivity.
  - repeat constructor; vm_compute; by eexists.
  - repeat constructor.
  - repeat constructor.
Qed.
