(* ===== verification/Config.v ===== *)
(** * The configuration

    [crates/server/src/config.rs]: the configuration records with their
    defaults, and [Config::validate].  A [BTreeMap] is an association list in
    the order of its keys.  The time zone database is a parameter. *)
From S2P Require Import Prelude RustStr Net TrustedProxy Url Systems.
Open Scope Z_scope.
Open Scope mirror_scope.

(** ** Default values *)

Definition default_github_base : string := "https://github.com".
Definition default_github_raw_base : string := "https://raw.githubusercontent.com".
Definition default_packagist_base : string := "https://repo.packagist.org".
Definition default_docker_hub_registry : string := "https://registry-1.docker.io".
Definition default_ghcr_registry : string := "https://ghcr.io".
Definition default_quay_registry : string := "https://quay.io".
Definition default_kubernetes_registry : string := "https://registry.k8s.io".
Definition default_gcr_registry : string := "https://gcr.io".
Definition default_mcr_registry : string := "https://mcr.microsoft.com".
Definition default_elastic_registry : string := "https://docker.elastic.co".
Definition default_gitlab_registry : string := "https://registry.gitlab.com".
Definition default_nvcr_registry : string := "https://nvcr.io".
Definition default_oracle_registry : string := "https://container-registry.oracle.com".
Definition default_npm_registry : string := "https://registry.npmjs.org".
Definition default_nvm_repository : string := "https://nodejs.org/dist".
Definition default_opam_repository : string := "https://opam.ocaml.org".
Definition default_go_proxy : string := "https://proxy.golang.org".
Definition default_maven_repository : string := "https://maven-central.storage-download.googleapis.com/maven2".
Definition default_rubygems_repository : string := "https://rubygems.org".
Definition default_rustup_repository : string := "https://static.rust-lang.org".
Definition default_nuget_repository : string := "https://api.nuget.org".
Definition default_cpan_repository : string := "https://cpan.metacpan.org".
Definition default_cran_repository : string := "https://cloud.r-project.org".
Definition default_hackage_repository : string := "https://hackage.haskell.org".
Definition default_julia_repository : string := "https://pkg.julialang.org".
Definition default_luarocks_repository : string := "https://luarocks.org".
Definition default_clojars_repository : string := "https://repo.clojars.org".
Definition default_cocoapods_repository : string := "https://cdn.cocoapods.org".
Definition default_pub_repository : string := "https://pub.dev".
Definition default_anaconda_repository : string := "https://repo.anaconda.com/pkgs".
Definition default_texlive_repository : string := "https://mirrors.ctan.org/systems/texlive/tlnet".
Definition default_winget_repository : string := "https://cdn.winget.microsoft.com".
Definition default_huggingface_repository : string := "https://huggingface.co".
Definition default_elpa_repository : string := "https://elpa.gnu.org/packages".
Definition default_nix_repository : string := "https://cache.nixos.org".
Definition default_guix_repository : string := "https://ci.guix.gnu.org".
Definition default_flatpak_repository : string := "https://dl.flathub.org/repo".
Definition default_homebrew_bottles_repository : string := "https://ghcr.io/v2/homebrew/core".
Definition default_alpine_repository : string := "https://dl-cdn.alpinelinux.org/alpine".
Definition default_openwrt_repository : string := "https://downloads.openwrt.org".
Definition default_termux_repository : string := "https://packages.termux.dev/apt/termux-main".
Definition default_debian_repository : string := "https://deb.debian.org/debian".
Definition default_ubuntu_repository : string := "https://archive.ubuntu.com/ubuntu".
Definition default_fedora_repository : string := "https://dl.fedoraproject.org/pub/fedora/linux".
Definition default_archlinux_repository : string := "https://geo.mirror.pkgbuild.com".
Definition default_opensuse_repository : string := "https://download.opensuse.org".
Definition default_void_repository : string := "https://repo-default.voidlinux.org".
Definition default_gentoo_repository : string := "https://distfiles.gentoo.org".
Definition default_freebsd_repository : string := "https://pkg.freebsd.org".
Definition default_crates_index : string := "https://index.crates.io".
Definition default_crates_api : string := "https://crates.io".
Definition default_pypi_simple : string := "https://pypi.org/simple".
Definition default_pypi_files : string := "https://files.pythonhosted.org".
Definition default_request_timeout_secs : Z := 60.
Definition default_upstream_selection_strategy : string := "ordered".
Definition default_upstream_failure_threshold : Z := 3.
Definition default_upstream_cooldown_secs : Z := 30.
Definition default_management_listen_addr : string := "127.0.0.1:3001".
Definition default_site_title : string := "MirrorProxy".
Definition default_site_description : string := "MirrorProxy 自托管镜像加速服务，支持 GitHub、Docker/OCI、npm、PyPI、crates.io、Go Modules、Composer、Maven、RubyGems、NuGet、CPAN、CRAN、Hackage、Homebrew、Hugging Face 及 Linux/BSD 软件源，提供 AI Agent Skill 与 MCP 配置。 Self-hosted source and package mirrors with AI Agent Skill and MCP setup.".
Definition default_site_keywords : list string := ["MirrorProxy"; "镜像加速"; "软件源"; "GitHub"; "Docker/OCI"; "npm"; "Go Modules"; "Maven"; "PyPI"; "crates.io"; "Homebrew"; "Linux/BSD"; "Composer"; "RubyGems"; "NuGet"; "CPAN"; "CRAN"; "Hugging Face"; "AI Skill"; "MCP"].
Definition default_site_icon_url : string := "/favicon.svg".
Definition default_alert_quota_percent : Z := 80.
Definition default_alert_source_failures : Z := 3.
Definition default_alert_cooldown_secs : Z := 60 * 60.
Definition default_rate_limit_requests_per_minute : Z := 600.
Definition default_cache_directory : string := "mirrorproxy-cache".
Definition default_cache_max_entry_mb : Z := 8.
Definition default_cache_max_total_mb : Z := 256.
Definition default_cache_default_ttl_secs : Z := 300.
Definition default_cache_max_ttl_secs : Z := 24 * 60 * 60.
Definition default_geoip_enabled : bool := true.
Definition default_geoip_ipv4_path : string := "geoip/ip2region_v4.xdb".
Definition default_geoip_ipv6_path : string := "geoip/ip2region_v6.xdb".
Definition default_acme_dns_propagation_delay_secs : Z := 30.
Definition default_acme_challenge : string := "http-01".
Definition default_acme_directory_url : string := "https://acme-v02.api.letsencrypt.org/directory".
Definition default_acme_storage_directory : string := "acme".
Definition default_acme_renew_before_days : Z := 30.
Definition default_acme_check_interval_hours : Z := 12.
Definition default_acme_http_listen_addr : string := "0.0.0.0:80".
Definition default_acme_https_listen_addr : string := "0.0.0.0:443".
Definition default_quota_monthly_gb : Z := 500.
Definition default_quota_timezone : string := "local".
Definition default_quota_on_exceeded : string := "stop_proxy".
Definition default_request_event_retention_days : Z := 30.
Definition default_user_access_mode : string := "public".
Definition default_routing_id_min_length : Z := 12.
Definition default_routing_rotation_cooldown_hours : Z := 24.
Definition default_registration_mode : string := "invite_only".
Definition default_email_token_ttl_minutes : Z := 10.
Definition default_webauthn_rp_name : string := "MirrorProxy".
Definition default_break_glass_username : string := "admin".
Definition default_database_path : string := "mirrorproxy.sqlite3".
Definition default_listen_addr : string := "127.0.0.1:3000".
Definition default_trusted_proxies : list string := ["127.0.0.1"; "::1"].
Definition default_enabled_proxies : list string := ["github"; "composer"; "oci"; "npm"; "nvm"; "opam"; "go"; "maven"; "rubygems"; "rustup"; "nuget"; "cpan"; "cran"; "hackage"; "julia"; "luarocks"; "clojars"; "pub"; "anaconda"; "texlive"; "winget"; "huggingface"; "elpa"; "nix"; "guix"; "flatpak"; "homebrew"; "os"; "crates"; "pypi"].

(** The built-in operating-system repositories, completed from the catalogue. *)
Definition base_os_repositories : list (string * string) :=
  foldr (fun e m => btree_insert e.1 e.2 m) [] [
    ("kali", "https://kali.download/kali");
    ("rocky", "https://dl.rockylinux.org/pub/rocky");
    ("alma", "https://repo.almalinux.org/almalinux");
    ("manjaro", "https://repo.manjaro.org/repo");
    ("msys2", "https://repo.msys2.org");
    ("raspios", "https://archive.raspberrypi.com/debian");
    ("armbian", "https://apt.armbian.com");
    ("openeuler", "https://repo.openeuler.org");
    ("anolis", "https://mirrors.openanolis.cn/anolis");
    ("deepin", "https://community-packages.deepin.com/beige");
    ("linuxmint", "https://mirrors.edge.kernel.org/linuxmint-packages");
    ("solus", "https://cdn.getsol.us/repo");
    ("trisquel", "https://archive.trisquel.info/trisquel");
    ("linuxlite", "https://repo.linuxliteos.com/linuxlite");
    ("ros", "http://packages.ros.org/ros2/ubuntu");
    ("netbsd", "https://cdn.netbsd.org");
    ("openbsd", "https://cdn.openbsd.org")].

Definition default_os_repositories : list (string * string) :=
  fold_left (fun m r =>
    if negb (str_is_empty (r_upstream r))
       && negb (existsb (String.eqb (r_code r))
                  ["debian"; "ubuntu"; "fedora"; "archlinux"; "opensuse"; "void"; "gentoo"; "alpine"])
    then btree_or_insert (r_code r) (r_upstream r) m else m)
    SYSTEM_REPOSITORIES base_os_repositories.

Definition default_oci_token_issuers : list (string * list string) :=
  [("docker_hub", ["https://auth.docker.io"]);
   ("elastic", ["https://docker-auth.elastic.co"]);
   ("gitlab", ["https://gitlab.com"])].

(** ** Records *)

Module UpstreamAuth.

Record t : Type := {
  username : option string;
  password : option string;
  bearer_token : option string;
}.

End UpstreamAuth.

Module Upstreams.

Record t : Type := {
  github : string;
  github_raw : string;
  packagist : string;
  docker_hub : string;
  ghcr : string;
  quay : string;
  kubernetes : string;
  gcr : string;
  mcr : string;
  elastic : string;
  gitlab : string;
  nvcr : string;
  oracle : string;
  npm : string;
  nvm : string;
  opam : string;
  go_proxy : string;
  maven : string;
  rubygems : string;
  rustup : string;
  nuget : string;
  cpan : string;
  cran : string;
  hackage : string;
  julia : string;
  luarocks : string;
  clojars : string;
  cocoapods : string;
  pub_repository : string;
  anaconda : string;
  texlive : string;
  winget : string;
  huggingface : string;
  elpa : string;
  nix : string;
  guix : string;
  flatpak : string;
  homebrew : string;
  alpine : string;
  openwrt : string;
  termux : string;
  debian : string;
  ubuntu : string;
  fedora : string;
  archlinux : string;
  opensuse : string;
  void : string;
  gentoo : string;
  freebsd : string;
  additional_os : list (string * string);
  crates_index : string;
  crates_api : string;
  pypi_simple : string;
  pypi_files : string;
}.

Definition default : t := {|
  github := default_github_base;
  github_raw := default_github_raw_base;
  packagist := default_packagist_base;
  docker_hub := default_docker_hub_registry;
  ghcr := default_ghcr_registry;
  quay := default_quay_registry;
  kubernetes := default_kubernetes_registry;
  gcr := default_gcr_registry;
  mcr := default_mcr_registry;
  elastic := default_elastic_registry;
  gitlab := default_gitlab_registry;
  nvcr := default_nvcr_registry;
  oracle := default_oracle_registry;
  npm := default_npm_registry;
  nvm := default_nvm_repository;
  opam := default_opam_repository;
  go_proxy := default_go_proxy;
  maven := default_maven_repository;
  rubygems := default_rubygems_repository;
  rustup := default_rustup_repository;
  nuget := default_nuget_repository;
  cpan := default_cpan_repository;
  cran := default_cran_repository;
  hackage := default_hackage_repository;
  julia := default_julia_repository;
  luarocks := default_luarocks_repository;
  clojars := default_clojars_repository;
  cocoapods := default_cocoapods_repository;
  pub_repository := default_pub_repository;
  anaconda := default_anaconda_repository;
  texlive := default_texlive_repository;
  winget := default_winget_repository;
  huggingface := default_huggingface_repository;
  elpa := default_elpa_repository;
  nix := default_nix_repository;
  guix := default_guix_repository;
  flatpak := default_flatpak_repository;
  homebrew := default_homebrew_bottles_repository;
  alpine := default_alpine_repository;
  openwrt := default_openwrt_repository;
  termux := default_termux_repository;
  debian := default_debian_repository;
  ubuntu := default_ubuntu_repository;
  fedora := default_fedora_repository;
  archlinux := default_archlinux_repository;
  opensuse := default_opensuse_repository;
  void := default_void_repository;
  gentoo := default_gentoo_repository;
  freebsd := default_freebsd_repository;
  additional_os := default_os_repositories;
  crates_index := default_crates_index;
  crates_api := default_crates_api;
  pypi_simple := default_pypi_simple;
  pypi_files := default_pypi_files;
|}.

End Upstreams.

Module TimeoutConfig.

Record t : Type := {
  request_secs : Z;
}.

Definition default : t := {|
  request_secs := default_request_timeout_secs;
|}.

End TimeoutConfig.

Module UpstreamSelectionConfig.

Record t : Type := {
  strategy : string;
  failure_threshold : Z;
  cooldown_secs : Z;
}.

Definition default : t := {|
  strategy := default_upstream_selection_strategy;
  failure_threshold := default_upstream_failure_threshold;
  cooldown_secs := default_upstream_cooldown_secs;
|}.

End UpstreamSelectionConfig.

Module ManagementConfig.

Record t : Type := {
  enabled : bool;
  listen_addr : string;
}.

Definition default : t := {|
  enabled := false;
  listen_addr := default_management_listen_addr;
|}.

End ManagementConfig.

Module MetricsConfig.

Record t : Type := {
  local_only : bool;
}.

Definition default : t := {| local_only := true |}.

End MetricsConfig.

Module SiteConfig.

Record t : Type := {
  title : string;
  description : string;
  keywords : list string;
  icon_url : string;
  footer_text : string;
}.

Definition default : t := {|
  title := default_site_title;
  description := default_site_description;
  keywords := default_site_keywords;
  icon_url := default_site_icon_url;
  footer_text := "";
|}.

End SiteConfig.

Module AlertConfig.

Record t : Type := {
  enabled : bool;
  webhook_url : string;
  email_enabled : bool;
  email_recipients : list string;
  quota_percent : Z;
  source_failures : Z;
  cooldown_secs : Z;
}.

Definition default : t := {|
  enabled := false;
  webhook_url := "";
  email_enabled := false;
  email_recipients := [];
  quota_percent := default_alert_quota_percent;
  source_failures := default_alert_source_failures;
  cooldown_secs := default_alert_cooldown_secs;
|}.

End AlertConfig.

Module RateLimitConfig.

Record t : Type := {
  enabled : bool;
  requests_per_minute : Z;
}.

Definition default : t := {|
  enabled := false;
  requests_per_minute := default_rate_limit_requests_per_minute;
|}.

End RateLimitConfig.

Module CacheConfig.

Record t : Type := {
  enabled : bool;
  directory : string;
  max_entry_mb : Z;
  max_total_mb : Z;
  default_ttl_secs : Z;
  max_ttl_secs : Z;
}.

Definition default : t := {|
  enabled := false;
  directory := default_cache_directory;
  max_entry_mb := default_cache_max_entry_mb;
  max_total_mb := default_cache_max_total_mb;
  default_ttl_secs := default_cache_default_ttl_secs;
  max_ttl_secs := default_cache_max_ttl_secs;
|}.

End CacheConfig.

Module GeoIpConfig.

Record t : Type := {
  enabled : bool;
  ipv4_path : string;
  ipv6_path : string;
}.

Definition default : t := {|
  enabled := default_geoip_enabled;
  ipv4_path := default_geoip_ipv4_path;
  ipv6_path := default_geoip_ipv6_path;
|}.

End GeoIpConfig.

Module AcmeDnsConfig.

Record t : Type := {
  provider : string;
  cloudflare_zone_id : string;
  cloudflare_api_token : string;
  cloudflare_api_key : string;
  cloudflare_email : string;
  aliyun_domain : string;
  aliyun_access_key_id : string;
  aliyun_access_key_secret : string;
  tencent_domain : string;
  tencent_secret_id : string;
  tencent_secret_key : string;
  route53_hosted_zone_id : string;
  route53_access_key_id : string;
  route53_secret_access_key : string;
  route53_session_token : string;
  webhook_url : string;
  webhook_bearer_token : string;
  propagation_delay_secs : Z;
}.

Definition default : t := {|
  provider := "";
  cloudflare_zone_id := "";
  cloudflare_api_token := "";
  cloudflare_api_key := "";
  cloudflare_email := "";
  aliyun_domain := "";
  aliyun_access_key_id := "";
  aliyun_access_key_secret := "";
  tencent_domain := "";
  tencent_secret_id := "";
  tencent_secret_key := "";
  route53_hosted_zone_id := "";
  route53_access_key_id := "";
  route53_secret_access_key := "";
  route53_session_token := "";
  webhook_url := "";
  webhook_bearer_token := "";
  propagation_delay_secs := default_acme_dns_propagation_delay_secs;
|}.

End AcmeDnsConfig.

Module AcmeConfig.

Record t : Type := {
  enabled : bool;
  email : string;
  domains : list string;
  challenge : string;
  directory_url : string;
  storage_directory : string;
  renew_before_days : Z;
  check_interval_hours : Z;
  direct_https : bool;
  http_listen_addr : string;
  https_listen_addr : string;
  redirect_http_to_https : bool;
  dns : AcmeDnsConfig.t;
}.

Definition default : t := {|
  enabled := false;
  email := "";
  domains := [];
  challenge := default_acme_challenge;
  directory_url := default_acme_directory_url;
  storage_directory := default_acme_storage_directory;
  renew_before_days := default_acme_renew_before_days;
  check_interval_hours := default_acme_check_interval_hours;
  direct_https := false;
  http_listen_addr := default_acme_http_listen_addr;
  https_listen_addr := default_acme_https_listen_addr;
  redirect_http_to_https := true;
  dns := AcmeDnsConfig.default;
|}.

End AcmeConfig.

Module QuotaConfig.

Record t : Type := {
  enabled : bool;
  bidirectional_accounting : bool;
  monthly_gb : Z;
  timezone : string;
  on_exceeded : string;
  request_event_retention_days : Z;
  default_user_monthly_gb : option Z;
}.

Definition default : t := {|
  enabled := false;
  bidirectional_accounting := false;
  monthly_gb := default_quota_monthly_gb;
  timezone := default_quota_timezone;
  on_exceeded := default_quota_on_exceeded;
  request_event_retention_days := default_request_event_retention_days;
  default_user_monthly_gb := None;
|}.

End QuotaConfig.

Module UserAccessConfig.

Record t : Type := {
  base_domain : string;
  mode : string;
  infrastructure_ready : bool;
  routing_id_min_length : Z;
  routing_rotation_cooldown_hours : Z;
}.

Definition default : t := {|
  base_domain := "";
  mode := default_user_access_mode;
  infrastructure_ready := false;
  routing_id_min_length := default_routing_id_min_length;
  routing_rotation_cooldown_hours := default_routing_rotation_cooldown_hours;
|}.

End UserAccessConfig.

Module RegistrationConfig.

Record t : Type := {
  mode : string;
  allowed_email_domains : list string;
  email_token_ttl_minutes : Z;
}.

Definition default : t := {|
  mode := default_registration_mode;
  allowed_email_domains := [];
  email_token_ttl_minutes := default_email_token_ttl_minutes;
|}.

End RegistrationConfig.

Module WebauthnConfig.

Record t : Type := {
  enabled : bool;
  rp_id : string;
  rp_origin : string;
  rp_name : string;
  require_passkey : bool;
  break_glass_username : string;
}.

Definition default : t := {|
  enabled := false;
  rp_id := "";
  rp_origin := "";
  rp_name := default_webauthn_rp_name;
  require_passkey := false;
  break_glass_username := default_break_glass_username;
|}.

End WebauthnConfig.

Module OutboundProxyConfig.

Record t : Type := {
  enabled : bool;
  url : string;
  no_proxy : list string;
  username : option string;
  password : option string;
}.

Definition default : t := {|
  enabled := false;
  url := "";
  no_proxy := [];
  username := None;
  password := None;
|}.

End OutboundProxyConfig.

Module UpstreamTlsConfig.

Record t : Type := {
  ca_certificates : list string;
  insecure_skip_verify : bool;
}.

Definition default : t := {|
  ca_certificates := [];
  insecure_skip_verify := false;
|}.

End UpstreamTlsConfig.

Module DownloadConfig.

Record t : Type := {
  enabled : bool;
  max_file_bytes : Z;
  daily_user_bytes : Z;
  max_concurrent : Z;
  max_user_concurrent : Z;
  requests_per_minute : Z;
  max_duration_secs : Z;
  bandwidth_bytes_per_sec : Z;
}.

Definition default : t := {|
  enabled := false;
  max_file_bytes := Z.shiftl 10 30;
  daily_user_bytes := Z.shiftl 20 30;
  max_concurrent := 16;
  max_user_concurrent := 5;
  requests_per_minute := 300;
  max_duration_secs := 1800;
  bandwidth_bytes_per_sec := Z.shiftl 100 20;
|}.

End DownloadConfig.

Module Config.

Record t : Type := {
  database_path : string;
  listen_addr : string;
  management : ManagementConfig.t;
  metrics : MetricsConfig.t;
  public_base_url : string;
  site : SiteConfig.t;
  trusted_proxies : list string;
  enabled_proxies : list string;
  upstreams : Upstreams.t;
  oci_token_issuers : list (string * list string);
  timeout : TimeoutConfig.t;
  upstream_selection : UpstreamSelectionConfig.t;
  rate_limit : RateLimitConfig.t;
  cache : CacheConfig.t;
  geoip : GeoIpConfig.t;
  acme : AcmeConfig.t;
  quota : QuotaConfig.t;
  download : DownloadConfig.t;
  alerts : AlertConfig.t;
  user_access : UserAccessConfig.t;
  registration : RegistrationConfig.t;
  webauthn : WebauthnConfig.t;
  outbound_proxy : OutboundProxyConfig.t;
  upstream_tls : UpstreamTlsConfig.t;
  forward_client_authorization : bool;
  upstream_auth : list (string * UpstreamAuth.t);
}.

Definition default : t := {|
  database_path := default_database_path;
  listen_addr := default_listen_addr;
  management := ManagementConfig.default;
  metrics := MetricsConfig.default;
  public_base_url := "";
  site := SiteConfig.default;
  trusted_proxies := default_trusted_proxies;
  enabled_proxies := default_enabled_proxies;
  upstreams := Upstreams.default;
  oci_token_issuers := default_oci_token_issuers;
  timeout := TimeoutConfig.default;
  upstream_selection := UpstreamSelectionConfig.default;
  rate_limit := RateLimitConfig.default;
  cache := CacheConfig.default;
  geoip := GeoIpConfig.default;
  acme := AcmeConfig.default;
  quota := QuotaConfig.default;
  download := DownloadConfig.default;
  alerts := AlertConfig.default;
  user_access := UserAccessConfig.default;
  registration := RegistrationConfig.default;
  webauthn := WebauthnConfig.default;
  outbound_proxy := OutboundProxyConfig.default;
  upstream_tls := UpstreamTlsConfig.default;
  forward_client_authorization := false;
  upstream_auth := [];
|}.

(** Samples: the default configuration with other quota and access settings. *)
Definition sample (q : QuotaConfig.t) (access : UserAccessConfig.t) : t := {|
  database_path := default_database_path;
  listen_addr := default_listen_addr;
  management := ManagementConfig.default;
  metrics := MetricsConfig.default;
  public_base_url := "";
  site := SiteConfig.default;
  trusted_proxies := default_trusted_proxies;
  enabled_proxies := default_enabled_proxies;
  upstreams := Upstreams.default;
  oci_token_issuers := default_oci_token_issuers;
  timeout := TimeoutConfig.default;
  upstream_selection := UpstreamSelectionConfig.default;
  rate_limit := RateLimitConfig.default;
  cache := CacheConfig.default;
  geoip := GeoIpConfig.default;
  acme := AcmeConfig.default;
  quota := q;
  download := DownloadConfig.default;
  alerts := AlertConfig.default;
  user_access := access;
  registration := RegistrationConfig.default;
  webauthn := WebauthnConfig.default;
  outbound_proxy := OutboundProxyConfig.default;
  upstream_tls := UpstreamTlsConfig.default;
  forward_client_authorization := false;
  upstream_auth := [];
|}.

End Config.

