(* ===== verification/Upstreams.v ===== *)
(** * Upstream groups

    [crates/server/src/config.rs]: the configured groups, credentials and
    candidates of a request; [proxy/mod.rs]: choosing an endpoint, checking a
    path and building the upstream URL, the adapters' error type. *)
From S2P Require Import Prelude RustStr Url Systems Config.
Open Scope string_scope.
Open Scope list_scope.
Open Scope mirror_scope.

(** ** Errors of the proxy *)

Inductive ProxyError : Type :=
| Disabled (name : string)
| CacheWorker
| InvalidUrl
| UnsupportedTarget
| MethodNotAllowed
| Upstream
| InvalidHeader
| UnsafeRedirect.

#[global] Instance ProxyError_eq_dec : EqDecision ProxyError.
Proof. solve_decision. Defined.

Definition status_code (self : ProxyError) : Z :=
  match self with
  | Disabled _ => 404
  | InvalidUrl | UnsupportedTarget | InvalidHeader => 400
  | UnsafeRedirect => 502
  | CacheWorker => 500
  | MethodNotAllowed => 405
  | Upstream => 502
  end.

(** ** Groups *)

(** [parse_url_list]. *)
Definition parse_url_list (value : string) : list string :=
  filter (fun item => negb (str_is_empty item) = true) (str_trim <$> str_split "," value).

(** [select_upstream]: the first non-empty endpoint of a group. *)
Definition select_upstream (configured : string) : result string ProxyError :=
  result_of_option (find_first (fun e => negb (str_is_empty e)) (str_trim <$> str_split "," configured)) InvalidUrl.

(** [Config::upstream_groups]. *)
Definition upstream_groups (u : Upstreams.t) : list string :=
  [Upstreams.maven u;
   Upstreams.github u;
   Upstreams.github_raw u;
   Upstreams.packagist u;
   Upstreams.docker_hub u;
   Upstreams.ghcr u;
   Upstreams.quay u;
   Upstreams.kubernetes u;
   Upstreams.gcr u;
   Upstreams.mcr u;
   Upstreams.elastic u;
   Upstreams.gitlab u;
   Upstreams.nvcr u;
   Upstreams.oracle u;
   Upstreams.npm u;
   Upstreams.nvm u;
   Upstreams.opam u;
   Upstreams.go_proxy u;
   Upstreams.rubygems u;
   Upstreams.rustup u;
   Upstreams.nuget u;
   Upstreams.cpan u;
   Upstreams.cran u;
   Upstreams.hackage u;
   Upstreams.julia u;
   Upstreams.luarocks u;
   Upstreams.clojars u;
   Upstreams.cocoapods u;
   Upstreams.pub_repository u;
   Upstreams.anaconda u;
   Upstreams.texlive u;
   Upstreams.winget u;
   Upstreams.huggingface u;
   Upstreams.elpa u;
   Upstreams.nix u;
   Upstreams.guix u;
   Upstreams.flatpak u;
   Upstreams.homebrew u;
   Upstreams.alpine u;
   Upstreams.openwrt u;
   Upstreams.termux u;
   Upstreams.debian u;
   Upstreams.ubuntu u;
   Upstreams.fedora u;
   Upstreams.archlinux u;
   Upstreams.opensuse u;
   Upstreams.void u;
   Upstreams.gentoo u;
   Upstreams.freebsd u;
   Upstreams.crates_index u;
   Upstreams.crates_api u;
   Upstreams.pypi_simple u;
   Upstreams.pypi_files u]
  ++ (snd <$> Upstreams.additional_os u).

(** [Config::upstream_url]. *)
Definition upstream_url (u : Upstreams.t) (name : string) : option string :=
  if name =? "github" then Some (Upstreams.github u)
  else if name =? "github_raw" then Some (Upstreams.github_raw u)
  else if name =? "packagist" then Some (Upstreams.packagist u)
  else if name =? "docker_hub" then Some (Upstreams.docker_hub u)
  else if name =? "ghcr" then Some (Upstreams.ghcr u)
  else if name =? "quay" then Some (Upstreams.quay u)
  else if name =? "kubernetes" then Some (Upstreams.kubernetes u)
  else if name =? "gcr" then Some (Upstreams.gcr u)
  else if name =? "mcr" then Some (Upstreams.mcr u)
  else if name =? "elastic" then Some (Upstreams.elastic u)
  else if name =? "npm" then Some (Upstreams.npm u)
  else if name =? "nvm" then Some (Upstreams.nvm u)
  else if name =? "opam" then Some (Upstreams.opam u)
  else if name =? "go_proxy" then Some (Upstreams.go_proxy u)
  else if name =? "maven" then Some (Upstreams.maven u)
  else if name =? "rubygems" then Some (Upstreams.rubygems u)
  else if name =? "rustup" then Some (Upstreams.rustup u)
  else if name =? "nuget" then Some (Upstreams.nuget u)
  else if name =? "cpan" then Some (Upstreams.cpan u)
  else if name =? "cran" then Some (Upstreams.cran u)
  else if name =? "hackage" then Some (Upstreams.hackage u)
  else if name =? "julia" then Some (Upstreams.julia u)
  else if name =? "luarocks" then Some (Upstreams.luarocks u)
  else if name =? "clojars" then Some (Upstreams.clojars u)
  else if name =? "cocoapods" then Some (Upstreams.cocoapods u)
  else if name =? "pub_repository" then Some (Upstreams.pub_repository u)
  else if name =? "anaconda" then Some (Upstreams.anaconda u)
  else if name =? "texlive" then Some (Upstreams.texlive u)
  else if name =? "winget" then Some (Upstreams.winget u)
  else if name =? "huggingface" then Some (Upstreams.huggingface u)
  else if name =? "elpa" then Some (Upstreams.elpa u)
  else if name =? "nix" then Some (Upstreams.nix u)
  else if name =? "guix" then Some (Upstreams.guix u)
  else if name =? "flatpak" then Some (Upstreams.flatpak u)
  else if name =? "homebrew" then Some (Upstreams.homebrew u)
  else if name =? "alpine" then Some (Upstreams.alpine u)
  else if name =? "openwrt" then Some (Upstreams.openwrt u)
  else if name =? "termux" then Some (Upstreams.termux u)
  else if name =? "debian" then Some (Upstreams.debian u)
  else if name =? "ubuntu" then Some (Upstreams.ubuntu u)
  else if name =? "fedora" then Some (Upstreams.fedora u)
  else if name =? "archlinux" then Some (Upstreams.archlinux u)
  else if name =? "opensuse" then Some (Upstreams.opensuse u)
  else if name =? "void" then Some (Upstreams.void u)
  else if name =? "gentoo" then Some (Upstreams.gentoo u)
  else if name =? "freebsd" then Some (Upstreams.freebsd u)
  else if name =? "crates_index" then Some (Upstreams.crates_index u)
  else if name =? "crates_api" then Some (Upstreams.crates_api u)
  else if name =? "pypi_simple" then Some (Upstreams.pypi_simple u)
  else if name =? "pypi_files" then Some (Upstreams.pypi_files u)
  else None.

(** [Upstreams::upgrade_legacy_defaults]. *)
Definition upgrade_additional_os (m : list (string * string)) : list (string * string) :=
  fold_left (fun m code =>
    match system_repository code with
    | Some repository => btree_or_insert code (r_upstream repository) m
    | None => m (* .expect: the built-in repository exists *)
    end) ["epel"; "epel-next"; "epel-archive"; "alma-vault"; "docker-ce"] m.

Definition upgrade_fedora (fedora : string) : string :=
  if trim_end_matches "/" fedora =? "https://mirrors.xmission.com/fedora/linux"
  then default_fedora_repository else fedora.

Section Urls.
Context `{UrlApi}.

(** [Config::upstream_auth_for]: the credentials of the first name, in key
    order, one of whose endpoints has the origin of the URL. *)
Definition upstream_auth_for (u : Upstreams.t) (auths : list (string * UpstreamAuth.t)) (url : Url) :
    option UpstreamAuth.t :=
  find_map (fun '(name, auth) =>
    match upstream_url u name with
    | None => None
    | Some upstream =>
        if existsb (fun configured => same_origin configured url)
             (omap url_parse (str_trim <$> str_split "," upstream))
        then Some auth else None
    end) auths.

Definition upstream_path_suffix (primary requested : Url) : option string :=
  if negb (same_origin primary requested) then None
  else
    let base_path := trim_end_matches "/" (url_path primary) in
    match strip_prefix base_path (url_path requested) with
    | Some suffix => if str_is_empty suffix || starts_with "/" suffix then Some suffix else None
    | None => None
    end.

(** One endpoint of a group with the path and query of the request. *)
Definition rebase (requested : Url) (suffix : string) (candidate : Url) : Url :=
  let base_path := trim_end_matches "/" (url_path candidate) in
  url_set_query (url_query requested) (url_set_path (base_path +:+ suffix) candidate).

(** The closure [consider]. *)
Definition consider (requested : Url) (best_match : option (Z * list Url)) (configured : string) :
    option (Z * list Url) :=
  let endpoints := parse_url_list configured in
  match head endpoints ≫= url_parse with
  | None => best_match
  | Some primary =>
      match upstream_path_suffix primary requested with
      | None => best_match
      | Some suffix =>
          let candidates := rebase requested suffix <$> omap url_parse endpoints in
          let specificity := str_len (url_path primary) in
          if match best_match with
             | None => true
             | Some (current, _) => (current <? specificity)%Z
             end
          then Some (specificity, candidates) else best_match
      end
  end.

Definition upstream_candidates_for (u : Upstreams.t) (requested : Url) : list Url :=
  match fold_left (consider requested) (upstream_groups u) None with
  | Some (_, c :: candidates) => c :: candidates
  | _ => [requested]
  end.

(** ** Building upstream URLs *)

(** The segments no repository path may have. *)
Definition unsafe_segment (part : string) : bool :=
  str_is_empty part || (part =? ".") || (part =? "..") || contains_char zero part.

Definition sanitize_repository_path (path : string) : result string ProxyError :=
  let path := trim_start_matches "/" path in
  if str_is_empty path || contains_char "\" path || existsb unsafe_segment (str_split "/" path)
  then Err InvalidUrl else Ok path.

Definition parse_base (base : string) : result Url ProxyError :=
  let? endpoint := select_upstream base in
  result_of_option (url_parse endpoint) InvalidUrl.

Definition repository_url (base path : string) (query : option string) : result Url ProxyError :=
  let? url := parse_base base in
  let base_path := trim_end_matches "/" (url_path url) in
  Ok (url_set_query query (url_set_path (base_path +:+ "/" +:+ path) url)).

Definition build_url (base path : string) (query : option string) : result Url ProxyError :=
  let? url := parse_base base in
  Ok (url_set_query query (url_set_path path url)).

Definition proxied_absolute_url (public_base_url absolute : string) : string :=
  trim_end_matches "/" public_base_url +:+ "/" +:+ absolute.
End Urls.

(** ** Lemmas *)

Section Lemmas.
Context `{UrlLaws}.

Lemma upstream_path_suffix_Some (primary requested : Url) (suffix : string) :
  upstream_path_suffix primary requested = Some suffix ->
  same_origin primary requested = true /\
  url_path requested = trim_end_matches "/" (url_path primary) +:+ suffix.
Proof.
  unfold upstream_path_suffix. destruct (same_origin primary requested); simpl; [|done].
  destruct (strip_prefix _ _) as [s|] eqn:Hs; [|done]. case_bool; [|done]. intros [= <-].
  split; [done|]. by apply strip_prefix_Some.
Qed.

(** A group matches a request when its first endpoint has its origin and a
    prefix of its path. *)
Definition group_match (requested : Url) (configured : string) : option (Url * string) :=
  match head (parse_url_list configured) ≫= url_parse with
  | Some primary => pair primary <$> upstream_path_suffix primary requested
  | None => None
  end.

Lemma consider_eq (requested : Url) (best : option (Z * list Url)) (g : string) :
  consider requested best g =
  match group_match requested g with
  | None => best
  | Some (p, s) =>
      if match best with None => true | Some (n, _) => (n <? str_len (url_path p))%Z end
      then Some (str_len (url_path p), rebase requested s <$> omap url_parse (parse_url_list g))
      else best
  end.
Proof.
  unfold consider, group_match. destruct (head (parse_url_list g) ≫= url_parse); [|done].
  by destruct (upstream_path_suffix _ _).
Qed.

(** The best match over a list of groups: the first of the longest primary paths. *)
Definition best_of (requested : Url) (groups : list string) (best : option (Z * list Url)) : Prop :=
  match best with
  | None => forall g, g ∈ groups -> group_match requested g = None
  | Some (n, candidates) =>
      exists g p s, g ∈ groups /\ group_match requested g = Some (p, s) /\ n = str_len (url_path p) /\
        candidates = rebase requested s <$> omap url_parse (parse_url_list g) /\
        forall g' p' s', g' ∈ groups -> group_match requested g' = Some (p', s') ->
          (str_len (url_path p') <= n)%Z
  end.

Lemma consider_best (requested : Url) (groups : list string) (best : option (Z * list Url)) (g : string) :
  best_of requested groups best -> best_of requested (groups ++ [g]) (consider requested best g).
Proof.
  intros Hb. rewrite consider_eq.
  assert (Hsplit : forall g', g' ∈ groups ++ [g] -> g' ∈ groups \/ g' = g)
    by (intros g' [?|?%list_elem_of_singleton]%elem_of_app; auto).
  assert (Hl : forall g', g' ∈ groups -> g' ∈ groups ++ [g]) by (intros; by apply elem_of_app; left).
  assert (Hr : g ∈ groups ++ [g]) by (apply elem_of_app; right; by left).
  destruct (group_match requested g) as [[p s]|] eqn:Hg.
  - destruct best as [[n c]|]; simpl in Hb.
    + destruct Hb as (g0 & p0 & s0 & Hin & Hm & Hn & Hc & Hmax). destruct (Z.ltb_spec n (str_len (url_path p))).
      * exists g, p, s. split_and!; try done. intros g' p' s' [Hg'| ->]%Hsplit Hm'; [|simplify_eq; lia].
        specialize (Hmax _ _ _ Hg' Hm'). lia.
      * exists g0, p0, s0. split_and!; auto. intros g' p' s' [Hg'| ->]%Hsplit Hm'; [by eapply Hmax|simplify_eq; lia].
    + exists g, p, s. split_and!; try done. intros g' p' s' [Hg'| ->]%Hsplit Hm'; [|simplify_eq; lia].
      by rewrite Hb in Hm'.
  - destruct best as [[n c]|]; simpl in *.
    + destruct Hb as (g0 & p0 & s0 & Hin & Hm & Hn & Hc & Hmax). exists g0, p0, s0. split_and!; auto.
      intros g' p' s' [Hg'| ->]%Hsplit Hm'; [by eapply Hmax|congruence].
    + intros g' [Hg'| ->]%Hsplit; [by apply Hb|done].
Qed.

Lemma fold_consider_best (requested : Url) (groups done : list string) (best : option (Z * list Url)) :
  best_of requested done best ->
  best_of requested (done ++ groups) (fold_left (consider requested) groups best).
Proof.
  revert done best. induction groups as [|g groups IH]; intros done best Hb; simpl; [by rewrite app_nil_r|].
  replace (done ++ g :: groups) with ((done ++ [g]) ++ groups) by (by rewrite <- app_assoc).
  by apply IH, consider_best.
Qed.

(** The primary endpoint rebased is the request itself, up to its credentials. *)
Lemma rebase_primary (requested primary : Url) (suffix : string) :
  web requested -> upstream_path_suffix primary requested = Some suffix ->
  same_origin (rebase requested suffix primary) requested = true /\
  url_path (rebase requested suffix primary) = url_path requested /\
  url_query (rebase requested suffix primary) = url_query requested.
Proof.
  intros Hh [Hso Hp]%upstream_path_suffix_Some. apply same_origin_iff in Hso as (Hs & Hho & Hpo).
  unfold rebase. split_and!.
  - apply same_origin_iff. autorewrite with url. done.
  - rewrite url_path_set_query, <- Hp. apply url_path_set_path; [rewrite Hho; by apply url_web_host|by apply url_path_normal].
  - by apply url_query_set_query.
Qed.

Lemma rebase_origin (requested candidate : Url) (suffix : string) :
  same_origin (rebase requested suffix candidate) candidate = true.
Proof. unfold rebase. apply same_origin_iff. by autorewrite with url. Qed.

(** The candidates of a request: itself, or the best matching group rebased. *)
Lemma candidates_cases (u : Upstreams.t) (requested : Url) :
  ((forall g, g ∈ upstream_groups u -> group_match requested g = None) /\
   upstream_candidates_for u requested = [requested]) \/
  exists g primary suffix rest,
    g ∈ upstream_groups u /\ group_match requested g = Some (primary, suffix) /\
    omap url_parse (parse_url_list g) = primary :: rest /\
    upstream_candidates_for u requested = rebase requested suffix <$> primary :: rest /\
    forall g' p' s', g' ∈ upstream_groups u -> group_match requested g' = Some (p', s') ->
      (str_len (url_path p') <= str_len (url_path primary))%Z.
Proof.
  unfold upstream_candidates_for. generalize (upstream_groups u). intros groups.
  pose proof (fold_consider_best requested groups [] None) as Hb. simpl in Hb.
  specialize (Hb ltac:(by intros g ?%elem_of_nil)).
  destruct (fold_left _ _ _) as [[n c]|]; [right|left; done].
  destruct Hb as (g & p & s & Hin & Hm & -> & -> & Hmax). exists g, p, s. unfold group_match in Hm.
  destruct (parse_url_list g) as [|e es] eqn:Hg; simpl in Hm; [done|].
  destruct (url_parse e) as [p0|] eqn:He; simpl in Hm; [|done].
  apply fmap_Some in Hm as (s0 & Hs & Hps). simplify_eq. eexists. split_and!; [done| | | |done].
  - unfold group_match. rewrite Hg. simpl. rewrite He. simpl. by rewrite Hs.
  - simpl. by rewrite He.
  - simpl. by rewrite He.
Qed.
End Lemmas.

Section Confinement.

Lemma no_dot_segment_concat (a b : string) :
  no_dot_segment (a +:+ String "/" b) = no_dot_segment a && no_dot_segment b.
Proof. unfold no_dot_segment. by rewrite str_split_concat, forallb_app. Qed.

Lemma no_dot_segment_slashes (n : nat) : no_dot_segment (str_repeat "/" n) = true.
Proof. induction n as [|n IH]; [done|]. cbn [str_repeat].
  change (String "/" (str_repeat "/" n)) with ("" +:+ String "/" (str_repeat "/" n)).
  by rewrite no_dot_segment_concat, IH.
Qed.

(** Trailing slashes add no segment but empty ones. *)
Lemma no_dot_segment_trim (s : string) : no_dot_segment (trim_end_matches "/" s) = no_dot_segment s.
Proof.
  destruct (trim_end_matches_decomp "/" s) as [[|n] Hs].
  - simpl in Hs. rewrite str_app_nil_r in Hs. by rewrite <- Hs.
  - rewrite Hs at 2. simpl str_repeat. rewrite no_dot_segment_concat, no_dot_segment_slashes.
    by rewrite andb_true_r.
Qed.

Lemma path_chars_trim (keep : ascii -> bool) (s : string) :
  all_bytes keep s = true -> all_bytes keep (trim_end_matches "/" s) = true.
Proof.
  destruct (trim_end_matches_decomp "/" s) as [n Hs]. rewrite Hs at 1. rewrite all_bytes_app.
  by intros [? _]%andb_true_iff.
Qed.

(** A segment without percent signs that is not [.] or [..] is not resolved. *)
Lemma plain_segment (s : string) :
  contains_char "%" s = false -> unsafe_segment s = false -> is_dot s || is_dot_dot s = false.
Proof.
  unfold unsafe_segment, is_dot, is_dot_dot. intros Hp. rewrite !orb_false_iff. intros [[[_ H1] H2] _].
  apply String.eqb_neq in H1, H2. simpl.
  repeat match goal with
  | |- context [(s =? ?t)%string] => destruct (String.eqb_spec s t) as [Heq|]; [subst s; done|]
  end. done.
Qed.

Lemma sanitize_segments (path p : string) :
  sanitize_repository_path path = Ok p ->
  str_is_empty p = false /\ contains_char "\" p = false /\
  Forall (fun part => unsafe_segment part = false) (str_split "/" p) /\
  p = trim_start_matches "/" path.
Proof.
  unfold sanitize_repository_path. case_bool; [done|]. intros [= <-].
  apply orb_false_iff in Heqb as [[? ?]%orb_false_iff ?]. by rewrite <- existsb_false_Forall.
Qed.

Lemma plain_path_no_dots (p : string) :
  contains_char "%" p = false -> Forall (fun part => unsafe_segment part = false) (str_split "/" p) ->
  no_dot_segment p = true.
Proof.
  intros Hp Hs. unfold no_dot_segment. apply forallb_true_Forall.
  assert (Hq : Forall (fun t => all_bytes (fun c => negb (Ascii.eqb c "%")) t = true) (str_split "/" p)).
  { apply all_bytes_split. clear Hs. induction p as [|c p IH]; [done|]. simpl in *.
    apply orb_false_iff in Hp as [-> Hp]. simpl. by apply IH. }
  rewrite Forall_forall in *. intros s Hin. apply negb_true_iff, plain_segment; [|by apply Hs].
  eapply (all_bytes_no_char (fun c => negb (Ascii.eqb c "%"))); [done|]. by apply Hq.
Qed.

Lemma keeps_plain `{UrlLaws} (p : string) : all_bytes is_path_char p = true -> all_bytes url_path_keeps p = true.
Proof. apply all_bytes_impl. intros c. apply url_path_keeps_plain. Qed.

(** The path of a repository URL, when it is normal. *)
Lemma normal_base_path `{UrlLaws} (b : Url) (p : string) :
  web b -> all_bytes url_path_keeps p = true -> no_dot_segment p = true ->
  normal_path url_path_keeps (trim_end_matches "/" (url_path b) +:+ "/" +:+ p) = true.
Proof.
  intros Hh Hc Hd. pose proof (url_path_normal b Hh) as Hn. unfold normal_path in *. bool_to_prop.
  change ("/" +:+ p) with (String "/" p).
  rewrite no_dot_segment_concat, no_dot_segment_trim, Hd, all_bytes_app, path_chars_trim by done.
  simpl. rewrite Hc, (url_path_keeps_plain "/" eq_refl). rewrite H2. rewrite !andb_true_r.
  apply starts_with_spec in H1 as [t ->]. simpl. by destruct (trim_end_matches "/" t).
Qed.

Lemma plain_path_normal `{UrlLaws} (p : string) :
  all_bytes is_path_char p = true -> contains_char "%" p = false ->
  Forall (fun part => unsafe_segment part = false) (str_split "/" p) ->
  normal_path url_path_keeps ("/" +:+ p) = true.
Proof.
  intros Hc Hp Hs. pose proof (plain_path_no_dots p Hp Hs) as Hd. unfold normal_path.
  change ("/" +:+ p) with ("" +:+ String "/" p). rewrite no_dot_segment_concat, Hd. simpl.
  by rewrite (keeps_plain p Hc), (url_path_keeps_plain "/" eq_refl).
Qed.
End Confinement.

(** ** Properties *)

(** The candidates of a request. With no group of the request's origin and
    path the request goes out unchanged; otherwise the candidates are the
    endpoints of the group with the longest matching base path, in their
    configured order, and the first of them is the request itself. *)
Theorem upstream_candidates_spec `{UrlLaws} (u : Upstreams.t) (requested : Url) :
  web requested ->
  ((forall g, g ∈ upstream_groups u -> group_match requested g = None) /\
   upstream_candidates_for u requested = [requested]) \/
  exists g primary suffix first rest,
    g ∈ upstream_groups u /\ group_match requested g = Some (primary, suffix) /\
    upstream_candidates_for u requested = first :: (rebase requested suffix <$> rest) /\
    omap url_parse (parse_url_list g) = primary :: rest /\
    same_origin first requested = true /\ url_path first = url_path requested /\
    url_query first = url_query requested /\
    (forall g' p' s', g' ∈ upstream_groups u -> group_match requested g' = Some (p', s') ->
       (str_len (url_path p') <= str_len (url_path primary))%Z).
Proof.
  intros Hh. destruct (candidates_cases u requested) as [?|(g & p & s & rest & Hin & Hm & Hp & Hc & Hmax)];
    [by left|right].
  assert (Hs : upstream_path_suffix p requested = Some s).
  { unfold group_match in Hm. destruct (head _ ≫= url_parse); [|done].
    by apply fmap_Some in Hm as (? & ? & [= -> ->]). }
  destruct (rebase_primary requested p s Hh Hs) as (H1 & H2 & H3).
  exists g, p, s, (rebase requested s p), rest. by split_and!.
Qed.

Definition sample_upstreams : Upstreams.t := Upstreams.default.

Lemma upstream_candidates_spec_witness :
  exists requested : simple_url, url_parse "https://registry.npmjs.org/left-pad?x=1" = Some requested /\
  length (upstream_candidates_for sample_upstreams requested) = 1%nat.
Proof.
  eexists. split; [vm_compute; reflexivity|].
  match goal with |- length (upstream_candidates_for _ ?r) = _ =>
    destruct (@upstream_candidates_spec SimpleUrlApi SimpleUrl_laws sample_upstreams r)
      as [[_ H]|(g & p & s & f & rest & Hin & Hm & Hc & _)]; [by right| |] end.
  - rewrite H. reflexivity.
  - vm_compute. reflexivity.
Defined.

(** Credentials stay with their upstream: the credentials attached to a
    request belong to a configured upstream one of whose endpoints has the
    request's scheme, host and port. *)
Theorem upstream_auth_confined `{UrlApi} (u : Upstreams.t) (auths : list (string * UpstreamAuth.t))
    (url : Url) (auth : UpstreamAuth.t) :
  upstream_auth_for u auths url = Some auth ->
  exists name upstream endpoint configured,
    (name, auth) ∈ auths /\ upstream_url u name = Some upstream /\
    endpoint ∈ str_trim <$> str_split "," upstream /\ url_parse endpoint = Some configured /\
    same_origin configured url = true.
Proof.
  unfold upstream_auth_for. intros (pre & [name a] & post & -> & Hf & _)%find_map_Some.
  destruct (upstream_url u name) as [upstream|] eqn:Hu; [|done]. case_bool; [|done]. injection Hf as ->.
  apply existsb_true_Exists, Exists_exists in Heqb as (c & Hin & Hc).
  apply list_elem_of_omap in Hin as (e & He & Hp).
  exists name, upstream, e, c. split_and!; try done. apply elem_of_app. right. by left.
Qed.

Definition sample_auth : UpstreamAuth.t :=
  {| UpstreamAuth.username := None; UpstreamAuth.password := None; UpstreamAuth.bearer_token := Some "t" |}.

Lemma upstream_auth_confined_witness :
  exists url : simple_url, url_parse "https://registry.npmjs.org/left-pad" = Some url /\
  exists name upstream endpoint configured,
    (name, sample_auth) ∈ [("npm", sample_auth)] /\ upstream_url sample_upstreams name = Some upstream /\
    endpoint ∈ str_trim <$> str_split "," upstream /\ url_parse endpoint = Some configured /\
    same_origin configured url = true.
Proof.
  eexists. split; [vm_compute; reflexivity|].
  apply (@upstream_auth_confined SimpleUrlApi sample_upstreams [("npm", sample_auth)]).
  vm_compute. reflexivity.
Defined.

(** A repository path that passes the check stays under the configured
    repository: for a path of URL characters without percent signs, the
    upstream URL has the endpoint's origin and exactly the path below the
    endpoint's base path. *)
Lemma repository_url_confined `{UrlLaws} (configured endpoint path p : string) (base : Url)
    (query : option string) :
  select_upstream configured = Ok endpoint -> url_parse endpoint = Some base ->
  web base ->
  sanitize_repository_path path = Ok p ->
  all_bytes is_path_char p = true -> contains_char "%" p = false ->
  exists url, repository_url configured p query = Ok url /\
    same_origin url base = true /\ url_path url = trim_end_matches "/" (url_path base) +:+ "/" +:+ p.
Proof.
  intros He Hb Hh (_ & _ & Hs & _)%sanitize_segments Hc Hp.
  unfold repository_url, parse_base. rewrite He. simpl. rewrite Hb. simpl. eexists. split; [done|]. split.
  - apply same_origin_iff. by autorewrite with url.
  - rewrite url_path_set_query. apply url_path_set_path; [by apply url_web_host|].
    apply normal_base_path; [done|by apply keeps_plain|]. by apply plain_path_no_dots.
Qed.

Lemma repository_url_confined_witness :
  exists base url : simple_url, url_parse "https://cloud.example/repo/" = Some base /\
    repository_url "https://cloud.example/repo/, https://b.example" "src/contrib/PACKAGES" None = Ok url /\
    url_path url = "/repo/src/contrib/PACKAGES".
Proof.
  exists (SimpleUrl "https" "" None "cloud.example" None "/repo/" None None).
  destruct (@repository_url_confined SimpleUrlApi SimpleUrl_laws
    "https://cloud.example/repo/, https://b.example" "https://cloud.example/repo/" "//src/contrib/PACKAGES"
    "src/contrib/PACKAGES" (SimpleUrl "https" "" None "cloud.example" None "/repo/" None None) None
    ltac:(vm_compute; reflexivity) ltac:(vm_compute; reflexivity) ltac:(by right)
    ltac:(vm_compute; reflexivity) ltac:(vm_compute; reflexivity) ltac:(vm_compute; reflexivity))
    as (url & H1 & _ & H3).
  exists url. split; [vm_compute; reflexivity|]. split; [exact H1|exact H3].
Defined.

(** The check looks at the decoded segments only: percent-encoded dots pass
    it, and the URL parser resolves them above the base path. *)
Lemma encoded_dots_escape :
  exists url : simple_url,
    sanitize_repository_path "%2e%2e/%2e%2e/private" = Ok "%2e%2e/%2e%2e/private" /\
    repository_url "https://mirror.example/public/repo" "%2e%2e/%2e%2e/private" None = Ok url /\
    url_path url = "/private".
Proof.
  exists (SimpleUrl "https" "" None "mirror.example" None "/private" None None).
  split_and!; vm_compute; reflexivity.
Qed.

(** The registries without credentials: three upstream groups have no name
    in [upstream_url]. *)
Lemma registries_without_credentials :
  omap (upstream_url sample_upstreams) ["gitlab"; "nvcr"; "oracle"] = [] /\
  default_gitlab_registry ∈ upstream_groups sample_upstreams.
Proof. split; [vm_compute; reflexivity|]. apply list_elem_of_In. vm_compute. tauto. Qed.
