(* ===== verification/ConfigCheck.v ===== *)
(** * Configuration checks

    [crates/server/src/config.rs]: [Config::validate] with the checks of each
    section, in the order the code makes them; [parse_env_bool];
    [crates/server/src/download.rs]: [DownloadConfig::validate]. *)
From S2P Require Import Prelude RustStr Net TrustedProxy Url Systems Config Upstreams.
Open Scope Z_scope.
Open Scope string_scope.
Open Scope list_scope.
Open Scope mirror_scope.

(** ** Sequences of checks *)

Definition check : Type := result unit string.

(** [if cond { bail!(message) }]. *)
Definition bail_if (cond : bool) (message : string) : check := if cond then Err message else Ok tt.

(** The first check that fails decides. *)
Fixpoint run_checks (l : list check) : check :=
  match l with
  | [] => Ok tt
  | Ok _ :: rest => run_checks rest
  | Err e :: _ => Err e
  end.

Lemma run_checks_ok (l : list check) : run_checks l = Ok tt <-> Forall (fun c => c = Ok tt) l.
Proof.
  induction l as [|[[]|e] l IH]; simpl; [done| |].
  - rewrite IH, Forall_cons. tauto.
  - split; [done|]. by inversion 1.
Qed.

Lemma run_checks_app (a b : list check) :
  run_checks (a ++ b) = match run_checks a with Ok _ => run_checks b | Err e => Err e end.
Proof. induction a as [|[[]|e] a IH]; simpl; done. Qed.

Lemma bail_if_ok (cond : bool) (message : string) : bail_if cond message = Ok tt <-> cond = false.
Proof. by destruct cond. Qed.

(** [(lo..=hi).contains(&x)]. *)
Definition within (lo hi x : Z) : bool := (lo <=? x)%Z && (x <=? hi)%Z.

Definition starts_with_char (c : ascii) (s : string) : bool :=
  match s with String a _ => Ascii.eqb a c | EmptyString => false end.

Definition ends_with_char (c : ascii) (s : string) : bool := starts_with_char c (String.rev s).

Definition is_blank (s : string) : bool := str_is_empty (str_trim s).

Definition is_none {A} (o : option A) : bool := match o with None => true | Some _ => false end.
Definition is_some {A} (o : option A) : bool := negb (is_none o).

(** ** Fields *)

Definition valid_email_address (value : string) : bool :=
  (str_len value <=? 320)%Z && negb (has_whitespace value)
  && match split_once "@" value with
     | Some (local, domain) =>
         negb (str_is_empty local) && contains_char "." domain
         && negb (starts_with_char "." domain) && negb (ends_with_char "." domain)
     | None => false
     end.

Definition valid_acme_domain (value : string) : bool :=
  let domain := match strip_prefix "*." value with Some d => d | None => value end in
  negb (str_is_empty domain)
  && (domain =? to_ascii_lowercase domain)
  && negb (starts_with_char "." domain)
  && negb (ends_with_char "." domain)
  && contains_char "." domain
  && negb (contains_str ".." domain)
  && forallb (fun label =>
       negb (str_is_empty label) && negb (starts_with_char "-" label) && negb (ends_with_char "-" label)
       && all_bytes (fun c => is_ascii_alphanumeric c || Ascii.eqb c "-") label)
     (str_split "." domain).

Definition valid_dns_zone (value : string) : bool :=
  negb (starts_with "*." value) && valid_acme_domain value.

Definition normalize_acme_dns_provider (value : string) : string :=
  let value := to_ascii_lowercase (str_trim value) in
  if value =? "dns_cf" then "cloudflare"
  else if value =? "dns_ali" then "aliyun"
  else if (value =? "dns_tencent") || (value =? "dns_dp") then "tencent"
  else if value =? "dns_aws" then "route53"
  else value.

Definition preserve_blank (next current : string) : string := if is_blank next then current else next.

(** [parse_env_bool]; [None] is the error. *)
Definition parse_env_bool (value : string) : option bool :=
  let value := to_ascii_lowercase (str_trim value) in
  if existsb (String.eqb value) ["1"; "true"; "yes"; "on"] then Some true
  else if existsb (String.eqb value) ["0"; "false"; "no"; "off"] then Some false
  else None.

Section Checks.
Context `{UrlApi}.

Definition validate_https_origin (field value : string) : check :=
  match url_parse value with
  | None => Err (field +:+ " is invalid")
  | Some url =>
      bail_if (negb (url_scheme url =? "https") || is_none (url_host_str url)
               || negb (str_is_empty (url_username url)) || is_some (url_password url)
               || negb (url_path url =? "/") || is_some (url_query url) || is_some (url_fragment url))
        (field +:+ " must be an HTTPS origin without a path, query, credentials, or fragment")
  end.

Definition validate_http_endpoint (field endpoint : string) : check :=
  match url_parse endpoint with
  | None => Err (field +:+ " is invalid")
  | Some url =>
      run_checks
        [bail_if (negb ((url_scheme url =? "http") || (url_scheme url =? "https")))
           (field +:+ " must use http or https");
         bail_if (is_none (url_host_str url)) (field +:+ " must include a host")]
  end.

(** [{field}[{index}]]. *)
Definition indexed (field : string) (index : nat) : string :=
  field +:+ "[" +:+ show_uint (Z.of_nat index) +:+ "]".

Definition validate_http_url (field value : string) : check :=
  let endpoints := parse_url_list value in
  run_checks
    (bail_if (match endpoints with [] => true | _ => false end) (field +:+ " must contain at least one URL")
     :: imap (fun index => validate_http_endpoint (indexed field index)) endpoints).

(** ** Sections *)

Definition site_validate (self : SiteConfig.t) : check :=
  let icon := str_trim (SiteConfig.icon_url self) in
  run_checks
    [bail_if (negb (within 1 100 (char_count (str_trim (SiteConfig.title self)))))
       "site.title must contain 1 to 100 characters";
     bail_if (300 <? char_count (SiteConfig.description self))%Z "site.description cannot exceed 300 characters";
     bail_if (200 <? char_count (SiteConfig.footer_text self))%Z "site.footer_text cannot exceed 200 characters";
     bail_if ((20 <? Z.of_nat (length (SiteConfig.keywords self)))%Z
              || existsb (fun k => is_blank k || (50 <? char_count k)%Z) (SiteConfig.keywords self))
       "site.keywords accepts up to 20 non-empty values of 50 characters";
     bail_if (str_is_empty icon || (2048 <? str_len icon)%Z) "site.icon_url must contain 1 to 2048 characters";
     if starts_with_char "/" icon
     then bail_if (starts_with "//" icon || has_whitespace icon)
            "site.icon_url must be a root-relative path or HTTP(S) URL"
     else validate_http_url "site.icon_url" icon].

Definition is_dns_char (c : ascii) : bool :=
  is_lower c || is_digit c || Ascii.eqb c "." || Ascii.eqb c "-".

Definition registration_validate (self : RegistrationConfig.t) : check :=
  let mode := RegistrationConfig.mode self in
  let domains := RegistrationConfig.allowed_email_domains self in
  run_checks
    [bail_if (negb (existsb (String.eqb mode) ["invite_only"; "domain_allowlist"; "open"; "disabled"]))
       "registration.mode must be invite_only, domain_allowlist, open, or disabled";
     bail_if (negb (within 1 60 (RegistrationConfig.email_token_ttl_minutes self)))
       "registration.email_token_ttl_minutes must be between 1 and 60";
     bail_if (existsb (fun domain =>
         str_is_empty domain || starts_with_char "." domain || ends_with_char "." domain
         || contains_str ".." domain || contains_char "@" domain
         || existsb (fun label => str_is_empty label || starts_with_char "-" label || ends_with_char "-" label)
              (str_split "." domain)
         || negb (all_bytes is_dns_char domain)) domains)
       "registration.allowed_email_domains contains an invalid DNS domain";
     bail_if ((mode =? "domain_allowlist") && match domains with [] => true | _ => false end)
       "registration.allowed_email_domains is required for domain_allowlist mode"].

Definition user_access_validate (self : UserAccessConfig.t) (public_base_url : string) : check :=
  let mode := UserAccessConfig.mode self in
  let required := mode =? "subdomain_required" in
  let domain := str_trim (UserAccessConfig.base_domain self) in
  run_checks
    [bail_if (negb (mode =? "public") && negb required) "user_access.mode must be public or subdomain_required";
     bail_if (required && negb (UserAccessConfig.infrastructure_ready self))
       "user_access.infrastructure_ready must be true before enabling subdomain_required";
     bail_if (negb (within 8 32 (UserAccessConfig.routing_id_min_length self)))
       "user_access.routing_id_min_length must be between 8 and 32";
     bail_if (24 * 365 <? UserAccessConfig.routing_rotation_cooldown_hours self)%Z
       "user_access.routing_rotation_cooldown_hours cannot exceed 8760";
     if str_is_empty domain
     then bail_if required "user_access.base_domain is required for subdomain_required mode"
     else run_checks
       [bail_if (starts_with_char "." domain || ends_with_char "." domain || contains_str ".." domain
                 || contains_char "*" domain || is_some (parse_ip domain) || negb (all_bytes is_dns_char domain))
          "user_access.base_domain must be a lowercase concrete DNS domain";
        match url_parse public_base_url with
        | None => Err "public_base_url must be set when user_access.base_domain is configured"
        | Some public_url =>
            bail_if (negb (url_scheme public_url =? "https")
                     || negb (bool_decide (url_host_str public_url = Some domain)))
              "public_base_url must use HTTPS and exactly match user_access.base_domain"
        end]].

Definition outbound_proxy_validate (self : OutboundProxyConfig.t) : check :=
  if negb (OutboundProxyConfig.enabled self) then Ok tt
  else run_checks
    [bail_if (is_blank (OutboundProxyConfig.url self))
       "outbound_proxy.url cannot be empty when outbound_proxy is enabled";
     match url_parse (OutboundProxyConfig.url self) with
     | None => Err "outbound_proxy.url is invalid"
     | Some url =>
         run_checks
           [bail_if (negb (existsb (String.eqb (url_scheme url)) ["http"; "https"; "socks5"; "socks5h"]))
              "outbound_proxy.url must use http, https, socks5, or socks5h";
            bail_if (is_none (url_host_str url)) "outbound_proxy.url must include a host";
            bail_if (negb (str_is_empty (url_username url)) || is_some (url_password url))
              "outbound_proxy.url cannot contain credentials; use username and password fields"]
     end;
     match OutboundProxyConfig.username self, OutboundProxyConfig.password self with
     | None, None => Ok tt
     | Some username, Some password =>
         bail_if (is_blank username || str_is_empty password) "outbound_proxy credentials must be non-empty"
     | _, _ => Err "outbound_proxy credentials must be non-empty"
     end;
     bail_if (existsb is_blank (OutboundProxyConfig.no_proxy self))
       "outbound_proxy.no_proxy entries cannot be empty"].

Definition upstream_tls_validate (self : UpstreamTlsConfig.t) : check :=
  let paths := UpstreamTlsConfig.ca_certificates self in
  run_checks
    [bail_if (existsb is_blank paths) "upstream_tls.ca_certificates entries cannot be empty";
     bail_if (negb (bool_decide (NoDup paths))) "upstream_tls.ca_certificates contains a duplicate path"].

Definition webauthn_validate (self : WebauthnConfig.t) : check :=
  if negb (WebauthnConfig.enabled self)
  then bail_if (WebauthnConfig.require_passkey self) "webauthn.require_passkey requires webauthn.enabled"
  else
    let rp_id := str_trim (WebauthnConfig.rp_id self) in
    run_checks
      [bail_if (str_is_empty rp_id || starts_with_char "." rp_id || ends_with_char "." rp_id
                || contains_str ".." rp_id || contains_char "*" rp_id || is_some (parse_ip rp_id)
                || negb (all_bytes (fun c => is_ascii_alphanumeric c || Ascii.eqb c "." || Ascii.eqb c "-") rp_id))
         "webauthn.rp_id must be a concrete DNS domain";
       bail_if (is_blank (WebauthnConfig.rp_name self)) "webauthn.rp_name cannot be empty";
       bail_if (is_blank (WebauthnConfig.break_glass_username self))
         "webauthn.break_glass_username cannot be empty";
       match url_parse (WebauthnConfig.rp_origin self) with
       | None => Err "webauthn.rp_origin is invalid"
       | Some origin =>
           let origin_host := match url_host_str origin with Some h => h | None => "" end in
           run_checks
             [bail_if (negb (url_scheme origin =? "https") || is_none (url_host_str origin)
                       || negb (str_is_empty (url_username origin)) || is_some (url_password origin)
                       || negb (url_path origin =? "/") || is_some (url_query origin)
                       || is_some (url_fragment origin))
                "webauthn.rp_origin must be an HTTPS origin without a path, query, credentials, or fragment";
              bail_if (negb (origin_host =? rp_id) && negb (ends_with ("." +:+ rp_id) origin_host))
                "webauthn.rp_id must equal or be a registrable suffix of the RP origin host"]
       end].

(** The provider checks of the dns-01 challenge. *)
Definition acme_dns_validate (dns : AcmeDnsConfig.t) : check :=
  let provider := AcmeDnsConfig.provider dns in
  if provider =? "cloudflare" then
    let token := negb (is_blank (AcmeDnsConfig.cloudflare_api_token dns)) in
    let global_key := negb (is_blank (AcmeDnsConfig.cloudflare_api_key dns))
                      && negb (is_blank (AcmeDnsConfig.cloudflare_email dns)) in
    bail_if (is_blank (AcmeDnsConfig.cloudflare_zone_id dns) || (negb token && negb global_key))
      "Cloudflare DNS-01 requires a zone ID and either an API token or email/global API key"
  else if provider =? "aliyun" then
    bail_if (negb (valid_dns_zone (AcmeDnsConfig.aliyun_domain dns))
             || is_blank (AcmeDnsConfig.aliyun_access_key_id dns)
             || is_blank (AcmeDnsConfig.aliyun_access_key_secret dns))
      "Alibaba Cloud DNS-01 requires a managed domain, AccessKey ID, and AccessKey secret"
  else if provider =? "tencent" then
    bail_if (negb (valid_dns_zone (AcmeDnsConfig.tencent_domain dns))
             || is_blank (AcmeDnsConfig.tencent_secret_id dns)
             || is_blank (AcmeDnsConfig.tencent_secret_key dns))
      "Tencent DNSPod DNS-01 requires a managed domain, SecretId, and SecretKey"
  else if provider =? "route53" then
    bail_if (is_blank (AcmeDnsConfig.route53_hosted_zone_id dns)
             || is_blank (AcmeDnsConfig.route53_access_key_id dns)
             || is_blank (AcmeDnsConfig.route53_secret_access_key dns))
      "AWS Route53 DNS-01 requires a hosted zone ID, access key ID, and secret access key"
  else if provider =? "webhook" then validate_http_url "acme.dns.webhook_url" (AcmeDnsConfig.webhook_url dns)
  else Err "acme.dns.provider must be cloudflare, aliyun, tencent, route53, or webhook".

Definition acme_validate (self : AcmeConfig.t) : check :=
  if AcmeConfig.direct_https self && negb (AcmeConfig.enabled self)
  then Err "acme.direct_https requires ACME to be enabled"
  else if negb (AcmeConfig.enabled self) then Ok tt
  else
    let domains := AcmeConfig.domains self in
    run_checks
      [bail_if (is_blank (AcmeConfig.email self) || negb (contains_char "@" (AcmeConfig.email self)))
         "acme.email must contain a valid ACME contact email";
       bail_if (match domains with [] => true | _ => false end
                || existsb (fun d => negb (valid_acme_domain d)) domains)
         "acme.domains must contain valid lowercase DNS names";
       bail_if (is_blank (AcmeConfig.storage_directory self)) "acme.storage_directory cannot be empty";
       bail_if ((AcmeConfig.renew_before_days self =? 0)%Z || (AcmeConfig.check_interval_hours self =? 0)%Z)
         "ACME renewal intervals must be greater than zero";
       if AcmeConfig.direct_https self then
         match parse_socket_addr (AcmeConfig.http_listen_addr self) with
         | None => Err "acme.http_listen_addr must be a socket address"
         | Some http_addr =>
             match parse_socket_addr (AcmeConfig.https_listen_addr self) with
             | None => Err "acme.https_listen_addr must be a socket address"
             | Some https_addr =>
                 bail_if (bool_decide (http_addr = https_addr))
                   "ACME HTTP and HTTPS listen addresses must be different"
             end
         end
       else Ok tt;
       match url_parse (AcmeConfig.directory_url self) with
       | None => Err "acme.directory_url is invalid"
       | Some directory =>
           bail_if (negb (url_scheme directory =? "https") || is_none (url_host_str directory))
             "acme.directory_url must be an HTTPS URL"
       end;
       if AcmeConfig.challenge self =? "http-01" then
         bail_if (existsb (starts_with "*.") domains) "wildcard ACME domains require the dns-01 challenge"
       else if AcmeConfig.challenge self =? "dns-01" then acme_dns_validate (AcmeConfig.dns self)
       else Err "acme.challenge must be http-01 or dns-01"].

Definition download_validate (self : DownloadConfig.t) : check :=
  run_checks
    [bail_if (negb (within 1 (Z.shiftl 64 30) (DownloadConfig.max_file_bytes self)))
       "download.max_file_bytes must be 1 to 64 GiB";
     bail_if (negb (within 1 (I64_MAX / 2) (DownloadConfig.daily_user_bytes self)))
       "invalid download.daily_user_bytes";
     bail_if (negb (within 1 128 (DownloadConfig.max_concurrent self)
                    && within 1 (DownloadConfig.max_concurrent self) (DownloadConfig.max_user_concurrent self)))
       "invalid download concurrency limits";
     bail_if (negb (within 1 3600 (DownloadConfig.requests_per_minute self)))
       "invalid download.requests_per_minute";
     bail_if (negb (within 1 86400 (DownloadConfig.max_duration_secs self)))
       "invalid download.max_duration_secs";
     bail_if (negb (within 65536 (Z.shiftl 1 30) (DownloadConfig.bandwidth_bytes_per_sec self)))
       "download bandwidth must be 64 KiB/s to 1 GiB/s"].

(** ** [Config::validate], part by part *)

Definition listeners_validate (self : Config.t) : check :=
  match parse_socket_addr (Config.listen_addr self) with
  | None => Err "listen_addr must be a valid socket address"
  | Some public_listener =>
      if ManagementConfig.enabled (Config.management self) then
        match parse_socket_addr (ManagementConfig.listen_addr (Config.management self)) with
        | None => Err "management.listen_addr must be a valid socket address"
        | Some management_listener =>
            bail_if (bool_decide (management_listener = public_listener))
              "management.listen_addr must differ from listen_addr"
        end
      else Ok tt
  end.

Definition alerts_validate (a : AlertConfig.t) : check :=
  let no_webhook := is_blank (AlertConfig.webhook_url a) in
  let no_recipients := match AlertConfig.email_recipients a with [] => true | _ => false end in
  run_checks
    ([bail_if (negb (within 1 100 (AlertConfig.quota_percent a))) "alerts.quota_percent must be between 1 and 100";
      bail_if ((AlertConfig.source_failures a =? 0)%Z || (AlertConfig.cooldown_secs a =? 0)%Z)
        "alerts.source_failures and alerts.cooldown_secs must be greater than 0";
      bail_if (AlertConfig.enabled a && no_webhook && (negb (AlertConfig.email_enabled a) || no_recipients))
        "alerts require a webhook URL or enabled email recipients";
      if AlertConfig.enabled a && negb no_webhook
      then validate_http_url "alerts.webhook_url" (AlertConfig.webhook_url a) else Ok tt;
      bail_if (AlertConfig.email_enabled a && no_recipients)
        "alerts.email_recipients cannot be empty when email alerts are enabled"]
     ++ ((fun r => bail_if (negb (valid_email_address r)) ("invalid alert email recipient: " +:+ r))
           <$> AlertConfig.email_recipients a)).

Definition cache_validate (c : CacheConfig.t) : check :=
  let on := CacheConfig.enabled c in
  run_checks
    [bail_if (on && is_blank (CacheConfig.directory c)) "cache.directory cannot be empty when cache is enabled";
     bail_if (on && (CacheConfig.max_entry_mb c =? 0)%Z)
       "cache.max_entry_mb must be greater than 0 when cache is enabled";
     bail_if (on && (CacheConfig.max_total_mb c =? 0)%Z)
       "cache.max_total_mb must be greater than 0 when cache is enabled";
     bail_if (on && (CacheConfig.default_ttl_secs c =? 0)%Z)
       "cache.default_ttl_secs must be greater than 0 when cache is enabled";
     bail_if (on && (CacheConfig.max_ttl_secs c <? CacheConfig.default_ttl_secs c)%Z)
       "cache.max_ttl_secs must be greater than or equal to cache.default_ttl_secs"].

(** [timezone.parse::<Tz>().is_ok()]. *)
Variable known_timezone : string -> bool.

Definition quota_validate (q : QuotaConfig.t) : check :=
  run_checks
    [bail_if (QuotaConfig.enabled q && is_blank (QuotaConfig.timezone q))
       "quota.timezone cannot be empty when quota is enabled";
     bail_if (QuotaConfig.request_event_retention_days q =? 0)%Z
       "quota.request_event_retention_days must be greater than 0";
     bail_if (negb (QuotaConfig.timezone q =? "local") && negb (known_timezone (QuotaConfig.timezone q)))
       "quota.timezone must be local or a valid IANA timezone";
     bail_if (negb ((QuotaConfig.on_exceeded q =? "stop_proxy") || (QuotaConfig.on_exceeded q =? "throttle")))
       "quota.on_exceeded must be stop_proxy or throttle"].

Definition opt_empty (o : option string) : bool := match o with Some s => str_is_empty s | None => true end.

Definition auth_validate (u : Upstreams.t) (entry : string * UpstreamAuth.t) : check :=
  let '(name, auth) := entry in
  let basic := is_some (UpstreamAuth.username auth) || is_some (UpstreamAuth.password auth) in
  let bearer := is_some (UpstreamAuth.bearer_token auth) in
  run_checks
    [bail_if (is_none (upstream_url u name)) ("upstream_auth contains unknown upstream: " +:+ name);
     bail_if (Bool.eqb basic bearer
              || (basic && (opt_empty (UpstreamAuth.username auth) || opt_empty (UpstreamAuth.password auth)))
              || (bearer && opt_empty (UpstreamAuth.bearer_token auth)))
       ("upstream_auth." +:+ name +:+ " must contain either username/password or bearer_token")].

Definition SUPPORTED_PROXIES : list string :=
  ["github"; "composer"; "oci"; "npm"; "nvm"; "opam"; "go"; "maven"; "rubygems"; "rustup"; "nuget"; "cpan"; "cran"; "hackage"; "julia"; "luarocks"; "clojars"; "cocoapods"; "pub"; "anaconda"; "texlive"; "elpa"; "nix"; "guix"; "flatpak"; "homebrew"; "winget"; "os"; "crates"; "pypi"; "huggingface"].

(** The upstream URLs, in the order they are checked. *)
Definition registries_validate (u : Upstreams.t) : list check :=
  [validate_http_url "upstreams.github" (Upstreams.github u);
   validate_http_url "upstreams.github_raw" (Upstreams.github_raw u);
   validate_http_url "upstreams.packagist" (Upstreams.packagist u);
   validate_http_url "upstreams.docker_hub" (Upstreams.docker_hub u);
   validate_http_url "upstreams.ghcr" (Upstreams.ghcr u);
   validate_http_url "upstreams.quay" (Upstreams.quay u);
   validate_http_url "upstreams.kubernetes" (Upstreams.kubernetes u);
   validate_http_url "upstreams.gcr" (Upstreams.gcr u);
   validate_http_url "upstreams.mcr" (Upstreams.mcr u);
   validate_http_url "upstreams.elastic" (Upstreams.elastic u);
   validate_http_url "upstreams.gitlab" (Upstreams.gitlab u);
   validate_http_url "upstreams.nvcr" (Upstreams.nvcr u);
   validate_http_url "upstreams.oracle" (Upstreams.oracle u)].

Definition token_issuers_validate (issuers : list (string * list string)) : list check :=
  concat ((fun '(registry, origins) =>
    bail_if (negb (existsb (String.eqb registry)
        ["docker_hub"; "ghcr"; "quay"; "kubernetes"; "gcr"; "mcr"; "elastic"; "gitlab"; "nvcr"; "oracle"]))
      ("oci_token_issuers contains unknown registry: " +:+ registry)
    :: imap (fun index => validate_https_origin (indexed ("oci_token_issuers." +:+ registry) index)) origins)
    <$> issuers).

Definition packages_validate (u : Upstreams.t) : list check :=
  [validate_http_url "upstreams.npm" (Upstreams.npm u);
   validate_http_url "upstreams.nvm" (Upstreams.nvm u);
   validate_http_url "upstreams.opam" (Upstreams.opam u);
   validate_http_url "upstreams.go_proxy" (Upstreams.go_proxy u);
   validate_http_url "upstreams.maven" (Upstreams.maven u);
   validate_http_url "upstreams.rubygems" (Upstreams.rubygems u);
   validate_http_url "upstreams.rustup" (Upstreams.rustup u);
   validate_http_url "upstreams.nuget" (Upstreams.nuget u);
   validate_http_url "upstreams.cpan" (Upstreams.cpan u);
   validate_http_url "upstreams.cran" (Upstreams.cran u);
   validate_http_url "upstreams.hackage" (Upstreams.hackage u);
   validate_http_url "upstreams.julia" (Upstreams.julia u);
   validate_http_url "upstreams.luarocks" (Upstreams.luarocks u);
   validate_http_url "upstreams.clojars" (Upstreams.clojars u);
   validate_http_url "upstreams.cocoapods" (Upstreams.cocoapods u);
   validate_http_url "upstreams.pub_repository" (Upstreams.pub_repository u);
   validate_http_url "upstreams.anaconda" (Upstreams.anaconda u);
   validate_http_url "upstreams.texlive" (Upstreams.texlive u);
   validate_http_url "upstreams.winget" (Upstreams.winget u);
   validate_http_url "upstreams.huggingface" (Upstreams.huggingface u)].

Definition huggingface_endpoint_validate (endpoint : string) : check :=
  match url_parse endpoint with
  | None => Err "upstreams.huggingface is invalid"
  | Some url =>
      bail_if (negb (str_is_empty (url_username url)) || is_some (url_password url)
               || is_some (url_query url) || is_some (url_fragment url))
        "upstreams.huggingface must not contain credentials, a query, or a fragment"
  end.

Definition systems_validate (u : Upstreams.t) : list check :=
  [validate_http_url "upstreams.elpa" (Upstreams.elpa u);
   validate_http_url "upstreams.nix" (Upstreams.nix u);
   validate_http_url "upstreams.guix" (Upstreams.guix u);
   validate_http_url "upstreams.flatpak" (Upstreams.flatpak u);
   validate_http_url "upstreams.homebrew" (Upstreams.homebrew u);
   validate_http_url "upstreams.alpine" (Upstreams.alpine u);
   validate_http_url "upstreams.openwrt" (Upstreams.openwrt u);
   validate_http_url "upstreams.termux" (Upstreams.termux u);
   validate_http_url "upstreams.debian" (Upstreams.debian u);
   validate_http_url "upstreams.ubuntu" (Upstreams.ubuntu u);
   validate_http_url "upstreams.fedora" (Upstreams.fedora u);
   validate_http_url "upstreams.archlinux" (Upstreams.archlinux u);
   validate_http_url "upstreams.opensuse" (Upstreams.opensuse u);
   validate_http_url "upstreams.void" (Upstreams.void u);
   validate_http_url "upstreams.gentoo" (Upstreams.gentoo u);
   validate_http_url "upstreams.freebsd" (Upstreams.freebsd u)].

Definition indexes_validate (u : Upstreams.t) : list check :=
  [validate_http_url "upstreams.crates_index" (Upstreams.crates_index u);
   validate_http_url "upstreams.crates_api" (Upstreams.crates_api u);
   validate_http_url "upstreams.pypi_simple" (Upstreams.pypi_simple u);
   validate_http_url "upstreams.pypi_files" (Upstreams.pypi_files u)].

Definition upstreams_validate (u : Upstreams.t) (issuers : list (string * list string)) : check :=
  run_checks
    (registries_validate u ++ token_issuers_validate issuers ++ packages_validate u
     ++ (huggingface_endpoint_validate <$> parse_url_list (Upstreams.huggingface u))
     ++ systems_validate u
     ++ ((fun e => validate_http_url ("upstreams.additional_os." +:+ e.1) e.2) <$> Upstreams.additional_os u)
     ++ indexes_validate u).

Definition validate (self : Config.t) : check :=
  let u := Config.upstreams self in
  let sel := Config.upstream_selection self in
  let g := Config.geoip self in
  let enabled := fst <$> fold_left (fun m p => btree_insert p true m) (Config.enabled_proxies self) [] in
  run_checks
    ([download_validate (Config.download self);
      bail_if (is_blank (Config.database_path self)) "database_path cannot be empty";
      listeners_validate self;
      alerts_validate (Config.alerts self);
      if str_is_empty (Config.public_base_url self) then Ok tt
      else validate_http_url "public_base_url" (Config.public_base_url self);
      site_validate (Config.site self)]
     ++ ((fun p => match parse_trusted_proxy p with
                   | Ok _ => Ok tt
                   | Err e => Err ("trusted_proxies entry is invalid: " +:+ e)
                   end) <$> Config.trusted_proxies self)
     ++ [bail_if (TimeoutConfig.request_secs (Config.timeout self) =? 0)%Z
           "timeout.request_secs must be greater than 0";
         bail_if (negb ((UpstreamSelectionConfig.strategy sel =? "ordered")
                        || (UpstreamSelectionConfig.strategy sel =? "adaptive")))
           "upstream_selection.strategy must be ordered or adaptive";
         bail_if (UpstreamSelectionConfig.failure_threshold sel =? 0)%Z
           "upstream_selection.failure_threshold must be greater than 0";
         bail_if (UpstreamSelectionConfig.cooldown_secs sel =? 0)%Z
           "upstream_selection.cooldown_secs must be greater than 0";
         bail_if (RateLimitConfig.enabled (Config.rate_limit self)
                  && (RateLimitConfig.requests_per_minute (Config.rate_limit self) =? 0)%Z)
           "rate_limit.requests_per_minute must be greater than 0 when enabled";
         cache_validate (Config.cache self);
         bail_if (GeoIpConfig.enabled g && is_blank (GeoIpConfig.ipv4_path g) && is_blank (GeoIpConfig.ipv6_path g))
           "at least one GeoIP XDB path is required when geoip is enabled";
         acme_validate (Config.acme self);
         quota_validate (Config.quota self);
         user_access_validate (Config.user_access self) (Config.public_base_url self);
         registration_validate (Config.registration self);
         webauthn_validate (Config.webauthn self);
         outbound_proxy_validate (Config.outbound_proxy self);
         upstream_tls_validate (Config.upstream_tls self)]
     ++ (auth_validate u <$> Config.upstream_auth self)
     ++ ((fun p => bail_if (negb (existsb (String.eqb p) SUPPORTED_PROXIES))
                     ("unsupported proxy in enabled_proxies: " +:+ p)) <$> enabled)
     ++ [upstreams_validate u (Config.oci_token_issuers self)]).

Definition is_enabled (self : Config.t) (proxy : string) : bool :=
  existsb (String.eqb proxy) (Config.enabled_proxies self).

End Checks.

(** ** Lemmas *)

Section Lemmas.
Context `{UrlApi}.

Lemma run_checks_elem (l : list check) (c : check) : run_checks l = Ok tt -> c ∈ l -> c = Ok tt.
Proof. rewrite run_checks_ok, Forall_forall. auto. Qed.

(** What a checked URL list is good for: choosing and parsing an endpoint. *)
Definition good_group (value : string) : Prop :=
  exists endpoint url, select_upstream value = Ok endpoint /\ url_parse endpoint = Some url /\
    is_Some (url_host_str url) /\ (url_scheme url = "http" \/ url_scheme url = "https").

Lemma find_first_filter {A} (p : A -> bool) (l : list A) :
  find_first p l = head (filter (fun x => p x = true) l).
Proof.
  unfold find_first. induction l as [|x l IH]; simpl; [done|]. rewrite filter_cons.
  destruct (p x); simpl; [done|exact IH].
Qed.

Lemma select_upstream_head (value : string) :
  select_upstream value = result_of_option (head (parse_url_list value)) InvalidUrl.
Proof. unfold select_upstream, parse_url_list. by rewrite find_first_filter. Qed.

Lemma validate_http_url_good (field value : string) :
  validate_http_url field value = Ok tt -> good_group value.
Proof.
  unfold validate_http_url, good_group. rewrite run_checks_ok, select_upstream_head, Forall_cons.
  intros [Hne He]. destruct (parse_url_list value) as [|e es]; [done|]. simpl in He.
  apply Forall_cons in He as [He _]. unfold validate_http_endpoint in He.
  destruct (url_parse e) as [url|] eqn:Hu; [|done].
  rewrite run_checks_ok, !Forall_cons, !bail_if_ok in He. destruct He as (Hs & Hh & _).
  exists e, url. split_and!; [done|done| |].
  - destruct (url_host_str url); [by eexists|done].
  - apply negb_false_iff, orb_true_iff in Hs as [?%String.eqb_eq|?%String.eqb_eq]; auto.
Qed.

Ltac split_foralls :=
  repeat match goal with
  | H : Forall _ (_ ++ _) |- _ => apply Forall_app in H as [? H]
  | H : Forall _ (_ :: _) |- _ => apply Forall_cons in H as [? H]
  end.

Lemma upstreams_validate_good (u : Upstreams.t) (issuers : list (string * list string)) :
  upstreams_validate u issuers = Ok tt -> Forall good_group (upstream_groups u).
Proof.
  unfold upstreams_validate. rewrite run_checks_ok, !Forall_app.
  intros (Hr & _ & Hp & _ & Hs & Ho & Hi).
  unfold registries_validate, packages_validate, systems_validate, indexes_validate in *. split_foralls.
  unfold upstream_groups. apply Forall_app. split.
  - repeat (apply Forall_cons; split; [by eapply validate_http_url_good|]). constructor.
  - apply Forall_fmap in Ho. apply Forall_fmap. eapply Forall_impl; [exact Ho|].
    intros e He. exact (validate_http_url_good _ _ He).
Qed.
End Lemmas.

(** ** Properties *)

Section Accepted.
Context `{UrlApi} (known_timezone : string -> bool).

Lemma validate_parts (self : Config.t) :
  validate known_timezone self = Ok tt ->
  cache_validate (Config.cache self) = Ok tt /\
  user_access_validate (Config.user_access self) (Config.public_base_url self) = Ok tt /\
  Forall (fun e => auth_validate (Config.upstreams self) e = Ok tt) (Config.upstream_auth self) /\
  upstreams_validate (Config.upstreams self) (Config.oci_token_issuers self) = Ok tt /\
  UpstreamSelectionConfig.failure_threshold (Config.upstream_selection self) <> 0%Z /\
  download_validate (Config.download self) = Ok tt.
Proof.
  unfold validate. rewrite run_checks_ok, !Forall_app, !Forall_cons, !bail_if_ok.
  intros ((Hd & _) & _ & (_ & _ & Ht & _ & _ & Hc & _ & _ & _ & Hua & _) & Ha & _ & Hu & _).
  apply Forall_fmap in Ha. apply Z.eqb_neq in Ht. by split_and!.
Qed.

(** One kind of credentials. *)
Definition one_kind (auth : UpstreamAuth.t) : Prop :=
  (exists username password, UpstreamAuth.username auth = Some username /\
     UpstreamAuth.password auth = Some password /\ UpstreamAuth.bearer_token auth = None) \/
  (exists token, UpstreamAuth.username auth = None /\ UpstreamAuth.password auth = None /\
     UpstreamAuth.bearer_token auth = Some token).

Lemma auth_validate_one_kind (u : Upstreams.t) (name : string) (auth : UpstreamAuth.t) :
  auth_validate u (name, auth) = Ok tt -> is_Some (upstream_url u name) /\ one_kind auth.
Proof.
  unfold auth_validate, one_kind. rewrite run_checks_ok, !Forall_cons, !bail_if_ok.
  intros (Hn & Hk & _). split; [by destruct (upstream_url u name)|].
  destruct (UpstreamAuth.username auth) as [us|], (UpstreamAuth.password auth) as [pw|],
    (UpstreamAuth.bearer_token auth) as [tk|]; simpl in Hk; rewrite ?orb_true_r in Hk;
    try done; [left|right]; eauto.
Qed.

(** A validated configuration never reaches the [unreachable!] arm of
    [upstream_request]: the credentials found for any URL are either a user
    name with its password or a bearer token, never both or half of one. *)
Lemma validated_auth_ok (self : Config.t) (url : Url) (auth : UpstreamAuth.t) :
  validate known_timezone self = Ok tt ->
  upstream_auth_for (Config.upstreams self) (Config.upstream_auth self) url = Some auth ->
  one_kind auth.
Proof.
  intros (_ & _ & Ha & _)%validate_parts (pre & [name a] & post & Hl & Hf & _)%find_map_Some.
  destruct (upstream_url (Config.upstreams self) name); [|done]. case_bool; [|done]. injection Hf as ->.
  rewrite Hl, Forall_app, Forall_cons in Ha. destruct Ha as (_ & Ha & _).
  by apply (auth_validate_one_kind _ _ _ Ha).
Qed.

(** In a validated configuration every upstream group has a first
    endpoint, and it is an HTTP or HTTPS URL with a host, so building an
    upstream URL from a group never fails. *)
Theorem validated_groups_usable (self : Config.t) (group path : string) (query : option string) :
  validate known_timezone self = Ok tt -> group ∈ upstream_groups (Config.upstreams self) ->
  good_group group /\ is_ok (repository_url group path query) = true /\ is_ok (build_url group path query) = true.
Proof.
  intros (_ & _ & _ & Hu & _)%validate_parts Hin. apply upstreams_validate_good in Hu.
  rewrite Forall_forall in Hu. pose proof (Hu _ Hin) as Hg. split; [done|].
  destruct Hg as (e & url & He & Hp & _). unfold repository_url, build_url, parse_base.
  rewrite He. simpl. by rewrite Hp.
Qed.

(** Subdomain routing is never required without its infrastructure: a
    validated configuration in that mode has a base domain, and its public
    URL is the HTTPS origin of exactly that domain. *)
Theorem validated_subdomain_mode (self : Config.t) :
  validate known_timezone self = Ok tt ->
  UserAccessConfig.mode (Config.user_access self) = "subdomain_required" ->
  UserAccessConfig.infrastructure_ready (Config.user_access self) = true /\
  str_is_empty (str_trim (UserAccessConfig.base_domain (Config.user_access self))) = false /\
  exists url, url_parse (Config.public_base_url self) = Some url /\ url_scheme url = "https" /\
    url_host_str url = Some (str_trim (UserAccessConfig.base_domain (Config.user_access self))).
Proof.
  intros (_ & Hua & _)%validate_parts Hm. unfold user_access_validate in Hua. rewrite Hm in Hua.
  rewrite run_checks_ok, !Forall_cons, !bail_if_ok in Hua.
  change ("subdomain_required" =? "subdomain_required") with true in Hua. cbn [andb] in Hua.
  destruct Hua as (_ & Hready & _ & _ & Hd & _). apply negb_false_iff in Hready. split; [done|].
  destruct (str_is_empty (str_trim _)) eqn:He; [done|]. split; [done|].
  rewrite run_checks_ok, !Forall_cons in Hd. destruct Hd as (_ & Hu & _).
  destruct (url_parse (Config.public_base_url self)) as [url|]; [|done]. exists url. split; [done|].
  apply bail_if_ok, orb_false_iff in Hu as [Hs Hh]. apply negb_false_iff in Hs, Hh.
  apply String.eqb_eq in Hs. by apply bool_decide_eq_true in Hh.
Qed.
End Accepted.

(** The built-in defaults are accepted. *)
Lemma default_config_valid : validate (fun _ => false) Config.default = Ok tt.
Proof. vm_compute. reflexivity. Qed.

Definition with_auth (auths : list (string * UpstreamAuth.t)) (c : Config.t) : Config.t :=
  Config.Build_t (Config.database_path c) (Config.listen_addr c) (Config.management c) (Config.metrics c)
    (Config.public_base_url c) (Config.site c) (Config.trusted_proxies c) (Config.enabled_proxies c)
    (Config.upstreams c) (Config.oci_token_issuers c) (Config.timeout c) (Config.upstream_selection c)
    (Config.rate_limit c) (Config.cache c) (Config.geoip c) (Config.acme c) (Config.quota c)
    (Config.download c) (Config.alerts c) (Config.user_access c) (Config.registration c) (Config.webauthn c)
    (Config.outbound_proxy c) (Config.upstream_tls c) (Config.forward_client_authorization c) auths.

Definition with_access (base_url : string) (access : UserAccessConfig.t) (c : Config.t) : Config.t :=
  Config.Build_t (Config.database_path c) (Config.listen_addr c) (Config.management c) (Config.metrics c)
    base_url (Config.site c) (Config.trusted_proxies c) (Config.enabled_proxies c)
    (Config.upstreams c) (Config.oci_token_issuers c) (Config.timeout c) (Config.upstream_selection c)
    (Config.rate_limit c) (Config.cache c) (Config.geoip c) (Config.acme c) (Config.quota c)
    (Config.download c) (Config.alerts c) access (Config.registration c) (Config.webauthn c)
    (Config.outbound_proxy c) (Config.upstream_tls c) (Config.forward_client_authorization c)
    (Config.upstream_auth c).

Lemma validated_groups_usable_witness : good_group (Upstreams.pypi_files Upstreams.default).
Proof.
  refine (proj1 (@validated_groups_usable SimpleUrlApi (fun _ => false) Config.default _ "x" None _ _)).
  - vm_compute. reflexivity.
  - apply (bool_decide_eq_true_1 _). vm_compute. reflexivity.
Defined.

Lemma validated_subdomain_mode_witness :
  exists url : simple_url, url_parse "https://mirror.example" = Some url /\ url_host_str url = Some "mirror.example".
Proof.
  destruct (@validated_subdomain_mode SimpleUrlApi (fun _ => false)
    (with_access "https://mirror.example"
      {| UserAccessConfig.base_domain := "mirror.example"; UserAccessConfig.mode := "subdomain_required";
         UserAccessConfig.infrastructure_ready := true; UserAccessConfig.routing_id_min_length := 12;
         UserAccessConfig.routing_rotation_cooldown_hours := 24 |} Config.default)
    ltac:(vm_compute; reflexivity) eq_refl) as (_ & _ & url & H1 & _ & H3).
  exists url. split; [exact H1|]. rewrite H3. vm_compute. reflexivity.
Defined.

(** The example configuration enables an adapter that the defaults leave off. *)
Lemma cocoapods_off_by_default : is_enabled Config.default "cocoapods" = false.
Proof. reflexivity. Qed.
