(* ===== verification/Cache.v ===== *)
(** * The response cache

    [crates/server/src/proxy/cache.rs]: entries as a body file and a metadata
    file on the file system of [Fs], what may be stored and for how long,
    loading, refreshing, eviction with its incremental accounting, purging.
    The JSON codec and SHA-256 are third-party code: the class [CacheCodec].
    A call of [cache_work] is one step: writers hold the file lock alone and
    readers do not write entries. *)
From stdpp Require Import gmap.
From S2P Require Import Prelude RustStr Headers Url Config Upstreams Fs.
Open Scope Z_scope.

Definition NANOS : Z := 1000000000.

Record DiskCacheMetadata : Type := {
  status : Z;
  headers : list (string * string);
  stored_at : Z;
  expires_at : Z;
  vary : list (string * string);
}.

Record DiskCacheEntry : Type := { body : string; metadata : DiskCacheMetadata }.

Record Capacity : Type := { directory : string; max_bytes : Z; bytes : Z; checked_at : Z }.

(** The disk, the static [CAPACITY] and the monotonic clock. *)
Record state : Type := { disk : fs; capacity : option Capacity; instant : Z }.

Definition with_disk (d : fs) (st : state) : state :=
  {| disk := d; capacity := capacity st; instant := instant st |}.

Definition with_capacity (c : option Capacity) (st : state) : state :=
  {| disk := disk st; capacity := c; instant := instant st |}.

Class CacheCodec : Type := {
  (** [format!("{:x}", Sha256::digest(..))] *)
  digest : string -> string;
  (** [serde_json::to_vec], [serde_json::from_slice] *)
  to_vec : DiskCacheMetadata -> option string;
  from_slice : string -> option DiskCacheMetadata;
  (** the order [fs::read_dir] lists a directory in *)
  dir_order : list (string * file) -> list (string * file);
}.

Class CacheCodecLaws `{CacheCodec} : Prop := {
  from_to_vec m s : to_vec m = Some s -> from_slice s = Some m;
  digest_name u : contains_char "/" (digest u) = false /\ contains_char "." (digest u) = false
                  /\ str_is_empty (digest u) = false;
  dir_order_perm l : dir_order l ≡ₚ l;
}.

Definition max_cache_entry_bytes (cache : CacheConfig.t) : Z :=
  sat_mul_u64 (CacheConfig.max_entry_mb cache) (1024 * 1024).
Definition max_cache_total_bytes (cache : CacheConfig.t) : Z :=
  sat_mul_u64 (CacheConfig.max_total_mb cache) (1024 * 1024).

Definition unix_timestamp (now : Z) : Z := now / NANOS.

(** [should_forward_response_header] of [mod.rs]. *)
Definition should_forward_response_header (name : string) : bool :=
  negb (existsb (String.eqb (to_ascii_lowercase name))
    ["connection"; "keep-alive"; "proxy-authenticate"; "proxy-authorization"; "te"; "trailer";
     "transfer-encoding"; "upgrade"]).

Definition file_len (f : file) : Z := str_len (data f).

Section Cache.
Context `{HeaderApi} `{UrlApi} `{CacheCodec}.

Definition cache_paths (cache : CacheConfig.t) (url : Url) : option (string * string) :=
  if negb (CacheConfig.enabled cache) || str_is_empty (str_trim (CacheConfig.directory cache)) then None
  else
    let key := digest (url_as_str url) in
    let root := CacheConfig.directory cache in
    Some (path_join root (key +:+ ".body"), path_join root (key +:+ ".json")).

(** [headers.get(name).and_then(to_str).unwrap_or_default()]. *)
Definition header_or_empty (h : HeaderMap) (name : string) : string :=
  match h_get_str h name with Some v => v | None => "" end.

Definition vary_mismatch (incoming : HeaderMap) (metadata : DiskCacheMetadata) : bool :=
  existsb (fun '(name, expected) => negb (header_or_empty incoming name =? expected)%string) (vary metadata).

(** ** Lifetime and variants *)

Definition forbidden_directive (directive : string) : bool :=
  existsb (String.eqb (to_ascii_lowercase directive)) ["no-store"; "private"; "no-cache"].

(** The double quote. *)
Definition dquote : ascii := ascii_of_nat 34.

Definition directive_ttl (directive : string) : option Z :=
  match split_once "=" directive with
  | None => None
  | Some (name, value) =>
      if existsb (String.eqb (to_ascii_lowercase (str_trim name))) ["s-maxage"; "max-age"]
      then parse_uint U64_MAX (trim_matches dquote value) else None
  end.

Definition cache_directives (h : HeaderMap) : list string :=
  str_trim <$> str_split "," (header_or_empty h "cache-control").

Definition cache_lifetime (cache : CacheConfig.t) (h : HeaderMap) (now : Z) : option (Z * Z) :=
  let directives := cache_directives h in
  if existsb forbidden_directive directives then None
  else
    let upstream_ttl := find_map directive_ttl directives in
    let ttl := Z.min (match upstream_ttl with Some t => t | None => CacheConfig.default_ttl_secs cache end)
                 (CacheConfig.max_ttl_secs cache) in
    if 0 <? ttl
    then let now := unix_timestamp now in Some (now, sat_add_u64 now ttl)
    else None.

Definition vary_names (h : HeaderMap) : list string :=
  filter (fun v => negb (str_is_empty v) = true)
    (str_trim <$> concat (str_split "," <$> omap h_to_str (h_get_all h "vary"))).

Definition cache_vary (h incoming : HeaderMap) : option (list (string * string)) :=
  let names := vary_names h in
  if existsb (String.eqb "*") names then None
  else Some ((fun name => (to_ascii_lowercase name, header_or_empty incoming name)) <$> names).

Definition cached_header (metadata : DiskCacheMetadata) (name : string) : option string :=
  snd <$> find_first (fun e => eq_ignore_ascii_case e.1 name) (headers metadata).

(** ** Loading *)

Definition load_disk_cache (cache : CacheConfig.t) (url : Url) (incoming : HeaderMap) (d : fs) :
    option DiskCacheEntry * fs :=
  match cache_paths cache url with
  | None => (None, d)
  | Some (body_path, metadata_path) =>
      let '(raw, d) := fs_read metadata_path d in
      match raw with
      | Err _ => (None, d)
      | Ok raw =>
      match from_slice raw with
      | None => (None, d)
      | Some metadata =>
          if vary_mismatch incoming metadata then (None, d)
          else
            let '(info, d) := fs_metadata body_path d in
            match info with
            | Err _ => (None, d)
            | Ok info =>
                if max_cache_entry_bytes cache <? file_len info then (None, d)
                else
                  let '(body, d) := fs_read body_path d in
                  match body with
                  | Err _ => (None, d)
                  | Ok body =>
                      let '(_, d) := fs_touch body_path d in
                      (Some {| body := body; metadata := metadata |}, d)
                  end
            end
      end
      end
  end.

Record CachedResponse : Type := {
  response_status : Z;
  response_headers : HeaderMap;
  response_body : string;
}.

Definition cached_response (entry : DiskCacheEntry) (cache_status : string) (now : Z) :
    result CachedResponse ProxyError :=
  let m := metadata entry in
  if negb ((100 <=? status m) && (status m <=? 999)) then Err InvalidHeader
  else
    match h_from_str cache_status with
    | None => Err InvalidHeader
    | Some cache_status =>
        let start := h_append "age" (h_from_u64 (sat_sub_u64 (unix_timestamp now) (stored_at m)))
                       (h_append "x-mirrorproxy-cache" cache_status h_empty) in
        let add hs e :=
          match h_name e.1, h_from_str e.2 with
          | Some name, Some value =>
              if should_forward_response_header name && negb (name =? "age")%string
              then h_append name value hs else hs
          | _, _ => hs
          end in
        Ok {| response_status := status m;
              response_headers := fold_left add (headers m) start;
              response_body := body entry |}
    end.

(** ** Eviction *)

Definition is_body (cache : CacheConfig.t) (path : string) : bool :=
  match strip_prefix (path_join (CacheConfig.directory cache) "") path with
  | Some name => negb (contains_char "/" name) && bool_decide (extension name = Some "body")
  | None => false
  end.

(** [fs::read_dir]: the entries of the directory, [None] when it is missing
    (or cannot be read). A directory that holds a file exists. *)
Definition in_directory (cache : CacheConfig.t) (path : string) : bool :=
  match strip_prefix (path_join (CacheConfig.directory cache) "") path with
  | Some name => negb (contains_char "/" name) && negb (str_is_empty name)
  | None => false
  end.

Definition read_dir (cache : CacheConfig.t) (d : fs) : result (list string) io_error * fs :=
  match next_fault d with
  | (Fine, d') =>
      (Ok (fst <$> dir_order (filter (fun e => in_directory cache e.1 = true) (map_to_list (files d)))), d')
  | (Fails _, d') => (Err Other, d')
  end.

(** The bodies of the directory with their times and lengths. *)
Fixpoint stat_bodies (cache : CacheConfig.t) (paths : list string) (d : fs) : list (Z * Z * string) * fs :=
  match paths with
  | [] => ([], d)
  | p :: rest =>
      if is_body cache p then
        let '(info, d) := fs_metadata p d in
        let '(l, d) := stat_bodies cache rest d in
        (match info with Ok f => (modified f, file_len f, p) :: l | Err _ => l end, d)
      else stat_bodies cache rest d
  end.

Definition by_time (a b : Z * Z * string) : bool := a.1.1 <=? b.1.1.

(** The loop over the sorted bodies. *)
Fixpoint evict_loop (cache : CacheConfig.t) (total : Z) (bodies : list (Z * Z * string)) (d : fs) : Z * fs :=
  match bodies with
  | [] => (total, d)
  | (_, len, path) :: rest =>
      if total <=? max_cache_total_bytes cache then (total, d)
      else
        let '(removed, d) := fs_remove path d in
        match removed with
        | Ok _ =>
            let '(_, d) := fs_remove (with_extension path "json") d in
            evict_loop cache (sat_sub_u64 total len) rest d
        | Err _ => evict_loop cache total rest d
        end
  end.

Definition sum_len (bodies : list (Z * Z * string)) : Z := foldr (fun b acc => b.1.2 + acc) 0 bodies.

Definition evict_disk_cache (cache : CacheConfig.t) (d : fs) : Z * fs :=
  match read_dir cache d with
  | (Err _, d) => (0, d)
  | (Ok paths, d) =>
      let '(bodies, d) := stat_bodies cache paths d in
      let total := sum_len bodies in
      if total <=? max_cache_total_bytes cache then (total, d)
      else evict_loop cache total (sort_by by_time bodies) d
  end.

Definition capacity_applies (cache : CacheConfig.t) (c : Capacity) : bool :=
  (directory c =? CacheConfig.directory cache)%string && (max_bytes c =? max_cache_total_bytes cache).

Definition maintain_capacity (cache : CacheConfig.t) (previous_bytes written_bytes : Z) (st : state) : state :=
  let recheck st :=
    let '(bytes, d) := evict_disk_cache cache (disk st) in
    {| disk := d;
       capacity := Some {| directory := CacheConfig.directory cache;
                           max_bytes := max_cache_total_bytes cache;
                           bytes := bytes;
                           checked_at := instant st |};
       instant := instant st |} in
  match capacity st with
  | Some current =>
      if capacity_applies cache current then
        let current := {| directory := directory current; max_bytes := max_bytes current;
                          bytes := sat_add_u64 (sat_sub_u64 (bytes current) previous_bytes) written_bytes;
                          checked_at := checked_at current |} in
        if (bytes current <=? max_bytes current) && (instant st - checked_at current <? 30 * NANOS)
        then with_capacity (Some current) st
        else recheck st
      else recheck st
  | None => recheck st
  end.

(** ** Writing *)

Definition stored_headers (h : HeaderMap) : list (string * string) :=
  omap (fun '(name, value) =>
    if should_forward_response_header name then (fun v => (name, v)) <$> h_to_str value else None) (h_iter h).

Definition entry_metadata (cache : CacheConfig.t) (status : Z) (h incoming : HeaderMap) (now : Z) :
    option DiskCacheMetadata :=
  match cache_lifetime cache h now with
  | None => None
  | Some (stored_at, expires_at) =>
      if h_contains h "set-cookie" then None
      else match cache_vary h incoming with
           | None => None
           | Some vary =>
               Some {| status := status; headers := stored_headers h;
                       stored_at := stored_at; expires_at := expires_at; vary := vary |}
           end
  end.

Definition write_disk_cache (cache : CacheConfig.t) (url : Url) (incoming : HeaderMap) (status : Z)
    (h : HeaderMap) (body : string) (st : state) : state :=
  match cache_paths cache url with
  | None => st
  | Some (body_path, metadata_path) =>
  let '(made, d) := fs_create_dir_all (split_name body_path).2 (disk st) in
  let st := with_disk d st in
  match made with
  | Err _ => st
  | Ok _ =>
  match entry_metadata cache status h incoming (now d) with
  | None => st
  | Some metadata =>
      let '(info, d) := fs_metadata body_path (disk st) in
      let previous_bytes := match info with Ok f => file_len f | Err _ => 0 end in
      let body_tmp := with_extension body_path "body.tmp" in
      let metadata_tmp := with_extension metadata_path "json.tmp" in
      let '(w1, d) := fs_write body_tmp body d in
      let st := with_disk d st in
      match w1, to_vec metadata with
      | Ok _, Some value =>
          let '(w2, d) := fs_write metadata_tmp value (disk st) in
          let st := with_disk d st in
          match w2 with
          | Err _ => st
          | Ok _ =>
              let '(r1, d) := fs_rename body_tmp body_path (disk st) in
              let st := with_disk d st in
              let st :=
                match r1 with
                | Err _ => st
                | Ok _ =>
                    let '(r2, d) := fs_rename metadata_tmp metadata_path (disk st) in
                    let st := with_disk d st in
                    match r2 with
                    | Err _ => st
                    | Ok _ => maintain_capacity cache previous_bytes (str_len body) st
                    end
                end in
              let '(_, d) := fs_remove body_tmp (disk st) in
              let '(_, d) := fs_remove metadata_tmp d in
              with_disk d st
          end
      | _, _ => st
      end
  end
  end
  end.

(** ** Refreshing *)

Definition REFRESHED : list string := ["etag"; "last-modified"; "cache-control"; "expires"].

(** The metadata after a 304; [None] when the response may not be cached. *)
Definition refreshed (cache : CacheConfig.t) (m : DiskCacheMetadata) (h : HeaderMap) (now : Z) :
    option DiskCacheMetadata :=
  match cache_lifetime cache h now with
  | None => None
  | Some (stored_at, expires_at) =>
      let update hs name :=
        match h_get_str h name with
        | Some value => filter (fun e => eq_ignore_ascii_case e.1 name = false) hs ++ [(name, value)]
        | None => hs
        end in
      Some {| status := status m; headers := fold_left update REFRESHED (headers m);
              stored_at := stored_at; expires_at := expires_at; vary := vary m |}
  end.

Definition refresh_cache_metadata (cache : CacheConfig.t) (url : Url) (m : DiskCacheMetadata) (h : HeaderMap)
    (st : state) : DiskCacheMetadata * state :=
  match refreshed cache m h (now (disk st)) with
  | None => (m, st)
  | Some m =>
      match cache_paths cache url with
      | None => (m, st)
      | Some (_, metadata_path) =>
          match to_vec m with
          | None => (m, st)
          | Some value =>
              let temporary := with_extension metadata_path "json.tmp" in
              let '(w, d) := fs_write temporary value (disk st) in
              match w with
              | Err _ => (m, with_disk d st)
              | Ok _ => let '(_, d) := fs_rename temporary metadata_path d in (m, with_disk d st)
              end
          end
      end
  end.

(** ** Statistics and purging *)

Record CacheStats : Type := {
  stats_enabled : bool;
  stats_directory : string;
  stats_entries : Z;
  stats_bytes : Z;
  stats_max_bytes : Z;
}.

Definition disk_cache_stats (cache : CacheConfig.t) (d : fs) : CacheStats * fs :=
  let '(bodies, d) :=
    match read_dir cache d with
    | (Err _, d) => ([], d)
    | (Ok paths, d) => stat_bodies cache paths d
    end in
  let '(entries, bytes) :=
    fold_left (fun acc b => (acc.1 + 1, sat_add_u64 acc.2 b.1.2)) bodies (0, 0) in
  ({| stats_enabled := CacheConfig.enabled cache; stats_directory := CacheConfig.directory cache;
      stats_entries := entries; stats_bytes := bytes; stats_max_bytes := max_cache_total_bytes cache |}, d).

Definition purgeable (path : string) : bool :=
  match extension path with
  | Some e => existsb (String.eqb e) ["body"; "json"; "tmp"]
  | None => false
  end.

Fixpoint purge_loop (paths : list string) (removed : Z) (d : fs) : Z * fs :=
  match paths with
  | [] => (removed, d)
  | p :: rest =>
      if purgeable p then
        let '(r, d) := fs_remove p d in
        purge_loop rest (match r with Ok _ => removed + 1 | Err _ => removed end) d
      else purge_loop rest removed d
  end.

(** An empty directory and a missing one both purge nothing. *)
Definition purge_disk_cache (cache : CacheConfig.t) (st : state) : result Z io_error * state :=
  let st := with_capacity None st in
  match read_dir cache (disk st) with
  | (Err NotFound, d) => (Ok 0, with_disk d st)
  | (Err e, d) => (Err e, with_disk d st)
  | (Ok paths, d) =>
      let '(removed, d) := purge_loop paths 0 d in (Ok removed, with_disk d st)
  end.

End Cache.

(** ** Lemmas: what the bodies weigh *)

Section Weight.
Context `{CacheCodec}.
Variable cache : CacheConfig.t.

Definition weight (e : string * file) : Z := if is_body cache e.1 then file_len e.2 else 0.

Definition sumZ (l : list Z) : Z := foldr Z.add 0 l.

(** The bytes of all bodies on the disk. *)
Definition total_bodies (m : gmap string file) : Z := sumZ (weight <$> map_to_list m).

Lemma sumZ_perm (a b : list Z) : a ≡ₚ b -> sumZ a = sumZ b.
Proof. unfold sumZ. induction 1; simpl; lia. Qed.

Lemma sumZ_nonneg (l : list Z) : Forall (fun x => 0 <= x) l -> 0 <= sumZ l.
Proof. unfold sumZ. induction 1; simpl; lia. Qed.

Lemma file_len_nonneg (f : file) : 0 <= file_len f.
Proof. unfold file_len, str_len. lia. Qed.

Lemma total_bodies_nonneg (m : gmap string file) : 0 <= total_bodies m.
Proof.
  apply sumZ_nonneg, Forall_fmap, Forall_forall. intros e _. unfold compose, weight.
  case_bool; [apply file_len_nonneg|lia].
Qed.

Lemma total_bodies_delete (m : gmap string file) (p : string) (f : file) :
  m !! p = Some f -> total_bodies m = weight (p, f) + total_bodies (delete p m).
Proof.
  intros Hp. unfold total_bodies. rewrite <- (sumZ_perm _ _ (fmap_Permutation weight _ _ (map_to_list_delete m p f Hp))).
  reflexivity.
Qed.

Lemma total_bodies_insert (m : gmap string file) (p : string) (f : file) :
  total_bodies (<[p := f]> m) = weight (p, f) + total_bodies (delete p m).
Proof.
  rewrite (total_bodies_delete _ p f) by apply lookup_insert_eq. by rewrite delete_insert_eq.
Qed.

Lemma total_bodies_delete_other (m : gmap string file) (p : string) :
  is_body cache p = false -> total_bodies (delete p m) = total_bodies m.
Proof.
  intros Hb. destruct (m !! p) as [f|] eqn:E; [|by rewrite delete_id].
  rewrite (total_bodies_delete m p f E). unfold weight. simpl. rewrite Hb. lia.
Qed.

Lemma total_bodies_insert_other (m : gmap string file) (p : string) (f : file) :
  is_body cache p = false -> total_bodies (<[p := f]> m) = total_bodies m.
Proof.
  intros Hb. rewrite total_bodies_insert, total_bodies_delete_other by done.
  unfold weight. simpl. by rewrite Hb.
Qed.

Lemma is_body_in_directory (p : string) : is_body cache p = true -> in_directory cache p = true.
Proof.
  unfold is_body, in_directory. destruct (strip_prefix _ p) as [n|]; [|done].
  intros [-> Hx]%andb_true_iff. apply bool_decide_eq_true in Hx. simpl. by destruct n.
Qed.

(** A path that ends in another extension is no body. *)
Lemma not_body_suffix (p pre ext : string) (a b : ascii) (x y : string) :
  p = pre +:+ String "." ext -> String.rev ext = String a x -> String.rev "body" = String b y -> a <> b ->
  is_body cache p = false.
Proof.
  intros Hp Hx Hy Hab. unfold is_body. destruct (strip_prefix _ p) as [n|] eqn:E; [|done].
  case_bool_decide as Hn; [|by rewrite andb_false_r].
  apply strip_prefix_Some in E. apply extension_suffix in Hn as [q ->].
  rewrite Hp in E. apply (f_equal String.rev) in E.
  rewrite (string_rev_app pre), (string_rev_app (path_join _ _)), (string_rev_app q) in E.
  rewrite (string_rev_cons "." ext), (string_rev_cons "." "body"), Hx, Hy in E. simpl in E. congruence.
Qed.

Lemma with_extension_not_body (p : string) : is_body cache (with_extension p "json") = false.
Proof.
  unfold with_extension. destruct (split_name p) as [n par].
  eapply (not_body_suffix _ (par +:+ (split_extension n).1) "json" "n" "y" "osj" "dob"); [|done|done|done].
  by rewrite <- str_app_assoc.
Qed.

(** What [stat_bodies] reads when nothing fails. *)
Definition stat_of (m : gmap string file) (paths : list string) : list (Z * Z * string) :=
  omap (fun p => if is_body cache p then (fun f => (modified f, file_len f, p)) <$> m !! p else None) paths.

Lemma stat_bodies_quiet (paths : list string) (d : fs) :
  faults d = [] -> stat_bodies cache paths d = (stat_of (files d) paths, d).
Proof.
  intros Hq. unfold stat_of. induction paths as [|p paths IH]; simpl; [done|].
  destruct (is_body cache p); [|exact IH].
  rewrite (quiet_metadata d Hq). rewrite IH. by destruct (files d !! p).
Qed.

Lemma read_dir_quiet (d : fs) :
  faults d = [] ->
  read_dir cache d =
  (Ok (fst <$> dir_order (filter (fun e => in_directory cache e.1 = true) (map_to_list (files d)))), d).
Proof. intros Hq. unfold read_dir. by rewrite next_fault_none. Qed.

Lemma sum_len_perm (a b : list (Z * Z * string)) : a ≡ₚ b -> sum_len a = sum_len b.
Proof. unfold sum_len. induction 1; simpl; lia. Qed.

Lemma stat_of_entries (m : gmap string file) (l : list (string * file)) :
  (forall e, e ∈ l -> m !! e.1 = Some e.2) ->
  stat_of m (fst <$> l) =
  omap (fun e => if is_body cache e.1 then Some (modified e.2, file_len e.2, e.1) else None) l.
Proof.
  unfold stat_of. induction l as [|e l IH]; intros Hl; simpl; [done|].
  rewrite (Hl e) by left. assert (Hr : forall e', e' ∈ l -> m !! e'.1 = Some e'.2) by (intros; apply Hl; by right).
  destruct (is_body cache e.1); simpl; [f_equal|]; by apply IH.
Qed.

Lemma omap_cons_eq {A B} (f : A -> option B) (x : A) (l : list A) :
  omap f (x :: l) = match f x with Some y => y :: omap f l | None => omap f l end.
Proof. reflexivity. Qed.

Lemma sum_len_entries (l : list (string * file)) :
  sum_len (omap (fun e => if is_body cache e.1 then Some (modified e.2, file_len e.2, e.1) else None)
             (filter (fun e => in_directory cache e.1 = true) l)) = sumZ (weight <$> l).
Proof.
  induction l as [|e l IH]; [done|]. rewrite filter_cons, fmap_cons.
  change (sumZ (weight e :: (weight <$> l))) with (weight e + sumZ (weight <$> l)).
  rewrite <- IH. unfold weight.
  destruct (decide (in_directory cache e.1 = true)) as [Hd|Hd].
  - rewrite omap_cons_eq. by destruct (is_body cache e.1).
  - destruct (is_body cache e.1) eqn:E; [|lia]. by apply is_body_in_directory in E.
Qed.
End Weight.

(** ** Lemmas: eviction without faults *)

Section Evict.
Context `{CacheCodecLaws}.
Variable cache : CacheConfig.t.

(** A body on the disk with the time and length that were read. *)
Definition present (m : gmap string file) (b : Z * Z * string) : Prop :=
  is_body cache b.2 = true /\ exists f, m !! b.2 = Some f /\ file_len f = b.1.2 /\ modified f = b.1.1.

(** Removing a body and its metadata. *)
Definition drop_body (p : string) (m : gmap string file) : gmap string file :=
  delete (with_extension p "json") (delete p m).

Lemma drop_body_total (p : string) (f : file) (m : gmap string file) :
  is_body cache p = true -> m !! p = Some f ->
  total_bodies cache m = file_len f + total_bodies cache (drop_body p m).
Proof.
  intros Hb Hf. unfold drop_body. rewrite total_bodies_delete_other by apply with_extension_not_body.
  rewrite (total_bodies_delete cache m p f Hf). unfold weight. simpl. by rewrite Hb.
Qed.

Lemma drop_body_lookup (p q : string) (m : gmap string file) :
  is_body cache q = true -> drop_body p m !! q = if decide (q = p) then None else m !! q.
Proof.
  intros Hq. unfold drop_body. pose proof (with_extension_not_body cache p) as Hn.
  rewrite lookup_delete_ne by (intros He; congruence).
  case_decide as Hd; [subst; apply lookup_delete_eq|by apply lookup_delete_ne].
Qed.

Lemma present_drop (p : string) (m : gmap string file) (b : Z * Z * string) :
  b.2 <> p -> present m b -> present (drop_body p m) b.
Proof.
  intros Hne (Hb & f & Hf & Hl). split; [done|]. exists f. rewrite drop_body_lookup by done.
  by rewrite decide_False.
Qed.

Lemma remove_pair_quiet (p : string) (d : fs) (f : file) :
  faults d = [] -> files d !! p = Some f ->
  (fs_remove (with_extension p "json") (fs_remove p d).2).2 = set_files (drop_body p (files d)) d /\
  (fs_remove p d).1 = Ok tt.
Proof.
  intros Hq Hf. destruct (quiet_remove d Hq p) as [H1 _].
  destruct (quiet_remove (set_files (delete p (files d)) d) Hq (with_extension p "json")) as [H2 _].
  rewrite H1, H2. split; [done|]. unfold fs_remove. rewrite next_fault_none by done. by rewrite Hf.
Qed.

Lemma evict_loop_quiet (bodies : list (Z * Z * string)) : forall total d t d',
  faults d = [] -> NoDup (snd <$> bodies) -> Forall (present (files d)) bodies ->
  total = total_bodies cache (files d) ->
  evict_loop cache total bodies d = (t, d') ->
  faults d' = [] /\ now d' = now d /\ t = total_bodies cache (files d') /\
  exists removed kept, bodies = removed ++ kept /\
    (t <= max_cache_total_bytes cache \/ kept = []) /\
    (forall p, is_body cache p = true ->
       files d' !! p = if decide (p ∈ (snd <$> removed)) then None else files d !! p).
Proof.
  induction bodies as [|b bodies IH]; intros total d t d' Hq Hnd Hp Ht; cbn [evict_loop].
  { intros [= <- <-]. split_and!; try done. exists [], []. split_and!; auto. }
  destruct b as [[tm len] p]. destruct (Z.leb_spec total (max_cache_total_bytes cache)) as [Hle|Hgt].
  { intros [= <- <-]. split_and!; try done. exists [], ((tm, len, p) :: bodies). split_and!; auto. }
  apply Forall_cons in Hp as [(Hb & f & Hf & Hl & _) Hp]. simpl in Hb, Hf, Hl.
  rewrite fmap_cons in Hnd. apply NoDup_cons in Hnd as [Hnin Hnd].
  destruct (remove_pair_quiet p d f Hq Hf) as [H1 H2].
  destruct (fs_remove p d) as [r d1]. simpl in H1, H2. subst r.
  destruct (fs_remove (with_extension p "json") d1) as [r2 d2]. simpl in H1. subst d2.
  pose proof (drop_body_total p f (files d) Hb Hf) as Htot.
  pose proof (total_bodies_nonneg cache (drop_body p (files d))) as Hnn.
  intros Hloop. apply IH in Hloop as (Hq' & Hnow & Ht' & removed & kept & -> & Hk & Hfiles); [|done|done| |].
  - split_and!; try done. exists ((tm, len, p) :: removed), kept. split_and!; [done|done|].
    intros q Hbq. rewrite (Hfiles q Hbq). simpl. rewrite drop_body_lookup by done.
    destruct (decide (q ∈ (snd <$> removed))) as [Hin|Hin].
    + rewrite decide_True; [done|]. by right.
    + destruct (decide (q = p)) as [->|Hne]; [rewrite decide_True; [done|by left]|].
      rewrite decide_False; [done|]. by intros [?|?]%elem_of_cons.
  - simpl. rewrite Forall_forall in Hp |- *. intros b Hin. apply present_drop; [|by apply Hp].
    intros <-. apply Hnin. simpl. by apply (list_elem_of_fmap_2 snd _ b).
  - simpl. unfold sat_sub_u64. lia.
Qed.

(** The entries of a directory listing, with their facts. *)
Lemma listing_present (d : fs) :
  let bodies := stat_of cache (files d)
    (fst <$> dir_order (filter (fun e => in_directory cache e.1 = true) (map_to_list (files d)))) in
  NoDup (snd <$> bodies) /\ Forall (present (files d)) bodies /\
  sum_len bodies = total_bodies cache (files d) /\
  (forall p f, is_body cache p = true -> files d !! p = Some f -> (modified f, file_len f, p) ∈ bodies).
Proof.
  set (l := dir_order _).
  assert (Hl : l ≡ₚ filter (fun e => in_directory cache e.1 = true) (map_to_list (files d)))
    by apply dir_order_perm.
  assert (Hin : forall e, e ∈ l -> files d !! e.1 = Some e.2).
  { intros [p f] He. rewrite Hl in He. apply list_elem_of_filter in He as [_ He].
    by apply elem_of_map_to_list in He. }
  cbv zeta. rewrite (stat_of_entries cache (files d) l Hin).
  set (g := fun e : string * file => if is_body cache e.1 then Some (modified e.2, file_len e.2, e.1) else None).
  split_and!.
  - assert (Hnd : NoDup (fst <$> l)).
    { rewrite Hl. apply (NoDup_fmap_fst _).
      - intros x y1 y2 H1 H2. apply list_elem_of_filter in H1 as [_ H1], H2 as [_ H2].
        apply elem_of_map_to_list in H1, H2. congruence.
      - apply NoDup_filter, NoDup_map_to_list. }
    clear Hl Hin. induction l as [|e l IH]; [constructor|]. rewrite omap_cons_eq.
    rewrite fmap_cons in Hnd. apply NoDup_cons in Hnd as [Hn Hnd]. specialize (IH Hnd).
    unfold g at 1. destruct (is_body cache e.1); [|done]. simpl. constructor; [|done].
    intros (x & Hx & (e' & He' & Hg)%list_elem_of_omap)%list_elem_of_fmap. apply Hn.
    unfold g in Hg. destruct (is_body cache e'.1); [|done]. injection Hg as <-. simpl in Hx.
    apply list_elem_of_fmap. exists e'. by split.
  - apply Forall_forall. intros b (e & He & Hg)%list_elem_of_omap. unfold g in Hg.
    destruct (is_body cache e.1) eqn:Hb; [|done]. injection Hg as <-. split; [done|].
    exists e.2. split; [by apply Hin|done].
  - rewrite (sum_len_perm _ (omap g (filter (fun e => in_directory cache e.1 = true) (map_to_list (files d)))))
      by (by rewrite Hl).
    apply sum_len_entries.
  - intros p f Hb Hf. apply list_elem_of_omap. exists (p, f). split.
    + rewrite Hl. apply list_elem_of_filter. split; [by apply is_body_in_directory|].
      by apply elem_of_map_to_list.
    + unfold g. simpl. by rewrite Hb.
Qed.
End Evict.

(** ** Lemmas: the four paths of an entry *)

Section Entry.
Context `{HeaderApi} `{UrlApi} `{CacheCodecLaws}.
Variable cache : CacheConfig.t.

Record entry_paths (b m : string) : Prop := {
  ep_body : is_body cache b = true;
  ep_meta : is_body cache m = false;
  ep_body_tmp : is_body cache (with_extension b "body.tmp") = false;
  ep_meta_tmp : is_body cache (with_extension m "json.tmp") = false;
  ep_b_m : b <> m;
  ep_b_bt : b <> with_extension b "body.tmp";
  ep_b_mt : b <> with_extension m "json.tmp";
  ep_m_bt : m <> with_extension b "body.tmp";
  ep_m_mt : m <> with_extension m "json.tmp";
  ep_bt_mt : with_extension b "body.tmp" <> with_extension m "json.tmp";
}.

Lemma cache_paths_entry (url : Url) (b m : string) : cache_paths cache url = Some (b, m) -> entry_paths b m.
Proof.
  unfold cache_paths. case_bool; [done|]. intros [= <- <-].
  destruct (digest_name (url_as_str url)) as (Hs & Hd & Hne). set (key := digest (url_as_str url)) in *.
  set (root := CacheConfig.directory cache).
  assert (Hw : forall x y, contains_char "/" x = false -> contains_char "." x = false ->
    with_extension (path_join root (key +:+ String "." x)) y = path_join root (key +:+ String "." y))
    by (intros; by apply with_extension_join).
  change ".body" with (String "." "body"). change ".json" with (String "." "json").
  assert (Hneq : forall x y : string, x <> y ->
    path_join root (key +:+ String "." x) <> path_join root (key +:+ String "." y)).
  { intros x y Hxy He%path_join_inj%str_app_inj_l. congruence. }
  assert (Hnb : forall x a z, String.rev x = String a z -> a <> "y"%char ->
    is_body cache (path_join root (key +:+ String "." x)) = false).
  { intros x a z Hx Ha. eapply (not_body_suffix cache _ (path_join root "" +:+ key) x a "y"); [|exact Hx|done|exact Ha].
    rewrite (path_join_prefix root (key +:+ _)). by rewrite str_app_assoc. }
  split; rewrite ?Hw by done; try (apply Hneq; discriminate).
  - unfold is_body. fold root. rewrite (path_join_prefix root (key +:+ _)), strip_prefix_app.
    rewrite contains_char_app, Hs. simpl. apply bool_decide_eq_true. unfold extension, split_name.
    assert (split_once "/" (String.rev (key +:+ ".body")) = None) as ->.
    { apply split_once_None. rewrite contains_char_rev, contains_char_app, Hs. done. }
    simpl. by rewrite (split_extension_dot key "body").
  - by eapply Hnb.
  - by eapply (Hnb "body.tmp").
  - by eapply (Hnb "json.tmp").
Qed.

(** The files after the two renames. *)
Definition written (b m body value : string) (d : fs) : gmap string file :=
  <[m := File value (now d)]> (delete (with_extension m "json.tmp")
    (<[b := File body (now d)]> (delete (with_extension b "body.tmp")
      (<[with_extension m "json.tmp" := File value (now d)]>
        (<[with_extension b "body.tmp" := File body (now d)]> (files d)))))).

Definition clean_tmp (b m : string) (d : fs) : fs :=
  (fs_remove (with_extension m "json.tmp") (fs_remove (with_extension b "body.tmp") d).2).2.

Lemma write_quiet (url : Url) (incoming h : HeaderMap) (code : Z) (body b m value : string)
    (md : DiskCacheMetadata) (st : state) :
  faults (disk st) = [] -> cache_paths cache url = Some (b, m) ->
  entry_metadata cache code h incoming (now (disk st)) = Some md -> to_vec md = Some value ->
  let prev := match files (disk st) !! b with Some f => file_len f | None => 0 end in
  let st1 := maintain_capacity cache prev (str_len body)
    (with_disk (set_files (written b m body value (disk st)) (disk st)) st) in
  write_disk_cache cache url incoming code h body st = with_disk (clean_tmp b m (disk st1)) st1.
Proof.
  intros Hq Hp He Hv. pose proof (cache_paths_entry _ _ _ Hp) as Hep. destruct Hep.
  unfold write_disk_cache. rewrite Hp, quiet_create_dir_all by done. cbn [with_disk disk].
  rewrite He, quiet_metadata by done. rewrite quiet_write by done. rewrite Hv.
  set (d1 := put _ body (disk st)). assert (Hq1 : faults d1 = []) by exact Hq.
  cbn [with_disk disk capacity instant]. rewrite (quiet_write d1 Hq1).
  set (d2 := put _ value d1). assert (Hq2 : faults d2 = []) by exact Hq.
  rewrite (quiet_rename d2 Hq2 _ _ (File body (now (disk st)))).
  2:{ unfold d2, d1, put. simpl. rewrite lookup_insert_ne by done. apply lookup_insert_eq. }
  set (d3 := set_files _ d2). assert (Hq3 : faults d3 = []) by exact Hq.
  cbn [with_disk disk capacity instant].
  rewrite (quiet_rename d3 Hq3 _ _ (File value (now (disk st)))).
  2:{ unfold d3, d2, d1, put. simpl. rewrite lookup_insert_ne by done.
      rewrite lookup_delete_ne by done. apply lookup_insert_eq. }
  cbn [with_disk disk capacity instant].
  assert (Hprev : match result_of_option (files (disk st) !! b) NotFound with
                  | Ok f => file_len f | Err _ => 0 end =
                  match files (disk st) !! b with Some f => file_len f | None => 0 end)
    by (by destruct (files (disk st) !! b)).
  rewrite Hprev. cbv zeta.
  match goal with |- _ = with_disk (clean_tmp _ _ (disk ?x)) ?x => set (st1 := x) end.
  match goal with |- context [maintain_capacity cache ?x ?y ?z] => change (maintain_capacity cache x y z) with st1 end.
  unfold clean_tmp.
  destruct (fs_remove (with_extension b "body.tmp") (disk st1)) as [r4 d4]. simpl.
  destruct (fs_remove (with_extension m "json.tmp") d4) as [r5 d5]. reflexivity.
Qed.

Lemma written_lookup (b m body value : string) (d : fs) :
  entry_paths b m ->
  written b m body value d !! b = Some (File body (now d)) /\
  written b m body value d !! m = Some (File value (now d)) /\
  (forall q, is_body cache q = true -> q <> b -> written b m body value d !! q = files d !! q).
Proof.
  intros []. unfold written. split_and!.
  - rewrite lookup_insert_ne by done. rewrite lookup_delete_ne by done. apply lookup_insert_eq.
  - apply lookup_insert_eq.
  - intros q Hq Hne.
    assert (q <> m) by congruence. assert (q <> with_extension m "json.tmp") by congruence.
    assert (q <> with_extension b "body.tmp") by congruence.
    rewrite lookup_insert_ne, lookup_delete_ne, lookup_insert_ne, lookup_delete_ne by done.
    by rewrite !lookup_insert_ne by done.
Qed.

Lemma written_total (b m body value : string) (d : fs) :
  entry_paths b m ->
  total_bodies cache (written b m body value d) + match files d !! b with Some f => file_len f | None => 0 end =
  total_bodies cache (files d) + str_len body.
Proof.
  intros []. unfold written.
  rewrite total_bodies_insert_other, total_bodies_delete_other, total_bodies_insert by done.
  rewrite (delete_delete _ b), total_bodies_delete_other by done.
  rewrite !delete_insert_ne by done. rewrite !total_bodies_insert_other by done.
  unfold weight. simpl. rewrite ep_body0. unfold file_len at 1. simpl.
  destruct (files d !! b) as [f|] eqn:Hf.
  - rewrite (total_bodies_delete cache (files d) b f Hf). unfold weight. simpl. rewrite ep_body0. lia.
  - rewrite delete_id by done. lia.
Qed.
End Entry.

(** ** Lemmas: the accounting *)

Section Accounting.
Context `{HeaderApi} `{UrlApi} `{CacheCodecLaws}.
Variable cache : CacheConfig.t.

Lemma total_bodies_zero (m : gmap string file) :
  (forall p f, m !! p = Some f -> is_body cache p = false) -> total_bodies cache m = 0.
Proof.
  intros Hb. unfold total_bodies, sumZ.
  assert (Hall : Forall (fun e => is_body cache e.1 = false) (map_to_list m)).
  { apply Forall_forall. intros [p f] He%elem_of_map_to_list. by eapply Hb. }
  induction Hall as [|e l He Hl IH]; [done|]. rewrite fmap_cons. cbn [foldr]. rewrite IH.
  unfold weight. by rewrite He.
Qed.

Lemma max_cache_total_nonneg : 0 <= CacheConfig.max_total_mb cache -> 0 <= max_cache_total_bytes cache.
Proof. unfold max_cache_total_bytes, sat_mul_u64, U64_MAX. lia. Qed.

(** Eviction without faults: the bytes it reports are those on the disk and
    fit the limit; the bodies it removed are the oldest. *)
Lemma evict_quiet (d d' : fs) (t : Z) :
  faults d = [] -> 0 <= CacheConfig.max_total_mb cache -> evict_disk_cache cache d = (t, d') ->
  faults d' = [] /\ now d' = now d /\ t = total_bodies cache (files d') /\ t <= max_cache_total_bytes cache /\
  (total_bodies cache (files d) <= max_cache_total_bytes cache -> d' = d) /\
  (forall p, is_body cache p = true -> files d' !! p = files d !! p \/ files d' !! p = None) /\
  (forall p q f g, is_body cache p = true -> is_body cache q = true ->
     files d !! p = Some f -> files d' !! p = None -> files d' !! q = Some g -> modified f <= modified g).
Proof.
  intros Hq Hmax. unfold evict_disk_cache. rewrite read_dir_quiet, stat_bodies_quiet by done.
  destruct (listing_present cache d) as (Hnd & Hpres & Hsum & Hin).
  set (bodies := stat_of _ _ _) in *. rewrite Hsum.
  destruct (Z.leb_spec (total_bodies cache (files d)) (max_cache_total_bytes cache)) as [Hle|Hgt].
  { intros [= <- <-]. split_and!; auto. congruence. }
  intros Hloop. pose proof (sort_by_perm by_time bodies) as Hperm.
  apply evict_loop_quiet in Hloop as (Hq' & Hnow & Ht & removed & kept & Hrk & Hstop & Hfiles);
    [|done|by rewrite Hperm|by rewrite Hperm|done].
  assert (Hmem : forall p f, is_body cache p = true -> files d !! p = Some f ->
    (modified f, file_len f, p) ∈ removed ++ kept) by (intros; rewrite <- Hrk, Hperm; auto).
  split_and!; [done|done|done| |lia| |].
  - destruct Hstop as [?|Hk]; [done|]. rewrite Ht, total_bodies_zero; [by apply max_cache_total_nonneg|].
    intros p f Hpf. destruct (is_body cache p) eqn:Hb; [|done]. rewrite (Hfiles p Hb) in Hpf.
    case_decide as Hd; [done|]. exfalso. apply Hd. specialize (Hmem p f Hb Hpf).
    rewrite Hk, app_nil_r in Hmem. by apply (list_elem_of_fmap_2 snd _ (modified f, file_len f, p)).
  - intros p Hb. rewrite (Hfiles p Hb). case_decide; auto.
  - intros p q f g Hbp Hbq Hp Hp' Hq1. rewrite (Hfiles p Hbp) in Hp'. rewrite (Hfiles q Hbq) in Hq1.
    destruct (decide (p ∈ (snd <$> removed))) as [Hdp|]; [|congruence].
    destruct (decide (q ∈ (snd <$> removed))) as [|Hdq]; [done|].
    assert (Hpr : (modified f, file_len f, p) ∈ removed).
    { apply list_elem_of_fmap in Hdp as ([[tm len] p'] & Hpp & He). simpl in Hpp. subst p'.
      assert (He' : (tm, len, p) ∈ bodies) by (rewrite <- Hperm, Hrk; by apply elem_of_app; left).
      rewrite Forall_forall in Hpres. destruct (Hpres _ He') as (_ & f' & Hf' & Hl & Hm).
      simpl in *. simplify_eq. done. }
    assert (Hqk : (modified g, file_len g, q) ∈ kept).
    { pose proof (Hmem q g Hbq Hq1) as [Hr|Hk]%elem_of_app; [|done]. exfalso. apply Hdq.
      by apply (list_elem_of_fmap_2 snd _ (modified g, file_len g, q)). }
    assert (Hsorted : StronglySorted (fun a b => by_time a b = true) (removed ++ kept)).
    { rewrite <- Hrk. apply sort_by_sorted; unfold by_time; intros; rewrite ?Z.leb_le in *; lia. }
    pose proof (StronglySorted_app_1_elem_of _ _ _ _ _ Hsorted Hpr Hqk) as Hle.
    unfold by_time in Hle. bool_to_prop. exact Hle.
Qed.

(** The incremental count is the truth and within the limit. *)
Definition accounted (st : state) : Prop :=
  match capacity st with
  | Some c => capacity_applies cache c = true ->
              bytes c = total_bodies cache (files (disk st)) /\ bytes c <= max_cache_total_bytes cache
  | None => True
  end.

(** What the count must be before [maintain_capacity] corrects it. *)
Definition pending (previous written : Z) (st : state) : Prop :=
  match capacity st with
  | Some c => capacity_applies cache c = true ->
              bytes c + written = total_bodies cache (files (disk st)) + previous
  | None => True
  end.

Lemma maintain_quiet (prev len : Z) (st : state) :
  faults (disk st) = [] -> 0 <= CacheConfig.max_total_mb cache -> 0 <= prev -> 0 <= len ->
  total_bodies cache (files (disk st)) <= U64_MAX -> len <= total_bodies cache (files (disk st)) ->
  pending prev len st ->
  let st' := maintain_capacity cache prev len st in
  accounted st' /\ faults (disk st') = [] /\
  (total_bodies cache (files (disk st)) <= max_cache_total_bytes cache -> disk st' = disk st).
Proof.
  intros Hq Hmax Hp0 Hl0 Htot Hlen Hpend. cbv zeta. unfold maintain_capacity.
  assert (Hre : forall bytes d, evict_disk_cache cache (disk st) = (bytes, d) ->
    accounted {| disk := d;
      capacity := Some {| directory := CacheConfig.directory cache; max_bytes := max_cache_total_bytes cache;
                          bytes := bytes; checked_at := instant st |};
      instant := instant st |} /\ faults d = [] /\
    (total_bodies cache (files (disk st)) <= max_cache_total_bytes cache -> d = disk st)).
  { intros bytes d He. destruct (evict_quiet _ _ _ Hq Hmax He) as (Hq' & _ & Ht & Hle & Hid & _).
    split; [|done]. intros _. done. }
  destruct (evict_disk_cache cache (disk st)) as [t d] eqn:He. specialize (Hre t d eq_refl).
  unfold pending in Hpend. destruct (capacity st) as [c|] eqn:Hc; [|exact Hre].
  destruct (capacity_applies cache c) eqn:Ha; [|exact Hre]. specialize (Hpend eq_refl).
  cbn [bytes max_bytes checked_at].
  destruct (sat_add_u64 (sat_sub_u64 (bytes c) prev) len <=? max_bytes c) eqn:Hfit; [|exact Hre].
  destruct (instant st - checked_at c <? 30 * NANOS); [|exact Hre]. simpl.
  split; [|done]. unfold accounted. simpl. intros _.
  assert (Hm : max_bytes c = max_cache_total_bytes cache)
    by (unfold capacity_applies in Ha; by apply andb_true_iff in Ha as [_ ?%Z.eqb_eq]).
  bool_to_prop. unfold sat_add_u64, sat_sub_u64, U64_MAX in *. split; lia.
Qed.

Lemma clean_tmp_total (b m : string) (d : fs) :
  faults d = [] -> entry_paths cache b m ->
  total_bodies cache (files (clean_tmp b m d)) = total_bodies cache (files d) /\
  faults (clean_tmp b m d) = [] /\
  (forall q, is_body cache q = true -> files (clean_tmp b m d) !! q = files d !! q) /\
  files (clean_tmp b m d) !! m = files d !! m.
Proof.
  intros Hq []. unfold clean_tmp.
  destruct (quiet_remove d Hq (with_extension b "body.tmp")) as [H1' _]. rewrite H1'.
  set (d1 := set_files _ d). destruct (quiet_remove d1 Hq (with_extension m "json.tmp")) as [H2' _]. rewrite H2'.
  unfold d1. simpl. split_and!; [|done| |].
  - by rewrite !total_bodies_delete_other.
  - intros q Hb. by rewrite !lookup_delete_ne by congruence.
  - by rewrite !lookup_delete_ne by congruence.
Qed.
End Accounting.
