(* ===== verification/CacheCodec.v ===== *)
(** * A concrete codec for cache metadata

    An instance of [Cache.CacheCodec] for the witnesses: metadata as fields
    joined with [|], strings as pairs of letters, digests as such strings. *)
From stdpp Require Import gmap.
From S2P Require Import Prelude RustStr Fs Cache.
Open Scope Z_scope.

Definition nibble (a b c d : bool) : ascii :=
  (* the letters from 'a' to 'p' *)
  ascii_of_nat (97 + ((if a then 1 else 0) + (if b then 2 else 0) + (if c then 4 else 0) + (if d then 8 else 0))).

Definition denibble (c : ascii) : list bool :=
  let n := (nat_of_ascii c - 97)%nat in
  [Nat.odd n; Nat.odd (n / 2); Nat.odd (n / 4); Nat.odd (n / 8)].

Fixpoint letters (s : string) : string :=
  match s with
  | EmptyString => ""
  | String (Ascii a b c d e f g h) t => String (nibble a b c d) (String (nibble e f g h) (letters t))
  end.

Fixpoint unletters (s : string) : string :=
  match s with
  | String x (String y t) =>
      match denibble x, denibble y with
      | [a; b; c; d], [e; f; g; h] => String (Ascii a b c d e f g h) (unletters t)
      | _, _ => ""
      end
  | _ => ""
  end.

Fixpoint pos_bits (p : positive) : string :=
  match p with
  | xH => ""
  | xO p => String "0" (pos_bits p)
  | xI p => String "1" (pos_bits p)
  end.

Fixpoint bits_pos (s : string) : positive :=
  match s with
  | EmptyString => xH
  | String c t => if Ascii.eqb c "1" then xI (bits_pos t) else xO (bits_pos t)
  end.

Definition z_text (z : Z) : string :=
  match z with Z0 => "z" | Zpos p => String "p" (pos_bits p) | Zneg p => String "n" (pos_bits p) end.

Definition text_z (s : string) : Z :=
  match s with
  | String c t => if Ascii.eqb c "p" then Zpos (bits_pos t) else if Ascii.eqb c "n" then Zneg (bits_pos t) else 0
  | EmptyString => 0
  end.

Definition pairs_text (l : list (string * string)) : string :=
  str_join "," ("" :: concat ((fun e => [letters e.1; letters e.2]) <$> l)).

Fixpoint pair_up (l : list string) : list (string * string) :=
  match l with
  | a :: b :: t => (unletters a, unletters b) :: pair_up t
  | _ => []
  end.

Definition text_pairs (s : string) : list (string * string) := pair_up (List.tl (str_split "," s)).

Definition metadata_text (m : DiskCacheMetadata) : string :=
  str_join "|" [z_text (status m); pairs_text (headers m); z_text (stored_at m); z_text (expires_at m);
                pairs_text (vary m)].

Definition text_metadata (s : string) : option DiskCacheMetadata :=
  match str_split "|" s with
  | [a; b; c; d; e] =>
      Some {| status := text_z a; headers := text_pairs b; stored_at := text_z c; expires_at := text_z d;
              vary := text_pairs e |}
  | _ => None
  end.

#[export] Instance SampleCodec : CacheCodec := {|
  digest s := String "k" (letters s);
  to_vec m := Some (metadata_text m);
  from_slice := text_metadata;
  dir_order l := l;
|}.

Lemma unletters_letters (s : string) : unletters (letters s) = s.
Proof.
  induction s as [|[a b c d e f g h] s IH]; [done|]. cbn [letters unletters]. rewrite IH.
  by destruct a, b, c, d, e, f, g, h.
Qed.

Lemma text_z_text (z : Z) : text_z (z_text z) = z.
Proof. destruct z as [|p|p]; simpl; [done| |]; f_equal; induction p; simpl; by f_equal. Qed.

Definition is_letter (c : ascii) : bool := (97 <=? byte_val c) && (byte_val c <=? 122).

Lemma letters_are_letters (s : string) : all_bytes is_letter (letters s) = true.
Proof.
  induction s as [|[a b c d e f g h] s IH]; [done|]. cbn [letters all_bytes]. rewrite IH.
  by destruct a, b, c, d, e, f, g, h.
Qed.

Definition is_text (c : ascii) : bool := is_letter c || is_digit c || Ascii.eqb c ",".

Lemma z_text_chars (z : Z) : all_bytes is_text (z_text z) = true.
Proof. destruct z as [|p|p]; simpl; [done| |]; induction p; simpl; try done. Qed.

Lemma pairs_tokens (l : list (string * string)) :
  Forall (fun s => all_bytes is_letter s = true) ("" :: concat ((fun e => [letters e.1; letters e.2]) <$> l)).
Proof.
  constructor; [done|]. induction l as [|e l IH]; simpl; [constructor|].
  repeat (constructor; [apply letters_are_letters|]). exact IH.
Qed.

Lemma pairs_text_chars (l : list (string * string)) : all_bytes is_text (pairs_text l) = true.
Proof.
  apply all_bytes_join; [done|]. eapply Forall_impl; [apply pairs_tokens|].
  intros s Hs. eapply all_bytes_impl; [|exact Hs]. unfold is_text. by intros c ->.
Qed.

Lemma text_pairs_text (l : list (string * string)) : text_pairs (pairs_text l) = l.
Proof.
  unfold text_pairs, pairs_text. rewrite str_split_join; [|done|].
  2:{ eapply Forall_impl; [apply pairs_tokens|]. intros s Hs. by eapply (all_bytes_no_char is_letter). }
  cbn [List.tl]. induction l as [|[a b] l IH]; [done|].
  rewrite fmap_cons. cbn [concat app pair_up fst snd]. by rewrite !unletters_letters, IH.
Qed.

#[export] Instance SampleCodec_laws : CacheCodecLaws.
Proof.
  split.
  - intros m s [= <-]. simpl. unfold text_metadata, metadata_text.
    rewrite str_split_join; [|done|].
    + rewrite !text_z_text, !text_pairs_text. by destruct m.
    + repeat constructor; eapply (all_bytes_no_char is_text); try done;
        auto using z_text_chars, pairs_text_chars.
  - intros u. simpl. split_and!; [| |done]; eapply (all_bytes_no_char is_letter); try done; apply letters_are_letters.
  - done.
Qed.
