(* ===== verification/CacheSpec.v ===== *)
(** * What the response cache guarantees

    Theorems about [Cache]: what is never stored, lifetimes, the round trip of
    an entry, variants, eviction order, exact accounting over every sequence
    of operations, purging, and one interleaving that mixes two entries. *)
From stdpp Require Import gmap.
From S2P Require Import Prelude RustStr Headers Url Config Upstreams Fs Cache CacheCodec.
Open Scope Z_scope.

(** ** Sequences of operations *)

Section Trace.
Context `{HeaderApi} `{UrlApi} `{CacheCodec}.
Variable cache : CacheConfig.t.

(** One call of [cache_work], or time passing. *)
Inductive step : state -> state -> Prop :=
| step_load url incoming st :
    step st (with_disk (load_disk_cache cache url incoming (disk st)).2 st)
| step_write url incoming code h body st :
    (* the disk holds fewer than 2^64 bytes *)
    total_bodies cache (files (disk st)) + str_len body <= U64_MAX ->
    step st (write_disk_cache cache url incoming code h body st)
| step_refresh url m h st :
    step st (refresh_cache_metadata cache url m h st).2
| step_purge st :
    step st (purge_disk_cache cache st).2
| step_time dt st :
    0 <= dt ->
    step st {| disk := Fs (files (disk st)) (faults (disk st)) (now (disk st) + dt);
               capacity := capacity st; instant := instant st + dt |}.

(** The states reached from a fresh process on some disk, without faults. *)
Inductive reachable : state -> Prop :=
| reach_start d i : faults d = [] -> reachable {| disk := d; capacity := None; instant := i |}
| reach_step st st' : reachable st -> step st st' -> reachable st'.
End Trace.

(** ** Lemmas *)

Section Lemmas.
Context `{HeaderApi} `{UrlApi} `{CacheCodecLaws}.
Variable cache : CacheConfig.t.

Lemma put_same_total (p : string) (f : file) (d : fs) :
  files d !! p = Some f -> total_bodies cache (files (put p (data f) d)) = total_bodies cache (files d).
Proof.
  intros Hf. unfold put. simpl. rewrite total_bodies_insert, (total_bodies_delete cache (files d) p f Hf).
  reflexivity.
Qed.

Lemma load_quiet (url : Url) (incoming : HeaderMap) (d : fs) :
  faults d = [] ->
  let d' := (load_disk_cache cache url incoming d).2 in
  faults d' = [] /\ total_bodies cache (files d') = total_bodies cache (files d).
Proof.
  intros Hq. unfold load_disk_cache. destruct (cache_paths cache url) as [[b m]|]; [|done].
  rewrite quiet_read by done. destruct (files d !! m) as [f|]; [|done].
  destruct (from_slice (data f)) as [md|]; [|done]. case_bool; [done|].
  rewrite quiet_metadata by done. destruct (files d !! b) as [g|] eqn:Hg; simpl; [|done].
  case_bool; [done|]. rewrite quiet_read by done. rewrite Hg.
  pose proof (quiet_touch d Hq b g Hg) as Ht. destruct (fs_touch b d) as [r d1]. simpl in *. subst d1.
  split; [done|]. by apply put_same_total.
Qed.

Lemma write_total (url : Url) (incoming h : HeaderMap) (code : Z) (body : string) (st : state) :
  faults (disk st) = [] -> 0 <= CacheConfig.max_total_mb cache -> accounted cache st ->
  total_bodies cache (files (disk st)) + str_len body <= U64_MAX ->
  let st' := write_disk_cache cache url incoming code h body st in
  faults (disk st') = [] /\ accounted cache st'.
Proof.
  intros Hq Hmax Hacc Hsmall. cbv zeta. destruct (cache_paths cache url) as [[b m]|] eqn:Hp.
  2:{ unfold write_disk_cache. by rewrite Hp. }
  destruct (entry_metadata cache code h incoming (now (disk st))) as [md|] eqn:He.
  2:{ unfold write_disk_cache. rewrite Hp, quiet_create_dir_all by done. cbn [with_disk disk]. by rewrite He. }
  pose proof (cache_paths_entry cache url b m Hp) as Hep.
  destruct (to_vec md) as [value|] eqn:Hv.
  2:{ unfold write_disk_cache. rewrite Hp, quiet_create_dir_all by done. cbn [with_disk disk].
      rewrite He, quiet_metadata, quiet_write, Hv by done. split; [done|].
      unfold accounted in *. simpl. destruct (capacity st); [|done]. intros Ha.
      rewrite total_bodies_insert_other by apply Hep. by apply Hacc. }
  rewrite (write_quiet cache url incoming h code body b m value md st Hq Hp He Hv).
  set (prev := match files (disk st) !! b with Some f => file_len f | None => 0 end).
  set (st0 := with_disk (set_files (written b m body value (disk st)) (disk st)) st).
  pose proof (written_total cache b m body value (disk st) Hep) as Htot. fold prev in Htot.
  assert (Hprev : 0 <= prev).
  { unfold prev. destruct (files (disk st) !! b); [apply file_len_nonneg|lia]. }
  assert (Hprev' : prev <= total_bodies cache (files (disk st))).
  { unfold prev. destruct (files (disk st) !! b) as [f|] eqn:Hf; [|apply total_bodies_nonneg].
    rewrite (total_bodies_delete cache _ b f Hf). unfold weight. simpl. rewrite (ep_body _ _ _ Hep).
    pose proof (total_bodies_nonneg cache (delete b (files (disk st)))). lia. }
  assert (Hlen : 0 <= str_len body) by (unfold str_len; lia).
  destruct (maintain_quiet cache prev (str_len body) st0) as (Ha & Hf & _); try done; try (simpl; lia).
  { unfold pending, accounted in *. simpl. destruct (capacity st) as [c|]; [|done]. intros Hap.
    destruct (Hacc Hap) as [-> _]. lia. }
  destruct (clean_tmp_total cache b m (disk (maintain_capacity cache prev (str_len body) st0)) Hf Hep)
    as (Ht & Hf' & _).
  split; [exact Hf'|]. unfold accounted in *. simpl.
  destruct (capacity (maintain_capacity cache prev (str_len body) st0)); [|done].
  intros Hap. rewrite Ht. by apply Ha.
Qed.

Lemma refresh_quiet (url : Url) (m : DiskCacheMetadata) (h : HeaderMap) (st : state) :
  faults (disk st) = [] ->
  let st' := (refresh_cache_metadata cache url m h st).2 in
  faults (disk st') = [] /\ total_bodies cache (files (disk st')) = total_bodies cache (files (disk st)) /\
  capacity st' = capacity st.
Proof.
  intros Hq. unfold refresh_cache_metadata. destruct (refreshed cache m h (now (disk st))) as [md|]; [|done].
  destruct (cache_paths cache url) as [[b mp]|] eqn:Hp; [|done].
  destruct (to_vec md) as [value|]; [|done]. pose proof (cache_paths_entry cache url b mp Hp) as Hep.
  rewrite quiet_write by done. set (d1 := put _ value (disk st)).
  rewrite (quiet_rename d1 Hq _ _ (File value (now (disk st)))) by apply lookup_insert_eq.
  simpl. split_and!; [done| |done]. destruct Hep.
  by rewrite total_bodies_insert_other, total_bodies_delete_other, total_bodies_insert_other.
Qed.

Lemma header_or_empty_lower (h : HeaderMap) (n : string) :
  header_or_empty h (to_ascii_lowercase n) = header_or_empty h n.
Proof. unfold header_or_empty, h_get_str, h_get, h_get_all. by rewrite lower_idem. Qed.

(** The request that stored an entry matches it. *)
Lemma entry_no_mismatch (code now : Z) (h incoming : HeaderMap) (md : DiskCacheMetadata) :
  entry_metadata cache code h incoming now = Some md -> vary_mismatch incoming md = false.
Proof.
  unfold entry_metadata, cache_vary. repeat case_match; try done. intros [= <-]. simplify_eq.
  unfold vary_mismatch. cbn [vary].
  generalize (vary_names h). intros names. clear. induction names as [|n l IH]; [done|].
  rewrite fmap_cons. cbn [existsb]. rewrite IH, header_or_empty_lower, String.eqb_refl. reflexivity.
Qed.

(** Loading an entry whose two files are there. *)
Lemma load_present (url : Url) (incoming : HeaderMap) (d : fs) (b m : string) (fb fm : file)
    (md : DiskCacheMetadata) :
  faults d = [] -> cache_paths cache url = Some (b, m) -> files d !! b = Some fb -> files d !! m = Some fm ->
  from_slice (data fm) = Some md -> vary_mismatch incoming md = false ->
  file_len fb <= max_cache_entry_bytes cache ->
  (load_disk_cache cache url incoming d).1 = Some {| body := data fb; metadata := md |}.
Proof.
  intros Hq Hp Hb Hm Hs Hv Hl. unfold load_disk_cache. rewrite Hp, quiet_read, Hm, Hs, Hv by done.
  rewrite quiet_metadata, Hb by done. simpl. rewrite (proj2 (Z.ltb_ge _ _) Hl).
  rewrite quiet_read, Hb by done. by destruct (fs_touch b d).
Qed.

(** The two files after a write that fits. *)
Lemma write_fits (url : Url) (incoming h : HeaderMap) (code : Z) (body value b m : string)
    (md : DiskCacheMetadata) (st : state) :
  faults (disk st) = [] -> 0 <= CacheConfig.max_total_mb cache -> accounted cache st ->
  cache_paths cache url = Some (b, m) ->
  entry_metadata cache code h incoming (now (disk st)) = Some md -> to_vec md = Some value ->
  total_bodies cache (files (disk st)) + str_len body <= max_cache_total_bytes cache ->
  let d := disk (write_disk_cache cache url incoming code h body st) in
  faults d = [] /\ files d !! b = Some (File body (now (disk st))) /\
  files d !! m = Some (File value (now (disk st))) /\
  (forall q, is_body cache q = true -> q <> b -> files d !! q = files (disk st) !! q).
Proof.
  intros Hq Hmax Hacc Hp He Hv Hfit. pose proof (cache_paths_entry cache url b m Hp) as Hep.
  rewrite (write_quiet cache url incoming h code body b m value md st Hq Hp He Hv). cbv zeta.
  set (prev := match files (disk st) !! b with Some f => file_len f | None => 0 end).
  set (st0 := with_disk (set_files (written b m body value (disk st)) (disk st)) st).
  pose proof (written_total cache b m body value (disk st) Hep) as Htot. fold prev in Htot.
  assert (Hprev : 0 <= prev).
  { unfold prev. destruct (files (disk st) !! b); [apply file_len_nonneg|lia]. }
  assert (Hprev' : prev <= total_bodies cache (files (disk st))).
  { unfold prev. destruct (files (disk st) !! b) as [f|] eqn:Hf; [|apply total_bodies_nonneg].
    rewrite (total_bodies_delete cache _ b f Hf). unfold weight. simpl. rewrite (ep_body _ _ _ Hep).
    pose proof (total_bodies_nonneg cache (delete b (files (disk st)))). lia. }
  assert (Hlen : 0 <= str_len body) by (unfold str_len; lia).
  assert (Hcap : max_cache_total_bytes cache <= U64_MAX) by (unfold max_cache_total_bytes, sat_mul_u64; lia).
  destruct (maintain_quiet cache prev (str_len body) st0) as (_ & Hf & Hsame); try done; try (simpl; lia).
  { unfold pending, accounted in *. simpl. destruct (capacity st) as [c|]; [|done]. intros Hap.
    destruct (Hacc Hap) as [-> _]. lia. }
  destruct (clean_tmp_total cache b m (disk (maintain_capacity cache prev (str_len body) st0)) Hf Hep)
    as (_ & Hf' & Hbodies & Hmeta).
  destruct (written_lookup cache b m body value (disk st) Hep) as (Hb & Hm & Hother).
  rewrite Hsame in * by (simpl; lia). cbn [disk with_disk]. split_and!; [done| | |].
  - rewrite Hbodies by apply Hep. exact Hb.
  - rewrite Hmeta. exact Hm.
  - intros q Hbq Hne. rewrite Hbodies by done. by apply Hother.
Qed.

Lemma purge_loop_quiet (paths : list string) : forall n d,
  faults d = [] ->
  let d' := (purge_loop paths n d).2 in
  faults d' = [] /\
  (forall p, p ∈ paths -> purgeable p = true -> files d' !! p = None) /\
  (forall p, p ∉ paths \/ purgeable p = false -> files d' !! p = files d !! p).
Proof.
  induction paths as [|q paths IH]; intros n d Hq; simpl.
  { split_and!; [done| |done]. by intros p ?%elem_of_nil. }
  destruct (purgeable q) eqn:Hpq.
  - destruct (quiet_remove d Hq q) as [Hr _]. destruct (fs_remove q d) as [r d1]. simpl in Hr. subst d1.
    set (k := match r with Ok _ => _ | Err _ => _ end).
    destruct (IH k (set_files (delete q (files d)) d) Hq) as (H1' & H2' & H3'). split_and!; [done| |].
    + intros p Hin Hp. destruct (decide (p ∈ paths)) as [Hd|Hd]; [by apply H2'|].
      rewrite H3' by auto. simpl. apply elem_of_cons in Hin as [->|]; [apply lookup_delete_eq|done].
    + intros p Hp. assert (p <> q) by (destruct Hp as [Hp|Hp]; [by intros ->; apply Hp; left|congruence]).
      rewrite H3'; [simpl; by rewrite lookup_delete_ne|]. destruct Hp as [Hp|]; [left|by right].
      intros Hin. apply Hp. by right.
  - destruct (IH n d Hq) as (H1' & H2' & H3'). split_and!; [done| |].
    + intros p [->|Hin]%elem_of_cons Hp; [congruence|by apply H2'].
    + intros p [Hp|Hp]; apply H3'; [left|by right]. intros Hin. apply Hp. by right.
Qed.

(** The paths of [read_dir]. *)
Lemma listed_paths (d : fs) (p : string) :
  p ∈ (fst <$> dir_order (filter (fun e => in_directory cache e.1 = true) (map_to_list (files d)))) <->
  in_directory cache p = true /\ is_Some (files d !! p).
Proof.
  rewrite dir_order_perm, list_elem_of_fmap. split.
  - intros ([q f] & -> & [Hd Hin]%list_elem_of_filter). apply elem_of_map_to_list in Hin. simpl in *.
    split; [done|by eexists].
  - intros [Hd [f Hf]]. exists (p, f). split; [done|]. apply list_elem_of_filter. split; [done|].
    by apply elem_of_map_to_list.
Qed.

Lemma cache_paths_meta (url : Url) (b m : string) :
  cache_paths cache url = Some (b, m) -> in_directory cache m = true /\ purgeable m = true.
Proof.
  unfold cache_paths. case_bool; [done|]. intros [= <- <-].
  destruct (digest_name (url_as_str url)) as (Hs & Hd & Hne). set (key := digest (url_as_str url)) in *.
  split.
  - unfold in_directory. rewrite (path_join_prefix _ (key +:+ ".json")), strip_prefix_app.
    rewrite contains_char_app, Hs. by destruct key.
  - unfold purgeable. change ".json" with (String "." "json"). by rewrite extension_join.
Qed.

Lemma load_absent (url : Url) (incoming : HeaderMap) (d : fs) :
  faults d = [] -> (forall b m, cache_paths cache url = Some (b, m) -> files d !! m = None) ->
  (load_disk_cache cache url incoming d).1 = None.
Proof.
  intros Hq Hm. unfold load_disk_cache. destruct (cache_paths cache url) as [[b m]|] eqn:E; [|done].
  by rewrite quiet_read, (Hm b m) by done.
Qed.

Lemma load_vary (url : Url) (incoming : HeaderMap) (d d' : fs) (entry : DiskCacheEntry) :
  load_disk_cache cache url incoming d = (Some entry, d') -> vary_mismatch incoming (metadata entry) = false.
Proof.
  unfold load_disk_cache. destruct (cache_paths cache url) as [[b m]|]; [|done].
  destruct (fs_read m d) as [[raw|] d1]; [|done]. destruct (from_slice raw) as [md|]; [|done].
  destruct (vary_mismatch incoming md) eqn:Hv; [done|].
  destruct (fs_metadata b d1) as [[info|] d2]; [|done]. case_bool; [done|].
  destruct (fs_read b d2) as [[body|] d3]; [|done]. destruct (fs_touch b d3) as [r d4].
  by intros [= <- <-].
Qed.

Lemma refresh_files (url : Url) (m m' : DiskCacheMetadata) (h : HeaderMap) (st : state) (b mp value : string) :
  faults (disk st) = [] -> cache_paths cache url = Some (b, mp) ->
  refreshed cache m h (now (disk st)) = Some m' -> to_vec m' = Some value ->
  let d := disk (refresh_cache_metadata cache url m h st).2 in
  faults d = [] /\ files d !! mp = Some (File value (now (disk st))) /\ files d !! b = files (disk st) !! b.
Proof.
  intros Hq Hp Hr Hv. unfold refresh_cache_metadata. rewrite Hr, Hp, Hv.
  rewrite quiet_write by done. set (d1 := put _ value (disk st)).
  rewrite (quiet_rename d1 Hq _ _ (File value (now (disk st)))) by apply lookup_insert_eq.
  destruct (cache_paths_entry cache url b mp Hp). cbn [snd with_disk disk files faults set_files]. split_and!; [done| |].
  - apply lookup_insert_eq.
  - rewrite lookup_insert_ne, lookup_delete_ne by done. unfold d1, put. simpl. by rewrite lookup_insert_ne by done.
Qed.
End Lemmas.

(** ** Properties *)

Section Guarantees.
Context `{HeaderApi} `{UrlApi} `{CacheCodecLaws}.
Variable cache : CacheConfig.t.

(** C34: exact accounting. In every state reached without I/O faults, over
    every sequence of loads, writes, refreshes and purges, the incremental
    byte count (when there is one for this directory and limit) is the number
    of body bytes on the disk, and it is within the configured limit. *)
Theorem cache_accounting (st : state) (c : Capacity) :
  0 <= CacheConfig.max_total_mb cache ->
  reachable cache st -> capacity st = Some c -> capacity_applies cache c = true ->
  bytes c = total_bodies cache (files (disk st)) /\
  total_bodies cache (files (disk st)) <= max_cache_total_bytes cache.
Proof.
  intros Hmax Hr Hc Ha.
  assert (Hinv : faults (disk st) = [] /\ accounted cache st).
  { clear Hc Ha. induction Hr as [d i Hd|st st' _ [Hq Hacc] Hstep]; [done|].
    destruct Hstep as [url incoming st|url incoming code h body st Hs|url m h st|st|dt st Hdt].
    - destruct (load_quiet cache url incoming (disk st) Hq) as [Hq' Ht]. split; [done|].
      unfold accounted in *. simpl. by rewrite Ht.
    - by apply write_total.
    - destruct (refresh_quiet cache url m h st Hq) as (Hq' & Ht & Hcap). split; [done|].
      unfold accounted in *. by rewrite Ht, Hcap.
    - unfold purge_disk_cache. rewrite read_dir_quiet by done.
      match goal with |- context [purge_loop ?l 0 ?d] =>
        pose proof (purge_loop_quiet l 0 d Hq) as (Hq' & _); destruct (purge_loop l 0 d) as [n d'] end.
      done.
    - done. }
  destruct Hinv as [_ Hacc]. unfold accounted in Hacc. rewrite Hc in Hacc. destruct (Hacc Ha). lia.
Qed.

(** Eviction keeps the most recently used bodies: whatever order the
    directory is listed in, what is left fits the limit, nothing is removed
    when everything fits, and no removed body was used after a kept one. *)
Theorem eviction_is_lru (d d' : fs) (total : Z) :
  faults d = [] -> 0 <= CacheConfig.max_total_mb cache -> evict_disk_cache cache d = (total, d') ->
  total = total_bodies cache (files d') /\ total <= max_cache_total_bytes cache /\
  (total_bodies cache (files d) <= max_cache_total_bytes cache -> d' = d) /\
  (forall p q f g, is_body cache p = true -> is_body cache q = true ->
     files d !! p = Some f -> files d' !! p = None -> files d' !! q = Some g -> modified f <= modified g).
Proof. intros Hq Hm He. by destruct (evict_quiet cache d d' total Hq Hm He) as (_ & _ & ? & ? & ? & _ & ?). Qed.

(** What must not be stored is not: a response with [no-store], [private]
    or [no-cache], with a cookie, or varying on everything changes no file,
    whatever the file system reports. *)
Theorem uncacheable_not_stored (url : Url) (incoming h : HeaderMap) (code : Z) (body : string) (st : state) :
  existsb forbidden_directive (cache_directives h) = true \/ h_contains h "set-cookie" = true \/
  existsb (String.eqb "*") (vary_names h) = true ->
  files (disk (write_disk_cache cache url incoming code h body st)) = files (disk st) /\
  capacity (write_disk_cache cache url incoming code h body st) = capacity st.
Proof.
  intros Hcase. assert (Hn : forall now, entry_metadata cache code h incoming now = None).
  { intros now. unfold entry_metadata, cache_lifetime, cache_vary. destruct Hcase as [-> |[-> | ->]]; [done| |];
      repeat case_match; done. }
  unfold write_disk_cache. destruct (cache_paths cache url) as [[b m]|]; [|done].
  pose proof (fs_create_dir_all_files (split_name b).2 (disk st)) as Hf.
  destruct (fs_create_dir_all _ _) as [[[]|e] d]; [|done]. by rewrite Hn.
Qed.

(** A stored lifetime is positive and never longer than the configured
    maximum; an explicit age is respected up to that maximum. *)
Theorem lifetime_bounds (h : HeaderMap) (now stored expires : Z) :
  0 <= now -> now / NANOS + CacheConfig.max_ttl_secs cache <= U64_MAX ->
  cache_lifetime cache h now = Some (stored, expires) ->
  stored = now / NANOS /\ stored < expires <= stored + CacheConfig.max_ttl_secs cache /\
  (forall ttl, find_map directive_ttl (cache_directives h) = Some ttl -> expires <= stored + ttl).
Proof.
  intros Hnow Hsmall. unfold cache_lifetime, unix_timestamp, sat_add_u64. case_bool; [done|].
  destruct (find_map directive_ttl (cache_directives h)) as [t|] eqn:Ht; case_bool; try done;
    intros [= <- <-]; bool_to_prop; (split; [done|]); (split; [lia|]); intros ttl [= ]; lia.
Qed.

(** Variants are respected: an entry is served only to a request whose
    headers agree with those of the request that stored it on every name of
    its [Vary] list, and only when its body is within the entry limit. *)
Theorem load_respects_vary (url : Url) (incoming : HeaderMap) (d d' : fs) (entry : DiskCacheEntry) :
  load_disk_cache cache url incoming d = (Some entry, d') ->
  Forall (fun e => header_or_empty incoming e.1 = e.2) (vary (metadata entry)).
Proof.
  intros Hv%load_vary. unfold vary_mismatch in Hv. apply existsb_false_Forall in Hv.
  eapply Forall_impl; [exact Hv|]. intros [n e] Hne. simpl in *. by apply negb_false_iff, String.eqb_eq in Hne.
Qed.

(** Round trip. What is written is what is loaded: body and metadata of a
    cacheable response come back for a request with the same varying headers,
    when nothing fails and the bodies fit the limit. *)
Theorem write_then_load (url : Url) (incoming h : HeaderMap) (code : Z) (body value b m : string)
    (md : DiskCacheMetadata) (st : state) :
  faults (disk st) = [] -> 0 <= CacheConfig.max_total_mb cache -> accounted cache st ->
  cache_paths cache url = Some (b, m) ->
  entry_metadata cache code h incoming (now (disk st)) = Some md -> to_vec md = Some value ->
  str_len body <= max_cache_entry_bytes cache ->
  total_bodies cache (files (disk st)) + str_len body <= max_cache_total_bytes cache ->
  (load_disk_cache cache url incoming (disk (write_disk_cache cache url incoming code h body st))).1 =
  Some {| body := body; metadata := md |}.
Proof.
  intros Hq Hmax Hacc Hp He Hv Hl Hfit.
  destruct (write_fits cache url incoming h code body value b m md st Hq Hmax Hacc Hp He Hv Hfit)
    as (Hq' & Hb & Hm & _).
  apply (load_present cache url incoming _ b m _ _ md Hq' Hp Hb Hm (from_to_vec md value Hv)); [|exact Hl].
  by eapply entry_no_mismatch.
Qed.

(** Purging forgets everything. Without faults every body, metadata and
    temporary file of the directory is gone, no other file is touched, the
    incremental count is reset, and no request finds an entry. *)
Theorem purge_forgets (st st' : state) (r : result Z io_error) :
  faults (disk st) = [] -> purge_disk_cache cache st = (r, st') ->
  is_ok r = true /\ capacity st' = None /\
  (forall p, in_directory cache p = true -> purgeable p = true -> files (disk st') !! p = None) /\
  (forall p, in_directory cache p = false \/ purgeable p = false ->
     files (disk st') !! p = files (disk st) !! p) /\
  (forall url incoming, (load_disk_cache cache url incoming (disk st')).1 = None).
Proof.
  intros Hq. unfold purge_disk_cache. rewrite read_dir_quiet by done.
  match goal with |- context [purge_loop ?l 0 ?d] =>
    pose proof (purge_loop_quiet l 0 d Hq) as (Hq' & Hgone & Hkeep); set (paths := l) in * end.
  assert (Hpaths : forall p, p ∈ paths <-> in_directory cache p = true /\ is_Some (files (disk st) !! p))
    by (intros p; apply listed_paths).
  destruct (purge_loop paths 0 _) as [n d'] eqn:E. simpl in Hq', Hgone, Hkeep. intros [= <- <-]. simpl.
  assert (Hnone : forall p, in_directory cache p = true -> purgeable p = true -> files d' !! p = None).
  { intros p Hd Hp. destruct (decide (p ∈ paths)) as [Hin|Hin]; [by apply Hgone|].
    rewrite Hkeep by (by left). destruct (files (disk st) !! p) eqn:Hf; [|done].
    exfalso. apply Hin, Hpaths. split; [done|by eexists]. }
  split_and!; [done|done|exact Hnone| |].
  - intros p [Hp|Hp]; apply Hkeep; [left|by right]. intros [Hd _]%Hpaths. congruence.
  - intros url incoming. apply load_absent; [done|]. intros b m Hbm.
    destruct (cache_paths_meta cache url b m Hbm). by apply Hnone.
Qed.

(** Metadata of one response can be paired with the body of another.
    [load] and [refresh_cache_metadata] take the lock separately; when another
    request stores a new body in between, the refresh writes the old entry's
    metadata over it, and the next request is served the new body under the
    old headers. *)
Theorem refresh_mixes_entries (url : Url) (incoming h h' : HeaderMap) (code : Z) (body value b m : string)
    (md : DiskCacheMetadata) (old : DiskCacheEntry) (new_md : DiskCacheMetadata) (new_value : string)
    (st : state) (d' : fs) :
  faults (disk st) = [] -> 0 <= CacheConfig.max_total_mb cache -> accounted cache st ->
  cache_paths cache url = Some (b, m) ->
  load_disk_cache cache url incoming (disk st) = (Some old, d') ->
  let st1 := with_disk d' st in
  entry_metadata cache code h incoming (now d') = Some md -> to_vec md = Some value ->
  str_len body <= max_cache_entry_bytes cache ->
  total_bodies cache (files d') + str_len body <= max_cache_total_bytes cache ->
  let st2 := write_disk_cache cache url incoming code h body st1 in
  refreshed cache (metadata old) h' (now (disk st2)) = Some new_md -> to_vec new_md = Some new_value ->
  let st3 := (refresh_cache_metadata cache url (metadata old) h' st2).2 in
  (load_disk_cache cache url incoming (disk st3)).1 = Some {| Cache.body := body; metadata := new_md |}.
Proof.
  intros Hq Hmax Hacc Hp Hload st1 He Hv Hl Hfit st2 Hr Hv' st3.
  destruct (load_quiet cache url incoming (disk st) Hq) as [Hq1 Ht]. rewrite Hload in Hq1, Ht. simpl in Hq1, Ht.
  assert (Hacc1 : accounted cache st1) by (unfold accounted in *; simpl; by rewrite Ht).
  destruct (write_fits cache url incoming h code body value b m md st1 Hq1 Hmax Hacc1 Hp He Hv Hfit)
    as (Hq2 & Hb & Hm & _). fold st2 in Hq2, Hb, Hm.
  destruct (refresh_files cache url (metadata old) new_md h' st2 b m new_value Hq2 Hp Hr Hv') as (Hq3 & Hm3 & Hb3).
  fold st3 in Hq3, Hm3, Hb3. rewrite Hb in Hb3.
  apply (load_present cache url incoming _ b m _ _ new_md Hq3 Hp Hb3 Hm3 (from_to_vec _ _ Hv')); [|exact Hl].
  apply load_vary in Hload. unfold refreshed in Hr. repeat case_match; try done. by injection Hr as <-.
Qed.
End Guarantees.

(** ** Witnesses *)

Definition sample_cache : CacheConfig.t := {|
  CacheConfig.enabled := true; CacheConfig.directory := "c"; CacheConfig.max_entry_mb := 1;
  CacheConfig.max_total_mb := 1; CacheConfig.default_ttl_secs := 60; CacheConfig.max_ttl_secs := 600 |}.

Definition sample_url : simple_url := SimpleUrl "https" "" None "a.example" None "/p" None None.

Definition sample_headers (etag : string) : list (string * string) :=
  [("etag", etag); ("vary", "Accept"); ("cache-control", "max-age=100")].

Definition sample_incoming : list (string * string) := [("accept", "text/html")].

Definition sample_state : state :=
  {| disk := Fs ∅ [] (5 * NANOS); capacity := None; instant := 0 |}.

(** One entry stored. *)
Definition sample_stored : state :=
  @write_disk_cache AssocHeaders SimpleUrlApi SampleCodec sample_cache sample_url sample_incoming 200
    (sample_headers "old") "OLD" sample_state.

Lemma cache_accounting_witness :
  bytes {| directory := "c"; max_bytes := 1048576; bytes := 3; checked_at := 0 |} =
    total_bodies sample_cache (files (disk sample_stored)) /\
  total_bodies sample_cache (files (disk sample_stored)) <= max_cache_total_bytes sample_cache.
Proof.
  apply (@cache_accounting AssocHeaders SimpleUrlApi SampleCodec SampleCodec_laws sample_cache sample_stored
           {| directory := "c"; max_bytes := 1048576; bytes := 3; checked_at := 0 |}).
  - vm_compute. discriminate.
  - apply (reach_step sample_cache sample_state); [by apply reach_start|].
    apply (@step_write AssocHeaders SimpleUrlApi SampleCodec sample_cache sample_url sample_incoming
             200 (sample_headers "old") "OLD" sample_state).
    vm_compute. discriminate.
  - vm_compute. reflexivity.
  - vm_compute. reflexivity.
Defined.

(** Two bodies of 700 000 bytes do not both fit one megabyte. *)
Definition big (n : nat) : string := Nat.iter n (fun s => s +:+ s) "0123456789".

Definition full_disk : fs :=
  Fs (<["c/a.body" := File (big 16) 7]> (<["c/b.body" := File (big 16) 3]> ∅)) [] 9.

Definition sample_evicted : Z * fs := @evict_disk_cache SampleCodec sample_cache full_disk.

Lemma eviction_is_lru_witness :
  655360 = total_bodies sample_cache (files sample_evicted.2) /\ 655360 <= max_cache_total_bytes sample_cache.
Proof.
  destruct (@eviction_is_lru SampleCodec SampleCodec_laws sample_cache full_disk sample_evicted.2 655360)
    as (Ht & Hle & _); [reflexivity|vm_compute; discriminate| |by split].
  change (sample_evicted = (655360, sample_evicted.2)). rewrite (surjective_pairing sample_evicted) at 1.
  apply (f_equal (fun z => (z, sample_evicted.2))). vm_compute. reflexivity.
Defined.

Lemma uncacheable_not_stored_witness :
  let st := @write_disk_cache AssocHeaders SimpleUrlApi SampleCodec sample_cache sample_url sample_incoming 200
    [("cache-control", "max-age=5, No-Store")] "SECRET" sample_state in
  files (disk st) = ∅ /\ capacity st = None.
Proof.
  apply (@uncacheable_not_stored AssocHeaders SimpleUrlApi SampleCodec sample_cache sample_url sample_incoming
           [("cache-control", "max-age=5, No-Store")] 200 "SECRET" sample_state).
  left. vm_compute. reflexivity.
Defined.

Lemma lifetime_bounds_witness :
  5 = 5 * NANOS / NANOS /\ 5 < 105 <= 5 + CacheConfig.max_ttl_secs sample_cache.
Proof.
  destruct (@lifetime_bounds AssocHeaders sample_cache (sample_headers "x") (5 * NANOS) 5 105)
    as (H1' & H2' & _); [vm_compute; discriminate|vm_compute; discriminate|vm_compute; reflexivity|].
  split; [exact H1'|exact H2'].
Defined.

Definition sample_metadata : DiskCacheMetadata :=
  {| status := 200; headers := sample_headers "old"; stored_at := 5; expires_at := 105;
     vary := [("accept", "text/html")] |}.

Definition sample_load : option DiskCacheEntry * fs :=
  @load_disk_cache AssocHeaders SimpleUrlApi SampleCodec sample_cache sample_url sample_incoming
    (disk sample_stored).

Lemma load_respects_vary_witness :
  sample_load.1 = Some {| body := "OLD"; metadata := sample_metadata |} /\
  Forall (fun e => @header_or_empty AssocHeaders sample_incoming e.1 = e.2) [("accept", "text/html")].
Proof.
  split; [vm_compute; reflexivity|].
  apply (@load_respects_vary AssocHeaders SimpleUrlApi SampleCodec sample_cache sample_url sample_incoming
           (disk sample_stored) sample_load.2 {| body := "OLD"; metadata := sample_metadata |}).
  vm_compute. reflexivity.
Defined.

Lemma write_then_load_witness :
  sample_load.1 = Some {| body := "OLD"; metadata := sample_metadata |}.
Proof.
  apply (@write_then_load AssocHeaders SimpleUrlApi SampleCodec SampleCodec_laws sample_cache sample_url
           sample_incoming (sample_headers "old") 200 "OLD" (metadata_text sample_metadata)
           ("c/" +:+ String "k" (letters "https://a.example/p") +:+ ".body")
           ("c/" +:+ String "k" (letters "https://a.example/p") +:+ ".json") sample_metadata sample_state);
    try (vm_compute; first [reflexivity | discriminate]).
Defined.

Lemma purge_forgets_witness :
  let st' := (@purge_disk_cache SampleCodec sample_cache sample_stored).2 in
  (@load_disk_cache AssocHeaders SimpleUrlApi SampleCodec sample_cache sample_url sample_incoming (disk st')).1
  = None /\ capacity st' = None.
Proof.
  destruct (@purge_disk_cache SampleCodec sample_cache sample_stored) as [r st'] eqn:E. cbn [snd].
  destruct (@purge_forgets AssocHeaders SimpleUrlApi SampleCodec SampleCodec_laws sample_cache sample_stored st' r)
    as (_ & Hc & _ & _ & Hl); [vm_compute; reflexivity|exact E|].
  split; [apply Hl|exact Hc].
Defined.

(** The old entry is stale and revalidated while a new body is stored. *)
Definition sample_fresh : DiskCacheMetadata :=
  {| status := 200; headers := sample_headers "new"; stored_at := 5; expires_at := 105;
     vary := [("accept", "text/html")] |}.

Lemma refresh_mixes_entries_witness :
  let st1 := with_disk sample_load.2 sample_stored in
  let st2 := @write_disk_cache AssocHeaders SimpleUrlApi SampleCodec sample_cache sample_url sample_incoming 200
    (sample_headers "new") "NEW" st1 in
  let st3 := (@refresh_cache_metadata AssocHeaders SimpleUrlApi SampleCodec sample_cache sample_url
    sample_metadata [] st2).2 in
  (@load_disk_cache AssocHeaders SimpleUrlApi SampleCodec sample_cache sample_url sample_incoming (disk st3)).1 =
  Some {| body := "NEW";
          metadata := {| status := 200; headers := sample_headers "old"; stored_at := 5; expires_at := 65;
                         vary := [("accept", "text/html")] |} |}.
Proof.
  apply (@refresh_mixes_entries AssocHeaders SimpleUrlApi SampleCodec SampleCodec_laws sample_cache sample_url
           sample_incoming (sample_headers "new") [] 200 "NEW" (metadata_text sample_fresh)
           ("c/" +:+ String "k" (letters "https://a.example/p") +:+ ".body")
           ("c/" +:+ String "k" (letters "https://a.example/p") +:+ ".json") sample_fresh
           {| body := "OLD"; metadata := sample_metadata |}
           {| status := 200; headers := sample_headers "old"; stored_at := 5; expires_at := 65;
              vary := [("accept", "text/html")] |}
           (metadata_text {| status := 200; headers := sample_headers "old"; stored_at := 5; expires_at := 65;
              vary := [("accept", "text/html")] |})
           sample_stored sample_load.2);
    try (vm_compute; first [reflexivity | discriminate]).
  vm_compute. intros _. split; [reflexivity|discriminate].
Defined.
