(* ===== verification/Selector.v ===== *)
(** * Choosing between upstream endpoints

    [crates/server/src/upstream_selection.rs]: the health and latency of each
    endpoint, the order a request tries its candidates in, and the report.
    A method is one atomic step (the mutex); clock readings are arguments, in
    nanoseconds. An [f64] is a [spec_float] of precision 53. The iteration
    order of a [HashMap] is the variable [iter_order]. *)
From stdpp Require Import gmap.
From Stdlib Require Import SpecFloat.
From S2P Require Import Prelude RustStr Url Config Upstreams.
Open Scope Z_scope.

Definition MAX_ENDPOINTS : nat := 512.

(** ** Double-precision numbers *)

Definition f64 : Type := spec_float.
Definition f64_of_int (n : Z) : f64 := binary_normalize 53 1024 n 0 false.
Definition f64_add : f64 -> f64 -> f64 := SFadd 53 1024.
Definition f64_mul : f64 -> f64 -> f64 := SFmul 53 1024.
Definition f64_div : f64 -> f64 -> f64 := SFdiv 53 1024.

(** [f64::to_bits] as a signed integer. *)
Definition f64_bits (x : f64) : Z :=
  let sign (s : bool) (magnitude : Z) := if s then magnitude - 2 ^ 63 else magnitude in
  match x with
  | S754_zero s => sign s 0
  | S754_infinity s => sign s (2047 * 2 ^ 52)
  | S754_nan => 2047 * 2 ^ 52 + 2 ^ 51
  | S754_finite s m e => sign s ((e + 1074) * 2 ^ 52 + Zpos m)
  end.

(** The integer [f64::total_cmp] compares: the bits, with those below the sign
    flipped when it is set. *)
Definition total_key (x : f64) : Z :=
  let bits := f64_bits x in if bits <? 0 then Z.lxor bits (2 ^ 63 - 1) else bits.

Definition total_le (x y : f64) : bool := total_key x <=? total_key y.

(** [Duration::as_secs_f64] of a number of nanoseconds. *)
Definition as_secs_f64 (nanos : Z) : f64 :=
  f64_add (f64_of_int (nanos / 1000000000)) (f64_div (f64_of_int (nanos mod 1000000000)) (f64_of_int 1000000000)).

(** ** State *)

Record EndpointState : Type := {
  consecutive_failures : Z;
  open_until : option Z;
  latency_ewma_ms : option f64;
  last_seen : option Z;
}.

Definition EndpointState_default : EndpointState :=
  {| consecutive_failures := 0; open_until := None; latency_ewma_ms := None; last_seen := None |}.

(** [iter().min_by_key(..)]: the first of the least elements. *)
Definition min_by {A} (le : A -> A -> bool) (l : list A) : option A :=
  match l with
  | [] => None
  | x :: t => Some (fold_left (fun best y => if le best y then best else y) t x)
  end.

(** [Option<Instant>]: [None] is less than every instant. *)
Definition seen_le (a b : string * EndpointState) : bool :=
  match last_seen a.2, last_seen b.2 with
  | None, _ => true
  | Some _, None => false
  | Some x, Some y => x <=? y
  end.

Section Selector.
Context `{UrlApi}.
Variable iter_order : list (string * EndpointState) -> list (string * EndpointState).

Record RequestSample : Type := { candidates : list Url; observed_at : Z }.

Record SelectorState : Type := {
  endpoints : gmap string EndpointState;
  samples : list RequestSample;
  bases : list Url;
}.

Definition SelectorState_default : SelectorState := {| endpoints := ∅; samples := []; bases := [] |}.

Definition base_matches (url base : Url) : bool :=
  let path := trim_end_matches "/" (url_path base) in
  bool_decide (url_origin base = url_origin url)
  && ((url_path url =? path)%string
      || match strip_prefix path (url_path url) with
         | Some suffix => starts_with "/" suffix
         | None => false
         end).

Definition endpoint_key (url : Url) (bases : list Url) : string :=
  match find_first (base_matches url) bases with
  | Some base => url_origin_serialization (url_origin base) +:+ trim_end_matches "/" (url_path base)
  | None => url_origin_serialization (url_origin url)
  end.

Definition sort_bases (l : list Url) : list Url :=
  sort_by (fun a b => str_len (url_path b) <=? str_len (url_path a)) l.

Definition configure (u : Upstreams.t) (st : SelectorState) : SelectorState :=
  {| endpoints := ∅; samples := [];
     bases := sort_bases (omap url_parse (str_trim <$> concat (str_split "," <$> upstream_groups u))) |}.

(** The entry of a key, made if it is new; a full table first drops the
    endpoint seen longest ago. *)
Definition endpoint_state (key : string) (now : Z) (m : gmap string EndpointState) :
    EndpointState * gmap string EndpointState :=
  let m :=
    if (MAX_ENDPOINTS <=? size m)%nat && bool_decide (m !! key = None)
    then match min_by seen_le (iter_order (map_to_list m)) with
         | Some (oldest, _) => delete oldest m
         | None => m
         end
    else m in
  let entry := default EndpointState_default (m !! key) in
  let entry := {| consecutive_failures := consecutive_failures entry; open_until := open_until entry;
                  latency_ewma_ms := latency_ewma_ms entry; last_seen := Some now |} in
  (entry, <[key := entry]> m).

Definition set_endpoints (m : gmap string EndpointState) (st : SelectorState) : SelectorState :=
  {| endpoints := m; samples := samples st; bases := bases st |}.

Definition record_success (url : Url) (elapsed now : Z) (st : SelectorState) : SelectorState :=
  let key := endpoint_key url (bases st) in
  let '(entry, m) := endpoint_state key now (endpoints st) in
  let elapsed := f64_mul (as_secs_f64 elapsed) (f64_of_int 1000) in
  let ewma := match latency_ewma_ms entry with
              | Some previous => f64_add (f64_mul previous (f64_div (f64_of_int 8) (f64_of_int 10)))
                                   (f64_mul elapsed (f64_div (f64_of_int 2) (f64_of_int 10)))
              | None => elapsed
              end in
  let entry := {| consecutive_failures := 0; open_until := None; latency_ewma_ms := Some ewma;
                  last_seen := last_seen entry |} in
  set_endpoints (<[key := entry]> m) st.

(** [seen] and [now] are the two readings of the clock. *)
Definition record_failure (url : Url) (config : UpstreamSelectionConfig.t) (seen now : Z) (st : SelectorState) :
    SelectorState :=
  let key := endpoint_key url (bases st) in
  let '(entry, m) := endpoint_state key seen (endpoints st) in
  let failures := sat_add_u32 (consecutive_failures entry) 1 in
  let entry := {| consecutive_failures := failures;
                  open_until :=
                    if UpstreamSelectionConfig.failure_threshold config <=? failures
                    then Some (now + UpstreamSelectionConfig.cooldown_secs config * 1000000000)
                    else open_until entry;
                  latency_ewma_ms := latency_ewma_ms entry; last_seen := last_seen entry |} in
  set_endpoints (<[key := entry]> m) st.

(** ** Ranking *)

Definition endpoint_rank (state : option EndpointState) (now configured_index : Z) : f64 :=
  match state with
  | None => f64_of_int configured_index
  | Some state =>
      let circuit_penalty :=
        match open_until state with
        | Some deadline => if now <? deadline then f64_of_int 1000000 else f64_of_int 0
        | None => f64_of_int 0
        end in
      f64_add (f64_add circuit_penalty (f64_mul (f64_of_int (consecutive_failures state)) (f64_of_int 10000)))
        (match latency_ewma_ms state with Some l => l | None => f64_of_int configured_index end)
  end.

Definition candidate_rank (st : SelectorState) (now : Z) (c : Z * Url) : f64 :=
  endpoint_rank (endpoints st !! endpoint_key c.2 (bases st)) now c.1.

Definition enumerate {A} (l : list A) : list (Z * A) := imap (fun i x => (Z.of_nat i, x)) l.

Definition ranked_candidates (l : list Url) (st : SelectorState) (config : UpstreamSelectionConfig.t) (now : Z) :
    list (Z * Url) :=
  let ranked := enumerate l in
  if (UpstreamSelectionConfig.strategy config =? "adaptive")%string
  then sort_by (fun a b => total_le (candidate_rank st now a) (candidate_rank st now b)) ranked
  else ranked.

Definition same_origins (a b : list Url) : bool := bool_decide ((url_origin <$> a) = (url_origin <$> b)).

Definition rank (l : list Url) (config : UpstreamSelectionConfig.t) (now timestamp : Z) (st : SelectorState) :
    list Url * SelectorState :=
  let st :=
    match l with
    | [] => st
    | _ =>
        let kept := filter (fun s => same_origins (candidates s) l = false) (samples st) in
        {| endpoints := endpoints st;
           samples := take 32 ({| candidates := l; observed_at := timestamp |} :: kept);
           bases := bases st |}
    end in
  (snd <$> ranked_candidates l st config now, st).

(** ** The report *)

Record EndpointExplanation : Type := {
  x_origin : string;
  x_configured_position : Z;
  x_rank : Z;
  x_reason : string;
  x_consecutive_failures : Z;
  x_cooldown_remaining_secs : Z;
  x_latency_ewma_ms : option f64;
}.

Definition explain (st : SelectorState) (config : UpstreamSelectionConfig.t) (now : Z) (r : Z * (Z * Url)) :
    EndpointExplanation :=
  let '(rank, (position, url)) := r in
  let endpoint := endpoints st !! endpoint_key url (bases st) in
  let remaining :=
    match endpoint ≫= open_until with
    | Some deadline => if now <? deadline then Some (deadline - now) else None
    | None => None
    end in
  let failures := match endpoint with Some item => consecutive_failures item | None => 0 end in
  let latency := endpoint ≫= latency_ewma_ms in
  {| x_origin := url_origin_serialization (url_origin url);
     x_configured_position := position + 1;
     x_rank := rank + 1;
     x_reason :=
       if negb (UpstreamSelectionConfig.strategy config =? "adaptive")%string then "configured_order"
       else match remaining with
            | Some _ => "cooldown"
            | None => if 0 <? failures then "failures"
                      else match latency with Some _ => "latency" | None => "unobserved" end
            end;
     x_consecutive_failures := failures;
     x_cooldown_remaining_secs :=
       match remaining with
       | Some v => sat_add_u64 (v / 1000000000) (if 0 <? v mod 1000000000 then 1 else 0)
       | None => 0
       end;
     x_latency_ewma_ms := latency |}.

Definition report_at (config : UpstreamSelectionConfig.t) (now : Z) (st : SelectorState) :
    list (Z * list EndpointExplanation) :=
  (fun s => (observed_at s, explain st config now <$> enumerate (ranked_candidates (candidates s) st config now)))
  <$> samples st.

(** ** Every call *)

Inductive call : Type :=
| Configure (u : Upstreams.t)
| Rank (l : list Url) (config : UpstreamSelectionConfig.t) (now timestamp : Z)
| Success (url : Url) (elapsed now : Z)
| Failure (url : Url) (config : UpstreamSelectionConfig.t) (seen now : Z).

Definition perform (st : SelectorState) (c : call) : SelectorState :=
  match c with
  | Configure u => configure u st
  | Rank l config now timestamp => (rank l config now timestamp st).2
  | Success url elapsed now => record_success url elapsed now st
  | Failure url config seen now => record_failure url config seen now st
  end.

Definition run (calls : list call) : SelectorState := fold_left perform calls SelectorState_default.
End Selector.

(** ** Lemmas *)

Lemma fold_min_elem {A} (le : A -> A -> bool) (t : list A) (x : A) :
  fold_left (fun best y => if le best y then best else y) t x ∈ x :: t.
Proof.
  revert x. induction t as [|y t IH]; intros x; simpl; [by left|].
  case_bool.
  - specialize (IH x). apply elem_of_cons in IH as [->|]; [by left|right; by right].
  - right. apply IH.
Qed.

Lemma min_by_elem {A} (le : A -> A -> bool) (l : list A) (x : A) : min_by le l = Some x -> x ∈ l.
Proof. destruct l as [|y t]; simpl; [done|]. intros [= <-]. apply fold_min_elem. Qed.

Lemma total_le_total (x y : f64) : total_le x y = true \/ total_le y x = true.
Proof. unfold total_le. rewrite !Z.leb_le. lia. Qed.

Lemma total_le_trans (x y z : f64) : total_le x y = true -> total_le y z = true -> total_le x z = true.
Proof. unfold total_le. rewrite !Z.leb_le. lia. Qed.

Section Lemmas.
Context `{UrlApi}.
Variable iter_order : list (string * EndpointState) -> list (string * EndpointState).
Hypothesis iter_order_perm : forall l, iter_order l ≡ₚ l.

(** What [endpoint_state] leaves: the entry of the key, and room for it. *)
Lemma endpoint_state_spec (key : string) (now : Z) (m m' : gmap string EndpointState) (e : EndpointState) :
  endpoint_state iter_order key now m = (e, m') ->
  m' !! key = Some e /\
  consecutive_failures e = consecutive_failures (default EndpointState_default (m !! key)) /\
  open_until e = open_until (default EndpointState_default (m !! key)) /\
  latency_ewma_ms e = latency_ewma_ms (default EndpointState_default (m !! key)) /\
  (forall k, k <> key -> m' !! k = m !! k \/ m' !! k = None) /\
  ((size m <= MAX_ENDPOINTS)%nat -> (size m' <= MAX_ENDPOINTS)%nat).
Proof.
  unfold endpoint_state. set (m1 := if _ : bool then _ else _).
  assert (H1 : m1 !! key = m !! key /\ (forall k, m1 !! k = m !! k \/ m1 !! k = None) /\
    ((size m <= MAX_ENDPOINTS)%nat -> m !! key = None -> (size m1 < MAX_ENDPOINTS)%nat) /\
    (size m1 <= size m)%nat).
  { unfold m1. destruct (MAX_ENDPOINTS <=? size m)%nat eqn:Hs; bool_to_prop; simpl.
    2:{ split_and!; auto; lia. }
    case_bool_decide as Hk; [|by split_and!; auto].
    destruct (min_by seen_le (iter_order (map_to_list m))) as [[oldest s]|] eqn:Hm.
    - apply min_by_elem in Hm. rewrite iter_order_perm in Hm. apply elem_of_map_to_list in Hm.
      assert (Hsz : size m = S (size (delete oldest m))).
      { rewrite <- (insert_delete_id m oldest s) at 1 by done. apply map_size_insert_None, lookup_delete_eq. }
      assert (key <> oldest) by congruence. split_and!; try lia.
      + by rewrite lookup_delete_ne.
      + intros k. destruct (decide (k = oldest)) as [->|]; [right; apply lookup_delete_eq|left; by rewrite lookup_delete_ne].
    - exfalso. unfold min_by in Hm. destruct (iter_order (map_to_list m)) eqn:E; [|done].
      pose proof (iter_order_perm (map_to_list m)) as Hp. rewrite E in Hp.
      apply Permutation_length in Hp. rewrite length_map_to_list in Hp. simpl in Hp.
      unfold MAX_ENDPOINTS in Hs. lia. }
  destruct H1 as (Hk & Ho & Hroom & Hle). intros [= <- <-]. rewrite Hk. split_and!; try done.
  - apply lookup_insert_eq.
  - intros k Hne. by rewrite lookup_insert_ne.
  - intros Hs. destruct (m !! key) as [e|] eqn:E.
    + rewrite map_size_insert_Some by (by rewrite Hk). lia.
    + rewrite map_size_insert_None by (by rewrite Hk). specialize (Hroom Hs eq_refl). lia.
Qed.

Lemma size_insert_present (m : gmap string EndpointState) (k : string) (e e' : EndpointState) :
  m !! k = Some e -> size (<[k := e']> m) = size m.
Proof. intros Hk. by apply map_size_insert_Some. Qed.

Lemma enumerate_lt {A} (l : list A) : StronglySorted (fun a b => a.1 < b.1) (enumerate l).
Proof.
  unfold enumerate. assert (Hg : forall n : nat,
    StronglySorted (fun a b => a.1 < b.1) (imap (fun i x => (Z.of_nat (i + n), x)) l) /\
    Forall (fun a : Z * A => Z.of_nat n <= a.1) (imap (fun i x => (Z.of_nat (i + n), x)) l)).
  { induction l as [|x l IH]; intros n; [split; constructor|]. rewrite imap_cons.
    assert (He : imap ((fun i x0 => (Z.of_nat (i + n), x0)) ∘ S) l = imap (fun i x => (Z.of_nat (i + S n), x)) l).
    { apply imap_ext. intros i y _. simpl. by rewrite Nat.add_succ_r. }
    rewrite He. destruct (IH (S n)) as [Hs Hf]. split; constructor; simpl; try done; try lia.
    - eapply Forall_impl; [exact Hf|]. simpl. lia.
    - eapply Forall_impl; [exact Hf|]. simpl. lia. }
  destruct (Hg O) as [Hs _]. erewrite imap_ext; [exact Hs|]. intros i x _. simpl. by rewrite Nat.add_0_r.
Qed.

Lemma enumerate_snd {A} (l : list A) : snd <$> enumerate l = l.
Proof.
  unfold enumerate. rewrite fmap_imap. rewrite (imap_ext _ (fun _ x => x)) by done.
  induction l as [|x l IH]; [done|]. rewrite imap_cons. f_equal. exact IH.
Qed.

End Lemmas.

(** ** Properties *)

Section Guarantees.
Context `{UrlApi}.
Variable iter_order : list (string * EndpointState) -> list (string * EndpointState).
Hypothesis iter_order_perm : forall l, iter_order l ≡ₚ l.

Lemma record_success_endpoints (url : Url) (elapsed now : Z) (st : SelectorState) :
  let k := endpoint_key url (bases st) in
  let st' := record_success iter_order url elapsed now st in
  bases st' = bases st /\ samples st' = samples st /\
  (exists e, endpoints st' !! k = Some e /\ consecutive_failures e = 0 /\ open_until e = None /\
             is_Some (latency_ewma_ms e)) /\
  ((size (endpoints st) <= MAX_ENDPOINTS)%nat -> (size (endpoints st') <= MAX_ENDPOINTS)%nat).
Proof.
  cbv zeta. unfold record_success. set (k := endpoint_key url (bases st)).
  destruct (endpoint_state iter_order k now (endpoints st)) as [e m] eqn:E.
  apply endpoint_state_spec in E as (Hk & _ & _ & _ & _ & Hs); [|done]. simpl. split_and!; [done|done| |].
  - eexists. split; [apply lookup_insert_eq|]. by simpl.
  - intros Hle. rewrite (size_insert_present _ _ e) by done. by apply Hs.
Qed.

Lemma record_failure_endpoints (url : Url) (config : UpstreamSelectionConfig.t) (seen now : Z) (st : SelectorState) :
  let k := endpoint_key url (bases st) in
  let st' := record_failure iter_order url config seen now st in
  let before := default EndpointState_default (endpoints st !! k) in
  let failures := sat_add_u32 (consecutive_failures before) 1 in
  bases st' = bases st /\ samples st' = samples st /\
  (exists e, endpoints st' !! k = Some e /\ consecutive_failures e = failures /\
     open_until e = if UpstreamSelectionConfig.failure_threshold config <=? failures
                    then Some (now + UpstreamSelectionConfig.cooldown_secs config * 1000000000)
                    else open_until before) /\
  (forall k', k' <> k -> endpoints st' !! k' = endpoints st !! k' \/ endpoints st' !! k' = None) /\
  ((size (endpoints st) <= MAX_ENDPOINTS)%nat -> (size (endpoints st') <= MAX_ENDPOINTS)%nat).
Proof.
  cbv zeta. unfold record_failure. set (k := endpoint_key url (bases st)).
  destruct (endpoint_state iter_order k seen (endpoints st)) as [e m] eqn:E.
  apply endpoint_state_spec in E as (Hk & Hc & Ho & _ & Hother & Hs); [|done]. simpl. split_and!; [done|done| | |].
  - eexists. split; [apply lookup_insert_eq|]. simpl. by rewrite Hc, Ho.
  - intros k' Hne. rewrite lookup_insert_ne by done. by apply Hother.
  - intros Hle. rewrite (size_insert_present _ _ e) by done. by apply Hs.
Qed.

(** The selector's memory is bounded whatever is requested: in every
    history of calls it knows at most 512 endpoints and keeps at most 32
    samples, one per group of origins. *)
Theorem selector_bounded (calls : list call) :
  let st := run iter_order calls in
  (size (endpoints st) <= MAX_ENDPOINTS)%nat /\ (length (samples st) <= 32)%nat /\
  NoDup ((fun s => url_origin <$> candidates s) <$> samples st).
Proof.
  cbv zeta. unfold run. induction calls as [|c calls IH] using rev_ind.
  { simpl. rewrite map_size_empty. split_and!; [unfold MAX_ENDPOINTS; lia|lia|constructor]. }
  rewrite fold_left_app. simpl. set (st := fold_left _ calls _) in *. destruct IH as (Hs & Hl & Hn).
  destruct c as [u|l config now timestamp|url elapsed now|url config seen now]; cbn [perform].
  - simpl. rewrite map_size_empty. split_and!; [unfold MAX_ENDPOINTS; lia|lia|constructor].
  - unfold rank. destruct l as [|c l]; [done|]. cbn [snd endpoints samples take]. split_and!; [done| |].
    + cbn [length]. rewrite length_take. lia.
    + rewrite fmap_cons. cbn [candidates]. constructor.
      * intros (s & Hs1 & Hs2)%list_elem_of_fmap. eapply elem_of_sublist in Hs2; [|apply sublist_take].
        apply list_elem_of_filter in Hs2 as [Hs2 _]. unfold same_origins in Hs2.
        apply bool_decide_eq_false in Hs2. by rewrite Hs1 in Hs2.
      * eapply sublist_NoDup; [exact Hn|]. apply fmap_sublist. etransitivity; [apply sublist_take|apply sublist_filter].
  - destruct (record_success_endpoints url elapsed now st) as (_ & -> & _ & Hsz). auto.
  - destruct (record_failure_endpoints url config seen now st) as (_ & -> & _ & _ & Hsz). auto.
Qed.

(** The order of the attempts. Every candidate is tried once; in the
    adaptive strategy by increasing rank, equal ranks in configured order, and
    in any other strategy in configured order. *)
Theorem rank_order (l : list Url) (config : UpstreamSelectionConfig.t) (now timestamp : Z) (st : SelectorState) :
  exists order : list (Z * Url),
    (rank l config now timestamp st).1 = snd <$> order /\ order ≡ₚ enumerate l /\
    if (UpstreamSelectionConfig.strategy config =? "adaptive")%string
    then StronglySorted (fun a b =>
           total_key (candidate_rank st now a) <= total_key (candidate_rank st now b) /\
           (total_key (candidate_rank st now b) <= total_key (candidate_rank st now a) -> a.1 < b.1)) order
    else order = enumerate l.
Proof.
  set (st' := match l with [] => st | _ => (rank l config now timestamp st).2 end).
  assert (Hst : forall c, candidate_rank st' now c = candidate_rank st now c)
    by (intros c; unfold st', rank; by destruct l).
  exists (ranked_candidates l st' config now). split; [unfold st', rank; by destruct l|].
  unfold ranked_candidates. case_bool; [|done]. split; [apply sort_by_perm|].
  eapply StronglySorted_weaken; [|apply (sort_by_stable _ (fun a b : Z * Url => a.1 < b.1))].
  - intros a b [Hle Hlt]. cbn beta in Hle, Hlt. rewrite !Hst in Hle, Hlt. unfold total_le in *.
    rewrite Z.leb_le in Hle. split; [done|]. intros Hge. apply Hlt. by apply Z.leb_le.
  - intros x y. apply total_le_total.
  - intros x y z. apply total_le_trans.
  - apply enumerate_lt.
Qed.

(** The circuit breaker. Failures of one endpoint, whatever the path of
    each request, are counted together; once as many as the threshold follow
    each other the endpoint is in cooldown from the last one on, and the first
    success closes the circuit and clears the count. *)
Theorem circuit_opens_and_closes (config : UpstreamSelectionConfig.t) (key : string)
    (failures : list (Url * Z * Z)) (url : Url) (seen now elapsed after : Z) (st : SelectorState) :
  0 <= UpstreamSelectionConfig.failure_threshold config <= U32_MAX ->
  endpoints st !! key = None ->
  Forall (fun f => endpoint_key f.1.1 (bases st) = key) (failures ++ [(url, seen, now)]) ->
  UpstreamSelectionConfig.failure_threshold config <= Z.of_nat (length failures) + 1 ->
  let fail st f := record_failure iter_order f.1.1 config f.1.2 f.2 st in
  let opened := fold_left fail (failures ++ [(url, seen, now)]) st in
  let closed := record_success iter_order url elapsed after opened in
  (open_until <$> endpoints opened !! key) =
    Some (Some (now + UpstreamSelectionConfig.cooldown_secs config * 1000000000)) /\
  (open_until <$> endpoints closed !! key) = Some None /\
  (consecutive_failures <$> endpoints closed !! key) = Some 0.
Proof.
  intros Hth Hnone [Hkeys Hurl]%Forall_app Hcount fail opened closed. apply Forall_cons in Hurl as [Hurl _]. simpl in Hurl.
  assert (Hpre : bases (fold_left fail failures st) = bases st /\
    consecutive_failures (default EndpointState_default (endpoints (fold_left fail failures st) !! key)) =
    Z.min U32_MAX (Z.of_nat (length failures))).
  { clear Hcount. induction failures as [|f failures IH] using rev_ind; [simpl; by rewrite Hnone|].
    apply Forall_app in Hkeys as [Hkeys Hf]. apply Forall_cons in Hf as [Hf _].
    rewrite fold_left_app. cbn [fold_left]. destruct (IH Hkeys) as [Hb Hc]. set (s := fold_left fail failures st) in *.
    pose proof (record_failure_endpoints f.1.1 config f.1.2 f.2 s) as Hr. rewrite Hb, Hf in Hr.
    destruct Hr as (Hb' & _ & (e & He & Hec & _) & _). split; [unfold fail; by rewrite Hb'|].
    unfold fail. rewrite He. simpl. rewrite Hec, Hc, length_app. unfold sat_add_u32. simpl. lia. }
  subst opened closed. rewrite fold_left_app. cbn [fold_left]. destruct Hpre as [Hb Hc]. set (s := fold_left fail failures st) in *.
  pose proof (record_failure_endpoints url config seen now s) as Hr. rewrite Hb, Hurl in Hr.
  destruct Hr as (Hb' & _ & (e & He & Hec & Ho) & _).
  pose proof (record_success_endpoints url elapsed after (fail s (url, seen, now))) as Hs.
  assert (Hbf : bases (fail s (url, seen, now)) = bases st) by (unfold fail; cbn [fst snd]; by rewrite Hb').
  rewrite Hbf, Hurl in Hs. destruct Hs as (_ & _ & (e2 & He2 & Hz & Hn & _) & _).
  split_and!.
  - unfold fail. cbn [fst snd]. rewrite He. simpl. rewrite Ho, Hc.
    rewrite (proj2 (Z.leb_le _ _)); [done|]. unfold sat_add_u32. lia.
  - rewrite He2. simpl. by rewrite Hn.
  - rewrite He2. simpl. by rewrite Hz.
Qed.

(** Health is kept per configured repository: after [configure] the key of
    a URL is the origin and path of a configured endpoint that contains it,
    one of the longest, and the origin of the URL when there is none. *)
Theorem endpoint_key_longest (u : Upstreams.t) (url : Url) (st : SelectorState) :
  let bases := bases (configure u st) in
  (Forall (fun base => base_matches url base = false) bases /\
   endpoint_key url bases = url_origin_serialization (url_origin url)) \/
  exists base, base ∈ bases /\ base_matches url base = true /\
    endpoint_key url bases =
      url_origin_serialization (url_origin base) +:+ trim_end_matches "/" (url_path base) /\
    forall other, other ∈ bases -> base_matches url other = true ->
      str_len (url_path other) <= str_len (url_path base).
Proof.
  cbv zeta. unfold endpoint_key, find_first. destruct (find_map _ _) as [base|] eqn:E.
  - right. apply find_map_Some in E as (pre & x & post & Hl & Hx & Hpre). case_bool; [|done]. simplify_eq.
    exists base. split_and!; [rewrite Hl; apply elem_of_app; right; by left|done|done|].
    assert (Hsorted : StronglySorted (fun a b => (str_len (url_path b) <=? str_len (url_path a)) = true)
                        (bases (configure u st))).
    { apply sort_by_sorted; intros *; rewrite ?Z.leb_le; lia. }
    intros other Hin Hm. rewrite Hl in Hin, Hsorted. apply elem_of_app in Hin as [Hin|[->|Hin]%elem_of_cons].
    + rewrite Forall_forall in Hpre. specialize (Hpre _ Hin). by rewrite Hm in Hpre.
    + lia.
    + apply (StronglySorted_app_1_r _ pre) in Hsorted. apply StronglySorted_inv in Hsorted as [_ Hf].
      rewrite Forall_forall in Hf. specialize (Hf _ Hin). by apply Z.leb_le in Hf.
  - left. apply find_map_None in E. split; [|done]. eapply Forall_impl; [exact E|]. intros b Hb. simpl in Hb.
    by case_bool.
Qed.
End Guarantees.

(** ** Witnesses *)

Definition sample_selection : UpstreamSelectionConfig.t :=
  {| UpstreamSelectionConfig.strategy := "adaptive"; UpstreamSelectionConfig.failure_threshold := 2;
     UpstreamSelectionConfig.cooldown_secs := 60 |}.

Definition sample_candidate (host : string) : simple_url := SimpleUrl "https" "" None host None "/a" None None.

Definition no_order (l : list (string * EndpointState)) : list (string * EndpointState) := l.

Definition sample_calls : list (@call SimpleUrlApi) :=
  [@Rank SimpleUrlApi [sample_candidate "a.example"] sample_selection 0 0;
   @Success SimpleUrlApi (sample_candidate "a.example") 5 6].

Lemma selector_bounded_witness :
  let st := @run SimpleUrlApi no_order sample_calls in
  (size (endpoints st) <= MAX_ENDPOINTS)%nat.
Proof.
  apply (@selector_bounded SimpleUrlApi no_order (fun l => Permutation_refl l) sample_calls).
Defined.

Lemma circuit_opens_and_closes_witness :
  let fail st (f : simple_url * Z * Z) := @record_failure SimpleUrlApi no_order f.1.1 sample_selection f.1.2 f.2 st in
  let opened := fold_left fail ([(sample_candidate "a.example", 1, 2)] ++ [(sample_candidate "a.example", 3, 4)])
    SelectorState_default in
  (open_until <$> endpoints opened !! "https://a.example") = Some (Some 60000000004).
Proof.
  apply (@circuit_opens_and_closes SimpleUrlApi no_order (fun l => Permutation_refl l) sample_selection
    "https://a.example" [(sample_candidate "a.example", 1, 2)] (sample_candidate "a.example") 3 4 7 9
    SelectorState_default).
  - vm_compute. by split.
  - reflexivity.
  - repeat constructor.
  - vm_compute. discriminate.
Defined.

(** A failing endpoint moves behind a slow one. *)
Example rank_example :
  let a := sample_candidate "a.example" in
  let b := sample_candidate "b.example" in
  let st := @record_success SimpleUrlApi no_order b 2500000000 0
    (@record_failure SimpleUrlApi no_order a sample_selection 0 0 SelectorState_default) in
  (@rank SimpleUrlApi [a; b] sample_selection 1 0 st).1 = [b; a] /\
  f64_bits (as_secs_f64 2500000000) = 4612811918334230528.
Proof. split; vm_compute; reflexivity. Qed.
