(* ===== verification/Redirect.v ===== *)
(** * Requests to upstreams and their redirects

    [upstream_request] and [send_upstream_request] of [proxy/mod.rs] and the
    destination check of [proxy/oci.rs].  The HTTP client, name resolution,
    the trace propagator and the header encodings of credentials are
    third-party code: the class [HttpWorld]. *)
From S2P Require Import Prelude RustStr Headers Net Url Config Upstreams.
Open Scope string_scope.
Open Scope list_scope.
Open Scope mirror_scope.

(** A call that does not return: an error for the caller, or a panic. *)
Inductive stop : Type :=
| Error (e : ProxyError)
| Panic.

Definition or_error {A} (o : option A) (e : ProxyError) : result A stop := result_of_option o (Error e).

(** ** Destinations *)

Definition is_public_v4 (address : Z) : bool :=
  let first := nth_z (octets4 address) 0 in
  let second := nth_z (octets4 address) 1 in
  let third := nth_z (octets4 address) 2 in
  negb ((first =? 0)
        || (first =? 10)
        || (first =? 127)
        || ((first =? 100) && ((64 <=? second) && (second <=? 127)))
        || ((first =? 169) && (second =? 254))
        || ((first =? 172) && ((16 <=? second) && (second <=? 31)))
        || ((first =? 192) && (second =? 0) && (third =? 0))
        || ((first =? 192) && (second =? 0) && (third =? 2))
        || ((first =? 192) && (second =? 88) && (third =? 99))
        || ((first =? 192) && (second =? 168))
        || ((first =? 198) && ((second =? 18) || (second =? 19)))
        || ((first =? 198) && (second =? 51) && (third =? 100))
        || ((first =? 203) && (second =? 0) && (third =? 113))
        || (224 <=? first))%Z.

Definition is_public_address (address : IpAddr) : bool :=
  match address with
  | V4 address => is_public_v4 address
  | V6 address =>
      let s i := nth_z (segments address) i in
      negb (v6_is_loopback address
            || v6_is_unspecified address
            || v6_is_multicast address
            || v6_is_unique_local address
            || v6_is_unicast_link_local address
            || ((s 0%nat =? 8193) && (s 1%nat =? 3512))
            || ((s 0%nat =? 8193) && (s 1%nat =? 2))
            || ((s 0%nat =? 256) && (s 1%nat =? 0) && (s 2%nat =? 0) && (s 3%nat =? 0)))%Z
      && match to_ipv4_mapped address with
         | Some address => is_public_v4 address
         | None => true
         end
  end.

(** ** Requests *)

Section Types.
Context `{HeaderApi} `{UrlApi}.

(** A built request; [rq_stream] is set when its body is a stream, which
    [try_clone] cannot copy. *)
Record Request : Type := {
  rq_method : string;
  rq_url : Url;
  rq_headers : HeaderMap;
  rq_stream : bool;
}.

(** The body is what reading it gives, [None] when it breaks off. *)
Record Response : Type := {
  rs_status : Z;
  rs_url : Url;
  rs_headers : HeaderMap;
  rs_body : option string;
}.

(** Addresses the host name is pinned to; [None] is the shared client. *)
Definition Client : Type := option (string * list SocketAddr).
End Types.

Class HttpWorld `{HeaderApi} `{UrlApi} : Type := {
  World : Type;
  (** [Client::execute]; the error is a transport error *)
  execute : Client -> Request -> World -> result Response unit * World;
  (** [tokio::net::lookup_host] *)
  lookup_host : string -> Z -> World -> option (list SocketAddr) * World;
  (** [Client::request(method, url)]: credentials of the URL become a header *)
  new_request : string -> Url -> Request;
  (** the values [basic_auth] and [bearer_auth] make *)
  basic_auth_value : string -> string -> HeaderValue;
  bearer_auth_value : string -> HeaderValue;
  (** what the trace propagator injects *)
  trace_headers : World -> HeaderMap;
  (** whether [build_streaming_upstream_client_builder] and [build] succeed *)
  client_builder_ok : Config.t -> bool;
  client_build_ok : string -> list SocketAddr -> bool;
  (** [Instant::now] and [SystemTime::now], in nanoseconds *)
  instant_now : World -> Z;
  system_now : World -> Z;
}.

Class HttpLaws `{HttpWorld} : Prop := {
  new_request_method m u : rq_method (new_request m u) = m;
  new_request_plain m u : url_username u = "" -> url_password u = None ->
    new_request m u = {| rq_method := m; rq_url := u; rq_headers := h_empty; rq_stream := false |};
  trace_headers_names w n : n ∈ ["authorization"; "cookie"; "proxy-authorization"; "if-none-match"] ->
    h_get_all (trace_headers w) n = [];
}.

Section Redirect.
Context `{HttpWorld}.

Definition set_headers (h : HeaderMap) (r : Request) : Request :=
  {| rq_method := rq_method r; rq_url := rq_url r; rq_headers := h; rq_stream := rq_stream r |}.

Definition should_forward_request_header (name : string) : bool :=
  negb (existsb (String.eqb (to_ascii_lowercase name))
    ["host"; "authorization"; "cookie"; "connection"; "keep-alive"; "proxy-authenticate"; "proxy-authorization";
     "traceparent"; "tracestate"; "baggage"; "te"; "trailer"; "transfer-encoding"; "upgrade"]).

(** The headers of the client that are passed on, appended to [h]. *)
Definition forward_headers (incoming : HeaderMap) (h : HeaderMap) : HeaderMap :=
  fold_left (fun h e => if should_forward_request_header e.1 then h_append e.1 e.2 h else h) (h_iter incoming) h.

Definition upstream_request (method : string) (url : Url) (incoming : HeaderMap) (config : Config.t) (w : World) :
    result Request stop :=
  let request := new_request method url in
  let h := h_merge (forward_headers incoming (rq_headers request)) (trace_headers w) in
  match upstream_auth_for (Config.upstreams config) (Config.upstream_auth config) url with
  | Some auth =>
      match UpstreamAuth.username auth, UpstreamAuth.password auth, UpstreamAuth.bearer_token auth with
      | Some username, Some password, None =>
          Ok (set_headers (h_append "authorization" (basic_auth_value username password) h) request)
      | None, None, Some token => Ok (set_headers (h_append "authorization" (bearer_auth_value token) h) request)
      | _, _, _ => Err Panic
      end
  | None =>
      if Config.forward_client_authorization config
      then match h_get incoming "authorization" with
           | Some value => Ok (set_headers (h_append "authorization" value h) request)
           | None => Ok (set_headers h request)
           end
      else Ok (set_headers h request)
  end.

Definition public_destination_addresses (url : Url) (w : World) : result (list SocketAddr) ProxyError * World :=
  match url_host_str url, url_port_or_known_default url with
  | Some host, Some port =>
      match parse_ip host with
      | Some address => (if is_public_address address then Ok [(address, 0%Z, port)] else Err UnsupportedTarget, w)
      | None =>
          let '(found, w) := lookup_host host port w in
          (match found with
           | Some addresses =>
               if negb (match addresses with [] => true | _ => false end)
                  && forallb (fun a => is_public_address a.1.1) addresses
               then Ok addresses else Err UnsupportedTarget
           | None => Err InvalidUrl
           end, w)
      end
  | _, _ => (Err InvalidUrl, w)
  end.

(** ** Following redirects *)

Definition is_redirect (status : Z) : bool := existsb (Z.eqb status) [301; 302; 303; 307; 308]%Z.

(** The requests made, oldest first, with the client of each. *)
Definition Log : Type := list (Client * Request).

(** The checks on a target before its address is looked at. *)
Definition unsafe_target (previous target : Url) (redirects : Z) : bool :=
  (redirects =? 10)%Z
  || negb ((url_scheme target =? "http") || (url_scheme target =? "https"))
  || ((url_scheme previous =? "https") && negb (url_scheme target =? "https"))
  || bool_decide (url_host_str target = None)
  || negb (str_is_empty (url_username target))
  || bool_decide (url_password target <> None)
  || bool_decide (url_fragment target <> None).

Definition target_is_ip (target : Url) : bool :=
  match url_host_str target with
  | Some host => match parse_ip host with Some _ => true | None => false end
  | None => false
  end.

(** An address the operator configured as the upstream itself. *)
Definition explicit_ip_origin (original previous target : Url) : bool :=
  same_origin previous target && same_origin original target && target_is_ip target.

Definition pinned_addresses (explicit : bool) (target : Url) (w : World) : option (list SocketAddr) * World :=
  if explicit then
    (match url_host_str target ≫= parse_ip, url_port_or_known_default target with
     | Some address, Some port => Some [(address, 0%Z, port)]
     | _, _ => None
     end, w)
  else
    let '(addresses, w) := public_destination_addresses target w in
    (match addresses with Ok addresses => Some addresses | Err _ => None end, w).

Definition CREDENTIALS : list string := ["authorization"; "cookie"; "proxy-authorization"].

Definition remove_all (names : list string) (h : HeaderMap) : HeaderMap :=
  fold_left (fun h name => h_remove name h) names h.

(** The request for the target of a redirect; [None] when the body cannot be
    sent again. *)
Definition next_request (request : Request) (status : Z) (target : Url) : option Request :=
  let headers :=
    if same_origin (rq_url request) target then rq_headers request
    else remove_all CREDENTIALS (rq_headers request) in
  if negb (rq_method request =? "GET") && negb (rq_method request =? "HEAD")
     && existsb (Z.eqb status) [301; 302; 303]%Z
  then
    let headers := remove_all ["content-length"; "content-type"; "transfer-encoding"] headers in
    let fresh := new_request "GET" target in
    Some (set_headers (h_merge (rq_headers fresh) headers) fresh)
  else if rq_stream request then None
  else Some {| rq_method := rq_method request; rq_url := target; rq_headers := headers; rq_stream := false |}.

(** One turn of the loop: the final answer, or the next client and request. *)
Definition follow (config : Config.t) (original : Url) (request : Request) (redirects : Z) (response : Response)
    (w : World) : result (Response + (Client * Request)) stop * World :=
  if negb (is_redirect (rs_status response)) then (Ok (inl response), w)
  else
    match h_get (rs_headers response) "location" with
    | None => (Ok (inl response), w)
    | Some location =>
        match h_to_str location ≫= url_join (rs_url response) with
        | None => (Err (Error UnsafeRedirect), w)
        | Some target =>
            if unsafe_target (rq_url request) target redirects then (Err (Error UnsafeRedirect), w)
            else
              let explicit := explicit_ip_origin original (rq_url request) target in
              let '(addresses, w) := pinned_addresses explicit target w in
              match addresses with
              | None => (Err (Error UnsafeRedirect), w)
              | Some addresses =>
                  if OutboundProxyConfig.enabled (Config.outbound_proxy config) && negb explicit
                  then (Err (Error UnsafeRedirect), w)
                  else match url_host_str target with
                       | None => (Err (Error UnsafeRedirect), w)
                       | Some host =>
                           if negb (client_builder_ok config) then (Err (Error UnsafeRedirect), w)
                           else if negb (client_build_ok host addresses) then (Err (Error Upstream), w)
                           else match next_request request (rs_status response) target with
                                | None => (Ok (inl response), w)
                                | Some next => (Ok (inr (Some (host, addresses), next)), w)
                                end
                       end
              end
        end
    end.

(** The loop, with fuel: [None] when it runs out. *)
Fixpoint redirect_loop (fuel : nat) (config : Config.t) (original : Url) (client : Client) (request : Request)
    (redirects : Z) (w : World) (log : Log) : option (result Response stop * World * Log) :=
  match fuel with
  | O => None
  | S fuel =>
      let log := log ++ [(client, request)] in
      let '(answer, w) := execute client request w in
      match answer with
      | Err _ => Some (Err (Error Upstream), w, log)
      | Ok response =>
          let '(next, w) := follow config original request redirects response w in
          match next with
          | Err e => Some (Err e, w, log)
          | Ok (inl response) => Some (Ok response, w, log)
          | Ok (inr (client, request)) =>
              redirect_loop fuel config original client request (redirects + 1)%Z w log
          end
      end
  end.

(** Eleven turns: the request and ten redirects. *)
Definition send_upstream_request (config : Config.t) (request : Request) (w : World) :
    option (result Response stop * World * Log) :=
  redirect_loop 11 config (rq_url request) None request 0 w [].
End Redirect.

(** ** Lemmas *)

Section Lemmas.
Context `{HttpLaws} `{!HeaderLaws}.

Lemma get_all_remove_all (names : list string) (h : HeaderMap) (n : string) :
  h_get_all (remove_all names h) n =
  if decide (to_ascii_lowercase n ∈ (to_ascii_lowercase <$> names)) then [] else h_get_all h n.
Proof.
  unfold remove_all. revert h. induction names as [|m names IH]; intros h; cbn [fold_left].
  { rewrite decide_False; [done|]. apply not_elem_of_nil. }
  rewrite IH, h_get_all_remove, fmap_cons. repeat case_decide; try done; exfalso; set_solver.
Qed.

Lemma remove_all_nil (names : list string) (h : HeaderMap) (n : string) :
  h_get_all h n = [] -> h_get_all (remove_all names h) n = [].
Proof. intros Hn. rewrite get_all_remove_all. by case_decide. Qed.

(** What one redirect guarantees of the next request. *)
Record safe_hop (config : Config.t) (original : Url) (request : Request) (client : Client) (next : Request) : Prop := {
  hop_scheme : url_scheme (rq_url next) = "http" \/ url_scheme (rq_url next) = "https";
  hop_no_downgrade : url_scheme (rq_url request) = "https" -> url_scheme (rq_url next) = "https";
  hop_no_userinfo : url_username (rq_url next) = "" /\ url_password (rq_url next) = None;
  hop_pinned : exists host addresses, client = Some (host, addresses) /\ url_host_str (rq_url next) = Some host /\
    addresses <> [] /\
    (Forall (fun a => is_public_address a.1.1 = true) addresses /\
       OutboundProxyConfig.enabled (Config.outbound_proxy config) = false \/
     same_origin original (rq_url next) = true /\ exists address, parse_ip host = Some address /\
       (fun a => a.1.1) <$> addresses = [address]);
  hop_credentials : forall n, n ∈ CREDENTIALS ->
    h_get_all (rq_headers next) n = [] \/
    same_origin (rq_url request) (rq_url next) = true /\ h_get_all (rq_headers request) n <> [];
}.

Lemma public_destinations (url : Url) (w w' : World) (addresses : list SocketAddr) :
  public_destination_addresses url w = (Ok addresses, w') ->
  addresses <> [] /\ Forall (fun a => is_public_address a.1.1 = true) addresses.
Proof.
  unfold public_destination_addresses. destruct (url_host_str url) as [host|]; [|done].
  destruct (url_port_or_known_default url) as [port|]; [|done]. destruct (parse_ip host) as [ip|].
  - case_bool; [|done]. intros [= <- <-]. split; [done|]. by repeat constructor.
  - destruct (lookup_host host port w) as [[l|] w1]; [|done]. case_bool; [|done]. intros [= <- <-].
    apply andb_true_iff in Heqb as [Hne Hall]. split; [by destruct l|]. by apply forallb_true_Forall.
Qed.

(** Credentials are in the next request only if they were in this one, and
    only for the same origin. *)
Lemma next_request_credentials (request next : Request) (status : Z) (target : Url) (n : string) :
  next_request request status target = Some next -> url_username target = "" -> url_password target = None ->
  n ∈ CREDENTIALS ->
  rq_url next = target /\
  (h_get_all (rq_headers next) n = [] \/
   same_origin (rq_url request) target = true /\ h_get_all (rq_headers request) n <> []).
Proof.
  unfold next_request. intros Hnext Hu Hp Hn.
  set (h := if same_origin _ _ then _ else _) in Hnext.
  assert (Hh : h_get_all h n = [] \/ same_origin (rq_url request) target = true /\ h = rq_headers request).
  { unfold h. destruct (same_origin (rq_url request) target); [by right|left].
    rewrite get_all_remove_all, decide_True; [done|]. by apply list_elem_of_fmap_2. }
  assert (Hc : forall h', (h_get_all h n = [] -> h_get_all h' n = []) -> (h_get_all h' n <> [] -> h_get_all h n <> []) ->
    h_get_all h' n = [] \/ same_origin (rq_url request) target = true /\ h_get_all (rq_headers request) n <> []).
  { intros h' H1' H2'. destruct Hh as [Hh|[Hs ->]]; [left; auto|].
    destruct (h_get_all h' n) eqn:E; [by left|right]. split; [done|]. apply H2'. congruence. }
  destruct (_ && _) in Hnext.
  - rewrite (new_request_plain _ _ Hu Hp) in Hnext. injection Hnext as <-.
    set (h1 := remove_all ["content-length"; "content-type"; "transfer-encoding"] h). split; [done|].
    assert (He : h_get_all (h_merge h_empty h1) n = h_get_all h1 n).
    { rewrite h_get_all_merge. destruct (h_get_all h1 n); [|done]. unfold h_get_all. by rewrite h_iter_empty. }
    apply (Hc (h_merge h_empty h1)); rewrite He.
    + apply remove_all_nil.
    + intros Hx Hy. by apply Hx, remove_all_nil.
  - destruct (rq_stream request); [done|]. injection Hnext as <-. split; [done|]. by apply Hc.
Qed.

Lemma unsafe_target_false (previous target : Url) (redirects : Z) :
  unsafe_target previous target redirects = false ->
  redirects <> 10%Z /\
  (url_scheme target = "http" \/ url_scheme target = "https") /\
  (url_scheme previous = "https" -> url_scheme target = "https") /\
  url_username target = "" /\ url_password target = None.
Proof.
  unfold unsafe_target. rewrite !orb_false_iff, !bool_decide_eq_false, negb_false_iff, orb_true_iff, !String.eqb_eq.
  intros ((((((Hr & Hs) & Hd) & _) & Hu) & Hp) & _). apply Z.eqb_neq in Hr. apply dec_stable in Hp.
  split_and!; [done|done| | |done].
  - intros Hh. rewrite Hh in Hd. simpl in Hd. by apply negb_false_iff, String.eqb_eq in Hd.
  - apply negb_false_iff in Hu. by destruct (url_username target).
Qed.

Lemma follow_safe (config : Config.t) (original : Url) (request next : Request) (redirects : Z) (client : Client)
    (response : Response) (w w' : World) :
  follow config original request redirects response w = (Ok (inr (client, next)), w') ->
  (redirects =? 10)%Z = false /\ safe_hop config original request client next.
Proof.
  unfold follow. case_bool; [done|]. destruct (h_get _ "location") as [loc|]; [|done].
  destruct (h_to_str loc ≫= url_join (rs_url response)) as [target|]; [|done].
  destruct (unsafe_target (rq_url request) target redirects) eqn:Hu; [done|].
  apply unsafe_target_false in Hu as (Hr & Hscheme & Hdown & Huser & Hpass).
  destruct (pinned_addresses _ target w) as [[addresses|] w1] eqn:Hp; [|done].
  destruct (OutboundProxyConfig.enabled _ && _) eqn:Hproxy; [done|].
  destruct (url_host_str target) as [host|] eqn:Hhost; [|done].
  do 2 (case_bool; [done|]). destruct (next_request request _ target) as [next'|] eqn:Hn; [|done].
  intros [= <- <- <-]. split; [by apply Z.eqb_neq|].
  assert (Hurl : rq_url next' = target).
  { by destruct (next_request_credentials _ _ _ _ "authorization" Hn Huser Hpass ltac:(by left)). }
  split; rewrite ?Hurl.
  - exact Hscheme.
  - exact Hdown.
  - by split.
  - exists host, addresses. split; [done|]. split; [done|]. unfold pinned_addresses in Hp.
    destruct (explicit_ip_origin original (rq_url request) target) eqn:He.
    + rewrite Hhost in Hp. simpl in Hp. destruct (parse_ip host) as [ip|] eqn:Hip; [|done].
      destruct (url_port_or_known_default target); [|done]. injection Hp as <- <-. split; [done|].
      right. unfold explicit_ip_origin in He. apply andb_true_iff in He as [[_ He]%andb_true_iff _].
      split; [done|]. by exists ip.
    + destruct (public_destination_addresses target w) as [[l|] w2] eqn:Hd; [|done]. injection Hp as <- <-.
      apply public_destinations in Hd as [Hne Hall]. split; [done|]. left. split; [done|].
      simpl in Hproxy. by rewrite andb_true_r in Hproxy.
  - intros n Hin. by apply (next_request_credentials _ _ _ _ n Hn).
Qed.

Lemma follow_stops (config : Config.t) (original : Url) (request : Request) (response : Response) (w w' : World)
    next :
  follow config original request 10 response w = (Ok (inr next), w') -> False.
Proof. destruct next as [c r]. intros Hf. by destruct (follow_safe _ _ _ _ _ _ _ _ _ Hf) as [? _]. Qed.

(** The loop from any turn: it ends, appends to the log a chain of safe hops
    that starts with its request, and makes no more requests than its turns. *)
Inductive chain (config : Config.t) (original : Url) : Log -> Prop :=
| chain_one c r : chain config original [(c, r)]
| chain_more c r c' r' l :
    safe_hop config original r c' r' -> chain config original ((c', r') :: l) ->
    chain config original ((c, r) :: (c', r') :: l).

Lemma redirect_loop_chain (config : Config.t) (original : Url) (fuel : nat) :
  forall (client : Client) (request : Request) (redirects : Z) (w : World) (log : Log),
  (0 <= redirects <= 10)%Z -> (11 <= Z.of_nat fuel + redirects)%Z ->
  exists r w' l, redirect_loop fuel config original client request redirects w log = Some (r, w', log ++ l) /\
    chain config original l /\ head l = Some (client, request) /\ (Z.of_nat (length l) + redirects <= 11)%Z.
Proof.
  induction fuel as [|fuel IH]; intros client request redirects w log Hr Hf; [lia|]. cbn [redirect_loop].
  assert (Hone : chain config original [(client, request)]) by constructor.
  destruct (execute client request w) as [[response|e] w1].
  2:{ do 3 eexists. split; [reflexivity|]. split; [done|]. split; [done|]. simpl. lia. }
  destruct (follow config original request redirects response w1) as [[[response'|[client' request']]|e] w2] eqn:Hfol.
  - do 3 eexists. split; [reflexivity|]. split; [done|]. split; [done|]. simpl. lia.
  - destruct (follow_safe _ _ _ _ _ _ _ _ _ Hfol) as [Hne Hsafe]. apply Z.eqb_neq in Hne.
    destruct (IH client' request' (redirects + 1)%Z w2 (log ++ [(client, request)])) as (r & w' & l & Hl & Hc & Hh & Hn);
      [lia|lia|]. exists r, w', ((client, request) :: l). split; [rewrite Hl; by rewrite <- app_assoc|].
    destruct l as [|[c q] l]; [done|]. simpl in Hh. injection Hh as -> ->.
    split; [by constructor|]. split; [done|]. cbn [length] in *. lia.
  - do 3 eexists. split; [reflexivity|]. split; [done|]. split; [done|]. simpl. lia.
Qed.

Lemma chain_split (config : Config.t) (original : Url) (pre post : Log) (a b : Client * Request) :
  chain config original (pre ++ a :: b :: post) -> safe_hop config original a.2 b.1 b.2.
Proof.
  revert a b post. induction pre as [|x pre IH]; intros a b post Hc; simpl in Hc.
  - by inversion Hc.
  - apply (IH a b post). remember (pre ++ a :: b :: post) as t eqn:Ht.
    inversion Hc; subst; [by destruct pre|done].
Qed.

(** Along a chain credentials stay with the origin they started with. *)
Lemma chain_credentials (config : Config.t) (original : Url) (l : Log) (c : Client) (r : Request) :
  chain config original l -> head l = Some (c, r) -> forall e n, e ∈ l -> n ∈ CREDENTIALS ->
  h_get_all (rq_headers e.2) n <> [] ->
  same_origin (rq_url r) (rq_url e.2) = true /\ h_get_all (rq_headers r) n <> [].
Proof.
  intros Hc. revert c r. induction Hc as [c0 r0|c0 r0 c' r' l Hs Hc IH]; intros c r Hh e n He Hn Hne;
    simpl in Hh; simplify_eq.
  - apply list_elem_of_singleton in He as ->. split; [apply same_origin_refl|done].
  - apply elem_of_cons in He as [->|He]; [split; [apply same_origin_refl|done]|].
    destruct (IH c' r' eq_refl e n He Hn Hne) as [Ho Hr'].
    destruct (hop_credentials _ _ _ _ _ Hs n Hn) as [?|[Ho' Hr]]; [done|].
    split; [by eapply same_origin_trans|done].
Qed.

(** A name that is not passed on. *)
Lemma forward_headers_withheld (incoming h : HeaderMap) (n : string) :
  should_forward_request_header n = false -> h_get_all (forward_headers incoming h) n = h_get_all h n.
Proof.
  unfold forward_headers. intros Hn. revert h. generalize (h_iter incoming). intros l.
  induction l as [|e l IH]; intros h; cbn [fold_left]; [done|]. rewrite IH.
  destruct (should_forward_request_header e.1) eqn:He; [|done]. rewrite h_get_all_append, decide_False; [done|].
  intros Heq. unfold should_forward_request_header in *. by rewrite <- Heq, Hn in He.
Qed.

(** A name that is passed on keeps its values, after those already there. *)
Lemma forward_headers_passed (incoming h : HeaderMap) (n : string) :
  should_forward_request_header n = true ->
  h_get_all (forward_headers incoming h) n =
  h_get_all h n ++ (snd <$> filter (fun e => to_ascii_lowercase n = to_ascii_lowercase e.1) (h_iter incoming)).
Proof.
  unfold forward_headers. intros Hn. revert h. generalize (h_iter incoming). intros l.
  induction l as [|e l IH]; intros h; cbn [fold_left]; [by rewrite app_nil_r|]. rewrite IH, filter_cons.
  destruct (decide (to_ascii_lowercase n = to_ascii_lowercase e.1)) as [Heq|Hne].
  - assert (should_forward_request_header e.1 = true) as ->
      by (unfold should_forward_request_header in *; by rewrite <- Heq).
    rewrite h_get_all_append, decide_True by done. by rewrite <- app_assoc.
  - destruct (should_forward_request_header e.1); [|done]. by rewrite h_get_all_append, decide_False.
Qed.
End Lemmas.

(** ** Properties *)

Section Guarantees.
Context `{HttpLaws} `{!HeaderLaws}.

(** Redirects end: [send_upstream_request] always returns, after at most
    eleven requests, the first of which is the one it was given. *)
Theorem redirects_terminate (config : Config.t) (request : Request) (w : World) :
  exists r w' log, send_upstream_request config request w = Some (r, w', log) /\
    (1 <= length log <= 11)%nat /\ head log = Some (None, request).
Proof.
  unfold send_upstream_request.
  destruct (redirect_loop_chain config (rq_url request) 11 None request 0 w []) as (r & w' & l & Hl & _ & Hh & Hn);
    [lia|lia|]. exists r, w', l. split; [exact Hl|]. split; [destruct l; [done|cbn [length] in *; lia]|done].
Qed.

(** Redirects are safe. Every request after the first goes to an HTTP or
    HTTPS URL without credentials in it, never from HTTPS to HTTP, and its
    connection is pinned to addresses that are all public (and then no
    outbound proxy is in use) or to the very IP address the operator
    configured. *)
Theorem redirects_are_safe (config : Config.t) (request : Request) (w w' : World) r (log pre post : Log)
    (a b : Client * Request) :
  send_upstream_request config request w = Some (r, w', log) -> log = pre ++ a :: b :: post ->
  safe_hop config (rq_url request) a.2 b.1 b.2.
Proof.
  unfold send_upstream_request. intros Hs ->.
  destruct (redirect_loop_chain config (rq_url request) 11 None request 0 w []) as (r' & w1 & l & Hl & Hc & _);
    [lia|lia|]. rewrite Hs in Hl. simplify_eq. simpl in *. subst. by eapply chain_split.
Qed.

(** C11: credentials never leave the origin of the request. Whatever chain of
    redirects an upstream answers with, a request that carries
    [Authorization], [Cookie] or [Proxy-Authorization] has the origin of the
    first one. *)
Theorem credentials_stay_with_origin (config : Config.t) (request : Request) (w w' : World) r (log : Log)
    (e : Client * Request) (n : string) :
  send_upstream_request config request w = Some (r, w', log) -> e ∈ log -> n ∈ CREDENTIALS ->
  h_get_all (rq_headers e.2) n <> [] -> same_origin (rq_url request) (rq_url e.2) = true.
Proof.
  unfold send_upstream_request. intros Hs He Hn Hne.
  destruct (redirect_loop_chain config (rq_url request) 11 None request 0 w []) as (r' & w1 & l & Hl & Hc & Hh & _);
    [lia|lia|]. rewrite Hs in Hl. simplify_eq. simpl in *. by eapply chain_credentials.
Qed.

(** The credentials an upstream sees are those configured for it, else
    the client's [Authorization] if the configuration forwards it, else none;
    a client's cookies and proxy credentials are never passed on. *)
Theorem upstream_credentials (method : string) (url : Url) (incoming : HeaderMap) (config : Config.t) (w : World)
    (r : Request) :
  url_username url = "" -> url_password url = None ->
  upstream_request method url incoming config w = Ok r ->
  h_get_all (rq_headers r) "cookie" = [] /\ h_get_all (rq_headers r) "proxy-authorization" = [] /\
  h_get_all (rq_headers r) "authorization" =
    match upstream_auth_for (Config.upstreams config) (Config.upstream_auth config) url with
    | Some auth =>
        match UpstreamAuth.username auth, UpstreamAuth.password auth, UpstreamAuth.bearer_token auth with
        | Some username, Some password, _ => [basic_auth_value username password]
        | _, _, Some token => [bearer_auth_value token]
        | _, _, _ => []
        end
    | None => if Config.forward_client_authorization config
              then match h_get incoming "authorization" with Some v => [v] | None => [] end else []
    end.
Proof.
  intros Hu Hp Hr. set (h := h_merge (forward_headers incoming h_empty) (trace_headers w)).
  assert (Hh : forall n, n ∈ CREDENTIALS -> h_get_all h n = []).
  { intros n Hn. unfold h. rewrite h_get_all_merge, trace_headers_names by set_solver.
    rewrite forward_headers_withheld; [unfold h_get_all; by rewrite h_iter_empty|].
    unfold CREDENTIALS in Hn. repeat (apply elem_of_cons in Hn as [->|Hn]; [done|]). by apply elem_of_nil in Hn. }
  assert (Ha : forall v n, n ∈ CREDENTIALS -> h_get_all (h_append "authorization" v h) n =
    if decide (n = "authorization") then [v] else []).
  { intros v n Hn. rewrite h_get_all_append, Hh by done. unfold CREDENTIALS in Hn.
    repeat (apply elem_of_cons in Hn as [->|Hn]; [done|]). by apply elem_of_nil in Hn. }
  unfold upstream_request in Hr. rewrite (new_request_plain _ _ Hu Hp) in Hr. cbn [rq_headers] in Hr. fold h in Hr.
  assert (Hin : "cookie" ∈ CREDENTIALS /\ "proxy-authorization" ∈ CREDENTIALS /\ "authorization" ∈ CREDENTIALS)
    by (unfold CREDENTIALS; set_solver).
  destruct Hin as (Hc & Hpa & Hau).
  destruct (upstream_auth_for _ _ url) as [auth|].
  - destruct (UpstreamAuth.username auth), (UpstreamAuth.password auth), (UpstreamAuth.bearer_token auth);
      try done; injection Hr as <-; cbn [rq_headers set_headers]; rewrite !Ha by done; done.
  - destruct (Config.forward_client_authorization config);
      [destruct (h_get incoming "authorization")|]; injection Hr as <-; cbn [rq_headers set_headers];
      rewrite ?Ha, ?Hh by done; done.
Qed.
End Guarantees.

(** ** A concrete world *)

(** Upstreams that answer from a script; every name is a public address. *)
Definition Answer : Type := option (Z * list (string * string) * option string).

#[export] Instance ScriptWorld : @HttpWorld AssocHeaders SimpleUrlApi := {|
  World := list Answer;
  execute _ r w :=
    match w with
    | Some (s, h, b) :: w => (Ok {| rs_status := s; rs_url := rq_url r; rs_headers := (h : @HeaderMap AssocHeaders);
                                    rs_body := b |}, w)
    | None :: w => (Err tt, w)
    | [] => (Err tt, [])
    end;
  lookup_host host port w := (Some [(V4 134744072, 0%Z, port)], w);
  new_request m u :=
    {| rq_method := m; rq_url := u;
       rq_headers := if str_is_empty (su_user u) && bool_decide (su_password u = None) then []
                     else [("authorization", "Basic " +:+ su_user u)] : @HeaderMap AssocHeaders;
       rq_stream := false |};
  basic_auth_value u p := "Basic " +:+ u +:+ ":" +:+ p;
  bearer_auth_value t := "Bearer " +:+ t;
  trace_headers _ := [];
  client_builder_ok _ := true;
  client_build_ok _ _ := true;
  instant_now _ := 0%Z;
  system_now _ := 50000000000%Z;
|}.

#[export] Instance ScriptWorld_laws : @HttpLaws AssocHeaders SimpleUrlApi ScriptWorld.
Proof.
  split.
  - done.
  - intros m u Hu Hp. simpl in *. by rewrite Hu, Hp.
  - done.
Qed.

Definition sample_target (host : string) : simple_url := SimpleUrl "https" "" None host None "/f" None None.

(** A request with credentials, redirected to another host. *)
Definition sample_request : @Request AssocHeaders SimpleUrlApi :=
  {| rq_method := "GET"; rq_url := sample_target "a.example"; rq_stream := false;
     rq_headers := [("authorization", "Bearer t"); ("accept", "*/*")] : @HeaderMap AssocHeaders |}.

Definition sample_hop : @Request AssocHeaders SimpleUrlApi :=
  {| rq_method := "GET"; rq_url := sample_target "b.example"; rq_stream := false;
     rq_headers := [("accept", "*/*")] : @HeaderMap AssocHeaders |}.

Definition sample_script : list Answer :=
  [Some (302%Z, [("location", "https://b.example/f")], Some ""); Some (200%Z, [], Some "data")].

Definition sample_log : @Log AssocHeaders SimpleUrlApi :=
  [(None, sample_request); (Some ("b.example", [(V4 134744072, 0%Z, 443%Z)]), sample_hop)].

Definition sample_answer : @Response AssocHeaders SimpleUrlApi :=
  {| rs_status := 200%Z; rs_url := sample_target "b.example"; rs_headers := [] : @HeaderMap AssocHeaders;
     rs_body := Some "data" |}.

Definition sample_result : option (result (@Response AssocHeaders SimpleUrlApi) stop * list Answer *
    @Log AssocHeaders SimpleUrlApi) := Some (Ok sample_answer, [], sample_log).

Lemma sample_send :
  @send_upstream_request AssocHeaders SimpleUrlApi ScriptWorld Config.default sample_request sample_script =
  sample_result.
Proof.
  exact (@eq_refl _ sample_result <:
    @send_upstream_request AssocHeaders SimpleUrlApi ScriptWorld Config.default sample_request sample_script =
    sample_result).
Qed.

Lemma redirects_are_safe_witness :
  @safe_hop AssocHeaders SimpleUrlApi Config.default (sample_target "a.example") sample_request
    (Some ("b.example", [(V4 134744072, 0%Z, 443%Z)])) sample_hop.
Proof.
  apply (@redirects_are_safe AssocHeaders SimpleUrlApi ScriptWorld ScriptWorld_laws AssocHeaders_laws
    Config.default sample_request sample_script [] (Ok sample_answer) sample_log [] []
    (None, sample_request) (Some ("b.example", [(V4 134744072, 0%Z, 443%Z)]), sample_hop) sample_send eq_refl).
Defined.

Lemma credentials_stay_with_origin_witness :
  @same_origin SimpleUrlApi (sample_target "a.example") (sample_target "a.example") = true.
Proof.
  apply (@credentials_stay_with_origin AssocHeaders SimpleUrlApi ScriptWorld ScriptWorld_laws AssocHeaders_laws
    Config.default sample_request sample_script [] (Ok sample_answer) sample_log (None, sample_request)
    "authorization" sample_send); [by left|by left|vm_compute; discriminate].
Defined.

Definition sample_incoming : @HeaderMap AssocHeaders :=
  [("Cookie", "s=1"); ("accept", "*/*"); ("authorization", "Bearer t")].

Definition sample_built : result (@Request AssocHeaders SimpleUrlApi) stop := Ok sample_hop.

Lemma upstream_credentials_witness :
  @h_get_all AssocHeaders [("accept", "*/*")] "cookie" = [].
Proof.
  apply (@upstream_credentials AssocHeaders SimpleUrlApi ScriptWorld ScriptWorld_laws AssocHeaders_laws "GET"
    (sample_target "b.example") sample_incoming Config.default [] sample_hop); [reflexivity|reflexivity|].
  exact (@eq_refl _ sample_built <:
    @upstream_request AssocHeaders SimpleUrlApi ScriptWorld "GET" (sample_target "b.example") sample_incoming
      Config.default [] = sample_built).
Defined.

Lemma redirects_terminate_witness :
  exists r w' log,
    @send_upstream_request AssocHeaders SimpleUrlApi ScriptWorld Config.default sample_request sample_script =
      Some (r, w', log) /\
    (1 <= length log <= 11)%nat /\ head log = Some (None, sample_request).
Proof.
  apply (@redirects_terminate AssocHeaders SimpleUrlApi ScriptWorld ScriptWorld_laws AssocHeaders_laws
    Config.default sample_request sample_script).
Defined.
