(* ===== verification/Forward.v ===== *)
(** * Forwarding a request

    [forward], [forward_with_body], [forward_request] and [get_with_fallback]
    of [proxy/mod.rs]: candidates in rank order, the response cache, failover
    and health. The calls run on one state, the [Server]; [marks] and [log]
    record what was reported to the selector and sent. *)
From stdpp Require Import gmap.
From S2P Require Import Prelude RustStr Headers Net Url Config Upstreams ConfigCheck Fs Cache CacheCodec.
From S2P Require Import Selector Redirect.
Open Scope string_scope.
Open Scope list_scope.
Open Scope mirror_scope.

Section Forward.
Context `{HttpWorld} `{CacheCodec}.
Variable iter_order : list (string * EndpointState) -> list (string * EndpointState).

(** The body is what reading it gives, [None] when it breaks off. *)
Record Reply : Type := {
  reply_status : Z;
  reply_headers : HeaderMap;
  reply_body : option string;
}.

Record Server : Type := {
  world : World;
  store : Cache.state;
  selector : SelectorState;
  marks : list (Url * bool);
  log : Log;
}.

Definition set_world (w : World) (s : Server) : Server :=
  {| world := w; store := store s; selector := selector s; marks := marks s; log := log s |}.
Definition set_store (c : Cache.state) (s : Server) : Server :=
  {| world := world s; store := c; selector := selector s; marks := marks s; log := log s |}.

(** The cache with the clocks of the world. *)
Definition clocked (s : Server) : Cache.state :=
  let c := store s in
  {| disk := Fs (files (disk c)) (faults (disk c)) (system_now (world s)); capacity := capacity c;
     instant := instant_now (world s) |}.

Definition mark_success (url : Url) (started_at : Z) (s : Server) : Server :=
  let now := instant_now (world s) in
  {| world := world s; store := store s;
     selector := record_success iter_order url (now - started_at) now (selector s);
     marks := marks s ++ [(url, true)]; log := log s |}.

Definition mark_failure (config : Config.t) (url : Url) (s : Server) : Server :=
  let now := instant_now (world s) in
  {| world := world s; store := store s;
     selector := record_failure iter_order url (Config.upstream_selection config) now now (selector s);
     marks := marks s ++ [(url, false)]; log := log s |}.

Definition ranked (config : Config.t) (url : Url) (s : Server) : list Url * Server :=
  let '(l, sel) := rank (upstream_candidates_for (Config.upstreams config) url) (Config.upstream_selection config)
                     (instant_now (world s)) (system_now (world s) / NANOS) (selector s) in
  (l, {| world := world s; store := store s; selector := sel; marks := marks s; log := log s |}).

Definition cacheable_request (method : string) (headers : HeaderMap) : bool :=
  (method =? "GET") && negb (h_contains headers "authorization") && negb (h_contains headers "cookie")
  && negb (h_contains headers "range").

Definition should_failover_status (status : Z) : bool :=
  ((status =? 404) || (status =? 408) || (status =? 429) || ((500 <=? status) && (status <=? 599)))%Z.

Definition response_with_headers (status : Z) (headers : HeaderMap) (body : option string) : Reply :=
  {| reply_status := status;
     reply_headers := fold_left (fun h e => if should_forward_response_header e.1 then h_append e.1 e.2 h else h)
                        (h_iter headers) h_empty;
     reply_body := body |}.

Definition reply_from_cache (entry : DiskCacheEntry) (cache_status : string) (s : Server) : result Reply stop :=
  match cached_response entry cache_status (system_now (world s)) with
  | Ok r => Ok {| reply_status := response_status r; reply_headers := response_headers r;
                  reply_body := Some (response_body r) |}
  | Err e => Err (Error e)
  end.

(** [RequestBuilder::header] with a string: an invalid value fails the build. *)
Definition add_header (name value : string) (r : Request) : option Request :=
  (fun v => set_headers (h_append name v (rq_headers r)) r) <$> h_from_str value.

Definition add_cached (name : string) (value : option string) (r : Request) : option Request :=
  match value with Some v => add_header name v r | None => Some r end.

Definition add_validators (cached : option DiskCacheEntry) (r : Request) : option Request :=
  match cached with
  | None => Some r
  | Some entry =>
      add_cached "if-none-match" (cached_header (metadata entry) "etag") r
      ≫= add_cached "if-modified-since" (cached_header (metadata entry) "last-modified")
  end.

Definition set_stream (stream : bool) (r : Request) : Request :=
  {| rq_method := rq_method r; rq_url := rq_url r; rq_headers := rq_headers r; rq_stream := stream |}.

(** [send_upstream_request] on the server; [None] is a builder that failed. *)
Definition send (config : Config.t) (request : option Request) (s : Server) : result Response stop * Server :=
  match request with
  | None => (Err (Error Upstream), s)
  | Some request =>
      match send_upstream_request config request (world s) with
      | Some (r, w, l) =>
          (r, {| world := w; store := store s; selector := selector s; marks := marks s; log := log s ++ l |})
      | None => (Err Panic, s)
      end
  end.

Definition use_cache (config : Config.t) (method : string) (incoming : HeaderMap) : bool :=
  cacheable_request method incoming && CacheConfig.enabled (Config.cache config).

Definition lookup_cache (config : Config.t) (method : string) (incoming : HeaderMap) (candidate : Url) (s : Server) :
    option DiskCacheEntry * Server :=
  if use_cache config method incoming then
    let '(entry, d) := load_disk_cache (Config.cache config) candidate incoming (disk (clocked s)) in
    (entry, set_store (with_disk d (clocked s)) s)
  else (None, s).

Definition is_fresh (cached : option DiskCacheEntry) (s : Server) : option DiskCacheEntry :=
  match cached with
  | Some entry => if (unix_timestamp (system_now (world s)) <? expires_at (metadata entry))%Z then Some entry else None
  | None => None
  end.

(** The cached entry a 304 revalidates. *)
Definition revalidated (cached : option DiskCacheEntry) (upstream : Response) : option DiskCacheEntry :=
  if (rs_status upstream =? 304)%Z then cached else None.

Definition storable (config : Config.t) (method : string) (incoming : HeaderMap) (upstream : Response) : bool :=
  use_cache config method incoming && (rs_status upstream =? 200)%Z
  && match h_get_str (rs_headers upstream) "content-length" ≫= parse_uint U64_MAX with
     | Some length => (length <=? max_cache_entry_bytes (Config.cache config))%Z
     | None => false
     end.

(** The answer of the last endpoint tried, stored if it may be. *)
Definition deliver (config : Config.t) (method : string) (incoming : HeaderMap) (candidate : Url)
    (upstream : Response) (s : Server) : result Reply stop * Server :=
  if storable config method incoming upstream then
    match rs_body upstream with
    | None => (Err (Error Upstream), s)
    | Some body =>
        let c := write_disk_cache (Config.cache config) candidate incoming (rs_status upstream) (rs_headers upstream)
                   body (clocked s) in
        (Ok (response_with_headers (rs_status upstream) (rs_headers upstream) (Some body)), set_store c s)
    end
  else (Ok (response_with_headers (rs_status upstream) (rs_headers upstream) (rs_body upstream)), s).

(** The loop over the candidates; [stream] is set when the request has a body. *)
Fixpoint attempts (config : Config.t) (method : string) (incoming : HeaderMap) (stream : bool)
    (candidates : list Url) (s : Server) : result Reply stop * Server :=
  match candidates with
  | [] => (Err Panic, s)
  | candidate :: rest =>
      let '(cached, s) := lookup_cache config method incoming candidate s in
      match is_fresh cached s with
      | Some entry => (reply_from_cache entry "HIT" s, s)
      | None =>
          match upstream_request method candidate incoming config (world s) with
          | Err e => (Err e, s)
          | Ok request =>
              let request := set_stream stream <$> add_validators cached request in
              let started_at := instant_now (world s) in
              let '(answer, s) := send config request s in
              match answer with
              | Err Panic => (Err Panic, s)
              | Err (Error e) =>
                  let s := mark_failure config candidate s in
                  match rest with
                  | [] => (Err (Error e), s)
                  | _ => attempts config method incoming false rest s
                  end
              | Ok upstream =>
                  match revalidated cached upstream with
                  | Some entry =>
                      let '(m, c) := refresh_cache_metadata (Config.cache config) candidate (metadata entry)
                                       (rs_headers upstream) (clocked s) in
                      let s := mark_success candidate started_at (set_store c s) in
                      (reply_from_cache {| body := body entry; metadata := m |} "REVALIDATED" s, s)
                  | None =>
                      if should_failover_status (rs_status upstream)
                      then
                        let s := mark_failure config candidate s in
                        match rest with
                        | [] => deliver config method incoming candidate upstream s
                        | _ => attempts config method incoming false rest s
                        end
                      else deliver config method incoming candidate upstream (mark_success candidate started_at s)
                  end
              end
          end
      end
  end.

Definition forward_request (config : Config.t) (method : string) (url : Url) (incoming : HeaderMap) (body : bool)
    (s : Server) : result Reply stop * Server :=
  let '(candidates, s) := if body then ([url], s) else ranked config url s in
  attempts config method incoming body candidates s.

Definition forward (config : Config.t) (method : string) (url : Url) (incoming : HeaderMap) (s : Server) :
    result Reply stop * Server :=
  if negb ((method =? "GET") || (method =? "HEAD")) then (Err (Error MethodNotAllowed), s)
  else forward_request config method url incoming false s.

Definition forward_with_body (config : Config.t) (method : string) (url : Url) (incoming : HeaderMap) (s : Server) :
    result Reply stop * Server :=
  if negb (method =? "POST") then (Err (Error MethodNotAllowed), s)
  else forward_request config method url incoming true s.

(** ** Metadata requests *)

Fixpoint fallback (config : Config.t) (candidates : list Url) (s : Server) : result Response stop * Server :=
  match candidates with
  | [] => (Err Panic, s)
  | candidate :: rest =>
      let started_at := instant_now (world s) in
      match upstream_request "GET" candidate h_empty config (world s) with
      | Err e => (Err e, s)
      | Ok request =>
          let '(answer, s) := send config (Some request) s in
          match answer with
          | Err Panic => (Err Panic, s)
          | Err (Error e) =>
              let s := mark_failure config candidate s in
              match rest with [] => (Err (Error e), s) | _ => fallback config rest s end
          | Ok response =>
              if should_failover_status (rs_status response)
              then
                let s := mark_failure config candidate s in
                match rest with [] => (Ok response, s) | _ => fallback config rest s end
              else (Ok response, mark_success candidate started_at s)
          end
      end
  end.

Definition get_with_fallback (config : Config.t) (url : Url) (s : Server) : result Response stop * Server :=
  let '(candidates, s) := ranked config url s in fallback config candidates s.

Definition probe_endpoint (config : Config.t) (method : string) (url : Url) (s : Server) :
    result Response stop * Server :=
  match upstream_request method url h_empty config (world s) with
  | Err e => (Err e, s)
  | Ok request => send config (Some request) s
  end.
End Forward.

(** ** Lemmas *)

Section Lemmas.
Context `{HttpWorld} `{CacheCodec}.
Variable iter_order : list (string * EndpointState) -> list (string * EndpointState).

Lemma follow_no_panic (config : Config.t) (original : Url) (request : Request) (redirects : Z)
    (response : Response) (w : World) :
  (follow config original request redirects response w).1 <> Err Panic.
Proof. unfold follow. repeat case_match; done. Qed.

Lemma redirect_loop_no_panic (config : Config.t) (original : Url) (fuel : nat) :
  forall client request redirects w l r w' l',
  redirect_loop fuel config original client request redirects w l = Some (r, w', l') -> r <> Err Panic.
Proof.
  induction fuel as [|fuel IH]; intros client request redirects w l r w' l'; cbn [redirect_loop]; [done|].
  destruct (execute client request w) as [[response|e] w1]; [|by intros [= <- <- <-]].
  pose proof (follow_no_panic config original request redirects response w1) as Hp.
  destruct (follow config original request redirects response w1) as [[[response'|[c q]]|e] w2].
  - by intros [= <- <- <-].
  - apply IH.
  - intros [= <- <- <-]. simpl in Hp. congruence.
Qed.

Lemma send_no_panic (config : Config.t) (request : option Request) (s : Server) `{!HttpLaws} `{!HeaderLaws} :
  (send config request s).1 <> Err Panic.
Proof.
  unfold send. destruct request as [request|]; [|done]. unfold send_upstream_request.
  destruct (redirect_loop_chain config (rq_url request) 11 None request 0 (world s) []) as (r & w & l & Hl & _);
    [lia|lia|]. rewrite Hl. simpl. by eapply redirect_loop_no_panic.
Qed.

Lemma ranked_nonempty (config : Config.t) (url : Url) (s : Server) : (ranked config url s).1 <> [].
Proof.
  unfold ranked, rank. simpl. intros Hn%(f_equal length). revert Hn. rewrite length_fmap. unfold ranked_candidates.
  assert (Hc : upstream_candidates_for (Config.upstreams config) url <> []).
  { unfold upstream_candidates_for. by destruct (fold_left _ _ _) as [[n [|c l]]|]. }
  destruct (upstream_candidates_for (Config.upstreams config) url) as [|c l] eqn:E; [done|].
  case_bool; rewrite ?sort_by_length; unfold enumerate; by rewrite length_imap.
Qed.

(** Ranking reorders the candidates. *)
Lemma ranked_perm (config : Config.t) (url : Url) (s : Server) :
  (ranked config url s).1 ≡ₚ upstream_candidates_for (Config.upstreams config) url.
Proof.
  unfold ranked, rank. simpl. unfold ranked_candidates. generalize (upstream_candidates_for (Config.upstreams config) url).
  intros l. rewrite <- (enumerate_snd l) at 3. apply fmap_Permutation. case_bool; [apply sort_by_perm|done].
Qed.

(** Credentials of one kind make [upstream_request] return. *)
Lemma upstream_request_returns (method : string) (url : Url) (incoming : HeaderMap) (config : Config.t) (w : World) :
  (forall auth, upstream_auth_for (Config.upstreams config) (Config.upstream_auth config) url = Some auth ->
     one_kind auth) ->
  exists r, upstream_request method url incoming config w = Ok r.
Proof.
  intros Hk. unfold upstream_request. destruct (upstream_auth_for _ _ url) as [auth|].
  - destruct (Hk auth eq_refl) as [(u & p & -> & -> & ->)|(t & -> & -> & ->)]; eauto.
  - repeat case_match; eauto.
Qed.

(** What an attempt leaves of the cache when the request may not use it. *)
Lemma lookup_cache_bypass (config : Config.t) (method : string) (incoming : HeaderMap) (c : Url) (s : Server) :
  use_cache config method incoming = false -> lookup_cache config method incoming c s = (None, s).
Proof. unfold lookup_cache. by intros ->. Qed.

Lemma deliver_bypass (config : Config.t) (method : string) (incoming : HeaderMap) (c : Url) (up : Response)
    (s : Server) :
  use_cache config method incoming = false ->
  deliver config method incoming c up s =
  (Ok (response_with_headers (rs_status up) (rs_headers up) (rs_body up)), s).
Proof. unfold deliver, storable. by intros ->. Qed.

Lemma send_store (config : Config.t) (request : option Request) (s : Server) :
  store (send config request s).2 = store s /\ marks (send config request s).2 = marks s.
Proof. unfold send. by repeat case_match. Qed.

Lemma deliver_marks (config : Config.t) (method : string) (incoming : HeaderMap) (c : Url) (up : Response)
    (s : Server) : marks (deliver config method incoming c up s).2 = marks s.
Proof. unfold deliver. by repeat case_match. Qed.

Lemma lookup_cache_marks (config : Config.t) (method : string) (incoming : HeaderMap) (c : Url) (s : Server) :
  marks (lookup_cache config method incoming c s).2 = marks s.
Proof. unfold lookup_cache. by repeat case_match. Qed.

Lemma attempts_bypass (config : Config.t) (method : string) (incoming : HeaderMap) (l : list Url) :
  use_cache config method incoming = false -> forall stream s,
  store (attempts iter_order config method incoming stream l s).2 = store s.
Proof.
  intros Hu. induction l as [|c rest IH]; intros stream s; cbn [attempts]; [done|].
  rewrite lookup_cache_bypass by done. cbn [is_fresh].
  destruct (upstream_request _ _ _ _ _) as [request|e]; [|done].
  match goal with |- context [send config ?r s] => pose proof (send_store config r s) as [Hs _];
    destruct (send config r s) as [[up|[e|]] s'] end; simpl in Hs; [| |done].
  - destruct (revalidated None up) eqn:Hr; [unfold revalidated in Hr; by destruct (_ =? _)%Z|].
    destruct (should_failover_status _); [|by rewrite deliver_bypass].
    destruct rest; [by rewrite deliver_bypass|by rewrite IH].
  - destruct rest; [done|]. by rewrite IH.
Qed.

(** The health marks of a run of attempts: failures of the candidates passed
    over, then at most one mark of the candidate that decided. *)
Definition decided (candidates : list Url) (before after : list (Url * bool)) : Prop :=
  exists pre c post last, candidates = pre ++ c :: post /\ after = before ++ ((., false) <$> pre) ++ last /\
    (last = [] \/ last = [(c, true)] \/ last = [(c, false)] /\ post = []).

Lemma decided_here (c : Url) (rest : list Url) (before : list (Url * bool)) : decided (c :: rest) before before.
Proof. exists [], c, rest, []. simpl. rewrite app_nil_r. auto. Qed.

Lemma decided_mark (c : Url) (rest : list Url) (before : list (Url * bool)) (b : bool) :
  b = true \/ rest = [] -> decided (c :: rest) before (before ++ [(c, b)]).
Proof. intros Hb. exists [], c, rest, [(c, b)]. simpl. split_and!; [done|done|]. destruct b; [auto|]. naive_solver. Qed.

Lemma decided_skip (c : Url) (rest : list Url) (before after : list (Url * bool)) :
  decided rest (before ++ [(c, false)]) after -> decided (c :: rest) before after.
Proof.
  intros (pre & d & post & last & -> & -> & Hl). exists (c :: pre), d, post, last.
  split_and!; [done| |done]. rewrite fmap_cons. by rewrite <- !app_assoc.
Qed.

Lemma attempts_decided (config : Config.t) (method : string) (incoming : HeaderMap) (l : list Url) :
  l <> [] -> forall stream s,
  decided l (marks s) (marks (attempts iter_order config method incoming stream l s).2).
Proof.
  induction l as [|c rest IH]; intros Hl stream s; [done|]. cbn [attempts].
  pose proof (lookup_cache_marks config method incoming c s) as Hm.
  destruct (lookup_cache config method incoming c s) as [cached s1]. simpl in Hm. rewrite <- Hm. clear Hm.
  destruct (is_fresh cached s1); [apply decided_here|].
  destruct (upstream_request _ _ _ _ _) as [request|e]; [|apply decided_here].
  match goal with |- context [send config ?r s1] => pose proof (send_store config r s1) as [_ Hs];
    destruct (send config r s1) as [[up|[e|]] s'] end; cbn [fst snd] in *; [| |rewrite Hs; apply decided_here].
  - destruct (revalidated cached up).
    { destruct (refresh_cache_metadata _ _ _ _ _) as [m st]. cbn [snd mark_success marks set_store]. rewrite Hs.
      by apply decided_mark; left. }
    destruct (should_failover_status _).
    + destruct rest as [|d rest].
      * rewrite deliver_marks. cbn [mark_failure marks]. rewrite Hs. by apply decided_mark; right.
      * apply decided_skip. rewrite <- Hs. by apply (IH ltac:(done) false (mark_failure iter_order config c s')).
    + rewrite deliver_marks. cbn [mark_success marks]. rewrite Hs. by apply decided_mark; left.
  - destruct rest as [|d rest].
    + cbn [mark_failure marks snd]. rewrite Hs. by apply decided_mark; right.
    + apply decided_skip. rewrite <- Hs. by apply (IH ltac:(done) false (mark_failure iter_order config c s')).
Qed.
End Lemmas.

(** ** Properties *)

Section Guarantees.
Context `{HttpLaws} `{!HeaderLaws} `{CacheCodec}.
Variable iter_order : list (string * EndpointState) -> list (string * EndpointState).
Variable known_timezone : string -> bool.

Lemma attempts_no_panic (config : Config.t) (method : string) (incoming : HeaderMap) (l : list Url) :
  validate known_timezone config = Ok tt -> l <> [] -> forall stream s,
  (attempts iter_order config method incoming stream l s).1 <> Err Panic.
Proof.
  intros Hv. induction l as [|c rest IH]; intros Hl stream s; [done|]. cbn [attempts].
  destruct (lookup_cache config method incoming c s) as [cached s1].
  destruct (is_fresh cached s1); [unfold reply_from_cache; simpl; by case_match|].
  destruct (upstream_request_returns method c incoming config (world s1)) as [request ->].
  { intros auth. by apply (validated_auth_ok known_timezone). }
  match goal with |- context [send config ?r s1] => pose proof (send_no_panic config r s1) as Hs;
    destruct (send config r s1) as [[up|[e|]] s'] end; simpl in Hs; [| |done].
  - destruct (revalidated cached up).
    { destruct (refresh_cache_metadata _ _ _ _ _). unfold reply_from_cache. simpl. by case_match. }
    assert (Hd : forall s, (deliver config method incoming c up s).1 <> Err Panic)
      by (intros; unfold deliver; by repeat case_match).
    destruct (should_failover_status _); [|apply Hd]. destruct rest; [apply Hd|]. by apply IH.
  - destruct rest; [done|]. by apply IH.
Qed.

(** With a validated configuration no request reaches a panic: not the
    [unreachable!] after the loop over the candidates, not that of the
    credentials, whatever upstreams and disk do. *)
Theorem forward_never_panics (config : Config.t) (method : string) (url : Url) (incoming : HeaderMap) (s : Server) :
  validate known_timezone config = Ok tt ->
  (forward iter_order config method url incoming s).1 <> Err Panic /\
  (forward_with_body iter_order config method url incoming s).1 <> Err Panic.
Proof.
  intros Hv. unfold forward, forward_with_body, forward_request. split; (case_bool; [done|]).
  - pose proof (ranked_nonempty config url s) as Hne. destruct (ranked config url s) as [l s'].
    by apply attempts_no_panic.
  - by apply attempts_no_panic.
Qed.

(** Failover. The candidates are tried in rank order, each that fails or
    answers with a failover status is reported once as a failure, and at most
    one is reported after them: a success, or the failure of the last one. *)
Theorem failover_order (config : Config.t) (method : string) (url : Url) (incoming : HeaderMap) (s : Server) :
  decided (ranked config url s).1 (marks s)
    (marks (forward_request iter_order config method url incoming false s).2).
Proof.
  unfold forward_request. pose proof (ranked_nonempty config url s) as Hne.
  assert (Hm : marks (ranked config url s).2 = marks s) by (unfold ranked; by case_match).
  destruct (ranked config url s) as [l s']. simpl in *. rewrite <- Hm. by apply attempts_decided.
Qed.

(** Only anonymous GET requests for whole files use the cache: any other
    request is neither answered from it nor stored in it, and leaves the
    whole cache state as it is. *)
Theorem private_requests_bypass_cache (config : Config.t) (method : string) (url : Url) (incoming : HeaderMap)
    (s : Server) :
  method <> "GET" \/ h_contains incoming "authorization" = true \/ h_contains incoming "cookie" = true \/
    h_contains incoming "range" = true ->
  store (forward_request iter_order config method url incoming false s).2 = store s.
Proof.
  intros Hp. assert (Hu : use_cache config method incoming = false).
  { unfold use_cache, cacheable_request. destruct Hp as [Hp|[->|[->| ->]]]; rewrite ?andb_false_r; try done.
    by apply String.eqb_neq in Hp as ->. }
  unfold forward_request. assert (Hm : store (ranked config url s).2 = store s) by (unfold ranked; by case_match).
  destruct (ranked config url s) as [l s']. simpl in *. by rewrite (attempts_bypass iter_order _ _ _ _ Hu).
Qed.

End Guarantees.

Section Validators.
Context `{HttpLaws} `{!HeaderLaws}.

(** A revalidating request carries two validators: the client's own
    [If-None-Match] is passed on and the cached [ETag] is added to it, so a
    304 does not tell which of the two it confirms. *)
Theorem revalidation_sends_both_validators (config : Config.t) (url : Url) (incoming : HeaderMap)
    (entry : DiskCacheEntry) (w : World) (r r' : Request) (client cached : HeaderValue) (etag : string) :
  url_username url = "" -> url_password url = None ->
  upstream_request "GET" url incoming config w = Ok r -> add_validators (Some entry) r = Some r' ->
  ("if-none-match", client) ∈ h_iter incoming ->
  cached_header (metadata entry) "etag" = Some etag -> h_from_str etag = Some cached ->
  client ∈ h_get_all (rq_headers r') "if-none-match" /\ cached ∈ h_get_all (rq_headers r') "if-none-match".
Proof.
  intros Hu Hp Hr Hadd Hin Hetag Hv.
  assert (Hc : client ∈ h_get_all (rq_headers r) "if-none-match").
  { assert (Hall : h_get_all (rq_headers r) "if-none-match" =
      snd <$> filter (fun e => to_ascii_lowercase "if-none-match" = to_ascii_lowercase e.1) (h_iter incoming)).
    { set (h := h_merge (forward_headers incoming h_empty) (trace_headers w)).
      assert (Hh : h_get_all h "if-none-match" =
        snd <$> filter (fun e => to_ascii_lowercase "if-none-match" = to_ascii_lowercase e.1) (h_iter incoming)).
      { unfold h. rewrite h_get_all_merge, trace_headers_names by set_solver.
        rewrite forward_headers_passed by done. unfold h_get_all. by rewrite h_iter_empty. }
      assert (Ha : forall v, h_get_all (h_append "authorization" v h) "if-none-match" = h_get_all h "if-none-match")
        by (intros v; rewrite h_get_all_append; by rewrite decide_False).
      unfold upstream_request in Hr. rewrite (new_request_plain _ _ Hu Hp) in Hr. cbn [rq_headers] in Hr. fold h in Hr.
      rewrite <- Hh. repeat case_match; try done; injection Hr as <-; cbn [rq_headers set_headers]; by rewrite ?Ha. }
    rewrite Hall. apply (list_elem_of_fmap_2 snd _ ("if-none-match", client)). by apply list_elem_of_filter. }
  unfold add_validators in Hadd. rewrite Hetag in Hadd. cbn [add_cached] in Hadd. unfold add_header in Hadd.
  rewrite Hv in Hadd. cbn [fmap option_fmap option_map mbind option_bind] in Hadd.
  set (r1 := set_headers _ r) in Hadd.
  assert (Happ : h_get_all (rq_headers r1) "if-none-match" = h_get_all (rq_headers r) "if-none-match" ++ [cached]).
  { unfold r1. cbn [rq_headers set_headers]. rewrite h_get_all_append. by rewrite decide_True. }
  assert (Hsame : h_get_all (rq_headers r') "if-none-match" = h_get_all (rq_headers r1) "if-none-match").
  { unfold add_cached in Hadd. destruct (cached_header (metadata entry) "last-modified") as [lm|]; [|by simplify_eq].
    unfold add_header in Hadd. apply fmap_Some in Hadd as (v & _ & ->). cbn [rq_headers set_headers].
    rewrite h_get_all_append. by rewrite decide_False. }
  rewrite Hsame, Happ. split; apply elem_of_app; [by left|right; by left].
Qed.
End Validators.

(** ** A concrete server *)

Definition with_cache (cache : CacheConfig.t) (c : Config.t) : Config.t :=
  Config.Build_t (Config.database_path c) (Config.listen_addr c) (Config.management c) (Config.metrics c)
    (Config.public_base_url c) (Config.site c) (Config.trusted_proxies c) (Config.enabled_proxies c)
    (Config.upstreams c) (Config.oci_token_issuers c) (Config.timeout c) (Config.upstream_selection c)
    (Config.rate_limit c) cache (Config.geoip c) (Config.acme c) (Config.quota c)
    (Config.download c) (Config.alerts c) (Config.user_access c) (Config.registration c) (Config.webauthn c)
    (Config.outbound_proxy c) (Config.upstream_tls c) (Config.forward_client_authorization c)
    (Config.upstream_auth c).

Definition caching : Config.t :=
  with_cache {| CacheConfig.enabled := true; CacheConfig.directory := "c"; CacheConfig.max_entry_mb := 1;
                CacheConfig.max_total_mb := 1; CacheConfig.default_ttl_secs := 60; CacheConfig.max_ttl_secs := 600 |}
    Config.default.

Definition script_server (script : list Answer) (c : Cache.state) : @Server AssocHeaders SimpleUrlApi ScriptWorld :=
  {| world := script; store := c; selector := SelectorState_default; marks := []; log := [] |}.

(** A cache that holds version one of a file, stored at five seconds for ten. *)
Definition stale_store : Cache.state :=
  @write_disk_cache AssocHeaders SimpleUrlApi SampleCodec (Config.cache caching) (sample_target "a.example") [] 200
    [("etag", "v1"); ("cache-control", "max-age=10")] "OLD"
    {| disk := Fs ∅ [] (5 * NANOS); capacity := None; instant := 0 |}.

Definition run_forward (incoming : list (string * string)) (script : list Answer) (c : Cache.state) :=
  @forward AssocHeaders SimpleUrlApi ScriptWorld SampleCodec no_order caching "GET" (sample_target "a.example")
    incoming (script_server script c).

(** What a client sees of a reply, and what an upstream saw of the validators. *)
Definition seen (r : result (@Reply AssocHeaders) stop * @Server AssocHeaders SimpleUrlApi ScriptWorld) :
    option (Z * option string * option string) * list (list string) :=
  (match r.1 with
   | Ok reply => Some (reply_status reply, @h_get_str AssocHeaders (reply_headers reply) "etag", reply_body reply)
   | Err _ => None
   end,
   (fun e => @h_get_all AssocHeaders (rq_headers e.2) "if-none-match") <$> log r.2).

Lemma forward_never_panics_witness :
  (run_forward [] [] stale_store).1 <> Err Panic.
Proof.
  refine (proj1 (@forward_never_panics AssocHeaders SimpleUrlApi ScriptWorld ScriptWorld_laws AssocHeaders_laws
    SampleCodec no_order (fun _ => false) caching "GET" (sample_target "a.example") []
    (script_server [] stale_store) _)).
  exact (@eq_refl (result unit string) (Ok tt) <: @validate SimpleUrlApi (fun _ => false) caching = Ok tt).
Defined.

Lemma private_requests_bypass_cache_witness :
  store (@forward_request AssocHeaders SimpleUrlApi ScriptWorld SampleCodec no_order caching "GET"
    (sample_target "a.example") [("cookie", "s=1")] false (script_server [] stale_store)).2 = stale_store.
Proof.
  apply (@private_requests_bypass_cache AssocHeaders SimpleUrlApi ScriptWorld SampleCodec no_order caching "GET"
    (sample_target "a.example") [("cookie", "s=1")] (script_server [] stale_store)).
  right. right. left. reflexivity.
Defined.

Definition stale_entry : DiskCacheEntry :=
  {| body := "OLD";
     metadata := {| status := 200; headers := [("etag", "v1"); ("cache-control", "max-age=10")];
                    stored_at := 5; expires_at := 15; vary := [] |} |}.

Definition client_request : @Request AssocHeaders SimpleUrlApi :=
  {| rq_method := "GET"; rq_url := sample_target "a.example"; rq_stream := false;
     rq_headers := [("if-none-match", "v2")] : @HeaderMap AssocHeaders |}.

Definition revalidating_request : @Request AssocHeaders SimpleUrlApi :=
  {| rq_method := "GET"; rq_url := sample_target "a.example"; rq_stream := false;
     rq_headers := [("if-none-match", "v2"); ("if-none-match", "v1")] : @HeaderMap AssocHeaders |}.

Lemma revalidation_sends_both_validators_witness :
  "v2" ∈ ["v2"; "v1"] /\ "v1" ∈ ["v2"; "v1"].
Proof.
  apply (@revalidation_sends_both_validators AssocHeaders SimpleUrlApi ScriptWorld ScriptWorld_laws
    AssocHeaders_laws caching (sample_target "a.example") [("if-none-match", "v2")] stale_entry []
    client_request revalidating_request "v2" "v1" "v1"); try reflexivity. by left.
Defined.

(** And it goes wrong. The cache holds version one, expired; the upstream
    and the client have version two. The client asks whether two is current
    and the upstream answers 304. The client is sent version one, complete,
    labelled with the tag of version two, and so is the next client, without
    a request to the upstream. *)
Theorem stale_body_gets_new_tag :
  let first := run_forward [("if-none-match", "v2")] [Some (304, [("etag", "v2")], Some "")] stale_store in
  let second := run_forward [] [] (store first.2) in
  seen first = (Some (200, Some "v2", Some "OLD"), [["v2"; "v1"]])%Z /\
  seen second = (Some (200, Some "v2", Some "OLD"), [])%Z.
Proof. split; vm_compute; reflexivity. Qed.
