(* ===== verification/Json.v ===== *)
(** * JSON documents

    The shape of [serde_json::Value] the adapters match on. Parsing and
    printing are third-party code: the class [JsonApi]. A number is kept as its
    text; an object keeps its fields in order. *)
From S2P Require Import Prelude RustStr.

Inductive Value : Type :=
| Null
| Bool (b : bool)
| Number (text : string)
| Str (s : string)
| Array (items : list Value)
| Object (fields : list (string * Value)).

Class JsonApi : Type := {
  json_from_slice : string -> option Value;
  json_to_vec : Value -> option string;
}.

(** [Value::get] with a key, [Value::as_str]. *)
Definition json_get (v : Value) (key : string) : option Value :=
  match v with
  | Object fields => snd <$> find_first (fun f => (f.1 =? key)%string) fields
  | _ => None
  end.

Definition as_str (v : Value) : option string := match v with Str s => Some s | _ => None end.

(** Induction over nested documents. *)
Section ValueInd.
Variable P : Value -> Prop.
Hypothesis HNull : P Null.
Hypothesis HBool : forall b, P (Bool b).
Hypothesis HNumber : forall t, P (Number t).
Hypothesis HStr : forall s, P (Str s).
Hypothesis HArray : forall items, Forall P items -> P (Array items).
Hypothesis HObject : forall fields, Forall (fun f => P f.2) fields -> P (Object fields).

Fixpoint value_ind' (v : Value) : P v :=
  match v with
  | Null => HNull
  | Bool b => HBool b
  | Number t => HNumber t
  | Str s => HStr s
  | Array items =>
      HArray items ((fix go l : Forall P l :=
        match l with [] => Forall_nil_2 P | x :: t => Forall_cons_2 P x t (value_ind' x) (go t) end) items)
  | Object fields =>
      HObject fields ((fix go l : Forall (fun f => P f.2) l :=
        match l with
        | [] => Forall_nil_2 _
        | x :: t => Forall_cons_2 (fun f => P f.2) x t (value_ind' x.2) (go t)
        end) fields)
  end.
End ValueInd.

(** ** Rewriting fields

    The adapters all walk a document the same way: the value of a field with
    the key is rewritten, every other value is walked. *)
Fixpoint walk (key : string) (f : Value -> Value) (v : Value) : Value :=
  match v with
  | Array items => Array (walk key f <$> items)
  | Object fields => Object ((fun e => (e.1, if (e.1 =? key)%string then f e.2 else walk key f e.2)) <$> fields)
  | _ => v
  end.
