(* ===== verification/Oci.v ===== *)
(** * Container registries

    [proxy/oci.rs]: reading a registry path, choosing the upstream, the bearer
    challenge and token exchange, and forwarding with anonymous tokens. *)
From S2P Require Import Prelude RustStr Headers Net Url Config Upstreams Json Redirect.
Open Scope string_scope.
Open Scope list_scope.
Open Scope mirror_scope.

Inductive OciRegistry : Type :=
| DockerHub | Ghcr | Quay | Kubernetes | Gcr | Mcr | Elastic | Gitlab | Nvcr | Oracle.

#[global] Instance OciRegistry_eq_dec : EqDecision OciRegistry.
Proof. solve_decision. Defined.

Record OciTarget : Type := { registry : OciRegistry; repository : string; suffix : string }.

Definition config_name (self : OciRegistry) : string :=
  match self with
  | DockerHub => "docker_hub"
  | Ghcr => "ghcr"
  | Quay => "quay"
  | Kubernetes => "kubernetes"
  | Gcr => "gcr"
  | Mcr => "mcr"
  | Elastic => "elastic"
  | Gitlab => "gitlab"
  | Nvcr => "nvcr"
  | Oracle => "oracle"
  end.

(** ** Paths *)

Definition is_marker (part : string) : bool :=
  existsb (String.eqb part) ["manifests"; "blobs"; "tags"; "referrers"].

(** What precedes the first marker, and the rest from it on. *)
Fixpoint split_marker (parts : list string) : option (list string * list string) :=
  match parts with
  | [] => None
  | p :: rest =>
      if is_marker p then Some ([], parts)
      else match split_marker rest with
           | Some (before, from) => Some (p :: before, from)
           | None => None
           end
  end.

Definition registry_of (repo_parts : list string) : OciRegistry * list string :=
  match repo_parts with
  | [] => (DockerHub, [])
  | host :: rest =>
      if host =? "ghcr.io" then (Ghcr, rest)
      else if host =? "quay.io" then (Quay, rest)
      else if host =? "registry.k8s.io" then (Kubernetes, rest)
      else if host =? "k8s.gcr.io" then (Kubernetes, rest)
      else if host =? "gcr.io" then (Gcr, rest)
      else if host =? "mcr.microsoft.com" then (Mcr, rest)
      else if host =? "docker.elastic.co" then (Elastic, rest)
      else if host =? "registry.gitlab.com" then (Gitlab, rest)
      else if host =? "nvcr.io" then (Nvcr, rest)
      else if host =? "container-registry.oracle.com" then (Oracle, rest)
      else (DockerHub, repo_parts)
  end.

Definition parse_oci_path (path : string) : result OciTarget ProxyError :=
  let parts := filter (fun p => negb (str_is_empty p) = true) (str_split "/" (trim_matches "/" path)) in
  match split_marker parts with
  | None => Err InvalidUrl
  | Some (repo_parts, suffix_parts) =>
      if (length repo_parts =? 0)%nat || (length parts <=? length repo_parts + 1)%nat then Err InvalidUrl
      else
        let suffix := str_join "/" suffix_parts in
        let '(registry, repository_parts) := registry_of repo_parts in
        if (length repository_parts =? 0)%nat
           || existsb (fun part => (part =? ".") || (part =? "..") || contains_char "\" part
                                   || contains_char zero part) repository_parts
        then Err InvalidUrl
        else
          let repository :=
            match registry, repository_parts with
            | DockerHub, [name] => "library/" +:+ name
            | _, _ => str_join "/" repository_parts
            end in
          Ok {| registry := registry; repository := repository; suffix := suffix |}
  end.

Definition registry_base (upstreams : Upstreams.t) (registry : OciRegistry) : string :=
  match registry with
  | DockerHub => Upstreams.docker_hub upstreams
  | Ghcr => Upstreams.ghcr upstreams
  | Quay => Upstreams.quay upstreams
  | Kubernetes => Upstreams.kubernetes upstreams
  | Gcr => Upstreams.gcr upstreams
  | Mcr => Upstreams.mcr upstreams
  | Elastic => Upstreams.elastic upstreams
  | Gitlab => Upstreams.gitlab upstreams
  | Nvcr => Upstreams.nvcr upstreams
  | Oracle => Upstreams.oracle upstreams
  end.

Definition build_upstream_url `{UrlApi} (upstreams : Upstreams.t) (target : OciTarget) (query : option string) :
    result Url ProxyError :=
  build_url (registry_base upstreams (registry target))
    ("/v2/" +:+ repository target +:+ "/" +:+ suffix target) query.

(** ** The bearer challenge *)

Record BearerChallenge : Type := { realm : string; service : option string; scope : option string }.

Definition quote : ascii := ascii_of_nat 34.

(** One turn of the loop over the parameters; [None] gives up. *)
Definition challenge_part (challenge : option BearerChallenge) (part : string) : option BearerChallenge :=
  match challenge, split_once "=" (str_trim part) with
  | Some challenge, Some (key, raw_value) =>
      let parsed_value := trim_matches quote (str_trim raw_value) in
      Some (if key =? "realm" then {| realm := parsed_value; service := service challenge; scope := scope challenge |}
            else if key =? "service"
                 then {| realm := realm challenge; service := Some parsed_value; scope := scope challenge |}
            else if key =? "scope"
                 then {| realm := realm challenge; service := service challenge; scope := Some parsed_value |}
            else challenge)
  | _, _ => None
  end.

Definition parse_bearer_challenge (value : string) : option BearerChallenge :=
  match strip_prefix "Bearer " (str_trim value) with
  | None => None
  | Some params =>
      match fold_left challenge_part (str_split "," params)
              (Some {| realm := ""; service := None; scope := None |}) with
      | Some challenge => if str_is_empty (realm challenge) then None else Some challenge
      | None => None
      end
  end.

Section Realm.
Context `{UrlApi}.

Definition validate_bearer_realm (config : Config.t) (registry : OciRegistry) (challenged_url : Url)
    (realm : string) : result Url ProxyError :=
  match url_parse realm with
  | None => Err InvalidUrl
  | Some url =>
      if negb (url_scheme url =? "https")
         || bool_decide (url_host_str url = None)
         || negb (str_is_empty (url_username url))
         || bool_decide (url_password url <> None)
         || bool_decide (url_fragment url <> None)
      then Err InvalidUrl
      else
        let allowed :=
          same_origin url challenged_url
          || match btree_get (config_name registry) (Config.oci_token_issuers config) with
             | Some issuers => existsb (same_origin url) (omap url_parse issuers)
             | None => false
             end in
        if allowed then Ok url else Err UnsupportedTarget
  end.
End Realm.

(** ** The token exchange and the retry *)

(** The parts of [reqwest] and [url] only this file uses. *)
Class TokenWorld `{HttpWorld} : Type := {
  (** [query_pairs_mut().append_pair(..)] *)
  append_pair : string -> string -> Url -> Url;
  (** [client.get(url).send()], [error_for_status] and [json] *)
  get_json : Client -> Url -> World -> option Value * World;
}.

Section Token.
Context `{TokenWorld}.

Definition append_opt (name : string) (value : option string) (url : Url) : Url :=
  match value with Some v => append_pair name v url | None => url end.

(** The token requests made are kept beside the ordinary ones. *)
Definition TokenLog : Type := list (Client * Url).

Definition fetch_bearer_token (config : Config.t) (registry : OciRegistry) (challenged_url : Url)
    (challenge : BearerChallenge) (w : World) (tokens : TokenLog) :
    result string ProxyError * World * TokenLog :=
  match validate_bearer_realm config registry challenged_url (realm challenge) with
  | Err e => (Err e, w, tokens)
  | Ok realm_url =>
      let '(resolved, w) := public_destination_addresses realm_url w in
      match resolved with
      | Err e => (Err e, w, tokens)
      | Ok resolved =>
          let url := append_opt "scope" (scope challenge) (append_opt "service" (service challenge) realm_url) in
          match url_host_str url with
          | None => (Err InvalidUrl, w, tokens)
          | Some host =>
              if negb (client_builder_ok config) then (Err InvalidUrl, w, tokens)
              else if negb (client_build_ok host resolved) then (Err Upstream, w, tokens)
              else
                let client := Some (host, resolved) in
                let tokens := tokens ++ [(client, url)] in
                let '(value, w) := get_json client url w in
                match value with
                | None => (Err Upstream, w, tokens)
                | Some value =>
                    let token := match json_get value "token" with
                                 | Some t => Some t
                                 | None => json_get value "access_token"
                                 end in
                    (result_of_option (token ≫= as_str) InvalidUrl, w, tokens)
                end
          end
      end
  end.

(** A request, and again with a token when it is challenged. *)
Definition send_with_public_auth (config : Config.t) (registry : OciRegistry) (method : string) (url : Url)
    (incoming : HeaderMap) (w : World) (log : Log) (tokens : TokenLog) :
    result Response stop * World * Log * TokenLog :=
  let request r w log :=
    match send_upstream_request config r w with
    | Some (answer, w, l) => (answer, w, log ++ l)
    | None => (Err Panic, w, log)
    end in
  match upstream_request method url incoming config w with
  | Err e => (Err e, w, log, tokens)
  | Ok r =>
      let '(answer, w, log) := request r w log in
      match answer with
      | Err e => (Err e, w, log, tokens)
      | Ok response =>
          if negb (rs_status response =? 401)%Z then (Ok response, w, log, tokens)
          else
            match h_get_str (rs_headers response) "www-authenticate" ≫= parse_bearer_challenge with
            | None => (Ok response, w, log, tokens)
            | Some challenge =>
                let '(token, w, tokens) :=
                  fetch_bearer_token config registry (rs_url response) challenge w tokens in
                match token with
                | Err e => (Err (Error e), w, log, tokens)
                | Ok token =>
                    match upstream_request method url incoming config w with
                    | Err e => (Err e, w, log, tokens)
                    | Ok retry =>
                        let retry := set_headers
                          (h_append "authorization" (bearer_auth_value token) (rq_headers retry)) retry in
                        let '(answer, w, log) := request retry w log in
                        (answer, w, log, tokens)
                    end
                end
            end
      end
  end.

Fixpoint oci_attempts (config : Config.t) (registry : OciRegistry) (method : string) (incoming : HeaderMap)
    (candidates : list Url) (w : World) (log : Log) (tokens : TokenLog) :
    result Response stop * World * Log * TokenLog :=
  match candidates with
  | [] => (Err Panic, w, log, tokens)
  | candidate :: rest =>
      let '(answer, w, log, tokens) :=
        send_with_public_auth config registry method candidate incoming w log tokens in
      match answer with
      | Err e => (Err e, w, log, tokens)
      | Ok response =>
          match rest with
          | _ :: _ =>
              if negb (rs_status response =? 200)%Z
              then oci_attempts config registry method incoming rest w log tokens
              else (Ok response, w, log, tokens)
          | [] => (Ok response, w, log, tokens)
          end
      end
  end.

Definition forward_with_public_auth (config : Config.t) (registry : OciRegistry) (method : string) (url : Url)
    (incoming : HeaderMap) (w : World) : result Response stop * World * Log * TokenLog :=
  if negb ((method =? "GET") || (method =? "HEAD")) then (Err (Error MethodNotAllowed), w, [], [])
  else oci_attempts config registry method incoming
         (upstream_candidates_for (Config.upstreams config) url) w [] [].

Definition should_forward_oci_response_header (name : string) : bool :=
  negb (existsb (String.eqb (to_ascii_lowercase name))
    ["connection"; "keep-alive"; "proxy-authenticate"; "proxy-authorization"; "te"; "trailer";
     "transfer-encoding"; "upgrade"]).

(** [response_to_axum]: the headers of the reply. *)
Definition oci_reply_headers (h : HeaderMap) : HeaderMap :=
  fold_left (fun out e => if should_forward_oci_response_header e.1 then h_append e.1 e.2 out else out)
    (h_iter h) h_empty.
End Token.

(** ** Lemmas *)

Lemma challenge_part_none (parts : list string) : fold_left challenge_part parts None = None.
Proof. by induction parts. Qed.

Lemma challenge_parts_need_value (parts : list string) (c : BearerChallenge) :
  Exists (fun part => split_once "=" (str_trim part) = None) parts ->
  fold_left challenge_part parts (Some c) = None.
Proof.
  intros He. revert c. induction He as [part parts Hp|part parts _ IH]; intros c; cbn [fold_left challenge_part].
  - rewrite Hp. apply challenge_part_none.
  - destruct (split_once "=" (str_trim part)) as [[k v]|]; [apply IH|apply challenge_part_none].
Qed.

Lemma split_marker_app (before from : list string) (m : string) :
  Forall (fun p => is_marker p = false) before -> is_marker m = true ->
  split_marker (before ++ m :: from) = Some (before, m :: from).
Proof.
  intros Hb Hm. induction Hb as [|p before Hp _ IH]; simpl; [by rewrite Hm|]. by rewrite Hp, IH.
Qed.

(** A part of a path as a client writes it. *)
Definition plain_part (p : string) : bool :=
  negb (str_is_empty p) && negb (contains_char "/" p).

Lemma filter_plain (parts : list string) :
  Forall (fun p => plain_part p = true) parts -> filter (fun p => negb (str_is_empty p) = true) parts = parts.
Proof.
  induction 1 as [|p parts Hp _ IH]; [done|]. apply andb_true_iff in Hp as [Hp _].
  rewrite filter_cons_True by done. by rewrite IH.
Qed.

(** The non-empty pieces of a path do not depend on slashes around it. *)
Definition pieces (s : string) : list string := filter (fun p => negb (str_is_empty p) = true) (str_split "/" s).

Lemma pieces_app (a b : string) : pieces (a +:+ String "/" b) = pieces a ++ pieces b.
Proof. unfold pieces. by rewrite str_split_concat, filter_app. Qed.

Lemma pieces_repeat (n : nat) : pieces (str_repeat "/" n) = [].
Proof.
  induction n as [|n IH]; [done|]. change (str_repeat "/" (S n)) with ("" +:+ String "/" (str_repeat "/" n)).
  by rewrite pieces_app, IH.
Qed.

Lemma pieces_trim (s : string) : pieces (trim_matches "/" s) = pieces s.
Proof.
  unfold trim_matches. destruct (trim_start_matches_decomp "/" s) as [n Hs].
  set (t := trim_start_matches "/" s) in *. destruct (trim_end_matches_decomp "/" t) as [k Ht].
  set (u := trim_end_matches "/" t) in *. rewrite Hs, Ht. clearbody u. clear.
  assert (Hu : pieces (u +:+ str_repeat "/" k) = pieces u).
  { destruct k as [|k]; [by rewrite str_app_nil_r|]. cbn [str_repeat]. rewrite pieces_app, pieces_repeat.
    by rewrite app_nil_r. }
  destruct n as [|n]; [done|]. cbn [str_repeat].
  assert (Hn : forall n x, pieces (String "/" (str_repeat "/" n +:+ x)) = pieces x).
  { clear. intros n x. induction n as [|n IH].
    - change (pieces ("" +:+ String "/" x) = pieces x). by rewrite pieces_app.
    - cbn [str_repeat]. change (pieces ("" +:+ String "/" (String "/" (str_repeat "/" n +:+ x))) = pieces x).
      by rewrite pieces_app, IH. }
  change (String "/" (str_repeat "/" n) +:+ u +:+ str_repeat "/" k)
    with (String "/" (str_repeat "/" n +:+ (u +:+ str_repeat "/" k))).
  by rewrite Hn.
Qed.

Lemma pieces_join (parts : list string) :
  parts <> [] -> Forall (fun p => plain_part p = true) parts -> pieces (str_join "/" parts) = parts.
Proof.
  intros Hne Hp. unfold pieces. rewrite str_split_join; [by apply filter_plain|done|].
  eapply Forall_impl; [exact Hp|]. intros p Hpp. unfold plain_part in Hpp. by bool_to_prop.
Qed.

(** ** Properties *)

(** The repository names the registries serve: no part is a dot, a double
    dot or has a backslash or zero byte. *)
Definition bad_part (part : string) : bool :=
  (part =? ".") || (part =? "..") || contains_char "\" part || contains_char zero part.

(** Reading a registry path. A path of a registry host, repository parts
    none of which is a marker, a marker and more, with any slashes around and
    between, is read back part by part; images of Docker Hub without an owner
    are those of [library]. *)
Theorem parse_oci_path_reads (repo from : list string) (marker path : string) (reg : OciRegistry)
    (parts : list string) :
  pieces path = repo ++ marker :: from ->
  Forall (fun p => is_marker p = false) repo -> is_marker marker = true -> from <> [] ->
  registry_of repo = (reg, parts) -> parts <> [] -> existsb bad_part parts = false ->
  parse_oci_path path =
  Ok {| registry := reg;
        repository := match reg, parts with
                      | DockerHub, [name] => "library/" +:+ name
                      | _, _ => str_join "/" parts
                      end;
        suffix := str_join "/" (marker :: from) |}.
Proof.
  intros Hp Hrepo Hm Hfrom Hreg Hparts Hbad. unfold parse_oci_path.
  change (filter (fun p => negb (str_is_empty p) = true) (str_split "/" (trim_matches "/" path)))
    with (pieces (trim_matches "/" path)).
  rewrite pieces_trim, Hp, (split_marker_app repo from marker Hrepo Hm).
  assert (Hr : repo <> []) by (intros ->; simpl in Hreg; congruence).
  destruct repo as [|r repo]; [done|]. destruct from as [|f from]; [done|].
  rewrite (proj2 (Nat.leb_gt _ _)); [|rewrite length_app; cbn [length]; lia]. cbn [length Nat.eqb orb].
  rewrite Hreg. destruct parts as [|q parts]; [done|]. cbn [length Nat.eqb orb].
  unfold bad_part in Hbad. by rewrite Hbad.
Qed.

(** But what follows the marker is not looked at: dots there are resolved
    by the URL parser, and a request leaves the registry API and the
    repository it names. *)
Theorem oci_suffix_escapes :
  exists (target : OciTarget) (url : simple_url),
    parse_oci_path "ghcr.io/owner/image/manifests/../../../../admin/secret" = Ok target /\
    repository target = "owner/image" /\
    build_upstream_url Upstreams.default target None = Ok url /\ url_path url = "/admin/secret".
Proof.
  exists {| registry := Ghcr; repository := "owner/image"; suffix := "manifests/../../../../admin/secret" |},
    (SimpleUrl "https" "" None "ghcr.io" None "/admin/secret" None None).
  split_and!; vm_compute; reflexivity.
Qed.

(** A challenge with a comma inside a quoted value is not understood:
    the header is cut at every comma, and a piece without an equals sign
    gives the whole challenge up. *)
Theorem challenge_with_comma_is_dropped (value params : string) :
  strip_prefix "Bearer " (str_trim value) = Some params ->
  Exists (fun part => split_once "=" (str_trim part) = None) (str_split "," params) ->
  parse_bearer_challenge value = None.
Proof. intros Hp He. unfold parse_bearer_challenge. by rewrite Hp, challenge_parts_need_value. Qed.

Section Guarantees.
Context `{TokenWorld}.

(** Token requests are confined. At most one is made for a challenge, over
    HTTPS to the origin that sent the challenge or to an issuer configured
    for that registry, pinned to public addresses only. *)
Theorem token_request_confined (config : Config.t) (reg : OciRegistry) (challenged : Url)
    (challenge : BearerChallenge) (w w' : World) (tokens tokens' : TokenLog) (r : result string ProxyError) :
  fetch_bearer_token config reg challenged challenge w tokens = (r, w', tokens') ->
  tokens' = tokens \/
  exists issuer host addresses url,
    tokens' = tokens ++ [(Some (host, addresses), url)] /\
    url = append_opt "scope" (scope challenge) (append_opt "service" (service challenge) issuer) /\
    url_parse (realm challenge) = Some issuer /\
    url_scheme issuer = "https" /\ url_username issuer = "" /\ url_password issuer = None /\
    (same_origin issuer challenged = true \/
     exists issuers text allowed, btree_get (config_name reg) (Config.oci_token_issuers config) = Some issuers /\
       text ∈ issuers /\ url_parse text = Some allowed /\ same_origin issuer allowed = true) /\
    addresses <> [] /\ Forall (fun a => is_public_address a.1.1 = true) addresses.
Proof.
  unfold fetch_bearer_token, validate_bearer_realm.
  destruct (url_parse (realm challenge)) as [issuer|] eqn:Hurl; [|by intros; simplify_eq; left].
  destruct (negb (url_scheme issuer =? "https") || _ || _ || _ || _) eqn:Hbad; [by intros; simplify_eq; left|].
  rewrite !orb_false_iff, !bool_decide_eq_false, !negb_false_iff, String.eqb_eq in Hbad.
  destruct Hbad as ((((Hs & _) & Hu) & Hp) & _). apply dec_stable in Hp.
  destruct (same_origin issuer challenged || _) eqn:Hallowed; [|by intros; simplify_eq; left].
  destruct (public_destination_addresses issuer w) as [[addresses|e] w1] eqn:Hd; [|by intros; simplify_eq; left].
  set (url := append_opt "scope" _ _). destruct (url_host_str url) as [host|]; [|by intros; simplify_eq; left].
  do 2 (case_bool; [by intros; simplify_eq; left|]).
  destruct (get_json _ url w1) as [value w2]. intros Hr. right. exists issuer, host, addresses, url.
  assert (Ht : tokens' = tokens ++ [(Some (host, addresses), url)]) by (destruct value; by simplify_eq).
  apply public_destinations in Hd as [Hne Hall]. split_and!; try done.
  - by destruct (url_username issuer).
  - apply orb_true_iff in Hallowed as [?|Hi]; [by left|right].
    destruct (btree_get _ _) as [issuers|]; [|done].
    apply existsb_true_Exists, Exists_exists in Hi as (allowed & (text & Hin & Htext)%list_elem_of_omap & Hsame).
    by exists issuers, text, allowed.
Qed.
End Guarantees.

(** ** Witnesses *)

Lemma parse_oci_path_reads_witness :
  parse_oci_path "/ghcr.io//owner/image/manifests/latest" =
  Ok {| registry := Ghcr; repository := "owner/image"; suffix := "manifests/latest" |}.
Proof.
  apply (parse_oci_path_reads ["ghcr.io"; "owner"; "image"] ["latest"] "manifests"
    "/ghcr.io//owner/image/manifests/latest" Ghcr ["owner"; "image"]); try reflexivity; try discriminate.
  repeat constructor.
Defined.

Definition quoted (s : string) : string := String quote (s +:+ String quote "").

(** The example of the registry token specification. *)
Definition push_challenge : string :=
  "Bearer realm=" +:+ quoted "https://auth.docker.io/token" +:+ ",service=" +:+ quoted "registry.docker.io" +:+
  ",scope=" +:+ quoted "repository:samalba/my-app:pull,push".

Definition push_params : string := String.substring 7 (String.length push_challenge) push_challenge.

Lemma challenge_with_comma_is_dropped_witness : parse_bearer_challenge push_challenge = None.
Proof.
  apply (challenge_with_comma_is_dropped push_challenge push_params); [vm_compute; reflexivity|].
  do 3 apply Exists_cons_tl. apply Exists_cons_hd. vm_compute. reflexivity.
Defined.

#[export] Instance ScriptTokens : @TokenWorld AssocHeaders SimpleUrlApi ScriptWorld := {|
  append_pair name value u :=
    @url_set_query SimpleUrlApi
      (Some (match su_query u with Some q => q +:+ "&" | None => "" end +:+ name +:+ "=" +:+ value)) u;
  get_json _ _ w := (Some (Object [("token", Str "t")]), w);
|}.

Definition pull_challenge : BearerChallenge :=
  {| realm := "https://auth.docker.io/token"; service := Some "registry.docker.io";
     scope := Some "repository:library/alpine:pull" |}.

Definition token_url : simple_url :=
  SimpleUrl "https" "" None "auth.docker.io" None "/token"
    (Some "service=registry.docker.io&scope=repository:library/alpine:pull") None.

Definition token_tokens : @TokenLog SimpleUrlApi :=
  [(Some ("auth.docker.io", [(V4 134744072, 0%Z, 443%Z)]), token_url)].

Definition token_result :
    result string ProxyError * list Answer * @TokenLog SimpleUrlApi :=
  (Ok "t", [], token_tokens).

Lemma token_request_confined_witness :
  token_tokens = [] \/
  exists issuer, url_parse (realm pull_challenge) = Some issuer /\ url_scheme issuer = "https".
Proof.
  destruct (@token_request_confined AssocHeaders SimpleUrlApi ScriptWorld ScriptTokens Config.default DockerHub
    (sample_target "registry-1.docker.io") pull_challenge [] [] [] token_tokens (Ok "t"))
    as [H|(issuer & host & addresses & url & _ & _ & Hi & Hs & _)].
  - exact (@eq_refl _ token_result <:
      @fetch_bearer_token AssocHeaders SimpleUrlApi ScriptWorld ScriptTokens Config.default DockerHub
        (sample_target "registry-1.docker.io") pull_challenge [] [] = token_result).
  - by left.
  - right. exists issuer. by split.
Defined.
