(* ===== verification/Adapters.v ===== *)
(** * Package repository adapters

    The handlers of [proxy/*.rs] that only check a path and forward it, and
    those with their own rules: Go, the operating systems, crates.io, GitHub,
    RubyGems, Homebrew and the OCI registries. A handler answers with an [action]: what the
    handler does with the request's method and headers. *)
From S2P Require Import Prelude RustStr Headers Url Config Upstreams ConfigCheck Json Oci.
Open Scope string_scope.
Open Scope list_scope.
Open Scope mirror_scope.

(** ** What a handler does *)

Inductive reply_body : Type :=
| Text (s : string)
| Document (v : Value).

Section Action.
Context `{UrlApi}.

Inductive action : Type :=
| Respond (status : Z) (headers : list (string * string)) (body : reply_body)
(** [proxy::forward] with the method and headers of the request *)
| Forward (url : Url)
(** [proxy::forward] with the given method and headers of no request *)
| ForwardPlain (url : Url)
(** [proxy::forward_with_body] *)
| ForwardWithBody (url : Url)
(** [oci::forward_with_public_auth] *)
| ForwardOci (registry : OciRegistry) (url : Url).

Definition newline : string := String (ascii_of_nat 10) "".

(** The page at the root of an adapter. *)
Definition banner (config : Config.t) (name text : string) : result action ProxyError :=
  if negb (is_enabled config name) then Err (Disabled name)
  else Ok (Respond 200 [("content-type", "text/plain; charset=utf-8")] (Text (text +:+ newline))).
End Action.

Definition metadata_cache_value : string := "public, max-age=300, stale-while-revalidate=3600".
Definition metadata_vary_value : string := "X-Forwarded-Host, X-Forwarded-Proto".

(** ** Adapters that forward a checked path *)

Module Anaconda.

Definition root `{UrlApi} (config : Config.t) : result action ProxyError :=
  banner config "anaconda" "MirrorProxy Anaconda repository proxy".

Definition proxy `{UrlApi} (config : Config.t) (path : string) (query : option string) : result action ProxyError :=
  if negb (is_enabled config "anaconda") then Err (Disabled "anaconda")
  else
    let? path := sanitize_repository_path path in
    let? url := repository_url (Upstreams.anaconda (Config.upstreams config)) path query in
    Ok (Forward url).

End Anaconda.

Module Clojars.

Definition root `{UrlApi} (config : Config.t) : result action ProxyError :=
  banner config "clojars" "MirrorProxy Clojars repository proxy".

Definition proxy `{UrlApi} (config : Config.t) (path : string) (query : option string) : result action ProxyError :=
  if negb (is_enabled config "clojars") then Err (Disabled "clojars")
  else
    let? path := sanitize_repository_path path in
    let? url := repository_url (Upstreams.clojars (Config.upstreams config)) path query in
    Ok (Forward url).

End Clojars.

Module Cpan.

Definition root `{UrlApi} (config : Config.t) : result action ProxyError :=
  banner config "cpan" "MirrorProxy CPAN repository proxy".

Definition proxy `{UrlApi} (config : Config.t) (path : string) (query : option string) : result action ProxyError :=
  if negb (is_enabled config "cpan") then Err (Disabled "cpan")
  else
    let? path := sanitize_repository_path path in
    let? url := repository_url (Upstreams.cpan (Config.upstreams config)) path query in
    Ok (Forward url).

End Cpan.

Module Cran.

Definition root `{UrlApi} (config : Config.t) : result action ProxyError :=
  banner config "cran" "MirrorProxy CRAN repository proxy".

Definition proxy `{UrlApi} (config : Config.t) (path : string) (query : option string) : result action ProxyError :=
  if negb (is_enabled config "cran") then Err (Disabled "cran")
  else
    let? path := sanitize_repository_path path in
    let? url := repository_url (Upstreams.cran (Config.upstreams config)) path query in
    Ok (Forward url).

End Cran.

Module Hackage.

Definition root `{UrlApi} (config : Config.t) : result action ProxyError :=
  banner config "hackage" "MirrorProxy Hackage repository proxy".

Definition proxy `{UrlApi} (config : Config.t) (path : string) (query : option string) : result action ProxyError :=
  if negb (is_enabled config "hackage") then Err (Disabled "hackage")
  else
    let? path := sanitize_repository_path path in
    let? url := repository_url (Upstreams.hackage (Config.upstreams config)) path query in
    Ok (Forward url).

End Hackage.

Module Maven.

Definition root `{UrlApi} (config : Config.t) : result action ProxyError :=
  banner config "maven" "MirrorProxy Maven repository proxy".

Definition proxy `{UrlApi} (config : Config.t) (path : string) (query : option string) : result action ProxyError :=
  if negb (is_enabled config "maven") then Err (Disabled "maven")
  else
    let? path := sanitize_repository_path path in
    let? url := repository_url (Upstreams.maven (Config.upstreams config)) path query in
    Ok (Forward url).

End Maven.

Module Cocoapods.

Definition root `{UrlApi} (config : Config.t) : result action ProxyError :=
  banner config "cocoapods" "MirrorProxy CocoaPods CDN proxy".

Definition proxy `{UrlApi} (config : Config.t) (path : string) (query : option string) : result action ProxyError :=
  if negb (is_enabled config "cocoapods") then Err (Disabled "cocoapods")
  else
    let path := trim_start_matches "/" path in
    if str_is_empty path || contains_char "\" path || existsb unsafe_segment (str_split "/" path)
    then Err InvalidUrl
    else
      let? url := parse_base (Upstreams.cocoapods (Config.upstreams config)) in
      let base := trim_end_matches "/" (url_path url) in
      Ok (Forward (url_set_query query (url_set_path (base +:+ "/" +:+ path) url))).

End Cocoapods.

Module Flatpak.

Definition root `{UrlApi} (config : Config.t) : result action ProxyError :=
  banner config "flatpak" "MirrorProxy Flatpak OSTree repository proxy".

Definition proxy `{UrlApi} (config : Config.t) (path : string) (query : option string) : result action ProxyError :=
  if negb (is_enabled config "flatpak") then Err (Disabled "flatpak")
  else
    let path := trim_start_matches "/" path in
    if str_is_empty path || contains_char "\" path || existsb unsafe_segment (str_split "/" path)
    then Err InvalidUrl
    else
      let? url := parse_base (Upstreams.flatpak (Config.upstreams config)) in
      let base := trim_end_matches "/" (url_path url) in
      Ok (Forward (url_set_query query (url_set_path (base +:+ "/" +:+ path) url))).

End Flatpak.

Module Nix.

Definition root `{UrlApi} (config : Config.t) : result action ProxyError :=
  banner config "nix" "MirrorProxy Nix binary cache proxy".

Definition proxy `{UrlApi} (config : Config.t) (path : string) (query : option string) : result action ProxyError :=
  if negb (is_enabled config "nix") then Err (Disabled "nix")
  else
    let path := trim_start_matches "/" path in
    if str_is_empty path || contains_char "\" path || existsb unsafe_segment (str_split "/" path)
    then Err InvalidUrl
    else
      let? url := parse_base (Upstreams.nix (Config.upstreams config)) in
      let base := trim_end_matches "/" (url_path url) in
      Ok (Forward (url_set_query query (url_set_path (base +:+ "/" +:+ path) url))).

End Nix.

Module Elpa.

Definition root `{UrlApi} (config : Config.t) : result action ProxyError :=
  banner config "elpa" "MirrorProxy GNU ELPA repository proxy".

Definition repository_url `{UrlApi} (base path : string) (query : option string) : result Url ProxyError :=
  let path := trim_start_matches "/" path in
  if str_is_empty path || contains_char "\" path || existsb unsafe_segment (str_split "/" path)
  then Err InvalidUrl
  else
    let? url := parse_base base in
    let base_path := trim_end_matches "/" (url_path url) in
    Ok (url_set_query query (url_set_path (base_path +:+ "/" +:+ path) url)).

Definition proxy `{UrlApi} (config : Config.t) (path : string) (query : option string) : result action ProxyError :=
  if negb (is_enabled config "elpa") then Err (Disabled "elpa")
  else
    let? url := repository_url (Upstreams.elpa (Config.upstreams config)) path query in
    Ok (Forward url).

End Elpa.

Module Julia.

Definition root `{UrlApi} (config : Config.t) : result action ProxyError :=
  banner config "julia" "MirrorProxy Julia Pkg Server proxy".

Definition repository_url `{UrlApi} (base path : string) (query : option string) : result Url ProxyError :=
  let path := trim_start_matches "/" path in
  if str_is_empty path || contains_char "\" path || existsb unsafe_segment (str_split "/" path)
  then Err InvalidUrl
  else
    let? url := parse_base base in
    let base_path := trim_end_matches "/" (url_path url) in
    Ok (url_set_query query (url_set_path (base_path +:+ "/" +:+ path) url)).

Definition proxy `{UrlApi} (config : Config.t) (path : string) (query : option string) : result action ProxyError :=
  if negb (is_enabled config "julia") then Err (Disabled "julia")
  else
    let? url := repository_url (Upstreams.julia (Config.upstreams config)) path query in
    Ok (Forward url).

End Julia.

Module Opam.

Definition root `{UrlApi} (config : Config.t) : result action ProxyError :=
  banner config "opam" "MirrorProxy opam repository proxy".

Definition repository_url `{UrlApi} (base path : string) (query : option string) : result Url ProxyError :=
  let path := trim_start_matches "/" path in
  if str_is_empty path || contains_char "\" path || existsb unsafe_segment (str_split "/" path)
  then Err InvalidUrl
  else
    let? url := parse_base base in
    let base_path := trim_end_matches "/" (url_path url) in
    Ok (url_set_query query (url_set_path (base_path +:+ "/" +:+ path) url)).

Definition proxy `{UrlApi} (config : Config.t) (path : string) (query : option string) : result action ProxyError :=
  if negb (is_enabled config "opam") then Err (Disabled "opam")
  else
    let? url := repository_url (Upstreams.opam (Config.upstreams config)) path query in
    Ok (Forward url).

End Opam.

Module Texlive.

Definition root `{UrlApi} (config : Config.t) : result action ProxyError :=
  banner config "texlive" "MirrorProxy TeX Live repository proxy".

Definition repository_url `{UrlApi} (base path : string) (query : option string) : result Url ProxyError :=
  let path := trim_start_matches "/" path in
  if str_is_empty path || contains_char "\" path || existsb unsafe_segment (str_split "/" path)
  then Err InvalidUrl
  else
    let? url := parse_base base in
    let base_path := trim_end_matches "/" (url_path url) in
    Ok (url_set_query query (url_set_path (base_path +:+ "/" +:+ path) url)).

Definition proxy `{UrlApi} (config : Config.t) (path : string) (query : option string) : result action ProxyError :=
  if negb (is_enabled config "texlive") then Err (Disabled "texlive")
  else
    let? url := repository_url (Upstreams.texlive (Config.upstreams config)) path query in
    Ok (Forward url).

End Texlive.

Module Winget.

Definition root `{UrlApi} (config : Config.t) : result action ProxyError :=
  banner config "winget" "MirrorProxy WinGet pre-indexed source proxy".

Definition repository_url `{UrlApi} (base path : string) (query : option string) : result Url ProxyError :=
  let path := trim_start_matches "/" path in
  if str_is_empty path || contains_char "\" path || existsb unsafe_segment (str_split "/" path)
  then Err InvalidUrl
  else
    let? url := parse_base base in
    let base_path := trim_end_matches "/" (url_path url) in
    Ok (url_set_query query (url_set_path (base_path +:+ "/" +:+ path) url)).

Definition proxy `{UrlApi} (config : Config.t) (path : string) (query : option string) : result action ProxyError :=
  if negb (is_enabled config "winget") then Err (Disabled "winget")
  else
    let? url := repository_url (Upstreams.winget (Config.upstreams config)) path query in
    Ok (Forward url).

End Winget.

Module Guix.

Definition root `{UrlApi} (config : Config.t) : result action ProxyError :=
  banner config "guix" "MirrorProxy GNU Guix substitute cache proxy".

Definition sanitize (path : string) : result string ProxyError :=
  let path := trim_start_matches "/" path in
  if str_is_empty path || contains_char "\" path || existsb unsafe_segment (str_split "/" path)
  then Err InvalidUrl else Ok path.

Definition proxy `{UrlApi} (config : Config.t) (path : string) (query : option string) : result action ProxyError :=
  if negb (is_enabled config "guix") then Err (Disabled "guix")
  else
    let? path := sanitize path in
    let? url := parse_base (Upstreams.guix (Config.upstreams config)) in
    let base := trim_end_matches "/" (url_path url) in
    Ok (Forward (url_set_query query (url_set_path (base +:+ "/" +:+ path) url))).

End Guix.

Module Luarocks.

Definition root `{UrlApi} (config : Config.t) : result action ProxyError :=
  banner config "luarocks" "MirrorProxy LuaRocks repository proxy".

Definition sanitize (path : string) : result string ProxyError :=
  let path := trim_start_matches "/" path in
  if str_is_empty path || contains_char "\" path || existsb unsafe_segment (str_split "/" path)
  then Err InvalidUrl else Ok path.

Definition proxy `{UrlApi} (config : Config.t) (path : string) (query : option string) : result action ProxyError :=
  if negb (is_enabled config "luarocks") then Err (Disabled "luarocks")
  else
    let? path := sanitize path in
    let? url := parse_base (Upstreams.luarocks (Config.upstreams config)) in
    let base := trim_end_matches "/" (url_path url) in
    Ok (Forward (url_set_query query (url_set_path (base +:+ "/" +:+ path) url))).

End Luarocks.

Module Nvm.

Definition root `{UrlApi} (config : Config.t) : result action ProxyError :=
  banner config "nvm" "MirrorProxy Node.js distribution proxy".

Definition sanitize (path : string) : result string ProxyError :=
  let path := trim_start_matches "/" path in
  if str_is_empty path || contains_char "\" path || existsb unsafe_segment (str_split "/" path)
  then Err InvalidUrl else Ok path.

Definition proxy `{UrlApi} (config : Config.t) (path : string) (query : option string) : result action ProxyError :=
  if negb (is_enabled config "nvm") then Err (Disabled "nvm")
  else
    let? path := sanitize path in
    let? url := parse_base (Upstreams.nvm (Config.upstreams config)) in
    let base := trim_end_matches "/" (url_path url) in
    Ok (Forward (url_set_query query (url_set_path (base +:+ "/" +:+ path) url))).

End Nvm.

Module Rustup.

Definition root `{UrlApi} (config : Config.t) : result action ProxyError :=
  banner config "rustup" "MirrorProxy Rustup distribution proxy".

Definition sanitize (path : string) : result string ProxyError :=
  let path := trim_start_matches "/" path in
  if str_is_empty path || contains_char "\" path || existsb unsafe_segment (str_split "/" path)
  then Err InvalidUrl else Ok path.

Definition proxy `{UrlApi} (config : Config.t) (path : string) (query : option string) : result action ProxyError :=
  if negb (is_enabled config "rustup") then Err (Disabled "rustup")
  else
    let? path := sanitize path in
    let? url := parse_base (Upstreams.rustup (Config.upstreams config)) in
    let base := trim_end_matches "/" (url_path url) in
    Ok (Forward (url_set_query query (url_set_path (base +:+ "/" +:+ path) url))).

End Rustup.

Module Registry.

(** [oci::root]: the API version check of the distribution protocol. *)
Definition root `{UrlApi} (config : Config.t) : result action ProxyError :=
  if negb (is_enabled config "oci") then Err (Disabled "oci")
  else Ok (Respond 200 [("content-type", "application/json")] (Text "{}")).

Definition proxy `{UrlApi} (config : Config.t) (path : string) (query : option string) : result action ProxyError :=
  if negb (is_enabled config "oci") then Err (Disabled "oci")
  else
    let? target := parse_oci_path path in
    let? upstream := build_upstream_url (Config.upstreams config) target query in
    Ok (ForwardOci (registry target) upstream).

End Registry.

Module Homebrew.

Definition root `{UrlApi} (config : Config.t) : result action ProxyError :=
  banner config "homebrew" "MirrorProxy Homebrew bottle proxy".

Definition proxy `{UrlApi} (config : Config.t) (path : string) (query : option string) : result action ProxyError :=
  if negb (is_enabled config "homebrew") then Err (Disabled "homebrew")
  else
    let path := trim_start_matches "/" path in
    if str_is_empty path || contains_char "\" path || existsb unsafe_segment (str_split "/" path)
    then Err InvalidUrl
    else
      let? upstream := parse_base (Upstreams.homebrew (Config.upstreams config)) in
      let base_path := trim_end_matches "/" (url_path upstream) in
      Ok (ForwardOci Ghcr (url_set_query query (url_set_path (base_path +:+ "/" +:+ path) upstream))).

End Homebrew.

(** ** Adapters at the root of their upstream *)

Module Rubygems.

Definition root `{UrlApi} (config : Config.t) : result action ProxyError :=
  banner config "rubygems" "MirrorProxy RubyGems repository proxy".

Definition proxy `{UrlApi} (config : Config.t) (path : string) (query : option string) : result action ProxyError :=
  if negb (is_enabled config "rubygems") then Err (Disabled "rubygems")
  else
    let? clean_path := sanitize_repository_path path in
    let? url := build_url (Upstreams.rubygems (Config.upstreams config)) ("/" +:+ clean_path) query in
    Ok (Forward url).

End Rubygems.

Module Go.

Definition root `{UrlApi} (config : Config.t) : result action ProxyError :=
  banner config "go" "MirrorProxy Go module proxy".

Definition is_checksum_database_path (path : string) : bool :=
  match str_split "/" path with
  | first :: _ :: rest =>
      if negb (first =? "sumdb") then false
      else match rest with
           | third :: more =>
               if existsb (String.eqb third) ["supported"; "latest"] then (length more =? 0)%nat
               else if existsb (String.eqb third) ["lookup"; "tile"] then negb (length more =? 0)%nat
               else false
           | [] => false
           end
  | _ => false
  end.

Definition sanitize_go_proxy_path (path : string) : result string ProxyError :=
  let path := trim_start_matches "/" path in
  if str_is_empty path || contains_char "\" path || existsb unsafe_segment (str_split "/" path)
  then Err InvalidUrl
  else if negb (contains_str "/@v/" path) && negb (is_checksum_database_path path) then Err InvalidUrl
  else Ok path.

Definition proxy `{UrlApi} (config : Config.t) (path : string) (query : option string) : result action ProxyError :=
  if negb (is_enabled config "go") then Err (Disabled "go")
  else
    let? clean_path := sanitize_go_proxy_path path in
    let? url := build_url (Upstreams.go_proxy (Config.upstreams config)) ("/" +:+ clean_path) query in
    Ok (Forward url).

End Go.

(** ** Operating systems *)

Module Os.

Definition root `{UrlApi} (config : Config.t) : result action ProxyError :=
  banner config "os" "MirrorProxy OS static repository proxy".

Definition repository_for_target (upstreams : Upstreams.t) (target : string) : result string ProxyError :=
  if target =? "alpine" then Ok (Upstreams.alpine upstreams)
  else if target =? "openwrt" then Ok (Upstreams.openwrt upstreams)
  else if target =? "termux" then Ok (Upstreams.termux upstreams)
  else if target =? "debian" then Ok (Upstreams.debian upstreams)
  else if target =? "ubuntu" then Ok (Upstreams.ubuntu upstreams)
  else if target =? "fedora" then Ok (Upstreams.fedora upstreams)
  else if target =? "archlinux" then Ok (Upstreams.archlinux upstreams)
  else if target =? "opensuse" then Ok (Upstreams.opensuse upstreams)
  else if target =? "void" then Ok (Upstreams.void upstreams)
  else if target =? "gentoo" then Ok (Upstreams.gentoo upstreams)
  else if target =? "freebsd" then Ok (Upstreams.freebsd upstreams)
  else result_of_option (btree_get target (Upstreams.additional_os upstreams)) UnsupportedTarget.

Definition proxy `{UrlApi} (config : Config.t) (path : string) (query : option string) : result action ProxyError :=
  if negb (is_enabled config "os") then Err (Disabled "os")
  else
    match split_once "/" (trim_start_matches "/" path) with
    | None => Err InvalidUrl
    | Some (target, p) =>
        if str_is_empty p || contains_char "\" p || existsb unsafe_segment (str_split "/" p)
        then Err InvalidUrl
        else
          let? base := repository_for_target (Config.upstreams config) target in
          let? url := parse_base base in
          let b := trim_end_matches "/" (url_path url) in
          Ok (Forward (url_set_query query (url_set_path (b +:+ "/" +:+ p) url)))
    end.

End Os.

(** ** crates.io *)

Module CratesIo.

Definition sanitize_index_path (path : string) : result string ProxyError :=
  let path := trim_start_matches "/" path in
  if str_is_empty path || contains_char "\" path
     || existsb (fun part => (part =? ".") || (part =? "..") || contains_char zero part) (str_split "/" path)
  then Err InvalidUrl else Ok path.

Definition sanitize_segment (segment : string) : result string ProxyError :=
  if str_is_empty segment || contains_char "/" segment || contains_char "\" segment
     || (segment =? ".") || (segment =? "..") || contains_char zero segment
  then Err InvalidUrl else Ok segment.

(** [request] is set when there is one to take method and headers from. *)
Definition proxy_index_path `{UrlApi} (config : Config.t) (path : string) (query : option string)
    (public_base_url : string) (request : bool) : result action ProxyError :=
  if negb (is_enabled config "crates") then Err (Disabled "crates")
  else
    let? clean_path := sanitize_index_path path in
    if clean_path =? "config.json"
    then Ok (Respond 200 [("cache-control", metadata_cache_value); ("vary", metadata_vary_value);
                          ("content-type", "application/json")]
               (Document (Object [("api", Str public_base_url);
                                  ("dl", Str (public_base_url +:+ "/crates/api/v1/crates"))])))
    else
      let? url := build_url (Upstreams.crates_index (Config.upstreams config)) ("/" +:+ clean_path) query in
      Ok (if request then Forward url else ForwardPlain url).

Definition index_root `{UrlApi} (config : Config.t) (public_base_url : string) : result action ProxyError :=
  proxy_index_path config "config.json" None public_base_url false.

Definition index `{UrlApi} (config : Config.t) (path : string) (query : option string) (public_base_url : string) :
    result action ProxyError :=
  proxy_index_path config path query public_base_url true.

Definition download `{UrlApi} (config : Config.t) (krate version : string) (query : option string) :
    result action ProxyError :=
  if negb (is_enabled config "crates") then Err (Disabled "crates")
  else
    let? krate := sanitize_segment krate in
    let? version := sanitize_segment version in
    let path := "/api/v1/crates/" +:+ krate +:+ "/" +:+ version +:+ "/download" in
    let? url := build_url (Upstreams.crates_api (Config.upstreams config)) path query in
    Ok (Forward url).

End CratesIo.

(** ** GitHub *)

Module Github.

Definition ALLOWED_HOSTS : list string :=
  ["api.github.com"; "github.com"; "raw.githubusercontent.com"; "objects.githubusercontent.com";
   "codeload.github.com"].

(** [path] and [query] are those of the request's URI. *)
Definition target_from_uri `{UrlApi} (path : string) (query : option string) : result Url ProxyError :=
  match url_parse (trim_start_matches "/" path) with
  | None => Err InvalidUrl
  | Some url =>
      let url := match query with Some q => url_set_query (Some q) url | None => url end in
      let is_allowed := match url_host_str url with
                        | Some host => existsb (eq_ignore_ascii_case host) ALLOWED_HOSTS
                        | None => false
                        end in
      if negb (url_scheme url =? "https") || negb is_allowed then Err UnsupportedTarget else Ok url
  end.

Definition is_supported_method `{UrlApi} (method : string) (target : Url) : bool :=
  (method =? "GET") || (method =? "HEAD")
  || ((method =? "POST") && bool_decide (url_host_str target = Some "github.com")
      && ends_with "/git-upload-pack" (url_path target)).

Definition configured_target `{UrlApi} (config : Config.t) (target : Url) : result Url ProxyError :=
  let configured :=
    if bool_decide (url_host_str target = Some "github.com")
    then Some (Upstreams.github (Config.upstreams config))
    else if bool_decide (url_host_str target = Some "raw.githubusercontent.com")
    then Some (Upstreams.github_raw (Config.upstreams config))
    else None in
  match configured with
  | None => Ok target
  | Some configured =>
      let? rewritten := parse_base configured in
      let base_path := trim_end_matches "/" (url_path rewritten) in
      Ok (url_set_query (url_query target) (url_set_path (base_path +:+ url_path target) rewritten))
  end.

Definition proxy `{UrlApi} (config : Config.t) (method path : string) (query : option string) :
    result action ProxyError :=
  if negb (is_enabled config "github") then Err (Disabled "github")
  else
    let? target := target_from_uri path query in
    if negb (is_supported_method method target) then Err MethodNotAllowed
    else
      let? target := configured_target config target in
      Ok (if method =? "POST" then ForwardWithBody target else Forward target).

End Github.

(** ** The adapters that forward a checked path, as a table *)

Record adapter `{UrlApi} : Type := Adapter {
  a_name : string;
  a_upstream : Upstreams.t -> string;
  a_root : Config.t -> result action ProxyError;
  a_proxy : Config.t -> string -> option string -> result action ProxyError;
}.
Arguments Adapter {_} _ _ _ _.

Definition static_adapters `{UrlApi} : list adapter :=
  [Adapter "anaconda" Upstreams.anaconda Anaconda.root Anaconda.proxy;
   Adapter "clojars" Upstreams.clojars Clojars.root Clojars.proxy;
   Adapter "cpan" Upstreams.cpan Cpan.root Cpan.proxy;
   Adapter "cran" Upstreams.cran Cran.root Cran.proxy;
   Adapter "hackage" Upstreams.hackage Hackage.root Hackage.proxy;
   Adapter "maven" Upstreams.maven Maven.root Maven.proxy;
   Adapter "cocoapods" Upstreams.cocoapods Cocoapods.root Cocoapods.proxy;
   Adapter "flatpak" Upstreams.flatpak Flatpak.root Flatpak.proxy;
   Adapter "nix" Upstreams.nix Nix.root Nix.proxy;
   Adapter "elpa" Upstreams.elpa Elpa.root Elpa.proxy;
   Adapter "julia" Upstreams.julia Julia.root Julia.proxy;
   Adapter "opam" Upstreams.opam Opam.root Opam.proxy;
   Adapter "texlive" Upstreams.texlive Texlive.root Texlive.proxy;
   Adapter "winget" Upstreams.winget Winget.root Winget.proxy;
   Adapter "guix" Upstreams.guix Guix.root Guix.proxy;
   Adapter "luarocks" Upstreams.luarocks Luarocks.root Luarocks.proxy;
   Adapter "nvm" Upstreams.nvm Nvm.root Nvm.proxy;
   Adapter "rustup" Upstreams.rustup Rustup.root Rustup.proxy].

(** ** Lemmas *)

Section Lemmas.
Context `{UrlApi}.

(** What every such adapter does. *)
Definition reference (name : string) (upstream : Upstreams.t -> string) (config : Config.t) (path : string)
    (query : option string) : result action ProxyError :=
  if negb (is_enabled config name) then Err (Disabled name)
  else
    let? path := sanitize_repository_path path in
    let? url := repository_url (upstream (Config.upstreams config)) path query in
    Ok (Forward url).

(** Case analysis on what every handler looks at, in order. *)
Ltac adapter_case :=
  intros config path query; cbn [a_proxy a_name a_upstream];
  unfold Anaconda.proxy, Clojars.proxy, Cpan.proxy, Cran.proxy, Hackage.proxy, Maven.proxy, Cocoapods.proxy,
    Flatpak.proxy, Nix.proxy, Elpa.proxy, Julia.proxy, Opam.proxy, Texlive.proxy, Winget.proxy,
    Guix.proxy, Luarocks.proxy, Nvm.proxy, Rustup.proxy, Guix.sanitize, Luarocks.sanitize, Nvm.sanitize,
    Rustup.sanitize, Elpa.repository_url, Julia.repository_url, Opam.repository_url,
    Texlive.repository_url, Winget.repository_url, reference, sanitize_repository_path,
    Upstreams.repository_url;
  cbv zeta; case_bool; [reflexivity|]; case_bool; [reflexivity|]; cbn [result_bind];
  match goal with |- context [parse_base ?b] => destruct (parse_base b) end; reflexivity.

Lemma static_adapters_reference :
  Forall (fun a => forall config path query,
    a_proxy a config path query = reference (a_name a) (a_upstream a) config path query) static_adapters.
Proof. unfold static_adapters. repeat (apply Forall_cons; split; [adapter_case|]). apply Forall_nil_2. Qed.
End Lemmas.

(** ** Properties *)

Section Guarantees.
Context `{UrlLaws}.

(** What a segment of a repository path must not be. *)
Definition hazard (part : string) : Prop :=
  part = "" \/ part = "." \/ part = ".." \/ contains_char zero part = true.

Lemma hazard_iff (part : string) : hazard part <-> unsafe_segment part = true.
Proof.
  assert (He : str_is_empty part = true <-> part = "") by (by destruct part).
  unfold hazard, unsafe_segment. rewrite !orb_true_iff, !String.eqb_eq, He. tauto.
Qed.

(** The check of a path refuses a hazard and a backslash and nothing else. *)
Lemma sanitize_bad (path : string) :
  contains_char "\" (trim_start_matches "/" path) = true \/
    (exists part, part ∈ str_split "/" (trim_start_matches "/" path) /\ hazard part) ->
  sanitize_repository_path path = Err InvalidUrl.
Proof.
  unfold sanitize_repository_path. set (p := trim_start_matches "/" path). cbv zeta.
  intros [Hb|(part & Hin & Hh%hazard_iff)]; [by rewrite Hb, orb_true_r|].
  rewrite (proj2 (existsb_true_Exists _ _)), orb_true_r; [done|]. apply Exists_exists. by exists part.
Qed.

Lemma sanitize_good (path : string) :
  contains_char "\" (trim_start_matches "/" path) = false ->
  (forall part, part ∈ str_split "/" (trim_start_matches "/" path) -> ~ hazard part) ->
  sanitize_repository_path path = Ok (trim_start_matches "/" path).
Proof.
  unfold sanitize_repository_path. set (p := trim_start_matches "/" path). cbv zeta. intros Hb Hs.
  assert (Hne : str_is_empty p = false).
  { destruct p; [|done]. exfalso. apply (Hs ""); [by left|by left]. }
  rewrite Hne, Hb, (proj2 (existsb_false_Forall _ _)); [done|]. apply Forall_forall. intros part Hin.
  apply not_true_iff_false. rewrite <- hazard_iff. by apply Hs.
Qed.

(** Where a repository URL goes: to the origin of its base, with the client's
    query, and for plain path bytes exactly below the base path. *)
Lemma repository_url_parts (configured p : string) (base : Url) (query : option string) :
  parse_base configured = Ok base ->
  (forall part, part ∈ str_split "/" p -> ~ hazard part) ->
  exists url, repository_url configured p query = Ok url /\ same_origin url base = true /\
    (forall v, web v -> query = url_query v -> url_query url = query) /\
    (web base -> all_bytes is_path_char p = true -> contains_char "%" p = false ->
     url_path url = trim_end_matches "/" (url_path base) +:+ "/" +:+ p).
Proof.
  intros Hb Hs. unfold Upstreams.repository_url. rewrite Hb. cbn [result_bind]. eexists. split; [done|]. split_and!.
  - apply same_origin_iff. by autorewrite with url.
  - intros v Hv ->. by apply url_query_set_query.
  - intros Hw Hc Hp. rewrite url_path_set_query. apply url_path_set_path; [by apply url_web_host|].
    apply normal_base_path; [done|by apply keeps_plain|]. apply plain_path_no_dots; [done|].
    apply Forall_forall. intros part Hin. apply not_true_iff_false. rewrite <- hazard_iff. by apply Hs.
Qed.

(** C35: the eighteen adapters that forward a checked path, each with code of
    its own, do the same.  One that is off answers [Disabled] and nothing
    else.  One that is on refuses a path with a backslash or with an empty,
    dot or double-dot segment or one with a zero byte, and accepts every
    other: it forwards to the origin of its own upstream with the query of
    the client, and, when the path has plain URL characters and no percent
    sign, to exactly that path below the base path of the upstream.  (With a
    percent sign the last does not hold: [double_encoded_path_escapes].) *)
Theorem adapters_confined (a : adapter) (config : Config.t) (path : string) (query : option string) :
  a ∈ static_adapters ->
  let p := trim_start_matches "/" path in
  let answer := a_proxy a config path query in
  (is_enabled config (a_name a) = false -> answer = Err (Disabled (a_name a))) /\
  (is_enabled config (a_name a) = true ->
   (contains_char "\" p = true \/ (exists part, part ∈ str_split "/" p /\ hazard part) ->
    answer = Err InvalidUrl) /\
   (contains_char "\" p = false -> (forall part, part ∈ str_split "/" p -> ~ hazard part) ->
    forall base, parse_base (a_upstream a (Config.upstreams config)) = Ok base ->
    exists url, answer = Ok (Forward url) /\ same_origin url base = true /\
      (forall v, web v -> query = url_query v -> url_query url = query) /\
      (web base -> all_bytes is_path_char p = true -> contains_char "%" p = false ->
       url_path url = trim_end_matches "/" (url_path base) +:+ "/" +:+ p))).
Proof.
  intros Ha p answer. subst answer p. pose proof static_adapters_reference as Hall.
  rewrite Forall_forall in Hall. rewrite (Hall a Ha). unfold reference.
  split; [intros He; by rewrite He|]. intros He. rewrite He. cbn [negb]. split.
  - intros Hbad. by rewrite (sanitize_bad _ Hbad).
  - intros Hback Hsegs base Hb. rewrite (sanitize_good _ Hback Hsegs). cbn [result_bind].
    destruct (repository_url_parts _ _ _ query Hb Hsegs) as (url & Hu & Hrest).
    rewrite Hu. cbn [result_bind]. by exists url.
Qed.

(** The adapters at the root of their upstream lose its path: whatever
    path the configured RubyGems or Go endpoint has, the request goes to the
    checked path alone. *)
Theorem root_adapters_lose_base_path (config : Config.t) (path p : string) (query : option string) (url : Url) :
  sanitize_repository_path path = Ok p -> all_bytes is_path_char p = true -> contains_char "%" p = false ->
  url_host_str url <> None ->
  Rubygems.proxy config path query = Ok (Forward url) \/ Go.proxy config path query = Ok (Forward url) ->
  url_path url = "/" +:+ p.
Proof.
  intros Hs Hc Hp Hh Hor. pose proof (sanitize_segments path p Hs) as Hseg.
  assert (Hbuild : forall configured, build_url configured ("/" +:+ p) query = Ok url -> url_path url = "/" +:+ p).
  { intros configured Hb. unfold build_url in Hb. destruct (parse_base configured) as [base|]; [|done].
    injection Hb as <-. rewrite url_path_set_query. rewrite url_host_set_query, url_host_set_path in Hh.
    apply url_path_set_path; [by apply not_eq_None_Some|].
    destruct Hseg as (_ & _ & Hsegs & _).
    by apply plain_path_normal. }
  destruct Hor as [Hr|Hg].
  - unfold Rubygems.proxy in Hr. case_bool; [done|]. rewrite Hs in Hr. cbn [result_bind] in Hr.
    destruct (build_url _ _ query) as [u|] eqn:Hb; [|done]. injection Hr as ->. by eapply Hbuild.
  - unfold Go.proxy, Go.sanitize_go_proxy_path in Hg. case_bool; [done|].
    unfold sanitize_repository_path in Hs. cbv zeta in Hg, Hs.
    destruct (str_is_empty (trim_start_matches "/" path) || _ || _); [done|]. injection Hs as Hs. rewrite Hs in Hg.
    case_bool; [done|]. cbn [result_bind] in Hg.
    destruct (build_url _ _ query) as [u|] eqn:Hb; [|done]. injection Hg as ->. by eapply Hbuild.
Qed.

(** GitHub requests go where they may: to one of five hosts over HTTPS, or
    to the upstream configured in its place, and only a fetch of a Git
    repository may send a body. *)
Theorem github_targets_confined (config : Config.t) (method path : string) (query : option string)
    (act : action) :
  Github.proxy config method path query = Ok act ->
  exists target url host,
    Github.target_from_uri path query = Ok target /\ url_scheme target = "https" /\
    url_host_str target = Some host /\ existsb (eq_ignore_ascii_case host) Github.ALLOWED_HOSTS = true /\
    ((act = Forward url /\ (method = "GET" \/ method = "HEAD")) \/
     (act = ForwardWithBody url /\ method = "POST" /\ host = "github.com" /\
      ends_with "/git-upload-pack" (url_path target) = true)) /\
    (url = target \/
     exists base, parse_base (if bool_decide (host = "github.com") then Upstreams.github (Config.upstreams config)
                              else Upstreams.github_raw (Config.upstreams config)) = Ok base /\
       same_origin url base = true).
Proof.
  unfold Github.proxy. case_bool; [done|]. destruct (Github.target_from_uri path query) as [target|] eqn:Ht; [|done].
  cbn [result_bind]. destruct (Github.is_supported_method method target) eqn:Hm; [|done]. cbn [negb].
  destruct (Github.configured_target config target) as [url|] eqn:Hu; [|done]. cbn [result_bind]. intros [= <-].
  assert (Hh : exists host, url_scheme target = "https" /\ url_host_str target = Some host /\
    existsb (eq_ignore_ascii_case host) Github.ALLOWED_HOSTS = true).
  { unfold Github.target_from_uri in Ht. destruct (url_parse _) as [u|]; [|done]. cbv zeta in Ht.
    set (v := match query with Some _ => _ | None => u end) in Ht.
    destruct (negb (url_scheme v =? "https") || _) eqn:Hbad; [done|]. injection Ht as <-.
    apply orb_false_iff in Hbad as [Hs Ha]. apply negb_false_iff in Hs, Ha. apply String.eqb_eq in Hs.
    destruct (url_host_str v) as [host|]; [|done]. by exists host. }
  destruct Hh as (host & Hs & Hhost & Ha). exists target, url, host. split_and!; [done|done|done|done| |].
  - unfold Github.is_supported_method in Hm. rewrite Hhost in Hm.
    destruct (method =? "POST") eqn:Hpost.
    + right. apply String.eqb_eq in Hpost. subst method. simpl in Hm. apply andb_true_iff in Hm as [Hb He].
      apply bool_decide_eq_true in Hb. by injection Hb as ->.
    + left. split; [done|]. rewrite orb_false_r in Hm. by rewrite orb_true_iff, !String.eqb_eq in Hm.
  - unfold Github.configured_target in Hu. rewrite Hhost in Hu.
    assert (Hd : forall x, bool_decide (Some host = Some x) = bool_decide (host = x))
      by (intros x; apply bool_decide_ext; split; congruence).
    rewrite !Hd in Hu. destruct (bool_decide (host = "github.com")) eqn:Hg.
    + right. destruct (parse_base _) as [base|] eqn:Hb; [|done]. injection Hu as <-. exists base. split; [done|].
      apply same_origin_iff. by autorewrite with url.
    + destruct (bool_decide (host = "raw.githubusercontent.com")); [|by injection Hu as ->; left].
      right. destruct (parse_base _) as [base|] eqn:Hb; [|done]. injection Hu as <-. exists base. split; [done|].
      apply same_origin_iff. by autorewrite with url.
Qed.
End Guarantees.

(** ** Witnesses *)

Definition ctan (path : string) : simple_url := SimpleUrl "https" "" None "mirrors.ctan.org" None path None None.

Definition texlive_adapter : @adapter SimpleUrlApi :=
  Adapter "texlive" Upstreams.texlive Texlive.root Texlive.proxy.

(** A package of TeX Live is forwarded to its place on the mirror; a path with
    two dots is refused. *)
Lemma adapters_confined_witness :
  (exists url, @Texlive.proxy SimpleUrlApi Config.default "//archive/a0poster.tar.xz" None = Ok (Forward url) /\
     url_path url = "/systems/texlive/tlnet/archive/a0poster.tar.xz") /\
  @Texlive.proxy SimpleUrlApi Config.default "archive/../secret" None = Err InvalidUrl.
Proof.
  assert (Hin : texlive_adapter ∈ @static_adapters SimpleUrlApi) by (unfold static_adapters; do 12 right; left).
  split.
  - destruct (proj2 (proj2 (@adapters_confined SimpleUrlApi SimpleUrl_laws texlive_adapter Config.default
      "//archive/a0poster.tar.xz" None Hin) ltac:(vm_compute; reflexivity)) ltac:(vm_compute; reflexivity))
      with (base := ctan "/systems/texlive/tlnet") as (url & Hu & _ & _ & Hp); [|vm_compute; reflexivity|].
    + intros part Hx Hz. vm_compute in Hx. unfold hazard in Hz.
      repeat (apply elem_of_cons in Hx as [->|Hx]; [vm_compute in Hz; intuition discriminate|]).
      by apply not_elem_of_nil in Hx.
    + exists url. split; [exact Hu|]. apply Hp; [by right|vm_compute; reflexivity..].
  - apply (proj1 (proj2 (@adapters_confined SimpleUrlApi SimpleUrl_laws texlive_adapter Config.default
      "archive/../secret" None Hin) ltac:(vm_compute; reflexivity))).
    right. exists "..". split; [vm_compute; right; left|by right; right; left].
Defined.

Definition rake : simple_url := SimpleUrl "https" "" None "rubygems.org" None "/gems/rake-13.0.gem" None None.

Lemma root_adapters_lose_base_path_witness : @url_path SimpleUrlApi rake = "/gems/rake-13.0.gem".
Proof.
  apply (@root_adapters_lose_base_path SimpleUrlApi SimpleUrl_laws Config.default "gems/rake-13.0.gem"
    "gems/rake-13.0.gem" None); [reflexivity|reflexivity|reflexivity|done|left].
  exact (@eq_refl (result (@action SimpleUrlApi) ProxyError) (Ok (@Forward SimpleUrlApi rake))
    <: @Rubygems.proxy SimpleUrlApi Config.default "gems/rake-13.0.gem" None = Ok (@Forward SimpleUrlApi rake)).
Defined.

Definition archive : simple_url :=
  SimpleUrl "https" "" None "github.com" None "/o/r/archive/v1.zip" None None.

Lemma github_targets_confined_witness :
  exists target url host : _,
    @Github.target_from_uri SimpleUrlApi "/https://github.com/o/r/archive/v1.zip" None = Ok target /\
    url_scheme target = "https" /\ url_host_str target = Some host /\
    existsb (eq_ignore_ascii_case host) Github.ALLOWED_HOSTS = true /\
    @Forward SimpleUrlApi archive = Forward url.
Proof.
  destruct (@github_targets_confined SimpleUrlApi SimpleUrl_laws Config.default "GET"
    "/https://github.com/o/r/archive/v1.zip" None
    (@Forward SimpleUrlApi archive)
    (@eq_refl (result (@action SimpleUrlApi) ProxyError) (Ok (@Forward SimpleUrlApi archive))
      <: @Github.proxy SimpleUrlApi Config.default "GET" "/https://github.com/o/r/archive/v1.zip" None =
         Ok (@Forward SimpleUrlApi archive)))
    as (t & u & h & Ht & Hs & Hh & Ha & [[Hf _]|(Hf & _)] & _); [|done].
  exists t, u, h. by split_and!.
Defined.

(** A path encoded twice leaves the repository. The client sends
    [%252e%252e/%252e%252e/private], the router decodes it once, the check
    sees no dots, and the URL parser resolves them: two directories of the
    base path of the upstream are left. *)
Theorem double_encoded_path_escapes :
  Texlive.proxy Config.default "%2e%2e/%2e%2e/private" None = Ok (@Forward SimpleUrlApi (ctan "/systems/private")) /\
  @parse_base SimpleUrlApi (Upstreams.texlive Upstreams.default) = Ok (ctan "/systems/texlive/tlnet").
Proof.
  split.
  - exact (@eq_refl (result (@action SimpleUrlApi) ProxyError) (Ok (@Forward SimpleUrlApi (ctan "/systems/private")))
      <: @Texlive.proxy SimpleUrlApi Config.default "%2e%2e/%2e%2e/private" None =
         Ok (@Forward SimpleUrlApi (ctan "/systems/private"))).
  - exact (@eq_refl (result (@Url SimpleUrlApi) ProxyError) (Ok (ctan "/systems/texlive/tlnet"))
      <: @parse_base SimpleUrlApi (Upstreams.texlive Upstreams.default) = Ok (ctan "/systems/texlive/tlnet")).
Qed.
