(* ===== verification/Quota.v ===== *)
(** * Accounts and the traffic ledger of [database.rs]

    The tables behind quotas: who bills to which group and under which limits,
    which targets a group may use, and the counters of requests and bytes per
    month, user, group, day and place.  Every operation of [database.rs] and
    [database/download.rs] on them is one function of the database; a
    transaction that returns before its commit leaves the database as it was.
    SQL is translated statement by statement: an [INSERT OR IGNORE] is
    [insert_or_ignore], an [UPDATE .. WHERE] tells whether it hit a row, an
    [INSERT .. ON CONFLICT] is an upsert.  The times of groups, members and
    overrides, which nothing reads, are left out; integers are SQLite's, as [Z]: the counters
    are far below the 2^63 at which SQLite changes to floating point. *)
From S2P Require Import Prelude RustStr Net Fs Geo Config.
Open Scope string_scope.
Open Scope Z_scope.
Open Scope list_scope.
Open Scope mirror_scope.

(** [limit_to_i64] and [as_u64]. *)
Definition limit_to_i64 (value : Z) : Z := u64_to_i64_max value.
Definition as_u64 (value : Z) : Z := Z.max 0 value.

(** ** Accounts *)

Module User.
Record t : Type := {
  username : option string;
  email : string;
  display_name : string;
  disabled : bool;
  deleted_at : option Z;
  created_at : Z;
  updated_at : Z;
}.
End User.

Module Group.
Record t : Type := { name : string; kind : string }.
End Group.

(** A row of [config_audit_log]. *)
Record Audit : Type := { created_at : Z; username : string; audit_action : string; detail : string }.

(** [group_members] holds the rows with [is_billing = 1], which are all the
    rows the code writes; the partial unique index on [user_id] makes them a
    map. *)
Record Accounts : Type := {
  users : gmap Z User.t;
  groups : gmap Z Group.t;
  next_group_id : Z;
  group_members : gmap Z Z;
  group_quota_settings : gmap Z (option Z);
  group_target_access : gset (Z * string);
  user_quota_overrides : gmap Z (string * option Z);
  config_audit_log : list Audit;
}.

Inductive DbError : Type := UniqueViolation.

Definition audit (now : Z) (actor action detail : string) (a : Accounts) : Accounts := {|
  users := users a; groups := groups a; next_group_id := next_group_id a; group_members := group_members a;
  group_quota_settings := group_quota_settings a; group_target_access := group_target_access a;
  user_quota_overrides := user_quota_overrides a;
  config_audit_log := config_audit_log a ++ [Build_Audit now actor action detail];
|}.

Definition is_billing_group (a : Accounts) (id : Z) : bool :=
  match groups a !! id with Some g => Group.kind g =? "billing" | None => false end%string.

Definition create_billing_group (now : Z) (actor name : string) (monthly_limit_bytes : option Z) (a : Accounts) :
    option Z * Accounts :=
  if bool_decide (map_Exists (fun _ g => Group.name g = name) (groups a)) then (None, a)
  else
    let id := next_group_id a in
    (Some id,
     audit now actor "billing_group_created" ("group_id=" +:+ show_uint id) {|
       users := users a;
       groups := <[id := {| Group.name := name; Group.kind := "billing" |}]> (groups a);
       next_group_id := id + 1;
       group_members := group_members a;
       group_quota_settings := <[id := limit_to_i64 <$> monthly_limit_bytes]> (group_quota_settings a);
       group_target_access := group_target_access a;
       user_quota_overrides := user_quota_overrides a;
       config_audit_log := config_audit_log a;
     |}).

(** [UPDATE groups SET name] fails on a name another group has. *)
Definition update_billing_group (now : Z) (actor : string) (id : Z) (name : string)
    (monthly_limit_bytes : option Z) (a : Accounts) : result bool DbError * Accounts :=
  if negb (is_billing_group a id) then (Ok false, a)
  else if bool_decide (map_Exists (fun other g => other <> id /\ Group.name g = name) (groups a))
  then (Err UniqueViolation, a)
  else
    (Ok true,
     audit now actor "billing_group_updated" ("group_id=" +:+ show_uint id) {|
       users := users a;
       groups := <[id := {| Group.name := name; Group.kind := "billing" |}]> (groups a);
       next_group_id := next_group_id a;
       group_members := group_members a;
       group_quota_settings := <[id := limit_to_i64 <$> monthly_limit_bytes]> (group_quota_settings a);
       group_target_access := group_target_access a;
       user_quota_overrides := user_quota_overrides a;
       config_audit_log := config_audit_log a;
     |}).

Definition with_access (access : gset (Z * string)) (a : Accounts) : Accounts := {|
  users := users a; groups := groups a; next_group_id := next_group_id a; group_members := group_members a;
  group_quota_settings := group_quota_settings a; group_target_access := access;
  user_quota_overrides := user_quota_overrides a; config_audit_log := config_audit_log a;
|}.

(** The loop of inserts: a code that is there already fails. *)
Fixpoint insert_access (group_id : Z) (target_codes : list string) (access : gset (Z * string)) :
    option (gset (Z * string)) :=
  match target_codes with
  | [] => Some access
  | code :: rest =>
      if bool_decide ((group_id, code) ∈ access) then None
      else insert_access group_id rest ({[(group_id, code)]} ∪ access)
  end.

Definition set_group_target_access (now : Z) (actor : string) (group_id : Z) (target_codes : list string)
    (a : Accounts) : result bool DbError * Accounts :=
  if negb (is_billing_group a group_id) then (Ok false, a)
  else
    match insert_access group_id target_codes (filter (fun p => p.1 <> group_id) (group_target_access a)) with
    | None => (Err UniqueViolation, a)
    | Some access =>
        (Ok true,
         audit now actor "group_target_access_updated"
           ("group_id=" +:+ show_uint group_id +:+ ", targets=" +:+ str_join "," target_codes)
           (with_access access a))
    end.

(** The aggregate over the one billing group of the user: how many targets are
    configured for it, and how many of them are [target_code]. *)
Definition user_target_allowed (user_id : Z) (target_code : string) (a : Accounts) : bool :=
  match group_members a !! user_id with
  | Some g =>
      if is_billing_group a g then
        let configured := Z.of_nat (size (filter (fun p => p.1 = g) (group_target_access a))) in
        let matched := if bool_decide ((g, target_code) ∈ group_target_access a) then 1 else 0 in
        (configured =? 0) || (matched >? 0)
      else true
  | None => true
  end.

Definition user_exists (a : Accounts) (user_id : Z) : bool :=
  match users a !! user_id with
  | Some u => match User.deleted_at u with None => true | Some _ => false end
  | None => false
  end.

Definition set_user_billing_profile (now : Z) (actor : string) (user_id : Z) (group_id : option Z)
    (quota_mode : string) (user_monthly_limit_bytes : option Z) (a : Accounts) : bool * Accounts :=
  if negb (user_exists a user_id) then (false, a)
  else if match group_id with Some g => negb (is_billing_group a g) | None => false end then (false, a)
  else
    (true,
     audit now actor "user_billing_updated" ("user_id=" +:+ show_uint user_id) {|
       users := users a; groups := groups a; next_group_id := next_group_id a;
       group_members := match group_id with
                        | Some g => <[user_id := g]> (delete user_id (group_members a))
                        | None => delete user_id (group_members a)
                        end;
       group_quota_settings := group_quota_settings a;
       group_target_access := group_target_access a;
       user_quota_overrides :=
         if (quota_mode =? "default")%string then delete user_id (user_quota_overrides a)
         else <[user_id := (quota_mode, limit_to_i64 <$> user_monthly_limit_bytes)]> (user_quota_overrides a);
       config_audit_log := config_audit_log a;
     |}).

(** The row the reservation reads: group, its limit, quota mode, own limit. *)
Record Profile : Type := {
  p_group : option Z;
  p_group_limit : option Z;
  p_mode : option string;
  p_user_limit : option Z;
}.

Definition billing_profile (a : Accounts) (user_id : Z) : option Profile :=
  match users a !! user_id with
  | Some u =>
      if User.disabled u then None
      else match User.deleted_at u with
           | Some _ => None
           | None =>
               let g := group_members a !! user_id ≫= fun g => (fun _ => g) <$> groups a !! g in
               Some {|
                 p_group := g;
                 p_group_limit := mjoin (g ≫= fun g => group_quota_settings a !! g);
                 p_mode := fst <$> user_quota_overrides a !! user_id;
                 p_user_limit := mjoin (snd <$> user_quota_overrides a !! user_id);
               |}
           end
  | None => None
  end.

Definition effective_user_limit (p : Profile) (default_user_limit : option Z) : option Z :=
  match p_mode p with
  | Some "unlimited" => None
  | Some "custom" => p_user_limit p
  | _ => limit_to_i64 <$> default_user_limit
  end.

(** ** The ledger *)

(** A row of a traffic table; [quota_exceeded] is a column of
    [traffic_monthly] only, [reserved_bytes] of the monthly tables,
    [billed_bytes] of [geo_traffic_daily]. *)
Module Usage.
Record t : Type := {
  request_count : Z;
  response_bytes : Z;
  billed_bytes : Z;
  error_count : Z;
  reserved_bytes : Z;
  quota_exceeded : bool;
}.

Definition zero : t := {|
  request_count := 0; response_bytes := 0; billed_bytes := 0; error_count := 0; reserved_bytes := 0;
  quota_exceeded := false;
|}.

Definition add (requests bytes billed errors : Z) (u : t) : t := {|
  request_count := request_count u + requests;
  response_bytes := response_bytes u + bytes;
  billed_bytes := billed_bytes u + billed;
  error_count := error_count u + errors;
  reserved_bytes := reserved_bytes u;
  quota_exceeded := quota_exceeded u;
|}.

Definition set_reserved (reserved : Z) (u : t) : t := {|
  request_count := request_count u; response_bytes := response_bytes u; billed_bytes := billed_bytes u;
  error_count := error_count u; reserved_bytes := reserved; quota_exceeded := quota_exceeded u;
|}.

Definition set_exceeded (u : t) : t := {|
  request_count := request_count u; response_bytes := response_bytes u; billed_bytes := billed_bytes u;
  error_count := error_count u; reserved_bytes := reserved_bytes u; quota_exceeded := true;
|}.
End Usage.

Section Table.
Context {K : Type} `{Countable K}.
Implicit Types (table : gmap K Usage.t) (k : K).

Definition row table k : Usage.t := default Usage.zero (table !! k).

Definition insert_or_ignore k table : gmap K Usage.t :=
  match table !! k with Some _ => table | None => <[k := Usage.zero]> table end.

(** [UPDATE .. SET reserved_bytes = reserved_bytes + ? WHERE key [AND
    response_bytes + reserved_bytes + ? <= limit]] *)
Definition reserve_row (limit : option Z) (bytes : Z) k table : gmap K Usage.t * bool :=
  match table !! k with
  | Some u =>
      if match limit with
         | Some l => Usage.response_bytes u + Usage.reserved_bytes u + bytes <=? l
         | None => true
         end
      then (<[k := Usage.set_reserved (Usage.reserved_bytes u + bytes) u]> table, true)
      else (table, false)
  | None => (table, false)
  end.

(** The same for bytes that are billed at once. *)
Definition charge_row (limit bytes : Z) k table : gmap K Usage.t * bool :=
  match table !! k with
  | Some u =>
      if Usage.response_bytes u + Usage.reserved_bytes u + bytes <=? limit
      then (<[k := Usage.add 0 bytes 0 0 u]> table, true)
      else (table, false)
  | None => (table, false)
  end.

(** [INSERT .. ON CONFLICT DO UPDATE] adding to the counters. *)
Definition upsert (requests bytes billed errors : Z) k table : gmap K Usage.t :=
  <[k := Usage.add requests bytes billed errors (row table k)]> table.

(** The same with [reserved_bytes = MAX(0, reserved_bytes - ?)]. *)
Definition settle_row (bytes errors reserved : Z) k table : gmap K Usage.t :=
  <[k := match table !! k with
         | Some u => Usage.set_reserved (Z.max 0 (Usage.reserved_bytes u - reserved)) (Usage.add 1 bytes 0 errors u)
         | None => Usage.add 1 bytes 0 errors Usage.zero
         end]> table.
End Table.

(** A row of [request_events]. *)
Record RequestEvent : Type := {
  ev_created_at : Z; ev_target : string; ev_method : string; ev_path : string; ev_status : Z; ev_bytes : Z;
}.

(** A row of [download_usage]. *)
Record DownloadUsage : Type := {
  du_requests : Z; du_errors : Z; du_denied : Z; du_bytes : Z; du_upstream_bytes : Z;
}.

Definition no_download : DownloadUsage := 
  {| du_requests := 0; du_errors := 0; du_denied := 0; du_bytes := 0; du_upstream_bytes := 0 |}.

Definition GeoKey : Type := string * string * string * string * string * string.
Definition DownloadKey : Type := string * Z * string * string.

Record Ledger : Type := {
  traffic_daily : gmap (string * string) Usage.t;
  traffic_monthly : gmap string Usage.t;
  user_traffic_daily : gmap (string * Z * string) Usage.t;
  user_traffic_monthly : gmap (string * Z) Usage.t;
  group_traffic_monthly : gmap (string * Z) Usage.t;
  geo_traffic_daily : gmap GeoKey Usage.t;
  request_events : list RequestEvent;
  download_usage : gmap DownloadKey DownloadUsage;
}.

Record Db : Type := { accounts : Accounts; ledger : Ledger }.

Definition empty_ledger : Ledger := {|
  traffic_daily := ∅; traffic_monthly := ∅; user_traffic_daily := ∅; user_traffic_monthly := ∅;
  group_traffic_monthly := ∅; geo_traffic_daily := ∅; request_events := []; download_usage := ∅;
|}.

(** The three monthly tables a request holds a reservation in. *)
Definition with_monthly (global : gmap string Usage.t) (user group : gmap (string * Z) Usage.t) (l : Ledger) :
    Ledger := {|
  traffic_daily := traffic_daily l; traffic_monthly := global; user_traffic_daily := user_traffic_daily l;
  user_traffic_monthly := user; group_traffic_monthly := group; geo_traffic_daily := geo_traffic_daily l;
  request_events := request_events l; download_usage := download_usage l;
|}.

Inductive HierarchicalReservationOutcome : Type :=
| Reserved (group_id : option Z)
| Exceeded (scope : string).

Definition try_reserve_hierarchical_bytes (month : string) (user_id : Z) (global_limit default_user_limit : option Z)
    (bytes : Z) (db : Db) : HierarchicalReservationOutcome * Db :=
  let bytes := limit_to_i64 bytes in
  match billing_profile (accounts db) user_id with
  | None => (Exceeded "user", db)
  | Some profile =>
      let user_limit := effective_user_limit profile default_user_limit in
      let '(global, ok) :=
        reserve_row (limit_to_i64 <$> global_limit) bytes month
          (insert_or_ignore month (traffic_monthly (ledger db))) in
      if negb ok then (Exceeded "global", db)
      else
        let '(user, ok) :=
          reserve_row user_limit bytes (month, user_id)
            (insert_or_ignore (month, user_id) (user_traffic_monthly (ledger db))) in
        if negb ok then (Exceeded "user", db)
        else
          match p_group profile with
          | Some group_id =>
              let '(group, ok) :=
                reserve_row (p_group_limit profile) bytes (month, group_id)
                  (insert_or_ignore (month, group_id) (group_traffic_monthly (ledger db))) in
              if negb ok then (Exceeded "group", db)
              else (Reserved (Some group_id),
                    {| accounts := accounts db; ledger := with_monthly global user group (ledger db) |})
          | None =>
              (Reserved None,
               {| accounts := accounts db;
                  ledger := with_monthly global user (group_traffic_monthly (ledger db)) (ledger db) |})
          end
  end.

(** Commits in both cases: the row of the month stays. *)
Definition try_reserve_monthly_bytes (month : string) (limit bytes : Z) (db : Db) : bool * Db :=
  let '(global, ok) :=
    reserve_row (Some (limit_to_i64 limit)) (limit_to_i64 bytes) month
      (insert_or_ignore month (traffic_monthly (ledger db))) in
  (ok, {| accounts := accounts db;
          ledger := with_monthly global (user_traffic_monthly (ledger db)) (group_traffic_monthly (ledger db))
                      (ledger db) |}).

Record ProxyTrafficRecord : Type := {
  r_day : string; r_month : string; r_target_code : string; r_method : string; r_path : string;
  r_status_code : Z; r_response_bytes : Z; r_delivered_response_bytes : Z; r_stream_error : bool;
  r_reserved_bytes : Z; r_user_id : option Z; r_group_id : option Z;
  r_request_event_retention_days : Z; r_location : GeoLocation;
}.

Definition record_proxy_response (now : Z) (record : ProxyTrafficRecord) (db : Db) : Db :=
  let bytes := limit_to_i64 (r_response_bytes record) in
  let reserved := limit_to_i64 (r_reserved_bytes record) in
  let errors := if r_stream_error record || (400 <=? r_status_code record) then 1 else 0 in
  let l := ledger db in
  let '(country_code, country) := country_bucket (r_location record) in
  let cutoff := sat_sub_i64 now (sat_mul_i64 (r_request_event_retention_days record) (24 * 60 * 60)) in
  {| accounts := accounts db;
     ledger := {|
       traffic_daily := upsert 1 bytes 0 errors (r_day record, r_target_code record) (traffic_daily l);
       traffic_monthly := settle_row bytes errors reserved (r_month record) (traffic_monthly l);
       user_traffic_daily :=
         match r_user_id record with
         | Some user_id => upsert 1 bytes 0 errors (r_day record, user_id, r_target_code record) (user_traffic_daily l)
         | None => user_traffic_daily l
         end;
       user_traffic_monthly :=
         match r_user_id record with
         | Some user_id => settle_row bytes errors reserved (r_month record, user_id) (user_traffic_monthly l)
         | None => user_traffic_monthly l
         end;
       group_traffic_monthly :=
         match r_group_id record with
         | Some group_id => settle_row bytes errors reserved (r_month record, group_id) (group_traffic_monthly l)
         | None => group_traffic_monthly l
         end;
       geo_traffic_daily :=
         upsert 1 (limit_to_i64 (r_delivered_response_bytes record)) bytes errors
           (r_day record, r_target_code record, country_code, country, province_bucket (r_location record),
            city_bucket (r_location record)) (geo_traffic_daily l);
       request_events :=
         List.filter (fun e => negb (ev_created_at e <? cutoff))
           (request_events l ++ [{| ev_created_at := now; ev_target := r_target_code record;
                                    ev_method := r_method record; ev_path := r_path record;
                                    ev_status := r_status_code record; ev_bytes := bytes |}]);
       download_usage := download_usage l;
     |} |}.

Definition mark_month_quota_exceeded (month : string) (db : Db) : Db :=
  let l := ledger db in
  {| accounts := accounts db;
     ledger := with_monthly (<[month := Usage.set_exceeded (row (traffic_monthly l) month)]> (traffic_monthly l))
                 (user_traffic_monthly l) (group_traffic_monthly l) l |}.

Definition monthly_quota_totals (month : string) (db : Db) : Z * Z :=
  let u := row (traffic_monthly (ledger db)) month in
  (as_u64 (Usage.response_bytes u), as_u64 (Usage.reserved_bytes u)).

(** ** Client downloads

    [day] and [month] are those of [quota_period], [daily_day] is today in UTC
    and [cutoff] the day ninety days before; days are texts in the order of
    time. *)

Definition multiplier (config : Config.t) : Z :=
  if QuotaConfig.bidirectional_accounting (Config.quota config) then 2 else 1.

Definition usage_row (l : Ledger) (k : DownloadKey) : DownloadUsage := default no_download (download_usage l !! k).

Definition with_downloads (usage : gmap DownloadKey DownloadUsage) (l : Ledger) : Ledger := {|
  traffic_daily := traffic_daily l; traffic_monthly := traffic_monthly l;
  user_traffic_daily := user_traffic_daily l; user_traffic_monthly := user_traffic_monthly l;
  group_traffic_monthly := group_traffic_monthly l; geo_traffic_daily := geo_traffic_daily l;
  request_events := request_events l; download_usage := usage;
|}.

Definition download_event (user : Z) (domain entry : string) (error denied : bool)
    (daily_day cutoff day month : string) (db : Db) : Db :=
  let l := ledger db in
  let usage := filter (fun e => String.ltb e.1.1.1.1 cutoff = false) (download_usage l) in
  let key := (daily_day, user, domain, entry) in
  let u := default no_download (usage !! key) in
  let errors := if error then 1 else 0 in
  {| accounts := accounts db;
     ledger := {|
       traffic_daily := upsert 1 0 0 errors (day, "download") (traffic_daily l);
       traffic_monthly := upsert 1 0 0 errors month (traffic_monthly l);
       user_traffic_daily := upsert 1 0 0 errors (day, user, "download") (user_traffic_daily l);
       user_traffic_monthly := upsert 1 0 0 errors (month, user) (user_traffic_monthly l);
       group_traffic_monthly :=
         match group_members (accounts db) !! user with
         | Some group => upsert 1 0 0 errors (month, group) (group_traffic_monthly l)
         | None => group_traffic_monthly l
         end;
       geo_traffic_daily := geo_traffic_daily l;
       request_events := request_events l;
       download_usage :=
         <[key := {| du_requests := du_requests u + 1; du_errors := du_errors u + errors;
                     du_denied := du_denied u + (if denied then 1 else 0); du_bytes := du_bytes u;
                     du_upstream_bytes := du_upstream_bytes u |}]> usage;
     |} |}.

Definition daily_bytes (daily_day : string) (user : Z) (usage : gmap DownloadKey DownloadUsage) : Z :=
  map_fold (fun k u acc => if bool_decide (k.1.1.1 = daily_day) && (k.1.1.2 =? user) then du_bytes u + acc else acc)
    0 usage.

(** [user_limit.unwrap_or(i64::MAX)] of the user's row in [users]. *)
Definition download_user_limit (config : Config.t) (p : Profile) : Z :=
  default I64_MAX
    (match p_mode p with
     | Some "unlimited" => None
     | Some "custom" => p_user_limit p
     | _ => (fun g => limit_to_i64 (sat_mul_u64 g (Z.shiftl 1 30))) <$>
              QuotaConfig.default_user_monthly_gb (Config.quota config)
     end).

(** [group_members] is joined here without [groups]. *)
Definition download_profile (a : Accounts) (user : Z) : option Profile :=
  (fun p => {| p_group := group_members a !! user;
               p_group_limit := mjoin (group_members a !! user ≫= fun g => group_quota_settings a !! g);
               p_mode := p_mode p; p_user_limit := p_user_limit p |}) <$> billing_profile a user.

Definition charge_download (user : Z) (domain entry : string) (bytes : Z) (config : Config.t)
    (daily_day day month : string) (db : Db) : bool * Db :=
  let l := ledger db in
  let billed := limit_to_i64 (bytes * multiplier config) in
  let bytes := limit_to_i64 bytes in
  let key := (daily_day, user, domain, entry) in
  let u := usage_row l key in
  let used := daily_bytes daily_day user (download_usage l) in
  if sat_add_i64 used bytes >? limit_to_i64 (DownloadConfig.daily_user_bytes (Config.download config))
  then (false, db)
  else
    match download_profile (accounts db) user with
    | None => (false, db)
    | Some profile =>
        let limit := if QuotaConfig.enabled (Config.quota config)
                     then limit_to_i64 (sat_mul_u64 (QuotaConfig.monthly_gb (Config.quota config)) (Z.shiftl 1 30))
                     else I64_MAX in
        let '(global, ok) := charge_row limit billed month (insert_or_ignore month (traffic_monthly l)) in
        if negb ok then (false, db)
        else
          let '(per_user, ok) :=
            charge_row (download_user_limit config profile) billed (month, user)
              (insert_or_ignore (month, user) (user_traffic_monthly l)) in
          if negb ok then (false, db)
          else
            let '(per_group, ok) :=
              match p_group profile with
              | Some group =>
                  charge_row (default I64_MAX (p_group_limit profile)) billed (month, group)
                    (insert_or_ignore (month, group) (group_traffic_monthly l))
              | None => (group_traffic_monthly l, true)
              end in
            if negb ok then (false, db)
            else
              (true,
               {| accounts := accounts db;
                  ledger := {|
                    traffic_daily := upsert 0 billed 0 0 (day, "download") (traffic_daily l);
                    traffic_monthly := global;
                    user_traffic_daily := upsert 0 billed 0 0 (day, user, "download") (user_traffic_daily l);
                    user_traffic_monthly := per_user;
                    group_traffic_monthly := per_group;
                    geo_traffic_daily := geo_traffic_daily l;
                    request_events := request_events l;
                    download_usage :=
                      <[key := {| du_requests := du_requests u; du_errors := du_errors u; du_denied := du_denied u;
                                  du_bytes := du_bytes u + bytes; du_upstream_bytes := du_upstream_bytes u |}]>
                        (download_usage l);
                  |} |})
    end.

(** ** Teams and their targets *)

Lemma insert_access_spec (g : Z) (codes : list string) (access access' : gset (Z * string)) :
  insert_access g codes access = Some access' ->
  forall h code, (h, code) ∈ access' <-> (h, code) ∈ access \/ (h = g /\ code ∈ codes).
Proof.
  revert access. induction codes as [|c codes IH]; intros access Hi h code; simpl in Hi.
  - simplify_eq. set_solver.
  - case_bool_decide; [done|]. rewrite (IH _ Hi). set_solver.
Qed.

Lemma is_billing_group_audit now actor action detail a g :
  is_billing_group (audit now actor action detail a) g = is_billing_group a g.
Proof. done. Qed.

(** A team restricted to some targets gets exactly those. After an
    administrator stores the list and puts a user in the team, the user may use
    a target if and only if the list is empty or names it. *)
Theorem team_targets (now now' g user : Z) (actor actor' mode code : string) (codes : list string)
    (limit : option Z) (a a1 a2 : Accounts) :
  set_group_target_access now actor g codes a = (Ok true, a1) ->
  set_user_billing_profile now' actor' user (Some g) mode limit a1 = (true, a2) ->
  user_target_allowed user code a2 = true <-> codes = [] \/ code ∈ codes.
Proof.
  unfold set_group_target_access, set_user_billing_profile, user_target_allowed. intros H1 H2.
  destruct (is_billing_group a g) eqn:Hg; cbn [negb] in H1; [|done].
  destruct (insert_access _ _ _) as [access|] eqn:Hi; [|done]. injection H1 as <-.
  pose proof (insert_access_spec _ _ _ _ Hi) as Hin.
  destruct (user_exists _ _); cbn [negb] in H2; [|done].
  match type of H2 with (if ?b then _ else _) = _ => destruct b eqn:Hb; [done|] end. injection H2 as <-.
  cbn [audit group_members group_target_access with_access groups is_billing_group]. rewrite lookup_insert_eq.
  unfold is_billing_group in *. cbn [audit groups with_access]. rewrite Hg.
  assert (Hcode : (g, code) ∈ access <-> code ∈ codes) by (rewrite Hin, elem_of_filter; simpl; naive_solver).
  rewrite orb_true_iff, Z.eqb_eq, Z.gtb_ltb.
  assert ((0 <? (if bool_decide ((g, code) ∈ access) then 1 else 0)) = bool_decide ((g, code) ∈ access)) as ->
    by (by case_bool_decide).
  rewrite bool_decide_eq_true, Hcode. apply or_iff_compat_r.
  assert (forall n : nat, Z.of_nat n = 0 <-> n = 0%nat) as -> by lia. rewrite size_empty_iff. split.
  - intros He. destruct codes as [|c codes]; [done|]. exfalso.
    assert ((g, c) ∈ filter (fun p => p.1 = g) access); [|set_solver].
    apply elem_of_filter. split; [done|]. apply Hin. set_solver.
  - intros ->. intros [h c]. rewrite elem_of_filter, Hin, elem_of_filter. simpl. set_solver.
Qed.

Definition sample_user : User.t := {|
  User.username := None; User.email := "u@mirror.test"; User.display_name := "U"; User.disabled := false;
  User.deleted_at := None; User.created_at := 0; User.updated_at := 0;
|}.

Definition one_user : Accounts := {|
  users := {[7 := sample_user]};
  groups := {[1 := {| Group.name := "team"; Group.kind := "billing" |}]};
  next_group_id := 2; group_members := ∅; group_quota_settings := ∅; group_target_access := ∅;
  user_quota_overrides := ∅; config_audit_log := [];
|}.

Definition npm_only : Accounts := (set_group_target_access 10 "admin" 1 ["npm"] one_user).2.
Definition npm_user : Accounts := (set_user_billing_profile 11 "admin" 7 (Some 1) "default" None npm_only).2.

Lemma team_targets_witness : user_target_allowed 7 "go" npm_user = true <-> ["npm"] = [] \/ "go" ∈ ["npm"].
Proof.
  apply (team_targets 10 11 1 7 "admin" "admin" "default" "go" ["npm"] None one_user npm_only npm_user).
  - unfold npm_only. destruct (set_group_target_access _ _ _ _ _) as [r a] eqn:E. simpl. f_equal.
    change r with (r, a).1. rewrite <- E. vm_compute. reflexivity.
  - unfold npm_user. destruct (set_user_billing_profile _ _ _ _ _ _ _) as [r a] eqn:E. simpl. f_equal.
    change r with (r, a).1. rewrite <- E. vm_compute. reflexivity.
Defined.
