(* ===== verification/Traffic.v ===== *)
(** * Traffic accounting of a proxied request

    [traffic.rs]: the guard [ProxyTraffic] owns the reservation of a request
    from its admission to the end of its response body.  Each of its methods is
    a function; the process is a sequence of steps that interleave the requests
    in flight, the detached settlement tasks, downloads, administrators and
    the loss of the process itself.  The theorems are about every such
    sequence. *)
From S2P Require Import Prelude RustStr Net Fs Geo Config Quota.
Open Scope string_scope.
Open Scope Z_scope.
Open Scope list_scope.
Open Scope mirror_scope.

(** [QUOTA_RESERVATION_BYTES]. *)
Definition QUOTA_RESERVATION_BYTES : Z := 8 * 1024 * 1024.

(** ** The guard *)

Record TrafficRecord : Type := {
  day : string; month : string; target_code : string; method : string; path : string;
  status_code : Z; response_bytes : Z; reserved_bytes : Z; accounting_multiplier : Z;
  user_id : option Z; group_id : option Z; request_event_retention_days : Z; location : GeoLocation;
}.

Definition set_group (g : option Z) (r : TrafficRecord) : TrafficRecord := {|
  day := day r; month := month r; target_code := target_code r; method := method r; path := path r;
  status_code := status_code r; response_bytes := response_bytes r; reserved_bytes := reserved_bytes r;
  accounting_multiplier := accounting_multiplier r; user_id := user_id r; group_id := g;
  request_event_retention_days := request_event_retention_days r; location := location r;
|}.

Definition set_reserved_bytes (bytes : Z) (r : TrafficRecord) : TrafficRecord := {|
  day := day r; month := month r; target_code := target_code r; method := method r; path := path r;
  status_code := status_code r; response_bytes := response_bytes r; reserved_bytes := bytes;
  accounting_multiplier := accounting_multiplier r; user_id := user_id r; group_id := group_id r;
  request_event_retention_days := request_event_retention_days r; location := location r;
|}.

(** What the response adds: its status, then the bytes of its body. *)
Definition set_progress (status bytes : Z) (r : TrafficRecord) : TrafficRecord := {|
  day := day r; month := month r; target_code := target_code r; method := method r; path := path r;
  status_code := status; response_bytes := bytes; reserved_bytes := reserved_bytes r;
  accounting_multiplier := accounting_multiplier r; user_id := user_id r; group_id := group_id r;
  request_event_retention_days := request_event_retention_days r; location := location r;
|}.

Record ProxyTraffic : Type := { record : option TrafficRecord; armed : bool }.

Definition new (day month target_code method path : string) (accounting_multiplier : Z) (user_id : option Z)
    (request_event_retention_days : Z) (location : GeoLocation) : ProxyTraffic := {|
  record := Some {|
    day := day; month := month; target_code := target_code; method := method; path := path;
    status_code := 499; response_bytes := 0; reserved_bytes := 0;
    accounting_multiplier := accounting_multiplier; user_id := user_id; group_id := None;
    request_event_retention_days := request_event_retention_days; location := location;
  |};
  armed := false;
|}.

(** A panic is the [expect] on a guard that is settled already. *)
Inductive ReservationError : Type := QuotaExceeded (scope : string) | Settled.

Definition reserve (global_limit default_user_limit : option Z) (bytes : Z) (self : ProxyTraffic) (db : Db) :
    result ProxyTraffic ReservationError * Db :=
  match record self with
  | None => (Err Settled, db)
  | Some r =>
      match user_id r with
      | Some user =>
          match try_reserve_hierarchical_bytes (month r) user global_limit default_user_limit bytes db with
          | (Reserved g, db) =>
              (Ok {| record := Some (set_reserved_bytes bytes (set_group g r)); armed := true |}, db)
          | (Exceeded scope, db) => (Err (QuotaExceeded scope), db)
          end
      | None =>
          match global_limit with
          | Some limit =>
              let '(ok, db) := try_reserve_monthly_bytes (month r) limit bytes db in
              if negb ok then (Err (QuotaExceeded "global"), db)
              else (Ok {| record := Some (set_reserved_bytes bytes r); armed := true |}, db)
          | None => (Ok {| record := Some r; armed := true |}, db)
          end
      end
  end.

(** The detached task of a settlement: what it will record. *)
Definition Task : Type := TrafficRecord * bool.

Definition settle (stream_error : bool) (self : ProxyTraffic) : ProxyTraffic * option Task :=
  if negb (armed self) then (self, None)
  else
    ({| record := None; armed := false |}, (fun r => (r, stream_error)) <$> record self).

(** What the task writes. *)
Definition task_record (t : Task) : ProxyTrafficRecord :=
  let '(r, stream_error) := t in {|
    r_day := day r; r_month := month r; r_target_code := target_code r; r_method := method r; r_path := path r;
    r_status_code := status_code r;
    r_response_bytes := sat_mul_u64 (response_bytes r) (accounting_multiplier r);
    r_delivered_response_bytes := response_bytes r;
    r_stream_error := stream_error; r_reserved_bytes := reserved_bytes r; r_user_id := user_id r;
    r_group_id := group_id r; r_request_event_retention_days := request_event_retention_days r;
    r_location := location r;
  |}.

(** [Drop]. *)
Definition drop_guard (self : ProxyTraffic) : ProxyTraffic * option Task := settle true self.

Definition is_bodyless (status : Z) : bool :=
  ((100 <=? status) && (status <? 200)) || (status =? 204) || (status =? 304).

(** The guard stays with the body unless there is none to be polled. *)
Definition track_proxy_response (status : Z) (traffic : ProxyTraffic) : ProxyTraffic * option Task :=
  match record traffic with
  | None => (traffic, None)
  | Some r =>
      let traffic := {| record := Some (set_progress status (response_bytes r) r); armed := armed traffic |} in
      if (method r =? "HEAD")%string || is_bodyless status then settle false traffic else (traffic, None)
  end.

(** One poll of the tracked body. *)
Inductive Poll : Type := Chunk (len : Z) | BodyError | BodyEnd.

Definition poll_body (p : Poll) (traffic : ProxyTraffic) : ProxyTraffic * option Task :=
  match p with
  | Chunk len =>
      ({| record := (fun r => set_progress (status_code r) (sat_add_u64 (response_bytes r) len) r) <$> record traffic;
          armed := armed traffic |}, None)
  | BodyError => settle true traffic
  | BodyEnd => settle false traffic
  end.

(** ** Public quota status *)

(** The totals are [None] when the database fails. *)
Definition public_quota_status (totals : option (Z * Z)) (config : Config.t) : string :=
  if negb (QuotaConfig.enabled (Config.quota config)) then "available"
  else match totals with
  | None => "unavailable"
  | Some (billed, reserved) =>
    let limit := Z.min (sat_mul_u64 (QuotaConfig.monthly_gb (Config.quota config)) (1024 * 1024 * 1024)) I64_MAX in
    let reservation := sat_mul_u64 QUOTA_RESERVATION_BYTES (multiplier config) in
    if billed >=? limit then "exhausted"
    else if sat_add_u64 (sat_add_u64 billed reserved) reservation >? limit then "reserved"
    else "available"
  end.

(** ** The process

    [guards] are the requests admitted so far, each with its guard; [tasks] are
    the spawned settlements.  [lost], [settled] and [admissions] record the
    history: reservations nobody will settle any more, what was written to the
    ledger, and how many requests were admitted. *)

(** What a request or a download puts on the accounts of a month. *)
Record Holding : Type := {
  h_month : string; h_user : option Z; h_group : option Z;
  h_proxied : bool; h_requests : Z; h_billed : Z; h_reserved : Z;
}.

Definition holding (r : TrafficRecord) : Holding := {|
  h_month := month r; h_user := user_id r; h_group := group_id r; h_proxied := true; h_requests := 1;
  h_billed := limit_to_i64 (sat_mul_u64 (response_bytes r) (accounting_multiplier r));
  h_reserved := limit_to_i64 (reserved_bytes r);
|}.

(** A download is billed in the same step that checks the limits, as if what it
    bills had been reserved. *)
Definition download_holding (a : Accounts) (month : string) (user requests billed : Z) : Holding := {|
  h_month := month; h_user := Some user; h_group := group_members a !! user; h_proxied := false;
  h_requests := requests; h_billed := billed; h_reserved := billed;
|}.

Record Sys : Type := {
  db : Db; guards : list ProxyTraffic; tasks : list Task;
  lost : list TrafficRecord; settled : list Holding; admissions : nat;
}.

Definition init (a : Accounts) : Sys := {|
  db := {| accounts := a; ledger := empty_ledger |};
  guards := []; tasks := []; lost := []; settled := []; admissions := 0;
|}.

Inductive Event : Type :=
| Admit (day month target_code method path : string) (accounting_multiplier : Z) (user_id : option Z)
    (request_event_retention_days : Z) (location : GeoLocation) (global_limit default_user_limit : option Z)
    (bytes : Z)
| Respond (i : nat) (status : Z)
| PollBody (i : nat) (p : Poll)
| DropGuard (i : nat)
| RunTask (i : nat) (now : Z)
(** the write of the task fails *)
| FailTask (i : nat)
(** the process ends: guards and tasks are gone, the database stays *)
| Crash
| Download (user : Z) (domain entry : string) (bytes : Z) (config : Config.t) (daily_day day month : string)
| DownloadRequest (user : Z) (domain entry : string) (error denied : bool) (daily_day cutoff day month : string)
| MarkExceeded (month : string)
(** an administrator or user changes the accounts *)
| Administer (a : Accounts).

Definition set_db (db : Db) (st : Sys) : Sys := {|
  db := db; guards := guards st; tasks := tasks st; lost := lost st; settled := settled st;
  admissions := admissions st;
|}.

Definition advance (i : nat) (f : ProxyTraffic -> ProxyTraffic * option Task) (st : Sys) : Sys :=
  match guards st !! i with
  | None => st
  | Some g =>
      let '(g, t) := f g in
      {| db := db st; guards := <[i := g]> (guards st); tasks := tasks st ++ option_list t; lost := lost st;
         settled := settled st; admissions := admissions st |}
  end.

(** The records of armed guards. *)
Definition active (g : ProxyTraffic) : option TrafficRecord := if armed g then record g else None.

Definition step (st : Sys) (e : Event) : Sys :=
  match e with
  | Admit day month target_code method path accounting_multiplier user_id retention location global_limit
      default_user_limit bytes =>
      match reserve global_limit default_user_limit bytes
              (new day month target_code method path accounting_multiplier user_id retention location) (db st) with
      | (Ok guard, db) =>
          {| db := db; guards := guards st ++ [guard]; tasks := tasks st; lost := lost st; settled := settled st;
             admissions := S (admissions st) |}
      | (Err _, db) => set_db db st
      end
  | Respond i status => advance i (track_proxy_response status) st
  | PollBody i p => advance i (poll_body p) st
  | DropGuard i => advance i drop_guard st
  | RunTask i now =>
      match tasks st !! i with
      | None => st
      | Some t =>
          {| db := record_proxy_response now (task_record t) (db st); guards := guards st;
             tasks := delete i (tasks st); lost := lost st; settled := holding t.1 :: settled st;
             admissions := admissions st |}
      end
  | FailTask i =>
      match tasks st !! i with
      | None => st
      | Some t =>
          {| db := db st; guards := guards st; tasks := delete i (tasks st); lost := t.1 :: lost st;
             settled := settled st; admissions := admissions st |}
      end
  | Crash =>
      {| db := db st; guards := []; tasks := []; lost := omap active (guards st) ++ (tasks st).*1 ++ lost st;
         settled := settled st; admissions := admissions st |}
  | Download user domain entry bytes config daily_day day month =>
      let '(ok, d) := charge_download user domain entry bytes config daily_day day month (db st) in
      {| db := d; guards := guards st; tasks := tasks st; lost := lost st;
         settled := if ok
                    then download_holding (accounts (db st)) month user 0 (limit_to_i64 (bytes * multiplier config))
                         :: settled st
                    else settled st;
         admissions := admissions st |}
  | DownloadRequest user domain entry error denied daily_day cutoff day month =>
      {| db := download_event user domain entry error denied daily_day cutoff day month (db st);
         guards := guards st; tasks := tasks st; lost := lost st;
         settled := download_holding (accounts (db st)) month user 1 0 :: settled st; admissions := admissions st |}
  | MarkExceeded month => set_db (mark_month_quota_exceeded month (db st)) st
  | Administer a => set_db {| accounts := a; ledger := ledger (db st) |} st
  end.

Definition run (events : list Event) (st : Sys) : Sys := fold_left step events st.

(** The reservations that are held: in flight, about to be settled, or lost. *)
Definition held (st : Sys) : list TrafficRecord := omap active (guards st) ++ (tasks st).*1 ++ lost st.

(** Reservations and downloads are a [u64] of bytes. *)
Definition valid (e : Event) : Prop :=
  match e with
  | Admit _ _ _ _ _ _ _ _ _ _ _ bytes => 0 <= bytes
  | Download _ _ _ bytes _ _ _ _ => 0 <= bytes
  | _ => True
  end.

(** ** Sums over what is held *)

Fixpoint total {A} (f : A -> Z) (l : list A) : Z :=
  match l with [] => 0 | x :: l => f x + total f l end.

Lemma total_app {A} (f : A -> Z) (l k : list A) : total f (l ++ k) = total f l + total f k.
Proof. induction l; simpl; lia. Qed.

Lemma total_perm {A} (f : A -> Z) (l k : list A) : l ≡ₚ k -> total f l = total f k.
Proof. induction 1; simpl; lia. Qed.

Lemma total_nonneg {A} (f : A -> Z) (l : list A) : Forall (fun x => 0 <= f x) l -> 0 <= total f l.
Proof. induction 1; simpl; lia. Qed.

Lemma omap_insert_perm {A B} (f : A -> option B) (l : list A) (i : nat) (x y : A) :
  l !! i = Some x ->
  exists rest, omap f l ≡ₚ option_list (f x) ++ rest /\ omap f (<[i := y]> l) ≡ₚ option_list (f y) ++ rest.
Proof.
  intros Hi. exists (omap f (take i l) ++ omap f (drop (S i) l)).
  pose proof (take_drop_middle l i x Hi) as Hl.
  assert (Hlen : length (take i l) = i) by (apply length_take_le; apply lookup_lt_Some in Hi; lia).
  split.
  - rewrite <- Hl at 1. rewrite omap_app. simpl. destruct (f x); simpl; [|done]. apply Permutation_sym, Permutation_middle.
  - rewrite insert_take_drop by (by eapply lookup_lt_Some). rewrite omap_app. simpl.
    destruct (f y); simpl; [|done]. apply Permutation_sym, Permutation_middle.
Qed.

(** ** Rows *)

Section Rows.
Context {K : Type} `{Countable K}.
Implicit Types (table : gmap K Usage.t) (k : K).

Lemma row_insert k k' (u : Usage.t) table : row (<[k := u]> table) k' = if decide (k' = k) then u else row table k'.
Proof.
  unfold row. destruct (decide (k' = k)) as [->|Hne]; [by rewrite lookup_insert_eq|by rewrite lookup_insert_ne].
Qed.

Lemma row_insert_or_ignore k k' table : row (insert_or_ignore k table) k' = row table k'.
Proof.
  unfold insert_or_ignore. destruct (table !! k) eqn:Hk; [done|]. rewrite row_insert.
  destruct (decide (k' = k)) as [->|]; [|done]. unfold row. by rewrite Hk.
Qed.

Lemma insert_or_ignore_present k table : is_Some (insert_or_ignore k table !! k).
Proof. unfold insert_or_ignore. destruct (table !! k) eqn:Hk; [by rewrite Hk|by rewrite lookup_insert_eq]. Qed.

(** An accepted reservation, its condition, and a refused one. *)
Lemma reserve_row_spec limit bytes k table table' ok :
  reserve_row limit bytes k (insert_or_ignore k table) = (table', ok) ->
  let u := row table k in
  let fits := match limit with
              | Some l => Usage.response_bytes u + Usage.reserved_bytes u + bytes <= l
              | None => True
              end in
  if ok
  then fits /\ (forall k', row table' k' =
         if decide (k' = k) then Usage.set_reserved (Usage.reserved_bytes u + bytes) u else row table k')
  else ~ fits /\ (forall k', row table' k' = row table k').
Proof.
  intros Hr u. assert (Hu : insert_or_ignore k table !! k = Some u).
  { destruct (insert_or_ignore_present k table) as [v Hv]. rewrite Hv. f_equal.
    unfold u. rewrite <- (row_insert_or_ignore k k). unfold row at 1. by rewrite Hv. }
  unfold reserve_row in Hr. rewrite Hu in Hr. destruct limit as [l|].
  - destruct (Z.leb_spec (Usage.response_bytes u + Usage.reserved_bytes u + bytes) l); simplify_eq;
      (split; [lia|]); intros k'; rewrite ?row_insert, row_insert_or_ignore; done.
  - simplify_eq. split; [done|]. intros k'. by rewrite row_insert, row_insert_or_ignore.
Qed.

Lemma charge_row_spec limit bytes k table table' ok :
  charge_row limit bytes k (insert_or_ignore k table) = (table', ok) ->
  let u := row table k in
  if ok
  then Usage.response_bytes u + Usage.reserved_bytes u + bytes <= limit /\
       (forall k', row table' k' = if decide (k' = k) then Usage.add 0 bytes 0 0 u else row table k')
  else limit < Usage.response_bytes u + Usage.reserved_bytes u + bytes /\ (forall k', row table' k' = row table k').
Proof.
  intros Hr u. assert (Hu : insert_or_ignore k table !! k = Some u).
  { destruct (insert_or_ignore_present k table) as [v Hv]. rewrite Hv. f_equal.
    unfold u. rewrite <- (row_insert_or_ignore k k). unfold row at 1. by rewrite Hv. }
  unfold charge_row in Hr. rewrite Hu in Hr.
  destruct (Z.leb_spec (Usage.response_bytes u + Usage.reserved_bytes u + bytes) limit); simplify_eq;
    (split; [lia|]); intros k'; rewrite ?row_insert, row_insert_or_ignore; done.
Qed.

(** A settlement gives back exactly what is reserved, if that much is. *)
Lemma row_settle bytes errors reserved k k' table :
  0 <= reserved <= Usage.reserved_bytes (row table k) ->
  row (settle_row bytes errors reserved k table) k' =
  if decide (k' = k)
  then Usage.set_reserved (Usage.reserved_bytes (row table k) - reserved) (Usage.add 1 bytes 0 errors (row table k))
  else row table k'.
Proof.
  intros Hr. unfold settle_row. rewrite row_insert. destruct (decide (k' = k)); [|done].
  unfold row in *. destruct (table !! k) as [u|]; simpl in *.
  - by rewrite Z.max_r by lia.
  - by replace reserved with 0 by lia.
Qed.
End Rows.

(** ** What the rows of a table are the sum of *)

Definition scope_month (h : Holding) : option string := Some (h_month h).
Definition scope_user (h : Holding) : option (string * Z) := (fun u => (h_month h, u)) <$> h_user h.
Definition scope_group (h : Holding) : option (string * Z) := (fun g => (h_month h, g)) <$> h_group h.

Section Tracked.
Context {K : Type} `{Countable K} (scope : Holding -> option K).

Definition amount (what : Holding -> Z) (k : K) (h : Holding) : Z :=
  if decide (scope h = Some k) then what h else 0.

(** The rows of [table] are the sums over what is held and what was settled. *)
Definition tracked (table : gmap K Usage.t) (A S : list Holding) : Prop := forall k,
  Usage.reserved_bytes (row table k) = total (amount h_reserved k) A /\
  Usage.response_bytes (row table k) = total (amount h_billed k) S /\
  Usage.request_count (row table k) = total (amount h_requests k) S.

Lemma tracked_ext table table' A S :
  tracked table A S -> (forall k, row table' k = row table k) -> tracked table' A S.
Proof. intros Ht Hr k. rewrite Hr. apply Ht. Qed.

Lemma tracked_perm table A A' S : A ≡ₚ A' -> tracked table A S -> tracked table A' S.
Proof. intros Hp Ht k. rewrite <- (total_perm _ _ _ Hp). apply Ht. Qed.

Lemma amount_none what k h : scope h = None -> amount what k h = 0.
Proof. unfold amount. intros ->. by destruct (decide _). Qed.

Lemma amount_some what k k' h : scope h = Some k -> amount what k' h = if decide (k' = k) then what h else 0.
Proof.
  unfold amount. intros ->. destruct (decide (k' = k)) as [->|]; [by rewrite decide_True|].
  by rewrite decide_False by congruence.
Qed.

Lemma amount_zero what k h : what h = 0 -> amount what k h = 0.
Proof. unfold amount. intros ->. by destruct (decide _). Qed.

Lemma tracked_hold table A S h :
  scope h = None \/ h_reserved h = 0 -> tracked table A S -> tracked table (h :: A) S.
Proof.
  intros Hh Ht k. simpl.
  assert (amount h_reserved k h = 0) as -> by (destruct Hh; [by apply amount_none|by apply amount_zero]). apply Ht.
Qed.

Lemma tracked_reserve table table' A S h k b :
  tracked table A S -> scope h = Some k -> h_reserved h = b ->
  (forall k', row table' k' = if decide (k' = k)
     then Usage.set_reserved (Usage.reserved_bytes (row table k) + b) (row table k) else row table k') ->
  tracked table' (h :: A) S.
Proof.
  intros Ht Hs Hb Hr k'. specialize (Ht k'). rewrite Hr. simpl. rewrite (amount_some _ _ _ _ Hs).
  destruct (decide (k' = k)) as [->|Hne]; simpl; lia.
Qed.

Lemma tracked_settle table A S h h' k e :
  tracked table (h :: A) S -> Forall (fun x => 0 <= h_reserved x) (h :: A) ->
  scope h = Some k -> scope h' = Some k -> h_requests h' = 1 ->
  tracked (settle_row (h_billed h') e (h_reserved h) k table) A (h' :: S).
Proof.
  intros Ht Hn Hs Hs' Hq k'. apply Forall_cons in Hn as [Hh Hn].
  assert (Hge : 0 <= h_reserved h <= Usage.reserved_bytes (row table k)).
  { split; [done|]. destruct (Ht k) as [-> _]. simpl. rewrite (amount_some _ _ _ _ Hs), decide_True by done.
    assert (0 <= total (amount h_reserved k) A); [|lia]. apply total_nonneg.
    eapply Forall_impl; [exact Hn|]. intros x Hx. unfold amount. by destruct (decide _). }
  rewrite row_settle by done. specialize (Ht k'). simpl in *. rewrite (amount_some _ _ _ _ Hs) in Ht.
  rewrite !(amount_some _ _ _ _ Hs'). destruct (decide (k' = k)) as [->|Hne]; simpl; lia.
Qed.

Lemma tracked_settle_none table A S h h' :
  scope h = None -> scope h' = None -> tracked table (h :: A) S -> tracked table A (h' :: S).
Proof. intros Hs Hs' Ht k. specialize (Ht k). simpl in *. rewrite amount_none in Ht by done. by rewrite !amount_none by done. Qed.

Lemma tracked_bill table table' A S h k errors :
  tracked table A S -> scope h = Some k ->
  (forall k', row table' k' = if decide (k' = k)
     then Usage.add (h_requests h) (h_billed h) 0 errors (row table k) else row table k') ->
  tracked table' A (h :: S).
Proof.
  intros Ht Hs Hr k'. specialize (Ht k'). rewrite Hr. simpl. rewrite !(amount_some _ _ _ _ Hs).
  destruct (decide (k' = k)) as [->|Hne]; simpl; lia.
Qed.

Lemma tracked_bill_none table A S h : scope h = None -> tracked table A S -> tracked table A (h :: S).
Proof. intros Hs Ht k. specialize (Ht k). simpl. by rewrite !amount_none by done. Qed.
End Tracked.

(** ** The whole ledger *)

(** What a request in flight holds, which its progress does not change. *)
Definition reservation (r : TrafficRecord) : Holding := holding (set_progress 0 0 r).

Definition ledger_tracked (l : Ledger) (A S : list Holding) : Prop :=
  tracked scope_month (traffic_monthly l) A S /\
  tracked scope_user (user_traffic_monthly l) A S /\
  tracked scope_group (group_traffic_monthly l) A S.

Lemma ledger_tracked_perm l A A' S : A ≡ₚ A' -> ledger_tracked l A S -> ledger_tracked l A' S.
Proof. intros Hp (Hm & Hu & Hg). split_and!; by eapply tracked_perm. Qed.

(** The three tables after an accepted or refused reservation. *)
Lemma reserve_tracked limit default_limit bytes (g : ProxyTraffic) (r : TrafficRecord) (d d' : Db) res A S :
  ledger_tracked (ledger d) A S -> record g = Some r -> reserved_bytes r = 0 -> group_id r = None ->
  reserve limit default_limit bytes g d = (res, d') ->
  match res with
  | Ok g' => armed g' = true /\ exists r', record g' = Some r' /\ reserved_bytes r' ∈ [0; bytes] /\
      ledger_tracked (ledger d') (reservation r' :: A) S
  | Err _ => ledger_tracked (ledger d') A S
  end.
Proof.
  intros (Hm & Hu & Hg) Hrec Hz Hn Hres. unfold reserve in Hres. rewrite Hrec in Hres.
  destruct (user_id r) as [user|] eqn:Huser.
  - unfold try_reserve_hierarchical_bytes in Hres.
    destruct (billing_profile _ _) as [profile|]; [|by simplify_eq].
    destruct (reserve_row _ _ (month r) _) as [tm okm] eqn:Em. apply reserve_row_spec in Em.
    destruct okm; cbn [negb] in Hres; [|by simplify_eq].
    destruct (reserve_row _ _ (month r, user) _) as [tu oku] eqn:Eu. apply reserve_row_spec in Eu.
    destruct oku; cbn [negb] in Hres; [|by simplify_eq].
    destruct Em as [_ Em], Eu as [_ Eu]. destruct (p_group profile) as [group|].
    + destruct (reserve_row _ _ (month r, group) _) as [tg okg] eqn:Eg. apply reserve_row_spec in Eg.
      destruct okg; cbn [negb] in Hres; [|by simplify_eq]. destruct Eg as [_ Eg]. simplify_eq.
      split; [done|]. eexists. split_and!; [done|set_solver|unfold ledger_tracked; split_and!]; cbn [ledger with_monthly].
      * by eapply (tracked_reserve scope_month); [done| | |exact Em].
      * eapply (tracked_reserve scope_user); [done| | |exact Eu]; [|done]. unfold scope_user. simpl. by rewrite Huser.
      * by eapply (tracked_reserve scope_group); [done| | |exact Eg].
    + simplify_eq. split; [done|]. eexists. split_and!; [done|set_solver|unfold ledger_tracked; split_and!]; cbn [ledger with_monthly].
      * by eapply (tracked_reserve scope_month); [done| | |exact Em].
      * eapply (tracked_reserve scope_user); [done| | |exact Eu]; [|done]. unfold scope_user. simpl. by rewrite Huser.
      * apply tracked_hold; [by left|done].
  - destruct limit as [limit|].
    + unfold try_reserve_monthly_bytes in Hres.
      destruct (reserve_row _ _ (month r) _) as [tm okm] eqn:Em. apply reserve_row_spec in Em.
      destruct okm, Em as [_ Em]; cbn [negb] in Hres; simplify_eq.
      * split; [done|]. eexists. split_and!; [done|set_solver|unfold ledger_tracked; split_and!]; cbn [ledger with_monthly].
        -- by eapply (tracked_reserve scope_month); [done| | |exact Em].
        -- apply tracked_hold; [|done]. left. unfold scope_user. simpl. by rewrite Huser.
        -- apply tracked_hold; [|done]. left. unfold scope_group. simpl. by rewrite Hn.
      * unfold ledger_tracked; split_and!; cbn [ledger with_monthly]; [by eapply tracked_ext|done|done].
    + simplify_eq. split; [done|]. exists r. split_and!; [done|set_solver|unfold ledger_tracked; split_and!]; apply tracked_hold; try done;
        right; unfold reservation, holding; simpl; by rewrite Hz.
Qed.

Lemma reservation_scopes (r : TrafficRecord) :
  scope_month (reservation r) = scope_month (holding r) /\ scope_user (reservation r) = scope_user (holding r) /\
  scope_group (reservation r) = scope_group (holding r).
Proof. done. Qed.

Lemma record_tracked now r e d A S :
  ledger_tracked (ledger d) (reservation r :: A) S -> Forall (fun x => 0 <= h_reserved x) (reservation r :: A) ->
  ledger_tracked (ledger (record_proxy_response now (task_record (r, e)) d)) A (holding r :: S).
Proof.
  intros (Hm & Hu & Hg) Hn. unfold record_proxy_response, country_bucket, ledger_tracked. cbn -[Z.mul].
  split_and!.
  - by apply (tracked_settle scope_month _ _ _ (reservation r) (holding r) (month r)).
  - destruct (user_id r) as [u|] eqn:Hr.
    + apply (tracked_settle scope_user _ _ _ (reservation r) (holding r) (month r, u)); try done;
        unfold scope_user; simpl; by rewrite Hr.
    + eapply tracked_settle_none; [| |exact Hu]; unfold scope_user; simpl; by rewrite Hr.
  - destruct (group_id r) as [g|] eqn:Hr.
    + apply (tracked_settle scope_group _ _ _ (reservation r) (holding r) (month r, g)); try done;
        unfold scope_group; simpl; by rewrite Hr.
    + eapply tracked_settle_none; [| |exact Hg]; unfold scope_group; simpl; by rewrite Hr.
Qed.

Lemma charge_tracked user domain entry bytes config daily_day dy mo d ok d' A S :
  ledger_tracked (ledger d) A S ->
  charge_download user domain entry bytes config daily_day dy mo d = (ok, d') ->
  ledger_tracked (ledger d') A
    (if ok then download_holding (accounts d) mo user 0 (limit_to_i64 (bytes * multiplier config)) :: S else S).
Proof.
  intros Ht. destruct Ht as (Hm & Hu & Hg). unfold charge_download.
  set (billed := limit_to_i64 (bytes * multiplier config)). cbv zeta.
  destruct (_ >? _); [by intros [= <- <-]|].
  destruct (download_profile (accounts d) user) as [profile|] eqn:Hp; [|by intros [= <- <-]].
  destruct (charge_row _ _ mo _) as [tm okm] eqn:Em. apply charge_row_spec in Em.
  destruct okm; cbn [negb]; [|by intros [= <- <-]].
  destruct (charge_row _ _ (mo, user) _) as [tu oku] eqn:Eu. apply charge_row_spec in Eu.
  destruct oku; cbn [negb]; [|by intros [= <- <-]]. destruct Em as [_ Em], Eu as [_ Eu].
  assert (Hgroup : p_group profile = group_members (accounts d) !! user).
  { unfold download_profile in Hp. destruct (billing_profile _ _); [|done]. by injection Hp as <-. }
  destruct (p_group profile) as [g|].
  - destruct (charge_row _ _ (mo, g) _) as [tg okg] eqn:Eg. apply charge_row_spec in Eg.
    destruct okg; cbn [negb]; [|by intros [= <- <-]]. destruct Eg as [_ Eg]. intros [= <- <-].
    split_and!; cbn [ledger traffic_monthly user_traffic_monthly group_traffic_monthly].
    + by eapply (tracked_bill scope_month); [exact Hm| |exact Em].
    + by eapply (tracked_bill scope_user); [exact Hu| |exact Eu].
    + eapply (tracked_bill scope_group); [exact Hg| |exact Eg]. unfold scope_group. simpl. by rewrite <- Hgroup.
  - cbn [negb]. intros [= <- <-]. split_and!; cbn [ledger traffic_monthly user_traffic_monthly group_traffic_monthly].
    + by eapply (tracked_bill scope_month); [exact Hm| |exact Em].
    + by eapply (tracked_bill scope_user); [exact Hu| |exact Eu].
    + apply tracked_bill_none; [|done]. unfold scope_group. simpl. by rewrite <- Hgroup.
Qed.

Lemma row_upsert {K} `{Countable K} requests bytes billed errors (k k' : K) (table : gmap K Usage.t) :
  row (upsert requests bytes billed errors k table) k' =
  if decide (k' = k) then Usage.add requests bytes billed errors (row table k) else row table k'.
Proof. apply row_insert. Qed.

Lemma event_tracked user domain entry error denied daily_day cutoff dy mo d A S :
  ledger_tracked (ledger d) A S ->
  ledger_tracked (ledger (download_event user domain entry error denied daily_day cutoff dy mo d)) A
    (download_holding (accounts d) mo user 1 0 :: S).
Proof.
  intros (Hm & Hu & Hg). unfold download_event, ledger_tracked. cbn -[upsert]. split_and!.
  - eapply (tracked_bill scope_month _ _ _ _ _ mo); [exact Hm|done|intros k'; apply row_upsert].
  - eapply (tracked_bill scope_user _ _ _ _ _ (mo, user)); [exact Hu|done|intros k'; apply row_upsert].
  - destruct (group_members (accounts d) !! user) as [g|] eqn:Hr.
    + eapply (tracked_bill scope_group _ _ _ _ _ (mo, g)); [exact Hg| |intros k'; apply row_upsert].
      unfold scope_group. simpl. by rewrite Hr.
    + apply tracked_bill_none; [|done]. unfold scope_group. simpl. by rewrite Hr.
Qed.

Lemma mark_tracked mo d A S :
  ledger_tracked (ledger d) A S -> ledger_tracked (ledger (mark_month_quota_exceeded mo d)) A S.
Proof.
  intros (Hm & Hu & Hg). split_and!; cbn [ledger mark_month_quota_exceeded with_monthly traffic_monthly
    user_traffic_monthly group_traffic_monthly]; [|done|done].
  intros k. rewrite row_insert. destruct (decide (k = mo)) as [->|]; [|by apply Hm]. simpl. by apply Hm.
Qed.

(** ** Requests in flight *)

(** A method of the guard keeps what is reserved: in the guard or in the task. *)
Definition preserves (f : ProxyTraffic -> ProxyTraffic * option Task) : Prop := forall g g' t,
  (armed g = true -> is_Some (record g)) -> f g = (g', t) ->
  (armed g' = true -> is_Some (record g')) /\
  reservation <$> option_list (active g') ++ (option_list t).*1 = reservation <$> option_list (active g).

Lemma settle_preserves (e : bool) : preserves (settle e).
Proof.
  intros g g' t Hg. unfold settle. destruct (armed g) eqn:Ha; cbn [negb]; intros [= <- <-]; split.
  - done.
  - unfold active. rewrite Ha. by destruct (Hg eq_refl) as [r ->].
  - by rewrite Ha.
  - by rewrite app_nil_r.
Qed.

Lemma track_preserves (status : Z) : preserves (track_proxy_response status).
Proof.
  intros g g' t Hg. unfold track_proxy_response. destruct (record g) as [r|] eqn:Hr.
  - case_bool.
    + intros Hs. assert (Hset : armed {| record := Some (set_progress status (response_bytes r) r); armed := armed g |}
        = true -> is_Some (record {| record := Some (set_progress status (response_bytes r) r); armed := armed g |}))
        by done.
      destruct (settle_preserves false _ g' t Hset Hs) as [H1 H2]. split; [done|]. rewrite H2.
      unfold active. simpl. rewrite Hr. by destruct (armed g).
    + intros [= <- <-]. split; [done|]. rewrite app_nil_r. unfold active. simpl. rewrite Hr. by destruct (armed g).
  - intros [= <- <-]. rewrite Hr, app_nil_r. split; [done|]. done.
Qed.

Lemma poll_preserves (p : Poll) : preserves (poll_body p).
Proof.
  destruct p as [len| |]; [|apply settle_preserves|apply settle_preserves].
  intros g g' t Hg [= <- <-]. split.
  - intros Ha. destruct (Hg Ha) as [r Hr]. simpl in *. rewrite Hr. by eexists.
  - rewrite app_nil_r. unfold active. simpl. destruct (armed g); [|done]. by destruct (record g).
Qed.

Lemma advance_held (i : nat) f (st : Sys) :
  preserves f -> Forall (fun g => armed g = true -> is_Some (record g)) (guards st) ->
  reservation <$> held (advance i f st) ≡ₚ reservation <$> held st /\
  Forall (fun g => armed g = true -> is_Some (record g)) (guards (advance i f st)).
Proof.
  intros Hf Hall. unfold advance. destruct (guards st !! i) as [g|] eqn:Hi; [|done].
  destruct (f g) as [g' t] eqn:Hg. assert (Hgi : armed g = true -> is_Some (record g)).
  { rewrite Forall_lookup in Hall. by eapply Hall. }
  destruct (Hf g g' t Hgi Hg) as [Hg' Hkeep]. split.
  - unfold held. cbn [guards tasks lost].
    destruct (omap_insert_perm active (guards st) i g g' Hi) as (rest & Hb & Ha). rewrite Ha, Hb.
    rewrite !fmap_app in Hkeep. rewrite !fmap_app. rewrite <- Hkeep. solve_Permutation.
  - cbn [guards]. apply Forall_insert; done.
Qed.

(** ** The invariant of the process *)

Definition proxied (S : list Holding) : list Holding := filter (fun h => h_proxied h = true) S.

Lemma proxied_holding (r : TrafficRecord) (S : list Holding) : proxied (holding r :: S) = holding r :: proxied S.
Proof. done. Qed.

Record inv (st : Sys) : Prop := {
  inv_ledger : ledger_tracked (ledger (db st)) (reservation <$> held st) (settled st);
  inv_nonneg : Forall (fun x => 0 <= h_reserved x) (reservation <$> held st);
  inv_guards : Forall (fun g => armed g = true -> is_Some (record g)) (guards st);
  inv_count : admissions st = (length (held st) + length (proxied (settled st)))%nat;
}.

Lemma init_inv (a : Accounts) : inv (init a).
Proof.
  split; [|by apply Forall_nil_2|by apply Forall_nil_2|done].
  split_and!; intros k; unfold row; cbn [init db ledger empty_ledger traffic_monthly user_traffic_monthly
    group_traffic_monthly]; by rewrite lookup_empty.
Qed.

(** Steps that keep what is held, up to order, and what was settled. *)
Lemma inv_same_held (st st' : Sys) :
  inv st -> reservation <$> held st' ≡ₚ reservation <$> held st -> settled st' = settled st ->
  admissions st' = admissions st -> Forall (fun g => armed g = true -> is_Some (record g)) (guards st') ->
  (forall A S, ledger_tracked (ledger (db st)) A S -> ledger_tracked (ledger (db st')) A S) -> inv st'.
Proof.
  intros [Hl Hn Hg Hc] Hp Hs Ha Hg' Hd. split; [| |done|].
  - rewrite Hs. eapply ledger_tracked_perm; [by symmetry|]. by apply Hd.
  - by rewrite Hp.
  - apply Permutation_length in Hp. rewrite !length_fmap in Hp. by rewrite Ha, Hs, Hp, Hc.
Qed.

Lemma advance_inv i f st : preserves f -> inv st -> inv (advance i f st).
Proof.
  intros Hf Hinv. destruct (advance_held i f st Hf (inv_guards st Hinv)) as [Hp Hg].
  eapply inv_same_held; [done|done| | |done|]; unfold advance in *; destruct (guards st !! i); try done;
    by destruct (f _).
Qed.

(** The steps that take a task out of the queue. *)
Lemma task_held st i t :
  tasks st !! i = Some t ->
  held st ≡ₚ t.1 :: omap active (guards st) ++ (delete i (tasks st)).*1 ++ lost st.
Proof.
  intros Ht. unfold held. rewrite (delete_Permutation (tasks st) i t Ht) at 1.
  rewrite fmap_cons. solve_Permutation.
Qed.

Lemma step_inv (st : Sys) (e : Event) : valid e -> inv st -> inv (step st e).
Proof.
  intros Hv Hinv. destruct e as [dy mo tc me pa mult u ret loc gl dl bytes|i status|i p|i|i now|i| |
    user domain entry bytes config daily_day dy mo|user domain entry error denied daily_day cutoff dy mo|mo|a];
    cbn [step].
  - destruct Hinv as [Hl Hn Hg Hc]. destruct (reserve _ _ _ _ _) as [res d] eqn:Hr.
    eapply reserve_tracked in Hr; [|exact Hl|reflexivity|reflexivity|reflexivity].
    destruct res as [g|].
    + destruct Hr as (Ha & r & Hrec & Hb & Ht).
      assert (Hheld : omap active (guards st ++ [g]) ++ (tasks st).*1 ++ lost st ≡ₚ r :: held st).
      { rewrite omap_app. simpl. assert (active g = Some r) as -> by (unfold active; by rewrite Ha).
        unfold held. solve_Permutation. }
      split; unfold held; cbn [db guards tasks lost settled admissions].
      * eapply ledger_tracked_perm; [|exact Ht]. by rewrite Hheld.
      * rewrite Hheld. rewrite fmap_cons. constructor; [|done]. simpl.
        cbn [valid] in Hv. assert (reserved_bytes r = 0 \/ reserved_bytes r = bytes) by set_solver.
        unfold limit_to_i64. apply u64_to_i64_max_nonneg. lia.
      * apply Forall_app. split; [done|]. apply Forall_singleton. intros _. by rewrite Hrec.
      * rewrite Hheld. simpl. by rewrite Hc.
    + by split.
  - apply advance_inv; [apply track_preserves|done].
  - apply advance_inv; [apply poll_preserves|done].
  - apply advance_inv; [apply settle_preserves|done].
  - destruct (tasks st !! i) as [[r e]|] eqn:Ht; [|done]. destruct Hinv as [Hl Hn Hg Hc].
    pose proof (task_held st i _ Ht) as Hp. split; cbn [db guards tasks lost settled admissions]; [| |done|].
    + apply record_tracked; [|by rewrite Hp in Hn]. eapply ledger_tracked_perm; [|exact Hl]. by rewrite Hp.
    + rewrite Hp in Hn. rewrite fmap_cons in Hn. by apply Forall_cons in Hn as [_ Hn].
    + rewrite Hc, (Permutation_length Hp). unfold held. cbn [guards tasks lost length fst].
      rewrite proxied_holding. simpl. lia.
  - destruct (tasks st !! i) as [t|] eqn:Ht; [|done]. pose proof (task_held st i _ Ht) as Hp.
    eapply inv_same_held; [done| |done|done|apply Hinv|done]. rewrite Hp. unfold held. cbn [guards tasks lost].
    apply fmap_Permutation. solve_Permutation.
  - eapply inv_same_held; [done| |done|done|by apply Forall_nil_2|done]. done.
  - destruct Hinv as [Hl Hn Hg Hc]. destruct (charge_download _ _ _ _ _ _ _ _ _) as [ok d] eqn:Hr.
    eapply charge_tracked in Hr; [|exact Hl]. split; cbn [db guards tasks lost settled admissions]; [|done|done|].
    + by destruct ok.
    + rewrite Hc. by destruct ok.
  - destruct Hinv as [Hl Hn Hg Hc]. split; cbn [db guards tasks lost settled admissions]; [|done|done|done].
    by apply event_tracked.
  - eapply inv_same_held; [done|done|done|done|apply Hinv|]. intros A S. apply mark_tracked.
  - by eapply inv_same_held; [done|done|done|done|apply Hinv|].
Qed.

Lemma run_inv (events : list Event) (st : Sys) : Forall valid events -> inv st -> inv (run events st).
Proof.
  intros Hv. revert st. induction Hv as [|e events He _ IH]; intros st Hinv; simpl; [done|].
  apply IH. by apply step_inv.
Qed.

(** ** Properties *)

(** C1: nothing is lost in the ledger. Whatever requests, disconnects,
    downloads, restarts and changes of accounts happen in whatever order, the
    reserved bytes of every month, user and group are exactly those of the
    requests in flight, of the settlements on their way and of those a crash
    or a failed write lost, and the billed bytes and requests exactly those
    settled, each of them once. *)
Theorem traffic_conserved (a : Accounts) (events : list Event) :
  Forall valid events ->
  let st := run events (init a) in
  ledger_tracked (ledger (db st)) (reservation <$> held st) (settled st) /\
  admissions st = (length (held st) + length (proxied (settled st)))%nat.
Proof. intros Hv st. destruct (run_inv events (init a) Hv (init_inv a)) as [Hl _ _ Hc]. done. Qed.

(** The condition under which an admission is accepted. *)
Lemma reserve_fits limit dl bytes (g g' : ProxyTraffic) (r : TrafficRecord) (d d' : Db) :
  record g = Some r -> reserve (Some limit) dl bytes g d = (Ok g', d') ->
  exists r', record g' = Some r' /\ armed g' = true /\ month r' = month r /\ reserved_bytes r' = bytes /\
    let u := row (traffic_monthly (ledger d)) (month r) in
    Usage.response_bytes u + Usage.reserved_bytes u + limit_to_i64 bytes <= limit_to_i64 limit.
Proof.
  intros Hrec Hres. unfold reserve in Hres. rewrite Hrec in Hres. destruct (user_id r) as [user|].
  - unfold try_reserve_hierarchical_bytes in Hres. destruct (billing_profile _ _); [|by simplify_eq].
    destruct (reserve_row _ _ (month r) _) as [tm okm] eqn:Em. apply reserve_row_spec in Em.
    destruct okm; cbn [negb] in Hres; [|by simplify_eq]. destruct Em as [Hfit _].
    destruct (reserve_row _ _ (month r, user) _) as [tu [|]]; cbn [negb] in Hres; [|by simplify_eq].
    destruct (p_group _).
    + destruct (reserve_row _ _ _ _) as [tg [|]]; cbn [negb] in Hres; [|by simplify_eq]. simplify_eq.
      eexists. by split_and!.
    + simplify_eq. eexists. by split_and!.
  - unfold try_reserve_monthly_bytes in Hres.
    destruct (reserve_row _ _ (month r) _) as [tm okm] eqn:Em. apply reserve_row_spec in Em.
    destruct okm, Em as [Hfit _]; cbn [negb] in Hres; simplify_eq. eexists. by split_and!.
Qed.

Lemma charge_fits user domain entry bytes config daily_day dy mo d d' :
  QuotaConfig.enabled (Config.quota config) = true ->
  charge_download user domain entry bytes config daily_day dy mo d = (true, d') ->
  let u := row (traffic_monthly (ledger d)) mo in
  Usage.response_bytes u + Usage.reserved_bytes u + limit_to_i64 (bytes * multiplier config) <=
    limit_to_i64 (sat_mul_u64 (QuotaConfig.monthly_gb (Config.quota config)) (Z.shiftl 1 30)).
Proof.
  intros Hq. unfold charge_download. rewrite Hq. cbv zeta. destruct (_ >? _); [done|].
  destruct (download_profile _ _); [|done].
  destruct (charge_row _ _ mo _) as [tm okm] eqn:Em. apply charge_row_spec in Em.
  destruct okm; cbn [negb]; [|done]. destruct Em as [Em _]. by intros _.
Qed.

Section Quota.
Context (limit : Z).

(** Every admission and download is checked against the same monthly limit. *)
Definition under_limit (e : Event) : Prop :=
  match e with
  | Admit _ _ _ _ _ _ _ _ _ global_limit _ _ => global_limit = Some limit
  | Download _ _ _ _ config _ _ _ =>
      QuotaConfig.enabled (Config.quota config) = true /\
      sat_mul_u64 (QuotaConfig.monthly_gb (Config.quota config)) (Z.shiftl 1 30) = limit
  | _ => True
  end.

(** How far the responses of a month went beyond what was reserved for them. *)
Definition excess (mo : string) (S : list Holding) : Z :=
  total (amount scope_month (fun h => Z.max 0 (h_billed h - h_reserved h)) mo) S.

Definition within (mo : string) (st : Sys) : Prop :=
  total (amount scope_month h_reserved mo) (reservation <$> held st) +
  total (amount scope_month h_billed mo) (settled st) <= limit_to_i64 limit + excess mo (settled st).

Lemma excess_nonneg mo S : 0 <= excess mo S.
Proof. apply total_nonneg, Forall_true. intros h. unfold amount. destruct (decide _); lia. Qed.

Lemma within_same mo st st' :
  reservation <$> held st' ≡ₚ reservation <$> held st -> settled st' = settled st -> within mo st -> within mo st'.
Proof. unfold within. intros Hp ->. by rewrite (total_perm _ _ _ Hp). Qed.

Lemma amount_month what mo h : amount scope_month what mo h = if decide (mo = h_month h) then what h else 0.
Proof. by apply amount_some. Qed.

Lemma held_admit r g (st st' : Sys) :
  active g = Some r -> guards st' = guards st ++ [g] -> tasks st' = tasks st -> lost st' = lost st ->
  held st' ≡ₚ r :: held st.
Proof.
  intros Ha Hg Ht Hl. unfold held. rewrite Hg, Ht, Hl, omap_app. simpl. rewrite Ha. solve_Permutation.
Qed.

Lemma step_within mo (st : Sys) (e : Event) :
  valid e -> under_limit e -> inv st -> within mo st -> within mo (step st e).
Proof.
  intros Hv Hu Hinv Hw. pose proof (excess_nonneg mo (settled st)) as He.
  destruct e as [dy m tc me pa mult u ret loc gl dl bytes|i status|i p|i|i now|i| |
    user domain entry bytes config daily_day dy m|user domain entry error denied daily_day cutoff dy m|m|a];
    cbn [step].
  - destruct (reserve _ _ _ _ _) as [[g|] d] eqn:Hr; [|by eapply within_same].
    cbn [under_limit] in Hu. subst gl. eapply reserve_fits in Hr as (r & Hrec & Ha & Hm & Hb & Hfit); [|reflexivity].
    cbn [month new record] in Hm, Hfit. set (st' := Build_Sys _ _ _ _ _ _).
    assert (Hheld : held st' ≡ₚ r :: held st) by (apply (held_admit r g); [unfold active; by rewrite Ha|done..]).
    unfold within. rewrite (total_perm _ _ _ (fmap_Permutation reservation _ _ Hheld)). cbn [fmap list_fmap total].
    rewrite amount_month. cbn [settled st']. destruct (inv_ledger st Hinv) as (Htm & _ & _).
    destruct (decide (mo = h_month (reservation r))) as [->|]; [|done].
    assert (Hmo : h_month (reservation r) = m) by done. rewrite Hmo in *. destruct (Htm m) as (H1 & H2 & _).
    assert (h_reserved (reservation r) = limit_to_i64 bytes) as -> by (simpl; by rewrite Hb). simpl in *. lia.
  - destruct (advance_held i _ st (track_preserves status) (inv_guards st Hinv)) as [Hp _].
    eapply within_same; [exact Hp| |done]. unfold advance. destruct (guards st !! i); [|done]. by destruct (track_proxy_response _ _).
  - destruct (advance_held i _ st (poll_preserves p) (inv_guards st Hinv)) as [Hp _].
    eapply within_same; [exact Hp| |done]. unfold advance. destruct (guards st !! i); [|done]. by destruct (poll_body _ _).
  - destruct (advance_held i _ st (settle_preserves true) (inv_guards st Hinv)) as [Hp _].
    eapply within_same; [exact Hp| |done]. unfold advance. destruct (guards st !! i); [|done]. by destruct (drop_guard _).
  - destruct (tasks st !! i) as [[r e]|] eqn:Ht; [|done]. pose proof (task_held st i _ Ht) as Hp.
    unfold within, excess in *. rewrite (total_perm _ _ _ (fmap_Permutation reservation _ _ Hp)) in Hw.
    cbn [fmap list_fmap total fst settled] in *. rewrite !amount_month in *.
    change (h_month (reservation r)) with (h_month (holding r)) in Hw.
    change (h_reserved (reservation r)) with (h_reserved (holding r)) in Hw.
    unfold held at 1. cbn [guards tasks lost]. destruct (decide (mo = h_month (holding r))); lia.
  - destruct (tasks st !! i) as [t|] eqn:Ht; [|done]. pose proof (task_held st i _ Ht) as Hp.
    apply (within_same mo st); [|reflexivity|exact Hw]. rewrite Hp. unfold held. cbn [guards tasks lost].
    apply fmap_Permutation. solve_Permutation.
  - by apply (within_same mo st); [|reflexivity|exact Hw].
  - destruct (charge_download _ _ _ _ _ _ _ _ _) as [[|] d] eqn:Hr; [|done]. destruct Hu as [Hq Hlim].
    apply charge_fits in Hr; [|done]. rewrite Hlim in Hr. unfold within, excess in *.
    cbn [settled total]. rewrite !amount_month. unfold held at 1. cbn [guards tasks lost].
    fold (held st). destruct (inv_ledger st Hinv) as (Htm & _ & _). cbn [download_holding h_month h_billed h_reserved].
    destruct (decide (mo = m)) as [->|]; [|lia]. destruct (Htm m) as (H1 & H2 & _). cbv zeta in Hr. lia.
  - unfold within, excess in *. cbn [settled total]. rewrite !amount_month. unfold held at 1. cbn [guards tasks lost].
    fold (held st). cbn [download_holding h_month h_billed h_reserved]. destruct (decide _); lia.
  - by eapply within_same.
  - by eapply within_same.
Qed.
End Quota.

(** C9: the monthly quota cannot be overbooked. As long as every admission and
    download is checked against the same limit, billed and reserved bytes of a
    month together exceed it by no more than responses outgrew their own
    reservations. *)
Theorem quota_not_overbooked (a : Accounts) (events : list Event) (limit : Z) (mo : string) :
  0 <= limit -> Forall valid events -> Forall (under_limit limit) events ->
  let st := run events (init a) in
  let u := row (traffic_monthly (ledger (db st))) mo in
  Usage.response_bytes u + Usage.reserved_bytes u <= limit_to_i64 limit + excess mo (settled st).
Proof.
  intros Hlim Hv Hu.
  assert (H : forall st, inv st -> within limit mo st -> inv (run events st) /\ within limit mo (run events st)).
  { revert Hu. induction Hv as [|e events He _ IH]; intros Hu st Hi Hw; [done|].
    apply Forall_cons in Hu as [Hue Hu]. simpl. apply IH; [done|by apply step_inv|by apply step_within]. }
  destruct (H (init a)) as [Hi Hw]; [apply init_inv| |].
  - unfold within, excess. simpl. unfold limit_to_i64. pose proof (u64_to_i64_max_nonneg limit Hlim). lia.
  - intros st u. destruct (inv_ledger _ Hi) as (Htm & _ & _). destruct (Htm mo) as (H1 & H2 & _).
    unfold within in Hw. unfold u, st. lia.
Qed.

(** Whether a row has room for [bytes] under a limit. *)
Definition room (limit : option Z) (bytes : Z) (u : Usage.t) : bool :=
  match limit with
  | Some l => Usage.response_bytes u + Usage.reserved_bytes u + bytes <=? l
  | None => true
  end.

Lemma reserve_row_room {K} `{Countable K} limit bytes (k : K) table :
  (reserve_row limit bytes k (insert_or_ignore k table)).2 = room limit bytes (row table k).
Proof.
  destruct (reserve_row limit bytes k (insert_or_ignore k table)) as [t ok] eqn:E.
  apply reserve_row_spec in E. unfold room. simpl. destruct ok, limit as [l|]; destruct E as [E _]; try done.
  - symmetry. by apply Z.leb_le.
  - symmetry. apply Z.leb_gt. lia.
Qed.

(** A reservation is all or nothing. It is accepted when the month, the
    user and the user's billing group all have room under their limits, and
    then adds the bytes at each of the three; otherwise it names the first of
    them that is full and changes nothing. *)
Theorem reservation_all_or_nothing (mo : string) (user bytes : Z) (gl dl : option Z) (d d' : Db) (p : Profile)
    (outcome : HierarchicalReservationOutcome) :
  billing_profile (accounts d) user = Some p ->
  try_reserve_hierarchical_bytes mo user gl dl bytes d = (outcome, d') ->
  let b := limit_to_i64 bytes in
  let at_month := row (traffic_monthly (ledger d)) mo in
  let at_user := row (user_traffic_monthly (ledger d)) (mo, user) in
  let at_group g := row (group_traffic_monthly (ledger d)) (mo, g) in
  let full scope := outcome = Exceeded scope /\ d' = d in
  let add u := Usage.set_reserved (Usage.reserved_bytes u + b) u in
  if negb (room (limit_to_i64 <$> gl) b at_month) then full "global"
  else if negb (room (effective_user_limit p dl) b at_user) then full "user"
  else if match p_group p with Some g => negb (room (p_group_limit p) b (at_group g)) | None => false end
  then full "group"
  else
    outcome = Reserved (p_group p) /\ accounts d' = accounts d /\
    row (traffic_monthly (ledger d')) mo = add at_month /\
    row (user_traffic_monthly (ledger d')) (mo, user) = add at_user /\
    (forall g, p_group p = Some g -> row (group_traffic_monthly (ledger d')) (mo, g) = add (at_group g)).
Proof.
  intros Hp Hres b at_month at_user at_group full add. unfold try_reserve_hierarchical_bytes in Hres.
  rewrite Hp in Hres. fold b in Hres. unfold at_month, at_user, at_group. rewrite <- !reserve_row_room.
  destruct (reserve_row _ b mo _) as [tm okm] eqn:Em. apply reserve_row_spec in Em. cbn [snd].
  destruct okm; cbn [negb] in *; [|by simplify_eq]. destruct Em as [_ Em].
  destruct (reserve_row _ b (mo, user) _) as [tu oku] eqn:Eu. apply reserve_row_spec in Eu. cbn [snd].
  destruct oku; cbn [negb] in *; [|by simplify_eq]. destruct Eu as [_ Eu].
  specialize (Em mo). specialize (Eu (mo, user)). rewrite decide_True in Em by done. rewrite decide_True in Eu by done.
  destruct (p_group p) as [g|].
  - rewrite <- reserve_row_room. destruct (reserve_row _ b (mo, g) _) as [tg okg] eqn:Eg.
    apply reserve_row_spec in Eg. cbn [snd]. destruct okg; cbn [negb] in *; [|by simplify_eq]. destruct Eg as [_ Eg].
    simplify_eq. split_and!; [done|done|done|done|]. intros g' [= <-]. specialize (Eg (mo, g)).
    by rewrite decide_True in Eg by done.
  - simplify_eq. by split_and!.
Qed.

(** The public quota status tells what the next request will find: it is
    [available] exactly when an anonymous request of the month is admitted. *)
Theorem public_status_matches_admission (d : Db) (config : Config.t) (mo : string) :
  let u := row (traffic_monthly (ledger d)) mo in
  QuotaConfig.enabled (Config.quota config) = true -> 0 <= QuotaConfig.monthly_gb (Config.quota config) ->
  0 <= Usage.response_bytes u <= I64_MAX -> 0 <= Usage.reserved_bytes u <= I64_MAX ->
  public_quota_status (Some (monthly_quota_totals mo d)) config = "available" <->
  (try_reserve_monthly_bytes mo (sat_mul_u64 (QuotaConfig.monthly_gb (Config.quota config)) (1024 * 1024 * 1024))
     (sat_mul_u64 QUOTA_RESERVATION_BYTES (multiplier config)) d).1 = true.
Proof.
  intros u Hq Hgb Hr Hs. unfold public_quota_status, monthly_quota_totals, try_reserve_monthly_bytes. rewrite Hq.
  fold u. cbn [negb]. set (limit := sat_mul_u64 _ _). set (b := sat_mul_u64 QUOTA_RESERVATION_BYTES _).
  assert (Hb : 0 < b <= 16777216).
  { unfold b, sat_mul_u64, QUOTA_RESERVATION_BYTES, multiplier, U64_MAX. destruct (QuotaConfig.bidirectional_accounting _); lia. }
  destruct (reserve_row _ _ mo _) as [tm okm] eqn:Em. cbn [fst].
  assert (okm = room (Some (limit_to_i64 limit)) (limit_to_i64 b) u) as -> by (unfold u; by rewrite <- reserve_row_room, Em).
  unfold room, as_u64, limit_to_i64. rewrite !u64_to_i64_max_min, !Z.max_r, (Z.min_comm limit) by lia.
  assert (Z.min I64_MAX b = b) as -> by (unfold I64_MAX in *; lia).
  assert (forall l, l <= I64_MAX -> (sat_add_u64 (sat_add_u64 (Usage.response_bytes u) (Usage.reserved_bytes u)) b >? l) =
          (Usage.response_bytes u + Usage.reserved_bytes u + b >? l)) as Hsat.
  { intros l Hl. rewrite !Z.gtb_ltb. unfold sat_add_u64, U64_MAX, I64_MAX in *.
    destruct (Z.ltb_spec l (Usage.response_bytes u + Usage.reserved_bytes u + b)); [apply Z.ltb_lt|apply Z.ltb_ge]; lia. }
  rewrite Hsat by lia. rewrite Z.leb_le, Z.geb_leb, Z.gtb_ltb.
  destruct (Z.leb_spec (Z.min I64_MAX limit) (Usage.response_bytes u)); [split; [done|lia]|].
  destruct (Z.ltb_spec (Z.min I64_MAX limit) (Usage.response_bytes u + Usage.reserved_bytes u + b));
    (split; [done || lia|lia || done]).
Qed.

(** ** Witnesses *)

Definition sample_accounts : Accounts := {|
  users := {[7 := sample_user]};
  groups := {[1 := {| Group.name := "team"; Group.kind := "billing" |}]};
  next_group_id := 2; group_members := {[7 := 1]}; group_quota_settings := {[1 := Some 1000]};
  group_target_access := ∅; user_quota_overrides := ∅; config_audit_log := [];
|}.

Definition nowhere : GeoLocation := {| country := None; province := None; city := None; isp := None; country_code := None |}.

(** Two requests: one is read to its end, the other is cut off by a crash. *)
Definition sample_events : list Event := [
  Admit "2026-07-01" "2026-07" "npm" "GET" "/npm/left-pad" 2 (Some 7) 30 nowhere (Some 1000) None 400;
  Admit "2026-07-01" "2026-07" "npm" "GET" "/npm/right-pad" 2 None 30 nowhere (Some 1000) None 400;
  Respond 0 200; PollBody 0 (Chunk 100); PollBody 0 BodyEnd; DropGuard 0; RunTask 0 1000; Crash].

Lemma traffic_conserved_witness :
  Forall valid sample_events /\
  let st := run sample_events (init sample_accounts) in
  Usage.reserved_bytes (row (traffic_monthly (ledger (db st))) "2026-07") = 400 /\
  Usage.response_bytes (row (group_traffic_monthly (ledger (db st))) ("2026-07", 1)) = 200.
Proof.
  assert (Hv : Forall valid sample_events) by (repeat constructor; simpl; lia). split; [done|].
  destruct (traffic_conserved sample_accounts sample_events Hv) as [(Hm & _ & Hg) _]. split.
  - destruct (Hm "2026-07") as [-> _]. vm_compute. reflexivity.
  - destruct (Hg ("2026-07", 1)) as (_ & -> & _). vm_compute. reflexivity.
Defined.

Lemma quota_not_overbooked_witness :
  let st := run sample_events (init sample_accounts) in
  let u := row (traffic_monthly (ledger (db st))) "2026-07" in
  Usage.response_bytes u + Usage.reserved_bytes u <= 1000 + excess "2026-07" (settled st) /\
  excess "2026-07" (settled st) = 0.
Proof.
  split; [|vm_compute; reflexivity].
  apply (quota_not_overbooked sample_accounts sample_events 1000 "2026-07"); [lia| |].
  - repeat constructor; simpl; lia.
  - repeat constructor.
Defined.

Lemma reservation_all_or_nothing_witness :
  (try_reserve_hierarchical_bytes "2026-07" 7 None None 2000 {| accounts := sample_accounts; ledger := empty_ledger |}).1
    = Exceeded "group".
Proof.
  set (d := {| accounts := sample_accounts; ledger := empty_ledger |}).
  destruct (try_reserve_hierarchical_bytes "2026-07" 7 None None 2000 d) as [outcome d'] eqn:E. simpl.
  assert (Hp : billing_profile (accounts d) 7 = Some {| p_group := Some 1; p_group_limit := Some 1000; p_mode := None;
    p_user_limit := None |}) by (vm_compute; reflexivity).
  exact (proj1 (reservation_all_or_nothing "2026-07" 7 2000 None None d d' _ outcome Hp E)).
Defined.

Definition metered : Config.t := Config.sample {|
  QuotaConfig.enabled := true; QuotaConfig.bidirectional_accounting := true; QuotaConfig.monthly_gb := 1;
  QuotaConfig.timezone := "UTC"; QuotaConfig.on_exceeded := "throttle"; QuotaConfig.request_event_retention_days := 30;
  QuotaConfig.default_user_monthly_gb := None |} UserAccessConfig.default.

Lemma public_status_matches_admission_witness :
  (try_reserve_monthly_bytes "2026-07" (2 ^ 30) (2 ^ 24) {| accounts := sample_accounts; ledger := empty_ledger |}).1
    = true.
Proof.
  apply (public_status_matches_admission {| accounts := sample_accounts; ledger := empty_ledger |} metered "2026-07");
    vm_compute; done.
Defined.
