(* ===== verification/Users.v ===== *)
(** * Users, their sessions and their routing ids

    The part of [database.rs] and [database/local_accounts.rs] that says who a
    request belongs to: accounts, browser sessions, the routing ids that name a
    user in a host name, passwords of local accounts and registration links.
    The tables extend those of [Quota].  A function that runs one transaction
    is one step; signing in with a password and changing it, which read the
    database, wait for Argon2 and write, are two steps each.  Random draws and
    clock readings are arguments. *)
From S2P Require Import Prelude RustStr Quota.
Open Scope string_scope.
Open Scope Z_scope.
Open Scope list_scope.
Open Scope mirror_scope.

(** SHA-256, Argon2 and Sqids are third-party code: the hash of a token in
    hexadecimal, of a password with a salt, and the check of a password. *)
Class SecretApi : Type := {
  sha256_hex : string -> string;
  argon2_hash : string -> string -> string;
  argon2_matches : string -> string -> bool;
  (** minimal length and number; [None] is an error *)
  sqids_encode : Z -> Z -> option string;
}.

Class SecretLaws `{SecretApi} : Prop := {
  argon2_matches_hash salt password : argon2_matches password (argon2_hash salt password) = true;
}.

Definition USER_SESSION_LIFETIME_SECS : Z := 30 * 24 * 60 * 60.
Definition ROUTING_ID_INSERT_ATTEMPTS : nat := 16.

Definition normalize_email (email : string) : string := to_ascii_lowercase (str_trim email).

(** ** Tables *)

Module Session.
Record t : Type := { user_id : Z; auth_method : string; created_at : Z; expires_at : Z; last_used_at : Z }.

Definition touch (now : Z) (s : t) : t := {|
  user_id := user_id s; auth_method := auth_method s; created_at := created_at s; expires_at := expires_at s;
  last_used_at := now;
|}.
End Session.

Module RoutingId.
Record t : Type := {
  user_id : Z; public_number : Z; routing_id : string; active : bool; created_at : Z; revoked_at : option Z;
}.

(** [UPDATE user_routing_ids SET active = 0, revoked_at = ? WHERE user_id = ? AND active = 1]. *)
Definition revoke (now user : Z) (r : t) : t :=
  if (user_id r =? user) && active r then {|
    user_id := user_id r; public_number := public_number r; routing_id := routing_id r; active := false;
    created_at := created_at r; revoked_at := Some now;
  |} else r.
End RoutingId.

Module Credential.
Record t : Type := { password_hash : string; failed_attempts : Z; locked_until : Z }.
End Credential.

(** What an invitation or an administrator grants a new account. *)
Module AccountBilling.
Record t : Type := { group_id : option Z; quota_mode : string; monthly_gb : option Z }.

Definition default : t := {| group_id := None; quota_mode := "default"; monthly_gb := None |}.

Definition validate (self : t) : result unit string :=
  if negb (existsb (String.eqb (quota_mode self)) ["default"; "custom"; "unlimited"]) then Err "invalid quota mode"
  else if negb (Bool.eqb (quota_mode self =? "custom")%string (bool_decide (is_Some (monthly_gb self))))
  then Err "custom quota requires monthly_gb; other modes must omit it"
  else match monthly_gb self with
       | Some gb => if (gb <=? I64_MAX / (1024 * 1024 * 1024)) then Ok tt else Err "monthly quota is too large"
       | None => Ok tt
       end.
End AccountBilling.

(** A row of [registration_invitations]; [billing_json] is kept as the value
    it encodes. *)
Module Invitation.
Record t : Type := {
  token_hash : string; billing : AccountBilling.t; status : string; expires_at : Z; created_at : Z;
  created_by : string; user_id : option Z;
}.

Definition set_status (status : string) (i : t) : t := {|
  token_hash := token_hash i; billing := billing i; status := status; expires_at := expires_at i;
  created_at := created_at i; created_by := created_by i; user_id := user_id i;
|}.

Definition set_user (user : Z) (i : t) : t := {|
  token_hash := token_hash i; billing := billing i; status := status i; expires_at := expires_at i;
  created_at := created_at i; created_by := created_by i; user_id := Some user;
|}.
End Invitation.

Record Directory : Type := {
  dir_accounts : Accounts;
  next_user_id : Z;
  user_sessions : gmap string Session.t;
  user_routing_ids : list RoutingId.t;
  local_user_credentials : gmap Z Credential.t;
  registration_invitations : gmap Z Invitation.t;
  next_invitation_id : Z;
}.

Definition on_accounts (f : Accounts -> Accounts) (d : Directory) : Directory := {|
  dir_accounts := f (dir_accounts d); next_user_id := next_user_id d; user_sessions := user_sessions d;
  user_routing_ids := user_routing_ids d; local_user_credentials := local_user_credentials d;
  registration_invitations := registration_invitations d; next_invitation_id := next_invitation_id d;
|}.

Definition on_sessions (f : gmap string Session.t -> gmap string Session.t) (d : Directory) : Directory := {|
  dir_accounts := dir_accounts d; next_user_id := next_user_id d; user_sessions := f (user_sessions d);
  user_routing_ids := user_routing_ids d; local_user_credentials := local_user_credentials d;
  registration_invitations := registration_invitations d; next_invitation_id := next_invitation_id d;
|}.

Definition on_routing (f : list RoutingId.t -> list RoutingId.t) (d : Directory) : Directory := {|
  dir_accounts := dir_accounts d; next_user_id := next_user_id d; user_sessions := user_sessions d;
  user_routing_ids := f (user_routing_ids d); local_user_credentials := local_user_credentials d;
  registration_invitations := registration_invitations d; next_invitation_id := next_invitation_id d;
|}.

Definition on_credentials (f : gmap Z Credential.t -> gmap Z Credential.t) (d : Directory) : Directory := {|
  dir_accounts := dir_accounts d; next_user_id := next_user_id d; user_sessions := user_sessions d;
  user_routing_ids := user_routing_ids d; local_user_credentials := f (local_user_credentials d);
  registration_invitations := registration_invitations d; next_invitation_id := next_invitation_id d;
|}.

Definition on_invitations (f : gmap Z Invitation.t -> gmap Z Invitation.t) (d : Directory) : Directory := {|
  dir_accounts := dir_accounts d; next_user_id := next_user_id d; user_sessions := user_sessions d;
  user_routing_ids := user_routing_ids d; local_user_credentials := local_user_credentials d;
  registration_invitations := f (registration_invitations d); next_invitation_id := next_invitation_id d;
|}.

Definition with_users (f : gmap Z User.t -> gmap Z User.t) (a : Accounts) : Accounts := {|
  users := f (users a); groups := groups a; next_group_id := next_group_id a; group_members := group_members a;
  group_quota_settings := group_quota_settings a; group_target_access := group_target_access a;
  user_quota_overrides := user_quota_overrides a; config_audit_log := config_audit_log a;
|}.

(** Membership and override of one user. *)
Definition with_billing (user : Z) (group : option Z) (override : option (string * option Z)) (a : Accounts) :
    Accounts := {|
  users := users a; groups := groups a; next_group_id := next_group_id a;
  group_members := partial_alter (fun _ => group) user (group_members a);
  group_quota_settings := group_quota_settings a; group_target_access := group_target_access a;
  user_quota_overrides := partial_alter (fun _ => override) user (user_quota_overrides a);
  config_audit_log := config_audit_log a;
|}.

Definition set_disabled (now : Z) (disabled : bool) (u : User.t) : User.t := {|
  User.username := User.username u; User.email := User.email u; User.display_name := User.display_name u;
  User.disabled := disabled; User.deleted_at := User.deleted_at u; User.created_at := User.created_at u;
  User.updated_at := now;
|}.

Definition set_deleted (now : Z) (u : User.t) : User.t := {|
  User.username := User.username u; User.email := User.email u; User.display_name := User.display_name u;
  User.disabled := true; User.deleted_at := Some now; User.created_at := User.created_at u; User.updated_at := now;
|}.

Inductive Error : Type :=
| Database (e : DbError)
| RoutingIdsExhausted
| SqidsFailed
| InvalidBilling (message : string)
| InvitationGone.

(** ** Accounts and routing ids *)

Section Users.
Context `{SecretApi}.

Definition hash_token (token : string) : string := sha256_hex token.

Definition is_reserved_routing_id (value : string) : bool :=
  existsb (String.eqb value) ["www"; "admin"; "api"; "login"; "account"; "mail"; "smtp"; "status"].

(** The unique columns and the unique index on the active row of a user. *)
Definition routing_conflict (user_id public_number : Z) (routing_id : string) (rows : list RoutingId.t) : bool :=
  existsb (fun r => (RoutingId.public_number r =? public_number)
                    || eq_ignore_ascii_case (RoutingId.routing_id r) routing_id
                    || ((RoutingId.user_id r =? user_id) && RoutingId.active r)) rows.

(** The loop over random draws [RandomOsRng.next_u64()]. *)
Fixpoint try_routing_ids (draws : list Z) (user_id minimum_length now : Z) (rows : list RoutingId.t) :
    result (string * list RoutingId.t) Error :=
  match draws with
  | [] => Err RoutingIdsExhausted
  | draw :: rest =>
      let public_number := Z.max 1 (Z.land draw I64_MAX) in
      match sqids_encode minimum_length public_number with
      | None => Err SqidsFailed
      | Some routing_id =>
          if is_reserved_routing_id routing_id then try_routing_ids rest user_id minimum_length now rows
          else if routing_conflict user_id public_number routing_id rows
          then try_routing_ids rest user_id minimum_length now rows
          else Ok (routing_id, rows ++ [{|
                 RoutingId.user_id := user_id; RoutingId.public_number := public_number;
                 RoutingId.routing_id := routing_id; RoutingId.active := true; RoutingId.created_at := now;
                 RoutingId.revoked_at := None |}])
      end
  end.

Definition insert_unique_routing_id (draws : list Z) (user_id minimum_length now : Z) (d : Directory) :
    result (string * Directory) Error :=
  let? (routing_id, rows) :=
    try_routing_ids (firstn ROUTING_ID_INSERT_ATTEMPTS draws) user_id minimum_length now (user_routing_ids d) in
  Ok (routing_id, on_routing (fun _ => rows) d).

(** The unique columns [email] and [username] (the latter without case). *)
Definition user_conflict (username : option string) (email : string) (a : Accounts) : bool :=
  existsb (fun p => (User.email p.2 =? email)%string
                    || match username, User.username p.2 with
                       | Some n, Some m => eq_ignore_ascii_case n m
                       | _, _ => false
                       end) (map_to_list (users a)).

(** [INSERT OR IGNORE INTO users]: the new id. *)
Definition insert_user (now : Z) (username : option string) (email display_name : string) (d : Directory) :
    option (Z * Directory) :=
  if user_conflict username email (dir_accounts d) then None
  else
    let id := next_user_id d in
    Some (id, {|
      dir_accounts := with_users <[id := {|
          User.username := username; User.email := email; User.display_name := display_name; User.disabled := false;
          User.deleted_at := None; User.created_at := now; User.updated_at := now |}]> (dir_accounts d);
      next_user_id := id + 1; user_sessions := user_sessions d; user_routing_ids := user_routing_ids d;
      local_user_credentials := local_user_credentials d; registration_invitations := registration_invitations d;
      next_invitation_id := next_invitation_id d;
    |}).

Definition audit_dir (now : Z) (actor action detail : string) (d : Directory) : Directory :=
  on_accounts (audit now actor action detail) d.

Definition user_detail (user_id : Z) : string := "user_id=" +:+ show_uint user_id.

Record UserAccount : Type := {
  ua_username : option string; ua_id : Z; ua_email : string; ua_display_name : string; ua_disabled : bool;
  ua_routing_id : string; ua_routing_rotated_at : Z; ua_created_at : Z; ua_updated_at : Z;
}.

Definition create_user (now : Z) (draws : list Z) (actor email display_name : string) (routing_min_length : Z)
    (d : Directory) : result (option UserAccount) Error * Directory :=
  let email := normalize_email email in
  match insert_user now None email display_name d with
  | None => (Ok None, d)
  | Some (user_id, d1) =>
      match insert_unique_routing_id draws user_id routing_min_length now d1 with
      | Err e => (Err e, d)
      | Ok (routing_id, d2) =>
          (Ok (Some {|
             ua_username := None; ua_id := user_id; ua_email := email; ua_display_name := display_name;
             ua_disabled := false; ua_routing_id := routing_id; ua_routing_rotated_at := now; ua_created_at := now;
             ua_updated_at := now |}),
           audit_dir now actor "user_created" (user_detail user_id) d2)
      end
  end.

(** [users u JOIN user_routing_ids r ON r.user_id = u.id AND r.active = 1 .. u.deleted_at IS NULL]. *)
Definition active_routing_id (user_id : Z) (d : Directory) : option RoutingId.t :=
  find_first (fun r => (RoutingId.user_id r =? user_id) && RoutingId.active r) (user_routing_ids d).

Definition user_live (u : User.t) : bool := bool_decide (User.deleted_at u = None).

Definition user_enabled (u : User.t) : bool := negb (User.disabled u) && user_live u.

Definition user_account (user_id : Z) (d : Directory) : option UserAccount :=
  match users (dir_accounts d) !! user_id, active_routing_id user_id d with
  | Some u, Some r =>
      if user_live u then Some {|
        ua_username := User.username u; ua_id := user_id; ua_email := User.email u;
        ua_display_name := User.display_name u; ua_disabled := User.disabled u;
        ua_routing_id := RoutingId.routing_id r; ua_routing_rotated_at := RoutingId.created_at r;
        ua_created_at := User.created_at u; ua_updated_at := User.updated_at u |}
      else None
  | _, _ => None
  end.

Definition user_by_email (email : string) (d : Directory) : option UserAccount :=
  find_map (fun p => if (User.email p.2 =? normalize_email email)%string then user_account p.1 d else None)
    (map_to_list (users (dir_accounts d))).

Definition set_user_disabled (now : Z) (actor : string) (user_id : Z) (disabled : bool) (d : Directory) :
    bool * Directory :=
  match users (dir_accounts d) !! user_id with
  | Some u =>
      if user_live u then
        let d := on_accounts (with_users <[user_id := set_disabled now disabled u]>) d in
        let d := if disabled then on_sessions (filter (fun p => Session.user_id p.2 <> user_id)) d else d in
        (true, audit_dir now actor "user_status_changed"
                 (user_detail user_id +:+ "; disabled=" +:+ (if disabled then "true" else "false")) d)
      else (false, d)
  | None => (false, d)
  end.

Definition soft_delete_user (now : Z) (actor : string) (user_id : Z) (d : Directory) : bool * Directory :=
  match users (dir_accounts d) !! user_id with
  | Some u =>
      if user_live u then
        let d := on_accounts (with_users <[user_id := set_deleted now u]>) d in
        let d := on_sessions (filter (fun p => Session.user_id p.2 <> user_id)) d in
        let d := on_routing (map (RoutingId.revoke now user_id)) d in
        let d := on_accounts (with_billing user_id None None) d in
        (true, audit_dir now actor "user_soft_deleted" (user_detail user_id) d)
      else (false, d)
  | None => (false, d)
  end.

Inductive RoutingRotationOutcome : Type :=
| Rotated (routing_id : string)
| Cooldown (retry_after_secs : Z)
| NotFound.

Definition rotate_user_routing_id (now : Z) (draws : list Z) (actor : string) (user_id routing_min_length cooldown_hours : Z)
    (bypass_cooldown : bool) (d : Directory) : result RoutingRotationOutcome Error * Directory :=
  match user_account user_id d with
  | None => (Ok NotFound, d)
  | Some account =>
      let rotated_at := ua_routing_rotated_at account in
      let cooldown_secs := cooldown_hours * 60 * 60 in
      if negb bypass_cooldown && (now <? sat_add_i64 rotated_at cooldown_secs)
      then (Ok (Cooldown (sat_sub_i64 (sat_add_i64 rotated_at cooldown_secs) now)), d)
      else
        let d1 := on_routing (map (RoutingId.revoke now user_id)) d in
        match insert_unique_routing_id draws user_id routing_min_length now d1 with
        | Err e => (Err e, d)
        | Ok (routing_id, d2) =>
            (Ok (Rotated routing_id), audit_dir now actor "user_routing_id_rotated" (user_detail user_id) d2)
        end
  end.

(** [SELECT .. WHERE r.routing_id = ? COLLATE NOCASE AND r.active = 1 AND
    u.disabled = 0 AND u.deleted_at IS NULL]: user and routing id. *)
Definition find_by_routing_id (routing_id : string) (rows : list RoutingId.t) (a : Accounts) : option (Z * string) :=
  find_map (fun r =>
    if eq_ignore_ascii_case (RoutingId.routing_id r) routing_id && RoutingId.active r
       && match users a !! RoutingId.user_id r with Some u => user_enabled u | None => false end
    then Some (RoutingId.user_id r, RoutingId.routing_id r) else None) rows.

(** ** Sessions *)

Record UserIdentity : Type := { ui_user_id : Z; ui_email : string; ui_display_name : string }.
Record UserSession : Type := { us_token : string; us_expires_at : Z; us_identity : UserIdentity }.

Definition identity_of (user_id : Z) (u : User.t) : UserIdentity := {|
  ui_user_id := user_id; ui_email := User.email u; ui_display_name := User.display_name u;
|}.

Definition authenticate_user_session (now : Z) (token : string) (d : Directory) : option UserIdentity * Directory :=
  match user_sessions d !! hash_token token with
  | Some s =>
      match users (dir_accounts d) !! Session.user_id s with
      | Some u =>
          if (now <? Session.expires_at s) && user_enabled u
          then (Some (identity_of (Session.user_id s) u), on_sessions <[hash_token token := Session.touch now s]> d)
          else (None, d)
      | None => (None, d)
      end
  | None => (None, d)
  end.

Definition logout_user (token : string) (d : Directory) : Directory := on_sessions (delete (hash_token token)) d.

(** [INSERT INTO user_sessions]: the hash is the primary key. *)
Definition insert_session (now : Z) (token auth_method : string) (user_id : Z) (u : User.t) (d : Directory) :
    result UserSession Error * Directory :=
  match user_sessions d !! hash_token token with
  | Some _ => (Err (Database UniqueViolation), d)
  | None =>
      let expires_at := now + USER_SESSION_LIFETIME_SECS in
      (Ok {| us_token := token; us_expires_at := expires_at; us_identity := identity_of user_id u |},
       on_sessions <[hash_token token := {|
         Session.user_id := user_id; Session.auth_method := auth_method; Session.created_at := now;
         Session.expires_at := expires_at; Session.last_used_at := now |}]> d)
  end.

(** [SELECT], then [INSERT]; see [insert_session_late] for what may happen in
    between. *)
Definition create_user_session (now : Z) (token : string) (user_id : Z) (auth_method : string) (d : Directory) :
    result (option UserSession) Error * Directory :=
  match users (dir_accounts d) !! user_id with
  | Some u =>
      if user_enabled u then
        match insert_session now token auth_method user_id u d with
        | (Ok session, d) => (Ok (Some session), d)
        | (Err e, d) => (Err e, d)
        end
      else (Ok None, d)
  | None => (Ok None, d)
  end.

Definition audit_user_login (now user_id : Z) (auth_method : string) (d : Directory) : Directory :=
  audit_dir now ("user:" +:+ show_uint user_id) "user_login_succeeded" ("method=" +:+ auth_method) d.

(** ** Registration links *)

Definition valid_group (group : option Z) (d : Directory) : bool :=
  match group with None => true | Some id => is_billing_group (dir_accounts d) id end.

Definition create_registration_invitation (now : Z) (token actor : string) (billing : AccountBilling.t) (ttl_hours : Z)
    (d : Directory) : result (option (Z * string)) Error * Directory :=
  match AccountBilling.validate billing with
  | Err message => (Err (InvalidBilling message), d)
  | Ok _ =>
      if negb (valid_group (AccountBilling.group_id billing) d) then (Ok None, d)
      else if existsb (fun p => (Invitation.token_hash p.2 =? hash_token token)%string)
                (map_to_list (registration_invitations d))
      then (Err (Database UniqueViolation), d)
      else
        let id := next_invitation_id d in
        let d1 := {|
          dir_accounts := dir_accounts d; next_user_id := next_user_id d; user_sessions := user_sessions d;
          user_routing_ids := user_routing_ids d; local_user_credentials := local_user_credentials d;
          registration_invitations := <[id := {|
            Invitation.token_hash := hash_token token; Invitation.billing := billing; Invitation.status := "pending";
            Invitation.expires_at := now + ttl_hours * 3600; Invitation.created_at := now;
            Invitation.created_by := actor; Invitation.user_id := None |}]> (registration_invitations d);
          next_invitation_id := id + 1;
        |} in
        (Ok (Some (id, token)),
         audit_dir now actor "registration_invitation_created" ("invitation_id=" +:+ show_uint id) d1)
  end.

(** The status a listing shows. *)
Definition shown_status (now : Z) (i : Invitation.t) : string :=
  if (Invitation.status i =? "pending")%string && (Invitation.expires_at i <=? now) then "expired"
  else Invitation.status i.

Definition revoke_registration_invitation (now : Z) (actor : string) (id : Z) (d : Directory) : bool * Directory :=
  match registration_invitations d !! id with
  | Some i =>
      if (Invitation.status i =? "pending")%string
      then (true, audit_dir now actor "registration_invitation_revoked" ("invitation_id=" +:+ show_uint id)
                    (on_invitations <[id := Invitation.set_status "revoked" i]> d))
      else (false, d)
  | None => (false, d)
  end.

(** The invitation [UPDATE .. SET status = 'accepted' WHERE token_hash = ? AND
    status = 'pending' AND expires_at > ?] hits. *)
Definition claimable (now : Z) (token : string) (d : Directory) : option (Z * Invitation.t) :=
  find_first (fun p => (Invitation.token_hash p.2 =? hash_token token)%string
                       && (Invitation.status p.2 =? "pending")%string && (now <? Invitation.expires_at p.2))
    (map_to_list (registration_invitations d)).

Inductive LocalCreateOutcome : Type :=
| Created (id : Z)
| UsernameExists
| InvalidInvitation
| InvalidGroup.

Record LocalUserCreation : Type := {
  lc_actor : string; lc_username : string; lc_password : string; lc_display_name : string;
  lc_billing : AccountBilling.t; lc_invitation_token : option string; lc_routing_length : Z;
}.

(** [(gb * 1024 * 1024 * 1024) as i64]. *)
Definition gb_bytes (gb : Z) : Z :=
  let bytes := (gb * (1024 * 1024 * 1024)) mod 2 ^ 64 in
  if bytes <=? I64_MAX then bytes else bytes - 2 ^ 64.

(** The claim of the invitation, and the terms it grants. *)
Definition claim_invitation (now : Z) (input : LocalUserCreation) (d : Directory) :
    option (option Z * AccountBilling.t * Directory) :=
  match lc_invitation_token input with
  | Some token =>
      match claimable now token d with
      | Some (id, i) =>
          Some (Some id, Invitation.billing i, on_invitations <[id := Invitation.set_status "accepted" i]> d)
      | None => None
      end
  | None => Some (None, lc_billing input, d)
  end.

(** [salt], [draws] and [uuid] are random. *)
Definition create_local_user (now : Z) (salt uuid : string) (draws : list Z) (input : LocalUserCreation) (d : Directory) :
    result LocalCreateOutcome Error * Directory :=
  match AccountBilling.validate (lc_billing input) with
  | Err message => (Err (InvalidBilling message), d)
  | Ok _ =>
      match claim_invitation now input d with
      | None => (Ok InvalidInvitation, d)
      | Some (invitation_id, billing, d1) =>
          if negb (valid_group (AccountBilling.group_id billing) d1) then (Ok InvalidGroup, d)
          else
            match insert_user now (Some (lc_username input)) (uuid +:+ "@accounts.invalid") (lc_display_name input) d1 with
            | None => (Ok UsernameExists, d)
            | Some (id, d2) =>
                match insert_unique_routing_id draws id (lc_routing_length input) now d2 with
                | Err e => (Err e, d)
                | Ok (_, d3) =>
                    let d4 := on_credentials <[id := {|
                      Credential.password_hash := argon2_hash salt (lc_password input);
                      Credential.failed_attempts := 0; Credential.locked_until := 0 |}]> d3 in
                    let override :=
                      if (AccountBilling.quota_mode billing =? "default")%string then None
                      else Some (AccountBilling.quota_mode billing, gb_bytes <$> AccountBilling.monthly_gb billing) in
                    let d5 := on_accounts (with_billing id (AccountBilling.group_id billing) override) d4 in
                    let d6 := match invitation_id with
                              | Some i => on_invitations (alter (Invitation.set_user id) i) d5
                              | None => d5
                              end in
                    (Ok (Created id),
                     audit_dir now (lc_actor input) "user_created" (user_detail id +:+ "; method=password") d6)
                end
            end
      end
  end.

(** ** Signing in with a password *)

(** What [authenticate_local_user] knows when Argon2 is done: the account
    with the hash it was checked against, whether it was locked when it was
    read, and the verdict. *)
Record LoginAttempt : Type := { la_user : option (Z * string); la_locked : bool; la_valid : bool }.

Definition by_username (username : string) (a : Accounts) : option (Z * User.t) :=
  find_first (fun p => match User.username p.2 with
                       | Some n => eq_ignore_ascii_case n username && user_enabled p.2
                       | None => false
                       end) (map_to_list (users a)).

Definition begin_local_login (now : Z) (username password : string) (d : Directory) : LoginAttempt :=
  match by_username username (dir_accounts d) ≫= fun p => pair p.1 <$> local_user_credentials d !! p.1 with
  | Some (id, c) => {|
      la_user := Some (id, Credential.password_hash c); la_locked := now <? Credential.locked_until c;
      la_valid := argon2_matches password (Credential.password_hash c) |}
  | None => {| la_user := None; la_locked := false; la_valid := false |}
  end.

(** [UPDATE local_user_credentials .. WHERE user_id = ? AND password_hash = ?
    AND locked_until <= ?] of a wrong password. *)
Definition count_failure (now : Z) (c : Credential.t) : Credential.t :=
  let expired := (0 <? Credential.locked_until c) && (Credential.locked_until c <=? now) in {|
    Credential.password_hash := Credential.password_hash c;
    Credential.failed_attempts := if expired then 1 else Credential.failed_attempts c + 1;
    Credential.locked_until :=
      if expired then 0
      else if 5 <=? Credential.failed_attempts c + 1 then now + 900
      else Credential.locked_until c |}.

Definition reset_failures (c : Credential.t) : Credential.t := {|
  Credential.password_hash := Credential.password_hash c; Credential.failed_attempts := 0; Credential.locked_until := 0;
|}.

(** The credential both updates hit. *)
Definition open_credential (now id : Z) (hash : string) (d : Directory) : option Credential.t :=
  match local_user_credentials d !! id with
  | Some c => if (Credential.password_hash c =? hash)%string && (Credential.locked_until c <=? now) then Some c else None
  | None => None
  end.

Definition finish_local_login (now : Z) (token : string) (attempt : LoginAttempt) (d : Directory) :
    result (option UserSession) Error * Directory :=
  match la_user attempt with
  | None => (Ok None, d)
  | Some (id, hash) =>
      if la_locked attempt then (Ok None, d)
      else
        let hit := open_credential now id hash d in
        if negb (la_valid attempt) then
          match hit with
          | Some c => (Ok None, on_credentials <[id := count_failure now c]> d)
          | None => (Ok None, d)
          end
        else
          match hit with
          | None => (Ok None, d)
          | Some c =>
              match users (dir_accounts d) !! id with
              | Some u =>
                  if user_enabled u then
                    match insert_session now token "password" id u (on_credentials <[id := reset_failures c]> d) with
                    | (Ok session, d') =>
                        (Ok (Some session),
                         audit_dir now ("user:" +:+ show_uint id) "user_login_succeeded" "method=password" d')
                    | (Err e, _) => (Err e, d)
                    end
                  else (Ok None, d)
              | None => (Ok None, d)
              end
          end
  end.

Definition authenticate_local_user (now later : Z) (token username password : string) (d : Directory) :
    result (option UserSession) Error * Directory :=
  finish_local_login later token (begin_local_login now username password d) d.

(** The old hash with the new one, when the current password is right. *)
Definition begin_password_change (salt : string) (user_id : Z) (current replacement : string) (d : Directory) :
    option (string * string) :=
  match local_user_credentials d !! user_id with
  | Some c =>
      if argon2_matches current (Credential.password_hash c)
      then Some (Credential.password_hash c, argon2_hash salt replacement) else None
  | None => None
  end.

Definition finish_password_change (now user_id : Z) (change : option (string * string)) (d : Directory) :
    bool * Directory :=
  match change with
  | None => (false, d)
  | Some (previous, next) =>
      match local_user_credentials d !! user_id with
      | Some c =>
          if (Credential.password_hash c =? previous)%string then
            let d := on_credentials <[user_id := {|
              Credential.password_hash := next; Credential.failed_attempts := 0; Credential.locked_until := 0 |}]> d in
            let d := on_sessions (filter (fun p => Session.user_id p.2 <> user_id)) d in
            (true, audit_dir now ("user:" +:+ show_uint user_id) "user_password_changed" "all sessions revoked" d)
          else (false, d)
      | None => (false, d)
      end
  end.

Definition change_local_password (now : Z) (salt : string) (user_id : Z) (current replacement : string) (d : Directory) :
    bool * Directory :=
  finish_password_change now user_id (begin_password_change salt user_id current replacement d) d.
End Users.

(** ** The directory as a machine *)

Section Machine.
Context `{SecretApi}.

Definition empty_directory (a : Accounts) : Directory := {|
  dir_accounts := with_users (fun _ => ∅) a; next_user_id := 1; user_sessions := ∅; user_routing_ids := [];
  local_user_credentials := ∅; registration_invitations := ∅; next_invitation_id := 1;
|}.

(** The [INSERT] of [create_user_session] alone: the [SELECT] before it is not
    in the same transaction, so the user may have been disabled or deleted in
    between (rows of users are never removed). *)
Definition insert_session_late (now : Z) (token : string) (user_id : Z) (auth_method : string) (d : Directory) : Directory :=
  match users (dir_accounts d) !! user_id with
  | Some u => (insert_session now token auth_method user_id u d).2
  | None => d
  end.

(** Everything in this file that changes the directory. A login or a password
    change in flight may finish with any verdict, and a session may be
    inserted after its user was disabled.  The directory is also changed where
    an account is created for an external identity
    ([Sso.create_user_with_external_identity]): on the directory that is an
    [OpCreateUser] and an [OpAudit] ([Sso.external_account_ops]). *)
Inductive Op : Type :=
| OpCreateUser (now : Z) (draws : list Z) (actor email display_name : string) (routing_min_length : Z)
| OpSetDisabled (now : Z) (actor : string) (user_id : Z) (disabled : bool)
| OpSoftDelete (now : Z) (actor : string) (user_id : Z)
| OpRotate (now : Z) (draws : list Z) (actor : string) (user_id min_length cooldown_hours : Z) (bypass : bool)
| OpAuthenticate (now : Z) (token : string)
| OpLogout (token : string)
| OpNewSession (now : Z) (token : string) (user_id : Z) (auth_method : string)
| OpInsertSession (now : Z) (token : string) (user_id : Z) (auth_method : string)
| OpNewInvitation (now : Z) (token actor : string) (billing : AccountBilling.t) (ttl_hours : Z)
| OpRevokeInvitation (now : Z) (actor : string) (id : Z)
| OpCreateLocal (now : Z) (salt uuid : string) (draws : list Z) (input : LocalUserCreation)
| OpFinishLogin (now : Z) (token : string) (attempt : LoginAttempt)
| OpFinishChange (now user_id : Z) (change : option (string * string))
| OpAudit (now : Z) (actor action detail : string)
| OpBilling (now : Z) (actor : string) (user_id : Z) (group_id : option Z) (quota_mode : string) (limit : option Z).

Definition apply (op : Op) (d : Directory) : Directory :=
  match op with
  | OpCreateUser now draws actor email name len => (create_user now draws actor email name len d).2
  | OpSetDisabled now actor id disabled => (set_user_disabled now actor id disabled d).2
  | OpSoftDelete now actor id => (soft_delete_user now actor id d).2
  | OpRotate now draws actor id len cooldown bypass => (rotate_user_routing_id now draws actor id len cooldown bypass d).2
  | OpAuthenticate now token => (authenticate_user_session now token d).2
  | OpLogout token => logout_user token d
  | OpNewSession now token id method => (create_user_session now token id method d).2
  | OpInsertSession now token id method => insert_session_late now token id method d
  | OpNewInvitation now token actor billing ttl => (create_registration_invitation now token actor billing ttl d).2
  | OpRevokeInvitation now actor id => (revoke_registration_invitation now actor id d).2
  | OpCreateLocal now salt uuid draws input => (create_local_user now salt uuid draws input d).2
  | OpFinishLogin now token attempt => (finish_local_login now token attempt d).2
  | OpFinishChange now id change => (finish_password_change now id change d).2
  | OpAudit now actor action detail => audit_dir now actor action detail d
  | OpBilling now actor id group mode limit =>
      on_accounts (fun a => (set_user_billing_profile now actor id group mode limit a).2) d
  end.

Definition run_ops (ops : list Op) (d : Directory) : Directory := fold_left (fun d op => apply op d) ops d.

(** The users with an active routing id. *)
Definition active_users (rows : list RoutingId.t) : list Z :=
  RoutingId.user_id <$> filter (fun r => RoutingId.active r = true) rows.

Definition lower_id (r : RoutingId.t) : string := to_ascii_lowercase (RoutingId.routing_id r).

(** Well-formed, but for the routing id of the user [o] that is to get one. *)
Record wf_but (o : option Z) (d : Directory) : Prop := {
  wf_next : forall i u, users (dir_accounts d) !! i = Some u -> i < next_user_id d;
  wf_email : forall i j u v, users (dir_accounts d) !! i = Some u -> users (dir_accounts d) !! j = Some v ->
    User.email u = User.email v -> i = j;
  wf_username : forall i j u v m n, users (dir_accounts d) !! i = Some u -> users (dir_accounts d) !! j = Some v ->
    User.username u = Some m -> User.username v = Some n -> eq_ignore_ascii_case m n = true -> i = j;
  wf_ids : NoDup (lower_id <$> user_routing_ids d);
  wf_numbers : NoDup (RoutingId.public_number <$> user_routing_ids d);
  wf_active : NoDup (active_users (user_routing_ids d));
  wf_routed : forall i, i ∈ active_users (user_routing_ids d) <->
    (exists u, users (dir_accounts d) !! i = Some u /\ user_live u = true) /\ o <> Some i;
  wf_session : forall h s, user_sessions d !! h = Some s ->
    is_Some (users (dir_accounts d) !! Session.user_id s);
  wf_credential : forall i c, local_user_credentials d !! i = Some c -> is_Some (users (dir_accounts d) !! i);
  wf_links : forall i j x y, registration_invitations d !! i = Some x -> registration_invitations d !! j = Some y ->
    Invitation.token_hash x = Invitation.token_hash y -> i = j;
  wf_next_link : forall i x, registration_invitations d !! i = Some x -> i < next_invitation_id d;
}.

Notation wf := (wf_but None).

(** *** Routing ids *)

Lemma revoke_same (now user : Z) (r : RoutingId.t) :
  lower_id (RoutingId.revoke now user r) = lower_id r /\
  RoutingId.public_number (RoutingId.revoke now user r) = RoutingId.public_number r /\
  RoutingId.user_id (RoutingId.revoke now user r) = RoutingId.user_id r /\
  RoutingId.active (RoutingId.revoke now user r) = RoutingId.active r && negb (RoutingId.user_id r =? user).
Proof. unfold RoutingId.revoke. destruct (RoutingId.user_id r =? user), (RoutingId.active r) eqn:E; done. Qed.

Lemma revoke_keeps (now user : Z) (rows : list RoutingId.t) :
  lower_id <$> map (RoutingId.revoke now user) rows = lower_id <$> rows /\
  RoutingId.public_number <$> map (RoutingId.revoke now user) rows = RoutingId.public_number <$> rows.
Proof.
  split; rewrite <- list_fmap_compose; apply list_fmap_ext; intros ? r _; simpl; apply revoke_same.
Qed.

Lemma revoke_active (now user : Z) (rows : list RoutingId.t) :
  active_users (map (RoutingId.revoke now user) rows) = filter (fun i => i <> user) (active_users rows).
Proof.
  unfold active_users. induction rows as [|r rows IH]; [done|]. cbn [map].
  destruct (revoke_same now user r) as (_ & _ & Hu & Ha). rewrite !filter_cons, Ha.
  destruct (RoutingId.active r); cbn [andb].
  - rewrite (decide_True _ _ (eq_refl : true = true)), fmap_cons, filter_cons.
    destruct (Z.eqb_spec (RoutingId.user_id r) user) as [->|Hn]; cbn [negb].
    + rewrite decide_False by done. by rewrite decide_False by naive_solver.
    + rewrite decide_True, decide_True by done. rewrite fmap_cons, Hu. by f_equal.
  - by rewrite decide_False by done.
Qed.

Lemma try_routing_ids_Ok (draws : list Z) (user len now : Z) rows rows' id :
  try_routing_ids draws user len now rows = Ok (id, rows') ->
  exists n, routing_conflict user n id rows = false /\ is_reserved_routing_id id = false /\
    rows' = rows ++ [RoutingId.Build_t user n id true now None].
Proof.
  induction draws as [|draw draws IH]; [done|]. cbn [try_routing_ids].
  destruct (sqids_encode _ _) as [i|]; [|done]. case_bool; [done|]. case_bool; [done|].
  intros [= <- <-]. by eexists.
Qed.

Lemma routing_conflict_false (user n : Z) (id : string) (rows : list RoutingId.t) :
  routing_conflict user n id rows = false ->
  n ∉ (RoutingId.public_number <$> rows) /\ to_ascii_lowercase id ∉ (lower_id <$> rows) /\ user ∉ active_users rows.
Proof.
  unfold routing_conflict, active_users, eq_ignore_ascii_case. rewrite existsb_false_Forall, Forall_forall. intros Hf.
  split; [|split]; intros (r & Hr & Hin)%list_elem_of_fmap; [| |apply list_elem_of_filter in Hin as [Ha Hin]];
    apply Hf in Hin; apply orb_false_iff in Hin as [[H1 H2]%orb_false_iff H3].
  - bool_to_prop. congruence.
  - unfold lower_id in Hr. bool_to_prop. congruence.
  - rewrite Ha, andb_true_r in H3. bool_to_prop. congruence.
Qed.

(** *** What changes one table *)

(** Sessions may be dropped, or added for users. *)
Lemma wf_on_sessions (o : option Z) (f : gmap string Session.t -> gmap string Session.t) (d : Directory) :
  wf_but o d ->
  (forall h s, f (user_sessions d) !! h = Some s -> is_Some (users (dir_accounts d) !! Session.user_id s)) ->
  wf_but o (on_sessions f d).
Proof. intros [] Hf. split; done. Qed.

(** An update keeps the tokens of the invitations. *)
Definition keeps_tokens (f : gmap Z Invitation.t -> gmap Z Invitation.t) (m : gmap Z Invitation.t) : Prop :=
  forall i x, f m !! i = Some x -> exists y, m !! i = Some y /\ Invitation.token_hash x = Invitation.token_hash y.

Lemma keeps_tokens_insert (m : gmap Z Invitation.t) (i : Z) (x y : Invitation.t) :
  m !! i = Some y -> Invitation.token_hash x = Invitation.token_hash y -> keeps_tokens <[i := x]> m.
Proof. intros Hy He j z [[<- <-]|[_ Hz]]%lookup_insert_Some; [by exists y|by exists z]. Qed.

Lemma keeps_tokens_alter (m : gmap Z Invitation.t) (i : Z) (g : Invitation.t -> Invitation.t) :
  (forall x, Invitation.token_hash (g x) = Invitation.token_hash x) -> keeps_tokens (alter g i) m.
Proof. intros Hg j z [[-> (y & Hy & ->)]|[_ Hz]]%lookup_alter_Some; [by exists y|by exists z]. Qed.

Lemma wf_on_invitations (o : option Z) f (d : Directory) :
  wf_but o d -> keeps_tokens f (registration_invitations d) -> wf_but o (on_invitations f d).
Proof.
  intros [] Hf. split; try done; cbn.
  - intros i j x y (x' & Hx & ->)%Hf (y' & Hy & ->)%Hf. by apply wf_links0.
  - intros i x (x' & Hx & _)%Hf. by eapply wf_next_link0.
Qed.

Lemma wf_on_credentials (o : option Z) f (d : Directory) :
  wf_but o d ->
  (forall i c, f (local_user_credentials d) !! i = Some c -> is_Some (users (dir_accounts d) !! i)) ->
  wf_but o (on_credentials f d).
Proof. intros [] Hf. split; done. Qed.

(** Changes of other tables of the accounts. *)
Lemma wf_on_accounts (o : option Z) (f : Accounts -> Accounts) (d : Directory) :
  wf_but o d -> users (f (dir_accounts d)) = users (dir_accounts d) -> wf_but o (on_accounts f d).
Proof. intros [] Hf. split; cbn; rewrite ?Hf; done. Qed.

Lemma wf_audit (o : option Z) now actor action detail (d : Directory) :
  wf_but o d -> wf_but o (audit_dir now actor action detail d).
Proof. intros Hd. by apply wf_on_accounts. Qed.

Lemma wf_routing_new (draws : list Z) (user len now : Z) (id : string) (d d' : Directory) :
  wf_but (Some user) d -> (exists u, users (dir_accounts d) !! user = Some u /\ user_live u = true) ->
  insert_unique_routing_id draws user len now d = Ok (id, d') -> wf d'.
Proof.
  intros Hd Hu. unfold insert_unique_routing_id. destruct (try_routing_ids _ _ _ _ _) as [[i rows]|] eqn:E; [|done].
  intros [= <- <-]. apply try_routing_ids_Ok in E as (n & Hc & _ & ->).
  apply routing_conflict_false in Hc as (Hn & Hi & Ha). destruct Hd. split; cbn; try done.
  - rewrite fmap_app. apply NoDup_app. split; [done|]. split; [|apply NoDup_singleton]. set_solver.
  - rewrite fmap_app. apply NoDup_app. split; [done|]. split; [|apply NoDup_singleton]. set_solver.
  - unfold active_users in *. rewrite filter_app, fmap_app. apply NoDup_app. split; [done|].
    split; [|apply NoDup_singleton]. set_solver.
  - intros j. unfold active_users in *. rewrite filter_app, fmap_app, elem_of_app, wf_routed0. set_unfold.
    destruct (decide (j = user)) as [->|]; naive_solver.
Qed.

Lemma wf_revoke (now user : Z) (d : Directory) :
  wf d -> wf_but (Some user) (on_routing (map (RoutingId.revoke now user)) d).
Proof.
  intros []. destruct (revoke_keeps now user (user_routing_ids d)) as [E1 E2].
  split; cbn [on_routing dir_accounts next_user_id user_sessions user_routing_ids local_user_credentials];
    rewrite ?E1, ?E2, ?revoke_active; try done.
  - by apply NoDup_filter.
  - intros i. rewrite list_elem_of_filter, wf_routed0. naive_solver.
Qed.

Lemma user_conflict_false username email (a : Accounts) :
  user_conflict username email a = false ->
  forall i u, users a !! i = Some u -> User.email u <> email /\
    forall m n, username = Some m -> User.username u = Some n -> eq_ignore_ascii_case m n = false.
Proof.
  unfold user_conflict. rewrite existsb_false_Forall, Forall_forall. intros Hf i u Hu.
  apply elem_of_map_to_list, Hf in Hu. apply orb_false_iff in Hu as [H1 H2]. simpl in *. bool_to_prop. split; [done|].
  intros m n -> Hn. by rewrite Hn in H2.
Qed.

Lemma eq_ignore_ascii_case_sym (a b : string) : eq_ignore_ascii_case a b = eq_ignore_ascii_case b a.
Proof. unfold eq_ignore_ascii_case. apply String.eqb_sym. Qed.

Lemma wf_insert_user now username email name (d d' : Directory) (id : Z) :
  wf d -> insert_user now username email name d = Some (id, d') ->
  id = next_user_id d /\ wf_but (Some id) d' /\ exists u, users (dir_accounts d') !! id = Some u /\ user_live u = true.
Proof.
  unfold insert_user. intros Hd. destruct (user_conflict _ _ _) eqn:Hc; [done|]. intros [= <- <-].
  pose proof (user_conflict_false _ _ _ Hc) as Hf. split; [done|].
  assert (Hnew : forall i u, users (dir_accounts d) !! i = Some u -> i <> next_user_id d).
  { intros i u Hu ->. apply (wf_next _ _ Hd) in Hu. lia. }
  split; [|cbn; eexists; rewrite lookup_insert; by rewrite decide_True].
  destruct Hd. split; cbn.
  - intros i u [[<- _]|[_ Hu]]%lookup_insert_Some; [lia|]. apply wf_next0 in Hu. lia.
  - intros i j u v [[<- <-]|[Hi Hu]]%lookup_insert_Some [[<- <-]|[Hj Hv]]%lookup_insert_Some; simpl; intros He; try done.
    + by apply Hf in Hv as [? _].
    + by apply Hf in Hu as [? _].
    + by eapply wf_email0.
  - intros i j u v m n [[<- <-]|[Hi Hu]]%lookup_insert_Some [[<- <-]|[Hj Hv]]%lookup_insert_Some; simpl; intros Hm Hn He;
      try done.
    + apply Hf in Hv as [_ Hv]. specialize (Hv _ _ Hm Hn). congruence.
    + apply Hf in Hu as [_ Hu]. specialize (Hu _ _ Hn Hm). rewrite eq_ignore_ascii_case_sym in Hu. congruence.
    + by eapply wf_username0.
  - done.
  - done.
  - done.
  - intros i. rewrite wf_routed0. split.
    + intros ((u & Hu & Hl) & _). split; [exists u; rewrite lookup_insert_ne by (by apply not_eq_sym, (Hnew i u)); done|].
      intros [= He]. by apply (Hnew i u).
    + intros ((u & [[-> _]|[_ Hu]]%lookup_insert_Some & Hl) & Hn); [done|]. naive_solver.
  - intros h s Hi%wf_session0. apply lookup_insert_is_Some. destruct (decide (next_user_id d = Session.user_id s)); [by left|by right].
  - intros i c Hi%wf_credential0. apply lookup_insert_is_Some. destruct (decide (next_user_id d = i)); [by left|by right].
  - done.
  - done.
Qed.

(** A row of [users] changed in place. *)
Definition same_name (u v : User.t) : Prop := User.username u = User.username v /\ User.email u = User.email v.

Lemma wf_update_user (id : Z) (u v : User.t) (o : option Z) (d : Directory) :
  wf_but o d -> users (dir_accounts d) !! id = Some u -> same_name u v ->
  (user_live u = user_live v \/ user_live v = false /\ id ∉ active_users (user_routing_ids d)) ->
  wf_but o (on_accounts (with_users <[id := v]>) d).
Proof.
  intros Hd Hu [Hn He] Hl.
  assert (Hold : forall j w, <[id := v]> (users (dir_accounts d)) !! j = Some w ->
    exists x, users (dir_accounts d) !! j = Some x /\ same_name x w).
  { intros j w [[<- <-]|[_ Hj]]%lookup_insert_Some; [by exists u|]. by exists w. }
  destruct Hd. split; cbn; try done.
  - intros i w Hi. apply Hold in Hi as (x & Hx & _). by apply wf_next0 in Hx.
  - intros i j w w' (x & Hx & _ & Ex)%Hold (x' & Hx' & _ & Ex')%Hold E. eapply wf_email0; [done..|congruence].
  - intros i j w w' m n (x & Hx & Ex & _)%Hold (x' & Hx' & Ex' & _)%Hold Em En E.
    eapply wf_username0; [exact Hx|exact Hx'| | |exact E]; congruence.
  - intros i. rewrite wf_routed0. destruct (decide (i = id)) as [->|Hi].
    + rewrite lookup_insert, decide_True by done. destruct Hl as [Hl|[Hl Hna]].
      * naive_solver congruence.
      * rewrite wf_routed0 in Hna. naive_solver congruence.
    + by rewrite lookup_insert_ne by done.
  - intros h x Hx%wf_session0. apply lookup_insert_is_Some. destruct (decide (id = Session.user_id x)); [by left|by right].
  - intros i c Hi%wf_credential0. apply lookup_insert_is_Some. destruct (decide (id = i)); [by left|by right].
Qed.

Lemma wf_create_user now draws actor email name len (d : Directory) :
  wf d -> wf (create_user now draws actor email name len d).2.
Proof.
  intros Hd. unfold create_user. cbv zeta. destruct (insert_user _ _ _ _ _) as [[id d1]|] eqn:Ei; [|done].
  destruct (wf_insert_user _ _ _ _ _ _ _ Hd Ei) as (_ & Hd1 & Hu).
  destruct (insert_unique_routing_id _ _ _ _ _) as [[i d2]|] eqn:Er; [|done].
  apply wf_audit. by eapply wf_routing_new.
Qed.

Lemma wf_filter_sessions (o : option Z) (user : Z) (d : Directory) :
  wf_but o d -> wf_but o (on_sessions (filter (fun p => Session.user_id p.2 <> user)) d).
Proof. intros Hd. apply wf_on_sessions; [done|]. intros h s [Hs _]%map_lookup_filter_Some. by eapply wf_session. Qed.

(** Changing different tables commutes. *)
Lemma on_accounts_sessions f g (d : Directory) : on_accounts f (on_sessions g d) = on_sessions g (on_accounts f d).
Proof. done. Qed.

Lemma wf_set_user_disabled now actor id disabled (d : Directory) :
  wf d -> wf (set_user_disabled now actor id disabled d).2.
Proof.
  intros Hd. unfold set_user_disabled. destruct (users _ !! id) as [u|] eqn:Hu; [|done].
  destruct (user_live u) eqn:Hl; [|done]. cbv zeta. apply wf_audit. destruct disabled.
  - rewrite <- on_accounts_sessions. eapply wf_update_user; [by apply wf_filter_sessions|exact Hu|done|by left].
  - eapply wf_update_user; [done|exact Hu|done|by left].
Qed.

Lemma wf_soft_delete_user now actor id (d : Directory) : wf d -> wf (soft_delete_user now actor id d).2.
Proof.
  intros Hd. unfold soft_delete_user. destruct (users _ !! id) as [u|] eqn:Hu; [|done].
  destruct (user_live u) eqn:Hl; [|done]. cbv zeta. apply wf_audit, wf_on_accounts; [|done].
  set (d1 := on_sessions (filter (fun p => Session.user_id p.2 <> id)) d).
  assert (Hb : wf_but (Some id) (on_accounts (with_users <[id := set_deleted now u]>)
                 (on_routing (map (RoutingId.revoke now id)) d1))).
  { eapply wf_update_user; [by apply wf_revoke, wf_filter_sessions|exact Hu|done|].
    right. split; [done|]. cbn [on_routing on_sessions user_routing_ids]. rewrite revoke_active, list_elem_of_filter. naive_solver. }
  change (wf (on_accounts (with_users <[id := set_deleted now u]>) (on_routing (map (RoutingId.revoke now id)) d1))).
  destruct Hb. split; try done. intros i. rewrite wf_routed0. split; [naive_solver|]. intros [(v & Hv & Hlv) _].
  split; [by exists v|]. intros [= <-]. cbn in Hv. rewrite lookup_insert, decide_True in Hv by done. by simplify_eq.
Qed.

Lemma wf_rotate now draws actor id len cooldown bypass (d : Directory) :
  wf d -> wf (rotate_user_routing_id now draws actor id len cooldown bypass d).2.
Proof.
  intros Hd. unfold rotate_user_routing_id, user_account. destruct (users _ !! id) as [u|] eqn:Hu; [|done].
  destruct (active_routing_id _ _); [|done]. destruct (user_live u) eqn:Hl; [|done]. cbv zeta. case_bool; [done|].
  destruct (insert_unique_routing_id _ _ _ _ _) as [[i d2]|] eqn:Er; [|done].
  apply wf_audit. eapply wf_routing_new; [by apply wf_revoke| |exact Er]. by exists u.
Qed.

Lemma wf_authenticate now token (d : Directory) : wf d -> wf (authenticate_user_session now token d).2.
Proof.
  intros Hd. unfold authenticate_user_session. destruct (user_sessions d !! _) as [s|] eqn:Hs; [|done].
  destruct (users _ !! _) as [u|] eqn:Hu; [|done]. case_bool; [|done].
  apply wf_on_sessions; [done|]. intros h x [[<- <-]|[_ Hx]]%lookup_insert_Some; [|by eapply wf_session].
  by exists u.
Qed.

Lemma wf_insert_session now token method id u (d d' : Directory) r :
  wf d -> is_Some (users (dir_accounts d) !! id) -> insert_session now token method id u d = (r, d') -> wf d'.
Proof.
  intros Hd Hu. unfold insert_session. destruct (user_sessions d !! _); intros [= _ <-]; [done|].
  apply wf_on_sessions; [done|]. intros h x [[<- <-]|[_ Hx]]%lookup_insert_Some; [done|]. by eapply wf_session.
Qed.

Lemma claimable_Some now token (d : Directory) (i : Z) (x : Invitation.t) :
  claimable now token d = Some (i, x) ->
  registration_invitations d !! i = Some x /\ Invitation.token_hash x = hash_token token /\
  Invitation.status x = "pending" /\ now < Invitation.expires_at x.
Proof.
  intros (pre & [i' x'] & post & Hl & Hx & _)%find_map_Some. case_bool; [|done]. simplify_eq. bool_to_prop.
  split; [|done]. apply elem_of_map_to_list. rewrite Hl. set_solver.
Qed.

Lemma claim_invitation_same now input (d d' : Directory) inv billing :
  claim_invitation now input d = Some (inv, billing, d') ->
  exists f, d' = on_invitations f d /\ keeps_tokens f (registration_invitations d).
Proof.
  unfold claim_invitation. destruct (lc_invitation_token input) as [token|].
  - destruct (claimable _ _ _) as [[i x]|] eqn:Ec; [|done]. intros [= _ _ <-]. eexists. split; [done|].
    apply claimable_Some in Ec as (Hx & _). by eapply keeps_tokens_insert.
  - intros [= _ _ <-]. exists (fun x => x). split; [by destruct d|]. intros i x Hx. by exists x.
Qed.

Lemma wf_create_local_user now salt uuid draws input (d : Directory) :
  wf d -> wf (create_local_user now salt uuid draws input d).2.
Proof.
  intros Hd. unfold create_local_user. destruct (AccountBilling.validate _); [|done].
  destruct (claim_invitation _ _ _) as [[[inv billing] d1]|] eqn:Ec; [|done].
  apply claim_invitation_same in Ec as (f & -> & Hf). case_bool; [done|].
  destruct (insert_user _ _ _ _ _) as [[id d2]|] eqn:Ei; [|done].
  apply wf_insert_user in Ei as (_ & Hd2 & Hu); [|by apply wf_on_invitations].
  destruct (insert_unique_routing_id _ _ _ _ _) as [[i d3]|] eqn:Er; [|done]. cbv zeta. cbn [snd].
  assert (Hu3 : users (dir_accounts d3) = users (dir_accounts d2)).
  { unfold insert_unique_routing_id in Er. destruct (try_routing_ids _ _ _ _ _) as [[? ?]|]; [|done]. by simplify_eq/=. }
  eapply wf_routing_new in Er; [|exact Hd2|exact Hu].
  apply wf_audit. assert (forall d4, wf d4 -> wf (match inv with
      | Some i => on_invitations (alter (Invitation.set_user id) i) d4 | None => d4 end)) as Hi
    by (intros; destruct inv; [by apply wf_on_invitations, keeps_tokens_alter|done]).
  apply Hi, wf_on_accounts; [|done]. apply wf_on_credentials; [done|].
  intros j c [[<- _]|[_ Hj]]%lookup_insert_Some; [|by eapply wf_credential].
  rewrite Hu3. destruct Hu as (u & -> & _). by eexists.
Qed.

Lemma wf_finish_local_login now token attempt (d : Directory) : wf d -> wf (finish_local_login now token attempt d).2.
Proof.
  intros Hd. unfold finish_local_login. destruct (la_user attempt) as [[id hash]|]; [|done].
  destruct (la_locked attempt); [done|]. cbv zeta.
  assert (Hc : forall c c', open_credential now id hash d = Some c -> wf (on_credentials <[id := c']> d)).
  { intros c c'. unfold open_credential. destruct (local_user_credentials d !! id) eqn:El; [|done]. intros _.
    apply wf_on_credentials; [done|]. intros j x [[<- _]|[_ Hj]]%lookup_insert_Some; by eapply wf_credential. }
  destruct (la_valid attempt), (open_credential now id hash d) as [c|]; cbn [negb]; try done; [|by eapply Hc].
  destruct (users _ !! id) as [u|] eqn:Hu; [|done]. destruct (user_enabled u) eqn:He; [|done].
  destruct (insert_session _ _ _ _ _ _) as [[session|] d'] eqn:Es; [|done].
  apply wf_audit. eapply wf_insert_session; [| |exact Es]; [by eapply Hc|by exists u].
Qed.

Lemma wf_finish_password_change now id change (d : Directory) :
  wf d -> wf (finish_password_change now id change d).2.
Proof.
  intros Hd. unfold finish_password_change. destruct change as [[previous next]|]; [|done].
  destruct (local_user_credentials d !! id) as [c|] eqn:Hc; [|done]. case_bool; [|done]. cbv zeta.
  apply wf_audit, wf_filter_sessions, wf_on_credentials; [done|].
  intros j x [[<- _]|[_ Hj]]%lookup_insert_Some; by eapply wf_credential.
Qed.

(** The directory with a new invitation. *)
Definition with_link (x : Invitation.t) (d : Directory) : Directory := {|
  dir_accounts := dir_accounts d; next_user_id := next_user_id d; user_sessions := user_sessions d;
  user_routing_ids := user_routing_ids d; local_user_credentials := local_user_credentials d;
  registration_invitations := <[next_invitation_id d := x]> (registration_invitations d);
  next_invitation_id := next_invitation_id d + 1;
|}.

Lemma wf_new_link (x : Invitation.t) (d : Directory) :
  wf d ->
  existsb (fun p => (Invitation.token_hash p.2 =? Invitation.token_hash x)%string)
    (map_to_list (registration_invitations d)) = false ->
  wf (with_link x d).
Proof.
  rewrite existsb_false_Forall, Forall_forall. intros [] Hf. split; try done; cbn.
  - assert (Hne : forall j y, registration_invitations d !! j = Some y -> Invitation.token_hash y <> Invitation.token_hash x).
    { intros j y Hy%elem_of_map_to_list%Hf. by bool_to_prop. }
    intros i j y z [[<- <-]|[_ Hy]]%lookup_insert_Some [[<- <-]|[_ Hz]]%lookup_insert_Some He; try done.
    + by apply Hne in Hz.
    + by apply Hne in Hy.
    + by eapply wf_links0.
  - intros i y [[<- _]|[_ Hy]]%lookup_insert_Some; [lia|]. apply wf_next_link0 in Hy. lia.
Qed.

Lemma wf_apply (op : Op) (d : Directory) : wf d -> wf (apply op d).
Proof.
  intros Hd. destruct op; cbn [apply]; auto using wf_create_user, wf_set_user_disabled, wf_soft_delete_user, wf_rotate,
    wf_authenticate, wf_create_local_user, wf_finish_local_login, wf_finish_password_change, wf_audit.
  - apply wf_on_sessions; [done|]. intros h s [_ Hs]%lookup_delete_Some. by eapply wf_session.
  - unfold create_user_session. destruct (users _ !! _) as [u|] eqn:Hu; [|done]. destruct (user_enabled u) eqn:He; [|done].
    destruct (insert_session _ _ _ _ _ _) as [[session|] d'] eqn:Es; (eapply wf_insert_session; [exact Hd|by exists u|exact Es]).
  - unfold insert_session_late. destruct (users _ !! _) as [u|] eqn:Hu; [|done].
    eapply wf_insert_session; [exact Hd|by exists u|apply surjective_pairing].
  - unfold create_registration_invitation. destruct (AccountBilling.validate _); [|done]. case_bool; [done|].
    case_bool; [done|]. cbv zeta. apply wf_audit. apply wf_new_link; [done|]. by rewrite <- Heqb0.
  - unfold revoke_registration_invitation. destruct (registration_invitations d !! _) eqn:Hx; [|done].
    case_bool; [|done]. apply wf_audit, wf_on_invitations; [done|]. by eapply keeps_tokens_insert.
  - apply wf_on_accounts; [done|]. unfold set_user_billing_profile. by repeat case_bool.
Qed.

Lemma wf_run_ops (ops : list Op) (d : Directory) : wf d -> wf (run_ops ops d).
Proof. revert d. induction ops as [|op ops IH]; intros d Hd; [done|]. by apply IH, wf_apply. Qed.

Lemma wf_empty (a : Accounts) : wf (empty_directory a).
Proof. split; cbn; try done; try constructor; intros; set_solver. Qed.

(** *** What routing ids name *)

(** Rows are only added or revoked. *)
Definition later_rows (rows rows' : list RoutingId.t) : Prop :=
  forall r, r ∈ rows -> exists r', r' ∈ rows' /\ lower_id r' = lower_id r /\
    (RoutingId.active r = false -> RoutingId.active r' = false).

#[export] Instance later_rows_preorder : PreOrder later_rows.
Proof.
  split; [intros rows r Hr; by exists r|].
  intros r1 r2 r3 H1 H2 r Hr. destruct (H1 r Hr) as (r' & Hr' & E' & A'), (H2 r' Hr') as (r'' & Hr'' & E'' & A'').
  exists r''. split; [done|]. split; [congruence|]. auto.
Qed.

Lemma later_revoke now user rows : later_rows rows (map (RoutingId.revoke now user) rows).
Proof.
  intros r Hr. exists (RoutingId.revoke now user r). destruct (revoke_same now user r) as (-> & _ & _ & ->).
  split; [by apply list_elem_of_fmap_2|]. split; [done|]. by intros ->.
Qed.

Lemma later_insert draws user len now id (d d' : Directory) :
  insert_unique_routing_id draws user len now d = Ok (id, d') -> later_rows (user_routing_ids d) (user_routing_ids d').
Proof.
  unfold insert_unique_routing_id. destruct (try_routing_ids _ _ _ _ _) as [[i rows]|] eqn:E; [|done].
  intros [= _ <-] r Hr. apply try_routing_ids_Ok in E as (n & _ & _ & ->). exists r. cbn. set_solver.
Qed.

Lemma later_apply (op : Op) (d : Directory) : later_rows (user_routing_ids d) (user_routing_ids (apply op d)).
Proof.
  assert (Hsame : forall rows, later_rows rows rows) by (intros; reflexivity).
  assert (Hu : forall now u e n d d' i, insert_user now u e n d = Some (i, d') -> user_routing_ids d' = user_routing_ids d)
    by (unfold insert_user; intros until i; by case_bool; intros; simplify_eq).
  destruct op; cbn [apply]; try apply Hsame.
  - unfold create_user. destruct (insert_user _ _ _ _ _) as [[i d1]|] eqn:Ei; [|done].
    destruct (insert_unique_routing_id _ _ _ _ _) as [[r d2]|] eqn:Er; [|done].
    apply later_insert in Er. by rewrite (Hu _ _ _ _ _ _ _ Ei) in Er.
  - unfold set_user_disabled. destruct (users _ !! _); [|done]. case_bool; [|done]. by destruct disabled.
  - unfold soft_delete_user. destruct (users _ !! _); [|done]. case_bool; [|done]. apply later_revoke.
  - unfold rotate_user_routing_id. destruct (user_account _ _); [|done]. case_bool; [done|].
    destruct (insert_unique_routing_id _ _ _ _ _) as [[r d2]|] eqn:Er; [|done].
    apply later_insert in Er. etransitivity; [apply (later_revoke now user_id)|exact Er].
  - unfold authenticate_user_session. destruct (user_sessions d !! _); [|done]. destruct (users _ !! _); [|done].
    by case_bool.
  - unfold create_user_session, insert_session. destruct (users _ !! _); [|done]. case_bool; [|done].
    by destruct (user_sessions d !! _).
  - unfold insert_session_late, insert_session. destruct (users _ !! _); [|done]. by destruct (user_sessions d !! _).
  - unfold create_registration_invitation. destruct (AccountBilling.validate _); [|done]. by repeat case_bool.
  - unfold revoke_registration_invitation. destruct (registration_invitations d !! _); [|done]. by case_bool.
  - unfold create_local_user. destruct (AccountBilling.validate _); [|done].
    destruct (claim_invitation _ _ _) as [[[inv billing] d1]|] eqn:Ec; [|done].
    apply claim_invitation_same in Ec as (f & -> & _). case_bool; [done|].
    destruct (insert_user _ _ _ _ _) as [[i d2]|] eqn:Ei; [|done].
    destruct (insert_unique_routing_id _ _ _ _ _) as [[r d3]|] eqn:Er; [|done].
    apply later_insert in Er. rewrite (Hu _ _ _ _ _ _ _ Ei) in Er. by destruct inv.
  - unfold finish_local_login, insert_session. destruct (la_user attempt) as [[i hash]|]; [|done].
    case_bool; [done|]. cbv zeta. destruct (open_credential _ _ _ _), (la_valid attempt); cbn [negb]; try done.
    destruct (users _ !! _); [|done]. case_bool; [|done]. by destruct (user_sessions _ !! _).
  - unfold finish_password_change. destruct change as [[previous next]|]; [|done].
    destruct (local_user_credentials d !! _); [|done]. by case_bool.
Qed.

Lemma later_run (ops : list Op) (d : Directory) : later_rows (user_routing_ids d) (user_routing_ids (run_ops ops d)).
Proof.
  revert d. induction ops as [|op ops IH]; intros d; [done|].
  etransitivity; [apply later_apply|]. apply IH.
Qed.

(** No two rows have the same routing id. *)
Lemma find_by_routing_id_Some (d : Directory) (label : string) (user : Z) (id : string) :
  wf d ->
  find_by_routing_id label (user_routing_ids d) (dir_accounts d) = Some (user, id) <->
  exists r u, r ∈ user_routing_ids d /\ RoutingId.active r = true /\ RoutingId.user_id r = user /\
    RoutingId.routing_id r = id /\ eq_ignore_ascii_case id label = true /\
    users (dir_accounts d) !! user = Some u /\ user_enabled u = true.
Proof.
  intros Hd. unfold find_by_routing_id. rewrite find_map_Some. split.
  - intros (pre & r & post & Hl & Hr & _). case_bool; [|done]. simplify_eq. bool_to_prop.
    destruct (users _ !! RoutingId.user_id r) as [u|] eqn:Hu; [|done]. exists r, u. rewrite Hl. set_solver.
  - intros (r & u & Hr & Ha & <- & <- & He & Hu & Hen). apply list_elem_of_split in Hr as (pre & post & Hl).
    exists pre, r, post. rewrite He, Ha, Hu, Hen. split; [done|]. split; [done|].
    apply Forall_forall. intros x Hx. case_bool; [|done]. bool_to_prop. exfalso.
    assert (Hn : NoDup (lower_id <$> user_routing_ids d)) by apply (wf_ids _ _ Hd).
    rewrite Hl, fmap_app, fmap_cons in Hn. apply NoDup_app in Hn as (_ & Hn & _).
    unfold eq_ignore_ascii_case in *. bool_to_prop. apply (Hn (lower_id x)); [by apply list_elem_of_fmap_2|].
    assert (lower_id x = lower_id r) as -> by (unfold lower_id; congruence). apply list_elem_of_here.
Qed.

Lemma active_routing_id_Some (o : option Z) (d : Directory) (user : Z) (r : RoutingId.t) :
  wf_but o d ->
  active_routing_id user d = Some r <->
  r ∈ user_routing_ids d /\ RoutingId.user_id r = user /\ RoutingId.active r = true.
Proof.
  intros Hd. unfold active_routing_id, find_first. rewrite find_map_Some. split.
  - intros (pre & x & post & Hl & Hx & _). case_bool; [|done]. simplify_eq. bool_to_prop. rewrite Hl. set_solver.
  - intros (Hr & <- & Ha). apply list_elem_of_split in Hr as (pre & post & Hl). exists pre, r, post.
    rewrite Z.eqb_refl, Ha. split; [done|]. split; [done|]. apply Forall_forall. intros x Hx. case_bool; [|done].
    bool_to_prop. exfalso. pose proof (wf_active _ _ Hd) as Hn. unfold active_users in Hn.
    rewrite Hl, filter_app, filter_cons, decide_True, fmap_app, fmap_cons in Hn by done.
    apply NoDup_app in Hn as (_ & Hn & _). apply (Hn (RoutingId.user_id x)).
    + apply list_elem_of_fmap_2. by apply list_elem_of_filter.
    + match goal with E : RoutingId.user_id x = _ |- _ => rewrite E end. apply list_elem_of_here.
Qed.

Lemma user_account_Some (d : Directory) (user : Z) (acct : UserAccount) :
  wf d ->
  user_account user d = Some acct ->
  exists r u, r ∈ user_routing_ids d /\ RoutingId.user_id r = user /\ RoutingId.active r = true /\
    users (dir_accounts d) !! user = Some u /\ user_live u = true /\
    ua_routing_id acct = RoutingId.routing_id r /\ ua_disabled acct = User.disabled u.
Proof.
  intros Hd. unfold user_account. destruct (users _ !! user) as [u|] eqn:Hu; [|done].
  destruct (active_routing_id user d) as [r|] eqn:Hr; [|done]. apply (active_routing_id_Some _ _ _ _ Hd) in Hr.
  destruct (user_live u) eqn:Hl; [|done]. intros [= <-]. exists r, u. naive_solver.
Qed.

(** Every user who is not deleted has an account with a routing id. *)
Lemma user_account_total (d : Directory) (user : Z) (u : User.t) :
  wf d -> users (dir_accounts d) !! user = Some u -> user_live u = true -> is_Some (user_account user d).
Proof.
  intros Hd Hu Hl. unfold user_account. rewrite Hu, Hl.
  assert (Ha : user ∈ active_users (user_routing_ids d)) by (apply (wf_routed _ _ Hd); split; [by exists u|done]).
  unfold active_users in Ha. apply list_elem_of_fmap in Ha as (r & -> & [Har Hr]%list_elem_of_filter).
  destruct (active_routing_id _ d) as [r'|] eqn:E; [by eexists|].
  assert (active_routing_id (RoutingId.user_id r) d = Some r) by (by apply (active_routing_id_Some _ _ _ _ Hd)).
  congruence.
Qed.

(** C4: a routing id names one user, and never another one. After any sequence
    of operations a host label resolves to a user exactly when it is, without
    regard to case, the routing id of an account that is neither disabled nor
    deleted; every account has one; and an id that was rotated away or
    belonged to a deleted user is never given out again, so that old links
    cannot spend a stranger's quota. *)
Theorem routing_ids_name_users (a : Accounts) (ops : list Op) :
  let d := run_ops ops (empty_directory a) in
  (forall label user id,
     find_by_routing_id label (user_routing_ids d) (dir_accounts d) = Some (user, id) <->
     exists acct, user_account user d = Some acct /\ ua_disabled acct = false /\ ua_routing_id acct = id /\
       eq_ignore_ascii_case id label = true) /\
  (forall user u, users (dir_accounts d) !! user = Some u -> user_live u = true -> is_Some (user_account user d)) /\
  (forall r more, r ∈ user_routing_ids d -> RoutingId.active r = false ->
     let d' := run_ops more d in
     find_by_routing_id (RoutingId.routing_id r) (user_routing_ids d') (dir_accounts d') = None).
Proof.
  cbv zeta. set (d := run_ops ops _). assert (Hd : wf d) by apply wf_run_ops, wf_empty. split; [|split].
  - intros label user id. rewrite find_by_routing_id_Some by done. split.
    + intros (r & u & Hr & Ha & <- & <- & He & Hu & Hen). unfold user_enabled in Hen. bool_to_prop.
      destruct (user_account_total d _ u Hd Hu) as [acct Ht]; [done|]. exists acct. split; [done|].
      destruct (user_account_Some _ _ _ Hd Ht) as (r' & u' & Hr' & Hi & Ha' & Hu' & _ & -> & ->).
      assert (r' = r) as ->; [|naive_solver congruence].
      assert (Hone : forall x, x ∈ user_routing_ids d -> RoutingId.user_id x = RoutingId.user_id r ->
        RoutingId.active x = true -> active_routing_id (RoutingId.user_id r) d = Some x)
        by (intros; by apply (active_routing_id_Some _ _ _ _ Hd)).
      pose proof (Hone r Hr eq_refl Ha). pose proof (Hone r' Hr' Hi Ha'). congruence.
    + intros (acct & Ht & Hdis & <- & He).
      destruct (user_account_Some _ _ _ Hd Ht) as (r & u & Hr & Hi & Ha & Hu & Hl & Hid & Hdu).
      exists r, u. rewrite Hid in *. unfold user_enabled. rewrite <- Hdu, Hdis, Hl. done.
  - intros user u. by apply user_account_total.
  - intros r more Hr Ha. destruct (find_by_routing_id _ _ _) as [[user id]|] eqn:E; [|done]. exfalso.
    pose proof (wf_run_ops more d Hd) as Hd'. apply (find_by_routing_id_Some _ _ _ _ Hd') in E.
    destruct E as (x & u & Hx & Hxa & _ & Hid & He & _). destruct (later_run more d r Hr) as (r' & Hr' & El & Ha').
    assert (x = r') as ->; [|rewrite Ha' in Hxa; done].
    eapply (NoDup_fmap_inj lower_id); [apply (wf_ids _ _ Hd')|done|done|]. rewrite El. unfold lower_id. rewrite Hid.
    unfold eq_ignore_ascii_case in He. by bool_to_prop.
Qed.

(** *** How sessions end *)

(** An operation that gives out no session under the hash of [token]. *)
Definition fresh_for (token : string) (op : Op) : Prop :=
  match op with
  | OpNewSession _ t _ _ | OpInsertSession _ t _ _ | OpFinishLogin _ t _ => hash_token t <> hash_token token
  | _ => True
  end.

(** An operation that ends the session of [token], which belongs to [user]. *)
Definition revokes (op : Op) (user : Z) (token : string) (d : Directory) : Prop :=
  match op with
  | OpLogout t => hash_token t = hash_token token
  | OpSetDisabled now actor id disabled =>
      id = user /\ disabled = true /\ (set_user_disabled now actor id disabled d).1 = true
  | OpSoftDelete now actor id => id = user /\ (soft_delete_user now actor id d).1 = true
  | OpFinishChange now id change => id = user /\ (finish_password_change now id change d).1 = true
  | _ => False
  end.

(** Sessions of [m'] are those of [m], used or not. *)
Definition older_sessions (token : string) (m m' : gmap string Session.t) : Prop :=
  forall s', m' !! hash_token token = Some s' ->
  exists s, m !! hash_token token = Some s /\ Session.expires_at s' = Session.expires_at s.

Lemma older_same token m : older_sessions token m m.
Proof. intros s Hs. by exists s. Qed.

Lemma older_filter token (P : string * Session.t -> Prop) `{forall x, Decision (P x)} m : older_sessions token m (filter P m).
Proof. intros s [Hs _]%map_lookup_filter_Some. by exists s. Qed.

Lemma insert_session_other now t token method id u (d d' : Directory) r :
  insert_session now t method id u d = (r, d') -> hash_token t <> hash_token token ->
  older_sessions token (user_sessions d) (user_sessions d').
Proof.
  unfold insert_session. destruct (user_sessions d !! _); intros [= _ <-] Hn s; [by exists s|].
  cbn. rewrite lookup_insert_ne by done. by exists s.
Qed.

Lemma older_apply (token : string) (op : Op) (d : Directory) :
  fresh_for token op -> older_sessions token (user_sessions d) (user_sessions (apply op d)).
Proof.
  intros Hf. assert (Hu : forall now u e n d d' i, insert_user now u e n d = Some (i, d') -> user_sessions d' = user_sessions d)
    by (unfold insert_user; intros until i; by case_bool; intros; simplify_eq).
  assert (Hr : forall draws user len now id d d', insert_unique_routing_id draws user len now d = Ok (id, d') ->
    user_sessions d' = user_sessions d).
  { unfold insert_unique_routing_id. intros until d'. destruct (try_routing_ids _ _ _ _ _) as [[? ?]|]; [|done].
    by intros [= _ <-]. }
  destruct op; cbn [apply fresh_for] in *; try apply older_same.
  - unfold create_user. destruct (insert_user _ _ _ _ _) as [[i d1]|] eqn:Ei; [|apply older_same].
    destruct (insert_unique_routing_id _ _ _ _ _) as [[r d2]|] eqn:Er; [|apply older_same].
    cbn. rewrite (Hr _ _ _ _ _ _ _ Er), (Hu _ _ _ _ _ _ _ Ei). apply older_same.
  - unfold set_user_disabled. destruct (users _ !! _); [|apply older_same]. case_bool; [|apply older_same].
    destruct disabled; [apply older_filter|apply older_same].
  - unfold soft_delete_user. destruct (users _ !! _); [|apply older_same]. case_bool; [|apply older_same].
    apply older_filter.
  - unfold rotate_user_routing_id. destruct (user_account _ _); [|apply older_same]. case_bool; [apply older_same|].
    destruct (insert_unique_routing_id _ _ _ _ _) as [[r d2]|] eqn:Er; [|apply older_same].
    cbn. rewrite (Hr _ _ _ _ _ _ _ Er). apply older_same.
  - unfold authenticate_user_session. destruct (user_sessions d !! _) as [s|] eqn:Hs; [|apply older_same].
    destruct (users _ !! _); [|apply older_same]. case_bool; [|apply older_same].
    intros s' Hs'. cbn in Hs'. apply lookup_insert_Some in Hs' as [[E <-]|[_ Hs']]; [|by exists s'].
    rewrite E in Hs. by exists s.
  - intros s Hs. cbn in Hs. apply lookup_delete_Some in Hs as [_ Hs]. by exists s.
  - unfold create_user_session. destruct (users _ !! _); [|apply older_same]. case_bool; [|apply older_same].
    destruct (insert_session _ _ _ _ _ _) as [[session|] d'] eqn:Es; by eapply insert_session_other.
  - unfold insert_session_late. destruct (users _ !! _) as [u|]; [|apply older_same].
    eapply insert_session_other; [apply surjective_pairing|exact Hf].
  - unfold create_registration_invitation. destruct (AccountBilling.validate _); repeat case_bool; apply older_same.
  - unfold revoke_registration_invitation. destruct (registration_invitations d !! _); [case_bool|]; apply older_same.
  - unfold create_local_user. destruct (AccountBilling.validate _); [|apply older_same].
    destruct (claim_invitation _ _ _) as [[[inv billing] d1]|] eqn:Ec; [|apply older_same].
    apply claim_invitation_same in Ec as (f & -> & _). case_bool; [apply older_same|].
    destruct (insert_user _ _ _ _ _) as [[i d2]|] eqn:Ei; [|apply older_same].
    destruct (insert_unique_routing_id _ _ _ _ _) as [[r d3]|] eqn:Er; [|apply older_same].
    assert (user_sessions d3 = user_sessions d) as E by (by rewrite (Hr _ _ _ _ _ _ _ Er), (Hu _ _ _ _ _ _ _ Ei)).
    destruct inv; cbn; rewrite E; apply older_same.
  - unfold finish_local_login. destruct (la_user attempt) as [[i hash]|]; [|apply older_same].
    case_bool; [apply older_same|]. cbv zeta.
    destruct (open_credential _ _ _ _), (la_valid attempt); cbn [negb]; try apply older_same.
    destruct (users _ !! _); [|apply older_same]. case_bool; [|apply older_same].
    destruct (insert_session _ _ _ _ _ _) as [[session|] d'] eqn:Es; [|apply older_same].
    by apply (insert_session_other _ _ token) in Es.
  - unfold finish_password_change. destruct change as [[previous next]|]; [|apply older_same].
    destruct (local_user_credentials d !! _); [|apply older_same]. case_bool; [|apply older_same]. apply older_filter.
Qed.

Lemma older_run (token : string) (ops : list Op) (d : Directory) :
  Forall (fresh_for token) ops -> older_sessions token (user_sessions d) (user_sessions (run_ops ops d)).
Proof.
  intros Hf. revert d. induction Hf as [|op ops Hop Hf IH]; intros d; [apply older_same|].
  intros s Hs. apply IH in Hs as (s1 & Hs & ->). by apply older_apply in Hs.
Qed.

Lemma no_session (now : Z) (token : string) (d : Directory) :
  (forall s, user_sessions d !! hash_token token = Some s -> Session.expires_at s <= now) ->
  (authenticate_user_session now token d).1 = None.
Proof.
  intros Hs. unfold authenticate_user_session. destruct (user_sessions d !! _) as [s|]; [|done].
  destruct (users _ !! _); [|done]. destruct (Z.ltb_spec now (Session.expires_at s)); [|done].
  specialize (Hs s eq_refl). lia.
Qed.

(** C3: sessions end, and stay ended. Whatever happens afterwards, as long as
    nobody is given the same token again: from its expiry, which using the
    session does not move, a token authenticates nobody; and once its user
    logged out with it, was disabled or deleted, or changed the password, it
    never authenticates anybody again, not even when the user is enabled
    again. *)
Theorem sessions_end_for_good (token : string) (s : Session.t) (d : Directory) (ops : list Op) :
  user_sessions d !! hash_token token = Some s -> Forall (fresh_for token) ops ->
  (forall now, Session.expires_at s <= now -> (authenticate_user_session now token (run_ops ops d)).1 = None) /\
  (forall op, revokes op (Session.user_id s) token d ->
   forall now, (authenticate_user_session now token (run_ops ops (apply op d))).1 = None).
Proof.
  intros Hs Hf. split.
  - intros now Hn. apply no_session. intros s' Hs'. apply older_run in Hs' as (s0 & Hs0 & ->); [|done].
    by simplify_eq.
  - intros op Hop now. apply no_session. intros s' Hs'. apply older_run in Hs' as (s0 & Hs0 & _); [|done]. exfalso.
    assert (Hgone : filter (fun p => Session.user_id p.2 <> Session.user_id s) (user_sessions d) !! hash_token token =
      Some s0 -> False).
    { intros [H1 H2]%map_lookup_filter_Some. by simplify_eq. }
    destruct op; cbn [revokes apply] in *; try done.
    + destruct Hop as (-> & -> & Hop). unfold set_user_disabled in *. destruct (users _ !! _); [|done].
      case_bool; [|done]. by apply Hgone.
    + destruct Hop as (-> & Hop). unfold soft_delete_user in *. destruct (users _ !! _); [|done].
      case_bool; [|done]. by apply Hgone.
    + cbn in Hs0. apply lookup_delete_Some in Hs0 as [Hne _]. congruence.
    + destruct Hop as (-> & Hop). unfold finish_password_change in *. destruct change as [[previous next]|]; [|done].
      destruct (local_user_credentials d !! _); [|done]. case_bool; [|done]. by apply Hgone.
Qed.

(** *** Guessing passwords *)

(** A wrong password for [id] that the code checked while the account was open. *)
Definition guess (id : Z) (op : Op) (d : Directory) : bool :=
  match op with
  | OpFinishLogin now _ attempt =>
      match la_user attempt with
      | Some (i, hash) =>
          (i =? id) && negb (la_locked attempt) && negb (la_valid attempt)
          && bool_decide (is_Some (open_credential now i hash d))
      | None => false
      end
  | _ => false
  end.

(** A successful login of [id] or change of its password. *)
Definition resets (id : Z) (op : Op) (d : Directory) : bool :=
  match op with
  | OpFinishLogin now token attempt =>
      match (finish_local_login now token attempt d).1 with
      | Ok (Some session) => ui_user_id (us_identity session) =? id
      | _ => false
      end
  | OpFinishChange now i change => (i =? id) && (finish_password_change now i change d).1
  | _ => false
  end.

(** How often something happens in a run. *)
Fixpoint tally (happens : Op -> Directory -> bool) (ops : list Op) (d : Directory) : Z :=
  match ops with
  | [] => 0
  | op :: ops => (if happens op d then 1 else 0) + tally happens ops (apply op d)
  end.

Definition unlocked (c : Credential.t) : Prop := Credential.failed_attempts c = 0 /\ Credential.locked_until c = 0.

Lemma open_credential_Some now id hash (d : Directory) c :
  open_credential now id hash d = Some c ->
  local_user_credentials d !! id = Some c /\ Credential.locked_until c <= now /\ Credential.password_hash c = hash.
Proof.
  unfold open_credential. destruct (local_user_credentials d !! id); [|done]. case_bool; [|done]. intros [= <-].
  by bool_to_prop.
Qed.

Lemma finish_login_credential now token attempt (d : Directory) (id : Z) :
  let c := local_user_credentials d !! id in
  let c' := local_user_credentials (finish_local_login now token attempt d).2 !! id in
  if guess id (OpFinishLogin now token attempt) d
  then exists x, c = Some x /\ Credential.locked_until x <= now /\ c' = Some (count_failure now x)
  else if resets id (OpFinishLogin now token attempt) d then exists x, c' = Some x /\ unlocked x
  else c' = c.
Proof.
  cbn [guess resets]. unfold finish_local_login. destruct (la_user attempt) as [[i hash]|]; [|done].
  destruct (la_locked attempt); cbn [negb]; [by rewrite andb_false_r|].
  rewrite andb_true_r. cbv zeta. destruct (open_credential now i hash d) as [x|] eqn:Ho.
  2: { rewrite bool_decide_false by (by intros [? ?]). rewrite andb_false_r. by destruct (la_valid attempt). }
  rewrite bool_decide_true by done. rewrite andb_true_r. apply open_credential_Some in Ho as (Hx & Hl & _).
  destruct (la_valid attempt); cbn [negb]; rewrite ?andb_true_r, ?andb_false_r.
  - destruct (users _ !! i) as [u|]; [|done]. destruct (user_enabled u); [|done]. unfold insert_session.
    destruct (user_sessions _ !! _); [done|]. cbn. destruct (Z.eqb_spec i id) as [->|Hn].
    + eexists. by rewrite lookup_insert, decide_True by done.
    + by rewrite lookup_insert_ne.
  - cbn. destruct (Z.eqb_spec i id) as [->|Hn].
    + eexists. by rewrite lookup_insert, decide_True by done.
    + by rewrite lookup_insert_ne.
Qed.

Lemma credential_apply (op : Op) (d : Directory) (id : Z) :
  wf d ->
  let c := local_user_credentials d !! id in
  let c' := local_user_credentials (apply op d) !! id in
  if guess id op d
  then exists now token attempt x, op = OpFinishLogin now token attempt /\ c = Some x /\
    Credential.locked_until x <= now /\ c' = Some (count_failure now x)
  else if resets id op d then exists x, c' = Some x /\ unlocked x
  else c' = c \/ c = None /\ exists x, c' = Some x /\ unlocked x.
Proof.
  intros Hd. cbv zeta.
  assert (Hu : forall now u e n d d' i, insert_user now u e n d = Some (i, d') ->
    local_user_credentials d' = local_user_credentials d)
    by (unfold insert_user; intros until i; by case_bool; intros; simplify_eq).
  assert (Hr : forall draws user len now id d d', insert_unique_routing_id draws user len now d = Ok (id, d') ->
    local_user_credentials d' = local_user_credentials d).
  { unfold insert_unique_routing_id. intros until d'. destruct (try_routing_ids _ _ _ _ _) as [[? ?]|]; [|done].
    by intros [= _ <-]. }
  destruct op as [| | | | | | | | | |now salt uuid draws input|now token attempt|now i change| |]; cbn [guess resets apply];
    try (left; done).
  - left. unfold create_user. destruct (insert_user _ _ _ _ _) as [[i d1]|] eqn:Ei; [|done].
    destruct (insert_unique_routing_id _ _ _ _ _) as [[r d2]|] eqn:Er; [|done].
    cbn. by rewrite (Hr _ _ _ _ _ _ _ Er), (Hu _ _ _ _ _ _ _ Ei).
  - left. unfold set_user_disabled. destruct (users _ !! _); [|done]. case_bool; [|done]. by destruct disabled.
  - left. unfold soft_delete_user. destruct (users _ !! _); [|done]. by case_bool.
  - left. unfold rotate_user_routing_id. destruct (user_account _ _); [|done]. case_bool; [done|].
    destruct (insert_unique_routing_id _ _ _ _ _) as [[r d2]|] eqn:Er; [|done]. cbn. by rewrite (Hr _ _ _ _ _ _ _ Er).
  - left. unfold authenticate_user_session. destruct (user_sessions d !! _) as [s|]; [|done].
    destruct (users _ !! _); [|done]. by case_bool.
  - left. unfold create_user_session, insert_session. destruct (users _ !! _); [|done]. case_bool; [|done].
    by destruct (user_sessions d !! _).
  - left. unfold insert_session_late, insert_session. destruct (users _ !! _); [|done]. by destruct (user_sessions d !! _).
  - left. unfold create_registration_invitation. destruct (AccountBilling.validate _); by repeat case_bool.
  - left. unfold revoke_registration_invitation. destruct (registration_invitations d !! _); [by case_bool|done].
  - unfold create_local_user. destruct (AccountBilling.validate _); [|by left].
    destruct (claim_invitation _ _ _) as [[[inv billing] d1]|] eqn:Ec; [|by left].
    apply claim_invitation_same in Ec as (f & -> & Hf). case_bool; [by left|].
    destruct (insert_user _ _ _ _ _) as [[i d2]|] eqn:Ei; [|by left].
    destruct (insert_unique_routing_id _ _ _ _ _) as [[r d3]|] eqn:Er; [|by left]. cbv zeta.
    assert (local_user_credentials d3 = local_user_credentials d) as E
      by (by rewrite (Hr _ _ _ _ _ _ _ Er), (Hu _ _ _ _ _ _ _ Ei)).
    assert (Hd1 : wf (on_invitations f d)) by (by apply wf_on_invitations).
    destruct (wf_insert_user _ _ _ _ _ _ _ Hd1 Ei) as (Hi & _ & _). cbn in Hi.
    destruct inv; cbn; rewrite E; (destruct (decide (i = id)) as [<-|Hn];
      [|left; by rewrite lookup_insert_ne]); right;
      (split; [|eexists; by rewrite lookup_insert, decide_True by done]);
      (destruct (local_user_credentials d !! i) as [c|] eqn:Hc; [|done]);
      apply (wf_credential _ _ Hd) in Hc as [u Hc%(wf_next _ _ Hd)]; lia.
  - pose proof (finish_login_credential now token attempt d id) as Hf. cbv zeta in Hf. cbn [guess resets] in Hf.
    case_bool; [naive_solver|]. case_bool; [done|]. by left.
  - unfold finish_password_change. destruct change as [[previous next]|]; [|rewrite andb_false_r; by left].
    destruct (local_user_credentials d !! i) as [c|] eqn:Hc; [|rewrite andb_false_r; by left].
    destruct (_ =? _)%string; [|rewrite andb_false_r; by left]. rewrite andb_true_r.
    destruct (Z.eqb_spec i id) as [->|Hn]; cbn.
    + eexists. by rewrite lookup_insert, decide_True by done.
    + left. by rewrite lookup_insert_ne.
Qed.

(** Open with fewer than five failures, or locked once. *)
Definition guarded (c : Credential.t) : Prop :=
  Credential.locked_until c = 0 /\ 0 <= Credential.failed_attempts c < 5 \/ 0 < Credential.locked_until c.

(** The guesses left until time [s + 900]. *)
Definition left_until (s : Z) (c : option Credential.t) : Z :=
  match c with
  | None => 5
  | Some c =>
      if Credential.locked_until c =? 0 then 5 - Credential.failed_attempts c
      else if s + 900 <=? Credential.locked_until c then 0
      else 5
  end.

Lemma left_until_bound (s : Z) (c : option Credential.t) :
  (forall x, c = Some x -> guarded x) -> 0 <= left_until s c <= 5.
Proof.
  intros Hc. unfold left_until. destruct c as [x|]; [|lia]. specialize (Hc x eq_refl). unfold guarded in Hc.
  repeat case_bool; bool_to_prop; lia.
Qed.

Lemma count_failure_left (s now : Z) (c : Credential.t) :
  guarded c -> 0 <= s <= now -> now < s + 900 -> Credential.locked_until c <= now ->
  guarded (count_failure now c) /\ left_until s (Some (count_failure now c)) + 1 <= left_until s (Some c).
Proof.
  intros Hg Hs Hw Hl. unfold guarded, left_until, count_failure in *. cbn [Credential.failed_attempts Credential.locked_until].
  destruct (Z.ltb_spec 0 (Credential.locked_until c)); cbn [andb].
  - rewrite (proj2 (Z.leb_le _ _) Hl). split; [left; lia|]. rewrite Z.eqb_refl. repeat case_bool; bool_to_prop; lia.
  - assert (E : Credential.locked_until c = 0) by lia. rewrite E, Z.eqb_refl.
    destruct (Z.leb_spec 5 (Credential.failed_attempts c + 1)).
    + split; [right; lia|]. repeat case_bool; bool_to_prop; lia.
    + split; [left; lia|]. rewrite Z.eqb_refl. lia.
Qed.

(** The clock of a login that finishes. *)
Definition in_window (s : Z) (op : Op) : Prop :=
  match op with OpFinishLogin now _ _ => s <= now < s + 900 | _ => True end.

Lemma guesses_left (id s : Z) (ops : list Op) (d : Directory) :
  wf d -> 0 <= s -> (forall c, local_user_credentials d !! id = Some c -> guarded c) -> Forall (in_window s) ops ->
  tally (guess id) ops d <= left_until s (local_user_credentials d !! id) + 5 * tally (resets id) ops d.
Proof.
  intros Hd Hs Hg Hops. revert d Hd Hg. induction Hops as [|op ops Hop Hops IH]; intros d Hd Hg.
  { cbn. pose proof (left_until_bound s _ Hg). lia. }
  cbn [tally]. pose proof (credential_apply op d id Hd) as Hc. cbv zeta in Hc.
  pose proof (wf_apply op d Hd) as Hd'. specialize (IH (apply op d) Hd').
  pose proof (left_until_bound s _ Hg) as Hb.
  destruct (guess id op d) eqn:Eg.
  - destruct Hc as (now & token & attempt & x & -> & Hx & Hl & Hx'). rewrite Hx in *. rewrite Hx' in IH.
    destruct (count_failure_left s now x) as [Hg' Hleft]; [by apply Hg|cbn in Hop; lia..|done|].
    assert (resets id (OpFinishLogin now token attempt) d = false) as ->.
    { cbn [guess resets] in *. unfold finish_local_login. destruct (la_user attempt) as [[i hash]|]; [|done].
      apply andb_true_iff in Eg as [[[_ E1]%andb_true_iff E2]%andb_true_iff _].
      apply negb_true_iff in E1, E2. rewrite E1, E2. cbn [negb]. by destruct (open_credential _ _ _ _). }
    specialize (IH ltac:(intros ? [= <-]; done)). lia.
  - destruct (resets id op d).
    + destruct Hc as (x & Hx' & Hf & Hl). rewrite Hx' in IH.
      specialize (IH ltac:(intros ? [= <-]; left; lia)). cbn [left_until] in IH. rewrite Hl, Hf, Z.eqb_refl in IH. lia.
    + destruct Hc as [Hc|(Hn & x & Hx' & Hf & Hl)]; [rewrite Hc in IH; specialize (IH Hg); lia|].
      rewrite Hx' in IH. specialize (IH ltac:(intros ? [= <-]; left; lia)). cbn [left_until] in IH.
      rewrite Hl, Hf, Z.eqb_refl in IH. rewrite Hn. cbn [left_until]. lia.
Qed.

(** C2: guessing a password is bounded, in parallel too. However logins on an
    account overlap, with whatever the code had read of it before, within a
    quarter of an hour at most five wrong passwords are checked against it for
    every time somebody signed in or changed the password meanwhile, and five
    more: every other attempt is refused unseen. *)
Theorem password_guesses_bounded (id s : Z) (ops : list Op) (d : Directory) :
  wf d -> 0 <= s -> (forall c, local_user_credentials d !! id = Some c -> guarded c) -> Forall (in_window s) ops ->
  tally (guess id) ops d <= 5 * (1 + tally (resets id) ops d).
Proof.
  intros Hd Hs Hg Hops. pose proof (guesses_left id s ops d Hd Hs Hg Hops). pose proof (left_until_bound s _ Hg). lia.
Qed.

(** *** Registration links *)

(** An account is created with the link of [token]. *)
Definition registers (token : string) (op : Op) (d : Directory) : bool :=
  match op with
  | OpCreateLocal now salt uuid draws input =>
      match lc_invitation_token input, (create_local_user now salt uuid draws input d).1 with
      | Some t, Ok (Created _) => (hash_token t =? hash_token token)%string
      | _, _ => false
      end
  | _ => false
  end.

(** Invitations keep their tokens, and those no longer pending their status. *)
Definition later_links (m m' : gmap Z Invitation.t) : Prop :=
  forall i x, m !! i = Some x -> exists x', m' !! i = Some x' /\ Invitation.token_hash x' = Invitation.token_hash x /\
    (Invitation.status x <> "pending" -> Invitation.status x' = Invitation.status x).

Lemma later_links_refl m : later_links m m.
Proof. intros i x Hx. by exists x. Qed.

Lemma later_links_insert (m : gmap Z Invitation.t) (i : Z) (x : Invitation.t) (status : string) :
  m !! i = Some x -> Invitation.status x = "pending" -> later_links m (<[i := Invitation.set_status status x]> m).
Proof.
  intros Hx Hp j y Hy. destruct (decide (i = j)) as [<-|Hn].
  - simplify_eq. eexists. by rewrite lookup_insert, decide_True by done.
  - exists y. by rewrite lookup_insert_ne.
Qed.

Lemma later_links_alter (m m' : gmap Z Invitation.t) (i user : Z) :
  later_links m m' -> later_links m (alter (Invitation.set_user user) i m').
Proof.
  intros Hm j x (y & Hy & Ht & Hs)%Hm. destruct (decide (i = j)) as [<-|Hn].
  - eexists. rewrite lookup_alter, decide_True, Hy by done. done.
  - exists y. by rewrite lookup_alter_ne.
Qed.

(** What a registration that succeeds did. *)
Lemma create_local_user_Created now salt uuid draws input (d d' : Directory) (id : Z) :
  create_local_user now salt uuid draws input d = (Ok (Created id), d') ->
  exists inv billing d1,
    claim_invitation now input d = Some (inv, billing, d1) /\
    registration_invitations d' =
      match inv with Some i => alter (Invitation.set_user id) i (registration_invitations d1)
                   | None => registration_invitations d1 end /\
    group_members (dir_accounts d') !! id = AccountBilling.group_id billing /\
    user_quota_overrides (dir_accounts d') !! id =
      (if (AccountBilling.quota_mode billing =? "default")%string then None
       else Some (AccountBilling.quota_mode billing, gb_bytes <$> AccountBilling.monthly_gb billing)).
Proof.
  unfold create_local_user. destruct (AccountBilling.validate _); [|done].
  destruct (claim_invitation _ _ _) as [[[inv billing] d1]|] eqn:Ec; [|done]. case_bool; [done|].
  unfold insert_user, insert_unique_routing_id. destruct (user_conflict _ _ _); [done|].
  destruct (try_routing_ids _ _ _ _ _) as [[r rows]|]; [|done]. cbn [result_bind]. intros [= <- <-].
  exists inv, billing, d1. destruct inv; cbn; rewrite !lookup_partial_alter, !decide_True by done; done.
Qed.

Lemma create_local_user_unchanged now salt uuid draws input (d d' : Directory) r :
  create_local_user now salt uuid draws input d = (r, d') -> (forall id, r <> Ok (Created id)) -> d' = d.
Proof.
  unfold create_local_user. intros E Hr. repeat (case_match; simplify_eq/=; try done); by destruct (Hr z).
Qed.

Lemma later_links_apply (op : Op) (d : Directory) :
  wf d -> later_links (registration_invitations d) (registration_invitations (apply op d)).
Proof.
  intros Hd. pose proof (later_links_refl (registration_invitations d)) as Hrefl.
  assert (Hu : forall now u e n d d' i, insert_user now u e n d = Some (i, d') ->
    registration_invitations d' = registration_invitations d)
    by (unfold insert_user; intros until i; by case_bool; intros; simplify_eq).
  assert (Hr : forall draws user len now id d d', insert_unique_routing_id draws user len now d = Ok (id, d') ->
    registration_invitations d' = registration_invitations d).
  { unfold insert_unique_routing_id. intros until d'. destruct (try_routing_ids _ _ _ _ _) as [[? ?]|]; [|done].
    by intros [= _ <-]. }
  destruct op as [| | | | | | | | | |now salt uuid draws input|now token attempt|now i change| |]; cbn [apply]; try done.
  - unfold create_user. destruct (insert_user _ _ _ _ _) as [[i d1]|] eqn:Ei; [|done].
    destruct (insert_unique_routing_id _ _ _ _ _) as [[r d2]|] eqn:Er; [|done].
    cbn. by rewrite (Hr _ _ _ _ _ _ _ Er), (Hu _ _ _ _ _ _ _ Ei).
  - unfold set_user_disabled. destruct (users _ !! _); [|done]. case_bool; [|done]. by destruct disabled.
  - unfold soft_delete_user. destruct (users _ !! _); [|done]. by case_bool.
  - unfold rotate_user_routing_id. destruct (user_account _ _); [|done]. case_bool; [done|].
    destruct (insert_unique_routing_id _ _ _ _ _) as [[r d2]|] eqn:Er; [|done]. cbn. by rewrite (Hr _ _ _ _ _ _ _ Er).
  - unfold authenticate_user_session. destruct (user_sessions d !! _) as [s|]; [|done].
    destruct (users _ !! _); [|done]. by case_bool.
  - unfold create_user_session, insert_session. destruct (users _ !! _); [|done]. case_bool; [|done].
    by destruct (user_sessions d !! _).
  - unfold insert_session_late, insert_session. destruct (users _ !! _); [|done]. by destruct (user_sessions d !! _).
  - unfold create_registration_invitation. destruct (AccountBilling.validate _); [|done]. case_bool; [done|].
    case_bool; [done|]. intros i x Hx. exists x. cbn. rewrite lookup_insert_ne; [done|].
    apply (wf_next_link _ _ Hd) in Hx. lia.
  - unfold revoke_registration_invitation. destruct (registration_invitations d !! _) eqn:Hx; [|done]. case_bool; [|done].
    bool_to_prop. by apply later_links_insert.
  - destruct (create_local_user now salt uuid draws input d) as [[[id| | |]|e] d'] eqn:E;
      [|by apply create_local_user_unchanged in E as ->..]. cbn [snd].
    apply create_local_user_Created in E as (inv & billing & d1 & Hc & -> & _).
    assert (Hl : later_links (registration_invitations d) (registration_invitations d1)).
    { unfold claim_invitation in Hc. destruct (lc_invitation_token input) as [t|]; [|by simplify_eq].
      destruct (claimable _ _ _) as [[i x]|] eqn:Ec; [|done]. simplify_eq.
      apply claimable_Some in Ec as (Hx & _ & Hp & _). by apply later_links_insert. }
    destruct inv; [by apply later_links_alter|done].
  - unfold finish_local_login, insert_session. destruct (la_user attempt) as [[i hash]|]; [|done].
    case_bool; [done|]. cbv zeta. destruct (open_credential _ _ _ _), (la_valid attempt); cbn [negb]; try done.
    destruct (users _ !! _); [|done]. case_bool; [|done]. by destruct (user_sessions _ !! _).
  - unfold finish_password_change. destruct change as [[previous next]|]; [|done].
    destruct (local_user_credentials d !! _); [|done]. by case_bool.
Qed.

(** The link of [token] is not pending any more. *)
Definition spent (token : string) (d : Directory) : Prop := exists i x,
  registration_invitations d !! i = Some x /\ Invitation.token_hash x = hash_token token /\ Invitation.status x <> "pending".

Lemma spent_not_registers (token : string) (op : Op) (d : Directory) : wf d -> spent token d -> registers token op d = false.
Proof.
  intros Hd (i & x & Hx & Ht & Hp). destruct op; try done. cbn [registers].
  destruct (lc_invitation_token input) as [t|] eqn:Et; [|done].
  destruct (create_local_user _ _ _ _ _ _) as [[[id| | |]|e] d'] eqn:E; try done. cbn [fst].
  apply create_local_user_Created in E as (inv & billing & d1 & Hc & _). unfold claim_invitation in Hc. rewrite Et in Hc.
  destruct (claimable now t d) as [[j y]|] eqn:Ec; [|done]. apply claimable_Some in Ec as (Hy & Hty & Hpy & _).
  apply String.eqb_neq. intros He. assert (i = j) as -> by (eapply (wf_links _ _ Hd); [done..|congruence]).
  by simplify_eq.
Qed.

Lemma registers_spends (token : string) (op : Op) (d : Directory) :
  registers token op d = true -> spent token (apply op d).
Proof.
  destruct op; try done. cbn [registers apply]. destruct (lc_invitation_token input) as [t|] eqn:Et; [|done].
  destruct (create_local_user _ _ _ _ _ _) as [[[id| | |]|e] d'] eqn:E; try done. cbn [fst snd]. intros He.
  apply create_local_user_Created in E as (inv & billing & d1 & Hc & Hi & _). unfold claim_invitation in Hc.
  rewrite Et in Hc. destruct (claimable now t d) as [[j y]|] eqn:Ec; [|done]. simplify_eq.
  apply claimable_Some in Ec as (Hy & Hty & _). bool_to_prop. exists j. eexists. rewrite Hi. cbn.
  rewrite lookup_alter, decide_True, lookup_insert, decide_True by done. split; [done|]. cbn. split; [congruence|done].
Qed.

Lemma spent_tally (token : string) (ops : list Op) (d : Directory) :
  wf d -> spent token d -> tally (registers token) ops d = 0.
Proof.
  revert d. induction ops as [|op ops IH]; intros d Hd Hs; [done|]. cbn [tally]. rewrite spent_not_registers by done.
  rewrite IH; [done|by apply wf_apply|]. destruct Hs as (i & x & Hx & Ht & Hp).
  destruct (later_links_apply op d Hd i x Hx) as (x' & Hx' & Ht' & Hp'). exists i, x'. split; [done|].
  split; [congruence|]. by rewrite Hp'.
Qed.

(** A registration link makes one account, on the terms it was issued
    with. Over any run, however often and by however many people a link is
    used, at most one account comes of it; the account gets the billing group
    and quota of the link, which was pending and had not expired; and a
    registration that fails, because the name is taken or the group is gone,
    changes nothing, so that the link can be used again. *)
Theorem registration_links_single_use (token : string) (ops : list Op) (d : Directory) :
  wf d ->
  tally (registers token) ops d <= 1 /\
  forall now salt uuid draws input, lc_invitation_token input = Some token ->
    match create_local_user now salt uuid draws input d with
    | (Ok (Created id), d') =>
        exists i x, registration_invitations d !! i = Some x /\ Invitation.token_hash x = hash_token token /\
          Invitation.status x = "pending" /\ now < Invitation.expires_at x /\
          registration_invitations d' !! i = Some (Invitation.set_user id (Invitation.set_status "accepted" x)) /\
          let terms := Invitation.billing x in
          group_members (dir_accounts d') !! id = AccountBilling.group_id terms /\
          user_quota_overrides (dir_accounts d') !! id =
            (if (AccountBilling.quota_mode terms =? "default")%string then None
             else Some (AccountBilling.quota_mode terms, gb_bytes <$> AccountBilling.monthly_gb terms))
    | (_, d') => d' = d
    end.
Proof.
  intros Hd. split.
  - revert d Hd. induction ops as [|op ops IH]; intros d Hd; [cbn; lia|]. cbn [tally].
    destruct (registers token op d) eqn:Er; [|apply IH; by apply wf_apply].
    rewrite spent_tally; [lia|by apply wf_apply|by apply registers_spends].
  - intros now salt uuid draws input Et.
    destruct (create_local_user now salt uuid draws input d) as [[[id| | |]|e] d'] eqn:E;
      [|by apply create_local_user_unchanged in E..].
    apply create_local_user_Created in E as (inv & billing & d1 & Hc & Hi & Hg & Ho). unfold claim_invitation in Hc.
    rewrite Et in Hc. destruct (claimable now token d) as [[j y]|] eqn:Ec; [|done]. simplify_eq.
    apply claimable_Some in Ec as (Hy & Hty & Hp & Hn). exists j, y. rewrite Hi. cbn.
    rewrite lookup_alter, decide_True, lookup_insert, decide_True by done. done.
Qed.
End Machine.

(** ** Witnesses *)

#[export] Instance SampleSecrets : SecretApi := {|
  sha256_hex token := token;
  argon2_hash salt password := salt +:+ "$" +:+ password;
  argon2_matches password hash := ends_with ("$" +:+ password) hash;
  sqids_encode _ n := Some ("u" +:+ show_uint n);
|}.

#[export] Instance SampleSecrets_laws : SecretLaws.
Proof.
  split. intros salt password. cbn [argon2_matches argon2_hash SampleSecrets]. unfold ends_with.
  rewrite (string_rev_app salt). apply starts_with_app.
Qed.

(** A user with a session, and one with a password. *)
Definition local_input : LocalUserCreation := {|
  lc_actor := "admin"; lc_username := "ann"; lc_password := "secret"; lc_display_name := "Ann";
  lc_billing := AccountBilling.default; lc_invitation_token := None; lc_routing_length := 12;
|}.

Definition sample_directory : Directory := run_ops [
  OpCreateUser 10 [5] "admin" "bob@mirror.test" "Bob" 12; OpNewSession 20 "t" 1 "oauth";
  OpCreateLocal 30 "salt" "uuid" [7] local_input;
  OpNewInvitation 40 "link" "admin" AccountBilling.default 24] (empty_directory one_user).

Lemma sample_directory_wf : wf_but None sample_directory.
Proof. apply wf_run_ops, wf_empty. Qed.

Lemma sessions_end_for_good_witness :
  (authenticate_user_session 21 "t" sample_directory).1 <> None /\
  (authenticate_user_session 31 "t" (run_ops [OpSetDisabled 30 "admin" 1 false]
     (apply (OpSetDisabled 25 "admin" 1 true) sample_directory))).1 = None.
Proof.
  split; [vm_compute; done|].
  eapply (sessions_end_for_good "t" _ sample_directory [OpSetDisabled 30 "admin" 1 false]).
  - vm_compute. reflexivity.
  - by repeat constructor.
  - split; [reflexivity|]. split; [done|]. vm_compute. reflexivity.
Defined.

(** Seven wrong guesses that all read the account before the first was counted. *)
Definition guesses : list Op :=
  let attempt := begin_local_login 100 "ANN" "wrong" sample_directory in
  replicate 7 (OpFinishLogin 101 "x" attempt).

Lemma password_guesses_bounded_witness :
  tally (guess 2) guesses sample_directory = 5 /\
  tally (guess 2) guesses sample_directory <= 5 * (1 + tally (resets 2) guesses sample_directory).
Proof.
  split; [vm_compute; reflexivity|]. apply (password_guesses_bounded 2 100).
  - apply sample_directory_wf.
  - lia.
  - intros c Hc. vm_compute in Hc. injection Hc as <-. left. cbn. lia.
  - unfold guesses. apply Forall_replicate. cbn. lia.
Defined.

Definition linked_input : LocalUserCreation := {|
  lc_actor := "invitation"; lc_username := "eve"; lc_password := "pw"; lc_display_name := "Eve";
  lc_billing := AccountBilling.default; lc_invitation_token := Some "link"; lc_routing_length := 12;
|}.

Definition two_registrations : list Op := [
  OpCreateLocal 50 "salt" "uuid2" [9] linked_input; OpCreateLocal 51 "salt" "uuid3" [11] linked_input].

Lemma registration_links_single_use_witness :
  tally (registers "link") two_registrations sample_directory = 1 /\
  tally (registers "link") two_registrations sample_directory <= 1.
Proof.
  split; [vm_compute; reflexivity|].
  apply (registration_links_single_use "link" two_registrations sample_directory), sample_directory_wf.
Defined.
