(* ===== verification/AdminAuth.v ===== *)
(** * Administrators: passwords, sessions and passkeys

    The part of [database.rs] about administrators with the handlers of
    [main.rs] that sign them in.  As in [Users], what runs in one transaction is
    one step; signing in with a password reads the account, waits for Argon2 and
    writes, and is two steps.  WebAuthn is third-party code: a passkey is known
    by its credential id and by what an authentication changes in it. *)
From S2P Require Import Prelude RustStr Config RateLimit Quota Users.
Open Scope string_scope.
Open Scope Z_scope.
Open Scope list_scope.

Definition SESSION_LIFETIME_SECS : Z := 24 * 60 * 60.
Definition ADMIN_LOGIN_FAILURE_LIMIT : Z := 5.
Definition ADMIN_LOGIN_LOCK_SECS : Z := 15 * 60.
Definition WEBAUTHN_CHALLENGE_LIFETIME_SECS : Z := 5 * 60.

Class PasskeyApi : Type := {
  Passkey : Type;
  AuthenticationResult : Type;
  (** the credential id, as it is stored *)
  cred_id : Passkey -> string;
  result_cred_id : AuthenticationResult -> string;
  user_verified : AuthenticationResult -> bool;
  update_credential : AuthenticationResult -> Passkey -> Passkey;
}.

Module Admin.
Record t : Type := {
  id : Z; password_hash : string; role : string; disabled : bool; failed_login_count : Z; locked_until : option Z;
  user_handle : string; created_at : Z; updated_at : Z;
}.

Definition set_failures (failures : Z) (until : option Z) (now : Z) (a : t) : t := {|
  id := id a; password_hash := password_hash a; role := role a; disabled := disabled a; failed_login_count := failures;
  locked_until := until; user_handle := user_handle a; created_at := created_at a; updated_at := now;
|}.

Definition set_password (hash : string) (now : Z) (a : t) : t := {|
  id := id a; password_hash := hash; role := role a; disabled := disabled a;
  failed_login_count := failed_login_count a; locked_until := locked_until a; user_handle := user_handle a;
  created_at := created_at a; updated_at := now;
|}.

(** The reset from the command line. *)
Definition reset (hash : string) (now : Z) (a : t) : t := {|
  id := id a; password_hash := hash; role := role a; disabled := false; failed_login_count := 0; locked_until := None;
  user_handle := user_handle a; created_at := created_at a; updated_at := now;
|}.

Definition touch (now : Z) (a : t) : t := set_failures (failed_login_count a) (locked_until a) now a.
End Admin.

Module AdminSession.
Record t : Type := { username : string; auth_method : string; created_at : Z; expires_at : Z; last_used_at : Z }.

Definition touch (now : Z) (s : t) : t := {|
  username := username s; auth_method := auth_method s; created_at := created_at s; expires_at := expires_at s;
  last_used_at := now;
|}.
End AdminSession.

Module PasskeyRow.
Record t `{PasskeyApi} : Type := {
  username : string; name : string; credential_id : string; passkey : Passkey; created_at : Z; last_used_at : option Z;
}.
End PasskeyRow.

Module WebauthnChallenge.
Record t : Type := {
  username : string; kind : string; state_json : string; session_token_hash : option string; created_at : Z; expires_at : Z;
}.
End WebauthnChallenge.

(** The tables; [settings] holds the initial administrator and the
    configuration that was saved last. *)
Record Console `{PasskeyApi} : Type := {
  admin_users : gmap string Admin.t;
  next_admin_id : Z;
  admin_sessions : gmap string AdminSession.t;
  admin_passkeys : gmap Z PasskeyRow.t;
  next_passkey_id : Z;
  admin_webauthn_challenges : gmap string WebauthnChallenge.t;
  initial_admin_user_handle : option string;
  runtime_config : option Config.t;
  security_audit : list Audit;
}.

Section Updates.
Context `{PasskeyApi}.

Definition on_admins (f : gmap string Admin.t -> gmap string Admin.t) (c : Console) : Console := {|
  admin_users := f (admin_users c); next_admin_id := next_admin_id c; admin_sessions := admin_sessions c;
  admin_passkeys := admin_passkeys c; next_passkey_id := next_passkey_id c;
  admin_webauthn_challenges := admin_webauthn_challenges c; initial_admin_user_handle := initial_admin_user_handle c;
  runtime_config := runtime_config c; security_audit := security_audit c;
|}.

Definition on_admin_sessions (f : gmap string AdminSession.t -> gmap string AdminSession.t) (c : Console) : Console := {|
  admin_users := admin_users c; next_admin_id := next_admin_id c; admin_sessions := f (admin_sessions c);
  admin_passkeys := admin_passkeys c; next_passkey_id := next_passkey_id c;
  admin_webauthn_challenges := admin_webauthn_challenges c; initial_admin_user_handle := initial_admin_user_handle c;
  runtime_config := runtime_config c; security_audit := security_audit c;
|}.

Definition on_passkeys (f : gmap Z PasskeyRow.t -> gmap Z PasskeyRow.t) (c : Console) : Console := {|
  admin_users := admin_users c; next_admin_id := next_admin_id c; admin_sessions := admin_sessions c;
  admin_passkeys := f (admin_passkeys c); next_passkey_id := next_passkey_id c;
  admin_webauthn_challenges := admin_webauthn_challenges c; initial_admin_user_handle := initial_admin_user_handle c;
  runtime_config := runtime_config c; security_audit := security_audit c;
|}.

Definition on_challenges (f : gmap string WebauthnChallenge.t -> gmap string WebauthnChallenge.t) (c : Console) :
    Console := {|
  admin_users := admin_users c; next_admin_id := next_admin_id c; admin_sessions := admin_sessions c;
  admin_passkeys := admin_passkeys c; next_passkey_id := next_passkey_id c;
  admin_webauthn_challenges := f (admin_webauthn_challenges c); initial_admin_user_handle := initial_admin_user_handle c;
  runtime_config := runtime_config c; security_audit := security_audit c;
|}.

Definition with_settings (handle : option string) (config : option Config.t) (c : Console) : Console := {|
  admin_users := admin_users c; next_admin_id := next_admin_id c; admin_sessions := admin_sessions c;
  admin_passkeys := admin_passkeys c; next_passkey_id := next_passkey_id c;
  admin_webauthn_challenges := admin_webauthn_challenges c; initial_admin_user_handle := handle;
  runtime_config := config; security_audit := security_audit c;
|}.

Definition insert_audit (now : Z) (username action detail : string) (c : Console) : Console := {|
  admin_users := admin_users c; next_admin_id := next_admin_id c; admin_sessions := admin_sessions c;
  admin_passkeys := admin_passkeys c; next_passkey_id := next_passkey_id c;
  admin_webauthn_challenges := admin_webauthn_challenges c; initial_admin_user_handle := initial_admin_user_handle c;
  runtime_config := runtime_config c; security_audit := security_audit c ++ [Build_Audit now username action detail];
|}.

Definition write_security_audit (now : Z) (username action detail : string) (c : Console) : Console :=
  insert_audit now (if str_is_empty username then "unknown" else username) action detail c.
End Updates.

(** ** Signing in with a password *)

Record AdminSessionGrant : Type := { as_token : string; as_expires_at : Z; as_username : string; as_role : string }.
Record AdminIdentity : Type := { ai_username : string; ai_role : string }.

Inductive AdminLoginOutcome : Type :=
| Success (session : AdminSessionGrant)
| Invalid
| Locked (retry_after_secs : Z).

(** The row [login_with_context] read, its clock, and the verdict of Argon2. *)
Record AdminAttempt : Type := { at_username : string; at_now : Z; at_row : Admin.t; at_valid : bool }.

Section Login.
Context `{SecretApi} `{PasskeyApi}.

Definition begin_admin_login (now : Z) (username password source : string) (c : Console) :
    (AdminLoginOutcome * Console) + AdminAttempt :=
  let username := str_trim username in
  match admin_users c !! username with
  | None => inl (Invalid, write_security_audit now username "admin_login_failed" source c)
  | Some row =>
      if Admin.disabled row then inl (Invalid, write_security_audit now username "admin_login_failed" source c)
      else
        let locked := match Admin.locked_until row with Some until => now <? until | None => false end in
        if locked then
          inl (Locked (sat_sub_i64 (default now (Admin.locked_until row)) now),
               write_security_audit now username "admin_login_locked" source c)
        else inr {| at_username := username; at_now := now; at_row := row;
                    at_valid := argon2_matches password (Admin.password_hash row) |}
  end.

(** [INSERT INTO admin_sessions]: the token hash is the primary key, the user
    name a foreign key. *)
Definition insert_admin_session (now : Z) (token username auth_method : string) (c : Console) : option Console :=
  match admin_sessions c !! hash_token token, admin_users c !! username with
  | None, Some _ =>
      Some (on_admin_sessions <[hash_token token := {|
        AdminSession.username := username; AdminSession.auth_method := auth_method; AdminSession.created_at := now;
        AdminSession.expires_at := now + SESSION_LIFETIME_SECS; AdminSession.last_used_at := now |}]> c)
  | _, _ => None
  end.

(** [None] is a database error. *)
Definition finish_admin_login (token source : string) (attempt : AdminAttempt) (c : Console) :
    option AdminLoginOutcome * Console :=
  let now := at_now attempt in
  let username := at_username attempt in
  if negb (at_valid attempt) then
    let failures := match Admin.locked_until (at_row attempt) with
                    | Some _ => 1
                    | None => Admin.failed_login_count (at_row attempt) + 1
                    end in
    let next_locked_until := if ADMIN_LOGIN_FAILURE_LIMIT <=? failures then Some (now + ADMIN_LOGIN_LOCK_SECS) else None in
    let c := on_admins (alter (Admin.set_failures failures next_locked_until now) username) c in
    let c := write_security_audit now username "admin_login_failed" source c in
    (Some (match next_locked_until with Some _ => Locked ADMIN_LOGIN_LOCK_SECS | None => Invalid end), c)
  else
    match insert_admin_session now token username "password" c with
    | None => (None, c)
    | Some c1 =>
        let c2 := on_admins (alter (Admin.set_failures 0 None now) username) c1 in
        (Some (Success {| as_token := token; as_expires_at := now + SESSION_LIFETIME_SECS; as_username := username;
                          as_role := Admin.role (at_row attempt) |}),
         insert_audit now username "admin_login_succeeded" source c2)
    end.

Definition login_with_context (now : Z) (token username password source : string) (c : Console) :
    option AdminLoginOutcome * Console :=
  match begin_admin_login now username password source c with
  | inl (outcome, c) => (Some outcome, c)
  | inr attempt => finish_admin_login token source attempt c
  end.

(** ** Sessions *)

Definition authenticate_session (now : Z) (token : string) (c : Console) : option AdminIdentity * Console :=
  let c := on_admin_sessions (filter (fun p => ~ (AdminSession.expires_at p.2 <= now))) c in
  match admin_sessions c !! hash_token token with
  | Some s =>
      match admin_users c !! AdminSession.username s with
      | Some u =>
          if (now <? AdminSession.expires_at s) && negb (Admin.disabled u)
          then (Some {| ai_username := AdminSession.username s; ai_role := Admin.role u |},
                on_admin_sessions <[hash_token token := AdminSession.touch now s]> c)
          else (None, c)
      | None => (None, c)
      end
  | None => (None, c)
  end.

Definition logout (token : string) (c : Console) : Console := on_admin_sessions (delete (hash_token token)) c.

(** [substr(token_hash, 1, 24)]. *)
Definition session_id (token_hash : string) : string := String.substring 0 24 token_hash.

Record AdminSessionSummary : Type := { ss_id : string; ss_session : AdminSession.t; ss_current : bool }.

(** The order, by last use, is left out. *)
Definition list_admin_sessions (now : Z) (username current_token : string) (c : Console) : list AdminSessionSummary :=
  omap (fun p =>
    if (AdminSession.username p.2 =? username)%string && (now <? AdminSession.expires_at p.2)
    then Some {| ss_id := session_id p.1; ss_session := p.2; ss_current := (p.1 =? hash_token current_token)%string |}
    else None) (map_to_list (admin_sessions c)).

Definition revoke_admin_session (now : Z) (actor username id : string) (c : Console) : bool * Console :=
  let hit (p : string * AdminSession.t) := AdminSession.username p.2 = username /\ session_id p.1 = id in
  if bool_decide (size (filter hit (admin_sessions c)) = 1%nat)
  then (true, insert_audit now actor "admin_session_revoked" ("session_id=" +:+ id)
                (on_admin_sessions (filter (fun p => ~ hit p)) c))
  else (false, c).

(** ** Changing name and password *)

Definition of_admin (username : string) (p : string * AdminSession.t) : Prop := AdminSession.username p.2 = username.

#[export] Instance of_admin_dec username p : Decision (of_admin username p).
Proof. unfold of_admin. apply _. Defined.

Definition drop_sessions (username : string) : Console -> Console :=
  on_admin_sessions (filter (fun p => ~ of_admin username p)).

(** The check of the current password, before the transaction. *)
Definition checks_password (username password : string) (c : Console) : bool :=
  match admin_users c !! username with
  | Some a => argon2_matches password (Admin.password_hash a)
  | None => false
  end.

Definition set_admin_password (now : Z) (salt username next_password : string) (c : Console) : Console :=
  let c := on_admins (alter (Admin.set_password (argon2_hash salt next_password) now) username) c in
  let c := drop_sessions username c in
  insert_audit now username "change_admin_password" "all sessions revoked" c.

Definition change_admin_password (now : Z) (salt username current_password next_password : string) (c : Console) :
    bool * Console :=
  if checks_password username current_password c then (true, set_admin_password now salt username next_password c)
  else (false, c).

Inductive AdminUsernameChangeOutcome : Type := Changed | InvalidCredentials | UsernameTaken.

Definition with_break_glass (name : string) (w : WebauthnConfig.t) : WebauthnConfig.t := {|
  WebauthnConfig.enabled := WebauthnConfig.enabled w; WebauthnConfig.rp_id := WebauthnConfig.rp_id w;
  WebauthnConfig.rp_origin := WebauthnConfig.rp_origin w; WebauthnConfig.rp_name := WebauthnConfig.rp_name w;
  WebauthnConfig.require_passkey := WebauthnConfig.require_passkey w; WebauthnConfig.break_glass_username := name;
|}.

Definition with_webauthn (w : WebauthnConfig.t) (c : Config.t) : Config.t := {|
  Config.database_path := Config.database_path c; Config.listen_addr := Config.listen_addr c;
  Config.management := Config.management c; Config.metrics := Config.metrics c;
  Config.public_base_url := Config.public_base_url c; Config.site := Config.site c;
  Config.trusted_proxies := Config.trusted_proxies c; Config.enabled_proxies := Config.enabled_proxies c;
  Config.upstreams := Config.upstreams c; Config.oci_token_issuers := Config.oci_token_issuers c;
  Config.timeout := Config.timeout c; Config.upstream_selection := Config.upstream_selection c;
  Config.rate_limit := Config.rate_limit c; Config.cache := Config.cache c; Config.geoip := Config.geoip c;
  Config.acme := Config.acme c; Config.quota := Config.quota c; Config.download := Config.download c;
  Config.alerts := Config.alerts c; Config.user_access := Config.user_access c;
  Config.registration := Config.registration c; Config.webauthn := w; Config.outbound_proxy := Config.outbound_proxy c;
  Config.upstream_tls := Config.upstream_tls c;
  Config.forward_client_authorization := Config.forward_client_authorization c;
  Config.upstream_auth := Config.upstream_auth c;
|}.

(** The break-glass administrator keeps its role under its new name. *)
Definition rename_break_glass (username new_username : string) (config : Config.t) : Config.t :=
  let w := Config.webauthn config in
  if (WebauthnConfig.break_glass_username w =? username)%string
  then with_webauthn (with_break_glass new_username w) config else config.

Definition rename_admin (now : Z) (username new_username : string) (users : gmap string Admin.t) : gmap string Admin.t :=
  match users !! username with
  | Some a => <[new_username := Admin.touch now a]> (delete username users)
  | None => users
  end.

(** The transaction, for a name that is free. *)
Definition apply_username (now : Z) (username new_username : string) (c : Console) : Console :=
  let c := drop_sessions username c in
  let c := on_passkeys (filter (fun p => PasskeyRow.username p.2 <> username)) c in
  let c := on_challenges (filter (fun p => WebauthnChallenge.username p.2 <> username)) c in
  let c := on_admins (rename_admin now username new_username) c in
  let c := with_settings (initial_admin_user_handle c) (rename_break_glass username new_username <$> runtime_config c) c in
  insert_audit now new_username "change_admin_username"
    ("previous_username=" +:+ username +:+ "; authentication state revoked") c.

Definition change_admin_username (now : Z) (username current_password new_username : string) (c : Console) :
    AdminUsernameChangeOutcome * Console :=
  if negb (checks_password username current_password c) then (InvalidCredentials, c)
  else match admin_users c !! new_username with
       | Some _ => (UsernameTaken, c)
       | None => (Changed, apply_username now username new_username c)
       end.

(** ** The first administrator *)

Record InitialAdminCredentials : Type := { ic_username : string; ic_password : string; ic_generated : bool }.

Definition initial_admin_password (random : string) (configured_password : option string) : string * bool :=
  match configured_password with
  | Some password => if str_is_empty password then (random, true) else (password, false)
  | None => (random, true)
  end.

(** [SELECT .. WHERE role = 'super_admin' ORDER BY id LIMIT 1]. *)
Definition first_super_admin (c : Console) : option (string * Admin.t) :=
  head (sort_by_key (fun p => Admin.id p.2)
    (List.filter (fun p => (Admin.role p.2 =? "super_admin")%string) (map_to_list (admin_users c)))).

Definition ensure_initial_admin (now : Z) (random salt handle : string) (configured_password : option string)
    (c : Console) : option InitialAdminCredentials * Console :=
  if bool_decide (0 < size (admin_users c))%nat then
    let seeded := match initial_admin_user_handle c with
                  | Some h => Some h
                  | None => Admin.user_handle ∘ snd <$> first_super_admin c
                  end in
    (None, with_settings seeded (runtime_config c) c)
  else
    let '(password, generated) := initial_admin_password random configured_password in
    let c1 := on_admins <["admin" := {|
      Admin.id := next_admin_id c; Admin.password_hash := argon2_hash salt password; Admin.role := "super_admin";
      Admin.disabled := false; Admin.failed_login_count := 0; Admin.locked_until := None; Admin.user_handle := handle;
      Admin.created_at := now; Admin.updated_at := now |}]> c in
    (Some {| ic_username := "admin"; ic_password := password; ic_generated := generated |},
     {| admin_users := admin_users c1; next_admin_id := next_admin_id c + 1; admin_sessions := admin_sessions c1;
        admin_passkeys := admin_passkeys c1; next_passkey_id := next_passkey_id c1;
        admin_webauthn_challenges := admin_webauthn_challenges c1; initial_admin_user_handle := Some handle;
        runtime_config := runtime_config c1; security_audit := security_audit c1 |}).

Definition by_handle (handle : string) (c : Console) : option (string * Admin.t) :=
  find_first (fun p => (Admin.user_handle p.2 =? handle)%string) (map_to_list (admin_users c)).

Definition reset_initial_admin_password (now : Z) (random salt actor : string) (c : Console) :
    option InitialAdminCredentials * Console :=
  let found := match initial_admin_user_handle c ≫= fun h => by_handle h c with
               | Some p => Some (p, initial_admin_user_handle c)
               | None => (fun p => (p, Some (Admin.user_handle p.2))) <$> first_super_admin c
               end in
  match found with
  | None => (None, c)
  | Some ((username, _), handle) =>
      let c := with_settings handle (runtime_config c) c in
      let c := on_admins (alter (Admin.reset (argon2_hash salt random) now) username) c in
      let c := drop_sessions username c in
      (Some {| ic_username := username; ic_password := random; ic_generated := true |},
       insert_audit now actor "admin_password_reset" ("username=" +:+ username +:+ "; all sessions revoked") c)
  end.
End Login.

(** ** Passkeys *)

Section Passkeys.
Context `{SecretApi} `{PasskeyApi}.

Definition admin_user_handle (username : string) (c : Console) : option string :=
  match admin_users c !! username with
  | Some a => if Admin.disabled a then None else Some (Admin.user_handle a)
  | None => None
  end.

Definition passkeys_of (username : string) (c : Console) : list (Z * PasskeyRow.t) :=
  List.filter (fun p => (PasskeyRow.username p.2 =? username)%string) (map_to_list (admin_passkeys c)).

Definition admin_passkey_count (username : option string) (c : Console) : Z :=
  match username with
  | Some username => Z.of_nat (length (passkeys_of username c))
  | None => Z.of_nat (size (admin_passkeys c))
  end.

Definition admins_without_minimum_passkeys (minimum : Z) (except_username : string) (c : Console) : list string :=
  omap (fun p => if negb (Admin.disabled p.2) && negb (p.1 =? except_username)%string
                    && (admin_passkey_count (Some p.1) c <? minimum)
                 then Some p.1 else None) (map_to_list (admin_users c)).

(** Both identifiers of the authenticator have to match. *)
Definition discoverable_admin_passkey (user_handle credential_id : string) (c : Console) : option (string * Passkey) :=
  find_map (fun p =>
    match admin_users c !! PasskeyRow.username p.2 with
    | Some u => if (Admin.user_handle u =? user_handle)%string && (PasskeyRow.credential_id p.2 =? credential_id)%string
                   && negb (Admin.disabled u)
                then Some (PasskeyRow.username p.2, PasskeyRow.passkey p.2) else None
    | None => None
    end) (map_to_list (admin_passkeys c)).

(** [INSERT OR IGNORE]: credential ids are unique; the user is a foreign key. *)
Definition add_admin_passkey (now : Z) (username name : string) (passkey : Passkey) (c : Console) :
    option bool * Console :=
  if existsb (fun p => (PasskeyRow.credential_id p.2 =? cred_id passkey)%string) (map_to_list (admin_passkeys c))
  then (Some false, c)
  else match admin_users c !! username with
       | None => (None, c)
       | Some _ =>
           let c1 := {|
             admin_users := admin_users c; next_admin_id := next_admin_id c; admin_sessions := admin_sessions c;
             admin_passkeys := <[next_passkey_id c := {|
               PasskeyRow.username := username; PasskeyRow.name := name; PasskeyRow.credential_id := cred_id passkey;
               PasskeyRow.passkey := passkey; PasskeyRow.created_at := now; PasskeyRow.last_used_at := None |}]>
               (admin_passkeys c);
             next_passkey_id := next_passkey_id c + 1; admin_webauthn_challenges := admin_webauthn_challenges c;
             initial_admin_user_handle := initial_admin_user_handle c; runtime_config := runtime_config c;
             security_audit := security_audit c |} in
           (Some true, write_security_audit now username "admin_passkey_registered" name c1)
       end.

Definition update_admin_passkey_after_authentication (now : Z) (username : string) (result : AuthenticationResult)
    (c : Console) : bool * Console :=
  match find_first (fun p => (cred_id (PasskeyRow.passkey p.2) =? result_cred_id result)%string) (passkeys_of username c) with
  | None => (false, c)
  | Some (id, row) =>
      if negb (user_verified result) then (false, c)
      else (true, on_passkeys <[id := {|
        PasskeyRow.username := PasskeyRow.username row; PasskeyRow.name := PasskeyRow.name row;
        PasskeyRow.credential_id := PasskeyRow.credential_id row;
        PasskeyRow.passkey := update_credential result (PasskeyRow.passkey row);
        PasskeyRow.created_at := PasskeyRow.created_at row; PasskeyRow.last_used_at := Some now |}]> c)
  end.

Definition remove_admin_passkey (now : Z) (username : string) (id : Z) (c : Console) : bool * Console :=
  match admin_passkeys c !! id with
  | Some row =>
      if (PasskeyRow.username row =? username)%string
      then (true, write_security_audit now username "admin_passkey_deleted" ("passkey_id=" +:+ show_uint id)
                    (on_passkeys (delete id) c))
      else (false, c)
  | None => (false, c)
  end.

(** The handler [delete_admin_passkey]: [None] is the refusal of the policy. *)
Definition delete_admin_passkey (now : Z) (config : Config.t) (username : string) (id : Z) (c : Console) :
    option bool * Console :=
  let w := Config.webauthn config in
  if WebauthnConfig.require_passkey w && negb (username =? WebauthnConfig.break_glass_username w)%string
     && negb (2 <? admin_passkey_count (Some username) c)
  then (None, c)
  else let '(removed, c) := remove_admin_passkey now username id c in (Some removed, c).

Definition store_webauthn_challenge (now : Z) (challenge username kind state_json : string) (session_token : option string)
    (c : Console) : option string * Console :=
  let c1 := on_challenges (filter (fun p => ~ (WebauthnChallenge.expires_at p.2 <= now))) c in
  match admin_webauthn_challenges c1 !! hash_token challenge, admin_users c1 !! username with
  | None, Some _ =>
      (Some challenge, on_challenges <[hash_token challenge := {|
        WebauthnChallenge.username := username; WebauthnChallenge.kind := kind; WebauthnChallenge.state_json := state_json;
        WebauthnChallenge.session_token_hash := hash_token <$> session_token; WebauthnChallenge.created_at := now;
        WebauthnChallenge.expires_at := now + WEBAUTHN_CHALLENGE_LIFETIME_SECS |}]> c1)
  | _, _ => (None, c1)
  end.

Definition take_webauthn_challenge (now : Z) (challenge kind : string) (session_token : option string) (c : Console) :
    option (string * string) * Console :=
  let row := match admin_webauthn_challenges c !! hash_token challenge with
             | Some x => if (WebauthnChallenge.kind x =? kind)%string then Some x else None
             | None => None
             end in
  let c := on_challenges (delete (hash_token challenge)) c in
  (match row with
   | Some x =>
       if negb (bool_decide (WebauthnChallenge.session_token_hash x = hash_token <$> session_token))
          || (WebauthnChallenge.expires_at x <=? now)
       then None else Some (WebauthnChallenge.username x, WebauthnChallenge.state_json x)
   | None => None
   end, c).

(** The outer [None] is a database error. *)
Definition create_passkey_session (now : Z) (token username source : string) (c : Console) :
    option (option AdminSessionGrant) * Console :=
  match admin_users c !! username with
  | Some a =>
      if Admin.disabled a then (Some None, c)
      else match insert_admin_session now token username "passkey" c with
           | None => (None, c)
           | Some c =>
               (Some (Some {| as_token := token; as_expires_at := now + SESSION_LIFETIME_SECS; as_username := username;
                              as_role := Admin.role a |}),
                insert_audit now username "admin_passkey_login_succeeded" source c)
           end
  | None => (Some None, c)
  end.

(** ** The login handler *)

Inductive LoginAnswer : Type :=
| Granted (session : AdminSessionGrant)
| PasskeyRequired
| Unauthorized
| TooMany (retry_after_secs : Z)
| LoginFailed.

Definition username_key (username : string) : string := "username:" +:+ to_ascii_lowercase username.

(** The limits, before the password is looked at. *)
Definition login_refused (instant : Z) (username source : string) (limiter : AdminLoginRateLimiter.t) :
    bool * AdminLoginRateLimiter.t :=
  let '(by_user, limiter) := AdminLoginRateLimiter.is_limited (username_key username) 5 instant limiter in
  if by_user then (true, limiter)
  else AdminLoginRateLimiter.is_limited ("source:" +:+ source) 30 instant limiter.

(** [passkey_required]. *)
Definition needs_passkey (config : Config.t) (username : string) : bool :=
  let w := Config.webauthn config in
  WebauthnConfig.require_passkey w && negb (username =? WebauthnConfig.break_glass_username w)%string.

(** What the handler makes of the outcome. *)
Definition answer_login (instant : Z) (username source : string) (config : Config.t) (outcome : option AdminLoginOutcome)
    (limiter : AdminLoginRateLimiter.t) (c : Console) : LoginAnswer * AdminLoginRateLimiter.t * Console :=
  let key := username_key username in
  let record l := AdminLoginRateLimiter.record ("source:" +:+ source) instant (AdminLoginRateLimiter.record key instant l) in
  match outcome with
  | Some (Success session) =>
      if needs_passkey config (as_username session)
      then (PasskeyRequired, limiter, logout (as_token session) c)
      else (Granted session,
            AdminLoginRateLimiter.clear ("source:" +:+ source) (AdminLoginRateLimiter.clear key limiter), c)
  | Some Invalid => (Unauthorized, record limiter, c)
  | Some (Locked retry) => (TooMany retry, record limiter, c)
  | None => (LoginFailed, limiter, c)
  end.

(** [admin_login_response], one login at a time. *)
Definition admin_login_response (now instant : Z) (token username password source : string) (config : Config.t)
    (limiter : AdminLoginRateLimiter.t) (c : Console) : LoginAnswer * AdminLoginRateLimiter.t * Console :=
  let username := str_trim username in
  if str_is_empty username || str_is_empty password then (Unauthorized, limiter, c)
  else
    let '(refused, limiter) := login_refused instant username source limiter in
    if refused then (TooMany (15 * 60), limiter, c)
    else
      let '(outcome, c) := login_with_context now token username password source c in
      answer_login instant username source config outcome limiter c.

(** ** What names and passwords may be *)

Definition validate_admin_username (username : string) : bool :=
  (3 <=? str_len username) && (str_len username <=? 64)
  && all_bytes (fun c => is_ascii_alphanumeric c || contains_char c "._-") username.

Definition COMMON_ADMIN_PASSWORDS : list string := [
  "123456789012"; "administrator"; "adminpassword"; "password1234"; "qwertyuiop12"; "mirrorproxy"].

Definition validate_admin_password (username password : string) : result unit string :=
  if char_count password <? 12 then Err "administrator password must contain at least 12 characters"
  else if eq_ignore_ascii_case password username then Err "administrator password must not equal the username"
  else if existsb (String.eqb (to_ascii_lowercase password)) COMMON_ADMIN_PASSWORDS
  then Err "administrator password is too common"
  else Ok tt.
End Passkeys.

(** ** What holds of logins *)

Section LoginTheorems.
Context `{SecretApi} `{PasskeyApi}.

(** A wrong password for an account that may sign in. *)
Definition wrong (username password : string) (c : Console) : Prop := forall a,
  admin_users c !! username = Some a -> argon2_matches password (Admin.password_hash a) = false.

Definition may_sign_in (now : Z) (a : Admin.t) : Prop :=
  Admin.disabled a = false /\ forall until, Admin.locked_until a = Some until -> until <= now.

Lemma begin_admin_login_open now username password source (c : Console) a :
  str_trim username = username -> admin_users c !! username = Some a -> may_sign_in now a ->
  begin_admin_login now username password source c =
  inr {| at_username := username; at_now := now; at_row := a;
         at_valid := argon2_matches password (Admin.password_hash a) |}.
Proof.
  intros Ht Ha [Hd Hl]. unfold begin_admin_login. rewrite Ht, Ha, Hd. cbv zeta.
  destruct (Admin.locked_until a) as [until|]; [|done].
  destruct (Z.ltb_spec now until); [|done]. specialize (Hl until eq_refl). lia.
Qed.

Lemma begin_admin_login_locked now username password source (c : Console) a until :
  str_trim username = username -> admin_users c !! username = Some a -> Admin.disabled a = false ->
  Admin.locked_until a = Some until -> now < until ->
  exists c', begin_admin_login now username password source c = inl (Locked (sat_sub_i64 until now), c').
Proof.
  intros Ht Ha Hd Hl Hn. unfold begin_admin_login. rewrite Ht, Ha, Hd, Hl. cbv zeta.
  destruct (Z.ltb_spec now until); [by eexists|lia].
Qed.

Lemma finish_right token source (attempt : AdminAttempt) (c : Console) :
  at_valid attempt = true -> admin_sessions c !! hash_token token = None ->
  is_Some (admin_users c !! at_username attempt) ->
  (finish_admin_login token source attempt c).1 =
  Some (Success {| as_token := token; as_expires_at := at_now attempt + SESSION_LIFETIME_SECS;
                   as_username := at_username attempt; as_role := Admin.role (at_row attempt) |}).
Proof.
  intros Hv Hs [a Ha]. unfold finish_admin_login, insert_admin_session. rewrite Hv. cbn [negb]. by rewrite Hs, Ha.
Qed.

(** What a failure writes into the row that was read. *)
Definition failed_row (now : Z) (a : Admin.t) (b : Admin.t) : Admin.t :=
  let failures := match Admin.locked_until a with Some _ => 1 | None => Admin.failed_login_count a + 1 end in
  Admin.set_failures failures
    (if ADMIN_LOGIN_FAILURE_LIMIT <=? failures then Some (now + ADMIN_LOGIN_LOCK_SECS) else None) now b.

Lemma finish_wrong token source (attempt : AdminAttempt) (c : Console) :
  at_valid attempt = false ->
  exists outcome, (finish_admin_login token source attempt c).1 = Some outcome /\
  outcome = (match Admin.locked_until (failed_row (at_now attempt) (at_row attempt) (at_row attempt)) with
             | Some _ => Locked ADMIN_LOGIN_LOCK_SECS | None => Invalid end) /\
  admin_users (finish_admin_login token source attempt c).2 =
    alter (failed_row (at_now attempt) (at_row attempt)) (at_username attempt) (admin_users c).
Proof. intros Hv. unfold finish_admin_login. rewrite Hv. cbn [negb]. eexists. split; [done|]. split; done. Qed.

Lemma login_wrong now token username password source (c : Console) a :
  str_trim username = username -> admin_users c !! username = Some a -> may_sign_in now a ->
  argon2_matches password (Admin.password_hash a) = false ->
  let '(outcome, c') := login_with_context now token username password source c in
  outcome = Some (match Admin.locked_until (failed_row now a a) with
                  | Some _ => Locked ADMIN_LOGIN_LOCK_SECS | None => Invalid end) /\
  admin_users c' !! username = Some (failed_row now a a).
Proof.
  intros Ht Ha Hm Hp. unfold login_with_context. rewrite (begin_admin_login_open _ _ _ _ _ a Ht Ha Hm).
  set (attempt := {| at_username := username |}).
  destruct (finish_wrong token source attempt c Hp) as (outcome & Ho & -> & Hu).
  destruct (finish_admin_login _ _ _ _) as [o c']. simpl in *. split; [done|].
  by rewrite Hu, lookup_alter, decide_True, Ha by done.
Qed.

(** Logins one after another: their times and passwords. *)
Fixpoint logins (username source : string) (tries : list (Z * string * string)) (c : Console) :
    list (option AdminLoginOutcome) * Console :=
  match tries with
  | [] => ([], c)
  | (now, token, password) :: tries =>
      let '(o, c1) := login_with_context now token username password source c in
      let '(os, c2) := logins username source tries c1 in (o :: os, c2)
  end.

Lemma logins_wrong username source (tries : list (Z * string * string)) (c : Console) a :
  str_trim username = username -> admin_users c !! username = Some a ->
  Admin.disabled a = false -> Admin.locked_until a = None ->
  Forall (fun t => argon2_matches t.2 (Admin.password_hash a) = false) tries ->
  0 <= Admin.failed_login_count a -> Admin.failed_login_count a + Z.of_nat (length tries) < 5 ->
  let '(os, c') := logins username source tries c in
  os = replicate (length tries) (Some Invalid) /\
  exists b, admin_users c' !! username = Some b /\ Admin.disabled b = false /\ Admin.locked_until b = None /\
    Admin.password_hash b = Admin.password_hash a /\ Admin.role b = Admin.role a /\
    Admin.failed_login_count b = Admin.failed_login_count a + Z.of_nat (length tries).
Proof.
  intros Ht. revert c a. induction tries as [|[[now token] password] tries IH]; intros c a Ha Hd Hl Hw Hz Hn.
  { cbn. split; [done|]. exists a. split_and!; try done. cbn. lia. }
  cbn [logins]. apply Forall_cons in Hw as [Hp Hw]. cbn [length] in *. cbn in Hp.
  assert (Hm : may_sign_in now a) by (split; [done|]; by rewrite Hl).
  pose proof (login_wrong now token username password source c a Ht Ha Hm Hp) as Hlog.
  destruct (login_with_context _ _ _ _ _ _) as [o c1]. destruct Hlog as [-> H1].
  unfold failed_row in H1 |- *. rewrite Hl in H1 |- *.
  assert ((ADMIN_LOGIN_FAILURE_LIMIT <=? Admin.failed_login_count a + 1) = false) as Hf
    by (apply Z.leb_gt; unfold ADMIN_LOGIN_FAILURE_LIMIT; lia).
  rewrite Hf in H1 |- *. cbn [Admin.set_failures Admin.locked_until].
  specialize (IH c1 _ H1 Hd eq_refl Hw). cbn in IH. specialize (IH ltac:(lia) ltac:(lia)).
  destruct (logins _ _ tries c1) as [os c2]. destruct IH as [-> (b & Hb & Hdb & Hlb & Hpb & Hrb & Hfb)].
  split; [done|]. exists b. split_and!; try done. lia.
Qed.

(** C6: five consecutive failures lock the account for a quarter of an hour,
    as documented. Of five wrong passwords in a row the first four are refused
    as invalid and the fifth locks; until fifteen minutes after it every
    attempt, with the right password too, is turned away without a look at the
    password and told how long to wait; from then on the right password works. *)
Theorem five_failures_lock (username source : string) (tries : list (Z * string * string)) (last : Z)
    (token password : string) (c : Console) (a : Admin.t) :
  str_trim username = username -> admin_users c !! username = Some a -> Admin.disabled a = false ->
  Admin.locked_until a = None -> Admin.failed_login_count a = 0 -> length tries = 4%nat ->
  Forall (fun t => argon2_matches t.2 (Admin.password_hash a) = false) (tries ++ [(last, token, password)]) ->
  0 <= last -> last + 900 <= I64_MAX ->
  let '(os, c') := logins username source (tries ++ [(last, token, password)]) c in
  os = [Some Invalid; Some Invalid; Some Invalid; Some Invalid; Some (Locked 900)] /\
  forall now token' password' source',
    let outcome := (login_with_context now token' username password' source' c').1 in
    (last <= now < last + 900 -> outcome = Some (Locked (last + 900 - now))) /\
    (last + 900 <= now -> argon2_matches password' (Admin.password_hash a) = true ->
     admin_sessions c' !! hash_token token' = None ->
     outcome = Some (Success {| as_token := token'; as_expires_at := now + SESSION_LIFETIME_SECS;
                                as_username := username; as_role := Admin.role a |})).
Proof.
  intros Ht Ha Hd Hl Hf Hlen Hw Hz Hmax. apply Forall_app in Hw as [Hw Hp]. apply Forall_cons in Hp as [Hp _]. cbn in Hp.
  pose proof (logins_wrong username source tries c a Ht Ha Hd Hl Hw ltac:(lia)) as Hfour.
  rewrite Hf, Hlen in Hfour. specialize (Hfour ltac:(lia)).
  assert (Happ : forall tries c, logins username source (tries ++ [(last, token, password)]) c =
    let '(os, c1) := logins username source tries c in
    let '(o, c2) := login_with_context last token username password source c1 in (os ++ [o], c2)).
  { clear. induction tries as [|[[now tk] pw] tries IH]; intros c; cbn [logins app].
    - by destruct (login_with_context _ _ _ _ _ _).
    - destruct (login_with_context now tk username pw source c) as [o c1]. rewrite IH.
      destruct (logins _ _ tries c1) as [os c2]. by destruct (login_with_context last _ _ _ _ _). }
  rewrite Happ. destruct (logins username source tries c) as [os c1].
  destruct Hfour as [-> (b & Hb & Hdb & Hlb & Hpb & Hrb & Hfb)].
  assert (Hm : may_sign_in last b) by (split; [done|]; by rewrite Hlb).
  pose proof (login_wrong last token username password source c1 b Ht Hb Hm) as Hlog. rewrite Hpb in Hlog.
  specialize (Hlog Hp). destruct (login_with_context last _ _ _ _ _) as [o c2]. destruct Hlog as [-> H2].
  unfold failed_row in H2 |- *. rewrite Hlb, Hfb in H2 |- *. cbn -[I64_MAX] in H2 |- *. split; [done|].
  set (locked := Admin.set_failures 5 (Some (last + 900)) last b) in H2.
  intros now token' password' source'. unfold login_with_context. split.
  - intros Hn. destruct (begin_admin_login_locked now username password' source' c2 locked (last + 900) Ht H2 Hdb eq_refl)
      as (c3 & ->); [lia|]. cbn [fst]. unfold sat_sub_i64, I64_MAX in *. do 2 f_equal. lia.
  - intros Hn Hok Hs. rewrite (begin_admin_login_open _ _ _ _ _ locked Ht H2).
    2: { split; [done|]. cbn. intros ? [= <-]. lia. }
    rewrite finish_right; [cbn; by rewrite Hrb| |done|by eexists].
    cbn. by rewrite Hpb.
Qed.

(** Attempts that all finish after the last one was begun. *)
Definition finish_all (source : string) (attempts : list AdminAttempt) (c : Console) : Console :=
  fold_left (fun c attempt => (finish_admin_login "" source attempt c).2) attempts c.

(** A wrong attempt that read the row [a]. *)
Definition seen_by (username : string) (a : Admin.t) (t : Z * string) : AdminAttempt := {|
  at_username := username; at_now := t.1; at_row := a; at_valid := false;
|}.

(** Wrong passwords that are checked at the same time count as one. When
    any number of logins read the account before the first of them is counted,
    every one of their passwords is checked, and afterwards the account has
    one failure more than before and is not locked: each login writes the
    count it read plus one. *)
Theorem parallel_failures_count_once (username source : string) (tries : list (Z * string)) (c : Console) (a : Admin.t) :
  str_trim username = username -> admin_users c !! username = Some a -> Admin.disabled a = false ->
  Admin.locked_until a = None -> 0 <= Admin.failed_login_count a < 4 -> tries <> [] ->
  Forall (fun t => argon2_matches t.2 (Admin.password_hash a) = false) tries ->
  exists attempts, Forall2 (fun t attempt => begin_admin_login t.1 username t.2 source c = inr attempt) tries attempts /\
  exists b, admin_users (finish_all source attempts c) !! username = Some b /\
    Admin.failed_login_count b = Admin.failed_login_count a + 1 /\ Admin.locked_until b = None.
Proof.
  intros Ht Ha Hd Hl Hf Hne Hw.
  exists (seen_by username a <$> tries). split.
  { apply Forall2_fmap_r. apply Forall_Forall2_diag. eapply Forall_impl; [exact Hw|]. intros [now password] Hp. cbn in *.
    rewrite (begin_admin_login_open _ _ _ _ _ a Ht Ha); [by rewrite Hp|]. split; [done|]. by rewrite Hl. }
  assert (Hgo : forall tries c b, admin_users c !! username = Some b ->
    (tries = [] -> Admin.failed_login_count b = Admin.failed_login_count a + 1 /\ Admin.locked_until b = None) ->
    exists b', admin_users (finish_all source
        (seen_by username a <$> tries) c) !! username =
      Some b' /\ Admin.failed_login_count b' = Admin.failed_login_count a + 1 /\ Admin.locked_until b' = None).
  { clear - Hl Hf. induction tries as [|[now password] tries IH]; intros c b Hb Hend.
    { exists b. naive_solver. }
    cbn [fmap list_fmap]. set (attempt := seen_by username a (now, password)).
    destruct (finish_wrong "" source attempt c eq_refl) as (o & _ & _ & Hu).
    cbn [attempt at_username at_now at_row seen_by fst] in Hu.
    assert (H1 : admin_users (finish_admin_login "" source attempt c).2 !! username = Some (failed_row now a b))
      by (by rewrite Hu, lookup_alter, decide_True, Hb by done).
    apply (IH _ _ H1). intros _. unfold failed_row. rewrite Hl.
    assert ((ADMIN_LOGIN_FAILURE_LIMIT <=? Admin.failed_login_count a + 1) = false) as ->
      by (apply Z.leb_gt; unfold ADMIN_LOGIN_FAILURE_LIMIT; lia). done. }
  apply (Hgo tries c a Ha). done.
Qed.
End LoginTheorems.

Section ConsoleTheorems.
Context `{SecretLaws} `{PasskeyApi}.

Lemma first_super_admin_in (c : Console) p : first_super_admin c = Some p -> admin_users c !! p.1 = Some p.2.
Proof.
  unfold first_super_admin. intros Hp. apply elem_of_map_to_list.
  assert (Hin : p ∈ sort_by_key (fun p => Admin.id p.2)
    (List.filter (fun p => (Admin.role p.2 =? "super_admin")%string) (map_to_list (admin_users c)))).
  { destruct (sort_by_key _ _); [done|]. cbn in Hp. simplify_eq. left. }
  rewrite sort_by_key_perm in Hin. apply list_elem_of_In, filter_In in Hin as [Hin _]. destruct p.
  by apply list_elem_of_In.
Qed.

Lemma by_handle_in (handle : string) (c : Console) p : by_handle handle c = Some p -> admin_users c !! p.1 = Some p.2.
Proof.
  intros (pre & x & post & Hl & Hx & _)%find_map_Some. case_bool; [|done]. simplify_eq. apply elem_of_map_to_list.
  destruct p. rewrite Hl. set_solver.
Qed.

(** Sessions that were dropped authenticate nobody. *)
Lemma dropped_sessions (now : Z) (username token : string) (c : Console) identity :
  (forall h s, admin_sessions c !! h = Some s -> AdminSession.username s <> username) ->
  (authenticate_session now token c).1 = Some identity -> ai_username identity <> username.
Proof.
  intros Hd. unfold authenticate_session. destruct (_ !! hash_token token) as [s|] eqn:Hs; [|done].
  cbn in Hs. apply map_lookup_filter_Some in Hs as [Hs _]. destruct (_ !! AdminSession.username s); [|done].
  case_bool; [|done]. intros [= <-]. cbn. by eapply Hd.
Qed.

Lemma drop_sessions_spec (username : string) (c : Console) h s :
  admin_sessions (drop_sessions username c) !! h = Some s -> AdminSession.username s <> username.
Proof. by intros [_ Hn]%map_lookup_filter_Some. Qed.

(** The administrator can always get back in. As long as there is an
    administrator, the reset command finds one, whether the initial one or
    the first there is; the password it prints signs in at once, even if the
    account was disabled or locked; and no session from before the reset
    belongs to that account any more. *)
Theorem reset_recovers_administrator (now : Z) (random salt actor : string) (c : Console) :
  first_super_admin c <> None -> (forall u a, admin_users c !! u = Some a -> str_trim u = u) ->
  exists credentials c', reset_initial_admin_password now random salt actor c = (Some credentials, c') /\
    is_Some (admin_users c !! ic_username credentials) /\
    (forall now' token source, admin_sessions c' !! hash_token token = None ->
     exists role, (login_with_context now' token (ic_username credentials) (ic_password credentials) source c').1 =
       Some (Success {| as_token := token; as_expires_at := now' + SESSION_LIFETIME_SECS;
                        as_username := ic_username credentials; as_role := role |})) /\
    (forall now' token identity, (authenticate_session now' token c').1 = Some identity ->
     ai_username identity <> ic_username credentials).
Proof.
  intros Hne Htrim. unfold reset_initial_admin_password.
  assert (exists u a handle, admin_users c !! u = Some a /\
    match initial_admin_user_handle c ≫= fun h => by_handle h c with
    | Some p => Some (p, initial_admin_user_handle c)
    | None => (fun p => (p, Some (Admin.user_handle p.2))) <$> first_super_admin c
    end = Some ((u, a), handle)) as (u & a & handle & Hu & ->).
  { destruct (initial_admin_user_handle c) as [h|]; cbn [mbind option_bind].
    - destruct (by_handle h c) as [[u a]|] eqn:Eh.
      + apply by_handle_in in Eh. by exists u, a, (Some h).
      + destruct (first_super_admin c) as [[u a]|] eqn:Ef; [|done]. apply first_super_admin_in in Ef.
        exists u, a. eexists. split; [done|]. done.
    - destruct (first_super_admin c) as [[u a]|] eqn:Ef; [|done]. apply first_super_admin_in in Ef.
      exists u, a. eexists. split; done. }
  eexists _, _. split; [reflexivity|]. cbn [ic_username ic_password]. split; [by rewrite Hu|]. split.
  - intros now' token source Hs. exists (Admin.role a). unfold login_with_context.
    rewrite (begin_admin_login_open _ _ _ _ _ (Admin.reset (argon2_hash salt random) now a)).
    + rewrite finish_right; [done|apply argon2_matches_hash|exact Hs|]. cbn.
      rewrite lookup_alter, decide_True, Hu by done. by eexists.
    + by eapply Htrim.
    + cbn. by rewrite lookup_alter, decide_True, Hu by done.
    + by split.
  - intros now' token identity. apply dropped_sessions. intros h s. apply drop_sessions_spec.
Qed.

(** C7: a passkey challenge is used once, by the one it was made for. A
    challenge that was just issued is accepted exactly if it comes back within
    five minutes, for the same purpose and from the same session; whatever came
    of that, it is never accepted again. *)
Theorem webauthn_challenge_used_once (now now' : Z) (challenge username kind kind' state_json : string)
    (session session' : option string) (c : Console) :
  admin_webauthn_challenges c !! hash_token challenge = None -> is_Some (admin_users c !! username) ->
  let '(issued, c1) := store_webauthn_challenge now challenge username kind state_json session c in
  issued = Some challenge /\
  let '(taken, c2) := take_webauthn_challenge now' challenge kind' session' c1 in
  (taken = Some (username, state_json) <->
   kind' = kind /\ hash_token <$> session' = hash_token <$> session /\ now' < now + 300) /\
  (taken <> Some (username, state_json) -> taken = None) /\
  forall later kind'' session'', (take_webauthn_challenge later challenge kind'' session'' c2).1 = None.
Proof.
  intros Hc [a Ha]. unfold store_webauthn_challenge. cbn [on_challenges admin_webauthn_challenges admin_users].
  assert (filter (fun p => ~ (WebauthnChallenge.expires_at p.2 <= now)) (admin_webauthn_challenges c) !!
    hash_token challenge = None) as -> by (apply map_lookup_filter_None; by left).
  rewrite Ha. split; [done|]. unfold take_webauthn_challenge. cbn [on_challenges admin_webauthn_challenges].
  rewrite lookup_insert, decide_True by done. cbn [WebauthnChallenge.kind].
  split; [|split].
  - destruct (String.eqb_spec kind kind') as [->|Hk]; [|naive_solver].
    cbn [WebauthnChallenge.session_token_hash WebauthnChallenge.expires_at WebauthnChallenge.username
         WebauthnChallenge.state_json]. unfold WEBAUTHN_CHALLENGE_LIFETIME_SECS.
    case_bool_decide; cbn [negb orb]; [|naive_solver].
    destruct (Z.leb_spec (now + 5 * 60) now'); split; try done; intros; lia.
  - repeat case_match; naive_solver.
  - intros later kind'' session''. cbn [on_challenges admin_webauthn_challenges].
    by rewrite lookup_delete, decide_True.
Qed.
End ConsoleTheorems.

(** ** Witnesses *)

#[export] Instance SamplePasskeys : PasskeyApi := {|
  Passkey := string; AuthenticationResult := string; cred_id k := k; result_cred_id r := r; user_verified _ := true;
  update_credential _ k := k;
|}.

Definition blank_console : Console := {|
  admin_users := ∅; next_admin_id := 1; admin_sessions := ∅; admin_passkeys := ∅; next_passkey_id := 1;
  admin_webauthn_challenges := ∅; initial_admin_user_handle := None; runtime_config := None; security_audit := [];
|}.

Definition sample_console : Console := (ensure_initial_admin 10 "generated" "salt" "handle" (Some "correct horse") blank_console).2.

Definition sample_admin : Admin.t := {|
  Admin.id := 1; Admin.password_hash := "salt$correct horse"; Admin.role := "super_admin"; Admin.disabled := false;
  Admin.failed_login_count := 0; Admin.locked_until := None; Admin.user_handle := "handle"; Admin.created_at := 10;
  Admin.updated_at := 10;
|}.

Lemma sample_console_admin : admin_users sample_console !! "admin" = Some sample_admin.
Proof. vm_compute. reflexivity. Qed.

Lemma five_failures_lock_witness :
  let '(os, c') := logins "admin" "203.0.113.9"
    [(100, "t1", "a"); (101, "t2", "b"); (102, "t3", "c"); (103, "t4", "d"); (104, "t5", "e")] sample_console in
  os = [Some Invalid; Some Invalid; Some Invalid; Some Invalid; Some (Locked 900)] /\
  (login_with_context 200 "t6" "admin" "correct horse" "203.0.113.9" c').1 = Some (Locked 804).
Proof.
  pose proof (five_failures_lock "admin" "203.0.113.9"
    [(100, "t1", "a"); (101, "t2", "b"); (102, "t3", "c"); (103, "t4", "d")] 104 "t5" "e" sample_console sample_admin)
    as Hlock.
  specialize (Hlock eq_refl sample_console_admin eq_refl eq_refl eq_refl eq_refl).
  specialize (Hlock ltac:(repeat constructor) ltac:(lia) ltac:(unfold I64_MAX; lia)). cbn [app] in Hlock.
  destruct (logins _ _ _ _) as [os c']. destruct Hlock as [Hos Hlater]. split; [exact Hos|].
  apply (Hlater 200 "t6" "correct horse" "203.0.113.9"). lia.
Defined.

Lemma parallel_failures_count_once_witness :
  exists attempts,
    Forall2 (fun t attempt => begin_admin_login t.1 "admin" t.2 "x" sample_console = inr attempt)
      [(100, "a"); (100, "b"); (100, "c"); (100, "d"); (100, "e"); (100, "f"); (100, "g")] attempts /\
    exists b, admin_users (finish_all "x" attempts sample_console) !! "admin" = Some b /\
      Admin.failed_login_count b = Admin.failed_login_count sample_admin + 1 /\ Admin.locked_until b = None.
Proof.
  apply (parallel_failures_count_once "admin" "x" _ sample_console sample_admin);
    [reflexivity|apply sample_console_admin|reflexivity|reflexivity|cbn; lia|done|repeat constructor].
Defined.

Lemma reset_recovers_administrator_witness :
  exists credentials c', reset_initial_admin_password 50 "fresh" "salt2" "cli" sample_console = (Some credentials, c') /\
    forall now' token source, admin_sessions c' !! hash_token token = None ->
     exists role, (login_with_context now' token (ic_username credentials) (ic_password credentials) source c').1 =
       Some (Success {| as_token := token; as_expires_at := now' + SESSION_LIFETIME_SECS;
                        as_username := ic_username credentials; as_role := role |}).
Proof.
  destruct (reset_recovers_administrator 50 "fresh" "salt2" "cli" sample_console) as (credentials & c' & Hr & _ & Hl & _).
  - vm_compute. discriminate.
  - intros u a Hu. change (admin_users sample_console) with (<["admin" := sample_admin]> (∅ : gmap string Admin.t)) in Hu.
    apply lookup_insert_Some in Hu as [[<- _]|[_ Hu]]; [reflexivity|]. by rewrite lookup_empty in Hu.
  - exists credentials, c'. split; [exact Hr|exact Hl].
Defined.

Lemma webauthn_challenge_used_once_witness :
  let '(issued, c1) := store_webauthn_challenge 100 "challenge" "admin" "authentication" "state" None sample_console in
  issued = Some "challenge" /\
  (take_webauthn_challenge 399 "challenge" "authentication" None c1).1 = Some ("admin", "state").
Proof.
  pose proof (webauthn_challenge_used_once 100 399 "challenge" "admin" "authentication" "authentication" "state" None None
    sample_console) as Hc.
  specialize (Hc eq_refl ltac:(rewrite sample_console_admin; by eexists)).
  destruct (store_webauthn_challenge _ _ _ _ _ _ _) as [issued c1]. destruct Hc as [Hi Ht]. split; [exact Hi|].
  destruct (take_webauthn_challenge _ _ _ _ c1) as [taken c2]. destruct Ht as [Ht _]. apply Ht. repeat split.
Defined.
