(* ===== verification/Secrets.v ===== *)
(** * Secrets at rest

    [secrets.rs]: the envelope of a stored secret and the master key; and the
    statements of [database.rs] that seal the secrets of an older database when
    it is opened.  XChaCha20-Poly1305, base64 and hexadecimal are third-party
    code: the class [CipherApi].  A random nonce is read from a stream of
    draws. *)
From stdpp Require Import gmap.
From S2P Require Import Prelude RustStr.
Open Scope string_scope.
Open Scope Z_scope.
Open Scope list_scope.
Open Scope mirror_scope.

(** [encrypt key nonce aad message], [decrypt key nonce aad ciphertext]. *)
Class CipherApi : Type := {
  aead_encrypt : string -> string -> string -> string -> option string;
  aead_decrypt : string -> string -> string -> string -> option string;
  base64url_encode : string -> string;
  base64url_decode : string -> option string;
  hex_decode : string -> option string;
}.

Class CipherLaws `{CipherApi} : Prop := {
  aead_round_trip key nonce aad m c : aead_encrypt key nonce aad m = Some c -> aead_decrypt key nonce aad c = Some m;
  (** the tag has sixteen bytes *)
  aead_length key nonce aad m c : aead_encrypt key nonce aad m = Some c -> str_len c = str_len m + 16;
  base64url_round_trip s : base64url_decode (base64url_encode s) = Some s;
  base64url_length s b : base64url_decode s = Some b -> str_len b = str_len s * 3 / 4;
  hex_length s b : hex_decode s = Some b -> str_len s = 2 * str_len b;
}.

Definition PREFIX : string := "enc:v1:".
Definition NONCE_LEN : Z := 24.

Section Cipher.
Context `{CipherApi}.

Definition is_hex_digit (c : ascii) : bool := is_digit c || in_range 65 70 c || in_range 97 102 c.

Definition decode_master_key (encoded : string) : result string string :=
  let? bytes :=
    if (str_len encoded =? 64) && all_bytes is_hex_digit encoded
    then result_of_option (hex_decode encoded) "MIRRORPROXY_MASTER_KEY contains invalid hexadecimal characters"
    else result_of_option (base64url_decode encoded)
           "MIRRORPROXY_MASTER_KEY must be 32 bytes encoded as base64url or hex" in
  if negb (str_len bytes =? 32) then Err "MIRRORPROXY_MASTER_KEY must decode to exactly 32 bytes" else Ok bytes.

(** A [SecretCipher] is the key of its cipher, if there is one; the argument is
    the environment variable. *)
Definition from_env (master_key : option string) : result (option string) string :=
  match master_key with
  | None => Ok None
  | Some value =>
      if str_is_empty (str_trim value) then Ok None
      else let? bytes := decode_master_key (str_trim value) in Ok (Some bytes)
  end.

Definition cipher_enabled (cipher : option string) : bool := bool_decide (is_Some cipher).

Definition open (cipher : option string) (context value : string) : result string string :=
  match strip_prefix PREFIX value with
  | None => Ok value
  | Some encoded =>
      match cipher with
      | None => Err ("encrypted " +:+ context +:+ " requires the MIRRORPROXY_MASTER_KEY used when it was stored")
      | Some key =>
          let? payload := result_of_option (base64url_decode encoded) ("stored " +:+ context +:+ " ciphertext is invalid") in
          if str_len payload <=? NONCE_LEN then Err ("stored " +:+ context +:+ " ciphertext is truncated")
          else
            let nonce := String.substring 0 (Z.to_nat NONCE_LEN) payload in
            let ciphertext := String.substring (Z.to_nat NONCE_LEN) (String.length payload - Z.to_nat NONCE_LEN) payload in
            let? plaintext := result_of_option (aead_decrypt key nonce context ciphertext)
                                ("failed to decrypt " +:+ context +:+ "; master key is incorrect") in
            if utf8_valid plaintext then Ok plaintext else Err ("decrypted " +:+ context +:+ " is not UTF-8")
      end
  end.

Definition seal (cipher : option string) (nonce context value : string) : result string string :=
  if str_is_empty value then Ok value
  else if starts_with PREFIX value then let? _ := open cipher context value in Ok value
  else match cipher with
       | None => Ok value
       | Some key =>
           let? ciphertext := result_of_option (aead_encrypt key nonce context value) ("failed to encrypt " +:+ context) in
           Ok (PREFIX +:+ base64url_encode (nonce +:+ ciphertext))
       end.

(** ** The upgrade of stored secrets

    One step draws a nonce; the counter says how many were drawn. *)
Definition Drawing (A : Type) : Type := nat -> result (A * nat) string.

Definition ret {A} (a : A) : Drawing A := fun n => Ok (a, n).

Definition bind {A B} (m : Drawing A) (k : A -> Drawing B) : Drawing B := fun n =>
  match m n with Ok (a, n') => k a n' | Err e => Err e end.

Fixpoint each {A B} (f : A -> Drawing B) (l : list A) : Drawing (list B) :=
  match l with
  | [] => ret []
  | x :: t => bind (f x) (fun y => bind (each f t) (fun ys => ret (y :: ys)))
  end.

Section Upgrade.
Variable draws : nat -> string.
Variable cipher : option string.

Definition seal_next (context value : string) : Drawing string := fun n =>
  match seal cipher (draws n) context value with Ok s => Ok (s, S n) | Err e => Err e end.

Definition seal_optional (context : string) (value : option string) : Drawing (option string) :=
  match value with
  | None => ret None
  | Some v => bind (seal_next context v) (fun s => ret (Some s))
  end.

Definition open_optional (context : string) (value : option string) : result (option string) string :=
  match value with
  | None => Ok None
  | Some v => let? s := open cipher context v in Ok (Some s)
  end.
End Upgrade.
End Cipher.

(** The columns that hold secrets; an absent row is [None].  The columns of
    [acme_settings] are in the order of the statement. *)
Module SecretColumns.
Record t : Type := {
  smtp_password : option (option string);
  client_secrets : list (Z * option string);
  flow_payloads : list (string * string);
  outbox_bodies : list (Z * (string * option string));
  runtime_config : option string;
  other_settings : list string;
  acme : option (list string);
}.
End SecretColumns.
Import SecretColumns.

Definition ACME_COLUMNS : list string := [
  "acme.cloudflare_api_token"; "acme.cloudflare_api_key"; "acme.cloudflare_email"; "acme.aliyun_access_key_id";
  "acme.aliyun_access_key_secret"; "acme.tencent_secret_id"; "acme.tencent_secret_key"; "acme.route53_access_key_id";
  "acme.route53_secret_access_key"; "acme.route53_session_token"; "acme.webhook_bearer_token"].

(** [LIKE 'enc:v1:%']; the operator ignores the case of ASCII letters. *)
Definition like_encrypted (value : string) : bool := starts_with PREFIX (to_ascii_lowercase value).

Definition like_optional (value : option string) : bool :=
  match value with Some v => like_encrypted v | None => false end.

(** The columns of [acme_settings] the check of a database without a key reads. *)
Definition CHECKED_ACME_COLUMNS : list string := [
  "acme.cloudflare_api_token"; "acme.cloudflare_api_key"; "acme.aliyun_access_key_secret"; "acme.tencent_secret_key";
  "acme.route53_secret_access_key"; "acme.webhook_bearer_token"].

Definition has_encrypted (c : SecretColumns.t) : bool :=
  existsb like_encrypted (other_settings c) || like_optional (runtime_config c)
  || like_optional (default None (smtp_password c))
  || existsb (fun p => like_optional p.2) (client_secrets c)
  || existsb (fun p => like_encrypted p.2) (flow_payloads c)
  || existsb (fun p => like_encrypted p.2.1 || like_optional p.2.2) (outbox_bodies c)
  || match acme c with
     | Some values => existsb (fun p => existsb (String.eqb p.1) CHECKED_ACME_COLUMNS && like_encrypted p.2)
                        (combine ACME_COLUMNS values)
     | None => false
     end.

Section Startup.
Context `{CipherApi}.
Variable draws : nat -> string.
Variable cipher : option string.

Definition seal_row {K} (context : string) (p : K * string) : Drawing (K * string) :=
  bind (seal_next draws cipher context p.2) (fun s => ret (p.1, s)).

Definition seal_secret_row {K} (context : string) (p : K * option string) : Drawing (K * option string) :=
  bind (seal_optional draws cipher context p.2) (fun s => ret (p.1, s)).

Definition seal_message (p : Z * (string * option string)) : Drawing (Z * (string * option string)) :=
  bind (seal_next draws cipher "email_outbox.body" p.2.1) (fun body =>
  bind (seal_optional draws cipher "email_outbox.html_body" p.2.2) (fun html =>
  ret (p.1, (body, html)))).

Definition seal_when {A} (f : A -> Drawing A) (o : option A) : Drawing (option A) :=
  match o with None => ret None | Some a => bind (f a) (fun b => ret (Some b)) end.

(** The transaction. *)
Definition seal_columns (c : SecretColumns.t) : Drawing SecretColumns.t :=
  bind (seal_when (seal_optional draws cipher "smtp_settings.password") (smtp_password c)) (fun smtp =>
  bind (each (seal_secret_row "auth_providers.client_secret") (client_secrets c)) (fun clients =>
  bind (each (seal_row "user_auth_flows.payload") (flow_payloads c)) (fun flows =>
  bind (each seal_message (outbox_bodies c)) (fun outbox =>
  bind (seal_when (seal_next draws cipher "settings.runtime_config") (runtime_config c)) (fun runtime =>
  bind (seal_when (fun values => each (fun p => seal_next draws cipher p.1 p.2) (combine ACME_COLUMNS values)) (acme c))
    (fun acme => ret {|
      smtp_password := smtp; client_secrets := clients; flow_payloads := flows; outbox_bodies := outbox;
      runtime_config := runtime; other_settings := other_settings c; acme := acme |})))))).

Definition encrypt_plaintext_secrets (c : SecretColumns.t) : result SecretColumns.t string :=
  if negb (cipher_enabled cipher) then
    if has_encrypted c
    then Err "database contains encrypted secrets; set MIRRORPROXY_MASTER_KEY to the original key"
    else Ok c
  else match seal_columns c 0%nat with Ok (c', _) => Ok c' | Err e => Err e end.
End Startup.

(** ** The envelope *)

Section EnvelopeTheorems.
Context `{CipherLaws}.

Lemma substring_app (a b : string) : String.substring 0 (String.length a) (a +:+ b) = a.
Proof.
  induction a as [|x a IH]; cbn [String.append String.length String.substring]; [by destruct b|].
  by rewrite IH.
Qed.

Lemma substring_all (b : string) : String.substring 0 (String.length b) b = b.
Proof. rewrite <-(str_app_nil_r b) at 2. apply substring_app. Qed.

Lemma substring_skip (a b : string) : String.substring (String.length a) (String.length b) (a +:+ b) = b.
Proof. induction a as [|x a IH]; [apply substring_all|exact IH]. Qed.

Lemma open_plain (cipher : option string) (context value : string) :
  starts_with PREFIX value = false -> open cipher context value = Ok value.
Proof.
  intros Hp. unfold open. destruct (strip_prefix PREFIX value) as [e|] eqn:He; [|done].
  assert (starts_with PREFIX value = true) by (apply starts_with_strip; eauto). congruence.
Qed.

Lemma open_sealed (key nonce context value ciphertext : string) :
  str_len nonce = NONCE_LEN -> utf8_valid value = true -> aead_encrypt key nonce context value = Some ciphertext ->
  open (Some key) context (PREFIX +:+ base64url_encode (nonce +:+ ciphertext)) = Ok value.
Proof.
  intros Hn Hu He. unfold open. rewrite strip_prefix_app, base64url_round_trip. cbn [result_of_option result_bind].
  pose proof (aead_length _ _ _ _ _ He) as Hl. unfold str_len in *.
  rewrite str_length_app. unfold NONCE_LEN in *.
  destruct (Z.leb_spec (Z.of_nat (String.length nonce + String.length ciphertext)) 24); [lia|].
  replace (Z.to_nat 24) with (String.length nonce) by lia. rewrite substring_app.
  replace (String.length nonce + String.length ciphertext - String.length nonce)%nat with (String.length ciphertext) by lia.
  rewrite substring_skip, (aead_round_trip _ _ _ _ _ He). cbn [result_of_option result_bind]. by rewrite Hu.
Qed.

(** What [seal] makes of a value: it reads back as before, it is not stored in
    clear when there is a key, and sealing it again changes nothing. *)
Definition kept (cipher : option string) (context value stored : string) : Prop :=
  open cipher context stored = open cipher context value /\
  (cipher_enabled cipher = true -> stored = "" \/ starts_with PREFIX stored = true) /\
  forall nonce', seal cipher nonce' context stored = Ok stored.

Lemma seal_kept (cipher : option string) (nonce context value stored : string) :
  str_len nonce = NONCE_LEN -> utf8_valid value = true -> seal cipher nonce context value = Ok stored ->
  kept cipher context value stored.
Proof.
  intros Hn Hu Hs. unfold seal in Hs.
  destruct (str_is_empty value) eqn:Hv.
  { destruct value; [|done]. injection Hs as <-. split; [done|]. split; [by left|done]. }
  destruct (starts_with PREFIX value) eqn:Hp.
  { destruct (open cipher context value) as [plain|] eqn:Ho; [|done]. cbn [result_bind] in Hs. injection Hs as <-.
    split; [done|]. split; [by right|]. intros nonce'. unfold seal. by rewrite Hv, Hp, Ho. }
  destruct cipher as [key|].
  - destruct (aead_encrypt key nonce context value) as [ciphertext|] eqn:He; [|done].
    cbn [result_of_option result_bind] in Hs.
    assert (PREFIX +:+ base64url_encode (nonce +:+ ciphertext) = stored) as <- by congruence.
    pose proof (open_sealed key nonce context value ciphertext Hn Hu He) as Ho.
    unfold kept. split; [by rewrite Ho, open_plain|]. split; [right; apply starts_with_app|].
    intros nonce'. unfold seal. rewrite starts_with_app, Ho. reflexivity.
  - injection Hs as <-. split; [done|]. split; [by intros Hd|]. intros nonce'. unfold seal. by rewrite Hv, Hp.
Qed.

(** A secret reads back as it was stored under the same purpose; with a
    master key it is never stored in clear, and sealing what is stored changes
    nothing. *)
Theorem sealed_secrets_read_back (cipher : option string) (nonce context value stored : string) :
  str_len nonce = NONCE_LEN -> utf8_valid value = true -> starts_with PREFIX value = false ->
  seal cipher nonce context value = Ok stored ->
  open cipher context stored = Ok value /\
  (cipher_enabled cipher = true -> value <> "" -> stored <> value /\ starts_with PREFIX stored = true) /\
  forall nonce', seal cipher nonce' context stored = Ok stored.
Proof.
  intros Hn Hu Hp Hs. destruct (seal_kept _ _ _ _ _ Hn Hu Hs) as (Ho & Hc & Ha).
  rewrite (open_plain _ _ value Hp) in Ho. split; [done|]. split; [|done]. intros He Hv.
  assert (starts_with PREFIX stored = true) as Hst.
  { destruct (Hc He) as [->|]; [|done]. cbn in Ho. congruence. }
  split; [congruence|done].
Qed.

(** A master key that is accepted has thirty-two bytes, and is written
    either as sixty-four hexadecimal digits or as forty-three characters of
    base64url: no key can be read both ways. *)
Theorem master_keys_unambiguous (encoded key : string) :
  decode_master_key encoded = Ok key ->
  str_len key = 32 /\
  (str_len encoded = 64 /\ all_bytes is_hex_digit encoded = true /\ hex_decode encoded = Some key \/
   str_len encoded = 43 /\ base64url_decode encoded = Some key).
Proof.
  unfold decode_master_key. intros Hd.
  destruct ((str_len encoded =? 64) && all_bytes is_hex_digit encoded) eqn:Hh.
  - destruct (hex_decode encoded) as [b|]; [|done]. cbn in Hd. destruct (Z.eqb_spec (str_len b) 32); [|done].
    injection Hd as ->. apply andb_prop in Hh as [Hl Ha]. split; [done|]. left. split_and!; [lia|done|done].
  - destruct (base64url_decode encoded) as [b|] eqn:Hb; [|done]. cbn in Hd. destruct (Z.eqb_spec (str_len b) 32); [|done].
    injection Hd as ->. split; [done|]. right. split; [|done]. apply base64url_length in Hb. Z.to_euclidean_division_equations. lia.
Qed.
End EnvelopeTheorems.

(** ** The upgrade of stored secrets *)

(** Every column with a secret and the purpose it is sealed for. *)
Definition message_values (p : Z * (string * option string)) : list (string * string) :=
  ("email_outbox.body", p.2.1) :: (pair "email_outbox.html_body" <$> option_list p.2.2).

Definition secret_values (c : SecretColumns.t) : list (string * string) :=
  match smtp_password c with Some p => pair "smtp_settings.password" <$> option_list p | None => [] end ++
  (client_secrets c ≫= fun p => pair "auth_providers.client_secret" <$> option_list p.2) ++
  (flow_payloads c ≫= fun p => [("user_auth_flows.payload", p.2)]) ++
  (outbox_bodies c ≫= message_values) ++
  match runtime_config c with Some v => [("settings.runtime_config", v)] | None => [] end ++
  match acme c with Some values => combine ACME_COLUMNS values | None => [] end.

Section UpgradeTheorems.
Context `{CipherLaws}.
Variable draws : nat -> string.
Variable key : string.
Hypothesis draws_length : forall n, str_len (draws n) = NONCE_LEN.
Local Notation cipher := (Some key).

(** A step turns [a] into [b]: it keeps what the columns hold, and repeated on
    [b], with whatever draws, it changes nothing. *)
Definition upgrades {A} (values : A -> list (string * string)) (f : (nat -> string) -> A -> Drawing A) (a : A) : Prop :=
  forall n b n', f draws a n = Ok (b, n') ->
  Forall2 (fun v s => v.1 = s.1 /\ kept cipher v.1 v.2 s.2) (values a) (values b) /\
  forall draws' m, exists m', f draws' b m = Ok (b, m').

Definition text (values : list (string * string)) : Prop := Forall (fun v => utf8_valid v.2 = true) values.

Lemma bind_Ok {A B} (m : Drawing A) (k : A -> Drawing B) n b n' :
  bind m k n = Ok (b, n') -> exists a n1, m n = Ok (a, n1) /\ k a n1 = Ok (b, n').
Proof. unfold bind. destruct (m n) as [[a n1]|]; [eauto|done]. Qed.

Lemma seal_next_upgrades (context value : string) :
  utf8_valid value = true ->
  upgrades (fun v => [(context, v)]) (fun draws => seal_next draws cipher context) value.
Proof.
  intros Hu n b n' Hs. unfold seal_next in Hs. destruct (seal cipher (draws n) context value) as [s|] eqn:He; [|done].
  injection Hs as <- <-. pose proof (seal_kept _ _ _ _ _ (draws_length n) Hu He) as Hk. split.
  - constructor; [split; [done|exact Hk]|constructor].
  - intros draws' m. exists (S m). unfold seal_next. by rewrite (proj2 (proj2 Hk)).
Qed.

Lemma seal_optional_upgrades (context : string) (value : option string) :
  text (pair context <$> option_list value) ->
  upgrades (fun v => pair context <$> option_list v) (fun draws => seal_optional draws cipher context) value.
Proof.
  intros Hu n b n' Hs. destruct value as [v|]; [|by injection Hs as <- <-; split; [constructor|eauto]].
  apply bind_Ok in Hs as (s & n1 & Hs & Hr). injection Hr as <- <-.
  apply (seal_next_upgrades context v) in Hs as [Hk Hr]; [|by inversion Hu].
  split; [exact Hk|]. intros draws' m. destruct (Hr draws' m) as [m' Hm]. exists m'. cbn. unfold bind. by rewrite Hm.
Qed.

Lemma seal_when_upgrades {A} (values : A -> list (string * string)) (f : (nat -> string) -> A -> Drawing A) (o : option A) :
  (forall a, o = Some a -> upgrades values f a) ->
  upgrades (fun o => match o with Some a => values a | None => [] end) (fun draws => seal_when (f draws)) o.
Proof.
  intros Hf n b n' Hs. destruct o as [a|]; [|by injection Hs as <- <-; split; [constructor|eauto]].
  apply bind_Ok in Hs as (s & n1 & Hs & Hr). injection Hr as <- <-.
  apply (Hf a eq_refl) in Hs as [Hk Hr]. split; [exact Hk|]. intros draws' m. destruct (Hr draws' m) as [m' Hm].
  exists m'. cbn. unfold bind. by rewrite Hm.
Qed.

Lemma each_upgrades {A} (values : A -> list (string * string)) (f : (nat -> string) -> A -> Drawing A) (l : list A) :
  Forall (upgrades values f) l -> upgrades (fun l => l ≫= values) (fun draws => each (f draws)) l.
Proof.
  induction 1 as [|a l Ha _ IH]; intros n b n' Hs; [by injection Hs as <- <-; split; [constructor|eauto]|].
  apply bind_Ok in Hs as (s & n1 & Hs & Hr). apply bind_Ok in Hr as (t & n2 & Ht & Hr). injection Hr as <- <-.
  apply Ha in Hs as [Hk Hr]. apply IH in Ht as [Hkt Hrt]. split; [by apply Forall2_app|].
  intros draws' m. destruct (Hr draws' m) as [m1 Hm]. destruct (Hrt draws' m1) as [m2 Hm2].
  exists m2. cbn. unfold bind. by rewrite Hm, Hm2.
Qed.

Lemma seal_row_upgrades {K} (context : string) (p : K * string) :
  utf8_valid p.2 = true ->
  upgrades (fun p => [(context, p.2)]) (fun draws => seal_row draws cipher context) p.
Proof.
  intros Hu n b n' Hs. apply bind_Ok in Hs as (s & n1 & Hs & Hr). injection Hr as <- <-.
  apply (seal_next_upgrades context p.2 Hu) in Hs as [Hk Hr]. split; [exact Hk|].
  intros draws' m. destruct (Hr draws' m) as [m' Hm]. exists m'. unfold seal_row, bind. cbn. by rewrite Hm.
Qed.

Lemma seal_secret_row_upgrades {K} (context : string) (p : K * option string) :
  text (pair context <$> option_list p.2) ->
  upgrades (fun p => pair context <$> option_list p.2) (fun draws => seal_secret_row draws cipher context) p.
Proof.
  intros Hu n b n' Hs. apply bind_Ok in Hs as (s & n1 & Hs & Hr). injection Hr as <- <-.
  apply (seal_optional_upgrades context p.2 Hu) in Hs as [Hk Hr]. split; [exact Hk|].
  intros draws' m. destruct (Hr draws' m) as [m' Hm]. exists m'. unfold seal_secret_row, bind. cbn. by rewrite Hm.
Qed.

Lemma seal_message_upgrades (p : Z * (string * option string)) :
  text (message_values p) -> upgrades message_values (fun draws => seal_message draws cipher) p.
Proof.
  intros Hu n b n' Hs. apply Forall_cons in Hu as [Hb Hh].
  apply bind_Ok in Hs as (s & n1 & Hs & Hr). apply bind_Ok in Hr as (h & n2 & Hsh & Hr). injection Hr as <- <-.
  apply (seal_next_upgrades _ _ Hb) in Hs as [Hk Hr]. apply (seal_optional_upgrades _ _ Hh) in Hsh as [Hkh Hrh].
  split; [exact (Forall2_app Hk Hkh)|]. intros draws' m. destruct (Hr draws' m) as [m1 Hm].
  destruct (Hrh draws' m1) as [m2 Hm2]. exists m2. unfold seal_message, bind. cbn. by rewrite Hm, Hm2.
Qed.

Lemma seal_fields_upgrades (contexts values : list string) :
  length values = length contexts -> text (combine contexts values) ->
  upgrades (combine contexts) (fun draws values => each (fun p => seal_next draws cipher p.1 p.2) (combine contexts values))
    values.
Proof.
  revert values. induction contexts as [|context contexts IH]; intros [|v values] Hl Hu n b n' Hs; try done.
  { injection Hs as <- <-. split; [constructor|]. intros. by eexists. }
  apply Forall_cons in Hu as [Hv Hu].
  apply bind_Ok in Hs as (s & n1 & Hs & Hr). apply bind_Ok in Hr as (t & n2 & Ht & Hr). injection Hr as <- <-.
  apply (seal_next_upgrades _ _ Hv) in Hs as [Hk Hr]. apply IH in Ht as [Hkt Hrt]; [|by injection Hl|done].
  split; [exact (Forall2_app Hk Hkt)|]. intros draws' m. destruct (Hr draws' m) as [m1 Hm].
  destruct (Hrt draws' m1) as [m2 Hm2]. exists m2. cbn in Hm |- *. unfold bind. by rewrite Hm, Hm2.
Qed.

Lemma text_bind {A} (values : A -> list (string * string)) (l : list A) :
  text (l ≫= values) -> Forall (fun a => text (values a)) l.
Proof. unfold text. intros Ht. apply Forall_bind in Ht. exact Ht. Qed.

Lemma seal_columns_upgrades (c : SecretColumns.t) :
  text (secret_values c) -> (forall values, acme c = Some values -> length values = length ACME_COLUMNS) ->
  upgrades secret_values (fun draws => seal_columns draws cipher) c.
Proof.
  unfold secret_values at 1, text. rewrite !Forall_app. intros (T1 & T2 & T3 & T4 & T5 & T6) Hacme n b n' Hs.
  apply bind_Ok in Hs as (smtp & n1 & Hs1 & Hs). apply bind_Ok in Hs as (clients & n2 & Hs2 & Hs).
  apply bind_Ok in Hs as (flows & n3 & Hs3 & Hs). apply bind_Ok in Hs as (outbox & n4 & Hs4 & Hs).
  apply bind_Ok in Hs as (runtime & n5 & Hs5 & Hs). apply bind_Ok in Hs as (fields & n6 & Hs6 & Hs). injection Hs as <- <-.
  assert (U1 := seal_when_upgrades (fun p => pair "smtp_settings.password" <$> option_list p)
    (fun draws => seal_optional draws cipher "smtp_settings.password") (smtp_password c)).
  assert (U2 := each_upgrades (fun p => pair "auth_providers.client_secret" <$> option_list p.2)
    (fun draws => seal_secret_row draws cipher "auth_providers.client_secret") (client_secrets c)).
  assert (U3 := each_upgrades (fun p => [("user_auth_flows.payload", p.2)])
    (fun draws => seal_row draws cipher "user_auth_flows.payload") (flow_payloads c)).
  assert (U4 := each_upgrades message_values (fun draws => seal_message draws cipher) (outbox_bodies c)).
  assert (U5 := seal_when_upgrades (fun v => [("settings.runtime_config", v)])
    (fun draws => seal_next draws cipher "settings.runtime_config") (runtime_config c)).
  assert (U6 := seal_when_upgrades (combine ACME_COLUMNS)
    (fun draws values => each (fun p => seal_next draws cipher p.1 p.2) (combine ACME_COLUMNS values)) (acme c)).
  edestruct U1 as [K1 R1]; [intros a E; rewrite E in T1; by apply seal_optional_upgrades|exact Hs1|].
  edestruct U2 as [K2 R2]; [eapply Forall_impl; [exact (text_bind _ _ T2)|]; intros p; apply seal_secret_row_upgrades|exact Hs2|].
  edestruct U3 as [K3 R3]; [eapply Forall_impl; [exact (text_bind _ _ T3)|]; intros p Hp; apply seal_row_upgrades;
    by apply Forall_cons in Hp as [? _]|exact Hs3|].
  edestruct U4 as [K4 R4]; [eapply Forall_impl; [exact (text_bind _ _ T4)|]; intros p; apply seal_message_upgrades|exact Hs4|].
  edestruct U5 as [K5 R5]; [intros a E; rewrite E in T5; apply seal_next_upgrades; by apply Forall_cons in T5 as [? _]|exact Hs5|].
  edestruct U6 as [K6 R6]; [intros a E; rewrite E in T6; apply seal_fields_upgrades; auto|exact Hs6|].
  split; [unfold secret_values; repeat apply Forall2_app; assumption|].
  intros draws' m. destruct (R1 draws' m) as [m1 E1]. destruct (R2 draws' m1) as [m2 E2].
  destruct (R3 draws' m2) as [m3 E3]. destruct (R4 draws' m3) as [m4 E4]. destruct (R5 draws' m4) as [m5 E5].
  destruct (R6 draws' m5) as [m6 E6]. exists m6. unfold seal_columns, bind. cbn [smtp_password client_secrets flow_payloads
    outbox_bodies runtime_config acme]. by rewrite E1, E2, E3, E4, E5, E6.
Qed.
End UpgradeTheorems.

Section StartupTheorems.
Context `{CipherLaws}.

(** C37: Opening a database with a master key seals every secret that was
    stored in clear: each column still reads as before, none is left in clear,
    and opening the database again changes nothing. *)
Theorem upgrade_keeps_secrets (draws : nat -> string) (key : string) (c c' : SecretColumns.t) :
  (forall n, str_len (draws n) = NONCE_LEN) ->
  Forall (fun v => utf8_valid v.2 = true) (secret_values c) ->
  (forall values, acme c = Some values -> length values = length ACME_COLUMNS) ->
  encrypt_plaintext_secrets draws (Some key) c = Ok c' ->
  Forall2 (fun v s => v.1 = s.1 /\ open (Some key) s.1 s.2 = open (Some key) v.1 v.2 /\
                      (s.2 = "" \/ starts_with PREFIX s.2 = true)) (secret_values c) (secret_values c') /\
  forall draws', encrypt_plaintext_secrets draws' (Some key) c' = Ok c'.
Proof.
  unfold encrypt_plaintext_secrets. change (negb (cipher_enabled (Some key))) with false. cbv iota. intros Hn Hu Ha He.
  destruct (seal_columns draws (Some key) c 0%nat) as [[b n']|] eqn:Hs; [|done]. injection He as ->.
  apply (seal_columns_upgrades draws key Hn c Hu Ha) in Hs as [Hk Hr]. split.
  - eapply Forall2_impl; [exact Hk|]. intros [x v] [y s] (Hc & Ho & Hp & _). cbn in *. subst y. auto.
  - intros draws'. destruct (Hr draws' 0%nat) as [m' Hm]. by rewrite Hm.
Qed.

(** Without a master key a database whose only encrypted secrets are
    columns the start-up check does not read is opened all the same, and those
    columns then fail to read. *)
Theorem keyless_start_misses_columns (draws : nat -> string) (encoded : string) :
  let stored := PREFIX +:+ encoded in
  let c := {| smtp_password := None; client_secrets := []; flow_payloads := []; outbox_bodies := [];
              runtime_config := None; other_settings := [];
              acme := Some [""; ""; stored; stored; ""; stored; ""; stored; ""; stored; ""] |} in
  encrypt_plaintext_secrets draws None c = Ok c /\
  open None "acme.cloudflare_email" stored =
    Err "encrypted acme.cloudflare_email requires the MIRRORPROXY_MASTER_KEY used when it was stored".
Proof. split; reflexivity. Qed.
End StartupTheorems.

(** ** Witnesses

    An instance with the lengths of the real encodings: the tag is constant,
    base64 and hexadecimal only change the length. *)
Definition prefix_of (n : nat) (s : string) : string := String.substring 0 n s.

#[export] Instance SampleCipher : CipherApi := {|
  aead_encrypt _ _ _ m := Some ("0123456789abcdef" +:+ m);
  aead_decrypt _ _ _ c := strip_prefix "0123456789abcdef" c;
  base64url_encode s := s +:+ str_repeat "A" ((4 * String.length s + 2) / 3 - String.length s);
  base64url_decode s := Some (prefix_of (String.length s * 3 / 4) s);
  hex_decode s := if Nat.even (String.length s) then Some (prefix_of (String.length s / 2) s) else None;
|}.

Lemma prefix_of_length (n : nat) (s : string) : (n <= String.length s)%nat -> String.length (prefix_of n s) = n.
Proof.
  unfold prefix_of. revert n. induction s as [|c s IH]; intros [|n] Hl; cbn in *; try done; [lia|].
  f_equal. apply IH. lia.
Qed.

Lemma str_repeat_length (c : ascii) (n : nat) : String.length (str_repeat c n) = n.
Proof. induction n; cbn; congruence. Qed.

#[export] Instance SampleCipherLaws : CipherLaws.
Proof.
  split; cbn [aead_encrypt aead_decrypt base64url_encode base64url_decode hex_decode SampleCipher].
  - intros key nonce aad m c [= <-]. reflexivity.
  - intros key nonce aad m c [= <-]. unfold str_len. cbn [String.append String.length]. lia.
  - intros s. f_equal. unfold prefix_of. rewrite str_length_app, str_repeat_length.
    set (n := String.length s). pose proof (Nat.div_mod_eq (4 * n + 2) 3). pose proof (Nat.mod_upper_bound (4 * n + 2) 3).
    replace ((n + ((4 * n + 2) / 3 - n)) * 3 / 4)%nat with n; [apply substring_app|].
    apply (Nat.div_unique _ 4 n (2 - (4 * n + 2) mod 3)); lia.
  - intros s b Hd. assert (b = prefix_of (String.length s * 3 / 4) s) as -> by congruence. unfold str_len.
    rewrite prefix_of_length by (apply Nat.Div0.div_le_upper_bound; lia).
    by rewrite Nat2Z.inj_div, Nat2Z.inj_mul.
  - intros s b Hd. destruct (Nat.even (String.length s)) eqn:He; [|done].
    assert (b = prefix_of (String.length s / 2) s) as -> by congruence. unfold str_len.
    apply Nat.even_spec in He as [k Hk]. rewrite prefix_of_length; rewrite Hk; replace (2 * k / 2)%nat with k by (apply (Nat.div_unique _ 2 k 0); lia); lia.
Qed.

Definition sample_nonce : string := "abcdefghijklmnopqrstuvwx".

Lemma sealed_secrets_read_back_witness :
  exists stored, seal (Some "key") sample_nonce "smtp.password" "hunter2" = Ok stored /\
    open (Some "key") "smtp.password" stored = Ok "hunter2".
Proof.
  eexists. split; [reflexivity|].
  exact (proj1 (sealed_secrets_read_back (Some "key") sample_nonce "smtp.password" "hunter2" _
    eq_refl eq_refl eq_refl eq_refl)).
Defined.

Lemma master_keys_unambiguous_witness :
  exists key, decode_master_key "AAECAwQFBgcICQoLDA0ODxAREhMUFRYXGBkaGxwdHh8" = Ok key /\ str_len key = 32.
Proof.
  exists "AAECAwQFBgcICQoLDA0ODxAREhMUFRYX". split; [reflexivity|].
  apply (master_keys_unambiguous "AAECAwQFBgcICQoLDA0ODxAREhMUFRYXGBkaGxwdHh8"). reflexivity.
Defined.

Definition sample_columns : SecretColumns.t := {|
  smtp_password := Some (Some "hunter2"); client_secrets := [(1, Some "abc"); (2, None)]; flow_payloads := [("h", "{}")];
  outbox_bodies := [(1, ("hello", None))]; runtime_config := Some "{}"; other_settings := ["handle"]; acme := None;
|}.

Lemma upgrade_keeps_secrets_witness :
  exists c', encrypt_plaintext_secrets (fun _ => sample_nonce) (Some "key") sample_columns = Ok c' /\
    encrypt_plaintext_secrets (fun _ => sample_nonce) (Some "key") c' = Ok c'.
Proof.
  eexists. split; [reflexivity|].
  apply (upgrade_keeps_secrets (fun _ => sample_nonce) "key" sample_columns).
  - reflexivity.
  - repeat constructor.
  - discriminate.
  - reflexivity.
Defined.
