(* ===== verification/Email.v ===== *)
(** * Sign-in by email

    [email.rs] and the mail tables of [database.rs]: invitations, one-time
    codes and links, the limits on sending, and the outbox with its worker.
    As in [Users], a statement or transaction is one step; storing a login
    token is two statements outside a transaction and so two steps.  SMTP is a
    variable of the worker: whether a message was delivered. *)
From stdpp Require Import gmap.
From S2P Require Import Prelude RustStr Headers Config Quota Users Secrets.
Open Scope string_scope.
Open Scope Z_scope.
Open Scope list_scope.
Open Scope mirror_scope.

(** ** Tables *)

Module EmailInvitation.
Record t : Type := {
  id : Z; email : string; display_name : string; token_hash : string; status : string; expires_at : Z; created_at : Z;
  accepted_at : option Z; revoked_at : option Z;
}.

Definition revoke (now : Z) (i : t) : t := {|
  id := id i; email := email i; display_name := display_name i; token_hash := token_hash i; status := "revoked";
  expires_at := expires_at i; created_at := created_at i; accepted_at := accepted_at i; revoked_at := Some now;
|}.

Definition accept (now : Z) (i : t) : t := {|
  id := id i; email := email i; display_name := display_name i; token_hash := token_hash i; status := "accepted";
  expires_at := expires_at i; created_at := created_at i; accepted_at := Some now; revoked_at := revoked_at i;
|}.

Definition renew (hash : string) (expires_at : Z) (i : t) : t := {|
  id := id i; email := email i; display_name := display_name i; token_hash := hash; status := status i;
  expires_at := expires_at; created_at := created_at i; accepted_at := accepted_at i; revoked_at := revoked_at i;
|}.

Definition pending (i : t) : bool := (status i =? "pending")%string.
End EmailInvitation.

Module LoginToken.
Record t : Type := {
  id : Z; email : string; token_hash : string; code_hash : string; attempts : Z; invitation_id : option Z;
  expires_at : Z; used_at : option Z; created_at : Z;
}.

Definition use (now : Z) (r : t) : t := {|
  id := id r; email := email r; token_hash := token_hash r; code_hash := code_hash r; attempts := attempts r;
  invitation_id := invitation_id r; expires_at := expires_at r; used_at := Some now; created_at := created_at r;
|}.

Definition add_attempt (r : t) : t := {|
  id := id r; email := email r; token_hash := token_hash r; code_hash := code_hash r; attempts := attempts r + 1;
  invitation_id := invitation_id r; expires_at := expires_at r; used_at := used_at r; created_at := created_at r;
|}.

Definition unused_for (address : string) (r : t) : bool :=
  (email r =? address)%string && bool_decide (used_at r = None).
End LoginToken.

Module OutboxMessage.
Record t : Type := {
  id : Z; recipient : string; subject : string; body : string; html_body : option string; status : string;
  attempts : Z; next_attempt_at : Z; last_error : option string; created_at : Z; sent_at : option Z;
}.

Definition sent (now : Z) (m : t) : t := {|
  id := id m; recipient := recipient m; subject := subject m; body := body m; html_body := html_body m;
  status := "sent"; attempts := attempts m; next_attempt_at := next_attempt_at m; last_error := last_error m;
  created_at := created_at m; sent_at := Some now;
|}.

Definition failed (status : string) (attempts next_attempt_at : Z) (error : string) (m : t) : t := {|
  id := id m; recipient := recipient m; subject := subject m; body := body m; html_body := html_body m;
  status := status; attempts := attempts; next_attempt_at := next_attempt_at; last_error := Some error;
  created_at := created_at m; sent_at := sent_at m;
|}.
End OutboxMessage.

Module SmtpSettings.
Record t : Type := {
  enabled : bool; host : string; port : Z; security : string; username : option string; password : option string;
  from_name : string; from_address : string;
}.
End SmtpSettings.

(** [email_login_tokens] has its newest row first, [email_outbox] its oldest;
    the key of [email_rate_limits] is mapped to the start of its window and
    the count. *)
Record Mail : Type := {
  email_invitations : gmap Z EmailInvitation.t;
  next_email_invitation : Z;
  email_login_tokens : list LoginToken.t;
  next_login_token : Z;
  email_rate_limits : gmap string (Z * Z);
  email_outbox : list OutboxMessage.t;
  next_outbox_message : Z;
  smtp_row : option SmtpSettings.t;
  directory : Directory;
}.

Definition with_email_invitations (f : gmap Z EmailInvitation.t -> gmap Z EmailInvitation.t) (m : Mail) : Mail := {|
  email_invitations := f (email_invitations m); next_email_invitation := next_email_invitation m;
  email_login_tokens := email_login_tokens m; next_login_token := next_login_token m;
  email_rate_limits := email_rate_limits m; email_outbox := email_outbox m;
  next_outbox_message := next_outbox_message m; smtp_row := smtp_row m; directory := directory m;
|}.

Definition with_login_tokens (f : list LoginToken.t -> list LoginToken.t) (m : Mail) : Mail := {|
  email_invitations := email_invitations m; next_email_invitation := next_email_invitation m;
  email_login_tokens := f (email_login_tokens m); next_login_token := next_login_token m;
  email_rate_limits := email_rate_limits m; email_outbox := email_outbox m;
  next_outbox_message := next_outbox_message m; smtp_row := smtp_row m; directory := directory m;
|}.

Definition with_email_limits (limits : gmap string (Z * Z)) (m : Mail) : Mail := {|
  email_invitations := email_invitations m; next_email_invitation := next_email_invitation m;
  email_login_tokens := email_login_tokens m; next_login_token := next_login_token m;
  email_rate_limits := limits; email_outbox := email_outbox m;
  next_outbox_message := next_outbox_message m; smtp_row := smtp_row m; directory := directory m;
|}.

Definition with_outbox (f : list OutboxMessage.t -> list OutboxMessage.t) (m : Mail) : Mail := {|
  email_invitations := email_invitations m; next_email_invitation := next_email_invitation m;
  email_login_tokens := email_login_tokens m; next_login_token := next_login_token m;
  email_rate_limits := email_rate_limits m; email_outbox := f (email_outbox m);
  next_outbox_message := next_outbox_message m; smtp_row := smtp_row m; directory := directory m;
|}.

Definition with_directory (f : Directory -> Directory) (m : Mail) : Mail := {|
  email_invitations := email_invitations m; next_email_invitation := next_email_invitation m;
  email_login_tokens := email_login_tokens m; next_login_token := next_login_token m;
  email_rate_limits := email_rate_limits m; email_outbox := email_outbox m;
  next_outbox_message := next_outbox_message m; smtp_row := smtp_row m; directory := f (directory m);
|}.

Inductive MailError : Type :=
| UniqueViolation
| SecretError (message : string).

(** ** Invitations *)

Section Mail.
Context `{SecretApi}.

Definition invitation_detail (id : Z) : string := "invitation_id=" +:+ show_uint id.

Definition mail_audit (now : Z) (actor action detail : string) : Mail -> Mail :=
  with_directory (audit_dir now actor action detail).

Definition create_email_invitation (now : Z) (actor email display_name token : string) (expires_at : Z) (m : Mail) :
    result Z MailError * Mail :=
  if existsb (fun p => (EmailInvitation.token_hash p.2 =? hash_token token)%string) (map_to_list (email_invitations m))
  then (Err UniqueViolation, m)
  else
    let id := next_email_invitation m in
    let row := {|
      EmailInvitation.id := id; EmailInvitation.email := normalize_email email;
      EmailInvitation.display_name := display_name; EmailInvitation.token_hash := hash_token token;
      EmailInvitation.status := "pending"; EmailInvitation.expires_at := expires_at;
      EmailInvitation.created_at := now; EmailInvitation.accepted_at := None; EmailInvitation.revoked_at := None |} in
    (Ok id, mail_audit now actor "email_invitation_created" (invitation_detail id) {|
      email_invitations := <[id := row]> (email_invitations m); next_email_invitation := id + 1;
      email_login_tokens := email_login_tokens m; next_login_token := next_login_token m;
      email_rate_limits := email_rate_limits m; email_outbox := email_outbox m;
      next_outbox_message := next_outbox_message m; smtp_row := smtp_row m; directory := directory m |}).

Definition email_invitation (id : Z) (m : Mail) : option EmailInvitation.t := email_invitations m !! id.

Definition pending_invitation (id : Z) (m : Mail) : option EmailInvitation.t :=
  match email_invitations m !! id with
  | Some i => if EmailInvitation.pending i then Some i else None
  | None => None
  end.

Definition revoke_email_invitation (now : Z) (actor : string) (id : Z) (m : Mail) : bool * Mail :=
  match pending_invitation id m with
  | Some i =>
      let m := with_email_invitations <[id := EmailInvitation.revoke now i]> m in
      (true, mail_audit now actor "email_invitation_revoked" (invitation_detail id) m)
  | None => (false, m)
  end.

Definition renew_email_invitation (now : Z) (actor : string) (id : Z) (token : string) (expires_at : Z) (m : Mail) :
    option EmailInvitation.t * Mail :=
  match pending_invitation id m with
  | Some i =>
      let m := with_email_invitations <[id := EmailInvitation.renew (hash_token token) expires_at i]> m in
      let m := mail_audit now actor "email_invitation_resent" (invitation_detail id) m in
      (email_invitation id m, m)
  | None => (None, m)
  end.

Definition valid_invitation (now : Z) (email token : string) (m : Mail) : option Z :=
  fst <$> find_first (fun p => (EmailInvitation.email p.2 =? normalize_email email)%string
                               && (EmailInvitation.token_hash p.2 =? hash_token token)%string
                               && EmailInvitation.pending p.2 && (now <? EmailInvitation.expires_at p.2))
            (map_to_list (email_invitations m)).

Definition accept_email_invitation (now id : Z) (m : Mail) : Mail :=
  match pending_invitation id m with
  | Some i => with_email_invitations <[id := EmailInvitation.accept now i]> m
  | None => m
  end.

(** ** Codes and links *)

(** [UPDATE .. SET used_at = ? WHERE email = ? AND used_at IS NULL]. *)
Definition retire_login_tokens (now : Z) (email : string) (m : Mail) : Mail :=
  with_login_tokens (fmap (fun r => if LoginToken.unused_for (normalize_email email) r then LoginToken.use now r else r)) m.

Definition insert_login_token (now : Z) (email token code : string) (invitation_id : option Z) (expires_at : Z) (m : Mail) :
    result unit MailError * Mail :=
  if existsb (fun r => (LoginToken.token_hash r =? hash_token token)%string) (email_login_tokens m)
  then (Err UniqueViolation, m)
  else
    let id := next_login_token m in
    let row := {|
      LoginToken.id := id; LoginToken.email := normalize_email email; LoginToken.token_hash := hash_token token;
      LoginToken.code_hash := hash_token code; LoginToken.attempts := 0; LoginToken.invitation_id := invitation_id;
      LoginToken.expires_at := expires_at; LoginToken.used_at := None; LoginToken.created_at := now |} in
    (Ok tt, {|
      email_invitations := email_invitations m; next_email_invitation := next_email_invitation m;
      email_login_tokens := row :: email_login_tokens m; next_login_token := id + 1;
      email_rate_limits := email_rate_limits m; email_outbox := email_outbox m;
      next_outbox_message := next_outbox_message m; smtp_row := smtp_row m; directory := directory m |}).

Definition store_email_login_token (now : Z) (email token code : string) (invitation_id : option Z) (expires_at : Z)
    (m : Mail) : result unit MailError * Mail :=
  insert_login_token now email token code invitation_id expires_at (retire_login_tokens now email m).

(** The first row with the property is changed. *)
Fixpoint update_first (p : LoginToken.t -> bool) (f : LoginToken.t -> LoginToken.t) (l : list LoginToken.t) :
    list LoginToken.t :=
  match l with
  | [] => []
  | r :: t => if p r then f r :: t else r :: update_first p f t
  end.

Definition accepts (now : Z) (email credential : string) (is_code : bool) (r : LoginToken.t) : bool :=
  (LoginToken.email r =? email)%string
  && ((if is_code then LoginToken.code_hash r else LoginToken.token_hash r) =? hash_token credential)%string
  && bool_decide (LoginToken.used_at r = None) && (now <? LoginToken.expires_at r) && (LoginToken.attempts r <? 5).

Definition consume_email_login_token (now : Z) (email credential : string) (is_code : bool) (m : Mail) :
    option (option Z) * Mail :=
  let email := normalize_email email in
  match find_first (accepts now email credential is_code) (email_login_tokens m) with
  | None =>
      (None, if is_code then with_login_tokens (update_first (LoginToken.unused_for email) LoginToken.add_attempt) m else m)
  | Some row =>
      (Some (LoginToken.invitation_id row),
       with_login_tokens (update_first (accepts now email credential is_code) (LoginToken.use now)) m)
  end.

(** ** Limits on sending *)

Definition EMAIL_WINDOW_SECS : Z := 10 * 60.

Definition send_keys (email source : string) : list (string * Z) := [
  ("email:" +:+ normalize_email email, 3); ("source:" +:+ source, 10); ("instance", 50)].

Definition window_full (now : Z) (limits : gmap string (Z * Z)) (key : string * Z) : bool :=
  match limits !! key.1 with
  | Some (window_start, count) => (now <? window_start + EMAIL_WINDOW_SECS) && (key.2 <=? count)
  | None => false
  end.

Definition count_send (now : Z) (limits : gmap string (Z * Z)) (key : string * Z) : gmap string (Z * Z) :=
  <[key.1 := match limits !! key.1 with
             | None => (now, 1)
             | Some (window_start, count) =>
                 if window_start + EMAIL_WINDOW_SECS <=? now then (now, 1) else (window_start, count + 1)
             end]> limits.

Definition allow_email_send (now : Z) (email source : string) (m : Mail) : bool * Mail :=
  let keys := send_keys email source in
  if existsb (window_full now (email_rate_limits m)) keys then (false, m)
  else (true, with_email_limits (foldl (count_send now) (email_rate_limits m) keys) m).
End Mail.

(** ** How often a code can be guessed *)

Inductive CodeOp : Type :=
| Store (now : Z) (email token code : string) (invitation_id : option Z) (expires_at : Z)
| Consume (now : Z) (email credential : string) (is_code : bool).

Section CodeTheorems.
Context `{SecretApi}.

(** What a step answers: whether a credential was accepted. *)
Definition code_step (o : CodeOp) (m : Mail) : bool * Mail :=
  match o with
  | Store now email token code invitation_id expires_at =>
      (false, (store_email_login_token now email token code invitation_id expires_at m).2)
  | Consume now email credential is_code =>
      let '(answer, m) := consume_email_login_token now email credential is_code m in
      (bool_decide (is_Some answer), m)
  end.

Fixpoint run_codes (ops : list CodeOp) (m : Mail) : list (CodeOp * bool) * Mail :=
  match ops with
  | [] => ([], m)
  | o :: rest =>
      let '(ok, m) := code_step o m in
      let '(log, m) := run_codes rest m in ((o, ok) :: log, m)
  end.

Definition stores_for (address : string) (o : CodeOp) : bool :=
  match o with Store _ email _ _ _ _ => (normalize_email email =? address)%string | Consume _ _ _ _ => false end.

(** Credentials accepted for an address, and codes refused. *)
Definition hit (address : string) (e : CodeOp * bool) : bool :=
  match e with
  | (Consume _ email _ _, true) => (normalize_email email =? address)%string
  | _ => false
  end.

Definition miss (address : string) (e : CodeOp * bool) : bool :=
  match e with
  | (Consume _ email _ true, false) => (normalize_email email =? address)%string
  | _ => false
  end.

Definition count_if {A} (p : A -> bool) (l : list A) : Z := Z.of_nat (length (List.filter p l)).

(** The rows of an address that are still to be used. *)
Definition live (address : string) (l : list LoginToken.t) : list LoginToken.t :=
  List.filter (LoginToken.unused_for address) l.

#[local] Arguments live : simpl never.
#[local] Arguments LoginToken.unused_for : simpl never.

Lemma live_cons (address : string) (r : LoginToken.t) (l : list LoginToken.t) :
  live address (r :: l) = if LoginToken.unused_for address r then r :: live address l else live address l.
Proof. reflexivity. Qed.

Lemma unused_for_use (address : string) (now : Z) (r : LoginToken.t) :
  LoginToken.unused_for address (LoginToken.use now r) = false.
Proof. unfold LoginToken.unused_for. cbn [LoginToken.use LoginToken.used_at]. rewrite bool_decide_eq_false_2 by done. apply andb_false_r. Qed.

Lemma unused_for_add_attempt (address : string) (r : LoginToken.t) :
  LoginToken.unused_for address (LoginToken.add_attempt r) = LoginToken.unused_for address r.
Proof. reflexivity. Qed.

Lemma unused_for_other (a b : string) (r : LoginToken.t) :
  a <> b -> LoginToken.unused_for a r = true -> LoginToken.unused_for b r = false.
Proof.
  unfold LoginToken.unused_for. intros Hab Hr. apply andb_prop in Hr as [Hr _]. apply String.eqb_eq in Hr as ->.
  by destruct (String.eqb_spec a b).
Qed.

Lemma accepts_unused (now : Z) (address credential : string) (is_code : bool) (r : LoginToken.t) :
  accepts now address credential is_code r = true -> LoginToken.unused_for address r = true /\ LoginToken.attempts r < 5.
Proof.
  unfold accepts, LoginToken.unused_for. rewrite !andb_true_iff. intros [[[[-> _] ->] _] Ha]. split; [done|lia].
Qed.

Lemma live_update_first (address : string) (p : LoginToken.t -> bool) (f : LoginToken.t -> LoginToken.t)
    (l : list LoginToken.t) :
  (forall r, p r = true -> LoginToken.unused_for address r = true) ->
  live address (update_first p f l) = live address (update_first p f (live address l)).
Proof.
  intros Hp.
  assert (Hid : forall l, live address (live address l) = live address l).
  { clear. induction l as [|r l IH]; [done|]. rewrite live_cons. destruct (LoginToken.unused_for address r) eqn:Hr; [|done].
    by rewrite live_cons, Hr, IH. }
  induction l as [|r l IH]; [done|]. cbn [update_first]. rewrite (live_cons _ r l). destruct (p r) eqn:Hpr.
  - rewrite (Hp r Hpr). cbn [update_first]. by rewrite Hpr, !live_cons, Hid.
  - rewrite live_cons, IH. destruct (LoginToken.unused_for address r) eqn:Hr; [|done]. cbn [update_first].
    by rewrite Hpr, live_cons, Hr.
Qed.

Lemma live_update_other (address : string) (p : LoginToken.t -> bool) (f : LoginToken.t -> LoginToken.t)
    (l : list LoginToken.t) :
  (forall r, p r = true -> LoginToken.unused_for address r = false /\ LoginToken.unused_for address (f r) = false) ->
  live address (update_first p f l) = live address l.
Proof.
  intros Hp. induction l as [|r l IH]; [done|]. cbn [update_first].
  destruct (p r) eqn:Hpr; rewrite !live_cons; [by destruct (Hp r Hpr) as [-> ->]|by rewrite IH].
Qed.

Lemma find_first_live (address : string) (p : LoginToken.t -> bool) (l : list LoginToken.t) :
  (forall r, p r = true -> LoginToken.unused_for address r = true) -> find_first p l = find_first p (live address l).
Proof.
  intros Hp. unfold find_first. induction l as [|r l IH]; [done|]. cbn [find_map]. rewrite live_cons.
  destruct (p r) eqn:Hpr.
  - rewrite (Hp r Hpr). cbn [find_map]. by rewrite Hpr.
  - destruct (LoginToken.unused_for address r); cbn [find_map]; rewrite ?Hpr; apply IH.
Qed.

Lemma live_retire_other (address : string) (now : Z) (email : string) (l : list LoginToken.t) :
  normalize_email email <> address ->
  live address ((fun r => if LoginToken.unused_for (normalize_email email) r then LoginToken.use now r else r) <$> l) =
  live address l.
Proof.
  intros Hne. induction l as [|r l IH]; [done|]. cbn [fmap list_fmap]. rewrite !live_cons.
  destruct (LoginToken.unused_for (normalize_email email) r) eqn:Hr.
  - rewrite unused_for_use, (unused_for_other _ address r Hne Hr). exact IH.
  - destruct (LoginToken.unused_for address r); [f_equal|]; exact IH.
Qed.

Lemma live_retire (now : Z) (email : string) (l : list LoginToken.t) :
  live (normalize_email email)
    ((fun r => if LoginToken.unused_for (normalize_email email) r then LoginToken.use now r else r) <$> l) = [].
Proof.
  induction l as [|r l IH]; [done|]. cbn [fmap list_fmap]. rewrite live_cons.
  destruct (LoginToken.unused_for (normalize_email email) r) eqn:Hr; [by rewrite unused_for_use|by rewrite Hr].
Qed.

Lemma live_elem (address : string) (l : list LoginToken.t) (r : LoginToken.t) :
  r ∈ live address l -> LoginToken.unused_for address r = true.
Proof.
  induction l as [|x l IH]; [by intros ?%not_elem_of_nil|]. rewrite live_cons.
  destruct (LoginToken.unused_for address x) eqn:Hx; [|exact IH]. intros [->|Hr]%elem_of_cons; auto.
Qed.

(** What is left of the code of an address after [wrong] refusals and [hits]
    acceptances. *)
Definition spent (address : string) (hits wrong : Z) (m : Mail) : Prop :=
  live address (email_login_tokens m) = [] /\ hits <= 1 \/
  exists r, live address (email_login_tokens m) = [r] /\ hits = 0 /\ wrong <= LoginToken.attempts r.

Lemma spent_refuses (address : string) (hits wrong now : Z) (credential : string) (is_code : bool) (m : Mail) :
  spent address hits wrong m -> 0 < hits \/ 5 <= wrong ->
  find_first (accepts now address credential is_code) (email_login_tokens m) = None.
Proof.
  intros Hs Hc. rewrite (find_first_live address) by (intros r Hr; by eapply accepts_unused).
  destruct Hs as [[-> _]|(r & -> & Hh & Hw)]; [done|]. unfold find_first. cbn [find_map].
  destruct (accepts _ _ _ _ r) eqn:Ha; [|done]. apply accepts_unused in Ha as [_ Ha]. lia.
Qed.

Lemma hit_miss_other (address : string) (now : Z) (email credential : string) (is_code ok : bool) :
  normalize_email email <> address ->
  hit address (Consume now email credential is_code, ok) = false /\
  miss address (Consume now email credential is_code, ok) = false.
Proof. intros Hne. cbn. destruct (String.eqb_spec (normalize_email email) address), ok, is_code; done. Qed.

Lemma spent_consume_other (address : string) (now : Z) (email credential : string) (is_code : bool) (m : Mail) :
  normalize_email email <> address ->
  live address (email_login_tokens (consume_email_login_token now email credential is_code m).2) =
  live address (email_login_tokens m).
Proof.
  intros Hne. unfold consume_email_login_token. destruct (find_first _ _) as [row|].
  - apply live_update_other. intros r Hr. apply accepts_unused in Hr as [Hr _].
    split; [by eapply unused_for_other|apply unused_for_use].
  - destruct is_code; [|done]. apply live_update_other. intros r Hr. rewrite unused_for_add_attempt.
    split; by eapply unused_for_other.
Qed.

Lemma spent_consume (address : string) (hits wrong now : Z) (email credential : string) (is_code : bool) (m : Mail) :
  0 <= hits -> spent address hits wrong m ->
  let e := code_step (Consume now email credential is_code) m in
  spent address (hits + if hit address (Consume now email credential is_code, e.1) then 1 else 0)
    (wrong + if miss address (Consume now email credential is_code, e.1) then 1 else 0) e.2.
Proof.
  intros Hh Hs. cbn [code_step]. destruct (consume_email_login_token now email credential is_code m) as [answer m'] eqn:Hc.
  cbn [fst snd]. destruct (String.eqb_spec (normalize_email email) address) as [Ha|Ha].
  - unfold consume_email_login_token in Hc. rewrite Ha in Hc. cbn [hit miss]. rewrite Ha, String.eqb_refl.
    destruct (find_first _ _) as [row|] eqn:Hf; injection Hc as <- <-.
    + rewrite (find_first_live address) in Hf by (intros r Hr; by eapply accepts_unused).
      left. rewrite bool_decide_eq_true_2 by done. cbn [email_login_tokens with_login_tokens]. rewrite live_update_first by (intros r Hr; by eapply accepts_unused).
      destruct Hs as [[E _]|(r & E & -> & _)]; rewrite E in Hf |- *; [done|]. unfold find_first in Hf. cbn [find_map] in Hf.
      cbn [update_first]. destruct (accepts _ _ _ _ r); [|done]. by rewrite live_cons, unused_for_use.
    + rewrite bool_decide_eq_false_2 by (by intros [??]). rewrite Z.add_0_r. destruct is_code; [|by rewrite Z.add_0_r].
      destruct Hs as [[E H1]|(r & E & H1 & H2)]; [left|right; exists (LoginToken.add_attempt r)];
        cbn [email_login_tokens with_login_tokens]; rewrite live_update_first, E by done; [by split|].
      assert (LoginToken.unused_for address r = true) as Hr
        by (apply (live_elem _ (email_login_tokens m)); rewrite E; by left).
      cbn [update_first]. rewrite Hr, live_cons, unused_for_add_attempt, Hr. split; [done|]. split; [done|]. cbn. lia.
  - destruct (hit_miss_other address now email credential is_code (bool_decide (is_Some answer)) Ha) as [-> ->].
    rewrite !Z.add_0_r. unfold spent in *. rewrite <-(spent_consume_other address now email credential is_code m Ha), Hc in Hs.
    exact Hs.
Qed.

Lemma spent_store_other (address : string) (hits wrong : Z) (o : CodeOp) (m : Mail) :
  (forall now email credential is_code, o <> Consume now email credential is_code) ->
  stores_for address o = false -> spent address hits wrong m -> spent address hits wrong (code_step o m).2.
Proof.
  intros Ho Hs Hm. destruct o as [now email token code invitation_id expires_at|]; [|by edestruct Ho]. cbn in Hs.
  apply String.eqb_neq in Hs. cbn [code_step snd]. unfold store_email_login_token, insert_login_token.
  unfold spent in *. rewrite <-(live_retire_other address now email _ Hs) in Hm.
  destruct (existsb _ _); [exact Hm|]. cbn [snd email_login_tokens]. rewrite live_cons.
  assert (forall r, LoginToken.email r = normalize_email email -> LoginToken.unused_for address r = false) as ->; [|exact Hm|done].
  intros r Hr. unfold LoginToken.unused_for. rewrite Hr. by destruct (String.eqb_spec (normalize_email email) address).
Qed.

Lemma count_if_cons {A} (p : A -> bool) (x : A) (l : list A) : count_if p (x :: l) = (if p x then 1 else 0) + count_if p l.
Proof. unfold count_if. cbn [List.filter]. destruct (p x); cbn [length]; lia. Qed.

Lemma spent_run (address : string) (ops : list CodeOp) : forall hits wrong m,
  existsb (stores_for address) ops = false -> 0 <= hits -> spent address hits wrong m ->
  spent address (hits + count_if (hit address) (run_codes ops m).1) (wrong + count_if (miss address) (run_codes ops m).1)
    (run_codes ops m).2.
Proof.
  induction ops as [|o ops IH]; intros hits wrong m Ho Hh Hm.
  { unfold count_if. cbn. by rewrite !Z.add_0_r. }
  cbn [existsb] in Ho. apply orb_false_iff in Ho as [Ho Hops]. cbn [run_codes].
  destruct (code_step o m) as [ok m1] eqn:E1. destruct (run_codes ops m1) as [log m2] eqn:E2. cbn [fst snd].
  rewrite !count_if_cons, !Z.add_assoc.
  assert (spent address (hits + if hit address (o, ok) then 1 else 0) (wrong + if miss address (o, ok) then 1 else 0) m1)
    as Hm1.
  { destruct o as [now email token code invitation_id expires_at|now email credential is_code].
    - cbn [hit miss]. rewrite !Z.add_0_r. change m1 with (ok, m1).2. rewrite <-E1. by apply spent_store_other.
    - pose proof (spent_consume address hits wrong now email credential is_code m Hh Hm) as Hc. by rewrite E1 in Hc. }
  assert (0 <= hits + if hit address (o, ok) then 1 else 0) as Hh1 by (destruct (hit address (o, ok)); lia).
  specialize (IH _ _ m1 Hops Hh1 Hm1). by rewrite E2 in IH.
Qed.

Lemma fresh_run (ops : list CodeOp) : forall m,
  (forall address, spent address 0 0 m) -> forall address, spent address 0 0 (run_codes ops m).2.
Proof.
  induction ops as [|o ops IH]; intros m Hm address; [apply Hm|]. cbn [run_codes].
  destruct (code_step o m) as [ok m1] eqn:E1. destruct (run_codes ops m1) as [log m2] eqn:E2. cbn [snd].
  specialize (IH m1). rewrite E2 in IH. apply IH. clear address IH E2. intros address.
  change m1 with (ok, m1).2. rewrite <-E1.
  destruct o as [now email token code invitation_id expires_at|now email credential is_code].
  - destruct (String.eqb_spec (normalize_email email) address) as [<-|Hne];
      [|apply spent_store_other; [done| |done]; by apply String.eqb_neq].
    cbn [code_step snd]. unfold store_email_login_token, insert_login_token, spent.
    pose proof (live_retire now email (email_login_tokens m)) as Hr.
    destruct (existsb _ _); [left; by split|]. right. eexists. cbn [snd email_login_tokens]. rewrite live_cons.
    cbn [email_login_tokens retire_login_tokens with_login_tokens]. rewrite Hr. unfold LoginToken.unused_for.
    cbn [LoginToken.email LoginToken.used_at]. by rewrite String.eqb_refl.
  - pose proof (spent_consume address 0 0 now email credential is_code m (Z.le_refl 0) (Hm address)) as Hs. cbn zeta in Hs.
    unfold spent in *. destruct Hs as [[E H1]|(r & E & H1 & H2)]; [left; split; [done|lia]|right].
    exists r. split; [done|]. split; [done|]. destruct (miss _ _) in H2; lia.
Qed.

(** Whatever was stored and tried before, between two codes sent to an
    address at most one credential is accepted, and after that, or after five
    wrong codes, nothing is: neither a code nor a link. *)
Theorem login_codes_bounded (address : string) (history ops : list CodeOp) (m0 : Mail) :
  email_login_tokens m0 = [] -> existsb (stores_for address) ops = false ->
  let '(log, m) := run_codes ops (run_codes history m0).2 in
  count_if (hit address) log <= 1 /\
  (0 < count_if (hit address) log \/ 5 <= count_if (miss address) log ->
   forall now email credential is_code, normalize_email email = address ->
   (consume_email_login_token now email credential is_code m).1 = None).
Proof.
  intros H0 Hops. pose proof (fresh_run history m0) as Hf.
  assert (spent address 0 0 (run_codes history m0).2) as Hs by (apply Hf; intros a; left; by rewrite H0).
  pose proof (spent_run address ops 0 0 _ Hops (Z.le_refl 0) Hs) as Hr.
  destruct (run_codes ops _) as [log m]. cbn [fst snd] in Hr. rewrite !Z.add_0_l in Hr. split.
  - destruct Hr as [[_ Hh]|(r & _ & Hh & _)]; lia.
  - intros Hc now email credential is_code <-. unfold consume_email_login_token.
    by rewrite (spent_refuses _ _ _ now credential is_code m Hr Hc).
Qed.

(** Two requests for a code whose statements interleave. *)
Definition interleaved_stores (now : Z) (email token1 code1 token2 code2 : string) (expires_at : Z) (m : Mail) : Mail :=
  let m := retire_login_tokens now email m in
  let m := retire_login_tokens now email m in
  let m := (insert_login_token now email token1 code1 None expires_at m).2 in
  (insert_login_token now email token2 code2 None expires_at m).2.

Definition guess (email : string) (g : Z * string) : CodeOp := Consume g.1 email g.2 true.

(** The older code is untouched behind a newer one that takes the blame. *)
Definition shadowed (address code_hash1 code_hash2 : string) (expires_at : Z) (m : Mail) : Prop :=
  exists newer older rest, email_login_tokens m = newer :: older :: rest /\
    LoginToken.unused_for address newer = true /\ LoginToken.code_hash newer = code_hash2 /\
    LoginToken.unused_for address older = true /\ LoginToken.code_hash older = code_hash1 /\
    LoginToken.attempts older = 0 /\ LoginToken.expires_at older = expires_at /\ LoginToken.invitation_id older = None /\
    live address rest = [].

Lemma accepts_code_hash (now : Z) (address credential : string) (r : LoginToken.t) :
  LoginToken.code_hash r <> hash_token credential -> accepts now address credential true r = false.
Proof.
  intros Hne. unfold accepts. apply String.eqb_neq in Hne. rewrite Hne. by rewrite andb_false_r.
Qed.

Lemma find_first_dead (now : Z) (address credential : string) (is_code : bool) (l : list LoginToken.t) :
  live address l = [] -> find_first (accepts now address credential is_code) l = None.
Proof. intros E. rewrite (find_first_live address), E by (intros r Hr; by eapply accepts_unused). done. Qed.

Lemma shadowed_guess (email h1 h2 : string) (expires_at : Z) (g : Z * string) (m : Mail) :
  shadowed (normalize_email email) h1 h2 expires_at m -> hash_token g.2 <> h1 -> hash_token g.2 <> h2 ->
  (code_step (guess email g) m).1 = false /\ shadowed (normalize_email email) h1 h2 expires_at (code_step (guess email g) m).2.
Proof.
  intros (newer & older & rest & E & Hn & Hc2 & Ho & Hc1 & Ha & He & Hi & Hr) Hg1 Hg2.
  assert (find_first (accepts g.1 (normalize_email email) g.2 true) (email_login_tokens m) = None) as Hnone.
  { rewrite E. unfold find_first. cbn [find_map]. rewrite !accepts_code_hash by congruence. by apply find_first_dead. }
  assert (code_step (guess email g) m =
    (false, with_login_tokens (update_first (LoginToken.unused_for (normalize_email email)) LoginToken.add_attempt) m)) as ->
    by (unfold guess, code_step, consume_email_login_token; by rewrite Hnone).
  split; [done|]. exists (LoginToken.add_attempt newer), older, rest. cbn [snd email_login_tokens with_login_tokens].
  rewrite E. cbn [update_first]. rewrite Hn. split_and!; done.
Qed.

Lemma shadowed_guesses (email h1 h2 : string) (expires_at : Z) (guesses : list (Z * string)) : forall m,
  Forall (fun g => hash_token g.2 <> h1 /\ hash_token g.2 <> h2) guesses ->
  shadowed (normalize_email email) h1 h2 expires_at m ->
  Forall (fun e => e.2 = false) (run_codes (guess email <$> guesses) m).1 /\
  shadowed (normalize_email email) h1 h2 expires_at (run_codes (guess email <$> guesses) m).2.
Proof.
  induction guesses as [|g guesses IH]; intros m Hg Hm; [by split; [constructor|]|].
  apply Forall_cons in Hg as [[Hg1 Hg2] Hg]. destruct (shadowed_guess _ _ _ _ g m Hm Hg1 Hg2) as [Hok Hs].
  change (guess email <$> g :: guesses) with (guess email g :: (guess email <$> guesses)). cbn [run_codes].
  destruct (code_step (guess email g) m) as [ok m1]. cbn [fst snd] in Hok, Hs. specialize (IH m1 Hg Hs).
  destruct (run_codes _ m1) as [log m2]. cbn [fst snd] in *. destruct IH as [IH1 IH2]. split; [by constructor|done].
Qed.

(** Two requests for a code that interleave leave two codes alive, and
    wrong codes are then counted against the newer one only: after any number
    of them the older code is still accepted. *)
Theorem interleaved_codes_unlimited (now : Z) (email token1 code1 token2 code2 : string) (expires_at : Z)
    (guesses : list (Z * string)) (m : Mail) :
  Forall (fun r => LoginToken.token_hash r <> hash_token token1 /\ LoginToken.token_hash r <> hash_token token2)
    (email_login_tokens m) ->
  hash_token token1 <> hash_token token2 -> hash_token code1 <> hash_token code2 ->
  Forall (fun g => hash_token g.2 <> hash_token code1 /\ hash_token g.2 <> hash_token code2) guesses ->
  let '(log, m') := run_codes (guess email <$> guesses) (interleaved_stores now email token1 code1 token2 code2 expires_at m) in
  Forall (fun e => e.2 = false) log /\
  forall now', now' < expires_at -> (consume_email_login_token now' email code1 true m').1 = Some None.
Proof.
  intros Hf Ht Hc Hg.
  assert (Hs : shadowed (normalize_email email) (hash_token code1) (hash_token code2) expires_at
                 (interleaved_stores now email token1 code1 token2 code2 expires_at m)).
  { unfold interleaved_stores, insert_login_token.
    set (m1 := retire_login_tokens now email (retire_login_tokens now email m)).
    assert (Hf1 : Forall (fun r => LoginToken.token_hash r <> hash_token token1 /\ LoginToken.token_hash r <> hash_token token2)
      (email_login_tokens m1)).
    { cbn [m1 retire_login_tokens with_login_tokens email_login_tokens]. rewrite !Forall_fmap.
      eapply Forall_impl; [exact Hf|]. intros r Hr. cbn. by repeat case_match. }
    rewrite (proj2 (existsb_false_Forall _ (email_login_tokens m1)))
      by (eapply Forall_impl; [exact Hf1|]; intros r [Hr _]; by apply String.eqb_neq).
    cbn [snd email_login_tokens existsb LoginToken.token_hash].
    destruct (String.eqb_spec (hash_token token1) (hash_token token2)); [done|]. cbn [orb].
    rewrite (proj2 (existsb_false_Forall _ (email_login_tokens m1)))
      by (eapply Forall_impl; [exact Hf1|]; intros r [_ Hr]; by apply String.eqb_neq).
    unfold shadowed. do 3 eexists. cbn [snd email_login_tokens]. split; [done|].
    unfold LoginToken.unused_for at 1 2. cbn [LoginToken.email LoginToken.used_at]. rewrite String.eqb_refl.
    split_and!; try done. apply live_retire. }
  destruct (shadowed_guesses email _ _ expires_at guesses _ Hg Hs) as [Hlog Hend].
  destruct (run_codes _ _) as [log m']. cbn [fst snd] in Hlog, Hend. split; [done|]. intros now' Hnow.
  destruct Hend as (newer & older & rest & E & Hn & Hc2 & Ho & Hc1 & Ha & He & Hi & Hr).
  unfold consume_email_login_token. rewrite E. unfold find_first. cbn [find_map].
  rewrite accepts_code_hash by congruence.
  assert (accepts now' (normalize_email email) code1 true older = true) as ->; [|by rewrite Hi].
  unfold LoginToken.unused_for in Ho. apply andb_prop in Ho as [Ho1 Ho2]. unfold accepts.
  rewrite Ho1, Hc1, String.eqb_refl, Ho2, Ha, He. cbn [andb]. apply andb_true_intro. split; lia.
Qed.
End CodeTheorems.

(** ** How much is sent *)

Record SendCall : Type := { sc_now : Z; sc_email : string; sc_source : string }.

Section SendTheorems.
Context `{SecretApi}.

(** The requests that were allowed to send. *)
Fixpoint run_sends (calls : list SendCall) (m : Mail) : list SendCall * Mail :=
  match calls with
  | [] => ([], m)
  | c :: rest =>
      let '(ok, m) := allow_email_send (sc_now c) (sc_email c) (sc_source c) m in
      let '(log, m) := run_sends rest m in ((if ok then [c] else []) ++ log, m)
  end.

Fixpoint in_order (t : Z) (calls : list SendCall) : Prop :=
  match calls with [] => True | c :: rest => t <= sc_now c /\ in_order (sc_now c) rest end.

Definition uses (key : string) (c : SendCall) : bool :=
  existsb (String.eqb key) (fst <$> send_keys (sc_email c) (sc_source c)).

Definition bump (now : Z) (w : option (Z * Z)) : Z * Z :=
  match w with
  | None => (now, 1)
  | Some (window_start, count) =>
      if window_start + EMAIL_WINDOW_SECS <=? now then (now, 1) else (window_start, count + 1)
  end.

Lemma count_sends_lookup (now : Z) (keys : list (string * Z)) : forall limits key,
  NoDup (fst <$> keys) ->
  foldl (count_send now) limits keys !! key =
    if existsb (String.eqb key) (fst <$> keys) then Some (bump now (limits !! key)) else limits !! key.
Proof.
  induction keys as [|[k l] keys IH]; intros limits key Hnd; [done|].
  cbn [fmap list_fmap foldl existsb fst]. apply NoDup_cons in Hnd as [Hk Hnd]. rewrite IH by done.
  unfold count_send at 1 2. cbn [fst]. destruct (String.eqb_spec key k) as [->|Hne]; cbn [orb].
  - assert (existsb (String.eqb k) (fst <$> keys) = false) as ->; [|by rewrite lookup_insert, decide_True].
    apply existsb_false_Forall, Forall_forall. intros x Hx. apply String.eqb_neq. intros ->. by apply Hk, list_elem_of_In.
  - by rewrite lookup_insert_ne by done.
Qed.

Lemma send_keys_distinct (email source : string) : NoDup (fst <$> send_keys email source).
Proof.
  cbn. repeat (apply NoDup_cons; split); [| | |apply NoDup_nil_2];
    rewrite ?list_elem_of_In; cbn; intros Hin; repeat destruct Hin as [Hin|Hin]; discriminate || done.
Qed.

(** The times at which a key was counted against its window. *)
Definition since (lo hi : Z) (times : list Z) : Z := count_if (fun t => (lo <=? t) && (t <? hi)) times.

Definition window_inv (limit last : Z) (times : list Z) (w : option (Z * Z)) : Prop :=
  (forall T, since T (T + EMAIL_WINDOW_SECS) times <= 2 * limit) /\
  match w with
  | None => times = []
  | Some (start, count) =>
      start <= last /\ count <= limit /\ Forall (fun t => t < start + EMAIL_WINDOW_SECS /\ t <= last) times /\
      since start (start + EMAIL_WINDOW_SECS) times = count /\
      forall T, start - EMAIL_WINDOW_SECS < T -> since T start times <= limit
  end.

Lemma since_app (lo hi : Z) (a b : list Z) : since lo hi (a ++ b) = since lo hi a + since lo hi b.
Proof. unfold since, count_if. rewrite List.filter_app, length_app. lia. Qed.

Lemma since_one (lo hi t : Z) : since lo hi [t] = if (lo <=? t) && (t <? hi) then 1 else 0.
Proof. unfold since, count_if. cbn. by destruct (_ && _). Qed.

Lemma since_nonneg (lo hi : Z) (times : list Z) : 0 <= since lo hi times.
Proof. unfold since, count_if. lia. Qed.

Lemma since_mono (lo hi lo' hi' : Z) (times : list Z) :
  Forall (fun t => lo <= t < hi -> lo' <= t < hi') times -> since lo hi times <= since lo' hi' times.
Proof.
  unfold since, count_if. induction 1 as [|t times Ht _ IH]; [done|]. cbn [List.filter].
  destruct ((lo <=? t) && (t <? hi)) eqn:E1, ((lo' <=? t) && (t <? hi')) eqn:E2; cbn [length]; lia.
Qed.

Lemma since_split (lo mid hi : Z) (times : list Z) :
  lo <= mid <= hi -> since lo hi times = since lo mid times + since mid hi times.
Proof.
  intros Hm. unfold since, count_if. induction times as [|t times IH]; [done|]. cbn [List.filter].
  destruct ((lo <=? t) && (t <? hi)) eqn:E1, ((lo <=? t) && (t <? mid)) eqn:E2, ((mid <=? t) && (t <? hi)) eqn:E3;
    cbn [length]; lia.
Qed.

Lemma since_none (lo hi : Z) (times : list Z) : Forall (fun t => ~ (lo <= t < hi)) times -> since lo hi times = 0.
Proof.
  unfold since, count_if. induction 1 as [|t times Ht _ IH]; [done|]. cbn [List.filter].
  destruct ((lo <=? t) && (t <? hi)) eqn:E1; [lia|exact IH].
Qed.

Lemma window_inv_bump (limit last now : Z) (times : list Z) (w : option (Z * Z)) :
  1 <= limit -> last <= now -> window_inv limit last times w ->
  match w with Some (start, count) => now < start + EMAIL_WINDOW_SECS -> count < limit | None => True end ->
  window_inv limit now (times ++ [now]) (Some (bump now w)).
Proof.
  intros Hl Hlast [Hall Hw] Hroom. destruct w as [[start count]|]; cbn [bump].
  - destruct Hw as (Hs & Hc & Ht & Hn & Hb).
    destruct (Z.leb_spec (start + EMAIL_WINDOW_SECS) now) as [Hnew|Hold].
    + assert (Hcur : forall T, now - EMAIL_WINDOW_SECS < T -> since T now times <= count).
      { intros T HT. rewrite <-Hn. apply since_mono. eapply Forall_impl; [exact Ht|]. intros t Htt. cbn in *. lia. }
      assert (Hnow : forall hi, since now hi times = 0).
      { intros hi. apply since_none. eapply Forall_impl; [exact Ht|]. intros t Htt. cbn in *. lia. }
      split; [|split_and!; [lia|lia| | |]].
      * intros T. rewrite since_app, since_one. destruct ((T <=? now) && (now <? T + EMAIL_WINDOW_SECS)) eqn:E;
          [|specialize (Hall T); lia]. apply andb_prop in E as [E1 E2].
        rewrite (since_split T now) by lia. specialize (Hnow (T + EMAIL_WINDOW_SECS)). specialize (Hcur T). lia.
      * apply Forall_app. split; [|constructor; [unfold EMAIL_WINDOW_SECS; lia|constructor]].
        eapply Forall_impl; [exact Ht|]. intros t Htt. cbn in *. unfold EMAIL_WINDOW_SECS in *. lia.
      * rewrite since_app, since_one, Hnow. unfold EMAIL_WINDOW_SECS in *.
        destruct ((now <=? now) && _) eqn:E; [done|lia].
      * intros T HT. rewrite since_app, since_one. specialize (Hcur T HT).
        destruct ((T <=? now) && (now <? now)) eqn:E; lia.
    + specialize (Hroom Hold). split; [|split_and!; [lia|lia| | |]].
      * intros T. rewrite since_app, since_one. destruct ((T <=? now) && (now <? T + EMAIL_WINDOW_SECS)) eqn:E;
          [|specialize (Hall T); lia]. apply andb_prop in E as [E1 E2].
        destruct (Z.le_gt_cases T start) as [HT|HT].
        -- rewrite (since_split T start) by lia. specialize (Hb T ltac:(lia)).
           assert (since start (T + EMAIL_WINDOW_SECS) times <= count); [|lia]. rewrite <-Hn.
           apply since_mono. apply Forall_forall. intros t _. lia.
        -- assert (since T (T + EMAIL_WINDOW_SECS) times <= count); [|lia]. rewrite <-Hn. apply since_mono.
           eapply Forall_impl; [exact Ht|]. intros t Htt. cbn in *. lia.
      * apply Forall_app. split; [|constructor; [lia|constructor]]. eapply Forall_impl; [exact Ht|]. intros t Htt. cbn in *. lia.
      * rewrite since_app, since_one, Hn. destruct ((start <=? now) && _) eqn:E; lia.
      * intros T HT. rewrite since_app, since_one. specialize (Hb T HT). destruct ((T <=? now) && (now <? start)) eqn:E; lia.
  - subst times. cbn [app]. unfold EMAIL_WINDOW_SECS in *. split; [|split_and!; [lia|lia| | |]].
    + intros T. rewrite since_one. destruct (_ && _); lia.
    + constructor; [unfold EMAIL_WINDOW_SECS; lia|constructor].
    + rewrite since_one. unfold EMAIL_WINDOW_SECS. destruct ((now <=? now) && _) eqn:E; lia.
    + intros T HT. rewrite since_one. destruct ((T <=? now) && (now <? now)) eqn:E; lia.
Qed.

Lemma window_inv_later (limit last now : Z) (times : list Z) (w : option (Z * Z)) :
  last <= now -> window_inv limit last times w -> window_inv limit now times w.
Proof.
  intros Hl [Hall Hw]. split; [done|]. destruct w as [[start count]|]; [|done].
  destruct Hw as (Hs & Hc & Ht & Hn & Hb). split_and!; try done; [lia|].
  eapply Forall_impl; [exact Ht|]. intros t Htt. cbn in *. lia.
Qed.

Lemma run_sends_inv (key : string) (limit : Z) (calls : list SendCall) : forall last times m,
  1 <= limit -> (forall email source l, (key, l) ∈ send_keys email source -> l = limit) ->
  in_order last calls -> window_inv limit last times (email_rate_limits m !! key) ->
  forall T, since T (T + EMAIL_WINDOW_SECS) (times ++ (sc_now <$> List.filter (uses key) (run_sends calls m).1)) <= 2 * limit.
Proof.
  induction calls as [|c calls IH]; intros last times m Hl Hk Ho Hw T; [cbn; rewrite app_nil_r; apply Hw|].
  destruct Ho as [Ho1 Ho2]. cbn [run_sends]. unfold allow_email_send.
  assert (Hw' := window_inv_later _ _ _ _ _ Ho1 Hw).
  destruct (existsb _ _) eqn:Hfull.
  { specialize (IH (sc_now c) times m Hl Hk Ho2 Hw' T). by destruct (run_sends calls m). }
  set (m1 := with_email_limits _ m). destruct (run_sends calls m1) as [log m2] eqn:Er. cbn [fst app List.filter].
  specialize (IH (sc_now c)). apply existsb_false_Forall in Hfull.
  assert (E1 : email_rate_limits m1 !! key = if uses key c then Some (bump (sc_now c) (email_rate_limits m !! key))
    else email_rate_limits m !! key) by apply count_sends_lookup, send_keys_distinct.
  destruct (uses key c) eqn:Hu.
  - cbn [fmap list_fmap]. change (sc_now c :: ?l) with ([sc_now c] ++ l). rewrite app_assoc.
    specialize (IH (times ++ [sc_now c]) m1 Hl Hk Ho2). rewrite Er in IH. apply IH. rewrite E1.
    apply (window_inv_bump limit last); [done|done|done|].
    unfold uses in Hu. apply existsb_exists in Hu as (k & Hin & Heq). apply String.eqb_eq in Heq as <-.
    apply list_elem_of_In, list_elem_of_fmap in Hin as ([k l] & -> & Hin). cbn [fst].
    pose proof (Hk _ _ _ Hin) as ->. rewrite Forall_forall in Hfull. specialize (Hfull _ Hin). unfold window_full in Hfull.
    cbn [fst snd] in Hfull. destruct (email_rate_limits m !! k) as [[start count]|]; [|done]. intros Hlt. lia.
  - specialize (IH times m1 Hl Hk Ho2). rewrite Er in IH. apply IH. by rewrite E1.
Qed.

(** How many messages were allowed within ten minutes from [T], of those that
    count for a key. *)
Definition allowed_within (T : Z) (key : string) (log : list SendCall) : Z :=
  count_if (fun c => uses key c && ((T <=? sc_now c) && (sc_now c <? T + EMAIL_WINDOW_SECS))) log.

Lemma allowed_within_since (T : Z) (key : string) (log : list SendCall) :
  allowed_within T key log = since T (T + EMAIL_WINDOW_SECS) (sc_now <$> List.filter (uses key) log).
Proof.
  unfold allowed_within, since, count_if. f_equal. induction log as [|c log IH]; [done|]. cbn [List.filter].
  destruct (uses key c); cbn [andb]; [|exact IH]. cbn [fmap list_fmap List.filter].
  destruct ((T <=? sc_now c) && _); cbn [length]; [f_equal|]; exact IH.
Qed.

(** Whoever asks, within any ten minutes at most six messages are sent to
    one address, twenty for one source and a hundred in all: twice the limit of
    a window. *)
Theorem email_sends_bounded (calls : list SendCall) (m : Mail) (t0 T : Z) (email source : string) :
  email_rate_limits m = ∅ -> in_order t0 calls ->
  let log := (run_sends calls m).1 in
  allowed_within T ("email:" +:+ normalize_email email) log <= 6 /\
  allowed_within T ("source:" +:+ source) log <= 20 /\
  allowed_within T "instance" log <= 100.
Proof.
  intros Hm Ho log. unfold log. rewrite !allowed_within_since.
  assert (Hgo : forall key limit, 1 <= limit -> (forall email source l, (key, l) ∈ send_keys email source -> l = limit) ->
    since T (T + EMAIL_WINDOW_SECS) (sc_now <$> List.filter (uses key) (run_sends calls m).1) <= 2 * limit).
  { intros key limit Hl Hk. apply (run_sends_inv key limit calls t0 [] m Hl Hk Ho). rewrite Hm, lookup_empty.
    split; [|done]. intros T'. change (since _ _ []) with 0. lia. }
  split_and!; [apply (Hgo _ 3)|apply (Hgo _ 10)|apply (Hgo _ 50)]; try lia; intros e s l Hin;
    apply list_elem_of_In in Hin; cbn in Hin; repeat destruct Hin as [Hin|Hin]; congruence || done.
Qed.
End SendTheorems.

(** ** Witnesses *)

Definition sample_mail : Mail := {|
  email_invitations := ∅; next_email_invitation := 1; email_login_tokens := []; next_login_token := 1;
  email_rate_limits := ∅; email_outbox := []; next_outbox_message := 1; smtp_row := None; directory := sample_directory;
|}.

Definition wrong_codes : list (Z * string) :=
  [(10, "000001"); (11, "000002"); (12, "000003"); (13, "000004"); (14, "000005"); (15, "000006")].

Lemma login_codes_bounded_witness :
  let m := (run_codes (guess "ann@example.com" <$> wrong_codes)
    (run_codes [Store 1 "ann@example.com" "link" "123456" None 600] sample_mail).2).2 in
  (consume_email_login_token 20 "ann@example.com" "123456" true m).1 = None.
Proof.
  pose proof (login_codes_bounded "ann@example.com" [Store 1 "ann@example.com" "link" "123456" None 600]
    (guess "ann@example.com" <$> wrong_codes) sample_mail eq_refl eq_refl) as Hc.
  cbn zeta. destruct (run_codes (guess "ann@example.com" <$> wrong_codes) _) as [log m] eqn:E. cbn [snd].
  destruct Hc as [_ Hc]. apply (Hc ltac:(right; apply (f_equal fst) in E; cbn [fst] in E; rewrite <-E; vm_compute; discriminate)).
  reflexivity.
Defined.

Lemma interleaved_codes_unlimited_witness :
  let '(log, m) := run_codes (guess "ann@example.com" <$> wrong_codes)
    (interleaved_stores 1 "ann@example.com" "link1" "123456" "link2" "654321" 600 sample_mail) in
  Forall (fun e => e.2 = false) log /\
  (consume_email_login_token 20 "ann@example.com" "123456" true m).1 = Some None.
Proof.
  pose proof (interleaved_codes_unlimited 1 "ann@example.com" "link1" "123456" "link2" "654321" 600 wrong_codes sample_mail)
    as Hi.
  specialize (Hi ltac:(constructor) ltac:(discriminate) ltac:(discriminate)
    ltac:(repeat (constructor; [split; discriminate|]); constructor)).
  destruct (run_codes _ _) as [log m]. destruct Hi as [Hl Ha]. split; [exact Hl|]. apply (Ha 20). lia.
Defined.

Definition sample_sends : list SendCall := [
  Build_SendCall 0 "ann@example.com" "192.0.2.1"; Build_SendCall 1 "ann@example.com" "192.0.2.1";
  Build_SendCall 2 "Ann@example.com" "192.0.2.1"; Build_SendCall 3 "ann@example.com" "192.0.2.1"].

Lemma email_sends_bounded_witness :
  length (run_sends sample_sends sample_mail).1 = 3%nat /\
  allowed_within 0 ("email:" +:+ normalize_email "ann@example.com") (run_sends sample_sends sample_mail).1 <= 6.
Proof.
  assert (in_order 0 sample_sends) as Ho by (repeat split; vm_compute; discriminate).
  pose proof (email_sends_bounded sample_sends sample_mail 0 0 "ann@example.com" "192.0.2.1" eq_refl Ho) as Hb.
  cbn zeta in Hb. split; [vm_compute; reflexivity|]. exact (proj1 Hb).
Defined.
