(* ===== verification/EmailFlow.v ===== *)
(** * The handlers of [email.rs]

    Requesting and verifying a sign-in by email, invitations, SMTP settings,
    the messages and the worker of the outbox, over the tables of [Email].
    Random draws, clock readings, the administrator who was authenticated and
    the public base URL are arguments; building a link is the class
    [LinkApi] of the [url] crate. *)
From stdpp Require Import gmap.
From S2P Require Import Prelude RustStr Headers Config Quota Users Secrets Email.
Open Scope string_scope.
Open Scope Z_scope.
Open Scope list_scope.
Open Scope mirror_scope.

(** [Url::parse], [set_path], [set_query(None)], [set_fragment(None)] and
    [query_pairs_mut().append_pair] in this order; [None] is a parse error. *)
Class LinkApi : Type := {
  link_with_query : string -> string -> list (string * string) -> option string;
  (** [DateTime::from_timestamp] and [format] *)
  format_expiry : Z -> option string;
}.

Inductive EmailLocale : Type := En | Zh.

Inductive EmailAnswer : Type :=
| Accepted
| Created (id : Z)
| NoContent
| InvitationNotFound
| BadRequest (error : string)
| Unauthorized
| Forbidden
| Unavailable (error : string)
| InternalError
| SignedIn (session : UserSession).

(** ** Messages *)

Definition dq : string := String (ascii_of_nat 34) EmptyString.

(** [str::replace] of one character. *)
Fixpoint replace_char (c : ascii) (by_ : string) (s : string) : string :=
  match s with
  | EmptyString => EmptyString
  | String x rest => if Ascii.eqb x c then by_ +:+ replace_char c by_ rest else String x (replace_char c by_ rest)
  end.

Definition html_escape (value : string) : string :=
  replace_char ">" "&gt;" (replace_char "<" "&lt;" (replace_char (ascii_of_nat 34) "&quot;" (replace_char "&" "&amp;" value))).

Definition smtp_test_email (locale : EmailLocale) : string * string :=
  match locale with
  | En => ("MirrorProxy SMTP test", "MirrorProxy email delivery is configured correctly.")
  | Zh => ("MirrorProxy 发件测试", "MirrorProxy 邮件发送配置正确，测试邮件已成功送达。")
  end.

Definition newline : string := String (ascii_of_nat 10) EmptyString.

Definition div_en : string := "<div style=" +:+ dq +:+ "font-family:Arial,sans-serif;line-height:1.6;color:#172033" +:+ dq +:+ ">".
Definition div_zh : string :=
  "<div style=" +:+ dq +:+ "font-family:'Microsoft YaHei','PingFang SC',Arial,sans-serif;line-height:1.7;color:#172033" +:+ dq +:+ ">".

Definition button (escaped_link text : string) : string :=
  "<p><a href=" +:+ dq +:+ escaped_link +:+ dq +:+ " style=" +:+ dq +:+
  "display:inline-block;padding:11px 18px;border-radius:6px;background:#146b7c;color:#fff;text-decoration:none;font-weight:700"
  +:+ dq +:+ ">" +:+ text +:+ "</a></p><p style=" +:+ dq +:+ "color:#667085" +:+ dq +:+ ">".

Definition login_email (locale : EmailLocale) (code link : string) : string * string * string :=
  let escaped_link := html_escape link in
  match locale with
  | En => ("MirrorProxy sign in",
      "Your MirrorProxy verification code is " +:+ code +:+ "." +:+ newline +:+ newline +:+ "Or use this one-time link:"
        +:+ newline +:+ link,
      div_en +:+ "<h2>Sign in to MirrorProxy</h2><p>Your verification code is <strong>" +:+ code +:+ "</strong>.</p>"
        +:+ button escaped_link "Sign in"
        +:+ "This code and one-time link expire shortly and can only be used once.</p></div>")
  | Zh => ("登录 MirrorProxy",
      "你的 MirrorProxy 登录验证码是 " +:+ code +:+ "。" +:+ newline +:+ newline +:+ "也可以点击以下一次性链接直接登录："
        +:+ newline +:+ link,
      div_zh +:+ "<h2>登录 MirrorProxy</h2><p>你的登录验证码是 <strong>" +:+ code +:+ "</strong>。</p>"
        +:+ button escaped_link "立即登录" +:+ "验证码和一次性链接将在短时间后失效，且只能使用一次。</p></div>")
  end.

Section Handlers.
Context `{SecretApi} `{CipherApi} `{LinkApi}.

Definition invitation_email (locale : EmailLocale) (link : string) (expires_at : Z) : string * string * string :=
  let expiry := match format_expiry expires_at with Some s => s | None => "the stated expiration time" end in
  let escaped_link := html_escape link in
  match locale with
  | En => ("MirrorProxy invitation",
      "You were invited to MirrorProxy. This invitation expires at " +:+ expiry +:+ "." +:+ newline +:+ newline
        +:+ "Open the link to create your account and sign in:" +:+ newline +:+ link,
      div_en +:+ "<h2>MirrorProxy invitation</h2><p>You were invited to MirrorProxy.</p>"
        +:+ button escaped_link "Accept invitation"
        +:+ "This one-time invitation expires at <strong>" +:+ expiry +:+ "</strong>.</p></div>")
  | Zh => ("MirrorProxy 用户邀请",
      "管理员邀请你加入 MirrorProxy。本次邀请有效期至 " +:+ expiry +:+ "。" +:+ newline +:+ newline
        +:+ "点击以下一次性链接即可创建账户并登录：" +:+ newline +:+ link,
      div_zh +:+ "<h2>MirrorProxy 用户邀请</h2><p>管理员邀请你加入 MirrorProxy。</p>"
        +:+ button escaped_link "接受邀请并登录"
        +:+ "这是一次性邀请链接，有效期至 <strong>" +:+ expiry +:+ "</strong>。</p></div>")
  end.

Definition login_link (base_url email credential_name credential : string) : option string :=
  link_with_query base_url "/login" [("email", email); (credential_name, credential)].

(** ** SMTP settings *)

Definition valid_user_email (value : string) : bool :=
  (str_len value <=? 320) && negb (has_whitespace value)
  && match split_once "@" value with
     | Some (local, domain) =>
         negb (str_is_empty local) && contains_char "." domain && negb (starts_with "." domain)
         && negb (ends_with "." domain)
     | None => false
     end.

Definition default_smtp_settings : SmtpSettings.t := {|
  SmtpSettings.enabled := false; SmtpSettings.host := ""; SmtpSettings.port := 587; SmtpSettings.security := "starttls";
  SmtpSettings.username := None; SmtpSettings.password := None; SmtpSettings.from_name := "MirrorProxy";
  SmtpSettings.from_address := "";
|}.

Definition set_password (password : option string) (s : SmtpSettings.t) : SmtpSettings.t := {|
  SmtpSettings.enabled := SmtpSettings.enabled s; SmtpSettings.host := SmtpSettings.host s;
  SmtpSettings.port := SmtpSettings.port s; SmtpSettings.security := SmtpSettings.security s;
  SmtpSettings.username := SmtpSettings.username s; SmtpSettings.password := password;
  SmtpSettings.from_name := SmtpSettings.from_name s; SmtpSettings.from_address := SmtpSettings.from_address s;
|}.

Definition seal_option (cipher : option string) (nonce context : string) (value : option string) :
    result (option string) string :=
  match value with
  | None => Ok None
  | Some v => let? s := seal cipher nonce context v in Ok (Some s)
  end.

Definition smtp_settings (cipher : option string) (m : Mail) : result (option SmtpSettings.t) string :=
  match smtp_row m with
  | None => Ok None
  | Some row =>
      let? password := open_optional cipher "smtp_settings.password" (SmtpSettings.password row) in
      Ok (Some (set_password password row))
  end.

Definition with_smtp (row : SmtpSettings.t) (m : Mail) : Mail := {|
  email_invitations := email_invitations m; next_email_invitation := next_email_invitation m;
  email_login_tokens := email_login_tokens m; next_login_token := next_login_token m;
  email_rate_limits := email_rate_limits m; email_outbox := email_outbox m;
  next_outbox_message := next_outbox_message m; smtp_row := Some row; directory := directory m;
|}.

Definition save_smtp_settings (now : Z) (cipher : option string) (nonce actor : string) (settings : SmtpSettings.t)
    (preserve_password : bool) (m : Mail) : result unit string * Mail :=
  let sealed :=
    let? password := if preserve_password
                     then let? current := smtp_settings cipher m in Ok (current ≫= SmtpSettings.password)
                     else Ok (SmtpSettings.password settings) in
    seal_option cipher nonce "smtp_settings.password" password in
  match sealed with
  | Err e => (Err e, m)
  | Ok password =>
      (Ok tt, mail_audit now actor "smtp_settings_updated" "smtp_settings" (with_smtp (set_password password settings) m))
  end.

Definition validate_smtp_request (r : SmtpSettings.t) : result unit string :=
  if SmtpSettings.enabled r
     && (str_is_empty (str_trim (SmtpSettings.host r)) || str_is_empty (str_trim (SmtpSettings.from_address r)))
  then Err "SMTP host and from address are required when enabled"
  else if (SmtpSettings.port r =? 0)
          || negb (existsb (String.eqb (SmtpSettings.security r)) ["starttls"; "smtps"; "none"])
  then Err "SMTP port and security mode are invalid"
  else if negb (str_is_empty (SmtpSettings.from_address r)) && negb (valid_user_email (str_trim (SmtpSettings.from_address r)))
  then Err "SMTP from address is invalid"
  else if str_is_empty (str_trim (SmtpSettings.from_name r)) || (100 <? char_count (SmtpSettings.from_name r))
  then Err "SMTP from name must contain 1 to 100 characters"
  else Ok tt.

(** [admin] is the administrator [require_super_admin] lets through, or its
    refusal. *)
Definition update_smtp_settings (now : Z) (cipher : option string) (nonce : string) (admin : result string EmailAnswer)
    (request : SmtpSettings.t) (m : Mail) : EmailAnswer * Mail :=
  match admin with
  | Err answer => (answer, m)
  | Ok username =>
      match validate_smtp_request request with
      | Err error => (BadRequest error, m)
      | Ok _ =>
          let empty p := match p with None => true | Some s => str_is_empty s end in
          let preserve_password := empty (SmtpSettings.password request) in
          let settings := {|
            SmtpSettings.enabled := SmtpSettings.enabled request;
            SmtpSettings.host := str_trim (SmtpSettings.host request); SmtpSettings.port := SmtpSettings.port request;
            SmtpSettings.security := SmtpSettings.security request;
            SmtpSettings.username := match SmtpSettings.username request with
                                     | Some u => if str_is_empty (str_trim u) then None else Some u
                                     | None => None
                                     end;
            SmtpSettings.password := if preserve_password then None else SmtpSettings.password request;
            SmtpSettings.from_name := str_trim (SmtpSettings.from_name request);
            SmtpSettings.from_address := to_ascii_lowercase (str_trim (SmtpSettings.from_address request)) |} in
          match save_smtp_settings now cipher nonce username settings preserve_password m with
          | (Ok _, m) => (NoContent, m)
          | (Err _, m) => (InternalError, m)
          end
      end
  end.

(** ** The outbox *)

Definition insert_message (now : Z) (recipient subject body : string) (html_body : option string) (m : Mail) : Mail := {|
  email_invitations := email_invitations m; next_email_invitation := next_email_invitation m;
  email_login_tokens := email_login_tokens m; next_login_token := next_login_token m;
  email_rate_limits := email_rate_limits m;
  email_outbox := email_outbox m ++ [{|
    OutboxMessage.id := next_outbox_message m; OutboxMessage.recipient := normalize_email recipient;
    OutboxMessage.subject := subject; OutboxMessage.body := body; OutboxMessage.html_body := html_body;
    OutboxMessage.status := "pending"; OutboxMessage.attempts := 0; OutboxMessage.next_attempt_at := now;
    OutboxMessage.last_error := None; OutboxMessage.created_at := now; OutboxMessage.sent_at := None |}];
  next_outbox_message := next_outbox_message m + 1; smtp_row := smtp_row m; directory := directory m;
|}.

(** [Database::enqueue_email]; two nonces. *)
Definition store_email (now : Z) (cipher : option string) (nonces : string * string) (recipient subject body : string)
    (html_body : option string) (m : Mail) : result Z string * Mail :=
  let sealed :=
    let? encrypted_body := seal cipher nonces.1 "email_outbox.body" body in
    let? encrypted_html := seal_option cipher nonces.2 "email_outbox.html_body" html_body in
    Ok (encrypted_body, encrypted_html) in
  match sealed with
  | Err e => (Err e, m)
  | Ok (b, h) => (Ok (next_outbox_message m), insert_message now recipient subject b h m)
  end.

Definition enqueue_email (now : Z) (cipher : option string) (nonces : string * string) (recipient subject body : string)
    (html_body : option string) (m : Mail) : result unit EmailAnswer * Mail :=
  match smtp_settings cipher m with
  | Err _ => (Err InternalError, m)
  | Ok None => (Err (Unavailable "email delivery is not configured"), m)
  | Ok (Some settings) =>
      if SmtpSettings.enabled settings then
        match store_email now cipher nonces recipient subject body html_body m with
        | (Ok _, m) => (Ok tt, m)
        | (Err _, m) => (Err InternalError, m)
        end
      else (Err (Unavailable "email delivery is not configured"), m)
  end.

Definition pending_message (now : Z) (x : OutboxMessage.t) : bool :=
  (OutboxMessage.status x =? "pending")%string && (OutboxMessage.next_attempt_at x <=? now).

Definition pending_outbox (now : Z) (limit : nat) (m : Mail) : list OutboxMessage.t :=
  firstn limit (List.filter (pending_message now) (email_outbox m)).

Definition update_message (id : Z) (f : OutboxMessage.t -> OutboxMessage.t) : Mail -> Mail :=
  with_outbox (fmap (fun x => if OutboxMessage.id x =? id then f x else x)).

Definition mark_outbox_sent (now id : Z) : Mail -> Mail := update_message id (OutboxMessage.sent now).

Definition MAIL_ATTEMPTS : Z := 5.

Definition mark_outbox_failed (now id attempts : Z) (error : string) : Mail -> Mail :=
  let terminal := MAIL_ATTEMPTS <=? attempts in
  let delay := sat_mul_i64 30 (Z.shiftl 1 (Z.min attempts 6)) in
  update_message id (OutboxMessage.failed (if terminal then "failed" else "pending") attempts (now + delay) error).

(** The messages of one round, with whether the relay took each. *)
Fixpoint deliver_all (now : Z) (delivers : Z -> bool) (items : list OutboxMessage.t) (m : Mail) : list (Z * bool) * Mail :=
  match items with
  | [] => ([], m)
  | item :: rest =>
      let id := OutboxMessage.id item in
      let m := if delivers id then mark_outbox_sent now id m
               else mark_outbox_failed now id (OutboxMessage.attempts item + 1) "SMTP delivery failed" m in
      let '(log, m) := deliver_all now delivers rest m in ((id, delivers id) :: log, m)
  end.

Definition readable (cipher : option string) (x : OutboxMessage.t) : bool :=
  is_ok (open cipher "email_outbox.body" (OutboxMessage.body x))
  && is_ok (open_optional cipher "email_outbox.html_body" (OutboxMessage.html_body x)).

(** A round of the worker; an error of the database ends it before anything is
    sent. *)
Definition process_email_outbox (now : Z) (cipher : option string) (delivers : Z -> bool) (m : Mail) :
    list (Z * bool) * Mail :=
  match smtp_settings cipher m with
  | Ok (Some settings) =>
      let items := pending_outbox now 10 m in
      if SmtpSettings.enabled settings && forallb (readable cipher) items then deliver_all now delivers items m else ([], m)
  | _ => ([], m)
  end.

(** ** Invitations *)

Record MailDraws : Type := { dr_token : string; dr_code : Z; dr_nonces : string * string; dr_routing : list Z }.

Definition create_invitation (now : Z) (cipher : option string) (draws : MailDraws) (base_url : string) (locale : EmailLocale)
    (admin : result string EmailAnswer) (email display_name : string) (expires_in_hours : Z) (m : Mail) : EmailAnswer * Mail :=
  match admin with
  | Err answer => (answer, m)
  | Ok username =>
      let email := to_ascii_lowercase (str_trim email) in
      let display_name := str_trim display_name in
      if negb (valid_user_email email) || str_is_empty display_name || (100 <? char_count display_name)
         || negb ((1 <=? expires_in_hours) && (expires_in_hours <=? 24 * 30))
      then (BadRequest "invalid invitation fields", m)
      else
        let expires_at := now + expires_in_hours * 60 * 60 in
        match create_email_invitation now username email display_name (dr_token draws) expires_at m with
        | (Err _, m) => (InternalError, m)
        | (Ok id, m) =>
            match login_link base_url email "token" (dr_token draws) with
            | None => (InternalError, m)
            | Some link =>
                let '(subject, body, html) := invitation_email locale link expires_at in
                match enqueue_email now cipher (dr_nonces draws) email subject body (Some html) m with
                | (Ok _, m) => (Created id, m)
                | (Err answer, m) => (answer, m)
                end
            end
        end
  end.

Definition revoke_invitation (now : Z) (admin : result string EmailAnswer) (id : Z) (m : Mail) : EmailAnswer * Mail :=
  match admin with
  | Err answer => (answer, m)
  | Ok username =>
      let '(done, m) := revoke_email_invitation now username id m in
      (if done then NoContent else InvitationNotFound, m)
  end.

Definition resend_invitation (now : Z) (cipher : option string) (draws : MailDraws) (base_url : string) (locale : EmailLocale)
    (admin : result string EmailAnswer) (id : Z) (m : Mail) : EmailAnswer * Mail :=
  match admin with
  | Err answer => (answer, m)
  | Ok username =>
      match renew_email_invitation now username id (dr_token draws) (now + 72 * 60 * 60) m with
      | (None, m) => (InvitationNotFound, m)
      | (Some invitation, m) =>
          match login_link base_url (EmailInvitation.email invitation) "token" (dr_token draws) with
          | None => (InternalError, m)
          | Some link =>
              let '(subject, body, html) := invitation_email locale link (EmailInvitation.expires_at invitation) in
              match enqueue_email now cipher (dr_nonces draws) (EmailInvitation.email invitation) subject body (Some html) m with
              | (Ok _, m) => (Accepted, m)
              | (Err answer, m) => (answer, m)
              end
          end
      end
  end.

(** ** Signing in *)

Definition email_domain_allowed (email : string) (domains : list string) : bool :=
  match last (str_split "@" email) with
  | Some domain => contains_char "@" email && existsb (fun allowed => (allowed =? domain)%string) domains
  | None => false
  end.

(** Who may ask for a code: the invitation to be used, or refused. *)
Definition may_register (now : Z) (registration : RegistrationConfig.t) (email : string) (invitation_token : option string)
    (m : Mail) : option (option Z) :=
  match user_by_email email (directory m) with
  | Some _ => Some None
  | None =>
      let mode := RegistrationConfig.mode registration in
      if (mode =? "open")%string then Some None
      else if (mode =? "domain_allowlist")%string
              && email_domain_allowed email (RegistrationConfig.allowed_email_domains registration)
      then Some None
      else if (mode =? "invite_only")%string then
        match invitation_token with
        | None => None
        | Some token => Some <$> valid_invitation now email token m
        end
      else None
  end.

(** [format!("{:06}", ..)]. *)
Definition six_digits (code : Z) : string :=
  let s := show_uint code in str_repeat "0" (6 - String.length s) +:+ s.

Definition request_email_login (now : Z) (cipher : option string) (draws : MailDraws) (base_url : string)
    (locale : EmailLocale) (registration : RegistrationConfig.t) (peer email : string) (invitation_token : option string)
    (m : Mail) : EmailAnswer * Mail :=
  let email := to_ascii_lowercase (str_trim email) in
  if negb (valid_user_email email) then (Accepted, m)
  else match may_register now registration email invitation_token m with
       | None => (Accepted, m)
       | Some invitation_id =>
           match allow_email_send now email peer m with
           | (false, m) => (Accepted, m)
           | (true, m) =>
               let code := six_digits (dr_code draws) in
               let expires_at := now + RegistrationConfig.email_token_ttl_minutes registration * 60 in
               match store_email_login_token now email (dr_token draws) code invitation_id expires_at m with
               | (Err _, m) => (InternalError, m)
               | (Ok _, m) =>
                   match login_link base_url email "token" (dr_token draws) with
                   | None => (InternalError, m)
                   | Some link =>
                       let '(subject, body, html) := login_email locale code link in
                       match enqueue_email now cipher (dr_nonces draws) email subject body (Some html) m with
                       | (Ok _, m) => (Accepted, m)
                       | (Err answer, m) => (answer, m)
                       end
                   end
               end
           end
       end.

(** The credential of a request, and whether it is a code. *)
Definition login_credential (code token : option string) : option (string * bool) :=
  match code, token with
  | Some code, None => if str_len code =? 6 then Some (code, true) else None
  | None, Some token => if str_is_empty token then None else Some (token, false)
  | _, _ => None
  end.

(** The invitation a credential was issued for, if the credential is good. *)
Definition redeem (now : Z) (email credential : string) (is_code : bool) (m : Mail) : option (option Z) * Mail :=
  match consume_email_login_token now email credential is_code m with
  | (Some invitation_id, m) => (Some invitation_id, m)
  | (None, m) =>
      if is_code then (None, m)
      else match valid_invitation now email credential m with
           | Some id => (Some (Some id), m)
           | None => (None, m)
           end
  end.

(** The account that signs in, created when there is none. *)
Definition email_user (now : Z) (draws : MailDraws) (routing_min_length : Z) (email : string) (invitation_id : option Z)
    (m : Mail) : result UserAccount EmailAnswer * Mail :=
  match user_by_email email (directory m) with
  | Some user => (Ok user, m)
  | None =>
      let display_name :=
        match invitation_id with
        | Some id =>
            match email_invitation id m with
            | Some i => if (EmailInvitation.email i =? email)%string && EmailInvitation.pending i
                           && (now <? EmailInvitation.expires_at i)
                        then Some (EmailInvitation.display_name i) else None
            | None => None
            end
        | None => head (str_split "@" email)
        end in
      match display_name with
      | None => (Err Unauthorized, m)
      | Some display_name =>
          let '(r, d) := create_user now (dr_routing draws) "email" email display_name routing_min_length (directory m) in
          let m := with_directory (fun _ => d) m in
          match r with
          | Ok (Some user) => (Ok user, m)
          | Ok None => match user_by_email email (directory m) with
                       | Some user => (Ok user, m)
                       | None => (Err InternalError, m)
                       end
          | Err _ => (Err InternalError, m)
          end
      end
  end.

(** The handler from one end to the other.  It awaits the database between its
    calls, which are not one transaction: what another request does in between
    is not part of this definition (what two interleaved requests for a code
    can do is shown in [Email.interleaved_codes_unlimited]). *)
Definition verify_email_login (now : Z) (draws : MailDraws) (routing_min_length : Z) (email : string)
    (code token : option string) (m : Mail) : EmailAnswer * Mail :=
  let email := to_ascii_lowercase (str_trim email) in
  match login_credential code token with
  | None => (Unauthorized, m)
  | Some (credential, is_code) =>
      match redeem now email credential is_code m with
      | (None, m) => (Unauthorized, m)
      | (Some invitation_id, m) =>
          match email_user now draws routing_min_length email invitation_id m with
          | (Err answer, m) => (answer, m)
          | (Ok user, m) =>
              let m := match invitation_id with Some id => accept_email_invitation now id m | None => m end in
              let '(r, d) := create_user_session now (dr_token draws) (ua_id user) "email" (directory m) in
              let m := with_directory (fun _ => d) m in
              match r with
              | Ok (Some session) => (SignedIn session, with_directory (audit_user_login now (ua_id user) "email") m)
              | Ok None => (Unauthorized, m)
              | Err _ => (InternalError, m)
              end
          end
      end
  end.
End Handlers.

(** ** What the handlers guarantee *)

Section FlowTheorems.
Context `{SecretApi} `{CipherApi} `{LinkApi}.

Lemma valid_invitation_Some (now : Z) (email token : string) (m : Mail) (id : Z) :
  valid_invitation now email token m = Some id ->
  exists i, email_invitations m !! id = Some i /\ EmailInvitation.email i = normalize_email email /\
    EmailInvitation.token_hash i = hash_token token /\ EmailInvitation.status i = "pending" /\
    now < EmailInvitation.expires_at i.
Proof.
  unfold valid_invitation. intros Hv. apply fmap_Some in Hv as ([k i] & Hf & ->).
  apply find_first_Some in Hf as [Hin Hp]. apply elem_of_map_to_list in Hin. cbn [fst snd] in *. exists i.
  rewrite !andb_true_iff in Hp. destruct Hp as [[[H3 H4] H5] H6]. unfold EmailInvitation.pending in H5.
  rewrite !String.eqb_eq in *. split_and!; try done. lia.
Qed.

(** What a credential is redeemed for: a row of the table of codes and links,
    or an invitation. *)
Lemma redeem_Some (now : Z) (email credential : string) (is_code : bool) (m m' : Mail) (invitation : option Z) :
  redeem now email credential is_code m = (Some invitation, m') ->
  (Exists (fun r => accepts now (normalize_email email) credential is_code r = true) (email_login_tokens m) \/
   is_code = false /\ exists id i, invitation = Some id /\ email_invitations m !! id = Some i /\
     EmailInvitation.email i = normalize_email email /\ EmailInvitation.token_hash i = hash_token credential /\
     EmailInvitation.status i = "pending" /\ now < EmailInvitation.expires_at i) /\
  directory m' = directory m /\ email_invitations m' = email_invitations m.
Proof.
  unfold redeem, consume_email_login_token. destruct (find_first _ _) as [row|] eqn:Hf.
  - intros [= <- <-]. split; [|done]. left. apply find_first_Some in Hf as [Hin Ha].
    apply Exists_exists. eauto.
  - destruct is_code; [by intros [=]|]. destruct (valid_invitation now email credential m) as [id|] eqn:Hv; [|by intros [=]].
    intros [= <- <-]. split; [|done]. right. split; [done|].
    apply valid_invitation_Some in Hv as (i & Hi). exists id, i. naive_solver.
Qed.

Lemma redeem_directory (now : Z) (email credential : string) (is_code : bool) (m : Mail) :
  directory (redeem now email credential is_code m).2 = directory m.
Proof.
  unfold redeem, consume_email_login_token. destruct (find_first _ _); [done|]. destruct is_code; [done|].
  by destruct (valid_invitation _ _ _ _).
Qed.

Lemma user_by_email_Some (email : string) (d : Directory) (user : UserAccount) :
  user_by_email email d = Some user ->
  exists u, users (dir_accounts d) !! ua_id user = Some u /\ User.email u = normalize_email email.
Proof.
  unfold user_by_email. intros (pre & [id u] & post & Hl & Hp & _)%find_map_Some. cbn [fst snd] in Hp.
  destruct (String.eqb_spec (User.email u) (normalize_email email)) as [He|]; [|done].
  unfold user_account in Hp. assert (users (dir_accounts d) !! id = Some u) as Hu.
  { apply elem_of_map_to_list. rewrite Hl. apply elem_of_app. right. by left. }
  rewrite Hu in Hp. destruct (active_routing_id id d); [|done]. destruct (user_live u); [|done]. injection Hp as <-.
  by exists u.
Qed.

Lemma create_user_email (now : Z) (draws : list Z) (actor email display_name : string) (length : Z) (d d' : Directory)
    (user : UserAccount) :
  create_user now draws actor email display_name length d = (Ok (Some user), d') ->
  exists u, users (dir_accounts d') !! ua_id user = Some u /\ User.email u = normalize_email email.
Proof.
  unfold create_user, insert_user. destruct (user_conflict _ _ _); [done|].
  unfold insert_unique_routing_id. destruct (try_routing_ids _ _ _ _ _) as [[routing rows]|]; [|done].
  cbn [result_bind]. intros [= <- <-]. cbn. rewrite lookup_insert, decide_True by done. by eexists.
Qed.

Lemma email_user_email (now : Z) (draws : MailDraws) (length : Z) (email : string) (invitation : option Z) (m m' : Mail)
    (user : UserAccount) :
  email_user now draws length email invitation m = (Ok user, m') ->
  exists u, users (dir_accounts (directory m')) !! ua_id user = Some u /\ User.email u = normalize_email email.
Proof.
  unfold email_user. destruct (user_by_email email (directory m)) as [found|] eqn:Hf.
  { intros [= <- <-]. by apply user_by_email_Some. }
  case_match; [|done]. destruct (create_user _ _ _ _ _ _ _) as [r d] eqn:Hc. cbn [directory with_directory].
  destruct r as [[created|]|]; [|destruct (user_by_email email d) as [found|] eqn:Hf2|]; try done; intros [= <- <-].
  - by eapply create_user_email.
  - by apply user_by_email_Some.
Qed.

Lemma email_user_sessions (now : Z) (draws : MailDraws) (length : Z) (email : string) (invitation : option Z) (m : Mail) :
  user_sessions (directory (email_user now draws length email invitation m).2) = user_sessions (directory m).
Proof.
  unfold email_user. destruct (user_by_email email (directory m)) as [found|]; [done|]. case_match; [|done].
  destruct (create_user _ _ _ _ _ _ _) as [r d] eqn:Hc.
  assert (user_sessions d = user_sessions (directory m)) as Hd.
  { unfold create_user, insert_user in Hc. destruct (user_conflict _ _ _); [by injection Hc as _ <-|].
    unfold insert_unique_routing_id in Hc. destruct (try_routing_ids _ _ _ _ _) as [[routing rows]|]; by injection Hc as _ <-. }
  destruct r as [[created|]|]; [done| |done]. cbn [directory with_directory]. by destruct (user_by_email email d).
Qed.

Lemma accept_directory (now : Z) (invitation : option Z) (m : Mail) :
  directory (match invitation with Some id => accept_email_invitation now id m | None => m end) = directory m.
Proof. destruct invitation as [id|]; [|done]. unfold accept_email_invitation. by destruct (pending_invitation id m). Qed.

Lemma create_user_session_spec (now : Z) (token : string) (id : Z) (method : string) (d d' : Directory) r :
  create_user_session now token id method d = (r, d') ->
  dir_accounts d' = dir_accounts d /\ user_routing_ids d' = user_routing_ids d /\
  match r with
  | Ok (Some session) => exists u, users (dir_accounts d) !! id = Some u /\ user_enabled u = true /\
      us_identity session = identity_of id u
  | _ => user_sessions d' = user_sessions d
  end.
Proof.
  unfold create_user_session. destruct (users (dir_accounts d) !! id) as [u|] eqn:Hu; [|by intros [= <- <-]].
  destruct (user_enabled u) eqn:He; [|by intros [= <- <-]]. unfold insert_session.
  destruct (user_sessions d !! hash_token token); intros [= <- <-]; split_and!; try done. by exists u.
Qed.

(** ** Closed registration *)

Inductive EmailCall : Type :=
| Ask (now : Z) (draws : MailDraws) (base_url : string) (locale : EmailLocale) (peer email : string)
    (invitation_token : option string)
| Verify (now : Z) (draws : MailDraws) (length : Z) (email : string) (code token : option string).

Variable cipher : option string.
Variable registration : RegistrationConfig.t.

Definition email_call (c : EmailCall) (m : Mail) : EmailAnswer * Mail :=
  match c with
  | Ask now draws base_url locale peer email invitation_token =>
      request_email_login now cipher draws base_url locale registration peer email invitation_token m
  | Verify now draws length email code token => verify_email_login now draws length email code token m
  end.

Definition run_email (calls : list EmailCall) (m : Mail) : Mail := foldl (fun m c => (email_call c m).2) m calls.

(** ** Where a sign-in by email comes from *)

(** The address a request is about. *)
Definition of_address (email : string) : string := normalize_email (to_ascii_lowercase (str_trim email)).

(** The code, of six bytes, or the link token that a request drew. *)
Definition presents (draws : MailDraws) (code token : option string) : Prop :=
  match code, token with
  | Some c, None => str_len c = 6 /\ hash_token c = hash_token (six_digits (dr_code draws))
  | None, Some k => k <> "" /\ hash_token k = hash_token (dr_token draws)
  | _, _ => False
  end.

Definition presented (address : string) (draws : MailDraws) (expiry : Z) (c : EmailCall) : Prop :=
  match c with
  | Verify now _ _ email code token => of_address email = address /\ now < expiry /\ presents draws code token
  | Ask _ _ _ _ _ _ _ => False
  end.

(** A verification with a code for the address. *)
Definition tries_code (address : string) (c : EmailCall) : bool :=
  match c with
  | Verify _ _ _ email (Some code) None => (of_address email =? address)%string && (str_len code =? 6)
  | _ => false
  end.

(** The row was stored by a request for the address; it counts the codes tried
    since, and its credential was not presented in time unless five codes had
    been tried. *)
Definition issued (address : string) (calls : list EmailCall) (r : LoginToken.t) : Prop :=
  exists before t draws base_url locale peer email invitation after,
    calls = before ++ Ask t draws base_url locale peer email invitation :: after /\
    of_address email = address /\
    LoginToken.token_hash r = hash_token (dr_token draws) /\
    LoginToken.code_hash r = hash_token (six_digits (dr_code draws)) /\
    LoginToken.expires_at r = t + RegistrationConfig.email_token_ttl_minutes registration * 60 /\
    LoginToken.attempts r = count_if (tries_code address) after /\
    (forall c, c ∈ after -> presented address draws (LoginToken.expires_at r) c -> 5 <= LoginToken.attempts r).

Definition issued_codes (calls : list EmailCall) (m : Mail) : Prop :=
  forall address, match live address (email_login_tokens m) with
                  | [] => True
                  | [r] => issued address calls r
                  | _ => False
                  end.

Lemma count_if_snoc {A} (p : A -> bool) (l : list A) (x : A) :
  count_if p (l ++ [x]) = count_if p l + if p x then 1 else 0.
Proof. unfold count_if. rewrite List.filter_app, length_app. cbn [List.filter]. destruct (p x); cbn [length]; lia. Qed.

(** Another call keeps a row issued, with one attempt more when it tried a code. *)
Lemma issued_snoc (address : string) (calls : list EmailCall) (r : LoginToken.t) (c : EmailCall) :
  issued address calls r ->
  (forall draws, LoginToken.token_hash r = hash_token (dr_token draws) ->
     LoginToken.code_hash r = hash_token (six_digits (dr_code draws)) ->
     presented address draws (LoginToken.expires_at r) c -> 5 <= LoginToken.attempts r) ->
  issued address (calls ++ [c]) (if tries_code address c then LoginToken.add_attempt r else r).
Proof.
  intros (before & t & draws & base_url & locale & peer & email & invitation & after & -> & Ha & Ht & Hc & He & Hn & Hp) Hx.
  exists before, t, draws, base_url, locale, peer, email, invitation, (after ++ [c]).
  rewrite <-app_assoc, count_if_snoc, <-Hn. specialize (Hx draws Ht Hc).
  destruct (tries_code address c); cbn [LoginToken.add_attempt LoginToken.token_hash LoginToken.code_hash
    LoginToken.expires_at LoginToken.attempts]; (split_and!; [done..|lia|]); intros c' [Hin|Hin]%elem_of_app Hpr.
  - specialize (Hp c' Hin Hpr). lia.
  - apply list_elem_of_singleton in Hin as ->. specialize (Hx Hpr). lia.
  - exact (Hp c' Hin Hpr).
  - apply list_elem_of_singleton in Hin as ->. exact (Hx Hpr).
Qed.

Lemma issued_other (address : string) (calls : list EmailCall) (r : LoginToken.t) (c : EmailCall) :
  match c with
  | Verify _ _ _ email code token => of_address email <> address \/ login_credential code token = None
  | Ask _ _ _ _ _ _ _ => True
  end ->
  issued address calls r -> issued address (calls ++ [c]) r.
Proof.
  intros Hc Hi.
  assert (tries_code address c = false /\ forall draws expiry, ~ presented address draws expiry c) as [Ht Hp].
  { destruct c as [|now draws length email code token]; [by split; [|intros ?? []]|]. cbn [tries_code presented].
    destruct Hc as [Hne|Hl].
    - split; [|by intros ?? [? _]]. destruct code, token; try done. by destruct (String.eqb_spec (of_address email) address).
    - unfold login_credential in Hl. destruct code as [code|], token as [token|]; try done.
      + by split; [|intros ?? (_ & _ & [])].
      + destruct (Z.eqb_spec (str_len code) 6); [done|]. split; [apply andb_false_r|]. by intros ?? (_ & _ & [? _]).
      + split; [done|]. intros ?? (_ & _ & [? _]). by destruct token.
      + by split; [|intros ?? (_ & _ & [])]. }
  pose proof (issued_snoc address calls r c Hi) as Hs. rewrite Ht in Hs. apply Hs. intros draws _ _ H3. by destruct (Hp _ _ H3).
Qed.

(** What consuming a credential does to the live row of its address. *)
Lemma consume_live (now : Z) (email credential : string) (is_code : bool) (m : Mail) (r : LoginToken.t) :
  live (normalize_email email) (email_login_tokens m) = [r] ->
  live (normalize_email email) (email_login_tokens (consume_email_login_token now email credential is_code m).2) =
  if accepts now (normalize_email email) credential is_code r then []
  else [if is_code then LoginToken.add_attempt r else r].
Proof.
  intros Hl. unfold consume_email_login_token.
  rewrite (find_first_live (normalize_email email)) by (intros x Hx; by eapply accepts_unused).
  rewrite Hl. unfold find_first. cbn [find_map].
  destruct (accepts now (normalize_email email) credential is_code r) eqn:Ha; cbn [snd email_login_tokens with_login_tokens].
  - rewrite live_update_first, Hl by (intros x Hx; by eapply accepts_unused). cbn [update_first]. rewrite Ha.
    by rewrite live_cons, unused_for_use.
  - destruct is_code; [|done]. cbn [snd email_login_tokens with_login_tokens]. rewrite live_update_first, Hl by done.
    assert (LoginToken.unused_for (normalize_email email) r = true) as Hr
      by (apply (live_elem _ (email_login_tokens m)); rewrite Hl; by left).
    cbn [update_first]. by rewrite Hr, live_cons, unused_for_add_attempt, Hr.
Qed.

Lemma consume_live_nil (now : Z) (email credential : string) (is_code : bool) (m : Mail) :
  live (normalize_email email) (email_login_tokens m) = [] ->
  live (normalize_email email) (email_login_tokens (consume_email_login_token now email credential is_code m).2) = [].
Proof.
  intros Hl. unfold consume_email_login_token.
  rewrite (find_first_live (normalize_email email)) by (intros x Hx; by eapply accepts_unused).
  rewrite Hl. unfold find_first. cbn [find_map]. destruct is_code; [|done].
  cbn [snd email_login_tokens with_login_tokens]. by rewrite live_update_first, Hl.
Qed.

(** Verifying touches the codes only where it consumes one. *)
Lemma email_user_tokens (now : Z) (draws : MailDraws) (length : Z) (email : string) (invitation : option Z) (m : Mail) :
  email_login_tokens (email_user now draws length email invitation m).2 = email_login_tokens m /\
  email_invitations (email_user now draws length email invitation m).2 = email_invitations m.
Proof.
  unfold email_user. destruct (user_by_email email (directory m)); [done|]. case_match; [|done].
  destruct (create_user _ _ _ _ _ _ _) as [r d]. destruct r as [[created|]|]; [done| |done].
  by destruct (user_by_email email _).
Qed.

Lemma accept_tokens (now id : Z) (m : Mail) : email_login_tokens (accept_email_invitation now id m) = email_login_tokens m.
Proof. unfold accept_email_invitation. by destruct (pending_invitation id m). Qed.

Lemma verify_tokens (now : Z) (draws : MailDraws) (length : Z) (email : string) (code token : option string) (m : Mail) :
  email_login_tokens (verify_email_login now draws length email code token m).2 =
  match login_credential code token with
  | None => email_login_tokens m
  | Some (credential, is_code) =>
      email_login_tokens (consume_email_login_token now (to_ascii_lowercase (str_trim email)) credential is_code m).2
  end.
Proof.
  unfold verify_email_login. set (e := to_ascii_lowercase (str_trim email)).
  destruct (login_credential code token) as [[credential is_code]|]; [|done].
  assert (Hr : email_login_tokens (redeem now e credential is_code m).2 =
               email_login_tokens (consume_email_login_token now e credential is_code m).2).
  { unfold redeem. destruct (consume_email_login_token now e credential is_code m) as [[i|] m1]; [done|].
    destruct is_code; [done|]. by destruct (valid_invitation now e credential m1). }
  destruct (redeem now e credential is_code m) as [[invitation|] m1]; cbn [snd] in Hr; [|done].
  pose proof (proj1 (email_user_tokens now draws length e invitation m1)) as Hu.
  destruct (email_user now draws length e invitation m1) as [[user|answer] m2]; cbn [snd] in Hu; [|cbn [snd]; by rewrite Hu, Hr].
  set (m3 := match invitation with Some id => accept_email_invitation now id m2 | None => m2 end).
  assert (Ha : email_login_tokens m3 = email_login_tokens m2) by (unfold m3; destruct invitation; [apply accept_tokens|done]).
  destruct (create_user_session _ _ _ _ _) as [[[session|]|] d]; cbn [snd email_login_tokens with_directory];
    by rewrite Ha, Hu, Hr.
Qed.

(** Only a sign-in by invitation changes an invitation: it accepts it. *)
Lemma enqueue_tokens (now : Z) (nonces : string * string) (recipient subject body : string) (html : option string) (m : Mail) :
  email_login_tokens (enqueue_email now cipher nonces recipient subject body html m).2 = email_login_tokens m /\
  email_invitations (enqueue_email now cipher nonces recipient subject body html m).2 = email_invitations m.
Proof.
  unfold enqueue_email, store_email. destruct (smtp_settings cipher m) as [[s|]|]; [|done|done].
  destruct (SmtpSettings.enabled s); [|done]. by destruct (result_bind _ _) as [[b h]|].
Qed.

(** A request leaves the codes alone, or stores a new one in place of that of
    the address. *)
Lemma request_live (now : Z) (draws : MailDraws) (base_url : string) (locale : EmailLocale) (peer email : string)
    (token : option string) (m : Mail) :
  let m' := (request_email_login now cipher draws base_url locale registration peer email token m).2 in
  (forall address, address <> of_address email ->
     live address (email_login_tokens m') = live address (email_login_tokens m)) /\
  (live (of_address email) (email_login_tokens m') = live (of_address email) (email_login_tokens m) \/
   live (of_address email) (email_login_tokens m') = [] \/
   exists r, live (of_address email) (email_login_tokens m') = [r] /\
     LoginToken.token_hash r = hash_token (dr_token draws) /\
     LoginToken.code_hash r = hash_token (six_digits (dr_code draws)) /\
     LoginToken.expires_at r = now + RegistrationConfig.email_token_ttl_minutes registration * 60 /\
     LoginToken.attempts r = 0) /\
  email_invitations m' = email_invitations m.
Proof.
  unfold request_email_login, of_address. set (e := to_ascii_lowercase (str_trim email)).
  destruct (negb (valid_user_email e)); [by split_and!; [|left|]|].
  destruct (may_register now registration e token m) as [invitation|]; [|by split_and!; [|left|]].
  unfold allow_email_send. destruct (existsb _ _); [by split_and!; [|left|]|]. cbv iota.
  set (m1 := with_email_limits _ m). unfold store_email_login_token, insert_login_token.
  set (retired := retire_login_tokens now e m1).
  assert (Hr : (forall address, address <> normalize_email e ->
                  live address (email_login_tokens retired) = live address (email_login_tokens m)) /\
               live (normalize_email e) (email_login_tokens retired) = []).
  { split; [intros address Hne; apply live_retire_other; congruence|apply live_retire]. }
  destruct (existsb _ _); [cbn [snd]; split_and!; [apply Hr|right; left; apply Hr|done]|].
  set (row := {| LoginToken.id := _ |}). set (m2 := {| email_invitations := email_invitations retired |}).
  assert (H2 : (forall address, address <> normalize_email e ->
                  live address (email_login_tokens m2) = live address (email_login_tokens m)) /\
               live (normalize_email e) (email_login_tokens m2) = [row]).
  { unfold m2. cbn [email_login_tokens]. split; [intros address Hne|]; rewrite live_cons;
      unfold LoginToken.unused_for; cbn [row LoginToken.email LoginToken.used_at].
    - destruct (String.eqb_spec (normalize_email e) address); [congruence|]. by apply Hr.
    - rewrite String.eqb_refl, bool_decide_eq_true_2 by done. cbn [andb]. by rewrite (proj2 Hr). }
  assert (Hgo : forall m3, email_login_tokens m3 = email_login_tokens m2 -> email_invitations m3 = email_invitations m2 ->
    (forall address, address <> normalize_email e ->
       live address (email_login_tokens m3) = live address (email_login_tokens m)) /\
    (live (normalize_email e) (email_login_tokens m3) = live (normalize_email e) (email_login_tokens m) \/
     live (normalize_email e) (email_login_tokens m3) = [] \/
     exists r, live (normalize_email e) (email_login_tokens m3) = [r] /\
       LoginToken.token_hash r = hash_token (dr_token draws) /\
       LoginToken.code_hash r = hash_token (six_digits (dr_code draws)) /\
       LoginToken.expires_at r = now + RegistrationConfig.email_token_ttl_minutes registration * 60 /\
       LoginToken.attempts r = 0) /\ email_invitations m3 = email_invitations m).
  { intros m3 -> ->. split_and!; [apply H2| |done]. right. right. exists row. by split_and!; [apply H2|..]. }
  destruct (login_link _ _ _ _) as [link|]; [|by apply Hgo]. destruct (login_email locale _ link) as [[subject body] html].
  pose proof (enqueue_tokens now (dr_nonces draws) e subject body (Some html) m2) as [He1 He2].
  destruct (enqueue_email _ _ _ _ _ _ _ m2) as [[u3|a3] m3]; cbn [snd] in *; by apply Hgo.
Qed.

Lemma login_credential_Some (code token : option string) (credential : string) (is_code : bool) :
  login_credential code token = Some (credential, is_code) ->
  if is_code then code = Some credential /\ token = None /\ str_len credential = 6
  else code = None /\ token = Some credential /\ credential <> "".
Proof.
  unfold login_credential. destruct code as [code|], token as [token|]; try done.
  - destruct (Z.eqb_spec (str_len code) 6); [|done]. by intros [= <- <-].
  - destruct token; [done|]. by intros [= <- <-].
Qed.

Lemma tries_code_verify (now : Z) (draws : MailDraws) (length : Z) (email : string) (code token : option string)
    (credential : string) (is_code : bool) :
  login_credential code token = Some (credential, is_code) ->
  tries_code (of_address email) (Verify now draws length email code token) = is_code.
Proof.
  intros Hl. apply login_credential_Some in Hl. destruct is_code; destruct Hl as (-> & -> & Hn); [|done].
  cbn [tries_code]. by rewrite String.eqb_refl, Hn.
Qed.

(** A live row that is not accepted has been tried five times. *)
Lemma refused_exhausted (now : Z) (draws d : MailDraws) (length : Z) (email credential : string) (is_code : bool)
    (code token : option string) (r : LoginToken.t) :
  login_credential code token = Some (credential, is_code) ->
  LoginToken.unused_for (of_address email) r = true ->
  LoginToken.token_hash r = hash_token (dr_token draws) ->
  LoginToken.code_hash r = hash_token (six_digits (dr_code draws)) ->
  accepts now (of_address email) credential is_code r = false ->
  presented (of_address email) draws (LoginToken.expires_at r) (Verify now d length email code token) ->
  5 <= LoginToken.attempts r.
Proof.
  intros Hl Hu Ht Hc Ha (_ & Hlt & Hp). unfold LoginToken.unused_for in Hu. apply andb_prop in Hu as [He Hn].
  unfold accepts in Ha. rewrite He, Hn in Ha. apply login_credential_Some in Hl.
  assert (Hh : ((if is_code then LoginToken.code_hash r else LoginToken.token_hash r) =? hash_token credential)%string = true).
  { apply String.eqb_eq. destruct is_code; destruct Hl as (-> & -> & _); cbn [presents] in Hp; destruct Hp as [_ ->]; done. }
  rewrite Hh in Ha. cbn [andb] in Ha. lia.
Qed.

Lemma issued_step (calls : list EmailCall) (c : EmailCall) (m : Mail) :
  issued_codes calls m -> issued_codes (calls ++ [c]) (email_call c m).2.
Proof.
  intros Hi address. specialize (Hi address).
  destruct c as [now draws base_url locale peer email token|now draws length email code token]; cbn [email_call].
  - destruct (request_live now draws base_url locale peer email token m) as (Ho & Hs & _).
    set (m' := (request_email_login _ _ _ _ _ _ _ _ _ _).2) in *.
    assert (Hkeep : live address (email_login_tokens m') = live address (email_login_tokens m) ->
      match live address (email_login_tokens m') with [] => True
      | [r] => issued address (calls ++ [Ask now draws base_url locale peer email token]) r | _ => False end).
    { intros ->. destruct (live address (email_login_tokens m)) as [|r [|]]; [done| |done]. by apply issued_other. }
    destruct (String.eqb_spec address (of_address email)) as [->|Hne]; [|by apply Hkeep, Ho].
    destruct Hs as [Hs|[Hs|(r & Hs & Ht & Hc & He & Ha)]]; [by apply Hkeep|by rewrite Hs|]. rewrite Hs.
    exists calls, now, draws, base_url, locale, peer, email, token, []. split_and!; try done.
    by intros c ?%not_elem_of_nil.
  - rewrite verify_tokens. destruct (login_credential code token) as [[credential is_code]|] eqn:Hl.
    + destruct (String.eqb_spec (of_address email) address) as [<-|Hne].
      * unfold of_address in Hi |- *. set (e := to_ascii_lowercase (str_trim email)) in *.
        destruct (live (normalize_email e) (email_login_tokens m)) as [|r [|]] eqn:Hv; [|..|done].
        { by rewrite consume_live_nil. }
        rewrite (consume_live _ _ _ _ _ r Hv).
        destruct (accepts now (normalize_email e) credential is_code r) eqn:Ha; [done|].
        rewrite <-(tries_code_verify now draws length email code token credential is_code Hl).
        apply issued_snoc; [exact Hi|]. intros d Ht Hc. eapply refused_exhausted; try done.
        apply (live_elem _ (email_login_tokens m)). unfold of_address. fold e. rewrite Hv. by left.
      * rewrite spent_consume_other by exact Hne.
        destruct (live address (email_login_tokens m)) as [|r [|]]; [done| |done]. apply issued_other; [by left|done].
    + destruct (live address (email_login_tokens m)) as [|r [|]]; [done| |done]. apply issued_other; [by right|done].
Qed.

Lemma run_email_snoc (calls : list EmailCall) (c : EmailCall) (m : Mail) :
  run_email (calls ++ [c]) m = (email_call c (run_email calls m)).2.
Proof. unfold run_email. by rewrite foldl_app. Qed.

Lemma issued_run (calls : list EmailCall) (m0 : Mail) :
  Forall (fun r => LoginToken.used_at r <> None) (email_login_tokens m0) -> issued_codes calls (run_email calls m0).
Proof.
  intros Hz. induction calls as [|c calls IH] using rev_ind; [|rewrite run_email_snoc; by apply issued_step].
  intros address. cbn [run_email foldl]. enough (live address (email_login_tokens m0) = []) as -> by done.
  induction Hz as [|r l Hr _ IH]; [done|]. rewrite live_cons, IH. unfold LoginToken.unused_for.
  by rewrite (bool_decide_eq_false_2 _ Hr), andb_false_r.
Qed.

(** Invitations: a sign-in accepts its own and leaves the others. *)
Lemma accept_lookup (now id id' : Z) (m : Mail) (i : EmailInvitation.t) :
  email_invitations (accept_email_invitation now id m) !! id' = Some i -> EmailInvitation.status i = "pending" ->
  id' <> id /\ email_invitations m !! id' = Some i.
Proof.
  unfold accept_email_invitation, pending_invitation. intros Hi Hp.
  destruct (Z.eqb_spec id' id) as [->|Hne].
  - exfalso. destruct (email_invitations m !! id) as [x|] eqn:Hx; [|congruence].
    destruct (EmailInvitation.pending x) eqn:Hpx.
    + cbn [email_invitations with_email_invitations] in Hi. rewrite lookup_insert_eq in Hi. by injection Hi as <-.
    + rewrite Hx in Hi. injection Hi as ->. unfold EmailInvitation.pending in Hpx. by rewrite Hp in Hpx.
  - split; [done|]. destruct (email_invitations m !! id) as [x|]; [|done].
    destruct (EmailInvitation.pending x); [|done].
    cbn [email_invitations with_email_invitations] in Hi. by rewrite lookup_insert_ne in Hi.
Qed.

Lemma verify_invitations (now : Z) (draws : MailDraws) (length : Z) (email : string) (code token : option string)
    (m : Mail) (id : Z) (i : EmailInvitation.t) :
  email_invitations (verify_email_login now draws length email code token m).2 !! id = Some i ->
  EmailInvitation.status i = "pending" -> email_invitations m !! id = Some i.
Proof.
  unfold verify_email_login. set (e := to_ascii_lowercase (str_trim email)).
  destruct (login_credential code token) as [[credential is_code]|]; [|done].
  assert (Hr : email_invitations (redeem now e credential is_code m).2 = email_invitations m).
  { unfold redeem, consume_email_login_token. destruct (find_first _ _); [done|]. destruct is_code; [done|].
    by destruct (valid_invitation _ _ _ _). }
  destruct (redeem now e credential is_code m) as [[invitation|] m1]; cbn [snd] in Hr |- *; [|by rewrite Hr].
  pose proof (proj2 (email_user_tokens now draws length e invitation m1)) as Hu.
  destruct (email_user now draws length e invitation m1) as [[user|answer] m2]; cbn [snd] in Hu |- *; [|by rewrite Hu, Hr].
  set (m3 := match invitation with Some id => accept_email_invitation now id m2 | None => m2 end).
  intros Hi Hp. assert (H3 : email_invitations m3 !! id = Some i).
  { by destruct (create_user_session _ _ _ _ _) as [[[session|]|] d]. }
  unfold m3 in H3. destruct invitation as [id'|]; [|by rewrite <-Hr, <-Hu].
  apply accept_lookup in H3 as [_ H3]; [|done]. by rewrite <-Hr, <-Hu.
Qed.

Lemma run_invitations (calls : list EmailCall) (m0 : Mail) (id : Z) (i : EmailInvitation.t) :
  email_invitations (run_email calls m0) !! id = Some i -> EmailInvitation.status i = "pending" ->
  email_invitations m0 !! id = Some i.
Proof.
  induction calls as [|c calls IH] using rev_ind; [done|]. rewrite run_email_snoc. intros Hi Hp. apply IH; [|done].
  destruct c; cbn [email_call] in Hi; [|by eapply verify_invitations].
  by rewrite (proj2 (proj2 (request_live _ _ _ _ _ _ _ _))) in Hi.
Qed.

(** C5: Signing in by email, handlers one after the other, takes a credential
    issued for that very address: when a sequence of requests and
    verifications that starts without usable codes ends in a session, then
    either an earlier request asked for a code for the address, the credential
    presented is the code or the link token that this request drew (has its
    hash), it has not expired, it was never presented in time before, and
    fewer than five codes were tried since; or the credential is the token of
    an invitation of the address that was pending and is pending no longer,
    in time.  The session belongs to the enabled account of the address. *)
Theorem email_login_needs_issued_credential (calls : list EmailCall) (m0 : Mail) (now : Z) (draws : MailDraws)
    (length : Z) (email : string) (code token : option string) (session : UserSession) (m' : Mail) :
  Forall (fun r => LoginToken.used_at r <> None) (email_login_tokens m0) ->
  verify_email_login now draws length email code token (run_email calls m0) = (SignedIn session, m') ->
  let address := of_address email in
  ((exists before t asked base_url locale peer email' invitation after,
      calls = before ++ Ask t asked base_url locale peer email' invitation :: after /\
      of_address email' = address /\ presents asked code token /\
      (now < t + RegistrationConfig.email_token_ttl_minutes registration * 60) /\
      (forall c, c ∈ after ->
         ~ presented address asked (t + RegistrationConfig.email_token_ttl_minutes registration * 60) c) /\
      count_if (tries_code address) after < 5) \/
   (exists credential id i,
      code = None /\ token = Some credential /\
      email_invitations m0 !! id = Some i /\ EmailInvitation.email i = address /\
      EmailInvitation.token_hash i = hash_token credential /\
      EmailInvitation.status i = "pending" /\ now < EmailInvitation.expires_at i /\
      forall i', email_invitations m' !! id = Some i' -> EmailInvitation.status i' <> "pending")) /\
  exists u, users (dir_accounts (directory m')) !! ui_user_id (us_identity session) = Some u /\
    User.email u = address /\ user_enabled u = true.
Proof.
  intros Hz Hv address. pose proof (issued_run calls m0 Hz address) as Hi.
  pose proof (run_invitations calls m0) as Hinv. set (m := run_email calls m0) in *.
  unfold verify_email_login in Hv. set (e := to_ascii_lowercase (str_trim email)) in *.
  destruct (login_credential code token) as [[credential is_code]|] eqn:Hl; [|done].
  destruct (redeem now e credential is_code m) as [[invitation|] m1] eqn:Hr; [|done].
  apply redeem_Some in Hr as (Hr & Hd1 & Hm1).
  destruct (email_user now draws length e invitation m1) as [[user|answer] m2] eqn:Hu;
    [|unfold email_user in Hu; repeat case_match; simplify_eq].
  pose proof (proj2 (email_user_tokens now draws length e invitation m1)) as Hm2. rewrite Hu in Hm2. cbn [snd] in Hm2.
  apply email_user_email in Hu as (u & Hu & He).
  set (m3 := match invitation with Some id => accept_email_invitation now id m2 | None => m2 end) in *.
  destruct (create_user_session _ _ _ _ _) as [r d] eqn:Hc. apply create_user_session_spec in Hc as (Ha & _ & Hc).
  unfold m3 in Ha, Hc. rewrite accept_directory in Ha, Hc. fold m3 in Hv.
  destruct r as [[s|]|]; [|done|done]. injection Hv as <- <-.
  destruct Hc as (u' & Hu' & Hen & Hid). split.
  - destruct Hr as [Hr|(-> & id & i & -> & Hi2 & Hie & Hih & Hip & Hix)].
    + left. apply Exists_exists in Hr as (r & Hin & Hacc).
      assert (Hrl : r ∈ live address (email_login_tokens m)).
      { unfold live. apply list_elem_of_In, filter_In. split; [by apply list_elem_of_In|].
        by apply accepts_unused in Hacc as [? _]. }
      destruct (live address (email_login_tokens m)) as [|x [|]]; [by apply not_elem_of_nil in Hrl| |done].
      apply list_elem_of_singleton in Hrl as <-.
      destruct Hi as (before & t & asked & base_url & locale & peer & email' & inv & after & -> & Ho & Ht & Hch & Hx & Hn & Hp).
      unfold accepts in Hacc. rewrite !andb_true_iff in Hacc. destruct Hacc as [[[[_ Hh] _] Hlt] Hat].
      apply String.eqb_eq in Hh. apply login_credential_Some in Hl.
      exists before, t, asked, base_url, locale, peer, email', inv, after. rewrite <-Hx, <-Hn. split_and!; [done|done| |lia| |lia].
      * destruct is_code; destruct Hl as (-> & -> & Hne); cbn [presents]; (split; [done|congruence]).
      * intros c Hc Hpr. specialize (Hp c Hc Hpr). lia.
    + right. apply login_credential_Some in Hl as (-> & -> & _). exists credential, id, i.
      split_and!; try done; [by apply Hinv|]. intros i' Hi' Hp.
      unfold m3 in Hi'. apply (accept_lookup now id id m2 i') in Hi' as [? _]; [done|done].
  - rewrite Hid. cbn [ui_user_id identity_of]. exists u. assert (u' = u) as -> by congruence. cbn. by rewrite Ha.
Qed.

(** The tables an address is looked up in. *)
Definition same_people (d d' : Directory) : Prop :=
  users (dir_accounts d') = users (dir_accounts d) /\ user_routing_ids d' = user_routing_ids d.

Lemma user_by_email_same (email email' : string) (d d' : Directory) :
  same_people d d' -> normalize_email email' = normalize_email email -> user_by_email email' d' = user_by_email email d.
Proof.
  intros [Hu Hr] He. unfold user_by_email. rewrite Hu, He. f_equal. unfold user_account, active_routing_id.
  by rewrite Hu, Hr.
Qed.

(** Every code that is out belongs to an account. *)
Definition known_codes (m : Mail) : Prop :=
  Forall (fun r => LoginToken.used_at r = None ->
    exists email, LoginToken.email r = normalize_email email /\ is_Some (user_by_email email (directory m)))
    (email_login_tokens m).

Definition no_invitations (m : Mail) : Prop :=
  forall id i, email_invitations m !! id = Some i -> EmailInvitation.status i <> "pending".

Lemma known_codes_same (m m' : Mail) :
  same_people (directory m) (directory m') -> email_login_tokens m' = email_login_tokens m -> known_codes m -> known_codes m'.
Proof.
  unfold known_codes. intros Hd -> Hk. eapply Forall_impl; [exact Hk|]. intros r Hr Hu. destruct (Hr Hu) as (email & He & Hs).
  exists email. by rewrite (user_by_email_same _ _ _ _ Hd eq_refl).
Qed.

Lemma known_codes_update (p : LoginToken.t -> bool) (f : LoginToken.t -> LoginToken.t) (m : Mail) :
  (forall r, LoginToken.used_at (f r) = None -> LoginToken.used_at r = None /\ LoginToken.email (f r) = LoginToken.email r) ->
  known_codes m -> known_codes (with_login_tokens (update_first p f) m).
Proof.
  unfold known_codes. cbn [email_login_tokens directory with_login_tokens]. intros Hf.
  induction 1 as [|r l Hr Hl IH]; [constructor|]. cbn [update_first].
  destruct (p r); constructor; try done.
  intros Hu. destruct (Hf r Hu) as [Hu' ->]. auto.
Qed.

Lemma enqueue_keeps (now : Z) (nonces : string * string) (recipient subject body : string) (html : option string) (m : Mail) :
  let m' := (enqueue_email now cipher nonces recipient subject body html m).2 in
  directory m' = directory m /\ email_login_tokens m' = email_login_tokens m /\ email_invitations m' = email_invitations m.
Proof.
  unfold enqueue_email, store_email. destruct (smtp_settings cipher m) as [[s|]|]; [|done|done].
  destruct (SmtpSettings.enabled s); [|done]. by destruct (result_bind _ _) as [[b h]|].
Qed.

Definition closed (m : Mail) : Prop := no_invitations m /\ known_codes m.

Lemma valid_invitation_none (now : Z) (email token : string) (m : Mail) :
  no_invitations m -> valid_invitation now email token m = None.
Proof.
  intros Hn. destruct (valid_invitation now email token m) as [id|] eqn:Hv; [|done].
  apply valid_invitation_Some in Hv as (i & Hi & _ & _ & Hp & _). by destruct (Hn id i Hi).
Qed.

Lemma may_register_known (now : Z) (email : string) (token : option string) (m : Mail) (invitation : option Z) :
  RegistrationConfig.mode registration <> "open" -> RegistrationConfig.mode registration <> "domain_allowlist" ->
  no_invitations m -> may_register now registration email token m = Some invitation ->
  is_Some (user_by_email email (directory m)).
Proof.
  intros Ho Ha Hn. unfold may_register. destruct (user_by_email email (directory m)) as [user|]; [by eexists|].
  apply String.eqb_neq in Ho, Ha. rewrite Ho, Ha. cbn [andb].
  destruct (_ =? "invite_only")%string; [|done]. destruct token as [token|]; [|done]. by rewrite valid_invitation_none.
Qed.

Lemma store_keeps (now : Z) (email token code : string) (invitation : option Z) (expires_at : Z) (m : Mail) :
  is_Some (user_by_email email (directory m)) -> closed m ->
  let m' := (store_email_login_token now email token code invitation expires_at m).2 in
  closed m' /\ directory m' = directory m.
Proof.
  intros Hu [Hn Hk]. unfold store_email_login_token, insert_login_token.
  assert (Hr : known_codes (retire_login_tokens now email m)).
  { unfold known_codes in *. cbn [email_login_tokens retire_login_tokens with_login_tokens directory]. apply Forall_fmap.
    eapply Forall_impl; [exact Hk|]. intros r Hr. cbn. by destruct (LoginToken.unused_for _ r). }
  destruct (existsb _ _); [done|]. split; [|done]. split; [done|]. constructor; [|exact Hr].
  intros _. by exists email.
Qed.

Lemma request_keeps (now : Z) (draws : MailDraws) (base_url : string) (locale : EmailLocale) (peer email : string)
    (token : option string) (m : Mail) :
  RegistrationConfig.mode registration <> "open" -> RegistrationConfig.mode registration <> "domain_allowlist" ->
  closed m ->
  let m' := (request_email_login now cipher draws base_url locale registration peer email token m).2 in
  closed m' /\ directory m' = directory m.
Proof.
  intros Ho Ha Hc. unfold request_email_login. set (e := to_ascii_lowercase (str_trim email)).
  destruct (negb (valid_user_email e)); [done|].
  destruct (may_register now registration e token m) as [invitation|] eqn:Hm; [|done].
  apply may_register_known in Hm; [|done|done|apply Hc].
  unfold allow_email_send. destruct (existsb _ _); [done|]. cbv iota.
  set (m1 := with_email_limits _ m).
  assert (Hc1 : closed m1) by exact Hc.
  destruct (store_keeps now e (dr_token draws) (six_digits (dr_code draws)) invitation
    (now + RegistrationConfig.email_token_ttl_minutes registration * 60) m1 Hm Hc1) as [Hc2 Hd2].
  destruct (store_email_login_token _ _ _ _ _ _ m1) as [[u|e2] m2]; cbn [snd] in Hc2, Hd2; [|done].
  destruct (login_link _ _ _ _) as [link|]; [|done]. destruct (login_email locale _ link) as [[subject body] html].
  destruct (enqueue_keeps now (dr_nonces draws) e subject body (Some html) m2) as (Hd3 & Ht3 & Hi3).
  destruct (enqueue_email _ _ _ _ _ _ _ m2) as [[u3|a3] m3]; cbn [snd] in *;
    (split; [|by rewrite Hd3, Hd2]); destruct Hc2 as [Hn2 Hk2]; (split; [unfold no_invitations; by rewrite Hi3|]);
    (eapply known_codes_same; [|exact Ht3|exact Hk2]); by rewrite Hd3.
Qed.

Lemma redeem_keeps (now : Z) (email credential : string) (is_code : bool) (m : Mail) :
  closed m -> closed (redeem now email credential is_code m).2.
Proof.
  intros [Hn Hk]. unfold redeem, consume_email_login_token. destruct (find_first _ _) as [row|].
  - split; [exact Hn|]. by apply known_codes_update.
  - destruct is_code; [|by rewrite valid_invitation_none]. split; [exact Hn|]. by apply known_codes_update.
Qed.

Lemma redeem_known (now : Z) (email credential : string) (is_code : bool) (m m' : Mail) (invitation : option Z) :
  closed m -> redeem now email credential is_code m = (Some invitation, m') -> is_Some (user_by_email email (directory m')).
Proof.
  intros [Hn Hk] Hr. apply redeem_Some in Hr as ([Ht|(_ & id & i & _ & Hi & _ & _ & Hp & _)] & Hd & _);
    [|by destruct (Hn id i Hi)].
  apply Exists_exists in Ht as (r & Hin & Ha). unfold known_codes in Hk. rewrite Forall_forall in Hk.
  apply accepts_unused in Ha as [Ha _]. unfold LoginToken.unused_for in Ha. apply andb_prop in Ha as [He Hu].
  apply String.eqb_eq in He. apply bool_decide_eq_true in Hu. destruct (Hk r Hin Hu) as (email' & He' & Hs).
  rewrite Hd, (user_by_email_same email' email _ _ (conj eq_refl eq_refl)) by congruence. done.
Qed.

Lemma verify_keeps (now : Z) (draws : MailDraws) (length : Z) (email : string) (code token : option string) (m : Mail) :
  closed m ->
  let m' := (verify_email_login now draws length email code token m).2 in
  closed m' /\ same_people (directory m) (directory m').
Proof.
  intros Hc. unfold verify_email_login. set (e := to_ascii_lowercase (str_trim email)).
  destruct (login_credential code token) as [[credential is_code]|]; [|done].
  pose proof (redeem_directory now e credential is_code m) as Hd1. pose proof (redeem_keeps now e credential is_code m Hc) as Hc1.
  destruct (redeem now e credential is_code m) as [[invitation|] m1] eqn:Hr; cbn [snd] in *;
    [|split; [done|by rewrite Hd1]].
  apply redeem_known in Hr as [user Hu]; [|done]. unfold email_user. rewrite Hu.
  set (m2 := match invitation with Some id => accept_email_invitation now id m1 | None => m1 end).
  assert (Hc2 : closed m2 /\ directory m2 = directory m1).
  { unfold m2. destruct invitation as [id|]; [|done]. unfold accept_email_invitation, pending_invitation.
    destruct (email_invitations m1 !! id) as [i|] eqn:Hi; [|done]. destruct (EmailInvitation.pending i) eqn:Hp; [|done].
    exfalso. apply String.eqb_eq in Hp. by apply (proj1 Hc1 id i). }
  destruct Hc2 as [Hc2 Hd2].
  destruct (create_user_session _ _ _ _ _) as [r d] eqn:Hs. apply create_user_session_spec in Hs as (Ha & Hro & _).
  assert (same_people (directory m) d) as Hsame by (split; [by rewrite Ha, Hd2, Hd1|by rewrite Hro, Hd2, Hd1]).
  assert (forall d', same_people d d' -> closed (with_directory (fun _ => d') m2) /\ same_people (directory m) d') as Hgo.
  { intros d' [Hs1 Hs2]. split; [|by split; [rewrite Hs1; apply Hsame|rewrite Hs2; apply Hsame]].
    split; [exact (proj1 Hc2)|]. eapply (known_codes_same m2); [|done|exact (proj2 Hc2)].
    cbn [directory with_directory]. split; [by rewrite Hs1, Ha|by rewrite Hs2, Hro]. }
  destruct r as [[session|]|]; [apply (Hgo (audit_user_login now (ua_id user) "email" d)); done| |]; by apply (Hgo d).
Qed.

(** While registration is closed and no invitation or code for a stranger
    is out, no sequence of requests and verifications adds, removes or changes
    an account or a routing id. *)
Theorem closed_registration_adds_no_account (calls : list EmailCall) (m : Mail) :
  RegistrationConfig.mode registration <> "open" -> RegistrationConfig.mode registration <> "domain_allowlist" ->
  (forall id i, email_invitations m !! id = Some i -> EmailInvitation.status i <> "pending") ->
  Forall (fun r => LoginToken.used_at r <> None) (email_login_tokens m) ->
  same_people (directory m) (directory (run_email calls m)).
Proof.
  intros Ho Ha Hi Ht. assert (Hc : closed m).
  { split; [exact Hi|]. eapply Forall_impl; [exact Ht|]. naive_solver. }
  clear Hi Ht. revert m Hc. induction calls as [|c calls IH]; intros m Hc; [done|]. cbn [run_email foldl].
  assert (closed (email_call c m).2 /\ same_people (directory m) (directory (email_call c m).2)) as [Hc1 [Hs1 Hs2]].
  { destruct c; cbn [email_call]; [|by apply verify_keeps]. edestruct request_keeps as [Hc1 Hd1]; [exact Ho|exact Ha|exact Hc|].
    split; [exact Hc1|by rewrite Hd1]. }
  destruct (IH _ Hc1) as [Hs3 Hs4]. split; [unfold run_email in Hs3; by rewrite Hs3|unfold run_email in Hs4; by rewrite Hs4].
Qed.
End FlowTheorems.

(** A soft-deleted account keeps its address: a code for it is accepted, no
    account can be created and none is found, and the answer is an internal
    error. *)
Lemma deleted_account_sign_in_fails `{SecretApi} (now : Z) (draws : MailDraws) (length : Z) (email credential : string)
    (m m1 : Mail) :
  let address := to_ascii_lowercase (str_trim email) in
  login_credential (Some credential) None = Some (credential, true) ->
  redeem now address credential true m = (Some None, m1) ->
  user_by_email address (directory m) = None ->
  user_conflict None (normalize_email address) (dir_accounts (directory m)) = true ->
  (verify_email_login now draws length email (Some credential) None m).1 = InternalError.
Proof.
  intros address Hlc Hr Hu Hc. unfold verify_email_login. rewrite Hlc. fold address.
  pose proof (redeem_directory now address credential true m) as Hd. rewrite Hr in *. cbn [snd] in Hd.
  unfold email_user. rewrite Hd, Hu.
  destruct (head (str_split "@" address)) as [name|] eqn:Hh.
  - unfold create_user, insert_user. rewrite Hc. cbn [directory with_directory]. by rewrite Hu.
  - destruct (str_split "@" address) eqn:Hs; [|done]. by apply str_split_nonempty in Hs.
Qed.

(** A link that is escaped cannot leave the attribute it is printed in. *)
Definition attribute_safe (c : ascii) : bool :=
  negb (Ascii.eqb c (ascii_of_nat 34) || Ascii.eqb c "<" || Ascii.eqb c ">").

Lemma replace_char_all (p : ascii -> bool) (c : ascii) (by_ s : string) :
  all_bytes p by_ = true -> all_bytes (fun x => Ascii.eqb x c || p x) s = true -> all_bytes p (replace_char c by_ s) = true.
Proof.
  intros Hb. induction s as [|x s IH]; [done|]. cbn [all_bytes replace_char]. intros [Hx Hs]%andb_prop.
  destruct (Ascii.eqb x c); [by rewrite all_bytes_app, Hb, IH|]. cbn [all_bytes]. cbn in Hx. by rewrite Hx, IH.
Qed.

Lemma html_escape_safe (value : string) : all_bytes attribute_safe (html_escape value) = true.
Proof.
  unfold html_escape. apply replace_char_all; [done|].
  apply replace_char_all; [done|]. apply replace_char_all; [done|].
  apply replace_char_all; [done|]. induction value as [|x s IH]; [done|]. cbn [all_bytes]. rewrite IH.
  unfold attribute_safe. by destruct (Ascii.eqb x (ascii_of_nat 34)), (Ascii.eqb x "<"), (Ascii.eqb x ">"), (Ascii.eqb x "&").
Qed.

(** ** The outbox delivers at most once *)

Section OutboxTheorems.
Context `{SecretApi} `{CipherApi} `{LinkApi}.
Variable cipher : option string.

Inductive OutboxStep : Type :=
| Enqueue (now : Z) (nonces : string * string) (recipient subject body : string) (html : option string)
| Round (now : Z) (delivers : Z -> bool).

Definition outbox_step (s : OutboxStep) (m : Mail) : list (Z * bool) * Mail :=
  match s with
  | Enqueue now nonces recipient subject body html =>
      ([], (enqueue_email now cipher nonces recipient subject body html m).2)
  | Round now delivers => process_email_outbox now cipher delivers m
  end.

Fixpoint run_outbox (steps : list OutboxStep) (m : Mail) : list (Z * bool) * Mail :=
  match steps with
  | [] => ([], m)
  | s :: rest =>
      let '(log, m) := outbox_step s m in
      let '(log', m) := run_outbox rest m in (log ++ log', m)
  end.

(** How often a message was handed to the relay, and taken. *)
Definition tries (id : Z) (log : list (Z * bool)) : Z := count_if (fun e => e.1 =? id) log.
Definition taken (id : Z) (log : list (Z * bool)) : Z := count_if (fun e => (e.1 =? id) && e.2) log.

Lemma count_if_app {A} (p : A -> bool) (a b : list A) : count_if p (a ++ b) = count_if p a + count_if p b.
Proof. unfold count_if. rewrite List.filter_app, length_app. lia. Qed.

Definition message_ok (log : list (Z * bool)) (x : OutboxMessage.t) : Prop :=
  let id := OutboxMessage.id x in
  if (OutboxMessage.status x =? "pending")%string
  then tries id log = OutboxMessage.attempts x /\ OutboxMessage.attempts x < MAIL_ATTEMPTS /\ taken id log = 0
  else tries id log <= MAIL_ATTEMPTS /\ taken id log <= 1.

Definition outbox_ok (log : list (Z * bool)) (m : Mail) : Prop :=
  NoDup (OutboxMessage.id <$> email_outbox m) /\
  Forall (fun x => OutboxMessage.id x < next_outbox_message m /\ message_ok log x) (email_outbox m) /\
  Forall (fun e => e.1 ∈ OutboxMessage.id <$> email_outbox m) log.

Definition on_message (id : Z) (f : OutboxMessage.t -> OutboxMessage.t) (l : list OutboxMessage.t) : list OutboxMessage.t :=
  (fun x => if OutboxMessage.id x =? id then f x else x) <$> l.

Lemma on_message_ids (id : Z) (f : OutboxMessage.t -> OutboxMessage.t) (l : list OutboxMessage.t) :
  (forall x, OutboxMessage.id (f x) = OutboxMessage.id x) ->
  OutboxMessage.id <$> on_message id f l = OutboxMessage.id <$> l.
Proof.
  intros Hf. unfold on_message. rewrite <-list_fmap_compose. apply list_fmap_ext. intros i x _. cbn. by case_match.
Qed.

Lemma NoDup_id (l : list OutboxMessage.t) (x y : OutboxMessage.t) :
  NoDup (OutboxMessage.id <$> l) -> x ∈ l -> y ∈ l -> OutboxMessage.id x = OutboxMessage.id y -> x = y.
Proof.
  induction l as [|z l IH]; [by intros _ ?%not_elem_of_nil|]. cbn [fmap list_fmap]. intros [Hz Hnd]%NoDup_cons Hx Hy Heq.
  apply elem_of_cons in Hx, Hy. destruct Hx as [->|Hx], Hy as [->|Hy]; auto; exfalso; apply Hz.
  - rewrite Heq. by apply list_elem_of_fmap_2.
  - rewrite <-Heq. by apply list_elem_of_fmap_2.
Qed.

(** One message of a round. *)
Definition deliver_one (now : Z) (delivers : Z -> bool) (item : OutboxMessage.t) (m : Mail) : Mail :=
  if delivers (OutboxMessage.id item) then mark_outbox_sent now (OutboxMessage.id item) m
  else mark_outbox_failed now (OutboxMessage.id item) (OutboxMessage.attempts item + 1) "SMTP delivery failed" m.

Lemma deliver_one_outbox (now : Z) (delivers : Z -> bool) (item : OutboxMessage.t) (m : Mail) :
  exists f, email_outbox (deliver_one now delivers item m) = on_message (OutboxMessage.id item) f (email_outbox m) /\
    next_outbox_message (deliver_one now delivers item m) = next_outbox_message m /\
    (forall x, OutboxMessage.id (f x) = OutboxMessage.id x) /\
    forall log, OutboxMessage.status item = "pending" -> message_ok log item ->
      message_ok (log ++ [(OutboxMessage.id item, delivers (OutboxMessage.id item))]) (f item).
Proof.
  set (id := OutboxMessage.id item). unfold deliver_one. fold id. destruct (delivers id) eqn:Hd.
  - exists (OutboxMessage.sent now). split_and!; try done. intros log Hp. unfold message_ok. rewrite Hp. cbn.
    fold id. intros (Ht & Ha & Hk). unfold tries, taken in *. rewrite !count_if_app.
    assert (count_if (fun e => e.1 =? id) [(id, true)] = 1) as -> by (unfold count_if; cbn; by rewrite Z.eqb_refl).
    assert (count_if (fun e => (e.1 =? id) && e.2) [(id, true)] = 1) as -> by (unfold count_if; cbn; by rewrite Z.eqb_refl).
    unfold MAIL_ATTEMPTS in *. lia.
  - set (n := OutboxMessage.attempts item + 1).
    exists (OutboxMessage.failed (if MAIL_ATTEMPTS <=? n then "failed" else "pending") n
              (now + sat_mul_i64 30 (Z.shiftl 1 (Z.min n 6))) "SMTP delivery failed").
    split_and!; try done. intros log Hp. unfold message_ok. rewrite Hp. cbn [OutboxMessage.status OutboxMessage.failed
      OutboxMessage.id OutboxMessage.attempts]. fold id. intros (Ht & Ha & Hk). unfold tries, taken in *. rewrite !count_if_app.
    assert (count_if (fun e => e.1 =? id) [(id, false)] = 1) as -> by (unfold count_if; cbn; by rewrite Z.eqb_refl).
    assert (count_if (fun e => (e.1 =? id) && e.2) [(id, false)] = 0) as -> by (unfold count_if; cbn; by rewrite andb_false_r).
    change ("pending" =? "pending")%string with true in *. cbv iota in *.
    destruct (Z.leb_spec MAIL_ATTEMPTS n); cbn; unfold MAIL_ATTEMPTS, n in *; lia.
Qed.

Lemma message_ok_other (log : list (Z * bool)) (id : Z) (ok : bool) (x : OutboxMessage.t) :
  OutboxMessage.id x <> id -> message_ok log x -> message_ok (log ++ [(id, ok)]) x.
Proof.
  intros Hne. unfold message_ok, tries, taken. rewrite !count_if_app.
  assert (forall p : Z * bool -> bool, (p (id, ok) = false) -> count_if p [(id, ok)] = 0) as Hz
    by (intros p Hp; unfold count_if; cbn; by rewrite Hp).
  assert ((id =? OutboxMessage.id x) = false) as Hid by lia.
  rewrite !Hz by (cbn; by rewrite Hid). by rewrite !Z.add_0_r.
Qed.

Lemma deliver_one_ok (now : Z) (delivers : Z -> bool) (item : OutboxMessage.t) (log : list (Z * bool)) (m : Mail) :
  outbox_ok log m -> item ∈ email_outbox m -> OutboxMessage.status item = "pending" ->
  outbox_ok (log ++ [(OutboxMessage.id item, delivers (OutboxMessage.id item))]) (deliver_one now delivers item m) /\
  forall y, y ∈ email_outbox m -> OutboxMessage.id y <> OutboxMessage.id item ->
            y ∈ email_outbox (deliver_one now delivers item m).
Proof.
  intros (Hnd & Hall & Hlog) Hin Hp.
  destruct (deliver_one_outbox now delivers item m) as (f & Hout & Hnext & Hf & Hok).
  unfold outbox_ok. rewrite Hout, Hnext, on_message_ids by done. rewrite Forall_forall in Hall. split_and!.
  - done.
  - apply Forall_forall. intros y Hy. unfold on_message in Hy. apply list_elem_of_fmap in Hy as (x & -> & Hx).
    destruct (Z.eqb_spec (OutboxMessage.id x) (OutboxMessage.id item)) as [He|Hne].
    + assert (x = item) as -> by (by eapply NoDup_id). destruct (Hall item Hin) as [Hlt Hm]. rewrite Hf. auto.
    + destruct (Hall x Hx) as [Hlt Hm]. split; [done|]. by apply message_ok_other.
  - apply Forall_app. split; [done|]. constructor; [by apply (list_elem_of_fmap_2 OutboxMessage.id)|constructor].
  - intros y Hy Hne. unfold on_message. apply list_elem_of_fmap. exists y. split; [|done].
    by destruct (Z.eqb_spec (OutboxMessage.id y) (OutboxMessage.id item)).
Qed.

Lemma deliver_all_ok (now : Z) (delivers : Z -> bool) (items : list OutboxMessage.t) : forall log m,
  outbox_ok log m -> NoDup (OutboxMessage.id <$> items) ->
  Forall (fun x => x ∈ email_outbox m /\ OutboxMessage.status x = "pending") items ->
  outbox_ok (log ++ (deliver_all now delivers items m).1) (deliver_all now delivers items m).2.
Proof.
  induction items as [|item items IH]; intros log m Hok Hnd Hin; [by rewrite app_nil_r|].
  apply Forall_cons in Hin as [[Hi Hp] Hin]. apply NoDup_cons in Hnd as [Hni Hnd].
  destruct (deliver_one_ok now delivers item log m Hok Hi Hp) as [Hok' Hkeep]. cbn [deliver_all].
  fold (deliver_one now delivers item m). specialize (IH _ _ Hok' Hnd).
  destruct (deliver_all now delivers items (deliver_one now delivers item m)) as [log' m']. cbn [fst snd] in *.
  rewrite <-app_assoc in IH. apply IH. apply Forall_forall. intros y Hy. rewrite Forall_forall in Hin.
  destruct (Hin y Hy) as [Hy1 Hy2]. split; [|done]. apply Hkeep; [done|]. intros He. apply Hni. rewrite <-He.
  by apply list_elem_of_fmap_2.
Qed.

Lemma sublist_ids (p : OutboxMessage.t -> bool) (n : nat) (l : list OutboxMessage.t) :
  NoDup (OutboxMessage.id <$> l) -> NoDup (OutboxMessage.id <$> firstn n (List.filter p l)).
Proof.
  revert n. induction l as [|x l IH]; intros n; [by destruct n|]. cbn [fmap list_fmap]. intros [Hx Hnd]%NoDup_cons.
  cbn [List.filter]. destruct (p x); [|by apply IH]. destruct n as [|n]; [constructor|]. cbn [firstn fmap list_fmap].
  apply NoDup_cons. split; [|by apply IH]. intros Hin. apply Hx. apply list_elem_of_fmap in Hin as (y & -> & Hy).
  apply list_elem_of_fmap_2. apply (subseteq_take n) in Hy. apply list_elem_of_In, filter_In in Hy as [Hy _].
  by apply list_elem_of_In.
Qed.

Lemma pending_items (now : Z) (n : nat) (m : Mail) :
  Forall (fun x => x ∈ email_outbox m /\ OutboxMessage.status x = "pending") (pending_outbox now n m).
Proof.
  apply Forall_forall. intros x Hx. unfold pending_outbox in Hx. apply (subseteq_take n) in Hx.
  apply list_elem_of_In, filter_In in Hx as [Hx Hp]. unfold pending_message in Hp. apply andb_prop in Hp as [Hp _].
  split; [by apply list_elem_of_In|by apply String.eqb_eq].
Qed.

Lemma enqueue_ok (log : list (Z * bool)) (now : Z) (nonces : string * string) (recipient subject body : string)
    (html : option string) (m : Mail) :
  outbox_ok log m -> outbox_ok log (enqueue_email now cipher nonces recipient subject body html m).2.
Proof.
  intros (Hnd & Hall & Hlog). unfold enqueue_email, store_email.
  destruct (smtp_settings cipher m) as [[s|]|]; [|done|done]. destruct (SmtpSettings.enabled s); [|done].
  destruct (result_bind _ _) as [[b h]|]; [|done]. unfold outbox_ok. cbn [snd email_outbox insert_message next_outbox_message].
  rewrite fmap_app. assert (forall i, i ∈ OutboxMessage.id <$> email_outbox m -> i < next_outbox_message m) as Hlt.
  { intros i Hi. apply list_elem_of_fmap in Hi as (x & -> & Hx). rewrite Forall_forall in Hall. by destruct (Hall x Hx). }
  split_and!.
  - apply NoDup_app. split; [done|]. split; [|apply NoDup_singleton].
    intros i Hi Hn. apply list_elem_of_singleton in Hn. cbn in Hn. specialize (Hlt i Hi). lia.
  - apply Forall_app. split.
    { eapply Forall_impl; [exact Hall|]. intros x [Hx Hm]. split; [lia|done]. }
    constructor; [|constructor]. split; [cbn; lia|].
    assert (forall p : Z * bool -> bool, (forall e, p e = true -> e.1 = next_outbox_message m) -> count_if p log = 0) as Hz.
    { intros p Hp. unfold count_if. destruct (List.filter p log) as [|e l] eqn:E; [done|].
      assert (In e (List.filter p log)) as Hin by (rewrite E; by left). apply filter_In in Hin as [Hin Hpe].
      rewrite Forall_forall in Hlog. apply list_elem_of_In in Hin. specialize (Hlt _ (Hlog e Hin)). specialize (Hp e Hpe). lia. }
    unfold message_ok, tries, taken. cbn. rewrite !Hz; [unfold MAIL_ATTEMPTS; lia| |]; intros e He; lia.
  - eapply Forall_impl; [exact Hlog|]. intros e He. apply elem_of_app. by left.
Qed.

Lemma step_ok (s : OutboxStep) (log : list (Z * bool)) (m : Mail) :
  outbox_ok log m -> outbox_ok (log ++ (outbox_step s m).1) (outbox_step s m).2.
Proof.
  intros Hok. destruct s as [now nonces recipient subject body html|now delivers]; cbn [outbox_step].
  - cbn [fst snd]. rewrite app_nil_r. by apply enqueue_ok.
  - unfold process_email_outbox. destruct (smtp_settings cipher m) as [[s|]|]; try (cbn; by rewrite app_nil_r).
    destruct (_ && _); [|cbn; by rewrite app_nil_r]. apply deliver_all_ok; [done| |apply pending_items].
    apply sublist_ids, Hok.
Qed.

(** However messages are queued and rounds of the worker go, no message is
    handed to the relay more than five times, and none is taken by it twice. *)
Theorem outbox_delivers_at_most_once (steps : list OutboxStep) (m : Mail) (id : Z) :
  email_outbox m = [] ->
  let log := (run_outbox steps m).1 in tries id log <= MAIL_ATTEMPTS /\ taken id log <= 1.
Proof.
  intros Hempty log. unfold log.
  assert (Hrun : forall steps log m, outbox_ok log m ->
    outbox_ok (log ++ (run_outbox steps m).1) (run_outbox steps m).2).
  { clear. induction steps as [|s steps IH]; intros log m Hok; [cbn; by rewrite app_nil_r|]. cbn [run_outbox].
    pose proof (step_ok s log m Hok) as Hs. destruct (outbox_step s m) as [l1 m1]. cbn [fst snd] in Hs.
    specialize (IH _ _ Hs). destruct (run_outbox steps m1) as [l2 m2]. cbn [fst snd] in *. by rewrite app_assoc. }
  assert (outbox_ok [] m) as Hok by (unfold outbox_ok; rewrite Hempty; split_and!; constructor).
  destruct (Hrun steps [] m Hok) as (Hnd & Hall & Hlog). rewrite app_nil_l in *.
  destruct (run_outbox steps m) as [l m']. cbn [fst snd] in *. clear Hrun Hok.
  destruct (decide (id ∈ OutboxMessage.id <$> email_outbox m')) as [Hin|Hni].
  - apply list_elem_of_fmap in Hin as (x & -> & Hx). rewrite Forall_forall in Hall. destruct (Hall x Hx) as [_ Hm].
    unfold message_ok in Hm. destruct (_ =? "pending")%string; [|done]. lia.
  - assert (forall p : Z * bool -> bool, (forall e, p e = true -> e.1 = id) -> count_if p l = 0) as Hz.
    { intros p Hp. unfold count_if. destruct (List.filter p l) as [|e l'] eqn:E; [done|].
      assert (In e (List.filter p l)) as Hin by (rewrite E; by left). apply filter_In in Hin as [Hin Hpe].
      rewrite Forall_forall in Hlog. apply list_elem_of_In in Hin. specialize (Hlog e Hin). rewrite (Hp e Hpe) in Hlog. done. }
    unfold tries, taken. rewrite !Hz; [unfold MAIL_ATTEMPTS; lia| |]; intros e He; lia.
Qed.
End OutboxTheorems.

(** ** Witnesses *)

#[export] Instance SampleLinks : LinkApi := {|
  link_with_query base path pairs := Some (base +:+ path +:+ "?" +:+ str_join "&" ((fun p => p.1 +:+ "=" +:+ p.2) <$> pairs));
  format_expiry _ := None;
|}.

Definition sample_draws : MailDraws :=
  {| dr_token := "link"; dr_code := 42; dr_nonces := (sample_nonce, sample_nonce); dr_routing := [7; 8; 9] |}.

Definition configured_mail : Mail := with_smtp (set_password None default_smtp_settings) sample_mail.

Lemma closed_registration_adds_no_account_witness :
  let registration := {| RegistrationConfig.mode := "disabled"; RegistrationConfig.allowed_email_domains := [];
                         RegistrationConfig.email_token_ttl_minutes := 10 |} in
  same_people (directory configured_mail) (directory (run_email None registration
    [Ask 1 sample_draws "https://mirror.example" En "192.0.2.1" "new@example.com" None;
     Verify 2 sample_draws 8 "new@example.com" (Some "000042") None] configured_mail)).
Proof.
  apply closed_registration_adds_no_account; [discriminate|discriminate|intros id i Hi|constructor].
  change (email_invitations configured_mail) with (∅ : gmap Z EmailInvitation.t) in Hi. by rewrite lookup_empty in Hi.
Defined.

Definition enabled_smtp : SmtpSettings.t := {|
  SmtpSettings.enabled := true; SmtpSettings.host := "smtp.example"; SmtpSettings.port := 587;
  SmtpSettings.security := "starttls"; SmtpSettings.username := None; SmtpSettings.password := None;
  SmtpSettings.from_name := "M"; SmtpSettings.from_address := "m@example.com" |}.

Lemma outbox_delivers_at_most_once_witness :
  let log := (run_outbox None
    [Enqueue 0 (sample_nonce, sample_nonce) "ann@example.com" "s" "b" None; Round 0 (fun _ => false);
     Round 100 (fun _ => false); Round 300 (fun _ => true); Round 900 (fun _ => true)] (with_smtp enabled_smtp sample_mail)).1 in
  log = [(1, false); (1, false); (1, true)] /\ tries 1 log <= MAIL_ATTEMPTS /\ taken 1 log <= 1.
Proof.
  split; [vm_compute; reflexivity|].
  exact (outbox_delivers_at_most_once None _ (with_smtp enabled_smtp sample_mail) 1 eq_refl).
Defined.

Definition open_registration : RegistrationConfig.t :=
  {| RegistrationConfig.mode := "open"; RegistrationConfig.allowed_email_domains := [];
     RegistrationConfig.email_token_ttl_minutes := 10 |}.

Definition asked_calls : list EmailCall :=
  [Ask 1 sample_draws "https://mirror.example" En "192.0.2.1" "Ann@Example.com" None;
   Verify 2 sample_draws 8 "ann@example.com" (Some "000041") None].

Definition ann_session : UserSession :=
  {| us_token := "link"; us_expires_at := 2592003;
     us_identity := {| ui_user_id := 3; ui_email := "ann@example.com"; ui_display_name := "ann" |} |}.

(** A code is asked for, a wrong one tried, and the right one signs in. *)
Lemma email_login_needs_issued_credential_witness :
  let m := run_email None open_registration asked_calls (with_smtp enabled_smtp sample_mail) in
  let m' := (verify_email_login 3 sample_draws 8 "ann@example.com" (Some "000042") None m).2 in
  (verify_email_login 3 sample_draws 8 "ann@example.com" (Some "000042") None m).1 = SignedIn ann_session /\
  (exists before t asked base_url locale peer email' invitation after,
     asked_calls = before ++ Ask t asked base_url locale peer email' invitation :: after /\
     presents asked (Some "000042") None /\ count_if (tries_code "ann@example.com") after < 5) /\
  exists u, users (dir_accounts (directory m')) !! 3 = Some u /\ User.email u = "ann@example.com" /\ user_enabled u = true.
Proof.
  intros m m'.
  assert (Hv : verify_email_login 3 sample_draws 8 "ann@example.com" (Some "000042") None m = (SignedIn ann_session, m'))
    by (vm_compute; reflexivity).
  split; [by rewrite Hv|].
  destruct (email_login_needs_issued_credential None open_registration asked_calls (with_smtp enabled_smtp sample_mail)
    3 sample_draws 8 "ann@example.com" (Some "000042") None ann_session m') as [Hc Hu]; [constructor|exact Hv|].
  split; [|exact Hu]. destruct Hc as [Hc|(k & id & i & H & _)]; [|discriminate H].
  destruct Hc as (before & t & asked & base_url & locale & peer & email' & invitation & after & H1 & _ & H2 & _ & _ & H3).
  exists before, t, asked, base_url, locale, peer, email', invitation, after.
  split; [exact H1|split; [exact H2|]].
  replace (of_address "ann@example.com") with "ann@example.com" in H3 by (vm_compute; reflexivity). exact H3.
Defined.
