(* ===== verification/Sso.v ===== *)
(** * Providers, identities and sign-in flows of single sign-on

    The tables [auth_providers], [user_identities] and [user_auth_flows] of
    [database.rs] with the functions that read and write them.  A provider row
    keeps its client secret sealed; its scopes, which the code stores as a JSON
    array, are kept as the list.  [SsoFlow] has the handlers of [oauth.rs]. *)
From stdpp Require Import gmap.
From S2P Require Import Prelude RustStr Config Quota Users Secrets Email EmailFlow.
Open Scope string_scope.
Open Scope Z_scope.
Open Scope list_scope.
Open Scope mirror_scope.

(** ** Rows *)

Module AuthProvider.
Record t : Type := {
  id : Z; slug : string; display_name : string; kind : string; preset : string; enabled : bool; client_id : string;
  client_secret : option string; issuer_url : option string; authorization_url : option string;
  token_url : option string; userinfo_url : option string; emails_url : option string; scopes : list string;
  subject_field : string; email_field : string; email_verified_field : option string; display_name_field : string;
  allow_registration : bool; auto_link_by_email : bool;
}.

(** The columns of a row: its key, and the secret as it is stored. *)
Definition with_secret (secret : option string) (p : t) : t := {|
  id := id p; slug := slug p; display_name := display_name p; kind := kind p; preset := preset p;
  enabled := enabled p; client_id := client_id p; client_secret := secret; issuer_url := issuer_url p;
  authorization_url := authorization_url p; token_url := token_url p; userinfo_url := userinfo_url p;
  emails_url := emails_url p; scopes := scopes p; subject_field := subject_field p; email_field := email_field p;
  email_verified_field := email_verified_field p; display_name_field := display_name_field p;
  allow_registration := allow_registration p; auto_link_by_email := auto_link_by_email p;
|}.

Definition with_id (key : Z) (p : t) : t := {|
  id := key; slug := slug p; display_name := display_name p; kind := kind p; preset := preset p;
  enabled := enabled p; client_id := client_id p; client_secret := client_secret p; issuer_url := issuer_url p;
  authorization_url := authorization_url p; token_url := token_url p; userinfo_url := userinfo_url p;
  emails_url := emails_url p; scopes := scopes p; subject_field := subject_field p; email_field := email_field p;
  email_verified_field := email_verified_field p; display_name_field := display_name_field p;
  allow_registration := allow_registration p; auto_link_by_email := auto_link_by_email p;
|}.
End AuthProvider.

(** A row of [user_identities]; [provider] is the column [provider_id], which
    holds the slug. *)
Module Identity.
Record t : Type := {
  id : Z; user_id : Z; provider : string; subject : string; email : option string; email_verified : bool;
  created_at : Z; updated_at : Z;
}.

Definition rename (now : Z) (slug : string) (r : t) : t := {|
  id := id r; user_id := user_id r; provider := slug; subject := subject r; email := email r;
  email_verified := email_verified r; created_at := created_at r; updated_at := now;
|}.

(** [provider_id = ? COLLATE NOCASE AND provider_subject = ?]. *)
Definition names (slug of_subject : string) (r : t) : bool :=
  eq_ignore_ascii_case (provider r) slug && (subject r =? of_subject)%string.

Definition older (a b : t) : Prop := created_at a <= created_at b.

#[global] Instance older_dec : RelDecision older := fun a b => decide (created_at a <= created_at b).
End Identity.

Module AuthFlow.
Record t : Type := {
  provider_id : Z; payload : string; mode : string; user_id : option Z; expires_at : Z; used_at : option Z; created_at : Z;
}.

Definition use (now : Z) (f : t) : t := {|
  provider_id := provider_id f; payload := payload f; mode := mode f; user_id := user_id f; expires_at := expires_at f;
  used_at := Some now; created_at := created_at f;
|}.
End AuthFlow.

Record StoredAuthFlow : Type := {
  fl_provider_id : Z; fl_payload : string; fl_mode : string; fl_user_id : option Z;
}.

Record ExternalRegistration : Type := {
  er_actor : string; er_email : string; er_display_name : string; er_routing_min_length : Z; er_provider_slug : string;
  er_provider_subject : string; er_invitation_id : option Z;
}.

(** The identities are in the order of their ids; [AUTOINCREMENT] never gives
    an id twice.  Flows are keyed by the hash of their state. *)
Record Sso : Type := {
  auth_providers : gmap Z AuthProvider.t;
  next_provider : Z;
  user_identities : list Identity.t;
  next_identity : Z;
  user_auth_flows : gmap string AuthFlow.t;
  mail : Mail;
}.

Definition with_providers (f : gmap Z AuthProvider.t -> gmap Z AuthProvider.t) (s : Sso) : Sso := {|
  auth_providers := f (auth_providers s); next_provider := next_provider s; user_identities := user_identities s;
  next_identity := next_identity s; user_auth_flows := user_auth_flows s; mail := mail s;
|}.

Definition with_identities (f : list Identity.t -> list Identity.t) (s : Sso) : Sso := {|
  auth_providers := auth_providers s; next_provider := next_provider s; user_identities := f (user_identities s);
  next_identity := next_identity s; user_auth_flows := user_auth_flows s; mail := mail s;
|}.

Definition with_flows (f : gmap string AuthFlow.t -> gmap string AuthFlow.t) (s : Sso) : Sso := {|
  auth_providers := auth_providers s; next_provider := next_provider s; user_identities := user_identities s;
  next_identity := next_identity s; user_auth_flows := f (user_auth_flows s); mail := mail s;
|}.

Definition with_mail (f : Mail -> Mail) (s : Sso) : Sso := {|
  auth_providers := auth_providers s; next_provider := next_provider s; user_identities := user_identities s;
  next_identity := next_identity s; user_auth_flows := user_auth_flows s; mail := f (mail s);
|}.

(** The accounts, sessions and routing ids of [Users]. *)
Definition people (s : Sso) : Directory := directory (mail s).

Definition with_people (f : Directory -> Directory) : Sso -> Sso := with_mail (with_directory f).

Inductive SsoError : Type :=
| UniqueConstraint
| ForeignKey
| RowNotFound
| ProviderNotFound
| InvitationGone
| Routing (e : Error)
| SecretFailed (message : string).

Section Tables.
Context `{SecretApi} `{CipherApi}.
Variable cipher : option string.

Definition sso_audit (now : Z) (actor action detail : string) : Sso -> Sso :=
  with_mail (mail_audit now actor action detail).

Definition provider_detail (id : Z) : string := "provider_id=" +:+ show_uint id.

Definition secret_result {A} (r : result A string) : result A SsoError :=
  match r with Ok a => Ok a | Err message => Err (SecretFailed message) end.

(** ** Providers *)

Definition auth_provider_from_row (row : AuthProvider.t) : result AuthProvider.t SsoError :=
  let? secret := secret_result (open_optional cipher "auth_providers.client_secret" (AuthProvider.client_secret row)) in
  Ok (AuthProvider.with_secret secret row).

Definition optional_row (row : option AuthProvider.t) : result (option AuthProvider.t) SsoError :=
  match row with
  | None => Ok None
  | Some row => let? p := auth_provider_from_row row in Ok (Some p)
  end.

Definition auth_provider_by_id (id : Z) (s : Sso) : result (option AuthProvider.t) SsoError :=
  optional_row (auth_providers s !! id).

Definition auth_provider_by_slug (slug : string) (s : Sso) : result (option AuthProvider.t) SsoError :=
  optional_row (snd <$> find_first (fun p => eq_ignore_ascii_case (AuthProvider.slug p.2) slug)
                  (map_to_list (auth_providers s))).

(** [ORDER BY display_name]: the bytes of the names. *)
Fixpoint insert_by_name (row : AuthProvider.t) (rows : list AuthProvider.t) : list AuthProvider.t :=
  match rows with
  | [] => [row]
  | r :: rest => if String.leb (AuthProvider.display_name row) (AuthProvider.display_name r) then row :: rows
                 else r :: insert_by_name row rest
  end.

Fixpoint open_rows (rows : list AuthProvider.t) : result (list AuthProvider.t) SsoError :=
  match rows with
  | [] => Ok []
  | row :: rest =>
      let? p := auth_provider_from_row row in
      let? ps := open_rows rest in
      Ok (p :: ps)
  end.

Definition list_auth_providers (s : Sso) : result (list AuthProvider.t) SsoError :=
  open_rows (foldr (fun p => insert_by_name p.2) [] (map_to_list (auth_providers s))).

(** [UNIQUE COLLATE NOCASE] on the slug. *)
Definition slug_taken (slug : string) (id : Z) (s : Sso) : bool :=
  existsb (fun p => negb (p.1 =? id) && eq_ignore_ascii_case (AuthProvider.slug p.2) slug)
    (map_to_list (auth_providers s)).

(** [UNIQUE(provider_id, provider_subject)], compared by their bytes. *)
Definition identity_key (r : Identity.t) : string * string := (Identity.provider r, Identity.subject r).

(** The secret to store: read before the transaction when the request gave
    none, sealed otherwise. *)
Definition secret_to_store (nonce : string) (provider : AuthProvider.t) (preserve_secret : bool) (s : Sso) :
    result (option string) SsoError :=
  if preserve_secret && negb (AuthProvider.id provider =? 0)
  then Ok (auth_providers s !! AuthProvider.id provider ≫= AuthProvider.client_secret)
  else secret_result (seal_option cipher nonce "auth_providers.client_secret" (AuthProvider.client_secret provider)).

Definition insert_provider (row : AuthProvider.t) (s : Sso) : Z * Sso :=
  let id := next_provider s in
  (id, {|
    auth_providers := <[id := AuthProvider.with_id id row]> (auth_providers s); next_provider := id + 1;
    user_identities := user_identities s; next_identity := next_identity s; user_auth_flows := user_auth_flows s;
    mail := mail s;
  |}).

(** The identities of a provider take its new slug. *)
Definition rename_identities (now : Z) (previous slug : string) (rows : list Identity.t) : list Identity.t :=
  (fun r => if eq_ignore_ascii_case (Identity.provider r) previous then Identity.rename now slug r else r) <$> rows.

(** The transaction of [save_auth_provider]. *)
Definition write_provider (now : Z) (actor : string) (provider : AuthProvider.t) (client_secret : option string) (s : Sso) :
    result Z SsoError * Sso :=
  let row := AuthProvider.with_secret client_secret provider in
  let id := AuthProvider.id provider in
  if id =? 0 then
    if slug_taken (AuthProvider.slug row) 0 s then (Err UniqueConstraint, s)
    else
      let '(id, s) := insert_provider row s in
      (Ok id, sso_audit now actor "auth_provider_saved" (provider_detail id) s)
  else match auth_providers s !! id with
       | None => (Err ProviderNotFound, s)
       | Some previous =>
           let renamed := if (AuthProvider.slug previous =? AuthProvider.slug row)%string then user_identities s
                          else rename_identities now (AuthProvider.slug previous) (AuthProvider.slug row) (user_identities s) in
           if slug_taken (AuthProvider.slug row) id s then (Err UniqueConstraint, s)
           else if negb (bool_decide (NoDup (identity_key <$> renamed))) then (Err UniqueConstraint, s)
           else (Ok id, sso_audit now actor "auth_provider_saved" (provider_detail id)
                          (with_identities (fun _ => renamed) (with_providers <[id := row]> s)))
       end.

Definition save_auth_provider (now : Z) (nonce actor : string) (provider : AuthProvider.t) (preserve_secret : bool) (s : Sso) :
    result Z SsoError * Sso :=
  match secret_to_store nonce provider preserve_secret s with
  | Err e => (Err e, s)
  | Ok secret => write_provider now actor provider secret s
  end.

(** [provider_id = auth_providers.slug COLLATE NOCASE]. *)
Definition provider_identities (p : AuthProvider.t) (s : Sso) : list Identity.t :=
  filter (fun r => eq_ignore_ascii_case (Identity.provider r) (AuthProvider.slug p) = true) (user_identities s).

(** Its flows go with it ([ON DELETE CASCADE]). *)
Definition delete_auth_provider (now : Z) (actor : string) (id : Z) (s : Sso) : bool * Sso :=
  match auth_providers s !! id with
  | None => (false, s)
  | Some p =>
      match provider_identities p s with
      | _ :: _ => (false, s)
      | [] => (true, sso_audit now actor "auth_provider_deleted" (provider_detail id)
                       (with_flows (filter (fun f => AuthFlow.provider_id f.2 <> id)) (with_providers (delete id) s)))
      end
  end.

Definition auth_provider_identity_count (id : Z) (s : Sso) : Z :=
  match auth_providers s !! id with
  | None => 0
  | Some p => Z.of_nat (length (provider_identities p s))
  end.

(** ** Flows *)

Definition stale_flow (now : Z) (f : AuthFlow.t) : bool :=
  (AuthFlow.expires_at f <=? now) || bool_decide (is_Some (AuthFlow.used_at f)).

Definition store_user_auth_flow (now : Z) (nonce state : string) (provider_id : Z) (payload mode : string)
    (user_id : option Z) (expires_at : Z) (s : Sso) : result unit SsoError * Sso :=
  let s := with_flows (filter (fun f => stale_flow now f.2 = false)) s in
  match seal cipher nonce "user_auth_flows.payload" payload with
  | Err message => (Err (SecretFailed message), s)
  | Ok sealed =>
      if bool_decide (is_Some (user_auth_flows s !! hash_token state)) then (Err UniqueConstraint, s)
      else if negb (bool_decide (is_Some (auth_providers s !! provider_id)))
              || match user_id with
                 | Some u => negb (bool_decide (is_Some (users (dir_accounts (people s)) !! u)))
                 | None => false
                 end
      then (Err ForeignKey, s)
      else (Ok tt, with_flows <[hash_token state := {|
              AuthFlow.provider_id := provider_id; AuthFlow.payload := sealed; AuthFlow.mode := mode;
              AuthFlow.user_id := user_id; AuthFlow.expires_at := expires_at; AuthFlow.used_at := None;
              AuthFlow.created_at := now |}]> s)
  end.

(** [expires_at > ? AND used_at IS NULL]. *)
Definition open_flow (now : Z) (state : string) (s : Sso) : option AuthFlow.t :=
  match user_auth_flows s !! hash_token state with
  | Some f => if (now <? AuthFlow.expires_at f) && bool_decide (AuthFlow.used_at f = None) then Some f else None
  | None => None
  end.

Definition take_user_auth_flow (now : Z) (state : string) (s : Sso) : result (option StoredAuthFlow) SsoError * Sso :=
  match open_flow now state s with
  | None => (Ok None, s)
  | Some f =>
      let s := with_flows <[hash_token state := AuthFlow.use now f]> s in
      match open cipher "user_auth_flows.payload" (AuthFlow.payload f) with
      | Err message => (Err (SecretFailed message), s)
      | Ok payload => (Ok (Some {| fl_provider_id := AuthFlow.provider_id f; fl_payload := payload;
                                   fl_mode := AuthFlow.mode f; fl_user_id := AuthFlow.user_id f |}), s)
      end
  end.

(** ** Identities *)

Definition user_by_external_identity (slug subject : string) (s : Sso) : option UserAccount :=
  find_map (fun r => if Identity.names slug subject r then user_account (Identity.user_id r) (people s) else None)
    (user_identities s).

(** [INSERT] of an identity, [None] when the unique key is taken. *)
Definition insert_identity (now user_id : Z) (slug subject : string) (email : option string) (email_verified : bool)
    (s : Sso) : option Sso :=
  if bool_decide ((slug, subject) ∈ (identity_key <$> user_identities s)) then None
  else Some {|
    auth_providers := auth_providers s; next_provider := next_provider s;
    user_identities := user_identities s ++ [{|
      Identity.id := next_identity s; Identity.user_id := user_id; Identity.provider := slug; Identity.subject := subject;
      Identity.email := email; Identity.email_verified := email_verified; Identity.created_at := now;
      Identity.updated_at := now |}];
    next_identity := next_identity s + 1; user_auth_flows := user_auth_flows s; mail := mail s;
  |}.

Definition bound_detail (user_id : Z) (slug : string) : string := user_detail user_id +:+ "; provider=" +:+ slug.

Definition bind_external_identity (now : Z) (actor : string) (user_id : Z) (slug subject : string) (email : option string)
    (email_verified : bool) (s : Sso) : result bool SsoError * Sso :=
  match insert_identity now user_id slug subject (normalize_email <$> email) email_verified s with
  | None =>
      match find_first (Identity.names slug subject) (user_identities s) with
      | Some owner => (Ok (Identity.user_id owner =? user_id), s)
      | None => (Err RowNotFound, s)
      end
  | Some bound =>
      if bool_decide (is_Some (users (dir_accounts (people s)) !! user_id))
      then (Ok true, sso_audit now actor "user_identity_bound" (bound_detail user_id slug) bound)
      else (Err ForeignKey, s)
  end.

Definition own_identities (user_id : Z) (s : Sso) : list Identity.t :=
  filter (fun r => Identity.user_id r = user_id) (user_identities s).

(** [COALESCE(p.display_name, i.provider_id)] over the left join. *)
Definition provider_name (slug : string) (s : Sso) : string :=
  match find_first (fun p => eq_ignore_ascii_case (AuthProvider.slug p.2) slug) (map_to_list (auth_providers s)) with
  | Some (_, p) => AuthProvider.display_name p
  | None => slug
  end.

(** With the names of the providers, [ORDER BY created_at]. *)
Definition list_external_identities (user_id : Z) (s : Sso) : list (Identity.t * string) :=
  (fun r => (r, provider_name (Identity.provider r) s)) <$>
    merge_sort Identity.older (own_identities user_id s).

Definition external_identity_count (user_id : Z) (s : Sso) : Z :=
  Z.of_nat (length (own_identities user_id s)).

Definition delete_external_identity (now : Z) (actor : string) (user_id identity_id : Z) (s : Sso) : bool * Sso :=
  let gone (r : Identity.t) := (Identity.id r =? identity_id) && (Identity.user_id r =? user_id) in
  if existsb gone (user_identities s)
  then (true, sso_audit now actor "user_identity_unbound"
                (user_detail user_id +:+ "; identity_id=" +:+ show_uint identity_id)
                (with_identities (filter (fun r => gone r = false)) s))
  else (false, s).

(** [UPDATE email_invitations .. WHERE id = ? AND email = ? AND status =
    'pending' AND expires_at > ?]; [None] when no row was changed. *)
Definition accept_pending (now id : Z) (email : string) (m : Mail) : option Mail :=
  match email_invitations m !! id with
  | Some i => if (EmailInvitation.email i =? email)%string && EmailInvitation.pending i && (now <? EmailInvitation.expires_at i)
              then Some (with_email_invitations <[id := EmailInvitation.accept now i]> m) else None
  | None => None
  end.

(** One transaction: an error leaves everything as it was. *)
Definition create_user_with_external_identity (now : Z) (draws : list Z) (registration : ExternalRegistration) (s : Sso) :
    result (option UserAccount) SsoError * Sso :=
  let email := normalize_email (er_email registration) in
  match insert_user now None email (er_display_name registration) (people s) with
  | None => (Ok None, s)
  | Some (user_id, d) =>
      match insert_unique_routing_id draws user_id (er_routing_min_length registration) now d with
      | Err e => (Err (Routing e), s)
      | Ok (routing_id, d) =>
          match insert_identity now user_id (er_provider_slug registration) (er_provider_subject registration)
                  (Some email) true (with_people (fun _ => d) s) with
          | None => (Err UniqueConstraint, s)
          | Some s1 =>
              match match er_invitation_id registration with
                    | None => Some (mail s1)
                    | Some id => accept_pending now id email (mail s1)
                    end with
              | None => (Err InvitationGone, s)
              | Some m =>
                  (Ok (Some {|
                     ua_username := None; ua_id := user_id; ua_email := email;
                     ua_display_name := er_display_name registration; ua_disabled := false; ua_routing_id := routing_id;
                     ua_routing_rotated_at := now; ua_created_at := now; ua_updated_at := now |}),
                   sso_audit now (er_actor registration) "user_identity_bound"
                     (bound_detail user_id (er_provider_slug registration))
                     (sso_audit now (er_actor registration) "user_created" (user_detail user_id)
                        (with_mail (fun _ => m) s1)))
              end
          end
      end
  end.

(** On the directory, that is an account created and a line of the audit log:
    the guarantees of [Users] cover it. *)
Lemma external_account_ops (now : Z) (draws : list Z) (registration : ExternalRegistration) (s s' : Sso)
    (account : UserAccount) :
  create_user_with_external_identity now draws registration s = (Ok (Some account), s') ->
  people s' = run_ops
    [OpCreateUser now draws (er_actor registration) (er_email registration) (er_display_name registration)
       (er_routing_min_length registration);
     OpAudit now (er_actor registration) "user_identity_bound"
       (bound_detail (ua_id account) (er_provider_slug registration))] (people s).
Proof.
  unfold create_user_with_external_identity. cbn [run_ops fold_left apply]. unfold create_user.
  destruct (insert_user _ _ _ _ _) as [[user_id d]|]; [|done].
  destruct (insert_unique_routing_id _ _ _ _ _) as [[routing_id d2]|]; [|done].
  unfold insert_identity. case_bool_decide; [done|].
  assert (Hp : forall id m m', accept_pending now id (normalize_email (er_email registration)) m = Some m' ->
    directory m' = directory m).
  { unfold accept_pending. intros id m m'. destruct (email_invitations m !! id); [|done]. case_bool; [|done].
    by intros [= <-]. }
  destruct (er_invitation_id registration) as [id|].
  - destruct (accept_pending _ _ _ _) as [m|] eqn:Ha; [|done]. apply Hp in Ha. intros [= <- <-]. cbn. by rewrite Ha.
  - by intros [= <- <-].
Qed.
End Tables.
