(* ===== verification/Download.v ===== *)
(** * Authenticated downloads

    [download.rs] and [database/download.rs]: permissions, tokens, blocked
    domains, the checks of a target and of its addresses, the permits of
    running downloads, the redirect loop and the worker that hands a body on
    piece by piece.  Between two steps of the worker other requests change the
    state: what they do is a variable of the theorems. *)
From stdpp Require Import gmap.
From S2P Require Import Prelude RustStr Net Headers Url Config RateLimit Quota Users Redirect.
Open Scope string_scope.
Open Scope Z_scope.
Open Scope list_scope.
Open Scope mirror_scope.

(** ** Targets and addresses *)

Definition is_domain_byte (c : ascii) : bool := is_ascii_alphanumeric c || Ascii.eqb c "-".

Definition valid_domain (host : string) : bool :=
  (str_len host <=? 253) && contains_char "." host && negb (ends_with "." host)
  && forallb (fun l => negb (str_is_empty l) && (str_len l <=? 63) && negb (starts_with "-" l) && negb (ends_with "-" l)
                       && all_bytes is_domain_byte l) (str_split "." host).

(** [n >> (width - bits) == net >> (width - bits)]. *)
Definition in_block (width n : Z) (block : Z * Z) : bool :=
  Z.shiftr n (width - block.2) =? Z.shiftr block.1 (width - block.2).

Definition SPECIAL_V4 : list (Z * Z) := [
  (0, 8); (0x0a000000, 8); (0x64400000, 10); (0x7f000000, 8); (0xa9fe0000, 16); (0xa83f8110, 32); (0xac100000, 12);
  (0xc0000000, 16); (0xc0a80000, 16); (0xc6120000, 15); (0xc6336400, 24); (0xcb007100, 24); (0xe0000000, 3)].

Definition SPECIAL_V6 : list (Z * Z) := [
  (Z.shiftl 0x2001 112, 23); (Z.shiftl 0x20010db8 96, 32); (Z.shiftl 0x2002 112, 16); (Z.shiftl 0x3ff0 112, 12)].

Definition public_ip (ip : IpAddr) : bool :=
  match ip with
  | V4 n => negb (existsb (in_block 32 n) SPECIAL_V4)
  | V6 n => (Z.shiftr n 125 =? 1) && negb (existsb (in_block 128 n) SPECIAL_V6)
  end.

(** [Url::host] of the [url] crate: a domain, or an address literal. *)
Class HostApi `{UrlApi} : Type := {
  url_domain : Url -> option string;
  url_to_string : Url -> string;
}.

Class HostLaws `{HostApi} : Prop := {
  url_domain_host u h : url_domain u = Some h -> url_host_str u = Some h;
}.

Section Target.
Context `{UrlApi} `{!HostApi}.

Definition target (value : string) : option Url :=
  if negb ((str_len value <=? 8192) && negb (has_control value) && negb (contains_char "\" value)) then None
  else match url_parse value with
       | None => None
       | Some url =>
           if (url_scheme url =? "https")%string && bool_decide (url_port_or_known_default url = Some 443)
              && str_is_empty (url_username url) && bool_decide (url_password url = None)
              && bool_decide (url_fragment url = None)
           then match url_domain url with
                | Some host => if valid_domain host then Some url else None
                | None => None
                end
           else None
       end.

Definition domain_input (input : string) : option string :=
  match target ("https://" +:+ input +:+ "/") with
  | None => None
  | Some u =>
      match url_host_str u with
      | Some h => if (url_path u =? "/")%string && bool_decide (url_query u = None) && eq_ignore_ascii_case input h
                  then Some h else None
      | None => None
      end
  end.
End Target.

(** The refusals of a request, with their status. *)
Record Refusal : Type := { rf_status : Z; rf_message : string }.
Definition reject (status : Z) (message : string) : Refusal := {| rf_status := status; rf_message := message |}.
Definition forbidden : Refusal := reject 403 "download permission required or revoked".

(** [range_header]: the value of the header, which is [None] when it is not
    text. *)
Definition range_header (range : option (option string)) : result (option string) Refusal :=
  match range with
  | None => Ok None
  | Some None => Err (reject 400 "invalid Range")
  | Some (Some value) =>
      match strip_prefix "bytes=" value ≫= split_once "-" with
      | None => Err (reject 400 "only a single byte range is supported")
      | Some (a, b) =>
          let start := parse_uint U64_MAX a in
          let end_ := if str_is_empty b then Some U64_MAX else parse_uint U64_MAX b in
          match start, end_ with
          | Some a, Some b => if a >? b then Err (reject 400 "invalid byte range") else Ok (Some value)
          | _, _ => Err (reject 400 "invalid byte range")
          end
      end
  end.

(** ** Permissions, tokens and blocks *)

Module Token.
Record t : Type := { user_id : Z; token_hash : string; name : string; expires_at : Z; created_at : Z }.
End Token.

Module Block.
Record t : Type := { subdomains : bool; reason : string; actor : string; created_at : Z }.
End Block.

Record Downloads : Type := {
  dl_db : Db;
  download_permissions : gmap (string * Z) string;
  download_tokens : gmap string Token.t;
  download_blocks : gmap string Block.t;
}.

Definition with_db (f : Db -> Db) (s : Downloads) : Downloads := {|
  dl_db := f (dl_db s); download_permissions := download_permissions s; download_tokens := download_tokens s;
  download_blocks := download_blocks s;
|}.

Definition with_tokens (f : gmap string Token.t -> gmap string Token.t) (s : Downloads) : Downloads := {|
  dl_db := dl_db s; download_permissions := download_permissions s; download_tokens := f (download_tokens s);
  download_blocks := download_blocks s;
|}.

Definition with_permissions (f : gmap (string * Z) string -> gmap (string * Z) string) (s : Downloads) : Downloads := {|
  dl_db := dl_db s; download_permissions := f (download_permissions s); download_tokens := download_tokens s;
  download_blocks := download_blocks s;
|}.

Definition with_blocks (f : gmap string Block.t -> gmap string Block.t) (s : Downloads) : Downloads := {|
  dl_db := dl_db s; download_permissions := download_permissions s; download_tokens := download_tokens s;
  download_blocks := f (download_blocks s);
|}.

Definition audit_download (now : Z) (actor action detail : string) : Downloads -> Downloads :=
  with_db (fun db => {| accounts := audit now actor action detail (accounts db); ledger := ledger db |}).

Definition user_actor (user : Z) : string := "user:" +:+ show_uint user.

Section Access.
Context `{SecretApi}.

Definition download_allowed (user : Z) (s : Downloads) : bool :=
  match users (accounts (dl_db s)) !! user with
  | None => false
  | Some u =>
      user_enabled u
      && match download_permissions s !! ("user", user) with
         | Some policy => (policy =? "allow")%string
         | None =>
             match group_members (accounts (dl_db s)) !! user with
             | Some group => bool_decide (download_permissions s !! ("group", group) = Some "allow")
             | None => false
             end
         end
  end.

Definition permission_subject_exists (kind : string) (id : Z) (s : Downloads) : bool :=
  if (kind =? "user")%string
  then match users (accounts (dl_db s)) !! id with Some u => user_live u | None => false end
  else bool_decide (is_Some (groups (accounts (dl_db s)) !! id)).

Definition set_download_permission (now : Z) (actor kind : string) (id : Z) (policy : string) (s : Downloads) :
    bool * Downloads :=
  if permission_subject_exists kind id s then
    let s := with_permissions (delete (kind, id)) s in
    let s := if (policy =? "inherit")%string then s else with_permissions <[(kind, id) := policy]> s in
    (true, audit_download now actor "download_permission_changed" (kind +:+ ":" +:+ show_uint id +:+ " " +:+ policy) s)
  else (false, s).

Definition MAX_TOKENS : Z := 20.

Definition tokens_of (user : Z) (s : Downloads) : Z :=
  Z.of_nat (size (filter (fun p => Token.user_id p.2 = user) (download_tokens s))).

Inductive TokenError : Type := TooManyTokens | TokenConflict.

(** [id] is the fresh UUID, [secret] the random part of the token. *)
Definition create_download_token (now : Z) (id secret : string) (user : Z) (name : string) (days : Z) (s : Downloads) :
    result (option string) TokenError * Downloads :=
  if negb (download_allowed user s) then (Ok None, s)
  else
    let token := "mpd_" +:+ secret in
    let s1 := with_tokens (filter (fun p => ~ (Token.expires_at p.2 <= now))) s in
    if negb (tokens_of user s1 <? MAX_TOKENS) then (Err TooManyTokens, s)
    else if bool_decide (is_Some (download_tokens s1 !! id))
            || existsb (fun p => (Token.token_hash p.2 =? hash_token token)%string) (map_to_list (download_tokens s1))
    then (Err TokenConflict, s)
    else
      (Ok (Some token),
       audit_download now (user_actor user) "download_token_created" id
         (with_tokens <[id := {|
            Token.user_id := user; Token.token_hash := hash_token token; Token.name := name;
            Token.expires_at := now + days * 86400; Token.created_at := now |}]> s1)).

Definition revoke_download_token (now user : Z) (id : string) (s : Downloads) : Downloads :=
  let s := with_tokens (filter (fun p => ~ (Token.user_id p.2 = user /\ p.1 = id))) s in
  audit_download now (user_actor user) "download_token_revoked" id s.

Definition authenticate_download_token (now : Z) (token : string) (s : Downloads) : option Z :=
  if negb (starts_with "mpd_" token) || negb (str_len token =? 52) then None
  else match find_first (fun p => (Token.token_hash p.2 =? hash_token token)%string && (now <? Token.expires_at p.2))
               (map_to_list (download_tokens s)) with
       | Some (_, t) => if download_allowed (Token.user_id t) s then Some (Token.user_id t) else None
       | None => None
       end.
End Access.

(** The row for [domain] applies to [host]. *)
Definition block_covers (host domain : string) (subdomains : bool) : bool :=
  (host =? domain)%string || (subdomains && ends_with ("." +:+ domain) host).

Definition download_blocked (host : string) (s : Downloads) : bool :=
  existsb (fun p => block_covers host p.1 (Block.subdomains p.2)) (map_to_list (download_blocks s)).

Definition set_download_block (now : Z) (actor domain : string) (subdomains : bool) (reason : string) (blocked : bool)
    (s : Downloads) : Downloads :=
  let s := with_blocks (delete domain) s in
  let s := if blocked then with_blocks <[domain := {|
             Block.subdomains := subdomains; Block.reason := reason; Block.actor := actor; Block.created_at := now |}]> s
           else s in
  let show (b : bool) := if b then "true" else "false" in
  audit_download now actor "download_domain_policy_changed"
    (domain +:+ " blocked=" +:+ show blocked +:+ " subdomains=" +:+ show subdomains +:+ " " +:+ reason) s.

(** ** Statistics of a day *)

Definition download_upstream (user : Z) (domain entry : string) (bytes : Z) (daily_day : string) : Downloads -> Downloads :=
  with_db (fun db =>
    let key := (daily_day, user, domain, entry) in
    let u := usage_row (ledger db) key in
    {| accounts := accounts db;
       ledger := with_downloads (<[key := {|
         du_requests := du_requests u; du_errors := du_errors u; du_denied := du_denied u; du_bytes := du_bytes u;
         du_upstream_bytes := du_upstream_bytes u + limit_to_i64 bytes |}]>
         (download_usage (ledger db))) (ledger db) |}).

Definition download_stream_error (user : Z) (domain entry : string) (daily_day : string) : Downloads -> Downloads :=
  with_db (fun db =>
    let key := (daily_day, user, domain, entry) in
    match download_usage (ledger db) !! key with
    | None => db
    | Some u => {| accounts := accounts db;
                   ledger := with_downloads (<[key := {|
                     du_requests := du_requests u; du_errors := du_errors u + 1; du_denied := du_denied u;
                     du_bytes := du_bytes u; du_upstream_bytes := du_upstream_bytes u |}]>
                     (download_usage (ledger db))) (ledger db) |}
    end).

(** ** Running downloads *)

Module Active.
Record t : Type := { user : Z; hosts : list string; cancelled : bool }.
Definition cancel (a : t) : t := {| user := user a; hosts := hosts a; cancelled := true |}.
Definition add_host (host : string) (a : t) : t := {| user := user a; hosts := hosts a ++ [host]; cancelled := cancelled a |}.
End Active.

Definition Runtime : Type := gmap string Active.t.

Definition running (user : Z) (rt : Runtime) : Z := Z.of_nat (size (filter (fun p => Active.user p.2 = user) rt)).

(** [id] is the fresh UUID of the permit. *)
Definition acquire (id : string) (user : Z) (config : DownloadConfig.t) (rt : Runtime) : option Runtime :=
  if (DownloadConfig.max_concurrent config <=? Z.of_nat (size rt))
     || (DownloadConfig.max_user_concurrent config <=? running user rt)
  then None
  else Some (<[id := {| Active.user := user; Active.hosts := []; Active.cancelled := false |}]> rt).

(** [Permit::drop]. *)
Definition release (id : string) (rt : Runtime) : Runtime := delete id rt.

Definition host (id host : string) (rt : Runtime) : Runtime := alter (Active.add_host host) id rt.

Definition cancel_where (p : Active.t -> bool) (rt : Runtime) : Runtime :=
  (fun a => if p a then Active.cancel a else a) <$> rt.

Definition cancel_domain (domain : string) (subdomains : bool) : Runtime -> Runtime :=
  cancel_where (fun a => existsb (fun h => (h =? domain)%string || (subdomains && ends_with ("." +:+ domain) h)) (Active.hosts a)).

Definition cancel_user (user : Z) : Runtime -> Runtime := cancel_where (fun a => Active.user a =? user).

Definition cancel_all : Runtime -> Runtime := cancel_where (fun _ => true).

Definition terminate (id : string) : Runtime -> Runtime := alter Active.cancel id.

Definition is_cancelled (id : string) (rt : Runtime) : bool :=
  match rt !! id with Some a => Active.cancelled a | None => false end.

(** ** The redirect loop *)

Record DlRequest `{UrlApi} : Type := { dq_method : string; dq_url : Url; dq_headers : list (string * string) }.

(** A chunk of the body is [None] when reading it fails. *)
Record DlResponse `{HeaderApi} : Type := {
  dp_status : Z; dp_headers : HeaderMap; dp_content_length : option Z; dp_chunks : list (option string);
}.

Class DownloadWorld `{HeaderApi} `{UrlApi} : Type := {
  DlWorld : Type;
  (** [lookup_host] under its timeout *)
  dns : string -> DlWorld -> option (list SocketAddr) * DlWorld;
  (** a client that connects to these addresses only, without proxy,
      redirects and plain HTTP *)
  pinned_client_ok : string -> list SocketAddr -> bool;
  pinned_send : string -> list SocketAddr -> DlRequest -> DlWorld -> option DlResponse * DlWorld;
}.

Inductive Fetched `{HeaderApi} : Type :=
| Got (response : DlResponse) (host : string)
| Refused (r : Refusal)
| HostPanic.

Definition USER_AGENT : string := "MirrorProxy-Download/1.7.3".

Section Upstream.
Context `{DownloadWorld} `{!HostApi}.

Definition resolved (url : Url) (w : DlWorld) : option (list SocketAddr) * DlWorld :=
  match url_host_str url with
  | None => (None, w)
  | Some host =>
      let '(found, w) := dns host w in
      (match found with
       | Some addresses =>
           if negb (match addresses with [] => true | _ => false end) && (Z.of_nat (length addresses) <=? 64)
              && forallb (fun a => public_ip a.1.1) addresses
           then Some addresses else None
       | None => None
       end, w)
  end.

Definition DlLog : Type := list (string * list SocketAddr * DlRequest).

Definition download_request (method : string) (url : Url) (range : option string) : DlRequest := {|
  dq_method := method; dq_url := url;
  dq_headers := [("accept-encoding", "identity"); ("user-agent", USER_AGENT)] ++
                match range with Some r => [("range", r)] | None => [] end;
|}.

(** The turns left; [seen] are the tables as each turn finds them, and the
    hosts are those registered with the permit. *)
Fixpoint hops (fuel : nat) (seen : nat -> Downloads) (method : string) (url : Url) (range : option string)
    (hosts : list string) (w : DlWorld) (log : DlLog) : Fetched * list string * DlWorld * DlLog :=
  match fuel with
  | O => (Refused (reject 502 "too many upstream redirects"), hosts, w, log)
  | S fuel =>
      match url_host_str url with
      | None => (HostPanic, hosts, w, log)
      | Some host =>
          let hosts := hosts ++ [host] in
          if download_blocked host (seen 0%nat) then (Refused (reject 403 "download domain is blocked"), hosts, w, log)
          else
            let '(addresses, w) := resolved url w in
            match addresses with
            | None => (Refused (reject 403 "target DNS/address is not allowed"), hosts, w, log)
            | Some addresses =>
                if negb (pinned_client_ok host addresses) then (Refused (reject 500 "internal error"), hosts, w, log)
                else
                  let request := download_request method url range in
                  let log := log ++ [(host, addresses, request)] in
                  let '(answer, w) := pinned_send host addresses request w in
                  match answer with
                  | None => (Refused (reject 502 "upstream download request failed"), hosts, w, log)
                  | Some response =>
                      if is_redirect (dp_status response) then
                        match (h_get (dp_headers response) "location" ≫= h_to_str) ≫= url_join url with
                        | None => (Refused (reject 502 "invalid upstream redirect"), hosts, w, log)
                        | Some next =>
                            match target (url_to_string next) with
                            | None => (Refused (reject 403 "redirect target is not allowed"), hosts, w, log)
                            | Some url => hops fuel (fun i => seen (S i)) method url range hosts w log
                            end
                        end
                      else (Got response host, hosts, w, log)
                  end
            end
      end
  end.

(** The first request and five redirects. *)
Definition upstream (seen : nat -> Downloads) (url : Url) (method : string) (range : option string) (w : DlWorld) :
    Fetched * list string * DlWorld * DlLog := hops 6 seen method url range [] w [].
End Upstream.

(** ** The worker

    What happens around the worker, point by point: the changes others make,
    the live configuration, the clock with the days it falls on, and whether
    the worker is stopped there, by its deadline, a cancellation or a client
    that left. *)
Record Surroundings : Type := {
  others : nat -> Downloads -> Downloads;
  live : nat -> Config.t;
  clock : nat -> Z;
  days_at : nat -> string * string * string;
  stopped : nat -> bool;
}.

Section Worker.
Context `{SecretApi}.
Variable env : Surroundings.

(** A query for every host the download went through. *)
Fixpoint none_blocked (i : nat) (hosts : list string) (s : Downloads) : bool * nat * Downloads :=
  match hosts with
  | [] => (true, i, s)
  | h :: rest =>
      let s := others env i s in
      if stopped env i || download_blocked h s then (false, S i, s) else none_blocked (S i) rest s
  end.

(** One part of at most 64 KiB: checked, paced, checked again, charged and
    sent. [throttle] only waits. *)
Definition send_part (token : string) (user : Z) (hosts : list string) (domain entry part : string) (i : nat)
    (s : Downloads) : bool * nat * Downloads :=
  let s := others env i s in
  if stopped env i || negb (DownloadConfig.enabled (Config.download (live env i)))
     || negb (bool_decide (authenticate_download_token (clock env i) token s = Some user))
  then (false, S i, s)
  else
    let config := live env i in
    let '(free, i, s) := none_blocked (S i) hosts s in
    if negb free then (false, i, s)
    else
      let s := others env i s in
      if stopped env i || negb (bool_decide (authenticate_download_token (clock env i) token s = Some user))
      then (false, S i, s)
      else
        let i := S i in
        let s := others env i s in
        let '(daily_day, day, month) := days_at env i in
        let '(ok, db) := charge_download user domain entry (str_len part) config daily_day day month (dl_db s) in
        let s := with_db (fun _ => db) s in
        (negb (stopped env i) && ok && negb (stopped env (S i)), S (S i), s).

Fixpoint send_parts (token : string) (user : Z) (hosts : list string) (domain entry : string) (parts : list string)
    (i : nat) (s : Downloads) (sent : list (nat * string)) : bool * nat * Downloads * list (nat * string) :=
  match parts with
  | [] => (true, i, s, sent)
  | part :: rest =>
      let '(ok, i, s) := send_part token user hosts domain entry part i s in
      if ok then send_parts token user hosts domain entry rest i s (sent ++ [(i, part)]) else (false, i, s, sent)
  end.

(** [chunk.chunks(65536)]. *)
Fixpoint split_parts (fuel : nat) (n : nat) (chunk : string) : list string :=
  match fuel with
  | O => []
  | S fuel =>
      if str_is_empty chunk then []
      else String.substring 0 n chunk :: split_parts fuel n (String.substring n (String.length chunk - n) chunk)
  end.

Definition PART : nat := Z.to_nat 65536.

Fixpoint work (max_file_bytes : Z) (token : string) (user : Z) (hosts : list string) (domain entry : string)
    (chunks : list (option string)) (total : Z) (i : nat) (s : Downloads) (sent : list (nat * string)) :
    bool * nat * Downloads * list (nat * string) :=
  match chunks with
  | [] => (true, i, s, sent)
  | None :: _ => (false, i, s, sent)
  | Some chunk :: rest =>
      let s := download_upstream user domain entry (str_len chunk) (days_at env i).1.1 (others env i s) in
      if stopped env i then (false, S i, s, sent)
      else
        let total := sat_add_u64 total (str_len chunk) in
        if total >? max_file_bytes then (false, S i, s, sent)
        else
          let '(ok, i, s, sent) :=
            send_parts token user hosts domain entry (split_parts (String.length chunk) PART chunk) (S i) s sent in
          if ok then work max_file_bytes token user hosts domain entry rest total i s sent else (false, i, s, sent)
  end.

(** The spawned task: a failure is counted. What was sent comes with the point
    at which it was out. *)
Definition worker (max_file_bytes : Z) (token : string) (user : Z) (hosts : list string) (domain entry : string)
    (chunks : list (option string)) (s : Downloads) : bool * Downloads * list (nat * string) :=
  let '(ok, i, s, sent) := work max_file_bytes token user hosts domain entry chunks 0 0%nat s [] in
  (ok, if ok then s else download_stream_error user domain entry (days_at env i).1.1 (others env i s), sent).
End Worker.

(** ** A request *)

Record DownloadServer : Type := { sv_downloads : Downloads; sv_runtime : Runtime; sv_limiter : RateLimiter.t }.

(** How the wait for the upstream ends; the loop is cut at its deadline after
    its last turn. *)
Inductive Race : Type := Answered | CancelledFirst | DeadlineFirst.

Record DownloadRequest `{HeaderApi} : Type := {
  dr_allowed_ip : bool; dr_bearer : option string; dr_url : string; dr_range : option (option string);
  dr_method : string; dr_preflight : bool;
}.

Inductive DownloadAnswer `{HeaderApi} : Type :=
| Rejected (r : Refusal)
| Preflight (domain entry : string) (hosts : list string) (content_length : option Z)
| Streamed (status : Z) (headers : list (string * HeaderValue)) (body : list string) (complete : bool)
| Panicked.

Definition unauthorized : Refusal := reject 401 "administrator authentication required".

Definition KEPT_HEADERS : list string :=
  ["content-length"; "content-range"; "accept-ranges"; "etag"; "last-modified"; "content-encoding"].

Section Request.
Context `{SecretApi} `{DownloadWorld} `{!HostApi}.

Definition authorize (now : Z) (config : Config.t) (bearer : option string) (s : Downloads) : result (Z * string) Refusal :=
  if negb (DownloadConfig.enabled (Config.download config)) then Err (reject 404 "custom downloads are disabled")
  else match bearer with
       | None => Err unauthorized
       | Some token => match authenticate_download_token now token s with
                       | Some user => Ok (user, token)
                       | None => Err forbidden
                       end
       end.

(** The checks before a permit is taken. *)
Definition admit_download (now instant : Z) (config : Config.t) (r : DownloadRequest) (sv : DownloadServer) :
    result (Z * string * Url * string * option string) Refusal * DownloadServer :=
  if negb (dr_allowed_ip r) then (Err (reject 403 "access denied by IP policy"), sv)
  else match authorize now config (dr_bearer r) (sv_downloads sv) with
       | Err e => (Err e, sv)
       | Ok (user, token) =>
           let '(ok, limiter) :=
             RateLimiter.check ("download:" +:+ show_uint user) (DownloadConfig.requests_per_minute (Config.download config))
               instant (sv_limiter sv) in
           let sv := {| sv_downloads := sv_downloads sv; sv_runtime := sv_runtime sv; sv_limiter := limiter |} in
           if negb ok then (Err (reject 429 "download rate limit exceeded"), sv)
           else match target (dr_url r) with
                | None => (Err (reject 400 "a public HTTPS download URL on port 443 without credentials or fragment is required"), sv)
                | Some url =>
                    match url_host_str url, range_header (dr_range r) with
                    | Some entry, Ok range => (Ok (user, token, url, entry, range), sv)
                    | _, Err e => (Err e, sv)
                    | None, _ => (Err (reject 500 "panic"), sv)
                    end
                end
       end.

Definition kept_headers (h : HeaderMap) : list (string * HeaderValue) :=
  omap (fun name => pair name <$> h_get h name) KEPT_HEADERS.

Definition fixed_headers : list (string * HeaderValue) :=
  omap (fun e => pair e.1 <$> h_from_str e.2)
    [("content-type", "application/octet-stream");
     ("content-disposition", "attachment; filename=" +:+ String (ascii_of_nat 34) "download" +:+ String (ascii_of_nat 34) EmptyString);
     ("cache-control", "no-store"); ("x-content-type-options", "nosniff")].

Definition note_event (user : Z) (domain entry : string) (error denied : bool) (days : string * string * string * string)
    : Downloads -> Downloads :=
  let '(daily_day, cutoff, day, month) := days in
  with_db (download_event user domain entry error denied daily_day cutoff day month).

(** After the checks: the permit [id] is held until the answer, or until the
    worker is done.  [seen] are the tables at the turns of the redirect loop. *)
Definition fetch (env : Surroundings) (race : Race) (seen : nat -> Downloads) (days : string * string * string * string)
    (now instant : Z) (id : string) (config : Config.t) (r : DownloadRequest) (sv : DownloadServer) (w : DlWorld) :
    DownloadAnswer * DownloadServer * DlLog :=
  match admit_download now instant config r sv with
  | (Err e, sv) => (Rejected e, sv, [])
  | (Ok (user, token, url, entry, range), sv) =>
      match acquire id user (Config.download config) (sv_runtime sv) with
      | None => (Rejected (reject 429 "download concurrency limit exceeded"), sv, [])
      | Some rt =>
          let '(fetched, hosts, _, log) := upstream seen url (dr_method r) range w in
          let finish (f : Downloads -> Downloads) :=
            {| sv_downloads := f (sv_downloads sv); sv_runtime := release id rt; sv_limiter := sv_limiter sv |} in
          let failed_host := default entry (last hosts) in
          match race, fetched with
          | CancelledFirst, _ => (Rejected (reject 403 "download cancelled"), finish (fun s => s), log)
          | DeadlineFirst, _ =>
              (Rejected (reject 504 "download deadline exceeded"),
               finish (note_event user failed_host entry true false days), log)
          | Answered, HostPanic => (Panicked, finish (fun s => s), log)
          | Answered, Refused e =>
              (Rejected e, finish (note_event user failed_host entry true (rf_status e =? 403) days), log)
          | Answered, Got response domain =>
              if negb (existsb (Z.eqb (dp_status response)) [200; 206])
              then (Rejected (reject 502 "upstream did not return a downloadable response"),
                    finish (note_event user domain entry true false days), log)
              else if match dp_content_length response with
                      | Some n => DownloadConfig.max_file_bytes (Config.download config) <? n
                      | None => false
                      end
              then (Rejected (reject 413 "download exceeds file size limit"),
                    finish (note_event user domain entry true true days), log)
              else
                let counted := note_event user domain entry false false days (sv_downloads sv) in
                if dr_preflight r
                then (Preflight domain entry hosts (dp_content_length response), finish (fun _ => counted), log)
                else
                  let headers := fixed_headers ++ kept_headers (dp_headers response) in
                  if (dr_method r =? "HEAD")%string
                  then (Streamed (dp_status response) headers [] true, finish (fun _ => counted), log)
                  else
                    let '(ok, s, sent) :=
                      worker env (DownloadConfig.max_file_bytes (Config.download config)) token user hosts domain entry
                        (dp_chunks response) counted in
                    (Streamed (dp_status response) headers (snd <$> sent) ok, finish (fun _ => s), log)
          end
      end
  end.
End Request.

(** ** Handlers of the account and the console

    [user] and [admin] are who the session authenticates. *)
Inductive Done : Type :=
| TokenCreated (token : string)
| Changed
| Failed (r : Refusal).

Definition on_downloads (f : Downloads -> Downloads) (sv : DownloadServer) : DownloadServer :=
  {| sv_downloads := f (sv_downloads sv); sv_runtime := sv_runtime sv; sv_limiter := sv_limiter sv |}.

Definition on_runtime (f : Runtime -> Runtime) (sv : DownloadServer) : DownloadServer :=
  {| sv_downloads := sv_downloads sv; sv_runtime := f (sv_runtime sv); sv_limiter := sv_limiter sv |}.

Section DownloadHandlers.
Context `{SecretApi} `{UrlApi} `{!HostApi}.

Definition create_token (now : Z) (id secret : string) (user : result Z Refusal) (name : string) (days : Z)
    (sv : DownloadServer) : Done * DownloadServer :=
  match user with
  | Err e => (Failed e, sv)
  | Ok user =>
      if str_is_empty (str_trim name) || (80 <? str_len name) || has_control name || negb ((1 <=? days) && (days <=? 365))
      then (Failed (reject 400 "invalid token name or lifetime (1–365 days)"), sv)
      else match create_download_token now id secret user (str_trim name) days (sv_downloads sv) with
           | (Ok (Some token), s) => (TokenCreated token, on_downloads (fun _ => s) sv)
           | (Ok None, s) => (Failed forbidden, on_downloads (fun _ => s) sv)
           | (Err _, s) => (Failed (reject 409 "cannot create token; at most 20 active tokens"), on_downloads (fun _ => s) sv)
           end
  end.

Definition revoke_token (now : Z) (user : result Z Refusal) (id : string) (sv : DownloadServer) : Done * DownloadServer :=
  match user with
  | Err e => (Failed e, sv)
  | Ok user => (Changed, on_runtime (cancel_user user) (on_downloads (revoke_download_token now user id) sv))
  end.

Definition permission (now : Z) (admin : result string Refusal) (kind : string) (subject_id : Z) (policy : string)
    (sv : DownloadServer) : Done * DownloadServer :=
  match admin with
  | Err e => (Failed e, sv)
  | Ok username =>
      if negb (existsb (String.eqb kind) ["user"; "group"]) || negb (existsb (String.eqb policy) ["allow"; "deny"; "inherit"])
         || (subject_id <=? 0)
      then (Failed (reject 400 "invalid permission"), sv)
      else match set_download_permission now username kind subject_id policy (sv_downloads sv) with
           | (true, s) => (Changed, on_runtime cancel_all (on_downloads (fun _ => s) sv))
           | (false, s) => (Failed (reject 404 ""), on_downloads (fun _ => s) sv)
           end
  end.

(** The two steps of a change of a block: the table, then the running
    downloads. *)
Definition block (now : Z) (admin : result string Refusal) (domain : string) (subdomains : bool) (reason : string)
    (blocked : bool) (sv : DownloadServer) : Done * DownloadServer :=
  match admin with
  | Err e => (Failed e, sv)
  | Ok username =>
      match domain_input domain with
      | None => (Failed (reject 400 "invalid domain"), sv)
      | Some domain =>
          if (256 <? str_len reason) || has_control reason then (Failed (reject 400 "invalid reason"), sv)
          else
            let sv := on_downloads (set_download_block now username domain subdomains reason blocked) sv in
            (Changed, if blocked then on_runtime (cancel_domain domain subdomains) sv else sv)
      end
  end.

Definition terminate_download (now : Z) (admin : result string Refusal) (id : string) (sv : DownloadServer) :
    Done * DownloadServer :=
  match admin with
  | Err e => (Failed e, sv)
  | Ok username =>
      (Changed, on_runtime (terminate id) (on_downloads (audit_download now username "download_terminated" id) sv))
  end.
End DownloadHandlers.
