(* ===== verification/DownloadSpec.v ===== *)
(** * What downloads guarantee

    Theorems about [Download]: where a download connects to, which addresses
    count as public, what a token stands for, how a block meets running
    downloads, the limits on permits and on the bytes of a day, and what the
    worker may send. *)
From stdpp Require Import gmap.
From S2P Require Import Prelude RustStr Lines Net Headers Url Config RateLimit Quota Users Redirect Download.
Open Scope string_scope.
Open Scope Z_scope.
Open Scope list_scope.
Open Scope mirror_scope.

(** ** Where a download connects to *)

Section Reach.
Context `{DownloadWorld} `{!HostApi} `{!HostLaws}.

(** A URL that passed the checks. *)
Record admissible (url : Url) (host : string) : Prop := {
  ad_scheme : url_scheme url = "https";
  ad_port : url_port_or_known_default url = Some 443;
  ad_username : url_username url = "";
  ad_password : url_password url = None;
  ad_fragment : url_fragment url = None;
  ad_host : url_host_str url = Some host;
  ad_domain : url_domain url = Some host;
  ad_valid : valid_domain host = true;
}.

Lemma target_admissible (value : string) (url : Url) : target value = Some url -> exists host, admissible url host.
Proof.
  unfold target. destruct (negb _); [done|]. destruct (url_parse value) as [u|]; [|done].
  destruct (_ && _) eqn:Hc; [|done]. destruct (url_domain u) as [host|] eqn:Hd; [|done].
  destruct (valid_domain host) eqn:Hv; [|done]. intros [= <-]. exists host.
  rewrite !andb_true_iff, !bool_decide_eq_true, String.eqb_eq in Hc. destruct Hc as [[[[P1 P2] P3] P4] P5].
  constructor; try done; [by destruct (url_username u)|by apply url_domain_host].
Qed.

(** One request of the log, against the tables of its turn. *)
Definition connects_well (method : string) (range : option string) (s : Downloads)
    (e : string * list SocketAddr * DlRequest) : Prop :=
  let '(host, addresses, request) := e in
  admissible (dq_url request) host /\ download_blocked host s = false /\
  addresses <> [] /\ Forall (fun a => public_ip a.1.1 = true) addresses /\
  request = download_request method (dq_url request) range.

Lemma resolved_public (url : Url) (w w' : DlWorld) (addresses : list SocketAddr) :
  resolved url w = (Some addresses, w') -> addresses <> [] /\ Forall (fun a => public_ip a.1.1 = true) addresses.
Proof.
  unfold resolved. destruct (url_host_str url); [|done]. destruct (dns s w) as [[found|] w1]; [|done].
  destruct (_ && _) eqn:Hc; [|done]. intros [= <- _]. apply andb_prop in Hc as [Hc Hp]. apply andb_prop in Hc as [Hn _].
  split; [by destruct found|]. by apply forallb_true_Forall.
Qed.

Lemma hops_connect (method : string) (range : option string) (fuel : nat) :
  forall (seen : nat -> Downloads) (url : Url) (host : string) hosts w log,
  admissible url host ->
  let '(fetched, _, _, log') := hops fuel seen method url range hosts w log in
  fetched <> HostPanic /\
  exists more, log' = log ++ more /\ (length more <= fuel)%nat /\
    forall i e, more !! i = Some e -> connects_well method range (seen i) e.
Proof.
  induction fuel as [|fuel IH]; intros seen url host hosts w log Ha; cbn [hops].
  { split; [done|]. exists []. rewrite app_nil_r. split_and!; [done|done|by intros i e]. }
  rewrite (ad_host _ _ Ha).
  assert (Hnone : exists more, log = log ++ more /\ (length more <= S fuel)%nat /\
    forall i e, more !! i = Some e -> connects_well method range (seen i) e)
    by (exists []; rewrite app_nil_r; split_and!; [done|cbn; lia|by intros i e]).
  destruct (download_blocked host (seen 0%nat)) eqn:Hb; [by split|].
  destruct (resolved url w) as [[addresses|] w1] eqn:Hr; [|by split].
  destruct (negb (pinned_client_ok host addresses)); [by split|].
  set (e := (host, addresses, download_request method url range)).
  apply resolved_public in Hr as [Hne Hp].
  assert (He : connects_well method range (seen 0%nat) e) by done.
  destruct (pinned_send _ _ _ _) as [[response|] w2].
  2: { split; [done|]. exists [e]. split_and!; [done|cbn; lia|]. intros [|i] x Hx; by simplify_eq/=. }
  assert (Hone : exists more, log ++ [e] = log ++ more /\ (length more <= S fuel)%nat /\
    forall i x, more !! i = Some x -> connects_well method range (seen i) x)
    by (exists [e]; split_and!; [done|cbn; lia|]; intros [|i] x Hx; by simplify_eq/=).
  destruct (is_redirect _); [|by split]. destruct (_ ≫= _) as [next|]; [|by split].
  destruct (target (url_to_string next)) as [url'|] eqn:Ht; [|by split].
  apply target_admissible in Ht as [host' Ha'].
  specialize (IH (fun i => seen (S i)) url' host' (hosts ++ [host]) w2 (log ++ [e]) Ha').
  destruct (hops _ _ _ _ _ _ _ _) as [[[fetched hosts'] w3] log'].
  destruct IH as (Hf & more & -> & Hl & Hm). split; [done|]. exists (e :: more). split_and!.
  - by rewrite <-app_assoc.
  - cbn. lia.
  - intros [|i] x Hx; [by simplify_eq/=|]. by apply (Hm i).
Qed.

(** C33: Whatever the upstream redirects to and name servers answer, a download
    makes at most six requests, each over HTTPS to port 443 of a valid host
    name that is not blocked at that turn, without credentials and pinned to
    public addresses only; no other header of the client is passed on, and the
    host of a checked URL is never missing. *)
Theorem downloads_reach_public_hosts (value : string) (url : Url) (seen : nat -> Downloads) (method : string)
    (range : option string) (w : DlWorld) :
  target value = Some url ->
  let '(fetched, _, _, log) := upstream seen url method range w in
  fetched <> HostPanic /\ (length log <= 6)%nat /\
  forall i host addresses request, log !! i = Some (host, addresses, request) ->
    admissible (dq_url request) host /\ download_blocked host (seen i) = false /\
    addresses <> [] /\ Forall (fun a => public_ip a.1.1 = true) addresses /\
    fst <$> dq_headers request ⊆ ["accept-encoding"; "user-agent"; "range"].
Proof.
  intros [host Ha]%target_admissible. unfold upstream.
  pose proof (hops_connect method range 6 seen url host [] w [] Ha) as Hh.
  destruct (hops _ _ _ _ _ _ _ _) as [[[fetched hosts] w'] log]. destruct Hh as (Hf & more & -> & Hl & Hm).
  rewrite app_nil_l. split_and!; [done|done|]. intros i h addresses request Hi.
  destruct (Hm i _ Hi) as (P1 & P2 & P3 & P4 & ->). split_and!; try done.
  intros x Hx. cbn in Hx. destruct range; cbn in Hx; set_solver.
Qed.
End Reach.

(** ** Public addresses *)

(** 192.88.99.0/24. *)
Definition RELAY_ANYCAST : Z * Z := (0xc0586300, 24).

Lemma in_block_range (width n net bits : Z) :
  0 <= width - bits -> net mod 2 ^ (width - bits) = 0 ->
  in_block width n (net, bits) = (net <=? n) && (n <? net + 2 ^ (width - bits)).
Proof.
  intros Hb Hm. unfold in_block. cbn [fst snd]. rewrite !Z.shiftr_div_pow2 by done.
  set (size := 2 ^ (width - bits)) in *. assert (0 < size) by (apply Z.pow_pos_nonneg; lia).
  apply Z.mod_divide in Hm as [k ->]; [|lia]. rewrite Z.div_mul by lia.
  apply eq_true_iff_eq. rewrite andb_true_iff, Z.eqb_eq, Z.leb_le, Z.ltb_lt. split.
  - intros <-. pose proof (Z.mul_div_le n size). pose proof (Z.mul_succ_div_gt n size). lia.
  - intros Hn. symmetry. apply (Z.div_unique_pos n size k (n - k * size)); lia.
Qed.

Lemma octets4_value (n : Z) :
  0 <= n <= U32_MAX -> exists a b c d, octets4 n = [a; b; c; d] /\ n = ((a * 256 + b) * 256 + c) * 256 + d /\
    0 <= a < 256 /\ 0 <= b < 256 /\ 0 <= c < 256 /\ 0 <= d < 256.
Proof.
  intros Hn.
  assert (Hb : from_be 8 (octets4 n) = n) by (apply from_be_digits; [lia|unfold U32_MAX in Hn; simpl; lia]).
  pose proof (be_digits_length 8 4 n) as Hl. pose proof (be_digits_bound 8 4 n ltac:(lia)) as Hbd.
  fold (octets4 n) in Hl, Hbd. destruct (octets4 n) as [|a [|b [|c [|d [|]]]]]; try done.
  change (2 ^ 8) with 256 in Hbd. exists a, b, c, d. repeat (apply Forall_cons in Hbd as [? Hbd]).
  unfold from_be in Hb. cbn [fold_left] in Hb. change (2 ^ 8) with 256 in Hb. split_and!; try done; lia.
Qed.

Lemma public_v4_is_public (n : Z) :
  0 <= n <= U32_MAX -> public_ip (V4 n) = true -> in_block 32 n RELAY_ANYCAST = false -> is_public_v4 n = true.
Proof.
  intros Hn Hp Hr. destruct (octets4_value n Hn) as (a & b & c & d & Ho & Hv & Ha & Hb & Hc & Hd).
  unfold public_ip in Hp. apply negb_true_iff, existsb_false_Forall in Hp. unfold SPECIAL_V4 in Hp.
  repeat (apply Forall_cons in Hp as [? Hp]). clear Hp. unfold RELAY_ANYCAST in Hr.
  repeat match goal with H : in_block 32 n _ = false |- _ =>
    rewrite in_block_range in H by (reflexivity || lia); apply not_true_iff_false in H;
    rewrite andb_true_iff, Z.leb_le, Z.ltb_lt in H; cbn in H end.
  unfold is_public_v4. rewrite Ho. cbn [nth_z nth]. apply negb_true_iff.
  repeat apply orb_false_intro; apply not_true_iff_false; rewrite ?andb_true_iff, ?orb_true_iff, ?Z.eqb_eq, ?Z.leb_le;
    intros Hx; match goal with H : ~ _ |- _ => apply H; clear - Hx Hv Ha Hb Hc Hd; lia end.
Qed.

Lemma land_small (a b : Z) : 0 <= a -> Z.land a b <= a.
Proof.
  intros Ha. assert (Z.ldiff (Z.land a b) a = 0) as Hd.
  { apply Z.bits_inj'. intros i Hi. rewrite Z.ldiff_spec, Z.land_spec, Z.bits_0.
    by destruct (Z.testbit a i), (Z.testbit b i). }
  pose proof (Z.sub_nocarry_ldiff a (Z.land a b) Hd) as Hs.
  assert (0 <= Z.ldiff a (Z.land a b)) by (apply Z.ldiff_nonneg; by left). lia.
Qed.

Lemma segments_value (n : Z) :
  0 <= n <= U128_MAX -> exists s0 s1 s2 s3 rest, segments n = s0 :: s1 :: s2 :: s3 :: rest /\
    0 <= s0 < 65536 /\ 0 <= s1 < 65536 /\ s0 * 2 ^ 112 + s1 * 2 ^ 96 <= n < s0 * 2 ^ 112 + (s1 + 1) * 2 ^ 96.
Proof.
  intros Hn.
  assert (Hb : from_be 16 (segments n) = n) by (apply from_be_digits; [lia|unfold U128_MAX in Hn; simpl; lia]).
  pose proof (be_digits_length 16 8 n) as Hl. pose proof (be_digits_bound 16 8 n ltac:(lia)) as Hbd.
  fold (segments n) in Hl, Hbd. destruct (segments n) as [|s0 [|s1 [|s2 [|s3 [|s4 [|s5 [|s6 [|s7 [|]]]]]]]]]; try done.
  change (2 ^ 16) with 65536 in Hbd. exists s0, s1, s2, s3, [s4; s5; s6; s7]. repeat (apply Forall_cons in Hbd as [? Hbd]).
  unfold from_be in Hb. cbn [fold_left] in Hb. change (2 ^ 16) with 65536 in Hb.
  change (2 ^ 112) with 5192296858534827628530496329220096. change (2 ^ 96) with 79228162514264337593543950336.
  split_and!; try done; lia.
Qed.

Lemma be_digits_first (width : Z) (k : nat) (n : Z) :
  0 <= width -> nth_z (be_digits width (S k) n) 0 = (n / 2 ^ (width * Z.of_nat k)) mod 2 ^ width.
Proof.
  intros Hw. revert n. induction k as [|k IH]; intros n.
  { cbn. by rewrite Z.mul_0_r, Z.pow_0_r, Z.div_1_r. }
  change (be_digits width (S (S k)) n) with (be_digits width (S k) (n / 2 ^ width) ++ [n mod 2 ^ width]).
  unfold nth_z in *. rewrite app_nth1 by (rewrite be_digits_length; lia). rewrite IH, Z.div_div.
  - rewrite <-Z.pow_add_r by lia. do 3 f_equal. lia.
  - pose proof (Z.pow_pos_nonneg 2 width ltac:(lia) Hw). lia.
  - apply Z.pow_pos_nonneg; lia.
Qed.

(** Closed powers and shifts as numbers. *)
Ltac literals :=
  repeat match goal with
  | H : context [Z.shiftl (Zpos ?a) (Zpos ?b)] |- _ =>
      let v := eval vm_compute in (Z.shiftl (Zpos a) (Zpos b)) in change (Z.shiftl (Zpos a) (Zpos b)) with v in H
  | H : context [2 ^ (?a - ?b)] |- _ => let v := eval vm_compute in (2 ^ (a - b)) in change (2 ^ (a - b)) with v in H
  | H : context [2 ^ (Zpos ?a)] |- _ => let v := eval vm_compute in (2 ^ (Zpos a)) in change (2 ^ (Zpos a)) with v in H
  end.

Lemma public_v6_is_public (n : Z) : 0 <= n <= U128_MAX -> public_ip (V6 n) = true -> is_public_address (V6 n) = true.
Proof.
  intros Hn Hp. unfold public_ip in Hp. apply andb_prop in Hp as [Hg Hp]. apply Z.eqb_eq in Hg.
  rewrite Z.shiftr_div_pow2 in Hg by lia.
  assert (Hr : 2 ^ 125 <= n < 2 ^ 126).
  { pose proof (Z.mul_div_le n (2 ^ 125) ltac:(lia)). pose proof (Z.mul_succ_div_gt n (2 ^ 125) ltac:(lia)).
    rewrite Hg in *. change (2 ^ 126) with (2 * 2 ^ 125). lia. }
  apply negb_true_iff, existsb_false_Forall in Hp. unfold SPECIAL_V6 in Hp.
  repeat (apply Forall_cons in Hp as [? Hp]). clear Hp.
  repeat match goal with H : in_block 128 n _ = false |- _ =>
    rewrite in_block_range in H by (reflexivity || lia); apply not_true_iff_false in H;
    rewrite andb_true_iff, Z.leb_le, Z.ltb_lt in H; cbn in H end.
  destruct (segments_value n Hn) as (s0 & s1 & s2 & s3 & rest & Hs & Hs0 & Hs1 & Hv).
  assert (8192 <= s0 < 16384) as Hs0' by (change (2 ^ 125) with 42535295865117307932921825928971026432 in Hr;
    change (2 ^ 126) with 85070591730234615865843651857942052864 in Hr;
    change (2 ^ 112) with 5192296858534827628530496329220096 in Hv; change (2 ^ 96) with 79228162514264337593543950336 in Hv; lia).
  unfold is_public_address. rewrite Hs. cbn [nth_z nth].
  assert (to_ipv4_mapped n = None) as ->.
  { unfold to_ipv4_mapped. destruct (Z.eqb_spec (n / 2 ^ 32) 65535) as [He|]; [|done]. exfalso.
    pose proof (Z.mul_succ_div_gt n (2 ^ 32) ltac:(lia)). rewrite He in *.
    change (2 ^ 125) with 42535295865117307932921825928971026432 in Hr. lia. }
  rewrite andb_true_r. apply negb_true_iff.
  assert (v6_is_multicast n = false) as ->.
  { unfold v6_is_multicast. unfold octets16. rewrite be_digits_first by lia. apply Z.eqb_neq. intros He.
    change (8 * Z.of_nat 15) with 120 in He. rewrite Z.mod_small in He
      by (split; [apply Z.div_pos; lia|apply Z.div_lt_upper_bound; [lia|]; change (2 ^ 120 * 2 ^ 8) with (4 * 2 ^ 126); lia]).
    pose proof (Z.mul_div_le n (2 ^ 120) ltac:(lia)). rewrite He in *.
    change (2 ^ 120) with 1329227995784915872903807060280344576 in *.
    change (2 ^ 126) with 85070591730234615865843651857942052864 in Hr. lia. }
  assert (v6_is_unique_local n = false) as ->.
  { unfold v6_is_unique_local. rewrite Hs. cbn [nth_z nth]. pose proof (land_small s0 65024 ltac:(lia)). lia. }
  assert (v6_is_unicast_link_local n = false) as ->.
  { unfold v6_is_unicast_link_local. rewrite Hs. cbn [nth_z nth]. pose proof (land_small s0 65472 ltac:(lia)). lia. }
  unfold v6_is_loopback, v6_is_unspecified. literals.
  repeat apply orb_false_intro; apply not_true_iff_false; rewrite ?andb_true_iff, ?Z.eqb_eq; intros Hx;
    try (clear - Hx Hr Hs0'; lia); match goal with H : ~ _ |- _ => apply H; clear - Hx Hv Hr Hs1; lia end.
Qed.

(** An address a download may connect to is one the proxy may be
    redirected to, with one exception: the relay anycast block 192.88.99.0/24,
    whose addresses only downloads take for public. *)
Theorem public_ip_stricter (ip : IpAddr) :
  wf_ip ip -> public_ip ip = true ->
  is_public_address ip = true \/ exists n, ip = V4 n /\ in_block 32 n RELAY_ANYCAST = true.
Proof.
  intros Hw Hp. destruct ip as [n|n].
  - destruct (in_block 32 n RELAY_ANYCAST) eqn:Hr; [right; by exists n|]. left. by apply public_v4_is_public.
  - left. by apply public_v6_is_public.
Qed.

(** The exception is real: 192.88.99.1. *)
Lemma relay_anycast_diverges : public_ip (V4 0xc0586301) = true /\ is_public_address (V4 0xc0586301) = false.
Proof. split; reflexivity. Qed.

(** ** What the worker sends *)

(** The body as far as it could be read. *)
Fixpoint readable (chunks : list (option string)) : string :=
  match chunks with
  | Some chunk :: rest => chunk +:+ readable rest
  | _ => ""
  end.

(** The parts of a chunk are the chunk, and none is too long. *)
Lemma split_parts_join (n : nat) (fuel : nat) : (0 < n)%nat -> forall chunk, (String.length chunk <= fuel)%nat ->
  joined (split_parts fuel n chunk) = chunk /\ Forall (fun p => str_len p <= Z.of_nat n) (split_parts fuel n chunk).
Proof.
  intros Hn. induction fuel as [|fuel IH]; intros chunk Hl; cbn [split_parts].
  { destruct chunk; cbn in Hl; [split; [done|constructor]|lia]. }
  destruct (str_is_empty chunk) eqn:He.
  { destruct chunk; [split; [done|constructor]|done]. }
  destruct (decide (n <= String.length chunk)%nat) as [Hc|Hc].
  - destruct (substring_cut chunk n Hc) as (P1 & P2 & P3).
    destruct (IH (String.substring n (String.length chunk - n) chunk)) as [Q1 Q2].
    { rewrite P3. destruct chunk; [done|cbn in *; lia]. }
    cbn [joined foldr]. fold (joined (split_parts fuel n (String.substring n (String.length chunk - n) chunk))).
    rewrite Q1. split; [done|]. constructor; [unfold str_len; lia|done].
  - destruct (substring_short chunk n ltac:(lia)) as [P1 P2]. rewrite P1, P2.
    assert (split_parts fuel n "" = []) as -> by by destruct fuel. cbn. rewrite str_app_nil_r.
    split; [done|]. constructor; [unfold str_len; lia|constructor].
Qed.

Section Accounting.
Context `{SecretApi}.
Variable env : Surroundings.
Variables (token : string) (user : Z) (hosts : list string) (domain entry : string).

Definition charged (day : string) (s : Downloads) : Z :=
  du_bytes (usage_row (ledger (dl_db s)) (day, user, domain, entry)).

Lemma charge_download_row (bytes : Z) (config : Config.t) (daily_day day month : string) (db db' : Db) (ok : bool) :
  0 <= bytes <= 65536 ->
  charge_download user domain entry bytes config daily_day day month db = (ok, db') ->
  du_bytes (usage_row (ledger db') (daily_day, user, domain, entry))
  = du_bytes (usage_row (ledger db) (daily_day, user, domain, entry)) + (if ok then bytes else 0).
Proof.
  intros Hb Hc.
  assert (limit_to_i64 bytes = bytes) as Hl by (unfold limit_to_i64; rewrite u64_to_i64_max_min; unfold I64_MAX; lia).
  unfold charge_download in Hc.
  rewrite Hl in Hc. repeat (case_match; try (simplify_eq; lia)); simplify_eq; cbn -[Z.add];
    unfold usage_row; cbn -[Z.add]; by rewrite lookup_insert, decide_True.
Qed.

Lemma none_blocked_frame (day : string) (hs : list string) :
  (forall i s, charged day (others env i s) = charged day s) ->
  forall i s, let '(free, i', s') := none_blocked env i hs s in charged day s' = charged day s /\ (i <= i')%nat.
Proof.
  intros Ho. induction hs as [|h hs IH]; intros i s; cbn [none_blocked]; [done|].
  destruct (_ || _); [by rewrite Ho; auto|]. specialize (IH (S i) (others env i s)).
  destruct (none_blocked _ _ _ _) as [[free i'] s']. rewrite Ho in IH. intuition lia.
Qed.

Lemma send_part_charge (day part : string) (i : nat) (s : Downloads) :
  (forall i, (days_at env i).1.1 = day) -> (forall i s, charged day (others env i s) = charged day s) ->
  str_len part <= 65536 ->
  let '(ok, i', s') := send_part env token user hosts domain entry part i s in
  charged day s' = charged day s + str_len part \/ (ok = false /\ charged day s' = charged day s).
Proof.
  intros Hd Ho Hp. unfold send_part. destruct (_ || _); [right; by rewrite Ho|].
  pose proof (none_blocked_frame day hosts Ho (S i) (others env i s)) as Hn.
  destruct (none_blocked _ _ _ _) as [[free j] s1]. rewrite Ho in Hn. destruct Hn as [Hn _].
  destruct (negb free); [by right|]. destruct (_ || _); [right; by rewrite Ho|].
  specialize (Hd (S j)). destruct (days_at env (S j)) as [[daily_day d] m]. cbn in Hd. subst daily_day.
  destruct (charge_download _ _ _ _ _ _ _ _ _) as [ok db] eqn:Hc.
  apply charge_download_row in Hc; [|unfold str_len in *; lia].
  change (du_bytes (usage_row (ledger db) (day, user, domain, entry)))
    with (charged day (with_db (fun _ => db) (others env (S j) (others env j s1)))) in Hc.
  fold (charged day (others env (S j) (others env j s1))) in Hc. rewrite !Ho in Hc. rewrite Hc, Hn.
  destruct ok; [by left|]. right. rewrite andb_false_r. split; [done|lia].
Qed.

(** What is sent, charged and left after some parts. *)
Definition Sends (day : string) (parts : list string) (ok : bool) (s s' : Downloads) (more : list (nat * string)) : Prop :=
  (exists left, parts = (snd <$> more) ++ left /\ (ok = true -> left = [])) /\
  exists extra, charged day s' = charged day s + str_len (joined (snd <$> more)) + extra /\
    0 <= extra <= 65536 /\ (ok = true -> extra = 0).

Lemma sends_nothing (day : string) (parts : list string) (ok : bool) (s s' : Downloads) (extra : Z) :
  charged day s' = charged day s + extra -> 0 <= extra <= 65536 -> (ok = true -> parts = [] /\ extra = 0) ->
  Sends day parts ok s s' [].
Proof.
  intros Hc Hx Hok. split; [exists parts; split; [done|apply Hok]|]. exists extra.
  change (str_len (joined (snd <$> []))) with 0. split_and!; [lia|lia|lia|apply Hok].
Qed.

Lemma send_parts_charge (day : string) (parts : list string) :
  (forall i, (days_at env i).1.1 = day) -> (forall i s, charged day (others env i s) = charged day s) ->
  Forall (fun p => str_len p <= 65536) parts ->
  forall i s sent, let '(ok, i', s', sent') := send_parts env token user hosts domain entry parts i s sent in
  exists more, sent' = sent ++ more /\ Sends day parts ok s s' more.
Proof.
  intros Hd Ho. induction parts as [|part parts IH]; intros Hp i s sent; cbn [send_parts].
  { exists []. rewrite app_nil_r. split; [done|]. apply (sends_nothing _ _ _ _ _ 0); [lia|lia|done]. }
  apply Forall_cons in Hp as [Hp Hps]. pose proof (send_part_charge day part i s Hd Ho Hp) as Hc.
  destruct (send_part _ _ _ _ _ _ _ _ _) as [[ok i1] s1]. destruct ok.
  - destruct Hc as [Hc|[]]; [|done]. specialize (IH Hps i1 s1 (sent ++ [(i1, part)])).
    destruct (send_parts _ _ _ _ _ _ _ _ _ _) as [[[ok i2] s2] sent2].
    destruct IH as (more & -> & (left & -> & Hleft) & extra & He & Hx & Hok).
    exists ((i1, part) :: more). split; [by rewrite <-app_assoc|]. split; [by exists left|].
    exists extra. split_and!; try lia; [|done]. cbn [fmap list_fmap joined foldr snd].
    fold (joined (snd <$> more)). rewrite str_len_app. lia.
  - exists []. rewrite app_nil_r. split; [done|]. assert (0 <= str_len part) by (unfold str_len; lia).
    destruct Hc as [Hc|[_ Hc]]; [apply (sends_nothing _ _ _ _ _ (str_len part))|apply (sends_nothing _ _ _ _ _ 0)];
      solve [lia|done].
Qed.

Lemma download_upstream_charged (day d : string) (bytes : Z) (s : Downloads) :
  charged day (download_upstream user domain entry bytes d s) = charged day s.
Proof.
  unfold charged, download_upstream, usage_row. cbn -[Z.add]. destruct (decide ((d, user, domain, entry) = (day, user, domain, entry))) as [He|He].
  - rewrite <-He, lookup_insert, decide_True by done. done.
  - by rewrite lookup_insert_ne.
Qed.

Lemma download_stream_error_charged (day d : string) (s : Downloads) :
  charged day (download_stream_error user domain entry d s) = charged day s.
Proof.
  unfold charged, download_stream_error, usage_row. cbn -[Z.add].
  destruct (download_usage (ledger (dl_db s)) !! (d, user, domain, entry)) as [u|] eqn:Hu; [|done]. cbn -[Z.add].
  destruct (decide ((d, user, domain, entry) = (day, user, domain, entry))) as [He|He].
  - rewrite <-He, lookup_insert, decide_True by done.
    exact (f_equal (fun o => du_bytes (default no_download o)) (eq_sym Hu)).
  - by rewrite lookup_insert_ne.
Qed.

(** The outcome of a run over chunks whose lengths so far add up to [total]. *)
Definition Relays (day : string) (max total : Z) (chunks : list (option string)) (ok : bool) (s s' : Downloads)
    (more : list (nat * string)) : Prop :=
  (exists left, readable chunks = joined (snd <$> more) +:+ left /\
    (ok = true -> left = "" /\ Forall (fun c => is_Some c) chunks)) /\
  total + str_len (joined (snd <$> more)) <= max /\
  exists extra, charged day s' = charged day s + str_len (joined (snd <$> more)) + extra /\
    0 <= extra <= 65536 /\ (ok = true -> extra = 0).

Lemma relays_nothing (day : string) (max total : Z) (chunks : list (option string)) (ok : bool) (s s' : Downloads) :
  total <= max -> charged day s' = charged day s -> (ok = true -> chunks = []) ->
  Relays day max total chunks ok s s' [].
Proof.
  intros Ht Hc Hok. split; [exists (readable chunks); split; [done|]|].
  { intros ->%Hok. split; [done|constructor]. }
  change (str_len (joined (snd <$> []))) with 0. split; [lia|]. exists 0. lia.
Qed.

Lemma work_relays (day : string) (max : Z) (chunks : list (option string)) :
  (forall i, (days_at env i).1.1 = day) -> (forall i s, charged day (others env i s) = charged day s) ->
  max < U64_MAX ->
  forall total i s sent, 0 <= total <= max ->
  let '(ok, i', s', sent') := work env max token user hosts domain entry chunks total i s sent in
  exists more, sent' = sent ++ more /\ Relays day max total chunks ok s s' more.
Proof.
  intros Hd Ho Hm. induction chunks as [|[chunk|] chunks IH]; intros total i s sent Ht; cbn [work].
  1, 3: exists []; rewrite app_nil_r; split; [done|]; apply relays_nothing; [lia|done|done].
  set (s0 := download_upstream _ _ _ _ _ _).
  assert (H0 : charged day s0 = charged day s) by (unfold s0; by rewrite download_upstream_charged, Ho).
  assert (Hstop : exists more, sent = sent ++ more /\ Relays day max total (Some chunk :: chunks) false s s0 more)
    by (exists []; rewrite app_nil_r; split; [done|]; (apply relays_nothing; [lia|done|done])).
  destruct (stopped env i); [done|]. assert (Hl : 0 <= str_len chunk) by (unfold str_len; lia).
  destruct (sat_add_u64 total (str_len chunk) >? max) eqn:Hover; [done|].
  assert (sat_add_u64 total (str_len chunk) = total + str_len chunk) as Hsum by (unfold sat_add_u64 in *; lia).
  rewrite Hsum in *. destruct (split_parts_join PART (String.length chunk) ltac:(unfold PART; lia) chunk ltac:(lia)) as [Hj Hf].
  change (Z.of_nat PART) with 65536 in Hf.
  pose proof (send_parts_charge day _ Hd Ho Hf (S i) s0 sent) as Hs.
  destruct (send_parts _ _ _ _ _ _ _ _ _ _) as [[[ok i1] s1] sent1].
  destruct Hs as (more & -> & (left & Hparts & Hleft) & extra & Hc & Hx & Hok).
  assert (Hchunk : chunk = joined (snd <$> more) +:+ joined left) by by rewrite <-joined_app, <-Hparts.
  assert (Hlen : str_len chunk = str_len (joined (snd <$> more)) + str_len (joined left))
    by (rewrite Hchunk at 1; apply str_len_app).
  assert (Hl' : 0 <= str_len (joined left)) by (unfold str_len; lia). destruct ok.
  - specialize (IH (total + str_len chunk) i1 s1 (sent ++ more) ltac:(lia)).
    destruct (work _ _ _ _ _ _ _ _ _ _ _ _) as [[[ok2 i2] s2] sent2].
    destruct IH as (more2 & -> & (left2 & Hr & Hl2) & Hmax & extra2 & Hc2 & Hx2 & Hok2).
    rewrite (Hleft eq_refl) in *. change (joined []) with "" in *. change (str_len "") with 0 in *. rewrite str_app_nil_r in Hchunk.
    exists (more ++ more2). split; [by rewrite app_assoc|]. unfold Relays.
    rewrite fmap_app, joined_app, str_len_app, <-Hchunk. split_and!; [|lia|].
    + exists left2. cbn [readable]. rewrite Hr, str_app_assoc. split; [done|]. intros Hk. destruct (Hl2 Hk) as [-> ?].
      split; [done|]. constructor; [by eexists|done].
    + exists extra2. pose proof (Hok eq_refl). split_and!; [lia|lia|lia|done].
  - exists more. split; [done|]. split; [|split; [lia|]].
    + exists (joined left +:+ readable chunks). cbn [readable]. split; [|done].
      rewrite Hchunk at 1. by rewrite <-str_app_assoc.
    + exists extra. split_and!; [lia|lia|lia|done].
Qed.

(** C32: Over a day and with nobody else charging the same row, the bytes the
    worker hands to the client are a prefix of the upstream's body within the
    size limit, they are what the row is charged, up to one last part of at
    most 64 KiB that is charged and then not delivered, and an unfailed run
    has delivered and charged the whole body. *)
Theorem downloads_charge_what_they_send (day : string) (max : Z) (chunks : list (option string)) (s : Downloads) :
  0 <= max < U64_MAX -> (forall i, (days_at env i).1.1 = day) ->
  (forall i s, charged day (others env i s) = charged day s) ->
  let '(ok, s', sent) := worker env max token user hosts domain entry chunks s in
  let body := joined (snd <$> sent) in
  (exists left, readable chunks = body +:+ left /\ (ok = true -> left = "" /\ Forall (fun c => is_Some c) chunks)) /\
  str_len body <= max /\
  exists extra, charged day s' = charged day s + str_len body + extra /\ 0 <= extra <= 65536 /\ (ok = true -> extra = 0).
Proof.
  intros Hm Hd Ho. unfold worker. pose proof (work_relays day max chunks Hd Ho ltac:(lia) 0 0%nat s [] ltac:(lia)) as Hw.
  destruct (work _ _ _ _ _ _ _ _ _ _ _ _) as [[[ok i] s1] sent]. destruct Hw as (more & -> & Hr & Hmax & extra & Hc & Hx).
  rewrite app_nil_l. split_and!; [done|lia|]. exists extra. split; [|done].
  destruct ok; [done|]. by rewrite download_stream_error_charged, Ho.
Qed.

(** ** Revocation *)

(** What is out after point [n] is at most one part, and no later than
    [n + 2]. *)
Definition EndsBy (n : nat) (sent : list (nat * string)) : Prop :=
  exists before late, sent = before ++ late /\ Forall (fun e => e.1 <= n)%nat before /\
    (length late <= 1)%nat /\ Forall (fun e => e.1 <= n + 2)%nat late.

Section Void.
Variable n : nat.
Hypothesis void : forall i s, (n <= i)%nat -> authenticate_download_token (clock env i) token (others env i s) <> Some user.

Lemma none_blocked_later (hs : list string) :
  forall i s, let '(_, i', _) := none_blocked env i hs s in (i <= i')%nat.
Proof.
  induction hs as [|h hs IH]; intros i s; cbn [none_blocked]; [lia|]. destruct (_ || _); [lia|].
  specialize (IH (S i) (others env i s)). destruct (none_blocked _ _ _ _) as [[free i'] s']. lia.
Qed.

Lemma void_part (part : string) (i : nat) (s : Downloads) :
  let '(ok, i', _) := send_part env token user hosts domain entry part i s in
  (i < i')%nat /\ (ok = true -> (i < n)%nat /\ (i' <= n + 2)%nat).
Proof.
  unfold send_part. destruct (_ || _) eqn:Hc; [split; [lia|done]|]. rewrite !orb_false_iff, !negb_false_iff in Hc.
  destruct Hc as [_ Ha%bool_decide_eq_true]. pose proof (none_blocked_later hosts (S i) (others env i s)) as Hj.
  destruct (none_blocked _ _ _ _) as [[free j] s1].
  destruct (negb free); [split; [lia|done]|]. destruct (_ || _) eqn:Hc; [split; [lia|done]|].
  rewrite orb_false_iff, negb_false_iff in Hc.
  destruct Hc as [_ Hb%bool_decide_eq_true]. destruct (days_at env (S j)) as [[daily_day d] m].
  destruct (charge_download _ _ _ _ _ _ _ _ _) as [ok db]. split; [lia|]. intros _.
  assert (~ (n <= i)%nat) by (intros Hi; by apply (void i s Hi)).
  assert (~ (n <= j)%nat) by (intros Hi; by apply (void j s1 Hi)). lia.
Qed.

Lemma void_parts (parts : list string) :
  forall i s sent, let '(ok, i', _, sent') := send_parts env token user hosts domain entry parts i s sent in
  (i <= i')%nat /\ exists more, sent' = sent ++ more /\ ((n <= i)%nat -> more = []) /\
    (Forall (fun e => e.1 <= n)%nat more \/ (n < i')%nat /\ EndsBy n more).
Proof.
  induction parts as [|part parts IH]; intros i s sent; cbn [send_parts].
  { split; [done|]. exists []. rewrite app_nil_r. split_and!; [done|done|]. left. constructor. }
  pose proof (void_part part i s) as Hp. destruct (send_part _ _ _ _ _ _ _ _ _) as [[ok i1] s1]. destruct Hp as [Hlt Hp].
  destruct ok.
  2: { split; [lia|]. exists []. rewrite app_nil_r. split_and!; [done|done|]. left. constructor. }
  destruct (Hp eq_refl) as [Hi H1]. specialize (IH i1 s1 (sent ++ [(i1, part)])).
  destruct (send_parts _ _ _ _ _ _ _ _ _ _) as [[[ok2 i2] s2] sent2]. destruct IH as (Hi2 & more & -> & Hnone & Hm).
  split; [lia|]. exists ((i1, part) :: more). rewrite <-app_assoc. split_and!; [done|lia|].
  destruct (decide (i1 <= n)%nat) as [Hle|Hgt].
  - destruct Hm as [Hm|(Hl & before & late & -> & P1 & P2 & P3)]; [left; by constructor|right].
    split; [done|]. exists ((i1, part) :: before), late. split_and!; [done|by constructor|done|done].
  - rewrite (Hnone ltac:(lia)) in *. right. split; [lia|]. exists [], [(i1, part)].
    split_and!; [done|constructor|done|]. constructor; [done|constructor].
Qed.

Lemma void_work (max : Z) (chunks : list (option string)) :
  forall total i s sent, let '(_, _, _, sent') := work env max token user hosts domain entry chunks total i s sent in
  exists more, sent' = sent ++ more /\ ((n <= i)%nat -> more = []) /\ EndsBy n more.
Proof.
  assert (Hnil : EndsBy n []) by (exists [], []; split_and!; [done|constructor|cbn; lia|constructor]).
  induction chunks as [|[chunk|] chunks IH]; intros total i s sent; cbn [work].
  1, 3: exists []; rewrite app_nil_r; by split_and!.
  set (s0 := download_upstream _ _ _ _ _ _).
  assert (Hstop : exists more, sent = sent ++ more /\ ((n <= i)%nat -> more = []) /\ EndsBy n more)
    by (exists []; rewrite app_nil_r; by split_and!).
  destruct (stopped env i); [done|]. destruct (_ >? _); [done|].
  pose proof (void_parts (split_parts (String.length chunk) PART chunk) (S i) s0 sent) as Hp.
  destruct (send_parts _ _ _ _ _ _ _ _ _ _) as [[[ok i1] s1] sent1].
  destruct Hp as (Hi1 & more & -> & Hnone & Hm).
  assert (Hends : EndsBy n more).
  { destruct Hm as [Hm|[_ Hm]]; [|done]. exists more, []. rewrite app_nil_r. split_and!; [done|done|cbn; lia|constructor]. }
  destruct ok; [|exists more; split_and!; [done|intros ?; apply Hnone; lia|done]].
  specialize (IH (sat_add_u64 total (str_len chunk)) i1 s1 (sent ++ more)).
  destruct (work _ _ _ _ _ _ _ _ _ _ _ _) as [[[ok2 i2] s2] sent2]. destruct IH as (more2 & -> & Hnone2 & Hm2).
  exists (more ++ more2). split_and!; [by rewrite app_assoc|intros ?; rewrite (Hnone ltac:(lia)); apply Hnone2; lia|].
  destruct Hm as [Hm|[Hl Hm]].
  - destruct Hm2 as (before & late & -> & P1 & P2 & P3). exists (more ++ before), late.
    split_and!; [by rewrite app_assoc|by apply Forall_app|done|done].
  - rewrite Hnone2 by lia. by rewrite app_nil_r.
Qed.
End Void.

(** Once a token is void - revoked, expired, or its user without
    permission - from some point on, whatever state the others leave, a
    running download delivers at most one more part, the one that had passed
    its second check, and that within the two points of its charge and its
    delivery. *)
Theorem void_tokens_stop_downloads (n : nat) (max : Z) (chunks : list (option string)) (s : Downloads) :
  (forall i s, (n <= i)%nat -> authenticate_download_token (clock env i) token (others env i s) <> Some user) ->
  let '(_, _, sent) := worker env max token user hosts domain entry chunks s in
  exists before late, sent = before ++ late /\ Forall (fun e => e.1 <= n)%nat before /\
    (length late <= 1)%nat /\ Forall (fun e => e.1 <= n + 2)%nat late.
Proof.
  intros Hv. unfold worker. pose proof (void_work n Hv max chunks 0 0%nat s []) as Hw.
  destruct (work _ _ _ _ _ _ _ _ _ _ _ _) as [[[ok i] s1] sent]. by destruct Hw as (more & -> & _ & Hm).
Qed.
End Accounting.

(** ** Permits and blocks among concurrent requests

    The steps of concurrent requests on the tables and on the running
    downloads, each under its own lock: a turn of the redirect loop registers
    its host and then asks for blocks, the console writes a block and then
    cancels. *)
Record Downloading : Type := { tables : Downloads; active : Runtime; refused : gset string }.

Inductive Step : Type :=
| Acquire (id : string) (user : Z) (config : DownloadConfig.t)
| Release (id : string)
| RegisterHost (id h : string)
| AskBlocked (id h : string)
| WriteBlock (now : Z) (actor domain : string) (subdomains : bool) (reason : string) (blocked : bool)
| CancelDomain (domain : string) (subdomains : bool)
| CancelUser (user : Z)
| CancelAll
| Terminate (id : string)
| Other (f : Downloads -> Downloads).

Definition on_active (f : Runtime -> Runtime) (d : Downloading) : Downloading :=
  {| tables := tables d; active := f (active d); refused := refused d |}.

Definition on_tables (f : Downloads -> Downloads) (d : Downloading) : Downloading :=
  {| tables := f (tables d); active := active d; refused := refused d |}.

Definition dl_step (e : Step) (d : Downloading) : Downloading :=
  match e with
  | Acquire id user config => on_active (fun rt => default rt (acquire id user config rt)) d
  | Release id => on_active (release id) d
  | RegisterHost id h => on_active (host id h) d
  | AskBlocked id h =>
      if download_blocked h (tables d)
      then {| tables := tables d; active := active d; refused := {[id]} ∪ refused d |} else d
  | WriteBlock now actor domain subdomains reason blocked =>
      on_tables (set_download_block now actor domain subdomains reason blocked) d
  | CancelDomain domain subdomains => on_active (cancel_domain domain subdomains) d
  | CancelUser user => on_active (cancel_user user) d
  | CancelAll => on_active cancel_all d
  | Terminate id => on_active (terminate id) d
  | Other f => on_tables f d
  end.

Definition dl_run (steps : list Step) (d : Downloading) : Downloading := fold_left (fun d e => dl_step e d) steps d.

(** The user of every permit. *)
Definition permit_users (rt : Runtime) : gmap string Z := Active.user <$> rt.

Lemma permit_users_alter (f : Active.t -> Active.t) (id : string) (rt : Runtime) :
  (forall a, Active.user (f a) = Active.user a) -> permit_users (alter f id rt) = permit_users rt.
Proof.
  intros Hf. apply map_eq. intros i. unfold permit_users, Runtime in *. rewrite !lookup_fmap, lookup_alter.
  case_decide; [subst i|done]. destruct (rt !! id) as [a|]; [|done]. cbn. by rewrite Hf.
Qed.

Lemma permit_users_cancel_where (p : Active.t -> bool) (rt : Runtime) :
  permit_users (cancel_where p rt) = permit_users rt.
Proof. unfold permit_users, cancel_where. rewrite <-map_fmap_compose. apply map_fmap_ext. intros i a _. cbn. by destruct (p a). Qed.

Lemma running_users (user : Z) (rt : Runtime) :
  running user rt = Z.of_nat (size (filter (fun p => p.2 = user) (permit_users rt))).
Proof.
  unfold running, permit_users. f_equal. rewrite map_filter_fmap, map_size_fmap. f_equal.
Qed.

Lemma size_users (rt : Runtime) : size (permit_users rt) = size rt.
Proof. apply map_size_fmap. Qed.

Section PermitBounds.
Variables most most_user : Z.

Definition Within (rt : Runtime) : Prop :=
  Z.of_nat (size rt) <= most /\ forall user, running user rt <= most_user.

Definition config_within (e : Step) : Prop :=
  match e with
  | Acquire _ _ config => DownloadConfig.max_concurrent config <= most /\ DownloadConfig.max_user_concurrent config <= most_user
  | _ => True
  end.

Lemma within_users (rt rt' : Runtime) : permit_users rt = permit_users rt' -> Within rt -> Within rt'.
Proof.
  intros He [P1 P2]. split; [by rewrite <-size_users, <-He, size_users|].
  intros u. rewrite running_users, <-He, <-running_users. apply P2.
Qed.

Lemma size_insert_le {V} (m : gmap string V) (k : string) (v : V) : (size (<[k := v]> m) <= S (size m))%nat.
Proof. rewrite map_size_insert. case_match; cbn; lia. Qed.

Lemma within_acquire (id : string) (user : Z) (config : DownloadConfig.t) (rt rt' : Runtime) :
  config_within (Acquire id user config) -> Within rt -> acquire id user config rt = Some rt' -> Within rt'.
Proof.
  intros [C1 C2] [P1 P2] Ha. unfold acquire in Ha. destruct (_ || _) eqn:Hc; [done|]. injection Ha as <-.
  apply orb_false_elim in Hc as [Hc1 Hc2]. apply Z.leb_gt in Hc1, Hc2.
  set (a := {| Active.user := user; Active.hosts := []; Active.cancelled := false |}).
  unfold Within, running, Runtime in *.
  split; [pose proof (size_insert_le rt id a); lia|]. intros u. pose proof (P2 u) as Hu.
  rewrite map_filter_insert. case_decide as Hd; cbn in Hd.
  - subst u. pose proof (size_insert_le (filter (fun p : string * Active.t => Active.user p.2 = user) rt) id a). lia.
  - rewrite map_filter_delete, map_size_delete. case_match; cbn in *; lia.
Qed.

Lemma within_step (e : Step) (d : Downloading) : config_within e -> Within (active d) -> Within (active (dl_step e d)).
Proof.
  intros Hc Hw. destruct e; cbn; try done.
  - destruct (acquire _ _ _ _) as [rt|] eqn:Ha; [|done]. by apply (within_acquire _ _ _ _ _ Hc Hw Ha).
  - unfold Within, running, release, Runtime in *. destruct Hw as [P1 P2]. split; [rewrite map_size_delete; case_match; cbn in *; lia|].
    intros u. pose proof (P2 u). unfold running in *. rewrite map_filter_delete, map_size_delete. case_match; cbn in *; lia.
  - eapply within_users; [|done]. symmetry. by apply permit_users_alter.
  - by destruct (download_blocked _ _).
  - eapply within_users; [|done]. symmetry. apply permit_users_cancel_where.
  - eapply within_users; [|done]. symmetry. apply permit_users_cancel_where.
  - eapply within_users; [|done]. symmetry. apply permit_users_cancel_where.
  - eapply within_users; [|done]. symmetry. by apply permit_users_alter.
Qed.

(** Whatever concurrent requests do, and though the configuration may
    change between them, no more downloads run at once, in all and for one
    user, than the largest limits a permit was asked under. *)
Theorem running_downloads_bounded (steps : list Step) (d : Downloading) :
  0 <= most -> 0 <= most_user -> active d = ∅ -> Forall config_within steps ->
  Z.of_nat (size (active (dl_run steps d))) <= most /\ forall user, running user (active (dl_run steps d)) <= most_user.
Proof.
  intros Hm Hu He Hs. assert (Hw : Within (active d)).
  { unfold Within, running, Runtime in *. rewrite He. split; [by rewrite map_size_empty|]. intros u. by rewrite map_filter_empty, map_size_empty. }
  clear He. revert d Hw. induction Hs as [|e steps Hc Hs IH]; intros d Hw; [done|]. apply IH. by apply within_step.
Qed.
End PermitBounds.

Section BlockRace.
Variables (id h domain : string) (subdomains : bool).
Hypothesis covers : block_covers h domain subdomains = true.

(** The permit is held throughout and nobody lifts the block. *)
Definition keeps_block (e : Step) : Prop :=
  match e with
  | Acquire i _ _ | Release i => i <> id
  | WriteBlock _ _ d sub _ blocked => d = domain -> blocked = true /\ sub = subdomains
  | Other f => forall s, download_blocks (f s) = download_blocks s
  | _ => True
  end.

Definition is_blocked (d : Downloading) : Prop :=
  exists row, download_blocks (tables d) !! domain = Some row /\ Block.subdomains row = subdomains.

Definition is_registered (d : Downloading) : Prop := exists a, active d !! id = Some a /\ h ∈ Active.hosts a.

Definition is_stopped (d : Downloading) : Prop := id ∈ refused d \/ is_cancelled id (active d) = true.

Lemma blocked_kept (e : Step) (d : Downloading) : keeps_block e -> is_blocked d -> is_blocked (dl_step e d).
Proof.
  intros Hk (row & Hr & Hs). destruct e; try (by exists row).
  - cbn. destruct (download_blocked _ _); by exists row.
  - cbn in Hk. unfold is_blocked. cbn. destruct (decide (domain0 = domain)) as [->|Hd].
    + destruct (Hk eq_refl) as [-> ->]. cbn. eexists. rewrite lookup_insert, decide_True by done. by split.
    + exists row. destruct blocked; cbn; rewrite ?lookup_insert_ne, lookup_delete_ne by done; done.
  - exists row. cbn. by rewrite (Hk (tables d)).
Qed.

Lemma cancel_where_lookup (p : Active.t -> bool) (rt : Runtime) (a : Active.t) :
  rt !! id = Some a -> cancel_where p rt !! id = Some (if p a then Active.cancel a else a).
Proof. intros Ha. unfold cancel_where, Runtime in *. rewrite lookup_fmap, Ha. done. Qed.

(** A step keeps the permit, its hosts and its cancellation. *)
Lemma permit_kept (e : Step) (d : Downloading) (a : Active.t) :
  keeps_block e -> active d !! id = Some a ->
  exists a', active (dl_step e d) !! id = Some a' /\ Active.hosts a ⊆ Active.hosts a' /\
    (Active.cancelled a = true -> Active.cancelled a' = true).
Proof.
  intros Hk Ha. pose proof (cancel_where_lookup) as Hc.
  destruct e; cbn in *; unfold acquire, release, host, terminate, Runtime in *; try (by exists a).
  - destruct (_ || _); [by exists a|]. exists a. cbn. by rewrite lookup_insert_ne.
  - exists a. by rewrite lookup_delete_ne.
  - rewrite lookup_alter. case_decide; [subst; rewrite Ha|by exists a].
    exists (Active.add_host h0 a). split_and!; [done|cbn; set_solver|done].
  - exists a. by destruct (download_blocked _ _).
  - eexists. split; [by apply Hc|]. by destruct (existsb _ _).
  - eexists. split; [by apply Hc|]. by destruct (_ =? _).
  - eexists. split; [by apply Hc|]. done.
  - rewrite lookup_alter. case_decide; [subst; rewrite Ha|by exists a]. by exists (Active.cancel a).
Qed.

Lemma registered_kept (e : Step) (d : Downloading) : keeps_block e -> is_registered d -> is_registered (dl_step e d).
Proof.
  intros Hk (a & Ha & Hh). destruct (permit_kept e d a Hk Ha) as (a' & Ha' & Hs & _). exists a'. split; [done|set_solver].
Qed.

Lemma stopped_kept (e : Step) (d : Downloading) : keeps_block e -> is_stopped d -> is_stopped (dl_step e d).
Proof.
  intros Hk [Hr|Hc].
  - left. destruct e; try done. cbn. destruct (download_blocked _ _); [cbn; set_solver|done].
  - right. unfold is_cancelled in *. destruct (active d !! id) as [a|] eqn:Ha; [|done].
    destruct (permit_kept e d a Hk Ha) as (a' & -> & _ & Hk'). auto.
Qed.

Lemma run_kept (P : Downloading -> Prop) :
  (forall e d, keeps_block e -> P d -> P (dl_step e d)) ->
  forall steps d, Forall keeps_block steps -> P d -> P (dl_run steps d).
Proof. intros Hp steps d Hs. revert d. induction Hs as [|e steps He Hs IH]; intros d Hd; [done|]. apply IH. auto. Qed.

Lemma asked_refuses (d : Downloading) : is_blocked d -> is_stopped (dl_step (AskBlocked id h) d).
Proof.
  intros (row & Hr & Hs). left. cbn. unfold download_blocked.
  assert (existsb (fun p => block_covers h p.1 (Block.subdomains p.2)) (map_to_list (download_blocks (tables d))) = true) as ->.
  { apply existsb_exists. exists (domain, row). split; [by apply list_elem_of_In, elem_of_map_to_list|]. cbn. by rewrite Hs. }
  cbn. set_solver.
Qed.

Lemma cancel_stops (d : Downloading) : is_registered d -> is_stopped (dl_step (CancelDomain domain subdomains) d).
Proof.
  intros (a & Ha & Hh). right. cbn. unfold is_cancelled, cancel_domain. rewrite (cancel_where_lookup _ _ _ Ha).
  assert (existsb (fun x => (x =? domain)%string || (subdomains && ends_with ("." +:+ domain) x)) (Active.hosts a) = true) as ->.
  { apply existsb_exists. exists h. split; [by apply list_elem_of_In|exact covers]. }
  done.
Qed.

Lemma register_registers (d : Downloading) : is_Some (active d !! id) -> is_registered (dl_step (RegisterHost id h) d).
Proof.
  intros [a Ha]. exists (Active.add_host h a). cbn. unfold host, Runtime in *. rewrite lookup_alter, decide_True by done.
  rewrite Ha. split; [done|]. cbn. set_solver.
Qed.

Lemma write_blocks (now : Z) (actor reason : string) (d : Downloading) :
  is_blocked (dl_step (WriteBlock now actor domain subdomains reason true) d).
Proof. eexists. cbn. rewrite lookup_insert, decide_True by done. by split. Qed.

Lemma dl_run_app (a b : list Step) (d : Downloading) : dl_run (a ++ b) d = dl_run b (dl_run a d).
Proof. apply fold_left_app. Qed.

(** Once [e] has made [P], it holds to the end. *)
Lemma run_from (P : Downloading -> Prop) (steps : list Step) (i : nat) (e : Step) (d : Downloading) :
  (forall e d, keeps_block e -> P d -> P (dl_step e d)) -> Forall keeps_block steps -> steps !! i = Some e ->
  P (dl_step e (dl_run (take i steps) d)) -> forall j, (i < j)%nat -> P (dl_run (take j steps) d).
Proof.
  intros Hp Hs He Hd j Hj.
  assert (take j steps = take i steps ++ e :: take (j - S i) (drop (S i) steps)) as ->.
  { rewrite <-(take_drop i (take j steps)), take_take, skipn_firstn_comm. replace (min i j) with i by lia. f_equal.
    rewrite (drop_S _ _ _ He). by replace (j - i)%nat with (S (j - S i)) by lia. }
  rewrite dl_run_app. cbn [dl_run fold_left]. apply (run_kept P Hp); [|done].
  apply Forall_take, Forall_drop, Hs.
Qed.

Lemma permit_present (steps : list Step) (d : Downloading) :
  Forall keeps_block steps -> is_Some (active d !! id) -> is_Some (active (dl_run steps d) !! id).
Proof.
  intros Hs. apply (run_kept (fun d => is_Some (active d !! id))); [|done].
  intros e x Hk [a Ha]. destruct (permit_kept e x a Hk Ha) as (a' & -> & _). by eexists.
Qed.

(** A block of a domain and a download through one of its hosts cannot
    miss each other. The download registers the host before it asks for
    blocks, the console writes the block before it cancels; so in every
    interleaving of these four steps with whatever else goes on, the download
    is refused or cancelled. *)
Theorem block_refuses_or_cancels (steps : list Step) (d : Downloading) (r c w k : nat) (now : Z) (actor reason : string) :
  Forall keeps_block steps -> is_Some (active d !! id) ->
  steps !! r = Some (RegisterHost id h) -> steps !! c = Some (AskBlocked id h) -> (r < c)%nat ->
  steps !! w = Some (WriteBlock now actor domain subdomains reason true) ->
  steps !! k = Some (CancelDomain domain subdomains) -> (w < k)%nat ->
  id ∈ refused (dl_run steps d) \/ is_cancelled id (active (dl_run steps d)) = true.
Proof.
  intros Hs Hd Hr Hc Hrc Hw Hk Hwk. change (is_stopped (dl_run steps d)).
  assert (Hend : forall i e, steps !! i = Some e -> is_stopped (dl_step e (dl_run (take i steps) d)) -> is_stopped (dl_run steps d)).
  { intros i e He Hi. rewrite <-(firstn_all steps).
    apply (run_from is_stopped steps i e d stopped_kept Hs He Hi). by apply lookup_lt_Some in He. }
  assert (w <> c) by congruence. destruct (decide (w < c)%nat) as [Hwc|Hcw].
  - apply (Hend c _ Hc), asked_refuses. apply (run_from is_blocked steps w _ d blocked_kept Hs Hw (write_blocks _ _ _ _) c Hwc).
  - apply (Hend k _ Hk), cancel_stops. apply (run_from is_registered steps r _ d registered_kept Hs Hr); [|lia].
    apply register_registers, permit_present; [by apply Forall_take|done].
Qed.
End BlockRace.

(** ** Witnesses *)

#[export] Instance SimpleHosts : @HostApi SimpleUrlApi := {|
  url_domain u := Some (su_host u);
  url_to_string := simple_as_str : @Url SimpleUrlApi -> string;
|}.

#[export] Instance SimpleHosts_laws : @HostLaws SimpleUrlApi SimpleHosts.
Proof. split. done. Qed.

(** Upstreams that answer from a script; every name is a public address. *)
#[export] Instance ScriptDownloads : @DownloadWorld AssocHeaders SimpleUrlApi := {|
  DlWorld := list (@DlResponse AssocHeaders);
  dns host w := (Some [(V4 134744072, 0, 443)], w);
  pinned_client_ok _ _ := true;
  pinned_send _ _ _ w := match w with r :: w => (Some r, w) | [] => (None, []) end;
|}.

Definition no_downloads : Downloads := {|
  dl_db := {| accounts := one_user; ledger := empty_ledger |};
  download_permissions := {[("user", 7) := "allow"]}; download_tokens := ∅; download_blocks := ∅;
|}.

(** An upstream that redirects to another host. *)
Definition dl_script : @DlWorld AssocHeaders SimpleUrlApi ScriptDownloads := [
  {| dp_status := 302; dp_headers := [("location", "https://b.example/f")] : @HeaderMap AssocHeaders;
     dp_content_length := None; dp_chunks := [] |};
  {| dp_status := 200; dp_headers := [] : @HeaderMap AssocHeaders; dp_content_length := Some 4; dp_chunks := [Some "data"] |}].

Definition dl_log : @DlLog SimpleUrlApi :=
  let entry host := (host, [(V4 134744072, 0, 443)], @download_request SimpleUrlApi "GET" (sample_target host) (Some "bytes=0-3")) in
  [entry "a.example"; entry "b.example"].

Lemma dl_upstream :
  (@upstream AssocHeaders SimpleUrlApi ScriptDownloads SimpleHosts (fun _ => no_downloads) (sample_target "a.example")
     "GET" (Some "bytes=0-3") dl_script).2 = dl_log.
Proof.
  exact (@eq_refl _ dl_log <: (@upstream AssocHeaders SimpleUrlApi ScriptDownloads SimpleHosts (fun _ => no_downloads)
    (sample_target "a.example") "GET" (Some "bytes=0-3") dl_script).2 = dl_log).
Qed.

Lemma downloads_reach_public_hosts_witness :
  (length dl_log <= 6)%nat /\
  fst <$> dq_headers (@download_request SimpleUrlApi "GET" (sample_target "b.example") (Some "bytes=0-3"))
    ⊆ ["accept-encoding"; "user-agent"; "range"].
Proof.
  assert (Ht : @target SimpleUrlApi SimpleHosts "https://a.example/f" = Some (sample_target "a.example")) by (vm_compute; reflexivity).
  pose proof (@downloads_reach_public_hosts AssocHeaders SimpleUrlApi ScriptDownloads SimpleHosts SimpleHosts_laws
    "https://a.example/f" (sample_target "a.example") (fun _ => no_downloads) "GET" (Some "bytes=0-3") dl_script Ht) as Hr.
  pose proof dl_upstream as Hlog. destruct (upstream _ _ _ _ _) as [[[fetched hosts] w] log].
  cbn [snd] in Hlog. subst log. destruct Hr as (_ & Hl & Hr). split; [exact Hl|].
  destruct (Hr 1%nat _ _ _ eq_refl) as (_ & _ & _ & _ & Hh). exact Hh.
Defined.

Lemma public_ip_stricter_witness :
  is_public_address (V4 134744072) = true \/ exists n, V4 134744072 = V4 n /\ in_block 32 n RELAY_ANYCAST = true.
Proof. apply public_ip_stricter; [vm_compute; split; discriminate|vm_compute; reflexivity]. Defined.

(** Ann's token, and surroundings that leave everything as it is. *)
Definition with_token : Downloads :=
  (create_download_token 100 "t1" "0123456789abcdef0123456789abcdef0123456789abcdef" 7 "laptop" 30 no_downloads).2.

Definition sample_token : string := "mpd_0123456789abcdef0123456789abcdef0123456789abcdef".

Definition download_config : DownloadConfig.t := {|
  DownloadConfig.enabled := true; DownloadConfig.max_file_bytes := 6; DownloadConfig.daily_user_bytes := 100;
  DownloadConfig.max_concurrent := 2; DownloadConfig.max_user_concurrent := 1; DownloadConfig.requests_per_minute := 10;
  DownloadConfig.max_duration_secs := 60; DownloadConfig.bandwidth_bytes_per_sec := 1048576;
|}.

Definition downloads_on : Config.t :=
  let c := Config.default in {|
  Config.database_path := Config.database_path c; Config.listen_addr := Config.listen_addr c;
  Config.management := Config.management c; Config.metrics := Config.metrics c;
  Config.public_base_url := Config.public_base_url c; Config.site := Config.site c;
  Config.trusted_proxies := Config.trusted_proxies c; Config.enabled_proxies := Config.enabled_proxies c;
  Config.upstreams := Config.upstreams c; Config.oci_token_issuers := Config.oci_token_issuers c;
  Config.timeout := Config.timeout c; Config.upstream_selection := Config.upstream_selection c;
  Config.rate_limit := Config.rate_limit c; Config.cache := Config.cache c; Config.geoip := Config.geoip c;
  Config.acme := Config.acme c; Config.quota := Config.quota c; Config.download := download_config;
  Config.alerts := Config.alerts c; Config.user_access := Config.user_access c;
  Config.registration := Config.registration c; Config.webauthn := Config.webauthn c;
  Config.outbound_proxy := Config.outbound_proxy c; Config.upstream_tls := Config.upstream_tls c;
  Config.forward_client_authorization := Config.forward_client_authorization c;
  Config.upstream_auth := Config.upstream_auth c;
|}.

Definition quiet : Surroundings := {|
  others _ s := s; live _ := downloads_on; clock _ := 200; days_at _ := ("2026-07-01", "2026-07-01", "2026-07");
  stopped _ := false;
|}.

(** The token is revoked while the first part is on its way. *)
Definition revoking : Surroundings := {|
  others i s := if (3 <=? i)%nat then with_tokens (fun _ => ∅) s else s;
  live _ := downloads_on; clock _ := 200; days_at _ := ("2026-07-01", "2026-07-01", "2026-07"); stopped _ := false;
|}.

Definition sample_chunks : list (option string) := [Some "abc"; Some "de"; Some "fgh"].

Definition relay (env : Surroundings) : bool * Downloads * list (nat * string) :=
  worker env 6 sample_token 7 [] "a.example" "a.example" sample_chunks with_token.

(** The third chunk would pass the limit of six bytes. *)
Lemma downloads_charge_what_they_send_witness :
  joined (snd <$> (relay quiet).2) = "abcde" /\
  str_len (joined (snd <$> (relay quiet).2)) <= 6 /\
  exists extra, charged 7 "a.example" "a.example" "2026-07-01" (relay quiet).1.2
    = charged 7 "a.example" "a.example" "2026-07-01" with_token + str_len (joined (snd <$> (relay quiet).2)) + extra /\
    0 <= extra <= 65536.
Proof.
  split; [vm_compute; reflexivity|].
  pose proof (downloads_charge_what_they_send quiet sample_token 7 [] "a.example" "a.example" "2026-07-01" 6 sample_chunks
    with_token ltac:(vm_compute; split; [discriminate|done]) (fun _ => eq_refl) (fun _ _ => eq_refl)) as Hr.
  fold (relay quiet) in Hr. destruct (relay quiet) as [[ok s'] sent]. destruct Hr as (_ & Hl & extra & He & Hx & _).
  split; [exact Hl|]. exists extra. split; [exact He|exact Hx].
Defined.

Lemma void_tokens_stop_downloads_witness :
  snd <$> (relay revoking).2 = ["abc"] /\
  exists before late, (relay revoking).2 = before ++ late /\ Forall (fun e => e.1 <= 3)%nat before /\
    (length late <= 1)%nat /\ Forall (fun e => e.1 <= 5)%nat late.
Proof.
  split; [vm_compute; reflexivity|].
  assert (Hv : forall i s, (3 <= i)%nat ->
    authenticate_download_token (clock revoking i) sample_token (others revoking i s) <> Some 7).
  { intros i s Hi. unfold others, revoking. assert ((3 <=? i)%nat = true) as -> by by apply Nat.leb_le.
    vm_compute. discriminate. }
  pose proof (void_tokens_stop_downloads revoking sample_token 7 [] "a.example" "a.example" 3 6 sample_chunks with_token Hv) as Hr.
  fold (relay revoking) in Hr. destruct (relay revoking) as [[ok s'] sent]. exact Hr.
Defined.

Definition idle : Downloading := {| tables := no_downloads; active := ∅; refused := ∅ |}.

(** The second permit of the user is refused. *)
Definition two_permits : list Step := [Acquire "p1" 7 download_config; Acquire "p2" 7 download_config].

Lemma running_downloads_bounded_witness :
  running 7 (active (dl_run two_permits idle)) = 1 /\
  Z.of_nat (size (active (dl_run two_permits idle))) <= 2 /\ forall user, running user (active (dl_run two_permits idle)) <= 1.
Proof.
  split; [vm_compute; reflexivity|]. apply (running_downloads_bounded 2 1); [lia|lia|reflexivity|].
  constructor; [split; vm_compute; discriminate|]. constructor; [split; vm_compute; discriminate|]. constructor.
Defined.

(** The download asks before the block is written, and is cancelled. *)
Definition race : list Step := [
  RegisterHost "p1" "cdn.bad.example"; AskBlocked "p1" "cdn.bad.example";
  WriteBlock 300 "admin" "bad.example" true "abuse" true; CancelDomain "bad.example" true].

Definition downloading : Downloading := dl_run [Acquire "p1" 7 download_config] idle.

Lemma block_refuses_or_cancels_witness :
  ("p1" ∈ refused (dl_run race downloading)) \/ is_cancelled "p1" (active (dl_run race downloading)) = true.
Proof.
  apply (block_refuses_or_cancels "p1" "cdn.bad.example" "bad.example" true eq_refl race downloading 0 1 2 3 300 "admin" "abuse").
  - unfold race. repeat (constructor; [done|]). constructor.
  - vm_compute. by eexists.
  - reflexivity.
  - reflexivity.
  - lia.
  - reflexivity.
  - reflexivity.
  - lia.
Defined.
