(* ===== verification/ClientFiles.v ===== *)
(** * The files of the client's user

    [crates/client/src/main.rs]: [write_atomic], [reject_symlink],
    [read_optional_file], [restore_original_file] and the changes of one
    configuration file with its rollback record.  Every call of [std::fs] takes
    the next entry of a fault tape, as in [Fs], but asking whether a path exists
    does not fail; a file has its permissions; [links] holds the targets of the
    symbolic links.  Directories are not part of the map. *)
From stdpp Require Import gmap pretty.
From S2P Require Import Prelude RustStr Fs.
Open Scope string_scope.
Open Scope Z_scope.
Open Scope list_scope.

Module Node.
Record t : Type := { text : string; mode : Z }.
End Node.

Record Disk : Type := {
  nodes : gmap string Node.t;
  links : gmap string string;
  tape : list fault;
  (** [TEMPORARY_FILE_SEQUENCE] *)
  sequence : nat;
}.

Definition on_nodes (f : gmap string Node.t -> gmap string Node.t) (d : Disk) : Disk :=
  {| nodes := f (nodes d); links := links d; tape := tape d; sequence := sequence d |}.

Definition text_at (d : Disk) (path : string) : option string := Node.text <$> nodes d !! path.

(** ** Fallible steps *)

Definition act (A : Type) : Type := Disk -> result A string * Disk.

Definition ret {A} (a : A) : act A := fun d => (Ok a, d).

Definition bail {A} (message : string) : act A := fun d => (Err message, d).

Definition bind {A B} (m : act A) (k : A -> act B) : act B := fun d =>
  match m d with
  | (Ok a, d) => k a d
  | (Err e, d) => (Err e, d)
  end.

(** [with_context]: the error shows the last message. *)
Definition context {A} (message : string) (m : act A) : act A := fun d =>
  match m d with
  | (Ok a, d) => (Ok a, d)
  | (Err _, d) => (Err message, d)
  end.

Definition ensure (b : bool) (message : string) : act unit := if b then ret tt else bail message.

Definition of_option {A} (o : option A) (message : string) : act A :=
  match o with Some a => ret a | None => bail message end.

Declare Scope act_scope.
Delimit Scope act_scope with act.
Notation "'do?' x ':=' m 'in' k" := (bind m (fun x => k)) (at level 200, x pattern, m at level 100, k at level 200) : act_scope.
Open Scope act_scope.

(** ** The calls of [std::fs] *)

Definition next (d : Disk) : fault * Disk :=
  match tape d with
  | [] => (Fine, d)
  | f :: t => (f, {| nodes := nodes d; links := links d; tape := t; sequence := sequence d |})
  end.

(** A call that changes nothing when the system reports an error. *)
Definition call {A} (f : Disk -> result A string * Disk) : act A := fun d =>
  match next d with
  | (Fine, d) => f d
  | (Fails _, d) => (Err "input/output error", d)
  end.

Definition not_found : string := "entity not found".

Definition rename (from to : string) : act unit := call (fun d =>
  match nodes d !! from with
  | Some n => (Ok tt, on_nodes (fun m => <[to := n]> (delete from m)) d)
  | None => (Err not_found, d)
  end).

Definition remove_file (path : string) : act unit := call (fun d =>
  match nodes d !! path with
  | Some _ => (Ok tt, on_nodes (delete path) d)
  | None => (Err not_found, d)
  end).

Definition create_dir_all (path : string) : act unit := call (fun d => (Ok tt, d)).

(** [0o600]. *)
Definition OWNER_ONLY : Z := 384.

(** [OpenOptions::new().write(true).create_new(true).mode(0o600)]. *)
Definition create_new (path : string) : act unit := call (fun d =>
  match nodes d !! path with
  | Some _ => (Err "file exists", d)
  | None => (Ok tt, on_nodes <[path := {| Node.text := ""; Node.mode := OWNER_ONLY |}]> d)
  end).

(** [write_all] to the open file; a failed write leaves a prefix. *)
Definition write_all (path content : string) : act unit := fun d =>
  let put text := on_nodes (alter (fun n => {| Node.text := text; Node.mode := Node.mode n |}) path) in
  match next d with
  | (Fine, d) => (Ok tt, put content d)
  | (Fails n, d) => (Err "input/output error", put (String.substring 0 n content) d)
  end.

Definition sync_all (path : string) : act unit := call (fun d => (Ok tt, d)).

Definition set_permissions (path : string) (mode : Z) : act unit := call (fun d =>
  match nodes d !! path with
  | Some n => (Ok tt, on_nodes <[path := {| Node.text := Node.text n; Node.mode := mode |}]> d)
  | None => (Err not_found, d)
  end).

(** [fs::metadata(path)]. *)
Definition metadata (path : string) : act Node.t := call (fun d =>
  (result_of_option (nodes d !! path) not_found, d)).

(** [Path::exists]. *)
Definition exists_at (path : string) (d : Disk) : bool := bool_decide (is_Some (nodes d !! path)).

(** [read_optional_file]. *)
Definition read_optional_file (path : string) : act (option string) :=
  context ("failed to read " +:+ path) (call (fun d => (Ok (text_at d path), d))).

(** ** Paths *)

(** [Path::parent] is there. *)
Definition has_parent (path : string) : bool := negb (str_is_empty path || (path =? "/")%string).

(** [path] and every ancestor, the longest first; the last is empty or the
    root. *)
Fixpoint ancestors_of (fuel : nat) (path : string) : list string :=
  match fuel with
  | O => [path]
  | S fuel =>
      path ::
      (if has_parent path then
         let parent := (split_name path).2 in
         ancestors_of fuel (if (parent =? "/")%string then "/" else trim_end_matches "/" parent)
       else [])
  end.

Definition ancestors (path : string) : list string := ancestors_of (String.length path) path.

Definition reject_single_symlink (path : string) : act unit :=
  context ("failed to inspect " +:+ path) (call (fun d =>
    if bool_decide (is_Some (links d !! path)) then (Err (path +:+ " is a symbolic link"), d) else (Ok tt, d))).

Fixpoint reject_symlinks (paths : list string) : act unit :=
  match paths with
  | [] => ret tt
  | p :: rest => do? _ := reject_single_symlink p in reject_symlinks rest
  end.

Definition reject_symlink (path : string) : act unit := reject_symlinks (ancestors path).

Section Process.
(** [std::process::id()]. *)
Variable pid : Z.

Definition sibling_suffix (role : string) (n : nat) : string :=
  ".mirrorproxy-" +:+ role +:+ "-" +:+ show_uint pid +:+ "-" +:+ show_uint (Z.of_nat n).

Definition sibling (path role : string) (n : nat) : string :=
  let '(name, parent) := split_name path in
  parent +:+ "." +:+ (if str_is_empty name then "config" else name) +:+ sibling_suffix role n.

Definition unique_sibling_path (path role : string) : act string := fun d =>
  (Ok (sibling path role (sequence d)),
   {| nodes := nodes d; links := links d; tape := tape d; sequence := S (sequence d) |}).

(** ** Replacing a file *)

(** Moving the old file aside, the new one in, and the old one away. *)
Definition replace_existing (path temporary : string) : act unit :=
  do? previous := unique_sibling_path path "old" in
  do? _ := context ("failed to stage existing " +:+ path) (rename path previous) in
  fun d =>
    match rename temporary path d with
    | (Ok _, d) => context "failed to remove temporary backup" (remove_file previous) d
    | (Err error, d) =>
        let '(restored, d) := rename previous path d in
        let d := (remove_file temporary d).2 in
        match restored with
        | Err restore_error => (Err ("failed to replace " +:+ path +:+ ": " +:+ error +:+ "; also failed to restore the previous file: " +:+ restore_error), d)
        | Ok _ => (Err ("failed to replace " +:+ path +:+ ": " +:+ error), d)
        end
    end.

Definition write_atomic (path content : string) : act unit :=
  if negb (has_parent path) then bail (path +:+ " has no parent directory")
  else
    do? _ := context "failed to create configuration directory" (create_dir_all (split_name path).2) in
    do? temporary := unique_sibling_path path "new" in
    do? _ := context "failed to create temporary file" (create_new temporary) in
    do? _ := context "failed to write temporary file" (write_all temporary content) in
    do? _ := context "failed to sync temporary file" (sync_all temporary) in
    fun d =>
      if negb (exists_at path d) then context ("failed to install " +:+ path) (rename temporary path) d
      else replace_existing path temporary d.

Definition restore_original_file (path : string) (original_content : option string) : act unit :=
  match original_content with
  | Some content => write_atomic path content
  | None => fun d =>
      match remove_file path d with
      | (Err e, d) => if (e =? not_found)%string then (Ok tt, d) else (Err ("failed to remove " +:+ path), d)
      | r => r
      end
  end.
End Process.

(** ** Names of temporary files *)

Lemma show_uint_dash (n : Z) : contains_char "-" (show_uint n) = false.
Proof. apply (all_bytes_no_char is_digit); [done|apply show_uint_digits]. Qed.

Lemma last_dash (a b x y : string) :
  contains_char "-" x = false -> contains_char "-" y = false -> a +:+ "-" +:+ x = b +:+ "-" +:+ y -> x = y.
Proof.
  intros Hx Hy He. apply (f_equal String.rev) in He.
  assert (Hs : forall c z, contains_char "-" z = false ->
    split_once "-" (String.rev (c +:+ "-" +:+ z)) = Some (String.rev z, String.rev c)).
  { intros c z Hz. apply split_once_Some. rewrite contains_char_rev. split; [|done].
    rewrite string_rev_app, (string_rev_app "-" z). by rewrite <-str_app_assoc. }
  pose proof (Hs a x Hx) as H1. rewrite He, (Hs b y Hy) in H1. injection H1 as H1 _.
  rewrite <-(string_rev_involutive x), <-(string_rev_involutive y). congruence.
Qed.

(** ** What a step leaves alone *)

(** [d'] comes after [d] and agrees with it outside of [changed]. *)
Record After (changed : list string) (d d' : Disk) : Prop := {
  af_links : links d' = links d;
  af_sequence : (sequence d <= sequence d')%nat;
  af_nodes : forall q, q ∉ changed -> nodes d' !! q = nodes d !! q;
}.

Lemma after_refl (d : Disk) (changed : list string) : After changed d d.
Proof. by split. Qed.

Lemma after_trans (a b c : list string) (d d' d'' : Disk) :
  After a d d' -> After b d' d'' -> a ⊆ c -> b ⊆ c -> After c d d''.
Proof.
  intros [L1 S1 N1] [L2 S2 N2] Ha Hb. split; [congruence|lia|]. intros q Hq. rewrite N2, N1; [done|set_solver..].
Qed.

Lemma next_after (d : Disk) : nodes (next d).2 = nodes d /\ links (next d).2 = links d /\ sequence (next d).2 = sequence d.
Proof. unfold next. by destruct (tape d). Qed.

(** Without faults calls succeed. *)
Definition Works {A} (d : Disk) (r : result A string) (d' : Disk) : Prop := tape d = [] -> is_ok r = true /\ tape d' = [].

Lemma next_quiet (d : Disk) : tape d = [] -> next d = (Fine, d).
Proof. unfold next. by intros ->. Qed.

(** A call that returned. *)
Lemma call_ok {A} (f : Disk -> result A string * Disk) (d d' : Disk) (a : A) :
  call f d = (Ok a, d') -> exists d1, nodes d1 = nodes d /\ f d1 = (Ok a, d').
Proof.
  unfold call. pose proof (next_after d) as (Hn & _ & _). destruct (next d) as [[|k] d1]; [|done]. intros Hf. by exists d1.
Qed.

Lemma call_after {A} (changed : list string) (f : Disk -> result A string * Disk) (d : Disk) :
  (forall d, After changed d (f d).2) -> After changed d (call f d).2.
Proof.
  intros Hf. unfold call. pose proof (next_after d) as (Hn & Hl & Hs). destruct (next d) as [[|k] d1]; cbn in *.
  - destruct (Hf d1) as [L S N]. split; [congruence|lia|]. intros q Hq. by rewrite N, Hn.
  - split; [done|lia|]. intros q _. by rewrite Hn.
Qed.

Lemma context_after {A} (changed : list string) (message : string) (m : act A) (d : Disk) :
  After changed d (m d).2 -> After changed d (context message m d).2.
Proof. unfold context. by destruct (m d) as [[a|e] d']. Qed.

Lemma rename_after (from to : string) (d : Disk) : After [from; to] d (rename from to d).2.
Proof.
  apply call_after. intros d1. destruct (nodes d1 !! from); [|apply after_refl]. split; [done..|]. intros q Hq. cbn.
  rewrite lookup_insert_ne, lookup_delete_ne by set_solver. done.
Qed.

Lemma remove_file_after (path : string) (d : Disk) : After [path] d (remove_file path d).2.
Proof.
  apply call_after. intros d1. destruct (nodes d1 !! path); [|apply after_refl]. split; [done..|]. intros q Hq. cbn.
  rewrite lookup_delete_ne by set_solver. done.
Qed.

Lemma create_new_after (path : string) (d : Disk) : After [path] d (create_new path d).2.
Proof.
  apply call_after. intros d1. destruct (nodes d1 !! path); [apply after_refl|]. split; [done..|]. intros q Hq. cbn.
  rewrite lookup_insert_ne by set_solver. done.
Qed.

Lemma write_all_after (path content : string) (d : Disk) : After [path] d (write_all path content d).2.
Proof.
  unfold write_all. pose proof (next_after d) as (Hn & Hl & Hs). destruct (next d) as [[|k] d1]; cbn in *;
    (split; [done|cbn; lia|]; intros q Hq; cbn; rewrite lookup_alter_ne by set_solver; by rewrite Hn).
Qed.

Lemma set_permissions_after (path : string) (mode : Z) (d : Disk) : After [path] d (set_permissions path mode d).2.
Proof.
  apply call_after. intros d1. destruct (nodes d1 !! path); [|apply after_refl]. split; [done..|]. intros q Hq. cbn.
  rewrite lookup_insert_ne by set_solver. done.
Qed.

Lemma quiet_call_after {A} (r : Disk -> result A string) (d : Disk) : After [] d (call (fun d => (r d, d)) d).2.
Proof. apply call_after. intros. apply after_refl. Qed.

(** Reading and inspecting change nothing. *)
Lemma read_optional_file_after (path : string) (d : Disk) : After [] d (read_optional_file path d).2.
Proof. apply context_after, quiet_call_after. Qed.

Lemma reject_single_symlink_after (path : string) (d : Disk) : After [] d (reject_single_symlink path d).2.
Proof. apply context_after, call_after. intros d1. case_bool_decide; apply after_refl. Qed.

Lemma bind_after {A B} (a b : list string) (m : act A) (k : A -> act B) (d : Disk) :
  After a d (m d).2 -> (forall x d, After b d (k x d).2) -> After (a ++ b) d (bind m k d).2.
Proof.
  unfold bind. intros Hm Hk. destruct (m d) as [[x|e] d']; cbn in *.
  - eapply after_trans; [exact Hm|apply Hk|set_solver..].
  - eapply after_trans; [exact Hm|apply (after_refl _ [])|set_solver..].
Qed.

Lemma reject_symlinks_after (paths : list string) (d : Disk) : After [] d (reject_symlinks paths d).2.
Proof.
  revert d. induction paths as [|p paths IH]; intros d; [apply after_refl|].
  apply (bind_after [] []); [apply reject_single_symlink_after|auto].
Qed.

Lemma after_nodes_eq (d d' : Disk) : After [] d d' -> nodes d' = nodes d.
Proof. intros [_ _ Hn]. apply map_eq. intros q. apply Hn. set_solver. Qed.

(** The next entry of the tape: [d1] is [d] with a shorter tape. *)
Ltac case_next :=
  match goal with
  | |- context [next ?d] =>
      let Hq := fresh "Hq" in let Hn := fresh "Hn" in let Hs := fresh "Hs" in
      pose proof (next_after d) as (Hn & _ & Hs); pose proof (next_quiet d) as Hq;
      destruct (next d) as [[|?k] ?d1]; cbn in Hn, Hs;
      [assert (tape d = [] -> tape d1 = []) as ? by (intros Ht; specialize (Hq Ht); congruence); clear Hq; rename H into Hq
      |assert (tape d = [] -> False) as ? by (intros Ht; specialize (Hq Ht); congruence); clear Hq; rename H into Hq]
  end.

Section Siblings.
Variable pid : Z.

Lemma sibling_shape (path role : string) (n : nat) : exists head,
  sibling pid path role n = head +:+ sibling_suffix pid role n.
Proof.
  unfold sibling. destruct (split_name path) as [name parent].
  exists (parent +:+ "." +:+ (if str_is_empty name then "config" else name)). by rewrite <-!str_app_assoc.
Qed.

Lemma sibling_inj (p q role role' : string) (n m : nat) : sibling pid p role n = sibling pid q role' m -> n = m.
Proof.
  intros He. destruct (sibling_shape p role n) as [a Ha]. destruct (sibling_shape q role' m) as [b Hb].
  rewrite Ha, Hb in He. unfold sibling_suffix in He. rewrite !str_app_assoc in He.
  rewrite <-!(str_app_assoc _ "-" (show_uint (Z.of_nat _))) in He.
  apply last_dash in He; [|apply show_uint_dash..]. unfold show_uint in He. apply (inj pretty) in He. lia.
Qed.

(** A path that is never the name of a temporary file. *)
Definition ordinary (path : string) : Prop := forall p role n, path <> sibling pid p role n.

Lemma contains_str_middle (p a b : string) : contains_str p (a +:+ p +:+ b) = true.
Proof.
  induction a as [|x a IH].
  - assert (starts_with p (p +:+ b) = true) as H by apply starts_with_app.
    change ("" +:+ p +:+ b) with (p +:+ b). destruct (p +:+ b); cbn [contains_str]; by rewrite H.
  - cbn [String.append contains_str]. by rewrite IH, orb_true_r.
Qed.

Lemma ordinary_path (path : string) : contains_str ".mirrorproxy-" path = false -> ordinary path.
Proof.
  intros Hc p role n ->. destruct (sibling_shape p role n) as [head Hh]. rewrite Hh in Hc. unfold sibling_suffix in Hc.
  by rewrite contains_str_middle in Hc.
Qed.

(** No temporary file of a later call is there yet. *)
Definition fresh (d : Disk) : Prop := forall p role n, (sequence d <= n)%nat -> nodes d !! sibling pid p role n = None.

(** A path no later call takes for a temporary file. *)
Definition unused (d : Disk) (q : string) : Prop := forall p role n, (sequence d <= n)%nat -> q <> sibling pid p role n.

Lemma ordinary_unused (d : Disk) (q : string) : ordinary q -> unused d q.
Proof. intros Hq p role n _. apply Hq. Qed.

Lemma fresh_after (path : string) (changed : list string) (d d' : Disk) :
  fresh d -> After changed d d' ->
  (forall q, q ∈ changed -> ordinary q \/ exists p role n, (n < sequence d')%nat /\ q = sibling pid p role n) -> fresh d'.
Proof.
  intros Hf Ha Hc p role n Hn. destruct (decide (sibling pid p role n ∈ changed)) as [Hin|Hin].
  - destruct (Hc _ Hin) as [Ho|(p' & role' & n' & Hlt & He)]; [by destruct (Ho p role n)|].
    apply sibling_inj in He. lia.
  - rewrite (af_nodes _ _ _ Ha _ Hin). apply Hf. pose proof (af_sequence _ _ _ Ha). lia.
Qed.
Definition written (content : string) : Node.t := {| Node.text := content; Node.mode := OWNER_ONLY |}.

(** What is at [path] after a call that reported an error. *)
Definition Recoverable (d d' : Disk) (path content : string) : Prop :=
  nodes d' !! path = nodes d !! path \/
  nodes d' !! path = Some (written content) \/
  nodes d' !! path = None /\ exists n, (n < sequence d')%nat /\ nodes d' !! sibling pid path "old" n = nodes d !! path.

(** A rename happens or does not. *)
Lemma rename_cases (from to : string) (x : Node.t) (d : Disk) :
  nodes d !! from = Some x ->
  let '(r, d') := rename from to d in
  After [from; to] d d' /\ sequence d' = sequence d /\ Works d r d' /\
  (r = Ok tt /\ nodes d' = <[to := x]> (delete from (nodes d)) \/ (exists e, r = Err e) /\ nodes d' = nodes d).
Proof.
  intros Hx. pose proof (rename_after from to d) as Ha. destruct (rename from to d) as [r d'] eqn:E. split; [done|]. revert E.
  unfold rename, call. case_next.
  - rewrite Hn, Hx. intros [= <- <-]. cbn. split_and!; [done|by intros ?; split; [|apply Hq]|]. left. by rewrite Hn.
  - intros [= <- <-]. split_and!; [done|by intros ?%Hq|]. right. split; [by eexists|done].
Qed.

Lemma remove_file_cases (path : string) (x : Node.t) (d : Disk) :
  nodes d !! path = Some x ->
  let '(r, d') := remove_file path d in
  After [path] d d' /\ sequence d' = sequence d /\ Works d r d' /\
  (r = Ok tt /\ nodes d' = delete path (nodes d) \/ (exists e, r = Err e) /\ nodes d' = nodes d).
Proof.
  intros Hx. pose proof (remove_file_after path d) as Ha. destruct (remove_file path d) as [r d'] eqn:E. split; [done|]. revert E.
  unfold remove_file, call. case_next.
  - rewrite Hn, Hx. intros [= <- <-]. cbn. split_and!; [done|by intros ?; split; [|apply Hq]|]. left. by rewrite Hn.
  - intros [= <- <-]. split_and!; [done|by intros ?%Hq|]. right. split; [by eexists|done].
Qed.

(** Follows the calls of a run without faults. *)
Ltac works :=
  let Hq := fresh "Hq" in intros Hq;
  repeat match goal with W : Works ?d _ _, Hq : tape ?d = [] |- _ =>
    let Hok := fresh "Hok" in let Ht := fresh "Ht" in destruct (W Hq) as [Hok Ht]; clear W end;
  done.

Lemma replace_outcome (path temporary content : string) (old : Node.t) (d : Disk) :
  ordinary path -> temporary <> path -> temporary <> sibling pid path "old" (sequence d) ->
  nodes d !! temporary = Some (written content) -> nodes d !! path = Some old ->
  let '(r, d') := replace_existing pid path temporary d in
  After [path; temporary; sibling pid path "old" (sequence d)] d d' /\ (sequence d < sequence d')%nat /\ Works d r d' /\
  match r with
  | Ok _ => nodes d' !! path = Some (written content)
  | Err _ => Recoverable d d' path content
  end.
Proof.
  intros Ho Htp HT Ht Hold. unfold replace_existing, unique_sibling_path, bind. cbn [sequence].
  set (P := sibling pid path "old" (sequence d)) in *. assert (HP : path <> P) by apply Ho.
  set (d0 := {| nodes := nodes d; links := links d; tape := tape d; sequence := S (sequence d) |}).
  assert (A0 : After [path; temporary; P] d d0) by (split; [done|cbn; lia|done]).
  assert (Hs0 : sequence d0 = S (sequence d)) by done. assert (Hn0 : nodes d0 = nodes d) by done.
  assert (W0 : Works d (Ok tt : result unit string) d0) by done. clearbody d0.
  pose proof (rename_cases path P old d0 ltac:(congruence)) as Hr. unfold context at 1.
  destruct (rename path P d0) as [r1 d1]. destruct Hr as (A1 & S1 & W1 & Hr).
  assert (A01 : After [path; temporary; P] d d1) by (eapply after_trans; [exact A0|exact A1|set_solver..]).
  destruct Hr as [[-> N1]|[[e ->] N1]]; [|split_and!; [done|lia|works|left; congruence]]. rewrite Hn0 in N1.
  assert (T1 : nodes d1 !! temporary = Some (written content)) by by rewrite N1, lookup_insert_ne, lookup_delete_ne by done.
  assert (P1 : nodes d1 !! P = Some old) by by rewrite N1, lookup_insert, decide_True.
  pose proof (rename_cases temporary path _ d1 T1) as Hr. destruct (rename temporary path d1) as [r2 d2].
  destruct Hr as (A2 & S2 & W2 & Hr). assert (A02 : After [path; temporary; P] d d2) by (eapply after_trans; [exact A01|exact A2|set_solver..]).
  destruct Hr as [[-> N2]|[[e ->] N2]].
  - assert (P2 : nodes d2 !! P = Some old) by by rewrite N2, lookup_insert_ne, lookup_delete_ne by done.
    pose proof (remove_file_cases P old d2 P2) as Hr. unfold context. destruct (remove_file P d2) as [r3 d3].
    destruct Hr as (A3 & S3 & W3 & Hr).
    assert (A03 : After [path; temporary; P] d d3) by (eapply after_trans; [exact A02|exact A3|set_solver..]).
    assert (H2 : nodes d2 !! path = Some (written content)) by by rewrite N2, lookup_insert, decide_True.
    destruct Hr as [[-> N3]|[[e ->] N3]]; split_and!; try done; try lia; try works.
    + by rewrite N3, lookup_delete_ne.
    + right; left. by rewrite N3.
  - rewrite <-N2 in P1, T1. pose proof (rename_cases P path old d2 P1) as Hr.
    destruct (rename P path d2) as [r3 d3]. destruct Hr as (A3 & S3 & W3 & Hr).
    assert (T3 : nodes d3 !! temporary = Some (written content)).
    { destruct Hr as [[_ N3]|[_ N3]]; rewrite N3; [|done]. by rewrite lookup_insert_ne, lookup_delete_ne. }
    pose proof (remove_file_cases temporary _ d3 T3) as Hr4. destruct (remove_file temporary d3) as [r4 d4].
    destruct Hr4 as (A4 & S4 & _ & _). cbn [snd].
    assert (A04 : After [path; temporary; P] d d4).
    { eapply after_trans; [exact A02| |reflexivity|]. eapply (after_trans _ _ [path; temporary; P]); [exact A3|exact A4|set_solver..]. done. }
    assert (H4 : forall q, q <> temporary -> nodes d4 !! q = nodes d3 !! q) by (intros q Hq; apply A4; set_solver).
    destruct Hr as [[-> N3]|[[e' ->] N3]]; split_and!; try done; try lia; try works.
    + left. rewrite H4, N3, lookup_insert, decide_True by done. done.
    + right; right. split.
      * rewrite H4, N3, N2, N1, lookup_insert_ne, lookup_delete, decide_True by done. done.
      * exists (sequence d). split; [lia|]. fold P. rewrite H4, N3 by done. congruence.
Qed.

Lemma create_new_cases (path : string) (d : Disk) :
  nodes d !! path = None ->
  let '(r, d') := create_new path d in
  After [path] d d' /\ sequence d' = sequence d /\ Works d r d' /\
  (r = Ok tt /\ nodes d' !! path = Some (written "") \/ (exists e, r = Err e) /\ nodes d' = nodes d).
Proof.
  intros Hx. pose proof (create_new_after path d) as Ha. destruct (create_new path d) as [r d'] eqn:E. split; [done|]. revert E.
  unfold create_new, call. case_next.
  - rewrite Hn, Hx. intros [= <- <-]. cbn. split_and!; [done|by intros ?; split; [|apply Hq]|]. left. by rewrite lookup_insert, decide_True.
  - intros [= <- <-]. split_and!; [done|by intros ?%Hq|]. right. split; [by eexists|done].
Qed.

Lemma write_all_cases (path content : string) (x : Node.t) (d : Disk) :
  nodes d !! path = Some x ->
  let '(r, d') := write_all path content d in
  After [path] d d' /\ sequence d' = sequence d /\ Works d r d' /\
  (r = Ok tt /\ nodes d' !! path = Some {| Node.text := content; Node.mode := Node.mode x |} \/ exists e, r = Err e).
Proof.
  intros Hx. pose proof (write_all_after path content d) as Ha. destruct (write_all path content d) as [r d'] eqn:E.
  split; [done|]. revert E. unfold write_all. case_next; intros [= <- <-]; (split; [done|]).
  2: { split; [by intros ?%Hq|]. right. by eexists. }
  split; [by intros ?; split; [|apply Hq]|]. left. split; [done|]. cbn. rewrite lookup_alter, decide_True, Hn, Hx by done. done.
Qed.

(** A call that only the system can refuse. *)
Lemma plain_call_cases (message : string) (d : Disk) :
  let '(r, d') := context message (call (fun d => (Ok tt, d))) d in
  After [] d d' /\ sequence d' = sequence d /\ Works d r d' /\ nodes d' = nodes d /\ (r = Ok tt \/ exists e, r = Err e).
Proof.
  pose proof (context_after [] message _ d (quiet_call_after (fun _ => Ok tt) d)) as Ha. revert Ha.
  unfold context, call. case_next; cbn; intros Ha; (split_and!; [done|done| |done|by eauto]).
  - intros ?. split; [done|auto].
  - by intros ?%Hq.
Qed.

(** Only [path] and new temporary files change. *)
Record Touches (path : string) (d d' : Disk) : Prop := {
  to_links : links d' = links d;
  to_sequence : (sequence d <= sequence d')%nat;
  to_nodes : forall q, q <> path -> unused d q -> nodes d' !! q = nodes d !! q;
  to_fresh : fresh d';
}.

Lemma touches_of_after (path : string) (changed : list string) (d d' : Disk) :
  fresh d -> ordinary path -> After changed d d' ->
  (forall q, q ∈ changed -> q = path \/ exists role n, (sequence d <= n < sequence d')%nat /\ q = sibling pid path role n) ->
  Touches path d d'.
Proof.
  intros Hf Ho Ha Hc. split; [apply Ha|apply Ha| |].
  - intros q Hq Hu. apply (af_nodes _ _ _ Ha). intros Hin. destruct (Hc q Hin) as [->|(role & n & Hn & He)]; [done|].
    apply (Hu path role n); [lia|done].
  - apply (fresh_after path changed d d' Hf Ha). intros q Hin. destruct (Hc q Hin) as [->|(role & n & Hn & He)]; [by left|].
    right. exists path, role, n. split; [lia|done].
Qed.

Lemma touches_nothing (path : string) (d d' : Disk) : fresh d -> ordinary path -> After [] d d' -> Touches path d d'.
Proof. intros Hf Ho Ha. apply (touches_of_after path [] d d' Hf Ho Ha). intros q Hq. by apply not_elem_of_nil in Hq. Qed.

(** [write_atomic] installs the text and nothing else; when it fails, the old
    file is at its place or aside, or the new one is in place. *)
Lemma write_atomic_outcome (path content : string) (d : Disk) :
  fresh d -> ordinary path ->
  let '(r, d') := write_atomic pid path content d in
  Touches path d d' /\ (has_parent path = true -> Works d r d') /\
  match r with
  | Ok _ => nodes d' !! path = Some (written content)
  | Err _ => Recoverable d d' path content
  end.
Proof.
  intros Hf Ho. unfold write_atomic. destruct (has_parent path); cbn [negb].
  2: { cbn. split_and!; [|done|by left]. apply (touches_nothing path d d Hf Ho), after_refl. }
  unfold bind, create_dir_all. pose proof (plain_call_cases "failed to create configuration directory" d) as H1.
  destruct (context _ _ d) as [r1 d1]. destruct H1 as (A1 & S1 & W1 & N1 & H1).
  destruct H1 as [->|[e ->]]; [|split_and!; [by apply touches_nothing|intros _; works|left; by rewrite N1]].
  unfold unique_sibling_path at 1. set (T := sibling pid path "new" (sequence d1)).
  set (d2 := {| nodes := nodes d1; links := links d1; tape := tape d1; sequence := S (sequence d1) |}).
  assert (W2 : Works d1 (Ok tt : result unit string) d2) by done.
  assert (S2 : sequence d2 = S (sequence d)) by (cbn; lia). assert (N2 : nodes d2 = nodes d) by done.
  assert (A2 : After [] d d2) by (destruct A1 as [L S N]; split; [done|cbn; lia|intros q Hq; by apply N]).
  assert (HT : T = sibling pid path "new" (sequence d)) by (unfold T; by rewrite S1).
  assert (HTp : T <> path) by (intros He; by apply (Ho path "new" (sequence d1))).
  assert (T2 : nodes d2 !! T = None) by (rewrite N2, HT; apply Hf; lia). clearbody d2 T.
  assert (Hto : forall changed d', After changed d d' -> (sequence d < sequence d')%nat ->
    (forall q, q ∈ changed -> q = path \/ q = T \/ q = sibling pid path "old" (S (sequence d)) /\ (S (sequence d) < sequence d')%nat) ->
    Touches path d d').
  { intros changed d' Ha Hs Hc. apply (touches_of_after path changed d d' Hf Ho Ha). intros q Hq.
    destruct (Hc q Hq) as [->|[->|[-> ?]]]; [by left|right; exists "new", (sequence d); split; [lia|done]|].
    right. exists "old", (S (sequence d)). split; [lia|done]. }
  assert (Hleft : forall e d', Works d (Err e : result unit string) d' -> After [T] d d' -> (sequence d < sequence d')%nat ->
    Touches path d d' /\ (true = true -> Works d (Err e : result unit string) d') /\ Recoverable d d' path content).
  { intros e d' Hw Ha Hs. split_and!; [apply (Hto [T] d' Ha Hs); set_solver|done|]. left. apply Ha. set_solver. }
  pose proof (create_new_cases T d2 T2) as H3. unfold context at 1. destruct (create_new T d2) as [r3 d3].
  destruct H3 as (A3 & S3 & W3 & H3).
  assert (A03 : After [T] d d3) by (eapply after_trans; [exact A2|exact A3|set_solver..]).
  destruct H3 as [[-> T3]|[[e ->] _]]; [|apply (Hleft e d3 ltac:(works) A03); lia].
  pose proof (write_all_cases T content _ d3 T3) as H4. unfold context at 1. destruct (write_all T content d3) as [r4 d4].
  destruct H4 as (A4 & S4 & W4 & H4).
  assert (A04 : After [T] d d4) by (eapply after_trans; [exact A03|exact A4|set_solver..]).
  destruct H4 as [[-> T4]|[e ->]]; [|apply (Hleft e d4 ltac:(works) A04); lia].
  unfold sync_all. pose proof (plain_call_cases "failed to sync temporary file" d4) as H5.
  destruct (context _ _ d4) as [r5 d5]. destruct H5 as (A5 & S5 & W5 & N5 & H5).
  assert (A05 : After [T] d d5) by (eapply after_trans; [exact A04|exact A5|set_solver..]).
  destruct H5 as [->|[e ->]]; [|apply (Hleft e d5 ltac:(works) A05); lia].
  assert (T5 : nodes d5 !! T = Some (written content)) by by rewrite N5.
  assert (P5 : nodes d5 !! path = nodes d !! path) by (apply A05; set_solver).
  unfold exists_at. case_bool_decide as Hex; cbn [negb].
  - destruct Hex as [old Hold].
    pose proof (replace_outcome path T content old d5 Ho HTp) as Hr. rewrite S5, S4, S3, S2 in Hr.
    specialize (Hr ltac:(rewrite HT; intros He; apply sibling_inj in He; lia) T5 Hold).
    destruct (replace_existing pid path T d5) as [r6 d6]. destruct Hr as (A6 & S6 & W6 & Hr).
    assert (A06 : After [path; T; sibling pid path "old" (S (sequence d))] d d6) by (eapply after_trans; [exact A05|exact A6|set_solver..]).
    split_and!; [apply (Hto _ d6 A06); [lia|]; intros q Hq; assert (S (sequence d) < sequence d6)%nat by lia; set_solver|intros _; works|].
    destruct r6; [done|]. unfold Recoverable in *. by rewrite P5 in Hr.
  - pose proof (rename_cases T path _ d5 T5) as Hr. unfold context. destruct (rename T path d5) as [r6 d6].
    destruct Hr as (A6 & S6 & W6 & Hr). assert (A06 : After [T; path] d d6) by (eapply after_trans; [exact A05|exact A6|set_solver..]).
    assert (Hto6 : Touches path d d6) by (apply (Hto _ d6 A06); [lia|]; intros q Hq; set_solver).
    destruct Hr as [[-> N6]|[[e ->] N6]]; (split_and!; [done|intros _; works|]).
    + by rewrite N6, lookup_insert, decide_True.
    + left. by rewrite N6.
Qed.


(** *** Several files *)

(** Only the paths of a list and new temporary files change. *)
Record Within (ps : list string) (d d' : Disk) : Prop := {
  wi_links : links d' = links d;
  wi_sequence : (sequence d <= sequence d')%nat;
  wi_nodes : forall q, q ∉ ps -> unused d q -> nodes d' !! q = nodes d !! q;
  wi_fresh : fresh d';
}.

Lemma within_refl (ps : list string) (d : Disk) : fresh d -> Within ps d d.
Proof. by split. Qed.

Lemma unused_later (d d' : Disk) (q : string) : (sequence d <= sequence d')%nat -> unused d q -> unused d' q.
Proof. intros Hs Hu p role n Hn. apply Hu. lia. Qed.

Lemma within_trans (ps qs rs : list string) (d d' d'' : Disk) :
  Within ps d d' -> Within qs d' d'' -> ps ⊆ rs -> qs ⊆ rs -> Within rs d d''.
Proof.
  intros [L1 S1 N1 F1] [L2 S2 N2 F2] Hp Hq. split; [congruence|lia| |done]. intros q Hr Hu.
  rewrite N2, N1; [done|set_solver|done|set_solver|by apply (unused_later d)].
Qed.

Lemma within_touches (path : string) (d d' : Disk) : Touches path d d' -> Within [path] d d'.
Proof. intros [L S N F]. split; [done|done| |done]. intros q Hq. apply N. set_solver. Qed.

Lemma within_after (d d' : Disk) : fresh d -> After [] d d' -> Within [] d d'.
Proof.
  intros Hf Ha. split; [apply Ha|apply Ha|intros q Hq _; by apply Ha|]. intros p role n Hn.
  rewrite (after_nodes_eq _ _ Ha). apply Hf. pose proof (af_sequence _ _ _ Ha). lia.
Qed.

Lemma within_text (ps : list string) (d d' : Disk) (q : string) :
  Within ps d d' -> q ∉ ps -> ordinary q -> text_at d' q = text_at d q.
Proof. intros Hw Hq Ho. unfold text_at. rewrite (wi_nodes _ _ _ Hw q Hq); [done|by apply ordinary_unused]. Qed.

(** A file moved aside: its place is empty and its text is in a temporary
    file. *)
Definition Aside (d : Disk) (path : string) (text : option string) : Prop :=
  text_at d path = None /\ exists n, (n < sequence d)%nat /\ text_at d (sibling pid path "old" n) = text.

Lemma write_atomic_text (path content : string) (d : Disk) :
  fresh d -> ordinary path ->
  let '(r, d') := write_atomic pid path content d in
  Within [path] d d' /\ (has_parent path = true -> Works d r d') /\
  match r with
  | Ok _ => text_at d' path = Some content
  | Err _ => text_at d' path = text_at d path \/ text_at d' path = Some content \/ Aside d' path (text_at d path)
  end.
Proof.
  intros Hf Ho. pose proof (write_atomic_outcome path content d Hf Ho) as Hw.
  destruct (write_atomic pid path content d) as [r d']. destruct Hw as (Ht & Hq & Hr).
  split_and!; [by apply within_touches|done|]. unfold Aside, text_at. destruct r as [u|e]; [by rewrite Hr|].
  destruct Hr as [Hr|[Hr|(Hr & n & Hn & Hs)]]; rewrite Hr; [by left|by right; left|right; right]. split; [done|].
  exists n. by rewrite Hs.
Qed.

(** A text aside stays aside while other files are worked on. *)
Lemma within_aside (ps : list string) (d d' : Disk) (path : string) (text : option string) :
  Within ps d d' -> path ∉ ps -> ordinary path -> Forall ordinary ps -> Aside d path text -> Aside d' path text.
Proof.
  intros Hw Hp Ho Hps (Hn & n & Hlt & Ht). split; [by rewrite (within_text ps d d')|]. exists n.
  split; [pose proof (wi_sequence _ _ _ Hw); lia|]. unfold text_at in *. rewrite (wi_nodes _ _ _ Hw); [done| |].
  - rewrite Forall_forall in Hps. intros Hin. by apply (Hps _ Hin path "old" n).
  - intros p role m Hm He. apply sibling_inj in He. lia.
Qed.

Lemma read_optional_file_cases (path : string) (d : Disk) :
  let '(r, d') := read_optional_file path d in
  After [] d d' /\ Works d r d' /\ (r = Ok (text_at d path) \/ exists e, r = Err e).
Proof.
  pose proof (read_optional_file_after path d) as Ha. revert Ha. unfold read_optional_file, context, call.
  case_next; cbn; intros Ha; (split_and!; [done| |]).
  - intros ?. split; [done|auto].
  - left. unfold text_at. by rewrite Hn.
  - by intros ?%Hq.
  - right. by eexists.
Qed.

Lemma remove_file_text (path : string) (d : Disk) :
  fresh d -> ordinary path -> is_Some (nodes d !! path) ->
  let '(r, d') := remove_file path d in
  Within [path] d d' /\ Works d r d' /\
  match r with Ok _ => text_at d' path = None | Err _ => text_at d' path = text_at d path end.
Proof.
  intros Hf Ho [x Hx]. pose proof (remove_file_cases path x d Hx) as Hc. destruct (remove_file path d) as [r d'].
  destruct Hc as (Ha & Hs & Hw & Hr). split_and!; [|done|].
  - split; [apply Ha|lia|intros q Hq _; by apply Ha|]. apply (fresh_after path [path] d d' Hf Ha). intros q Hq. left. set_solver.
  - unfold text_at. destruct Hr as [[-> ->]|[[e ->] ->]]; [by rewrite lookup_delete, decide_True|done].
Qed.

(** Inspecting symbolic links changes nothing, and refuses them. *)
Lemma reject_symlinks_cases (paths : list string) (d : Disk) :
  let '(r, d') := reject_symlinks paths d in
  After [] d d' /\ (links d = ∅ -> Works d r d').
Proof.
  revert d. induction paths as [|p paths IH]; intros d; cbn; [by split; [apply after_refl|]|].
  unfold bind. pose proof (reject_single_symlink_after p d) as Ha.
  assert (Hw : links d = ∅ -> Works d (reject_single_symlink p d).1 (reject_single_symlink p d).2).
  { intros Hl Hq. unfold reject_single_symlink, context, call. rewrite next_quiet by done.
    rewrite bool_decide_false by (rewrite Hl, lookup_empty; by intros [? [=]]). done. }
  destruct (reject_single_symlink p d) as [[u|e] d1]; [|by split].
  specialize (IH d1). destruct (reject_symlinks paths d1) as [r d2]. destruct IH as [Ha2 Hw2]. split.
  - eapply after_trans; [exact Ha|exact Ha2|done|done].
  - intros Hl Hq. destruct (Hw Hl Hq) as [_ Hq1]. apply Hw2; [|done]. pose proof (af_links _ _ _ Ha) as Hll. cbn in Hll. congruence.
Qed.
End Siblings.
