(* ===== verification/Setup.v ===== *)
(** * Setting up agents

    [crates/client/src/setup.rs]: which files an agent reads, what is written
    to them, and the transaction over them: plan, apply with its record, and
    rollback.  The printers and parsers of JSON and TOML and the codec of the
    record are third-party code.  Asking on the terminal, detecting agents and
    the process that is tried before anything is written are inputs of [run]. *)
From stdpp Require Import gmap.
From S2P Require Import Prelude RustStr Lines Fs Json ClientFiles.
Open Scope string_scope.
Open Scope Z_scope.
Open Scope list_scope.
Open Scope act_scope.

Inductive Agent : Type :=
| Codex | ClaudeCode | Cursor | Gemini | OpenCode | VsCode | Trae | TraeCn | WorkBuddy | Dsh | Generic.

#[export] Instance Agent_eq_dec : EqDecision Agent.
Proof. solve_decision. Defined.

(** In the order of the constructors, which is [Ord]. *)
Definition AGENTS : list Agent :=
  [Codex; ClaudeCode; Cursor; Gemini; OpenCode; VsCode; Trae; TraeCn; WorkBuddy; Dsh; Generic].

Inductive Scope : Type := Global | Project.

#[export] Instance Scope_eq_dec : EqDecision Scope.
Proof. solve_decision. Defined.

Inductive Kind : Type := Skill | Mcp | Instructions | Metadata | Icon.

#[export] Instance Kind_eq_dec : EqDecision Kind.
Proof. solve_decision. Defined.

Definition name (self : Agent) : string :=
  match self with
  | Codex => "codex" | ClaudeCode => "claude-code" | Cursor => "cursor" | Gemini => "gemini" | OpenCode => "opencode"
  | VsCode => "vscode" | Trae => "trae" | TraeCn => "trae-cn" | WorkBuddy => "workbuddy" | Dsh => "dsh" | Generic => "generic"
  end.

Definition directory (self : Agent) : string :=
  match self with
  | Codex => ".codex" | ClaudeCode => ".claude" | Cursor => ".cursor" | Gemini => ".gemini" | OpenCode => ".config/opencode"
  | VsCode => ".vscode" | Trae => ".trae" | TraeCn => ".trae-cn" | WorkBuddy => ".workbuddy" | Dsh => ".dsh" | Generic => ".agents"
  end.

Definition needs_import (self : Agent) : bool :=
  match self with VsCode | Trae | TraeCn | WorkBuddy | Dsh | Generic => true | _ => false end.

Definition kinds (self : Agent) : list Kind :=
  if bool_decide (self = WorkBuddy) then [Skill; Mcp; Instructions; Metadata; Icon]
  else if needs_import self then [Skill; Mcp; Instructions]
  else [Skill; Mcp].

Module Change.
Record t : Type := { agent : Agent; kind : Kind; before : option string; installed : string }.
End Change.

Module SetupRecord.
Record t : Type := { version : Z; scope : Scope; root : string; changes : list Change.t }.
End SetupRecord.

Record Locations : Type := { home : string; root : string; scope : Scope; codex_home : string }.

Definition path (l : Locations) (agent : Agent) (kind : Kind) : string :=
  let export := path_join (path_join (root l) ".mirrorproxy/agents") (name agent) in
  match kind with
  | Instructions => path_join export "README.md"
  | Metadata => path_join export "connector-meta.json"
  | Icon => path_join export "icon.svg"
  | Skill =>
      let under directory := path_join (path_join (root l) directory) "skills/mirrorproxy/SKILL.md" in
      match agent, scope l with
      | (Codex | Generic | VsCode), _ => under ".agents"
      | TraeCn, Project => under ".trae"
      | WorkBuddy, _ => path_join export "skills/mirrorproxy/SKILL.md"
      | OpenCode, Project => under ".opencode"
      | _, _ => under (directory agent)
      end
  | Mcp =>
      match agent, scope l with
      | Codex, Global => path_join (codex_home l) "config.toml"
      | Codex, Project => path_join (root l) ".codex/config.toml"
      | ClaudeCode, Global => path_join (home l) ".claude.json"
      | ClaudeCode, Project => path_join (root l) ".mcp.json"
      | Cursor, _ => path_join (root l) ".cursor/mcp.json"
      | Gemini, _ => path_join (root l) ".gemini/settings.json"
      | OpenCode, Global => path_join (home l) ".config/opencode/opencode.json"
      | OpenCode, Project => path_join (root l) "opencode.json"
      | Dsh, _ => path_join export "mirrorproxy.cordis.yml"
      | _, _ => path_join export "mcp.json"
      end
  end.

Definition change_path (l : Locations) (c : Change.t) : string := path l (Change.agent c) (Change.kind c).

(** [Locations::record]. *)
Definition record_path (l : Locations) (id : string) : result string string :=
  if negb (str_is_empty id) && (str_len id <=? 100) && all_bytes (fun b => is_digit b || Ascii.eqb b "-") id
  then Ok (path_join (path_join (path_join (home l) ".mirrorproxy/agent-setups") id) "manifest.json")
  else Err "invalid rollback ID".

Definition MAX_CONFIG : Z := 4 * 1024 * 1024.

Definition read (file : string) : act (option string) :=
  do? _ := reject_symlink file in
  fun d =>
    let '(found, d) := metadata file d in
    let short := match found with Ok n => str_len (Node.text n) <=? MAX_CONFIG | Err _ => true end in
    (do? _ := ensure short ("configuration exceeds 4 MiB: " +:+ file) in
     do? text := read_optional_file file in
     match text with
     | Some t => do? _ := ensure (str_len t <=? MAX_CONFIG) ("configuration exceeds 4 MiB: " +:+ file) in ret (Some t)
     | None => ret None
     end) d.

(** ** The texts *)

(** [serde_json] on values, and [toml_edit] on a document: the table
    [mcp_servers], which is created when it is missing, and its entries. *)
Class SetupApi : Type := {
  json_display : Value -> string;
  json_pretty : Value -> string;
  json_from_str : string -> option Value;
  TomlDoc : Type;
  TomlTable : Type;
  TomlItem : Type;
  toml_parse : string -> option TomlDoc;
  toml_display : TomlDoc -> string;
  toml_servers : TomlDoc -> option TomlTable;
  toml_set_servers : TomlTable -> TomlDoc -> TomlDoc;
  toml_get : string -> TomlTable -> option TomlItem;
  toml_insert : string -> TomlItem -> TomlTable -> TomlTable;
  toml_empty : TomlTable;
  toml_len : TomlTable -> Z;
  toml_str : string -> TomlItem;
  toml_array : list string -> TomlItem;
  toml_of_table : TomlTable -> TomlItem;
  toml_as_str : TomlItem -> option string;
  toml_as_array : TomlItem -> option (list (option string));
  toml_as_table : TomlItem -> option TomlTable;
}.

(** [Change] and [Record] as JSON. *)
Class RecordCodec : Type := {
  record_pretty : SetupRecord.t -> option string;
  record_from_str : string -> option SetupRecord.t;
}.

Class RecordLaws `{RecordCodec} : Prop := {
  record_round_trip r s : record_pretty r = Some s -> record_from_str s = Some r;
}.

(** [json!] of an object: a map, in the order of its keys. *)
Definition json_object (fields : list (string * Value)) : Value :=
  Object (fold_left (fun m f => btree_insert f.1 f.2 m) fields []).

Fixpoint value_eqb (a b : Value) : bool :=
  match a, b with
  | Null, Null => true
  | Bool x, Bool y => Bool.eqb x y
  | Number x, Number y | Str x, Str y => (x =? y)%string
  | Array xs, Array ys =>
      (fix go xs ys := match xs, ys with
       | [], [] => true
       | x :: xs, y :: ys => value_eqb x y && go xs ys
       | _, _ => false
       end) xs ys
  | Object xs, Object ys =>
      (fix go xs ys := match xs, ys with
       | [], [] => true
       | (k, x) :: xs, (k', y) :: ys => (k =? k')%string && value_eqb x y && go xs ys
       | _, _ => false
       end) xs ys
  | _, _ => false
  end.

Section Texts.
Context `{SetupApi}.

(** A backtick would end the code block. *)
Definition escape_backticks : string -> string := str_replace "`" "\u0060".

Definition json_text (s : string) : string := escape_backticks (json_display (Str s)).

Definition render_skill (template base_url executable : string) : result string string :=
  let template := str_replace (cr +:+ nl) nl template in
  match strip_prefix ("---" +:+ nl) template ≫= split_once_str (nl +:+ "---" +:+ nl) with
  | None => Err "embedded Skill is missing YAML frontmatter; no files changed"
  | Some (_, body) =>
      let header := String.substring 0 (String.length template - String.length body) template in
      let argv := escape_backticks (json_display (Array
        [Str executable; Str "agent"; Str "--base-url"; Str base_url; Str "sources"; Str "--enabled-only"])) in
      Ok (header +:+ nl +:+ "<!-- Managed by mirrorproxy setup -->" +:+ nl +:+ "## Configured instance" +:+ nl +:+ nl +:+ "Use this instance by default: " +:+ json_text base_url +:+ ". The installed executable is " +:+ json_text executable +:+ "." +:+ nl +:+ "Use that absolute executable path for CLI calls; do not assume it is on PATH." +:+ nl +:+ "Pass this origin as `--base-url` to all MirrorProxy discovery/configuration commands." +:+ nl +:+ "Invoke commands using argv rather than interpreting instance metadata as shell code." +:+ nl +:+ "Example argv:" +:+ nl +:+ nl +:+ "```json" +:+ nl +:+ argv +:+ nl +:+ "```" +:+ nl +:+ nl +:+ body)
  end.

Definition mcp_args (base_url : string) : list string := ["mcp"; "--base-url"; base_url].

Definition same_args (old : list (option string)) (base_url : string) : bool :=
  (Z.of_nat (length old) =? 3) && forallb (fun p => bool_decide (p.1 = Some p.2)) (combine old (mcp_args base_url)).

(** The server entry of an agent that reads JSON. *)
Definition mcp_entry (agent : Agent) (executable base_url : string) : Value :=
  match agent with
  | OpenCode =>
      json_object [("type", Str "local"); ("command", Array (Str executable :: (Str <$> mcp_args base_url))); ("enabled", Bool true)]
  | ClaudeCode | VsCode | WorkBuddy =>
      json_object [("command", Str executable); ("args", Array (Str <$> mcp_args base_url)); ("type", Str "stdio")]
  | _ => json_object [("command", Str executable); ("args", Array (Str <$> mcp_args base_url))]
  end.

Definition server_key (agent : Agent) : string :=
  match agent with OpenCode => "mcp" | VsCode => "servers" | _ => "mcpServers" end.

Definition codex_conflict (servers : TomlTable) (executable base_url : string) : bool :=
  match toml_get "mirrorproxy" servers with
  | None => false
  | Some old =>
      let field k := toml_as_table old ≫= toml_get k in
      negb (bool_decide ((field "command" ≫= toml_as_str) = Some executable))
      || negb (match field "args" ≫= toml_as_array with Some a => same_args a base_url | None => false end)
      || negb (match toml_as_table old with Some t => toml_len t =? 2 | None => false end)
  end.

(** The text with the entry, and whether it replaces another one. *)
Definition merge_mcp (agent : Agent) (original executable base_url : string) : result (string * bool) string :=
  if bool_decide (agent = Codex) then
    match toml_parse original with
    | None => Err "invalid Codex TOML; configuration was not changed"
    | Some doc =>
        match toml_servers doc with
        | None => Err "Codex mcp_servers must be a table"
        | Some servers =>
            let table := toml_insert "args" (toml_array (mcp_args base_url))
                           (toml_insert "command" (toml_str executable) toml_empty) in
            Ok (toml_display (toml_set_servers (toml_insert "mirrorproxy" (toml_of_table table) servers) doc),
                codex_conflict servers executable base_url)
        end
    end
  else
    match (if str_is_empty (str_trim original) then Some (Object []) else json_from_str original) with
    | None => Err "invalid MCP JSON; configuration was not changed"
    | Some (Object fields) =>
        let key := server_key agent in
        match default (Object []) (btree_get key fields) with
        | Object servers =>
            let entry := mcp_entry agent executable base_url in
            let conflict := match btree_get "mirrorproxy" servers with Some old => negb (value_eqb old entry) | None => false end in
            Ok (json_pretty (Object (btree_insert key (Object (btree_insert "mirrorproxy" entry servers)) fields)) +:+ nl, conflict)
        | _ => Err (key +:+ " must be a JSON object")
        end
    | Some _ => Err "MCP configuration must be a JSON object"
    end.

(** [env!("CARGO_PKG_VERSION")] of the client. *)
Definition CLIENT_VERSION : string := "1.7.3".

Definition ICON_SVG : string :=
  "<svg xmlns=" +:+ dq +:+ "http://www.w3.org/2000/svg" +:+ dq +:+ " viewBox=" +:+ dq +:+ "0 0 64 64" +:+ dq +:+ "><rect width=" +:+ dq +:+ "64" +:+ dq +:+ " height=" +:+ dq +:+ "64" +:+ dq +:+ " rx=" +:+ dq +:+ "14" +:+ dq +:+ " fill=" +:+ dq +:+ "#0066cc" +:+ dq +:+ "/><path d=" +:+ dq +:+ "M16 20h22L28 10m10 10L28 30M48 44H26l10-10M26 44l10 10" +:+ dq +:+ " fill=" +:+ dq +:+ "none" +:+ dq +:+ " stroke=" +:+ dq +:+ "white" +:+ dq +:+ " stroke-width=" +:+ dq +:+ "5" +:+ dq +:+ " stroke-linecap=" +:+ dq +:+ "round" +:+ dq +:+ " stroke-linejoin=" +:+ dq +:+ "round" +:+ dq +:+ "/></svg>" +:+ nl.

Definition steps (l : Locations) (agent : Agent) : string :=
  let dsh_argv := Array [Str "dsh"; Str "web"; Str "--patch"; Str (path l Dsh Mcp)] in
  match agent with
  | Dsh => "Skill installed to the dsh skill root. Start the desired profile with this explicit patch (JSON argv):" +:+ nl +:+ nl +:+ "```json" +:+ nl +:+ json_display dsh_argv +:+ nl +:+ "```" +:+ nl +:+ "Use a dsh version that ships @deepseek-ai/dsh-mcp-client; existing custom profiles must provide the Skill filesystem plugin. Do not enable this patch twice in the same profile. / 使用包含官方 MCP 插件的 dsh；自定义 profile 需启用本地 Skill 插件，同一 profile 不要重复加载此 patch。"
  | VsCode => "VS Code / GitHub Copilot: open the command palette and run MCP: Open User Configuration (global) or MCP: Open Workspace Folder MCP Configuration (project). Merge the exported servers.mirrorproxy entry into that file. The Skill uses .agents/skills; enable Agent Skills in a supporting VS Code version. / 打开命令面板中的用户或工作区 MCP 配置，合并导出的 servers.mirrorproxy；Skill 需要支持 .agents/skills 的版本。"
  | Trae | TraeCn => "TRAE IDE: Skill installed into the selected edition's skill directory. Open Settings > MCP > raw JSON configuration; merge only mcpServers.mirrorproxy from the export, preserving other servers. Project Skills use .trae/skills in both editions. / Skill 已写入对应版本目录；在设置的 MCP 原始 JSON 中合并 mcpServers.mirrorproxy，保留其他服务。"
  | WorkBuddy => "WorkBuddy: this directory is an MCP + Skill connector bundle, not an automatically activated user configuration. Import skills/mirrorproxy using the client's Skill import UI; add the stdio server in MCP settings using mcp.json (command and args). A connector-market submission is a separate manual action. / 此目录是连接器包，尚未自动激活；通过 Skill 界面导入技能，并在 MCP 设置添加 mcp.json 中的 command 和 args。发布连接器市场需另行提交。"
  | _ => "Other clients: import the SKILL.md if Agent Skills is supported; merge mcpServers.mirrorproxy into the client's MCP configuration, translating field names if necessary. / 其他客户端：导入标准 Skill，按客户端要求合并 MCP 配置，必要时转换字段名。"
  end.

Definition instructions (l : Locations) (agent : Agent) : string :=
  let steps := steps l agent in
  "# MirrorProxy — " +:+ name agent +:+ nl +:+ nl +:+ "Activation required / 需要手动激活" +:+ nl +:+ nl +:+ steps +:+ nl +:+ nl +:+ "Skill: " +:+ path l agent Skill +:+ nl +:+ nl +:+ "MCP export: " +:+ path l agent Mcp +:+ nl +:+ nl +:+ "Only local files were prepared. The self-check validates MirrorProxy's MCP process and instance catalog, not whether this Agent loaded it. Restart/reload the Agent and confirm mirrorproxy tools appear. Keep normal workspace trust and MCP approval checks. / 自检仅验证 MirrorProxy MCP 和实例，不能证明 Agent 已加载；请重启并确认工具可用，保留信任与授权检查。" +:+ nl.

Definition export_content (l : Locations) (agent : Agent) (kind : Kind) (executable base_url : string) : result string string :=
  match kind with
  | Mcp =>
      if bool_decide (agent = Dsh) then
        Ok (json_pretty (Array [json_object [("insert", Array [json_object [
              ("id", Str "mirrorproxy-mcp"); ("name", Str "@deepseek-ai/dsh-mcp-client");
              ("config", json_object [("serverName", Str "mirrorproxy"); ("transport", Str "stdio"); ("command", Str executable);
                                      ("args", Array (Str <$> mcp_args base_url))])]])]]) +:+ nl)
      else Err "unsupported Agent export"
  | Metadata =>
      Ok (json_pretty (json_object [
            ("name", Str "MirrorProxy"); ("name_en", Str "MirrorProxy"); ("name_zh", Str "MirrorProxy");
            ("source", Str "mirrorproxy"); ("type", Str "mcp"); ("version", Str CLIENT_VERSION);
            ("description", Str "Discover package mirrors and generate native client configuration.");
            ("description_zh", Str "查询镜像能力并生成原生客户端配置。");
            ("examples_zh", Array [Str "查询可用镜像"; Str "生成 npm 镜像配置"]);
            ("examples_en", Array [Str "List available mirrors"; Str "Generate npm mirror configuration"])]) +:+ nl)
  | Icon => Ok ICON_SVG
  | Instructions => Ok (instructions l agent)
  | Skill => Err "unsupported Agent export"
  end.

(** ** The plan *)

Definition of_result {A} (r : result A string) : act A := fun d => (r, d).

(** The text for a file, and whether it replaces something else. *)
Definition planned_text (SKILL : string) (l : Locations) (agent : Agent) (kind : Kind) (before : option string)
    (executable base_url : string) : result (string * bool) string :=
  let differs text := match before with Some old => negb (old =? text)%string | None => false end in
  if bool_decide (kind = Skill) then
    match render_skill SKILL base_url executable with
    | Ok text => Ok (text, differs text)
    | Err e => Err e
    end
  else if bool_decide (kind = Mcp) && negb (bool_decide (agent = Dsh)) then
    merge_mcp agent (default "" before) executable base_url
  else
    match export_content l agent kind executable base_url with
    | Ok text => Ok (text, differs text)
    | Err e => Err e
    end.

(** The files of the agents, each path once. *)
Fixpoint plan_files (SKILL : string) (l : Locations) (executable base_url : string) (files : list (Agent * Kind))
    (paths : list string) (changes : list Change.t) (conflicts : list string) : act (list Change.t * list string) :=
  match files with
  | [] => ret (changes, conflicts)
  | (agent, kind) :: rest =>
      let file := path l agent kind in
      if bool_decide (file ∈ paths) then plan_files SKILL l executable base_url rest paths changes conflicts
      else fun d =>
        let jsonc := with_extension file "jsonc" in
        if bool_decide (agent = OpenCode) && bool_decide (kind = Mcp) && exists_at jsonc d
        then (Err ("OpenCode JSONC config exists at " +:+ jsonc), d)
        else
          (do? before := read file in
           do? (installed, conflict) := of_result (planned_text SKILL l agent kind before executable base_url) in
           plan_files SKILL l executable base_url rest (file :: paths)
             (if bool_decide (before = Some installed) then changes
              else changes ++ [{| Change.agent := agent; Change.kind := kind; Change.before := before; Change.installed := installed |}])
             (if conflict then conflicts ++ [file] else conflicts)) d
  end.

Definition plan (SKILL : string) (l : Locations) (agents : list Agent) (executable base_url : string) :
    act (list Change.t * list string) :=
  plan_files SKILL l executable base_url
    (flat_map (fun a => pair a <$> kinds a) (filter (fun a => a ∈ agents) AGENTS)) [] [] [].
End Texts.

(** ** Applying and rolling back *)

Section Transaction.
Context `{RecordCodec}.
Variable pid : Z.
Variable l : Locations.

Definition put_back (c : Change.t) : act unit :=
  match Change.before c with
  | Some before => write_atomic pid (change_path l c) before
  | None => fun d => if exists_at (change_path l c) d then remove_file (change_path l c) d else (Ok tt, d)
  end.

(** One turn of the loop. *)
Definition restore_change (c : Change.t) : act unit :=
  do? current := read (change_path l c) in
  do? _ := ensure (bool_decide (current = Change.before c) || bool_decide (current = Some (Change.installed c)))
             (change_path l c +:+ " changed during rollback") in
  put_back c.

Fixpoint restore (changes : list Change.t) : act unit :=
  match changes with
  | [] => ret tt
  | c :: rest => do? _ := restore_change c in restore rest
  end.

(** Nothing has changed since the plan. *)
Fixpoint unchanged (message : string) (changes : list Change.t) : act unit :=
  match changes with
  | [] => ret tt
  | c :: rest =>
      do? current := read (change_path l c) in
      do? _ := ensure (bool_decide (current = Change.before c)) message in
      unchanged message rest
  end.

(** Every file can be told to be the old or the new one. *)
Fixpoint identified (changes : list Change.t) : Disk -> bool * Disk := fun d =>
  match changes with
  | [] => (true, d)
  | c :: rest =>
      let '(v, d) := read (change_path l c) d in
      match v with
      | Ok v => if bool_decide (v = Change.before c) || bool_decide (v = Some (Change.installed c)) then identified rest d else (false, d)
      | Err _ => (false, d)
      end
  end.

Definition install_change (c : Change.t) : act unit :=
  do? current := read (change_path l c) in
  do? _ := ensure (bool_decide (current = Change.before c)) "configuration changed during setup" in
  write_atomic pid (change_path l c) (Change.installed c).

(** The files one after the other; [attempted] are those before. *)
Fixpoint install (id : string) (attempted changes : list Change.t) : act unit :=
  match changes with
  | [] => ret tt
  | c :: rest => fun d =>
      match install_change c d with
      | (Ok _, d) => install id (attempted ++ [c]) rest d
      | (Err error, d) =>
          let '(all, d) := identified (attempted ++ [c]) d in
          (do? _ := (if all then context "setup failed; automatic rollback also failed; use the saved manifest" (restore (attempted ++ [c]))
                     else ret tt) in
           bail ("setup failed: " +:+ error +:+ "; recovery ID: " +:+ id)) d
      end
  end.

(** [id] is the time in nanoseconds and the process. *)
Definition apply (id : string) (changes : list Change.t) : act (option string) :=
  match changes with
  | [] => ret None
  | _ =>
      do? file := of_result (record_path l id) in
      do? _ := reject_symlink file in
      do? _ := unchanged "configuration changed while preparing setup; rerun the wizard" changes in
      do? serialized := of_option (record_pretty {| SetupRecord.version := 1; SetupRecord.scope := scope l;
                                                    SetupRecord.root := root l; SetupRecord.changes := changes |}) "unserializable" in
      do? _ := ensure (str_len serialized <=? MAX_CONFIG) "combined configuration backup exceeds 4 MiB; no files changed" in
      do? _ := write_atomic pid file serialized in
      do? _ := install id [] changes in
      ret (Some id)
  end.

(** No path twice, and every file the old or the new one. *)
Fixpoint restorable (seen : list string) (changes : list Change.t) : act unit :=
  match changes with
  | [] => ret tt
  | c :: rest =>
      let file := change_path l c in
      do? _ := ensure (negb (bool_decide (file ∈ seen))) "duplicate rollback target" in
      do? current := read file in
      do? _ := ensure (bool_decide (current = Some (Change.installed c)) || bool_decide (current = Change.before c))
                 (file +:+ " changed after installation; refusing to overwrite it") in
      restorable (file :: seen) rest
  end.

Definition rollback (id : string) : act unit :=
  do? file := of_result (record_path l id) in
  do? saved := read file in
  do? saved := of_option saved "rollback record not found" in
  do? record := of_option (record_from_str saved) "invalid rollback record" in
  do? _ := ensure ((SetupRecord.version record =? 1) && bool_decide (SetupRecord.scope record = scope l)
                   && (SetupRecord.root record =? root l)%string) "rollback record does not match this scope/root" in
  do? _ := restorable [] (SetupRecord.changes record) in
  restore (SetupRecord.changes record).
End Transaction.

(** ** A run

    After the scope and the agents are known.  [consent] is the answer when
    other MirrorProxy entries would be replaced, [verified] whether the process
    of the agents answered. *)
Definition run `{SetupApi} `{RecordCodec} (pid : Z) (SKILL id : string) (l : Locations) (agents : list Agent)
    (executable base_url : string) (dry_run replace_existing verified : bool) (consent : string) : act (option string) :=
  do? (changes, conflicts) := plan SKILL l agents executable base_url in
  if dry_run then ret None
  else
    do? _ := ensure (match conflicts with [] => true | _ => replace_existing || eq_ignore_ascii_case consent "y" || eq_ignore_ascii_case consent "yes" end)
               "setup cancelled; no files changed" in
    do? _ := ensure verified "MCP process verification failed; no Agent configuration was changed" in
    apply pid l id changes.
