(* ===== verification/SetupSpec.v ===== *)
(** * What setting up agents guarantees

    Theorems about [Setup]: the original of every file is kept until the setup
    is undone, whatever call of the file system fails; a rollback restores what
    was there and refuses files edited since; merging an entry keeps all
    others. *)
From stdpp Require Import gmap.
From S2P Require Import Prelude RustStr Lines Fs Json ClientFiles Setup.
Open Scope string_scope.
Open Scope Z_scope.
Open Scope list_scope.
Open Scope act_scope.

(** ** Reading *)

Definition short (d : Disk) (file : string) : Prop := forall t, text_at d file = Some t -> str_len t <= MAX_CONFIG.

Lemma metadata_cases (file : string) (d : Disk) :
  let '(r, d') := metadata file d in
  After [] d d' /\ (tape d = [] -> tape d' = []) /\ (forall n, r = Ok n -> nodes d !! file = Some n).
Proof.
  pose proof (quiet_call_after (fun d => result_of_option (nodes d !! file) not_found) d) as Ha. revert Ha.
  unfold metadata, call. case_next; cbn; intros Ha; (split_and!; [done|tauto|]); [|done].
  intros n Hr. rewrite Hn in Hr. destruct (nodes d !! file); cbn in Hr; congruence.
Qed.

Lemma after_text (d d' : Disk) (file : string) : After [] d d' -> text_at d' file = text_at d file.
Proof. intros Ha. unfold text_at. by rewrite (after_nodes_eq _ _ Ha). Qed.

Lemma after_join (d d' d'' : Disk) : After [] d d' -> After [] d' d'' -> After [] d d''.
Proof. intros Ha Hb. by eapply after_trans. Qed.

Lemma read_cases (file : string) (d : Disk) :
  let '(r, d') := read file d in
  After [] d d' /\ (forall v, r = Ok v -> v = text_at d file) /\ (links d = ∅ -> short d file -> Works d r d').
Proof.
  unfold read, bind at 1. pose proof (reject_symlinks_cases (ancestors file) d) as H1. unfold reject_symlink.
  destruct (reject_symlinks _ d) as [[u|e] d1]; destruct H1 as [A1 W1]; [|by split_and!; [| |auto]].
  pose proof (metadata_cases file d1) as H2. destruct (metadata file d1) as [found d2]. destruct H2 as (A2 & Q2 & H2).
  assert (A02 : After [] d d2) by by eapply after_join.
  assert (Hn : nodes d1 = nodes d) by by apply after_nodes_eq.
  set (ok := match found with Ok n => _ | Err _ => true end).
  assert (Hok : short d file -> ok = true).
  { intros Hs. unfold ok. destruct found as [n|]; [|done]. apply Z.leb_le, Hs. unfold text_at. by rewrite <-Hn, (H2 n). }
  unfold bind at 1, ensure at 1. destruct ok; cbn [ret bail].
  2: { split_and!; [done|done|]. intros Hl Hs. by discriminate (Hok Hs). }
  unfold bind at 1. pose proof (read_optional_file_cases file d2) as H3. destruct (read_optional_file file d2) as [r d3].
  destruct H3 as (A3 & W3 & H3). assert (A03 : After [] d d3) by by eapply after_join.
  assert (Ht : text_at d2 file = text_at d file) by by apply after_text.
  assert (W : links d = ∅ -> Works d r d3) by (intros Hl Hq; destruct (W1 Hl Hq); auto).
  destruct H3 as [->|[e ->]]; [|by split_and!; [| |auto]]. rewrite Ht. destruct (text_at d file) as [t|] eqn:E.
  - unfold bind, ensure. destruct (Z.leb_spec (str_len t) MAX_CONFIG) as [Hl|Hl]; cbn [ret bail].
    + split_and!; [done|by intros v [= <-]|]. intros Hk _. by apply W.
    + split_and!; [done|done|]. intros _ Hs. specialize (Hs t E). lia.
  - split_and!; [done|by intros v [= <-]|]. intros Hk _. by apply W.
Qed.

Section Spec.
Variable pid : Z.
Variable l : Locations.

Notation file := (change_path l).

(** ** Restoring *)

Definition is_before (d : Disk) (c : Change.t) : Prop := text_at d (file c) = Change.before c.
Definition is_installed (d : Disk) (c : Change.t) : Prop := text_at d (file c) = Some (Change.installed c).

Definition files_of (changes : list Change.t) : list string := (fun c => file c) <$> changes.

(** Where a file may be while the changes are undone. *)
Definition Status (d : Disk) (c : Change.t) : Prop :=
  is_before d c \/ is_installed d c \/
  Aside pid d (file c) (Change.before c) \/ Aside pid d (file c) (Some (Change.installed c)).

(** Files that another step does not touch stay where they are. *)
Lemma status_kept (ps : list string) (d d' : Disk) (c : Change.t) :
  Within pid ps d d' -> file c ∉ ps -> ordinary pid (file c) -> Forall (ordinary pid) ps -> Status d c -> Status d' c.
Proof.
  intros Hw Hp Ho Hps. unfold Status, is_before, is_installed. rewrite (within_text pid ps d d') by done.
  intros [H1|[H1|[H1|H1]]]; [by left|by right; left|right; right; left|right; right; right];
    by apply (within_aside pid ps d d').
Qed.

Lemma after_status (d d' : Disk) (c : Change.t) : After [] d d' -> Status d c -> Status d' c.
Proof.
  intros Ha. unfold Status, is_before, is_installed, Aside, text_at. rewrite (after_nodes_eq _ _ Ha).
  pose proof (af_sequence _ _ _ Ha). intros [H1|[H1|[(H1 & n & H2 & H3)|(H1 & n & H2 & H3)]]];
    [by left|by right; left|right; right; left|right; right; right]; (split; [done|]; exists n; split; [lia|done]).
Qed.

Lemma file_in (c : Change.t) (changes : list Change.t) : c ∈ changes -> file c ∈ files_of changes.
Proof. intros Hc. unfold files_of. by apply list_elem_of_fmap_2. Qed.

(** A whole run without faults is possible. *)
Definition Clear (d : Disk) (changes : list Change.t) : Prop :=
  links d = ∅ /\ Forall (fun c => short d (file c) /\ has_parent (file c) = true) changes.

Lemma put_back_cases (c : Change.t) (d : Disk) :
  fresh pid d -> ordinary pid (file c) -> is_before d c \/ is_installed d c ->
  let '(r, d') := put_back pid l c d in
  Within pid [file c] d d' /\ Status d' c /\ (is_ok r = true -> is_before d' c) /\ (has_parent (file c) = true -> Works d r d').
Proof.
  intros Hf Ho Hc. unfold put_back, Status, is_before, is_installed in *. destruct (Change.before c) as [before|].
  - pose proof (write_atomic_text pid (file c) before d Hf Ho) as Hw. destruct (write_atomic pid (file c) before d) as [r d'].
    destruct Hw as (Hw & Hq & Hr). destruct r as [u|e]; split_and!; try done; [by left|].
    destruct Hr as [Hr|[Hr|Hr]]; [|by left|]; destruct Hc as [Hc|Hc]; rewrite Hc in Hr; tauto.
  - unfold exists_at. case_bool_decide as Hex.
    + pose proof (remove_file_text pid (file c) d Hf Ho Hex) as Hr. destruct (remove_file (file c) d) as [r d'].
      destruct Hr as (Hw & Hq & Hr). destruct r; split_and!; try done; [by left|]. rewrite Hr. tauto.
    + assert (text_at d (file c) = None).
      { unfold text_at. destruct (nodes d !! file c) eqn:E; [|done]. by destruct Hex. }
      split_and!; [by apply within_refl|by left|done|done].
Qed.

Lemma after_fresh (d d' : Disk) : fresh pid d -> After [] d d' -> fresh pid d'.
Proof. intros Hf Ha. by apply (wi_fresh pid [] d), within_after. Qed.

Lemma after_within (ps : list string) (d d' : Disk) : fresh pid d -> After [] d d' -> Within pid ps d d'.
Proof. intros Hf Ha. eapply within_trans; [by apply within_after|by apply (within_refl pid []), (after_fresh d)|set_solver..]. Qed.

Lemma restore_change_cases (c : Change.t) (d : Disk) :
  fresh pid d -> ordinary pid (file c) ->
  let '(r, d') := restore_change pid l c d in
  Within pid [file c] d d' /\ (Status d c -> Status d' c) /\ (is_ok r = true -> is_before d' c) /\
  (links d = ∅ -> short d (file c) -> has_parent (file c) = true -> is_before d c \/ is_installed d c -> Works d r d').
Proof.
  intros Hf Ho. unfold restore_change, bind at 1. pose proof (read_cases (file c) d) as H1.
  destruct (read (file c) d) as [v d1]. destruct H1 as (A1 & V1 & W1). pose proof (after_fresh d d1 Hf A1) as Hf1.
  destruct v as [current|e]; [|split_and!; [by apply after_within|by apply after_status|done|by auto]].
  rewrite (V1 current eq_refl). unfold bind, ensure.
  destruct (bool_decide (text_at d (file c) = Change.before c) || bool_decide (text_at d (file c) = Some (Change.installed c))) eqn:Hb;
    cbn [ret bail].
  - assert (Hc : is_before d1 c \/ is_installed d1 c).
    { unfold is_before, is_installed. rewrite (after_text d d1) by done.
      apply orb_prop in Hb as [Hb|Hb]; apply bool_decide_eq_true in Hb; tauto. }
    pose proof (put_back_cases c d1 Hf1 Ho Hc) as H2. destruct (put_back pid l c d1) as [r d2].
    destruct H2 as (I2 & S2 & B2 & W2). split_and!; [|done|done|].
    + eapply within_trans; [by apply within_after|exact I2|set_solver..].
    + intros Hl Hs Hp _ Hq. destruct (W1 Hl Hs Hq) as [_ Hq1]. exact (W2 Hp Hq1).
  - split_and!; [by apply after_within|by apply after_status|done|]. intros _ _ _ Hc. unfold is_before, is_installed in Hc.
    apply orb_false_elim in Hb as [Hb1 Hb2]. apply bool_decide_eq_false in Hb1, Hb2. tauto.
Qed.

Lemma not_in_one (c x : Change.t) (changes : list Change.t) : file c ∉ files_of changes -> x ∈ changes -> file x ∉ [file c].
Proof. intros Hc Hx Hin. apply list_elem_of_singleton in Hin. apply Hc. rewrite <-Hin. by apply file_in. Qed.

Lemma restore_cases (changes : list Change.t) (d : Disk) :
  fresh pid d -> Forall (ordinary pid) (files_of changes) -> NoDup (files_of changes) ->
  let '(r, d') := restore pid l changes d in
  Within pid (files_of changes) d d' /\
  (Forall (Status d) changes -> Forall (Status d') changes) /\
  (is_ok r = true -> Forall (is_before d') changes) /\
  (Clear d changes -> Forall (fun c => is_before d c \/ is_installed d c) changes -> Works d r d').
Proof.
  revert d. induction changes as [|c changes IH]; intros d Hf Ho Hnd; cbn [restore].
  { split_and!; [by apply within_refl|done|constructor|done]. }
  unfold files_of in Ho, Hnd. cbn in Ho, Hnd. apply Forall_cons in Ho as [Hoc Ho]. apply NoDup_cons in Hnd as [Hnc Hnd].
  fold (files_of changes) in Ho, Hnc, Hnd. change (files_of (c :: changes)) with (file c :: files_of changes).
  unfold bind. pose proof (restore_change_cases c d Hf Hoc) as H1. destruct (restore_change pid l c d) as [r1 d1].
  destruct H1 as (I1 & S1 & B1 & W1).
  assert (Hothers : Forall (Status d) changes -> Forall (Status d1) changes).
  { rewrite !Forall_forall in *. intros Hs x Hx. apply (status_kept [file c] d d1); [done| | |by repeat constructor|by apply Hs].
    - by apply (not_in_one c x changes).
    - by apply Ho, file_in. }
  destruct r1 as [u|e].
  2: { split_and!; [eapply within_trans; [exact I1|apply (within_refl pid []); apply I1|set_solver..]| |done|].
       - intros Hs. apply Forall_cons in Hs as [Hc Hs]. constructor; auto.
       - intros [Hl Hc] Hall. apply Forall_cons in Hc as [[Hs Hp] _]. apply Forall_cons in Hall as [Hall _]. auto. }
  specialize (IH d1 (wi_fresh _ _ _ _ I1) Ho Hnd). destruct (restore pid l changes d1) as [r2 d2].
  destruct IH as (I2 & S2 & B2 & W2).
  assert (Hbc : is_before d2 c) by (unfold is_before; rewrite (within_text pid (files_of changes) d1 d2) by done; by apply B1).
  assert (Htext : forall x, x ∈ changes -> text_at d1 (file x) = text_at d (file x)).
  { intros x Hx. apply (within_text pid [file c]); [done|by apply (not_in_one c x changes)|].
    rewrite Forall_forall in Ho. by apply Ho, file_in. }
  split_and!.
  - eapply within_trans; [exact I1|exact I2|set_solver..].
  - intros Hs. apply Forall_cons in Hs as [_ Hs]. constructor; [by left|auto].
  - intros Hr. constructor; auto.
  - intros [Hl Hc] Hall Hq. apply Forall_cons in Hc as [[Hs Hp] Hc]. apply Forall_cons in Hall as [Hh Hall].
    destruct (W1 Hl Hs Hp Hh Hq) as [_ Hq1]. apply W2; [split; [by rewrite (wi_links _ _ _ _ I1)|]| |done].
    + rewrite Forall_forall in Hc |- *. intros x Hx. destruct (Hc x Hx) as [P1 P2]. split; [|done].
      intros t Ht. apply P1. by rewrite <-Htext.
    + rewrite Forall_forall in Hall |- *. intros x Hx. unfold is_before, is_installed. rewrite Htext by done. by apply Hall.
Qed.

(** ** Installing *)

Lemma install_change_cases (c : Change.t) (d : Disk) :
  fresh pid d -> ordinary pid (file c) ->
  let '(r, d') := install_change pid l c d in
  Within pid [file c] d d' /\ (is_before d c -> Status d' c) /\ (is_ok r = true -> is_before d c /\ is_installed d' c) /\
  (links d = ∅ -> short d (file c) -> has_parent (file c) = true -> is_before d c -> Works d r d').
Proof.
  intros Hf Ho. unfold install_change, bind at 1. pose proof (read_cases (file c) d) as H1.
  destruct (read (file c) d) as [v d1]. destruct H1 as (A1 & V1 & W1). pose proof (after_fresh d d1 Hf A1) as Hf1.
  assert (Hs : is_before d c -> Status d1 c) by (intros Hc; apply (after_status d d1 c A1); by left).
  destruct v as [current|e]; [|split_and!; [by apply after_within|done|done|by auto]].
  rewrite (V1 current eq_refl). unfold bind, ensure. case_bool_decide as Hb; cbn [ret bail].
  2: { split_and!; [by apply after_within|done|done|]. intros _ _ _ Hc. by destruct Hb. }
  pose proof (write_atomic_text pid (file c) (Change.installed c) d1 Hf1 Ho) as H2.
  destruct (write_atomic pid (file c) (Change.installed c) d1) as [r d2]. destruct H2 as (I2 & W2 & H2).
  rewrite (after_text d d1) in H2 by done. rewrite Hb in H2. split_and!.
  - eapply within_trans; [by apply within_after|exact I2|set_solver..].
  - intros _. unfold Status, is_before, is_installed. destruct r; tauto.
  - intros Hr. by destruct r.
  - intros Hl Hsh Hp _ Hq. destruct (W1 Hl Hsh Hq) as [_ Hq1]. exact (W2 Hp Hq1).
Qed.

Lemma identified_after (changes : list Change.t) (d : Disk) : After [] d (identified l changes d).2.
Proof.
  revert d. induction changes as [|c changes IH]; intros d; cbn [identified]; [apply after_refl|].
  pose proof (read_cases (file c) d) as H1. destruct (read (file c) d) as [[v|e] d1]; destruct H1 as (A1 & _ & _); [|done].
  destruct (_ || _); [|done]. eapply after_join; [exact A1|apply IH].
Qed.

(** The recovery after a failed write. *)
Lemma recover_cases (id error : string) (changes : list Change.t) (d : Disk) :
  fresh pid d -> Forall (ordinary pid) (files_of changes) -> NoDup (files_of changes) ->
  let '(r, d') :=
    (let '(all, d) := identified l changes d in
     (do? _ := (if all then context "setup failed; automatic rollback also failed; use the saved manifest" (restore pid l changes)
                else ret tt) in
      bail ("setup failed: " +:+ error +:+ "; recovery ID: " +:+ id)) d) in
  is_ok (r : result unit string) = false /\ Within pid (files_of changes) d d' /\ (Forall (Status d) changes -> Forall (Status d') changes).
Proof.
  intros Hf Ho Hnd. pose proof (identified_after changes d) as A1. destruct (identified l changes d) as [all d1]. cbn [snd] in A1.
  assert (H1 : Forall (Status d) changes -> Forall (Status d1) changes).
  { intros Hs. apply (Forall_impl _ _ _ Hs). intros c. by apply after_status. }
  unfold bind. destruct all; cbn [ret bail]; [|split_and!; [done|by apply after_within|done]].
  pose proof (restore_cases changes d1 (after_fresh d d1 Hf A1) Ho Hnd) as H2. unfold context.
  destruct (restore pid l changes d1) as [[u|e] d2]; destruct H2 as (I2 & S2 & _ & _);
    (split_and!; [done| |auto]; eapply within_trans; [by apply within_after|exact I2|set_solver..]).
Qed.

Lemma files_of_app (a b : list Change.t) : files_of (a ++ b) = files_of a ++ files_of b.
Proof. apply fmap_app. Qed.

Lemma install_cases (id : string) (changes : list Change.t) :
  forall attempted d, fresh pid d -> Forall (ordinary pid) (files_of (attempted ++ changes)) -> NoDup (files_of (attempted ++ changes)) ->
  let '(r, d') := install pid l id attempted changes d in
  Within pid (files_of (attempted ++ changes)) d d' /\
  (is_ok r = true -> Forall (is_installed d) attempted ->
   Forall (is_before d) changes /\ Forall (is_installed d') (attempted ++ changes)) /\
  (Forall (Status d) attempted -> Forall (is_before d) changes -> Forall (Status d') (attempted ++ changes)) /\
  (Clear d changes -> Forall (is_before d) changes -> Works d r d').
Proof.
  induction changes as [|c changes IH]; intros attempted d Hf Ho Hnd; cbn [install].
  { rewrite app_nil_r. split_and!; [by apply within_refl|by split|done|done]. }
  assert (Hall : attempted ++ c :: changes = (attempted ++ [c]) ++ changes) by by rewrite <-app_assoc.
  assert (Hoc : ordinary pid (file c)) by (rewrite Forall_forall in Ho; apply Ho, file_in; set_solver).
  assert (Hdis : forall x, x ∈ attempted ++ changes -> file x ∉ [file c] /\ ordinary pid (file x)).
  { intros x Hx. split; [|rewrite Forall_forall in Ho; apply Ho, file_in; set_solver].
    rewrite files_of_app in Hnd. cbn in Hnd. apply NoDup_app in Hnd as (_ & Hda & Hnd). apply NoDup_cons in Hnd as [Hdc _].
    intros Hin. apply list_elem_of_singleton in Hin. apply elem_of_app in Hx as [Hx|Hx].
    - apply (Hda (file x)); [by apply file_in|]. rewrite Hin. by left.
    - apply Hdc. rewrite <-Hin. by apply file_in. }
  pose proof (install_change_cases c d Hf Hoc) as H1. destruct (install_change pid l c d) as [r1 d1].
  destruct H1 as (I1 & S1 & B1 & W1).
  assert (Hkeep : forall x, x ∈ attempted ++ changes -> text_at d1 (file x) = text_at d (file x)).
  { intros x Hx. destruct (Hdis x Hx). by apply (within_text pid [file c]). }
  assert (Hst : Forall (Status d) attempted -> Forall (Status d1) attempted).
  { rewrite !Forall_forall. intros Hs x Hx. destruct (Hdis x ltac:(set_solver)).
    apply (status_kept [file c] d d1); [done..|by repeat constructor|by apply Hs]. }
  assert (Hbf : Forall (is_before d) changes -> Forall (is_before d1) changes).
  { rewrite !Forall_forall. intros Hs x Hx. unfold is_before. rewrite Hkeep by set_solver. by apply Hs. }
  assert (Hex : forall d2, Within pid (files_of (attempted ++ [c])) d1 d2 -> Within pid (files_of (attempted ++ c :: changes)) d d2).
  { intros d2 I2. eapply within_trans; [exact I1|exact I2|rewrite files_of_app; cbn; set_solver..|]. rewrite !files_of_app. cbn. set_solver. }
  destruct r1 as [u|error].
  - rewrite Hall in Ho, Hnd |- *. specialize (IH (attempted ++ [c]) d1 (wi_fresh _ _ _ _ I1) Ho Hnd).
    destruct (install pid l id (attempted ++ [c]) changes d1) as [r2 d2]. destruct IH as (I2 & K2 & S2 & W2).
    destruct (B1 eq_refl) as [Hbc Hic]. split_and!.
    + eapply within_trans; [exact I1|exact I2|rewrite !files_of_app; cbn; set_solver|done].
    + intros Hr Ha. destruct (K2 Hr) as [P1 P2].
      { apply Forall_app. split; [|by apply Forall_singleton]. rewrite Forall_forall in Ha |- *. intros x Hx.
        unfold is_installed. rewrite Hkeep by set_solver. by apply Ha. }
      split; [|done]. constructor; [done|]. rewrite Forall_forall in P1 |- *. intros x Hx.
      unfold is_before. rewrite <-Hkeep by set_solver. by apply P1.
    + intros Ha Hb. apply Forall_cons in Hb as [Hb Hbs]. apply S2; [|by apply Hbf].
      apply Forall_app. split; [by apply Hst|]. apply Forall_singleton. by right; left.
    + intros [Hl Hc] Hb Hq. apply Forall_cons in Hc as [[Hs Hp] Hc]. apply Forall_cons in Hb as [Hb Hbs].
      destruct (W1 Hl Hs Hp Hb Hq) as [_ Hq1]. apply W2; [split; [by rewrite (wi_links _ _ _ _ I1)|]|by apply Hbf|done].
      rewrite Forall_forall in Hc |- *. intros x Hx. destruct (Hc x Hx) as [P1 P2]. split; [|done].
      intros t Ht. apply P1. by rewrite <-Hkeep by set_solver.
  - assert (Ho' : Forall (ordinary pid) (files_of (attempted ++ [c]))).
    { rewrite Hall, files_of_app in Ho. by apply Forall_app in Ho as [Ho _]. }
    assert (Hnd' : NoDup (files_of (attempted ++ [c]))).
    { rewrite Hall, files_of_app in Hnd. by apply NoDup_app in Hnd as (Hnd & _ & _). }
    pose proof (recover_cases id error (attempted ++ [c]) d1 (wi_fresh _ _ _ _ I1) Ho' Hnd') as H2.
    destruct (let '(all, d2) := identified l (attempted ++ [c]) d1 in _) as [r2 d2]. destruct H2 as (Hr2 & I2 & S2).
    split_and!; [by apply Hex|by rewrite Hr2| |].
    + intros Ha Hb. apply Forall_cons in Hb as [Hb Hbs]. rewrite Hall. apply Forall_app. split.
      * apply S2, Forall_app. split; [by apply Hst|]. apply Forall_singleton. by apply S1.
      * specialize (Hbf Hbs). rewrite Forall_forall in Hbf |- *. intros x Hx.
        assert (Hx2 : file x ∉ files_of (attempted ++ [c])).
        { rewrite Hall, files_of_app in Hnd. apply NoDup_app in Hnd as (_ & Hd & _). intros Hin. apply (Hd _ Hin). by apply file_in. }
        left. unfold is_before. rewrite (within_text pid (files_of (attempted ++ [c])) d1 d2); [by apply Hbf|done|done|].
        apply Hdis. set_solver.
    + intros [Hl Hc] Hb Hq. apply Forall_cons in Hc as [[Hs Hp] Hc]. apply Forall_cons in Hb as [Hb Hbs].
      by destruct (W1 Hl Hs Hp Hb Hq) as [Hk _].
Qed.

(** ** The transaction *)

Section Records.
Context `{RecordCodec} `{!RecordLaws}.

Lemma unchanged_cases (message : string) (changes : list Change.t) :
  forall d, let '(r, d') := unchanged l message changes d in
  After [] d d' /\ (is_ok r = true -> Forall (is_before d) changes) /\
  (Clear d changes -> Forall (is_before d) changes -> Works d r d').
Proof.
  induction changes as [|c changes IH]; intros d; cbn [unchanged]; [by split_and!; [apply after_refl|constructor|]|].
  unfold bind at 1. pose proof (read_cases (file c) d) as H1. destruct (read (file c) d) as [v d1]. destruct H1 as (A1 & V1 & W1).
  destruct v as [current|e].
  2: { split_and!; [done|done|]. intros [Hl Hc] _. apply Forall_cons in Hc as [[Hs _] _]. auto. }
  rewrite (V1 current eq_refl). unfold bind, ensure. case_bool_decide as Hb; cbn [ret bail].
  2: { split_and!; [done|done|]. intros _ Hc. apply Forall_cons in Hc as [Hc _]. by destruct Hb. }
  specialize (IH d1). destruct (unchanged l message changes d1) as [r d2]. destruct IH as (A2 & B2 & W2). split_and!.
  - by eapply after_join.
  - intros Hr. constructor; [done|]. specialize (B2 Hr). unfold is_before in *. apply (Forall_impl _ _ _ B2).
    intros x. by rewrite (after_text d d1).
  - intros [Hl Hc] Hall Hq. apply Forall_cons in Hc as [[Hs Hp] Hc]. apply Forall_cons in Hall as [_ Hall].
    destruct (W1 Hl Hs Hq) as [_ Hq1]. apply W2; [split; [by rewrite (af_links _ _ _ A1)|]| |done].
    + apply (Forall_impl _ _ _ Hc). intros x [P1 P2]. split; [|done]. intros t. rewrite (after_text d d1) by done. apply P1.
    + apply (Forall_impl _ _ _ Hall). intros x. unfold is_before. by rewrite (after_text d d1).
Qed.

Definition record_of (changes : list Change.t) : SetupRecord.t := {|
  SetupRecord.version := 1; SetupRecord.scope := scope l; SetupRecord.root := root l; SetupRecord.changes := changes |}.

(** The record of a setup is on disk. *)
Definition Saved (d : Disk) (id : string) (changes : list Change.t) : Prop :=
  exists record s, record_path l id = Ok record /\ text_at d record = Some s /\ str_len s <= MAX_CONFIG /\
    record_from_str s = Some (record_of changes).

(** Where the files of a setup are, and that none is a temporary file or the
    record. *)
Definition Separate (id : string) (changes : list Change.t) : Prop :=
  Forall (ordinary pid) (files_of changes) /\ NoDup (files_of changes) /\
  forall record, record_path l id = Ok record -> ordinary pid record /\ record ∉ files_of changes.

Lemma apply_stages (id : string) (changes : list Change.t) (d : Disk) :
  changes <> [] -> fresh pid d -> Separate id changes ->
  let '(r, d') := apply pid l id changes d in
  (is_ok r = false /\ (After [] d d' \/ exists record, record_path l id = Ok record /\ Within pid [record] d d')) \/
  exists d1, (forall q, ordinary pid q -> record_path l id <> Ok q -> text_at d1 q = text_at d q) /\
    fresh pid d1 /\ Saved d1 id changes /\ Forall (is_before d) changes /\
    match install pid l id [] changes d1 with
    | (Ok _, d'') => r = Ok (Some id) /\ d' = d''
    | (Err e, d'') => r = Err e /\ d' = d''
    end.
Proof.
  intros Hne Hf (Ho & Hnd & Hrec). destruct changes as [|c0 changes0]; [done|]. set (changes := c0 :: changes0) in *.
  unfold apply. fold changes. change (match changes with [] => _ | _ :: _ => ?k end) with k.
  unfold bind at 1, of_result at 1. destruct (record_path l id) as [record|e] eqn:Hpath; [|left; split; [done|left; apply after_refl]].
  destruct (Hrec record eq_refl) as [Hor Hnr].
  unfold bind at 1, reject_symlink. pose proof (reject_symlinks_cases (ancestors record) d) as H1.
  destruct (reject_symlinks _ d) as [[u|e] d1]; destruct H1 as [A1 _]; [|left; split; [done|by left]].
  unfold bind at 1. pose proof (unchanged_cases "configuration changed while preparing setup; rerun the wizard" changes d1) as H2.
  destruct (unchanged l _ changes d1) as [r2 d2]. destruct H2 as (A2 & B2 & _). assert (A02 : After [] d d2) by by eapply after_join.
  destruct r2 as [u2|e]; [|left; split; [done|by left]]. specialize (B2 eq_refl).
  unfold bind at 1, of_option. fold (record_of changes). destruct (record_pretty (record_of changes)) as [s|] eqn:Hs;
    cbn [ret bail]; [|left; split; [done|by left]].
  unfold bind at 1, ensure. destruct (Z.leb_spec (str_len s) MAX_CONFIG) as [Hlen|Hlen]; cbn [ret bail]; [|left; split; [done|by left]].
  unfold bind at 1. pose proof (write_atomic_text pid record s d2 (after_fresh d d2 Hf A02) Hor) as H3.
  destruct (write_atomic pid record s d2) as [r3 d3]. destruct H3 as (I3 & _ & H3).
  assert (I03 : Within pid [record] d d3) by (eapply within_trans; [by apply within_after|exact I3|set_solver..]).
  destruct r3 as [u3|e]; [|left; split; [done|right; by exists record]].
  assert (Hend : let '(r, d') := (do? _ := install pid l id [] changes in ret (Some id)) d3 in
    match install pid l id [] changes d3 with
    | (Ok _, d'') => r = Ok (Some id) /\ d' = d''
    | (Err e, d'') => r = Err e /\ d' = d''
    end) by (unfold bind, ret; by destruct (install pid l id [] changes d3) as [[u4|e] d4]).
  destruct (bind _ _ d3) as [r d']. right. exists d3. split_and!; [| | | |exact Hend].
  - intros q Hq Hqr. apply (within_text pid [record] d d3); [done| |done]. intros Hin. apply list_elem_of_singleton in Hin. by subst.
  - apply I03.
  - exists record, s. split_and!; [done|done|done|by apply record_round_trip].
  - apply (Forall_impl _ _ _ B2). intros c. unfold is_before. by rewrite (after_text d d1).
Qed.

(** What [apply] leaves behind. *)
Lemma apply_outcome (id : string) (changes : list Change.t) (d : Disk) :
  fresh pid d -> Separate id changes ->
  let '(r, d') := apply pid l id changes d in
  (forall q, ordinary pid q -> q ∉ files_of changes -> record_path l id <> Ok q -> text_at d' q = text_at d q) /\
  match r with
  | Ok None => changes = [] /\ d' = d
  | Ok (Some i) => i = id /\ Saved d' id changes /\ forall c, c ∈ changes -> is_before d c /\ is_installed d' c
  | Err _ =>
      (forall c, c ∈ changes -> text_at d' (file c) = text_at d (file c)) \/
      Saved d' id changes /\ forall c, c ∈ changes -> is_before d c /\ Status d' c
  end.
Proof.
  intros Hf Hsep. destruct (decide (changes = [])) as [->|Hne]; [done|].
  pose proof (apply_stages id changes d Hne Hf Hsep) as Ha. destruct (apply pid l id changes d) as [r d'].
  destruct Hsep as (Ho & Hnd & Hrec). destruct Ha as [[Hr Ha]|(d1 & Hkeep & Hf1 & Hsaved & Hbef & Ha)].
  - destruct r as [o|e]; [done|]. destruct Ha as [Ha|(record & Hp & Ha)].
    + split; [intros q _ _ _; by apply after_text|left; intros c _; by apply after_text].
    + destruct (Hrec record Hp) as [Hor Hnr]. split.
      * intros q Hq _ Hqr. apply (within_text pid [record] d d'); [done|set_solver|done].
      * left. intros c Hc. apply (within_text pid [record] d d'); [done| |rewrite Forall_forall in Ho; by apply Ho, file_in].
        intros Hin. apply list_elem_of_singleton in Hin. apply Hnr. rewrite <-Hin. by apply file_in.
  - pose proof (install_cases id changes [] d1 Hf1 Ho Hnd) as Hi. cbn [app] in Hi.
    destruct (install pid l id [] changes d1) as [ri d2]. destruct Hi as (I2 & K2 & S2 & _).
    assert (Hb1 : Forall (is_before d1) changes).
    { pose proof (proj1 (Forall_forall _ _) Hbef) as Hbef'. pose proof (proj1 (Forall_forall _ _) Ho) as Ho'.
      apply Forall_forall. intros c Hc. unfold is_before. rewrite Hkeep; [by apply Hbef'|by apply Ho', file_in|].
      intros Hq. destruct (Hrec _ Hq) as [_ Hn]. apply Hn. by apply file_in. }
    assert (Hsaved2 : Saved d2 id changes).
    { destruct Hsaved as (record & s & Hp & Ht & Hrest). exists record, s. split; [done|]. split; [|done].
      destruct (Hrec record Hp) as [Hor Hnr]. by rewrite (within_text pid (files_of changes) d1 d2). }
    assert (Hd' : d' = d2) by (by destruct ri; destruct Ha). subst d'. split.
    + intros q Hq Hqf Hqr. rewrite (within_text pid (files_of changes) d1 d2) by done. by apply Hkeep.
    + rewrite Forall_forall in Hbef. destruct ri as [u|e]; destruct Ha as [-> _].
      * destruct (K2 eq_refl ltac:(constructor)) as [_ Hi2]. rewrite Forall_forall in Hi2. split_and!; [done|done|]. auto.
      * right. split; [done|]. specialize (S2 ltac:(constructor) Hb1). rewrite Forall_forall in S2. auto.
Qed.

(** C27: A setup never loses a file. Whatever call of the file system fails and
    wherever, after it every file it may have written holds its old text or
    the new one, or was moved aside with one of them; unless nothing changed,
    the record with all old texts is saved under the recovery ID; a setup that
    succeeds has installed every file; and no other file changes. *)
Theorem setup_keeps_originals (id : string) (changes : list Change.t) (d : Disk) :
  fresh pid d -> Separate id changes ->
  let '(r, d') := apply pid l id changes d in
  (forall q, ordinary pid q -> q ∉ files_of changes -> record_path l id <> Ok q -> text_at d' q = text_at d q) /\
  match r with
  | Ok None => changes = [] /\ d' = d
  | Ok (Some i) => i = id /\ Saved d' id changes /\ forall c, c ∈ changes -> is_before d c /\ is_installed d' c
  | Err _ =>
      (forall c, c ∈ changes -> text_at d' (file c) = text_at d (file c)) \/
      Saved d' id changes /\ forall c, c ∈ changes -> is_before d c /\ Status d' c
  end.
Proof. apply apply_outcome. Qed.

(** ** Rolling back *)

Definition either (d : Disk) (c : Change.t) : Prop := is_before d c \/ is_installed d c.

Lemma after_either (d d' : Disk) (c : Change.t) : After [] d d' -> either d' c <-> either d c.
Proof. intros Ha. unfold either, is_before, is_installed. by rewrite (after_text d d'). Qed.

Lemma after_clear (d d' : Disk) (changes : list Change.t) : After [] d d' -> Clear d changes -> Clear d' changes.
Proof.
  intros Ha [Hl Hc]. split; [by rewrite (af_links _ _ _ Ha)|]. apply (Forall_impl _ _ _ Hc). intros x [P1 P2]. split; [|done].
  intros t. rewrite (after_text d d') by done. apply P1.
Qed.

Lemma restorable_cases (changes : list Change.t) :
  forall seen d, let '(r, d') := restorable l seen changes d in
  After [] d d' /\
  (is_ok r = true -> NoDup (files_of changes) /\ Forall (either d) changes) /\
  (Clear d changes -> NoDup (files_of changes) -> (forall c, c ∈ changes -> file c ∉ seen) -> Forall (either d) changes -> Works d r d').
Proof.
  cut (forall seen d, let '(r, d') := restorable l seen changes d in
    After [] d d' /\
    (is_ok r = true -> NoDup (files_of changes) /\ (forall c, c ∈ changes -> file c ∉ seen) /\ Forall (either d) changes) /\
    (Clear d changes -> NoDup (files_of changes) -> (forall c, c ∈ changes -> file c ∉ seen) -> Forall (either d) changes -> Works d r d')).
  { intros Hc seen d. specialize (Hc seen d). destruct (restorable l seen changes d) as [r d'].
    destruct Hc as (P1 & P2 & P3). split_and!; [done| |done]. intros Hr. by destruct (P2 Hr) as (Q1 & _ & Q3). }
  induction changes as [|c changes IH]; intros seen d; cbn [restorable].
  { split_and!; [apply after_refl|intros _; split_and!; [constructor|by intros c Hc%not_elem_of_nil|constructor]|done]. }
  change (files_of (c :: changes)) with (file c :: files_of changes).
  unfold bind at 1, ensure at 1. case_bool_decide as Hseen; cbn [negb ret bail].
  { split_and!; [apply after_refl|done|]. intros _ _ Hs _. exfalso. apply (Hs c); [by left|done]. }
  unfold bind at 1. pose proof (read_cases (file c) d) as H1. destruct (read (file c) d) as [v d1]. destruct H1 as (A1 & V1 & W1).
  destruct v as [current|e].
  2: { split_and!; [done|done|]. intros [Hl Hc] _ _ _. apply Forall_cons in Hc as [[Hs _] _]. auto. }
  rewrite (V1 current eq_refl). unfold bind, ensure.
  destruct (bool_decide (text_at d (file c) = Some (Change.installed c)) || bool_decide (text_at d (file c) = Change.before c)) eqn:Hb;
    cbn [ret bail].
  2: { split_and!; [done|done|]. intros _ _ _ Hc. apply Forall_cons in Hc as [Hc _]. unfold either, is_before, is_installed in Hc.
       apply orb_false_elim in Hb as [Hb1 Hb2]. apply bool_decide_eq_false in Hb1, Hb2. tauto. }
  assert (Hc : either d c).
  { unfold either, is_before, is_installed. apply orb_prop in Hb as [Hb|Hb]; apply bool_decide_eq_true in Hb; tauto. }
  specialize (IH (file c :: seen) d1). destruct (restorable l (file c :: seen) changes d1) as [r d2]. destruct IH as (A2 & B2 & W2).
  split_and!.
  - by eapply after_join.
  - intros Hr. destruct (B2 Hr) as (Q1 & Q2 & Q3). split_and!.
    + apply NoDup_cons. split; [|done]. intros Hin. apply list_elem_of_fmap in Hin as (x & Hx & Hin).
      apply (Q2 x Hin). rewrite <-Hx. by left.
    + intros x Hx. apply elem_of_cons in Hx as [->|Hx]; [done|]. specialize (Q2 x Hx). set_solver.
    + constructor; [done|]. apply (Forall_impl _ _ _ Q3). intros x. apply (after_either d d1 x A1).
  - intros [Hl Hcl] Hnd Hs Hall Hq. apply Forall_cons in Hcl as [[Hsh Hp] Hcl]. apply NoDup_cons in Hnd as [Hnc Hnd].
    apply Forall_cons in Hall as [_ Hall]. destruct (W1 Hl Hsh Hq) as [_ Hq1]. apply W2; [|done| | |done].
    + by apply (after_clear d).
    + intros x Hx Hin. apply elem_of_cons in Hin as [Hin|Hin]; [|by apply (Hs x); [right|]].
      apply Hnc. rewrite <-Hin. by apply file_in.
    + apply (Forall_impl _ _ _ Hall). intros x. apply (after_either d d1 x A1).
Qed.

Lemma rollback_cases (id : string) (changes : list Change.t) (d : Disk) :
  fresh pid d -> Forall (ordinary pid) (files_of changes) -> Saved d id changes ->
  let '(r, d') := rollback pid l id d in
  Within pid (files_of changes) d d' /\
  (is_ok r = true -> Forall (is_before d') changes) /\
  (~ Forall (either d) changes -> is_ok r = false /\ After [] d d') /\
  (Clear d changes -> NoDup (files_of changes) -> Forall (either d) changes -> Works d r d').
Proof.
  intros Hf Ho (record & s & Hp & Ht & Hlen & Hs). unfold rollback.
  unfold bind at 1, of_result. rewrite Hp. unfold bind at 1.
  pose proof (read_cases record d) as H1. destruct (read record d) as [v d1]. destruct H1 as (A1 & V1 & W1).
  assert (Hshort : short d record) by (intros t Htt; congruence).
  destruct v as [current|e].
  2: { split_and!; [by apply after_within|done|done|]. intros [Hl _] _ _. auto. }
  rewrite (V1 current eq_refl), Ht. unfold bind at 1, of_option at 1. cbn [ret].
  unfold bind at 1, of_option. rewrite Hs. cbn [ret]. unfold bind at 1, ensure.
  assert ((SetupRecord.version (record_of changes) =? 1) && bool_decide (SetupRecord.scope (record_of changes) = scope l)
          && (SetupRecord.root (record_of changes) =? root l)%string = true) as ->.
  { cbn. rewrite bool_decide_true, String.eqb_refl by done. done. }
  cbn [ret SetupRecord.changes record_of]. unfold bind.
  pose proof (restorable_cases changes [] d1) as H2. destruct (restorable l [] changes d1) as [r2 d2]. destruct H2 as (A2 & B2 & W2).
  assert (A02 : After [] d d2) by by eapply after_join.
  assert (Hnil : forall c, c ∈ changes -> file c ∉ []) by (intros c _; apply not_elem_of_nil).
  assert (He1 : forall dd, After [] d dd -> Forall (either dd) changes <-> Forall (either d) changes).
  { intros dd Ha. rewrite !Forall_forall. split; intros Hx x Hin; [rewrite <-(after_either d dd)|rewrite (after_either d dd)]; auto. }
  assert (Hwq : Clear d changes -> NoDup (files_of changes) -> Forall (either d) changes -> Works d r2 d2).
  { intros Hc Hnd Hall Hq. destruct Hc as [Hl Hc]. destruct (W1 Hl Hshort Hq) as [_ Hq1].
    apply W2; [by apply (after_clear d); [|split]|done|done|by apply He1|done]. }
  destruct r2 as [u|e]; [|split_and!; [by apply after_within|done|done|exact Hwq]].
  destruct (B2 eq_refl) as [Hnd Hall]. apply (He1 d1 A1) in Hall.
  pose proof (restore_cases changes d2 (after_fresh d d2 Hf A02) Ho Hnd) as H3. destruct (restore pid l changes d2) as [r3 d3].
  destruct H3 as (I3 & _ & B3 & W3). split_and!.
  - eapply within_trans; [by apply within_after|exact I3|set_solver..].
  - done.
  - intros Hn. by destruct Hn.
  - intros Hc _ _ Hq. destruct (Hwq Hc Hnd Hall Hq) as [_ Hq2].
    apply W3; [by apply (after_clear d)|by apply He1|done].
Qed.

(** A setup can be undone. After one that succeeded, and with its record
    still there, a rollback that succeeds puts every file back to the text it
    had before the setup, and changes no other file; it refuses, and changes
    nothing, when one of the files was edited since; and when none was and the
    system reports no error, it does succeed. *)
Theorem setup_undone (id : string) (changes : list Change.t) (d d1 d2 : Disk) :
  fresh pid d -> Separate id changes -> changes <> [] -> apply pid l id changes d = (Ok (Some id), d1) ->
  fresh pid d2 -> (forall record, record_path l id = Ok record -> text_at d2 record = text_at d1 record) ->
  let '(r, d3) := rollback pid l id d2 in
  (forall q, ordinary pid q -> q ∉ files_of changes -> text_at d3 q = text_at d2 q) /\
  (r = Ok tt -> forall c, c ∈ changes -> text_at d3 (file c) = text_at d (file c)) /\
  ((exists c, c ∈ changes /\ text_at d2 (file c) <> text_at d (file c) /\ text_at d2 (file c) <> text_at d1 (file c)) ->
   is_ok r = false /\ forall q, text_at d3 q = text_at d2 q) /\
  (tape d2 = [] -> Clear d2 changes -> (forall c, c ∈ changes -> text_at d2 (file c) = text_at d1 (file c)) -> r = Ok tt).
Proof.
  intros Hf Hsep Hne Ha Hf2 Hrec2. pose proof (apply_outcome id changes d Hf Hsep) as Hk. rewrite Ha in Hk.
  destruct Hk as (_ & _ & Hsaved & Hc). destruct Hsep as (Ho & Hnd & Hrec).
  assert (Hsaved2 : Saved d2 id changes).
  { destruct Hsaved as (record & s & Hp & Ht & Hrest). exists record, s. by rewrite (Hrec2 record Hp). }
  pose proof (rollback_cases id changes d2 Hf2 Ho Hsaved2) as Hr. destruct (rollback pid l id d2) as [r d3].
  destruct Hr as (I3 & B3 & E3 & W3). split_and!.
  - intros q Hq Hqf. by apply (within_text pid (files_of changes)).
  - intros -> c Hin. specialize (B3 eq_refl). rewrite Forall_forall in B3. unfold is_before in *.
    rewrite (B3 c Hin). symmetry. by apply Hc.
  - intros (c & Hin & Hn & Hn1). destruct E3 as [Hr Ha3].
    { intros Hall. rewrite Forall_forall in Hall. destruct (Hc c Hin) as [Q1 Q2].
      destruct (Hall c Hin) as [Hx|Hx]; unfold is_before, is_installed in *; congruence. }
    split; [done|]. intros q. by apply after_text.
  - intros Hq Hcl Hs. destruct W3 as [Hr _]; [done|done| |done|by destruct r as [[]|]].
    apply Forall_forall. intros c Hin. right. unfold is_installed. rewrite Hs by done. by apply Hc.
Qed.
End Records.
End Spec.

(** ** Merging an entry *)

Lemma value_eqb_eq (a b : Value) : value_eqb a b = true <-> a = b.
Proof.
  revert b. induction a as [|x|x|x|xs IH|xs IH] using value_ind'; intros [|y|y|y|ys|ys]; cbn [value_eqb]; try done.
  - rewrite Bool.eqb_true_iff. split; [by intros ->|by intros [= ->]].
  - rewrite String.eqb_eq. split; [by intros ->|by intros [= ->]].
  - rewrite String.eqb_eq. split; [by intros ->|by intros [= ->]].
  - revert ys. induction IH as [|x xs Hx _ IH]; intros [|y ys]; try done. rewrite andb_true_iff, Hx, IH.
    split; [by intros [-> [= ->]]|by intros [= -> ->]].
  - revert ys. induction IH as [|[k x] xs Hx _ IH]; intros [|[k' y] ys]; try done. cbn [snd] in Hx.
    rewrite !andb_true_iff, String.eqb_eq, Hx, IH. split; [by intros [[-> ->] [= ->]]|by intros [= -> -> ->]].
Qed.

Section Btree.
Context {V : Type}.
Implicit Types (m : list (string * V)) (k : string) (v : V).

Lemma btree_get_insert_eq k v m : btree_get k (btree_insert k v m) = Some v.
Proof.
  induction m as [|[k' v'] m IH]; cbn; [by rewrite String.eqb_refl|].
  destruct (String.eqb_spec k k'); cbn; [by rewrite String.eqb_refl|].
  destruct (String.ltb k k'); cbn; [by rewrite String.eqb_refl|]. destruct (String.eqb_spec k k'); [done|exact IH].
Qed.

Lemma btree_get_insert_ne k k0 v m : k0 <> k -> btree_get k0 (btree_insert k v m) = btree_get k0 m.
Proof.
  intros Hk. induction m as [|[k' v'] m IH]; cbn; [by destruct (String.eqb_spec k0 k)|].
  destruct (String.eqb_spec k k') as [<-|Hn]; cbn; [by destruct (String.eqb_spec k0 k)|].
  destruct (String.ltb k k'); cbn; [by destruct (String.eqb_spec k0 k)|]. destruct (k0 =? k')%string; [done|exact IH].
Qed.

Lemma btree_insert_again k v m : btree_insert k v (btree_insert k v m) = btree_insert k v m.
Proof.
  induction m as [|[k' v'] m IH]; cbn; [by rewrite String.eqb_refl|].
  destruct (String.eqb_spec k k') as [->|Hn]; cbn; [by rewrite String.eqb_refl|].
  destruct (String.ltb k k') eqn:Hl; cbn; [by rewrite String.eqb_refl|].
  destruct (String.eqb_spec k k'); [done|]. by rewrite Hl, IH.
Qed.
End Btree.

(** Printing a document and parsing it. *)
Class JsonLaws `{SetupApi} : Prop := {
  json_pretty_parses v : json_from_str (json_pretty v +:+ nl) = Some v;
  json_pretty_not_blank v : str_is_empty (str_trim (json_pretty v +:+ nl)) = false;
}.

Section Merge.
Context `{SetupApi} `{!JsonLaws}.

(** The document a text stands for. *)
Definition document (text : string) : option Value :=
  if str_is_empty (str_trim text) then Some (Object []) else json_from_str text.

Definition servers_of (agent : Agent) (fields : list (string * Value)) : Value :=
  default (Object []) (btree_get (server_key agent) fields).

(** For every agent whose configuration is JSON, merging the MirrorProxy
    entry keeps all other settings and all other servers as they were, sets
    the entry, reports a conflict exactly when another entry was there, and
    merging again changes nothing and reports none. *)
Theorem merging_keeps_others (agent : Agent) (original executable base_url text : string) (conflict : bool) :
  agent <> Codex -> merge_mcp agent original executable base_url = Ok (text, conflict) ->
  exists fields servers fields' servers',
    document original = Some (Object fields) /\ servers_of agent fields = Object servers /\
    document text = Some (Object fields') /\ servers_of agent fields' = Object servers' /\
    (forall key, key <> server_key agent -> btree_get key fields' = btree_get key fields) /\
    (forall name, name <> "mirrorproxy" -> btree_get name servers' = btree_get name servers) /\
    btree_get "mirrorproxy" servers' = Some (mcp_entry agent executable base_url) /\
    (conflict = true <-> exists old, btree_get "mirrorproxy" servers = Some old /\ old <> mcp_entry agent executable base_url) /\
    merge_mcp agent text executable base_url = Ok (text, false).
Proof.
  intros Ha Hm. unfold merge_mcp in Hm. rewrite bool_decide_false in Hm by done. fold (document original) in Hm.
  destruct (document original) as [[| | | | |fields]|] eqn:Hdoc; try done. fold (servers_of agent fields) in Hm.
  destruct (servers_of agent fields) as [| | | | |servers] eqn:Hs; try done. injection Hm as <- <-.
  set (entry := mcp_entry agent executable base_url). set (servers' := btree_insert "mirrorproxy" entry servers).
  set (fields' := btree_insert (server_key agent) (Object servers') fields).
  assert (Hd' : document (json_pretty (Object fields') +:+ nl) = Some (Object fields')).
  { unfold document. by rewrite json_pretty_not_blank, json_pretty_parses. }
  assert (Hs' : servers_of agent fields' = Object servers').
  { unfold servers_of, fields'. by rewrite btree_get_insert_eq. }
  assert (He : btree_get "mirrorproxy" servers' = Some entry) by apply btree_get_insert_eq.
  exists fields, servers, fields', servers'. split_and!; try done.
  - intros key Hk. by apply btree_get_insert_ne.
  - intros n Hn. by apply btree_get_insert_ne.
  - destruct (btree_get "mirrorproxy" servers) as [old|]; [|split; [done|by intros (old & ? & _)]].
    rewrite negb_true_iff. split.
    + intros Hn. exists old. split; [done|]. intros ->. by rewrite (proj2 (value_eqb_eq entry entry) eq_refl) in Hn.
    + intros (o & [= <-] & Ho). apply not_true_iff_false. by rewrite value_eqb_eq.
  - unfold merge_mcp. rewrite bool_decide_false by done. fold (document (json_pretty (Object fields') +:+ nl)). rewrite Hd'.
    fold (servers_of agent fields'). rewrite Hs', He. fold entry. rewrite (proj2 (value_eqb_eq entry entry) eq_refl).
    unfold servers' at 1, fields' at 1. rewrite btree_insert_again. fold servers'. rewrite btree_insert_again. done.
Qed.
End Merge.


(** ** Concrete runs *)

Module Example.
(** A printer of positive numbers, and of values and records by their numbers. *)
Fixpoint bits (p : positive) : string :=
  match p with xH => "." | xO p => String "0" (bits p) | xI p => String "1" (bits p) end.

Fixpoint of_bits (s : string) : option positive :=
  match s with
  | String "0" t => xO <$> of_bits t
  | String "1" t => xI <$> of_bits t
  | String "." _ => Some xH
  | _ => None
  end.

Lemma of_bits_bits (p : positive) (s : string) : of_bits (bits p +:+ s) = Some p.
Proof. induction p as [p IH|p IH|]; cbn; [by rewrite IH..|done]. Qed.

Lemma bits_graphic (p : positive) : all_bytes is_graphic (bits p) = true.
Proof. induction p as [p IH|p IH|]; cbn; [done..|done]. Qed.

#[export] Instance Agent_countable : Countable Agent.
Proof.
  refine (inj_countable' (fun a => String.length (name a) + 100 * nat_of_ascii (default "0"%char (String.get 1 (name a))))%nat
    (fun n => default Codex (List.find (fun a => Nat.eqb n (String.length (name a) + 100 * nat_of_ascii (default "0"%char (String.get 1 (name a))))%nat) AGENTS)) _).
  by intros [].
Defined.

#[export] Instance Kind_countable : Countable Kind.
Proof.
  refine (inj_countable' (fun k => match k with Skill => 0 | Mcp => 1 | Instructions => 2 | Metadata => 3 | Icon => 4 end)%nat
    (fun n => match n with 0 => Skill | 1 => Mcp | 2 => Instructions | 3 => Metadata | _ => Icon end)%nat _).
  by intros [].
Defined.

#[export] Instance Scope_countable : Countable Scope.
Proof. refine (inj_countable' (fun s => bool_decide (s = Global)) (fun b : bool => if b then Global else Project) _). by intros []. Defined.

#[export] Instance Change_eq_dec : EqDecision Change.t.
Proof. solve_decision. Defined.

#[export] Instance Change_countable : Countable Change.t.
Proof.
  refine (inj_countable' (fun c => (Change.agent c, Change.kind c, Change.before c, Change.installed c))
    (fun '(a, k, b, i) => {| Change.agent := a; Change.kind := k; Change.before := b; Change.installed := i |}) _).
  by intros [].
Defined.

#[export] Instance Record_eq_dec : EqDecision SetupRecord.t.
Proof. solve_decision. Defined.

#[export] Instance Record_countable : Countable SetupRecord.t.
Proof.
  refine (inj_countable' (fun r => (SetupRecord.version r, SetupRecord.scope r, SetupRecord.root r, SetupRecord.changes r))
    (fun '(v, s, r, c) => {| SetupRecord.version := v; SetupRecord.scope := s; SetupRecord.root := r; SetupRecord.changes := c |}) _).
  by intros [].
Defined.

Definition codec : RecordCodec := {|
  record_pretty r := Some (bits (encode r));
  record_from_str s := of_bits s ≫= decode;
|}.

Lemma codec_laws : @RecordLaws codec.
Proof.
  constructor. intros r s [= <-]. cbn. rewrite <-(str_app_nil_r (bits (encode r))), of_bits_bits. cbn. apply decode_encode.
Qed.

(** A user's home with a Cursor configuration. *)
Definition home : Locations := {| Setup.home := "/u"; Setup.root := "/u"; Setup.scope := Global; Setup.codex_home := "/u/.codex" |}.

Definition disk : Disk := {|
  nodes := {[ "/u/.cursor/mcp.json" := {| Node.text := "{}"; Node.mode := 420 |} ]};
  links := ∅; tape := []; sequence := 0 |}.

Definition changes : list Change.t := [
  {| Change.agent := Cursor; Change.kind := Skill; Change.before := None; Change.installed := "S" |};
  {| Change.agent := Cursor; Change.kind := Mcp; Change.before := Some "{}"; Change.installed := "M" |}].

Lemma fresh_when_ordinary (pid : Z) (d : Disk) :
  map_Forall (fun q _ => contains_str ".mirrorproxy-" q = false) (nodes d) -> fresh pid d.
Proof.
  intros Hd p role n _. destruct (nodes d !! sibling pid p role n) as [x|] eqn:E; [|done].
  specialize (Hd _ _ E). by destruct (ordinary_path pid _ Hd p role n).
Qed.

Lemma changes_separate : Separate 7 home "1-7" changes.
Proof.
  split_and!.
  - repeat (apply Forall_cons; split; [by apply ordinary_path|]). constructor.
  - apply (bool_decide_unpack _). by vm_compute.
  - intros record [= <-]. split; [by apply ordinary_path|]. apply (bool_decide_unpack _). by vm_compute.
Qed.

Definition installed_disk : Disk := (@apply codec 7 home "1-7" changes disk).2.

Lemma setup_keeps_originals_witness :
  (@apply codec 7 home "1-7" changes disk).1 = Ok (Some "1-7") /\
  forall c, c ∈ changes -> is_before home disk c /\ is_installed home installed_disk c.
Proof.
  assert (Hf : fresh 7 disk) by (apply fresh_when_ordinary, (bool_decide_unpack _); by vm_compute).
  pose proof (@setup_keeps_originals 7 home codec codec_laws "1-7" changes disk Hf changes_separate) as Hk.
  revert Hk. unfold installed_disk. assert (Hr : (@apply codec 7 home "1-7" changes disk).1 = Ok (Some "1-7")) by by vm_compute.
  destruct (@apply codec 7 home "1-7" changes disk) as [r d']. cbn in Hr |- *. subst r. intros (_ & _ & _ & Hc). by split.
Defined.

Lemma setup_undone_witness :
  Forall (fun c => text_at (@rollback codec 7 home "1-7" installed_disk).2 (change_path home c) = text_at disk (change_path home c)) changes.
Proof.
  assert (Hf : fresh 7 disk) by (apply fresh_when_ordinary, (bool_decide_unpack _); by vm_compute).
  assert (Hf2 : fresh 7 installed_disk) by (apply fresh_when_ordinary, (bool_decide_unpack _); by vm_compute).
  assert (Ha : @apply codec 7 home "1-7" changes disk = (Ok (Some "1-7"), installed_disk)).
  { assert (Hr : (@apply codec 7 home "1-7" changes disk).1 = Ok (Some "1-7")) by by vm_compute.
    unfold installed_disk. destruct (@apply codec 7 home "1-7" changes disk) as [r d']. cbn in *. congruence. }
  pose proof (@setup_undone 7 home codec codec_laws "1-7" changes disk installed_disk installed_disk Hf changes_separate
    ltac:(done) Ha Hf2 ltac:(done)) as Hk. revert Hk.
  assert (Hr : (@rollback codec 7 home "1-7" installed_disk).1 = Ok tt) by by vm_compute.
  destruct (@rollback codec 7 home "1-7" installed_disk) as [r d3]. cbn in Hr |- *. subst r. intros (_ & Hk & _). apply Forall_forall. by apply Hk.
Defined.

(** Values by their numbers. *)
Fixpoint tree (v : Value) : gen_tree string :=
  match v with
  | Null => GenLeaf "n"
  | Bool b => GenLeaf (if b then "t" else "f")
  | Number text => GenLeaf ("#" +:+ text)
  | Str s => GenLeaf ("=" +:+ s)
  | Array items => GenNode 0 (map tree items)
  | Object fields => GenNode 1 (map (fun f => GenNode 2 [GenLeaf f.1; tree f.2]) fields)
  end.

Fixpoint of_tree (t : gen_tree string) : Value :=
  match t with
  | GenLeaf "t" => Bool true
  | GenLeaf "f" => Bool false
  | GenLeaf (String "#" text) => Number text
  | GenLeaf (String "=" s) => Str s
  | GenNode 0 items => Array (map of_tree items)
  | GenNode 1 fields => Object (map (fun f => match f with GenNode _ [GenLeaf k; t] => (k, of_tree t) | _ => ("", Null) end) fields)
  | _ => Null
  end.

Lemma of_tree_tree (v : Value) : of_tree (tree v) = v.
Proof.
  induction v as [|[]|x|x|xs IH|xs IH] using value_ind'; cbn; [done..| |]; f_equal; rewrite map_map; induction IH as [|x xs Hx _ IH];
    cbn; [done| |done|]; rewrite IH.
  - by rewrite Hx.
  - cbn in Hx. rewrite Hx. by destruct x.
Qed.

Definition setup_api : SetupApi := {|
  json_display v := bits (encode (tree v));
  json_pretty v := bits (encode (tree v));
  json_from_str s := of_tree <$> (of_bits s ≫= decode);
  TomlDoc := unit; TomlTable := unit; TomlItem := unit;
  toml_parse _ := None; toml_display _ := ""; toml_servers _ := None; toml_set_servers _ _ := tt;
  toml_get _ _ := None; toml_insert _ _ _ := tt; toml_empty := tt; toml_len _ := 0; toml_str _ := tt; toml_array _ := tt;
  toml_of_table _ := tt; toml_as_str _ := None; toml_as_array _ := None; toml_as_table _ := None;
|}.

Lemma str_trim_line (a : ascii) (s : string) : all_bytes is_graphic (String a s) = true -> str_trim (String a s +:+ nl) = String a s.
Proof.
  intros Hs. pose proof (str_trim_graphic _ Hs) as Ht. cbn in Hs. apply andb_true_iff in Hs as [Ha _]. unfold str_trim in *.
  change (String a s +:+ nl) with (String a (s +:+ nl)). rewrite (proj1 (trim_start_graphic a s Ha)) in Ht.
  rewrite (proj1 (trim_start_graphic a (s +:+ nl) Ha)). change (String a (s +:+ nl)) with (String a s +:+ nl). rewrite string_rev_app. exact Ht.
Qed.

Lemma bits_cons (p : positive) : exists a s, bits p = String a s.
Proof. destruct p; cbn; by eexists _, _. Qed.

Lemma setup_api_laws : @JsonLaws setup_api.
Proof.
  constructor; intros v; cbn.
  - rewrite of_bits_bits. cbn. rewrite decode_encode. cbn. by rewrite of_tree_tree.
  - pose proof (bits_graphic (encode (tree v))) as Hg. destruct (bits_cons (encode (tree v))) as (a & s & He).
    rewrite He in *. by rewrite str_trim_line.
Qed.

Definition others : string := bits (encode (tree (Object [("mcpServers", Object [("files", Str "x")]); ("theme", Str "dark")]))).

Definition merged : string :=
  match @merge_mcp setup_api Cursor others "/bin/mirrorproxy" "https://m" with Ok (t, _) => t | Err e => e end.

Lemma merging_keeps_others_witness : exists fields servers,
  @document setup_api merged = Some (Object fields) /\ servers_of Cursor fields = Object servers /\
  btree_get "theme" fields = Some (Str "dark") /\ btree_get "files" servers = Some (Str "x") /\
  btree_get "mirrorproxy" servers = Some (mcp_entry Cursor "/bin/mirrorproxy" "https://m").
Proof.
  assert (Hm : @merge_mcp setup_api Cursor others "/bin/mirrorproxy" "https://m" = Ok (merged, false)) by by vm_compute.
  destruct (@merging_keeps_others setup_api setup_api_laws Cursor others _ _ merged false ltac:(done) Hm)
    as (fields & servers & fields' & servers' & Hd & Hs & Hd' & Hs' & Hf & Hn & He & _).
  assert (Hd0 : @document setup_api others = Some (Object [("mcpServers", Object [("files", Str "x")]); ("theme", Str "dark")])) by by vm_compute.
  rewrite Hd0 in Hd. injection Hd as <-. injection Hs as <-. exists fields', servers'. split_and!; [done|done| | |done].
  - by rewrite Hf.
  - by rewrite Hn.
Defined.
End Example.
