(* ===== verification/Catalog.v ===== *)
(** * The catalogue of targets

    [crates/catalog/src/lib.rs]: the providers, the targets a client can
    configure, where each is served, and the text of each configuration. *)
From S2P Require Import Prelude RustStr Lines.
Open Scope string_scope.
Open Scope list_scope.

Inductive MirrorKind : Type := Education | Commercial | Specialized | BuiltIn.

Definition kind_as_str (self : MirrorKind) : string :=
  match self with Education => "education" | Commercial => "commercial" | Specialized => "specialized" | BuiltIn => "builtin" end.

Record MirrorProvider : Type := Provider {
  p_code : string; p_name : string; p_kind : MirrorKind; p_homepage : string; p_speed_test_url : option string; p_enabled : bool }.

Inductive SourceCategory : Type := Language | OperatingSystem | Repository.

#[export] Instance SourceCategory_eq_dec : EqDecision SourceCategory.
Proof. solve_decision. Defined.

Definition category_as_str (self : SourceCategory) : string :=
  match self with Language => "lang" | OperatingSystem => "os" | Repository => "repo" end.

Definition category_parse (value : string) : option SourceCategory :=
  if existsb (String.eqb value) ["lang"; "language"] then Some Language
  else if existsb (String.eqb value) ["os"; "system"] then Some OperatingSystem
  else if existsb (String.eqb value) ["repo"; "repository"] then Some Repository
  else None.

Inductive SourceMode : Type := ProxyAdapter | LocalConfig | TemplateOnly.

#[export] Instance SourceMode_eq_dec : EqDecision SourceMode.
Proof. solve_decision. Defined.

Definition mode_as_str (self : SourceMode) : string :=
  match self with ProxyAdapter => "proxy" | LocalConfig => "local-config" | TemplateOnly => "template" end.

(** [SourceScope]. *)
Inductive SourceScope : Type := InUser | InSystem.

#[export] Instance SourceScope_eq_dec : EqDecision SourceScope.
Proof. solve_decision. Defined.

Record SourceTarget : Type := Target {
  t_code : string; t_name : string; t_category : SourceCategory; t_aliases : list string;
  t_supported_modes : list SourceMode; t_default_scope : SourceScope }.

Record TargetSource : Type := Source {
  s_target_code : string; s_provider_code : string; s_repo_url : string; s_speed_url : option string; s_capability : SourceMode }.

Record SourceTemplate : Type := Template {
  m_target_code : string; m_os_family : string; m_scope : SourceScope; m_template : string; m_requires_sudo : bool }.

Record ContainerRegistry : Type := Registry {
  g_code : string; g_name : string; g_host : string; g_aliases : list string; g_example_image : string; g_legacy : bool }.

(** The clients of a target, when they are not its name. *)
Definition CLIENTS : list (list string * list string) := [
  (["npm"], ["npm"; "Yarn"; "pnpm"]);
  (["pip"], ["pip"]);
  (["cargo"], ["Cargo"]);
  (["go"], ["Go"]);
  (["composer"], ["Composer"]);
  (["github"], ["Git"; "HTTP clients"]);
  (["docker"], ["Docker"; "OCI clients"]);
  (["huggingface"], ["huggingface_hub SDK"; "hf CLI"]);
  (["homebrew"], ["Homebrew"]);
  (["dnf"; "rocky"; "alma"; "anolis"; "openeuler"], ["YUM"; "DNF"]);
  (["apt"; "linuxmint"; "kali"; "trisquel"; "linuxlite"; "ros"; "raspios"; "armbian"; "deepin"], ["APT"]);
  (["pacman"; "manjaro"; "msys2"], ["pacman"]);
  (["alpine"], ["apk"]);
  (["zypper"], ["zypper"]);
  (["xbps"], ["xbps"]);
  (["gentoo"], ["Portage"]);
  (["freebsd"], ["pkg"]);
  (["openwrt"], ["opkg"]);
  (["termux"], ["pkg"; "APT"]);
  (["solus"], ["eopkg"]);
  (["anaconda"], ["conda"]);
  (["pub"], ["dart pub"; "flutter pub"]);
  (["cpan"], ["cpan"; "cpanm"]);
  (["cran"], ["R"]);
  (["hackage"], ["Cabal"]);
  (["clojars"], ["Leiningen"; "Clojure CLI"]);
  (["poetry"], ["Poetry"]);
  (["pdm"], ["PDM"]);
  (["uv"], ["uv"]);
  (["ocaml"], ["opam"]);
  (["lua"], ["LuaRocks"]);
  (["elpa"], ["Emacs package.el"]);
  (["texlive"], ["tlmgr"])
].

Definition clients (self : SourceTarget) : list string :=
  match find_first (fun p => existsb (String.eqb (t_code self)) p.1) CLIENTS with
  | Some p => p.2
  | None => [t_name self]
  end.

Definition CONTAINER_REGISTRIES : list ContainerRegistry := [
  Registry "docker-hub" "Docker Hub" "docker.io" ["registry-1.docker.io"] "nginx:latest" false;
  Registry "ghcr" "GitHub Container Registry" "ghcr.io" [] "ghcr.io/astral-sh/uv:latest" false;
  Registry "quay" "Quay" "quay.io" [] "quay.io/prometheus/prometheus:latest" false;
  Registry "kubernetes" "Kubernetes Registry" "registry.k8s.io" ["k8s.gcr.io"] "registry.k8s.io/pause:3.10" false;
  Registry "gcr" "Google Container Registry" "gcr.io" [] "gcr.io/distroless/static-debian12:nonroot" false;
  Registry "mcr" "Microsoft Container Registry" "mcr.microsoft.com" [] "mcr.microsoft.com/dotnet/runtime:8.0" false;
  Registry "elastic" "Elastic Container Registry" "docker.elastic.co" [] "docker.elastic.co/elasticsearch/elasticsearch:8.13.4" false;
  Registry "gitlab" "GitLab Container Registry" "registry.gitlab.com" [] "registry.gitlab.com/gitlab-org/gitlab-runner/gitlab-runner-helper:x86_64-latest" false;
  Registry "nvcr" "NVIDIA NGC Container Registry" "nvcr.io" [] "nvcr.io/nvidia/cuda:12.6.0-base-ubuntu22.04" false;
  Registry "oracle" "Oracle Container Registry" "container-registry.oracle.com" [] "container-registry.oracle.com/os/oraclelinux:9-slim" false;
  Registry "kubernetes-legacy" "Kubernetes legacy alias" "k8s.gcr.io" [] "k8s.gcr.io/pause:3.8" true
].

Definition MIRROR_PROVIDERS : list MirrorProvider := [
  Provider "mirrorproxy" "MirrorProxy" BuiltIn "http://127.0.0.1:3000" None true;
  Provider "tuna" "TUNA" Education "https://mirrors.tuna.tsinghua.edu.cn" (Some "https://mirrors.tuna.tsinghua.edu.cn/static/tunasync.json") true;
  Provider "ustc" "USTC" Education "https://mirrors.ustc.edu.cn" (Some "https://mirrors.ustc.edu.cn/") true;
  Provider "sjtu" "SJTUG" Education "https://mirror.sjtu.edu.cn" (Some "https://mirror.sjtu.edu.cn/") true;
  Provider "bfsu" "BFSU" Education "https://mirrors.bfsu.edu.cn" (Some "https://mirrors.bfsu.edu.cn/") true;
  Provider "nju" "NJU" Education "https://mirrors.nju.edu.cn" (Some "https://mirrors.nju.edu.cn/") true;
  Provider "aliyun" "Aliyun" Commercial "https://developer.aliyun.com/mirror" (Some "https://mirrors.aliyun.com") true;
  Provider "tencent" "Tencent" Commercial "https://mirrors.cloud.tencent.com" (Some "https://mirrors.cloud.tencent.com") true;
  Provider "huawei" "Huawei Cloud" Commercial "https://mirrors.huaweicloud.com" (Some "https://mirrors.huaweicloud.com") true;
  Provider "npmmirror" "npmmirror" Specialized "https://npmmirror.com" (Some "https://registry.npmmirror.com") true;
  Provider "goproxy-cn" "goproxy.cn" Specialized "https://goproxy.cn" (Some "https://goproxy.cn") true;
  Provider "ruby-china" "Ruby China" Specialized "https://gems.ruby-china.com" (Some "https://gems.ruby-china.com") true
].

Definition SOURCE_TARGETS : list SourceTarget := [
  Target "npm" "npm / yarn / pnpm" Language ["node"; "yarn"; "pnpm"] [ProxyAdapter; LocalConfig] InUser;
  Target "pip" "Python pip" Language ["python"; "pypi"] [ProxyAdapter; LocalConfig] InUser;
  Target "cargo" "Rust Cargo" Language ["rust"; "crates"] [ProxyAdapter; LocalConfig] InUser;
  Target "go" "Go modules" Language ["golang"; "goproxy"] [ProxyAdapter; LocalConfig] InUser;
  Target "composer" "Composer / Packagist" Language ["php"; "packagist"] [ProxyAdapter; LocalConfig] InUser;
  Target "docker" "Docker / OCI" Repository ["oci"; "container"] [ProxyAdapter; LocalConfig] InSystem;
  Target "github" "GitHub" Repository ["git"] [ProxyAdapter; LocalConfig] InUser;
  Target "apt" "APT" OperatingSystem ["debian"; "ubuntu"] [ProxyAdapter; LocalConfig; TemplateOnly] InSystem;
  Target "dnf" "YUM / DNF" OperatingSystem ["yum"; "fedora"; "rocky"; "alma"] [ProxyAdapter; LocalConfig; TemplateOnly] InSystem;
  Target "pacman" "pacman" OperatingSystem ["arch"; "manjaro"] [ProxyAdapter; LocalConfig; TemplateOnly] InSystem;
  Target "homebrew" "Homebrew" Repository ["brew"] [ProxyAdapter; LocalConfig; TemplateOnly] InUser;
  Target "maven" "Maven" Language ["java"] [ProxyAdapter; LocalConfig] InUser;
  Target "rubygems" "RubyGems" Language ["ruby"; "gem"] [ProxyAdapter; LocalConfig] InUser;
  Target "nuget" "NuGet" Language ["dotnet"] [ProxyAdapter; LocalConfig] InUser;
  Target "cpan" "Perl CPAN" Language ["perl"; "cpanm"] [ProxyAdapter; LocalConfig] InUser;
  Target "cran" "R CRAN" Language ["r"; "r-project"] [ProxyAdapter; LocalConfig] InUser;
  Target "hackage" "Haskell Hackage" Language ["haskell"; "cabal"; "stack"] [ProxyAdapter; LocalConfig] InUser;
  Target "clojars" "Clojure Clojars" Language ["clojure"; "leiningen"] [ProxyAdapter; LocalConfig] InUser;
  Target "pub" "Dart / Flutter Pub" Language ["dart"; "flutter"] [ProxyAdapter; TemplateOnly] InUser;
  Target "huggingface" "Hugging Face" Repository ["hf"; "hugging-face"] [ProxyAdapter; TemplateOnly] InUser;
  Target "anaconda" "Anaconda" Repository ["conda"] [ProxyAdapter; LocalConfig] InUser;
  Target "poetry" "Python Poetry" Language ["python-poetry"] [ProxyAdapter; TemplateOnly] InUser;
  Target "pdm" "Python PDM" Language [] [ProxyAdapter; LocalConfig] InUser;
  Target "uv" "Python uv" Language [] [ProxyAdapter; LocalConfig] InUser;
  Target "bun" "Bun" Language [] [ProxyAdapter; LocalConfig] InUser;
  Target "nvm" "Node Version Manager" Language [] [ProxyAdapter; TemplateOnly] InUser;
  Target "lua" "LuaRocks" Language ["luarocks"] [ProxyAdapter; LocalConfig] InUser;
  Target "rustup" "Rustup" Language [] [ProxyAdapter; TemplateOnly] InUser;
  Target "ocaml" "OCaml opam" Language ["opam"] [ProxyAdapter; TemplateOnly] InUser;
  Target "julia" "Julia" Language [] [ProxyAdapter; TemplateOnly] InUser;
  Target "alpine" "Alpine apk" OperatingSystem ["apk"] [ProxyAdapter; LocalConfig; TemplateOnly] InSystem;
  Target "zypper" "openSUSE zypper" OperatingSystem ["opensuse"] [ProxyAdapter; LocalConfig; TemplateOnly] InSystem;
  Target "xbps" "Void xbps" OperatingSystem ["void"] [ProxyAdapter; LocalConfig; TemplateOnly] InSystem;
  Target "gentoo" "Gentoo" OperatingSystem [] [ProxyAdapter; LocalConfig; TemplateOnly] InSystem;
  Target "freebsd" "FreeBSD pkg" OperatingSystem ["pkg"] [ProxyAdapter; TemplateOnly] InSystem;
  Target "openwrt" "OpenWrt opkg" OperatingSystem ["opkg"] [ProxyAdapter; TemplateOnly] InSystem;
  Target "termux" "Termux" OperatingSystem [] [ProxyAdapter; TemplateOnly] InUser;
  Target "linuxmint" "Linux Mint" OperatingSystem ["mint"] [ProxyAdapter; TemplateOnly] InSystem;
  Target "kali" "Kali Linux" OperatingSystem [] [ProxyAdapter; TemplateOnly] InSystem;
  Target "msys2" "MSYS2" OperatingSystem [] [ProxyAdapter; TemplateOnly] InSystem;
  Target "manjaro" "Manjaro" OperatingSystem [] [ProxyAdapter; TemplateOnly] InSystem;
  Target "rocky" "Rocky Linux" OperatingSystem ["rockylinux"] [ProxyAdapter; TemplateOnly] InSystem;
  Target "alma" "AlmaLinux" OperatingSystem ["almalinux"] [ProxyAdapter; TemplateOnly] InSystem;
  Target "solus" "Solus" OperatingSystem [] [ProxyAdapter; TemplateOnly] InSystem;
  Target "trisquel" "Trisquel" OperatingSystem [] [ProxyAdapter; TemplateOnly] InSystem;
  Target "linuxlite" "Linux Lite" OperatingSystem [] [ProxyAdapter; TemplateOnly] InSystem;
  Target "ros" "ROS 2" OperatingSystem ["ros2"] [ProxyAdapter; TemplateOnly] InSystem;
  Target "raspios" "Raspberry Pi OS" OperatingSystem ["raspberrypi"] [ProxyAdapter; TemplateOnly] InSystem;
  Target "armbian" "Armbian" OperatingSystem [] [ProxyAdapter; TemplateOnly] InSystem;
  Target "openeuler" "openEuler" OperatingSystem [] [ProxyAdapter; TemplateOnly] InSystem;
  Target "anolis" "Anolis OS" OperatingSystem [] [ProxyAdapter; TemplateOnly] InSystem;
  Target "deepin" "deepin" OperatingSystem [] [ProxyAdapter; TemplateOnly] InSystem;
  Target "netbsd" "NetBSD" OperatingSystem [] [ProxyAdapter; TemplateOnly] InSystem;
  Target "openbsd" "OpenBSD" OperatingSystem [] [ProxyAdapter; TemplateOnly] InSystem;
  Target "winget" "WinGet" Repository [] [ProxyAdapter; TemplateOnly] InUser;
  Target "cocoapods" "CocoaPods" Repository ["pods"] [ProxyAdapter; TemplateOnly] InUser;
  Target "flatpak" "Flatpak" Repository [] [ProxyAdapter; TemplateOnly] InUser;
  Target "nix" "Nix" Repository [] [ProxyAdapter; LocalConfig] InUser;
  Target "guix" "GNU Guix" Repository [] [ProxyAdapter; TemplateOnly] InUser;
  Target "elpa" "Emacs ELPA" Repository ["emacs"] [ProxyAdapter; TemplateOnly] InUser;
  Target "texlive" "TeX Live" Repository ["tex"] [ProxyAdapter; TemplateOnly] InUser
].

Definition TARGET_SOURCES : list TargetSource := [
  Source "julia" "mirrorproxy" "/julia/" None ProxyAdapter;
  Source "poetry" "mirrorproxy" "/pypi/simple/" None ProxyAdapter;
  Source "uv" "mirrorproxy" "/pypi/simple/" None ProxyAdapter;
  Source "pdm" "mirrorproxy" "/pypi/simple/" None ProxyAdapter;
  Source "bun" "mirrorproxy" "/npm/" None ProxyAdapter;
  Source "nvm" "mirrorproxy" "/nvm/" None ProxyAdapter;
  Source "ocaml" "mirrorproxy" "/opam/" None ProxyAdapter;
  Source "lua" "mirrorproxy" "/luarocks/" None ProxyAdapter;
  Source "rustup" "mirrorproxy" "/rustup" None ProxyAdapter;
  Source "cocoapods" "mirrorproxy" "/cocoapods/" None ProxyAdapter;
  Source "apt" "mirrorproxy" "/os" None ProxyAdapter;
  Source "dnf" "mirrorproxy" "/os" None ProxyAdapter;
  Source "pacman" "mirrorproxy" "/os" None ProxyAdapter;
  Source "kali" "mirrorproxy" "/os/kali/" None ProxyAdapter;
  Source "rocky" "mirrorproxy" "/os/rocky/" None ProxyAdapter;
  Source "alma" "mirrorproxy" "/os/alma/" None ProxyAdapter;
  Source "manjaro" "mirrorproxy" "/os/manjaro/" None ProxyAdapter;
  Source "msys2" "mirrorproxy" "/os/msys2/" None ProxyAdapter;
  Source "raspios" "mirrorproxy" "/os/raspios/" None ProxyAdapter;
  Source "armbian" "mirrorproxy" "/os/armbian/" None ProxyAdapter;
  Source "openeuler" "mirrorproxy" "/os/openeuler/" None ProxyAdapter;
  Source "anolis" "mirrorproxy" "/os/anolis/" None ProxyAdapter;
  Source "deepin" "mirrorproxy" "/os/deepin/" None ProxyAdapter;
  Source "linuxmint" "mirrorproxy" "/os/linuxmint/" None ProxyAdapter;
  Source "solus" "mirrorproxy" "/os/solus/" None ProxyAdapter;
  Source "trisquel" "mirrorproxy" "/os/trisquel/" None ProxyAdapter;
  Source "linuxlite" "mirrorproxy" "/os/linuxlite/" None ProxyAdapter;
  Source "ros" "mirrorproxy" "/os/ros/" None ProxyAdapter;
  Source "netbsd" "mirrorproxy" "/os/netbsd/" None ProxyAdapter;
  Source "openbsd" "mirrorproxy" "/os/openbsd/" None ProxyAdapter;
  Source "alpine" "mirrorproxy" "/os/alpine/" None ProxyAdapter;
  Source "openwrt" "mirrorproxy" "/os/openwrt/" None ProxyAdapter;
  Source "xbps" "mirrorproxy" "/os/void/" None ProxyAdapter;
  Source "zypper" "mirrorproxy" "/os/opensuse/" None ProxyAdapter;
  Source "gentoo" "mirrorproxy" "/os/gentoo/" None ProxyAdapter;
  Source "freebsd" "mirrorproxy" "/os/freebsd/" None ProxyAdapter;
  Source "termux" "mirrorproxy" "/os/termux/" None ProxyAdapter;
  Source "flatpak" "mirrorproxy" "/flatpak/" None ProxyAdapter;
  Source "nix" "mirrorproxy" "/nix/" None ProxyAdapter;
  Source "guix" "mirrorproxy" "/guix/" None ProxyAdapter;
  Source "elpa" "mirrorproxy" "/elpa/" None ProxyAdapter;
  Source "texlive" "mirrorproxy" "/texlive/" None ProxyAdapter;
  Source "winget" "mirrorproxy" "/winget/cache" None ProxyAdapter;
  Source "huggingface" "mirrorproxy" "/huggingface" None ProxyAdapter;
  Source "anaconda" "mirrorproxy" "/anaconda/" None ProxyAdapter;
  Source "npm" "mirrorproxy" "/npm/" None ProxyAdapter;
  Source "pip" "mirrorproxy" "/pypi/simple/" None ProxyAdapter;
  Source "cargo" "mirrorproxy" "/crates-index/" None ProxyAdapter;
  Source "go" "mirrorproxy" "/goproxy/" None ProxyAdapter;
  Source "composer" "mirrorproxy" "/composer/" None ProxyAdapter;
  Source "maven" "mirrorproxy" "/maven/" None ProxyAdapter;
  Source "rubygems" "mirrorproxy" "/rubygems/" None ProxyAdapter;
  Source "nuget" "mirrorproxy" "/nuget/v3/index.json" None ProxyAdapter;
  Source "cpan" "mirrorproxy" "/cpan/" None ProxyAdapter;
  Source "cran" "mirrorproxy" "/cran/" None ProxyAdapter;
  Source "hackage" "mirrorproxy" "/hackage/" None ProxyAdapter;
  Source "clojars" "mirrorproxy" "/clojars/" None ProxyAdapter;
  Source "pub" "mirrorproxy" "/pub/" None ProxyAdapter;
  Source "docker" "mirrorproxy" "/v2/" None ProxyAdapter;
  Source "homebrew" "mirrorproxy" "/homebrew" None ProxyAdapter;
  Source "github" "mirrorproxy" "/https://github.com/" None ProxyAdapter;
  Source "npm" "npmmirror" "https://registry.npmmirror.com" (Some "https://registry.npmmirror.com") LocalConfig;
  Source "go" "goproxy-cn" "https://goproxy.cn,direct" (Some "https://goproxy.cn") LocalConfig;
  Source "pip" "tuna" "https://pypi.tuna.tsinghua.edu.cn/simple" (Some "https://pypi.tuna.tsinghua.edu.cn/simple") LocalConfig;
  Source "cargo" "ustc" "sparse+https://mirrors.ustc.edu.cn/crates.io-index/" (Some "https://mirrors.ustc.edu.cn/crates.io-index/") LocalConfig;
  Source "apt" "tuna" "https://mirrors.tuna.tsinghua.edu.cn" (Some "https://mirrors.tuna.tsinghua.edu.cn/ubuntu/") TemplateOnly;
  Source "dnf" "aliyun" "https://mirrors.aliyun.com" (Some "https://mirrors.aliyun.com/fedora/") TemplateOnly;
  Source "pacman" "ustc" "https://mirrors.ustc.edu.cn" (Some "https://mirrors.ustc.edu.cn/archlinux/") TemplateOnly;
  Source "homebrew" "tuna" "https://mirrors.tuna.tsinghua.edu.cn/git/homebrew" (Some "https://mirrors.tuna.tsinghua.edu.cn/homebrew-bottles/") TemplateOnly;
  Source "rubygems" "ruby-china" "https://gems.ruby-china.com" (Some "https://gems.ruby-china.com") TemplateOnly
].

Definition SOURCE_TEMPLATES : list SourceTemplate := [
  Template "solus" "solus" InSystem "sudo eopkg add-repo mirrorproxy {repo_url}polaris/eopkg-index.xml.xz" true;
  Template "trisquel" "debian" InSystem "deb {repo_url} <trisquel-codename> main" true;
  Template "linuxlite" "ubuntu" InSystem "deb {repo_url} <linux-lite-codename> main" true;
  Template "ros" "ubuntu" InSystem "deb {repo_url} <ubuntu-codename> main" true;
  Template "winget" "windows" InUser "winget source add --name mirrorproxy --arg {repo_url} --type Microsoft.PreIndexed.Package --accept-source-agreements" true;
  Template "linuxmint" "linux" InSystem "deb {repo_url} <mint-codename> main upstream import backport" true;
  Template "npm" "any" InUser "npm config set registry {repo_url}" false;
  Template "bun" "any" InUser ("[install]" +:+ nl +:+ "registry = " +:+ dq +:+ "{repo_url}" +:+ dq) false;
  Template "pip" "any" InUser "pip config set global.index-url {repo_url}" false;
  Template "pdm" "any" InUser "pdm config pypi.url {repo_url}" false;
  Template "uv" "any" InUser "UV_DEFAULT_INDEX={repo_url} uv pip install <package>" false;
  Template "julia" "linux" InUser "export JULIA_PKG_SERVER={repo_url}" false;
  Template "poetry" "linux" InUser "poetry source add --priority=primary mirrorproxy {repo_url}" false;
  Template "cargo" "any" InUser ("[source.crates-io]" +:+ nl +:+ "replace-with = " +:+ dq +:+ "mirrorproxy" +:+ dq +:+ nl +:+ nl +:+ "[source.mirrorproxy]" +:+ nl +:+ "registry = " +:+ dq +:+ "{repo_url}" +:+ dq) false;
  Template "github" "any" InUser ("git config --global --add url." +:+ dq +:+ "{repo_url}" +:+ dq +:+ ".insteadOf https://github.com/") false;
  Template "go" "any" InUser "go env -w GOPROXY={repo_url},direct" false;
  Template "composer" "any" InUser "composer config repo.packagist composer {repo_url}" false;
  Template "maven" "any" InUser ("<settings>" +:+ nl +:+ "  <mirrors>" +:+ nl +:+ "    <mirror>" +:+ nl +:+ "      <id>mirrorproxy</id>" +:+ nl +:+ "      <name>MirrorProxy Maven Central</name>" +:+ nl +:+ "      <url>{repo_url}</url>" +:+ nl +:+ "      <mirrorOf>central</mirrorOf>" +:+ nl +:+ "    </mirror>" +:+ nl +:+ "  </mirrors>" +:+ nl +:+ "</settings>") false;
  Template "rubygems" "any" InUser ("---" +:+ nl +:+ ":sources:" +:+ nl +:+ "- {repo_url}") false;
  Template "rustup" "linux" InUser ("export RUSTUP_DIST_SERVER={repo_url}" +:+ nl +:+ "export RUSTUP_UPDATE_ROOT={repo_url}/rustup") false;
  Template "nuget" "any" InUser ("<?xml version=" +:+ dq +:+ "1.0" +:+ dq +:+ " encoding=" +:+ dq +:+ "utf-8" +:+ dq +:+ "?>" +:+ nl +:+ "<configuration>" +:+ nl +:+ "  <packageSources>" +:+ nl +:+ "    <clear />" +:+ nl +:+ "    <add key=" +:+ dq +:+ "mirrorproxy" +:+ dq +:+ " value=" +:+ dq +:+ "{repo_url}" +:+ dq +:+ " protocolVersion=" +:+ dq +:+ "3" +:+ dq +:+ " />" +:+ nl +:+ "  </packageSources>" +:+ nl +:+ "</configuration>") false;
  Template "cpan" "any" InUser "cpanm --mirror {repo_url} --mirror-only <module>" false;
  Template "cran" "any" InUser ("options(repos = c(CRAN = " +:+ dq +:+ "{repo_url}" +:+ dq +:+ "))") false;
  Template "hackage" "any" InUser ("repository hackage.haskell.org" +:+ nl +:+ "  url: {repo_url}" +:+ nl +:+ "  secure: True") false;
  Template "lua" "linux" InUser "luarocks install --server={repo_url} <module>" false;
  Template "nvm" "linux" InUser "export NVM_NODEJS_ORG_MIRROR={repo_url}" false;
  Template "ocaml" "linux" InUser "opam repository set-url default {repo_url}" false;
  Template "clojars" "any" InUser ("{:mvn/repos {" +:+ dq +:+ "clojars" +:+ dq +:+ " {:url " +:+ dq +:+ "{repo_url}" +:+ dq +:+ "}}}") false;
  Template "pub" "any" InUser "PUB_HOSTED_URL={repo_url} flutter pub get" false;
  Template "huggingface" "any" InUser "HF_ENDPOINT='{repo_url}' HF_HUB_DISABLE_XET=1 hf download gpt2 config.json" false;
  Template "anaconda" "any" InUser ("channels:" +:+ nl +:+ "  - {repo_url}main" +:+ nl +:+ "  - defaults") false;
  Template "docker" "any" InUser "docker pull {repo_url}/nginx" false;
  Template "homebrew" "macos" InUser "export HOMEBREW_BOTTLE_DOMAIN={repo_url}" false;
  Template "guix" "any" InUser "guix build --substitute-urls={repo_url} <package>" false;
  Template "nix" "linux" InUser "substituters = {repo_url}" false;
  Template "apt" "debian" InSystem "Use {repo_url} as the base URL in /etc/apt/sources.list for the current distribution codename." true;
  Template "alpine" "alpine" InSystem "Use {repo_url}<release>/main and {repo_url}<release>/community in /etc/apk/repositories." true;
  Template "xbps" "void" InSystem "repository={repo_url}current" true;
  Template "zypper" "opensuse" InSystem "Use {repo_url}<repository-path>/repo/oss/ as a zypper baseurl; repository paths include distribution/leap/15.6 or tumbleweed." true;
  Template "gentoo" "gentoo" InSystem ("GENTOO_MIRRORS=" +:+ dq +:+ "{repo_url}" +:+ dq) true;
  Template "dnf" "fedora" InSystem "Use {repo_url} as the baseurl or metalink replacement in /etc/yum.repos.d/*.repo." true;
  Template "pacman" "arch" InSystem "Use Server = {repo_url}/archlinux/$repo/os/$arch in /etc/pacman.d/mirrorlist." true
].

Definition list_targets (category : option SourceCategory) : list SourceTarget :=
  match category with Some c => filter (fun t => t_category t = c) SOURCE_TARGETS | None => SOURCE_TARGETS end.

Definition find_target (code_or_alias : string) : option SourceTarget :=
  find_first (fun t => (t_code t =? code_or_alias)%string || existsb (String.eqb code_or_alias) (t_aliases t)) SOURCE_TARGETS.

Definition sources_for_target (target_code : string) : list TargetSource :=
  filter (fun s => s_target_code s = target_code) TARGET_SOURCES.

Definition templates_for_target (target_code : string) : list SourceTemplate :=
  filter (fun t => m_target_code t = target_code) SOURCE_TEMPLATES.

Definition find_provider (code : string) : option MirrorProvider :=
  find_first (fun p => (p_code p =? code)%string && p_enabled p) MIRROR_PROVIDERS.

Definition join_modes (modes : list SourceMode) : string := str_join "," (mode_as_str <$> modes).
