(* ===== verification/SystemRewrite.v ===== *)
(** * Rewriting the sources of a system

    [crates/client/src/system.rs] and the rewriting of [apt.rs]: which
    repository addresses are moved to the mirror and what becomes of the lines,
    stanzas and sections around them.  [Url::query_pairs] is third-party
    code. *)
From S2P Require Import Prelude RustStr Lines Url Fs Systems.
Open Scope string_scope.
Open Scope list_scope.
Open Scope mirror_scope.

(** [before_suffix (a +:+ b) b] is [a]. *)
Definition before_suffix (whole suffix : string) : string :=
  String.substring 0 (String.length whole - String.length suffix) whole.

(** The text up to the first white space, and from there. *)
Definition split_word (s : string) : string * string := span_ws false (String.length s) s.

(** [str::find(&str)], the text from there. *)
Definition find_str (p s : string) : option string :=
  match split_once_str p s with Some (_, rest) => Some (p +:+ rest) | None => None end.

(** [slice::contains]. *)
Definition one_of (l : list string) (s : string) : bool := existsb (String.eqb s) l.

Definition starts_with_any (chars s : string) : bool :=
  match s with String c _ => contains_char c chars | EmptyString => false end.

Definition quotes : string := "'" +:+ dq.

Fixpoint trim_start_quotes (s : string) : string :=
  match s with String c t => if contains_char c quotes then trim_start_quotes t else s | EmptyString => "" end.

(** [trim_matches] of both quotes. *)
Definition trim_quotes (s : string) : string := String.rev (trim_start_quotes (String.rev (trim_start_quotes s))).

Definition os_value (content key : string) : option string :=
  find_map (fun line =>
    match split_once "=" line with
    | Some (name, value) => if (name =? key)%string then Some (trim_quotes (str_trim value)) else None
    | None => None
    end) (str_lines content).

Section Uris.
Context `{UrlApi}.

Definition is_web (url : Url) : bool := one_of ["http"; "https"] (url_scheme url).

Definition no_credentials (url : Url) : bool :=
  str_is_empty (url_username url) && bool_decide (url_password url = None).

Definition validated_base_url (base : string) : result string string :=
  if has_whitespace base || has_control base then Err "--base-url cannot contain whitespace or control characters"
  else
    match url_parse base with
    | None => Err "invalid URL"
    | Some url =>
        if is_web url && bool_decide (is_Some (url_host_str url)) && no_credentials url
           && bool_decide (url_query url = None) && bool_decide (url_fragment url = None) && (url_path url =? "/")%string
        then Ok (trim_end_matches "/" (url_as_str url))
        else Err "--base-url must be an HTTP(S) origin without credentials or a repository path"
    end.

(** ** Which address goes where *)

(** A repository root that matches: its length, the repository, the rest. *)
Record Candidate : Type := { c_length : Z; c_key : string; c_suffix : string }.

Definition boundary (suffix : string) : bool := str_is_empty suffix || starts_with_any "/?#" suffix.

Definition match_root (address key root : string) : option Candidate :=
  match strip_prefix root address with
  | Some suffix => if boundary suffix then Some {| c_length := str_len root; c_key := key; c_suffix := suffix |} else None
  | None => None
  end.

Definition alternate_path (key : string) : list string :=
  if one_of ["linuxmint"; "raspbian"; "ubuntu-old"] key then [key] else [].

(** The roots of a repository: the official ones, and those of the known
    mirrors. *)
Definition official_roots (r : SystemRepository) : list string :=
  omap (strip_prefix "https://") (r_upstream r :: r_aliases r).

Definition mirror_roots (key : string) (r : SystemRepository) : list string :=
  flat_map (fun host => map (fun path => trim_end_matches "/" host +:+ "/" +:+ path) (r_mirror_path r :: alternate_path key))
    SYSTEM_MIRROR_ROOTS.

(** [unwrap]: the keys are those of the catalogue. *)
Definition repository_candidates (address key : string) : list Candidate :=
  match system_repository key with
  | Some r => omap (match_root address key) (official_roots r ++ mirror_roots key r)
  | None => []
  end.

Definition USIZE_MAX : Z := U64_MAX.

(** The regional hosts of Ubuntu. *)
Definition regional_candidate (repositories : list string) (url : Url) : list Candidate :=
  if one_of repositories "ubuntu" && match url_host_str url with Some h => ends_with ".archive.ubuntu.com" h | None => false end
  then match strip_prefix "/ubuntu" (url_path url) with
       | Some suffix =>
           if str_is_empty suffix || starts_with_any "/" suffix
           then [{| c_length := USIZE_MAX; c_key := "ubuntu"; c_suffix := suffix |}] else []
       | None => []
       end
  else [].

(** [Iterator::max_by_key]: the last of the greatest. *)
Definition longest (l : list Candidate) : option Candidate :=
  fold_left (fun best c =>
    match best with Some b => if (c_length c <? c_length b)%Z then best else Some c | None => Some c end) l None.

Definition all_candidates (repositories : list string) (address : string) (url : Url) : list Candidate :=
  flat_map (repository_candidates address) repositories ++ regional_candidate repositories url.

Definition context_repositories (profile : SystemDistribution) (code : string) : list string :=
  if contains_str "|only-epel" code then ["epel"; "epel-next"; "epel-archive"]
  else if contains_str "|only-docker-ce" code then ["docker-ce"]
  else d_repositories profile.

(** Suites out of support are in the archives. *)
Definition archive_key (code key : string) : string :=
  let key :=
    if contains_str "|archive-debian" code then
      if (key =? "debian")%string then "debian-archive"
      else if (key =? "debian-security")%string then "debian-security-archive"
      else key
    else key in
  if contains_str "|archive-ubuntu" code && one_of ["ubuntu"; "ubuntu-security"; "ubuntu-ports"] key then "ubuntu-old" else key.

Definition unsafe_part (p : string) : bool := one_of ["."; ".."] p || contains_str "%2e" (to_ascii_lowercase p).

Definition map_uri (uri code base : string) : result (option string) string :=
  match system_distribution (hd code (str_split "|" code)) with
  | None => Err "unknown system profile"
  | Some profile =>
      match url_parse uri with
      | None => Ok None
      | Some url =>
          if negb (is_web url) then Ok None
          else
            match split_once_str "://" uri with
            | None => Ok None
            | Some (_, address) =>
                match longest (all_candidates (context_repositories profile code) address url) with
                | None => Ok None
                | Some c =>
                    let key := archive_key code (c_key c) in
                    let suffix := c_suffix c in
                    if negb (no_credentials url) then Err "credential-bearing repository URI cannot be migrated"
                    else if negb (bool_decide (url_query url = None) && bool_decide (url_fragment url = None) && bool_decide (url_port url = None))
                    then Err "unsupported repository URL options"
                    else if existsb unsafe_part (str_split "/" suffix) then Err "unsafe repository path"
                    else Ok (Some (base +:+ "/os/" +:+ key +:+ (if str_is_empty suffix then "/" else suffix)))
                end
            end
      end
  end.

Definition mapping_context (profile : SystemDistribution) : string :=
  if bool_decide (d_repositories profile = ["docker-ce"]) then d_code profile +:+ "|only-docker-ce"
  else if bool_decide (d_repositories profile = ["epel"; "epel-next"; "epel-archive"]) then d_code profile +:+ "|only-epel"
  else d_code profile.

(** ** APT *)

(** [apt.rs]: the addresses [mirrorproxy set apt] moves. *)
Definition rewrite_uri (uri id repo : string) : result (option string) string :=
  match strip_prefix "system:" id with
  | Some profile => map_uri uri profile repo
  | None =>
      match url_parse uri with
      | None => Ok None
      | Some url =>
          if negb (is_web url) then Ok None
          else
            let host := default "" (url_host_str url) in
            let official :=
              if (id =? "debian")%string then one_of ["deb.debian.org"; "ftp.debian.org"] host
              else if (id =? "ubuntu")%string then (host =? "archive.ubuntu.com")%string || ends_with ".archive.ubuntu.com" host
              else false in
            if negb official || negb (trim_end_matches "/" (url_path url) =? "/" +:+ id)%string then Ok None
            else if no_credentials url && bool_decide (url_port url = None) && bool_decide (url_query url = None)
                    && bool_decide (url_fragment url = None)
            then Ok (Some (trim_end_matches "/" repo +:+ "/" +:+ id +:+ "/"))
            else Err "unsupported options on official repository URI"
      end
  end.

Section Apt.
Variables id repo : string.

Fixpoint rewrite_runs (uri_only : bool) (parts : list (bool * string)) : result string string :=
  match parts with
  | [] => Ok ""
  | (whitespace, token) :: rest =>
      if whitespace then let? tail := rewrite_runs uri_only rest in Ok (token +:+ tail)
      else if starts_with "#" token then Ok (token +:+ joined (snd <$> rest))
      else
        let? replacement := rewrite_uri token id repo in
        let output := default token replacement in
        if uri_only then Ok (output +:+ joined (snd <$> rest))
        else let? tail := rewrite_runs uri_only rest in Ok (output +:+ tail)
  end.

Definition rewrite_tokens (line : string) (uri_only : bool) : result string string :=
  rewrite_runs uri_only (runs (String.length line) line).

Definition is_entry (trimmed : string) : bool :=
  starts_with "deb " trimmed || starts_with ("deb" +:+ tab) trimmed
  || starts_with "deb-src " trimmed || starts_with ("deb-src" +:+ tab) trimmed.

(** One line of a [.list] file; its options may hold spaces. *)
Definition rewrite_entry (line : string) : result string string :=
  let trimmed := trim_start line in
  if is_entry trimmed then
    let '(word, after_type) := split_word trimmed in
    let prefix := before_suffix line trimmed +:+ word in
    let? (head, rest) :=
      (if starts_with "[" (trim_start after_type) then
         match split_once "]" after_type with
         | Some (options, rest) => Ok (prefix +:+ options +:+ "]", rest)
         | None => Err "unterminated APT options"
         end
       else Ok (prefix, after_type)) in
    let? tail := rewrite_tokens rest true in
    Ok (head +:+ tail)
  else Ok line.

Fixpoint rewrite_entries (lines : list string) : result string string :=
  match lines with
  | [] => Ok ""
  | line :: rest => let? a := rewrite_entry line in let? b := rewrite_entries rest in Ok (a +:+ b)
  end.

Definition disabled (content : string) : bool :=
  existsb (fun line =>
    match split_once ":" line with
    | Some (k, v) => eq_ignore_ascii_case k "Enabled" && eq_ignore_ascii_case (str_trim v) "no"
    | None => false
    end) (str_lines content).

(** [uris]: the lines continue the field of the addresses. *)
Fixpoint rewrite_fields (uris : bool) (lines : list string) : result string string :=
  match lines with
  | [] => Ok ""
  | line :: rest =>
      if starts_with "#" line then let? tail := rewrite_fields uris rest in Ok (line +:+ tail)
      else if starts_with_any (" " +:+ tab) line then
        let? text := (if uris then rewrite_tokens line false else Ok line) in
        let? tail := rewrite_fields uris rest in Ok (text +:+ tail)
      else
        match split_once ":" line with
        | Some (field, value) =>
            let uris := eq_ignore_ascii_case field "URIs" in
            let? text := (if uris then rewrite_tokens value false else Ok value) in
            let? tail := rewrite_fields uris rest in Ok (field +:+ ":" +:+ text +:+ tail)
        | None => Err "malformed DEB822 field; refusing to rewrite sources"
        end
  end.

Definition rewrite_paragraph (content : string) : result string string :=
  if disabled content then Ok content else rewrite_fields false (split_inclusive newline content).
End Apt.

(** The paragraphs of a file one after the other, blank lines between them
    kept. *)
Fixpoint by_paragraph (convert : string -> result string string) (paragraph : string) (lines : list string) : result string string :=
  match lines with
  | [] => convert paragraph
  | line :: rest =>
      if str_is_empty (str_trim line) then
        let? a := convert paragraph in let? b := by_paragraph convert "" rest in Ok (a +:+ line +:+ b)
      else by_paragraph convert (paragraph +:+ line) rest
  end.

Definition rewrite (content : string) (deb822 : bool) (id repo : string) : result string string :=
  let lines := split_inclusive newline content in
  if deb822 then by_paragraph (rewrite_paragraph id repo) "" lines else rewrite_entries id repo lines.

Fixpoint skip_to_address (words : list string) : list string :=
  match words with
  | word :: rest => if starts_with "http://" word || starts_with "https://" word then words else skip_to_address rest
  | [] => []
  end.

(** The suites of a stanza or a line. *)
Definition suites (deb822 : bool) (part : string) : list string :=
  if deb822 then
    flat_map (fun line =>
      match split_once ":" line with
      | Some (key, value) => if eq_ignore_ascii_case key "Suites" then split_whitespace value else []
      | None => []
      end) (str_lines part)
  else take 1 (drop 1 (skip_to_address (split_whitespace part))).

Definition is_suite (names suites : list string) : bool :=
  existsb (fun suite => existsb (fun name =>
    (suite =? name)%string || match strip_prefix name suite with Some rest => starts_with_any "-/" rest | None => false end) names) suites.

Definition OLD_DEBIAN : list string := ["jessie"; "stretch"; "buster"].

Definition OLD_UBUNTU : list string :=
  ["trusty"; "utopic"; "vivid"; "wily"; "xenial"; "yakkety"; "zesty"; "artful"; "cosmic"; "disco"; "eoan"; "groovy"; "hirsute";
   "impish"; "kinetic"; "lunar"; "mantic"; "oracular"].

(** The context of a part: the profile, and the archives it is in. *)
Definition part_context (profile : SystemDistribution) (deb822 : bool) (part : string) : string :=
  mapping_context profile
    +:+ (if is_suite OLD_DEBIAN (suites deb822 part) then "|archive-debian" else "")
    +:+ (if is_suite OLD_UBUNTU (suites deb822 part) then "|archive-ubuntu" else "").

Definition convert (profile : SystemDistribution) (base : string) (deb822 : bool) (part : string) : result string string :=
  rewrite part deb822 ("system:" +:+ part_context profile deb822 part) base.

Fixpoint convert_lines (profile : SystemDistribution) (base : string) (lines : list string) : result string string :=
  match lines with
  | [] => convert profile base false ""
  | line :: rest => let? a := convert profile base false line in let? b := convert_lines profile base rest in Ok (a +:+ b)
  end.

Definition rewrite_apt (content : string) (deb822 : bool) (profile : SystemDistribution) (base : string) : result string string :=
  let lines := split_inclusive newline content in
  if deb822 then by_paragraph (convert profile base true) "" lines else convert_lines profile base lines.
End Uris.

(** ** Lists of addresses: pacman, apk, xbps, nix *)

Section Lists.
Context `{UrlApi}.

Definition pacman_uri (uri : string) (profile : SystemDistribution) (base path : string) : result (option string) string :=
  match url_parse uri with
  | None => Err "invalid URL"
  | Some url =>
      if is_web url && no_credentials url && bool_decide (url_query url = None) && bool_decide (url_fragment url = None) then
        let '(key, suffix) :=
          if (fst (split_name path) =? "endeavouros-mirrorlist")%string then ("endeavouros", find_str "/$repo/$arch" uri)
          else if (d_code profile =? "manjaro")%string then
            ("manjaro", find_map (fun branch => find_str branch uri) ["/stable/"; "/testing/"; "/unstable/"])
          else if contains_str "/$arch/$repo" uri then ("archlinuxarm", find_str "/$arch/$repo" uri)
          else ("archlinux", find_str "/$repo/os/$arch" uri) in
        Ok ((fun suffix => base +:+ "/os/" +:+ key +:+ suffix) <$> suffix)
      else Err "unsupported pacman server URI"
  end.

(** Where the address of a line starts: what is before it, and from there. *)
Definition address_of (field line : string) : option (string * string) :=
  let active := trim_start line in
  if starts_with "#" active || str_is_empty active then None
  else if str_is_empty field then Some (before_suffix line active, active)
  else
    match split_once "=" line with
    | Some (key, value) =>
        if (str_trim key =? field)%string then Some (before_suffix line (trim_start value), trim_start value) else None
    | None => None
    end.

(** [path] is there for pacman only. *)
Definition rewrite_line (profile : SystemDistribution) (base field : string) (path : option string) (line : string) :
    result string string :=
  match address_of field line with
  | None => Ok line
  | Some (head, active) =>
      let '(uri, rest) := split_word active in
      let? replacement :=
        (if bool_decide (d_format profile = Pacman) then pacman_uri uri profile base (default "" path)
         else map_uri uri (mapping_context profile) base) in
      Ok (head +:+ default uri replacement +:+ rest)
  end.

Fixpoint each_line (f : string -> result string string) (lines : list string) : result string string :=
  match lines with
  | [] => Ok ""
  | line :: rest => let? a := f line in let? b := each_line f rest in Ok (a +:+ b)
  end.

Definition rewrite_lines (content : string) (profile : SystemDistribution) (base field : string) (path : option string) :
    result string string :=
  each_line (rewrite_line profile base field path) (split_inclusive newline content).
End Lists.

(** ** Gentoo *)

Definition gentoo_line (base : string) : string := "GENTOO_MIRRORS=" +:+ dq +:+ base +:+ "/os/gentoo" +:+ dq +:+ nl.

Definition is_mirrors (line : string) : option string :=
  match split_once "=" line with
  | Some (key, value) => if (str_trim key =? "GENTOO_MIRRORS")%string then Some (str_trim value) else None
  | None => None
  end.

(** The value ends on its line. *)
Definition one_line (value : string) : bool :=
  negb (ends_with "\" value)
  && (negb (starts_with_any quotes value)
      || (2 <=? str_len value)%Z && match value with String c _ => ends_with (String c "") value | EmptyString => false end).

Fixpoint gentoo_lines (base : string) (lines : list string) : result (string * bool) string :=
  match lines with
  | [] => Ok ("", false)
  | line :: rest =>
      match is_mirrors line with
      | Some value =>
          if one_line value then let? (b, _) := gentoo_lines base rest in Ok (gentoo_line base +:+ b, true)
          else Err "multiline GENTOO_MIRRORS requires manual review"
      | None => let? (b, found) := gentoo_lines base rest in Ok (line +:+ b, found)
      end
  end.

Definition gentoo_config (content base : string) : result string string :=
  let? (text, found) := gentoo_lines base (split_inclusive newline content) in
  if found then Ok text
  else
    let text := if negb (str_is_empty text) && negb (ends_with nl text) then text +:+ nl else text in
    Ok (text +:+ gentoo_line base).

(** The section of the repository, with signed snapshots as its only source. *)
Definition is_sync_key (line : string) : bool :=
  match split_once "=" line with
  | Some (key, _) => one_of ["sync-type"; "sync-uri"; "sync-webrsync-verify-signature"] (str_trim key)
  | None => false
  end.

Fixpoint sync_lines (section : bool) (lines : list string) : string :=
  match lines with
  | [] => ""
  | line :: rest =>
      let trimmed := str_trim line in
      if starts_with "[" trimmed then
        let section := (trimmed =? "[gentoo]")%string in
        line +:+ (if section then "sync-type = webrsync" +:+ nl +:+ "sync-webrsync-verify-signature = yes" +:+ nl else "")
          +:+ sync_lines section rest
      else if section && is_sync_key line then sync_lines section rest
      else line +:+ sync_lines section rest
  end.

Definition has_sync_key (output : string) : bool :=
  existsb (fun line =>
    match split_once "=" line with
    | Some (key, value) => (str_trim key =? "sync-openpgp-key-path")%string && negb (str_is_empty (str_trim value))
    | None => false
    end) (str_lines output).

(** ** RPM *)

(** The prefix of a selector, the repository, and how its tree is laid out. *)
Definition EPEL_SELECTORS : list (string * string * string * string * string) := [
  ("epel-testing-next-debug-", "epel", "testing/next/", "Everything/", "$basearch/debug/");
  ("epel-testing-next-source-", "epel", "testing/next/", "Everything/", "source/tree/");
  ("epel-testing-next-", "epel", "testing/next/", "Everything/", "$basearch/");
  ("epel-next-debug-", "epel-next", "", "Everything/", "$basearch/debug/");
  ("epel-next-source-", "epel-next", "", "Everything/", "source/tree/");
  ("epel-next-", "epel-next", "", "Everything/", "$basearch/");
  ("testing-modular-debug-epel", "epel", "testing/", "Modular/", "$basearch/debug/");
  ("testing-modular-source-epel", "epel", "testing/", "Modular/", "source/tree/");
  ("testing-modular-epel", "epel", "testing/", "Modular/", "$basearch/");
  ("testing-debug-epel", "epel", "testing/", "Everything/", "$basearch/debug/");
  ("testing-source-epel", "epel", "testing/", "Everything/", "source/tree/");
  ("testing-epel", "epel", "testing/", "Everything/", "$basearch/");
  ("epel-modular-debug-", "epel", "", "Modular/", "$basearch/debug/");
  ("epel-modular-source-", "epel", "", "Modular/", "source/tree/");
  ("epel-modular-", "epel", "", "Modular/", "$basearch/");
  ("epel-debug-", "epel", "", "Everything/", "$basearch/debug/");
  ("epel-source-", "epel", "", "Everything/", "source/tree/");
  ("epel-", "epel", "", "Everything/", "$basearch/")].

Definition epel_version (version : string) : bool :=
  one_of ["7"; "8"; "9"; "10"; "$releasever"; "${releasever}"] version
  || match strip_prefix "10." version with
     | Some minor => negb (str_is_empty minor) && all_bytes is_digit minor
     | None => false
     end.

Definition epel_metalink_path (selector : string) : option (string * string) :=
  find_map (fun '(prefix, repository, channel, layout, leaf) =>
    match strip_prefix prefix selector with
    | Some version =>
        if epel_version version then
          let layout := if (version =? "7")%string then "" else layout in
          Some (repository, channel +:+ version +:+ "/" +:+ layout +:+ leaf)
        else None
    | None => None
    end) EPEL_SELECTORS.

Definition CENTOS_SELECTORS : list (string * string) := [
  ("baseos", "BaseOS"); ("appstream", "AppStream"); ("crb", "CRB"); ("highavailability", "HighAvailability");
  ("nfv", "NFV"); ("rt", "RT"); ("resilientstorage", "ResilientStorage")].

Section Rpm.
Context `{QueryApi}.
Variable profile : SystemDistribution.
Variable base : string.

(** The value of a line that names a list of mirrors. *)
Definition discovery (keys : list string) (line : string) : option string :=
  match split_once "=" line with
  | Some (key, value) => if one_of keys (str_trim key) then Some value else None
  | None => None
  end.

Definition is_discovery (line : string) : bool :=
  match discovery ["metalink"; "mirrorlist"] line with Some _ => true | None => false end.

(** [baseurl] of the section: the last known one, or the first that is not
    commented out. *)
Fixpoint find_baseurl (has_discovery : bool) (index : nat) (lines : list string) (found : option (string * nat)) :
    result (option (string * nat)) string :=
  match lines with
  | [] => Ok found
  | line :: rest =>
      let active := trim_start line in
      let candidate := if has_discovery then trim_start (default active (strip_prefix "#" active)) else active in
      match split_once "=" candidate with
      | Some (key, uri) =>
          if (str_trim key =? "baseurl")%string then
            let? mapped := map_uri (str_trim uri) (mapping_context profile) base in
            match mapped with
            | Some m =>
                if starts_with "#" active then find_baseurl has_discovery (S index) rest (Some (m, index))
                else Ok (Some (m, index))
            | None => find_baseurl has_discovery (S index) rest found
            end
          else find_baseurl has_discovery (S index) rest found
      | None => find_baseurl has_discovery (S index) rest found
      end
  end.

(** The selector of a list served by [host]. *)
Definition selector_of (keys : list string) (host line : string) : option string :=
  value ← discovery keys line;
  url ← url_parse (str_trim value);
  if bool_decide (url_host_str url = Some host) then snd <$> find_first (fun p => (p.1 =? "repo")%string) (query_pairs url)
  else None.

(** The last line that yields something wins. *)
Definition last_of (f : string -> option string) (lines : list string) : option string :=
  fold_left (fun found line => match f line with Some r => Some r | None => found end) lines None.

Definition fedora_path (selector : string) : option string :=
  if (selector =? "fedora-$releasever")%string then Some "releases/$releasever/Everything/$basearch/os/"
  else if (selector =? "updates-released-f$releasever")%string then Some "updates/$releasever/Everything/$basearch/"
  else if (selector =? "fedora-modular-$releasever")%string then Some "releases/$releasever/Modular/$basearch/os/"
  else if (selector =? "updates-released-modular-f$releasever")%string then Some "updates/$releasever/Modular/$basearch/"
  else None.

Definition fedora_replacement (line : string) : option string :=
  selector ← selector_of ["metalink"; "mirrorlist"] "mirrors.fedoraproject.org" line;
  path ← fedora_path selector;
  Some (base +:+ "/os/fedora/" +:+ path).

Definition epel_replacement (line : string) : option string :=
  selector ← selector_of ["metalink"; "mirrorlist"] "mirrors.fedoraproject.org" line;
  '(repository, path) ← epel_metalink_path selector;
  Some (base +:+ "/os/" +:+ repository +:+ "/" +:+ path).

Definition centos_path (selector : string) : option string :=
  if (selector =? "centos-extras-sig-extras-common-$stream")%string then Some "SIGs/$stream/extras/$basearch/extras-common/"
  else
    find_map (fun '(name, directory) =>
      if (selector =? "centos-" +:+ name +:+ "-$stream")%string then Some ("$stream/" +:+ directory +:+ "/$basearch/os/")
      else if (selector =? "centos-" +:+ name +:+ "-debug-$stream")%string then Some ("$stream/" +:+ directory +:+ "/$basearch/debug/tree/")
      else if (selector =? "centos-" +:+ name +:+ "-source-$stream")%string then Some ("$stream/" +:+ directory +:+ "/source/tree/")
      else None) CENTOS_SELECTORS.

Definition centos_replacement (line : string) : option string :=
  selector ← selector_of ["metalink"] "mirrors.centos.org" line;
  path ← centos_path selector;
  Some (base +:+ "/os/centos-stream/" +:+ path).

(** The address of the section, and the line that is replaced by it. *)
Definition section_address (content : string) : result (option string * option nat) string :=
  let lines := str_lines content in
  let? found := find_baseurl (existsb is_discovery lines) 0 lines None in
  let otherwise key f (replacement : option string) :=
    match replacement with
    | Some r => Some r
    | None => if one_of (d_repositories profile) key then last_of f lines else None
    end in
  Ok (otherwise "centos-stream" centos_replacement
        (otherwise "epel" epel_replacement (otherwise "fedora" fedora_replacement (fst <$> found))),
      snd <$> found).

(** The lines of a section that moves. *)
Fixpoint section_lines (replacement : string) (base_line : option nat) (index : nat) (lines : list string) : string :=
  match lines with
  | [] => ""
  | line :: rest =>
      let baseurl := "baseurl=" +:+ replacement +:+ nl in
      (if bool_decide (Some index = base_line) then baseurl
       else if is_discovery line then "#" +:+ line +:+ (if bool_decide (base_line = None) then baseurl else "")
       else line)
        +:+ section_lines replacement base_line (S index) rest
  end.

Definition rpm_section (content : string) : result string string :=
  let? (replacement, base_line) := section_address content in
  match replacement with
  | None => Ok content
  | Some replacement => Ok (section_lines replacement base_line 0 (split_inclusive newline content))
  end.

Fixpoint rpm_sections (section : string) (lines : list string) : result string string :=
  match lines with
  | [] => rpm_section section
  | line :: rest =>
      if starts_with "[" (trim_start line) && negb (str_is_empty section) then
        let? a := rpm_section section in let? b := rpm_sections line rest in Ok (a +:+ b)
      else rpm_sections (section +:+ line) rest
  end.

Definition rewrite_rpm (content : string) : result string string := rpm_sections "" (split_inclusive newline content).
End Rpm.

(** Releases out of support are in the archives. *)
Definition pin_centos (major : string) (content : string) : string :=
  match (if (major =? "7")%string then Some "7.9.2009" else if (major =? "8")%string then Some "8.5.2111" else None) with
  | Some pinned =>
      fold_left (fun content release => str_replace ("/os/centos-vault/" +:+ release +:+ "/") ("/os/centos-vault/" +:+ pinned +:+ "/") content)
        ["$releasever"; "${releasever}"; major] content
  | None => content
  end.

Definition archive_rpm (content : string) (profile : SystemDistribution) (version : string) : string :=
  let major := hd version (str_split "." version) in
  let content := if (d_code profile =? "centos")%string then pin_centos major content else content in
  let content :=
    if (d_code profile =? "fedora")%string && match parse_uint U32_MAX major with Some n => (n <=? 42)%Z | None => false end
    then str_replace "/os/fedora/" "/os/fedora-archive/" content else content in
  if (major =? "7")%string then
    fold_left (fun content version => str_replace ("/os/epel-archive/" +:+ version +:+ "/Everything/") "/os/epel-archive/7/" content)
      ["$releasever"; "${releasever}"; "7"] (str_replace "/os/epel/" "/os/epel-archive/" content)
  else content.
