(* ===== verification/SystemRewriteSpec.v ===== *)
(** * What rewriting the sources of a system changes

    Theorems about [SystemRewrite]: addresses move only from the declared roots
    of the distribution's repositories to the same repository of the mirror,
    and nothing else of a file changes. *)
From S2P Require Import Prelude RustStr Lines Url Fs Systems SystemRewrite.
Open Scope string_scope.
Open Scope list_scope.
Open Scope mirror_scope.

(** ** Choosing the repository *)

Lemma longest_spec (l : list Candidate) :
  match longest l with
  | None => l = []
  | Some c => c ∈ l /\ forall c', c' ∈ l -> (c_length c' <= c_length c)%Z
  end.
Proof.
  unfold longest. set (f := fun best c => _).
  assert (Hgo : forall l b, exists c, fold_left f l (Some b) = Some c /\ (c = b \/ c ∈ l) /\
    (c_length b <= c_length c)%Z /\ forall c', c' ∈ l -> (c_length c' <= c_length c)%Z).
  { clear l. induction l as [|x l IH]; intros b.
    - exists b. split_and!; [done|by left|lia|set_solver].
    - cbn [fold_left]. unfold f at 2. destruct (Z.ltb_spec (c_length x) (c_length b)) as [Hx|Hx].
      + destruct (IH b) as (c & Hc & Hin & Hb & Hl). exists c. split_and!; [done|set_solver|done|].
        intros c' Hc'. apply elem_of_cons in Hc' as [->|Hc']; [lia|auto].
      + destruct (IH x) as (c & Hc & Hin & Hb & Hl). exists c. split_and!; [done|set_solver|lia|].
        intros c' Hc'. apply elem_of_cons in Hc' as [->|Hc']; [lia|auto]. }
  destruct l as [|b l]; [done|]. cbn [fold_left]. unfold f at 2. destruct (Hgo l b) as (c & -> & Hin & Hb & Hl).
  split; [set_solver|]. intros c' Hc'. apply elem_of_cons in Hc' as [->|Hc']; auto.
Qed.

Lemma one_of_in (l : list string) (s : string) : one_of l s = true <-> s ∈ l.
Proof.
  unfold one_of. rewrite existsb_true_Exists, Exists_exists. split.
  - intros (x & Hx & He). apply String.eqb_eq in He. by subst.
  - intros Hs. exists s. split; [done|]. apply String.eqb_refl.
Qed.

Ltac known := by eexists; vm_compute.

Lemma archive_key_known (code key : string) : is_Some (system_repository key) -> is_Some (system_repository (archive_key code key)).
Proof.
  intros Hk. unfold archive_key. destruct (contains_str "|archive-debian" code), (contains_str "|archive-ubuntu" code); cbn [andb];
    repeat match goal with |- context [if ?b then _ else _] => destruct b end; try done; known.
Qed.

Section Uris.
Context `{UrlApi}.

(** A declared root of a repository, and what follows it in an address. *)
Definition Declared (repositories : list string) (address name root rest : string) : Prop :=
  name ∈ repositories /\ address = root +:+ rest /\ boundary rest = true /\
  exists r, system_repository name = Some r /\ root ∈ official_roots r ++ mirror_roots name r.

(** A regional host of Ubuntu, and what follows its repository. *)
Definition Regional (repositories : list string) (url : Url) (name rest : string) : Prop :=
  name = "ubuntu" /\ name ∈ repositories /\ url_path url = "/ubuntu" +:+ rest /\ (rest = "" \/ starts_with_any "/" rest = true) /\
  exists host, url_host_str url = Some host /\ ends_with ".archive.ubuntu.com" host = true.

Lemma repository_candidates_in (address name : string) (c : Candidate) :
  c ∈ repository_candidates address name <->
  exists root r, system_repository name = Some r /\ root ∈ official_roots r ++ mirror_roots name r /\
    address = root +:+ c_suffix c /\ boundary (c_suffix c) = true /\ c_length c = str_len root /\ c_key c = name.
Proof.
  unfold repository_candidates. destruct (system_repository name) as [r|]; [|split; [by intros ?%not_elem_of_nil|by intros (? & ? & ? & _)]].
  rewrite list_elem_of_omap. unfold match_root. split.
  - intros (root & Hr & Hm). destruct (strip_prefix root address) as [suffix|] eqn:Hs; [|done].
    destruct (boundary suffix) eqn:Hb; [|done]. injection Hm as <-. apply strip_prefix_Some in Hs. by exists root, r.
  - intros (root & r' & [= <-] & Hr & Ha & Hb & Hl & Hk). exists root. split; [done|].
    rewrite Ha, strip_prefix_app, Hb, <-Hl, <-Hk. by destruct c.
Qed.

Lemma regional_candidate_in (repositories : list string) (url : Url) (c : Candidate) :
  c ∈ regional_candidate repositories url -> Regional repositories url (c_key c) (c_suffix c) /\ c_length c = USIZE_MAX.
Proof.
  unfold regional_candidate. destruct (one_of repositories "ubuntu") eqn:Ho; cbn [andb]; [|set_solver].
  destruct (url_host_str url) as [h|] eqn:Hh; [|set_solver]. destruct (ends_with _ h) eqn:He; [|set_solver].
  destruct (strip_prefix "/ubuntu" (url_path url)) as [suffix|] eqn:Hs; [|set_solver].
  destruct (str_is_empty suffix || _) eqn:Hb; [|set_solver]. intros Hc. apply list_elem_of_singleton in Hc. subst c. cbn.
  apply one_of_in in Ho. apply strip_prefix_Some in Hs. split; [|done]. split_and!; [done|done|done| |by exists h].
  apply orb_prop in Hb as [Hb|Hb]; [left; by destruct suffix|by right].
Qed.

Lemma all_candidates_in (repositories : list string) (address : string) (url : Url) (c : Candidate) :
  c ∈ all_candidates repositories address url <->
  (exists name, name ∈ repositories /\ c ∈ repository_candidates address name) \/ c ∈ regional_candidate repositories url.
Proof.
  unfold all_candidates. rewrite elem_of_app. apply or_iff_compat_r. rewrite list_elem_of_In, in_flat_map.
  split; intros (n & Hn & Hx); exists n; rewrite <-?list_elem_of_In in *; by rewrite ?list_elem_of_In in *.
Qed.

(** A moved address, and the candidate it was moved for. *)
Lemma map_uri_candidate (uri code base out : string) :
  map_uri uri code base = Ok (Some out) ->
  exists profile url scheme address c,
    system_distribution (hd code (str_split "|" code)) = Some profile /\ url_parse uri = Some url /\ is_web url = true /\
    no_credentials url = true /\ url_query url = None /\ url_fragment url = None /\ url_port url = None /\
    split_once_str "://" uri = Some (scheme, address) /\
    longest (all_candidates (context_repositories profile code) address url) = Some c /\
    existsb unsafe_part (str_split "/" (c_suffix c)) = false /\
    out = base +:+ "/os/" +:+ archive_key code (c_key c) +:+ (if str_is_empty (c_suffix c) then "/" else c_suffix c).
Proof.
  unfold map_uri. destruct (system_distribution _) as [profile|]; [|done]. destruct (url_parse uri) as [url|]; [|done].
  destruct (is_web url) eqn:Hw; cbn [negb]; [|done]. destruct (split_once_str "://" uri) as [[scheme address]|]; [|done].
  destruct (longest _) as [c|] eqn:Hl; [|done]. destruct (no_credentials url) eqn:Hc; cbn [negb]; [|done].
  destruct (bool_decide (url_query url = None) && _ && _) eqn:Ho; cbn [negb]; [|done].
  destruct (existsb unsafe_part _) eqn:He; [done|]. intros [= <-]. bool_to_prop. rewrite !bool_decide_eq_true in *.
  by exists profile, url, scheme, address, c.
Qed.

(** An address is moved only when it is an HTTP(S) address without
    credentials, port, query or fragment below a declared root of a repository
    of the distribution, ending there or continuing behind a boundary; it goes
    to a repository of the catalogue, the one of the longest such root, with
    the same path below it, which has no dot segments. *)
Theorem map_uri_confined (uri code base out : string) :
  map_uri uri code base = Ok (Some out) ->
  exists profile url address name rest,
    system_distribution (hd code (str_split "|" code)) = Some profile /\ url_parse uri = Some url /\ is_web url = true /\
    no_credentials url = true /\ url_query url = None /\ url_fragment url = None /\ url_port url = None /\
    split_once_str "://" uri = Some address /\
    out = base +:+ "/os/" +:+ archive_key code name +:+ (if str_is_empty rest then "/" else rest) /\
    is_Some (system_repository (archive_key code name)) /\ Forall (fun p => unsafe_part p = false) (str_split "/" rest) /\
    let repositories := context_repositories profile code in
    (Regional repositories url name rest \/
     exists root, Declared repositories address.2 name root rest /\
       forall name' root' rest', Declared repositories address.2 name' root' rest' -> (str_len root' <= str_len root)%Z).
Proof.
  intros (profile & url & scheme & address & c & Hp & Hu & Hw & Hc & Hq & Hf & Ho & Ha & Hl & He & ->)%map_uri_candidate.
  pose proof (longest_spec (all_candidates (context_repositories profile code) address url)) as Hs. rewrite Hl in Hs. destruct Hs as [Hin Hmax].
  exists profile, url, (scheme, address), (c_key c), (c_suffix c).
  enough (Hkey : is_Some (system_repository (c_key c)) /\
    (Regional (context_repositories profile code) url (c_key c) (c_suffix c) \/
     exists root, Declared (context_repositories profile code) address (c_key c) root (c_suffix c) /\
       forall name' root' rest', Declared (context_repositories profile code) address name' root' rest' -> (str_len root' <= str_len root)%Z)).
  { destruct Hkey as [Hk Hd]. split_and!; try done; [by apply archive_key_known|by apply existsb_false_Forall]. }
  apply all_candidates_in in Hin as [(name & Hn & Hin)|Hin].
  - apply repository_candidates_in in Hin as (root & r & Hr & Hroot & Had & Hb & Hlen & Hk). rewrite Hk. split; [by eexists|].
    right. exists root. split; [by split_and!; eauto|]. intros name' root' rest' (Hn' & Ha' & Hb' & r' & Hr' & Hroot').
    rewrite <-Hlen. apply (Hmax {| c_length := str_len root'; c_key := name'; c_suffix := rest' |}), all_candidates_in. left. exists name'.
    split; [done|]. apply repository_candidates_in. by exists root', r'.
  - apply regional_candidate_in in Hin as [Hin _]. split; [|by left]. destruct Hin as [-> _]. known.
Qed.
End Uris.

(** ** Texts that agree but for some pieces *)

(** [b] is [a] with some pieces replaced, each as [new] allows. *)
Definition Edits (new : string -> string -> Prop) (a b : string) : Prop :=
  exists parts : list (string * string),
    a = joined (fst <$> parts) /\ b = joined (snd <$> parts) /\ Forall (fun p => p.2 = p.1 \/ new p.1 p.2) parts.

Section Edits.
Variable new : string -> string -> Prop.

Lemma edits_refl (a : string) : Edits new a a.
Proof. exists [(a, a)]. cbn. rewrite str_app_nil_r. split_and!; [done|done|]. apply Forall_singleton. by left. Qed.

Lemma edits_new (a b : string) : new a b -> Edits new a b.
Proof. intros Hn. exists [(a, b)]. cbn. rewrite !str_app_nil_r. split_and!; [done|done|]. apply Forall_singleton. by right. Qed.

Lemma edits_app (a b a' b' : string) : Edits new a a' -> Edits new b b' -> Edits new (a +:+ b) (a' +:+ b').
Proof.
  intros (p & -> & -> & Hp) (q & -> & -> & Hq). exists (p ++ q). rewrite !fmap_app, !joined_app.
  split_and!; [done|done|by apply Forall_app].
Qed.

Lemma edits_head (head a a' : string) : Edits new a a' -> Edits new (head +:+ a) (head +:+ a').
Proof. apply edits_app, edits_refl. Qed.

Lemma edits_tail (tail a a' : string) : Edits new a a' -> Edits new (a +:+ tail) (a' +:+ tail).
Proof. intros Ha. apply edits_app; [done|apply edits_refl]. Qed.
End Edits.

#[export] Hint Resolve edits_refl edits_new edits_app edits_head edits_tail : mirror.

Lemma edits_impl (new new' : string -> string -> Prop) (a b : string) :
  (forall x y, new x y -> new' x y) -> Edits new a b -> Edits new' a b.
Proof.
  intros Hn (parts & -> & -> & Hp). exists parts. split_and!; [done|done|]. apply (Forall_impl _ _ _ Hp).
  intros p [Hx|Hx]; [by left|right; auto].
Qed.

Lemma result_bind_ok {A B E} (m : result A E) (k : A -> result B E) (b : B) :
  result_bind m k = Ok b -> exists a, m = Ok a /\ k a = Ok b.
Proof. destruct m as [a|e]; [|done]. by exists a. Qed.

Ltac bind_ok H :=
  match type of H with
  | result_bind _ _ = Ok _ => let a := fresh "v" in let Ha := fresh "Hv" in apply result_bind_ok in H as (a & Ha & H)
  end.

Lemma before_suffix_eq (whole suffix : string) : (exists a, whole = a +:+ suffix) -> before_suffix whole suffix +:+ suffix = whole.
Proof.
  intros [a ->]. unfold before_suffix. rewrite str_length_app. replace (String.length a + String.length suffix - String.length suffix)%nat with (String.length a) by lia.
  f_equal. induction a as [|c a IH]; cbn; [by destruct suffix|by rewrite IH].
Qed.

Lemma before_trim_start (line : string) : before_suffix line (trim_start line) +:+ trim_start line = line.
Proof. apply before_suffix_eq, trim_start_suffix. Qed.

Lemma split_word_eq (s : string) : (split_word s).1 +:+ (split_word s).2 = s.
Proof. unfold split_word. pose proof (span_ws_split false (String.length s) s). by destruct (span_ws _ _ s). Qed.

Section Apt.
Context `{UrlApi}.

(** ** APT *)

Section Id.
Variables id repo : string.

(** What [rewrite_uri] puts in the place of a word. *)
Definition moved (uri new : string) : Prop := starts_with "#" uri = false /\ rewrite_uri uri id repo = Ok (Some new).

Lemma rewrite_runs_edits (uri_only : bool) (parts : list (bool * string)) (out : string) :
  rewrite_runs id repo uri_only parts = Ok out -> Edits moved (joined (snd <$> parts)) out.
Proof.
  revert out. induction parts as [|[whitespace token] rest IH]; intros out Hr.
  { injection Hr as <-. apply edits_refl. }
  cbn [rewrite_runs] in Hr. change (Edits moved (token +:+ joined (snd <$> rest)) out). destruct whitespace.
  { bind_ok Hr. injection Hr as <-. auto with mirror. }
  destruct (starts_with "#" token) eqn:Hc; [injection Hr as <-; auto with mirror|].
  bind_ok Hr. assert (Hone : Edits moved token (default token v)) by (destruct v as [new|]; cbn; auto with mirror; apply edits_new; by split).
  destruct uri_only; [injection Hr as <-; auto with mirror|]. bind_ok Hr. injection Hr as <-. auto with mirror.
Qed.

Lemma rewrite_tokens_edits (uri_only : bool) (line out : string) :
  rewrite_tokens id repo line uri_only = Ok out -> Edits moved line out.
Proof. intros Hr%rewrite_runs_edits. by rewrite runs_joined in Hr by lia. Qed.

Lemma rewrite_entry_edits (line out : string) : rewrite_entry id repo line = Ok out -> Edits moved line out.
Proof.
  unfold rewrite_entry. destruct (is_entry _); [|intros [= <-]; apply edits_refl].
  pose proof (split_word_eq (trim_start line)) as Hw. destruct (split_word (trim_start line)) as [word after]. cbn in Hw. intros Hr.
  bind_ok Hr. destruct v as [head rest]. bind_ok Hr. injection Hr as <-. apply rewrite_tokens_edits in Hv0.
  assert (Hline : line = head +:+ rest).
  { pose proof (before_trim_start line) as Hl. rewrite <-Hw in Hl at 2. rewrite <-Hl. revert Hv. generalize (before_suffix line (trim_start line)).
    intros before Hv. destruct (starts_with "[" (trim_start after)).
    - destruct (split_once "]" after) as [[options tail]|] eqn:Ho; [|done]. injection Hv as <- <-.
      apply split_once_Some in Ho as [-> _]. by rewrite <-!str_app_assoc.
    - injection Hv as <- <-. by rewrite <-str_app_assoc. }
  rewrite Hline. auto with mirror.
Qed.

Lemma rewrite_entries_edits (lines : list string) (out : string) : rewrite_entries id repo lines = Ok out -> Edits moved (joined lines) out.
Proof.
  revert out. induction lines as [|line rest IH]; intros out Hr; [injection Hr as <-; apply edits_refl|].
  cbn [rewrite_entries] in Hr. bind_ok Hr. bind_ok Hr. injection Hr as <-. apply rewrite_entry_edits in Hv.
  change (Edits moved (line +:+ joined rest) (v +:+ v0)). auto with mirror.
Qed.

Lemma rewrite_fields_edits (lines : list string) (uris : bool) (out : string) :
  rewrite_fields id repo uris lines = Ok out -> Edits moved (joined lines) out.
Proof.
  revert uris out. induction lines as [|line rest IH]; intros uris out Hr; [injection Hr as <-; apply edits_refl|].
  change (Edits moved (line +:+ joined rest) out). cbn [rewrite_fields] in Hr.
  destruct (starts_with "#" line). { bind_ok Hr. injection Hr as <-. apply edits_head. by eapply IH. }
  destruct (starts_with_any _ line).
  { bind_ok Hr. bind_ok Hr. injection Hr as <-. apply IH in Hv0.
    destruct uris; [apply rewrite_tokens_edits in Hv|injection Hv as <-]; auto with mirror. }
  destruct (split_once ":" line) as [[field value]|] eqn:Hs; [|done]. apply split_once_Some in Hs as [-> _].
  bind_ok Hr. bind_ok Hr. injection Hr as <-. rewrite <-!str_app_assoc. apply edits_head.
  change (Edits moved (":" +:+ (value +:+ joined rest)) (":" +:+ (v +:+ v0))). apply edits_head.
  apply IH in Hv0. destruct (eq_ignore_ascii_case field "URIs"); [apply rewrite_tokens_edits in Hv|injection Hv as <-]; auto with mirror.
Qed.

Lemma rewrite_paragraph_edits (content out : string) : rewrite_paragraph id repo content = Ok out -> Edits moved content out.
Proof.
  unfold rewrite_paragraph. destruct (disabled content); [intros [= <-]; apply edits_refl|].
  intros Hr%rewrite_fields_edits. by rewrite split_inclusive_joined in Hr.
Qed.
End Id.

Lemma by_paragraph_edits (new : string -> string -> Prop) (convert : string -> result string string) :
  (forall a b, convert a = Ok b -> Edits new a b) ->
  forall lines paragraph out, by_paragraph convert paragraph lines = Ok out -> Edits new (paragraph +:+ joined lines) out.
Proof.
  intros Hc. induction lines as [|line rest IH]; intros paragraph out Hr; cbn [by_paragraph] in Hr.
  { cbn. rewrite str_app_nil_r. auto. }
  change (Edits new (paragraph +:+ (line +:+ joined rest)) out). destruct (str_is_empty (str_trim line)).
  - bind_ok Hr. bind_ok Hr. injection Hr as <-. apply edits_app; [auto|]. apply edits_head. by apply (IH "").
  - rewrite str_app_assoc. by apply IH.
Qed.

Lemma rewrite_edits (id repo content : string) (deb822 : bool) (out : string) :
  rewrite content deb822 id repo = Ok out -> Edits (moved id repo) content out.
Proof.
  unfold rewrite. intros Hr. rewrite <-(split_inclusive_joined newline content). destruct deb822.
  - apply (by_paragraph_edits (moved id repo) _ (rewrite_paragraph_edits id repo) _ "" _ Hr).
  - by apply rewrite_entries_edits.
Qed.

(** The contexts in which the parts of a file are read. *)
Definition Context_of (profile : SystemDistribution) (code : string) : Prop :=
  exists deb822 part, code = part_context profile deb822 part.

Definition moved_in (profile : SystemDistribution) (base uri new : string) : Prop :=
  starts_with "#" uri = false /\ exists code, Context_of profile code /\ map_uri uri code base = Ok (Some new).

Lemma convert_edits (profile : SystemDistribution) (base : string) (deb822 : bool) (part out : string) :
  convert profile base deb822 part = Ok out -> Edits (moved_in profile base) part out.
Proof.
  intros Hr%rewrite_edits. revert Hr. apply edits_impl. intros x y [Hx Hm]. split; [done|].
  exists (part_context profile deb822 part). split; [by exists deb822, part|]. revert Hm. unfold rewrite_uri. by rewrite strip_prefix_app.
Qed.

(** Rewriting APT sources changes words that are addresses and nothing
    else. The new file is the old one with some words replaced, none of them
    the start of a comment, each by the address its own stanza's context maps
    it to; everything else, comments, options, suites, components, keys, white
    space and other repositories, is the same byte for byte. *)
Theorem apt_changes_addresses_only (content : string) (deb822 : bool) (profile : SystemDistribution) (base out : string) :
  rewrite_apt content deb822 profile base = Ok out -> Edits (moved_in profile base) content out.
Proof.
  unfold rewrite_apt. intros Hr. rewrite <-(split_inclusive_joined newline content). revert Hr.
  generalize (split_inclusive newline content) as lines. intros lines Hr. destruct deb822.
  - apply (by_paragraph_edits (moved_in profile base) _ (convert_edits profile base true) _ "" _ Hr).
  - revert out Hr. induction lines as [|line rest IH]; intros out Hr; cbn [convert_lines] in Hr.
    { by apply convert_edits in Hr. }
    bind_ok Hr. bind_ok Hr. injection Hr as <-. apply convert_edits in Hv. change (Edits (moved_in profile base) (line +:+ joined rest) (v +:+ v0)).
    auto with mirror.
Qed.
End Apt.

(** ** RPM *)

Section Rpm.
Context `{QueryApi}.
Variable profile : SystemDistribution.
Variable base : string.

(** An address of a repository of the mirror. *)
Definition AtMirror (new : string) : Prop :=
  exists key rest, is_Some (system_repository key) /\ new = base +:+ "/os/" +:+ key +:+ rest /\ boundary rest = true.

Definition baseurl (new : string) : string := "baseurl=" +:+ new +:+ nl.

(** A line that sets [baseurl], or did before it was commented out. *)
Definition baseurl_values (line : string) : list string :=
  let active := trim_start (drop_line_end line) in
  omap (fun candidate =>
    match split_once "=" candidate with
    | Some (key, uri) => if (str_trim key =? "baseurl")%string then Some (str_trim uri) else None
    | None => None
    end) [active; trim_start (default active (strip_prefix "#" active))].

(** What may become of a line of a repository file. *)
Inductive RpmLine (line : string) : string -> Prop :=
| rpm_kept : RpmLine line line
| rpm_discovery tail :
    is_discovery line = true -> (tail = "" \/ exists new, AtMirror new /\ tail = baseurl new) -> RpmLine line ("#" +:+ line +:+ tail)
| rpm_baseurl uri new :
    uri ∈ baseurl_values line -> map_uri uri (mapping_context profile) base = Ok (Some new) -> RpmLine line (baseurl new).

Lemma at_mirror (new key rest : string) :
  is_Some (system_repository key) -> new = base +:+ "/os/" +:+ key +:+ rest -> boundary rest = true -> AtMirror new.
Proof. intros Hk Hn Hb. by exists key, rest. Qed.

Lemma map_uri_at_mirror (uri code new : string) : map_uri uri code base = Ok (Some new) -> AtMirror new.
Proof.
  intros (p & url & scheme & address & c & _ & _ & _ & _ & _ & _ & _ & _ & Hl & _ & ->)%map_uri_candidate.
  pose proof (longest_spec (all_candidates (context_repositories p code) address url)) as Hs. rewrite Hl in Hs. destruct Hs as [Hin _].
  enough (is_Some (system_repository (c_key c)) /\ boundary (c_suffix c) = true) as [Hk Hb].
  { eapply at_mirror; [by apply archive_key_known|done|]. destruct (str_is_empty (c_suffix c)) eqn:He; [done|exact Hb]. }
  apply all_candidates_in in Hin as [(name & _ & Hin)|Hin].
  - apply repository_candidates_in in Hin as (root & r & Hr & _ & _ & Hb & _ & ->). split; [by eexists|done].
  - apply regional_candidate_in in Hin as [(Hk & _ & _ & Hb & _) _]. rewrite Hk. split; [known|].
    destruct (c_suffix c) as [|x t]; [done|]. destruct Hb as [Hb|Hb]; [done|]. unfold boundary, starts_with_any in *. cbn [str_is_empty orb].
    cbn in Hb |- *. rewrite orb_false_r in Hb. by rewrite Hb.
Qed.

Lemma find_baseurl_from (has_discovery : bool) (lines : list string) :
  forall index found result, find_baseurl profile base has_discovery index (drop_line_end <$> lines) found = Ok result ->
  result = found \/ exists new j line uri, result = Some (new, (index + j)%nat) /\ lines !! j = Some line /\
    uri ∈ baseurl_values line /\ map_uri uri (mapping_context profile) base = Ok (Some new).
Proof.
  induction lines as [|line rest IH]; intros index found result Hr; [injection Hr as <-; by left|].
  cbn [fmap list_fmap find_baseurl] in Hr.
  assert (Hnext : forall found', find_baseurl profile base has_discovery (S index) (drop_line_end <$> rest) found' = Ok result ->
    result = found' \/ exists new j line' uri, result = Some (new, (index + j)%nat) /\ (line :: rest) !! j = Some line' /\
      uri ∈ baseurl_values line' /\ map_uri uri (mapping_context profile) base = Ok (Some new)).
  { intros found' Hr'. apply IH in Hr' as [Hr'|(new & j & l & uri & -> & Hj)]; [by left|right]. exists new, (S j), l, uri.
    split; [|done]. do 2 f_equal. lia. }
  set (active := trim_start (drop_line_end line)) in *. set (candidate := if has_discovery then _ else active) in *.
  destruct (split_once "=" candidate) as [[key uri]|] eqn:Hs; [|by apply Hnext].
  destruct (str_trim key =? "baseurl")%string eqn:Hk; [|by apply Hnext].
  assert (Hin : str_trim uri ∈ baseurl_values line).
  { unfold baseurl_values. fold active. apply list_elem_of_omap. exists candidate. split; [|by rewrite Hs, Hk].
    unfold candidate. destruct has_discovery; [by right; left|by left]. }
  bind_ok Hr. destruct v as [new|]; [|by apply Hnext].
  assert (Hgot : exists new' j line' uri', Some (new, index) = Some (new', (index + j)%nat) /\ (line :: rest) !! j = Some line' /\
      uri' ∈ baseurl_values line' /\ map_uri uri' (mapping_context profile) base = Ok (Some new')).
  { exists new, 0%nat, line, (str_trim uri). rewrite Nat.add_0_r. by split_and!. }
  destruct (starts_with "#" active); [|injection Hr as <-; by right].
  apply Hnext in Hr as [->|Hr]; by right.
Qed.

Lemma last_of_spec (f : string -> option string) (lines : list string) (r : string) :
  last_of f lines = Some r -> exists line, f line = Some r.
Proof.
  unfold last_of. assert (Hgo : forall found, fold_left (fun found line => match f line with Some r => Some r | None => found end) lines found = Some r ->
    found = Some r \/ exists line, f line = Some r).
  { induction lines as [|line rest IH]; intros found Hr; cbn in Hr; [by left|]. apply IH in Hr as [Hr|Hr]; [|by right].
    destruct (f line) eqn:E; [right; exists line; congruence|by left]. }
  intros Hr. by destruct (Hgo None Hr).
Qed.

Lemma epel_repository (selector repository path : string) :
  epel_metalink_path selector = Some (repository, path) -> is_Some (system_repository repository).
Proof.
  intros He. assert (Hall : Forall (fun e => is_Some (system_repository e.1.1.1.2)) EPEL_SELECTORS).
  { repeat (apply Forall_cons; split; [known|]). constructor. }
  unfold epel_metalink_path in He. apply find_map_Some in He as (pre & [[[[prefix repo] channel] layout] leaf] & post & Hl & Hx & _).
  rewrite Hl in Hall. apply Forall_app in Hall as [_ Hall]. apply Forall_cons in Hall as [Hall _].
  destruct (strip_prefix prefix selector); [|done]. destruct (epel_version _); [|done]. by injection Hx as <- <-.
Qed.

(** What the three kinds of lists translate to. *)
Lemma fedora_at_mirror (line new : string) : fedora_replacement base line = Some new -> AtMirror new.
Proof.
  intros (selector & _ & (path & _ & [= <-])%bind_Some)%bind_Some. eapply (at_mirror _ "fedora" ("/" +:+ path)); [known|done|done].
Qed.

Lemma epel_at_mirror (line new : string) : epel_replacement base line = Some new -> AtMirror new.
Proof.
  intros (selector & _ & ([repository path] & He & [= <-])%bind_Some)%bind_Some. apply epel_repository in He.
  by apply (at_mirror _ repository ("/" +:+ path)).
Qed.

Lemma centos_at_mirror (line new : string) : centos_replacement base line = Some new -> AtMirror new.
Proof.
  intros (selector & _ & (path & _ & [= <-])%bind_Some)%bind_Some. eapply (at_mirror _ "centos-stream" ("/" +:+ path)); [known|done|done].
Qed.

Lemma otherwise_at_mirror (keep : bool) (f : string -> option string) (lines : list string) (found : option string) :
  (forall line new, f line = Some new -> AtMirror new) -> (forall new, found = Some new -> AtMirror new) ->
  forall new, match found with Some r => Some r | None => if keep then last_of f lines else None end = Some new -> AtMirror new.
Proof.
  intros Hf Hfound new. destruct found as [r|]; [apply Hfound|]. destruct keep; [|done]. intros (line & Hl)%last_of_spec. by eapply Hf.
Qed.

Lemma section_address_spec (content : string) (replacement : option string) (base_line : option nat) :
  section_address profile base content = Ok (replacement, base_line) ->
  forall new, replacement = Some new -> AtMirror new /\
    forall j, base_line = Some j -> exists line uri, split_inclusive newline content !! j = Some line /\ uri ∈ baseurl_values line /\
      map_uri uri (mapping_context profile) base = Ok (Some new).
Proof.
  intros Hr new Hn. unfold section_address in Hr. bind_ok Hr. injection Hr as Hnew Hline. rewrite Hn in Hnew. clear Hn replacement.
  apply find_baseurl_from in Hv as [->|(m & j & line & uri & -> & Hj & Hu & Hm)].
  - subst base_line. split; [|done]. revert new Hnew.
    apply otherwise_at_mirror; [apply centos_at_mirror|]. apply otherwise_at_mirror; [apply epel_at_mirror|].
    apply otherwise_at_mirror; [apply fedora_at_mirror|done].
  - cbn in Hnew, Hline. injection Hnew as ->. split; [by eapply map_uri_at_mirror|]. intros j' Hj'. subst base_line. injection Hj' as <-.
    by exists line, uri.
Qed.

Lemma section_lines_spec (new : string) (base_line : option nat) (lines : list string) : AtMirror new ->
  forall index, (forall j line, base_line = Some (index + j)%nat -> lines !! j = Some line -> RpmLine line (baseurl new)) ->
  exists outs, Forall2 RpmLine lines outs /\ section_lines new base_line index lines = joined outs.
Proof.
  intros Hnew. induction lines as [|line rest IH]; intros index Hb; [by exists []|].
  destruct (IH (S index)) as (outs & Houts & He).
  { intros j l Hj. apply (Hb (S j)). rewrite Hj. f_equal. lia. }
  cbn [section_lines]. rewrite He. case_bool_decide as Hi.
  - exists (baseurl new :: outs). split; [|done]. constructor; [|done]. apply (Hb 0%nat); [by rewrite Nat.add_0_r|done].
  - destruct (is_discovery line) eqn:Hd.
    + eexists (_ :: outs). split; [|done]. constructor; [|done]. apply rpm_discovery; [done|]. case_bool_decide; [right|by left].
      by exists new.
    + exists (line :: outs). split; [|done]. constructor; [apply rpm_kept|done].
Qed.

Lemma kept_all (lines : list string) : Forall2 RpmLine lines lines.
Proof. induction lines; constructor; [apply rpm_kept|done]. Qed.

Lemma rpm_section_spec (lines : list string) (out : string) :
  Pieces newline lines -> rpm_section profile base (joined lines) = Ok out -> exists outs, Forall2 RpmLine lines outs /\ out = joined outs.
Proof.
  intros Hp Hr. unfold rpm_section in Hr. bind_ok Hr. destruct v as [[new|] base_line]; [|injection Hr as <-; exists lines; split; [apply kept_all|done]].
  injection Hr as <-. destruct (section_address_spec _ _ _ Hv new eq_refl) as [Hnew Hline].
  rewrite (split_inclusive_of_pieces newline lines) in * by done. apply section_lines_spec; [done|].
  intros j line Hj Hl. destruct (Hline _ Hj) as (l & uri & Hl' & Hu & Hm). cbn in Hl'. rewrite Hl in Hl'. injection Hl' as <-. by eapply rpm_baseurl.
Qed.

Lemma rpm_sections_spec (lines : list string) :
  forall section out, Pieces newline (section ++ lines) -> rpm_sections profile base (joined section) lines = Ok out ->
  exists outs, Forall2 RpmLine (section ++ lines) outs /\ out = joined outs.
Proof.
  induction lines as [|line rest IH]; intros section out Hp Hr; cbn [rpm_sections] in Hr.
  { rewrite app_nil_r in *. by apply rpm_section_spec. }
  assert (Hline : line = joined [line]) by (cbn; by rewrite str_app_nil_r).
  destruct (starts_with "[" (trim_start line) && _).
  - bind_ok Hr. bind_ok Hr. injection Hr as <-. apply pieces_parts in Hp as [Hs Hr].
    apply rpm_section_spec in Hv as (outs1 & H1 & ->); [|done]. rewrite Hline in Hv0.
    apply (IH [line]) in Hv0 as (outs2 & H2 & ->); [|done]. exists (outs1 ++ outs2). split; [by apply Forall2_app|]. by rewrite joined_app.
  - rewrite Hline, <-joined_app in Hr. change (line :: rest) with ([line] ++ rest). rewrite app_assoc.
    apply IH; [by rewrite <-app_assoc|done].
Qed.

(** Migrating an RPM repository file keeps its trust settings. Line by
    line the new file holds the old line, or a list of mirrors commented out,
    perhaps with the new address behind it, or the new address of a [baseurl]
    that is one of a declared repository; so keys, signature checks, names and
    all other settings stay where they were, and every new address is one of
    the mirror's repositories. *)
Theorem rpm_keeps_trust (content out : string) :
  rewrite_rpm profile base content = Ok out ->
  exists outs, out = joined outs /\ Forall2 RpmLine (split_inclusive newline content) outs /\
    forall i line, split_inclusive newline content !! i = Some line -> is_discovery line = false -> baseurl_values line = [] ->
      outs !! i = Some line.
Proof.
  intros Hr. destruct (rpm_sections_spec (split_inclusive newline content) [] out (split_inclusive_pieces _ _) Hr) as (outs & Ho & ->).
  exists outs. split_and!; [done|done|]. intros i line Hi Hd Hb. destruct (Forall2_lookup_l _ _ _ _ _ Ho Hi) as (o & Hoi & Hline).
  rewrite Hoi. f_equal. destruct Hline as [|tail Hd' _|uri new Hu _]; [done|congruence|]. rewrite Hb in Hu. by apply not_elem_of_nil in Hu.
Qed.
End Rpm.

(** ** Concrete files *)

Module Example.
(** The pairs of a query, without percent decoding. *)
Definition pairs (u : simple_url) : list (string * string) :=
  match su_query u with
  | Some q => map (fun p => default (p, "") (split_once "=" p)) (str_split "&" q)
  | None => []
  end.

#[local] Instance queries : QueryApi := {| query_pairs := pairs |}.

Definition base : string := "https://proxy.example".

Definition distribution (code : string) : SystemDistribution := default (Distro "" "" [] "" Apt []) (system_distribution code).

Lemma map_uri_confined_witness :
  map_uri "http://deb.debian.org/debian-security/dists" "debian" base = Ok (Some (base +:+ "/os/debian-security/dists")) /\
  exists profile url address name rest,
    system_distribution "debian" = Some profile /\ url_parse "http://deb.debian.org/debian-security/dists" = Some url /\
    split_once_str "://" "http://deb.debian.org/debian-security/dists" = Some address /\
    base +:+ "/os/debian-security/dists" = base +:+ "/os/" +:+ archive_key "debian" name +:+ (if str_is_empty rest then "/" else rest) /\
    Forall (fun p => unsafe_part p = false) (str_split "/" rest).
Proof.
  assert (Hm : map_uri "http://deb.debian.org/debian-security/dists" "debian" base = Ok (Some (base +:+ "/os/debian-security/dists")))
    by by vm_compute.
  split; [exact Hm|].
  destruct (map_uri_confined _ _ _ _ Hm) as (profile & url & address & name & rest & Hp & Hu & _ & _ & _ & _ & _ & Ha & Ho & _ & Hs & _).
  exists profile, url, address, name, rest. by split_and!.
Defined.

(** A file with a comment, options, two suites and a foreign repository. *)
Definition list_file : string :=
  "# deb https://deb.debian.org/debian sid main" +:+ nl
    +:+ "deb [signed-by=/k a=b] https://deb.debian.org/debian buster main # old" +:+ nl
    +:+ "deb https://vendor.example/debian bookworm main" +:+ nl.

Definition list_file_moved : string :=
  "# deb https://deb.debian.org/debian sid main" +:+ nl
    +:+ "deb [signed-by=/k a=b] https://proxy.example/os/debian-archive/ buster main # old" +:+ nl
    +:+ "deb https://vendor.example/debian bookworm main" +:+ nl.

Lemma apt_changes_addresses_only_witness : Edits (moved_in (distribution "debian") base) list_file list_file_moved.
Proof. apply (apt_changes_addresses_only list_file false (distribution "debian") base list_file_moved). by vm_compute. Defined.

Definition repo_file : string :=
  "[baseos]" +:+ nl +:+ "mirrorlist=https://mirrors.rockylinux.org/mirrorlist?repo=BaseOS" +:+ nl
    +:+ "#baseurl=http://dl.rockylinux.org/$contentdir/$releasever/BaseOS/$basearch/os/" +:+ nl +:+ "gpgcheck=1" +:+ nl.

Lemma rpm_keeps_trust_witness : exists out outs,
  rewrite_rpm (distribution "rocky") base repo_file = Ok out /\ out = joined outs /\ outs !! 3%nat = Some ("gpgcheck=1" +:+ nl).
Proof.
  assert (Hr : exists out, rewrite_rpm (distribution "rocky") base repo_file = Ok out) by by eexists; vm_compute.
  destruct Hr as [out Hr]. destruct (rpm_keeps_trust (distribution "rocky") base repo_file out Hr) as (outs & Ho & _ & Hk).
  exists out, outs. split_and!; [done|done|]. apply Hk; by vm_compute.
Defined.

(** The address is glued to the list of mirrors it replaces when that is the
    last line and does not end in a newline: the repository has no address. *)
Definition unterminated : string :=
  "[fedora]" +:+ nl +:+ "metalink=https://mirrors.fedoraproject.org/metalink?repo=fedora-$releasever".

Lemma address_lost_in_comment :
  rewrite_rpm (distribution "fedora") base unterminated =
    Ok ("[fedora]" +:+ nl +:+ "#metalink=https://mirrors.fedoraproject.org/metalink?repo=fedora-$releaseverbaseurl=https://proxy.example/os/fedora/releases/$releasever/Everything/$basearch/os/" +:+ nl).
Proof. by vm_compute. Qed.
End Example.
