(* ===== verification/ClientSources.v ===== *)
(** * Configuring the sources of a package manager

    [crates/client/src/main.rs]: the file and the text of every target, setting
    a source with its rollback record, and resetting it.  The build is the one
    for Linux.  [serde_json] and [Url] are third-party code. *)
From stdpp Require Import gmap.
From S2P Require Import Prelude RustStr Lines Url Fs Json ClientFiles Setup Catalog SystemRewrite.
Open Scope string_scope.
Open Scope Z_scope.
Open Scope list_scope.
Open Scope mirror_scope.
Open Scope act_scope.

Inductive CliSourceScope : Type := ScopeUser | ScopeSystem.

#[export] Instance CliSourceScope_eq_dec : EqDecision CliSourceScope.
Proof. solve_decision. Defined.

Definition parse_source_scope (scope : string) : result CliSourceScope string :=
  if (scope =? "user")%string then Ok ScopeUser
  else if (scope =? "system")%string then Ok ScopeSystem
  else Err ("unknown scope '" +:+ scope +:+ "', expected user or system").

(** ** Where the files are *)

Definition USER_PATHS : list (string * string) := [
  ("npm", ".npmrc"); ("bun", ".bunfig.toml"); ("pip", ".config/pip/pip.conf"); ("pdm", ".config/pdm/config.toml");
  ("uv", ".config/uv/uv.toml"); ("cargo", ".cargo/config.toml"); ("github", ".gitconfig"); ("go", ".config/go/env");
  ("maven", ".m2/settings.xml"); ("rubygems", ".gemrc"); ("nuget", ".nuget/NuGet/NuGet.Config");
  ("cpan", ".cpan/CPAN/MyConfig.pm"); ("cran", ".Rprofile"); ("hackage", ".cabal/config"); ("clojars", ".clojure/deps.edn");
  ("anaconda", ".condarc"); ("lua", ".luarocks/config.lua"); ("homebrew", ".homebrew/brew.env"); ("nix", ".config/nix/nix.conf");
  ("composer", ".config/composer/config.json")].

Definition SYSTEM_PATHS : list (string * string) := [
  ("system", "etc/mirrorproxy/system-sources"); ("docker", "etc/docker/daemon.json");
  ("apt", "etc/apt/sources.list.d/mirrorproxy.list"); ("alpine", "etc/apk/repositories"); ("xbps", "etc/xbps.d/00-mirrorproxy.conf");
  ("zypper", "etc/zypp/repos.d/mirrorproxy.repo"); ("gentoo", "etc/portage/make.conf"); ("dnf", "etc/yum.repos.d/mirrorproxy.repo");
  ("pacman", "etc/pacman.d/mirrorlist")].

Definition XDG_PATHS : list (string * string) := [
  ("pip", "pip/pip.conf"); ("pdm", "pdm/config.toml"); ("uv", "uv/uv.toml"); ("go", "go/env"); ("composer", "composer/config.json");
  ("homebrew", "homebrew/brew.env"); ("nix", "nix/nix.conf")].

Definition assoc (key : string) (l : list (string * string)) : option string :=
  snd <$> find_first (fun p => (p.1 =? key)%string) l.

Definition user_source_config_path (target_code : string) : result string string :=
  result_of_option (assoc target_code USER_PATHS) (target_code +:+ " does not support safe user-scope configuration writes").

Definition source_config_path (target_code : string) (scope : CliSourceScope) (config_root : string) : result string string :=
  let? relative_path :=
    match scope with
    | ScopeUser => user_source_config_path target_code
    | ScopeSystem =>
        result_of_option (assoc target_code SYSTEM_PATHS) (target_code +:+ " does not support safe system-scope configuration writes")
    end in
  Ok (path_join config_root relative_path).

Definition source_rollback_path (target_code : string) (scope : CliSourceScope) (config_root : string) : string :=
  path_join (path_join config_root match scope with
    | ScopeUser => ".local/state/mirrorproxy/sources"
    | ScopeSystem => "var/lib/mirrorproxy/sources"
    end) (target_code +:+ ".json").

(** The variables of the environment that are read. *)
Record Env : Type := { HOME : option string; USERPROFILE : option string; XDG_CONFIG_HOME : option string; XDG_STATE_HOME : option string }.

Definition or_else {A} (a b : option A) : option A := match a with Some _ => a | None => b end.

Definition user_home (env : Env) : option string := or_else (HOME env) (USERPROFILE env).

Definition xdg_user_config_path (target_code config_home : string) : option string :=
  path_join config_home <$> assoc target_code XDG_PATHS.

Definition default_user_source_config_path (env : Env) (target_code : string) : result string string :=
  let? home := result_of_option (user_home env) "cannot determine user home directory" in
  let config_home := default (path_join home ".config") (XDG_CONFIG_HOME env) in
  match xdg_user_config_path target_code config_home with
  | Some path => Ok path
  | None => source_config_path target_code ScopeUser home
  end.

Definition default_source_config_path (env : Env) (scope : CliSourceScope) (target_code : string) : result string string :=
  if bool_decide (scope = ScopeSystem) then source_config_path target_code scope "/"
  else default_user_source_config_path env target_code.

Definition user_state_directory (env : Env) : result string string :=
  match XDG_STATE_HOME env with
  | Some state_home => Ok (path_join state_home "mirrorproxy/sources")
  | None =>
      let? home := result_of_option (user_home env) "cannot determine user home directory; set HOME" in
      Ok (path_join home ".local/state/mirrorproxy/sources")
  end.

(** The configuration and the rollback record. *)
Definition source_locations (env : Env) (scope : CliSourceScope) (config_root : option string) (target_code : string) :
    result (string * string) string :=
  match config_root with
  | Some config_root =>
      let? config_path := source_config_path target_code scope config_root in
      Ok (config_path, source_rollback_path target_code scope config_root)
  | None =>
      let? config_path := default_source_config_path env scope target_code in
      let? rollback_path :=
        match scope with
        | ScopeUser => let? directory := user_state_directory env in Ok (path_join directory (target_code +:+ ".json"))
        | ScopeSystem => Ok (path_join "/var/lib/mirrorproxy/sources" (target_code +:+ ".json"))
        end in
      Ok (config_path, rollback_path)
  end.

(** ** What is written to them *)

Definition mirrorproxy_source_url (base_url : option string) (source_path : string) : string :=
  trim_end_matches "/" (default "${MIRRORPROXY_BASE_URL}" base_url) +:+ "/" +:+ trim_start_matches "/" source_path.

Definition cargo_registry_url (repo_url : string) : string :=
  if starts_with "sparse+" repo_url then repo_url else "sparse+" +:+ repo_url.

(** [trim_end_matches(&str)]. *)
Fixpoint trim_end_str_fuel (fuel : nat) (p s : string) : string :=
  match fuel, strip_suffix p s with S fuel, Some s => trim_end_str_fuel fuel p s | _, _ => s end.

Definition trim_end_str (p s : string) : string := trim_end_str_fuel (String.length s) p s.

Definition docker_registry_host (repo_url : string) : option string :=
  without_scheme ← or_else (strip_prefix "https://" repo_url) (strip_prefix "http://" repo_url);
  Some (trim_end_str "/v2" (trim_end_matches "/" without_scheme)).

Definition template_repo_url (target_code repo_url : string) : option string :=
  if (target_code =? "cargo")%string then Some (cargo_registry_url repo_url)
  else if (target_code =? "docker")%string then docker_registry_host repo_url
  else Some repo_url.

Definition render_source_template (template repo_url : string) : string := str_replace "{repo_url}" repo_url template.

Definition source_config_command (target_code repo_url : string) : option string :=
  if (target_code =? "huggingface")%string then
    let url := trim_end_matches "/" repo_url in
    Some ("HF_ENDPOINT='" +:+ str_replace "'" ("'" +:+ dq +:+ "'" +:+ dq +:+ "'") url
            +:+ "' HF_HUB_DISABLE_XET=1 hf download gpt2 config.json")
  else
    template ← head (templates_for_target target_code);
    url ← template_repo_url target_code repo_url;
    Some (render_source_template (m_template template) url).

Definition RESETS : list (string * string) := [
  ("npm", "npm config delete registry");
  ("bun", "Restore the previous Bun ~/.bunfig.toml registry setting");
  ("pip", "pip config unset global.index-url");
  ("pdm", "Restore the previous PDM repository configuration");
  ("uv", "Restore the previous uv index-url configuration");
  ("cargo", "Remove the [source.crates-io] replacement and [source.mirrorproxy] entries from Cargo config");
  ("github", "Restore the Git config that preceded MirrorProxy's GitHub insteadOf rule");
  ("go", "go env -u GOPROXY");
  ("maven", "Remove the MirrorProxy mirror entry from Maven settings.xml");
  ("rubygems", "Restore the previous RubyGems source list");
  ("nuget", "Restore the previous NuGet.Config package source list");
  ("cpan", "Restore the previous CPAN mirror list");
  ("cran", "Restore the previous R repository setting");
  ("hackage", "Restore the previous Cabal repository setting");
  ("clojars", "Restore the previous Clojure repository setting");
  ("anaconda", "Restore the previous Conda channel setting");
  ("lua", "Restore the previous LuaRocks rocks_servers configuration");
  ("homebrew", "Restore the previous Homebrew user environment file");
  ("nix", "Restore the previous Nix user configuration");
  ("composer", "composer config --unset repos.packagist");
  ("docker", "Remove the registry-mirrors entry from Docker daemon config and restart Docker")].

Definition source_reset_command (target_code : string) : option string :=
  if one_of ["apt"; "alpine"; "dnf"; "gentoo"; "pacman"; "xbps"; "zypper"] target_code
  then Some "Remove the MirrorProxy-managed system source file and restore the rollback record"
  else assoc target_code RESETS.

Record PlannedSourceCommand : Type := {
  ps_target_code : string; ps_provider_code : string; ps_repo_url : string; ps_command : string }.

Section Contents.
Context `{UrlApi} `{SetupApi}.
(** [Url::set_fragment(None)]. *)
Variable clear_fragment : Url -> Url.

Definition plan_source_set_command (target mirror : string) (base_url : option string) : result PlannedSourceCommand string :=
  let? target := result_of_option (find_target target) ("unknown source target '" +:+ target +:+ "'") in
  let? source := result_of_option (find_first (fun s => (s_provider_code s =? mirror)%string) (sources_for_target (t_code target)))
                   ("mirror '" +:+ mirror +:+ "' is not available for target '" +:+ t_code target +:+ "'") in
  let? repo_url :=
    (if (s_provider_code source =? "mirrorproxy")%string && bool_decide (s_capability source = ProxyAdapter) then
       let? base := match base_url with Some base => let? b := validated_base_url base in Ok (Some b) | None => Ok None end in
       Ok (mirrorproxy_source_url base (s_repo_url source))
     else Ok (s_repo_url source)) in
  let? command := result_of_option (source_config_command (t_code target) repo_url)
                    ("no local configuration template for '" +:+ t_code target +:+ "'") in
  Ok {| ps_target_code := t_code target; ps_provider_code := s_provider_code source; ps_repo_url := repo_url; ps_command := command |}.

Definition plan_source_reset_command (target : string) : result (string * string) string :=
  let? target := result_of_option (find_target target) ("unknown source target '" +:+ target +:+ "'") in
  let? command := result_of_option (source_reset_command (t_code target)) ("no reset preview for '" +:+ t_code target +:+ "'") in
  Ok (t_code target, command).

Definition docker_registry_mirror_url (repo_url : string) : result string string :=
  let? url := result_of_option (url_parse repo_url) ("invalid Docker registry URL " +:+ repo_url) in
  if negb (is_web url) || bool_decide (url_host_str url = None)
  then Err "Docker registry mirror URL must use http or https and include a host"
  else Ok (trim_end_matches "/" (url_as_str (clear_fragment (url_set_query None (url_set_path "" url))))).

Definition github_entry (repo_url : string) : string :=
  "# Managed by MirrorProxy" +:+ nl +:+ "[url " +:+ dq +:+ repo_url +:+ dq +:+ "]" +:+ nl +:+ tab +:+ "insteadOf = https://github.com/" +:+ nl.

Definition github_config_content (original : option string) (repo_url : string) : result string string :=
  let? url := result_of_option (url_parse repo_url) ("invalid GitHub proxy URL " +:+ repo_url) in
  if negb (is_web url) || bool_decide (url_host_str url = None) || negb (no_credentials url)
     || bool_decide (is_Some (url_query url)) || bool_decide (is_Some (url_fragment url))
     || negb (ends_with "/https://github.com/" (url_path url))
  then Err "GitHub proxy URL must be an http(s) MirrorProxy URL ending in /https://github.com/"
  else
    let content := default "" original in
    let content :=
      if str_is_empty content then content
      else (if ends_with nl content then content else content +:+ nl) +:+ nl in
    Ok (content +:+ github_entry repo_url).

Definition docker_config_content (original : option string) (repo_url : string) : result string string :=
  let? config :=
    match str_trim <$> original with
    | Some value =>
        if str_is_empty value then Ok (Object [])
        else result_of_option (json_from_str value) "existing Docker daemon configuration is not valid JSON"
    | None => Ok (Object [])
    end in
  match config with
  | Object fields =>
      let? mirror := docker_registry_mirror_url repo_url in
      Ok (json_pretty (Object (btree_insert "registry-mirrors" (Array [Str mirror]) fields)) +:+ nl)
  | _ => Err "existing Docker daemon configuration must be a JSON object"
  end.

(** A configuration that is the text of the command. *)
Definition from_template (head target_code repo_url message : string) : result string string :=
  let? content := result_of_option (source_config_command target_code repo_url) message in Ok (head +:+ content +:+ nl).

Definition user_source_config_content (target_code repo_url : string) : result string string :=
  let managed (comment : string) := comment +:+ " Managed by MirrorProxy" +:+ nl in
  let bare := trim_end_matches "/" repo_url in
  if (target_code =? "npm")%string then Ok ("registry=" +:+ repo_url +:+ nl)
  else if (target_code =? "bun")%string then Ok ("[install]" +:+ nl +:+ "registry = " +:+ dq +:+ repo_url +:+ dq +:+ nl)
  else if (target_code =? "pip")%string then Ok ("[global]" +:+ nl +:+ "index-url = " +:+ repo_url +:+ nl)
  else if (target_code =? "pdm")%string then Ok ("[pypi]" +:+ nl +:+ "url = " +:+ dq +:+ repo_url +:+ dq +:+ nl)
  else if (target_code =? "uv")%string then Ok ("index-url = " +:+ dq +:+ repo_url +:+ dq +:+ nl)
  else if (target_code =? "cargo")%string then from_template "" target_code repo_url "missing Cargo configuration template"
  else if (target_code =? "github")%string then github_config_content None repo_url
  else if (target_code =? "go")%string then Ok ("GOPROXY=" +:+ repo_url +:+ ",direct" +:+ nl)
  else if (target_code =? "maven")%string then from_template "" target_code repo_url "missing Maven configuration template"
  else if (target_code =? "rubygems")%string then from_template "" target_code repo_url "missing RubyGems configuration template"
  else if (target_code =? "nuget")%string then from_template "" target_code repo_url "missing NuGet configuration template"
  else if (target_code =? "cpan")%string then Ok (managed "#" +:+ "$CPAN::Config->{'urllist'} = [q[" +:+ repo_url +:+ "]];" +:+ nl)
  else if (target_code =? "cran")%string then from_template (managed "#") target_code repo_url "missing CRAN configuration template"
  else if (target_code =? "hackage")%string then from_template (managed "--") target_code repo_url "missing Hackage configuration template"
  else if (target_code =? "clojars")%string then from_template (managed ";;") target_code repo_url "missing Clojars configuration template"
  else if (target_code =? "anaconda")%string then from_template (managed "#") target_code repo_url "missing Anaconda configuration template"
  else if (target_code =? "lua")%string then Ok (managed "--" +:+ "rocks_servers = { " +:+ dq +:+ repo_url +:+ dq +:+ " }" +:+ nl)
  else if (target_code =? "homebrew")%string then Ok (managed "#" +:+ "HOMEBREW_BOTTLE_DOMAIN=" +:+ bare +:+ nl)
  else if (target_code =? "nix")%string then Ok (managed "#" +:+ "substituters = " +:+ bare +:+ nl)
  else if (target_code =? "composer")%string then
    Ok (json_pretty (json_object [("repositories", json_object [("packagist", json_object [("type", Str "composer"); ("url", Str repo_url)])])]) +:+ nl)
  else Err ("no user-scope configuration writer for " +:+ target_code).

Definition is_name_char (c : ascii) : bool := is_ascii_alphanumeric c || contains_char c "._-".

Definition apt_content (bare : string) (distribution : option string) : result string string :=
  match distribution with
  | None => Err "APT system scope requires --distribution"
  | Some distribution =>
      if str_is_empty (str_trim distribution) then Err "APT system scope requires --distribution"
      else
        let '(target, codename) := default ("ubuntu", distribution) (split_once "/" distribution) in
        if negb (one_of ["ubuntu"; "debian"] target) || str_is_empty codename || negb (all_bytes is_name_char codename)
        then Err "APT --distribution must be a safe Ubuntu codename or ubuntu/<codename> or debian/<codename>"
        else
          let components := if (target =? "ubuntu")%string then "main restricted universe multiverse" else "main" in
          Ok ("# Managed by MirrorProxy" +:+ nl +:+ "deb " +:+ bare +:+ "/" +:+ target +:+ "/ " +:+ codename +:+ " " +:+ components +:+ nl)
  end.

Definition alpine_content (base : string) (distribution : option string) : result string string :=
  match distribution with
  | None => Err "Alpine system scope requires --distribution <release>, for example v3.21"
  | Some release =>
      if str_is_empty (str_trim release) then Err "Alpine system scope requires --distribution <release>, for example v3.21"
      else
        match release with
        | String "v" numbers =>
            if forallb (fun part => negb (str_is_empty part) && all_bytes is_digit part) (str_split "." numbers)
            then Ok ("# Managed by MirrorProxy" +:+ nl +:+ base +:+ "/" +:+ release +:+ "/main" +:+ nl +:+ base +:+ "/" +:+ release +:+ "/community" +:+ nl)
            else Err "Alpine --distribution must be a release such as v3.21"
        | _ => Err "Alpine --distribution must be a release such as v3.21"
        end
  end.

Definition zypper_content (bare : string) (distribution : option string) : result string string :=
  match distribution with
  | None => Err "zypper system scope requires --distribution <repository-path>"
  | Some repository =>
      if str_is_empty (str_trim repository) then Err "zypper system scope requires --distribution <repository-path>"
      else if contains_char "\" repository || contains_char "000" repository
              || existsb (fun part => str_is_empty part || one_of ["."; ".."] part || negb (all_bytes is_name_char part)) (str_split "/" repository)
      then Err "zypper --distribution must be a safe repository path"
      else Ok ("# Managed by MirrorProxy" +:+ nl +:+ "[mirrorproxy-oss]" +:+ nl +:+ "name=MirrorProxy openSUSE OSS" +:+ nl
                 +:+ "baseurl=" +:+ bare +:+ "/" +:+ repository +:+ "/repo/oss/" +:+ nl +:+ "enabled=1" +:+ nl +:+ "autorefresh=1" +:+ nl +:+ "gpgcheck=1" +:+ nl)
  end.

Definition system_source_config_content (target_code repo_url : string) (distribution : option string) : result string string :=
  let bare := trim_end_matches "/" repo_url in
  let managed := "# Managed by MirrorProxy" +:+ nl in
  if (target_code =? "docker")%string then
    let? mirror := docker_registry_mirror_url repo_url in
    Ok (json_pretty (json_object [("registry-mirrors", Array [Str mirror])]) +:+ nl)
  else if (target_code =? "apt")%string then apt_content bare distribution
  else if (target_code =? "alpine")%string then alpine_content bare distribution
  else if (target_code =? "xbps")%string then Ok (managed +:+ "repository=" +:+ bare +:+ "/current" +:+ nl)
  else if (target_code =? "zypper")%string then zypper_content bare distribution
  else if (target_code =? "gentoo")%string then Ok (managed +:+ "GENTOO_MIRRORS=" +:+ dq +:+ bare +:+ dq +:+ nl)
  else if (target_code =? "dnf")%string then
    Ok (managed +:+ "[mirrorproxy]" +:+ nl +:+ "name=MirrorProxy configured mirror" +:+ nl
          +:+ "baseurl=" +:+ bare +:+ "/fedora/releases/$releasever/Everything/$basearch/os/" +:+ nl +:+ "enabled=1" +:+ nl +:+ "gpgcheck=1" +:+ nl)
  else if (target_code =? "pacman")%string then Ok (managed +:+ "Server = " +:+ bare +:+ "/archlinux/$repo/os/$arch" +:+ nl)
  else Err ("no system-scope configuration writer for " +:+ target_code).

Definition source_config_content (target_code : string) (scope : CliSourceScope) (repo_url : string) (distribution : option string) :
    result string string :=
  match scope with
  | ScopeUser => user_source_config_content target_code repo_url
  | ScopeSystem => system_source_config_content target_code repo_url distribution
  end.
End Contents.

(** ** Setting and resetting *)

Module SourceRollback.
Record t : Type := { target_code : string; config_path : string; original_content : option string; expected_content : string }.
End SourceRollback.

(** [SourceRollback] as JSON. *)
Class RollbackCodec : Type := {
  rollback_pretty : SourceRollback.t -> option string;
  rollback_from_str : string -> option SourceRollback.t;
}.

Class RollbackLaws `{RollbackCodec} : Prop := {
  rollback_round_trip r s : rollback_pretty r = Some s -> rollback_from_str s = Some r;
}.

Definition with_file_name (path name : string) : string := (split_name path).2 +:+ name.

(** [fs::read_to_string]. *)
Definition read_to_string (path : string) : act string := call (fun d =>
  match text_at d path with Some t => (Ok t, d) | None => (Err not_found, d) end).

Section Sources.
Context `{UrlApi} `{SetupApi} `{RollbackCodec}.
Variable clear_fragment : Url -> Url.
Variable pid : Z.

(** Nothing is at [path]. *)
Definition absent (path message : string) : act unit := fun d => if exists_at path d then (Err message, d) else (Ok tt, d).

(** The text that is installed. *)
Definition set_content (command : PlannedSourceCommand) (scope : CliSourceScope) (distribution original : option string) :
    result string string :=
  let target_code := ps_target_code command in
  if (target_code =? "github")%string then
    if bool_decide (scope = ScopeUser) then github_config_content original (ps_repo_url command)
    else Err "github supports only user-scope configuration writes"
  else if (target_code =? "docker")%string then
    if bool_decide (scope = ScopeSystem) then docker_config_content clear_fragment original (ps_repo_url command)
    else Err "docker supports only system-scope configuration writes"
  else source_config_content clear_fragment target_code scope (ps_repo_url command) distribution.

(** What [prepare_source_set_at] asks of the file: nothing but white space, a
    target that reads the old text (GitHub, Docker), or [--force]. *)
Definition may_replace (target_code : string) (force : bool) (original : option string) : bool :=
  match original with
  | Some content => str_is_empty (str_trim content) || one_of ["github"; "docker"] target_code || force
  | None => true
  end.

Definition prepare_source_set_at (command : PlannedSourceCommand) (scope : CliSourceScope) (config_path rollback_path : string)
    (distribution : option string) (force : bool) : act SourceRollback.t :=
  let target_code := ps_target_code command in
  do? _ := (if bool_decide (scope = ScopeSystem) then
              let migration_record := with_file_name rollback_path "system.json" in
              do? _ := reject_symlink migration_record in
              absent migration_record "a system migration is active; run reset system --scope system first"
            else ret tt) in
  do? _ := ensure (negb (contains_str "${MIRRORPROXY_BASE_URL}" (ps_repo_url command)))
             "setting the MirrorProxy provider requires --base-url <http://host[:port]>" in
  do? _ := reject_symlink rollback_path in
  do? _ := absent rollback_path ("a managed " +:+ target_code +:+ " source already exists") in
  do? _ := reject_symlink config_path in
  do? original_content := read_optional_file config_path in
  do? _ := ensure (may_replace target_code force original_content) (config_path +:+ " already contains user configuration") in
  do? expected_content := of_result (set_content command scope distribution original_content) in
  ret {| SourceRollback.target_code := target_code; SourceRollback.config_path := config_path;
         SourceRollback.original_content := original_content; SourceRollback.expected_content := expected_content |}.

Definition apply_source_set_at (command : PlannedSourceCommand) (scope : CliSourceScope) (config_path rollback_path : string)
    (distribution : option string) (force : bool) : act (string * string) :=
  do? rollback := prepare_source_set_at command scope config_path rollback_path distribution force in
  do? rollback_content := of_option (rollback_pretty rollback) "unserializable" in
  do? _ := context "failed to save source rollback record; configuration was not changed" (write_atomic pid rollback_path rollback_content) in
  do? _ := context ("failed to change " +:+ config_path +:+ "; rollback record retained at " +:+ rollback_path)
             (write_atomic pid config_path (SourceRollback.expected_content rollback)) in
  ret (config_path, rollback_path).

Definition apply_source_reset_at (target_code expected_config_path rollback_path : string) (force : bool) : act string :=
  do? _ := reject_symlink rollback_path in
  do? raw := context ("no rollback record for " +:+ target_code) (read_to_string rollback_path) in
  do? rollback := of_option (rollback_from_str raw) ("invalid rollback record " +:+ rollback_path) in
  do? _ := ensure (SourceRollback.target_code rollback =? target_code)%string "rollback record does not match target" in
  let config_path := SourceRollback.config_path rollback in
  do? _ := ensure (config_path =? expected_config_path)%string ("rollback record points to " +:+ config_path) in
  do? _ := reject_symlink config_path in
  do? current := read_optional_file config_path in
  if bool_decide (current = SourceRollback.original_content rollback) then
    do? _ := context "configuration was already at its original value, but failed to remove rollback record" (remove_file rollback_path) in
    ret config_path
  else
    do? _ := ensure (bool_decide (current = Some (SourceRollback.expected_content rollback)) || force)
               (config_path +:+ " changed after set; refusing to overwrite it without --force") in
    do? _ := restore_original_file pid config_path (SourceRollback.original_content rollback) in
    do? _ := context ("failed to remove rollback record " +:+ rollback_path) (remove_file rollback_path) in
    ret config_path.

End Sources.
