(* ===== verification/ClientSteps.v ===== *)
(** * Runs on the client's files

    A logic for the steps of [ClientFiles], [ClientSources] and [SystemPlan]:
    steps that only look, and what restoring a file leaves. *)
From stdpp Require Import gmap.
From S2P Require Import Prelude RustStr Fs ClientFiles Setup SetupSpec ClientSources.
Open Scope string_scope.
Open Scope Z_scope.
Open Scope list_scope.
Open Scope act_scope.

(** ** Steps that only look

    [Quiet W P m d]: [m] changes nothing, what it returns satisfies [P], and
    when [W] holds and the system reports no error it does not fail. *)
Definition Quiet {A} (W : Prop) (P : A -> Prop) (m : act A) (d : Disk) : Prop :=
  After [] d (m d).2 /\ (forall x, (m d).1 = Ok x -> P x) /\ (W -> Works d (m d).1 (m d).2).

Lemma quiet_ret {A} (W : Prop) (P : A -> Prop) (x : A) (d : Disk) : P x -> Quiet W P (ret x) d.
Proof. intros Hx. split_and!; [apply after_refl|by intros y [= <-]|done]. Qed.

Lemma quiet_bind {A B} (W : Prop) (P : A -> Prop) (Q : B -> Prop) (m : act A) (k : A -> act B) (d : Disk) :
  Quiet W P m d -> (forall x d1, After [] d d1 -> P x -> Quiet W Q (k x) d1) -> Quiet W Q (bind m k) d.
Proof.
  intros (A1 & P1 & W1) Hk. unfold Quiet, bind. destruct (m d) as [[x|e] d1]; cbn in *.
  - destruct (Hk x d1 A1 (P1 x eq_refl)) as (A2 & P2 & W2). split_and!; [by eapply after_trans|done|].
    intros Hw Hq. destruct (W1 Hw Hq) as [_ Hq1]. by apply W2.
  - split_and!; [done|done|]. intros Hw Hq. by destruct (W1 Hw Hq).
Qed.

Lemma quiet_context {A} (W : Prop) (P : A -> Prop) (message : string) (m : act A) (d : Disk) :
  Quiet W P m d -> Quiet W P (context message m) d.
Proof.
  intros (A1 & P1 & W1). unfold Quiet, context. destruct (m d) as [[x|e] d1]; cbn in *; by split_and!.
Qed.

Lemma quiet_ensure (W : Prop) (b : bool) (message : string) (d : Disk) :
  (W -> b = true) -> Quiet W (fun _ => b = true) (ensure b message) d.
Proof.
  intros Hb. unfold Quiet, ensure. destruct b; cbn; (split_and!; [apply after_refl| |]); try done.
  intros Hw. by specialize (Hb Hw).
Qed.

Lemma quiet_of_option {A} (W : Prop) (o : option A) (message : string) (d : Disk) :
  (W -> is_Some o) -> Quiet W (fun x => o = Some x) (of_option o message) d.
Proof.
  intros Ho. unfold Quiet, of_option. destruct o as [x|]; cbn; (split_and!; [apply after_refl| |]); try done; [by intros ? [= ->]|].
  intros Hw. by destruct (Ho Hw).
Qed.

Lemma quiet_of_result {A} (W : Prop) (r : result A string) (d : Disk) :
  (W -> is_ok r = true) -> Quiet W (fun x => r = Ok x) (of_result r) d.
Proof. intros Hr. unfold Quiet, of_result. cbn. split_and!; [apply after_refl|done|]. intros Hw Hq. auto. Qed.

Lemma quiet_absent (W : Prop) (path message : string) (d : Disk) :
  (W -> exists_at path d = false) -> Quiet W (fun _ => text_at d path = None) (absent path message) d.
Proof.
  intros Hx. unfold Quiet, absent. destruct (exists_at path d) eqn:E; cbn; (split_and!; [apply after_refl| |]); try done.
  - intros Hw. by specialize (Hx Hw).
  - intros _ _. unfold exists_at in E. apply bool_decide_eq_false in E. unfold text_at. destruct (nodes d !! path); [|done]. by destruct E.
Qed.

Lemma quiet_reject_symlink (W : Prop) (path : string) (d : Disk) : (W -> links d = ∅) -> Quiet W (fun _ => True) (reject_symlink path) d.
Proof.
  intros Hl. unfold Quiet, reject_symlink. pose proof (reject_symlinks_cases (ancestors path) d) as Hr.
  destruct (reject_symlinks _ d) as [r d1]. destruct Hr as [Ha Hw]. split_and!; [done|done|auto].
Qed.

Lemma quiet_read_optional (W : Prop) (path : string) (d : Disk) : Quiet W (fun v => v = text_at d path) (read_optional_file path) d.
Proof.
  unfold Quiet. pose proof (read_optional_file_cases path d) as Hr. destruct (read_optional_file path d) as [r d1].
  destruct Hr as (Ha & Hw & Hr). cbn. split_and!; [done| |done]. intros x ->. destruct Hr as [[= ->]|[e Hr]]; done.
Qed.

Lemma quiet_read_to_string (W : Prop) (path : string) (d : Disk) :
  (W -> is_Some (text_at d path)) -> Quiet W (fun t => text_at d path = Some t) (read_to_string path) d.
Proof.
  intros Hsome. unfold Quiet, read_to_string. pose proof (quiet_call_after (fun d => result_of_option (text_at d path) not_found) d) as Ha.
  assert (He : forall d, (match text_at d path with Some t => (Ok t, d) | None => (Err not_found, d) end) = (result_of_option (text_at d path) not_found, d)).
  { intros d1. by destruct (text_at d1 path). }
  revert Ha. unfold call. case_next; intros Ha.
  - rewrite He. cbn in Ha |- *. assert (Hx : text_at d1 path = text_at d path) by (unfold text_at; by rewrite Hn). rewrite Hx.
    split_and!; [done|by intros x; destruct (text_at d path); [intros [= ->]|]|]. intros Hw Hqq. split; [|auto].
    destruct (Hsome Hw) as [t Ht]. by rewrite Ht.
  - cbn in Ha |- *. split_and!; [done|done|]. intros _ Hqq. by destruct (Hq Hqq).
Qed.

Lemma text_after (d d1 : Disk) (q : string) : After [] d d1 -> text_at d1 q = text_at d q.
Proof. intros Ha. unfold text_at. by rewrite (after_nodes_eq _ _ Ha). Qed.

Lemma bind_cases {A B} (m : act A) (k : A -> act B) (d : Disk) (G : result B string -> Disk -> Prop) :
  match m d with (Ok x, d1) => G (k x d1).1 (k x d1).2 | (Err e, d1) => G (Err e) d1 end -> G (bind m k d).1 (bind m k d).2.
Proof. unfold bind. by destruct (m d) as [[x|e] d1]. Qed.

(** A quiet step at the head of a run. *)
Lemma quiet_step {A B} (W : Prop) (P : A -> Prop) (m : act A) (k : A -> act B) (d : Disk) (G : result B string -> Disk -> Prop) :
  Quiet W P m d ->
  (forall e d1, After [] d d1 -> (W -> tape d = [] -> False) -> G (Err e) d1) ->
  (forall x d1, After [] d d1 -> P x -> (W -> tape d = [] -> tape d1 = []) -> G (k x d1).1 (k x d1).2) ->
  G (bind m k d).1 (bind m k d).2.
Proof.
  intros (A1 & P1 & W1) He Hk. unfold bind. destruct (m d) as [[x|e] d1]; cbn in *.
  - apply Hk; [done|by apply P1|]. intros Hw Hq. by destruct (W1 Hw Hq).
  - apply He; [done|]. intros Hw Hq. by destruct (W1 Hw Hq).
Qed.

(** Looking leaves every file alone. *)
Lemma within_look (pid : Z) (ps : list string) (d d' : Disk) : fresh pid d -> After [] d d' -> Within pid ps d d'.
Proof.
  intros Hf Ha. pose proof (within_after pid d d' Hf Ha) as Hw.
  eapply within_trans; [exact Hw|apply (within_refl pid []), (wi_fresh _ _ _ _ Hw)|set_solver..].
Qed.

(** Restoring one file. *)
Lemma restore_original_text (pid : Z) (path : string) (original : option string) (d : Disk) :
  fresh pid d -> ordinary pid path ->
  let '(r, d') := restore_original_file pid path original d in
  Within pid [path] d d' /\ (has_parent path = true -> Works d r d') /\
  match r with
  | Ok _ => text_at d' path = original
  | Err _ => text_at d' path = text_at d path \/ text_at d' path = original \/ Aside pid d' path (text_at d path)
  end.
Proof.
  intros Hf Ho. unfold restore_original_file. destruct original as [content|]; [by apply write_atomic_text|].
  destruct (nodes d !! path) as [x|] eqn:Hx.
  - pose proof (remove_file_text pid path d Hf Ho ltac:(by exists x)) as Hr. destruct (remove_file path d) as [[u|e] d'] eqn:E.
    + destruct Hr as (I1 & W1 & T1). by split_and!.
    + destruct Hr as (I1 & W1 & T1). assert ((e =? not_found)%string = false) as ->.
      { revert E. unfold remove_file, call. case_next; [by rewrite Hn, Hx|by intros [= <- _]]. }
      split_and!; [done|intros _ Hq; by destruct (W1 Hq)|by left].
  - assert (Htext : text_at d path = None) by (unfold text_at; by rewrite Hx).
    pose proof (remove_file_after path d) as Ha. destruct (remove_file path d) as [r d'] eqn:E. cbn in Ha.
    assert (Hn' : nodes d' = nodes d /\ sequence d' = sequence d /\
      (r = Err not_found /\ (tape d = [] -> tape d' = []) \/ r = Err "input/output error" /\ (tape d = [] -> False))).
    { revert E. unfold remove_file, call. case_next; [rewrite Hn, Hx|]; intros [= <- <-]; auto. }
    destruct Hn' as (Hn' & Hs & Hr). assert (I1 : Within pid [path] d d').
    { apply (within_trans pid [] [] [path] d d' d'); [|apply (within_refl pid [])|set_solver..].
      - apply within_after; [done|]. split; [apply Ha|lia|]. intros q _. by rewrite Hn'.
      - intros p role n Hle. rewrite Hn'. apply Hf. lia. }
    assert (Htext' : text_at d' path = None) by (unfold text_at; by rewrite Hn', Hx).
    destruct Hr as [[-> Hq]|[-> Hq]]; cbn; split_and!; try done; try (left; congruence).
    all: intros _ Hqq; split; [done|auto].
Qed.
