(* ===== verification/ClientSourcesSpec.v ===== *)
(** * What setting a source guarantees

    Theorems about [ClientSources]: setting a source never loses the user's
    file and leaves it alone unless told to, and resetting brings it back. *)
From stdpp Require Import gmap.
From S2P Require Import Prelude RustStr Lines Url Fs Json ClientFiles Setup SetupSpec Catalog SystemRewrite ClientSources ClientSteps.
Open Scope string_scope.
Open Scope Z_scope.
Open Scope list_scope.
Open Scope act_scope.

Section Sources.
Context `{UrlApi} `{SetupApi} `{RollbackCodec} `{!RollbackLaws}.
Variable clear_fragment : Url -> Url.
Variable pid : Z.
Variables config rollback : string.

(** The record of a source that is set. *)
Definition Recorded (d : Disk) (target_code : string) (original : option string) (expected : string) : Prop :=
  exists s, text_at d rollback = Some s /\
    rollback_from_str s = Some {| SourceRollback.target_code := target_code; SourceRollback.config_path := config;
                                  SourceRollback.original_content := original; SourceRollback.expected_content := expected |}.

Lemma prepare_quiet (command : PlannedSourceCommand) (scope : CliSourceScope) (distribution : option string) (force : bool) (d : Disk) :
  Quiet False (fun r => exists expected,
    r = {| SourceRollback.target_code := ps_target_code command; SourceRollback.config_path := config;
           SourceRollback.original_content := text_at d config; SourceRollback.expected_content := expected |} /\
    set_content clear_fragment command scope distribution (text_at d config) = Ok expected /\
    may_replace (ps_target_code command) force (text_at d config) = true /\ text_at d rollback = None)
    (prepare_source_set_at clear_fragment command scope config rollback distribution force) d.
Proof.
  unfold prepare_source_set_at. eapply (quiet_bind _ (fun _ => True)).
  { case_bool_decide; [|by apply quiet_ret]. eapply quiet_bind; [by apply quiet_reject_symlink|]. intros _ d1 _ _.
    destruct (quiet_absent False (with_file_name rollback "system.json") "a system migration is active; run reset system --scope system first" d1)
      as (A & _ & W); [done|]. by split_and!. }
  intros _ d1 A1 _. eapply quiet_bind; [by apply quiet_ensure|]. intros _ d2 A2 _.
  eapply quiet_bind; [by apply quiet_reject_symlink|]. intros _ d3 A3 _.
  eapply quiet_bind; [by apply quiet_absent|]. intros ? d4 A4 Hr; cbn in Hr.
  eapply quiet_bind; [by apply quiet_reject_symlink|]. intros _ d5 A5 _.
  eapply quiet_bind; [apply quiet_read_optional|]. intros original d6 A6 ->.
  eapply quiet_bind; [by apply quiet_ensure|]. intros ? d7 A7 Hm; cbn in Hm.
  eapply quiet_bind; [by apply quiet_of_result|]. intros expected d8 A8 He. apply quiet_ret. exists expected.
  assert (Ha : forall q, text_at d5 q = text_at d q) by (intros q; rewrite (text_after d4), (text_after d3), (text_after d2), (text_after d1), (text_after d); done).
  assert (Hb : forall q, text_at d3 q = text_at d q) by (intros q; rewrite (text_after d2), (text_after d1), (text_after d); done).
  rewrite Ha in *. rewrite Hb in Hr. by split_and!.
Qed.

(** What setting a source leaves behind. *)
Lemma set_outcome (command : PlannedSourceCommand) (scope : CliSourceScope) (distribution : option string) (force : bool) (d : Disk) :
  fresh pid d -> ordinary pid config -> ordinary pid rollback -> config <> rollback ->
  let '(r, d') := apply_source_set_at clear_fragment pid command scope config rollback distribution force d in
  Within pid [config; rollback] d d' /\
  ((is_ok r = false /\ text_at d' config = text_at d config) \/
   exists expected, Recorded d' (ps_target_code command) (text_at d config) expected /\
     set_content clear_fragment command scope distribution (text_at d config) = Ok expected /\
     may_replace (ps_target_code command) force (text_at d config) = true /\
     match r with
     | Ok _ => text_at d' config = Some expected
     | Err _ => text_at d' config = Some expected \/ Aside pid d' config (text_at d config)
     end).
Proof.
  intros Hf Hoc Hor Hne. unfold apply_source_set_at, bind at 1.
  destruct (prepare_quiet command scope distribution force d) as (A1 & P1 & _). destruct (prepare_source_set_at _ _ _ _ _ _ _ d) as [[r|e] d1]; cbn in *.
  2: { split; [by apply within_look|].
       left. split; [done|]. by apply text_after. }
  destruct (P1 r eq_refl) as (expected & -> & Hset & Hmay & Hnone).
  assert (Hf1 : fresh pid d1) by by apply (wi_fresh pid [] d), within_after.
  assert (I1 : Within pid [config; rollback] d d1) by by apply within_look.
  unfold bind at 1, of_option. destruct (rollback_pretty _) as [s|] eqn:Hs; cbn [ret bail].
  2: { split; [done|]. left. split; [done|]. by apply text_after. }
  apply rollback_round_trip in Hs. unfold bind at 1, context at 1.
  pose proof (write_atomic_text pid rollback s d1 Hf1 Hor) as R2. destruct (write_atomic pid rollback s d1) as [r2 d2].
  destruct R2 as (I2 & _ & T2). assert (I02 : Within pid [config; rollback] d d2) by (eapply within_trans; [exact I1|exact I2|set_solver..]).
  assert (Hc2 : text_at d2 config = text_at d config) by (rewrite (within_text pid [rollback] d1 d2); [by apply text_after|done|set_solver|done]).
  destruct r2 as [u|e]; [|split; [done|left; by split]].
  unfold bind, context. pose proof (write_atomic_text pid config expected d2 (wi_fresh _ _ _ _ I2) Hoc) as R3.
  cbn [SourceRollback.expected_content]. destruct (write_atomic pid config expected d2) as [r3 d3]. destruct R3 as (I3 & _ & T3).
  assert (I03 : Within pid [config; rollback] d d3) by (eapply within_trans; [exact I02|exact I3|set_solver..]).
  assert (Hrec : Recorded d3 (ps_target_code command) (text_at d config) expected).
  { exists s. split; [|done]. rewrite (within_text pid [config] d2 d3); [done|done|set_solver|done]. }
  destruct r3 as [u3|e]; cbn [ret]; (split; [done|]); [right; exists expected; by split_and!|].
  rewrite Hc2 in T3. destruct T3 as [T3|T3]; [left; by split|right]. exists expected. by split_and!.
Qed.

Lemma set_refused (command : PlannedSourceCommand) (scope : CliSourceScope) (distribution : option string) (force : bool) (d : Disk) :
  may_replace (ps_target_code command) force (text_at d config) = false ->
  let '(r, d') := apply_source_set_at clear_fragment pid command scope config rollback distribution force d in
  is_ok r = false /\ forall q, text_at d' q = text_at d q.
Proof.
  intros Hm. unfold apply_source_set_at, bind at 1. destruct (prepare_quiet command scope distribution force d) as (A1 & P1 & _).
  destruct (prepare_source_set_at _ _ _ _ _ _ _ d) as [[r|e] d1]; cbn in *.
  - destruct (P1 r eq_refl) as (expected & _ & _ & Hmay & _). congruence.
  - split; [done|]. intros q. by apply text_after.
Qed.

(** GitHub's text is the old one with the entry at its end, Docker's the old
    object with its member [registry-mirrors] set. *)
Definition Extends (target_code repo_url text expected : string) : Prop :=
  (target_code = "github" /\ exists gap, (gap = nl \/ gap = nl +:+ nl) /\ expected = text +:+ gap +:+ github_entry repo_url) \/
  (target_code = "docker" /\ exists fields fields', json_from_str (str_trim text) = Some (Object fields) /\
     expected = json_pretty (Object fields') +:+ nl /\
     forall key, key <> "registry-mirrors" -> btree_get key fields' = btree_get key fields).

Lemma content_extends (command : PlannedSourceCommand) (scope : CliSourceScope) (distribution : option string) (text expected : string) :
  set_content clear_fragment command scope distribution (Some text) = Ok expected -> str_trim text <> "" ->
  may_replace (ps_target_code command) false (Some text) = true -> Extends (ps_target_code command) (ps_repo_url command) text expected.
Proof.
  intros Hc Ht Hm. unfold may_replace in Hm. rewrite orb_false_r in Hm. assert (He : str_is_empty (str_trim text) = false) by by destruct (str_trim text).
  rewrite He in Hm. cbn [orb] in Hm. unfold set_content in Hc. destruct (String.eqb_spec (ps_target_code command) "github") as [Hg|Hg].
  - left. split; [done|]. case_bool_decide; [|done]. unfold github_config_content in Hc.
    destruct (url_parse (ps_repo_url command)) as [url|]; [|done]. cbn [result_of_option result_bind] in Hc. case_match; [done|]. injection Hc as <-.
    assert (Hn : str_is_empty text = false) by by destruct text. cbn [default]. unfold default, id. rewrite Hn.
    destruct (ends_with nl text); [exists nl; split; [by left|by rewrite <-str_app_assoc]|].
    exists (nl +:+ nl). split; [by right|]. by rewrite <-!str_app_assoc.
  - right. destruct (String.eqb_spec (ps_target_code command) "docker") as [Hd|Hd].
    + split; [done|]. case_bool_decide; [|done]. unfold docker_config_content in Hc. cbn [fmap option_fmap option_map] in Hc. rewrite He in Hc.
      destruct (json_from_str (str_trim text)) as [v|] eqn:Hj; [|done]. cbn [result_of_option result_bind] in Hc. destruct v as [| | | | |fields]; try done.
      destruct (docker_registry_mirror_url _ _) as [mirror|]; [|done]. injection Hc as <-. eexists fields, _. split_and!; [done|done|].
      intros key Hk. by apply btree_get_insert_ne.
    + unfold one_of in Hm. apply existsb_exists in Hm as (x & Hx & Hxe%String.eqb_eq). cbn in Hx. destruct Hx as [<-|[<-|[]]]; congruence.
Qed.

(** C28: Setting a source never loses the user's file, whatever call of the
    file system fails. Only the configuration and the record change; unless
    the configuration is as before, the record is saved with its old text, and
    the configuration holds the new text or was moved aside unchanged. Without
    [--force] a configuration that holds more than white space is left alone,
    and so is every other file, except for two targets that extend it: GitHub's
    keeps the whole text in front of its entry; Docker's must be an object and
    keeps every member but [registry-mirrors], which is overwritten. *)
Theorem source_set_recoverable (command : PlannedSourceCommand) (scope : CliSourceScope) (distribution : option string)
    (force : bool) (d : Disk) :
  fresh pid d -> ordinary pid config -> ordinary pid rollback -> config <> rollback ->
  let '(r, d') := apply_source_set_at clear_fragment pid command scope config rollback distribution force d in
  (forall q, ordinary pid q -> q <> config -> q <> rollback -> text_at d' q = text_at d q) /\
  ((is_ok r = false /\ text_at d' config = text_at d config) \/
   exists expected, Recorded d' (ps_target_code command) (text_at d config) expected /\
     set_content clear_fragment command scope distribution (text_at d config) = Ok expected /\
     (forall text, text_at d config = Some text -> str_trim text <> "" -> force = false ->
        Extends (ps_target_code command) (ps_repo_url command) text expected) /\
     match r with
     | Ok _ => text_at d' config = Some expected
     | Err _ => text_at d' config = Some expected \/ Aside pid d' config (text_at d config)
     end) /\
  (forall text, text_at d config = Some text -> str_trim text <> "" -> force = false ->
     ps_target_code command <> "github" -> ps_target_code command <> "docker" ->
     is_ok r = false /\ forall q, text_at d' q = text_at d q).
Proof.
  intros Hf Hoc Hor Hne. pose proof (set_outcome command scope distribution force d Hf Hoc Hor Hne) as Ho.
  pose proof (set_refused command scope distribution force d) as Hrefused.
  destruct (apply_source_set_at _ _ _ _ _ _ _ _ d) as [r d']. destruct Ho as [I1 Ho]. split_and!.
  - intros q Hq Hc Hr. apply (within_text pid [config; rollback]); [done|set_solver|done].
  - destruct Ho as [Ho|(expected & Hrec & Hset & Hmay & Hr)]; [by left|right]. exists expected. split_and!; try done.
    intros text Htext Ht ->. rewrite Htext in Hset, Hmay. by eapply content_extends.
  - intros text Htext Ht -> Hg Hd. apply Hrefused. rewrite Htext. unfold may_replace. rewrite orb_false_r.
    assert (str_is_empty (str_trim text) = false) as -> by by destruct (str_trim text). apply String.eqb_neq in Hg, Hd.
    unfold one_of. cbn [existsb]. rewrite !(String.eqb_sym (ps_target_code command)) in *. by rewrite ?Hg, ?Hd.
Qed.

(** Resetting a source that is recorded. *)
Section Reset.
Variables (target_code : string) (original : option string) (expected : string) (force : bool) (d : Disk).
Hypothesis Hf : fresh pid d.
Hypothesis Hoc : ordinary pid config.
Hypothesis Hor : ordinary pid rollback.
Hypothesis Hne : config <> rollback.
Hypothesis Hrec : Recorded d target_code original expected.

(** It should succeed when the system lets it. *)
Definition Resettable : Prop :=
  links d = ∅ /\ has_parent config = true /\ (text_at d config = original \/ text_at d config = Some expected \/ force = true).

Definition ResetDone (r : result string string) (d' : Disk) : Prop :=
  Within pid [config; rollback] d d' /\
  match r with
  | Ok _ => text_at d' config = original /\ text_at d' rollback = None
  | Err _ =>
      Recorded d' target_code original expected /\
      (text_at d' config = text_at d config \/ text_at d' config = original \/ Aside pid d' config (text_at d config))
  end /\
  (text_at d config <> original -> text_at d config <> Some expected -> force = false ->
   is_ok r = false /\ forall q, text_at d' q = text_at d q) /\
  (Resettable -> tape d = [] -> is_ok r = true).

Lemma recorded_kept (d' : Disk) : text_at d' rollback = text_at d rollback -> Recorded d' target_code original expected.
Proof. intros Ht. destruct Hrec as (s & Hs & Hr). exists s. by rewrite Ht. Qed.

Lemma reset_refused (e : string) (d' : Disk) : After [] d d' -> (Resettable -> tape d = [] -> False) -> ResetDone (Err e) d'.
Proof.
  intros Ha Hw. split_and!.
  - by apply within_look.
  - by apply recorded_kept, text_after.
  - left. by apply text_after.
  - intros _ _ _. split; [done|]. intros q. by apply text_after.
  - intros Hr Hq. by destruct (Hw Hr Hq).
Qed.

(** Removing the record, after the configuration is restored. *)
Lemma remove_record (message : string) (d1 : Disk) :
  Within pid [config; rollback] d d1 -> text_at d1 config = original -> text_at d1 rollback = text_at d rollback ->
  (text_at d config = original \/ text_at d config = Some expected \/ force = true) -> (Resettable -> tape d = [] -> tape d1 = []) ->
  ResetDone ((do? _ := context message (remove_file rollback) in ret config) d1).1 ((do? _ := context message (remove_file rollback) in ret config) d1).2.
Proof.
  intros I1 Hc Hr Hok Hw. assert (Hex : is_Some (nodes d1 !! rollback)).
  { destruct Hrec as (s & Hs & _). rewrite <-Hr in Hs. unfold text_at in Hs. destruct (nodes d1 !! rollback); [by eexists|done]. }
  pose proof (remove_file_text pid rollback d1 (wi_fresh _ _ _ _ I1) Hor Hex) as Hrm. apply bind_cases. unfold context.
  destruct (remove_file rollback d1) as [r d']. destruct Hrm as (I2 & W2 & T2).
  assert (I : Within pid [config; rollback] d d') by (eapply within_trans; [exact I1|exact I2|set_solver..]).
  assert (Hc' : text_at d' config = original) by (rewrite (within_text pid [rollback] d1 d'); [done|done|set_solver|done]).
  destruct r as [u|e]; cbn [ret]; split_and!; try done.
  - intros ? ? ?. destruct Hok as [?|[?|?]]; congruence.
  - apply recorded_kept. congruence.
  - right. by left.
  - intros ? ? ?. destruct Hok as [?|[?|?]]; congruence.
  - intros Hw' Hq. by destruct (W2 (Hw Hw' Hq)).
Qed.

Lemma reset_outcome : ResetDone (apply_source_reset_at pid target_code config rollback force d).1
  (apply_source_reset_at pid target_code config rollback force d).2.
Proof.
  unfold apply_source_reset_at. destruct Hrec as (s & Hs & Hparse).
  eapply (quiet_step Resettable); [apply quiet_reject_symlink; by intros [? _]|apply reset_refused|]. intros _ d1 A1 _ W1.
  assert (Hn : forall d', After [] d d' -> forall e d'', After [] d' d'' -> (Resettable -> tape d = [] -> tape d' = []) ->
    (Resettable -> tape d' = [] -> False) -> ResetDone (Err e) d'').
  { intros d' Ha e d'' Hb Hw Hw'. apply reset_refused; [by eapply after_trans|]. intros Hr Hq. by apply (Hw' Hr), Hw. }
  eapply (quiet_step Resettable); [apply quiet_context, quiet_read_to_string; intros _; rewrite (text_after d d1) by done; by exists s
    |intros; by eapply Hn|].
  intros raw d2 A2 Hraw W2. rewrite (text_after d d1) in Hraw by done. assert (raw = s) as -> by congruence.
  assert (A02 : After [] d d2) by by eapply after_trans.
  eapply (quiet_step Resettable); [by apply quiet_of_option|intros; eapply (Hn d2); eauto|].
  intros record d3 A3 Hrecord W3. rewrite Hparse in Hrecord. injection Hrecord as <-. cbn [SourceRollback.target_code SourceRollback.config_path SourceRollback.original_content SourceRollback.expected_content].
  assert (A03 : After [] d d3) by by eapply after_trans.
  eapply (quiet_step Resettable); [apply quiet_ensure; intros _; apply String.eqb_refl|intros; eapply (Hn d3); eauto 6|]. intros ? d4 A4 _ W4.
  assert (A04 : After [] d d4) by by eapply after_trans.
  eapply (quiet_step Resettable); [apply quiet_ensure; intros _; apply String.eqb_refl|intros; eapply (Hn d4); eauto 7|]. intros ? d5 A5 _ W5.
  assert (A05 : After [] d d5) by by eapply after_trans.
  eapply (quiet_step Resettable); [apply quiet_reject_symlink; intros [Hl _]; by rewrite (af_links _ _ _ A05)|intros; eapply (Hn d5); eauto 8|].
  intros _ d6 A6 _ W6. assert (A06 : After [] d d6) by by eapply after_trans.
  eapply (quiet_step Resettable); [apply quiet_read_optional|intros; eapply (Hn d6); eauto 9|]. intros current d7 A7 -> W7.
  rewrite (text_after d d6) by done. assert (A07 : After [] d d7) by by eapply after_trans.
  assert (W07 : Resettable -> tape d = [] -> tape d7 = []) by eauto 9.
  assert (I7 : Within pid [config; rollback] d d7)
    by by by apply within_look.
  case_bool_decide as Hsame.
  { apply remove_record; [done|by rewrite (text_after d d7)|by apply text_after|by left|done]. }
  eapply (quiet_step Resettable); [apply quiet_ensure; intros (_ & _ & [?|[Hx| ->]]);
    [done|by rewrite bool_decide_true|by rewrite orb_true_r]|intros; eapply (Hn d7); eauto|].
  intros ? d8 A8 Hok W8. assert (A08 : After [] d d8) by by eapply after_trans.
  assert (Hok' : text_at d config = original \/ text_at d config = Some expected \/ force = true).
  { apply orb_prop in Hok as [Hok|Hok]; [apply bool_decide_eq_true in Hok|]; tauto. }
  assert (I8 : Within pid [config; rollback] d d8)
    by by by apply within_look.
  apply bind_cases. pose proof (restore_original_text pid config original d8 (wi_fresh _ _ _ _ I8) Hoc) as R9. destruct (restore_original_file pid config original d8) as [[u|e] d9]; destruct R9 as (I9 & W9 & T9).
  - assert (I09 : Within pid [config; rollback] d d9) by (eapply within_trans; [exact I8|exact I9|set_solver..]).
    assert (Hr9 : text_at d9 rollback = text_at d rollback) by (rewrite (within_text pid [config] d8 d9); [by apply text_after|done|set_solver|done]).
    apply remove_record; [done..|]. intros Hw Hq. destruct Hw as (Hl & Hp & Hx).
    apply W9; [done|]. apply W8; [by split_and!|]. by apply W07; [split_and!|].
  - rewrite (text_after d d8) in T9 by done. split_and!.
    + eapply within_trans; [exact I8|exact I9|set_solver..].
    + apply recorded_kept. rewrite (within_text pid [config] d8 d9); [by apply text_after|done|set_solver|done].
    + tauto.
    + intros Hx1 Hx2 Hx3. destruct Hok' as [?|[?|?]]; congruence.
    + intros (Hl & Hp & Hx) Hq. destruct (W9 Hp) as [Hbad _]; [|done]. apply W8; [by split_and!|]. by apply W07; [split_and!|].
Qed.
End Reset.

(** C29: A source that was set can be reset, also when setting it was
    interrupted after the configuration changed. A reset that succeeds puts the
    configuration back to its text before and removes the record; no other file
    changes; when the configuration was edited since, it refuses and changes
    nothing; and when it was not and the system reports no error, it succeeds. *)
Theorem source_set_undone (command : PlannedSourceCommand) (scope : CliSourceScope) (distribution : option string) (force : bool)
    (d d1 d2 : Disk) (r1 : result (string * string) string) :
  fresh pid d -> ordinary pid config -> ordinary pid rollback -> config <> rollback ->
  apply_source_set_at clear_fragment pid command scope config rollback distribution force d = (r1, d1) ->
  is_ok r1 = true \/ text_at d1 config <> text_at d config ->
  fresh pid d2 -> text_at d2 rollback = text_at d1 rollback ->
  let '(r, d3) := apply_source_reset_at pid (ps_target_code command) config rollback false d2 in
  (forall q, ordinary pid q -> q <> config -> q <> rollback -> text_at d3 q = text_at d2 q) /\
  (is_ok r = true -> text_at d3 config = text_at d config /\ text_at d3 rollback = None) /\
  (forall expected, set_content clear_fragment command scope distribution (text_at d config) = Ok expected ->
   text_at d2 config <> text_at d config -> text_at d2 config <> Some expected ->
   is_ok r = false /\ forall q, text_at d3 q = text_at d2 q) /\
  (tape d2 = [] -> links d2 = ∅ -> has_parent config = true -> is_ok r1 = true -> text_at d2 config = text_at d1 config -> is_ok r = true).
Proof.
  intros Hf Hoc Hor Hne Ha Hset Hf2 Hr2. pose proof (set_outcome command scope distribution force d Hf Hoc Hor Hne) as Ho.
  rewrite Ha in Ho. destruct Ho as [_ [[Hbad1 Hbad2]|(expected & Hrec & Hcontent & _ & Hc)]]; [by destruct Hset; [rewrite Hbad1 in *|]|].
  assert (Hrec2 : Recorded d2 (ps_target_code command) (text_at d config) expected).
  { destruct Hrec as (s & Hs & Hp). exists s. by rewrite Hr2. }
  pose proof (reset_outcome (ps_target_code command) (text_at d config) expected false d2 Hf2 Hoc Hor Hne Hrec2) as Hr.
  destruct (apply_source_reset_at _ _ _ _ _ d2) as [r d3]. cbn in Hr. destruct Hr as (I3 & T3 & E3 & W3). split_and!.
  - intros q Hq Hqc Hqr. apply (within_text pid [config; rollback]); [done|set_solver|done].
  - by destruct r.
  - intros e He H1' H2'. apply E3; [done| |done]. congruence.
  - intros Hq Hl Hp Hok Ht. apply W3; [|done]. split_and!; [done|done|]. right; left. rewrite Ht. by destruct r1.
Qed.
End Sources.

(** ** The catalogue *)

(** Setting Rocky Linux sets Fedora's repositories. *)
Lemma rocky_gets_fedora `{UrlApi} :
  (t_code <$> find_target "rocky") = Some "dnf" /\ (t_code <$> find_target "alma") = Some "dnf" /\
  (t_code <$> find_target "manjaro") = Some "pacman".
Proof. by vm_compute. Qed.

(** ** Concrete runs *)

Module Example.
#[export] Instance Rollback_eq_dec : EqDecision SourceRollback.t.
Proof. solve_decision. Defined.

#[export] Instance Rollback_countable : Countable SourceRollback.t.
Proof.
  refine (inj_countable' (fun r => (SourceRollback.target_code r, SourceRollback.config_path r, SourceRollback.original_content r, SourceRollback.expected_content r))
    (fun '(t, c, o, e) => {| SourceRollback.target_code := t; SourceRollback.config_path := c; SourceRollback.original_content := o; SourceRollback.expected_content := e |}) _).
  by intros [].
Defined.

Definition to_text (r : SourceRollback.t) : string := SetupSpec.Example.bits (encode r).
Definition of_text (s : string) : option SourceRollback.t := SetupSpec.Example.of_bits s ≫= decode.

Lemma of_text_to_text (r : SourceRollback.t) : of_text (to_text r) = Some r.
Proof.
  unfold of_text, to_text. rewrite <-(str_app_nil_r (SetupSpec.Example.bits (encode r))), SetupSpec.Example.of_bits_bits.
  cbn [mbind option_bind]. apply decode_encode.
Qed.

#[local] Instance codec : RollbackCodec := {| rollback_pretty r := Some (to_text r); rollback_from_str := of_text |}.

#[local] Instance codec_laws : RollbackLaws.
Proof. constructor. intros r s [= <-]. apply of_text_to_text. Qed.

#[local] Instance json : SetupApi := SetupSpec.Example.setup_api.

Definition config : string := "/h/.npmrc".
Definition rollback : string := "/h/.local/state/mirrorproxy/sources/npm.json".

Definition npm : PlannedSourceCommand :=
  {| ps_target_code := "npm"; ps_provider_code := "mirrorproxy"; ps_repo_url := "https://m/npm/"; ps_command := "" |}.

Definition disk : Disk := {|
  nodes := {[ config := {| Node.text := "a=b"; Node.mode := 420 |} ]}; links := ∅; tape := []; sequence := 0 |}.

Definition set (d : Disk) : result (string * string) string * Disk :=
  apply_source_set_at (fun u : Url => u) 7 npm ScopeUser config rollback None true d.

Lemma disk_fresh : fresh 7 disk.
Proof. apply SetupSpec.Example.fresh_when_ordinary, (bool_decide_unpack _). by vm_compute. Qed.

(** The file was readable by all; after a reset only its owner can read it. *)
Lemma permissions_lost :
  Node.mode <$> nodes disk !! config = Some 420 /\ Node.mode <$> nodes (set disk).2 !! config = Some 384 /\
  Node.mode <$> nodes (apply_source_reset_at 7 "npm" config rollback false (set disk).2).2 !! config = Some 384.
Proof. by vm_compute. Qed.

(** With [--force] the record keeps the old text; without, nothing happens. *)
Lemma source_set_recoverable_witness :
  (exists expected, Recorded config rollback (set disk).2 "npm" (Some "a=b") expected) /\
  is_ok (apply_source_set_at (fun u : Url => u) 7 npm ScopeUser config rollback None false disk).1 = false.
Proof.
  assert (Hr : (set disk).1 = Ok (config, rollback)) by by vm_compute.
  pose proof (fun force => source_set_recoverable (fun u : Url => u) 7 config rollback npm ScopeUser None force disk disk_fresh
    ltac:(by apply ordinary_path) ltac:(by apply ordinary_path) ltac:(done)) as Hs. split.
  - specialize (Hs true). revert Hs Hr. unfold set. destruct (apply_source_set_at _ _ _ _ _ _ _ _ _) as [r d']. cbn [fst snd].
    intros (_ & [[Hbad _]|(expected & Hrec & _)] & _) ->; [done|]. exists expected. exact Hrec.
  - specialize (Hs false). destruct (apply_source_set_at _ _ _ _ _ _ _ _ _) as [r d']. cbn [fst].
    destruct Hs as (_ & _ & Hs). by apply (Hs "a=b").
Defined.

Lemma source_set_undone_witness :
  text_at (apply_source_reset_at 7 "npm" config rollback false (set disk).2).2 config = Some "a=b".
Proof.
  assert (Hf2 : fresh 7 (set disk).2) by (apply SetupSpec.Example.fresh_when_ordinary, (bool_decide_unpack _); by vm_compute).
  assert (Hok1 : is_ok (set disk).1 = true) by by vm_compute.
  pose proof (fun H1 H2 H3 Ha => source_set_undone (fun u : Url => u) 7 config rollback npm ScopeUser None true disk (set disk).2 (set disk).2 (set disk).1
    disk_fresh H1 H2 H3 Ha (or_introl Hok1) Hf2 eq_refl) as Hu.
  specialize (Hu ltac:(by apply ordinary_path) ltac:(by apply ordinary_path) ltac:(done) (surjective_pairing _)).
  assert (Hok : is_ok (apply_source_reset_at 7 "npm" config rollback false (set disk).2).1 = true) by by vm_compute.
  change (ps_target_code npm) with "npm" in Hu. destruct (apply_source_reset_at 7 "npm" config rollback false (set disk).2) as [r d3].
  destruct Hu as (_ & Hu & _). cbn in Hok |- *. destruct (Hu Hok) as [Ht _]. rewrite Ht. by vm_compute.
Defined.
End Example.
