(* ===== verification/SystemPlan.v ===== *)
(** * Migrating the sources of a system

    [crates/client/src/apt.rs] and [system.rs]: which files a migration
    rewrites, the manifest it keeps, applying it and resetting it, detecting
    the distribution, and planning the migration of a system, of APT, of
    EPEL, of Docker CE and of Gentoo's repository.  [ClientFiles] is the file
    system; paths of the disk are absolute, a path under the root is relative.
    The printer of the manifest is third-party code. *)
From stdpp Require Import gmap.
From S2P Require Import Prelude RustStr Lines Url Fs Json Systems ClientFiles Setup Catalog SystemRewrite ClientSources.
Open Scope string_scope.
Open Scope Z_scope.
Open Scope list_scope.
Open Scope mirror_scope.
Open Scope act_scope.

(** ** Paths *)

(** [Path::components] without the root and the leading dot. *)
Definition components (path : string) : list string :=
  List.filter (fun c => negb (str_is_empty c || (c =? ".")%string)) (str_split "/" path).

Definition is_absolute (path : string) : bool := starts_with "/" path.

Definition leading_dot (path : string) : bool := (path =? ".")%string || starts_with "./" path.

(** The names of a path all of whose components are [Component::Normal]. *)
Definition normal_components (path : string) : option (list string) :=
  if is_absolute path || leading_dot path || existsb (String.eqb "..") (components path) then None
  else Some (components path).

(** The spelling all equal paths share. *)
Definition spelling (path : string) : string :=
  (if is_absolute path then "/" else "") +:+ str_join "/" (components path).

Definition same_path (a b : string) : bool :=
  bool_decide (is_absolute a = is_absolute b) && bool_decide (leading_dot a = leading_dot b)
  && bool_decide (components a = components b).

(** [root.join(path)]. *)
Definition at_root (root path : string) : string :=
  if is_absolute path then spelling path else path_join root (spelling path).

(** [Path::file_name] and the directory before it. *)
Definition file_name (path : string) : string := List.last (components path) "".

(** [Ord] of paths, component by component. *)
Fixpoint components_leb (a b : list string) : bool :=
  match a, b with
  | [], _ => true
  | _ :: _, [] => false
  | x :: a, y :: b => if (x =? y)%string then components_leb a b else String.leb x y
  end.

Definition sort_paths : list string -> list string := sort_by (fun a b => components_leb (components a) (components b)).

(** ** Looking at the disk *)

Definition look {A} (f : Disk -> A) : act A := fun d => (Ok (f d), d).

(** The entry of [dir] that leads to [path]. *)
Definition below (dir path : string) : option string :=
  rest ← strip_prefix (path_join dir "") path;
  entry ← head (str_split "/" rest);
  if str_is_empty entry then None else Some entry.

Definition children (dir : string) (d : Disk) : list string :=
  remove_dups (omap (below dir) ((map_to_list (nodes d)).*1 ++ (map_to_list (links d)).*1)).

(** [Path::exists] of a directory; an empty one is not told from a missing
    one. *)
Definition dir_exists (dir : string) (d : Disk) : bool := exists_at dir d || bool_decide (children dir d <> []).

Definition read_entries (dir : string) : act (list string) := call (fun d =>
  if exists_at dir d then (Err "not a directory", d) else (Ok (children dir d), d)).

Definition absolute (names : list string) : string := "/" +:+ str_join "/" names.

(** Following symbolic links, at most [budget] of them. *)
Fixpoint resolve (budget : nat) (d : Disk) : list string -> list string -> option (list string) :=
  fix go (found todo : list string) {struct todo} : option (list string) :=
    match todo with
    | [] => Some found
    | name :: rest =>
        if (name =? "..")%string then (if exists_at (absolute found) d then None else go (removelast found) rest)
        else
          let here := found ++ [name] in
          match links d !! absolute here with
          | Some target =>
              match budget with
              | O => None
              | S budget => resolve budget d (if is_absolute target then [] else found) (components target ++ rest)
              end
          | None => if dir_exists (absolute here) d then go here rest else None
          end
    end.

(** [MAXSYMLINKS] of Linux. *)
Definition MAX_LINKS : nat := 40.

Definition resolved_path (path : string) (d : Disk) : option (list string) := resolve MAX_LINKS d [] (components path).

(** [Path::canonicalize]. *)
Definition canonicalize (path : string) : act string := call (fun d => (result_of_option (absolute <$> resolved_path path d) not_found, d)).

(** [Path::is_file] and [Path::exists], through links. *)
Definition is_file (path : string) (d : Disk) : bool :=
  match resolved_path path d with Some names => exists_at (absolute names) d | None => false end.

Definition exists_through (path : string) (d : Disk) : bool := bool_decide (is_Some (resolved_path path d)).

(** [Path::starts_with]. *)
Definition path_starts_with (path root : string) : bool :=
  bool_decide (take (length (components root)) (components path) = components root).

(** ** The manifest *)

Module AptFile.
Record t : Type := {
  (** relative to the root *)
  path : string;
  original : string;
  expected : string;
  unix_mode : option Z;
  was_missing : bool;
}.
End AptFile.

Module AptPlan.
Record t : Type := {
  version : Z;
  target_code : string;
  apt_files : list AptFile.t;
  system_profile : option string;
  system_operation : option string;
}.
End AptPlan.

(** What [Deserialize] of a struct finds in a value: the fields of an object,
    or the elements of an array in the order of the fields. *)
Definition struct_fields (names : list string) (v : Value) : option (string -> option Value) :=
  match v with
  | Object fields => Some (fun key => snd <$> find_first (fun f => (f.1 =? key)%string) fields)
  | Array items =>
      if (length items <=? length names)%nat
      then Some (fun key => snd <$> find_first (fun f => (f.1 =? key)%string) (combine names items))
      else None
  | _ => None
  end.

Definition u32_of (v : Value) : option Z :=
  match v with Number t => if all_bytes is_digit t then parse_uint U32_MAX t else None | _ => None end.

Definition bool_of (v : Value) : option bool := match v with Bool b => Some b | _ => None end.

(** An [Option] with [serde(default)]. *)
Definition optional {A} (read : Value -> option A) (v : option Value) : option (option A) :=
  match v with None | Some Null => Some None | Some v => Some <$> read v end.

Definition file_of_value (v : Value) : option AptFile.t :=
  field ← struct_fields ["path"; "original"; "expected"; "unix_mode"; "was_missing"] v;
  path ← field "path" ≫= as_str;
  original ← field "original" ≫= as_str;
  expected ← field "expected" ≫= as_str;
  unix_mode ← optional u32_of (field "unix_mode");
  was_missing ← match field "was_missing" with None => Some false | Some v => bool_of v end;
  Some {| AptFile.path := path; AptFile.original := original; AptFile.expected := expected;
          AptFile.unix_mode := unix_mode; AptFile.was_missing := was_missing |}.

Definition plan_of_value (v : Value) : option AptPlan.t :=
  field ← struct_fields ["version"; "target_code"; "apt_files"; "system_profile"; "system_operation"] v;
  version ← field "version" ≫= u32_of;
  target_code ← field "target_code" ≫= as_str;
  items ← match field "apt_files" with Some (Array items) => Some items | _ => None end;
  apt_files ← mapM file_of_value items;
  system_profile ← optional as_str (field "system_profile");
  system_operation ← optional as_str (field "system_operation");
  Some {| AptPlan.version := version; AptPlan.target_code := target_code; AptPlan.apt_files := apt_files;
          AptPlan.system_profile := system_profile; AptPlan.system_operation := system_operation |}.

Definition opt_value {A} (to : A -> Value) (o : option A) : Value := match o with Some a => to a | None => Null end.

Definition value_of_file (f : AptFile.t) : Value := Object [
  ("path", Str (AptFile.path f)); ("original", Str (AptFile.original f)); ("expected", Str (AptFile.expected f));
  ("unix_mode", opt_value (fun m => Number (show_uint m)) (AptFile.unix_mode f)); ("was_missing", Bool (AptFile.was_missing f))].

Definition value_of_plan (p : AptPlan.t) : Value := Object ([
  ("version", Number (show_uint (AptPlan.version p))); ("target_code", Str (AptPlan.target_code p));
  ("apt_files", Array (value_of_file <$> AptPlan.apt_files p)); ("system_profile", opt_value Str (AptPlan.system_profile p))]
  ++ match AptPlan.system_operation p with Some operation => [("system_operation", Str operation)] | None => [] end).

(** [serde_json::to_string_pretty] of a plan: a text that reads back as its
    fields. *)
Class PlanPrinter : Type := { plan_pretty : AptPlan.t -> option string }.

Class PlanLaws `{SetupApi} `{PlanPrinter} : Prop := {
  plan_reads_back p s : plan_pretty p = Some s -> json_from_str s = Some (value_of_plan p);
}.

(** ** Which files a manifest may name *)

Definition direct_child (names : list string) (directory extension : string) : bool :=
  bool_decide (names <> []) && bool_decide (removelast names = components directory)
  && bool_decide ((split_extension (List.last names "")).2 = Some extension).

(** APT manifests. *)
Definition validate_path (path : string) : bool :=
  match normal_components path with
  | Some names =>
      bool_decide (names = ["etc"; "apt"; "sources.list"])
      || direct_child names "etc/apt/sources.list.d" "list" || direct_child names "etc/apt/sources.list.d" "sources"
  | None => false
  end.

Definition rpm_directory (profile : SystemDistribution) : string :=
  if (d_code profile =? "opensuse")%string then "etc/zypp/repos.d" else "etc/yum.repos.d".

(** The files of a profile. *)
Definition allowed (profile : SystemDistribution) (path : string) (names : list string) : bool :=
  let at_path file := bool_decide (names = components file) in
  match d_format profile with
  | Apt => at_path "etc/apt/sources.list" || direct_child names "etc/apt/sources.list.d" "list"
           || direct_child names "etc/apt/sources.list.d" "sources"
  | Rpm => direct_child names (rpm_directory profile) "repo"
  | Pacman => at_path "etc/pacman.d/mirrorlist"
              || ((d_code profile =? "endeavouros")%string && at_path "etc/pacman.d/endeavouros-mirrorlist")
  | Apk => at_path "etc/apk/repositories"
  | Gentoo => at_path "etc/portage/make.conf" || direct_child names "etc/portage/repos.conf" "conf"
  | Nix => one_of ["etc/nixos/mirrorproxy.nix"; "root/.nix-channels"] path
  | Xbps => direct_child names "etc/xbps.d" "conf"
  end.

Definition validate_profile_path (code path : string) : result unit string :=
  match normal_components path, system_distribution code with
  | None, _ => Err "invalid system rollback path"
  | Some _, None => Err "unknown rollback profile"
  | Some names, Some profile =>
      if allowed profile path names then Ok tt
      else Err (path +:+ " is outside the " +:+ d_name profile +:+ " configuration allowlist")
  end.

(** [mode & !0o777 == 0]. *)
Definition plain_mode (mode : option Z) : bool := match mode with Some m => Z.ldiff m 511 =? 0 | None => true end.

(** [<root>/var/lib/mirrorproxy/sources/<target>.json]. *)
Definition root_from_rollback (rollback : string) : result string string :=
  result_of_option (ancestors rollback !! 5%nat) "invalid APT rollback location".

Section Plan.
Variable pid : Z.

(** ** Applying and resetting *)

Fixpoint planned_files (root : string) (files : list (string * string)) : act (list AptFile.t) :=
  match files with
  | [] => ret []
  | (path, expected) :: rest =>
      do? _ := reject_symlink (at_root root path) in
      do? original := read_optional_file (at_root root path) in
      if bool_decide (original = Some expected) then planned_files root rest
      else
        do? unix_mode := (match original with
                          | Some _ => do? n := metadata (at_root root path) in ret (Z.land (Node.mode n) 511)
                          | None => ret 420
                          end) in
        do? files := planned_files root rest in
        ret ({| AptFile.path := path; AptFile.original := default "" original; AptFile.expected := expected;
                AptFile.unix_mode := Some unix_mode; AptFile.was_missing := bool_decide (original = None) |} :: files)
  end.

(** [AptPlan::system]. *)
Definition system_plan (profile root : string) (files : list (string * string)) : act AptPlan.t :=
  do? apt_files := planned_files root files in
  do? _ := ensure (negb (bool_decide (apt_files = []))) "no supported system repository changes found; no files changed" in
  ret {| AptPlan.version := 1; AptPlan.target_code := "system"; AptPlan.apt_files := apt_files;
         AptPlan.system_profile := Some profile; AptPlan.system_operation := None |}.

Definition with_operation (operation : string) (self : AptPlan.t) : AptPlan.t :=
  if one_of ["epel"; "docker-ce"; "gentoo-sync"] operation then
    {| AptPlan.version := AptPlan.version self; AptPlan.target_code := AptPlan.target_code self;
       AptPlan.apt_files := AptPlan.apt_files self; AptPlan.system_profile := AptPlan.system_profile self;
       AptPlan.system_operation := Some operation |}
  else self.

(** What was there before. *)
Definition before (file : AptFile.t) : option string :=
  if AptFile.was_missing file then None else Some (AptFile.original file).

Definition may_name (self : AptPlan.t) (file : AptFile.t) : result unit string :=
  match AptPlan.system_profile self with
  | Some profile => validate_profile_path profile (AptFile.path file)
  | None => if validate_path (AptFile.path file) then Ok tt else Err ("invalid APT rollback path " +:+ AptFile.path file)
  end.

Fixpoint validate_files (self : AptPlan.t) (root : string) (restoring force : bool) (seen : list string) (files : list AptFile.t) :
    act unit :=
  match files with
  | [] => ret tt
  | file :: rest =>
      do? _ := of_result (may_name self file) in
      do? _ := ensure (plain_mode (AptFile.unix_mode file)) "invalid file permissions" in
      do? _ := ensure (negb (bool_decide (spelling (AptFile.path file) ∈ seen))) "duplicate APT rollback path" in
      let path := at_root root (AptFile.path file) in
      do? _ := reject_symlink path in
      do? current := read_optional_file path in
      let unchanged := bool_decide (current = before file)
                       || (restoring && bool_decide (current = Some (AptFile.expected file))) in
      do? _ := ensure (unchanged || (restoring && force)) (path +:+ " changed; refusing to overwrite without --force") in
      validate_files self root restoring force (spelling (AptFile.path file) :: seen) rest
  end.

Definition well_formed (self : AptPlan.t) : bool :=
  (AptPlan.version self =? 1)
  && (((AptPlan.target_code self =? "apt")%string && bool_decide (AptPlan.system_profile self = None))
      || ((AptPlan.target_code self =? "system")%string && bool_decide (is_Some (AptPlan.system_profile self))))
  && negb (bool_decide (AptPlan.apt_files self = [])).

Definition validate (self : AptPlan.t) (root : string) (restoring force : bool) : act unit :=
  do? _ := ensure (well_formed self) "invalid APT rollback manifest" in
  validate_files self root restoring force [] (AptPlan.apt_files self).

(** [AptFile::write]. *)
Definition write (file : AptFile.t) (root content : string) : act unit :=
  let path := at_root root (AptFile.path file) in
  do? _ := reject_symlink path in
  do? _ := write_atomic pid path content in
  match AptFile.unix_mode file with
  | Some mode =>
      do? _ := ensure (plain_mode (Some mode)) "invalid file permissions" in
      set_permissions path mode
  | None => ret tt
  end.

Fixpoint each_file (f : AptFile.t -> act unit) (files : list AptFile.t) : act unit :=
  match files with
  | [] => ret tt
  | file :: rest => do? _ := f file in each_file f rest
  end.

Context `{SetupApi} `{PlanPrinter}.

Definition apply (self : AptPlan.t) (rollback : string) : act unit :=
  do? root := of_result (root_from_rollback rollback) in
  do? _ := reject_symlink rollback in
  do? _ := absent rollback "rollback already exists" in
  do? _ := validate self root false false in
  do? text := of_option (plan_pretty self) "unserializable" in
  do? _ := write_atomic pid rollback text in
  each_file (fun file =>
    context ("replacement incomplete; rollback retained at " +:+ rollback) (write file root (AptFile.expected file)))
    (AptPlan.apt_files self).

Definition restore (root : string) (file : AptFile.t) : act unit :=
  if AptFile.was_missing file then restore_original_file pid (at_root root (AptFile.path file)) None
  else write file root (AptFile.original file).

(** [false]: the record is not a manifest. *)
Definition reset_if_managed (target config rollback : string) (force dry_run : bool) : act bool :=
  do? _ := reject_symlink rollback in
  do? content := read_optional_file rollback in
  match content with
  | None => ret false
  | Some content =>
      do? value := of_option (json_from_str content) "invalid JSON" in
      if bool_decide (json_get value "apt_files" = None) then ret false
      else
        do? _ := ensure (one_of ["apt"; "system"] target) "APT rollback cannot restore another target" in
        do? root := of_result (root_from_rollback rollback) in
        do? expected := of_result (source_config_path target ScopeSystem root) in
        do? _ := ensure (same_path expected config) "APT rollback does not match system configuration root" in
        do? plan := of_option (plan_of_value value) "invalid manifest" in
        do? _ := ensure (AptPlan.target_code plan =? target)%string "rollback target does not match request" in
        do? _ := validate plan root true force in
        do? _ := each_file (fun file =>
                   if dry_run then do? _ := read_optional_file (at_root root (AptFile.path file)) in ret tt
                   else restore root file) (AptPlan.apt_files plan) in
        if dry_run then ret true else do? _ := remove_file rollback in ret true
  end.
End Plan.
