(* ===== verification/SystemPrepare.v ===== *)
(** * Planning a migration

    [crates/client/src/system.rs] and [apt.rs]: which distribution is there,
    which of its files exist, and the manifest of what they become; and the
    commands [set] and [reset] of [main.rs] that choose between a migration
    and a single source. *)
From stdpp Require Import gmap.
From S2P Require Import Prelude RustStr Lines Url Fs Json Systems ClientFiles Setup Catalog SystemRewrite ClientSources SystemPlan.
Open Scope string_scope.
Open Scope Z_scope.
Open Scope list_scope.
Open Scope mirror_scope.
Open Scope act_scope.

(** ** Which system it is *)

(** Through links, but not out of the root. *)
Definition read_identification (root path : string) : act string :=
  do? canonical := canonicalize path in
  do? real_root := canonicalize root in
  do? _ := ensure (path_starts_with canonical real_root) "OS identification escapes configuration root" in
  read_to_string canonical.

Definition safe_codename (codename : string) : bool :=
  negb (str_is_empty codename) && all_bytes (fun c => is_ascii_alphanumeric c || Ascii.eqb c "-") codename.

Definition detect_distribution (root : string) : act string :=
  do? content := context "cannot identify APT distribution; pass --distribution debian/<codename> or ubuntu/<codename>"
                   (read_identification root (path_join root "etc/os-release")) in
  let id := default "" (os_value content "ID") in
  do? _ := ensure (one_of ["debian"; "ubuntu"] id)
             "automatic APT detection supports Debian and Ubuntu only; specify --distribution explicitly" in
  let codename := default "" (os_value content "VERSION_CODENAME") in
  do? _ := ensure (safe_codename codename) "missing or invalid VERSION_CODENAME; specify --distribution explicitly" in
  ret (id +:+ "/" +:+ codename).

(** Derivatives that keep the ID of their parent. *)
Definition MARKERS : list (string * string) :=
  [("etc/armbian-release", "armbian"); ("etc/rpi-issue", "raspios"); ("etc/pve/.version", "proxmox")].

Definition FLAVOURS : list string :=
  ["ubuntukylin"; "kubuntu"; "lubuntu"; "xubuntu"; "ubuntu-mate"; "ubuntu-budgie"; "ubuntustudio"; "ubuntu-unity"; "edubuntu"].

(** The ID after the marker files and the name. *)
Definition derived_id (root id name : string) (d : Disk) : string :=
  let id := fold_left (fun id m => if is_file (path_join root m.1) d then m.2 else id) MARKERS id in
  let id := if (id =? "debian")%string && exists_through (path_join root "etc/apt/sources.list.d/pve-enterprise.sources") d
            then "proxmox" else id in
  if (id =? "centos")%string && contains_str "Stream" name then "centos-stream" else id.

Definition detect (root : string) : act SystemDistribution :=
  do? content := read_identification root (path_join root "etc/os-release") in
  let name := default "" (os_value content "NAME") in
  do? id := look (derived_id root (to_ascii_lowercase (default "" (os_value content "ID"))) name) in
  do? _ := ensure (negb (one_of FLAVOURS id)
                   || match os_value content "ID_LIKE" with
                      | Some v => existsb (one_of ["ubuntu"; "debian"]) (split_whitespace v)
                      | None => false
                      end) "Ubuntu flavour must declare an Ubuntu/Debian base" in
  let id := if one_of FLAVOURS id then "ubuntu" else id in
  do? mint := look (fun d => one_of ["ubuntu"; "debian"; "linuxmint"; "lmde"] id && is_file (path_join root "etc/linuxmint/info") d) in
  do? mint_info := (if mint then do? info := read_identification root (path_join root "etc/linuxmint/info") in ret (Some info)
                    else ret None) in
  let id := if mint then "linuxmint" else id in
  do? profile := of_option (system_distribution id) ("unsupported system ID '" +:+ id +:+ "'; run `mirrorproxy systems`") in
  let version :=
    default (default "" (os_value content "VERSION_CODENAME"))
      (or_else (mint_info ≫= fun info => os_value info "RELEASE") (os_value content "VERSION_ID")) in
  let name := default name (mint_info ≫= fun info => os_value info "DESCRIPTION") in
  do? _ := ensure (supports_version profile version name)
             ("unsupported " +:+ d_name profile +:+ " version '" +:+ version +:+ "'; supported: " +:+ d_versions profile) in
  ret profile.

(** ** Its files *)

Definition scan (root directory ext : string) : act (list string) :=
  do? _ := reject_symlink (path_join root directory) in
  do? there := look (dir_exists (path_join root directory)) in
  do? names := (if there then read_entries (path_join root directory) else ret []) in
  ret (sort_paths (path_join directory <$> List.filter (fun n => bool_decide ((split_extension n).2 = Some ext)) names)).

Definition paths (root : string) (profile : SystemDistribution) : act (list string) :=
  do? paths :=
    match d_format profile with
    | Apt =>
        do? lists := scan root "etc/apt/sources.list.d" "list" in
        do? sources := scan root "etc/apt/sources.list.d" "sources" in
        ret ("etc/apt/sources.list" :: lists ++ sources)
    | Rpm => scan root (rpm_directory profile) "repo"
    | Pacman =>
        ret ("etc/pacman.d/mirrorlist" ::
             (if (d_code profile =? "endeavouros")%string then ["etc/pacman.d/endeavouros-mirrorlist"] else []))
    | Apk => ret ["etc/apk/repositories"]
    | Gentoo => ret ["etc/portage/make.conf"]
    | Nix => ret ["etc/nixos/mirrorproxy.nix"; "root/.nix-channels"]
    | Xbps =>
        do? own := scan root "etc/xbps.d" "conf" in
        do? vendor := scan root "usr/share/xbps.d" "conf" in
        ret (fold_left (fun paths path =>
               let destination := path_join "etc/xbps.d" (file_name path) in
               if existsb (same_path destination) paths then paths else paths ++ [destination]) vendor own)
    end in
  ret (sort_paths paths).

Definition ensure_unmanaged (root : string) : act unit :=
  do? records := scan root "var/lib/mirrorproxy/sources" "json" in
  ensure (bool_decide (records = [])) "existing system rollback; reset that target before system migration".

(** ** APT alone *)

Section Prepare.
Context `{QueryApi}.

Fixpoint apt_files (root id repo_url : string) (paths : list string) : act (list AptFile.t) :=
  match paths with
  | [] => ret []
  | path :: rest =>
      do? _ := ensure (validate_path path) ("invalid APT rollback path " +:+ path) in
      let absolute := at_root root path in
      do? _ := reject_symlink absolute in
      do? original := read_optional_file absolute in
      match original with
      | None => apt_files root id repo_url rest
      | Some original =>
          do? expected := of_result (rewrite original (bool_decide (extension path = Some "sources")) id repo_url) in
          if (expected =? original)%string then apt_files root id repo_url rest
          else
            do? n := metadata absolute in
            do? files := apt_files root id repo_url rest in
            ret ({| AptFile.path := path; AptFile.original := original; AptFile.expected := expected;
                    AptFile.unix_mode := Some (Z.land (Node.mode n) 511); AptFile.was_missing := false |} :: files)
      end
  end.

(** [apt::prepare]. *)
Definition prepare_apt (command : PlannedSourceCommand) (root rollback : string) : act AptPlan.t :=
  do? _ := ensure_unmanaged root in
  do? _ := ensure (ps_provider_code command =? "mirrorproxy")%string "APT replacement currently requires --mirror mirrorproxy" in
  do? base := of_option (url_parse (ps_repo_url command)) "replacement requires --base-url" in
  do? _ := ensure (is_web base && bool_decide (is_Some (url_host_str base)) && no_credentials base
                   && bool_decide (url_query base = None) && bool_decide (url_fragment base = None))
             "repository URL must be an HTTP(S) URL without credentials, query or fragment" in
  do? _ := reject_symlink rollback in
  do? _ := absent rollback "an APT rollback already exists; run `mirrorproxy reset apt --scope system` first" in
  do? distribution := detect_distribution root in
  let id := hd "" (str_split "/" distribution) in
  let directory := path_join root "etc/apt/sources.list.d" in
  do? _ := reject_symlink directory in
  do? there := look (dir_exists directory) in
  do? names := (if there then read_entries directory else ret []) in
  let entries := List.filter (fun n => match (split_extension n).2 with Some ext => one_of ["list"; "sources"] ext | None => false end) names in
  do? files := apt_files root id (ps_repo_url command)
                 (sort_paths ("etc/apt/sources.list" :: (path_join "etc/apt/sources.list.d" <$> entries))) in
  do? _ := ensure (negb (bool_decide (files = []))) ("no supported official " +:+ id +:+ " repository URIs found; no files changed") in
  ret {| AptPlan.version := 1; AptPlan.target_code := "apt"; AptPlan.apt_files := files;
         AptPlan.system_profile := None; AptPlan.system_operation := None |}.

(** ** Gentoo's repository *)

Definition names_gentoo (content : string) : bool := existsb (fun line => (str_trim line =? "[gentoo]")%string) (str_lines content).

Fixpoint select_gentoo (root : string) (selected : option (string * string)) (sources : list string) : act (option (string * string)) :=
  match sources with
  | [] => ret selected
  | path :: rest =>
      do? _ := reject_symlink (at_root root path) in
      do? content := read_optional_file (at_root root path) in
      match content with
      | Some content =>
          if names_gentoo content then
            do? _ := ensure (bool_decide (selected = None)) "multiple gentoo repository definitions require manual review" in
            select_gentoo root (Some (path, content)) rest
          else select_gentoo root selected rest
      | None => select_gentoo root selected rest
      end
  end.

Definition prepare_gentoo_sync (root base : string) : act AptPlan.t :=
  let directory := path_join root "etc/portage/repos.conf" in
  do? _ := reject_symlink directory in
  do? file := look (exists_at directory) in
  do? _ := ensure (negb file) "repos.conf is a file; migrate it to a directory before configuring gentoo-sync" in
  do? sources := scan root "etc/portage/repos.conf" "conf" in
  do? selected := select_gentoo root None sources in
  do? selected := (match selected with
                   | Some _ => ret selected
                   | None =>
                       let vendor := "usr/share/portage/config/repos.conf" in
                       do? _ := reject_symlink (at_root root vendor) in
                       do? content := read_optional_file (at_root root vendor) in
                       ret (content ← content; if names_gentoo content then Some (vendor, content) else None)
                   end) in
  do? (path, original) := of_option selected "missing Gentoo repository definition" in
  let destination := if path_starts_with path "etc" then path else "etc/portage/repos.conf/gentoo.conf" in
  let output := sync_lines false (split_inclusive newline original) in
  do? _ := ensure (has_sync_key output) "Gentoo sync requires an existing official OpenPGP key configuration" in
  let make_path := "etc/portage/make.conf" in
  do? _ := reject_symlink (at_root root make_path) in
  do? make_conf := read_optional_file (at_root root make_path) in
  do? make_text := of_result (gentoo_config (default "" make_conf) base) in
  system_plan "gentoo" root [(destination, output); (make_path, make_text)].

(** ** Docker CE *)

Definition DOCKER_KEYS : list string := ["etc/apt/keyrings/docker.asc"; "etc/apt/keyrings/docker.gpg"].

Definition docker_ce_source (root : string) (profile : SystemDistribution) (release base : string) : act (string * string) :=
  if bool_decide (d_format profile = Apt) then
    let codename := default "" (or_else (os_value release "UBUNTU_CODENAME") (os_value release "VERSION_CODENAME")) in
    do? _ := ensure (safe_codename codename) "Docker CE setup requires a valid distribution codename" in
    do? key := look (fun d => find_first (fun path => is_file (path_join root path) d) DOCKER_KEYS) in
    do? key := of_option key "install Docker's official public key at /etc/apt/keyrings/docker.asc before initial source setup" in
    do? _ := reject_symlink (path_join root key) in
    let path := "etc/apt/sources.list.d/mirrorproxy-docker-ce.sources" in
    do? there := look (exists_through (path_join root path)) in
    do? _ := ensure (negb there) "Docker CE source already exists" in
    ret (path, "Types: deb" +:+ nl +:+ "URIs: " +:+ base +:+ "/os/docker-ce/linux/" +:+ d_code profile +:+ "/" +:+ nl
                 +:+ "Suites: " +:+ codename +:+ nl +:+ "Components: stable" +:+ nl +:+ "Signed-By: /" +:+ key +:+ nl)
  else
    let distro := if one_of ["fedora"; "rhel"] (d_code profile) then d_code profile else "centos" in
    let path := "etc/yum.repos.d/mirrorproxy-docker-ce.repo" in
    do? there := look (exists_through (path_join root path)) in
    do? _ := ensure (negb there) "Docker CE source already exists" in
    ret (path, "[docker-ce-stable]" +:+ nl +:+ "name=Docker CE Stable" +:+ nl +:+ "baseurl=" +:+ base +:+ "/os/docker-ce/linux/" +:+ distro
                 +:+ "/$releasever/$basearch/stable" +:+ nl +:+ "enabled=1" +:+ nl +:+ "gpgcheck=1" +:+ nl
                 +:+ "gpgkey=https://download.docker.com/linux/" +:+ distro +:+ "/gpg" +:+ nl).

(** A file differs from what it is to become; one that cannot be read does. *)
Fixpoint any_pending (root : string) (files : list (string * string)) : act bool := fun d =>
  match files with
  | [] => (Ok false, d)
  | (path, expected) :: rest =>
      match read_optional_file (at_root root path) d with
      | (Ok (Some content), d) => if (content =? expected)%string then any_pending root rest d else (Ok true, d)
      | (_, d) => (Ok true, d)
      end
  end.

(** ** The system *)

Definition nix_module (base : string) : string :=
  let caches := "[ " +:+ dq +:+ base +:+ "/os/nix-store/" +:+ dq +:+ " " +:+ dq +:+ "https://cache.nixos.org/" +:+ dq +:+ " ];" +:+ nl in
  "# Managed by MirrorProxy; import from configuration.nix" +:+ nl +:+ "{ options, ... }: {" +:+ nl
    +:+ "  config = if options.nix ? settings then {" +:+ nl +:+ "    nix.settings.substituters = " +:+ caches
    +:+ "  } else {" +:+ nl +:+ "    nix.binaryCaches = " +:+ caches +:+ "  };" +:+ nl +:+ "}" +:+ nl.

(** [map(..).transpose()]. *)
Definition map_text (f : string -> result string string) (original : option string) : result (option string) string :=
  match original with Some s => let? t := f s in Ok (Some t) | None => Ok None end.

(** What a file becomes; [None]: it is not there. *)
Definition expected_text (profile : SystemDistribution) (base version path : string) (original : option string) :
    result (option string) string :=
  match d_format profile with
  | Apt => map_text (fun s => rewrite_apt s (bool_decide (extension path = Some "sources")) profile base) original
  | Rpm => map_text (fun s => let? text := rewrite_rpm profile base s in Ok (archive_rpm text profile version)) original
  | Pacman => map_text (fun s => rewrite_lines s profile base "Server" (Some path)) original
  | Apk => map_text (fun s => rewrite_lines s profile base "" None) original
  | Xbps => map_text (fun s => rewrite_lines s profile base "repository" None) original
  | Gentoo => let? text := gentoo_config (default "" original) base in Ok (Some text)
  | Nix =>
      if same_path path "etc/nixos/mirrorproxy.nix" then
        match original with
        | Some _ => Err "NixOS module already exists; review it rather than overwriting unmanaged code"
        | None => Ok (Some (nix_module base))
        end
      else map_text (fun s => rewrite_lines s profile base "" None) original
  end.

Fixpoint prepare_files (root : string) (profile : SystemDistribution) (base version : string) (paths : list string) :
    act (list (string * string)) :=
  match paths with
  | [] => ret []
  | path :: rest =>
      do? _ := of_result (validate_profile_path (d_code profile) path) in
      do? _ := reject_symlink (at_root root path) in
      do? original := read_optional_file (at_root root path) in
      do? original := (if bool_decide (original = None) && bool_decide (d_format profile = Xbps) then
                         let vendor := path_join (path_join root "usr/share/xbps.d") (file_name path) in
                         do? _ := reject_symlink vendor in
                         read_optional_file vendor
                       else ret original) in
      do? expected := of_result (expected_text profile base version path original) in
      do? files := prepare_files root profile base version rest in
      ret (match expected with
           | Some expected =>
               if bool_decide (d_format profile = Xbps) && bool_decide (original = Some expected) then files
               else (path, expected) :: files
           | None => files
           end)
  end.

Definition with_repositories (repositories : list string) (profile : SystemDistribution) : SystemDistribution :=
  Distro (d_code profile) (d_name profile) (d_ids profile) (d_versions profile) (d_format profile) repositories.

Definition DOCKER_SYSTEMS : list string :=
  ["debian"; "ubuntu"; "fedora"; "centos"; "centos-stream"; "rhel"; "rocky"; "alma"; "oraclelinux"].

(** The repositories an operation migrates. *)
Definition selected (requested : string) (profile : SystemDistribution) : result SystemDistribution string :=
  if (requested =? "epel")%string then
    if one_of (d_repositories profile) "epel" then Ok (with_repositories ["epel"; "epel-next"; "epel-archive"] profile)
    else Err "EPEL requires an Enterprise Linux profile"
  else if (requested =? "docker-ce")%string then
    if one_of DOCKER_SYSTEMS (d_code profile) then Ok (with_repositories ["docker-ce"] profile)
    else Err "Docker CE source migration is supported on Debian, Ubuntu, Fedora and Enterprise Linux"
  else Ok profile.

(** [system::prepare]. *)
Definition prepare (root requested : string) (base : option string) : act AptPlan.t :=
  do? _ := ensure_unmanaged root in
  do? profile := detect root in
  do? _ := ensure (one_of ["system"; "epel"; "docker-ce"; "gentoo-sync"] requested
                   || match system_distribution requested with Some p => (d_code p =? d_code profile)%string | None => false end)
             ("requested system does not match detected " +:+ d_name profile) in
  do? base := of_option base "system migration requires --base-url" in
  do? base := of_result (validated_base_url base) in
  if (requested =? "gentoo-sync")%string then
    do? _ := ensure (d_code profile =? "gentoo")%string "gentoo-sync requires Gentoo" in
    prepare_gentoo_sync root base
  else
    do? profile := of_result (selected requested profile) in
    do? release := read_identification root (path_join root "etc/os-release") in
    let version := default "" (os_value release "VERSION_ID") in
    do? found := paths root profile in
    do? files := prepare_files root profile base version found in
    do? pending := (if (requested =? "docker-ce")%string then any_pending root files else ret true) in
    do? files :=
      (if pending then ret files
       else
         do? _ := ensure (negb (existsb (fun f => contains_str "docker" (file_name f.1)) files))
                    "unrecognized Docker source exists; review it before creating another repository" in
         do? source := docker_ce_source root profile release base in
         ret (files ++ [source])) in
    system_plan (d_code profile) root files.
End Prepare.
