(* ===== verification/SystemPlanSpec.v ===== *)
(** * What migrating a system guarantees

    Theorems about [SystemPlan] and [SystemPrepare]: a manifest can only name
    the source files of a distribution; a migration that was interrupted can
    be reset; a reset looks at every file before it restores any. *)
From stdpp Require Import gmap pretty.
From S2P Require Import Prelude RustStr Lines Url Fs Json Systems ClientFiles Setup SetupSpec Catalog SystemRewrite ClientSources ClientSteps SystemPlan.
Open Scope string_scope.
Open Scope Z_scope.
Open Scope list_scope.
Open Scope act_scope.

(** ** Paths of a manifest *)

(** The last byte of the path is one of [cs]. *)
Definition ends_in (cs : list ascii) (s : string) : Prop := exists a c, s = a +:+ String c "" /\ c ∈ cs.

Lemma ends_in_app (cs : list ascii) (a s : string) : ends_in cs s -> ends_in cs (a +:+ s).
Proof. intros (b & c & -> & Hc). exists (a +:+ b), c. by rewrite str_app_assoc. Qed.

Lemma ends_in_inj (cs ds : list ascii) (s : string) : ends_in cs s -> ends_in ds s -> exists c, c ∈ cs /\ c ∈ ds.
Proof.
  intros (a & c & -> & Hc) (b & c' & He & Hc'). apply (f_equal String.rev) in He. rewrite !string_rev_app in He.
  injection He as -> _. by exists c'.
Qed.

Definition DIGITS : list ascii := ["0"; "1"; "2"; "3"; "4"; "5"; "6"; "7"; "8"; "9"]%char.

Lemma digits_end (s : string) : all_bytes is_digit s = true -> s <> "" -> ends_in DIGITS s.
Proof.
  induction s as [|c s IH]; [done|]. cbn [all_bytes]. intros [Hc Hs]%andb_prop _. destruct s as [|c' s].
  - exists "", c. split; [done|]. revert Hc. destruct c as [[] [] [] [] [] [] [] []]; try done; intros _; apply (bool_decide_unpack _); by vm_compute.
  - change (String c (String c' s)) with (String c "" +:+ String c' s). apply ends_in_app, IH; done.
Qed.

Lemma show_uint_nonempty (n : Z) : show_uint n <> "".
Proof.
  unfold show_uint, pretty, pretty_N. case_decide as Hn; [done|]. rewrite pretty_N_go_step by lia. generalize (Z.to_N n `div` 10)%N.
  intros x. assert (H : forall m y s, (y <= m)%N -> s <> "" -> pretty_N_go y s <> "").
  { induction m as [|m IH] using N.peano_ind; intros y s Hy Hs; (destruct (decide (y = 0)%N) as [->|Hy0]; [by rewrite pretty_N_go_0|]); [lia|].
    rewrite pretty_N_go_step by lia. apply IH; [|done]. pose proof (N.div_lt y 10). lia. }
  by apply (H x).
Qed.

Lemma sibling_end (pid : Z) (p role : string) (n : nat) : ends_in DIGITS (sibling pid p role n).
Proof.
  destruct (sibling_shape pid p role n) as [head ->]. unfold sibling_suffix. do 6 apply ends_in_app. apply digits_end.
  - apply show_uint_digits.
  - apply show_uint_nonempty.
Qed.

Lemma ordinary_end (pid : Z) (cs : list ascii) (s : string) : ends_in cs s -> Forall (fun c => c ∉ DIGITS) cs -> ordinary pid s.
Proof.
  intros Hs Hcs p role n ->. destruct (ends_in_inj cs DIGITS _ Hs (sibling_end pid p role n)) as (c & Hc & Hd).
  rewrite Forall_forall in Hcs. by apply (Hcs c).
Qed.

(** The last bytes of the files of distributions: .list, .sources, .repo,
    .conf, .nix and so on. *)
Definition ENDS : list ascii := ["t"; "s"; "o"; "f"; "x"]%char.

(** Names that cannot leave a directory. *)
Definition safe_name (n : string) : Prop := n <> "" /\ n <> "." /\ n <> ".." /\ contains_char "/" n = false.

Lemma str_split_parts (c : ascii) (s : string) : Forall (fun p => contains_char c p = false) (str_split c s).
Proof.
  induction s as [|a s IH]; cbn; [by repeat constructor|]. destruct (Ascii.eqb a c) eqn:E; [by constructor|].
  destruct (str_split c s) as [|p ps]; [by repeat constructor; cbn; rewrite ?E|]. apply Forall_cons in IH as [Hp Hps].
  constructor; [|done]. cbn. by rewrite E.
Qed.

Lemma normal_components_safe (path : string) (names : list string) :
  normal_components path = Some names ->
  names = components path /\ Forall safe_name names /\ forall root, at_root root path = path_join root (str_join "/" names).
Proof.
  unfold normal_components. destruct (is_absolute path) eqn:Ha; [done|]. destruct (leading_dot path); [done|]. cbn [orb].
  destruct (existsb _ _) eqn:Hd; [done|]. intros [= <-]. split_and!; [done| |].
  - apply Forall_forall. intros n Hn. assert (Hdd : n <> "..").
    { intros ->. apply not_true_iff_false in Hd. apply Hd, existsb_exists. exists "..". by rewrite <-list_elem_of_In. }
    unfold components in Hn. apply list_elem_of_In, filter_In in Hn as [Hn Hb]. apply list_elem_of_In in Hn.
    pose proof (str_split_parts "/" path) as Hs. rewrite Forall_forall in Hs. specialize (Hs n Hn).
    apply negb_true_iff, orb_false_iff in Hb as [He Hb]. apply String.eqb_neq in Hb. split_and!; [|done..]. by intros ->.
  - intros root. unfold at_root, spelling. by rewrite Ha.
Qed.

Lemma extension_end (name ext : string) : (split_extension name).2 = Some ext -> exists stem, name = stem +:+ "." +:+ ext.
Proof.
  unfold split_extension. destruct (split_once "." (String.rev name)) as [[e stem]|] eqn:E; [|done].
  apply split_once_Some in E as [E _]. destruct (str_is_empty stem); [done|]. cbn. intros [= <-]. exists (String.rev stem).
  rewrite <-(string_rev_involutive name), E, string_rev_app. change (String "." stem) with ("." +:+ stem).
  by rewrite string_rev_app, <-str_app_assoc.
Qed.

Lemma last_joined (names : list string) : names <> [] -> exists a, str_join "/" names = a +:+ List.last names "".
Proof.
  induction names as [|n [|m names] IH]; intros Hn; [done|by exists ""|]. destruct IH as [a IH]; [done|].
  exists (n +:+ "/" +:+ a). cbn [str_join]. cbn [str_join] in IH. rewrite IH. by rewrite <-!str_app_assoc.
Qed.

Lemma direct_child_end (names : list string) (directory ext : string) :
  direct_child names directory ext = true -> ends_in ENDS ext -> ends_in ENDS (str_join "/" names).
Proof.
  unfold direct_child. intros [[Hn Hd]%andb_prop He]%andb_prop Hext. apply bool_decide_eq_true in Hn, Hd, He.
  destruct (last_joined names Hn) as [a ->]. apply extension_end in He as [stem ->]. by do 3 apply ends_in_app.
Qed.

Ltac ends := match goal with |- ends_in ENDS ?s =>
  let s' := eval vm_compute in (String.rev s) in
  match s' with String ?c ?r => exists (String.rev r), c; split; [by vm_compute|apply (bool_decide_unpack _); by vm_compute] end end.

Lemma allowed_end (profile : SystemDistribution) (path : string) (names : list string) :
  allowed profile path names = true -> names = components path -> ends_in ENDS (str_join "/" names).
Proof.
  assert (Hfixed : forall file, bool_decide (names = components file) = true -> ends_in ENDS (str_join "/" (components file)) ->
    ends_in ENDS (str_join "/" names)) by (intros file ->%bool_decide_eq_true; done).
  assert (Hchild : forall dir ext, direct_child names dir ext = true -> ends_in ENDS ext -> ends_in ENDS (str_join "/" names))
    by (intros dir ext; apply direct_child_end).
  unfold allowed. intros Hal Hnames. destruct (d_format profile); revert Hal.
  - intros [[Hal|Hal]%orb_prop|Hal]%orb_prop; [eapply Hfixed|eapply Hchild..]; try exact Hal; ends.
  - intros Hal. eapply Hchild; [exact Hal|ends].
  - intros [Hal|[_ Hal]%andb_prop]%orb_prop; (eapply Hfixed; [exact Hal|ends]).
  - intros Hal. eapply Hfixed; [exact Hal|ends].
  - intros [Hal|Hal]%orb_prop; [eapply Hfixed|eapply Hchild]; try exact Hal; ends.
  - unfold one_of. cbn [existsb]. intros [Hal|[Hal|Hal]%orb_prop]%orb_prop; [| |done]; apply String.eqb_eq in Hal; rewrite Hnames, Hal; ends.
  - intros Hal. eapply Hchild; [exact Hal|ends].
Qed.

(** Where a file that a manifest may name is. *)
Definition Permitted (root q : string) : Prop := exists profile path names,
  profile ∈ SYSTEM_DISTRIBUTIONS /\ allowed profile path names = true /\ Forall safe_name names /\ names = components path /\
  q = path_join root (str_join "/" names).

Lemma system_distribution_listed (code : string) (profile : SystemDistribution) :
  system_distribution code = Some profile -> profile ∈ SYSTEM_DISTRIBUTIONS.
Proof. intros Hf. by apply find_first_Some in Hf as [? _]. Qed.

Lemma may_name_permitted (self : AptPlan.t) (file : AptFile.t) (u : unit) (root : string) :
  may_name self file = Ok u -> Permitted root (at_root root (AptFile.path file)).
Proof.
  unfold may_name, validate_profile_path, validate_path. destruct (AptPlan.system_profile self) as [code|].
  - destruct (normal_components (AptFile.path file)) as [names|] eqn:Hn; [|done].
    destruct (system_distribution code) as [profile|] eqn:Hp; [|done]. destruct (allowed _ _ _) eqn:Hal; [|done]. intros _.
    destruct (normal_components_safe _ _ Hn) as (Hc & Hs & Hat). exists profile, (AptFile.path file), names.
    split_and!; [by eapply system_distribution_listed|done..|apply Hat].
  - destruct (normal_components (AptFile.path file)) as [names|] eqn:Hn; [|done]. destruct (_ || _) eqn:Hv; [|done]. intros _.
    destruct (normal_components_safe _ _ Hn) as (Hc & Hs & Hat). destruct (system_distribution "debian") as [debian|] eqn:Hd; [|by vm_compute in Hd].
    exists debian, (AptFile.path file), names. split_and!; [by eapply system_distribution_listed| |done..|apply Hat].
    vm_compute in Hd. injection Hd as <-. exact Hv.
Qed.

Lemma permitted_end (root q : string) : Permitted root q -> ends_in ENDS q.
Proof.
  intros (profile & path & names & _ & Hal & _ & Hn & ->). rewrite path_join_prefix. apply ends_in_app. by eapply allowed_end.
Qed.

Lemma permitted_ordinary (pid : Z) (root q : string) : Permitted root q -> ordinary pid q.
Proof. intros Hp. eapply ordinary_end; [by eapply permitted_end|]. apply (bool_decide_unpack _). by vm_compute. Qed.

(** The record of a migration is none of its files. *)
Definition is_record (rollback : string) : Prop := exists stem, rollback = stem +:+ ".json".

Lemma record_end (rollback : string) : is_record rollback -> ends_in ["n"%char] rollback.
Proof. intros [stem ->]. apply ends_in_app. exists ".jso", "n"%char. split; [done|]. by apply list_elem_of_singleton. Qed.

Lemma record_ordinary (pid : Z) (rollback : string) : is_record rollback -> ordinary pid rollback.
Proof. intros Hr%record_end. eapply ordinary_end; [exact Hr|]. apply (bool_decide_unpack _). by vm_compute. Qed.

Lemma record_not_permitted (root rollback : string) : is_record rollback -> ~ Permitted root rollback.
Proof.
  intros Hr%record_end Hp%permitted_end. destruct (ends_in_inj _ _ _ Hr Hp) as (c & Hc & Hd). apply list_elem_of_singleton in Hc as ->.
  revert Hd. apply (bool_decide_unpack _). by vm_compute.
Qed.

(** ** Writing the files of a plan *)

Section Files.
Variable pid : Z.
Variable root : string.

Definition place (file : AptFile.t) : string := at_root root (AptFile.path file).

(** A file has the text, and its permissions when the manifest knows them. *)
Definition Installed (content : string) (file : AptFile.t) (d : Disk) : Prop := exists n,
  nodes d !! place file = Some n /\ Node.text n = content /\ forall mode, AptFile.unix_mode file = Some mode -> Node.mode n = mode.

Definition Restored (file : AptFile.t) (d : Disk) : Prop :=
  if AptFile.was_missing file then nodes d !! place file = None else Installed (AptFile.original file) file d.

Definition Writable (d : Disk) (file : AptFile.t) : Prop :=
  links d = ∅ /\ has_parent (place file) = true /\ plain_mode (AptFile.unix_mode file) = true.

Lemma set_permissions_cases (path : string) (mode : Z) (n : Node.t) (d : Disk) :
  nodes d !! path = Some n ->
  let '(r, d') := set_permissions path mode d in
  After [path] d d' /\ sequence d' = sequence d /\ Works d r d' /\
  (r = Ok tt /\ nodes d' !! path = Some {| Node.text := Node.text n; Node.mode := mode |} \/ (exists e, r = Err e) /\ nodes d' = nodes d).
Proof.
  intros Hx. pose proof (set_permissions_after path mode d) as Ha. destruct (set_permissions path mode d) as [r d'] eqn:E. split; [done|]. revert E.
  unfold set_permissions, call. case_next.
  - rewrite Hn, Hx. intros [= <- <-]. cbn. split_and!; [done|by intros ?; split; [|apply Hq]|]. left. by rewrite lookup_insert, decide_True.
  - intros [= <- <-]. split_and!; [done|by intros ?%Hq|]. right. split; [by eexists|done].
Qed.

Lemma within_one (path : string) (d d' : Disk) :
  fresh pid d -> ordinary pid path -> After [path] d d' -> Within pid [path] d d'.
Proof.
  intros Hf Ho Ha. apply within_touches, (touches_of_after pid path [path]); [done..|]. intros q Hq. left. set_solver.
Qed.

Lemma write_outcome (file : AptFile.t) (content : string) (d : Disk) :
  fresh pid d -> ordinary pid (place file) ->
  let '(r, d') := write pid file root content d in
  Within pid [place file] d d' /\ (Writable d file -> Works d r d') /\
  match r with
  | Ok _ => Installed content file d'
  | Err _ => text_at d' (place file) = text_at d (place file) \/ text_at d' (place file) = Some content \/
             Aside pid d' (place file) (text_at d (place file))
  end.
Proof.
  intros Hf Ho. unfold write. fold (place file). unfold bind at 1.
  pose proof (quiet_reject_symlink (links d = ∅) (place file) d ltac:(done)) as (A1 & _ & W1).
  destruct (reject_symlink (place file) d) as [[u1|e1] d1]; cbn [fst snd] in *.
  2: { split_and!; [by apply within_look|by intros (Hl & _); apply W1|left; by apply text_after]. }
  assert (Hf1 : fresh pid d1) by by apply (wi_fresh pid [] d), within_after.
  assert (I1 : Within pid [place file] d d1) by by apply within_look.
  unfold bind at 1. pose proof (write_atomic_outcome pid (place file) content d1 Hf1 Ho) as R2.
  pose proof (write_atomic_text pid (place file) content d1 Hf1 Ho) as R2'.
  destruct (write_atomic pid (place file) content d1) as [r2 d2]. destruct R2 as (_ & W2 & T2), R2' as (I2 & _ & T2').
  assert (I02 : Within pid [place file] d d2) by (eapply within_trans; [exact I1|exact I2|set_solver..]).
  rewrite (text_after d d1) in T2' by done.
  destruct r2 as [u2|e2]; [|split_and!; [done| |done]; intros (Hl & Hp & _) Hq; apply (W2 Hp); by apply W1].
  unfold Installed. destruct (AptFile.unix_mode file) as [mode|] eqn:Hm.
  2: { cbn. split_and!; [done|intros (Hl & Hp & _) Hq; apply (W2 Hp); by apply W1|]. by eexists. }
  unfold bind at 1, ensure. destruct (plain_mode (Some mode)) eqn:Hpm; cbn [ret bail].
  2: { split_and!; [done|intros (_ & _ & Hp); rewrite Hm in Hp; congruence|by right; left]. }
  pose proof (set_permissions_cases (place file) mode _ d2 T2) as R3. destruct (set_permissions (place file) mode d2) as [r3 d3].
  destruct R3 as (A3 & _ & W3 & R3).
  assert (I03 : Within pid [place file] d d3)
    by (eapply within_trans; [exact I02|apply within_one; [apply I02|done|exact A3]|set_solver..]).
  split_and!; [done|intros (Hl & Hp & _) Hq; apply W3, (W2 Hp); by apply W1|].
  destruct R3 as [[-> N3]|[[e ->] N3]].
  - eexists. split_and!; [exact N3|done|]. by intros ? [= <-].
  - right. left. unfold text_at in *. by rewrite N3.
Qed.

Lemma restore_outcome (file : AptFile.t) (d : Disk) :
  fresh pid d -> ordinary pid (place file) ->
  let '(r, d') := restore pid root file d in
  Within pid [place file] d d' /\ (Writable d file -> Works d r d') /\
  match r with
  | Ok _ => Restored file d'
  | Err _ => text_at d' (place file) = text_at d (place file) \/ text_at d' (place file) = before file \/
             Aside pid d' (place file) (text_at d (place file))
  end.
Proof.
  intros Hf Ho. unfold restore, Restored, before. destruct (AptFile.was_missing file); [|by apply write_outcome].
  pose proof (restore_original_text pid (place file) None d Hf Ho) as R. fold (place file).
  destruct (restore_original_file pid (place file) None d) as [r d']. destruct R as (I1 & W1 & T1).
  split_and!; [done|by intros (_ & Hp & _); apply W1|]. destruct r; [|done]. unfold text_at in T1. by destruct (nodes d' !! place file).
Qed.

(** *** All of them *)

(** [f] works on the place of its file, and brings it to the text [target]. *)
Record Handles (f : AptFile.t -> act unit) (target : AptFile.t -> option string) (Done : AptFile.t -> Disk -> Prop) : Prop := {
  ha_step file d : fresh pid d -> ordinary pid (place file) ->
    let '(r, d') := f file d in
    Within pid [place file] d d' /\ (Writable d file -> Works d r d') /\
    match r with
    | Ok _ => Done file d'
    | Err _ => text_at d' (place file) = text_at d (place file) \/ text_at d' (place file) = target file \/
               Aside pid d' (place file) (text_at d (place file))
    end;
  ha_text file d : Done file d -> text_at d (place file) = target file;
  ha_local file d d' : Done file d -> nodes d' !! place file = nodes d !! place file -> Done file d';
}.

(** What is left of a run over the files that stopped. *)
Definition Stopped (target : AptFile.t -> option string) (d d' : Disk) (file : AptFile.t) : Prop :=
  text_at d' (place file) = text_at d (place file) \/ text_at d' (place file) = target file \/
  Aside pid d' (place file) (text_at d (place file)).

Lemma each_file_outcome (f : AptFile.t -> act unit) (target : AptFile.t -> option string) (Done : AptFile.t -> Disk -> Prop)
    (files : list AptFile.t) (d : Disk) :
  Handles f target Done -> fresh pid d -> Forall (fun file => ordinary pid (place file)) files -> NoDup (place <$> files) ->
  let '(r, d') := each_file f files d in
  Within pid (place <$> files) d d' /\ (Forall (Writable d) files -> Works d r d') /\
  match r with Ok _ => Forall (fun file => Done file d') files | Err _ => Forall (Stopped target d d') files end.
Proof.
  intros Hh. revert d. induction files as [|file files IH]; intros d Hf Ho Hnd.
  { cbn. split_and!; [by apply within_refl|done|constructor]. }
  apply Forall_cons in Ho as [Ho Hos]. cbn [fmap list_fmap] in Hnd. apply NoDup_cons in Hnd as [Hni Hnd].
  cbn [each_file]. unfold bind. pose proof (ha_step _ _ _ Hh file d Hf Ho) as R1. destruct (f file d) as [r1 d1].
  destruct R1 as (I1 & W1 & T1). assert (Hother : forall g, g ∈ files -> place g <> place file).
  { intros g Hg He. apply Hni. rewrite <-He. by apply list_elem_of_fmap_2. }
  assert (Hords : forall g, g ∈ files -> ordinary pid (place g)) by by rewrite <-Forall_forall.
  destruct r1 as [u1|e1].
  - specialize (IH d1 (wi_fresh _ _ _ _ I1) Hos Hnd). destruct (each_file f files d1) as [r2 d2]. destruct IH as (I2 & W2 & T2).
    assert (Hk : nodes d2 !! place file = nodes d1 !! place file)
      by (apply (wi_nodes _ _ _ _ I2); [done|by apply ordinary_unused]).
    assert (Hd2 : Done file d2) by by apply (ha_local _ _ _ Hh file d1).
    split_and!.
    + cbn. eapply within_trans; [exact I1|exact I2|set_solver..].
    + intros [Hw Hws]%Forall_cons Hq. destruct (W1 Hw Hq) as [_ Hq1]. apply W2; [|done].
      eapply Forall_impl; [exact Hws|]. intros g (Hl & Hp & Hm). split_and!; [|done..]. by rewrite (wi_links _ _ _ _ I1).
    + destruct r2 as [u2|e2]; [by constructor|]. constructor.
      * right. left. by apply (ha_text _ _ _ Hh).
      * apply Forall_forall. intros g Hg. rewrite Forall_forall in T2. specialize (T2 g Hg). unfold Stopped in *.
        rewrite (within_text pid [place file] d d1) in T2; [done|done|specialize (Hother g Hg); set_solver|by apply Hords].
  - split_and!.
    + cbn. eapply within_trans; [exact I1|by apply (within_refl pid []), (wi_fresh _ _ _ _ I1)|set_solver..].
    + intros [Hw _]%Forall_cons Hq. by destruct (W1 Hw Hq).
    + constructor; [exact T1|]. apply Forall_forall. intros g Hg. left.
      apply (within_text pid [place file]); [done|specialize (Hother g Hg); set_solver|by apply Hords].
Qed.

Lemma restores : Handles (restore pid root) before Restored.
Proof.
  split; [by apply restore_outcome| |].
  - intros file d Hr. unfold Restored, before, Installed, text_at in *. destruct (AptFile.was_missing file); [by rewrite Hr|].
    destruct Hr as (n & -> & <- & _). done.
  - intros file d d' Hr He. unfold Restored, Installed in *. by rewrite He.
Qed.

Lemma replaces (message : string) :
  Handles (fun file => context message (write pid file root (AptFile.expected file)))
    (fun file => Some (AptFile.expected file)) (fun file => Installed (AptFile.expected file) file).
Proof.
  split.
  - intros file d Hf Ho. pose proof (write_outcome file (AptFile.expected file) d Hf Ho) as R. unfold context.
    destruct (write pid file root (AptFile.expected file) d) as [[u|e] d']; [done|]. destruct R as (I & W & T).
    split_and!; [done| |done]. intros Hw Hq. by destruct (W Hw Hq).
  - intros file d Hr. unfold Installed, text_at in *. destruct Hr as (n & -> & <- & _). done.
  - intros file d d' Hr He. unfold Installed in *. by rewrite He.
Qed.
End Files.

(** ** Validation *)

Section Validation.
Variables (self : AptPlan.t) (root : string) (restoring force : bool).

(** What [validate] asks of a file of the disk. *)
Definition Expected (d : Disk) (file : AptFile.t) : Prop :=
  text_at d (place root file) = before file \/
  restoring = true /\ (text_at d (place root file) = Some (AptFile.expected file) \/ force = true).

Definition Sound (d : Disk) (file : AptFile.t) : Prop :=
  may_name self file = Ok tt /\ plain_mode (AptFile.unix_mode file) = true /\ Expected d file.

Definition distinct (seen : list string) (files : list AptFile.t) : Prop :=
  NoDup ((spelling ∘ AptFile.path) <$> files) /\ Forall (fun file => spelling (AptFile.path file) ∉ seen) files.

Lemma expected_iff (d : Disk) (file : AptFile.t) :
  (bool_decide (text_at d (place root file) = before file)
   || (restoring && bool_decide (text_at d (place root file) = Some (AptFile.expected file)))) || (restoring && force) = true <->
  Expected d file.
Proof. unfold Expected. rewrite !orb_true_iff, !andb_true_iff, !bool_decide_eq_true. tauto. Qed.

Lemma validate_files_quiet (seen : list string) (files : list AptFile.t) (d0 d : Disk) :
  After [] d0 d ->
  Quiet (links d0 = ∅ /\ Forall (Sound d0) files /\ distinct seen files)
    (fun _ => Forall (Sound d0) files /\ distinct seen files)
    (validate_files self root restoring force seen files) d.
Proof.
  revert seen d. induction files as [|file files IH]; intros seen d Ha.
  { apply quiet_ret. split; [constructor|]. split; constructor. }
  assert (Hsplit : distinct seen (file :: files) <->
    spelling (AptFile.path file) ∉ seen /\ distinct (spelling (AptFile.path file) :: seen) files).
  { unfold distinct. cbn [fmap list_fmap compose]. rewrite NoDup_cons, Forall_cons. split.
    - intros ([Hni Hnd] & Hs & Hf). split_and!; [done..|]. apply Forall_forall. intros g Hg. rewrite Forall_forall in Hf.
      apply not_elem_of_cons. split; [|by apply Hf]. intros He. apply Hni. rewrite <-He. by apply (list_elem_of_fmap_2 (spelling ∘ AptFile.path)).
    - intros (Hs & Hnd & Hf). split_and!; [|done..|]; [|by eapply Forall_impl; [exact Hf|]; intros g [_ Hg]%not_elem_of_cons].
      intros (g & He & Hg)%list_elem_of_fmap. rewrite Forall_forall in Hf. specialize (Hf g Hg). cbn in He. rewrite He in Hf. set_solver. }
  cbn [validate_files]. set (W := links d0 = ∅ /\ Forall (Sound d0) (file :: files) /\ distinct seen (file :: files)).
  assert (HW : W -> Sound d0 file) by (intros (_ & [? _]%Forall_cons & _); done).
  eapply (quiet_bind W); [apply quiet_of_result; intros Hw; by destruct (HW Hw) as (-> & _)|]. intros [] d1 A1 Hname.
  eapply (quiet_bind W); [apply quiet_ensure; intros Hw; by destruct (HW Hw) as (_ & ? & _)|]. intros ? d2 A2 Hmode; cbn in Hmode.
  eapply (quiet_bind W); [apply quiet_ensure|].
  { intros (_ & _ & Hd). apply Hsplit in Hd as [Hd _]. by rewrite bool_decide_false. }
  intros ? d3 A3 Hseen; cbn in Hseen. apply negb_true_iff, bool_decide_eq_false in Hseen.
  assert (A03 : After [] d0 d3) by (eapply after_trans; [exact Ha| |done..]; eapply after_trans; [exact A1| |done..]; by eapply after_trans).
  fold (place root file).
  eapply (quiet_bind W); [apply quiet_reject_symlink; intros [Hl _]; by rewrite (af_links _ _ _ A03)|]. intros _ d4 A4 _.
  assert (A04 : After [] d0 d4) by by eapply after_trans.
  eapply (quiet_bind W); [apply quiet_read_optional|]. intros current d5 A5 ->. rewrite (text_after d0 d4) by done.
  assert (A05 : After [] d0 d5) by by eapply after_trans.
  eapply (quiet_bind W); [apply quiet_ensure; intros Hw; destruct (HW Hw) as (_ & _ & He); by apply expected_iff|].
  intros ? d6 A6 He; cbn in He. apply expected_iff in He.
  assert (A06 : After [] d0 d6) by by eapply after_trans.
  destruct (IH (spelling (AptFile.path file) :: seen) d6 A06) as (A7 & P7 & W7). split_and!; [done| |].
  - intros u Hu. destruct (P7 u Hu) as [Hs Hd]. split; [|by apply Hsplit]. constructor; [by split_and!|done].
  - intros (Hl & [_ Hs]%Forall_cons & Hd). apply W7. apply Hsplit in Hd as [_ Hd]. by split_and!.
Qed.

Lemma validate_quiet (d0 d : Disk) :
  After [] d0 d ->
  Quiet (links d0 = ∅ /\ well_formed self = true /\ Forall (Sound d0) (AptPlan.apt_files self) /\ distinct [] (AptPlan.apt_files self))
    (fun _ => well_formed self = true /\ Forall (Sound d0) (AptPlan.apt_files self) /\ distinct [] (AptPlan.apt_files self))
    (validate self root restoring force) d.
Proof.
  intros Ha. unfold validate. eapply quiet_bind; [apply quiet_ensure; by intros (_ & ? & _)|]. intros ? d1 A1 Hwf; cbn in Hwf.
  assert (A01 : After [] d0 d1) by by eapply after_trans.
  destruct (validate_files_quiet [] (AptPlan.apt_files self) d0 d1 A01) as (A2 & P2 & W2). split_and!; [done| |].
  - intros u Hu. by destruct (P2 u Hu).
  - intros (Hl & _ & Hs & Hd). by apply W2.
Qed.

(** Files that pass are at places of their own that a manifest may name. *)
Lemma sound_places (pid : Z) (d : Disk) (files : list AptFile.t) :
  Forall (Sound d) files -> distinct [] files ->
  Forall (fun file => Permitted root (place root file)) files /\ Forall (fun file => ordinary pid (place root file)) files /\
  NoDup (place root <$> files).
Proof.
  intros Hs [Hnd _]. assert (Hp : Forall (fun file => Permitted root (place root file)) files).
  { eapply Forall_impl; [exact Hs|]. intros file (Hn & _). by eapply may_name_permitted. }
  split_and!; [done|eapply Forall_impl; [exact Hp|]; intros file Hx; exact (permitted_ordinary pid root _ Hx)|].
  assert (Hj : Forall (fun file => place root file = path_join root (spelling (AptFile.path file))) files).
  { eapply Forall_impl; [exact Hs|]. intros file (Hn & _). unfold place, at_root. unfold may_name in Hn.
    assert (Hc : is_Some (normal_components (AptFile.path file))).
    { destruct (AptPlan.system_profile self); unfold validate_profile_path, validate_path in Hn; by destruct (normal_components (AptFile.path file)). }
    destruct Hc as [names Hc]. unfold normal_components in Hc. by destruct (is_absolute (AptFile.path file)). }
  clear Hp Hs. induction files as [|file files IH]; [constructor|]. cbn [fmap list_fmap] in *.
  apply NoDup_cons in Hnd as [Hni Hnd]. apply Forall_cons in Hj as [Hj Hjs]. constructor; [|by apply IH].
  intros (g & He & Hg)%list_elem_of_fmap. rewrite Forall_forall in Hjs. rewrite Hj, (Hjs g Hg) in He. apply path_join_inj in He.
  apply Hni. cbn. rewrite He. by apply (list_elem_of_fmap_2 (spelling ∘ AptFile.path)).
Qed.
End Validation.

(** ** Resetting *)

Section Reset.
Context `{SetupApi}.
Variable pid : Z.
Variables (target config rollback : string) (force dry_run : bool) (d : Disk).

(** The record holds a plan. *)
Definition Manifest (d : Disk) (plan : AptPlan.t) : Prop := exists text value,
  text_at d rollback = Some text /\ json_from_str text = Some value /\ json_get value "apt_files" <> None /\ plan_of_value value = Some plan.

(** The plan may be restored. *)
Record Accepted (root : string) (plan : AptPlan.t) : Prop := {
  ac_manifest : Manifest d plan;
  ac_root : root_from_rollback rollback = Ok root;
  ac_target : AptPlan.target_code plan = target;
  ac_well_formed : well_formed plan = true;
  ac_sound : Forall (Sound plan root true force d) (AptPlan.apt_files plan);
  ac_distinct : distinct [] (AptPlan.apt_files plan);
}.

(** Nothing stands in the way of a reset. *)
Definition ResetWorks : Prop := exists root plan expected,
  Accepted root plan /\ one_of ["apt"; "system"] target = true /\
  source_config_path target ScopeSystem root = Ok expected /\ same_path expected config = true /\
  links d = ∅ /\ Forall (fun file => has_parent (place root file) = true) (AptPlan.apt_files plan) /\ dry_run = false.

Definition ResetOutcome (r : result bool string) (d' : Disk) : Prop :=
  ((After [] d d' /\ (forall b, r = Ok b -> b = true /\ dry_run = true \/ b = false /\ forall plan, ~ Manifest d plan)) \/
   exists root plan, Accepted root plan /\ dry_run = false /\
     Within pid (rollback :: (place root <$> AptPlan.apt_files plan)) d d' /\
     match r with
     | Ok done => done = true /\ Forall (fun file => Restored root file d') (AptPlan.apt_files plan) /\ text_at d' rollback = None
     | Err _ => text_at d' rollback = text_at d rollback /\ Forall (Stopped pid root before d d') (AptPlan.apt_files plan)
     end) /\
  (ResetWorks -> tape d = [] -> r = Ok true).

Lemma reset_refuses (e : string) (d' : Disk) : After [] d d' -> (ResetWorks -> tape d = [] -> False) -> ResetOutcome (Err e) d'.
Proof. intros Ha Hw. split; [by left|]. intros Hr Hq. by destruct (Hw Hr Hq). Qed.

Lemma each_file_quiet (W : Prop) (f : AptFile.t -> act unit) (files : list AptFile.t) (d1 : Disk) :
  (forall file d, Quiet W (fun _ => True) (f file) d) -> Quiet W (fun _ => True) (each_file f files) d1.
Proof.
  intros Hf. revert d1. induction files as [|file files IH]; intros d1; [by apply quiet_ret|].
  eapply quiet_bind; [apply Hf|]. intros. apply IH.
Qed.

Hypothesis Hfresh : fresh pid d.
Hypothesis Hrecord : is_record rollback.

(** Restoring the files, then removing the record. *)
Lemma reset_run (root : string) (plan : AptPlan.t) (d1 : Disk) :
  Accepted root plan -> After [] d d1 -> dry_run = false -> (ResetWorks -> tape d = [] -> tape d1 = []) ->
  (ResetWorks -> links d = ∅ /\ Forall (fun file => has_parent (place root file) = true) (AptPlan.apt_files plan)) ->
  let m := (do? _ := each_file (restore pid root) (AptPlan.apt_files plan) in do? _ := remove_file rollback in ret true) in
  ResetOutcome (m d1).1 (m d1).2.
Proof.
  intros Hac A1 Hdry Hq1 Hworks m. pose proof Hac as [Hm Hroot _ _ Hs Hd].
  destruct (sound_places plan root true force pid d _ Hs Hd) as (Hperm & Hord & Hnd).
  assert (I1 : Within pid [] d d1) by by apply within_look.
  pose proof (each_file_outcome pid root (restore pid root) before (Restored root) (AptPlan.apt_files plan) d1
    (restores pid root) (wi_fresh _ _ _ _ I1) Hord Hnd) as R2.
  unfold m. apply bind_cases. destruct (each_file _ _ d1) as [r2 d2]. destruct R2 as (I2 & W2 & T2).
  assert (Hnotin : rollback ∉ (place root <$> AptPlan.apt_files plan)).
  { intros (file & He & Hin)%list_elem_of_fmap. rewrite Forall_forall in Hperm. apply (record_not_permitted root rollback Hrecord). rewrite He. by apply Hperm. }
  assert (Hro : ordinary pid rollback) by by apply record_ordinary.
  assert (I02 : Within pid (rollback :: (place root <$> AptPlan.apt_files plan)) d d2) by (eapply within_trans; [exact I1|exact I2|set_solver..]).
  assert (Hr2 : text_at d2 rollback = text_at d rollback)
    by (rewrite (within_text pid _ d1 d2 rollback I2); [by apply text_after|done..]).
  assert (Hgo : ResetWorks -> tape d = [] -> is_ok r2 = true /\ tape d2 = []).
  { intros Hw Hq. destruct (Hworks Hw) as [Hl Hp]. apply W2; [|by apply Hq1]. apply Forall_forall. intros file Hin.
    rewrite Forall_forall in Hp, Hs. destruct (Hs file Hin) as (_ & Hmode & _). split_and!; [|by apply Hp|done].
    by rewrite (wi_links _ _ _ _ I1). }
  destruct r2 as [u2|e2].
  2: { split; [|intros Hw Hq; by destruct (Hgo Hw Hq)]. right. exists root, plan. split_and!; try done.
       eapply Forall_impl; [exact T2|]. intros file. unfold Stopped. by rewrite (text_after d d1). }
  assert (Hex : is_Some (nodes d2 !! rollback)).
  { destruct Hm as (text & value & Ht & _). rewrite <-Hr2 in Ht. unfold text_at in Ht. by destruct (nodes d2 !! rollback). }
  pose proof (remove_file_text pid rollback d2 (wi_fresh _ _ _ _ I2) Hro Hex) as R3. apply bind_cases.
  destruct (remove_file rollback d2) as [r3 d3]. destruct R3 as (I3 & W3 & T3).
  assert (I03 : Within pid (rollback :: (place root <$> AptPlan.apt_files plan)) d d3) by (eapply within_trans; [exact I02|exact I3|set_solver..]).
  assert (T2' : Forall (fun file => Restored root file d3) (AptPlan.apt_files plan)).
  { rewrite Forall_forall in T2, Hord |- *. intros file Hin. apply (ha_local _ _ _ _ _ (restores pid root) file d2); [by apply T2|].
    apply (wi_nodes _ _ _ _ I3); [|by apply ordinary_unused, Hord]. intros He%list_elem_of_singleton. apply Hnotin. rewrite <-He. by apply list_elem_of_fmap_2. }
  destruct r3 as [u3|e3]; cbn [ret fst snd].
  - split; [|done]. right. by exists root, plan.
  - split; [|intros Hw Hq; destruct (Hgo Hw Hq) as [_ Hq2]; by destruct (W3 Hq2)]. right. exists root, plan.
    split_and!; try done; [by rewrite T3|]. eapply Forall_impl; [exact T2'|]. intros file Hr. right. left.
    by apply (ha_text _ _ _ _ _ (restores pid root)).
Qed.

(** Facts about the record that [ResetWorks] gives when its text is known. *)
Lemma works_facts (text : string) (value : Value) :
  ResetWorks -> text_at d rollback = Some text -> json_from_str text = Some value ->
  json_get value "apt_files" <> None /\ one_of ["apt"; "system"] target = true /\
  forall root, root_from_rollback rollback = Ok root ->
  (exists expected, source_config_path target ScopeSystem root = Ok expected /\ same_path expected config = true) /\
  forall plan, plan_of_value value = Some plan ->
  Accepted root plan /\ links d = ∅ /\ Forall (fun file => has_parent (place root file) = true) (AptPlan.apt_files plan).
Proof.
  intros (root' & plan' & expected & Hac & Ht & Hc & Hsame & Hl & Hp & Hdry) Htext Hvalue.
  pose proof (ac_manifest _ _ Hac) as (text' & value' & Ht' & Hv' & Hg & Hplan).
  assert (text' = text) as -> by congruence. assert (value' = value) as -> by congruence.
  split_and!; [done|done|]. intros root Hroot. rewrite (ac_root _ _ Hac) in Hroot. injection Hroot as <-. split; [by eexists|].
  intros plan Hplan'. assert (plan' = plan) as -> by congruence. done.
Qed.

Lemma manifest_reset_outcome :
  ResetOutcome (reset_if_managed pid target config rollback force dry_run d).1 (reset_if_managed pid target config rollback force dry_run d).2.
Proof.
  assert (Hlinks : ResetWorks -> links d = ∅) by (intros (? & ? & ? & _ & _ & _ & _ & Hl & _); done).
  assert (Hn : forall d', After [] d d' -> (ResetWorks -> tape d = [] -> tape d' = []) ->
    forall e d'', After [] d' d'' -> (ResetWorks -> tape d' = [] -> False) -> ResetOutcome (Err e) d'').
  { intros d' Ha Hw e d'' Hb Hw'. apply reset_refuses; [by eapply after_trans|]. intros Hr Hq. by apply (Hw' Hr), Hw. }
  unfold reset_if_managed.
  eapply (quiet_step ResetWorks); [by apply quiet_reject_symlink|apply reset_refuses|]. intros _ d1 A1 _ W1.
  eapply (quiet_step ResetWorks); [apply quiet_read_optional|intros; by eapply (Hn d1)|]. intros content d2 A2 -> W2.
  rewrite (text_after d d1) by done. assert (A02 : After [] d d2) by by eapply after_trans.
  destruct (text_at d rollback) as [text|] eqn:Htext.
  2: { split; [|intros (root & plan & expected & Hac & _); destruct (ac_manifest _ _ Hac) as (? & ? & Ht & _); congruence].
       left. split; [done|]. intros b [= <-]. right. split; [done|]. intros plan (? & ? & Ht & _). congruence. }
  assert (W02 : ResetWorks -> tape d = [] -> tape d2 = []) by eauto.
  eapply (quiet_step ResetWorks); [apply quiet_of_option|intros; by eapply (Hn d2)|].
  { intros (root & plan & expected & Hac & _). destruct (ac_manifest _ _ Hac) as (text' & value & Ht & Hv & _). exists value. congruence. }
  intros value d3 A3 Hvalue W3. assert (A03 : After [] d d3) by by eapply after_trans. assert (W03 : ResetWorks -> tape d = [] -> tape d3 = []) by eauto.
  case_bool_decide as Hnone.
  { split; [|intros Hw; by destruct (works_facts text value Hw Htext Hvalue) as [Hg _]].
    left. split; [done|]. intros b [= <-]. right. split; [done|]. intros plan (text' & value' & Ht & Hv & Hg & _). congruence. }
  pose proof (fun Hw => works_facts text value Hw Htext Hvalue) as Hfacts.
  eapply (quiet_step ResetWorks); [apply quiet_ensure; intros Hw; by destruct (Hfacts Hw) as (_ & ? & _)|intros; by eapply (Hn d3)|].
  intros ? d4 A4 _ W4. assert (A04 : After [] d d4) by by eapply after_trans. assert (W04 : ResetWorks -> tape d = [] -> tape d4 = []) by eauto.
  eapply (quiet_step ResetWorks); [apply quiet_of_result|intros; by eapply (Hn d4)|].
  { intros (root & plan & expected & Hac & _). by rewrite (ac_root _ _ Hac). }
  intros root d5 A5 Hroot W5. assert (A05 : After [] d d5) by by eapply after_trans. assert (W05 : ResetWorks -> tape d = [] -> tape d5 = []) by eauto.
  eapply (quiet_step ResetWorks); [apply quiet_of_result|intros; by eapply (Hn d5)|].
  { intros Hw. destruct (Hfacts Hw) as (_ & _ & He). by destruct (He root Hroot) as [(e & -> & _) _]. }
  intros expected d6 A6 Hexp W6. assert (A06 : After [] d d6) by by eapply after_trans. assert (W06 : ResetWorks -> tape d = [] -> tape d6 = []) by eauto.
  eapply (quiet_step ResetWorks); [apply quiet_ensure|intros; by eapply (Hn d6)|].
  { intros Hw. destruct (Hfacts Hw) as (_ & _ & He). destruct (He root Hroot) as [(e & Hx & Hs) _]. congruence. }
  intros ? d7 A7 _ W7. assert (A07 : After [] d d7) by by eapply after_trans. assert (W07 : ResetWorks -> tape d = [] -> tape d7 = []) by eauto.
  eapply (quiet_step ResetWorks); [apply quiet_of_option|intros; by eapply (Hn d7)|].
  { intros (root' & plan & ? & Hac & _). destruct (ac_manifest _ _ Hac) as (text' & value' & Ht & Hv & _ & Hp). exists plan. congruence. }
  intros plan d8 A8 Hplan W8. assert (A08 : After [] d d8) by by eapply after_trans. assert (W08 : ResetWorks -> tape d = [] -> tape d8 = []) by eauto.
  assert (Hacc : ResetWorks -> Accepted root plan /\ links d = ∅ /\ Forall (fun file => has_parent (place root file) = true) (AptPlan.apt_files plan)).
  { intros Hw. destruct (Hfacts Hw) as (_ & _ & He). by apply (He root Hroot). }
  eapply (quiet_step ResetWorks); [apply quiet_ensure|intros; by eapply (Hn d8)|].
  { intros Hw. destruct (Hacc Hw) as (Hac & _). rewrite (ac_target _ _ Hac). apply String.eqb_refl. }
  intros ? d9 A9 Ht W9. apply String.eqb_eq in Ht. assert (A09 : After [] d d9) by by eapply after_trans. assert (W09 : ResetWorks -> tape d = [] -> tape d9 = []) by eauto.
  eapply (quiet_step ResetWorks) with (P := fun _ => Accepted root plan); [|intros; by eapply (Hn d9)|].
  { destruct (validate_quiet plan root true force d d9 A09) as (A10 & P10 & V10). split_and!; [done| |].
    - intros u Hu. destruct (P10 u Hu) as (Hwf & Hs & Hd). split; try done. by exists text, value.
    - intros Hw. destruct (Hacc Hw) as (Hac & Hl & _). destruct Hac. by apply V10. }
  intros u d10 A10 Hac W10. assert (A010 : After [] d d10) by by eapply after_trans. assert (W010 : ResetWorks -> tape d = [] -> tape d10 = []) by eauto.
  destruct dry_run eqn:Hdry.
  - eapply (quiet_step False (fun _ => True)); [apply each_file_quiet; intros file d'; eapply quiet_bind; [apply quiet_read_optional|intros; by apply quiet_ret]| |].
    + intros e d11 A11 _. split; [left; split; [by eapply after_trans|done]|]. intros (? & ? & ? & _ & _ & _ & _ & _ & _ & ?). congruence.
    + intros _ d11 A11 _ _. cbn. split; [left; split; [by eapply after_trans|]; intros b [= <-]; by left|]. intros (? & ? & ? & _ & _ & _ & _ & _ & _ & ?). congruence.
  - apply reset_run; try done. intros Hw. by destruct (Hacc Hw).
Qed.
End Reset.

(** ** The manifest as a text *)

Lemma plain_mode_bound (m : Z) : plain_mode (Some m) = true -> 0 <= m < 512.
Proof.
  cbn. intros Hm%Z.eqb_eq. assert (He : m = Z.land m 511).
  { apply Z.bits_inj'. intros i Hi. apply (f_equal (fun x => Z.testbit x i)) in Hm. rewrite Z.ldiff_spec, Z.bits_0 in Hm.
    rewrite Z.land_spec. by destruct (Z.testbit m i), (Z.testbit 511 i). }
  change 511 with (Z.ones 9) in He. rewrite Z.land_ones in He by lia. pose proof (Z.mod_pos_bound m (2 ^ 9)). lia.
Qed.

Lemma small_numbers_read_back : forallb (fun n => bool_decide (u32_of (Number (show_uint (Z.of_nat n))) = Some (Z.of_nat n))) (seq 0 512) = true.
Proof. by vm_compute. Qed.

Lemma small_number (m : Z) : 0 <= m < 512 -> u32_of (Number (show_uint m)) = Some m.
Proof.
  intros Hm. pose proof small_numbers_read_back as Hall. rewrite forallb_forall in Hall. specialize (Hall (Z.to_nat m)).
  rewrite Z2Nat.id in Hall by lia. apply (bool_decide_eq_true _), Hall, in_seq. lia.
Qed.

Lemma file_reads_back (file : AptFile.t) : plain_mode (AptFile.unix_mode file) = true -> file_of_value (value_of_file file) = Some file.
Proof.
  destruct file as [path original expected [m|] missing]; cbn [AptFile.unix_mode]; intros Hm; [|by destruct missing].
  apply plain_mode_bound, small_number in Hm. unfold file_of_value, value_of_file. cbn -[u32_of show_uint]. rewrite Hm. done.
Qed.

Lemma plan_reads (plan : AptPlan.t) :
  well_formed plan = true -> Forall (fun file => plain_mode (AptFile.unix_mode file) = true) (AptPlan.apt_files plan) ->
  plan_of_value (value_of_plan plan) = Some plan.
Proof.
  destruct plan as [version target files profile operation]. unfold well_formed. cbn [AptPlan.version AptPlan.apt_files]. intros Hwf Hm.
  assert (version = 1) as -> by (destruct (version =? 1) eqn:E; [by apply Z.eqb_eq|done]).
  assert (Hf : mapM file_of_value (value_of_file <$> files) = Some files).
  { clear Hwf. induction Hm as [|file files Hm _ IH]; [done|]. cbn [fmap list_fmap mapM]. rewrite file_reads_back by done. cbn. by rewrite IH. }
  unfold plan_of_value, value_of_plan. destruct operation; cbn -[u32_of show_uint mapM]; rewrite (small_number 1) by lia; cbn -[mapM];
    rewrite Hf; by destruct profile.
Qed.

(** ** Applying *)

Section Apply.
Context `{SetupApi} `{PlanPrinter} `{!PlanLaws}.
Variable pid : Z.
Variables (plan : AptPlan.t) (root rollback : string) (d : Disk).
Hypothesis Hfresh : fresh pid d.
Hypothesis Hrecord : is_record rollback.
Hypothesis Hroot : root_from_rollback rollback = Ok root.

Notation files := (AptPlan.apt_files plan).

(** The plan fits the disk. *)
Definition Fits : Prop := well_formed plan = true /\ Forall (Sound plan root false false d) files /\ distinct [] files.

Definition ApplyWorks : Prop :=
  Fits /\ text_at d rollback = None /\ is_Some (plan_pretty plan) /\ links d = ∅ /\ has_parent rollback = true /\
  Forall (fun file => has_parent (place root file) = true) files.

Definition ApplyOutcome (r : result unit string) (d' : Disk) : Prop :=
  ((is_ok r = false /\ Within pid [rollback] d d' /\ (text_at d rollback = None -> text_at d' rollback = None)) \/
   Fits /\ Manifest rollback d' plan /\ Within pid (rollback :: (place root <$> files)) d d' /\
   match r with
   | Ok _ => Forall (fun file => Installed root (AptFile.expected file) file d') files
   | Err _ => Forall (Stopped pid root (fun file => Some (AptFile.expected file)) d d') files
   end) /\
  (ApplyWorks -> tape d = [] -> is_ok r = true).

Lemma apply_refuses (e : string) (d' : Disk) : After [] d d' -> (ApplyWorks -> tape d = [] -> False) -> ApplyOutcome (Err e) d'.
Proof.
  intros Ha Hw. split; [|intros Hx Hq; by destruct (Hw Hx Hq)]. left. split_and!; [done|by apply within_look|]. by rewrite (text_after d d').
Qed.

(** Saving the record, then replacing the files. *)
Lemma apply_run (text : string) (d1 : Disk) :
  Fits -> After [] d d1 -> plan_pretty plan = Some text -> (ApplyWorks -> tape d = [] -> tape d1 = []) ->
  let m := (do? _ := write_atomic pid rollback text in
            each_file (fun file => context ("replacement incomplete; rollback retained at " +:+ rollback)
                                     (write pid file root (AptFile.expected file))) files) in
  ApplyOutcome (m d1).1 (m d1).2.
Proof.
  intros Hfits A1 Htext Hq1 m. pose proof Hfits as (Hwf & Hs & Hd). destruct (sound_places plan root false false pid d files Hs Hd) as (Hperm & Hord & Hnd).
  assert (I1 : Within pid [] d d1) by by apply within_look. assert (Hro : ordinary pid rollback) by by apply record_ordinary.
  pose proof (write_atomic_text pid rollback text d1 (wi_fresh _ _ _ _ I1) Hro) as R2. unfold m. apply bind_cases.
  destruct (write_atomic pid rollback text d1) as [r2 d2]. destruct R2 as (I2 & W2 & T2).
  assert (I02 : Within pid [rollback] d d2) by (eapply within_trans; [exact I1|exact I2|set_solver..]).
  assert (Hman : forall d', text_at d' rollback = Some text -> Manifest rollback d' plan).
  { intros d' Ht. exists text, (value_of_plan plan). split_and!; [done|by apply plan_reads_back|done|]. apply plan_reads; [done|].
    eapply Forall_impl; [exact Hs|]. by intros file (_ & ? & _). }
  assert (Hnotin : rollback ∉ (place root <$> files)).
  { intros (file & He & Hin)%list_elem_of_fmap. rewrite Forall_forall in Hperm. apply (record_not_permitted root rollback Hrecord). rewrite He. by apply Hperm. }
  assert (Hsame : forall file, file ∈ files -> text_at d2 (place root file) = text_at d (place root file)).
  { intros file Hin. rewrite Forall_forall in Hord. apply (within_text pid [rollback]); [done| |by apply Hord].
    intros He%list_elem_of_singleton. apply Hnotin. rewrite <-He. by apply list_elem_of_fmap_2. }
  assert (Hstop : Forall (Stopped pid root (fun file => Some (AptFile.expected file)) d d2) files).
  { apply Forall_forall. intros file Hin. left. by apply Hsame. }
  rewrite (text_after d d1) in T2 by done. destruct r2 as [u2|e2].
  2: { split; [|intros Hw Hq; pose proof Hw as (_ & _ & _ & Hl & Hp & _); destruct (W2 Hp) as [Hbad _]; [by apply Hq1|done]].
       destruct T2 as [T2|[T2|[T2 _]]]; [left; split_and!; [done|done|by rewrite T2]|right|left; by split_and!].
       split_and!; [done|by apply Hman| |done]. eapply within_trans; [exact I02|by apply (within_refl pid []), I02|set_solver..]. }
  pose proof (each_file_outcome pid root _ _ _ files d2 (replaces pid root ("replacement incomplete; rollback retained at " +:+ rollback))
    (wi_fresh _ _ _ _ I2) Hord Hnd) as R3.
  destruct (each_file _ files d2) as [r3 d3]. destruct R3 as (I3 & W3 & T3). cbn [fst snd].
  assert (I03 : Within pid (rollback :: (place root <$> files)) d d3) by (eapply within_trans; [exact I02|exact I3|set_solver..]).
  split.
  - right. split_and!; [done| |done|].
    + apply Hman. rewrite (within_text pid _ d2 d3 rollback I3); done.
    + destruct r3 as [u3|e3]; [done|]. rewrite Forall_forall in T3 |- *. intros file Hin. specialize (T3 file Hin). unfold Stopped in *.
      by rewrite Hsame in T3.
  - intros Hw Hq. pose proof Hw as (_ & _ & _ & Hl & Hp & Hps). assert (Hq2 : tape d2 = []) by by apply (W2 Hp), Hq1.
    apply W3; [|done]. apply Forall_forall. intros file Hin. rewrite Forall_forall in Hps, Hs. destruct (Hs file Hin) as (_ & Hmode & _).
    split_and!; [by rewrite (wi_links _ _ _ _ I02)|by apply Hps|done].
Qed.

Lemma migration_outcome : ApplyOutcome (apply pid plan rollback d).1 (apply pid plan rollback d).2.
Proof.
  assert (Hn : forall d', After [] d d' -> (ApplyWorks -> tape d = [] -> tape d' = []) ->
    forall e d'', After [] d' d'' -> (ApplyWorks -> tape d' = [] -> False) -> ApplyOutcome (Err e) d'').
  { intros d' Ha Hw e d'' Hb Hw'. apply apply_refuses; [by eapply after_trans|]. intros Hr Hq. by apply (Hw' Hr), Hw. }
  unfold apply. eapply (quiet_step ApplyWorks); [apply quiet_of_result; by rewrite Hroot|intros; by apply apply_refuses|].
  intros root' d1 A1 Hr W1. assert (root' = root) as -> by congruence.
  eapply (quiet_step ApplyWorks); [apply quiet_reject_symlink; intros (_ & _ & _ & Hl & _); by rewrite (af_links _ _ _ A1)|intros; by eapply (Hn d1)|].
  intros _ d2 A2 _ W2. assert (A02 : After [] d d2) by by eapply after_trans. assert (W02 : ApplyWorks -> tape d = [] -> tape d2 = []) by eauto.
  eapply (quiet_step ApplyWorks); [apply quiet_absent|intros; by eapply (Hn d2)|].
  { intros (_ & Ht & _). unfold exists_at. apply bool_decide_eq_false. unfold text_at in Ht. rewrite (after_nodes_eq _ _ A02).
    destruct (nodes d !! rollback); [done|]. by intros [? [=]]. }
  intros ? d3 A3 Habs W3. cbn in Habs. assert (A03 : After [] d d3) by by eapply after_trans. assert (W03 : ApplyWorks -> tape d = [] -> tape d3 = []) by eauto.
  eapply (quiet_step ApplyWorks) with (P := fun _ => Fits); [|intros; by eapply (Hn d3)|].
  { destruct (validate_quiet plan root false false d d3 A03) as (A4 & P4 & V4). split_and!; [done|exact P4|].
    intros ((Hwf & Hs & Hd) & _ & _ & Hl & _). by apply V4. }
  intros u d4 A4 Hfits W4. assert (A04 : After [] d d4) by by eapply after_trans. assert (W04 : ApplyWorks -> tape d = [] -> tape d4 = []) by eauto.
  eapply (quiet_step ApplyWorks); [apply quiet_of_option; by intros (_ & _ & ? & _)|intros; by eapply (Hn d4)|].
  intros text d5 A5 Htext W5. apply apply_run; [done|by eapply after_trans|done|]. intros Hw Hq. by apply W5, W04.
Qed.
End Apply.
