(* ===== verification/MigrationSpec.v ===== *)
(** * What a migration guarantees

    Theorems about [SystemPlan] and [SystemPrepare] together: planning only
    looks at the disk and captures what is there; an interrupted migration is
    recoverable; a reset brings back the texts and the permissions, only
    touches source files of distributions, and refuses before it changes
    anything. *)
From stdpp Require Import gmap.
From S2P Require Import Prelude RustStr Lines Url Fs Json Systems ClientFiles Setup SetupSpec Catalog SystemRewrite SystemRewriteSpec ClientSources ClientSteps SystemPlan SystemPrepare SystemPlanSpec.
Open Scope string_scope.
Open Scope Z_scope.
Open Scope list_scope.
Open Scope act_scope.

(** ** Planning only looks *)

Definition Looks {A} (m : act A) : Prop := forall d, Quiet False (fun _ => True) m d.

Create HintDb looks.

Lemma looks_ret {A} (x : A) : Looks (ret x).
Proof. intros d. by apply quiet_ret. Qed.

Lemma looks_bail {A} (message : string) : Looks (bail message : act A).
Proof. intros d. split_and!; [apply after_refl|done|done]. Qed.

Lemma looks_bind {A B} (m : act A) (k : A -> act B) : Looks m -> (forall x, Looks (k x)) -> Looks (bind m k).
Proof. intros Hm Hk d. eapply quiet_bind; [apply Hm|]. intros x d1 _ _. apply Hk. Qed.

Lemma looks_context {A} (message : string) (m : act A) : Looks m -> Looks (context message m).
Proof. intros Hm d. by apply quiet_context. Qed.

Lemma looks_ensure (b : bool) (message : string) : Looks (ensure b message).
Proof. unfold ensure. destruct b; [apply looks_ret|apply looks_bail]. Qed.

Lemma looks_of_option {A} (o : option A) (message : string) : Looks (of_option o message).
Proof. unfold of_option. destruct o; [apply looks_ret|apply looks_bail]. Qed.

Lemma looks_of_result {A} (r : result A string) : Looks (of_result r).
Proof. intros d. split_and!; [apply after_refl|done|done]. Qed.

Lemma looks_look {A} (f : Disk -> A) : Looks (look f).
Proof. intros d. split_and!; [apply after_refl|done|done]. Qed.

Lemma looks_reject_symlink (path : string) : Looks (reject_symlink path).
Proof. intros d. by apply quiet_reject_symlink. Qed.

Lemma looks_read_optional_file (path : string) : Looks (read_optional_file path).
Proof. intros d. destruct (quiet_read_optional False path d) as (A & _ & _). by split_and!. Qed.

Lemma looks_read_to_string (path : string) : Looks (read_to_string path).
Proof. intros d. destruct (quiet_read_to_string False path d) as (A & _ & _); [done|]. by split_and!. Qed.

Lemma looks_absent (path message : string) : Looks (absent path message).
Proof. intros d. destruct (quiet_absent False path message d) as (A & _ & _); [done|]. by split_and!. Qed.

Lemma looks_call {A} (f : Disk -> result A string) : Looks (call (fun d => (f d, d))).
Proof. intros d. split_and!; [apply quiet_call_after|done|done]. Qed.

Lemma looks_canonicalize (path : string) : Looks (canonicalize path).
Proof. apply looks_call. Qed.

Lemma looks_read_entries (path : string) : Looks (read_entries path).
Proof.
  intros d. split_and!; [|done|done]. apply call_after. intros d1. destruct (exists_at path d1); apply after_refl.
Qed.

Lemma looks_metadata (path : string) : Looks (metadata path).
Proof. apply (looks_call (fun d => result_of_option (nodes d !! path) not_found)). Qed.

#[export] Hint Resolve looks_ret looks_bail looks_context looks_ensure looks_of_option looks_of_result looks_look looks_reject_symlink
  looks_read_optional_file looks_read_to_string looks_absent looks_canonicalize looks_read_entries looks_metadata : looks.

Ltac looks :=
  repeat match goal with
  | |- Looks (bind _ _) => apply looks_bind; [|intros]
  | |- Looks (match ?x with _ => _ end) => destruct x
  | |- Looks (context _ _) => apply looks_context
  | |- Looks _ => first [solve [auto with looks]|progress cbv zeta]
  end.

Lemma looks_read_identification (root path : string) : Looks (read_identification root path).
Proof. unfold read_identification. looks. Qed.

Lemma looks_scan (root directory ext : string) : Looks (scan root directory ext).
Proof. unfold scan. looks. Qed.
#[export] Hint Resolve looks_read_identification looks_scan : looks.

Lemma looks_detect (root : string) : Looks (detect root).
Proof. unfold detect. looks. Qed.

Lemma looks_detect_distribution (root : string) : Looks (detect_distribution root).
Proof. unfold detect_distribution. looks. Qed.

Lemma looks_paths (root : string) (profile : SystemDistribution) : Looks (paths root profile).
Proof. unfold paths. looks. Qed.

Lemma looks_ensure_unmanaged (root : string) : Looks (ensure_unmanaged root).
Proof. unfold ensure_unmanaged. looks. Qed.

Lemma looks_select_gentoo (root : string) (selected : option (string * string)) (sources : list string) :
  Looks (select_gentoo root selected sources).
Proof. revert selected. induction sources as [|path rest IH]; intros selected; cbn [select_gentoo]; looks; apply IH. Qed.

Lemma looks_docker_ce_source (root : string) (profile : SystemDistribution) (release base : string) :
  Looks (docker_ce_source root profile release base).
Proof. unfold docker_ce_source. looks. Qed.

Lemma looks_any_pending (root : string) (files : list (string * string)) : Looks (any_pending root files).
Proof.
  induction files as [|[path expected] rest IH]; [apply (looks_ret false)|]. intros d. unfold Quiet. cbn [any_pending].
  destruct (looks_read_optional_file (at_root root path) d) as (A & _ & _). destruct (read_optional_file (at_root root path) d) as [[[content|]|e] d1];
    cbn in A; [|by split_and!..]. destruct (_ =? _)%string; [|by split_and!].
  destruct (IH d1) as (A2 & _ & _). split_and!; [by eapply after_trans|done|done].
Qed.

#[export] Hint Resolve looks_detect looks_detect_distribution looks_paths looks_ensure_unmanaged looks_select_gentoo
  looks_docker_ce_source looks_any_pending : looks.

Section Planning.
Context `{QueryApi}.

Lemma looks_prepare_files (root : string) (profile : SystemDistribution) (base version : string) (paths : list string) :
  Looks (prepare_files root profile base version paths).
Proof. induction paths as [|path rest IH]; cbn [prepare_files]; looks. Qed.

(** *** What a plan captures *)

(** The manifest holds the text and the permissions of the file. *)
Definition Captured (root : string) (d : Disk) (file : AptFile.t) : Prop :=
  text_at d (place root file) = before file /\
  forall n, nodes d !! place root file = Some n -> AptFile.unix_mode file = Some (Z.land (Node.mode n) 511).

Lemma metadata_quiet (path : string) (d : Disk) : Quiet False (fun n => nodes d !! path = Some n) (metadata path) d.
Proof.
  destruct (looks_metadata path d) as (A & _ & _). split_and!; [done| |done]. unfold metadata, call. case_next; [|done].
  rewrite <-Hn. intros n. cbn. by destruct (nodes d1 !! path); [intros [= ->]|].
Qed.

(** After a look the disk is as before. *)
Lemma quiet_look {A B} (P : B -> Prop) (m : act A) (k : A -> act B) (d0 d : Disk) :
  After [] d0 d -> Looks m -> (forall x d1, After [] d0 d1 -> Quiet False P (k x) d1) -> Quiet False P (bind m k) d.
Proof.
  intros Ha Hm Hk. eapply quiet_bind; [apply Hm|]. intros x d1 A1 _. apply Hk. by eapply after_trans.
Qed.

Lemma plan_files_captured (root : string) (files : list (string * string)) (d0 d : Disk) :
  After [] d0 d -> Quiet False (Forall (Captured root d0)) (planned_files root files) d.
Proof.
  revert d. induction files as [|[path expected] rest IH]; intros d Ha; cbn [planned_files]; [apply quiet_ret; constructor|].
  eapply quiet_look; [exact Ha|apply looks_reject_symlink|]. intros _ d1 A1.
  eapply quiet_bind; [apply quiet_read_optional|]. intros original d2 A2 ->. rewrite (text_after d0 d1) by done.
  assert (A02 : After [] d0 d2) by by eapply after_trans. case_bool_decide as Hsame; [by apply IH|].
  eapply (quiet_bind False (fun mode => forall n, nodes d0 !! at_root root path = Some n -> mode = Z.land (Node.mode n) 511)).
  { unfold text_at. destruct (nodes d0 !! at_root root path) as [n|] eqn:Hn; [|by apply quiet_ret].
    eapply quiet_bind; [apply metadata_quiet|]. intros n' d3 A3 Hn'. apply quiet_ret. rewrite (after_nodes_eq _ _ A02) in Hn'. congruence. }
  intros mode d3 A3 Hmode. assert (A03 : After [] d0 d3) by by eapply after_trans.
  eapply quiet_bind; [by apply IH|]. intros files d4 A4 Hfiles. apply quiet_ret. constructor; [|done].
  unfold Captured, place, before. cbn. split; [|intros n Hn; by rewrite (Hmode n)].
  case_bool_decide as Hnone; [done|]. by destruct (text_at d0 (at_root root path)).
Qed.

Lemma system_plan_captured (profile root : string) (files : list (string * string)) (d0 d : Disk) :
  After [] d0 d -> Quiet False (fun plan => Forall (Captured root d0) (AptPlan.apt_files plan)) (system_plan profile root files) d.
Proof.
  intros Ha. unfold system_plan. eapply quiet_bind; [by apply plan_files_captured|]. intros apt_files d1 A1 Hc.
  eapply quiet_bind; [by apply quiet_ensure|]. intros ? d2 A2 _. by apply quiet_ret.
Qed.

Ltac look_over :=
  first [ eapply quiet_look; [eassumption|solve [looks]|intros ? ? ?]
        | match goal with |- Quiet _ _ (match ?x with _ => _ end) _ => destruct x end
        | progress cbv zeta ].

Lemma prepare_captured (root requested : string) (base : option string) (d : Disk) :
  Quiet False (fun plan => Forall (Captured root d) (AptPlan.apt_files plan)) (prepare root requested base) d.
Proof.
  unfold prepare, prepare_gentoo_sync. pose proof (after_refl d []) as A0. pose proof looks_prepare_files as Hpf.
  repeat look_over; (eapply system_plan_captured; eassumption).
Qed.

Lemma apt_files_captured (root id repo_url : string) (paths : list string) (d0 d : Disk) :
  After [] d0 d -> Quiet False (Forall (Captured root d0)) (apt_files root id repo_url paths) d.
Proof.
  revert d. induction paths as [|path rest IH]; intros d Ha; cbn [apt_files]; [apply quiet_ret; constructor|].
  eapply quiet_look; [exact Ha|apply looks_ensure|]. intros _ d1 A1. eapply quiet_look; [exact A1|apply looks_reject_symlink|]. intros _ d2 A2.
  eapply quiet_bind; [apply quiet_read_optional|]. intros original d3 A3 ->. rewrite (text_after d0 d2) by done.
  assert (A03 : After [] d0 d3) by by eapply after_trans. destruct (text_at d0 (at_root root path)) as [original|] eqn:Ht; [|by apply IH].
  eapply quiet_look; [exact A03|apply looks_of_result|]. intros expected d4 A4. destruct (expected =? original)%string; [by apply IH|].
  eapply quiet_bind; [apply metadata_quiet|]. intros n d5 A5 Hn. rewrite (after_nodes_eq _ _ A4) in Hn.
  assert (A05 : After [] d0 d5) by by eapply after_trans. eapply quiet_bind; [by apply IH|]. intros files d6 A6 Hfiles.
  apply quiet_ret. constructor; [|done]. unfold Captured, place, before. cbn. split; [done|]. congruence.
Qed.

Lemma prepare_apt_captured (command : PlannedSourceCommand) (root rollback : string) (d : Disk) :
  Quiet False (fun plan => Forall (Captured root d) (AptPlan.apt_files plan)) (prepare_apt command root rollback) d.
Proof.
  unfold prepare_apt. pose proof (after_refl d []) as A0. repeat look_over.
  all: eapply quiet_bind; [by apply apt_files_captured|]; intros files d' A' Hfiles; eapply quiet_bind; [by apply quiet_ensure|]; intros ? ? ? _; by apply quiet_ret.
Qed.
End Planning.

(** ** What a record can do *)

(** Whatever the record of a migration holds, a reset changes only files
    that are sources of a distribution below the root, reached by names without
    dots or separators, and the record itself; it removes the record only when
    it reports success; and a dry run, like a reset that finds no manifest,
    changes nothing. *)
Theorem reset_confined `{SetupApi} (pid : Z) (target config rollback : string) (force dry_run : bool) (d : Disk) :
  fresh pid d -> is_record rollback ->
  let '(r, d') := reset_if_managed pid target config rollback force dry_run d in
  (forall q, ordinary pid q -> q <> rollback ->
   nodes d' !! q = nodes d !! q \/ dry_run = false /\ exists root, root_from_rollback rollback = Ok root /\ Permitted root q) /\
  (text_at d' rollback = text_at d rollback \/ r = Ok true /\ text_at d' rollback = None) /\
  (dry_run = true \/ r = Ok false -> nodes d' = nodes d).
Proof.
  intros Hf Hr. pose proof (manifest_reset_outcome pid target config rollback force dry_run d Hf Hr) as Ho.
  destruct (reset_if_managed _ _ _ _ _ _ d) as [r d']. destruct Ho as [Ho _]. cbn [fst snd] in Ho.
  destruct Ho as [[Ha _]|(root & plan & [_ Hroot _ _ Hs Hd] & Hdry & Hw & Ho)].
  { rewrite (after_nodes_eq _ _ Ha). split_and!; [by left| |done]. left. by apply text_after. }
  destruct (sound_places plan root true force pid d _ Hs Hd) as (Hperm & _ & _). split_and!.
  - intros q Hq Hqr. destruct (decide (q ∈ place root <$> AptPlan.apt_files plan)) as [Hin|Hin].
    + right. split; [done|]. exists root. split; [done|]. apply list_elem_of_fmap in Hin as (file & -> & Hin).
      rewrite Forall_forall in Hperm. by apply Hperm.
    + left. apply (wi_nodes _ _ _ _ Hw); [set_solver|by apply ordinary_unused].
  - destruct r as [done|e]; [right|left]; [destruct Ho as (-> & _ & ?); by split|apply Ho].
  - intros [?|Hno]; [congruence|]. rewrite Hno in Ho. by destruct Ho.
Qed.

Section Migration.
Context `{QueryApi} `{SetupApi} `{PlanPrinter} `{!PlanLaws}.
Variable pid : Z.
Variables root rollback : string.

(** C30: A migration never loses a source file, whatever call of the file
    system fails. Only the files of the plan and the record change; no file
    changes unless the record is saved, which then reads back as the plan; the
    plan held the text of every file; and a file of it is as before, has its
    new text, or was moved aside unchanged; when the migration succeeds it has
    its new text and its old permissions. *)
Theorem migration_recoverable (plan : AptPlan.t) (d : Disk) :
  fresh pid d -> is_record rollback -> root_from_rollback rollback = Ok root -> text_at d rollback = None ->
  let '(r, d') := apply pid plan rollback d in
  (forall q, ordinary pid q -> q <> rollback -> q ∉ (place root <$> AptPlan.apt_files plan) -> nodes d' !! q = nodes d !! q) /\
  (is_ok r = false /\ text_at d' rollback = None /\ (forall q, ordinary pid q -> nodes d' !! q = nodes d !! q \/ q = rollback) \/
   Manifest rollback d' plan /\
   Forall (fun file => Permitted root (place root file) /\ text_at d (place root file) = before file /\
     match r with
     | Ok _ => Installed root (AptFile.expected file) file d'
     | Err _ => Stopped pid root (fun file => Some (AptFile.expected file)) d d' file
     end) (AptPlan.apt_files plan)).
Proof.
  intros Hf Hr Hroot Hnone. destruct (migration_outcome pid plan root rollback d Hf Hr Hroot) as [Ho _].
  destruct (apply pid plan rollback d) as [r d']. cbn [fst snd] in Ho. destruct Ho as [(Hbad & Hw & Hno)|((_ & Hs & Hd) & Hm & Hw & Hfiles)].
  - split; [intros q Hq Hqr _; apply (wi_nodes _ _ _ _ Hw); [set_solver|by apply ordinary_unused]|]. left. split_and!; [done|by apply Hno|].
    intros q Hq. destruct (decide (q = rollback)) as [->|Hqr]; [by right|left]. apply (wi_nodes _ _ _ _ Hw); [set_solver|by apply ordinary_unused].
  - destruct (sound_places plan root false false pid d _ Hs Hd) as (Hperm & _ & _).
    split; [intros q Hq Hqr Hin; apply (wi_nodes _ _ _ _ Hw); [set_solver|by apply ordinary_unused]|]. right. split; [done|].
    rewrite Forall_forall in Hs, Hperm |- *. intros file Hin. destruct (Hs file Hin) as (_ & _ & He).
    split_and!; [by apply Hperm|destruct He as [?|[? _]]; done|]. destruct r; rewrite Forall_forall in Hfiles; by apply Hfiles.
Qed.

(** A plan that was made on the disk [d]. *)
Definition Planned (plan : AptPlan.t) (d : Disk) : Prop :=
  (exists requested base d0 plan0, prepare root requested base d0 = (Ok plan0, d) /\ plan = with_operation requested plan0) \/
  (exists command d0, prepare_apt command root rollback d0 = (Ok plan, d)).

Lemma planned_captured (plan : AptPlan.t) (d : Disk) : Planned plan d -> Forall (Captured root d) (AptPlan.apt_files plan).
Proof.
  assert (Hsame : forall d0 files, After [] d0 d -> Forall (Captured root d0) files -> Forall (Captured root d) files).
  { intros d0 files Ha Hc. eapply Forall_impl; [exact Hc|]. intros file [Ht Hm]. unfold Captured.
    by rewrite (text_after d0 d), (after_nodes_eq _ _ Ha). }
  intros [(requested & base & d0 & plan0 & Hp & ->)|(command & d0 & Hp)].
  - destruct (prepare_captured root requested base d0) as (A & P & _). rewrite Hp in A, P. cbn in A, P. specialize (P plan0 eq_refl).
    apply (Hsame d0); [done|]. unfold with_operation. by destruct (one_of _ _).
  - destruct (prepare_apt_captured command root rollback d0) as (A & P & _). rewrite Hp in A, P. by apply (Hsame d0), P.
Qed.

(** C31:A migration can be undone, also when it was interrupted. A reset that
    finds its record and succeeds brings every file of the plan back, the text
    and the permissions, and removes those that were not there; when a file
    has neither its old nor its new text, it refuses before it changes any;
    and when none has another text and the system reports no error, it
    succeeds. *)
Theorem migration_undone (plan : AptPlan.t) (d d1 d2 : Disk) (r1 : result unit string) (config : string) :
  fresh pid d -> is_record rollback -> root_from_rollback rollback = Ok root -> text_at d rollback = None ->
  Planned plan d -> apply pid plan rollback d = (r1, d1) -> text_at d1 rollback <> None ->
  fresh pid d2 -> text_at d2 rollback = text_at d1 rollback ->
  let '(r, d3) := reset_if_managed pid (AptPlan.target_code plan) config rollback false false d2 in
  (is_ok r = true -> r = Ok true /\ text_at d3 rollback = None /\
   Forall (fun file => text_at d3 (place root file) = text_at d (place root file) /\
     forall n, nodes d !! place root file = Some n ->
     exists n', nodes d3 !! place root file = Some n' /\ Node.mode n' = Z.land (Node.mode n) 511) (AptPlan.apt_files plan)) /\
  (Exists (fun file => text_at d2 (place root file) <> before file /\ text_at d2 (place root file) <> Some (AptFile.expected file))
     (AptPlan.apt_files plan) -> is_ok r = false /\ nodes d3 = nodes d2) /\
  (tape d2 = [] -> links d2 = ∅ -> Forall (fun file => has_parent (place root file) = true) (AptPlan.apt_files plan) ->
   source_config_path (AptPlan.target_code plan) ScopeSystem root = Ok config ->
   Forall (fun file => text_at d2 (place root file) = before file \/ text_at d2 (place root file) = Some (AptFile.expected file))
     (AptPlan.apt_files plan) -> r = Ok true).
Proof.
  intros Hf Hr Hroot Hnone Hplan Happly Hsome Hf2 Hkept. apply planned_captured in Hplan.
  destruct (migration_outcome pid plan root rollback d Hf Hr Hroot) as [Ho _]. rewrite Happly in Ho. cbn [fst snd] in Ho.
  destruct Ho as [(_ & _ & Hno)|((Hwf & Hs & Hd) & (text & value & Ht & Hv & Hg & Hp) & _)]; [by destruct Hsome; apply Hno|].
  pose proof (manifest_reset_outcome pid (AptPlan.target_code plan) config rollback false false d2 Hf2 Hr) as [Ho Hworks].
  destruct (reset_if_managed _ _ _ _ _ _ d2) as [r d3]. cbn [fst snd] in Ho, Hworks.
  assert (Hm2 : Manifest rollback d2 plan) by (exists text, value; by rewrite Hkept).
  assert (Hsame : forall plan', Manifest rollback d2 plan' -> plan' = plan).
  { intros plan' (text' & value' & Ht' & Hv' & _ & Hp'). rewrite Hkept in Ht'. congruence. }
  split_and!.
  - intros Hok. destruct r as [b|e]; [|done]. destruct Ho as [[_ Hb]|(root' & plan' & Hac & _ & _ & -> & Hres & Hgone)].
    { destruct (Hb b eq_refl) as [[_ ?]|[_ Hno]]; [done|by destruct (Hno plan)]. }
    assert (plan' = plan) as -> by (apply Hsame, Hac). assert (root' = root) as -> by (pose proof (ac_root _ _ _ _ _ _ Hac); congruence).
    split_and!; [done|done|]. rewrite Forall_forall in Hs, Hres, Hplan |- *. intros file Hin. specialize (Hres file Hin).
    destruct (Hs file Hin) as (_ & _ & [He|[? _]]); [|done]. destruct (Hplan file Hin) as [_ Hmode].
    unfold Restored, Installed, text_at, before in *. destruct (AptFile.was_missing file).
    + rewrite Hres. cbn. destruct (nodes d !! place root file); [done|]. by split.
    + destruct Hres as (n' & Hn' & Ht' & Hm'). rewrite Hn', He. cbn. rewrite Ht'. split; [done|]. intros n Hn. exists n'. split; [done|]. by apply Hm', Hmode.
  - intros (file & Hin & Hb & He)%Exists_exists. destruct Ho as [[Ha Hok]|(root' & plan' & Hac & _)].
    + split; [|by apply after_nodes_eq]. destruct r as [b|e]; [|done]. destruct (Hok b eq_refl) as [[_ ?]|[_ Hno]]; [done|by destruct (Hno plan)].
    + assert (plan' = plan) as -> by (apply Hsame, Hac). assert (root' = root) as -> by (pose proof (ac_root _ _ _ _ _ _ Hac); congruence).
      pose proof (ac_sound _ _ _ _ _ _ Hac) as Hs2. rewrite Forall_forall in Hs2. destruct (Hs2 file Hin) as (_ & _ & [?|[_ [?|?]]]); done.
  - intros Hq Hl Hpar Hconfig Htexts. apply Hworks; [|done]. exists root, plan, config. split_and!; try done.
    + split; try done. rewrite Forall_forall in Hs, Htexts |- *. intros file Hin. destruct (Hs file Hin) as (Hname & Hmode & _).
      split_and!; [done..|]. unfold Expected. destruct (Htexts file Hin); [by left|right; split; [done|by left]].
    + unfold well_formed in Hwf. apply andb_prop in Hwf as [Hwf _]. apply andb_prop in Hwf as [_ Hwf]. unfold one_of. cbn [existsb].
      apply orb_prop in Hwf as [[Hx _]%andb_prop|[Hx _]%andb_prop]; rewrite Hx; by rewrite ?orb_true_r.
    + unfold same_path. by rewrite !bool_decide_true.
Qed.
End Migration.

(** ** Concrete runs *)

Module Example.
#[local] Existing Instance SystemRewriteSpec.Example.queries.
#[local] Existing Instance SetupSpec.Example.setup_api.
Definition print (p : AptPlan.t) : string := json_pretty (value_of_plan p) +:+ nl.

#[local] Instance printer : PlanPrinter := {| plan_pretty p := Some (print p) |}.

#[local] Instance printer_laws : PlanLaws.
Proof. constructor. intros p s Hs. assert (s = print p) as -> by (unfold plan_pretty, printer in Hs; congruence). unfold print. apply (@json_pretty_parses _ SetupSpec.Example.setup_api_laws). Qed.

Definition os_release : string := "ID=debian" +:+ nl +:+ "VERSION_ID=" +:+ dq +:+ "12" +:+ dq +:+ nl +:+ "VERSION_CODENAME=bookworm" +:+ nl.

Definition entry (suite : string) : string := "deb http://deb.debian.org/debian " +:+ suite +:+ " main" +:+ nl.

(** Debian with two lists of sources; its identification is a link. *)
Definition disk : Disk := {|
  nodes := {[ "/usr/lib/os-release" := {| Node.text := os_release; Node.mode := 420 |};
              "/etc/apt/sources.list" := {| Node.text := entry "bookworm"; Node.mode := 420 |};
              "/etc/apt/sources.list.d/x.list" := {| Node.text := entry "bookworm-updates"; Node.mode := 384 |} ]};
  links := {[ "/etc/os-release" := "../usr/lib/os-release" ]}; tape := []; sequence := 0 |}.

Definition record : string := "/var/lib/mirrorproxy/sources/system.json".

Definition no_plan : AptPlan.t := {| AptPlan.version := 0; AptPlan.target_code := ""; AptPlan.apt_files := [];
  AptPlan.system_profile := None; AptPlan.system_operation := None |}.

(** The system reports an error while the second file is replaced. *)
Definition unlucky : Disk := {| nodes := nodes disk; links := links disk; tape := replicate 84 Fine ++ [Fails 0]; sequence := 0 |}.

Notation planned d := (prepare "/" "system" (Some "https://m.example") d).
Definition plan : AptPlan.t := match (planned disk).1 with Ok p => p | Err _ => no_plan end.
Definition start : Disk := (planned unlucky).2.
Definition stopped : Disk := (apply 7 plan record start).2.

Lemma planned_start : planned unlucky = (Ok plan, start).
Proof. assert (Hp : (planned unlucky).1 = Ok plan) by by vm_compute. rewrite <-Hp. apply surjective_pairing. Qed.

Lemma system_is_no_operation (p : AptPlan.t) : with_operation "system" p = p.
Proof. done. Qed.

Lemma plan_planned : Planned "/" record plan start.
Proof.
  left. exists "system", (Some "https://m.example"), unlucky, plan. split; [|symmetry; apply system_is_no_operation].
  exact planned_start.
Qed.

Lemma fresh_start : fresh 7 start.
Proof. apply SetupSpec.Example.fresh_when_ordinary, (bool_decide_unpack _). by vm_compute. Qed.

Lemma fresh_stopped : fresh 7 stopped.
Proof. apply SetupSpec.Example.fresh_when_ordinary, (bool_decide_unpack _). by vm_compute. Qed.

Lemma record_is_record : is_record record.
Proof. by exists "/var/lib/mirrorproxy/sources/system". Qed.

Lemma migration_recoverable_witness :
  is_ok (apply 7 plan record start).1 = false /\ Manifest record stopped plan /\
  text_at stopped "/etc/apt/sources.list" = Some ("deb https://m.example/os/debian/ bookworm main" +:+ nl) /\
  text_at stopped "/etc/apt/sources.list.d/x.list" = Some (entry "bookworm-updates").
Proof.
  assert (Hr : is_ok (apply 7 plan record start).1 = false) by by vm_compute.
  assert (Hs : text_at stopped record <> None) by (apply (bool_decide_unpack _); by vm_compute).
  split_and!; [exact Hr| |by vm_compute|by vm_compute].
  pose proof (migration_recoverable 7 "/" record plan start fresh_start record_is_record eq_refl ltac:(by vm_compute)) as Hk.
  revert Hk Hs. unfold stopped. destruct (apply 7 plan record start) as [r d']. cbn [fst snd].
  intros [_ [(_ & Hn & _)|[Hm _]]] Hs; [by destruct (Hs Hn)|exact Hm].
Defined.

Lemma migration_undone_witness :
  Forall (fun file => text_at (reset_if_managed 7 "system" "/etc/mirrorproxy/system-sources" record false false stopped).2 (place "/" file)
            = text_at start (place "/" file)) (AptPlan.apt_files plan).
Proof.
  assert (Hs : text_at stopped record <> None) by (apply (bool_decide_unpack _); by vm_compute).
  assert (Hnone : text_at start record = None) by by vm_compute.
  assert (Hok : is_ok (reset_if_managed 7 "system" "/etc/mirrorproxy/system-sources" record false false stopped).1 = true) by by vm_compute.
  pose proof (fun Hp => migration_undone 7 "/" record plan start stopped stopped (apply 7 plan record start).1 "/etc/mirrorproxy/system-sources"
    fresh_start record_is_record eq_refl Hnone Hp (surjective_pairing _) Hs fresh_stopped eq_refl) as Hu.
  specialize (Hu plan_planned).
  assert (Ht : AptPlan.target_code plan = "system") by by vm_compute. rewrite Ht in Hu. revert Hu Hok.
  destruct (reset_if_managed _ _ _ _ _ _ stopped) as [r d3]. cbn [fst snd]. intros (Hu & _) Hok. destruct (Hu Hok) as (_ & _ & Hf).
  eapply Forall_impl; [exact Hf|]. by intros file [Ht' _].
Defined.

(** A record that names a file outside of the sources. *)
Definition tampered : Disk :=
  let file := {| AptFile.path := "usr/lib/os-release"; AptFile.original := "ID=evil"; AptFile.expected := os_release;
                 AptFile.unix_mode := None; AptFile.was_missing := false |} in
  {| nodes := <[record := {| Node.text := print {| AptPlan.version := 1; AptPlan.target_code := "system"; AptPlan.apt_files := [file];
        AptPlan.system_profile := Some "debian"; AptPlan.system_operation := None |}; Node.mode := 384 |}]> (nodes disk);
     links := links disk; tape := []; sequence := 0 |}.

Lemma reset_confined_witness :
  nodes (reset_if_managed 7 "system" "/etc/mirrorproxy/system-sources" record true false tampered).2 !! "/usr/lib/os-release" =
  Some {| Node.text := os_release; Node.mode := 420 |}.
Proof.
  assert (Hf : fresh 7 tampered) by (apply SetupSpec.Example.fresh_when_ordinary, (bool_decide_unpack _); by vm_compute).
  assert (Hn : nodes tampered !! "/usr/lib/os-release" = Some {| Node.text := os_release; Node.mode := 420 |}) by by vm_compute.
  pose proof (reset_confined 7 "system" "/etc/mirrorproxy/system-sources" record true false tampered Hf record_is_record) as Hc.
  destruct (reset_if_managed _ _ _ _ _ _ tampered) as [r d']. cbn [snd]. destruct Hc as [Hc _].
  destruct (Hc "/usr/lib/os-release") as [He|(_ & root & _ & Hp)]; [by apply ordinary_path|done|by rewrite He|].
  destruct (ends_in_inj ["e"%char] ENDS "/usr/lib/os-release") as (c & Hc1 & Hc2); [by exists "/usr/lib/os-releas", "e"%char; split; [|apply list_elem_of_singleton]|by eapply permitted_end|].
  apply list_elem_of_singleton in Hc1 as ->. revert Hc2. assert (Hne : "e"%char ∉ ENDS) by (apply (bool_decide_unpack _); by vm_compute). intros Hc2. by destruct (Hne Hc2).
Defined.
End Example.
