(* ===== verification/Requests.v ===== *)
(** * What the server reads from a request

    The functions of [main.rs] that turn headers into decisions: host and base
    URL, transport, session cookies, the proof against cross-site requests and
    the redirect of the plain listener. *)
From S2P Require Import Prelude RustStr Net Headers Url Config TrustedProxy.
Open Scope string_scope.
Open Scope list_scope.

(** ** The request *)

Record UserRoutingContext : Type := { ctx_user_id : Z; ctx_routing_id : string }.

(** Observations for the administrator's diagnostics page. *)
Record ConnectionDiagnostics : Type := {
  cd_peer_ip : option IpAddr;
  cd_trusted_proxy : bool;
  cd_forwarded_https : bool;
  cd_effective_https : bool;
}.

(** [extensions]: the peer of the connection, whether it is the HTTPS listener,
    the user the host belongs to, and the diagnostics. *)
Record Request `{HeaderApi} : Type := {
  rq_method : string;
  rq_scheme : option string;
  rq_path : string;
  rq_query : option string;
  rq_headers : HeaderMap;
  rq_peer : option IpAddr;
  rq_https_transport : bool;
  rq_user : option UserRoutingContext;
  rq_diagnostics : option ConnectionDiagnostics;
}.

Definition with_headers `{HeaderApi} (h : HeaderMap) (r : Request) : Request := {|
  rq_method := rq_method r; rq_scheme := rq_scheme r; rq_path := rq_path r; rq_query := rq_query r;
  rq_headers := h; rq_peer := rq_peer r; rq_https_transport := rq_https_transport r; rq_user := rq_user r;
  rq_diagnostics := rq_diagnostics r;
|}.

Definition with_user `{HeaderApi} (user : UserRoutingContext) (r : Request) : Request := {|
  rq_method := rq_method r; rq_scheme := rq_scheme r; rq_path := rq_path r; rq_query := rq_query r;
  rq_headers := rq_headers r; rq_peer := rq_peer r; rq_https_transport := rq_https_transport r;
  rq_user := Some user; rq_diagnostics := rq_diagnostics r;
|}.

Definition with_diagnostics `{HeaderApi} (diagnostics : option ConnectionDiagnostics) (r : Request) : Request := {|
  rq_method := rq_method r; rq_scheme := rq_scheme r; rq_path := rq_path r; rq_query := rq_query r;
  rq_headers := rq_headers r; rq_peer := rq_peer r; rq_https_transport := rq_https_transport r;
  rq_user := rq_user r; rq_diagnostics := diagnostics;
|}.

(** ** Cookies *)

Definition ADMIN_SESSION_COOKIE : string := "mirrorproxy_admin_session".
Definition ADMIN_CSRF_COOKIE : string := "__Host-mirrorproxy_admin_csrf".
Definition SESSION_COOKIE_MAX_AGE_SECS : Z := 24 * 60 * 60.
Definition USER_SESSION_COOKIE : string := "mirrorproxy_user_session".
Definition USER_CSRF_COOKIE : string := "__Host-mirrorproxy_user_csrf".
Definition USER_SESSION_COOKIE_MAX_AGE_SECS : Z := 30 * 24 * 60 * 60.

Definition HTTP_BROWSER_COOKIES : list (string * string) := [
  (ADMIN_SESSION_COOKIE, "mirrorproxy_admin_session_http");
  (ADMIN_CSRF_COOKIE, "mirrorproxy_admin_csrf_http");
  (USER_SESSION_COOKIE, "mirrorproxy_user_session_http");
  (USER_CSRF_COOKIE, "mirrorproxy_user_csrf_http")].

Section Cookies.
Context `{HeaderApi}.

Definition cookie_value (headers : HeaderMap) (name : string) : option string :=
  match h_get_str headers "cookie" with
  | None => None
  | Some value =>
      find_map (fun p => if (p.1 =? name) && negb (str_is_empty p.2) then Some p.2 else None)
        (omap (fun item => split_once "=" (str_trim item)) (str_split ";" value))
  end.

Definition bearer_token (headers : HeaderMap) : option string :=
  match h_get_str headers "authorization" ≫= strip_prefix "Bearer " with
  | Some token => if str_is_empty token then None else Some token
  | None => None
  end.

Definition admin_token (headers : HeaderMap) : option string :=
  match cookie_value headers ADMIN_SESSION_COOKIE with Some t => Some t | None => bearer_token headers end.

Definition user_token (headers : HeaderMap) : option string := cookie_value headers USER_SESSION_COOKIE.

(** The inner [for] of [normalize_browser_session_cookies], then the pair itself. *)
Definition normalize_pair (secure : bool) (pair : string) : option string :=
  match split_once "=" (str_trim pair) with
  | None => None
  | Some (name, value) =>
      match find_map (fun c =>
              if name =? c.1 then Some (if secure then Some (name +:+ "=" +:+ value) else None)
              else if name =? c.2 then Some (if secure then None else Some (c.1 +:+ "=" +:+ value))
              else None) HTTP_BROWSER_COOKIES with
      | Some answer => answer
      | None => Some (name +:+ "=" +:+ value)
      end
  end.

(** [None] is the panic of [HeaderValue::from_str(..).expect(..)]. *)
Definition normalize_browser_session_cookies (secure : bool) (headers : HeaderMap) : option HeaderMap :=
  let cookies := str_join "; "
    (omap (normalize_pair secure)
       (mjoin (str_split ";" <$> omap h_to_str (h_get_all headers "cookie")))) in
  let headers := h_remove "cookie" headers in
  if str_is_empty cookies then Some headers
  else (fun v => h_insert "cookie" v headers) <$> h_from_str cookies.

(** One [Set-Cookie] of the answer over plain HTTP. *)
Definition adapt_cookie (cookie : HeaderValue) : option HeaderValue :=
  match h_to_str cookie ≫= fun text =>
          find_map (fun c => pair c.2 <$> (strip_prefix c.1 text ≫= strip_prefix "=")) HTTP_BROWSER_COOKIES with
  | None => Some cookie
  | Some (http_name, value) =>
      let value := str_join ";"
        (List.filter (fun a => negb (eq_ignore_ascii_case (str_trim a) "secure")) (str_split ";" value)) in
      h_from_str (http_name +:+ "=" +:+ value)
  end.

Definition adapt_http_browser_cookies (headers : HeaderMap) : option HeaderMap :=
  (fun cookies => fold_left (fun h c => h_append "set-cookie" c h) cookies (h_remove "set-cookie" headers)) <$>
    collect_options adapt_cookie (h_get_all headers "set-cookie").

Definition user_session_cookie (token : string) : option HeaderValue :=
  h_from_str (USER_SESSION_COOKIE +:+ "=" +:+ token +:+ "; Path=/; HttpOnly; Secure; SameSite=Lax; Max-Age=" +:+
              show_uint USER_SESSION_COOKIE_MAX_AGE_SECS).

Definition admin_session_cookie (token : string) (max_age_secs : Z) : option HeaderValue :=
  h_from_str (ADMIN_SESSION_COOKIE +:+ "=" +:+ token +:+ "; Path=/admin; HttpOnly; Secure; SameSite=Strict; Max-Age=" +:+
              show_uint max_age_secs).
End Cookies.

(** ** Host, scheme and base URL *)

Section Host.
Context `{HeaderApi} `{UrlApi}.

Definition request_uses_https (request : Request) (config : Config.t) : bool :=
  if rq_https_transport request || bool_decide (rq_scheme request = Some "https") then true
  else
    let trusted_peer := match rq_peer request with
                        | Some peer => is_trusted_proxy (Config.trusted_proxies config) peer
                        | None => false
                        end in
    trusted_peer && match forwarded_header_value (rq_headers request) "x-forwarded-proto" with
                    | Some scheme => eq_ignore_ascii_case scheme "https"
                    | None => false
                    end.

(** [x-forwarded-host], else [Host]. *)
Definition authority_header (headers : HeaderMap) : option string :=
  match forwarded_header_value headers "x-forwarded-host" with
  | Some host => Some host
  | None => header_value headers "host"
  end.

Definition request_public_base_url (headers : HeaderMap) : option string :=
  match authority_header headers with
  | None => None
  | Some host =>
      let scheme := match forwarded_header_value headers "x-forwarded-proto" with
                    | Some scheme =>
                        if eq_ignore_ascii_case scheme "http" || eq_ignore_ascii_case scheme "https"
                        then scheme else "http"
                    | None => "http"
                    end in
      match url_parse (to_ascii_lowercase scheme +:+ "://" +:+ host) with
      | None => None
      | Some url =>
          if negb (str_is_empty (url_username url)) || bool_decide (is_Some (url_password url))
             || negb (bool_decide (is_Some (url_host_str url))) || negb (url_path url =? "/")
             || bool_decide (is_Some (url_query url)) || bool_decide (is_Some (url_fragment url))
          then None
          else Some (trim_end_matches "/" (url_as_str url))
      end
  end.

Definition request_host (headers : HeaderMap) : option string :=
  match authority_header headers with
  | None => None
  | Some host =>
      match url_parse ("http://" +:+ host) with
      | None => None
      | Some url =>
          if negb (str_is_empty (url_username url)) || bool_decide (is_Some (url_password url))
             || negb (url_path url =? "/") || bool_decide (is_Some (url_query url))
             || bool_decide (is_Some (url_fragment url))
          then None
          else (fun h => to_ascii_lowercase (trim_end_matches "." h)) <$> url_host_str url
      end
  end.

Definition public_base_url (config : Config.t) (headers : HeaderMap) : string :=
  let base_domain := UserAccessConfig.base_domain (Config.user_access config) in
  let configured :=
    if str_is_empty (Config.public_base_url config)
    then match request_public_base_url headers with Some url => url | None => "" end
    else Config.public_base_url config in
  if str_is_empty base_domain then configured
  else match request_host headers with
       | Some host =>
           if negb (host =? base_domain) && ends_with ("." +:+ base_domain) host then "https://" +:+ host
           else configured
       | None => configured
       end.
End Host.

(** ** The proof against cross-site requests *)

(** HMAC-SHA-256, [hex] and [Authority] of the [http] crate are third-party
    code. An authority is its host and port. *)
Class CsrfApi : Type := {
  hmac_sha256 : string -> string -> string;
  hex_encode : string -> string;
  hex_decode : string -> option string;
  authority_parse : string -> option (string * option Z);
}.

Class CsrfLaws `{CsrfApi} : Prop := {
  hex_decode_encode s : hex_decode (hex_encode s) = Some s;
}.

Definition CSRF_HEADER : string := "x-mirrorproxy-csrf".
Definition CSRF_CONTEXT : string := "MirrorProxy browser CSRF token v1".

Section Csrf.
Context `{HeaderApi} `{UrlApi} `{CsrfApi}.

Definition csrf_token (session_token : string) : string := hex_encode (hmac_sha256 session_token CSRF_CONTEXT).

(** [Hmac::new_from_slice] accepts keys of every length. *)
Definition valid_csrf_header (headers : HeaderMap) (session_token : string) : bool :=
  match header_value headers CSRF_HEADER ≫= hex_decode with
  | None => false
  | Some provided => provided =? hmac_sha256 session_token CSRF_CONTEXT
  end.

Definition request_has_same_origin (headers : HeaderMap) : bool :=
  let supplied := match header_value headers "origin" with
                  | Some v => Some v
                  | None => header_value headers "referer"
                  end in
  match supplied ≫= url_parse with
  | None => false
  | Some url =>
      if negb ((url_scheme url =? "http") || (url_scheme url =? "https")) || negb (str_is_empty (url_username url))
         || bool_decide (is_Some (url_password url)) || negb (bool_decide (is_Some (url_host_str url)))
      then false
      else match authority_header headers ≫= authority_parse with
           | None => false
           | Some (host, port) =>
               if negb (match url_host_str url with Some h => eq_ignore_ascii_case h host | None => false end)
                  || match port with
                     | Some port => negb (bool_decide (url_port_or_known_default url = Some port))
                     | None => bool_decide (is_Some (url_port url))
                     end
               then false
               else match forwarded_header_value headers "x-forwarded-proto" with
                    | Some scheme => eq_ignore_ascii_case scheme (url_scheme url)
                    | None => true
                    end
           end
  end.

(** The cookie whose session a request of this path would use. *)
Definition guarded_session (path : string) (headers : HeaderMap) : option string :=
  if starts_with "/admin/api/" path
     && negb (existsb (String.eqb path)
                ["/admin/api/auth/login"; "/admin/api/auth/passkey/login/start";
                 "/admin/api/auth/passkey/login/finish"])
  then cookie_value headers ADMIN_SESSION_COOKIE
  else if starts_with "/api/account/" path || (path =? "/api/auth/logout")
  then cookie_value headers USER_SESSION_COOKIE
  else None.

(** Whether [csrf_protection_middleware] lets the request through. *)
Definition csrf_passes (request : Request) : bool :=
  if negb (existsb (String.eqb (rq_method request)) ["POST"; "PUT"; "PATCH"; "DELETE"]) then true
  else match guarded_session (rq_path request) (rq_headers request) with
       | None => true
       | Some session_token =>
           negb (negb (request_has_same_origin (rq_headers request))
                 || negb (valid_csrf_header (rq_headers request) session_token))
       end.

(** ** The plain HTTP listener *)

Definition acme_domain_matches_host (domain host : string) : bool :=
  match strip_prefix "*." domain with
  | Some suffix =>
      match strip_suffix ("." +:+ suffix) host with
      | Some label => negb (str_is_empty label) && negb (contains_char "." label)
      | None => false
      end
  | None => domain =? host
  end.

(** [path_and_query] is that of the request's URI. An error is a status. *)
Definition direct_https_location (headers : HeaderMap) (path_and_query : option string) (domains : list string)
    (https_port : Z) : result HeaderValue Z :=
  match h_get_str headers "host" ≫= authority_parse with
  | None => Err 400%Z
  | Some (host, _) =>
      let host := to_ascii_lowercase (trim_end_matches "." host) in
      if negb (existsb (fun domain => acme_domain_matches_host domain host) domains) then Err 421%Z
      else
        let redirect_authority :=
          if (https_port =? 443)%Z then host else host +:+ ":" +:+ show_uint https_port in
        let path_and_query := match path_and_query with Some v => v | None => "/" end in
        match h_from_str ("https://" +:+ redirect_authority +:+ path_and_query) with
        | Some location => Ok location
        | None => Err 400%Z
        end
  end.
End Csrf.

(** ** Cookies as lists of pairs *)

Definition cookie_text (p : string * string) : string := p.1 +:+ "=" +:+ p.2.

(** What [cookie_value] sees in a [Cookie] header. *)
Definition parse_cookies (s : string) : list (string * string) :=
  omap (fun item => split_once "=" (str_trim item)) (str_split ";" s).

(** A cookie as browsers send them. *)
Definition cookie_char (c : ascii) : bool := is_graphic c && negb (Ascii.eqb c ";").

Definition well_formed (p : string * string) : Prop :=
  all_bytes cookie_char p.1 = true /\ contains_char "=" p.1 = false /\ all_bytes cookie_char p.2 = true.

Lemma cookie_text_char (p : string * string) : well_formed p -> all_bytes cookie_char (cookie_text p) = true.
Proof. intros (H1 & _ & H2). unfold cookie_text. rewrite !all_bytes_app. by rewrite H1, H2. Qed.

Lemma cookie_char_graphic (s : string) : all_bytes cookie_char s = true -> all_bytes is_graphic s = true.
Proof. apply all_bytes_impl. intros c [H _]%andb_true_iff. done. Qed.

Lemma cookie_char_no_semicolon (s : string) : all_bytes cookie_char s = true -> contains_char ";" s = false.
Proof. by apply all_bytes_no_char. Qed.

Lemma parse_one (p : string * string) :
  well_formed p -> split_once "=" (str_trim (cookie_text p)) = Some p.
Proof.
  intros Hp. rewrite str_trim_graphic by (by apply cookie_char_graphic, cookie_text_char).
  destruct p as [n v]. apply split_once_Some. split; [done|]. by destruct Hp as (_ & H & _).
Qed.

(** A space after the separator is trimmed away. *)
Lemma omap_split_space {A} (f : string -> option A) (rest : string) :
  (forall item, f (String " " item) = f item) ->
  omap f (str_split ";" (String " " rest)) = omap f (str_split ";" rest).
Proof.
  intros Hf. cbn [str_split Ascii.eqb Bool.eqb].
  destruct (str_split ";" rest) as [|h t] eqn:E; [by apply str_split_nonempty in E|].
  cbn [omap list_omap]. by rewrite Hf.
Qed.

(** Reading printed cookies item by item. *)
Lemma omap_join {A B} (f : string -> option B) (text : A -> string) (cs : list A) :
  f "" = None -> (forall item, f (String " " item) = f item) ->
  (forall c, c ∈ cs -> contains_char ";" (text c) = false) ->
  omap f (str_split ";" (str_join "; " (text <$> cs))) = omap (fun c => f (text c)) cs.
Proof.
  intros H0 Hf. induction cs as [|c cs IH]; intros Hcs; [cbn; by rewrite H0|].
  assert (Hc : contains_char ";" (text c) = false) by (apply Hcs; left).
  destruct cs as [|c' cs].
  - cbn [fmap list_fmap str_join]. rewrite str_split_no_sep by done. done.
  - change (str_join "; " (text <$> c :: c' :: cs))
      with (text c +:+ String ";" (String " " (str_join "; " (text <$> c' :: cs)))).
    rewrite str_split_app by done.
    change (omap f (text c :: ?l)) with (match f (text c) with Some y => y :: omap f l | None => omap f l end).
    rewrite omap_split_space, IH by (done || (intros; apply Hcs; by right)). done.
Qed.

(** Printing a list of cookies and reading it back. *)
Lemma parse_join (cs : list (string * string)) :
  Forall well_formed cs -> parse_cookies (str_join "; " (cookie_text <$> cs)) = cs.
Proof.
  intros Hcs. unfold parse_cookies. rewrite omap_join; [|done|done|].
  - induction Hcs as [|c cs Hc Hcs IH]; [done|]. cbn [omap list_omap]. rewrite parse_one by done. by f_equal.
  - intros c Hc. rewrite Forall_forall in Hcs. by apply cookie_char_no_semicolon, cookie_text_char, Hcs.
Qed.

(** ** What becomes of a browser's cookies *)

(** The cookie a client may use on this transport is the one of its own name. *)
Definition wire_name (secure : bool) (c : string * string) : string := if secure then c.1 else c.2.

(** [normalize_pair] on pairs. *)
Definition normalized (secure : bool) (p : string * string) : option (string * string) :=
  match find_map (fun c => if p.1 =? c.1 then Some (if secure then Some p else None)
                           else if p.1 =? c.2 then Some (if secure then None else Some (c.1, p.2)) else None)
          HTTP_BROWSER_COOKIES with
  | Some answer => answer
  | None => Some p
  end.

Lemma normalize_pair_text (secure : bool) (p : string * string) :
  well_formed p -> normalize_pair secure (cookie_text p) = cookie_text <$> normalized secure p.
Proof.
  intros Hp. unfold normalize_pair, normalized. rewrite parse_one by done. destruct p as [n v].
  cbn [find_map HTTP_BROWSER_COOKIES fst snd].
  repeat (case_match; try done; simplify_eq); destruct secure; done.
Qed.

Lemma normalized_well_formed (secure : bool) (p q : string * string) :
  well_formed p -> normalized secure p = Some q -> well_formed q.
Proof.
  intros Hp. unfold normalized. destruct p as [n v], Hp as (Hn & He & Hv).
  cbn [find_map HTTP_BROWSER_COOKIES fst snd].
  repeat case_match; intros; simplify_eq; (split; [|split]); done.
Qed.

(** The pair of a name after the change is that of its wire name before. *)
Definition usable (name : string) (p : string * string) : option string :=
  if (p.1 =? name) && negb (str_is_empty p.2) then Some p.2 else None.

Lemma normalized_usable (secure : bool) (c p : string * string) :
  c ∈ HTTP_BROWSER_COOKIES -> (normalized secure p ≫= usable c.1) = usable (wire_name secure c) p.
Proof.
  intros Hc. destruct p as [n v]. unfold normalized, usable. cbn [find_map HTTP_BROWSER_COOKIES fst snd].
  repeat match goal with |- context [n =? ?s] =>
    destruct (String.eqb_spec n s) as [->|?]; [set_unfold in Hc; destruct_or! Hc; subst c; by destruct secure|] end.
  set_unfold in Hc; destruct_or! Hc; subst c; destruct secure; cbn [mbind option_bind fst snd wire_name];
    repeat match goal with |- context [n =? ?s] => destruct (String.eqb_spec n s) as [->|_]; [done|] end; done.
Qed.

Lemma find_map_omap {A B C} (f : A -> option B) (g : B -> option C) (l : list A) :
  find_map g (omap f l) = find_map (fun x => f x ≫= g) l.
Proof. induction l as [|x l IH]; [done|]. cbn [omap list_omap find_map]. destruct (f x); simpl; by rewrite IH. Qed.

Lemma omap_fmap_omap {A B C} (f : A -> option B) (g : B -> C) (l : list A) :
  omap (fun x => g <$> f x) l = g <$> omap f l.
Proof. induction l as [|x l IH]; [done|]. cbn [omap list_omap]. destruct (f x); simpl; by rewrite IH. Qed.

Lemma omap_ext_in {A B} (f g : A -> option B) (l : list A) :
  (forall x, x ∈ l -> f x = g x) -> omap f l = omap g l.
Proof.
  induction l as [|x l IH]; intros Hl; [done|]. cbn [omap list_omap].
  rewrite (Hl x) by left. rewrite IH by (intros; apply Hl; by right). done.
Qed.

Lemma cookie_text_nonempty (cs : list (string * string)) :
  str_is_empty (str_join "; " (cookie_text <$> cs)) = true -> cs = [].
Proof. destruct cs as [|[n v] cs]; [done|]. destruct cs as [|q cs], n; done. Qed.

Section CookieTheorems.
Context `{HeaderLaws}.

Lemma cookie_value_of_text (h : HeaderMap) (v : HeaderValue) (cs : list (string * string)) (name : string) :
  h_get_all h "cookie" = [v] -> h_to_str v = Some (str_join "; " (cookie_text <$> cs)) -> Forall well_formed cs ->
  cookie_value h name = find_map (usable name) cs.
Proof.
  intros Hv Ht Hcs. unfold cookie_value, h_get_str, h_get. rewrite Hv. cbn [head mbind option_bind]. rewrite Ht.
  change (omap _ (str_split ";" ?s)) with (parse_cookies s). by rewrite parse_join.
Qed.

(** Cookies of plain HTTP and of HTTPS never stand in for each other. For
    a client that sends well-formed cookies in one header, after
    [normalize_browser_session_cookies] the session and CSRF cookies the
    handlers read under their HTTPS name are exactly the first usable cookies
    the client sent under the name of its own transport: over HTTPS the
    [_http] names are ignored, over HTTP a cookie with the HTTPS name, which
    another site on the same host could have planted, is. *)
Theorem sessions_separated_by_transport (secure : bool) (h h' : HeaderMap) (v : HeaderValue)
    (cs : list (string * string)) (c : string * string) :
  h_get_all h "cookie" = [v] -> h_to_str v = Some (str_join "; " (cookie_text <$> cs)) -> Forall well_formed cs ->
  normalize_browser_session_cookies secure h = Some h' -> c ∈ HTTP_BROWSER_COOKIES ->
  cookie_value h' c.1 = find_map (usable (wire_name secure c)) cs.
Proof.
  intros Hv Ht Hcs. unfold normalize_browser_session_cookies. rewrite Hv.
  cbn [omap list_omap]. rewrite Ht. cbn [fmap list_fmap mjoin list_join app]. rewrite app_nil_r.
  rewrite omap_join; [|done|done|intros p Hp; rewrite Forall_forall in Hcs;
    by apply cookie_char_no_semicolon, cookie_text_char, Hcs].
  rewrite (omap_ext_in _ (fun p => cookie_text <$> normalized secure p))
    by (intros p Hp; rewrite Forall_forall in Hcs; by apply normalize_pair_text, Hcs).
  rewrite omap_fmap_omap. set (out := omap (normalized secure) cs). intros Hh Hc.
  assert (Hr : find_map (usable (wire_name secure c)) cs = find_map (usable c.1) out).
  { unfold out. rewrite find_map_omap. clear -Hc. induction cs as [|p cs IH]; [done|].
    cbn [find_map]. by rewrite normalized_usable, IH. }
  rewrite Hr. destruct (str_is_empty _) eqn:He in Hh.
  - apply cookie_text_nonempty in He. simplify_eq. rewrite He.
    unfold cookie_value, h_get_str, h_get. by rewrite h_get_all_remove, decide_True.
  - apply fmap_Some in Hh as (w & Hw & ->). eapply cookie_value_of_text.
    + by rewrite h_get_all_insert, decide_True.
    + by apply h_to_from_str.
    + apply Forall_forall. intros q (p & Hp & Hq)%list_elem_of_omap. rewrite Forall_forall in Hcs.
      by eapply normalized_well_formed, Hq; apply Hcs.
Qed.
End CookieTheorems.

(** A browser with a cookie planted over HTTPS by a neighbour. *)
Definition shared_browser : @HeaderMap AssocHeaders :=
  [("cookie", "theme=dark; mirrorproxy_user_session=planted; mirrorproxy_user_session_http=mine")].

Lemma sessions_separated_by_transport_witness :
  exists h', normalize_browser_session_cookies false
    shared_browser = Some h' /\
  cookie_value h' USER_SESSION_COOKIE = Some "mine".
Proof.
  eexists. split; [vm_compute; reflexivity|].
  apply (sessions_separated_by_transport false
    shared_browser _
    "theme=dark; mirrorproxy_user_session=planted; mirrorproxy_user_session_http=mine"
    [("theme", "dark"); ("mirrorproxy_user_session", "planted"); ("mirrorproxy_user_session_http", "mine")]
    (USER_SESSION_COOKIE, "mirrorproxy_user_session_http")); try reflexivity.
  - repeat constructor.
  - do 2 right. left.
Defined.
