(* ===== verification/Metadata.v ===== *)
(** * Adapters that rewrite metadata

    [proxy/npm.rs], [proxy/pypi.rs], [proxy/composer.rs] and [proxy/nuget.rs]:
    documents of a registry are fetched, the links in them are turned to the
    server, and everything else is forwarded. A handler takes the decoded path
    that axum extracts. *)
From stdpp Require Import gmap.
From S2P Require Import Prelude RustStr Lines Headers Net Url Config Upstreams ConfigCheck Fs Cache CacheCodec Json.
From S2P Require Import Selector Requests Oci Adapters Redirect Forward.
Open Scope string_scope.
Open Scope list_scope.
Open Scope mirror_scope.

(** ** Texts *)

(** U+FFFD. *)
Definition REPLACEMENT : string :=
  String (ascii_of_nat 239) (String (ascii_of_nat 191) (String (ascii_of_nat 189) "")).

(** The bytes that may follow the first of a sequence of three or four. *)
Definition second_of_three (a b : ascii) : bool :=
  in_range (if (byte_val a =? 224)%Z then 160 else 128) (if (byte_val a =? 237)%Z then 159 else 191) b.
Definition second_of_four (a b : ascii) : bool :=
  in_range (if (byte_val a =? 240)%Z then 144 else 128) (if (byte_val a =? 244)%Z then 143 else 191) b.

(** [String::from_utf8_lossy]: each maximal part of a broken sequence becomes
    one replacement character. *)
Fixpoint from_utf8_lossy (s : string) : string :=
  match s with
  | EmptyString => ""
  | String a t =>
      if (byte_val a <? 128)%Z then String a (from_utf8_lossy t)
      else if in_range 194 223 a then
        match t with
        | String b t' =>
            if in_range 128 191 b then String a (String b (from_utf8_lossy t'))
            else REPLACEMENT +:+ from_utf8_lossy t
        | EmptyString => REPLACEMENT
        end
      else if in_range 224 239 a then
        match t with
        | String b t' =>
            if second_of_three a b then
              match t' with
              | String c t'' =>
                  if in_range 128 191 c then String a (String b (String c (from_utf8_lossy t'')))
                  else REPLACEMENT +:+ from_utf8_lossy t'
              | EmptyString => REPLACEMENT
              end
            else REPLACEMENT +:+ from_utf8_lossy t
        | EmptyString => REPLACEMENT
        end
      else if in_range 240 244 a then
        match t with
        | String b t' =>
            if second_of_four a b then
              match t' with
              | String c t'' =>
                  if in_range 128 191 c then
                    match t'' with
                    | String d t''' =>
                        if in_range 128 191 d then String a (String b (String c (String d (from_utf8_lossy t'''))))
                        else REPLACEMENT +:+ from_utf8_lossy t''
                    | EmptyString => REPLACEMENT
                    end
                  else REPLACEMENT +:+ from_utf8_lossy t'
              | EmptyString => REPLACEMENT
              end
            else REPLACEMENT +:+ from_utf8_lossy t
        | EmptyString => REPLACEMENT
        end
      else REPLACEMENT +:+ from_utf8_lossy t
  end.

(** The path check of the three registries that take scopes and slashes. *)
Definition unsafe_part (part : string) : bool := (part =? ".") || (part =? "..") || contains_char zero part.

(** ** Fetching a document *)

Section Fetch.
Context `{HttpWorld} `{CacheCodec}.
Variable iter_order : list (string * EndpointState) -> list (string * EndpointState).

Definition refuse {A} (e : ProxyError) (s : Server) : result A stop * Server := (Err (Error e), s).

(** The response and its bytes. *)
Definition read_bytes (r : result Response stop) : result (Response * string) stop :=
  match r with
  | Ok response =>
      match rs_body response with Some bytes => Ok (response, bytes) | None => Err (Error Upstream) end
  | Err e => Err e
  end.

Definition content_type_has (kind : string) (response : Response) : bool :=
  match h_get_str (rs_headers response) "content-type" with
  | Some content_type => contains_str kind content_type
  | None => false
  end.

Definition is_success (status : Z) : bool := ((200 <=? status) && (status <? 300))%Z.

(** [Response::builder] with these headers, in their order. *)
Fixpoint built (headers : list (string * string)) (h : HeaderMap) : option HeaderMap :=
  match headers with
  | [] => Some h
  | (name, value) :: headers =>
      match h_from_str value with Some v => built headers (h_append name v h) | None => None end
  end.

Definition build_reply (status : Z) (headers : list (string * string)) (body : string) : result Reply stop :=
  match built headers h_empty with
  | Some h => Ok {| reply_status := status; reply_headers := h; reply_body := Some body |}
  | None => Err (Error InvalidHeader)
  end.

(** A rewritten document. *)
Definition document_reply (status : Z) (content_type body : string) : result Reply stop :=
  build_reply status
    [("cache-control", metadata_cache_value); ("vary", metadata_vary_value); ("content-type", content_type)] body.

Definition rewrite_json `{JsonApi} (status : Z) (bytes content_type : string) (rewrite : Value -> Value) :
    result Reply stop :=
  match json_from_slice bytes with
  | None => Err (Error InvalidUrl)
  | Some value =>
      match json_to_vec (rewrite value) with
      | None => Err (Error InvalidUrl)
      | Some body => document_reply status content_type body
      end
  end.
End Fetch.

(** ** npm *)

Module Npm.

Definition is_metadata_request (path : string) : bool :=
  negb (str_is_empty path) && negb (starts_with "-/" path) && negb (contains_str "/-/" path)
  && negb (ends_with ".tgz" path).

Definition is_audit_request (path : string) : bool :=
  (path =? "-/npm/v1/security/advisories/bulk") || (path =? "-/npm/v1/security/audits/quick").

Definition sanitize_npm_path (path : string) : result string ProxyError :=
  let path := trim_start_matches "/" path in
  if contains_char "\" path || existsb unsafe_part (str_split "/" path) then Err InvalidUrl else Ok path.

Definition rewrite_npm_tarball `{UrlApi} (url public_base_url : string) : option string :=
  match url_parse url with
  | None => None
  | Some parsed =>
      match url_host_str parsed with
      | None => None
      | Some host =>
          if negb (host =? "registry.npmjs.org") then None
          else Some (trim_end_matches "/" public_base_url +:+ "/npm" +:+ url_path parsed
                     +:+ match url_query parsed with Some query => "?" +:+ query | None => "" end)
      end
  end.

Definition rewrite_tarball `{UrlApi} (public_base_url : string) (value : Value) : Value :=
  match value with
  | Str url => match rewrite_npm_tarball url public_base_url with Some r => Str r | None => value end
  | _ => value
  end.

Definition rewrite_tarball_urls `{UrlApi} (value : Value) (public_base_url : string) : Value :=
  walk "tarball" (rewrite_tarball public_base_url) value.

Section Handlers.
Context `{HttpWorld} `{CacheCodec} `{!JsonApi}.
Variable iter_order : list (string * EndpointState) -> list (string * EndpointState).

Definition rewrite_json_response (status : Z) (bytes public_base_url : string) : result Reply stop :=
  rewrite_json status bytes "application/json" (fun v => rewrite_tarball_urls v public_base_url).

(** [request] has the method and the headers of the request, if there is one. *)
Definition proxy_npm_path (config : Config.t) (path : string) (query : option string) (public_base_url : string)
    (request : option (string * HeaderMap)) (s : Server) : result Reply stop * Server :=
  if negb (is_enabled config "npm") then refuse (Disabled "npm") s
  else
    match sanitize_npm_path path with
    | Err e => refuse e s
    | Ok clean_path =>
        let upstream_path := if str_is_empty clean_path then "/" else "/" +:+ clean_path in
        match build_url (Upstreams.npm (Config.upstreams config)) upstream_path query with
        | Err e => refuse e s
        | Ok url =>
            let '(method, headers) := match request with Some r => r | None => ("GET", h_empty) end in
            if is_metadata_request clean_path then
              let '(r, s) := get_with_fallback iter_order config url s in
              (match read_bytes r with
               | Err e => Err e
               | Ok (response, bytes) =>
                   if is_success (rs_status response) && content_type_has "json" response
                   then rewrite_json_response (rs_status response) bytes public_base_url
                   else build_reply (rs_status response) [] bytes
               end, s)
            else if method =? "POST" then
              if negb (is_audit_request clean_path) then refuse MethodNotAllowed s
              else forward_with_body iter_order config method url headers s
            else forward iter_order config method url headers s
        end
    end.

Definition root (config : Config.t) (headers : HeaderMap) (s : Server) : result Reply stop * Server :=
  proxy_npm_path config "" None (public_base_url config headers) None s.

Definition proxy (config : Config.t) (path : string) (query : option string) (method : string)
    (headers : HeaderMap) (s : Server) : result Reply stop * Server :=
  proxy_npm_path config path query (public_base_url config headers) (Some (method, headers)) s.
End Handlers.
End Npm.

(** ** PyPI *)

Module Pypi.

Definition sanitize_path (path : string) : result string ProxyError :=
  let path := trim_start_matches "/" path in
  if contains_char "\" path || existsb unsafe_part (str_split "/" path) then Err InvalidUrl else Ok path.

Definition upstream_url `{UrlApi} (base path : string) (query : option string) : result Url ProxyError :=
  let? url := parse_base base in
  let base_path := trim_end_matches "/" (url_path url) in
  Ok (url_set_query query (url_set_path (base_path +:+ "/" +:+ trim_start_matches "/" path) url)).

Definition rewrite_file_links (html public_base_url : string) : string :=
  let base := trim_end_matches "/" public_base_url in
  let files_prefix := base +:+ "/pypi/files/" in
  let packages_prefix := base +:+ "/pypi/packages/" in
  str_replace "href='../../packages/" ("href='" +:+ packages_prefix)
    (str_replace ("href=" +:+ dq +:+ "../../packages/") ("href=" +:+ dq +:+ packages_prefix)
      (str_replace "http://files.pythonhosted.org/" files_prefix
        (str_replace "https://files.pythonhosted.org/" files_prefix html))).

Section Handlers.
Context `{HttpWorld} `{CacheCodec}.
Variable iter_order : list (string * EndpointState) -> list (string * EndpointState).

Definition proxy_file_path (config : Config.t) (path : string) (query : option string) (method : string)
    (headers : HeaderMap) (s : Server) : result Reply stop * Server :=
  if negb (is_enabled config "pypi") then refuse (Disabled "pypi") s
  else
    match
      let? clean_path := sanitize_path path in
      upstream_url (Upstreams.pypi_files (Config.upstreams config)) ("/" +:+ clean_path) query
    with
    | Err e => refuse e s
    | Ok url => forward iter_order config method url headers s
    end.

Definition proxy_simple_path (config : Config.t) (path : string) (query : option string) (public_base_url : string)
    (request : option (string * HeaderMap)) (s : Server) : result Reply stop * Server :=
  if negb (is_enabled config "pypi") then refuse (Disabled "pypi") s
  else
    match sanitize_path path with
    | Err e => refuse e s
    | Ok clean_path =>
        let upstream_path := if str_is_empty clean_path then "/" else "/" +:+ clean_path in
        match upstream_url (Upstreams.pypi_simple (Config.upstreams config)) upstream_path query with
        | Err e => refuse e s
        | Ok url =>
            let '(r, s) := get_with_fallback iter_order config url s in
            match read_bytes r with
            | Err e => (Err e, s)
            | Ok (response, bytes) =>
                if is_success (rs_status response) && content_type_has "html" response then
                  (document_reply (rs_status response) "text/html; charset=utf-8"
                     (rewrite_file_links (from_utf8_lossy bytes) public_base_url), s)
                else
                  let '(method, headers) := match request with Some r => r | None => ("GET", h_empty) end in
                  forward iter_order config method url headers s
            end
        end
    end.

Definition simple_root (config : Config.t) (headers : HeaderMap) (s : Server) : result Reply stop * Server :=
  proxy_simple_path config "" None (public_base_url config headers) None s.

Definition simple (config : Config.t) (path : string) (query : option string) (method : string)
    (headers : HeaderMap) (s : Server) : result Reply stop * Server :=
  proxy_simple_path config path query (public_base_url config headers) (Some (method, headers)) s.

Definition packages (config : Config.t) (path : string) (query : option string) (method : string)
    (headers : HeaderMap) (s : Server) : result Reply stop * Server :=
  proxy_file_path config ("packages/" +:+ path) query method headers s.
End Handlers.
End Pypi.

(** ** Composer *)

Module Composer.

Definition sanitize_path (path : string) : result string ProxyError :=
  let path := trim_start_matches "/" path in
  if str_is_empty path || contains_char "\" path || existsb unsafe_part (str_split "/" path)
  then Err InvalidUrl else Ok path.

Definition DOWNLOAD_HOSTS : list string :=
  ["api.github.com"; "github.com"; "codeload.github.com"; "objects.githubusercontent.com"; "repo.packagist.org"].

Definition is_packagist_download_url `{UrlApi} (url : string) : bool :=
  match url_parse url ≫= url_host_str with
  | Some host => existsb (String.eqb host) DOWNLOAD_HOSTS
  | None => false
  end.

Definition rewrite_url `{UrlApi} (public_base_url : string) (value : Value) : Value :=
  match value with
  | Str url => if is_packagist_download_url url then Str (proxied_absolute_url public_base_url url) else value
  | _ => value
  end.

Definition rewrite_urls `{UrlApi} (value : Value) (public_base_url : string) : Value :=
  walk "url" (rewrite_url public_base_url) value.

Section Handlers.
Context `{HttpWorld} `{CacheCodec} `{!JsonApi}.
Variable iter_order : list (string * EndpointState) -> list (string * EndpointState).

(** The headers of the client that a metadata request takes over: the last
    value of each name. *)
Definition to_reqwest_headers (headers : HeaderMap) : HeaderMap :=
  fold_left (fun out e =>
    if (to_ascii_lowercase e.1 =? "accept-encoding")%string || negb (should_forward_request_header e.1) then out
    else h_insert e.1 e.2 out) (h_iter headers) h_empty.

Definition rewrite_json_response (status : Z) (bytes public_base_url : string) : result Reply stop :=
  rewrite_json status bytes "application/json" (fun v => rewrite_urls v public_base_url).

Definition metadata_request (url : Url) (headers : HeaderMap) : Request :=
  let request := new_request "GET" url in
  set_headers (h_merge (rq_headers request) (to_reqwest_headers headers)) request.

Definition proxy_composer_path (config : Config.t) (path : string) (query : option string) (public_base_url : string)
    (request : option (string * HeaderMap)) (s : Server) : result Reply stop * Server :=
  if negb (is_enabled config "composer") then refuse (Disabled "composer") s
  else
    match sanitize_path path with
    | Err e => refuse e s
    | Ok clean_path =>
        match build_url (Upstreams.packagist (Config.upstreams config)) ("/" +:+ clean_path) query with
        | Err e => refuse e s
        | Ok url =>
            let '(method, headers) := match request with Some r => r | None => ("GET", h_empty) end in
            if ends_with ".json" clean_path then
              let '(r, s) := send config (Some (metadata_request url headers)) s in
              (match read_bytes r with
               | Err e => Err e
               | Ok (response, bytes) =>
                   if is_success (rs_status response) && content_type_has "json" response
                   then rewrite_json_response (rs_status response) bytes public_base_url
                   else build_reply (rs_status response) [] bytes
               end, s)
            else forward iter_order config method url headers s
        end
    end.

Definition root (config : Config.t) (headers : HeaderMap) (s : Server) : result Reply stop * Server :=
  proxy_composer_path config "packages.json" None (public_base_url config headers) None s.

Definition proxy (config : Config.t) (path : string) (query : option string) (method : string)
    (headers : HeaderMap) (s : Server) : result Reply stop * Server :=
  proxy_composer_path config path query (public_base_url config headers) (Some (method, headers)) s.
End Handlers.
End Composer.

(** ** NuGet *)

Module Nuget.

Definition OFFICIAL_HOSTS : list string :=
  ["api.nuget.org"; "azuresearch-usnc.nuget.org"; "azuresearch-ussc.nuget.org"; "www.nuget.org"].

Definition is_official_resource_host (host : string) : bool := existsb (String.eqb host) OFFICIAL_HOSTS.

Definition sanitize_repository_path (path : string) : result string ProxyError :=
  let path := trim_start_matches "/" path in
  if str_is_empty path || contains_char "\" path || existsb unsafe_segment (str_split "/" path)
  then Err InvalidUrl else Ok path.

(** The endpoint and the path a request is for. *)
Definition select_upstream `{UrlApi} (path configured_upstream : string) : result (string * string) ProxyError :=
  match strip_prefix "upstream/" path ≫= split_once "/" with
  | None => Ok (configured_upstream, "/" +:+ path)
  | Some (host, remaining_path) =>
      let? configured_url := result_of_option (url_parse configured_upstream) InvalidUrl in
      let? configured_host := result_of_option (url_host_str configured_url) InvalidUrl in
      if host =? configured_host then Ok (configured_upstream, "/" +:+ remaining_path)
      else if negb (is_official_resource_host host) then Err UnsupportedTarget
      else Ok ("https://" +:+ host, "/" +:+ remaining_path)
  end.

Definition resource_hosts `{UrlApi} (configured_upstream : string) : list string :=
  match url_parse configured_upstream ≫= url_host_str with Some host => [host] | None => [] end ++ OFFICIAL_HOSTS.

Definition rewrite_resource_url `{UrlApi} (configured_upstream public_base_url : string) (value : Value) : Value :=
  match value with
  | Str original =>
      match find_map (fun host => pair host <$> strip_prefix ("https://" +:+ host) original)
              (resource_hosts configured_upstream) with
      | Some (host, path) =>
          Str (trim_end_matches "/" public_base_url +:+ "/nuget/upstream/" +:+ host +:+ path)
      | None => value
      end
  | _ => value
  end.

Definition rewrite_upstream_urls `{UrlApi} (document : Value) (upstream public_base_url : string) : Value :=
  walk "@id" (rewrite_resource_url upstream public_base_url) document.

Section Handlers.
Context `{HttpWorld} `{CacheCodec} `{!JsonApi}.
Variable iter_order : list (string * EndpointState) -> list (string * EndpointState).

Definition root (config : Config.t) : result action ProxyError :=
  banner config "nuget" "MirrorProxy NuGet v3 repository proxy".

Definition service_index (config : Config.t) (query : option string) (method : string) (headers : HeaderMap)
    (s : Server) : result Reply stop * Server :=
  if negb (is_enabled config "nuget") then refuse (Disabled "nuget") s
  else
    match
      let? upstream := Upstreams.select_upstream (Upstreams.nuget (Config.upstreams config)) in
      let? url := build_url upstream "/v3/index.json" query in Ok (upstream, url)
    with
    | Err e => refuse e s
    | Ok (upstream, url) =>
        let '(r, s) := get_with_fallback iter_order config url s in
        match read_bytes r with
        | Err e => (Err e, s)
        | Ok (response, bytes) =>
            if is_success (rs_status response) && content_type_has "json" response then
              (rewrite_json (rs_status response) bytes "application/json; charset=utf-8"
                 (fun v => rewrite_upstream_urls v upstream (public_base_url config headers)), s)
            else forward iter_order config method url headers s
        end
    end.

(** Where a request goes. *)
Definition target (config : Config.t) (path : string) (query : option string) : result Url ProxyError :=
  let? clean_path := sanitize_repository_path path in
  let? configured_upstream := Upstreams.select_upstream (Upstreams.nuget (Config.upstreams config)) in
  let? chosen := select_upstream clean_path configured_upstream in
  build_url chosen.1 chosen.2 query.

Definition proxy (config : Config.t) (path : string) (query : option string) (method : string)
    (headers : HeaderMap) (s : Server) : result Reply stop * Server :=
  if negb (is_enabled config "nuget") then refuse (Disabled "nuget") s
  else
    match target config path query with
    | Err e => refuse e s
    | Ok url => forward iter_order config method url headers s
    end.
End Handlers.
End Nuget.
