(* ===== verification/MetadataSpec.v ===== *)
(** * Links of rewritten metadata

    What the rewriting of [Metadata] changes of a document, and where the
    links it writes lead when a client follows them back to the server. *)
From stdpp Require Import gmap.
From S2P Require Import Prelude RustStr Lines Headers Net Url Config Upstreams ConfigCheck Fs Cache CacheCodec Json.
From S2P Require Import Selector Requests Oci Adapters Redirect Forward Metadata.
Open Scope string_scope.
Open Scope list_scope.
Open Scope mirror_scope.

(** ** Documents *)

(** The values of the fields with a key that the walk reaches, in order. *)
Fixpoint keyed (key : string) (v : Value) : list Value :=
  match v with
  | Array items => flat_map (keyed key) items
  | Object fields => flat_map (fun e => if (e.1 =? key)%string then [e.2] else keyed key e.2) fields
  | _ => []
  end.

(** The document without them. *)
Fixpoint masked (key : string) (v : Value) : Value :=
  match v with
  | Array items => Array (masked key <$> items)
  | Object fields => Object ((fun e => (e.1, if (e.1 =? key)%string then Null else masked key e.2)) <$> fields)
  | _ => v
  end.

(** The walk rewrites these values and nothing else. *)
Lemma walk_keyed (key : string) (f : Value -> Value) (v : Value) : keyed key (walk key f v) = f <$> keyed key v.
Proof.
  induction v as [| | | |items IH|fields IH] using value_ind'; try done; cbn [walk keyed].
  - induction IH as [|v items Hv _ IH]; [done|]. rewrite fmap_cons. cbn [flat_map]. by rewrite fmap_app, Hv, IH.
  - induction IH as [|[k v] fields Hv _ IH]; [done|]. rewrite fmap_cons. cbn [flat_map fst snd] in *.
    rewrite fmap_app, IH. f_equal. case_bool; [done|exact Hv].
Qed.

Lemma walk_masked (key : string) (f : Value -> Value) (v : Value) : masked key (walk key f v) = masked key v.
Proof.
  induction v as [| | | |items IH|fields IH] using value_ind'; try done; cbn [walk masked]; f_equal.
  - induction IH as [|v items Hv _ IH]; [done|]. rewrite !fmap_cons. by rewrite Hv, IH.
  - induction IH as [|[k v] fields Hv _ IH]; [done|]. rewrite !fmap_cons. cbn [fst snd] in *. rewrite IH. f_equal.
    f_equal. case_bool; [done|exact Hv].
Qed.

(** ** Paths that pass the checks *)

Lemma path_char_plain (s : string) :
  all_bytes is_path_char s = true -> contains_char "\" s = false /\ contains_char zero s = false.
Proof. intros Hs. split; by apply (all_bytes_no_char is_path_char). Qed.

(** The segments of a path of plain characters that has no dot segments. *)
Lemma plain_parts (p : string) :
  all_bytes is_path_char p = true -> no_dot_segment p = true -> existsb unsafe_part (str_split "/" p) = false.
Proof.
  intros Hp Hd. apply existsb_false_Forall, Forall_forall. intros s Hs.
  pose proof (all_bytes_split is_path_char "/" p Hp) as Hc. rewrite Forall_forall in Hc.
  destruct (path_char_plain s (Hc s Hs)) as [_ Hz].
  unfold no_dot_segment in Hd. apply forallb_true_Forall in Hd. rewrite Forall_forall in Hd.
  specialize (Hd s Hs). apply negb_true_iff, orb_false_iff in Hd as [H1 H2]. unfold unsafe_part. rewrite Hz, orb_false_r.
  apply orb_false_iff. split; apply String.eqb_neq; intros ->; done.
Qed.

Lemma no_dot_segment_slash (p : string) : no_dot_segment ("/" +:+ p) = no_dot_segment p.
Proof. change ("/" +:+ p) with ("" +:+ String "/" p). by rewrite no_dot_segment_concat. Qed.

(** A path that the URL parser leaves as it is. *)
Lemma build_url_path `{UrlLaws} (configured p : string) (query : option string) (b : Url) :
  parse_base configured = Ok b -> web b -> all_bytes is_path_char p = true -> no_dot_segment p = true ->
  exists url, build_url configured ("/" +:+ p) query = Ok url /\ url = url_set_query query (url_set_path ("/" +:+ p) b) /\
    same_origin url b = true /\ url_path url = "/" +:+ p.
Proof.
  intros Hb Hw Hp Hd. unfold build_url. rewrite Hb. cbn [result_bind]. eexists. split; [done|]. split; [done|]. split.
  - apply same_origin_iff. by autorewrite with url.
  - rewrite url_path_set_query. apply url_path_set_path; [by apply url_web_host|]. unfold normal_path.
    rewrite no_dot_segment_slash, Hd. simpl. by rewrite (url_path_keeps_plain "/" eq_refl), (keeps_plain p Hp).
Qed.

(** ** Properties *)

(** Rewriting keeps documents. The documents of npm, Composer and NuGet
    come out with the fields, the order and the values they came with, but for
    the links: each value of a [tarball], [url] or [@id] field is replaced by
    its own rewriting, and a value that is no link of the registry by itself. *)
Theorem documents_keep_their_shape `{UrlApi} (document : Value) (upstream base : string) :
  (masked "tarball" (Npm.rewrite_tarball_urls document base) = masked "tarball" document /\
   keyed "tarball" (Npm.rewrite_tarball_urls document base) = Npm.rewrite_tarball base <$> keyed "tarball" document) /\
  (masked "url" (Composer.rewrite_urls document base) = masked "url" document /\
   keyed "url" (Composer.rewrite_urls document base) = Composer.rewrite_url base <$> keyed "url" document) /\
  (masked "@id" (Nuget.rewrite_upstream_urls document upstream base) = masked "@id" document /\
   keyed "@id" (Nuget.rewrite_upstream_urls document upstream base) =
     Nuget.rewrite_resource_url upstream base <$> keyed "@id" document) /\
  forall v, (forall s, v <> Str s) ->
    Npm.rewrite_tarball base v = v /\ Composer.rewrite_url base v = v /\ Nuget.rewrite_resource_url upstream base v = v.
Proof.
  repeat split; try apply walk_masked; try apply walk_keyed; destruct v; try done; by destruct (H0 s).
Qed.

Section Links.
Context `{HttpWorld} `{CacheCodec} `{!JsonApi} `{!UrlLaws}.
Variable iter_order : list (string * EndpointState) -> list (string * EndpointState).

(** An npm tarball is found behind its rewritten link. The link is the
    server's address, [/npm], and the path and query of the original; a GET or
    HEAD of it is forwarded to the configured registry with that path and
    query, for a path of plain characters without percent signs. *)
Theorem npm_links_lead_back (config : Config.t) (url link public_base p method : string) (u b : Url)
    (headers : HeaderMap) (s : Server) :
  Npm.rewrite_npm_tarball url public_base = Some link -> url_parse url = Some u -> url_path u = "/" +:+ p ->
  web u -> all_bytes is_path_char p = true -> starts_with "/" p = false -> ends_with ".tgz" p = true ->
  is_enabled config "npm" = true -> parse_base (Upstreams.npm (Config.upstreams config)) = Ok b -> web b ->
  method <> "POST" ->
  link = trim_end_matches "/" public_base +:+ "/npm/" +:+ p
         +:+ match url_query u with Some query => "?" +:+ query | None => "" end /\
  exists target,
    Npm.proxy_npm_path iter_order config p (url_query u) public_base (Some (method, headers)) s =
      Forward.forward iter_order config method target headers s /\
    same_origin target b = true /\ url_path target = url_path u /\ url_query target = url_query u.
Proof.
  intros Hl Hu Hp Hw Hc Hs Ht He Hb Hwb Hm. split.
  { unfold Npm.rewrite_npm_tarball in Hl. rewrite Hu in Hl. destruct (url_host_str u); [|done].
    destruct (negb _); [done|]. injection Hl as <-. by rewrite Hp. }
  assert (Hd : no_dot_segment p = true).
  { pose proof (url_path_normal u Hw) as Hn. rewrite Hp in Hn. unfold normal_path in Hn.
    apply andb_true_iff in Hn as [_ Hn]. by rewrite no_dot_segment_slash in Hn. }
  assert (Htrim : trim_start_matches "/" p = p) by (by apply trim_start_matches_id).
  assert (Hne : str_is_empty p = false) by (by destruct p).
  destruct (build_url_path _ p (url_query u) b Hb Hwb Hc Hd) as (target & Hbu & Heq & Ho & Hpath).
  unfold Npm.proxy_npm_path, Npm.sanitize_npm_path. rewrite He, Htrim. cbn [negb].
  destruct (path_char_plain p Hc) as [-> _]. rewrite (plain_parts p Hc Hd). cbn [orb]. rewrite Hne, Hbu.
  assert (Npm.is_metadata_request p = false) as ->
    by (unfold Npm.is_metadata_request; rewrite Ht; by rewrite andb_false_r).
  apply String.eqb_neq in Hm. rewrite Hm. exists target. split_and!; [done|done|by rewrite Hp|].
  rewrite Heq. by apply url_query_set_query.
Qed.

(** A NuGet resource is found behind its rewritten link. A link of the
    service index that is rewritten names the host it was at; whatever a client
    appends to it, the request goes to that path: at the configured endpoint
    for its own host, else at the official host over HTTPS. *)
Theorem nuget_links_lead_back (config : Config.t) (endpoint original link public_base : string) (e : Url)
    (query : option string) :
  select_upstream (Upstreams.nuget (Config.upstreams config)) = Ok endpoint -> url_parse endpoint = Some e -> web e ->
  Nuget.rewrite_resource_url endpoint public_base (Str original) = Str link -> link <> original ->
  exists host path,
    original = "https://" +:+ host +:+ path /\ link = trim_end_matches "/" public_base +:+ "/nuget/upstream/" +:+ host +:+ path /\
    (url_host_str e = Some host \/ host ∈ Nuget.OFFICIAL_HOSTS) /\
    forall rest p, path +:+ rest = "/" +:+ p -> contains_char "/" host = false ->
      contains_char "\" (host +:+ "/" +:+ p) = false ->
      existsb unsafe_segment (str_split "/" (host +:+ "/" +:+ p)) = false ->
      Nuget.target config ("upstream/" +:+ host +:+ path +:+ rest) query =
        build_url (if bool_decide (url_host_str e = Some host) then endpoint else "https://" +:+ host)
          ("/" +:+ p) query.
Proof.
  intros Hsel He Hw Hr Hne. unfold Nuget.rewrite_resource_url in Hr.
  destruct (find_map _ _) as [[host path]|] eqn:Hf; [|by injection Hr as <-].
  injection Hr as <-. apply find_map_Some in Hf as (pre & h & post & Hl & Hh & _).
  apply fmap_Some in Hh as (path' & Hs & [= -> ->]). apply strip_prefix_Some in Hs.
  assert (Hin : url_host_str e = Some h \/ h ∈ Nuget.OFFICIAL_HOSTS).
  { assert (Hin : h ∈ Nuget.resource_hosts endpoint) by (rewrite Hl; apply elem_of_app; right; by left).
    unfold Nuget.resource_hosts in Hin. rewrite He in Hin. cbn [mbind option_bind] in Hin.
    apply elem_of_app in Hin as [Hin|Hin]; [|by right].
    destruct (url_host_str e); [|by apply elem_of_nil in Hin]. apply list_elem_of_singleton in Hin as ->. by left. }
  exists h, path'. split; [by rewrite Hs, <- str_app_assoc|]. split; [done|]. split; [done|].
  intros rest p Hrest Hslash Hback Hsafe. unfold Nuget.target, Nuget.sanitize_repository_path.
  rewrite Hrest. rewrite trim_start_matches_id by done.
  change ("upstream/" +:+ h +:+ "/" +:+ p) with ("upstream" +:+ String "/" (h +:+ "/" +:+ p)).
  rewrite str_split_concat, existsb_app, Hsafe, contains_char_app. cbn [contains_char Ascii.eqb Bool.eqb orb].
  rewrite Hback. assert (forall t, str_is_empty ("upstream" +:+ t) = false) as -> by done.
  change (existsb unsafe_segment (str_split "/" "upstream")) with false. cbn [orb result_bind].
  rewrite Hsel. cbn [result_bind].
  unfold Nuget.select_upstream.
  change ("upstream" +:+ String "/" (h +:+ "/" +:+ p)) with ("upstream/" +:+ (h +:+ "/" +:+ p)).
  rewrite strip_prefix_app. cbn [mbind option_bind].
  assert (split_once "/" (h +:+ "/" +:+ p) = Some (h, p)) as -> by (by apply split_once_Some).
  rewrite He. cbn [result_of_option result_bind]. destruct (url_web_host e Hw) as [host' Hhost']. rewrite Hhost' in *.
  cbn [result_of_option result_bind]. destruct (String.eqb_spec h host') as [->|Hn].
  - by rewrite bool_decide_eq_true_2.
  - rewrite bool_decide_eq_false_2 by congruence. destruct Hin as [Hin|Hin]; [congruence|].
    assert (Nuget.is_official_resource_host h = true) as ->; [|done].
    unfold Nuget.is_official_resource_host. apply existsb_exists. exists h. split; [by apply list_elem_of_In|].
    apply String.eqb_refl.
Qed.
End Links.

(** A download link of Composer is a link of the GitHub adapter to the same
    address, for the four hosts that adapter has. *)
Theorem composer_links_lead_back `{UrlApi} (url link public_base host : string) (u : Url) :
  Composer.rewrite_url public_base (Str url) = Str link -> link <> url -> url_parse url = Some u ->
  url_scheme u = "https" -> url_host_str u = Some host -> host <> "repo.packagist.org" -> starts_with "/" url = false ->
  link = trim_end_matches "/" public_base +:+ "/" +:+ url /\ Github.target_from_uri ("/" +:+ url) None = Ok u.
Proof.
  intros Hr Hne Hu Hs Hh Hno Hstart. unfold Composer.rewrite_url, Composer.is_packagist_download_url in Hr.
  rewrite Hu in Hr. cbn [mbind option_bind] in Hr. rewrite Hh in Hr. case_bool; [|congruence]. injection Hr as <-.
  split; [done|]. unfold Github.target_from_uri.
  assert (trim_start_matches "/" ("/" +:+ url) = url) as -> by (simpl; by apply trim_start_matches_id).
  rewrite Hu. cbv zeta. rewrite Hs, Hh. cbn [String.eqb]. change ("https" =? "https") with true. cbn [negb orb].
  apply existsb_exists in Heqb as (h & Hin & ->%String.eqb_eq). unfold Composer.DOWNLOAD_HOSTS in Hin.
  assert (Hall : existsb (eq_ignore_ascii_case h) Github.ALLOWED_HOSTS = true); [|by rewrite Hall].
  simpl in Hin. repeat destruct Hin as [<-|Hin]; try reflexivity; done.
Qed.

(** A metadata request of npm is a read whatever its method, also a POST. *)
Theorem npm_metadata_ignores_method `{HttpWorld} `{CacheCodec} `{!JsonApi}
    (iter_order : list (string * EndpointState) -> list (string * EndpointState)) (config : Config.t) (path : string)
    (query : option string) (base method : string) (headers : HeaderMap) (s : Server) :
  Npm.is_metadata_request (trim_start_matches "/" path) = true ->
  Npm.proxy_npm_path iter_order config path query base (Some (method, headers)) s =
  Npm.proxy_npm_path iter_order config path query base None s.
Proof.
  intros Hm. unfold Npm.proxy_npm_path. destruct (is_enabled config "npm"); [cbn [negb]|done].
  destruct (Npm.sanitize_npm_path path) as [p|] eqn:Hp; [|done].
  assert (p = trim_start_matches "/" path) as ->.
  { unfold Npm.sanitize_npm_path in Hp. cbv zeta in Hp. destruct (_ || _); [done|]. by injection Hp as <-. }
  destruct (build_url _ _ _); [|done]. by rewrite Hm.
Qed.

(** The metadata requests of Composer carry no credentials, neither the
    client's nor those configured for the registry. *)
Theorem composer_metadata_without_credentials `{HttpLaws} `{!HeaderLaws} (url : Url) (headers : HeaderMap) (n : string) :
  url_username url = "" -> url_password url = None -> n ∈ CREDENTIALS ->
  h_get_all (rq_headers (Composer.metadata_request url headers)) n = [].
Proof.
  intros Hu Hp Hn. unfold Composer.metadata_request. cbv zeta. rewrite (new_request_plain _ _ Hu Hp).
  cbn [rq_headers set_headers]. rewrite h_get_all_merge.
  assert (Hno : should_forward_request_header n = false).
  { unfold CREDENTIALS in Hn. repeat (apply elem_of_cons in Hn as [->|Hn]; [done|]). by apply elem_of_nil in Hn. }
  assert (He : h_get_all h_empty n = []) by (unfold h_get_all; by rewrite h_iter_empty).
  enough (Ht : h_get_all (Composer.to_reqwest_headers headers) n = []) by (by rewrite Ht, He).
  unfold Composer.to_reqwest_headers.
  assert (Hg : forall l h, h_get_all h n = [] -> h_get_all (fold_left (fun out e =>
    if (to_ascii_lowercase e.1 =? "accept-encoding")%string || negb (should_forward_request_header e.1) then out
    else h_insert e.1 e.2 out) l h) n = []); [|by apply Hg].
  induction l as [|e l IH]; intros h Hh; cbn [fold_left]; [done|]. apply IH. case_bool; [done|].
  rewrite h_get_all_insert, decide_False; [done|]. intros Heq.
  apply orb_false_iff in Heqb as [_ Hf%negb_false_iff]. unfold should_forward_request_header in *.
  by rewrite <- Heq, Hno in Hf.
Qed.

(** ** Lossy decoding *)

(** The text it gives is well formed, and well-formed text is kept. *)
Lemma lossy_valid (s : string) : utf8_valid (from_utf8_lossy s) = true.
Proof.
  remember (String.length s) as n eqn:Hn. revert s Hn. induction (lt_wf n) as [n _ IH]. intros s ->.
  assert (Hv : forall t, (String.length t < String.length s)%nat -> utf8_valid (from_utf8_lossy t) = true)
    by (intros t Ht; exact (IH _ Ht t eq_refl)). clear IH.
  assert (Hr : forall t, (String.length t < String.length s)%nat ->
    utf8_valid (REPLACEMENT +:+ from_utf8_lossy t) = true) by (intros t Ht; exact (Hv t Ht)).
  destruct s as [|a t]; [done|]. cbn [from_utf8_lossy].
  destruct (byte_val a <? 128)%Z eqn:Ha; [cbn [utf8_valid]; rewrite Ha; apply Hv; simpl; lia|].
  destruct (in_range 194 223 a) eqn:H2.
  { destruct t as [|b t]; [done|]. destruct (in_range 128 191 b) eqn:Hb; [|apply Hr; simpl; lia].
    cbn [utf8_valid]. rewrite Ha, H2, Hb. apply Hv. simpl. lia. }
  destruct (in_range 224 239 a) eqn:H3.
  { destruct t as [|b t]; [done|]. destruct (second_of_three a b) eqn:Hb; [|apply Hr; simpl; lia].
    destruct t as [|c t]; [done|]. destruct (in_range 128 191 c) eqn:Hc; [|apply Hr; simpl; lia].
    cbn [utf8_valid]. unfold second_of_three in Hb. rewrite Ha, H2, H3, Hb, Hc. apply Hv. simpl. lia. }
  destruct (in_range 240 244 a) eqn:H4; [|apply Hr; simpl; lia].
  destruct t as [|b t]; [done|]. destruct (second_of_four a b) eqn:Hb; [|apply Hr; simpl; lia].
  destruct t as [|c t]; [done|]. destruct (in_range 128 191 c) eqn:Hc; [|apply Hr; simpl; lia].
  destruct t as [|d t]; [done|]. destruct (in_range 128 191 d) eqn:Hd; [|apply Hr; simpl; lia].
  cbn [utf8_valid]. unfold second_of_four in Hb. rewrite Ha, H2, H3, H4, Hb, Hc, Hd. apply Hv. simpl. lia.
Qed.

Lemma lossy_keeps (s : string) : utf8_valid s = true -> from_utf8_lossy s = s.
Proof.
  remember (String.length s) as n eqn:Hn. revert s Hn. induction (lt_wf n) as [n _ IH]. intros s ->.
  assert (Hk : forall t, (String.length t < String.length s)%nat -> utf8_valid t = true -> from_utf8_lossy t = t)
    by (intros t Ht; exact (IH _ Ht t eq_refl)). clear IH.
  destruct s as [|a t]; [done|]. cbn [utf8_valid from_utf8_lossy].
  destruct (byte_val a <? 128)%Z; [intros Hv; rewrite Hk; [done|simpl; lia|done]|].
  destruct t as [|b t]; [done|].
  destruct (in_range 194 223 a).
  { intros [-> Hv]%andb_true_iff. rewrite Hk; [done|simpl; lia|done]. }
  destruct t as [|c t]; [done|]. unfold second_of_three, second_of_four.
  destruct (in_range 224 239 a).
  { intros [[-> ->]%andb_true_iff Hv]%andb_true_iff. rewrite Hk; [done|simpl; lia|done]. }
  destruct t as [|d t]; [done|].
  intros [[[[-> ->]%andb_true_iff ->]%andb_true_iff ->]%andb_true_iff Hv]%andb_true_iff.
  rewrite Hk; [done|simpl; lia|done].
Qed.

(** The page of PyPI that a client gets is well-formed text before its links
    are rewritten, and the page itself when it was. *)
Theorem simple_page_text (bytes : string) :
  utf8_valid (from_utf8_lossy bytes) = true /\ (utf8_valid bytes = true -> from_utf8_lossy bytes = bytes).
Proof. split; [apply lossy_valid|apply lossy_keeps]. Qed.

(** ** Concrete links *)

Module Example.

#[local] Instance no_json : JsonApi := { json_from_slice _ := None; json_to_vec _ := None }.

Definition tarball : string := "https://registry.npmjs.org/react/-/react-1.0.0.tgz?x=1".
Definition tarball_url : simple_url :=
  SimpleUrl "https" "" None "registry.npmjs.org" None "/react/-/react-1.0.0.tgz" (Some "x=1") None.
Definition registry : simple_url := SimpleUrl "https" "" None "registry.npmjs.org" None "/" None None.

Lemma npm_links_lead_back_witness :
  "https://m.example/npm/react/-/react-1.0.0.tgz?x=1" =
    trim_end_matches "/" "https://m.example/" +:+ "/npm/" +:+ "react/-/react-1.0.0.tgz" +:+ "?x=1".
Proof.
  apply (@npm_links_lead_back AssocHeaders SimpleUrlApi ScriptWorld SampleCodec no_json SimpleUrl_laws no_order
    Config.default tarball "https://m.example/npm/react/-/react-1.0.0.tgz?x=1" "https://m.example/"
    "react/-/react-1.0.0.tgz" "GET" tarball_url registry [] (script_server [] {| disk := Fs ∅ [] 0; capacity := None; instant := 0 |}));
    try (vm_compute; reflexivity); try (by right); discriminate.
Defined.

Definition nuget_endpoint : simple_url := SimpleUrl "https" "" None "api.nuget.org" None "/" None None.

Lemma nuget_links_lead_back_witness :
  exists host path, "https://www.nuget.org/api/v2/" = "https://" +:+ host +:+ path /\
    "https://m.example/nuget/upstream/www.nuget.org/api/v2/" =
      trim_end_matches "/" "https://m.example" +:+ "/nuget/upstream/" +:+ host +:+ path.
Proof.
  destruct (@nuget_links_lead_back SimpleUrlApi SimpleUrl_laws Config.default
    "https://api.nuget.org" "https://www.nuget.org/api/v2/" "https://m.example/nuget/upstream/www.nuget.org/api/v2/"
    "https://m.example" nuget_endpoint None) as (host & path & H1 & H2 & _);
    [vm_compute; reflexivity|vm_compute; reflexivity|by right|vm_compute; reflexivity|discriminate|].
  exists host, path. split; [exact H1|exact H2].
Defined.

Lemma composer_links_lead_back_witness :
  "https://m.example/https://github.com/demo/pkg/archive/1.0.0.zip" =
    trim_end_matches "/" "https://m.example" +:+ "/" +:+ "https://github.com/demo/pkg/archive/1.0.0.zip".
Proof.
  apply (@composer_links_lead_back SimpleUrlApi "https://github.com/demo/pkg/archive/1.0.0.zip" _ "https://m.example"
    "github.com" (SimpleUrl "https" "" None "github.com" None "/demo/pkg/archive/1.0.0.zip" None None));
    try (vm_compute; reflexivity); discriminate.
Defined.

Lemma npm_metadata_ignores_method_witness :
  @Npm.proxy_npm_path AssocHeaders SimpleUrlApi ScriptWorld SampleCodec no_json no_order Config.default "react" None
    "https://m.example" (Some ("POST", [])) (script_server [] {| disk := Fs ∅ [] 0; capacity := None; instant := 0 |}) =
  @Npm.proxy_npm_path AssocHeaders SimpleUrlApi ScriptWorld SampleCodec no_json no_order Config.default "react" None
    "https://m.example" None (script_server [] {| disk := Fs ∅ [] 0; capacity := None; instant := 0 |}).
Proof.
  apply (@npm_metadata_ignores_method AssocHeaders SimpleUrlApi ScriptWorld SampleCodec no_json no_order Config.default
    "react" None "https://m.example" "POST" []). reflexivity.
Defined.

Lemma composer_metadata_without_credentials_witness :
  @h_get_all AssocHeaders (rq_headers (@Composer.metadata_request AssocHeaders SimpleUrlApi ScriptWorld registry
    [("authorization", "Bearer t"); ("accept", "*/*")])) "authorization" = [].
Proof.
  apply (@composer_metadata_without_credentials AssocHeaders SimpleUrlApi ScriptWorld ScriptWorld_laws
    AssocHeaders_laws); [reflexivity|reflexivity|by left].
Defined.

(** Two kinds of links of Composer are rewritten and then refused: those of
    [repo.packagist.org], and those without TLS. *)
Theorem composer_links_refused :
  @Composer.rewrite_url SimpleUrlApi "https://m.example" (Str "https://repo.packagist.org/a.zip") =
    Str "https://m.example/https://repo.packagist.org/a.zip" /\
  @Github.target_from_uri SimpleUrlApi "/https://repo.packagist.org/a.zip" None = Err UnsupportedTarget /\
  @Composer.rewrite_url SimpleUrlApi "https://m.example" (Str "http://github.com/a.zip") =
    Str "https://m.example/http://github.com/a.zip" /\
  @Github.target_from_uri SimpleUrlApi "/http://github.com/a.zip" None = Err UnsupportedTarget.
Proof. split_and!; vm_compute; reflexivity. Qed.

(** A NuGet endpoint with a port has its links rewritten to a host that is
    refused; one without TLS has its links left as they are. *)
Theorem nuget_port_links_refused :
  @Nuget.rewrite_resource_url SimpleUrlApi "https://nuget.local:8443" "https://m.example"
    (Str "https://nuget.local:8443/v3/a") = Str "https://m.example/nuget/upstream/nuget.local:8443/v3/a" /\
  @Nuget.select_upstream SimpleUrlApi "upstream/nuget.local:8443/v3/a" "https://nuget.local:8443" =
    Err UnsupportedTarget /\
  @Nuget.rewrite_resource_url SimpleUrlApi "http://nuget.local" "https://m.example" (Str "http://nuget.local/v3/a") =
    Str "http://nuget.local/v3/a".
Proof. split_and!; vm_compute; reflexivity. Qed.
End Example.
