(* ===== verification/HuggingFace.v ===== *)
(** * Public downloads of the Hugging Face Hub

    [proxy/huggingface.rs]: the paths and queries that are passed on, the
    redirects that are followed without credentials, the answer to a HEAD
    request from the metadata of the Hub, and the pagination links. The HTTP
    client is the one of [Redirect]; [HubWorld] adds whether a client without
    decompression can be built. *)
From stdpp Require Import gmap.
From S2P Require Import Prelude RustStr Lines Headers Net Url Config Upstreams ConfigCheck Fs Cache CacheCodec.
From S2P Require Import Selector Requests Redirect Forward.
Open Scope string_scope.
Open Scope list_scope.
Open Scope mirror_scope.

Module Hub.

Definition DOWNLOAD_HOSTS : list string := [
  "huggingface.co";
  "cdn-lfs.huggingface.co";
  "cdn-lfs.hf.co";
  "cdn-lfs-us-1.hf.co";
  "cdn-lfs-eu-1.hf.co";
  "cas-bridge.xethub.hf.co";
  "cas-bridge.xethub-eu.hf.co";
  "us.aws.cdn.hf.co";
  "us.gcp.cdn.hf.co";
  "eu.aws.cdn.hf.co"
].

Definition METADATA : list string := ["x-repo-commit"; "x-linked-etag"; "x-linked-size"].

(** The names of the query that are passed on. *)
Definition QUERY_NAMES : list string :=
  ["download"; "recursive"; "expand"; "expand[]"; "limit"; "cursor"; "blobs"; "files_metadata"; "securityStatus";
   "full"].

(** The headers of the client that are passed on. *)
Definition CLIENT_HEADERS : list string := ["accept"; "range"; "if-range"; "if-none-match"; "if-modified-since"].

(** ** Paths *)

(** [char::to_digit(16)]. *)
Definition hex_val (c : ascii) : option Z :=
  if is_digit c then Some (byte_val c - 48)%Z
  else if in_range 97 102 c then Some (byte_val c - 87)%Z
  else if in_range 65 70 c then Some (byte_val c - 55)%Z
  else None.

Fixpoint decode_bytes (path : string) : option string :=
  match path with
  | EmptyString => Some ""
  | String c t =>
      if Ascii.eqb c "%" then
        match t with
        | String hi (String lo t) =>
            match hex_val hi, hex_val lo with
            | Some hi, Some lo => String (ascii_of_nat (Z.to_nat (hi * 16 + lo))) <$> decode_bytes t
            | _, _ => None
            end
        | _ => None
        end
      else String c <$> decode_bytes t
  end.

Definition decode_path (path : string) : result string ProxyError :=
  match decode_bytes path with
  | Some decoded => if utf8_valid decoded then Ok decoded else Err InvalidUrl
  | None => Err InvalidUrl
  end.

Definition unsafe_decoded (decoded : string) : bool :=
  existsb (fun c => contains_char c decoded) ["\"; "%"; "?"; "#"]%char
  || has_control decoded
  || existsb (fun s => str_is_empty s || (s =? ".") || (s =? "..")) (str_split "/" decoded).

(** [/api/models/..] and [/api/datasets/..] below the kind. *)
Definition api_rest (rest : list string) : bool :=
  match rest with
  | [_] | [_; _] => true
  | _ => false
  end
  || match rest with
     | [_; a; _] => a =? "revision"
     | [_; _; a; _] => a =? "revision"
     | _ => false
     end
  || match rest with
     | _ :: a :: _ :: _ => a =? "tree"
     | _ => false
     end
  || match rest with
     | _ :: _ :: a :: _ :: _ => a =? "tree"
     | _ => false
     end.

Definition repository_kind (s : string) : bool := (s =? "models") || (s =? "datasets").

Definition api_path (parts : list string) : bool :=
  match parts with
  | a :: k :: rest =>
      if (a =? "api") && repository_kind k then api_rest rest
      else if (a =? "api") && (k =? "resolve-cache") then
        match rest with
        | k :: _ :: _ :: _ :: _ => repository_kind k
        | _ => false
        end
      else false
  | _ => false
  end.

Definition file_path (parts : list string) : bool :=
  let file_parts := match parts with p :: rest => if p =? "datasets" then rest else parts | [] => [] end in
  match file_parts with _ :: a :: _ :: _ :: _ => a =? "resolve" | _ => false end
  || match file_parts with _ :: _ :: a :: _ :: _ :: _ => a =? "resolve" | _ => false end.

Definition validate_path (path : string) : result unit ProxyError :=
  let? decoded := decode_path path in
  if unsafe_decoded decoded then Err InvalidUrl
  else
    let parts := str_split "/" path in
    if api_path parts || file_path parts then Ok tt else Err UnsupportedTarget.

Section Urls.
Context `{QueryApi}.

Definition allowed_query (url : Url) : bool :=
  forallb (fun p => existsb (String.eqb p.1) QUERY_NAMES) (query_pairs url).

Definition no_userinfo (url : Url) : bool :=
  str_is_empty (url_username url) && bool_decide (url_password url = None).

Definition repository_url (base path : string) (query : option string) : result Url ProxyError :=
  let? _ := validate_path path in
  let? url := parse_base base in
  if negb (no_userinfo url) then Err InvalidUrl
  else
    let url := url_set_path (trim_end_matches "/" (url_path url) +:+ "/" +:+ path) url in
    let url := url_set_query query url in
    if negb (allowed_query url) then Err InvalidUrl else Ok url.

(** The comparison of origins; both are of web URLs where it counts. *)
Definition same_origin (a b : Url) : bool := bool_decide (url_origin a = url_origin b).

Definition allowed_redirect (original previous target : Url) : bool :=
  ((url_scheme target =? "http") || (url_scheme target =? "https"))
  && negb ((url_scheme previous =? "https") && negb (url_scheme target =? "https"))
  && str_is_empty (url_username target)
  && bool_decide (url_password target = None)
  && bool_decide (url_fragment target = None)
  && (same_origin original target
      || ((url_scheme target =? "https")
          && bool_decide (url_port_or_known_default target = Some 443%Z)
          && match url_host_str target with
             | Some h => existsb (String.eqb h) DOWNLOAD_HOSTS
             | None => false
             end)).
End Urls.

(** [build] of the streaming client without decompression. *)
Class HubWorld `{HttpWorld} : Type := {
  hub_client_ok : Config.t -> Client -> bool;
}.

(** ** Requests and answers *)

Section Forward.
Context `{HubWorld} `{!QueryApi}.
Variable iter_order : list (string * EndpointState) -> list (string * EndpointState).

Definition lift {A} (r : result A ProxyError) : result A stop :=
  match r with Ok a => Ok a | Err e => Err (Error e) end.

(** [RequestBuilder::header] with a header value. *)
Definition pass_header (incoming : HeaderMap) (r : Request) (name : string) : Request :=
  match h_get incoming name with
  | Some value => set_headers (h_append name value (rq_headers r)) r
  | None => r
  end.

(** The request of a hop; [None] is a builder that failed. *)
Definition hub_request (method : string) (url : Url) (incoming : HeaderMap) : option Request :=
  (fun r => fold_left (pass_header incoming) CLIENT_HEADERS r)
    <$> add_header "accept-encoding" "identity" (new_request method url).

Definition execute_built (client : Client) (request : option Request) (w : World) :
    result Response unit * World * Log :=
  match request with
  | None => (Err tt, w, [])
  | Some request => let '(answer, w) := execute client request w in (answer, w, [(client, request)])
  end.

Definition probe_endpoint (config : Config.t) (url : Url) (w : World) : result Response stop * World * Log :=
  if negb (client_builder_ok config) then (Err (Error InvalidUrl), w, [])
  else if negb (hub_client_ok config None) then (Err (Error Upstream), w, [])
  else
    let '(answer, w, l) := execute_built None (add_header "accept-encoding" "identity" (new_request "GET" url)) w in
    (match answer with Ok response => Ok response | Err _ => Err (Error Upstream) end, w, l).

(** Metadata of the Hub's own answers, the last one of each name. *)
Definition collect_metadata (original url : Url) (response : Response) (metadata : HeaderMap) : HeaderMap :=
  if same_origin original url then
    fold_left (fun m name =>
      match h_get (rs_headers response) name with Some value => h_insert name value m | None => m end)
      METADATA metadata
  else metadata.

(** [HeaderName::as_str] is in lower case. *)
Definition name_of (e : string * HeaderValue) : string := to_ascii_lowercase e.1.

Definition shown_header (name : string) : bool :=
  should_forward_response_header name
  && negb (starts_with "x-xet-" name)
  && negb (existsb (String.eqb name) ["location"; "set-cookie"; "x-mirrorproxy-cache"]).

Definition download_response (status : Z) (headers : HeaderMap) (body : option string) : result Reply ProxyError :=
  match h_from_str "BYPASS" with
  | None => Err InvalidHeader
  | Some bypass =>
      Ok {| reply_status := status;
            reply_headers :=
              fold_left (fun h e => if shown_header (name_of e) then h_append e.1 e.2 h else h) (h_iter headers)
                (h_append "x-mirrorproxy-cache" bypass h_empty);
            reply_body := body |}
  end.

Definition linked_head_response (metadata : HeaderMap) : result (option Reply) ProxyError :=
  if negb (h_contains metadata "x-repo-commit") || negb (h_contains metadata "x-linked-etag")
     || bool_decide (h_get_str metadata "x-linked-size" ≫= parse_uint U64_MAX = None)
  then Ok None
  else
    match h_get metadata "x-linked-etag", h_get metadata "x-linked-size" with
    | Some etag, Some size =>
        let headers := h_insert "content-length" size (h_insert "etag" etag metadata) in
        let? reply := download_response 200 headers (Some "") in Ok (Some reply)
    | _, _ => Ok None (* both are there *)
    end.

(** ** Pagination *)

Definition relation_next : string := "; rel=" +:+ dq +:+ "next" +:+ dq.

(** One link of the header, [None] when it is not the next page. *)
Definition next_link (original : Url) (base_path public_base link : string) : result (option string) ProxyError :=
  match strip_prefix "<" (str_trim link) ≫= split_once ">" with
  | None => Err InvalidHeader
  | Some (target, relation) =>
      if negb (starts_with relation_next (str_trim relation)) then Ok None
      else
        let? target := result_of_option (url_join original target) UnsafeRedirect in
        if negb (same_origin original target) then Err UnsafeRedirect
        else
          let? path := result_of_option (strip_prefix base_path (url_path target)) UnsafeRedirect in
          let? _ := repository_url "https://huggingface.co" (trim_start_matches "/" path) (url_query target) in
          Ok (Some ("<" +:+ trim_end_matches "/" public_base +:+ "/huggingface" +:+ path
                    +:+ match url_query target with Some q => "?" +:+ q | None => "" end
                    +:+ ">" +:+ relation_next))
  end.

Fixpoint next_links (original : Url) (base_path public_base : string) (links : list string) :
    result (list string) ProxyError :=
  match links with
  | [] => Ok []
  | link :: links =>
      let? next := next_link original base_path public_base link in
      let? rest := next_links original base_path public_base links in
      Ok (match next with Some next => next :: rest | None => rest end)
  end.

Definition rewrite_pagination (headers : HeaderMap) (original : Url) (public_base : string) :
    result HeaderMap ProxyError :=
  match h_get headers "link" with
  | None => Ok headers
  | Some value =>
      let headers := h_remove "link" headers in
      match split_once_str "/api/" (url_path original) with
      | None => Ok headers
      | Some (base_path, _) =>
          let? value := result_of_option (h_to_str value) InvalidHeader in
          let? links := next_links original base_path public_base (str_split "," value) in
          match links with
          | [] => Ok headers
          | _ =>
              let? value := result_of_option (h_from_str (str_join ", " links)) InvalidHeader in
              Ok (h_insert "link" value headers)
          end
      end
  end.

(** ** Following redirects *)

Definition is_success (status : Z) : bool := ((200 <=? status) && (status <? 300))%Z.

(** The answer that is not a redirect. *)
Definition final_response (method : string) (original : Url) (public_base : string) (metadata : HeaderMap)
    (response : Response) : result Reply ProxyError :=
  let headers := rs_headers response in
  let headers :=
    if is_success (rs_status response)
    then fold_left (fun h e => h_insert e.1 e.2 h) (h_iter metadata) headers else headers in
  let? headers := rewrite_pagination headers original public_base in
  download_response (rs_status response) headers (if method =? "HEAD" then Some "" else rs_body response).

Definition explicit_ip (original target : Url) : bool :=
  same_origin original target && match url_host_str original ≫= parse_ip with Some _ => true | None => false end.

(** The client for the target: pinned to public addresses, but for the
    address the operator configured. *)
Definition target_client (config : Config.t) (original target : Url) (w : World) : option Client * World :=
  if negb (client_builder_ok config) then (None, w)
  else if explicit_ip original target then (Some None, w)
  else if OutboundProxyConfig.enabled (Config.outbound_proxy config) then (None, w)
  else
    let '(addresses, w) := public_destination_addresses target w in
    (match addresses, url_host_str target with
     | Ok addresses, Some host => Some (Some (host, addresses))
     | _, _ => None
     end, w).

(** One answer: the reply, or the client and the URL of the next hop. *)
Definition hub_follow (config : Config.t) (method : string) (original url : Url) (public_base : string)
    (metadata : HeaderMap) (hop : Z) (response : Response) (w : World) :
    result (Reply + (Client * Url)) ProxyError * World :=
  if negb (is_redirect (rs_status response)) then
    (match final_response method original public_base metadata response with
     | Ok reply => Ok (inl reply)
     | Err e => Err e
     end, w)
  else
    match h_get_str (rs_headers response) "location" ≫= url_join url with
    | None => (Err UnsafeRedirect, w)
    | Some target =>
        if (hop =? 10)%Z || negb (allowed_redirect original url target) then (Err UnsafeRedirect, w)
        else
          let '(client, w) := target_client config original target w in
          match client with
          | None => (Err UnsafeRedirect, w)
          | Some client =>
              let go := if hub_client_ok config client then Ok (inr (client, target)) else Err Upstream in
              (if (method =? "HEAD") && negb (same_origin original target) then
                 let? linked := linked_head_response metadata in
                 match linked with Some reply => Ok (inl reply) | None => go end
               else go, w)
          end
    end.

(** The loop [for hop in 0..=10]. *)
Fixpoint hub_loop (fuel : nat) (config : Config.t) (method : string) (original : Url) (incoming : HeaderMap)
    (public_base : string) (client : Client) (url : Url) (metadata : HeaderMap) (hop : Z) (w : World) :
    result Reply stop * World * Log :=
  match fuel with
  | O => (Err Panic, w, [])
  | S fuel =>
      let '(answer, w, l) := execute_built client (hub_request method url incoming) w in
      match answer with
      | Err _ => (Err (Error Upstream), w, l)
      | Ok response =>
          let metadata := collect_metadata original url response metadata in
          let '(next, w) := hub_follow config method original url public_base metadata hop response w in
          match next with
          | Err e => (Err (Error e), w, l)
          | Ok (inl reply) => (Ok reply, w, l)
          | Ok (inr (client, url)) =>
              let '(r, w, rest) := hub_loop fuel config method original incoming public_base client url metadata
                                     (hop + 1)%Z w in
              (r, w, l ++ rest)
          end
      end
  end.

Definition forward (config : Config.t) (method : string) (original : Url) (incoming : HeaderMap)
    (public_base : string) (w : World) : result Reply stop * World * Log :=
  if negb (no_userinfo original) || bool_decide (url_fragment original <> None) then (Err (Error InvalidUrl), w, [])
  else if negb (client_builder_ok config) then (Err (Error InvalidUrl), w, [])
  else if negb (hub_client_ok config None) then (Err (Error Upstream), w, [])
  else hub_loop 11 config method original incoming public_base None original h_empty 0 w.

(** ** The handlers *)

Definition root (config : Config.t) : result Reply ProxyError :=
  if negb (is_enabled config "huggingface") then Err (Disabled "huggingface")
  else
    match h_from_str "text/plain; charset=utf-8" with
    | None => Err InvalidHeader
    | Some value =>
        Ok {| reply_status := 200; reply_headers := h_append "content-type" value h_empty;
              reply_body := Some ("MirrorProxy public Hugging Face HTTP downloads (no server cache)" +:+ nl
                +:+ "Set HF_ENDPOINT to this URL and HF_HUB_DISABLE_XET=1." +:+ nl) |}
    end.

Definition on_server {A} (r : A * World * Log) (s : Server) : A * Server :=
  let '(r, w, l) := r in
  (r, {| world := w; store := store s; selector := selector s; marks := marks s; log := log s ++ l |}).

Definition good (r : result Reply stop) : bool :=
  match r with Ok reply => negb (should_failover_status (reply_status reply)) | Err _ => false end.

(** The candidates in rank order, until one answers. *)
Fixpoint candidates_loop (config : Config.t) (method : string) (incoming : HeaderMap) (public_base : string)
    (candidates : list Url) (s : Server) : result Reply stop * Server :=
  match candidates with
  | [] => (Err Panic, s)
  | candidate :: rest =>
      let started := instant_now (world s) in
      let '(r, s) := on_server (forward config method candidate incoming public_base (world s)) s in
      if good r then (r, mark_success iter_order candidate started s)
      else
        let s := mark_failure iter_order config candidate s in
        match rest with
        | [] => (r, s)
        | _ => candidates_loop config method incoming public_base rest s
        end
  end.

Definition proxy (config : Config.t) (method uri_path : string) (query : option string) (incoming : HeaderMap)
    (s : Server) : result Reply stop * Server :=
  if negb (is_enabled config "huggingface") then (Err (Error (Disabled "huggingface")), s)
  else if negb ((method =? "GET") || (method =? "HEAD")) then (Err (Error MethodNotAllowed), s)
  else
    match strip_prefix "/huggingface/" uri_path with
    | None => (Err (Error InvalidUrl), s)
    | Some path =>
        match repository_url (Upstreams.huggingface (Config.upstreams config)) path query with
        | Err e => (Err (Error e), s)
        | Ok url =>
            let '(candidates, s) := ranked config url s in
            candidates_loop config method incoming (public_base_url config incoming) candidates s
        end
    end.
End Forward.
End Hub.
