(* ===== verification/HuggingFaceSpec.v ===== *)
(** * What the Hub downloads guarantee

    The paths that are passed on, the requests that leave and the answers
    that come back through [proxy/huggingface.rs]. *)
From stdpp Require Import gmap.
From S2P Require Import Prelude RustStr Lines Headers Net Url Config Upstreams ConfigCheck Fs Cache CacheCodec.
From S2P Require Import Selector Requests Redirect Forward HuggingFace.
Import Hub.
Open Scope string_scope.
Open Scope list_scope.
Open Scope mirror_scope.

(** ** Decoded paths *)

(** A slash is no part of an escape. *)
Lemma decode_at_slash (a b d : string) :
  decode_bytes (a +:+ String "/" b) = Some d ->
  exists da db, decode_bytes a = Some da /\ decode_bytes b = Some db /\ d = da +:+ String "/" db.
Proof.
  remember (String.length a) as n eqn:Hn. revert a d Hn.
  induction (lt_wf n) as [n _ IH]. intros [|c t] d ->; simpl; intros Hd.
  { apply fmap_Some in Hd as (db & -> & ->). by exists "", db. }
  destruct (Ascii.eqb c "%").
  - destruct t as [|hi [|lo t]]; simpl in Hd.
    + by destruct b as [|? ?].
    + by destruct (hex_val hi).
    + destruct (hex_val hi) as [hi'|]; [|done]. destruct (hex_val lo) as [lo'|]; [|done].
      apply fmap_Some in Hd as (d' & Hd & ->).
      destruct (IH (String.length t) ltac:(simpl; lia) t d' eq_refl Hd) as (da & db & -> & -> & ->).
      by exists (String (ascii_of_nat (Z.to_nat (hi' * 16 + lo'))) da), db.
  - apply fmap_Some in Hd as (d' & Hd & ->).
    destruct (IH (String.length t) ltac:(simpl; lia) t d' eq_refl Hd) as (da & db & -> & -> & ->).
    by exists (String c da), db.
Qed.

(** Each segment of a path is decoded within the segments of the whole. *)
Lemma decode_pieces (l : list string) (d : string) :
  l <> [] -> decode_bytes (str_join "/" l) = Some d ->
  forall s, s ∈ l -> exists ds, decode_bytes s = Some ds /\ forall t, t ∈ str_split "/" ds -> t ∈ str_split "/" d.
Proof.
  revert d. induction l as [|x l IH]; intros d Hne Hd s Hs; [done|].
  destruct l as [|y l].
  - apply list_elem_of_singleton in Hs as ->. exists d. by split.
  - change (str_join "/" (x :: y :: l)) with (x +:+ String "/" (str_join "/" (y :: l))) in Hd.
    apply decode_at_slash in Hd as (da & db & Ha & Hb & ->).
    setoid_rewrite str_split_concat. setoid_rewrite elem_of_app.
    apply elem_of_cons in Hs as [->|Hs]; [exists da; auto|].
    destruct (IH db ltac:(done) Hb s Hs) as (ds & Hds & Hin). exists ds. auto.
Qed.

Lemma decode_segment (path d s : string) :
  decode_bytes path = Some d -> s ∈ str_split "/" path ->
  exists ds, decode_bytes s = Some ds /\ forall t, t ∈ str_split "/" ds -> t ∈ str_split "/" d.
Proof.
  intros Hd Hs. apply (decode_pieces (str_split "/" path)); [apply str_split_nonempty|by rewrite str_join_split|done].
Qed.

Lemma existsb_eqb (s : string) (l : list string) : existsb (String.eqb s) l = true <-> s ∈ l.
Proof.
  rewrite existsb_exists. setoid_rewrite String.eqb_eq. setoid_rewrite <- list_elem_of_In. naive_solver.
Qed.

Lemma dots_decode (s : string) :
  is_dot s || is_dot_dot s = true -> decode_bytes s = Some "." \/ decode_bytes s = Some "..".
Proof.
  intros [Hs|Hs]%orb_true_iff; apply existsb_eqb in Hs;
    repeat (apply elem_of_cons in Hs as [->|Hs]; [vm_compute; auto|]); by apply elem_of_nil in Hs.
Qed.

(** A checked path has no segment the URL parser would resolve. *)
Lemma validated_parts (path : string) :
  validate_path path = Ok tt ->
  no_dot_segment path = true /\ (api_path (str_split "/" path) || file_path (str_split "/" path)) = true.
Proof.
  unfold validate_path, decode_path. destruct (decode_bytes path) as [d|] eqn:Hd; [|done].
  destruct (utf8_valid d); [|done]. cbn [result_bind]. destruct (unsafe_decoded d) eqn:Hu; [done|].
  destruct (api_path _ || file_path _); [|done]. intros _. split; [|done].
  unfold unsafe_decoded in Hu. apply orb_false_iff in Hu as [_ Hu]. apply existsb_false_Forall in Hu.
  rewrite Forall_forall in Hu. unfold no_dot_segment. apply forallb_true_Forall, Forall_forall. intros s Hs.
  apply negb_true_iff, not_true_iff_false. intros Hdot.
  destruct (decode_segment path d s Hd Hs) as (ds & Hds & Hin).
  destruct (dots_decode s Hdot) as [Heq|Heq]; rewrite Hds in Heq; simplify_eq.
  - specialize (Hu "." (Hin "." ltac:(by left))). done.
  - specialize (Hu ".." (Hin ".." ltac:(by left))). done.
Qed.

(** ** The resources of the Hub

    What a request may name: a repository of one or two segments, its
    revisions and trees, its files, and the cache of resolved files. *)
Inductive repository : list string -> Prop :=
| repository_short name : repository [name]
| repository_long owner name : repository [owner; name].

Inductive resource : list string -> Prop :=
| resource_about k r : repository_kind k = true -> repository r -> resource ("api" :: k :: r)
| resource_revision k r revision :
    repository_kind k = true -> repository r -> resource ("api" :: k :: r ++ ["revision"; revision])
| resource_tree k r revision directory :
    repository_kind k = true -> repository r -> resource ("api" :: k :: r ++ "tree" :: revision :: directory)
| resource_resolved k owner name revision file :
    repository_kind k = true -> resource ("api" :: "resolve-cache" :: k :: owner :: name :: revision :: file)
| resource_file r revision top file :
    repository r -> head r <> Some "datasets" -> resource (r ++ "resolve" :: revision :: top :: file)
| resource_dataset r revision top file :
    repository r -> resource ("datasets" :: r ++ "resolve" :: revision :: top :: file).

Lemma file_path_resource (parts : list string) : file_path parts = true -> resource parts.
Proof.
  unfold file_path. intros Hf.
  assert (Hrepo : forall l,
    match l with _ :: a :: _ :: _ :: _ => a =? "resolve" | _ => false end
    || match l with _ :: _ :: a :: _ :: _ :: _ => a =? "resolve" | _ => false end = true ->
    exists r revision top file, repository r /\ l = r ++ "resolve" :: revision :: top :: file).
  { intros l [Hl|Hl]%orb_true_iff.
    - destruct l as [|n [|a [|rev [|top file]]]]; try done. apply String.eqb_eq in Hl as ->.
      exists [n], rev, top, file. by split; [constructor|].
    - destruct l as [|o [|n [|a [|rev [|top file]]]]]; try done. apply String.eqb_eq in Hl as ->.
      exists [o; n], rev, top, file. by split; [constructor|]. }
  destruct parts as [|p rest]; [done|]. destruct (p =? "datasets") eqn:Hp.
  - apply String.eqb_eq in Hp as ->. apply Hrepo in Hf as (r & rev & top & file & Hr & ->). by apply resource_dataset.
  - apply (Hrepo (p :: rest)) in Hf as (r & rev & top & file & Hr & Heq). rewrite Heq. apply resource_file; [done|].
    apply String.eqb_neq in Hp. destruct Hr; cbn [app] in Heq; injection Heq as -> Heq; simpl; congruence.
Qed.

Lemma api_rest_cases (rest : list string) :
  api_rest rest = true <->
  exists r, repository r /\
    (rest = r \/ (exists v, rest = r ++ ["revision"; v]) \/ (exists v d, rest = r ++ "tree" :: v :: d)).
Proof.
  split.
  - unfold api_rest. intros [[[H|H]%orb_true_iff|H]%orb_true_iff|H]%orb_true_iff.
    + destruct rest as [|n [|n' [|]]]; try done; [exists [n]|exists [n; n']]; (split; [constructor|by left]).
    + destruct rest as [|n [|a [|v [|v' [|]]]]]; try done; apply String.eqb_eq in H as ->;
        [exists [n]|exists [n; a]]; (split; [constructor|right; left; by eexists]).
    + destruct rest as [|n [|a [|v d]]]; try done. apply String.eqb_eq in H as ->.
      exists [n]. split; [constructor|]. right. right. by exists v, d.
    + destruct rest as [|o [|n [|a [|v d]]]]; try done. apply String.eqb_eq in H as ->.
      exists [o; n]. split; [constructor|]. right. right. by exists v, d.
  - intros (r & Hr & [->|[(v & ->)|(v & d & ->)]]); destruct Hr; unfold api_rest; simpl;
      rewrite ?orb_true_r; try done; by rewrite ?orb_true_r.
Qed.

Lemma api_path_resource (parts : list string) : api_path parts = true -> resource parts.
Proof.
  unfold api_path. destruct parts as [|a [|k rest]]; [done|done|].
  destruct ((a =? "api") && repository_kind k) eqn:H1.
  - apply andb_true_iff in H1 as [->%String.eqb_eq Hk].
    intros (r & Hr & [->|[(v & ->)|(v & d & ->)]])%api_rest_cases; by constructor.
  - destruct ((a =? "api") && (k =? "resolve-cache")) eqn:H2; [|done].
    apply andb_true_iff in H2 as [->%String.eqb_eq ->%String.eqb_eq].
    destruct rest as [|k' [|o [|n [|v file]]]]; try done. intros Hk. by constructor.
Qed.

(** The two checks accept the resources and nothing else. *)
Lemma parts_resource (parts : list string) : api_path parts || file_path parts = true <-> resource parts.
Proof.
  split; [intros [H|H]%orb_true_iff; [by apply api_path_resource|by apply file_path_resource]|].
  intros Hres. apply orb_true_iff. destruct Hres as [k r Hk Hr|k r v Hk Hr|k r v d Hk Hr|k o n v f Hk|r v t f Hr Hd|r v t f Hr].
  - left. simpl. rewrite Hk. apply api_rest_cases. eauto.
  - left. simpl. rewrite Hk. apply api_rest_cases. eauto 6.
  - left. simpl. rewrite Hk. apply api_rest_cases. eauto 7.
  - left. simpl. done.
  - right. destruct Hr as [n|o n]; simpl in Hd; unfold file_path; cbn [app].
    + replace (n =? "datasets") with false by (symmetry; apply String.eqb_neq; congruence). by destruct t.
    + replace (o =? "datasets") with false by (symmetry; apply String.eqb_neq; congruence). apply orb_true_r.
  - right. destruct Hr as [n|o n]; unfold file_path; cbn [app]; [done|apply orb_true_r].
Qed.

Lemma validate_path_spec (path : string) :
  validate_path path = Ok tt <->
  resource (str_split "/" path) /\ exists d, decode_path path = Ok d /\ unsafe_decoded d = false.
Proof.
  rewrite <- parts_resource. unfold validate_path. destruct (decode_path path) as [d|e]; cbn [result_bind].
  - destruct (unsafe_decoded d) eqn:Hu; [split; [done|]|].
    + intros (_ & d' & Hd & Hu'). simplify_eq. congruence.
    + case_bool; split; try done; [eauto|by intros [? _]].
  - split; [done|]. intros (_ & d & ? & _). done.
Qed.

(** ** What leaves the server *)

(** Where a request of a download may go, and with which client: to the
    candidate itself; to its origin again when that is an address the
    operator configured; else over a connection pinned to public addresses,
    with no outbound proxy, to its origin or to a download host over HTTPS. *)
Inductive hub_target `{UrlApi} (config : Config.t) (original : Url) : Client -> Url -> Prop :=
| target_original : hub_target config original None original
| target_address url address :
    web url -> url_origin original = url_origin url -> url_host_str original ≫= parse_ip = Some address ->
    hub_target config original None url
| target_public url host addresses :
    web url ->
    url_origin original = url_origin url \/
    (url_scheme url = "https" /\ url_port_or_known_default url = Some 443%Z /\ host ∈ DOWNLOAD_HOSTS) ->
    url_host_str url = Some host -> addresses <> [] -> Forall (fun a => is_public_address a.1.1 = true) addresses ->
    OutboundProxyConfig.enabled (Config.outbound_proxy config) = false ->
    hub_target config original (Some (host, addresses)) url.

Record departs `{UrlApi} `{HeaderApi} (config : Config.t) (method : string) (original : Url) (e : Client * Request) :
    Prop := {
  departs_target : hub_target config original e.1 (rq_url e.2);
  departs_method : rq_method e.2 = method;
  departs_bare : url_username (rq_url e.2) = "" /\ url_password (rq_url e.2) = None /\ url_fragment (rq_url e.2) = None;
  departs_secure : url_scheme original = "https" -> url_scheme (rq_url e.2) = "https";
  departs_headers : forall n, h_get_all (rq_headers e.2) n <> [] ->
    to_ascii_lowercase n ∈ ["accept-encoding"; "accept"; "range"; "if-range"; "if-none-match"; "if-modified-since"];
}.

Section Requests.
Context `{HubWorld} `{!HttpLaws} `{!HeaderLaws} `{!QueryApi}.

Lemma pass_headers (incoming : HeaderMap) (names : list string) (r : Request) :
  let r' := fold_left (pass_header incoming) names r in
  rq_method r' = rq_method r /\ rq_url r' = rq_url r /\
  forall n, h_get_all (rq_headers r') n <> [] ->
    to_ascii_lowercase n ∈ (to_ascii_lowercase <$> names) \/ h_get_all (rq_headers r) n <> [].
Proof.
  cbv zeta. revert r. induction names as [|m names IH]; intros r; cbn [fold_left fmap list_fmap]; [auto|].
  destruct (IH (pass_header incoming r m)) as (Hm & Hu & Hh). rewrite Hm, Hu. unfold pass_header in *.
  destruct (h_get incoming m) as [v|]; simpl in *.
  - split; [done|]. split; [done|]. intros n [Hn|Hn]%Hh; [set_solver|]. rewrite h_get_all_append in Hn.
    case_decide as He; [set_solver|by right].
  - split; [done|]. split; [done|]. intros n [Hn|Hn]%Hh; [set_solver|by right].
Qed.

Lemma hub_request_bare (method : string) (url : Url) (incoming : HeaderMap) (r : Request) :
  no_userinfo url = true -> hub_request method url incoming = Some r ->
  rq_method r = method /\ rq_url r = url /\
  forall n, h_get_all (rq_headers r) n <> [] -> to_ascii_lowercase n ∈ "accept-encoding" :: CLIENT_HEADERS.
Proof.
  intros Hu Hr. unfold no_userinfo in Hu. apply andb_true_iff in Hu as [Hu Hp].
  apply bool_decide_eq_true in Hp. assert (Hn : url_username url = "") by (by destruct (url_username url)).
  unfold hub_request, add_header in Hr. rewrite (new_request_plain _ _ Hn Hp) in Hr.
  apply fmap_Some in Hr as (r0 & Hr0 & ->). apply fmap_Some in Hr0 as (v & _ & ->).
  match goal with |- context [fold_left (pass_header incoming) CLIENT_HEADERS ?r0] =>
    destruct (pass_headers incoming CLIENT_HEADERS r0) as (-> & -> & Hh) end.
  split; [done|]. split; [done|]. intros n [Hin|Hne]%Hh; [right; exact Hin|]. simpl in Hne.
  rewrite h_get_all_append in Hne. case_decide as He; [rewrite He; by left|].
  unfold h_get_all in Hne. by rewrite h_iter_empty in Hne.
Qed.

Lemma allowed_redirect_spec (original previous target : Url) :
  allowed_redirect original previous target = true ->
  web target /\ (url_scheme previous = "https" -> url_scheme target = "https") /\
  no_userinfo target = true /\ url_fragment target = None /\
  (url_origin original = url_origin target \/
   exists host, url_scheme target = "https" /\ url_port_or_known_default target = Some 443%Z /\
     url_host_str target = Some host /\ host ∈ DOWNLOAD_HOSTS).
Proof.
  unfold allowed_redirect, same_origin, no_userinfo. intros Ha. bool_to_prop.
  repeat match goal with Hb : bool_decide _ = true |- _ => apply bool_decide_eq_true in Hb end.
  split_and!.
  - unfold web. by rewrite orb_true_iff, !String.eqb_eq in *.
  - intros Hs. destruct (url_scheme target =? "https") eqn:Ht; [by apply String.eqb_eq|].
    rewrite Hs in *. done.
  - apply andb_true_iff. split; [done|by apply bool_decide_eq_true].
  - done.
  - match goal with Hb : bool_decide _ || _ = true |- _ => apply orb_true_iff in Hb as [Hb|Hb] end.
    + left. by eapply bool_decide_eq_true_1.
    + right. bool_to_prop.
      repeat match goal with Hb : bool_decide _ = true |- _ => apply bool_decide_eq_true in Hb end.
      destruct (url_host_str target) as [host|]; [|done]. exists host. split_and!; try done. by apply existsb_eqb.
Qed.

Lemma target_client_spec (config : Config.t) (original previous target : Url) (client : Client) (w w' : World) :
  allowed_redirect original previous target = true ->
  target_client config original target w = (Some client, w') -> hub_target config original client target.
Proof.
  intros (Hweb & _ & _ & _ & Hor)%allowed_redirect_spec. unfold target_client.
  destruct (client_builder_ok config); [cbn [negb]|done]. destruct (explicit_ip original target) eqn:Hip.
  - intros [= <- <-]. unfold explicit_ip, same_origin in Hip. bool_to_prop.
    destruct (url_host_str original ≫= parse_ip) as [a|] eqn:Ha; [|done].
    eapply target_address; [done| |done]. by eapply bool_decide_eq_true_1.
  - destruct (OutboundProxyConfig.enabled _) eqn:Hout; [done|].
    destruct (public_destination_addresses target w) as [[addresses|e] w1] eqn:Hpub; [|done].
    destruct (url_host_str target) as [host|] eqn:Hh; [|done]. intros [= <- <-].
    apply public_destinations in Hpub as [Hne Hall].
    apply target_public; try done. destruct Hor as [Ho|(h & Hs & Hp & Hh' & Hin)]; [by left|right]. by simplify_eq.
Qed.

Lemma hub_follow_next (config : Config.t) (method : string) (original url : Url) (public_base : string)
    (metadata : HeaderMap) (hop : Z) (response : Response) (w w' : World) (client : Client) (target : Url) :
  hub_follow config method original url public_base metadata hop response w = (Ok (inr (client, target)), w') ->
  hop <> 10%Z /\ allowed_redirect original url target = true /\ hub_target config original client target.
Proof.
  unfold hub_follow. destruct (is_redirect _); cbn [negb].
  2:{ by destruct (final_response _ _ _ _ _). }
  destruct (h_get_str _ "location" ≫= url_join url) as [target'|]; [|done].
  destruct ((hop =? 10)%Z || _) eqn:Hg; [done|]. bool_to_prop.
  destruct (target_client config original target' w) as [[client'|] w1] eqn:Hc; [|done]. intros Hk.
  assert (client' = client /\ target' = target) as [-> ->].
  { apply (f_equal fst) in Hk. simpl in Hk. destruct (_ && _); [destruct (linked_head_response metadata) as [[reply|]|e]|];
      cbn [result_bind] in Hk; try done; by destruct (hub_client_ok config client'); simplify_eq. }
  split; [done|]. split; [done|]. by eapply target_client_spec.
Qed.

Lemma hub_loop_departs (config : Config.t) (method : string) (original : Url) (incoming : HeaderMap)
    (public_base : string) (fuel : nat) :
  forall (client : Client) (url : Url) (metadata : HeaderMap) (hop : Z) (w : World),
  hub_target config original client url -> no_userinfo url = true -> url_fragment url = None ->
  (url_scheme original = "https" -> url_scheme url = "https") ->
  Forall (departs config method original)
    (hub_loop fuel config method original incoming public_base client url metadata hop w).2.
Proof.
  induction fuel as [|fuel IH]; intros client url metadata hop w Ht Hu Hf Hs; cbn [hub_loop]; [constructor|].
  assert (Hl : forall answer w' l, execute_built client (hub_request method url incoming) w = (answer, w', l) ->
    Forall (departs config method original) l).
  { intros answer w' l. unfold execute_built. destruct (hub_request method url incoming) as [r|] eqn:Hr;
      [|intros [= <- <- <-]; constructor].
    destruct (execute client r w) as [a w1]. intros [= <- <- <-]. apply Forall_singleton.
    destruct (hub_request_bare _ _ _ _ Hu Hr) as (Hm & Hurl & Hh).
    unfold no_userinfo in Hu; apply andb_true_iff in Hu as [Hu Hp]; apply bool_decide_eq_true in Hp.
    split; simpl; rewrite ?Hurl; try done. by destruct (url_username url). }
  destruct (execute_built client _ w) as [[[response|e] w1] l] eqn:He; [|by eapply Hl].
  specialize (Hl _ _ _ eq_refl).
  destruct (hub_follow config method original url public_base _ hop response w1)
    as [[[reply|[client' url']]|e] w2] eqn:Hfol; [done| |done].
  apply hub_follow_next in Hfol as (_ & Ha & Ht'). pose proof (allowed_redirect_spec _ _ _ Ha) as (_ & Hs' & Hu' & Hf' & _).
  specialize (IH client' url' (collect_metadata original url response metadata) (hop + 1)%Z w2 Ht' Hu' Hf' ltac:(auto)).
  destruct (hub_loop fuel _ _ _ _ _ _ _ _ _ _) as [[r w3] rest]. simpl in *. by apply Forall_app.
Qed.

Lemma forward_departs (config : Config.t) (method : string) (original : Url) (incoming : HeaderMap)
    (public_base : string) (w : World) :
  Forall (departs config method original) (Hub.forward config method original incoming public_base w).2.
Proof.
  unfold Hub.forward. destruct (no_userinfo original) eqn:Hu; [|constructor]. cbn [negb orb].
  destruct (bool_decide (url_fragment original <> None)) eqn:Hf; [constructor|].
  repeat case_bool; try constructor. apply hub_loop_departs; [constructor|done| |done].
  apply bool_decide_eq_false in Hf. by apply dec_stable.
Qed.

(** ** What comes back *)

Lemma shown_headers (l : list (string * HeaderValue)) (h : HeaderMap) (n : string) :
  (forall e, e ∈ l -> to_ascii_lowercase e.1 = e.1) ->
  h_get_all (fold_left (fun h e => if shown_header (name_of e) then h_append e.1 e.2 h else h) l h) n =
  h_get_all h n ++
  (if shown_header (to_ascii_lowercase n) then snd <$> filter (fun e => e.1 = to_ascii_lowercase n) l else []).
Proof.
  revert h. induction l as [|e l IH]; intros h Hl; cbn [fold_left].
  { rewrite filter_nil. case_bool; by rewrite app_nil_r. }
  assert (He : to_ascii_lowercase e.1 = e.1) by (apply Hl; by left).
  rewrite IH by (intros; apply Hl; by right). unfold name_of. rewrite He, filter_cons.
  destruct (decide (e.1 = to_ascii_lowercase n)) as [Hn|Hn].
  - rewrite Hn. destruct (shown_header (to_ascii_lowercase n)); [|done].
    rewrite h_get_all_append, lower_idem, decide_True by done. by rewrite <- app_assoc.
  - destruct (shown_header e.1); [|done]. rewrite h_get_all_append, decide_False by congruence. done.
Qed.

(** A reply shows the bypassed cache, and of the headers those that may be shown. *)
Lemma download_response_spec (status : Z) (headers : HeaderMap) (body : option string) (reply : Reply) :
  download_response status headers body = Ok reply ->
  reply_status reply = status /\ reply_body reply = body /\ exists bypass, h_from_str "BYPASS" = Some bypass /\
  forall n, h_get_all (reply_headers reply) n =
    (if decide (to_ascii_lowercase n = "x-mirrorproxy-cache") then [bypass] else []) ++
    (if shown_header (to_ascii_lowercase n) then h_get_all headers n else []).
Proof.
  unfold download_response. destruct (h_from_str "BYPASS") as [bypass|]; [|done].
  intros Hr. apply (inj Ok) in Hr. subst reply. cbn [reply_status reply_body reply_headers].
  split; [done|]. split; [done|]. exists bypass. split; [done|]. intros n.
  rewrite shown_headers by (intros; by eapply h_iter_lower). f_equal. rewrite h_get_all_append.
  unfold h_get_all at 1 2. rewrite h_iter_empty. done.
Qed.

(** A link to the next page through the server, to a path it would accept. *)
Definition proxy_link (public_base link : string) : Prop :=
  exists path query, validate_path (trim_start_matches "/" path) = Ok tt /\
    link = "<" +:+ trim_end_matches "/" public_base +:+ "/huggingface" +:+ path
           +:+ match query with Some q => "?" +:+ q | None => "" end +:+ ">" +:+ relation_next.

Lemma repository_url_validates (base path : string) (query : option string) (url : Url) :
  Hub.repository_url base path query = Ok url -> validate_path path = Ok tt.
Proof. unfold Hub.repository_url. by destruct (validate_path path) as [[]|]. Qed.

Lemma next_links_spec (original : Url) (base_path public_base : string) (links out : list string) :
  next_links original base_path public_base links = Ok out -> Forall (proxy_link public_base) out.
Proof.
  revert out. induction links as [|link links IH]; intros out; cbn [next_links]; [intros [= <-]; constructor|].
  destruct (next_link original base_path public_base link) as [next|] eqn:Hn; [cbn [result_bind]|done].
  destruct (next_links _ _ _ links) as [rest|]; [cbn [result_bind]|done]. intros [= <-].
  destruct next as [next|]; [|by apply IH]. constructor; [|by apply IH].
  unfold next_link in Hn. destruct (strip_prefix _ _ ≫= _) as [[target relation]|]; [|done].
  destruct (negb (starts_with _ _)); [done|]. destruct (url_join original target) as [t|]; [cbn [result_of_option result_bind] in Hn|done].
  destruct (negb (Hub.same_origin original t)); [done|].
  destruct (strip_prefix base_path (url_path t)) as [path|]; [cbn [result_of_option result_bind] in Hn|done].
  destruct (Hub.repository_url _ _ _) as [u|] eqn:Hu; [cbn [result_bind] in Hn|done].
  injection Hn as <-. exists path, (url_query t). split; [by eapply repository_url_validates|done].
Qed.

Definition clean_links (public_base : string) (links : list HeaderValue) : Prop :=
  links = [] \/
  exists l v, links = [v] /\ h_to_str v = Some (str_join ", " l) /\ Forall (proxy_link public_base) l.

Lemma rewrite_pagination_spec (headers headers' : HeaderMap) (original : Url) (public_base : string) :
  rewrite_pagination headers original public_base = Ok headers' ->
  clean_links public_base (h_get_all headers' "link") /\
  forall n, to_ascii_lowercase n <> "link" -> h_get_all headers' n = h_get_all headers n.
Proof.
  unfold rewrite_pagination. destruct (h_get headers "link") as [value|] eqn:Hl.
  2:{ intros [= <-]. split; [left|done]. unfold h_get in Hl. by destruct (h_get_all headers "link"). }
  assert (Hrm : forall n, to_ascii_lowercase n <> "link" -> h_get_all (h_remove "link" headers) n = h_get_all headers n)
    by (intros n Hn; rewrite h_get_all_remove; by rewrite decide_False).
  assert (Hno : clean_links public_base (h_get_all (h_remove "link" headers) "link"))
    by (left; rewrite h_get_all_remove; by rewrite decide_True).
  destruct (split_once_str _ _) as [[base_path rest]|]; [|by intros [= <-]].
  destruct (h_to_str value) as [s|]; [cbn [result_of_option result_bind]|done].
  destruct (next_links _ _ _ _) as [[|l ls]|] eqn:Hn; [by intros [= <-]| |done]. cbn [result_bind].
  destruct (h_from_str _) as [v|] eqn:Hv; [|done]. intros [= <-]. split.
  - right. exists (l :: ls), v. split; [rewrite h_get_all_insert; by rewrite decide_True|].
    split; [by apply h_to_from_str|by eapply next_links_spec].
  - intros n Hne. rewrite h_get_all_insert, decide_False by done. by apply Hrm.
Qed.

(** Metadata has the three names of the Hub only. *)
Definition hub_metadata (metadata : HeaderMap) : Prop :=
  forall n, h_get_all metadata n <> [] -> to_ascii_lowercase n ∈ METADATA.

Lemma collect_metadata_names (original url : Url) (response : Response) (metadata : HeaderMap) :
  hub_metadata metadata -> hub_metadata (collect_metadata original url response metadata).
Proof.
  unfold collect_metadata. case_bool; [|done]. assert (Hg : forall names m, (forall x, x ∈ names -> x ∈ METADATA) ->
    hub_metadata m -> hub_metadata (fold_left (fun m name =>
      match h_get (rs_headers response) name with Some value => h_insert name value m | None => m end) names m)).
  { induction names as [|x names IH]; intros m Hin Hm; cbn [fold_left]; [done|].
    apply IH; [intros; apply Hin; by right|]. destruct (h_get _ x) as [v|]; [|done].
    intros n Hn. rewrite h_get_all_insert in Hn. case_decide as He; [|by apply Hm].
    rewrite He. assert (Hx : x ∈ METADATA) by (apply Hin; by left). unfold METADATA in Hx.
    repeat (apply elem_of_cons in Hx as [->|Hx]; [set_solver|]). by apply elem_of_nil in Hx. }
  intros Hm. by apply Hg.
Qed.

(** No redirect, no cookie, no endpoint of the storage; never cached; links
    only to the server; and no body in answer to HEAD. *)
Record clean_reply (method public_base : string) (reply : Reply) : Prop := {
  clean_hidden : forall n, to_ascii_lowercase n ∈ ["location"; "set-cookie"] \/
    starts_with "x-xet-" (to_ascii_lowercase n) = true -> h_get_all (reply_headers reply) n = [];
  clean_bypass : exists v, h_from_str "BYPASS" = Some v /\ h_get_all (reply_headers reply) "x-mirrorproxy-cache" = [v];
  clean_pages : clean_links public_base (h_get_all (reply_headers reply) "link");
  clean_head : method = "HEAD" -> reply_body reply = Some "";
}.

Lemma download_response_clean (method public_base : string) (status : Z) (headers : HeaderMap)
    (body : option string) (reply : Reply) :
  clean_links public_base (h_get_all headers "link") -> (method = "HEAD" -> body = Some "") ->
  download_response status headers body = Ok reply -> clean_reply method public_base reply.
Proof.
  intros Hl Hb (_ & Hbody & v & Hv & Hh)%download_response_spec. split.
  - intros n Hn. rewrite Hh. assert (Hx : to_ascii_lowercase n <> "x-mirrorproxy-cache").
    { destruct Hn as [Hn|Hn]; intros Heq; rewrite Heq in Hn; [set_solver|done]. }
    rewrite decide_False by done. assert (shown_header (to_ascii_lowercase n) = false) as ->; [|done].
    unfold shown_header. destruct Hn as [Hn| ->]; [|by rewrite andb_false_r].
    rewrite andb_false_iff. right. apply negb_false_iff, existsb_eqb. set_solver.
  - exists v. split; [done|]. by rewrite Hh.
  - by rewrite Hh.
  - intros Hm. rewrite Hbody. auto.
Qed.

Lemma metadata_inserted (l : list (string * HeaderValue)) (h : HeaderMap) (n : string) :
  (forall e, e ∈ l -> to_ascii_lowercase n <> to_ascii_lowercase e.1) ->
  h_get_all (fold_left (fun h e => h_insert e.1 e.2 h) l h) n = h_get_all h n.
Proof.
  revert h. induction l as [|e l IH]; intros h Hl; cbn [fold_left]; [done|].
  rewrite IH by (intros; apply Hl; by right). rewrite h_get_all_insert, decide_False; [done|]. apply Hl. by left.
Qed.

Lemma final_response_clean (method : string) (original : Url) (public_base : string) (metadata : HeaderMap)
    (response : Response) (reply : Reply) :
  final_response method original public_base metadata response = Ok reply -> clean_reply method public_base reply.
Proof.
  unfold final_response. cbv zeta. destruct (rewrite_pagination _ original public_base) as [h|] eqn:Hr; [|done].
  cbn [result_bind]. apply rewrite_pagination_spec in Hr as [Hl _]. intros Hd.
  eapply download_response_clean; [exact Hl| |exact Hd]. by intros ->.
Qed.

Lemma linked_head_clean (public_base : string) (metadata : HeaderMap) (reply : Reply) :
  hub_metadata metadata -> linked_head_response metadata = Ok (Some reply) -> clean_reply "HEAD" public_base reply.
Proof.
  intros Hm. unfold linked_head_response. case_bool; [done|].
  destruct (h_get metadata "x-linked-etag") as [etag|]; [|done].
  destruct (h_get metadata "x-linked-size") as [size|]; [|done]. cbv zeta.
  destruct (download_response 200 _ _) as [r|] eqn:Hd; [|done]. cbn [result_bind]. intros [= <-].
  eapply download_response_clean; [|by intros _|exact Hd]. left.
  rewrite !h_get_all_insert, !decide_False by done.
  destruct (h_get_all metadata "link") as [|v l] eqn:Hl; [done|]. exfalso.
  assert (Hin : to_ascii_lowercase "link" ∈ METADATA) by (apply Hm; by rewrite Hl). unfold METADATA in Hin. set_solver.
Qed.

Lemma hub_follow_reply (config : Config.t) (method : string) (original url : Url) (public_base : string)
    (metadata : HeaderMap) (hop : Z) (response : Response) (w w' : World) (reply : Reply) :
  hub_metadata metadata ->
  hub_follow config method original url public_base metadata hop response w = (Ok (inl reply), w') ->
  clean_reply method public_base reply.
Proof.
  intros Hm. unfold hub_follow. destruct (is_redirect _); cbn [negb].
  2:{ destruct (final_response _ _ _ _ _) as [r|] eqn:Hf; [|done]. intros [= -> _]. by eapply final_response_clean. }
  destruct (h_get_str _ "location" ≫= url_join url) as [target|]; [|done].
  destruct ((hop =? 10)%Z || _); [done|]. destruct (target_client _ _ _ _) as [[client|] w1]; [|done].
  destruct (method =? "HEAD") eqn:Hhead; cbn [andb].
  2:{ destruct (hub_client_ok config client); done. }
  apply String.eqb_eq in Hhead as ->. case_bool; [|by destruct (hub_client_ok config client)].
  destruct (linked_head_response metadata) as [[r|]|e] eqn:Hl; cbn [result_bind];
    [|by destruct (hub_client_ok config client)|done].
  intros [= -> _]. by eapply linked_head_clean.
Qed.

(** A download ends after at most eleven requests, without a panic, and what
    it answers is clean. *)
Lemma hub_loop_ends (config : Config.t) (method : string) (original : Url) (incoming : HeaderMap)
    (public_base : string) (fuel : nat) :
  forall (client : Client) (url : Url) (metadata : HeaderMap) (hop : Z) (w : World),
  (0 <= hop <= 10)%Z -> (Z.of_nat fuel + hop = 11)%Z -> hub_metadata metadata ->
  let '(r, _, l) := hub_loop fuel config method original incoming public_base client url metadata hop w in
  r <> Err Panic /\ (length l <= fuel)%nat /\ forall reply, r = Ok reply -> clean_reply method public_base reply.
Proof.
  induction fuel as [|fuel IH]; intros client url metadata hop w Hh Hf Hm; [lia|]. cbn [hub_loop].
  assert (Hl : forall answer w' l, execute_built client (hub_request method url incoming) w = (answer, w', l) ->
    (length l <= 1)%nat).
  { intros answer w' l. unfold execute_built. destruct (hub_request method url incoming) as [r|];
      [destruct (execute client r w)|]; intros [= <- <- <-]; simpl; lia. }
  destruct (execute_built client _ w) as [[[response|e] w1] l] eqn:He; specialize (Hl _ _ _ eq_refl);
    [|split_and!; [done|lia|done]].
  pose proof (collect_metadata_names original url response metadata Hm) as Hm'.
  destruct (hub_follow config method original url public_base _ hop response w1)
    as [[[reply|[client' url']]|e] w2] eqn:Hfol.
  - split_and!; [done|lia|]. intros reply' Hr'. apply (inj Ok) in Hr'. subst reply'. by eapply hub_follow_reply.
  - apply hub_follow_next in Hfol as (Hne & _).
    specialize (IH client' url' (collect_metadata original url response metadata) (hop + 1)%Z w2
      ltac:(lia) ltac:(lia) Hm').
    destruct (hub_loop fuel _ _ _ _ _ _ _ _ _ _) as [[r w3] rest]. destruct IH as (Hp & Hn & Hc).
    split_and!; [done| |done]. rewrite length_app. lia.
  - split_and!; [done|lia|done].
Qed.

Lemma forward_ends (config : Config.t) (method : string) (original : Url) (incoming : HeaderMap)
    (public_base : string) (w : World) :
  let '(r, _, l) := Hub.forward config method original incoming public_base w in
  r <> Err Panic /\ (length l <= 11)%nat /\ forall reply, r = Ok reply -> clean_reply method public_base reply.
Proof.
  unfold Hub.forward. repeat (case_bool; [split_and!; [done|simpl; lia|done]|]). apply hub_loop_ends; [lia|lia|].
  intros n Hn. unfold h_get_all in Hn. by rewrite h_iter_empty in Hn.
Qed.
End Requests.

(** ** The candidates *)

Section Candidates.
Context `{HubWorld} `{!HttpLaws} `{!HeaderLaws} `{!QueryApi}.
Variable iter_order : list (string * EndpointState) -> list (string * EndpointState).

(** What a run over candidates leaves: requests that may depart, at most
    eleven for each; the response cache as it was; an answer that is clean,
    and never a panic. *)
Record hub_run (config : Config.t) (method public_base : string) (candidates : list Url) (s : Server)
    (out : result Reply stop * Server) : Prop := {
  run_log : exists sent, log out.2 = log s ++ sent /\ (length sent <= 11 * length candidates)%nat /\
    Forall (fun e => exists c, c ∈ candidates /\ departs config method c e) sent;
  run_store : store out.2 = store s;
  run_returns : out.1 <> Err Panic;
  run_clean : forall reply, out.1 = Ok reply -> clean_reply method public_base reply;
}.

Lemma candidates_run (config : Config.t) (method : string) (incoming : HeaderMap) (public_base : string)
    (candidates : list Url) :
  forall s, candidates <> [] ->
  hub_run config method public_base candidates s
    (candidates_loop iter_order config method incoming public_base candidates s).
Proof.
  induction candidates as [|c rest IH]; intros s Hne; [done|]. cbn [candidates_loop]. unfold on_server.
  pose proof (forward_departs config method c incoming public_base (world s)) as Hd.
  pose proof (forward_ends config method c incoming public_base (world s)) as He.
  destruct (Hub.forward config method c incoming public_base (world s)) as [[r w] l]. simpl in Hd.
  destruct He as (Hp & Hn & Hc).
  assert (Hd' : Forall (fun e => exists x, x ∈ c :: rest /\ departs config method x e) l).
  { eapply Forall_impl; [exact Hd|]. intros e He. exists c. split; [by left|done]. }
  assert (Hone : forall s', log s' = log s ++ l -> store s' = store s ->
    hub_run config method public_base (c :: rest) s (r, s')).
  { intros s' Hl Hs. split; [|done|done|done]. exists l. split; [done|]. split; [simpl; lia|done]. }
  destruct (good r); [by apply Hone|]. destruct rest as [|c' rest]; [by apply Hone|].
  match goal with |- hub_run _ _ _ _ _ (candidates_loop _ _ _ _ _ _ ?s') =>
    destruct (IH s' ltac:(done)) as [(sent & Hl & Hlen & Hall) Hs Hr Hcl] end.
  split; [|by rewrite Hs|done|done]. exists (l ++ sent). rewrite Hl. cbn [log mark_failure].
  split; [by rewrite <- app_assoc|]. split; [rewrite length_app; simpl in *; lia|].
  apply Forall_app. split; [done|]. eapply Forall_impl; [exact Hall|].
  intros e (x & Hx & He). exists x. split; [by right|done].
Qed.
End Candidates.

(** ** Properties *)

Section Guarantees.
Context `{HubWorld} `{!HttpLaws} `{!HeaderLaws} `{!QueryApi}.
Variable iter_order : list (string * EndpointState) -> list (string * EndpointState).

Lemma proxy_run (config : Config.t) (method uri_path : string) (query : option string) (incoming : HeaderMap)
    (s : Server) :
  let out := Hub.proxy iter_order config method uri_path query incoming s in
  (exists e, out = (Err (Error e), s)) \/
  exists path url candidates s',
    (method = "GET" \/ method = "HEAD") /\ uri_path = "/huggingface/" +:+ path /\
    Hub.repository_url (Upstreams.huggingface (Config.upstreams config)) path query = Ok url /\
    candidates ≡ₚ upstream_candidates_for (Config.upstreams config) url /\ log s' = log s /\ store s' = store s /\
    hub_run config method (public_base_url config incoming) candidates s' out.
Proof.
  cbv zeta. unfold Hub.proxy. destruct (is_enabled config "huggingface"); [cbn [negb]|left; by eexists].
  destruct ((method =? "GET") || (method =? "HEAD")) eqn:Hm; [cbn [negb]|left; by eexists].
  destruct (strip_prefix "/huggingface/" uri_path) as [path|] eqn:Hp; [|left; by eexists].
  destruct (Hub.repository_url _ path query) as [url|e] eqn:Hu; [right|left; by eexists].
  apply strip_prefix_Some in Hp. rewrite orb_true_iff, !String.eqb_eq in Hm.
  pose proof (ranked_perm config url s) as Hperm. pose proof (ranked_nonempty config url s) as Hne.
  assert (Hs : log (ranked config url s).2 = log s /\ store (ranked config url s).2 = store s)
    by (unfold ranked; by case_match).
  destruct (ranked config url s) as [candidates s']. simpl in *. destruct Hs as [Hl Hst].
  exists path, url, candidates, s'. split_and!; try done. by apply candidates_run.
Qed.

(** C12: what a download sends. Only GET and HEAD requests for a checked path
    leave the server, at most eleven for each endpoint of the group, with the
    method of the client and, of its headers, [Accept], [Range], [If-Range],
    [If-None-Match] and [If-Modified-Since] alone: no credentials of the client
    or of the configuration, and none in the URL. Each goes to an endpoint of
    the group, or where its redirects may lead: over HTTPS to a download host,
    or to the endpoint's origin, never from HTTPS back to HTTP, and over
    connections pinned to public addresses with no outbound proxy, unless the
    operator configured the endpoint by its address. *)
Theorem downloads_leave_safely (config : Config.t) (method uri_path : string) (query : option string)
    (incoming : HeaderMap) (s : Server) :
  exists sent, log (Hub.proxy iter_order config method uri_path query incoming s).2 = log s ++ sent /\
    (sent <> [] -> exists path url,
       (method = "GET" \/ method = "HEAD") /\ uri_path = "/huggingface/" +:+ path /\
       Hub.repository_url (Upstreams.huggingface (Config.upstreams config)) path query = Ok url /\
       (length sent <= 11 * length (upstream_candidates_for (Config.upstreams config) url))%nat /\
       Forall (fun e => exists c, c ∈ upstream_candidates_for (Config.upstreams config) url /\
                          departs config method c e) sent).
Proof.
  destruct (proxy_run config method uri_path query incoming s) as [(e & ->)|(path & url & cs & s' & Hm & Hp & Hu & Hc & Hl & _ & Hr)].
  { exists []. by rewrite app_nil_r. }
  destruct (run_log _ _ _ _ _ _ Hr) as (sent & Hsent & Hlen & Hall). exists sent. rewrite Hsent, Hl.
  split; [done|]. intros _. exists path, url. split_and!; [done|done|done|by rewrite <- Hc|].
  eapply Forall_impl; [exact Hall|]. intros e (c & Hin & He). exists c. by rewrite <- Hc.
Qed.

(** C13: what a download answers. The handler returns, whatever the upstreams
    answer; it neither reads nor writes the response cache; and its answer
    carries no redirect, no cookie and no header of the storage protocol, has
    links only to the next page through this server, for a path the server
    accepts, and no body when the request was HEAD. *)
Theorem downloads_answer_cleanly (config : Config.t) (method uri_path : string) (query : option string)
    (incoming : HeaderMap) (s : Server) :
  let out := Hub.proxy iter_order config method uri_path query incoming s in
  out.1 <> Err Panic /\ store out.2 = store s /\
  forall reply, out.1 = Ok reply -> clean_reply method (public_base_url config incoming) reply.
Proof.
  cbv zeta.
  destruct (proxy_run config method uri_path query incoming s) as [(e & ->)|(path & url & cs & s' & _ & _ & _ & _ & _ & Hs & Hr)];
    [done|]. split_and!; [apply Hr|by rewrite (run_store _ _ _ _ _ _ Hr)|apply Hr].
Qed.

(** HEAD is answered from the Hub: when the first answer redirects to another
    origin and names the commit, the tag and the size of the file, the reply
    has them and nothing else is sent. *)
Theorem head_answered_by_the_hub (config : Config.t) (original target : Url) (incoming : HeaderMap)
    (public_base location : string) (request : Request) (response : Response) (commit etag size : HeaderValue)
    (client : Client) (w w1 w2 : World) (reply : result Reply stop) (sent : Log) :
  no_userinfo original = true -> url_fragment original = None ->
  hub_request "HEAD" original incoming = Some request ->
  execute None request w = (Ok response, w1) -> is_redirect (rs_status response) = true ->
  h_get_str (rs_headers response) "location" = Some location -> url_join original location = Some target ->
  allowed_redirect original original target = true -> url_origin original <> url_origin target ->
  target_client config original target w1 = (Some client, w2) ->
  h_get (rs_headers response) "x-repo-commit" = Some commit ->
  h_get (rs_headers response) "x-linked-etag" = Some etag ->
  h_get (rs_headers response) "x-linked-size" = Some size -> is_Some (h_to_str size ≫= parse_uint U64_MAX) ->
  Hub.forward config "HEAD" original incoming public_base w = (reply, w2, sent) ->
  hub_client_ok config None = true -> client_builder_ok config = true -> is_Some (h_from_str "BYPASS") ->
  sent = [(None, request)] /\
  exists r, reply = Ok r /\ reply_status r = 200%Z /\ reply_body r = Some "" /\
    h_get_all (reply_headers r) "etag" = [etag] /\ h_get_all (reply_headers r) "content-length" = [size].
Proof.
  intros Hu Hf Hreq Hex Hred Hloc Hjoin Hallow Hne Hcl Hc He Hs Hsz Hfwd Hok Hb [bypass Hbp].
  unfold Hub.forward in Hfwd. rewrite Hu, Hf, Hb, Hok in Hfwd. cbn [negb orb] in Hfwd.
  rewrite bool_decide_eq_false_2 in Hfwd by auto. cbn [hub_loop] in Hfwd. unfold execute_built in Hfwd.
  rewrite Hreq, Hex in Hfwd. unfold hub_follow in Hfwd at 1. rewrite Hred, Hloc in Hfwd.
  cbn [negb mbind option_bind] in Hfwd. rewrite Hjoin, Hallow in Hfwd. cbn [negb orb Z.eqb] in Hfwd.
  rewrite Hcl in Hfwd. unfold Hub.same_origin in Hfwd at 1. rewrite bool_decide_eq_false_2 in Hfwd by done.
  cbn [String.eqb Ascii.eqb Bool.eqb andb negb] in Hfwd.
  set (m := collect_metadata original original response h_empty) in Hfwd.
  assert (Hm : h_get m "x-repo-commit" = Some commit /\ h_get m "x-linked-etag" = Some etag /\
    h_get m "x-linked-size" = Some size).
  { unfold m, collect_metadata, Hub.same_origin. rewrite bool_decide_true by done. cbn [fold_left METADATA].
    rewrite Hc, He, Hs. unfold h_get. rewrite !h_get_all_insert. done. }
  destruct Hm as (Hm1 & Hm2 & Hm3).
  unfold linked_head_response, h_contains, h_get_str in Hfwd. rewrite Hm1, Hm2, Hm3 in Hfwd.
  cbn [negb orb mbind option_bind] in Hfwd. rewrite bool_decide_eq_false_2 in Hfwd by (by apply not_eq_None_Some).
  destruct (download_response 200 _ (Some "")) as [r|] eqn:Hd; cbn [result_bind] in Hfwd;
    [|unfold download_response in Hd; by rewrite Hbp in Hd].
  injection Hfwd as <- <-. split; [done|]. exists r. apply download_response_spec in Hd as (Hst & Hbody & v & _ & Hh).
  split_and!; [done|done|done| |]; rewrite Hh, !h_get_all_insert; done.
Qed.
End Guarantees.

(** C14: the paths of a download. An accepted path names one of the resources
    of the Hub, has no segment that the URL parser would resolve, however its
    dots are encoded, and is requested at the origin of the configured
    endpoint exactly below its base path, with no other names in the query
    than the ten of the Hub. *)
Theorem hub_paths_confined `{UrlLaws} `{!QueryApi} (configured path : string) (query : option string)
    (base url : Url) :
  parse_base configured = Ok base -> web base -> Hub.repository_url configured path query = Ok url ->
  resource (str_split "/" path) /\ no_dot_segment path = true /\ Url.same_origin url base = true /\
  (all_bytes url_path_keeps path = true ->
   url_path url = trim_end_matches "/" (url_path base) +:+ "/" +:+ path) /\
  Forall (fun p => p.1 ∈ QUERY_NAMES) (query_pairs url).
Proof.
  intros Hb Hw. unfold Hub.repository_url. destruct (validate_path path) as [[]|] eqn:Hv; [cbn [result_bind]|done].
  apply validated_parts in Hv as [Hdots Hparts]. rewrite Hb. cbn [result_bind].
  destruct (negb (no_userinfo base)); [done|]. cbv zeta. destruct (allowed_query _) eqn:Hq; [|done].
  intros Hu. apply (inj Ok) in Hu. subst url. split_and!.
  - by apply parts_resource.
  - done.
  - apply same_origin_iff. by autorewrite with url.
  - intros Hk. rewrite url_path_set_query. apply url_path_set_path; [by apply url_web_host|].
    by apply normal_base_path.
  - unfold allowed_query in Hq. apply forallb_true_Forall in Hq.
    eapply Forall_impl; [exact Hq|]. intros p Hp. by apply existsb_eqb.
Qed.

(** ** A concrete Hub *)

Module Example.

(** The pairs of a query, without percent decoding. *)
Definition pairs (url : simple_url) : list (string * string) :=
  match su_query url with
  | None => []
  | Some q => (fun kv => match split_once "=" kv with Some p => p | None => (kv, "") end) <$> str_split "&" q
  end.

#[local] Instance queries : @QueryApi SimpleUrlApi := { query_pairs := pairs }.
#[local] Instance hub : @HubWorld AssocHeaders SimpleUrlApi ScriptWorld := { hub_client_ok _ _ := true }.

Definition hub_config : Config.t := Config.default.

(** A file of the Hub that is kept by a storage host. *)
Definition linked : list (string * string) :=
  [("location", "https://us.aws.cdn.hf.co/a?Signature=opaque"); ("x-repo-commit", "abc"); ("x-linked-etag", "sha256");
   ("x-linked-size", "548105171"); ("x-xet-hash", "h"); ("set-cookie", "s=1")].

Definition empty_cache : Cache.state := {| disk := Fs ∅ [] 0; capacity := None; instant := 0 |}.

Definition download (method path : string) (query : option string) (incoming : list (string * string))
    (script : list Answer) :=
  @Hub.proxy AssocHeaders SimpleUrlApi ScriptWorld hub queries no_order hub_config method path query
    incoming (script_server script empty_cache).

(** What the client sees and what is sent, without the instances in the types. *)
Definition shown (r : result (@Reply AssocHeaders) stop * @Server AssocHeaders SimpleUrlApi ScriptWorld) :
    option (Z * list (string * string) * option string) * list (string * string * list (string * string)) :=
  (match r.1 with
   | Ok reply => Some (reply_status reply, reply_headers reply, reply_body reply)
   | Err _ => None
   end,
   (fun e => (rq_method e.2, simple_as_str (rq_url e.2), rq_headers e.2)) <$> log r.2).

Definition file_url : simple_url := SimpleUrl "https" "" None "huggingface.co" None "/gpt2/resolve/main/a" None None.
Definition storage_url : simple_url := SimpleUrl "https" "" None "us.aws.cdn.hf.co" None "/a" (Some "Signature=opaque") None.

Definition client : list (string * string) := [("authorization", "Bearer t"); ("range", "bytes=0-1")].

(** A download that is redirected to the storage: two requests, neither with
    the token of the client. *)
Definition two_hops :=
  download "GET" "/huggingface/gpt2/resolve/main/a" None client [Some (302%Z, linked, None); Some (200%Z, [], Some "DATA")].

Lemma two_hops_shown :
  shown two_hops =
  (Some (200%Z, [("x-mirrorproxy-cache", "BYPASS"); ("x-repo-commit", "abc"); ("x-linked-etag", "sha256");
                 ("x-linked-size", "548105171")], Some "DATA"),
   [("GET", "https://huggingface.co/gpt2/resolve/main/a", [("accept-encoding", "identity"); ("range", "bytes=0-1")]);
    ("GET", "https://us.aws.cdn.hf.co/a?Signature=opaque", [("accept-encoding", "identity"); ("range", "bytes=0-1")])]).
Proof. vm_compute. reflexivity. Qed.

Lemma downloads_leave_safely_witness :
  exists path url, "/huggingface/gpt2/resolve/main/a" = "/huggingface/" +:+ path /\
    @Hub.repository_url SimpleUrlApi queries (Upstreams.huggingface (Config.upstreams hub_config)) path None = Ok url.
Proof.
  destruct (@downloads_leave_safely AssocHeaders SimpleUrlApi ScriptWorld hub ScriptWorld_laws AssocHeaders_laws
    queries no_order hub_config "GET" "/huggingface/gpt2/resolve/main/a" None client
    (script_server [Some (302%Z, linked, None); Some (200%Z, [], Some "DATA")] empty_cache)) as (sent & Hl & Hs).
  destruct Hs as (path & url & _ & Hp & Hu & _).
  - intros ->. apply (f_equal length) in Hl. vm_compute in Hl. discriminate Hl.
  - exists path, url. split; [exact Hp|exact Hu].
Defined.

Lemma downloads_answer_cleanly_witness : two_hops.1 <> Err Panic.
Proof.
  unfold two_hops, download.
  apply (@downloads_answer_cleanly AssocHeaders SimpleUrlApi ScriptWorld hub ScriptWorld_laws AssocHeaders_laws
    queries no_order hub_config "GET" "/huggingface/gpt2/resolve/main/a" None client
    (script_server [Some (302%Z, linked, None); Some (200%Z, [], Some "DATA")] empty_cache)).
Defined.

Lemma hub_paths_confined_witness :
  @url_path SimpleUrlApi (SimpleUrl "https" "" None "hf.example" None "/hub/gpt2/resolve/refs%2Fpr%2F1/a"
    (Some "download=true") None) = "/hub/gpt2/resolve/refs%2Fpr%2F1/a".
Proof.
  apply (@hub_paths_confined SimpleUrlApi SimpleUrl_laws queries "https://hf.example/hub/"
    "gpt2/resolve/refs%2Fpr%2F1/a" (Some "download=true")
    (SimpleUrl "https" "" None "hf.example" None "/hub/" None None));
    [vm_compute; reflexivity|by right|vm_compute; reflexivity|vm_compute; reflexivity].
Defined.

(** What the handler refuses: dots however encoded, and other endpoints. *)
Lemma refused_paths :
  Forall (fun path => validate_path path <> Ok tt)
    ["../config.json"; "gpt2/resolve/main/%2e%2e/config.json"; "gpt2/resolve/main/%252e%252e/config.json";
     "gpt2/resolve/main/a%2f..%2fb"; "gpt2/resolve/main/a\b"; "gpt2/resolve/main/a%00b"; "gpt2//resolve/main/a";
     "api/whoami-v2"; "api/models"; "api/models/gpt2/xet-read-token/main"; "org/model/raw/main/file";
     "org/model.git/info/refs"; "org/model/resolve/main/a%zz"].
Proof. repeat constructor; vm_compute; discriminate. Qed.

Definition head_request : @Request AssocHeaders SimpleUrlApi :=
  {| rq_method := "HEAD"; rq_url := file_url; rq_stream := false;
     rq_headers := [("accept-encoding", "identity"); ("range", "bytes=0-1")] : @HeaderMap AssocHeaders |}.

Definition hub_answer : @Response AssocHeaders SimpleUrlApi :=
  {| rs_status := 302%Z; rs_url := file_url; rs_headers := linked : @HeaderMap AssocHeaders; rs_body := None |}.

Definition head_reply : @Reply AssocHeaders :=
  {| reply_status := 200%Z;
     reply_headers := [("x-mirrorproxy-cache", "BYPASS"); ("x-repo-commit", "abc"); ("x-linked-etag", "sha256");
                       ("x-linked-size", "548105171"); ("etag", "sha256"); ("content-length", "548105171")]
                       : @HeaderMap AssocHeaders;
     reply_body := Some "" |}.

Lemma head_answered_by_the_hub_witness :
  exists r, @Ok _ stop head_reply = Ok r /\ reply_status r = 200%Z /\ reply_body r = Some "" /\
    @h_get_all AssocHeaders (reply_headers r) "etag" = ["sha256"] /\
    @h_get_all AssocHeaders (reply_headers r) "content-length" = ["548105171"].
Proof.
  apply (@head_answered_by_the_hub AssocHeaders SimpleUrlApi ScriptWorld hub AssocHeaders_laws queries
    hub_config file_url storage_url client "https://m.example" "https://us.aws.cdn.hf.co/a?Signature=opaque"
    head_request hub_answer "abc" "sha256" "548105171" (Some ("us.aws.cdn.hf.co", [(V4 134744072, 0%Z, 443%Z)]))
    [Some (302%Z, linked, None)] [] [] (Ok head_reply) [(None, head_request)]); try reflexivity.
  - discriminate.
  - by eexists.
  - by eexists.
Defined.
End Example.
