(* ===== verification/SourceHealth.v ===== *)
(** * Health of the upstreams

    [source_health.rs] with its tables in [database.rs]: a probe of every
    public target and every added repository, the state of a target from those
    of its endpoints, the report, and the flag that lets one check run at a
    time. *)
From stdpp Require Import gmap.
From S2P Require Import Prelude RustStr Lines Headers Net Url Config Upstreams ConfigCheck Fs Cache CacheCodec.
From S2P Require Import Selector Requests Redirect Forward HuggingFace.
Open Scope string_scope.
Open Scope list_scope.
Open Scope mirror_scope.

(** ** Records *)

Module SourceEndpointHealthRecord.
Record t : Type := {
  position : Z;
  endpoint : string;
  status : string;
  http_status : option Z;
  latency_ms : option Z;
  checked_at : Z;
  error : option string;
}.
End SourceEndpointHealthRecord.
Notation EndpointRecord := SourceEndpointHealthRecord.t.

Module SourceHealthRecord.
Record t : Type := {
  target_code : string;
  adapter : string;
  status : string;
  http_status : option Z;
  latency_ms : option Z;
  checked_at : Z;
  error : option string;
  endpoints : list EndpointRecord;
}.
End SourceHealthRecord.
Notation HealthRecord := SourceHealthRecord.t.

#[export] Instance EndpointRecord_eq_dec : EqDecision EndpointRecord.
Proof. solve_decision. Defined.
#[export] Instance HealthRecord_eq_dec : EqDecision HealthRecord.
Proof. solve_decision. Defined.

(** ** Probes *)

Record ProbeSpec : Type := { pr_target : string; pr_adapter : string; pr_head : bool; pr_path : string }.

Definition get_probe (target adapter path : string) : ProbeSpec :=
  {| pr_target := target; pr_adapter := adapter; pr_head := false; pr_path := path |}.

Definition head_probe (target adapter path : string) : ProbeSpec :=
  {| pr_target := target; pr_adapter := adapter; pr_head := true; pr_path := path |}.

Definition PROBES : list ProbeSpec := [
  get_probe "julia" "julia" "/julia/registries";
  get_probe "poetry" "pypi" "/pypi/simple/idna/";
  get_probe "uv" "pypi" "/pypi/simple/idna/";
  get_probe "pdm" "pypi" "/pypi/simple/idna/";
  get_probe "bun" "npm" "/npm/is-number";
  get_probe "nvm" "nvm" "/nvm/index.json";
  get_probe "ocaml" "opam" "/opam/repo";
  get_probe "lua" "luarocks" "/luarocks/manifest";
  get_probe "rustup" "rustup" "/rustup/dist/channel-rust-stable.toml";
  get_probe "cocoapods" "cocoapods" "/cocoapods/all_pods_versions_2_0_0.txt";
  get_probe "apt" "os" "/os/debian/dists/stable/Release";
  get_probe "dnf" "os" "/os/fedora/releases/44/Everything/x86_64/os/repodata/repomd.xml";
  head_probe "pacman" "os" "/os/archlinux/core/os/x86_64/core.db";
  get_probe "kali" "os" "/os/kali/dists/kali-rolling/Release";
  get_probe "rocky" "os" "/os/rocky/9/BaseOS/x86_64/os/repodata/repomd.xml";
  get_probe "alma" "os" "/os/alma/9/BaseOS/x86_64/os/repodata/repomd.xml";
  head_probe "manjaro" "os" "/os/manjaro/stable/core/x86_64/core.db";
  head_probe "msys2" "os" "/os/msys2/mingw/x86_64/mingw64.db";
  get_probe "raspios" "os" "/os/raspios/dists/bookworm/Release";
  get_probe "armbian" "os" "/os/armbian/dists/bookworm/Release";
  get_probe "openeuler" "os" "/os/openeuler/openEuler-24.03-LTS/OS/x86_64/repodata/repomd.xml";
  get_probe "anolis" "os" "/os/anolis/8/BaseOS/x86_64/os/repodata/repomd.xml";
  get_probe "deepin" "os" "/os/deepin/dists/beige/InRelease";
  get_probe "linuxmint" "os" "/os/linuxmint/dists/faye/Release";
  head_probe "solus" "os" "/os/solus/polaris/eopkg-index.xml.xz";
  get_probe "trisquel" "os" "/os/trisquel/dists/aramo/Release";
  get_probe "linuxlite" "os" "/os/linuxlite/dists/emerald/Release";
  head_probe "ros" "os" "/os/ros/dists";
  get_probe "netbsd" "os" "/os/netbsd/pub/NetBSD/README";
  head_probe "openbsd" "os" "/os/openbsd/pub/OpenBSD";
  get_probe "alpine" "os" "/os/alpine/MIRRORS.txt";
  head_probe "openwrt" "os" "/os/openwrt/releases";
  head_probe "xbps" "os" "/os/void/current/x86_64-repodata";
  head_probe "zypper" "os" "/os/opensuse/distribution";
  head_probe "gentoo" "os" "/os/gentoo/releases";
  get_probe "freebsd" "os" "/os/freebsd/FreeBSD:14:amd64/quarterly/meta.conf";
  get_probe "termux" "os" "/os/termux/dists/stable/InRelease";
  head_probe "flatpak" "flatpak" "/flatpak/summary";
  get_probe "nix" "nix" "/nix/nix-cache-info";
  get_probe "guix" "guix" "/guix/nix-cache-info";
  get_probe "huggingface" "huggingface" "/huggingface/gpt2/resolve/main/config.json";
  get_probe "elpa" "elpa" "/elpa/archive-contents";
  head_probe "texlive" "texlive" "/texlive/tlpkg/texlive.tlpdb";
  head_probe "winget" "winget" "/winget/cache/source.msix";
  get_probe "anaconda" "anaconda" "/anaconda/main/noarch/repodata.json";
  get_probe "npm" "npm" "/npm/is-number";
  get_probe "pip" "pypi" "/pypi/simple/idna/";
  get_probe "cargo" "crates" "/crates-index/by/te/bytes";
  get_probe "go" "go" "/goproxy/github.com/gorilla/mux/@v/v1.8.1.info";
  get_probe "composer" "composer" "/composer/packages.json";
  get_probe "maven" "maven" "/maven/org/apache/commons/commons-lang3/3.14.0/commons-lang3-3.14.0.pom";
  get_probe "rubygems" "rubygems" "/rubygems/specs.4.8.gz";
  get_probe "nuget" "nuget" "/nuget/v3/index.json";
  get_probe "cpan" "cpan" "/cpan/modules/02packages.details.txt.gz";
  get_probe "cran" "cran" "/cran/src/contrib/PACKAGES.gz";
  head_probe "hackage" "hackage" "/hackage/packages/index.tar.gz";
  get_probe "clojars" "clojars" "/clojars/ring/ring-core/1.12.2/ring-core-1.12.2.pom";
  get_probe "pub" "pub" "/pub/api/packages/http";
  get_probe "docker" "oci" "/v2/";
  get_probe "homebrew" "homebrew" "/homebrew/curl/tags/list";
  get_probe "github" "github" "/https://raw.githubusercontent.com/octocat/Hello-World/master/README"
].

Definition os_upstream (upstreams : Upstreams.t) (path : string) : option string :=
  match strip_prefix "/os/" path with
  | None => None
  | Some rest =>
      match str_split "/" rest with
      | [] => None
      | target :: _ =>
          if target =? "alpine" then Some (Upstreams.alpine upstreams)
          else if target =? "openwrt" then Some (Upstreams.openwrt upstreams)
          else if target =? "termux" then Some (Upstreams.termux upstreams)
          else if target =? "debian" then Some (Upstreams.debian upstreams)
          else if target =? "ubuntu" then Some (Upstreams.ubuntu upstreams)
          else if target =? "fedora" then Some (Upstreams.fedora upstreams)
          else if target =? "archlinux" then Some (Upstreams.archlinux upstreams)
          else if target =? "opensuse" then Some (Upstreams.opensuse upstreams)
          else if target =? "void" then Some (Upstreams.void upstreams)
          else if target =? "gentoo" then Some (Upstreams.gentoo upstreams)
          else if target =? "freebsd" then Some (Upstreams.freebsd upstreams)
          else btree_get target (Upstreams.additional_os upstreams)
      end
  end.

Definition configured_upstream (upstreams : Upstreams.t) (probe : ProbeSpec) : option string :=
  let adapter := pr_adapter probe in
  if adapter =? "julia" then Some (Upstreams.julia upstreams)
  else if adapter =? "pypi" then Some (Upstreams.pypi_simple upstreams)
  else if adapter =? "npm" then Some (Upstreams.npm upstreams)
  else if adapter =? "nvm" then Some (Upstreams.nvm upstreams)
  else if adapter =? "opam" then Some (Upstreams.opam upstreams)
  else if adapter =? "luarocks" then Some (Upstreams.luarocks upstreams)
  else if adapter =? "rustup" then Some (Upstreams.rustup upstreams)
  else if adapter =? "cocoapods" then Some (Upstreams.cocoapods upstreams)
  else if adapter =? "flatpak" then Some (Upstreams.flatpak upstreams)
  else if adapter =? "nix" then Some (Upstreams.nix upstreams)
  else if adapter =? "guix" then Some (Upstreams.guix upstreams)
  else if adapter =? "huggingface" then Some (Upstreams.huggingface upstreams)
  else if adapter =? "elpa" then Some (Upstreams.elpa upstreams)
  else if adapter =? "texlive" then Some (Upstreams.texlive upstreams)
  else if adapter =? "winget" then Some (Upstreams.winget upstreams)
  else if adapter =? "anaconda" then Some (Upstreams.anaconda upstreams)
  else if adapter =? "crates" then Some (Upstreams.crates_index upstreams)
  else if adapter =? "go" then Some (Upstreams.go_proxy upstreams)
  else if adapter =? "composer" then Some (Upstreams.packagist upstreams)
  else if adapter =? "maven" then Some (Upstreams.maven upstreams)
  else if adapter =? "rubygems" then Some (Upstreams.rubygems upstreams)
  else if adapter =? "nuget" then Some (Upstreams.nuget upstreams)
  else if adapter =? "cpan" then Some (Upstreams.cpan upstreams)
  else if adapter =? "cran" then Some (Upstreams.cran upstreams)
  else if adapter =? "hackage" then Some (Upstreams.hackage upstreams)
  else if adapter =? "clojars" then Some (Upstreams.clojars upstreams)
  else if adapter =? "pub" then Some (Upstreams.pub_repository upstreams)
  else if adapter =? "oci" then Some (Upstreams.docker_hub upstreams)
  else if adapter =? "homebrew" then Some (Upstreams.homebrew upstreams)
  else if adapter =? "github" then Some (Upstreams.github_raw upstreams)
  else if adapter =? "os" then os_upstream upstreams (pr_path probe)
  else None.

(** The text after the first slash, [""] without one. *)
Definition after_slash (s : string) : string := match split_once "/" s with Some (_, path) => path | None => "" end.

Definition strip_or (prefix path : string) : string :=
  match strip_prefix prefix path with Some rest => rest | None => path end.

Definition direct_path (probe : ProbeSpec) : string :=
  let adapter := pr_adapter probe in
  let path := pr_path probe in
  if adapter =? "os" then after_slash (strip_or "/os/" path)
  else if adapter =? "pypi" then strip_or "/pypi/simple/" path
  else if adapter =? "crates" then strip_or "/crates-index/" path
  else if adapter =? "go" then strip_or "/goproxy/" path
  else if adapter =? "oci" then strip_or "/" path
  else if adapter =? "github" then strip_or "/https://raw.githubusercontent.com/" path
  else after_slash (trim_start_matches "/" path).

Definition custom_upstreams (upstreams : Upstreams.t) : list (string * string) :=
  filter (fun e => existsb (fun probe => pr_target probe =? e.1) PROBES = false) (Upstreams.additional_os upstreams).

(** [chars().take(n).collect()]: the bytes before the character after them. *)
Fixpoint take_chars (n : Z) (s : string) : string :=
  match s with
  | EmptyString => ""
  | String a t =>
      let starts := negb (in_range 128 191 a) in
      if starts && (n <=? 0)%Z then ""
      else String a (take_chars (if starts then n - 1 else n)%Z t)
  end.

Definition MAX_CHARS : Z := 240.

(** The ellipsis U+2026. *)
Definition ellipsis : string := String (ascii_of_nat 226) (String (ascii_of_nat 128) (String (ascii_of_nat 166) "")).

Definition short_error (value : string) : string :=
  if (MAX_CHARS <? char_count value)%Z then take_chars MAX_CHARS value +:+ ellipsis else value.

(** ** One endpoint *)

(** The setters of [Url] a probe uses besides those of [UrlApi]; a setter that
    fails leaves the URL as it is. *)
Class UrlEdit `{UrlApi} : Type := {
  url_set_fragment : option string -> Url -> Url;
  url_set_username : string -> Url -> Url;
  url_set_password : option string -> Url -> Url;
}.

(** What errors of the crates print as. *)
Class HealthText `{HttpWorld} : Type := {
  transport_text : World -> string;
  parse_text : string -> string;
}.

Section Check.
Context `{HealthText} `{!Hub.HubWorld} `{!UrlEdit}.

Definition endpoint_url (configured suffix : string) : option Url :=
  match url_parse configured with
  | None => None
  | Some url =>
      let base_path := trim_end_matches "/" (url_path url) in
      let url := url_set_path (base_path +:+ "/" +:+ trim_start_matches "/" suffix) url in
      Some (url_set_fragment None (url_set_query None url))
  end.

Definition redacted_endpoint (url : Url) : string :=
  let value := url_set_password None (url_set_username "" url) in
  let value := url_set_fragment None (url_set_query None value) in
  trim_end_matches "/" (url_as_str value).

(** The endpoint as it is stored. *)
Definition shown_endpoint (configured : string) : string :=
  match url_parse configured with Some url => redacted_endpoint url | None => configured end.

Definition endpoint_response_is_healthy (probe : ProbeSpec) (response : Response) : bool :=
  (rs_status response =? 200)%Z
  || (((pr_adapter probe =? "oci") || (pr_adapter probe =? "homebrew")) && (rs_status response =? 401)%Z
      && h_contains (rs_headers response) "www-authenticate").

(** [ProxyError]'s message. *)
Definition error_text (e : ProxyError) (w : World) : string :=
  match e with
  | Disabled name => "proxy is disabled: " +:+ name
  | CacheWorker => "cache worker failed"
  | InvalidUrl => "invalid upstream url"
  | UnsupportedTarget => "unsupported proxy target"
  | MethodNotAllowed => "method is not allowed"
  | Upstream => "upstream request failed: " +:+ transport_text w
  | InvalidHeader => "upstream returned invalid header"
  | UnsafeRedirect => "upstream redirect has an unsafe destination"
  end.

(** [started.elapsed().as_millis() as u64]. *)
Definition elapsed_ms (started : Z) (s : Server) : Z := (Z.max 0 (instant_now (world s) - started) / 1000000)%Z.

Definition unhealthy_endpoint (position : Z) (endpoint : string) (latency checked_at : Z) (error : string) :
    EndpointRecord :=
  {| SourceEndpointHealthRecord.position := position; SourceEndpointHealthRecord.endpoint := endpoint;
     SourceEndpointHealthRecord.status := "unhealthy"; SourceEndpointHealthRecord.http_status := None;
     SourceEndpointHealthRecord.latency_ms := Some latency; SourceEndpointHealthRecord.checked_at := checked_at;
     SourceEndpointHealthRecord.error := Some (short_error error) |}.

Definition answered_endpoint (position : Z) (endpoint : string) (latency checked_at status : Z) (healthy : bool) :
    EndpointRecord :=
  {| SourceEndpointHealthRecord.position := position; SourceEndpointHealthRecord.endpoint := endpoint;
     SourceEndpointHealthRecord.status := if healthy then "healthy" else "unhealthy";
     SourceEndpointHealthRecord.http_status := Some status;
     SourceEndpointHealthRecord.latency_ms := Some latency; SourceEndpointHealthRecord.checked_at := checked_at;
     SourceEndpointHealthRecord.error := if healthy then None else Some ("HTTP " +:+ show_uint status) |}.

(** The record of an endpoint from what its probe gave; [None] is a panic.
    Errors of the transport have no status. *)
Definition probed_endpoint (healthy : Response -> bool) (position : Z) (endpoint : string) (checked_at started : Z)
    (r : result Response stop) (s : Server) : option EndpointRecord :=
  let latency := elapsed_ms started s in
  match r with
  | Ok response =>
      Some (answered_endpoint position endpoint latency checked_at (rs_status response) (healthy response))
  | Err (Error e) => Some (unhealthy_endpoint position endpoint latency checked_at (error_text e (world s)))
  | Err Panic => None
  end.

(** 2xx or 3xx. *)
Definition success_or_redirection (response : Response) : bool :=
  ((200 <=? rs_status response) && (rs_status response <? 400))%Z.

Definition check_custom_endpoint (config : Config.t) (position : Z) (configured : string) (checked_at : Z)
    (s : Server) : option EndpointRecord * Server :=
  let started := instant_now (world s) in
  let endpoint := shown_endpoint configured in
  match endpoint_url configured "" with
  | None => (Some (unhealthy_endpoint position endpoint (elapsed_ms started s) checked_at (parse_text configured)), s)
  | Some url =>
      let '(r, s) := Forward.probe_endpoint config "GET" url s in
      (probed_endpoint success_or_redirection position endpoint checked_at started r s, s)
  end.

Definition check_endpoint (config : Config.t) (probe : ProbeSpec) (position : Z) (configured suffix : string)
    (checked_at : Z) (s : Server) : option EndpointRecord * Server :=
  let started := instant_now (world s) in
  let endpoint := shown_endpoint configured in
  match endpoint_url configured suffix with
  | None => (Some (unhealthy_endpoint position endpoint (elapsed_ms started s) checked_at (parse_text configured)), s)
  | Some url =>
      let '(r, s) :=
        if pr_adapter probe =? "huggingface" then Hub.on_server (Hub.probe_endpoint config url (world s)) s
        else Forward.probe_endpoint config (if pr_head probe then "HEAD" else "GET") url s in
      (probed_endpoint (endpoint_response_is_healthy probe) position endpoint checked_at started r s, s)
  end.

(** ** One target *)

Definition failed_record (probe : ProbeSpec) (checked_at : Z) (error : string) : HealthRecord :=
  {| SourceHealthRecord.target_code := pr_target probe; SourceHealthRecord.adapter := pr_adapter probe;
     SourceHealthRecord.status := "unhealthy"; SourceHealthRecord.http_status := None;
     SourceHealthRecord.latency_ms := None; SourceHealthRecord.checked_at := checked_at;
     SourceHealthRecord.error := Some error; SourceHealthRecord.endpoints := [] |}.

Definition disabled_record (target adapter : string) (checked_at : Z) : HealthRecord :=
  {| SourceHealthRecord.target_code := target; SourceHealthRecord.adapter := adapter;
     SourceHealthRecord.status := "disabled"; SourceHealthRecord.http_status := None;
     SourceHealthRecord.latency_ms := None; SourceHealthRecord.checked_at := checked_at;
     SourceHealthRecord.error := None; SourceHealthRecord.endpoints := [] |}.

(** [Iterator::max] of an option of a [u64]. *)
Definition max_option (l : list Z) : option Z :=
  match l with [] => None | x :: l => Some (fold_left Z.max l x) end.

Definition position_le (a b : EndpointRecord) : bool :=
  (SourceEndpointHealthRecord.position a <=? SourceEndpointHealthRecord.position b)%Z.

Definition is_healthy (e : EndpointRecord) : bool := SourceEndpointHealthRecord.status e =? "healthy".

Definition summarize_endpoints (target adapter : string) (endpoints : list EndpointRecord) (checked_at : Z) :
    HealthRecord :=
  match endpoints with
  | [] =>
      {| SourceHealthRecord.target_code := target; SourceHealthRecord.adapter := adapter;
         SourceHealthRecord.status := "unhealthy"; SourceHealthRecord.http_status := None;
         SourceHealthRecord.latency_ms := None; SourceHealthRecord.checked_at := checked_at;
         SourceHealthRecord.error := Some "no upstream configured"; SourceHealthRecord.endpoints := [] |}
  | _ =>
      let endpoints := sort_by position_le endpoints in
      let all := length endpoints in
      let available := length (filter (fun e => is_healthy e = true) endpoints) in
      let status := if (available =? all)%nat then "healthy" else if (0 <? available)%nat then "degraded" else "unhealthy" in
      {| SourceHealthRecord.target_code := target; SourceHealthRecord.adapter := adapter;
         SourceHealthRecord.status := status;
         SourceHealthRecord.http_status :=
           match endpoints with [e] => SourceEndpointHealthRecord.http_status e | _ => None end;
         SourceHealthRecord.latency_ms := max_option (omap SourceEndpointHealthRecord.latency_ms endpoints);
         SourceHealthRecord.checked_at := checked_at;
         SourceHealthRecord.error :=
           if status =? "degraded"
           then Some (show_uint (Z.of_nat (all - available)) +:+ " of " +:+ show_uint (Z.of_nat all)
                      +:+ " upstreams unavailable")
           else if status =? "unhealthy" then Some ("all " +:+ show_uint (Z.of_nat all) +:+ " upstreams unavailable")
           else None;
         SourceHealthRecord.endpoints := endpoints |}
  end.

(** The endpoints of a group with their positions, [position as u32]. *)
Definition configured_endpoints (configured : string) : list (Z * string) :=
  imap (fun i e => (Z.of_nat i mod (U32_MAX + 1), e)%Z)
    (filter (fun e => str_is_empty e = false) (str_trim <$> str_split "," configured)).

(** [buffer_unordered(..).collect()]: the endpoints in the order [schedule]
    puts them, one after the other; [None] when one panics. *)
Fixpoint collect {A B} (check : A -> Server -> option B * Server) (l : list A) (s : Server) :
    option (list B) * Server :=
  match l with
  | [] => (Some [], s)
  | x :: l =>
      let '(r, s) := check x s in
      match r with
      | None => (None, s)
      | Some b => let '(rest, s) := collect check l s in (cons b <$> rest, s)
      end
  end.

Variable schedule : forall A, list A -> list A.

Definition check_probe (config : Config.t) (probe : ProbeSpec) (checked_at : Z) (s : Server) :
    option HealthRecord * Server :=
  match configured_upstream (Config.upstreams config) probe with
  | None => (Some (failed_record probe checked_at "no upstream configured"), s)
  | Some configured =>
      let suffix := direct_path probe in
      let '(endpoints, s) :=
        collect (fun e => check_endpoint config probe e.1 e.2 suffix checked_at)
          (schedule _ (configured_endpoints configured)) s in
      ((fun endpoints => summarize_endpoints (pr_target probe) (pr_adapter probe) endpoints checked_at) <$> endpoints, s)
  end.

Definition check_custom_upstream (config : Config.t) (target configured : string) (checked_at : Z) (s : Server) :
    option HealthRecord * Server :=
  let '(endpoints, s) :=
    collect (fun e => check_custom_endpoint config e.1 e.2 checked_at)
      (schedule _ (configured_endpoints configured)) s in
  ((fun endpoints => summarize_endpoints target "os" endpoints checked_at) <$> endpoints, s).

(** The records of a whole check: those of the probes, then those of the
    added repositories. *)
Definition check_all (config : Config.t) (checked_at : Z) (s : Server) : option (list HealthRecord) * Server :=
  let '(records, s) :=
    collect (fun probe s =>
      if negb (is_enabled config (pr_adapter probe))
      then (Some (disabled_record (pr_target probe) (pr_adapter probe) checked_at), s)
      else check_probe config probe checked_at s) (schedule _ PROBES) s in
  match records with
  | None => (None, s)
  | Some records =>
      let '(custom, s) :=
        collect (fun c s =>
          if negb (is_enabled config "os") then (Some (disabled_record c.1 "os" checked_at), s)
          else check_custom_upstream config c.1 c.2 checked_at s)
          (schedule _ (custom_upstreams (Config.upstreams config))) s in
      (app records <$> custom, s)
  end.

(** ** The tables *)

(** [source_health] and [source_endpoint_health] by their primary keys; a row
    of the first has no endpoints of its own. *)
Record HealthTables : Type := {
  source_health_rows : gmap string HealthRecord;
  source_endpoint_rows : gmap (string * Z) EndpointRecord;
}.

Definition empty_tables : HealthTables := {| source_health_rows := ∅; source_endpoint_rows := ∅ |}.

Definition latency_column (latency : option Z) : option Z := (fun v => Z.min v I64_MAX) <$> latency.

Definition health_row (r : HealthRecord) : HealthRecord :=
  {| SourceHealthRecord.target_code := SourceHealthRecord.target_code r;
     SourceHealthRecord.adapter := SourceHealthRecord.adapter r;
     SourceHealthRecord.status := SourceHealthRecord.status r;
     SourceHealthRecord.http_status := SourceHealthRecord.http_status r;
     SourceHealthRecord.latency_ms := latency_column (SourceHealthRecord.latency_ms r);
     SourceHealthRecord.checked_at := SourceHealthRecord.checked_at r;
     SourceHealthRecord.error := SourceHealthRecord.error r; SourceHealthRecord.endpoints := [] |}.

Definition endpoint_row (e : EndpointRecord) : EndpointRecord :=
  {| SourceEndpointHealthRecord.position := SourceEndpointHealthRecord.position e;
     SourceEndpointHealthRecord.endpoint := SourceEndpointHealthRecord.endpoint e;
     SourceEndpointHealthRecord.status := SourceEndpointHealthRecord.status e;
     SourceEndpointHealthRecord.http_status := SourceEndpointHealthRecord.http_status e;
     SourceEndpointHealthRecord.latency_ms := latency_column (SourceEndpointHealthRecord.latency_ms e);
     SourceEndpointHealthRecord.checked_at := SourceEndpointHealthRecord.checked_at e;
     SourceEndpointHealthRecord.error := SourceEndpointHealthRecord.error e |}.

(** The insert of a target, which replaces a row it finds. *)
Definition insert_health (r : HealthRecord) (t : HealthTables) : HealthTables :=
  {| source_health_rows := <[SourceHealthRecord.target_code r := health_row r]> (source_health_rows t);
     source_endpoint_rows := source_endpoint_rows t |}.

(** The insert of an endpoint, which fails on a row it finds. *)
Definition insert_endpoint (target : string) (e : EndpointRecord) (t : HealthTables) : option HealthTables :=
  let key := (target, SourceEndpointHealthRecord.position e) in
  match source_endpoint_rows t !! key with
  | Some _ => None
  | None =>
      Some {| source_health_rows := source_health_rows t;
              source_endpoint_rows := <[key := endpoint_row e]> (source_endpoint_rows t) |}
  end.

Fixpoint insert_endpoints (target : string) (l : list EndpointRecord) (t : HealthTables) : option HealthTables :=
  match l with
  | [] => Some t
  | e :: l => t ← insert_endpoint target e t; insert_endpoints target l t
  end.

Fixpoint insert_records (l : list HealthRecord) (t : HealthTables) : option HealthTables :=
  match l with
  | [] => Some t
  | r :: l =>
      t ← insert_endpoints (SourceHealthRecord.target_code r) (SourceHealthRecord.endpoints r) (insert_health r t);
      insert_records l t
  end.

(** One transaction: a failure leaves the tables as they were. *)
Definition replace_source_health (records : list HealthRecord) (t : HealthTables) : bool * HealthTables :=
  match insert_records records empty_tables with Some t => (true, t) | None => (false, t) end.

Definition column_in (max : Z) (v : option Z) : option Z :=
  v ← v; if ((0 <=? v) && (v <=? max))%Z then Some v else None.

Definition read_endpoint (e : EndpointRecord) : EndpointRecord :=
  {| SourceEndpointHealthRecord.position :=
       default 0%Z (column_in U32_MAX (Some (SourceEndpointHealthRecord.position e)));
     SourceEndpointHealthRecord.endpoint := SourceEndpointHealthRecord.endpoint e;
     SourceEndpointHealthRecord.status := SourceEndpointHealthRecord.status e;
     SourceEndpointHealthRecord.http_status := column_in U16_MAX (SourceEndpointHealthRecord.http_status e);
     SourceEndpointHealthRecord.latency_ms := column_in U64_MAX (SourceEndpointHealthRecord.latency_ms e);
     SourceEndpointHealthRecord.checked_at := SourceEndpointHealthRecord.checked_at e;
     SourceEndpointHealthRecord.error := SourceEndpointHealthRecord.error e |}.

(** The rows of a target, [ORDER BY position]. *)
Definition rows_of (target : string) (rows : gmap (string * Z) EndpointRecord) : list EndpointRecord :=
  sort_by_key SourceEndpointHealthRecord.position
    (omap (fun kv => if kv.1.1 =? target then Some kv.2 else None) (map_to_list rows)).

Definition read_record (endpoints : list EndpointRecord) (r : HealthRecord) : HealthRecord :=
  {| SourceHealthRecord.target_code := SourceHealthRecord.target_code r;
     SourceHealthRecord.adapter := SourceHealthRecord.adapter r;
     SourceHealthRecord.status := SourceHealthRecord.status r;
     SourceHealthRecord.http_status := column_in U16_MAX (SourceHealthRecord.http_status r);
     SourceHealthRecord.latency_ms := column_in U64_MAX (SourceHealthRecord.latency_ms r);
     SourceHealthRecord.checked_at := SourceHealthRecord.checked_at r;
     SourceHealthRecord.error := SourceHealthRecord.error r;
     SourceHealthRecord.endpoints := endpoints |}.

Definition target_le (a b : HealthRecord) : bool :=
  String.leb (SourceHealthRecord.target_code a) (SourceHealthRecord.target_code b).

(** Two queries, outside a transaction: the endpoints are those of [first],
    the targets those of [second]. *)
Definition read_source_health (first second : HealthTables) : list HealthRecord :=
  (fun r => read_record (read_endpoint <$> rows_of (SourceHealthRecord.target_code r) (source_endpoint_rows first)) r)
  <$> sort_by target_le (snd <$> map_to_list (source_health_rows second)).

Definition source_health (t : HealthTables) : list HealthRecord := read_source_health t t.

(** ** The report *)

Record SourceHealthReport : Type := {
  sr_running : bool;
  sr_total : nat;
  sr_healthy : nat;
  sr_degraded : nat;
  sr_unhealthy : nat;
  sr_disabled : nat;
  sr_unknown : nat;
  sr_last_checked_at : option Z;
  sr_items : list HealthRecord;
  sr_selection : option (list (Z * list EndpointExplanation));
}.

Definition without_endpoint_error (e : EndpointRecord) : EndpointRecord :=
  {| SourceEndpointHealthRecord.position := SourceEndpointHealthRecord.position e;
     SourceEndpointHealthRecord.endpoint := SourceEndpointHealthRecord.endpoint e;
     SourceEndpointHealthRecord.status := SourceEndpointHealthRecord.status e;
     SourceEndpointHealthRecord.http_status := SourceEndpointHealthRecord.http_status e;
     SourceEndpointHealthRecord.latency_ms := SourceEndpointHealthRecord.latency_ms e;
     SourceEndpointHealthRecord.checked_at := SourceEndpointHealthRecord.checked_at e;
     SourceEndpointHealthRecord.error := None |}.

Definition without_errors (r : HealthRecord) : HealthRecord :=
  {| SourceHealthRecord.target_code := SourceHealthRecord.target_code r;
     SourceHealthRecord.adapter := SourceHealthRecord.adapter r;
     SourceHealthRecord.status := SourceHealthRecord.status r;
     SourceHealthRecord.http_status := SourceHealthRecord.http_status r;
     SourceHealthRecord.latency_ms := SourceHealthRecord.latency_ms r;
     SourceHealthRecord.checked_at := SourceHealthRecord.checked_at r;
     SourceHealthRecord.error := None;
     SourceHealthRecord.endpoints := without_endpoint_error <$> SourceHealthRecord.endpoints r |}.

Definition count_status (status : string) (items : list HealthRecord) : nat :=
  length (filter (fun r => SourceHealthRecord.status r = status) items).

(** The targets a check covers: those of the probes and the added ones. *)
Definition is_target (config : Config.t) (target : string) : bool :=
  existsb (fun probe => pr_target probe =? target) PROBES
  || existsb (fun c => c.1 =? target) (custom_upstreams (Config.upstreams config)).

(** [records] as [source_health] reads them; the names of the added
    repositories are those of a map. *)
Definition report (config : Config.t) (running include_errors : bool) (records : list HealthRecord) (s : Server) :
    SourceHealthReport :=
  let total := (length PROBES + length (custom_upstreams (Config.upstreams config)))%nat in
  let items := filter (fun r => is_target config (SourceHealthRecord.target_code r) = true) records in
  let items := if include_errors then items else without_errors <$> items in
  {| sr_running := running; sr_total := total;
     sr_healthy := count_status "healthy" items; sr_degraded := count_status "degraded" items;
     sr_unhealthy := count_status "unhealthy" items; sr_disabled := count_status "disabled" items;
     sr_unknown := (total - Nat.min (length items) total)%nat;
     sr_last_checked_at := max_option (SourceHealthRecord.checked_at <$> items);
     sr_items := items;
     sr_selection :=
       if include_errors then Some (report_at (Config.upstream_selection config) (instant_now (world s)) (selector s))
       else None |}.

(** ** Checks that run *)

(** What a check under way still has to do; its guard is held all along. *)
Inductive Stage : Type :=
| Checking (config : Config.t) (checked_at : Z)
| Storing (records : list HealthRecord)
| Reporting.

Record HealthState : Type := {
  check_running : bool;
  checks : list Stage;
  tables : HealthTables;
  server : Server;
}.

Definition with_checks (running : bool) (l : list Stage) (st : HealthState) : HealthState :=
  {| check_running := running; checks := l; tables := tables st; server := server st |}.

(** [Begin]: a call of [run], by the worker or an administrator. [Advance]: the
    [i]-th check under way goes on, with the configuration of the moment.
    [Cancel]: the [i]-th is dropped, as when its client goes away. *)
Inductive HealthEvent : Type :=
| Begin (config : Config.t) (checked_at : Z)
| Advance (i : nat) (config : Config.t)
| Cancel (i : nat).

Inductive HealthOutcome : Type :=
| AlreadyRunning
| CheckPanicked
| CheckFailed
| CheckReported (r : SourceHealthReport).

(** [RunningGuard::acquire]. *)
Definition acquire (st : HealthState) : option HealthState :=
  if check_running st then None else Some (with_checks true (checks st) st).

(** The check ends one way or another, and its guard is dropped. *)
Definition end_check (i : nat) (st : HealthState) : HealthState :=
  with_checks false (delete i (checks st)) st.

Definition advance_check (i : nat) (stage : Stage) (config : Config.t) (st : HealthState) :
    option HealthOutcome * HealthState :=
  match stage with
  | Checking captured checked_at =>
      let '(records, s) := check_all captured checked_at (server st) in
      let st := {| check_running := check_running st; checks := checks st; tables := tables st; server := s |} in
      match records with
      | None => (Some CheckPanicked, end_check i st)
      | Some records => (None, with_checks (check_running st) (<[i := Storing records]> (checks st)) st)
      end
  | Storing records =>
      let '(ok, t) := replace_source_health records (tables st) in
      let st := {| check_running := check_running st; checks := checks st; tables := t; server := server st |} in
      if ok then (None, with_checks (check_running st) (<[i := Reporting]> (checks st)) st)
      else (Some CheckFailed, end_check i st)
  | Reporting =>
      (Some (CheckReported (report config (check_running st) true (source_health (tables st)) (server st))),
       end_check i st)
  end.

Definition health_step (e : HealthEvent) (st : HealthState) : option HealthOutcome * HealthState :=
  match e with
  | Begin config checked_at =>
      match acquire st with
      | None => (Some AlreadyRunning, st)
      | Some st => (None, with_checks (check_running st) (checks st ++ [Checking config checked_at]) st)
      end
  | Advance i config =>
      match checks st !! i with None => (None, st) | Some stage => advance_check i stage config st end
  | Cancel i => match checks st !! i with None => (None, st) | Some _ => (None, end_check i st) end
  end.

Definition run_health (events : list HealthEvent) (st : HealthState) : HealthState :=
  fold_left (fun st e => (health_step e st).2) events st.

(** Nothing runs. *)
Definition idle (t : HealthTables) (s : Server) : HealthState :=
  {| check_running := false; checks := []; tables := t; server := s |}.

(** ** The routes *)

Inductive HealthReply : Type :=
| HealthReport (r : SourceHealthReport)
| HealthUnauthorized
| HealthConflict
| HealthInternalError
| HealthStarted (st : HealthState).

Definition public_source_health (config : Config.t) (st : HealthState) : HealthReply :=
  HealthReport (report config (check_running st) false (source_health (tables st)) (server st)).

(** [authorized] is the answer of [is_admin_authorized], [None] its failure. *)
Definition admin_source_health (authorized : option bool) (config : Config.t) (st : HealthState) : HealthReply :=
  match authorized with
  | Some true => HealthReport (report config (check_running st) true (source_health (tables st)) (server st))
  | Some false => HealthUnauthorized
  | None => HealthInternalError
  end.

(** Up to the check itself, which goes on with [Advance]. *)
Definition run_source_health_check (authorized : option bool) (config : Config.t) (checked_at : Z) (st : HealthState) :
    HealthReply :=
  match authorized with
  | Some true =>
      if check_running st then HealthConflict
      else match health_step (Begin config checked_at) st with
           | (Some _, _) => HealthConflict
           | (None, st) => HealthStarted st
           end
  | Some false => HealthUnauthorized
  | None => HealthInternalError
  end.

(** What the route answers when the check has ended. *)
Definition check_answer (o : HealthOutcome) : option HealthReply :=
  match o with
  | AlreadyRunning => Some HealthConflict
  | CheckPanicked => None
  | CheckFailed => Some HealthInternalError
  | CheckReported r => Some (HealthReport r)
  end.
End Check.
