(* ===== verification/SourceHealthSpec.v ===== *)
(** * Theorems on the health of the upstreams *)
From stdpp Require Import gmap.
From S2P Require Import Prelude RustStr Lines Headers Net Url Config Upstreams ConfigCheck Fs Cache CacheCodec.
From S2P Require Import Selector Requests Redirect Forward HuggingFace SourceHealth.
Open Scope string_scope.
Open Scope list_scope.
Open Scope mirror_scope.

(** ** Records *)

Lemma target_le_total (a b : HealthRecord) : target_le a b = true \/ target_le b a = true.
Proof. apply String.leb_total. Qed.

Lemma text_leb_trans (a b c : string) : String.leb a b = true -> String.leb b c = true -> String.leb a c = true.
Proof.
  intros Hab Hbc. apply Is_true_true. transitivity b; by apply Is_true_true.
Qed.

Lemma target_le_trans (a b c : HealthRecord) : target_le a b = true -> target_le b c = true -> target_le a c = true.
Proof. apply text_leb_trans. Qed.

(** The order in which the endpoints of a target answer does not show in its
    state. *)
Lemma summary_order_free (target adapter : string) (l l' : list EndpointRecord) (checked_at : Z) :
  NoDup (SourceEndpointHealthRecord.position <$> l) -> l ≡ₚ l' ->
  summarize_endpoints target adapter l checked_at = summarize_endpoints target adapter l' checked_at.
Proof.
  intros Hn Hl. unfold summarize_endpoints.
  rewrite (sort_by_key_unique SourceEndpointHealthRecord.position l l' Hn Hl : sort_by position_le l = sort_by position_le l').
  destruct l as [|e l], l' as [|e' l']; [done|by apply Permutation_nil_l in Hl|by apply Permutation_nil_r in Hl|].
  done.
Qed.

Definition HEALTH_STATES : list string := ["healthy"; "degraded"; "unhealthy"; "disabled"].

Lemma summary_state (target adapter : string) (l : list EndpointRecord) (checked_at : Z) :
  let r := summarize_endpoints target adapter l checked_at in
  SourceHealthRecord.target_code r = target /\ SourceHealthRecord.checked_at r = checked_at /\
  SourceHealthRecord.status r ∈ HEALTH_STATES /\
  SourceHealthRecord.endpoints r = sort_by position_le l.
Proof.
  unfold summarize_endpoints, HEALTH_STATES. destruct l as [|e l]; cbn; [|repeat case_match]; split_and!; try done; set_solver.
Qed.

(** ** The tables *)

Section Tables.
Implicit Types (r : HealthRecord) (e : EndpointRecord) (t : HealthTables).

Definition endpoint_entry (target : string) e : string * Z * EndpointRecord :=
  ((target, SourceEndpointHealthRecord.position e), endpoint_row e).

Lemma insert_endpoints_ok (target : string) (l : list EndpointRecord) t :
  NoDup (SourceEndpointHealthRecord.position <$> l) ->
  (forall e, e ∈ l -> source_endpoint_rows t !! (target, SourceEndpointHealthRecord.position e) = None) ->
  exists t', insert_endpoints target l t = Some t' /\ source_health_rows t' = source_health_rows t /\
    map_to_list (source_endpoint_rows t') ≡ₚ (endpoint_entry target <$> l) ++ map_to_list (source_endpoint_rows t).
Proof.
  revert t. induction l as [|e l IH]; intros t Hn Hl; [by exists t|]. apply NoDup_cons in Hn as [He Hn].
  pose proof (Hl e ltac:(set_solver)) as Hnew.
  destruct (IH {| source_health_rows := source_health_rows t;
    source_endpoint_rows := <[(target, SourceEndpointHealthRecord.position e) := endpoint_row e]> (source_endpoint_rows t) |})
    as (t' & H1 & H2 & H3); [done| |].
  - intros e' He'. cbn. rewrite lookup_insert_ne; [apply Hl; set_solver|]. intros [= Heq]. apply He. rewrite Heq.
    by apply list_elem_of_fmap_2.
  - exists t'. cbn [insert_endpoints]. unfold insert_endpoint. rewrite Hnew. split_and!; [exact H1|exact H2|].
    rewrite H3. cbn. rewrite map_to_list_insert by done. by rewrite <- Permutation_middle.
Qed.

Definition entries (l : list HealthRecord) : list (string * Z * EndpointRecord) :=
  flat_map (fun r => endpoint_entry (SourceHealthRecord.target_code r) <$> SourceHealthRecord.endpoints r) l.

(** Of each target one record, and each of its endpoints once. *)
Definition proper_records (l : list HealthRecord) : Prop :=
  NoDup (SourceHealthRecord.target_code <$> l) /\
  Forall (fun r => NoDup (SourceEndpointHealthRecord.position <$> SourceHealthRecord.endpoints r)) l.

Lemma insert_records_ok (l : list HealthRecord) t :
  proper_records l ->
  (forall r, r ∈ l -> source_health_rows t !! SourceHealthRecord.target_code r = None /\
    forall p, source_endpoint_rows t !! (SourceHealthRecord.target_code r, p) = None) ->
  exists t', insert_records l t = Some t' /\
    (snd <$> map_to_list (source_health_rows t')) ≡ₚ (health_row <$> l) ++ (snd <$> map_to_list (source_health_rows t)) /\
    map_to_list (source_endpoint_rows t') ≡ₚ entries l ++ map_to_list (source_endpoint_rows t).
Proof.
  revert t. induction l as [|r l IH]; intros t [Hn Hp] Hl; [by exists t|].
  apply NoDup_cons in Hn as [Hr Hn]. apply Forall_cons in Hp as [Hpr Hp].
  destruct (Hl r ltac:(set_solver)) as [Hrow Hends].
  destruct (insert_endpoints_ok (SourceHealthRecord.target_code r) (SourceHealthRecord.endpoints r) (insert_health r t))
    as (t1 & H1 & H2 & H3); [done|intros e _; apply Hends|].
  assert (Hother : forall r', r' ∈ l -> SourceHealthRecord.target_code r' <> SourceHealthRecord.target_code r).
  { intros r' Hr' Heq. apply Hr. rewrite <- Heq. by apply list_elem_of_fmap_2. }
  destruct (IH t1) as (t2 & H4 & H5 & H6); [done| |].
  - intros r' Hr'. split.
    + rewrite H2. cbn. rewrite lookup_insert_ne; [apply Hl; set_solver|]. by apply not_eq_sym, Hother.
    + intros p. apply eq_None_not_Some. intros [e He]. apply elem_of_map_to_list in He. rewrite H3 in He.
      apply elem_of_app in He as [He|He].
      * apply list_elem_of_fmap in He as (e' & Heq & _). unfold endpoint_entry in Heq. simplify_eq.
        by destruct (Hother r').
      * apply elem_of_map_to_list in He. cbn in He. destruct (Hl r' ltac:(set_solver)) as [_ Hnone]. by rewrite Hnone in He.
  - exists t2. cbn [insert_records]. rewrite H1. split_and!; [exact H4| |].
    + rewrite H5, H2. cbn. rewrite map_to_list_insert by done. cbn. by rewrite <- Permutation_middle.
    + rewrite H6, H3. cbn. rewrite !(assoc_L (++)). apply Permutation_app_tail. by rewrite Permutation_app_comm.
Qed.

(** What the tables keep of a record. *)
Definition kept r : HealthRecord :=
  read_record (read_endpoint <$> sort_by_key SourceEndpointHealthRecord.position (endpoint_row <$> SourceHealthRecord.endpoints r))
    (health_row r).

Lemma omap_entries (l : list HealthRecord) r :
  NoDup (SourceHealthRecord.target_code <$> l) -> r ∈ l ->
  omap (fun kv : string * Z * EndpointRecord =>
    if kv.1.1 =? SourceHealthRecord.target_code r then Some kv.2 else None) (entries l) =
  endpoint_row <$> SourceHealthRecord.endpoints r.
Proof.
  assert (Hsame : forall (target : string) (l : list EndpointRecord),
    omap (fun kv : string * Z * EndpointRecord => if kv.1.1 =? target then Some kv.2 else None)
      (endpoint_entry target <$> l) = endpoint_row <$> l).
  { intros target l'. induction l' as [|e l' IH]; [done|]. cbn. rewrite String.eqb_refl. cbn. by f_equal. }
  assert (Hother : forall (target other : string) (l : list EndpointRecord), target <> other ->
    omap (fun kv : string * Z * EndpointRecord => if kv.1.1 =? target then Some kv.2 else None)
      (endpoint_entry other <$> l) = []).
  { intros target other l' Hne. induction l' as [|e l' IH]; [done|]. cbn.
    rewrite (proj2 (String.eqb_neq other target)) by congruence. done. }
  assert (Hnone : forall (target : string) (l : list HealthRecord), target ∉ SourceHealthRecord.target_code <$> l ->
    omap (fun kv : string * Z * EndpointRecord => if kv.1.1 =? target then Some kv.2 else None) (entries l) = []).
  { intros target l'. induction l' as [|r' l' IH]; [done|]. rewrite fmap_cons, not_elem_of_cons. intros [Hne Hl'].
    unfold entries. cbn [flat_map]. rewrite omap_app, Hother by done. by apply IH. }
  induction l as [|r' l IH]; [by intros _ ?%elem_of_nil|]. rewrite fmap_cons, NoDup_cons, elem_of_cons.
  intros [Hr' Hn] [->|Hr]; unfold entries; cbn [flat_map]; rewrite omap_app.
  - rewrite Hsame, (Hnone _ l) by done. by rewrite app_nil_r.
  - rewrite Hother; [by apply IH|]. intros Heq. apply Hr'. rewrite <- Heq. by apply list_elem_of_fmap_2.
Qed.

Lemma NoDup_positions_row (l : list EndpointRecord) :
  NoDup (SourceEndpointHealthRecord.position <$> l) -> NoDup (SourceEndpointHealthRecord.position <$> (endpoint_row <$> l)).
Proof. by rewrite <- list_fmap_compose. Qed.

(** The tables give back the records of the last check, by target. *)
Lemma replaced_records (l : list HealthRecord) t :
  proper_records l ->
  exists t', replace_source_health l t = (true, t') /\ source_health t' = kept <$> sort_by target_le l.
Proof.
  intros Hp. destruct (insert_records_ok l empty_tables) as (t' & H1 & H2 & H3); [done|done|].
  exists t'. unfold replace_source_health. rewrite H1. split; [done|]. destruct Hp as [Hn Hp].
  cbn [source_health_rows source_endpoint_rows empty_tables] in H2, H3.
  rewrite map_to_list_empty, fmap_nil, app_nil_r in H2. rewrite map_to_list_empty, app_nil_r in H3.
  unfold source_health, read_source_health.
  assert (Hsort : sort_by target_le (snd <$> map_to_list (source_health_rows t')) = health_row <$> sort_by target_le l).
  { rewrite <- (sort_by_unique target_le (health_row <$> l)); [|apply target_le_total|apply target_le_trans| |done].
    - clear. induction l as [|r l IH]; [done|]. cbn. change (foldr (insert_by target_le) [] ?l) with (sort_by target_le l).
      rewrite IH. generalize (sort_by target_le l). clear. intros l. induction l as [|r' l IH]; [done|]. cbn.
      unfold target_le at 1 3. cbn. case_match; [done|]. cbn. by rewrite IH.
    - intros x y Hx Hy Hxy Hyx. apply (NoDup_fmap_inj SourceHealthRecord.target_code (health_row <$> l)); [|done|done|].
      + by rewrite <- list_fmap_compose.
      + by apply String.leb_antisym. }
  rewrite Hsort, <- list_fmap_compose. apply list_fmap_ext. intros i r Hi. apply list_elem_of_lookup_2 in Hi.
  apply sort_by_elem_of in Hi. unfold compose, kept, rows_of. do 2 f_equal.
  apply (sort_by_key_unique SourceEndpointHealthRecord.position).
  - rewrite H3. cbn. rewrite (omap_entries l r) by done.
    apply NoDup_positions_row. rewrite Forall_forall in Hp. by apply Hp.
  - rewrite H3. cbn. by rewrite (omap_entries l r).
Qed.
End Tables.
(** ** Checks *)

Section Checks.
Context `{HealthText} `{!Hub.HubWorld} `{!UrlEdit} `{!HttpLaws} `{!HeaderLaws} `{CacheCodec}.
Variable schedule : forall A, list A -> list A.
Variable known_timezone : string -> bool.

(** The flag is set exactly while a check is under way, and one is at most. *)
Definition guarded (st : HealthState) : Prop :=
  (check_running st = false /\ checks st = []) \/ (check_running st = true /\ exists stage, checks st = [stage]).

Lemma guarded_step (e : HealthEvent) (st : HealthState) : guarded st -> guarded (health_step schedule e st).2.
Proof.
  destruct st as [flag l t sv]. unfold guarded. cbn [check_running checks].
  intros [[-> ->]|[-> [stage ->]]]; destruct e as [config at_|[|i] config|[|i]]; cbn; eauto.
  destruct stage as [captured at_|records|]; cbn [advance_check check_running checks tables server].
  - destruct (check_all schedule captured at_ sv) as [[records|] s']; cbn; eauto.
  - destruct (replace_source_health records t) as [[] t']; cbn; eauto.
  - by left.
Qed.

Lemma guarded_run (events : list HealthEvent) (st : HealthState) : guarded st -> guarded (run_health schedule events st).
Proof. revert st. induction events as [|e events IH]; intros st Hst; [done|]. by apply IH, guarded_step. Qed.

(** ** What a check finds *)

Lemma probe_endpoint_no_panic (config : Config.t) (method : string) (url : Url) (s : Server) :
  validate known_timezone config = Ok tt -> (Forward.probe_endpoint config method url s).1 <> Err Panic.
Proof.
  intros Hv. unfold Forward.probe_endpoint.
  destruct (upstream_request_returns method url h_empty config (world s)) as [request ->];
    [intros auth; by apply (validated_auth_ok known_timezone)|]. apply (send_no_panic config (Some request) s).
Qed.

Lemma hub_probe_no_panic (config : Config.t) (url : Url) (s : Server) :
  (Hub.on_server (Hub.probe_endpoint config url (world s)) s).1 <> Err Panic.
Proof.
  unfold Hub.probe_endpoint. repeat case_bool; [done|done|].
  destruct (Hub.execute_built _ _ _) as [[[response|e] w] l]; done.
Qed.

Lemma probed_position (healthy : Response -> bool) (position : Z) (endpoint : string) (checked_at started : Z)
    (r : result Response stop) (s : Server) :
  r <> Err Panic ->
  exists e, probed_endpoint healthy position endpoint checked_at started r s = Some e /\
    SourceEndpointHealthRecord.position e = position.
Proof. intros Hr. destruct r as [response|[e|]]; cbn; [eauto|eauto|done]. Qed.

Lemma check_endpoint_position (config : Config.t) (probe : ProbeSpec) (position : Z) (configured suffix : string)
    (checked_at : Z) (s : Server) :
  validate known_timezone config = Ok tt ->
  exists e s', check_endpoint config probe position configured suffix checked_at s = (Some e, s') /\
    SourceEndpointHealthRecord.position e = position.
Proof.
  intros Hv. unfold check_endpoint. destruct (endpoint_url configured suffix) as [url|]; [|eauto].
  destruct (pr_adapter probe =? "huggingface").
  - pose proof (hub_probe_no_panic config url s) as Hp. destruct (Hub.on_server _ s) as [r s'].
    edestruct probed_position as (e & He & Hpos); [exact Hp|]. rewrite He. eauto.
  - match goal with |- context [Forward.probe_endpoint config ?m url s] =>
      pose proof (probe_endpoint_no_panic config m url s Hv) as Hp end.
    destruct (Forward.probe_endpoint _ _ url s) as [r s'].
    edestruct probed_position as (e & He & Hpos); [exact Hp|]. rewrite He. eauto.
Qed.

Lemma check_custom_endpoint_position (config : Config.t) (position : Z) (configured : string) (checked_at : Z)
    (s : Server) :
  validate known_timezone config = Ok tt ->
  exists e s', check_custom_endpoint config position configured checked_at s = (Some e, s') /\
    SourceEndpointHealthRecord.position e = position.
Proof.
  intros Hv. unfold check_custom_endpoint. destruct (endpoint_url configured "") as [url|]; [|eauto].
  pose proof (probe_endpoint_no_panic config "GET" url s Hv) as Hp. destruct (Forward.probe_endpoint _ _ url s) as [r s'].
  edestruct probed_position as (e & He & Hpos); [exact Hp|]. rewrite He. eauto.
Qed.

Lemma collect_ok {A B} (P : A -> B -> Prop) (check : A -> Server -> option B * Server) (l : list A) (s : Server) :
  (forall x s, x ∈ l -> exists b s', check x s = (Some b, s') /\ P x b) ->
  exists bs s', collect check l s = (Some bs, s') /\ Forall2 P l bs.
Proof.
  revert s. induction l as [|x l IH]; intros s Hl; [by exists [], s; split; [|constructor]|].
  destruct (Hl x s) as (b & s1 & Hb & HP); [set_solver|].
  destruct (IH s1) as (bs & s2 & Hbs & HPs); [intros; apply Hl; set_solver|].
  exists (b :: bs), s2. cbn. rewrite Hb, Hbs. split; [done|by constructor].
Qed.
(** A position is a [u32]: no group has more endpoints than there are. *)
Definition few_endpoints (configured : string) : Prop :=
  (Z.of_nat (length (configured_endpoints configured)) <= U32_MAX + 1)%Z.

Lemma configured_positions (configured : string) :
  few_endpoints configured -> NoDup (configured_endpoints configured).*1.
Proof.
  unfold few_endpoints, configured_endpoints. rewrite length_imap. generalize (filter (fun e => str_is_empty e = false)
    (str_trim <$> str_split "," configured)). intros l Hl. apply NoDup_alt. intros i j p Hi Hj.
  rewrite list_lookup_fmap, list_lookup_imap in Hi, Hj.
  destruct (l !! i) as [a|] eqn:Ea; [|done]. destruct (l !! j) as [b|] eqn:Eb; [|done]. cbn in Hi, Hj.
  apply lookup_lt_Some in Ea, Eb. apply (inj Some) in Hi, Hj. rewrite Z.mod_small in Hi, Hj by (unfold U32_MAX in *; lia). lia.
Qed.

(** The record of a target, whatever its endpoints answered. *)
Definition checked (target : string) (checked_at : Z) (r : HealthRecord) : Prop :=
  SourceHealthRecord.target_code r = target /\ SourceHealthRecord.checked_at r = checked_at /\
  SourceHealthRecord.status r ∈ HEALTH_STATES /\
  NoDup (SourceEndpointHealthRecord.position <$> SourceHealthRecord.endpoints r).

Lemma summary_checked (target adapter : string) (l : list EndpointRecord) (checked_at : Z) :
  NoDup (SourceEndpointHealthRecord.position <$> l) ->
  checked target checked_at (summarize_endpoints target adapter l checked_at).
Proof.
  intros Hl. destruct (summary_state target adapter l checked_at) as (H1' & H2' & H3' & H4').
  split_and!; [done|done|done|]. rewrite H4', sort_by_perm. done.
Qed.

Lemma disabled_checked (target adapter : string) (checked_at : Z) :
  checked target checked_at (disabled_record target adapter checked_at).
Proof. split_and!; [done|done|unfold HEALTH_STATES; set_solver|constructor]. Qed.

Hypothesis schedule_perm : forall A (l : list A), schedule A l ≡ₚ l.

(** The endpoints of a group, in whatever order they answer. *)
Lemma collected_positions (configured : string) (check : Z * string -> Server -> option EndpointRecord * Server) (s : Server) :
  few_endpoints configured ->
  (forall x s, exists e s', check x s = (Some e, s') /\ SourceEndpointHealthRecord.position e = x.1) ->
  exists es s', collect check (schedule _ (configured_endpoints configured)) s = (Some es, s') /\
    NoDup (SourceEndpointHealthRecord.position <$> es).
Proof.
  intros Hfew Hcheck.
  destruct (collect_ok (fun x e => SourceEndpointHealthRecord.position e = x.1) check
    (schedule _ (configured_endpoints configured)) s) as (es & s' & Hes & HP); [intros x s0 _; apply Hcheck|].
  exists es, s'. split; [done|]. assert (SourceEndpointHealthRecord.position <$> es =
    (schedule _ (configured_endpoints configured)).*1) as ->.
  { clear -HP. induction HP as [|x e l es Hx _ IH]; [done|]. rewrite !fmap_cons. by f_equal. }
  rewrite schedule_perm. by apply configured_positions.
Qed.

Lemma check_probe_checked (config : Config.t) (probe : ProbeSpec) (checked_at : Z) (s : Server) :
  validate known_timezone config = Ok tt ->
  (forall configured, configured_upstream (Config.upstreams config) probe = Some configured -> few_endpoints configured) ->
  exists r s', check_probe schedule config probe checked_at s = (Some r, s') /\ checked (pr_target probe) checked_at r.
Proof.
  intros Hv Hfew. unfold check_probe. destruct (configured_upstream _ probe) as [configured|].
  - match goal with |- context [collect ?check _ s] =>
      destruct (collected_positions configured check s) as (es & s' & Hes & Hn) end; [by apply Hfew| |].
    + intros x s0. by apply check_endpoint_position.
    + rewrite Hes. eexists _, _. split; [done|]. by apply summary_checked.
  - eexists _, _. split; [done|]. split_and!; [done|done|unfold HEALTH_STATES; set_solver|constructor].
Qed.

Lemma check_custom_checked (config : Config.t) (target configured : string) (checked_at : Z) (s : Server) :
  validate known_timezone config = Ok tt -> few_endpoints configured ->
  exists r s', check_custom_upstream schedule config target configured checked_at s = (Some r, s') /\
    checked target checked_at r.
Proof.
  intros Hv Hfew. unfold check_custom_upstream.
  match goal with |- context [collect ?check _ s] =>
    destruct (collected_positions configured check s) as (es & s' & Hes & Hn) end; [done| |].
  - intros x s0. by apply check_custom_endpoint_position.
  - rewrite Hes. eexists _, _. split; [done|]. by apply summary_checked.
Qed.

(** What the groups of a configuration may be. *)
Definition checkable (config : Config.t) : Prop :=
  let upstreams := Config.upstreams config in
  NoDup (Upstreams.additional_os upstreams).*1 /\
  Forall (fun probe => forall configured, configured_upstream upstreams probe = Some configured -> few_endpoints configured)
    PROBES /\
  Forall (fun c => few_endpoints c.2) (Upstreams.additional_os upstreams).

(** The targets of a check. *)
Definition targets (config : Config.t) : list string :=
  (pr_target <$> PROBES) ++ (custom_upstreams (Config.upstreams config)).*1.

Lemma checked_targets (config : Config.t) {A} (name : A -> string) (checked_at : Z) (l : list A) (rs : list HealthRecord) :
  Forall2 (fun x r => checked (name x) checked_at r) (schedule _ l) rs ->
  SourceHealthRecord.target_code <$> rs ≡ₚ name <$> l.
Proof.
  intros HP. rewrite <- (schedule_perm _ l). revert HP. generalize (schedule _ l). intros l' HP.
  assert (SourceHealthRecord.target_code <$> rs = name <$> l') as ->; [|done].
  induction HP as [|x r l'' rs Hx _ IH]; [done|]. rewrite !fmap_cons. f_equal; [apply Hx|done].
Qed.

Lemma checked_all {A} (name : A -> string) (checked_at : Z) (l : list A) (rs : list HealthRecord) :
  Forall2 (fun x r => checked (name x) checked_at r) l rs ->
  Forall (fun r => checked (SourceHealthRecord.target_code r) checked_at r) rs.
Proof. induction 1 as [|x r l rs Hx _ IH]; constructor; [|done]. destruct Hx as (_ & Hx). by split. Qed.

Lemma check_all_checked (config : Config.t) (checked_at : Z) (s : Server) :
  validate known_timezone config = Ok tt -> checkable config ->
  exists rs s', check_all schedule config checked_at s = (Some rs, s') /\
    SourceHealthRecord.target_code <$> rs ≡ₚ targets config /\
    Forall (fun r => checked (SourceHealthRecord.target_code r) checked_at r) rs.
Proof.
  intros Hv (_ & Hprobes & Hcustom). unfold check_all.
  rewrite Forall_forall in Hprobes. rewrite Forall_forall in Hcustom.
  match goal with |- context [collect ?check (schedule _ PROBES) s] =>
    destruct (collect_ok (fun probe r => checked (pr_target probe) checked_at r) check (schedule _ PROBES) s)
      as (rs & s1 & -> & HP) end.
  { intros probe s0 Hp. rewrite schedule_perm in Hp.
    case_match; [eexists _, _; split; [done|]; apply disabled_checked|].
    apply check_probe_checked; [done|]. by apply Hprobes. }
  match goal with |- context [collect ?check ?l s1] =>
    destruct (collect_ok (fun c r => checked c.1 checked_at r) check l s1) as (cs & s2 & -> & HQ) end.
  { intros [target configured] s0 Hc. rewrite schedule_perm in Hc.
    case_match; [eexists _, _; split; [done|]; apply disabled_checked|].
    apply check_custom_checked; [done|]. apply list_elem_of_filter in Hc as [_ Hc].
    by apply (Hcustom (target, configured)). }
  eexists _, _. split; [done|]. split.
  - rewrite fmap_app. unfold targets. apply Permutation_app; by eapply checked_targets.
  - apply Forall_app. split; by eapply checked_all.
Qed.

Lemma targets_distinct (config : Config.t) : checkable config -> NoDup (targets config).
Proof.
  intros (Hn & _). unfold targets, custom_upstreams. apply NoDup_app. split_and!.
  - apply (bool_decide_unpack _). by vm_compute.
  - intros x (probe & -> & Hp)%list_elem_of_fmap (c & Hc & Hin)%list_elem_of_fmap.
    apply list_elem_of_filter in Hin as [Hx _]. rewrite <- Hc in Hx. apply existsb_false_Forall in Hx.
    rewrite Forall_forall in Hx. specialize (Hx probe Hp). by rewrite String.eqb_refl in Hx.
  - eapply sublist_NoDup; [exact Hn|]. apply fmap_sublist. apply sublist_filter.
Qed.
(** ** The report of a check *)

Lemma filter_all {A} (P : A -> Prop) `{forall x, Decision (P x)} (l : list A) : Forall P l -> filter P l = l.
Proof. induction 1 as [|x l Hx _ IH]; [done|]. rewrite filter_cons_True by done. by f_equal. Qed.

Lemma states_counted (l : list HealthRecord) :
  Forall (fun r => SourceHealthRecord.status r ∈ HEALTH_STATES) l ->
  (count_status "healthy" l + count_status "degraded" l + count_status "unhealthy" l + count_status "disabled" l)%nat =
  length l.
Proof.
  unfold HEALTH_STATES, count_status. induction 1 as [|r l Hr _ IH]; [done|]. rewrite !elem_of_cons, elem_of_nil in Hr.
  destruct Hr as [Hr|[Hr|[Hr|[Hr|[]]]]]; rewrite !filter_cons; repeat case_decide; try congruence; cbn [length]; lia.
Qed.

Lemma max_option_const (z : Z) (l : list Z) : l <> [] -> Forall (fun x => x = z) l -> max_option l = Some z.
Proof.
  destruct l as [|x l]; [done|]. intros _ [-> Hl]%Forall_cons. unfold max_option. f_equal.
  induction Hl as [|x l -> _ IH]; [done|]. cbn. by rewrite Z.max_id.
Qed.

Lemma targets_are_targets (config : Config.t) (target : string) :
  target ∈ targets config -> is_target config target = true.
Proof.
  unfold targets, is_target. intros [(x & -> & Hx)%list_elem_of_fmap|(x & -> & Hx)%list_elem_of_fmap]%elem_of_app;
    apply orb_true_iff; [left|right]; apply existsb_true_Exists, Exists_exists; exists x; by rewrite String.eqb_refl.
Qed.

(** A report on the records of a whole check counts each target once. *)
Lemma whole_report (config : Config.t) (running : bool) (checked_at : Z) (l : list HealthRecord) (s : Server) :
  SourceHealthRecord.target_code <$> l ≡ₚ targets config ->
  Forall (fun r => SourceHealthRecord.status r ∈ HEALTH_STATES /\ SourceHealthRecord.checked_at r = checked_at) l ->
  let r := report config running true l s in
  sr_items r = l /\ sr_unknown r = 0%nat /\ sr_last_checked_at r = Some checked_at /\
  (sr_healthy r + sr_degraded r + sr_unhealthy r + sr_disabled r)%nat = sr_total r.
Proof.
  intros Ht Hl. apply Forall_and in Hl as [Hstate Hat].
  assert (Hkeep : filter (fun r => is_target config (SourceHealthRecord.target_code r) = true) l = l).
  { apply filter_all, Forall_forall. intros r Hr. apply targets_are_targets. rewrite <- Ht.
    by apply list_elem_of_fmap_2. }
  assert (Hlen : (length PROBES + length (custom_upstreams (Config.upstreams config)))%nat = length l).
  { apply Permutation_length in Ht. rewrite length_fmap in Ht. rewrite Ht. unfold targets. by rewrite length_app, !length_fmap. }
  unfold report. cbn [sr_items sr_unknown sr_last_checked_at sr_healthy sr_degraded sr_unhealthy sr_disabled sr_total].
  rewrite Hkeep, Hlen, Nat.min_id, states_counted by done. split_and!; [done|lia| |done].
  apply max_option_const; [|by apply Forall_fmap]. destruct l; [|done]. by vm_compute in Hlen.
Qed.

(** C15: A check that is not cancelled comes to its end, whatever the upstreams
    answer: no probe panics, the tables take every record, and the report has
    exactly one record for each target, adds up, and leaves none unknown. The
    next check may start. *)
Theorem checks_report_every_target (config : Config.t) (checked_at : Z) (t : HealthTables) (s : Server) :
  validate known_timezone config = Ok tt -> checkable config ->
  exists st1 st2 st3 st4 r,
    health_step schedule (Begin config checked_at) (idle t s) = (None, st1) /\
    health_step schedule (Advance 0 config) st1 = (None, st2) /\
    health_step schedule (Advance 0 config) st2 = (None, st3) /\
    health_step schedule (Advance 0 config) st3 = (Some (CheckReported r), st4) /\
    sr_items r = source_health (tables st4) /\
    SourceHealthRecord.target_code <$> sr_items r ≡ₚ targets config /\ NoDup (targets config) /\
    (sr_healthy r + sr_degraded r + sr_unhealthy r + sr_disabled r)%nat = sr_total r /\ sr_unknown r = 0%nat /\
    sr_last_checked_at r = Some checked_at /\ check_running st4 = false /\ checks st4 = [].
Proof.
  intros Hv Hc. destruct (check_all_checked config checked_at s Hv Hc) as (rs & s' & Hrs & Ht & Hrs').
  pose proof (targets_distinct config Hc) as Hn.
  destruct (replaced_records rs t) as (t' & Hreplace & Hread).
  { split; [by rewrite Ht|]. eapply Forall_impl; [exact Hrs'|]. intros r Hr. apply Hr. }
  destruct (whole_report config true checked_at (source_health t') s') as (Hitems & Hunknown & Hat & Hsum).
  { rewrite Hread, <- list_fmap_compose. change (SourceHealthRecord.target_code ∘ kept) with SourceHealthRecord.target_code.
    by rewrite sort_by_perm. }
  { rewrite Hread. apply Forall_fmap. rewrite sort_by_perm. eapply Forall_impl; [exact Hrs'|]. intros r Hr. split; apply Hr. }
  eexists _, {| check_running := true; checks := [Storing rs]; tables := t; server := s' |},
    {| check_running := true; checks := [Reporting]; tables := t'; server := s' |}, (idle t' s'), _.
  split; [reflexivity|]. cbn [health_step lookup list_lookup checks]. cbn. rewrite Hrs. split; [done|].
  rewrite Hreplace. split; [done|]. split; [done|]. rewrite Hitems. split_and!; try done. rewrite Hread, <- list_fmap_compose.
  change (SourceHealthRecord.target_code ∘ kept) with SourceHealthRecord.target_code. by rewrite sort_by_perm.
Qed.

(** However calls, progress and cancellations of checks interleave, at most
    one check is under way, and a call is refused exactly while one is. *)
Theorem one_check_at_a_time (events : list HealthEvent) (t : HealthTables) (s : Server) (config : Config.t) (checked_at : Z) :
  let st := run_health schedule events (idle t s) in
  (length (checks st) <= 1)%nat /\ (check_running st = true <-> checks st <> []) /\
  ((health_step schedule (Begin config checked_at) st).1 = Some AlreadyRunning <-> checks st <> []).
Proof.
  intros st. destruct (guarded_run events (idle t s)) as [[Hf Hc]|[Hf [stage Hc]]]; [by left| |]; fold st in Hf, Hc;
    unfold health_step, acquire; rewrite Hc, Hf; cbn; split_and!; try done; lia.
Qed.

(** A check reports while it still holds its guard: the report it answers
    says that a check is running, although none is when the answer is sent. *)
Theorem finished_checks_say_running (events : list HealthEvent) (t : HealthTables) (s : Server) (i : nat) (config : Config.t) :
  let st := run_health schedule events (idle t s) in
  match health_step schedule (Advance i config) st with
  | (Some (CheckReported r), st') => sr_running r = true /\ check_running st' = false
  | _ => True
  end.
Proof.
  intros st. destruct (guarded_run events (idle t s)) as [[Hf Hc]|[Hf [stage Hc]]]; [by left| |]; fold st in Hf, Hc;
    unfold health_step; rewrite Hc; [done|]. destruct i as [|i]; cbn; [|done].
  destruct stage as [captured at_|records|]; cbn [advance_check].
  - by destruct (check_all schedule captured at_ (server st)) as [[records|] s'].
  - by destruct (replace_source_health records (tables st)) as [[] t'].
  - by split.
Qed.
End Checks.

(** Visitors are shown no error text, and nothing of how upstreams are chosen. *)
Theorem public_reports_show_no_errors `{HttpWorld} (config : Config.t) (st : HealthState) :
  match public_source_health config st with
  | HealthReport r =>
      Forall (fun x => SourceHealthRecord.error x = None /\
        Forall (fun e => SourceEndpointHealthRecord.error e = None) (SourceHealthRecord.endpoints x)) (sr_items r) /\
      sr_selection r = None
  | _ => False
  end.
Proof.
  cbn. split; [|done]. apply Forall_fmap, Forall_forall. intros x _. cbn. split; [done|]. by apply Forall_fmap, Forall_true.
Qed.

(** ** Error texts *)

Lemma char_count_app (a b : string) : char_count (a +:+ b) = (char_count a + char_count b)%Z.
Proof. induction a as [|c a IH]; [done|]. cbn [String.append char_count]. rewrite IH. lia. Qed.

Lemma take_chars_count (n : Z) (s : string) : (0 <= n)%Z -> (char_count (take_chars n s) <= n)%Z.
Proof.
  revert n. induction s as [|a s IH]; intros n Hn; [done|]. cbn [take_chars]. unfold in_range.
  destruct ((128 <=? byte_val a) && (byte_val a <=? 191))%Z eqn:Ea; cbn [negb andb].
  - cbn [char_count]. rewrite Ea. specialize (IH n Hn). lia.
  - destruct (Z.leb_spec n 0); [done|]. cbn [char_count]. rewrite Ea. specialize (IH (n - 1)%Z). lia.
Qed.

(** A stored error has at most 240 characters and an ellipsis. *)
Theorem short_errors_are_bounded (value : string) : (char_count (short_error value) <= 241)%Z.
Proof.
  unfold short_error, MAX_CHARS. destruct (Z.ltb_spec 240 (char_count value)); [|lia]. rewrite char_count_app.
  pose proof (take_chars_count 240 value). change (char_count ellipsis) with 1%Z. lia.
Qed.

(** Every probe has an upstream in the default configuration. *)
Theorem default_probes_have_upstreams :
  Forall (fun probe =>
    match configured_upstream (Config.upstreams Config.default) probe with
    | Some configured => configured_endpoints configured <> []
    | None => False
    end) PROBES.
Proof.
  apply (Forall_impl (fun probe =>
    match configured_upstream (Config.upstreams Config.default) probe with
    | Some configured => negb (bool_decide (configured_endpoints configured = []))
    | None => false
    end = true)).
  - apply forallb_true_Forall. vm_compute. reflexivity.
  - intros probe. case_match; [|done]. intros Hn%negb_true_iff%bool_decide_eq_false. exact Hn.
Qed.

(** *** Examples *)

Module Example.

Definition probed (position : Z) (status : string) (checked_at : Z) : EndpointRecord :=
  {| SourceEndpointHealthRecord.position := position; SourceEndpointHealthRecord.endpoint := "https://a.example";
     SourceEndpointHealthRecord.status := status; SourceEndpointHealthRecord.http_status := Some 200%Z;
     SourceEndpointHealthRecord.latency_ms := Some 12%Z; SourceEndpointHealthRecord.checked_at := checked_at;
     SourceEndpointHealthRecord.error := None |}.

Lemma degraded_summary :
  let r := summarize_endpoints "npm" "npm" [probed 1 "unhealthy" 0; probed 0 "healthy" 0] 0 in
  (SourceHealthRecord.status r, SourceHealthRecord.error r, SourceEndpointHealthRecord.position <$> SourceHealthRecord.endpoints r) =
  ("degraded", Some "1 of 2 upstreams unavailable", [0; 1]%Z).
Proof. reflexivity. Qed.

Definition stored (status : string) (checked_at : Z) : HealthTables :=
  (replace_source_health [summarize_endpoints "npm" "npm" [probed 0 status checked_at] checked_at] empty_tables).2.

(** The endpoints and the targets are read by two queries: a check that stores
    its records between them gives a target that is unhealthy although its
    only endpoint is healthy. *)
Lemma reads_mix_two_checks :
  (fun r => (SourceHealthRecord.status r, SourceEndpointHealthRecord.status <$> SourceHealthRecord.endpoints r))
    <$> read_source_health (stored "healthy" 0) (stored "unhealthy" 900) =
  [("unhealthy", ["healthy"])].
Proof. vm_compute. reflexivity. Qed.

Lemma long_error_cut : char_count (short_error (str_repeat "e" 300)) = 241%Z.
Proof. vm_compute. reflexivity. Qed.

#[local] Instance hub : @Hub.HubWorld AssocHeaders SimpleUrlApi ScriptWorld := { hub_client_ok _ _ := true }.
#[local] Instance edit : @UrlEdit SimpleUrlApi :=
  { url_set_fragment f u := SimpleUrl (su_scheme u) (su_user u) (su_password u) (su_host u) (su_port u) (su_path u) (su_query u) f;
    url_set_username n u := SimpleUrl (su_scheme u) n (su_password u) (su_host u) (su_port u) (su_path u) (su_query u) (su_fragment u);
    url_set_password p u := SimpleUrl (su_scheme u) (su_user u) p (su_host u) (su_port u) (su_path u) (su_query u) (su_fragment u) }.
#[local] Instance text : @HealthText AssocHeaders SimpleUrlApi ScriptWorld :=
  { transport_text _ := "error sending request"; parse_text _ := "relative URL without a base" }.

Definition as_they_come (A : Type) (l : list A) : list A := l.

Lemma default_checkable : checkable Config.default.
Proof.
  split_and!.
  - apply (bool_decide_unpack _). by vm_compute.
  - apply Forall_forall. intros probe Hp configured Hc.
    assert (Hall : Forall (fun probe => match configured_upstream (Config.upstreams Config.default) probe with
      | Some configured => (Z.of_nat (length (configured_endpoints configured)) <=? U32_MAX + 1)%Z
      | None => true end = true) PROBES) by (apply forallb_true_Forall; vm_compute; reflexivity).
    rewrite Forall_forall in Hall. specialize (Hall probe Hp). rewrite Hc in Hall. by apply Z.leb_le.
  - apply (Forall_impl (fun c => (Z.of_nat (length (configured_endpoints c.2)) <=? U32_MAX + 1)%Z = true)).
    + apply forallb_true_Forall. vm_compute. reflexivity.
    + intros c. apply Z.leb_le.
Qed.

Lemma checks_report_every_target_witness :
  exists r, (sr_healthy r + sr_degraded r + sr_unhealthy r + sr_disabled r)%nat = sr_total r /\ sr_unknown r = 0%nat.
Proof.
  destruct (@checks_report_every_target AssocHeaders SimpleUrlApi ScriptWorld text hub edit ScriptWorld_laws AssocHeaders_laws
    as_they_come (fun _ => false) (fun A l => Permutation_refl l) Config.default 0%Z empty_tables
    (script_server [Some (200%Z, [], None)] {| disk := Fs ∅ [] 0; capacity := None; instant := 0 |})
    default_config_valid default_checkable) as (? & ? & ? & ? & r & _ & _ & _ & _ & _ & _ & _ & H1 & H2 & _).
  exists r. split; [exact H1|exact H2].
Defined.

Lemma summary_order_free_witness :
  summarize_endpoints "npm" "npm" [probed 1 "unhealthy" 0; probed 0 "healthy" 0] 0 =
  summarize_endpoints "npm" "npm" [probed 0 "healthy" 0; probed 1 "unhealthy" 0] 0.
Proof. apply summary_order_free; [apply (bool_decide_unpack _); vm_compute; done|apply Permutation_swap]. Defined.
End Example.
