(* ===== verification/Alerts.v ===== *)
(** * Operational alerts

    [alerts.rs], with [enqueue_operational_alert] of [email.rs]: the worker
    that tells operators of traffic near its quota and of failing upstreams,
    by a webhook and by email, each no more often than a cooldown allows. *)
From stdpp Require Import gmap.
From S2P Require Import Prelude RustStr Headers Net Url Config Fs Cache CacheCodec Selector Requests Redirect Forward HuggingFace.
From S2P Require Import SourceHealth Quota Users Secrets Email EmailFlow.
Open Scope string_scope.
Open Scope list_scope.
Open Scope mirror_scope.

Record AlertPayload : Type := {
  al_event : string;
  al_severity : string;
  al_message : string;
  al_value : Z;
  al_threshold : Z;
  al_timestamp : Z;
}.

(** The webhook: a POST of a payload, and what its failures print as. *)
Class AlertWorld : Type := {
  Outside : Type;
  post_alert : string -> AlertPayload -> Outside -> result Z string * Outside;
  status_error : Z -> string;
}.

Section Alerts.
Context `{AlertWorld} `{SecretApi} `{CipherApi}.
Variable cipher : option string.

Inductive Channel : Type := Webhook | Mailbox.

(** The worker and what it acts on. [delivered] is [AlertCooldowns], instants
    in nanoseconds.  [told] is a log for the theorems, written where the
    outside is acted on: an entry for every POST to the webhook and for every
    batch of messages put into the outbox, with the event, the instant, and
    whether it succeeded. *)
Record AlertState : Type := {
  delivered : gmap string Z;
  mail : Mail;
  outside : Outside;
  told : list (string * Channel * Z * bool);
}.

Definition is_cooling_down (cooldowns : gmap string Z) (key : string) (now cooldown_secs : Z) : bool :=
  match cooldowns !! key with
  | Some last => (Z.max 0 (now - last) <? cooldown_secs * 1000000000)%Z
  | None => false
  end.

Definition mark_delivered (key : string) (now : Z) (st : AlertState) : AlertState :=
  {| delivered := <[key := now]> (delivered st); mail := mail st; outside := outside st; told := told st |}.

Definition alert_email_content (payload : AlertPayload) : string * string :=
  ("[MirrorProxy " +:+ al_severity payload +:+ "] " +:+ al_event payload,
   al_message payload +:+ newline +:+ newline +:+ "Current value: " +:+ show_uint (al_value payload) +:+ newline
   +:+ "Threshold: " +:+ show_uint (al_threshold payload) +:+ newline
   +:+ "Observed at: " +:+ show_uint (al_timestamp payload) +:+ newline).

Definition deliver_webhook (webhook_url : string) (payload : AlertPayload) (w : Outside) : result Z string * Outside :=
  match post_alert webhook_url payload w with
  | (Ok status, w) => (if ((400 <=? status) && (status <? 600))%Z then Err (status_error status) else Ok status, w)
  | (Err e, w) => (Err e, w)
  end.

(** The messages to each recipient, up to the first failure. *)
Fixpoint enqueue_all (now : Z) (nonces : string * string) (recipients : list string) (subject body : string) (m : Mail) :
    result unit string * Mail :=
  match recipients with
  | [] => (Ok tt, m)
  | recipient :: recipients =>
      match store_email now cipher nonces recipient subject body None m with
      | (Ok _, m) => enqueue_all now nonces recipients subject body m
      | (Err e, m) => (Err e, m)
      end
  end.

Definition enqueue_operational_alert (now : Z) (nonces : string * string) (recipients : list string)
    (subject body : string) (m : Mail) : result unit string * Mail :=
  match smtp_settings cipher m with
  | Err e => (Err e, m)
  | Ok settings =>
      if match settings with Some settings => SmtpSettings.enabled settings | None => false end
      then enqueue_all now nonces recipients subject body m
      else (Err "SMTP is not enabled for operational alert delivery", m)
  end.

(** The two channels of [deliver]: what failed, and the state after. *)
Definition by_webhook (cooldown_secs : Z) (config : AlertConfig.t) (payload : AlertPayload) (now : Z) (st : AlertState) :
    list string * AlertState :=
  let url := AlertConfig.webhook_url config in
  let key := al_event payload +:+ ":webhook" in
  if str_is_empty url || is_cooling_down (delivered st) key now cooldown_secs then ([], st)
  else
    let '(r, w) := deliver_webhook url payload (outside st) in
    let st := {| delivered := delivered st; mail := mail st; outside := w;
                 told := told st ++ [(al_event payload, Webhook, now, is_ok r)] |} in
    match r with
    | Ok _ => ([], mark_delivered key now st)
    | Err e => (["webhook: " +:+ e], st)
    end.

Definition by_email (cooldown_secs : Z) (config : AlertConfig.t) (payload : AlertPayload) (now time : Z)
    (nonces : string * string) (st : AlertState) : list string * AlertState :=
  let recipients := AlertConfig.email_recipients config in
  let key := al_event payload +:+ ":email" in
  if negb (AlertConfig.email_enabled config) || match recipients with [] => true | _ => false end
     || is_cooling_down (delivered st) key now cooldown_secs then ([], st)
  else
    let '(subject, body) := alert_email_content payload in
    let '(r, m) := enqueue_operational_alert time nonces recipients subject body (mail st) in
    let st := {| delivered := delivered st; mail := m; outside := outside st;
                 told := told st ++ [(al_event payload, Mailbox, now, is_ok r)] |} in
    match r with
    | Ok _ => ([], mark_delivered key now st)
    | Err e => (["email: " +:+ e], st)
    end.

Definition deliver (cooldown_secs : Z) (config : AlertConfig.t) (payload : AlertPayload) (now time : Z)
    (nonces : string * string) (st : AlertState) : result unit string * AlertState :=
  let '(errors, st) := by_webhook cooldown_secs config payload now st in
  let '(more, st) := by_email cooldown_secs config payload now time nonces st in
  match errors ++ more with
  | [] => (Ok tt, st)
  | errors => (Err (str_join "; " errors), st)
  end.

(** What an evaluation reads: the configuration, the bytes of the month, the
    health of the sources, the clocks of its two deliveries, and randomness. *)
Record Reading : Type := {
  rd_config : Config.t;
  rd_month_bytes : Z;
  rd_health : HealthTables;
  rd_instants : Z * Z;
  rd_time : Z;
  rd_nonces : (string * string) * (string * string);
}.

Definition quota_limit (config : Config.t) : Z :=
  sat_mul_u64 (QuotaConfig.monthly_gb (Config.quota config)) (1024 * 1024 * 1024).

Definition quota_threshold (config : Config.t) : Z :=
  (sat_mul_u64 (quota_limit config) (AlertConfig.quota_percent (Config.alerts config)) / 100)%Z.

Definition quota_alert (config : Config.t) (bytes time : Z) : option AlertPayload :=
  if QuotaConfig.enabled (Config.quota config) && (0 <? QuotaConfig.monthly_gb (Config.quota config))%Z
     && (quota_threshold config <=? bytes)%Z then
    Some {| al_event := "quota_threshold";
            al_severity := if (quota_limit config <=? bytes)%Z then "critical" else "warning";
            al_message := "monthly proxy traffic reached " +:+ show_uint (AlertConfig.quota_percent (Config.alerts config))
                          +:+ "% of the configured quota";
            al_value := bytes; al_threshold := quota_threshold config; al_timestamp := time |}
  else None.

(** The sources that are degraded or unhealthy. *)
Definition failing (r : HealthRecord) : bool :=
  (SourceHealthRecord.status r =? "degraded") || (SourceHealthRecord.status r =? "unhealthy").

Definition health_alert (config : Config.t) (records : list HealthRecord) (time : Z) : option AlertPayload :=
  let unhealthy := Z.of_nat (length (filter (fun r => failing r = true) records)) in
  let threshold := AlertConfig.source_failures (Config.alerts config) in
  if (threshold <=? unhealthy)%Z then
    Some {| al_event := "upstream_health"; al_severity := "critical";
            al_message := show_uint unhealthy +:+ " upstream source groups are degraded or unavailable";
            al_value := unhealthy; al_threshold := threshold; al_timestamp := time |}
  else None.

Definition deliver_some (config : Config.t) (payload : option AlertPayload) (now time : Z) (nonces : string * string)
    (st : AlertState) : result unit string * AlertState :=
  match payload with
  | None => (Ok tt, st)
  | Some payload =>
      deliver (AlertConfig.cooldown_secs (Config.alerts config)) (Config.alerts config) payload now time nonces st
  end.

Definition evaluate (rd : Reading) (st : AlertState) : result unit string * AlertState :=
  let config := rd_config rd in
  if negb (AlertConfig.enabled (Config.alerts config)) then (Ok tt, st)
  else
    let quota := quota_alert config (as_u64 (rd_month_bytes rd)) (rd_time rd) in
    match deliver_some config quota (rd_instants rd).1 (rd_time rd) (rd_nonces rd).1 st with
    | (Err e, st) => (Err e, st)
    | (Ok _, st) =>
        let health := health_alert config (source_health (rd_health rd)) (rd_time rd) in
        deliver_some config health (rd_instants rd).2 (rd_time rd) (rd_nonces rd).2 st
    end.

(** The worker: an evaluation per tick, failures logged. *)
Definition run_alerts (readings : list Reading) (st : AlertState) : AlertState :=
  foldl (fun st rd => (evaluate rd st).2) st readings.

(** ** Spacing *)

(** Deliveries of one event that succeeded through one channel are [gap] apart. *)
Definition spaced (gap : Z) (l : list (string * Channel * Z * bool)) : Prop :=
  forall i j event channel t t', (i < j)%nat ->
    l !! i = Some (event, channel, t, true) -> l !! j = Some (event, channel, t', true) -> (t + gap <= t')%Z.

Definition cooldown_key (event : string) (channel : Channel) : string :=
  event +:+ match channel with Webhook => ":webhook" | Mailbox => ":email" end.

(** The cooldowns are the last successes of the log. *)
Definition alerts_inv (gap : Z) (st : AlertState) : Prop :=
  spaced gap (told st) /\
  (forall event channel t, (event, channel, t, true) ∈ told st ->
     exists last, delivered st !! cooldown_key event channel = Some last /\ (t <= last)%Z) /\
  (forall key last, delivered st !! key = Some last ->
     exists event channel, key = cooldown_key event channel /\ (event, channel, last, true) ∈ told st).

Lemma list_ascii_app (a b : string) : String.list_ascii_of_string (a +:+ b) = (String.list_ascii_of_string a ++ String.list_ascii_of_string b)%list.
Proof. induction a as [|c a IH]; [done|]. cbn. f_equal. exact IH. Qed.

Lemma cooldown_key_inj (e e' : string) (c c' : Channel) : cooldown_key e c = cooldown_key e' c' -> e = e' /\ c = c'.
Proof.
  unfold cooldown_key. intros Hk. apply (f_equal String.list_ascii_of_string) in Hk. rewrite !list_ascii_app in Hk.
  assert (Hl : forall l l' : list ascii, l = l' -> List.rev l = List.rev l') by congruence.
  destruct c, c'; cbn [String.list_ascii_of_string] in Hk;
    try (apply Hl in Hk; rewrite !List.rev_app_distr in Hk; discriminate Hk);
    (split; [|done]); apply app_inv_tail in Hk;
    rewrite <-(String.string_of_list_ascii_of_string e), <-(String.string_of_list_ascii_of_string e'); by rewrite Hk.
Qed.

(** One more delivery, and the mark that belongs to it. *)
Definition delivering (event : string) (channel : Channel) (now : Z) (ok : bool) (m : Mail) (w : Outside) (st : AlertState) :
    AlertState :=
  let st := {| delivered := delivered st; mail := m; outside := w; told := told st ++ [(event, channel, now, ok)] |} in
  if ok then mark_delivered (cooldown_key event channel) now st else st.

Lemma delivering_inv (gap : Z) (event : string) (channel : Channel) (now cooldown_secs : Z) (ok : bool) (m : Mail)
    (w : Outside) (st : AlertState) :
  (0 < gap)%Z -> (gap <= cooldown_secs * 1000000000)%Z ->
  is_cooling_down (delivered st) (cooldown_key event channel) now cooldown_secs = false ->
  alerts_inv gap st -> alerts_inv gap (delivering event channel now ok m w st).
Proof.
  intros Hgap Hsecs Hcool (Hspaced & Hlast & Hback).
  assert (Hnew : forall t, (event, channel, t, true) ∈ told st -> (t + gap <= now)%Z).
  { intros t Ht. destruct (Hlast event channel t Ht) as (last & Hl & Hle). unfold is_cooling_down in Hcool. rewrite Hl in Hcool.
    apply Z.ltb_ge in Hcool. lia. }
  assert (Hsp : spaced gap (told st ++ [(event, channel, now, ok)])).
  { intros i j e c t t' Hij Hi Hj. apply lookup_app_Some in Hj as [Hj|[Hlen Hj]].
    + rewrite lookup_app_l in Hi by (apply lookup_lt_Some in Hj; lia). by apply (Hspaced i j e c).
    + apply list_lookup_singleton_Some in Hj as [Hj0 [= <- <- <- ->]].
      rewrite lookup_app_l in Hi by lia. apply Hnew. by eapply list_elem_of_lookup_2. }
  unfold delivering, alerts_inv. destruct ok; cbn [told delivered mark_delivered]; (split; [exact Hsp|split]).
  - intros e c t [Ht|Ht%list_elem_of_singleton]%elem_of_app.
    + destruct (decide (cooldown_key e c = cooldown_key event channel)) as [Hk|Hne].
      * destruct (cooldown_key_inj _ _ _ _ Hk) as [-> ->]. exists now. rewrite lookup_insert_eq. split; [done|].
        specialize (Hnew t Ht). lia.
      * rewrite lookup_insert_ne by done. by apply Hlast.
    + simplify_eq. exists now. by rewrite lookup_insert_eq.
  - intros k last [[<- <-]|[_ Hk]]%lookup_insert_Some.
    + exists event, channel. split; [done|]. apply elem_of_app. right. by left.
    + apply Hback in Hk as (e & c & -> & Hin). exists e, c. split; [done|]. apply elem_of_app. by left.
  - intros e c t [Ht|Ht%list_elem_of_singleton]%elem_of_app; [by apply Hlast|done].
  - intros k last (e & c & -> & Hin)%Hback. exists e, c. split; [done|]. apply elem_of_app. by left.
Qed.

(** What the two channels do: nothing, or a delivery that was due. *)
Lemma by_webhook_cases (cooldown_secs : Z) (config : AlertConfig.t) (payload : AlertPayload) (now : Z) (st : AlertState) :
  let key := cooldown_key (al_event payload) Webhook in
  (by_webhook cooldown_secs config payload now st).2 = st /\
    (AlertConfig.webhook_url config = "" \/ is_cooling_down (delivered st) key now cooldown_secs = true) \/
  is_cooling_down (delivered st) key now cooldown_secs = false /\
    exists ok m w, (by_webhook cooldown_secs config payload now st).2 = delivering (al_event payload) Webhook now ok m w st.
Proof.
  cbv zeta. unfold by_webhook. destruct (str_is_empty _) eqn:He; cbn [orb].
  { left. split; [done|]. left. by destruct (AlertConfig.webhook_url config). }
  change (al_event payload +:+ ":webhook") with (cooldown_key (al_event payload) Webhook).
  destruct (is_cooling_down _ _ _ _) eqn:Hc; [left; by auto|]. right. split; [done|].
  destruct (deliver_webhook _ _ _) as [[status|e] w]; [exists true|exists false]; by exists (mail st), w.
Qed.

Lemma by_email_cases (cooldown_secs : Z) (config : AlertConfig.t) (payload : AlertPayload) (now time : Z)
    (nonces : string * string) (st : AlertState) :
  let key := cooldown_key (al_event payload) Mailbox in
  (by_email cooldown_secs config payload now time nonces st).2 = st /\
    (AlertConfig.email_enabled config = false \/ AlertConfig.email_recipients config = [] \/
     is_cooling_down (delivered st) key now cooldown_secs = true) \/
  is_cooling_down (delivered st) key now cooldown_secs = false /\
    exists ok m w, (by_email cooldown_secs config payload now time nonces st).2 =
      delivering (al_event payload) Mailbox now ok m w st.
Proof.
  cbv zeta. unfold by_email.
  change (al_event payload +:+ ":email") with (cooldown_key (al_event payload) Mailbox).
  destruct (AlertConfig.email_enabled config); cbn [negb orb]; [|left; by auto].
  destruct (AlertConfig.email_recipients config) as [|r l]; [left; by auto|].
  destruct (is_cooling_down _ _ _ _) eqn:Hc; cbn [orb]; [left; by auto|]. right. split; [done|].
  destruct (alert_email_content payload) as [subject body].
  destruct (enqueue_operational_alert _ _ _ _ _ _) as [[u|e] m]; [exists true|exists false]; by exists m, (outside st).
Qed.

Lemma deliver_state (cooldown_secs : Z) (config : AlertConfig.t) (payload : AlertPayload) (now time : Z)
    (nonces : string * string) (st : AlertState) :
  (deliver cooldown_secs config payload now time nonces st).2 =
  (by_email cooldown_secs config payload now time nonces (by_webhook cooldown_secs config payload now st).2).2.
Proof.
  unfold deliver. destruct (by_webhook _ _ _ _ _) as [errors st1]. cbn [snd].
  destruct (by_email _ _ _ _ _ _ _) as [more st2]. by case_match.
Qed.

Lemma deliver_inv (gap : Z) (cooldown_secs : Z) (config : AlertConfig.t) (payload : AlertPayload) (now time : Z)
    (nonces : string * string) (st : AlertState) :
  (0 < gap)%Z -> (gap <= cooldown_secs * 1000000000)%Z ->
  alerts_inv gap st -> alerts_inv gap (deliver cooldown_secs config payload now time nonces st).2.
Proof.
  intros Hgap Hsecs Hst. rewrite deliver_state.
  assert (Hw : alerts_inv gap (by_webhook cooldown_secs config payload now st).2).
  { destruct (by_webhook_cases cooldown_secs config payload now st) as [[-> _]|(Hc & ok & m & w & ->)]; [done|].
    by eapply delivering_inv. }
  destruct (by_email_cases cooldown_secs config payload now time nonces (by_webhook cooldown_secs config payload now st).2)
    as [[-> _]|(Hc & ok & m & w & ->)]; [done|]. by eapply delivering_inv.
Qed.

Lemma evaluate_inv (gap : Z) (rd : Reading) (st : AlertState) :
  (0 < gap)%Z -> (gap <= AlertConfig.cooldown_secs (Config.alerts (rd_config rd)) * 1000000000)%Z ->
  alerts_inv gap st -> alerts_inv gap (evaluate rd st).2.
Proof.
  intros Hgap Hsecs Hst.
  assert (Hsome : forall payload now time nonces st, alerts_inv gap st ->
    alerts_inv gap (deliver_some (rd_config rd) payload now time nonces st).2).
  { intros [payload|] now time nonces st0 Hst0; [by apply deliver_inv|done]. }
  unfold evaluate. case_match; [done|].
  match goal with |- context [deliver_some ?c ?p ?n ?t ?r st] =>
    pose proof (Hsome p n t r st Hst) as Hq; destruct (deliver_some c p n t r st) as [[u|e] st1] end; [|done].
  by apply Hsome.
Qed.

Lemma run_alerts_inv (gap : Z) (readings : list Reading) (st : AlertState) :
  (0 < gap)%Z ->
  Forall (fun rd => (gap <= AlertConfig.cooldown_secs (Config.alerts (rd_config rd)) * 1000000000)%Z) readings ->
  alerts_inv gap st -> alerts_inv gap (run_alerts readings st).
Proof.
  intros Hgap Hall. revert st. induction Hall as [|rd readings Hrd _ IH]; intros st Hst; [done|].
  by apply IH, evaluate_inv.
Qed.

(** The event was delivered through the channel less than the cooldown ago, or
    a delivery is attempted now. *)
Definition attended (event : string) (channel : Channel) (now cooldown_secs : Z) (before after : AlertState) : Prop :=
  (exists t, (event, channel, t, true) ∈ told before /\ (now - t < cooldown_secs * 1000000000)%Z) \/
  exists ok, (event, channel, now, ok) ∈ told after.

Lemma delivering_told (event : string) (channel : Channel) (now : Z) (ok : bool) (m : Mail) (w : Outside) (st : AlertState) :
  told (delivering event channel now ok m w st) = told st ++ [(event, channel, now, ok)].
Proof. by destruct ok. Qed.

(** The log only grows. *)
Lemma by_webhook_told (cooldown_secs : Z) (config : AlertConfig.t) (payload : AlertPayload) (now : Z) (st : AlertState) :
  told st `prefix_of` told (by_webhook cooldown_secs config payload now st).2.
Proof.
  destruct (by_webhook_cases cooldown_secs config payload now st) as [[-> _]|(_ & ok & m & w & ->)]; [done|].
  rewrite delivering_told. by apply prefix_app_r.
Qed.

Lemma by_email_told (cooldown_secs : Z) (config : AlertConfig.t) (payload : AlertPayload) (now time : Z)
    (nonces : string * string) (st : AlertState) :
  told st `prefix_of` told (by_email cooldown_secs config payload now time nonces st).2.
Proof.
  destruct (by_email_cases cooldown_secs config payload now time nonces st) as [[-> _]|(_ & ok & m & w & ->)]; [done|].
  rewrite delivering_told. by apply prefix_app_r.
Qed.

Lemma deliver_some_told (config : Config.t) (payload : option AlertPayload) (now time : Z) (nonces : string * string)
    (st : AlertState) :
  told st `prefix_of` told (deliver_some config payload now time nonces st).2.
Proof.
  destruct payload as [payload|]; [|done]. cbn [deliver_some]. rewrite deliver_state.
  etransitivity; [apply by_webhook_told|apply by_email_told].
Qed.

Lemma attended_later (event : string) (channel : Channel) (now cooldown_secs : Z) (st st1 st2 : AlertState) :
  attended event channel now cooldown_secs st st1 -> told st1 `prefix_of` told st2 ->
  attended event channel now cooldown_secs st st2.
Proof.
  intros [Hc|[ok Hok]] [l Hl]; [by left|]. right. exists ok. rewrite Hl. apply elem_of_app. by left.
Qed.

Lemma delivering_attends (event : string) (channel : Channel) (now cooldown_secs : Z) (ok : bool) (m : Mail) (w : Outside)
    (st st0 : AlertState) :
  attended event channel now cooldown_secs st0 (delivering event channel now ok m w st).
Proof. right. exists ok. rewrite delivering_told. apply elem_of_app. right. by left. Qed.

Lemma cooling_attends (gap : Z) (event : string) (channel : Channel) (now cooldown_secs : Z) (st st' : AlertState) :
  alerts_inv gap st -> is_cooling_down (delivered st) (cooldown_key event channel) now cooldown_secs = true ->
  attended event channel now cooldown_secs st st'.
Proof.
  intros (_ & _ & Hback). unfold is_cooling_down. destruct (delivered st !! _) as [last|] eqn:Hl; [|done]. intros Hc.
  apply Hback in Hl as (e & c & Hk & Hin). apply cooldown_key_inj in Hk as [<- <-]. left. exists last. split; [done|]. lia.
Qed.

(** A channel's cooldown is its own. *)
Lemma by_webhook_keeps_mailbox (cooldown_secs : Z) (config : AlertConfig.t) (payload : AlertPayload) (now secs : Z)
    (st : AlertState) (event : string) :
  is_cooling_down (delivered (by_webhook cooldown_secs config payload now st).2) (cooldown_key event Mailbox) now secs =
  is_cooling_down (delivered st) (cooldown_key event Mailbox) now secs.
Proof.
  destruct (by_webhook_cases cooldown_secs config payload now st) as [[-> _]|(_ & ok & m & w & ->)]; [done|].
  unfold delivering, is_cooling_down. destruct ok; [|done]. cbn [delivered mark_delivered].
  rewrite lookup_insert_ne; [done|]. intros [_ E]%cooldown_key_inj. discriminate E.
Qed.

(** The channels that are set up attend to every event that is delivered. *)
Lemma deliver_attends (gap : Z) (cooldown_secs : Z) (config : AlertConfig.t) (payload : AlertPayload) (now time : Z)
    (nonces : string * string) (st : AlertState) :
  alerts_inv gap st ->
  let st' := (deliver cooldown_secs config payload now time nonces st).2 in
  (AlertConfig.webhook_url config <> "" -> attended (al_event payload) Webhook now cooldown_secs st st') /\
  (AlertConfig.email_enabled config = true -> AlertConfig.email_recipients config <> [] ->
   attended (al_event payload) Mailbox now cooldown_secs st st').
Proof.
  intros Hst. cbv zeta. rewrite deliver_state. split.
  - intros Hu. eapply attended_later; [|apply by_email_told].
    destruct (by_webhook_cases cooldown_secs config payload now st) as [[-> [?|Hc]]|(_ & ok & m & w & ->)]; [done| |].
    + by eapply cooling_attends.
    + apply delivering_attends.
  - intros Hon Hrec. set (st1 := (by_webhook cooldown_secs config payload now st).2).
    destruct (by_email_cases cooldown_secs config payload now time nonces st1) as [[-> [?|[?|Hc]]]|(_ & ok & m & w & ->)];
      [congruence|done| |apply delivering_attends].
    unfold st1 in Hc. rewrite by_webhook_keeps_mailbox in Hc. by eapply cooling_attends.
Qed.

(** C16: However the clock moves, and while settings change, what one channel
    was told successfully of one event (a POST answered without an error, a
    batch of messages queued whole) is spaced by the shortest cooldown that was
    configured; a POST that failed and a batch that was cut off are tried again
    at the next evaluation.  And alerts are not lost: while the traffic is over
    its threshold, every evaluation either finds that a channel was told of it
    within its cooldown, or tells it. *)
Theorem alerts_are_spaced (gap : Z) (readings : list Reading) (m : Mail) (w : Outside) :
  (0 < gap)%Z ->
  Forall (fun rd => (gap <= AlertConfig.cooldown_secs (Config.alerts (rd_config rd)) * 1000000000)%Z) readings ->
  let st := run_alerts readings {| delivered := ∅; mail := m; outside := w; told := [] |} in
  spaced gap (told st) /\
  forall rd, let alerts := Config.alerts (rd_config rd) in
    AlertConfig.enabled alerts = true ->
    is_Some (quota_alert (rd_config rd) (as_u64 (rd_month_bytes rd)) (rd_time rd)) ->
    (AlertConfig.webhook_url alerts <> "" ->
     attended "quota_threshold" Webhook (rd_instants rd).1 (AlertConfig.cooldown_secs alerts) st (evaluate rd st).2) /\
    (AlertConfig.email_enabled alerts = true -> AlertConfig.email_recipients alerts <> [] ->
     attended "quota_threshold" Mailbox (rd_instants rd).1 (AlertConfig.cooldown_secs alerts) st (evaluate rd st).2).
Proof.
  intros Hgap Hall st.
  assert (Hst : alerts_inv gap st).
  { apply (run_alerts_inv gap readings); [done|done|].
    split_and!; [by intros [|i] j e c t t' _ Hi|by intros e c t ?%elem_of_nil|intros k last Hl; cbn in Hl; by rewrite lookup_empty in Hl]. }
  split; [apply Hst|]. intros rd alerts Hon [payload Hq].
  assert (He : al_event payload = "quota_threshold") by (unfold quota_alert in Hq; case_match; by simplify_eq).
  assert (Hend : told (deliver_some (rd_config rd) (Some payload) (rd_instants rd).1 (rd_time rd) (rd_nonces rd).1 st).2
    `prefix_of` told (evaluate rd st).2).
  { unfold evaluate. fold alerts. rewrite Hon, Hq. cbn [negb].
    destruct (deliver_some _ _ _ _ _ st) as [[u|e] st1]; [apply deliver_some_told|done]. }
  destruct (deliver_attends gap (AlertConfig.cooldown_secs alerts) alerts payload (rd_instants rd).1 (rd_time rd)
    (rd_nonces rd).1 st Hst) as [Hw Hm]. rewrite He in Hw, Hm.
  split; [intros Hu|intros He1 He2]; (eapply attended_later; [|exact Hend]); [by apply Hw|by apply Hm].
Qed.

(** A delivery of a quota alert that fails is the end of the evaluation: the
    health of the upstreams is not looked at. *)
Theorem failed_quota_alert_ends_evaluation (rd : Reading) (payload : AlertPayload) (e : string) (st st' : AlertState) :
  AlertConfig.enabled (Config.alerts (rd_config rd)) = true ->
  quota_alert (rd_config rd) (as_u64 (rd_month_bytes rd)) (rd_time rd) = Some payload ->
  deliver (AlertConfig.cooldown_secs (Config.alerts (rd_config rd))) (Config.alerts (rd_config rd)) payload
    (rd_instants rd).1 (rd_time rd) (rd_nonces rd).1 st = (Err e, st') ->
  evaluate rd st = (Err e, st').
Proof. intros Hon Hq Hd. unfold evaluate. rewrite Hon, Hq. cbn [negb deliver_some]. by rewrite Hd. Qed.
End Alerts.

(** *** Examples *)

Module Example.

(** A webhook that refuses a payload, and one that takes it. *)
#[local] Instance webhook : AlertWorld :=
  {| Outside := list Z;
     post_alert _ _ w := match w with [] => (Err "connection refused", []) | status :: w => (Ok status, w) end;
     status_error status := "HTTP status " +:+ show_uint status |}.

Definition operators : AlertConfig.t :=
  {| AlertConfig.enabled := true; AlertConfig.webhook_url := "https://hooks.example"; AlertConfig.email_enabled := true;
     AlertConfig.email_recipients := ["ops@example.com"]; AlertConfig.quota_percent := 80;
     AlertConfig.source_failures := 1; AlertConfig.cooldown_secs := 3600 |}.

Definition limits : QuotaConfig.t :=
  {| QuotaConfig.enabled := true; QuotaConfig.bidirectional_accounting := false; QuotaConfig.monthly_gb := 1;
     QuotaConfig.timezone := "UTC"; QuotaConfig.on_exceeded := QuotaConfig.on_exceeded QuotaConfig.default;
     QuotaConfig.request_event_retention_days := 30; QuotaConfig.default_user_monthly_gb := None |}.

Definition watched (c : Config.t) : Config.t :=
  Config.Build_t (Config.database_path c) (Config.listen_addr c) (Config.management c) (Config.metrics c)
    (Config.public_base_url c) (Config.site c) (Config.trusted_proxies c) (Config.enabled_proxies c)
    (Config.upstreams c) (Config.oci_token_issuers c) (Config.timeout c) (Config.upstream_selection c)
    (Config.rate_limit c) (Config.cache c) (Config.geoip c) (Config.acme c) limits
    (Config.download c) operators (Config.user_access c) (Config.registration c) (Config.webauthn c)
    (Config.outbound_proxy c) (Config.upstream_tls c) (Config.forward_client_authorization c)
    (Config.upstream_auth c).

(** A minute in nanoseconds, and an evaluation at one with some traffic and an
    unhealthy source. *)
Definition minute : Z := 60000000000.

Definition at_minute (bytes n : Z) : Reading :=
  {| rd_config := watched Config.default; rd_month_bytes := bytes;
     rd_health := (replace_source_health [failed_record (get_probe "npm" "npm" "/npm/is-number") 0 "e"] empty_tables).2;
     rd_instants := (n * minute, n * minute)%Z; rd_time := (n * 60)%Z;
     rd_nonces := ((sample_nonce, sample_nonce), (sample_nonce, sample_nonce)) |}.

Definition operator_mail : Mail := with_smtp enabled_smtp sample_mail.

Definition alerted (readings : list Reading) (answers : list Z) : AlertState :=
  run_alerts None readings {| delivered := ∅; mail := operator_mail; outside := answers; told := [] |}.

(** Only the source is bad: both channels are told, and told again after an
    hour. *)
Definition bad_source : list Reading := at_minute 0 <$> [0; 1; 59; 60]%Z.

Lemma bad_source_told :
  told (alerted bad_source [200; 200]%Z) =
  [("upstream_health", Webhook, 0, true); ("upstream_health", Mailbox, 0, true);
   ("upstream_health", Webhook, 60 * minute, true); ("upstream_health", Mailbox, 60 * minute, true)]%Z.
Proof. vm_compute. reflexivity. Qed.

(** After an hour of it the traffic is over its threshold too, and the webhook
    is down: it is asked all the same. *)
Lemma alerts_are_spaced_witness :
  spaced (60 * minute) (told (alerted bad_source [200; 200]%Z)) /\
  attended "quota_threshold" Webhook (61 * minute) 3600 (alerted bad_source [200; 200]%Z)
    (evaluate None (at_minute 1000000000 61) (alerted bad_source [200; 200]%Z)).2.
Proof.
  pose proof (alerts_are_spaced None (60 * minute) bad_source operator_mail [200; 200]%Z) as Hs.
  destruct Hs as [Hs Ha]; [done|repeat (constructor; [done|]); constructor|]. split; [exact Hs|].
  refine (proj1 (Ha (at_minute 1000000000 61) _ _) _); [reflexivity| |done].
  vm_compute. by eexists.
Defined.

(** The webhook is down and the traffic over its threshold: the failing source
    is reported by no channel, although email works. *)
Lemma broken_webhook_hides_sources :
  told (alerted (at_minute 1000000000 <$> [0; 1; 59; 60]%Z) [500; 500; 500; 500; 500; 500]%Z) =
  [("quota_threshold", Webhook, 0, false); ("quota_threshold", Mailbox, 0, true);
   ("quota_threshold", Webhook, minute, false); ("quota_threshold", Webhook, 59 * minute, false);
   ("quota_threshold", Webhook, 60 * minute, false); ("quota_threshold", Mailbox, 60 * minute, true)]%Z.
Proof. vm_compute. reflexivity. Qed.

Lemma failed_quota_alert_ends_evaluation_witness :
  (evaluate None (at_minute 1000000000 0) {| delivered := ∅; mail := operator_mail; outside := [500]%Z; told := [] |}).1 =
  Err "webhook: HTTP status 500".
Proof.
  eapply (f_equal fst (x := evaluate _ _ _) (y := (_, _))).
  eapply failed_quota_alert_ends_evaluation; [reflexivity|vm_compute; reflexivity|vm_compute; reflexivity].
Defined.
End Example.
