(* ===== verification/AcmeDns.v ===== *)
(** * Providers of DNS records

    [acme_dns.rs]: the records an ACME challenge needs, made and removed through
    the interfaces of Cloudflare, Alibaba Cloud, DNSPod, Route 53 or a webhook.
    HTTP, time formats, digests and the tokens of XML are third-party code. *)
From stdpp Require Import gmap.
From S2P Require Import Prelude RustStr Lines Headers Url Json Config Quota Users Upstreams Fs Cache CacheCodec.
From S2P Require Import Selector Redirect Forward Requests.
Open Scope string_scope.
Open Scope list_scope.
Open Scope mirror_scope.

(** [DnsRecordHandle]. *)
Record DnsRecordHandle : Type := { dh_name : string; dh_value : string; dh_provider_id : option string }.

(** A request as the code builds it; [dr_query] and [dr_json] are encoded by
    the crate. *)
Record DnsRequest : Type := {
  dr_method : string;
  dr_url : string;
  dr_query : list (string * string);
  dr_headers : list (string * string);
  dr_json : option Value;
  dr_body : option string;
}.

(** The events of [quick_xml] with trimmed text; a text that cannot be decoded
    is [None]. *)
Inductive XmlEvent : Type :=
| XmlStart (name : string)
| XmlText (text : option string)
| XmlEnd (name : string)
| XmlOther.

(** A response is its status and its body, [None] when that cannot be read. *)
Class DnsApi `{JsonApi} `{CsrfApi} `{SecretApi} : Type := {
  DnsNet : Type;
  dns_send : DnsRequest -> DnsNet -> result (Z * option string) string * DnsNet;
  dns_uuid : DnsNet -> string * DnsNet;
  dns_now : DnsNet -> Z;
  format_time : string -> Z -> string;
  (** [DateTime::from_timestamp] as a date *)
  date_of_timestamp : Z -> option string;
  hmac_sha1 : string -> string -> string;
  (** a status with its reason *)
  status_text : Z -> string;
  base64_standard : string -> string;
  (** up to the first error, which ends the list *)
  xml_events : string -> list (result XmlEvent string);
}.

(** [trait DnsProvider]. *)
Record DnsProvider `{DnsApi} : Type := {
  present : string -> string -> DnsNet -> result DnsRecordHandle string * DnsNet;
  cleanup : DnsRecordHandle -> DnsNet -> result unit string * DnsNet;
}.

(** ** Texts *)

Definition ensure_trailing_dot (value : string) : string := trim_end_matches "." value +:+ ".".

Definition relative_record_name (name zone : string) : result string string :=
  let name := trim_end_matches "." name in
  let zone := trim_end_matches "." zone in
  if (name =? zone)%string then Ok "@"
  else match strip_suffix ("." +:+ zone) name with
       | Some value => if str_is_empty value then Err ("DNS record " +:+ name +:+ " is outside configured zone " +:+ zone) else Ok value
       | None => Err ("DNS record " +:+ name +:+ " is outside configured zone " +:+ zone)
       end.

(** [str::trim_start_matches] with a text. *)
Definition strip_all (prefix s : string) : string :=
  Nat.iter (String.length s) (fun s => default s (strip_prefix prefix s)) s.

(** Letters, digits and [-_.~] stay. *)
Definition unreserved (c : ascii) : bool :=
  is_ascii_alphanumeric c || Ascii.eqb c "-" || Ascii.eqb c "_" || Ascii.eqb c "." || Ascii.eqb c "~".

Definition percent_encode (value : string) : string := Url.percent_encode unreserved value.

Definition canonical_query (parameters : list (string * string)) : string :=
  str_join "&" ((fun kv => percent_encode kv.1 +:+ "=" +:+ percent_encode kv.2) <$> parameters).

(** The quotation mark. *)
Definition quote : ascii := ascii_of_nat 34.

Definition quot_entity : string := "&quot;".

Definition xml_escape (value : string) : string :=
  str_replace "'" "&apos;" (str_replace dq quot_entity (str_replace ">" "&gt;" (str_replace "<" "&lt;" (str_replace "&" "&amp;" value)))).

(** [value.get(..512).unwrap_or(value)]. *)
Definition bounded (value : string) : string :=
  match String.get 512 value with
  | Some c => if in_range 128 191 c then value else String.substring 0 512 value
  | None => if (String.length value =? 512)%nat then String.substring 0 512 value else value
  end.

Definition success (status : Z) : bool := ((200 <=? status) && (status <? 300))%Z.

(** The name and value of a line feed in the texts that are signed. *)
Definition lf : string := String (ascii_of_nat 10) "".

Definition lines_of (l : list string) : string := str_join lf l.

Section Providers.
Context `{DnsApi}.
Variable config : AcmeDnsConfig.t.

Definition call (A : Type) : Type := DnsNet -> result A string * DnsNet.

Definition give {A} (r : result A string) : call A := fun w => (r, w).
Definition and_then {A B} (x : call A) (k : A -> call B) : call B := fun w =>
  match x w with (Ok a, w) => k a w | (Err e, w) => (Err e, w) end.
Definition with_context {A} (message : string) (x : call A) : call A := fun w =>
  match x w with (Ok a, w) => (Ok a, w) | (Err _, w) => (Err message, w) end.

Notation "'try!' x ':=' m 'in' k" := (and_then m (fun x => k)) (at level 200, x pattern, m at level 100, k at level 200).

Definition send (request : DnsRequest) : call (Z * option string) := dns_send request.

Definition bare (method url : string) : DnsRequest :=
  {| dr_method := method; dr_url := url; dr_query := []; dr_headers := []; dr_json := None; dr_body := None |}.
Definition add_headers (l : list (string * string)) (r : DnsRequest) : DnsRequest :=
  {| dr_method := dr_method r; dr_url := dr_url r; dr_query := dr_query r; dr_headers := dr_headers r ++ l;
     dr_json := dr_json r; dr_body := dr_body r |}.
Definition set_json (v : Value) (r : DnsRequest) : DnsRequest :=
  {| dr_method := dr_method r; dr_url := dr_url r; dr_query := dr_query r; dr_headers := dr_headers r;
     dr_json := Some v; dr_body := dr_body r |}.
Definition set_body (b : string) (r : DnsRequest) : DnsRequest :=
  {| dr_method := dr_method r; dr_url := dr_url r; dr_query := dr_query r; dr_headers := dr_headers r;
     dr_json := dr_json r; dr_body := Some b |}.
Definition set_query (q : list (string * string)) (r : DnsRequest) : DnsRequest :=
  {| dr_method := dr_method r; dr_url := dr_url r; dr_query := q; dr_headers := dr_headers r;
     dr_json := dr_json r; dr_body := dr_body r |}.

(** [response.json()]. *)
Definition response_json (response : Z * option string) : option Value := response.2 ≫= json_from_slice.

(** *** Cloudflare *)

Record CloudflareRecord : Type := { cf_id : string; cf_content : string }.
Record CloudflareError : Type := { cf_code : Z; cf_message : string }.
Record CloudflareResponse (A : Type) : Type := {
  cf_success : bool;
  cf_result : option A;
  cf_errors : list CloudflareError;
}.
Arguments cf_success {A}. Arguments cf_result {A}. Arguments cf_errors {A}.

(** A field with [#[serde(default)]]. *)
Definition field_or {A} (read : Value -> option A) (d : A) (v : Value) (key : string) : option A :=
  match json_get v key with Some x => read x | None => Some d end.

Definition read_record (v : Value) : option CloudflareRecord :=
  id ← json_get v "id" ≫= as_str; content ← field_or as_str "" v "content";
  Some {| cf_id := id; cf_content := content |}.

Definition read_u64 (v : Value) : option Z := match v with Number text => parse_digits U64_MAX 0 text | _ => None end.

Definition read_error (v : Value) : option CloudflareError :=
  match v with
  | Object _ =>
      code ← field_or read_u64 0%Z v "code"; message ← field_or as_str "" v "message";
      Some {| cf_code := code; cf_message := message |}
  | _ => None
  end.

Definition read_list {A} (read : Value -> option A) (v : Value) : option (list A) :=
  match v with Array items => mapM read items | _ => None end.

(** [Option<T>]: missing or [null] is [None]. *)
Definition read_optional {A} (read : Value -> option A) (v : option Value) : option (option A) :=
  match v with
  | None | Some Null => Some None
  | Some x => Some <$> read x
  end.

Definition read_response {A} (read : Value -> option A) (v : Value) : option (CloudflareResponse A) :=
  success ← json_get v "success" ≫= (fun b => match b with Bool b => Some b | _ => None end);
  found ← read_optional read (json_get v "result");
  errors ← field_or (read_list read_error) [] v "errors";
  Some {| cf_success := success; cf_result := found; cf_errors := errors |}.

Definition cloudflare_auth (request : DnsRequest) : DnsRequest :=
  if negb (str_is_empty (AcmeDnsConfig.cloudflare_api_token config))
  then add_headers [("authorization", "Bearer " +:+ AcmeDnsConfig.cloudflare_api_token config)] request
  else add_headers [("X-Auth-Email", AcmeDnsConfig.cloudflare_email config);
                    ("X-Auth-Key", AcmeDnsConfig.cloudflare_api_key config)] request.

Definition cloudflare_records : string :=
  "https://api.cloudflare.com/client/v4/zones/" +:+ AcmeDnsConfig.cloudflare_zone_id config +:+ "/dns_records".

Definition find_txt_record (name value : string) : call (option string) :=
  try! response := with_context "Cloudflare DNS record lookup failed"
    (send (set_query [("type", "TXT"); ("name", name)] (cloudflare_auth (bare "GET" cloudflare_records)))) in
  match response_json response ≫= read_response (read_list read_record) with
  | None => give (Err "Cloudflare returned an invalid record lookup response")
  | Some body =>
      if negb (success response.1) || negb (cf_success body)
      then give (Err ("Cloudflare DNS record lookup returned " +:+ status_text response.1))
      else give (Ok (cf_id <$> find_first (fun r => (cf_content r =? value)%string) (default [] (cf_result body))))
  end.

Definition already_exists (e : CloudflareError) : bool :=
  (cf_code e =? 81058)%Z || contains_str "already exists" (to_ascii_lowercase (cf_message e)).

Definition handle (name value : string) (id : option string) : DnsRecordHandle :=
  {| dh_name := name; dh_value := value; dh_provider_id := id |}.

Definition cloudflare_present (name value : string) : call DnsRecordHandle :=
  try! response := with_context "Cloudflare DNS record creation failed"
    (send (set_json (Object [("type", Str "TXT"); ("name", Str name); ("content", Str value); ("ttl", Number "120")])
      (cloudflare_auth (bare "POST" cloudflare_records)))) in
  match response_json response ≫= read_response read_record with
  | None => give (Err "Cloudflare returned an invalid response")
  | Some body =>
      if success response.1 && cf_success body then
        match cf_result body with
        | None => give (Err "Cloudflare omitted the DNS record ID")
        | Some r => give (Ok (handle name value (Some ("created:" +:+ cf_id r))))
        end
      else if existsb already_exists (cf_errors body) then
        try! found := find_txt_record name value in
        match found with
        | None => give (Err "Cloudflare reported an existing TXT record but did not return it")
        | Some id => give (Ok (handle name value (Some ("existing:" +:+ id))))
        end
      else give (Err ("Cloudflare rejected the DNS record: " +:+ str_join ", " (cf_message <$> cf_errors body)))
  end.

Definition cloudflare_cleanup (record : DnsRecordHandle) : call unit :=
  match dh_provider_id record with
  | None => give (Err "Cloudflare DNS record ID is missing")
  | Some id =>
      match strip_prefix "created:" id with
      | None => give (Ok tt)
      | Some id =>
          try! response := send (cloudflare_auth (bare "DELETE" (cloudflare_records +:+ "/" +:+ id))) in
          if success response.1 then give (Ok tt) else give (Err ("Cloudflare DNS cleanup returned " +:+ status_text response.1))
      end
  end.

(** *** Alibaba Cloud *)

Definition aliyun_signature (parameters : list (string * string)) (secret : string) : string :=
  base64_standard (hmac_sha1 (secret +:+ "&") ("GET&%2F&" +:+ percent_encode (canonical_query parameters))).

Definition aliyun_parameters (action nonce timestamp : string) (values : list (string * string)) : list (string * string) :=
  let parameters :=
    foldl (fun m kv => btree_insert kv.1 kv.2 m) []
      ([("AccessKeyId", AcmeDnsConfig.aliyun_access_key_id config); ("Action", action); ("Format", "JSON");
        ("SignatureMethod", "HMAC-SHA1"); ("SignatureNonce", nonce); ("SignatureVersion", "1.0");
        ("Timestamp", timestamp); ("Version", "2015-01-09")] ++ values) in
  btree_insert "Signature" (aliyun_signature parameters (AcmeDnsConfig.aliyun_access_key_secret config)) parameters.

Definition message_or (d : string) (v : option Value) : string := default d (v ≫= as_str).

Definition aliyun_request (action : string) (values : list (string * string)) : call Value := fun w =>
  let '(nonce, w) := dns_uuid w in
  let timestamp := format_time "%Y-%m-%dT%H:%M:%SZ" (dns_now w) in
  (try! response := with_context "Alibaba Cloud DNS request failed"
     (send (bare "GET" ("https://alidns.aliyuncs.com/?" +:+ canonical_query (aliyun_parameters action nonce timestamp values)))) in
   match response_json response with
   | None => give (Err "Alibaba Cloud DNS returned invalid JSON")
   | Some body =>
       if negb (success response.1) || bool_decide (is_Some (json_get body "Code"))
       then give (Err ("Alibaba Cloud DNS rejected " +:+ action +:+ ": " +:+ message_or "unknown API error" (json_get body "Message")))
       else give (Ok body)
   end) w.

Definition aliyun_present (name value : string) : call DnsRecordHandle :=
  match relative_record_name name (AcmeDnsConfig.aliyun_domain config) with
  | Err e => give (Err e)
  | Ok rr =>
      try! body := aliyun_request "AddDomainRecord"
        [("DomainName", AcmeDnsConfig.aliyun_domain config); ("RR", rr); ("Type", "TXT"); ("Value", value); ("TTL", "600")] in
      match json_get body "RecordId" ≫= as_str with
      | None => give (Err "Alibaba Cloud DNS omitted RecordId")
      | Some id => give (Ok (handle name value (Some id)))
      end
  end.

Definition aliyun_cleanup (record : DnsRecordHandle) : call unit :=
  match dh_provider_id record with
  | None => give (Err "Alibaba Cloud DNS record ID is missing")
  | Some id => try! _ := aliyun_request "DeleteDomainRecord" [("RecordId", id)] in give (Ok tt)
  end.

(** *** DNSPod *)

Definition tencent_authorization (secret_id secret_key payload : string) (timestamp : Z) : result string string :=
  match date_of_timestamp timestamp with
  | None => Err "invalid Tencent request timestamp"
  | Some date =>
      let canonical_headers := "content-type:application/json; charset=utf-8" +:+ lf +:+ "host:dnspod.tencentcloudapi.com" +:+ lf in
      let signed_headers := "content-type;host" in
      let canonical_request := lines_of ["POST"; "/"; ""; canonical_headers; signed_headers; sha256_hex payload] in
      let scope := date +:+ "/dnspod/tc3_request" in
      let string_to_sign := lines_of ["TC3-HMAC-SHA256"; show_uint timestamp; scope; sha256_hex canonical_request] in
      let secret_date := hmac_sha256 ("TC3" +:+ secret_key) date in
      let secret_service := hmac_sha256 secret_date "dnspod" in
      let secret_signing := hmac_sha256 secret_service "tc3_request" in
      let signature := hex_encode (hmac_sha256 secret_signing string_to_sign) in
      Ok ("TC3-HMAC-SHA256 Credential=" +:+ secret_id +:+ "/" +:+ scope +:+ ", SignedHeaders=" +:+ signed_headers
          +:+ ", Signature=" +:+ signature)
  end.

(** [Value::pointer] below ["/Response"]. *)
Definition in_response (body : Value) (key : string) : option Value := v ← json_get body "Response"; json_get v key.

Definition tencent_request (action : string) (payload : Value) : call Value := fun w =>
  match json_to_vec payload with
  | None => (Err "invalid JSON", w)
  | Some payload =>
      let timestamp := dns_now w in
      (try! authorization := give (tencent_authorization (AcmeDnsConfig.tencent_secret_id config)
         (AcmeDnsConfig.tencent_secret_key config) payload timestamp) in
       try! response := with_context "Tencent DNSPod request failed"
         (send (set_body payload (add_headers
           [("Authorization", authorization); ("Content-Type", "application/json; charset=utf-8");
            ("Host", "dnspod.tencentcloudapi.com"); ("X-TC-Action", action);
            ("X-TC-Timestamp", show_uint timestamp); ("X-TC-Version", "2021-03-23")]
           (bare "POST" "https://dnspod.tencentcloudapi.com/")))) in
       match response_json response with
       | None => give (Err "Tencent DNSPod returned invalid JSON")
       | Some body =>
           if negb (success response.1) || bool_decide (is_Some (in_response body "Error"))
           then give (Err ("Tencent DNSPod rejected " +:+ action +:+ ": "
                  +:+ message_or "unknown API error" (e ← in_response body "Error"; json_get e "Message")))
           else give (Ok body)
       end) w
  end.

(** The name of the default line, U+9ED8 U+8BA4. *)
Definition default_line : string :=
  String (ascii_of_nat 233) (String (ascii_of_nat 187) (String (ascii_of_nat 152)
    (String (ascii_of_nat 232) (String (ascii_of_nat 174) (String (ascii_of_nat 164) ""))))).

Definition record_id (v : Value) : option string :=
  match read_u64 v with Some id => Some (show_uint id) | None => as_str v end.

Definition tencent_present (name value : string) : call DnsRecordHandle :=
  match relative_record_name name (AcmeDnsConfig.tencent_domain config) with
  | Err e => give (Err e)
  | Ok subdomain =>
      try! body := tencent_request "CreateRecord"
        (Object [("Domain", Str (AcmeDnsConfig.tencent_domain config)); ("SubDomain", Str subdomain);
                 ("RecordType", Str "TXT"); ("RecordLine", Str default_line); ("Value", Str value);
                 ("TTL", Number "600")]) in
      match in_response body "RecordId" ≫= record_id with
      | None => give (Err "Tencent DNSPod omitted RecordId")
      | Some id => give (Ok (handle name value (Some id)))
      end
  end.

Definition tencent_cleanup (record : DnsRecordHandle) : call unit :=
  match dh_provider_id record with
  | None => give (Err "Tencent DNSPod record ID is missing")
  | Some id =>
      match parse_uint U64_MAX id with
      | None => give (Err "invalid digit found in string")
      | Some id =>
          try! _ := tencent_request "DeleteRecord"
            (Object [("Domain", Str (AcmeDnsConfig.tencent_domain config)); ("RecordId", Number (show_uint id))]) in
          give (Ok tt)
      end
  end.

(** *** Route 53 *)

Record Route53RecordSet : Type := { rs_ttl : Z; rs_values : list string }.

(** The variables of [parse_route53_record_set]. *)
Record ParseState : Type := {
  ps_in_set : bool;
  ps_in_record : bool;
  ps_field : string;
  ps_name : string;
  ps_type : string;
  ps_ttl : Z;
  ps_values : list string;
}.

Definition parse_start : ParseState :=
  {| ps_in_set := false; ps_in_record := false; ps_field := ""; ps_name := ""; ps_type := ""; ps_ttl := 0; ps_values := [] |}.

Definition start_field (f : string) (s : ParseState) : ParseState :=
  if (f =? "ResourceRecordSet")%string then
    {| ps_in_set := true; ps_in_record := ps_in_record s; ps_field := f; ps_name := ""; ps_type := ""; ps_ttl := 0; ps_values := [] |}
  else
    {| ps_in_set := ps_in_set s; ps_in_record := ps_in_record s || ((f =? "ResourceRecord")%string && ps_in_set s); ps_field := f;
       ps_name := ps_name s; ps_type := ps_type s; ps_ttl := ps_ttl s; ps_values := ps_values s |}.

Definition take_text (value : string) (s : ParseState) : ParseState :=
  let f := ps_field s in
  {| ps_in_set := ps_in_set s; ps_in_record := ps_in_record s; ps_field := f;
     ps_name := if (f =? "Name")%string then value else ps_name s;
     ps_type := if (f =? "Type")%string then value else ps_type s;
     ps_ttl := if (f =? "TTL")%string then default 0%Z (parse_uint U32_MAX value) else ps_ttl s;
     ps_values := if (f =? "Value")%string && ps_in_record s then ps_values s ++ [trim_matches quote value] else ps_values s |}.

Definition end_field (f : string) (s : ParseState) : ParseState :=
  {| ps_in_set := if (f =? "ResourceRecordSet")%string then false else ps_in_set s;
     ps_in_record := if (f =? "ResourceRecord")%string then false else ps_in_record s; ps_field := "";
     ps_name := ps_name s; ps_type := ps_type s; ps_ttl := ps_ttl s; ps_values := ps_values s |}.

(** The set that is complete is the one asked for. *)
Definition is_record_set (expected_name : string) (s : ParseState) : bool :=
  (ps_type s =? "TXT")%string && (trim_end_matches "." (ps_name s) =? trim_end_matches "." expected_name)%string.

Fixpoint parse_events (expected_name : string) (events : list (result XmlEvent string)) (s : ParseState) :
    result (option Route53RecordSet) string :=
  match events with
  | [] => Ok None
  | Err e :: _ => Err e
  | Ok (XmlStart f) :: events => parse_events expected_name events (start_field f s)
  | Ok (XmlText text) :: events =>
      if ps_in_set s then
        match text with
        | None => Err "invalid encoding"
        | Some value => parse_events expected_name events (take_text value s)
        end
      else parse_events expected_name events s
  | Ok (XmlEnd f) :: events =>
      if (f =? "ResourceRecordSet")%string && is_record_set expected_name s
      then Ok (Some {| rs_ttl := ps_ttl s; rs_values := ps_values s |})
      else parse_events expected_name events (end_field f s)
  | Ok XmlOther :: events => parse_events expected_name events s
  end.

Definition parse_route53_record_set (body expected_name : string) : result (option Route53RecordSet) string :=
  parse_events expected_name (xml_events body) parse_start.

Definition hosted_zone_id : string :=
  strip_all "/hostedzone/" (str_trim (AcmeDnsConfig.route53_hosted_zone_id config)).

(** The signature of version four, over the headers in their order. *)
Definition signed_request (method path query body content_type : string) : call (Z * option string) := fun w =>
  let amz_date := format_time "%Y%m%dT%H%M%SZ" (dns_now w) in
  let short_date := format_time "%Y%m%d" (dns_now w) in
  let token := AcmeDnsConfig.route53_session_token config in
  let headers :=
    foldl (fun m kv => btree_insert kv.1 kv.2 m) []
      ([("content-type", content_type); ("host", "route53.amazonaws.com"); ("x-amz-date", amz_date)]
       ++ if str_is_empty token then [] else [("x-amz-security-token", token)]) in
  let signed_headers := str_join ";" headers.*1 in
  let canonical_headers := str_join "" ((fun kv => kv.1 +:+ ":" +:+ str_trim kv.2 +:+ lf) <$> headers) in
  let canonical_request := lines_of [method; path; query; canonical_headers; signed_headers; sha256_hex body] in
  let scope := short_date +:+ "/us-east-1/route53/aws4_request" in
  let string_to_sign := lines_of ["AWS4-HMAC-SHA256"; amz_date; scope; sha256_hex canonical_request] in
  let date_key := hmac_sha256 ("AWS4" +:+ AcmeDnsConfig.route53_secret_access_key config) short_date in
  let region_key := hmac_sha256 date_key "us-east-1" in
  let service_key := hmac_sha256 region_key "route53" in
  let signing_key := hmac_sha256 service_key "aws4_request" in
  let signature := hex_encode (hmac_sha256 signing_key string_to_sign) in
  let authorization := "AWS4-HMAC-SHA256 Credential=" +:+ AcmeDnsConfig.route53_access_key_id config +:+ "/" +:+ scope
    +:+ ", SignedHeaders=" +:+ signed_headers +:+ ", Signature=" +:+ signature in
  let url := "https://route53.amazonaws.com" +:+ path +:+ if str_is_empty query then "" else "?" +:+ query in
  send (set_body body (add_headers
    ([("Authorization", authorization); ("Content-Type", content_type); ("X-Amz-Date", amz_date)]
     ++ if str_is_empty token then [] else [("X-Amz-Security-Token", token)])
    (bare method url))) w.

Definition record_sets : string := "/2013-04-01/hostedzone/" +:+ hosted_zone_id +:+ "/rrset".

Definition get_txt_record_set (name : string) : call (option Route53RecordSet) :=
  let query := "maxitems=1&name=" +:+ percent_encode (ensure_trailing_dot name) +:+ "&type=TXT" in
  try! response := signed_request "GET" record_sets query "" "application/xml" in
  match response.2 with
  | None => give (Err "error decoding response body")
  | Some body =>
      if negb (success response.1)
      then give (Err ("AWS Route53 list records returned " +:+ status_text response.1 +:+ ": " +:+ bounded body))
      else give (parse_route53_record_set body name)
  end.

Definition change_body (action name : string) (record_set : Route53RecordSet) : string :=
  let values := str_join "" ((fun value => "<ResourceRecord><Value>" +:+ quot_entity +:+ xml_escape value +:+ quot_entity
                               +:+ "</Value></ResourceRecord>") <$> rs_values record_set) in
  "<ChangeResourceRecordSetsRequest xmlns=" +:+ dq +:+ "https://route53.amazonaws.com/doc/2013-04-01/" +:+ dq
  +:+ "><ChangeBatch><Changes><Change><Action>" +:+ action +:+ "</Action><ResourceRecordSet><Name>"
  +:+ xml_escape (ensure_trailing_dot name) +:+ "</Name><Type>TXT</Type><TTL>" +:+ show_uint (rs_ttl record_set)
  +:+ "</TTL><ResourceRecords>" +:+ values
  +:+ "</ResourceRecords></ResourceRecordSet></Change></Changes></ChangeBatch></ChangeResourceRecordSetsRequest>".

Definition change_record_set (action name : string) (record_set : Route53RecordSet) : call unit :=
  try! response := signed_request "POST" record_sets "" (change_body action name record_set) "application/xml" in
  if success response.1 then give (Ok tt)
  else give (Err ("AWS Route53 " +:+ action +:+ " returned " +:+ status_text response.1 +:+ ": " +:+ bounded (default "" response.2))).

Definition has_value (value : string) (r : Route53RecordSet) : bool := existsb (fun v => (v =? value)%string) (rs_values r).

Definition route53_present (name value : string) : call DnsRecordHandle :=
  try! found := get_txt_record_set name in
  let record_set := default {| rs_ttl := 60; rs_values := [] |} found in
  if has_value value record_set then give (Ok (handle name value (Some "existing")))
  else
    try! _ := change_record_set "UPSERT" name {| rs_ttl := rs_ttl record_set; rs_values := rs_values record_set ++ [value] |} in
    give (Ok (handle name value (Some "created"))).

Definition route53_cleanup (record : DnsRecordHandle) : call unit :=
  if negb (bool_decide (dh_provider_id record = Some "created")) then give (Ok tt)
  else
    try! found := get_txt_record_set (dh_name record) in
    match found with
    | None => give (Ok tt)
    | Some current =>
        if negb (has_value (dh_value record) current) then give (Ok tt)
        else if (length (rs_values current) =? 1)%nat then change_record_set "DELETE" (dh_name record) current
        else change_record_set "UPSERT" (dh_name record)
               {| rs_ttl := rs_ttl current; rs_values := filter (fun v => v <> dh_value record) (rs_values current) |}
    end.

(** *** A webhook *)

Definition webhook_call (action name value : string) : call unit :=
  let request := set_json (Object [("action", Str action); ("record_type", Str "TXT"); ("record_name", Str name);
                                   ("value", Str value); ("ttl", Number "120")])
    (bare "POST" (AcmeDnsConfig.webhook_url config)) in
  let token := AcmeDnsConfig.webhook_bearer_token config in
  let request := if str_is_empty token then request else add_headers [("authorization", "Bearer " +:+ token)] request in
  try! response := with_context "ACME DNS webhook failed" (send request) in
  if success response.1 then give (Ok tt) else give (Err ("ACME DNS webhook returned " +:+ status_text response.1)).

Definition webhook_present (name value : string) : call DnsRecordHandle :=
  try! _ := webhook_call "present" name value in give (Ok (handle name value None)).

Definition webhook_cleanup (record : DnsRecordHandle) : call unit := webhook_call "cleanup" (dh_name record) (dh_value record).

(** *** The provider of a configuration *)

Definition build_provider : result DnsProvider string :=
  let provider := AcmeDnsConfig.provider config in
  if (provider =? "cloudflare")%string then Ok {| present := cloudflare_present; cleanup := cloudflare_cleanup |}
  else if (provider =? "aliyun")%string then Ok {| present := aliyun_present; cleanup := aliyun_cleanup |}
  else if (provider =? "tencent")%string then Ok {| present := tencent_present; cleanup := tencent_cleanup |}
  else if (provider =? "route53")%string then Ok {| present := route53_present; cleanup := route53_cleanup |}
  else if (provider =? "webhook")%string then Ok {| present := webhook_present; cleanup := webhook_cleanup |}
  else Err ("unsupported ACME DNS provider: " +:+ provider).
End Providers.
