(* ===== verification/AcmeDnsSpec.v ===== *)
(** * Theorems on the providers of DNS records *)
From stdpp Require Import gmap.
From S2P Require Import Prelude RustStr Lines Headers Url Json Config Quota Users Requests AcmeDns.
Open Scope string_scope.
Open Scope list_scope.
Open Scope mirror_scope.

(** ** Names *)

Lemma strip_suffix_Some (p s t : string) : strip_suffix p s = Some t <-> s = t +:+ p.
Proof.
  unfold strip_suffix. rewrite fmap_Some. split.
  - intros (u & Hu%strip_prefix_Some & ->). apply (f_equal String.rev) in Hu.
    by rewrite string_rev_involutive, string_rev_app, string_rev_involutive in Hu.
  - intros ->. exists (String.rev t). rewrite strip_prefix_Some, string_rev_app, string_rev_involutive. done.
Qed.

(** The name of a record below a zone is the rest of the name; names outside
    of the zone are refused. *)
Theorem relative_names_are_exact (name zone r : string) :
  let name' := trim_end_matches "." name in
  let zone' := trim_end_matches "." zone in
  relative_record_name name zone = Ok r <->
  (name' = zone' /\ r = "@") \/ (name' <> zone' /\ r <> "" /\ name' = r +:+ "." +:+ zone').
Proof.
  intros name' zone'. unfold relative_record_name. fold name' zone'. destruct (String.eqb_spec name' zone') as [Heq|Hne].
  - split; [intros [= <-]; by left|]. intros [[_ ->]|[? _]]; done.
  - destruct (strip_suffix ("." +:+ zone') name') as [v|] eqn:E.
    + apply strip_suffix_Some in E. destruct v as [|c v]; cbn [str_is_empty].
      * split; [done|]. intros [[? _]|(_ & Hr & Hn)]; [done|]. rewrite E in Hn.
        apply (f_equal (fun s => strip_suffix ("." +:+ zone') s)) in Hn.
        rewrite !(proj2 (strip_suffix_Some _ _ _) eq_refl) in Hn. congruence.
      * split; [intros [= <-]; by right|]. intros [[? _]|(_ & Hr & Hn)]; [done|]. rewrite E in Hn.
        apply (f_equal (fun s => strip_suffix ("." +:+ zone') s)) in Hn.
        rewrite !(proj2 (strip_suffix_Some _ _ _) eq_refl) in Hn. congruence.
    + split; [done|]. intros [[? _]|(_ & Hr & Hn)]; [done|]. by rewrite (proj2 (strip_suffix_Some _ _ _) Hn) in E.
Qed.

(** ** What is signed *)

Lemma byte_val_range (c : ascii) : (0 <= byte_val c < 256)%Z.
Proof. by destruct c as [[] [] [] [] [] [] [] []]. Qed.

Lemma byte_val_inj (c d : ascii) : byte_val c = byte_val d -> c = d.
Proof.
  unfold byte_val. intros Heq. rewrite <- (ascii_nat_embedding c), <- (ascii_nat_embedding d). f_equal. lia.
Qed.

Definition hex_value (c : ascii) : Z := (if byte_val c <? 58 then byte_val c - 48 else byte_val c - 55)%Z.

Lemma hex_value_digit (n : Z) : (0 <= n < 16)%Z -> hex_value (hex_digit n) = n.
Proof.
  intros Hn. destruct n as [|n|n]; [done| |lia]. do 4 (try destruct n as [n|n|]); first [done|lia].
Qed.

Lemma percent_encode_inj (a b : string) : percent_encode a = percent_encode b -> a = b.
Proof.
  unfold percent_encode. assert (Hp : unreserved "%" = false) by done.
  assert (Hhex : forall c d : ascii, hex_digit (byte_val c / 16) = hex_digit (byte_val d / 16) ->
    hex_digit (byte_val c mod 16) = hex_digit (byte_val d mod 16) -> c = d).
  { intros c d H1%(f_equal hex_value) H2%(f_equal hex_value). pose proof (byte_val_range c). pose proof (byte_val_range d).
    rewrite !hex_value_digit in H1 by (split; [apply Z.div_pos|apply Z.div_lt_upper_bound]; lia).
    rewrite !hex_value_digit in H2 by (apply Z.mod_pos_bound; lia).
    apply byte_val_inj. pose proof (Z.div_mod (byte_val c) 16). pose proof (Z.div_mod (byte_val d) 16). lia. }
  revert b. induction a as [|c a IH]; intros [|d b]; cbn [Url.percent_encode]; [done|by case_match|by case_match|].
  destruct (unreserved c) eqn:Ec, (unreserved d) eqn:Ed; intros Heq.
  - injection Heq as -> Heq. f_equal. by apply IH.
  - injection Heq as -> Heq. congruence.
  - injection Heq as <- Heq. congruence.
  - injection Heq as H1 H2 Heq. rewrite (Hhex c d H1 H2). f_equal. by apply IH.
Qed.

Lemma percent_encode_chars (x : ascii) (s : string) :
  Ascii.eqb x "&" || Ascii.eqb x "=" = true -> contains_char x (percent_encode s) = false.
Proof.
  intros Hx. apply (all_bytes_no_char (fun c => negb (Ascii.eqb c "&" || Ascii.eqb c "="))); [by rewrite Hx|].
  unfold percent_encode. induction s as [|c s IH]; [done|]. cbn [Url.percent_encode]. destruct (unreserved c) eqn:Ec.
  - cbn [all_bytes]. rewrite IH, andb_true_r. by destruct c as [[] [] [] [] [] [] [] []].
  - cbn [all_bytes]. rewrite IH. by destruct c as [[] [] [] [] [] [] [] []].
Qed.

(** The query that is signed tells any two lists of parameters apart. *)
Theorem canonical_query_inj (l l' : list (string * string)) : canonical_query l = canonical_query l' -> l = l'.
Proof.
  unfold canonical_query. set (piece := fun kv : string * string => percent_encode kv.1 +:+ "=" +:+ percent_encode kv.2).
  assert (Hpiece : forall kv kv', piece kv = piece kv' -> kv = kv').
  { intros [k v] [k' v'] Heq. unfold piece in Heq. cbn in Heq.
    apply (f_equal (split_once "=")) in Heq.
    rewrite !(proj2 (split_once_Some "=" _ _ _) (conj eq_refl (percent_encode_chars "=" _ eq_refl))) in Heq.
    injection Heq as Hk%percent_encode_inj Hv%percent_encode_inj. congruence. }
  assert (Hno : forall l, Forall (fun s => contains_char "&" s = false) (piece <$> l)).
  { intros l0. apply Forall_fmap, Forall_forall. intros [k v] _. unfold piece, compose. cbn.
    rewrite contains_char_app. cbn. by rewrite !percent_encode_chars. }
  assert (Hne : forall l, l <> [] -> str_join "&" (piece <$> l) <> "").
  { intros [|[k v] l0] Hl0; [done|]. intros Heq. apply (f_equal (contains_char "=")) in Heq. revert Heq. cbn [fmap list_fmap].
    destruct (piece <$> l0); cbn [str_join]; rewrite ?contains_char_app; unfold piece; cbn; rewrite contains_char_app; cbn;
      by rewrite !orb_true_r. }
  intros Heq. destruct l as [|p l], l' as [|p' l'].
  - done.
  - exfalso. by eapply (Hne (p' :: l')).
  - exfalso. by eapply (Hne (p :: l)).
  - apply (f_equal (str_split "&")) in Heq. rewrite !str_split_join in Heq; [|done|apply Hno|done|apply Hno].
    revert Heq. apply list_fmap_eq_inj. intros a b. apply Hpiece.
Qed.

(** ** Record sets of Route 53 *)

(** The document that lists one record set: what the service renders and the
    crate reads back. *)
Definition element (name : string) (inside : list (result XmlEvent string)) : list (result XmlEvent string) :=
  Ok (XmlStart name) :: inside ++ [Ok (XmlEnd name)].

Definition text_element (name text : string) : list (result XmlEvent string) := element name [Ok (XmlText (Some text))].

Definition quoted (value : string) : string := dq +:+ value +:+ dq.

Definition record_set_document (name type : string) (r : Route53RecordSet) : list (result XmlEvent string) :=
  element "ListResourceRecordSetsResponse"
    (element "ResourceRecordSets"
      (element "ResourceRecordSet"
        (text_element "Name" name ++ text_element "Type" type ++ text_element "TTL" (show_uint (rs_ttl r))
         ++ element "ResourceRecords"
              (flat_map (fun v => element "ResourceRecord" (text_element "Value" (quoted v))) (rs_values r))))).

Definition empty_document : list (result XmlEvent string) :=
  element "ListResourceRecordSetsResponse" (element "ResourceRecordSets" []).

(** Values without quotation marks and a TTL in range. *)
Definition plain_set (r : Route53RecordSet) : Prop :=
  (0 <= rs_ttl r <= U32_MAX)%Z /\ Forall (fun v => contains_char quote v = false) (rs_values r).

Lemma trim_end_no_char (c : ascii) (s : string) : contains_char c s = false -> trim_end_matches c s = s.
Proof.
  induction s as [|a s IH]; [done|]. cbn. intros [Ha Hs]%orb_false_iff. rewrite IH by done.
  destruct s; [|done]. by destruct (Ascii.eqb a c).
Qed.

Lemma trim_end_one (c : ascii) (s : string) : contains_char c s = false -> trim_end_matches c (s +:+ String c "") = s.
Proof.
  induction s as [|a s IH]; [cbn; by rewrite Ascii.eqb_refl|].
  cbn. intros [Ha Hs]%orb_false_iff. rewrite IH by done. destruct s; [|done]. by destruct (Ascii.eqb a c).
Qed.

Lemma trim_quoted (v : string) : contains_char quote v = false -> trim_matches quote (quoted v) = v.
Proof.
  intros Hv. unfold trim_matches, quoted. change dq with (String quote ""). cbn [String.append trim_start_matches].
  rewrite Ascii.eqb_refl. destruct v as [|a v]; [reflexivity|].
  rewrite trim_start_matches_id; [by apply trim_end_one|]. cbn in Hv |- *. apply orb_false_iff in Hv as [Ha _].
  rewrite Ascii.eqb_sym in Ha. by rewrite Ha.
Qed.

(** The state of the parser inside of a record set. *)
Definition inside (f name type : string) (ttl : Z) (values : list string) : ParseState :=
  {| ps_in_set := true; ps_in_record := false; ps_field := f; ps_name := name; ps_type := type; ps_ttl := ttl; ps_values := values |}.

Lemma parse_values (expected name type : string) (ttl : Z) (values before : list string)
    (rest : list (result XmlEvent string)) (f : string) :
  Forall (fun v => contains_char quote v = false) values ->
  exists f', parse_events expected
    (flat_map (fun v => element "ResourceRecord" (text_element "Value" (quoted v))) values ++ rest)
    (inside f name type ttl before) = parse_events expected rest (inside f' name type ttl (before ++ values)).
Proof.
  intros Hv. revert before f. induction Hv as [|v values Hv _ IH]; intros before f.
  { exists f. by rewrite app_nil_r. }
  destruct (IH (before ++ [v]) "") as [f' Hf]. exists f'. rewrite <- (assoc_L (++)) in Hf. cbn [app] in Hf.
  rewrite <- Hf. transitivity (parse_events expected
    (flat_map (fun v => element "ResourceRecord" (text_element "Value" (quoted v))) values ++ rest)
    (inside "" name type ttl (before ++ [trim_matches quote (quoted v)]))); [reflexivity|by rewrite trim_quoted].
Qed.

(** What the service lists is read back: the set asked for, and no other. *)
Lemma document_reads (expected name type : string) (r : Route53RecordSet) :
  plain_set r ->
  parse_events expected (record_set_document name type r) parse_start =
  Ok (if (type =? "TXT") && (trim_end_matches "." name =? trim_end_matches "." expected) then Some r else None).
Proof.
  intros [Httl Hv]. unfold record_set_document, text_element, element. cbn [app parse_events].
  destruct r as [ttl values]. cbn [rs_ttl rs_values] in *.
  set (records := flat_map _ values). cbn. rewrite parse_show_uint by done. cbn [default].
  rewrite <- !(assoc_L (++)).
  destruct (parse_values expected name type (id ttl) values [] (([Ok (XmlEnd "ResourceRecords")] ++ [Ok (XmlEnd "ResourceRecordSet")])
    ++ [Ok (XmlEnd "ResourceRecordSets")] ++ [Ok (XmlEnd "ListResourceRecordSetsResponse")]) "ResourceRecords" Hv) as [f' Hf].
  etransitivity; [exact Hf|]. unfold inside. cbn. unfold is_record_set. cbn. by destruct ((type =? "TXT") && _).
Qed.

(** *** Names and values of challenges *)

(** Texts of letters, digits and [-_.~], as those of challenges are. *)
Definition plain (s : string) : bool := all_bytes unreserved s.

Definition plain_records (r : Route53RecordSet) : Prop :=
  (0 <= rs_ttl r <= U32_MAX)%Z /\ rs_values r <> [] /\ Forall (fun v => plain v = true) (rs_values r).

Lemma plain_no_char (c : ascii) (s : string) : unreserved c = false -> plain s = true -> contains_char c s = false.
Proof. intros Hc. by apply all_bytes_no_char. Qed.

Lemma plain_records_set (r : Route53RecordSet) : plain_records r -> plain_set r.
Proof.
  intros (Ht & _ & Hv). split; [done|]. eapply Forall_impl; [exact Hv|]. intros v. by apply plain_no_char.
Qed.

Lemma trim_end_idem (c : ascii) (s : string) : trim_end_matches c (trim_end_matches c s) = trim_end_matches c s.
Proof.
  induction s as [|a s IH]; [done|]. cbn [trim_end_matches]. destruct (trim_end_matches c s) as [|b t] eqn:Et.
  - destruct (Ascii.eqb a c) eqn:Ea; [done|]. cbn. by rewrite Ea.
  - cbn [trim_end_matches] in IH |- *. by rewrite IH.
Qed.

Lemma trim_end_app (c : ascii) (s : string) : trim_end_matches c (s +:+ String c "") = trim_end_matches c s.
Proof.
  induction s as [|a s IH]; [cbn; by rewrite Ascii.eqb_refl|]. cbn [String.append trim_end_matches]. by rewrite IH.
Qed.

Lemma trim_dotted (name : string) : trim_end_matches "." (ensure_trailing_dot name) = trim_end_matches "." name.
Proof. unfold ensure_trailing_dot. by rewrite trim_end_app, trim_end_idem. Qed.

Lemma plain_dotted (name : string) : plain name = true -> plain (ensure_trailing_dot name) = true.
Proof.
  unfold plain, ensure_trailing_dot. intros Hn. rewrite all_bytes_app. apply andb_true_iff. split; [|done].
  destruct (trim_end_matches_decomp "." name) as [k Hk]. rewrite Hk, all_bytes_app in Hn. by apply andb_true_iff in Hn as [? _].
Qed.

(** *** A service with a zone

    What the service promises for such names and values: its list starts at the
    set asked for, or at a later one when there is none; an upsert puts a set,
    and a delete takes away the set it gives exactly. *)
Section Route53.
Context {json : JsonApi} {csrf : CsrfApi} {secret : SecretApi} {dns_api : DnsApi}.
Variable config : AcmeDnsConfig.t.

Definition rrset_url : string := "https://route53.amazonaws.com" +:+ record_sets config.

Definition list_url (n : string) : string := rrset_url +:+ "?maxitems=1&name=" +:+ percent_encode n +:+ "&type=TXT".

Class Route53Service : Type := {
  txt_records : DnsNet -> gmap string Route53RecordSet;
  lists request w name :
    let n := ensure_trailing_dot name in
    dr_method request = "GET" -> dr_url request = list_url n -> plain name = true ->
    exists body w', dns_send request w = (Ok (200%Z, Some body), w') /\ txt_records w' = txt_records w /\
      match txt_records w !! n with
      | Some r => plain_records r -> xml_events body = record_set_document n "TXT" r
      | None => xml_events body = empty_document \/
          exists n' type r, xml_events body = record_set_document n' type r /\ plain_set r /\
            (type <> "TXT" \/ trim_end_matches "." n' <> trim_end_matches "." n)
      end;
  upserts request w name r :
    dr_method request = "POST" -> dr_url request = rrset_url -> plain name = true -> plain_records r ->
    dr_body request = Some (change_body "UPSERT" name r) ->
    exists body w', dns_send request w = (Ok (200%Z, body), w') /\
      txt_records w' = <[ensure_trailing_dot name := r]> (txt_records w);
  deletes request w name r :
    dr_method request = "POST" -> dr_url request = rrset_url -> plain name = true -> plain_records r ->
    dr_body request = Some (change_body "DELETE" name r) -> txt_records w !! ensure_trailing_dot name = Some r ->
    exists body w', dns_send request w = (Ok (200%Z, body), w') /\
      txt_records w' = delete (ensure_trailing_dot name) (txt_records w);
}.

Context `{!Route53Service}.

Lemma get_lists (name : string) (w : DnsNet) :
  plain name = true ->
  (forall r, txt_records w !! ensure_trailing_dot name = Some r -> plain_records r) ->
  exists w', get_txt_record_set config name w = (Ok (txt_records w !! ensure_trailing_dot name), w') /\
    txt_records w' = txt_records w.
Proof.
  intros Hname Hset. unfold get_txt_record_set, and_then, signed_request, send.
  match goal with |- context [dns_send ?request w] =>
    destruct (lists request w name) as (body & w' & -> & Hw & Hdoc) end; [done|reflexivity|done|].
  cbn. exists w'. split; [|done]. unfold give. f_equal. unfold parse_route53_record_set.
  destruct (txt_records w !! ensure_trailing_dot name) as [r|] eqn:Er.
  - specialize (Hset r eq_refl). rewrite (Hdoc Hset), document_reads by (by apply plain_records_set).
    rewrite trim_dotted, !String.eqb_refl. done.
  - destruct Hdoc as [->|(n' & type & r & -> & Hr & Hne)]; [reflexivity|]. rewrite document_reads by done.
    destruct (String.eqb_spec type "TXT") as [->|]; [|done]. destruct Hne as [|Hne]; [done|]. rewrite trim_dotted in Hne.
    by rewrite (proj2 (String.eqb_neq _ _) Hne).
Qed.

Lemma change_upserts (name : string) (r : Route53RecordSet) (w : DnsNet) :
  plain name = true -> plain_records r ->
  exists w', change_record_set config "UPSERT" name r w = (Ok tt, w') /\
    txt_records w' = <[ensure_trailing_dot name := r]> (txt_records w).
Proof.
  intros Hname Hr. unfold change_record_set, and_then, signed_request, send.
  match goal with |- context [dns_send ?request w] =>
    destruct (upserts request w name r) as (body & w' & -> & Hw) end; [done|cbn; by rewrite str_app_nil_r|done|done|done|].
  by exists w'.
Qed.

Lemma change_deletes (name : string) (r : Route53RecordSet) (w : DnsNet) :
  plain name = true -> plain_records r -> txt_records w !! ensure_trailing_dot name = Some r ->
  exists w', change_record_set config "DELETE" name r w = (Ok tt, w') /\
    txt_records w' = delete (ensure_trailing_dot name) (txt_records w).
Proof.
  intros Hname Hr Hw. unfold change_record_set, and_then, signed_request, send.
  match goal with |- context [dns_send ?request w] =>
    destruct (deletes request w name r) as (body & w' & -> & Hw') end; [done|cbn; by rewrite str_app_nil_r|done|done|done|done|].
  by exists w'.
Qed.

Lemma has_value_iff (value : string) (r : Route53RecordSet) : has_value value r = true <-> value ∈ rs_values r.
Proof.
  unfold has_value. rewrite existsb_true_Exists, Exists_exists. split.
  - by intros (v & Hv & ->%String.eqb_eq).
  - intros Hv. exists value. by rewrite String.eqb_refl.
Qed.

Definition with_value (value : string) (r : Route53RecordSet) : Route53RecordSet :=
  {| rs_ttl := rs_ttl r; rs_values := rs_values r ++ [value] |}.

Definition created_handle (name value : string) : DnsRecordHandle := handle name value (Some "created").

Lemma with_value_plain (value : string) (r : Route53RecordSet) :
  plain value = true -> (0 <= rs_ttl r <= U32_MAX)%Z -> Forall (fun v => plain v = true) (rs_values r) ->
  plain_records (with_value value r).
Proof.
  intros Hvalue Ht Hv. split; [exact Ht|]. split; [by cbn; destruct (rs_values r)|].
  apply Forall_app. split; [done|by repeat constructor].
Qed.

(** The clean-up of a set that holds the value: an upsert of the others, or a
    delete. *)
Lemma cleanup_present (name value : string) (r : Route53RecordSet) (w : DnsNet) :
  plain name = true -> plain_records (with_value value r) -> value ∉ rs_values r ->
  txt_records w !! ensure_trailing_dot name = Some (with_value value r) ->
  exists w', route53_cleanup config (created_handle name value) w = (Ok tt, w') /\
    txt_records w' = if bool_decide (rs_values r = []) then delete (ensure_trailing_dot name) (txt_records w)
                     else <[ensure_trailing_dot name := r]> (txt_records w).
Proof.
  intros Hname Hr Hnot Hw. destruct (get_lists name w Hname) as (w1 & Hget & Hw1); [rewrite Hw; by intros r' [= <-]|].
  unfold route53_cleanup, and_then. cbn [dh_provider_id dh_name dh_value handle created_handle].
  rewrite bool_decide_eq_true_2 by done. cbn [negb]. rewrite Hget, Hw.
  rewrite (proj2 (has_value_iff value (with_value value r))) by (cbn; set_solver). cbn [negb].
  case_bool_decide as Hnil.
  - assert (length (rs_values (with_value value r)) =? 1 = true)%nat as -> by (cbn; by rewrite Hnil).
    destruct (change_deletes name (with_value value r) w1 Hname Hr) as (w2 & Hdel & Hw2); [by rewrite Hw1|].
    exists w2. by rewrite Hw2, Hw1.
  - assert (length (rs_values (with_value value r)) =? 1 = false)%nat as ->
      by (apply Nat.eqb_neq; cbn; rewrite length_app; destruct (rs_values r); [by destruct Hnil|cbn; lia]).
    assert (filter (fun v => v <> value) (rs_values (with_value value r)) = rs_values r) as ->.
    { cbn. rewrite filter_app, filter_cons_False by (by intros []). cbn. rewrite app_nil_r. clear -Hnot.
      induction (rs_values r) as [|v l IH]; [done|]. apply not_elem_of_cons in Hnot as [Hv Hl].
      rewrite filter_cons_True by congruence. by rewrite IH. }
    destruct r as [ttl values]. destruct Hr as (Ht & _ & Hv). cbn in Ht, Hv. apply Forall_app in Hv as [Hv _].
    destruct (change_upserts name {| rs_ttl := ttl; rs_values := values |} w1 Hname) as (w2 & Hup & Hw2); [done|].
    exists w2. split; [exact Hup|]. by rewrite Hw2, Hw1.
Qed.

(** C19: A challenge in a zone of Route 53: its record is there after [present],
    and [cleanup] gives back the zone as it was, with the other values and the
    TTL of a set it shared; a value that was there before stays. *)
Theorem route53_records_restored (name value : string) (w : DnsNet) :
  plain name = true -> plain value = true ->
  (forall r, txt_records w !! ensure_trailing_dot name = Some r -> plain_records r) ->
  exists record w1 w2,
    route53_present config name value w = (Ok record, w1) /\
    (exists r, txt_records w1 !! ensure_trailing_dot name = Some r /\ value ∈ rs_values r) /\
    route53_cleanup config record w1 = (Ok tt, w2) /\ txt_records w2 = txt_records w.
Proof.
  intros Hname Hvalue Hset. destruct (get_lists name w Hname Hset) as (w1 & Hget & Hw1).
  unfold route53_present, and_then. rewrite Hget. set (n := ensure_trailing_dot name) in *.
  set (old := default {| rs_ttl := 60; rs_values := [] |} (txt_records w !! n)).
  destruct (has_value value old) eqn:Ehas.
  { apply has_value_iff in Ehas. unfold old in Ehas.
    destruct (txt_records w !! n) as [r|] eqn:Er; [|by apply elem_of_nil in Ehas].
    eexists _, w1, w1. split; [done|]. rewrite Hw1. split_and!; [by exists r|done|done]. }
  assert (Hnot : value ∉ rs_values old) by (rewrite <- has_value_iff; congruence).
  assert (Hr1 : plain_records (with_value value old)).
  { apply with_value_plain; [done| |]; unfold old; destruct (txt_records w !! n) as [r|]; try done; by apply Hset. }
  destruct (change_upserts name (with_value value old) w1 Hname Hr1) as (w2 & Hup & Hw2). fold n in Hw2. rewrite Hw1 in Hw2.
  assert (Hlook : txt_records w2 !! n = Some (with_value value old)) by (rewrite Hw2; apply lookup_insert_eq).
  destruct (cleanup_present name value old w2 Hname Hr1 Hnot Hlook) as (w3 & Hclean & Hw3).
  exists (created_handle name value), w2, w3. split; [by unfold with_value in Hup; rewrite Hup|]. split; [|split; [exact Hclean|]].
  - exists (with_value value old). split; [done|]. cbn. set_solver.
  - rewrite Hw3, Hw2. fold n. unfold old. destruct (txt_records w !! n) as [r|] eqn:Er; cbn.
    + rewrite bool_decide_eq_false_2 by (by apply (Hset r eq_refl)). rewrite insert_insert_eq. by apply insert_id.
    + rewrite delete_insert_eq. by apply delete_id.
Qed.
End Route53.

(** Records that were there before are never removed. *)
Theorem existing_records_stay `{DnsApi} (config : AcmeDnsConfig.t) (name value id : string) (w : DnsNet) :
  cloudflare_cleanup config (handle name value (Some ("existing:" +:+ id))) w = (Ok tt, w) /\
  route53_cleanup config (handle name value (Some "existing")) w = (Ok tt, w).
Proof. done. Qed.

(** *** A service that reads the documents *)
Module Zone.

Lemma show_uint_plain (n : Z) : plain (show_uint n) = true.
Proof.
  unfold plain. eapply all_bytes_impl; [|apply show_uint_digits]. intros c. by destruct c as [[] [] [] [] [] [] [] []].
Qed.

Lemma replace_absent (c : ascii) (to s : string) : contains_char c s = false -> str_replace (String c "") to s = s.
Proof.
  unfold str_replace. induction s as [|a s IH]; [done|]. cbn [contains_char String.length]. intros [Ha Hs]%orb_false_iff.
  cbn. rewrite Ascii.eqb_sym, Ha. f_equal. by apply IH.
Qed.

Lemma escape_plain (s : string) : plain s = true -> xml_escape s = s.
Proof.
  intros Hs. unfold xml_escape. change dq with (String quote "").
  repeat (rewrite (replace_absent _ _ s) by (by apply plain_no_char)). done.
Qed.

Lemma encode_plain (s : string) : plain s = true -> percent_encode s = s.
Proof.
  unfold plain, percent_encode. induction s as [|c s IH]; [done|]. cbn. intros [Hc Hs]%andb_true_iff. rewrite Hc, IH; done.
Qed.

(** The elements of a document: its pieces between two [<], with the name and
    the text of each. *)
Definition elements (body : string) : list (string * string) := omap (split_once ">") (str_split "<" body).

Definition texts (tag : string) (l : list (string * string)) : list string :=
  omap (fun e => if (e.1 =? tag)%string then Some e.2 else None) l.

Definition unquote (s : string) : option string := strip_prefix quot_entity s ≫= strip_suffix quot_entity.

(** The change that a document asks for. *)
Definition decode_change (body : string) : option (string * string * Route53RecordSet) :=
  let l := elements body in
  match texts "Action" l, texts "Name" l, texts "TTL" l with
  | [action], [name], [ttl] =>
      ttl ← parse_uint U32_MAX ttl;
      values ← mapM unquote (texts "Value" l);
      Some (action, name, {| rs_ttl := ttl; rs_values := values |})
  | _, _, _ => None
  end.

Definition value_elements (v : string) : list (string * string) :=
  [("ResourceRecord", ""); ("Value", quot_entity +:+ v +:+ quot_entity); ("/Value", ""); ("/ResourceRecord", "")].

Definition change_elements (action name : string) (r : Route53RecordSet) : list (string * string) :=
  [("ChangeResourceRecordSetsRequest xmlns=" +:+ dq +:+ "https://route53.amazonaws.com/doc/2013-04-01/" +:+ dq, "");
   ("ChangeBatch", ""); ("Changes", ""); ("Change", ""); ("Action", action); ("/Action", ""); ("ResourceRecordSet", "");
   ("Name", ensure_trailing_dot name); ("/Name", ""); ("Type", "TXT"); ("/Type", ""); ("TTL", show_uint (rs_ttl r)); ("/TTL", "");
   ("ResourceRecords", "")] ++ flat_map value_elements (rs_values r) ++
  [("/ResourceRecords", ""); ("/ResourceRecordSet", ""); ("/Change", ""); ("/Changes", ""); ("/ChangeBatch", "");
   ("/ChangeResourceRecordSetsRequest", "")].

Definition rendered (e : string * string) : string := "<" +:+ e.1 +:+ ">" +:+ e.2.

Definition well_formed (e : string * string) : Prop :=
  contains_char "<" e.1 = false /\ contains_char ">" e.1 = false /\ contains_char "<" e.2 = false.

Lemma elements_rendered (l : list (string * string)) :
  Forall well_formed l -> elements (joined (rendered <$> l)) = l.
Proof.
  intros Hl. unfold elements. assert (forall p, contains_char "<" p = false ->
    str_split "<" (p +:+ joined (rendered <$> l)) = p :: ((fun e => e.1 +:+ ">" +:+ e.2) <$> l)) as Hsplit.
  { induction Hl as [|[t x] l (H1 & H2 & H3) _ IH]; intros p Hp.
    - change (joined _) with "". rewrite str_app_nil_r. by apply str_split_no_sep.
    - change (joined (rendered <$> (t, x) :: l)) with (String "<" ((t +:+ String ">" x)) +:+ joined (rendered <$> l)).
      change (?a +:+ (String ?c ?s +:+ ?k)) with (a +:+ String c (s +:+ k)). rewrite str_split_app by done.
      rewrite IH; [done|]. rewrite contains_char_app. cbn in *. by rewrite H1, H3. }
  change (joined (rendered <$> l)) with ("" +:+ joined (rendered <$> l)). rewrite Hsplit by done. cbn.
  clear Hsplit. induction Hl as [|[t x] l (H1 & H2 & H3) _ IH]; [done|]. cbn.
  rewrite (proj2 (split_once_Some ">" _ t x) (conj eq_refl H2)). by rewrite IH.
Qed.

Lemma join_nothing (l : list string) : str_join "" l = joined l.
Proof. induction l as [|a [|b l] IH]; [done|cbn; by rewrite str_app_nil_r|]. cbn in *. by rewrite IH. Qed.

Lemma values_elements (values : list string) :
  Forall (fun v => plain v = true) values ->
  joined ((fun v => "<ResourceRecord><Value>" +:+ quot_entity +:+ xml_escape v +:+ quot_entity
             +:+ "</Value></ResourceRecord>") <$> values) = joined (rendered <$> flat_map value_elements values).
Proof.
  induction 1 as [|v l Hv _ IH]; [done|]. cbn [flat_map fmap list_fmap]. rewrite fmap_app, joined_app, <- IH, escape_plain by done.
  unfold joined at 1 3. cbn. repeat (rewrite <- str_app_assoc; cbn). done.
Qed.

Lemma change_body_elements (action name : string) (r : Route53RecordSet) :
  plain name = true -> plain_records r ->
  change_body action name r = joined (rendered <$> change_elements action name r).
Proof.
  intros Hn (_ & _ & Hv). unfold change_body, change_elements. rewrite escape_plain by (by apply plain_dotted).
  rewrite join_nothing, values_elements, !fmap_app, !joined_app by done.
  set (V := joined (rendered <$> flat_map _ _)). cbn [fmap list_fmap joined foldr]. unfold rendered. cbn [fst snd].
  repeat (rewrite <- str_app_assoc; cbn). done.
Qed.

Lemma values_read (values : list string) :
  Forall (fun v => plain v = true) values ->
  Forall well_formed (flat_map value_elements values) /\
  texts "Action" (flat_map value_elements values) = [] /\ texts "Name" (flat_map value_elements values) = [] /\
  texts "TTL" (flat_map value_elements values) = [] /\ mapM unquote (texts "Value" (flat_map value_elements values)) = Some values.
Proof.
  induction 1 as [|v l Hv _ (IH1 & IH2 & IH3 & IH4 & IH5)]; [done|]. cbn [flat_map value_elements app]. split_and!; try done.
  - repeat apply Forall_cons_2; try done. split_and!; [done..|]. cbn. rewrite contains_char_app.
    by rewrite (plain_no_char "<" v) by done.
  - change (texts "Value" _) with ((quot_entity +:+ v +:+ quot_entity) :: texts "Value" (flat_map value_elements l)).
    cbn [mapM]. assert (unquote (quot_entity +:+ v +:+ quot_entity) = Some v) as ->; [|by rewrite IH5].
    unfold unquote. rewrite (proj2 (strip_prefix_Some _ _ _) eq_refl). by apply strip_suffix_Some.
Qed.

Lemma texts_app (tag : string) (a b : list (string * string)) : texts tag (a ++ b) = texts tag a ++ texts tag b.
Proof. apply omap_app. Qed.

Lemma change_decodes (action name : string) (r : Route53RecordSet) :
  plain action = true -> plain name = true -> plain_records r ->
  decode_change (change_body action name r) = Some (action, ensure_trailing_dot name, r).
Proof.
  intros Ha Hn Hr. rewrite change_body_elements by done. destruct Hr as (Ht & _ & Hv).
  destruct (values_read (rs_values r) Hv) as (H1 & H2 & H3 & H4 & H5). unfold decode_change. rewrite elements_rendered.
  - unfold change_elements. rewrite !texts_app, H2, H3, H4. cbn. rewrite app_nil_r, parse_show_uint by done. cbn.
    rewrite H5. by destruct r.
  - unfold change_elements. apply Forall_app; split; [|apply Forall_app; split; [done|by repeat apply Forall_cons_2]].
    repeat apply Forall_cons_2; try done; (split_and!; [done..|]); cbn [snd]; apply plain_no_char; try done.
    + by apply plain_dotted.
    + apply show_uint_plain.
Qed.

#[local] Instance no_json : JsonApi := {| json_from_slice _ := None; json_to_vec _ := None |}.
#[local] Instance plain_csrf : CsrfApi :=
  {| hmac_sha256 k v := k +:+ v; hex_encode s := s; hex_decode s := Some s; authority_parse s := Some (s, None) |}.

Definition sample : AcmeDnsConfig.t :=
  {| AcmeDnsConfig.provider := "route53"; AcmeDnsConfig.cloudflare_zone_id := ""; AcmeDnsConfig.cloudflare_api_token := "";
     AcmeDnsConfig.cloudflare_api_key := ""; AcmeDnsConfig.cloudflare_email := ""; AcmeDnsConfig.aliyun_domain := "";
     AcmeDnsConfig.aliyun_access_key_id := ""; AcmeDnsConfig.aliyun_access_key_secret := "";
     AcmeDnsConfig.tencent_domain := ""; AcmeDnsConfig.tencent_secret_id := ""; AcmeDnsConfig.tencent_secret_key := "";
     AcmeDnsConfig.route53_hosted_zone_id := "/hostedzone/Z1"; AcmeDnsConfig.route53_access_key_id := "AKIA";
     AcmeDnsConfig.route53_secret_access_key := "SECRET"; AcmeDnsConfig.route53_session_token := "";
     AcmeDnsConfig.webhook_url := ""; AcmeDnsConfig.webhook_bearer_token := ""; AcmeDnsConfig.propagation_delay_secs := 60 |}.

Definition list_prefix : string := "https://route53.amazonaws.com/2013-04-01/hostedzone/Z1/rrset?maxitems=1&name=".

#[local] Instance record_set_eq_dec : EqDecision Route53RecordSet.
Proof. solve_decision. Defined.

(** A listing is the change that would make it. *)
Definition answer (request : DnsRequest) (zone : gmap string Route53RecordSet) :
    result (Z * option string) string * gmap string Route53RecordSet :=
  if (dr_method request =? "GET")%string then
    match strip_prefix list_prefix (dr_url request) ≫= strip_suffix "&type=TXT" with
    | Some n => (Ok (200%Z, Some match zone !! n with Some r => change_body "LIST" n r | None => "" end), zone)
    | None => (Ok (404%Z, None), zone)
    end
  else
    match dr_body request ≫= decode_change with
    | Some (action, n, r) =>
        if (action =? "UPSERT")%string then (Ok (200%Z, None), <[n := r]> zone)
        else if bool_decide (zone !! n = Some r) then (Ok (200%Z, None), delete n zone)
        else (Ok (400%Z, None), zone)
    | None => (Ok (400%Z, None), zone)
    end.

Definition read_document (body : string) : list (result XmlEvent string) :=
  match decode_change body with Some (_, n, r) => record_set_document n "TXT" r | None => empty_document end.

#[local] Instance zone_api : DnsApi :=
  {| DnsNet := gmap string Route53RecordSet; dns_send := answer; dns_uuid zone := ("uuid", zone); dns_now _ := 0;
     format_time _ _ := "20260101"; date_of_timestamp _ := None; hmac_sha1 k v := k +:+ v; status_text := show_uint; base64_standard s := s;
     xml_events := read_document |}.

Lemma dotted_idem (name : string) : ensure_trailing_dot (ensure_trailing_dot name) = ensure_trailing_dot name.
Proof. unfold ensure_trailing_dot at 1. by rewrite trim_dotted. Qed.

#[local] Program Instance zone_service : Route53Service sample := {| txt_records zone := (zone : gmap string Route53RecordSet) |}.
Next Obligation.
  intros request w name n Hm Hurl Hname. cbn. unfold answer. rewrite Hm, Hurl. unfold list_url.
  rewrite encode_plain by (by apply plain_dotted). change (rrset_url sample +:+ "?maxitems=1&name=" +:+ ?s) with (list_prefix +:+ s).
  rewrite (proj2 (strip_prefix_Some _ _ _) eq_refl). cbn [mbind option_bind].
  rewrite (proj2 (strip_suffix_Some _ (ensure_trailing_dot name +:+ _) _) eq_refl).
  eexists _, w. split; [done|]. split; [done|]. unfold n. destruct (_ !! ensure_trailing_dot name) as [r|]; [|by left].
  intros Hr. unfold read_document. rewrite change_decodes by (try done; by apply plain_dotted). by rewrite dotted_idem.
Qed.
Next Obligation.
  intros request w name r Hm Hurl Hname Hr Hbody. cbn. unfold answer. rewrite Hm, Hbody. cbn [mbind option_bind]. rewrite change_decodes by done. eauto.
Qed.
Next Obligation.
  intros request w name r Hm Hurl Hname Hr Hbody Hw. cbn. unfold answer. rewrite Hm, Hbody. cbn [mbind option_bind]. rewrite change_decodes by done. cbn.
  rewrite bool_decide_eq_true_2 by done. eauto.
Qed.

Definition challenge_name : string := "_acme-challenge.mirror.example".

Definition shared : DnsNet :=
  ({[ "_acme-challenge.mirror.example." := {| rs_ttl := 300; rs_values := ["other"] |} ]} : gmap string Route53RecordSet).

Example present_joins_values :
  (rs_values <$> txt_records sample (route53_present sample challenge_name "digest" shared).2 !! "_acme-challenge.mirror.example.")
    = Some ["other"; "digest"].
Proof. vm_compute. reflexivity. Qed.

(** The theorem holds of this service. *)
Example route53_records_restored_witness :
  exists record w1 w2,
    route53_present sample challenge_name "digest" shared = (Ok record, w1) /\
    (exists r, txt_records sample w1 !! ensure_trailing_dot challenge_name = Some r /\ "digest" ∈ rs_values r) /\
    route53_cleanup sample record w1 = (Ok tt, w2) /\ txt_records sample w2 = txt_records sample shared.
Proof.
  apply (route53_records_restored sample challenge_name "digest" shared); [reflexivity|reflexivity|].
  intros r Hr. assert (r = {| rs_ttl := 300; rs_values := ["other"] |}) as -> by (apply (inj Some); rewrite <- Hr; reflexivity).
  split; [cbn; unfold U32_MAX; lia|]. split; [discriminate|]. apply Forall_cons_2; [reflexivity|apply Forall_nil_2].
Defined.
End Zone.
