(* ===== verification/Acme.v ===== *)
(** * Certificates

    [acme.rs]: the manager that issues and renews the certificate, the state of
    its worker, and the files it keeps.  The crate [instant_acme] is an
    interface; records are made by the providers of [AcmeDns]; the files are
    those of [ClientFiles], each call of which may fail. *)
From stdpp Require Import gmap.
From S2P Require Import Prelude RustStr Headers Url Json Config Quota Users Requests AcmeDns Fs ClientFiles.
Open Scope string_scope.
Open Scope Z_scope.
Open Scope list_scope.
Open Scope mirror_scope.

(** ** The protocol and the records *)

Inductive AuthorizationStatus : Type := AuthPending | AuthValid | AuthOther (name : string).

Inductive ChallengeType : Type := Dns01 | Http01 | OtherChallenge (name : string).

#[export] Instance ChallengeType_eq_dec : EqDecision ChallengeType.
Proof. solve_decision. Defined.

Record Challenge : Type := { ch_type : ChallengeType; ch_token : string; ch_error : option string }.

Record Authorization : Type := {
  au_status : AuthorizationStatus;
  (** with [*.] for a wildcard *)
  au_identifier : string;
  au_challenges : list Challenge;
}.

(** [instant_acme], the clock and random identifiers. [order_authorizations]
    are the authorizations of an order, fetched one by one. *)
Class AcmeApi `{DnsApi} : Type := {
  Account : Type;
  Credentials : Type;
  Order : Type;
  AuthorizationUrl : Type;
  parse_credentials : string -> option Credentials;
  restore_account : Credentials -> DnsNet -> result Account string * DnsNet;
  (** with the text of its credentials *)
  create_account : string -> string -> DnsNet -> result (Account * string) string * DnsNet;
  new_order : Account -> list string -> DnsNet -> result Order string * DnsNet;
  order_authorizations : Order -> list AuthorizationUrl;
  fetch_authorization : AuthorizationUrl -> DnsNet -> result Authorization string * DnsNet;
  key_authorization : Order -> string -> string;
  dns_value : string -> string;
  set_ready : AuthorizationUrl -> Challenge -> DnsNet -> result unit string * DnsNet;
  (** whether the order became ready, else the name of its status *)
  poll_ready : Order -> DnsNet -> result (option string) string * DnsNet;
  finalize : Order -> DnsNet -> result string string * DnsNet;
  poll_certificate : Order -> DnsNet -> result string string * DnsNet;
  (** the end of validity of the first certificate of a PEM file *)
  x509_not_after : string -> result Z string;
  sleep_secs : Z -> DnsNet -> DnsNet;
  unix_timestamp : DnsNet -> Z;
  new_uuid : DnsNet -> string * DnsNet;
}.

(** ** The manager *)

(** The fields of [AcmeStatus] that change. *)
Record AcmeStatus : Type := {
  st_certificate_not_after : option Z;
  st_last_success_at : option Z;
  st_last_error : option string;
  st_running : bool;
  st_https_active : bool;
}.

Inductive ProvisionedChallenge : Type :=
| ProvisionedHttp (token : string)
| ProvisionedDns (record : DnsRecordHandle).

(** What an issuance did with challenges, for the theorems: a challenge that
    was made available, and an attempt to take one back with its result. *)
Inductive Effect : Type :=
| Presented (c : ProvisionedChallenge)
| CleanedUp (c : ProvisionedChallenge) (outcome : result unit string).

Section Acme.
Context `{AcmeApi}.

(** [AcmeManager] with the files it writes; [generation] is
    [certificate_generation], a [u64]. *)
Record Manager : Type := {
  store_disk : Disk;
  challenges : gmap string string;
  status : AcmeStatus;
  generation : Z;
  net : DnsNet;
  effects : list Effect;
}.

Definition with_store (d : Disk) (m : Manager) : Manager :=
  {| store_disk := d; challenges := challenges m; status := status m; generation := generation m; net := net m; effects := effects m |}.
Definition with_challenges (c : gmap string string) (m : Manager) : Manager :=
  {| store_disk := store_disk m; challenges := c; status := status m; generation := generation m; net := net m; effects := effects m |}.
Definition with_status (s : AcmeStatus) (m : Manager) : Manager :=
  {| store_disk := store_disk m; challenges := challenges m; status := s; generation := generation m; net := net m; effects := effects m |}.
Definition with_net (n : DnsNet) (m : Manager) : Manager :=
  {| store_disk := store_disk m; challenges := challenges m; status := status m; generation := generation m; net := n; effects := effects m |}.
Definition with_effect (e : Effect) (m : Manager) : Manager :=
  {| store_disk := store_disk m; challenges := challenges m; status := status m; generation := generation m; net := net m;
     effects := effects m ++ [e] |}.

(** A step that may fail, with the [?] of [anyhow]. *)
Definition step (A : Type) : Type := Manager -> result A string * Manager.

Definition done_with {A} (a : A) : step A := fun m => (Ok a, m).
Definition fails {A} (e : string) : step A := fun m => (Err e, m).
Definition then_do {A B} (x : step A) (k : A -> step B) : step B := fun m =>
  match x m with (Ok a, m) => k a m | (Err e, m) => (Err e, m) end.

Notation "'try!' x ':=' m 'in' k" := (then_do m (fun x => k)) (at level 200, x pattern, m at level 100, k at level 200).

Definition on_disk {A} (f : act A) : step A := fun m =>
  let '(r, d) := f (store_disk m) in (r, with_store d m).
Definition on_net {A} (f : DnsNet -> result A string * DnsNet) : step A := fun m =>
  let '(r, n) := f (net m) in (r, with_net n m).

(** ** Files *)

Definition read_file (path : string) : act string := call (fun d =>
  (result_of_option (text_at d path) not_found, d)).

(** [OpenOptions::new().create_new(true).write(true).mode(mode)]; neither mode
    the code uses is narrowed by a usual umask. *)
Definition create_with_mode (path : string) (mode : Z) : act unit := call (fun d =>
  match nodes d !! path with
  | Some _ => (Err "file exists", d)
  | None => (Ok tt, on_nodes <[path := {| Node.text := ""; Node.mode := mode |}]> d)
  end).

Definition temporary_path (path uuid : string) : string :=
  let '(name, parent) := split_name path in
  parent +:+ "." +:+ (if str_is_empty name then "acme" else name) +:+ "." +:+ uuid +:+ ".tmp".

(** [0o600] is [OWNER_ONLY]; [0o644]. *)
Definition EVERYONE_READS : Z := 420.

Definition write_file (path temporary contents : string) (mode : Z) : act unit :=
  (do? _ := create_dir_all (split_name path).2 in
   do? _ := context ("failed to create " +:+ temporary) (create_with_mode temporary mode) in
   do? _ := write_all temporary contents in
   do? _ := sync_all temporary in
   do? _ := context ("failed to install " +:+ path) (rename temporary path) in
   set_permissions path mode)%act.

Definition atomic_write (path contents : string) (mode : Z) : step unit := fun m =>
  let '(uuid, n) := new_uuid (net m) in
  on_disk (write_file path (temporary_path path uuid) contents mode) (with_net n m).

Definition certificate_not_after (path : string) : step (option Z) := fun m =>
  if negb (exists_at path (store_disk m)) then (Ok None, m)
  else (try! text := on_disk (read_file path) in
        match x509_not_after text with
        | Ok not_after => done_with (Some not_after)
        | Err e => fails e
        end) m.

Variable config : AcmeConfig.t.

Definition in_storage (name : string) : string := path_join (AcmeConfig.storage_directory config) name.

(** ** Issuing *)

Definition load_or_create_account : step Account := fun m =>
  let path := in_storage "account.json" in
  if exists_at path (store_disk m) then
    (try! raw := on_disk (context ("failed to read ACME account " +:+ path) (read_file path)) in
     match parse_credentials raw with
     | None => fails "failed to parse ACME account credentials"
     | Some credentials => on_net (with_context "failed to restore ACME account" (restore_account credentials))
     end) m
  else
    let contact := "mailto:" +:+ str_trim (AcmeConfig.email config) in
    (try! created := on_net (with_context "failed to create ACME account"
                               (create_account contact (AcmeConfig.directory_url config))) in
     try! _ := atomic_write path created.2 OWNER_ONLY in
     done_with created.1) m.

Definition challenge_type : ChallengeType := if (AcmeConfig.challenge config =? "dns-01")%string then Dns01 else Http01.

(** [authorization.challenge(type)]. *)
Definition find_challenge (a : Authorization) : option Challenge :=
  find_first (fun c => bool_decide (ch_type c = challenge_type)) (au_challenges a).

(** What both loops do with the status of an authorization. *)
Inductive AuthorizationCase : Type := Skip | Use (c : Challenge) | Refuse (e : string).

Definition consider_authorization (a : Authorization) : AuthorizationCase :=
  match au_status a with
  | AuthValid => Skip
  | AuthOther name => Refuse ("unexpected ACME authorization status: " +:+ name)
  | AuthPending =>
      match find_challenge a with
      | None => Refuse ("ACME server did not offer " +:+ AcmeConfig.challenge config)
      | Some c => Use c
      end
  end.

Definition record_name (identifier : string) : string :=
  "_acme-challenge." +:+ strip_all "*." identifier.

(** One challenge is made available, by the answers over HTTP or by a record. *)
Definition provision (provider : option DnsProvider) (order : Order) (a : Authorization) (c : Challenge) :
    step ProvisionedChallenge :=
  let key := key_authorization order (ch_token c) in
  if bool_decide (challenge_type = Http01) then fun m =>
    let p := ProvisionedHttp (ch_token c) in
    (Ok p, with_effect (Presented p) (with_challenges (<[ch_token c := key]> (challenges m)) m))
  else
    match provider with
    | None => fails "ACME DNS provider is unavailable"
    | Some provider =>
        try! record := on_net (present provider (record_name (au_identifier a)) (dns_value key)) in
        fun m => (Ok (ProvisionedDns record), with_effect (Presented (ProvisionedDns record)) m)
    end.

(** The first loop; what was provisioned before a failure is kept. *)
Fixpoint provision_all (provider : option DnsProvider) (order : Order) (urls : list AuthorizationUrl)
    (provisioned : list ProvisionedChallenge) (m : Manager) : result unit string * list ProvisionedChallenge * Manager :=
  match urls with
  | [] => (Ok tt, provisioned, m)
  | url :: urls =>
      match on_net (fetch_authorization url) m with
      | (Err e, m) => (Err e, provisioned, m)
      | (Ok a, m) =>
          match consider_authorization a with
          | Skip => provision_all provider order urls provisioned m
          | Refuse e => (Err e, provisioned, m)
          | Use c =>
              match provision provider order a c m with
              | (Err e, m) => (Err e, provisioned, m)
              | (Ok p, m) => provision_all provider order urls (provisioned ++ [p]) m
              end
          end
      end
  end.

(** The second loop. *)
Fixpoint ready_all (urls : list AuthorizationUrl) : step unit :=
  match urls with
  | [] => done_with tt
  | url :: urls =>
      try! a := on_net (fetch_authorization url) in
      match consider_authorization a with
      | Skip => ready_all urls
      | Refuse e => fails e
      | Use c => try! _ := on_net (set_ready url c) in ready_all urls
      end
  end.

(** What the challenges of an order say went wrong. *)
Fixpoint collect_failures (urls : list AuthorizationUrl) (failures : list string) : step (list string) :=
  match urls with
  | [] => done_with failures
  | url :: urls =>
      try! a := on_net (fetch_authorization url) in
      collect_failures urls (failures ++ omap (fun c => (fun e => au_identifier a +:+ " " +:+ e) <$> ch_error c) (au_challenges a))
  end.

Definition complete_order (order : Order) : step (string * string) :=
  try! not_ready := on_net (poll_ready order) in
  match not_ready with
  | Some name =>
      try! failures := collect_failures (order_authorizations order) [] in
      fails ("ACME order did not become ready: " +:+ name
             +:+ match failures with [] => "" | _ => " (" +:+ str_join "; " failures +:+ ")" end)
  | None =>
      try! private_key := on_net (finalize order) in
      try! certificate := on_net (poll_certificate order) in
      done_with (certificate, private_key)
  end.

Definition cleanup_challenge (provider : option DnsProvider) (c : ProvisionedChallenge) : step unit :=
  match c with
  | ProvisionedHttp token => fun m => (Ok tt, with_effect (CleanedUp c (Ok tt)) (with_challenges (delete token (challenges m)) m))
  | ProvisionedDns record =>
      match provider with
      | None => fails "ACME DNS provider is unavailable"
      | Some provider => fun m =>
          let '(r, m) := on_net (cleanup provider record) m in (r, with_effect (CleanedUp c r) m)
      end
  end.

(** Failures are logged. *)
Definition cleanup_all (provider : option DnsProvider) (l : list ProvisionedChallenge) (m : Manager) : Manager :=
  foldl (fun m c => (cleanup_challenge provider c m).2) m l.

Definition notify_certificate_update (m : Manager) : Manager :=
  {| store_disk := store_disk m; challenges := challenges m; status := status m;
     generation := sat_add_u64 (generation m) 1; net := net m; effects := effects m |}.

Definition authorize (provider : option DnsProvider) (order : Order) (m : Manager) :
    result unit string * list ProvisionedChallenge * Manager :=
  match provision_all provider order (order_authorizations order) [] m with
  | (Err e, provisioned, m) => (Err e, provisioned, m)
  | (Ok _, provisioned, m) =>
      let m :=
        if bool_decide (challenge_type = Dns01) && match provisioned with [] => false | _ => true end
        then with_net (sleep_secs (AcmeDnsConfig.propagation_delay_secs (AcmeConfig.dns config)) (net m)) m else m in
      let '(r, m) := ready_all (order_authorizations order) m in
      (r, provisioned, m)
  end.

Definition install (issued : string * string) : step Z := fun m =>
  (try! _ := atomic_write (in_storage "fullchain.pem") issued.1 EVERYONE_READS in
   try! _ := atomic_write (in_storage "privkey.pem") issued.2 OWNER_ONLY in
   fun m =>
     (try! not_after := certificate_not_after (in_storage "fullchain.pem") in
      match not_after with
      | Some not_after => done_with not_after
      | None => fails "issued certificate has no readable expiry"
      end) (notify_certificate_update m)) m.

Definition run_order (provider : option DnsProvider) (order : Order) : step Z := fun m =>
  let '(authorized, provisioned, m) := authorize provider order m in
  let '(issued, m) := match authorized with Ok _ => complete_order order m | Err e => (Err e, m) end in
  let m := cleanup_all provider (rev provisioned) m in
  match issued with
  | Ok issued => install issued m
  | Err e => (Err e, m)
  end.

Definition issue_certificate : step Z :=
  try! _ := on_disk (context ("failed to create ACME storage directory " +:+ AcmeConfig.storage_directory config)
                       (create_dir_all (AcmeConfig.storage_directory config))) in
  try! account := load_or_create_account in
  try! order := on_net (new_order account (AcmeConfig.domains config)) in
  if (AcmeConfig.challenge config =? "dns-01")%string then
    match build_provider (AcmeConfig.dns config) with
    | Err e => fails e
    | Ok provider => run_order (Some provider) order
    end
  else run_order None order.

(** ** Renewing *)

Definition set_running (running : bool) (s : AcmeStatus) : AcmeStatus :=
  {| st_certificate_not_after := st_certificate_not_after s; st_last_success_at := st_last_success_at s;
     st_last_error := st_last_error s; st_running := running; st_https_active := st_https_active s |}.

Definition set_not_after (not_after : option Z) (s : AcmeStatus) : AcmeStatus :=
  {| st_certificate_not_after := not_after; st_last_success_at := st_last_success_at s;
     st_last_error := st_last_error s; st_running := st_running s; st_https_active := st_https_active s |}.

Definition set_https_active (active : bool) (m : Manager) : Manager :=
  with_status {| st_certificate_not_after := st_certificate_not_after (status m); st_last_success_at := st_last_success_at (status m);
     st_last_error := st_last_error (status m); st_running := st_running (status m); st_https_active := active |} m.

Definition begun (s : AcmeStatus) : AcmeStatus :=
  {| st_certificate_not_after := st_certificate_not_after s; st_last_success_at := st_last_success_at s;
     st_last_error := None; st_running := true; st_https_active := st_https_active s |}.

Definition succeeded (now not_after : Z) (s : AcmeStatus) : AcmeStatus :=
  {| st_certificate_not_after := Some not_after; st_last_success_at := Some now;
     st_last_error := st_last_error s; st_running := false; st_https_active := st_https_active s |}.

Definition failed (e : string) (s : AcmeStatus) : AcmeStatus :=
  {| st_certificate_not_after := st_certificate_not_after s; st_last_success_at := st_last_success_at s;
     st_last_error := Some e; st_running := false; st_https_active := st_https_active s |}.

(** The time of the renewal of a certificate. *)
Definition renew_at (not_after : Z) : Z := not_after - sat_mul_i64 (AcmeConfig.renew_before_days config) (24 * 60 * 60).

Definition stored_not_after (m : Manager) : option Z * Manager :=
  let '(r, m) := certificate_not_after (in_storage "fullchain.pem") m in
  (match r with Ok not_after => not_after | Err _ => None end, m).

(** [AcmeManager::new], on a host. *)
Definition new_manager (d : Disk) (n : DnsNet) : Manager :=
  let idle := {| st_certificate_not_after := None; st_last_success_at := None; st_last_error := None;
                 st_running := false; st_https_active := false |} in
  let m := {| store_disk := d; challenges := ∅; status := idle; generation := 0; net := n; effects := [] |} in
  let '(not_after, m) := stored_not_after m in
  with_status (set_not_after not_after idle) m.

(** [AcmeStatus] as it is shown: with what the configuration says. *)
Record StatusReport : Type := {
  sr_enabled : bool;
  sr_challenge : string;
  sr_dns_provider : option string;
  sr_domains : list string;
  sr_certificate_path : string;
  sr_private_key_path : string;
  sr_direct_https : bool;
  sr_http_listen_addr : string;
  sr_https_listen_addr : string;
  sr_status : AcmeStatus;
}.

Definition status_report (m : Manager) : StatusReport :=
  {| sr_enabled := AcmeConfig.enabled config; sr_challenge := AcmeConfig.challenge config;
     sr_dns_provider := if (AcmeConfig.challenge config =? "dns-01")%string then Some (AcmeDnsConfig.provider (AcmeConfig.dns config)) else None;
     sr_domains := AcmeConfig.domains config; sr_certificate_path := in_storage "fullchain.pem";
     sr_private_key_path := in_storage "privkey.pem"; sr_direct_https := AcmeConfig.direct_https config;
     sr_http_listen_addr := AcmeConfig.http_listen_addr config; sr_https_listen_addr := AcmeConfig.https_listen_addr config;
     sr_status := status m |}.

(** The time the worker waits, in seconds. *)
Definition check_interval : Z := sat_mul_u64 (AcmeConfig.check_interval_hours config) (60 * 60) `max` 60.

Definition not_due (force : bool) (not_after : option Z) (m : Manager) : bool :=
  negb force && match not_after with Some t => unix_timestamp (net m) <? renew_at t | None => false end.

(** With the lock of the issuance held. *)
Definition refresh (force : bool) (m : Manager) : Manager :=
  let '(not_after, m) := stored_not_after m in
  if not_due force not_after m then with_status (set_not_after not_after (status m)) m
  else
    let m := with_status (begun (status m)) m in
    match issue_certificate m with
    | (Ok not_after, m) => with_status (succeeded (unix_timestamp (net m)) not_after (status m)) m
    | (Err e, m) => with_status (failed e (status m)) m
    end.

Definition challenge_response (token : string) (m : Manager) : option string := challenges m !! token.

(** ** The worker and those who ask for a renewal *)

(** [trigger_renewal] between its awaits: it reads [running], puts a message
    into the channel of one place, and sets [running]. *)
Inductive TriggerStage : Type := Trying | Marking.

Record AcmeWorld : Type := {
  manager : Manager;
  queued : bool;
  triggers : list TriggerStage;
}.

Inductive AcmeEvent : Type :=
| AskRenewal
| SendTrigger (i : nat)
| MarkRunning (i : nat)
| WorkerTimer
| WorkerMessage.

(** What a caller is told. *)
Inductive TriggerAnswer : Type := AcmeDisabled | RenewalRunning | RenewalQueued | Triggered.

Definition acme_step (e : AcmeEvent) (w : AcmeWorld) : option TriggerAnswer * AcmeWorld :=
  match e with
  | AskRenewal =>
      if negb (AcmeConfig.enabled config) then (Some AcmeDisabled, w)
      else if st_running (status (manager w)) then (Some RenewalRunning, w)
      else (None, {| manager := manager w; queued := queued w; triggers := triggers w ++ [Trying] |})
  | SendTrigger i =>
      match triggers w !! i with
      | Some Trying =>
          if queued w then (Some RenewalQueued, {| manager := manager w; queued := true; triggers := delete i (triggers w) |})
          else (None, {| manager := manager w; queued := true; triggers := <[i := Marking]> (triggers w) |})
      | _ => (None, w)
      end
  | MarkRunning i =>
      match triggers w !! i with
      | Some Marking =>
          (Some Triggered, {| manager := with_status (set_running true (status (manager w))) (manager w);
                              queued := queued w; triggers := delete i (triggers w) |})
      | _ => (None, w)
      end
  | WorkerTimer => (None, {| manager := refresh false (manager w); queued := queued w; triggers := triggers w |})
  | WorkerMessage =>
      if queued w then (None, {| manager := refresh true (manager w); queued := false; triggers := triggers w |}) else (None, w)
  end.

Definition run_acme (events : list AcmeEvent) (w : AcmeWorld) : AcmeWorld :=
  foldl (fun w e => (acme_step e w).2) w events.
End Acme.
