(* ===== verification/AcmeSpec.v ===== *)
(** * Theorems on certificates *)
From stdpp Require Import gmap.
From S2P Require Import Prelude RustStr Headers Url Json Config Quota Users Requests AcmeDns Fs ClientFiles Acme.
Open Scope string_scope.
Open Scope Z_scope.
Open Scope list_scope.
Open Scope mirror_scope.

Section AcmeTheorems.
Context {json : JsonApi} {csrf : CsrfApi} {secret : SecretApi} {dns_api : DnsApi} {acme : AcmeApi}.
Variable config : AcmeConfig.t.

(** ** Steps that leave challenges alone *)

(** Challenges, effects, status and generation are as they were. *)
Record Aside (m m' : Manager) : Prop := {
  as_challenges : challenges m' = challenges m;
  as_effects : effects m' = effects m;
  as_status : status m' = status m;
  as_generation : generation m' = generation m;
}.

#[local] Instance Aside_preorder : PreOrder Aside.
Proof. split; [done|]. intros m1 m2 m3 [A B C D] [A' B' C' D']. split; congruence. Qed.

Definition aside {A} (x : step A) : Prop := forall m, Aside m (x m).2.

Lemma aside_then {A B} (x : step A) (k : A -> step B) : aside x -> (forall a, aside (k a)) -> aside (then_do x k).
Proof.
  intros Hx Hk m. unfold then_do. specialize (Hx m). destruct (x m) as [[a|e] m1]; cbn in *; [|done].
  etransitivity; [exact Hx|]. apply Hk.
Qed.

Lemma aside_done {A} (a : A) : aside (done_with a).
Proof. by intros m. Qed.
Lemma aside_fails {A} (e : string) : aside (A := A) (fails e).
Proof. by intros m. Qed.
Lemma aside_disk {A} (f : act A) : aside (on_disk f).
Proof. intros m. unfold on_disk. by destruct (f (store_disk m)). Qed.
Lemma aside_net {A} (f : DnsNet -> result A string * DnsNet) : aside (on_net f).
Proof. intros m. unfold on_net. by destruct (f (net m)). Qed.
Lemma aside_write (path contents : string) (mode : Z) : aside (atomic_write path contents mode).
Proof.
  intros m. unfold atomic_write. destruct (new_uuid (net m)) as [uuid n].
  etransitivity; [|apply aside_disk]. done.
Qed.

Create HintDb aside.
Hint Resolve aside_done aside_fails aside_disk aside_net aside_write : aside.
Ltac stand_aside := repeat first [apply aside_then; [auto with aside|intros ?] | case_match | by auto with aside].

Ltac aside_now := lazymatch goal with |- Aside ?m (?x ?m).2 => cut (aside x); [intros Hx; apply Hx|stand_aside] end.

Lemma aside_not_after (path : string) : aside (certificate_not_after path).
Proof. intros m. unfold certificate_not_after. case_bool; [done|]. aside_now. Qed.
Hint Resolve aside_not_after : aside.

Lemma aside_account : aside (load_or_create_account config).
Proof. intros m. unfold load_or_create_account. case_bool; aside_now. Qed.
Hint Resolve aside_account : aside.

Lemma aside_ready (urls : list AuthorizationUrl) : aside (ready_all config urls).
Proof. induction urls as [|url urls IH]; cbn [ready_all]; stand_aside. Qed.

Lemma aside_failures (urls : list AuthorizationUrl) (l : list string) : aside (collect_failures urls l).
Proof. revert l. induction urls as [|url urls IH]; intros l; cbn [collect_failures]; stand_aside. Qed.
Hint Resolve aside_ready aside_failures : aside.

Lemma aside_order (order : Order) : aside (complete_order order).
Proof. unfold complete_order. stand_aside. Qed.

(** ** What is made available is taken back *)

(** Challenges are only those there were, and the effects are of [l]. *)
Definition added (m m' : Manager) (l : list ProvisionedChallenge) : Prop :=
  effects m' = effects m ++ (Presented <$> l) /\ status m' = status m /\
  forall token v, challenges m' !! token = Some v -> challenges m !! token = Some v \/ ProvisionedHttp token ∈ l.

(** A record is one the provider reported as made. *)
Definition usable (provider : option DnsProvider) (c : ProvisionedChallenge) : Prop :=
  match c with
  | ProvisionedHttp _ => True
  | ProvisionedDns record =>
      exists p name value n n', provider = Some p /\ present p name value n = (Ok record, n')
  end.

(** A challenge that was taken back: an answer over HTTP always is; a record is
    when a call of [cleanup] of the provider says so. *)
Definition cleaned (provider : option DnsProvider) (c : ProvisionedChallenge) (e : Effect) : Prop :=
  match c with
  | ProvisionedHttp _ => e = CleanedUp c (Ok tt)
  | ProvisionedDns record => exists p n, provider = Some p /\ e = CleanedUp c (cleanup p record n).1
  end.

Lemma provision_added (provider : option DnsProvider) (order : Order) (a : Authorization) (c : Challenge) (m : Manager) :
  match provision config provider order a c m with
  | (Ok p, m') => added m m' [p] /\ usable provider p
  | (Err _, m') => added m m' []
  end.
Proof.
  unfold provision. case_bool.
  - split; [|done]. split_and!; [done|done|]. intros token v Hv. cbn in Hv.
    destruct (decide (token = ch_token c)) as [->|Hne]; [right; set_solver|]. rewrite lookup_insert_ne in Hv by done. by left.
  - destruct provider as [provider|]; [|split_and!; [by rewrite fmap_nil, app_nil_r|done|by left]].
    unfold then_do, on_net. destruct (present provider _ _ (net m)) as [[record|e] n] eqn:Ep; cbn.
    + split; [|by eexists _, _, _, _, _]. split_and!; [done|done|by left].
    + split_and!; [by rewrite app_nil_r|done|by left].
Qed.
Lemma added_aside (m m' : Manager) : Aside m m' -> added m m' [].
Proof. intros [Hc He Hs _]. split_and!; [by rewrite He, app_nil_r|done|]. rewrite Hc. by left. Qed.

Lemma added_trans (m1 m2 m3 : Manager) (l l' : list ProvisionedChallenge) :
  added m1 m2 l -> added m2 m3 l' -> added m1 m3 (l ++ l').
Proof.
  intros (E1 & S1 & C1) (E2 & S2 & C2). split_and!; [by rewrite E2, E1, fmap_app, (assoc_L (++))|congruence|].
  intros token v Hv. destruct (C2 token v Hv) as [Hv'|Hin]; [|right; set_solver].
  destruct (C1 token v Hv') as [|Hin]; [by left|right; set_solver].
Qed.

Lemma provision_all_added (provider : option DnsProvider) (order : Order) (urls : list AuthorizationUrl)
    (before : list ProvisionedChallenge) (m : Manager) :
  let '(_, after, m') := provision_all config provider order urls before m in
  exists l, after = before ++ l /\ added m m' l /\ Forall (usable provider) l.
Proof.
  assert (Hnil : forall m m', Aside m m' -> exists l, before = before ++ l /\ added m m' l /\ Forall (usable provider) l).
  { intros m1 m2 Hm. exists []. split_and!; [by rewrite app_nil_r|by apply added_aside|constructor]. }
  revert before m Hnil. induction urls as [|url urls IH]; intros before m Hnil; [by apply Hnil|]. cbn [provision_all].
  pose proof (aside_net (fetch_authorization url) m) as Hf. destruct (on_net _ m) as [[a|e] m1]; [|by apply Hnil].
  cbn in Hf. destruct (consider_authorization config a) as [|c|e].
  - specialize (IH before m1 Hnil). destruct (provision_all _ _ _ _ _ m1) as [[r after] m2].
    destruct IH as (l & -> & Ha & Hu). exists l. split_and!; [done| |done]. by apply (added_trans _ m1 _ []); [apply added_aside|].
  - pose proof (provision_added provider order a c m1) as Hp.
    destruct (provision config provider order a c m1) as [[p|e] m2].
    + specialize (IH (before ++ [p]) m2). destruct (provision_all _ _ _ _ _ m2) as [[r after] m3].
      destruct IH as (l & -> & Ha & Hu).
      { intros m4 m5 Hm. exists []. split_and!; [by rewrite app_nil_r|by apply added_aside|constructor]. }
      exists (p :: l). split_and!; [by rewrite <- (assoc_L (++))| |by constructor; [apply Hp|]].
      apply (added_trans _ m1 _ []); [by apply added_aside|]. by apply (added_trans _ m2 _ [p]); [apply Hp|].
    + exists []. split_and!; [by rewrite app_nil_r| |constructor]. by apply (added_trans _ m1 _ []); [apply added_aside|].
  - by apply Hnil.
Qed.

Lemma authorize_added (provider : option DnsProvider) (order : Order) (m : Manager) :
  let '(_, l, m') := authorize config provider order m in added m m' l /\ Forall (usable provider) l.
Proof.
  unfold authorize. pose proof (provision_all_added provider order (order_authorizations order) [] m) as Hp.
  destruct (provision_all _ _ _ _ _ m) as [[[u|e] l] m1]; destruct Hp as (l' & Hl & Ha & Hu); cbn in Hl; subst l; [|done].
  match goal with |- context [ready_all config ?urls ?m2] => pose proof (aside_ready urls m2) as Hr;
    assert (Aside m1 m2) as H12 by (by case_match) end.
  destruct (ready_all config _ _) as [r m3]. split; [|done].
  rewrite <- (app_nil_r l'). apply (added_trans _ m1); [done|]. apply added_aside. by etransitivity.
Qed.

Lemma cleanup_all_spec (provider : option DnsProvider) (l : list ProvisionedChallenge) (m : Manager) :
  Forall (usable provider) l ->
  let m' := cleanup_all provider l m in
  (exists es, effects m' = effects m ++ es /\ Forall2 (cleaned provider) l es) /\
  status m' = status m /\ generation m' = generation m /\
  forall token v, challenges m' !! token = Some v -> challenges m !! token = Some v /\ ProvisionedHttp token ∉ l.
Proof.
  revert m. induction l as [|c l IH]; intros m Hl.
  { cbn. split_and!; [exists []; by rewrite app_nil_r|done|done|]. intros token v Hv. split; [done|]. by intros ?%elem_of_nil. }
  apply Forall_cons in Hl as [Hc Hl]. cbn [cleanup_all foldl].
  assert (H1 : let m1 := (cleanup_challenge provider c m).2 in
    (exists e, effects m1 = effects m ++ [e] /\ cleaned provider c e) /\
    status m1 = status m /\ generation m1 = generation m /\
    forall token v, challenges m1 !! token = Some v -> challenges m !! token = Some v /\ ProvisionedHttp token <> c).
  { destruct c as [token|record]; cbn.
    - split_and!; [by eexists|done|done|]. intros token' v. rewrite lookup_delete_Some. intros [Hne Hv]. split; [done|]. congruence.
    - destruct Hc as (p & _ & _ & _ & _ & -> & _). unfold on_net. destruct (cleanup p record (net m)) as [r n] eqn:Er. cbn.
      split_and!; [|done..]. eexists. split; [done|]. exists p, (net m). by rewrite Er. }
  cbn in H1. destruct H1 as ((e & E1 & He) & S1 & G1 & C1). specialize (IH (cleanup_challenge provider c m).2 Hl). cbn in IH.
  fold (cleanup_all provider l (cleanup_challenge provider c m).2). destruct IH as ((es & E2 & Hes) & S2 & G2 & C2).
  split_and!; [exists (e :: es); split; [by rewrite E2, E1, <- (assoc_L (++))|by constructor]|congruence|congruence|].
  intros token v Hv. destruct (C2 token v Hv) as [Hv' Hl']. destruct (C1 token v Hv') as [Hv'' Hne].
  split; [done|]. rewrite not_elem_of_cons. done.
Qed.

Lemma aside_install_challenges (issued : string * string) (m : Manager) :
  let m' := (install config issued m).2 in
  challenges m' = challenges m /\ effects m' = effects m /\ status m' = status m.
Proof.
  unfold install, then_do.
  pose proof (aside_write (in_storage config "fullchain.pem") issued.1 EVERYONE_READS m) as [C1 E1 S1 _].
  destruct (atomic_write _ issued.1 _ m) as [[u1|e1] m1]; cbn in *; [|done].
  pose proof (aside_write (in_storage config "privkey.pem") issued.2 OWNER_ONLY m1) as [C2 E2 S2 _].
  destruct (atomic_write _ issued.2 _ m1) as [[u2|e2] m2]; cbn in *; [|split_and!; congruence].
  pose proof (aside_not_after (in_storage config "fullchain.pem") (notify_certificate_update m2)) as [C3 E3 S3 _].
  destruct (certificate_not_after _ _) as [[[t|]|e3] m3]; cbn in *; split_and!; congruence.
Qed.

(** What an issuance makes available it takes back, whatever else fails, and
    the last first, with the provider that is configured. *)
Definition withdrawn (m m' : Manager) : Prop :=
  (exists provider l taken,
     (forall p, provider = Some p -> build_provider (AcmeConfig.dns config) = Ok p) /\
     effects m' = effects m ++ (Presented <$> l) ++ taken /\
     Forall (usable provider) l /\ Forall2 (cleaned provider) (rev l) taken) /\
  forall token v, challenges m' !! token = Some v -> challenges m !! token = Some v.

Lemma withdrawn_aside (m m' : Manager) : Aside m m' -> withdrawn m m'.
Proof.
  intros [C E _ _]. split; [|by rewrite C]. exists None, [], []. split_and!; [done|by rewrite E, app_nil_r|constructor|constructor].
Qed.

Lemma run_order_withdrawn (provider : option DnsProvider) (order : Order) (m : Manager) :
  (forall p, provider = Some p -> build_provider (AcmeConfig.dns config) = Ok p) ->
  withdrawn m (run_order config provider order m).2 /\ status (run_order config provider order m).2 = status m.
Proof.
  intros Hp. unfold run_order. pose proof (authorize_added provider order m) as Ha.
  destruct (authorize config provider order m) as [[authorized l] m1]. destruct Ha as [(E1 & S1 & C1) Hu].
  assert (Aside m1 (match authorized with Ok _ => complete_order order m1 | Err e => (Err e, m1) end).2) as Hi
    by (destruct authorized; [apply aside_order|done]).
  destruct (match authorized with Ok _ => complete_order order m1 | Err e => (Err e, m1) end) as [issued m2]. cbn in Hi.
  destruct Hi as [Ci Ei Si _]. destruct (cleanup_all_spec provider (rev l) m2) as ((es & E3 & Hes) & S3 & _ & C3).
  { by apply List.Forall_rev. }
  set (m3 := cleanup_all provider (rev l) m2) in *.
  assert (Hm3 : withdrawn m m3).
  { split; [exists provider, l, es; split_and!; [done|by rewrite E3, Ei, E1, <- (assoc_L (++))|done|done]|]. intros token v Hv.
    destruct (C3 token v Hv) as [Hv' Hin]. rewrite Ci in Hv'. destruct (C1 token v Hv') as [|Hl]; [done|].
    destruct Hin. apply list_elem_of_In. apply -> in_rev. by apply list_elem_of_In. }
  destruct issued as [issued|e]; cbn; [|split; [done|congruence]].
  destruct (aside_install_challenges issued m3) as (C4 & E4 & S4). split; [|congruence].
  destruct Hm3 as [(p & l' & es' & H1 & El & H3) Hc]. split; [exists p, l', es'; by rewrite E4|by rewrite C4].
Qed.
Lemma issue_withdrawn (m : Manager) :
  withdrawn m (issue_certificate config m).2 /\
  status (issue_certificate config m).2 = status m.
Proof.
  assert (Hrun : forall provider order m m1, Aside m m1 ->
    (forall p, provider = Some p -> build_provider (AcmeConfig.dns config) = Ok p) ->
    withdrawn m (run_order config provider order m1).2 /\ status (run_order config provider order m1).2 = status m).
  { intros provider order m0 m1 [C E S _] Hp.
    destruct (run_order_withdrawn provider order m1 Hp) as [[(q & l & es & H1 & El & H3) Hc] Hs].
    split; [|congruence]. split; [exists q, l, es; by rewrite El, E|]. intros token v. rewrite <- C. apply Hc. }
  assert (Hsame : forall m m1, Aside m m1 -> withdrawn m m1 /\ status m1 = status m)
    by (intros m0 m1 Hm; split; [by apply withdrawn_aside|apply Hm]).
  unfold issue_certificate, then_do.
  match goal with |- context [on_disk ?f m] => pose proof (aside_disk f m) as H1; destruct (on_disk f m) as [[u1|e1] m1] end;
    cbn in H1; [|by apply Hsame].
  pose proof (aside_account m1) as H2. destruct (load_or_create_account config m1) as [[account|e2] m2]; cbn in H2;
    [|apply Hsame; by etransitivity].
  match goal with |- context [on_net ?f m2] => pose proof (aside_net f m2) as H3; destruct (on_net f m2) as [[order|e3] m3] end;
    cbn in H3; [|apply Hsame; etransitivity; [exact H1|by etransitivity]].
  assert (Aside m m3) as H13 by (etransitivity; [exact H1|by etransitivity]).
  case_match; [|by apply Hrun]. destruct (build_provider (AcmeConfig.dns config)) as [provider|e] eqn:Eb; [|by apply Hsame].
  apply Hrun; [done|]. by intros p [= <-].
Qed.

Lemma stored_aside (m : Manager) : Aside m (stored_not_after config m).2.
Proof.
  unfold stored_not_after. pose proof (aside_not_after (in_storage config "fullchain.pem") m) as Ha.
  by destruct (certificate_not_after _ m).
Qed.


(** What a refresh leaves in the status. *)
Theorem refresh_outcome (force : bool) (m : Manager) :
  let '(not_after, m1) := stored_not_after config m in
  let m' := refresh config force m in
  if not_due config force not_after m1 then
    status m' = set_not_after not_after (status m) /\ challenges m' = challenges m /\ effects m' = effects m /\
    generation m' = generation m
  else
    st_running (status m') = false /\
    match (issue_certificate config (with_status (begun (status m)) m1)).1 with
    | Ok t => st_certificate_not_after (status m') = Some t /\ st_last_error (status m') = None
    | Err e => st_last_error (status m') = Some e /\ st_certificate_not_after (status m') = st_certificate_not_after (status m)
    end.
Proof.
  unfold refresh. pose proof (stored_aside m) as Hs. destruct (stored_not_after config m) as [not_after m1]. cbn in Hs.
  destruct Hs as [C E S G]. destruct (not_due config force not_after m1); cbn; [by rewrite S|].
  rewrite S. pose proof (issue_withdrawn (with_status (begun (status m)) m1)) as [_ Hi].
  destruct (issue_certificate _ _) as [[t|e] m3]; cbn in *; rewrite Hi; done.
Qed.

(** ** Files *)

Section Writing.
Variables (path temporary contents : string) (mode : Z) (before : Disk).

(** What a write may have done to the files. *)
Definition written_so_far (d : Disk) : Prop :=
  (forall n, nodes d !! temporary = Some n -> Node.mode n = mode) /\
  (forall q n, q <> temporary -> nodes d !! q = Some n -> nodes before !! q = Some n \/ (q = path /\ Node.mode n = mode)).

Lemma call_written {A} (f : Disk -> result A string * Disk) (d : Disk) :
  (forall d, written_so_far d -> written_so_far (f d).2) -> written_so_far d -> written_so_far (call f d).2.
Proof.
  unfold call, written_so_far. intros Hf Hd. pose proof (next_after d) as (Hn & _ & _).
  destruct (next d) as [[|k] d1]; cbn in *; [apply Hf|]; by rewrite Hn.
Qed.

Lemma bind_written {A B} (m : act A) (k : A -> act B) (d : Disk) :
  written_so_far (m d).2 -> (forall a d, written_so_far d -> written_so_far (k a d).2) -> written_so_far (bind m k d).2.
Proof. unfold bind. intros Hm Hk. destruct (m d) as [[a|e] d1]; [by apply Hk|done]. Qed.

Lemma context_written {A} (message : string) (m : act A) (d : Disk) :
  written_so_far (m d).2 -> written_so_far (context message m d).2.
Proof. unfold context. by destruct (m d) as [[a|e] d1]. Qed.

Lemma put_written (n : Node.t) (d : Disk) (q : string) :
  (q = path \/ q = temporary) -> Node.mode n = mode -> written_so_far d -> written_so_far (on_nodes <[q := n]> d).
Proof.
  intros Hq Hn [Ht Hp]. split.
  - intros n' Hn'. cbn in Hn'. destruct (decide (q = temporary)) as [->|Hne].
    + rewrite lookup_insert_eq in Hn'. by simplify_eq.
    + rewrite lookup_insert_ne in Hn' by done. by apply Ht.
  - intros q' n' Hne Hn'. cbn in Hn'. destruct (decide (q = q')) as [->|Hne'].
    + rewrite lookup_insert_eq in Hn'. simplify_eq. right. destruct Hq; [done|congruence].
    + rewrite lookup_insert_ne in Hn' by done. by apply Hp.
Qed.

Lemma drop_written (d : Disk) (q : string) : written_so_far d -> written_so_far (on_nodes (delete q) d).
Proof.
  intros [Ht Hp]. split; intros *; cbn; rewrite lookup_delete_Some.
  - intros [_ Hn]. by apply Ht.
  - intros Hne [_ Hn]. by apply Hp.
Qed.

Lemma write_file_written (d : Disk) :
  nodes before !! temporary = None -> written_so_far d -> written_so_far (write_file path temporary contents mode d).2.
Proof.
  intros Hnone Hd. unfold write_file. apply bind_written; [by apply call_written|]. intros _ d1 H1.
  apply bind_written.
  { apply context_written, call_written; [|done]. intros d2 H2. case_match; [done|]. apply put_written; auto. }
  intros _ d2 H2. apply bind_written.
  { assert (Halter : forall text d, written_so_far d -> written_so_far
      (on_nodes (alter (fun n => {| Node.text := text; Node.mode := Node.mode n |}) temporary) d)).
    { intros text d3 [Ht Hp]. split; cbn.
      - intros n. rewrite lookup_alter_eq. intros (n' & Hn' & ->)%fmap_Some. by apply (Ht n').
      - intros q n Hne. rewrite lookup_alter_ne by congruence. by apply Hp. }
    unfold write_all. pose proof (next_after d2) as (Hn & _ & _).
    destruct (next d2) as [[|k] d3]; cbn in Hn |- *; apply Halter; unfold written_so_far; by rewrite Hn. }
  intros _ d3 H3. apply bind_written; [by apply call_written|]. intros _ d4 H4. apply bind_written.
  { apply context_written, call_written; [|done]. intros d5 H5. destruct (nodes d5 !! temporary) as [n|] eqn:En; [|done].
    assert (Hp : written_so_far (on_nodes <[path := n]> (on_nodes (delete temporary) d5))); [|exact Hp].
    apply put_written; [by left| |by apply drop_written]. by apply H5. }
  intros _ d5 H5. apply call_written; [|done]. intros d6 H6. destruct (nodes d6 !! path) as [n|]; [|done].
  cbn. apply (put_written _ d6 path); auto.
Qed.
End Writing.
Lemma call_nodes {A} (f : Disk -> result A string * Disk) (d : Disk) :
  (forall d, nodes (f d).2 = nodes d) -> nodes (call f d).2 = nodes d.
Proof.
  intros Hf. unfold call. pose proof (next_after d) as (Hn & _ & _). destruct (next d) as [[|k] d1]; cbn in *; [|done].
  by rewrite Hf.
Qed.

(** A write adds only files of its mode, at the path or its temporary. *)
Lemma write_file_adds (path temporary contents : string) (mode : Z) (d : Disk) (q : string) (n : Node.t) :
  nodes (write_file path temporary contents mode d).2 !! q = Some n ->
  nodes d !! q = Some n \/ ((q = path \/ q = temporary) /\ Node.mode n = mode).
Proof.
  intros Hq. destruct (nodes d !! temporary) as [t|] eqn:Et.
  - left. rewrite <- Hq. symmetry. f_equal. unfold write_file, bind.
    pose proof (call_nodes (fun d => (Ok tt, d)) d (fun _ => eq_refl)) as H1. fold (create_dir_all (split_name path).2) in H1.
    destruct (create_dir_all _ d) as [[u|e] d1]; cbn in H1; [|done]. unfold context, create_with_mode, call.
    pose proof (next_after d1) as (Hn & _ & _). destruct (next d1) as [[|k] d2]; cbn in Hn; [|by cbn; congruence].
    rewrite Hn, H1, Et. cbn. congruence.
  - destruct (write_file_written path temporary contents mode d d Et) as [Ht Hp].
    { split; [by rewrite Et|by left]. }
    destruct (decide (q = temporary)) as [->|Hne]; [right; split; [by right|by apply Ht]|].
    destruct (Hp q n Hne Hq) as [|[-> Hm]]; [by left|right; split; [by left|done]].
Qed.

Lemma write_file_ok (path temporary contents : string) (mode : Z) (d d' : Disk) :
  temporary <> path -> write_file path temporary contents mode d = (Ok tt, d') ->
  nodes d' = <[path := {| Node.text := contents; Node.mode := mode |}]> (nodes d).
Proof.
  intros Hne. unfold write_file, bind.
  destruct (create_dir_all _ d) as [[u1|e1] d1] eqn:E1; [|done]. apply call_ok in E1 as (d1' & N1 & [= <- <-]).
  unfold context at 1. destruct (create_with_mode temporary mode d1') as [[u2|e2] d2] eqn:E2; [|done].
  apply call_ok in E2 as (d2' & N2 & E2). destruct (nodes d2' !! temporary) as [t|] eqn:Et; [done|]. simplify_eq.
  unfold write_all. pose proof (next_after (on_nodes <[temporary := {| Node.text := ""; Node.mode := mode |}]> d2')) as (N3 & _ & _).
  destruct (next _) as [[|k] d3]; cbn in N3; [|done].
  destruct (sync_all temporary _) as [[u4|e4] d4] eqn:E4; [|done]. apply call_ok in E4 as (d4' & N4 & [= <- <-]). cbn in N4.
  unfold context at 1. destruct (rename temporary path d4') as [[u5|e5] d5] eqn:E5; [|done].
  apply call_ok in E5 as (d5' & N5 & E5). rewrite N5, N4, N3, lookup_alter_eq, lookup_insert_eq in E5. cbn in E5. simplify_eq.
  intros E6. apply call_ok in E6 as (d6' & N6 & E6). cbn in N6. rewrite N6, lookup_insert_eq in E6. simplify_eq. cbn.
  rewrite N6, N5, N4, N3. rewrite insert_insert_eq. f_equal. apply map_eq. intros q.
  destruct (decide (q = temporary)) as [->|Hq].
  - rewrite lookup_delete_eq. by rewrite <- N1, <- N2, Et.
  - rewrite lookup_delete_ne, lookup_alter_ne, lookup_insert_ne by congruence. congruence.
Qed.
(** ** Modes of what is written *)

Definition fullchain : string := in_storage config "fullchain.pem".
Definition privkey : string := in_storage config "privkey.pem".

(** A file others may read is the certificate or on its way there. *)
Definition public_file (q : string) : Prop := q = fullchain \/ exists uuid, q = temporary_path fullchain uuid.

Definition guards_files (m m' : Manager) : Prop :=
  forall q n, nodes (store_disk m') !! q = Some n ->
  nodes (store_disk m) !! q = Some n \/ Node.mode n = OWNER_ONLY \/ public_file q.

#[local] Instance guards_files_preorder : PreOrder guards_files.
Proof.
  split; [by left|]. intros m1 m2 m3 H12 H23 q n Hq. destruct (H23 q n Hq) as [Hq'|Hn]; [by apply H12|by right].
Qed.

Definition guarding {A} (x : step A) : Prop := forall m, guards_files m (x m).2.

Lemma guarding_then {A B} (x : step A) (k : A -> step B) : guarding x -> (forall a, guarding (k a)) -> guarding (then_do x k).
Proof.
  intros Hx Hk m. unfold then_do. specialize (Hx m). destruct (x m) as [[a|e] m1]; cbn in *; [|done].
  etransitivity; [exact Hx|]. apply Hk.
Qed.

Lemma guarding_same {A} (x : step A) : (forall m, nodes (store_disk (x m).2) = nodes (store_disk m)) -> guarding x.
Proof. intros Hx m q n. rewrite Hx. by left. Qed.

Lemma guarding_done {A} (a : A) : guarding (done_with a).
Proof. by apply guarding_same. Qed.
Lemma guarding_fails {A} (e : string) : guarding (A := A) (fails e).
Proof. by apply guarding_same. Qed.
Lemma guarding_net {A} (f : DnsNet -> result A string * DnsNet) : guarding (on_net f).
Proof. apply guarding_same. intros m. unfold on_net. by destruct (f (net m)). Qed.
Lemma guarding_disk {A} (f : act A) : (forall d, nodes (f d).2 = nodes d) -> guarding (on_disk f).
Proof. intros Hf. apply guarding_same. intros m. unfold on_disk. pose proof (Hf (store_disk m)). by destruct (f (store_disk m)). Qed.

Lemma read_file_nodes (path : string) (d : Disk) : nodes (read_file path d).2 = nodes d.
Proof. by apply call_nodes. Qed.

Lemma context_nodes {A} (message : string) (f : act A) (d : Disk) :
  nodes (f d).2 = nodes d -> nodes (context message f d).2 = nodes d.
Proof. unfold context. by destruct (f d) as [[a|e] d']. Qed.

Lemma guarding_write (path contents : string) (mode : Z) :
  mode = OWNER_ONLY \/ path = fullchain -> guarding (atomic_write path contents mode).
Proof.
  intros Hmode m q n. unfold atomic_write. destruct (new_uuid (net m)) as [uuid n'] eqn:Eu. unfold on_disk.
  pose proof (write_file_adds path (temporary_path path uuid) contents mode (store_disk m) q n) as Hw.
  cbn. destruct (write_file _ _ _ _ _) as [r d']. intros Hq. destruct (Hw Hq) as [Hn|[Hp Hn]]; [by left|right].
  destruct Hmode as [->| ->]; [by left|right]. destruct Hp as [->| ->]; [by left|right; by eexists].
Qed.

Hint Resolve guarding_done guarding_fails guarding_net : aside.
Ltac guard_files := repeat first [apply guarding_then; [auto with aside|intros ?] | case_match | by auto with aside].
Ltac guard_now := lazymatch goal with |- guards_files ?m (?x ?m).2 => cut (guarding x); [intros Hx; apply Hx|guard_files] end.

Lemma guarding_read (path : string) : guarding (on_disk (read_file path)).
Proof. apply guarding_disk, read_file_nodes. Qed.
Hint Resolve guarding_read : aside.

Lemma guarding_not_after (path : string) : guarding (certificate_not_after path).
Proof. intros m. unfold certificate_not_after. case_bool; [done|]. guard_now. Qed.

Lemma guarding_context_read (message path : string) : guarding (on_disk (context message (read_file path))).
Proof. apply guarding_disk. intros d. apply context_nodes, read_file_nodes. Qed.

Lemma guarding_owner_write (path contents : string) : guarding (atomic_write path contents OWNER_ONLY).
Proof. apply guarding_write. by left. Qed.
Hint Resolve guarding_not_after guarding_context_read guarding_owner_write : aside.

Lemma guarding_account : guarding (load_or_create_account config).
Proof. intros m. unfold load_or_create_account. case_bool; guard_now. Qed.

Lemma guarding_ready (urls : list AuthorizationUrl) : guarding (ready_all config urls).
Proof. induction urls as [|url urls IH]; cbn [ready_all]; guard_files. Qed.

Lemma guarding_failures (urls : list AuthorizationUrl) (l : list string) : guarding (collect_failures urls l).
Proof. revert l. induction urls as [|url urls IH]; intros l; cbn [collect_failures]; guard_files. Qed.
Hint Resolve guarding_account guarding_ready guarding_failures : aside.

Lemma guarding_order (order : Order) : guarding (complete_order order).
Proof. unfold complete_order. guard_files. Qed.

Lemma provision_store (provider : option DnsProvider) (order : Order) (a : Authorization) (c : Challenge) (m : Manager) :
  store_disk (provision config provider order a c m).2 = store_disk m.
Proof.
  unfold provision. case_bool; [done|]. destruct provider as [provider|]; [|done]. unfold then_do, on_net.
  by destruct (present provider _ _ (net m)) as [[record|e] n].
Qed.

Lemma provision_all_store (provider : option DnsProvider) (order : Order) (urls : list AuthorizationUrl)
    (l : list ProvisionedChallenge) (m : Manager) :
  store_disk (provision_all config provider order urls l m).2 = store_disk m.
Proof.
  revert l m. induction urls as [|url urls IH]; intros l m; [done|]. cbn [provision_all]. unfold on_net.
  destruct (fetch_authorization url (net m)) as [[a|e] n]; [|done]. case_match; [by rewrite IH| |done].
  pose proof (provision_store provider order a c (with_net n m)) as Hp.
  destruct (provision config provider order a c (with_net n m)) as [[p|e] m1]; cbn in *; [by rewrite IH|done].
Qed.

Lemma authorize_guards (provider : option DnsProvider) (order : Order) (m : Manager) :
  guards_files m (authorize config provider order m).2.
Proof.
  unfold authorize. pose proof (provision_all_store provider order (order_authorizations order) [] m) as Hp.
  destruct (provision_all _ _ _ _ _ m) as [[[u|e] l] m1]; cbn in Hp; [|intros q n; cbn; rewrite Hp; by left].
  match goal with |- context [ready_all config ?urls ?m2] => pose proof (guarding_ready urls m2) as Hr;
    assert (store_disk m2 = store_disk m) as H2 by (by case_match) end.
  destruct (ready_all config _ _) as [r m3]. cbn in *. intros q n Hq. destruct (Hr q n Hq) as [Hn|Hn]; [left; by rewrite <- H2|by right].
Qed.

Lemma cleanup_all_store (provider : option DnsProvider) (l : list ProvisionedChallenge) (m : Manager) :
  store_disk (cleanup_all provider l m) = store_disk m.
Proof.
  revert m. induction l as [|c l IH]; intros m; [done|]. cbn [cleanup_all foldl].
  fold (cleanup_all provider l (cleanup_challenge provider c m).2). rewrite IH. destruct c as [token|record]; [done|].
  cbn. destruct provider as [provider|]; [|done]. unfold on_net. by destruct (cleanup provider record _).
Qed.

Lemma install_guards (issued : string * string) : guarding (install config issued).
Proof.
  intros m. unfold install. revert m.
  apply (guarding_then (atomic_write (in_storage config "fullchain.pem") issued.1 EVERYONE_READS));
    [apply guarding_write; by right|intros _].
  apply (guarding_then (atomic_write (in_storage config "privkey.pem") issued.2 OWNER_ONLY)); [auto with aside|intros _ m].
  transitivity (notify_certificate_update m); [intros q n; by left|]. guard_now.
Qed.

Lemma run_order_guards (provider : option DnsProvider) (order : Order) : guarding (run_order config provider order).
Proof.
  intros m. unfold run_order. pose proof (authorize_guards provider order m) as Ha.
  destruct (authorize config provider order m) as [[authorized l] m1]. cbn in Ha.
  assert (guards_files m1 (match authorized with Ok _ => complete_order order m1 | Err e => (Err e, m1) end).2) as Hi
    by (destruct authorized; [apply guarding_order|done]).
  destruct (match authorized with Ok _ => complete_order order m1 | Err e => (Err e, m1) end) as [issued m2]. cbn in Hi.
  assert (guards_files m2 (cleanup_all provider (rev l) m2)) as Hc by (intros q n; rewrite cleanup_all_store; by left).
  etransitivity; [exact Ha|]. etransitivity; [exact Hi|]. etransitivity; [exact Hc|].
  destruct issued as [issued|e]; [apply install_guards|done].
Qed.

Lemma issue_guards : guarding (issue_certificate config).
Proof.
  unfold issue_certificate. apply guarding_then; [apply guarding_disk; intros d; apply context_nodes; by apply call_nodes|intros _].
  apply guarding_then; [auto with aside|intros account]. apply guarding_then; [auto with aside|intros order].
  case_match; [|apply run_order_guards]. case_match; [apply run_order_guards|apply guarding_fails].
Qed.

(** C18: Whatever fails, a refresh leaves no new file or content that others may
    read except the certificate itself: keys and account credentials are for
    the owner alone, also in temporary files that are left behind. *)
Theorem secrets_stay_private (force : bool) (m : Manager) (q : string) (n : Node.t) :
  nodes (store_disk (refresh config force m)) !! q = Some n ->
  nodes (store_disk m) !! q = Some n \/ Node.mode n = OWNER_ONLY \/ public_file q.
Proof.
  revert q n. fold (guards_files m (refresh config force m)). unfold refresh.
  assert (guards_files m (stored_not_after config m).2) as Hs.
  { unfold stored_not_after. pose proof (guarding_not_after (in_storage config "fullchain.pem") m) as Ha.
    by destruct (certificate_not_after _ m). }
  destruct (stored_not_after config m) as [not_after m1]. cbn in Hs. case_match; [exact Hs|].
  set (m2 := with_status (begun (status m1)) m1). pose proof (issue_guards m2) as Hi.
  transitivity m2; [exact Hs|]. by destruct (issue_certificate config m2) as [[t|e] m3].
Qed.

(** ** A success *)

Lemma temporary_differs (name other uuid : string) :
  contains_char "/" name = false -> str_is_empty name = false -> starts_with "." other = false ->
  temporary_path (in_storage config name) uuid <> in_storage config other.
Proof.
  intros Hn He Ho. unfold temporary_path, in_storage. rewrite split_name_join, He by done.
  rewrite (path_join_prefix (AcmeConfig.storage_directory config) other). intros Heq%str_app_inj_l.
  rewrite <- Heq in Ho. done.
Qed.

Lemma install_ok (issued : string * string) (m m' : Manager) (not_after : Z) :
  install config issued m = (Ok not_after, m') ->
  nodes (store_disk m') !! fullchain = Some {| Node.text := issued.1; Node.mode := EVERYONE_READS |} /\
  nodes (store_disk m') !! privkey = Some {| Node.text := issued.2; Node.mode := OWNER_ONLY |} /\
  x509_not_after issued.1 = Ok not_after.
Proof.
  unfold install, then_do, atomic_write at 1. destruct (new_uuid (net m)) as [uuid1 n1]. unfold on_disk at 1.
  cbn [store_disk with_net]. destruct (write_file _ _ _ _ _) as [[[]|e1] d1] eqn:E1; [|done].
  apply write_file_ok in E1; [|by apply temporary_differs].
  unfold atomic_write. cbn [net with_store with_net]. destruct (new_uuid n1) as [uuid2 n2]. unfold on_disk at 1. cbn [store_disk with_net with_store].
  destruct (write_file _ _ _ _ d1) as [[[]|e2] d2] eqn:E2; [|done]. apply write_file_ok in E2; [|by apply temporary_differs].
  assert (Hne : privkey <> fullchain).
  { unfold privkey, fullchain, in_storage. rewrite (path_join_prefix _ "privkey.pem"), (path_join_prefix _ "fullchain.pem").
    intros Heq%str_app_inj_l. done. }
  assert (Hfull : nodes d2 !! fullchain = Some {| Node.text := issued.1; Node.mode := EVERYONE_READS |})
    by (rewrite E2, lookup_insert_ne, E1 by done; apply lookup_insert_eq).
  unfold certificate_not_after, exists_at. cbn [store_disk notify_certificate_update with_store with_net].
  fold fullchain. rewrite Hfull. rewrite bool_decide_eq_true_2 by eauto. cbn [negb]. unfold on_disk, then_do.
  cbn [store_disk notify_certificate_update with_store with_net].
  destruct (read_file fullchain d2) as [[text|e3] d3] eqn:E3; [|done].
  pose proof (read_file_nodes fullchain d2) as Hn3. rewrite E3 in Hn3. cbn in Hn3.
  apply call_ok in E3 as (d4 & N4 & E4). unfold text_at in E4. rewrite N4, Hfull in E4. cbn in E4. simplify_eq.
  destruct (x509_not_after issued.1) as [t|e4] eqn:Et; [|done]. cbn. intros [= -> <-]. cbn. rewrite Hn3.
  split; [done|]. split; [|done]. rewrite E2. apply lookup_insert_eq.
Qed.

(** The authority issued a certificate for a key. *)
Definition issued_by_authority (certificate key : string) : Prop :=
  exists order n n1 n2, finalize order n = (Ok key, n1) /\ poll_certificate order n1 = (Ok certificate, n2).

Lemma complete_order_ok (order : Order) (m m' : Manager) (issued : string * string) :
  complete_order order m = (Ok issued, m') -> issued_by_authority issued.1 issued.2.
Proof.
  unfold complete_order, then_do, on_net. destruct (poll_ready order (net m)) as [[[name|]|e] n]; [|cbn|done].
  - by destruct (collect_failures _ _ _) as [[|] ?].
  - destruct (finalize order n) as [[key|e] n1] eqn:Ef; [cbn|done].
    destruct (poll_certificate order n1) as [[certificate|e] n2] eqn:Ep; [|done].
    intros [= <- _]. by exists order, n, n1, n2.
Qed.

Lemma run_order_installs (provider : option DnsProvider) (order : Order) (m m' : Manager) (not_after : Z) :
  run_order config provider order m = (Ok not_after, m') ->
  exists issued m1, install config issued m1 = (Ok not_after, m') /\ issued_by_authority issued.1 issued.2.
Proof.
  unfold run_order. destruct (authorize _ _ _ _) as [[[[]|e] l] m1]; [|done].
  destruct (complete_order order m1) as [[issued|e] m2] eqn:Eo; [|done]. apply complete_order_ok in Eo.
  intros Hr. by eexists _, _.
Qed.

Lemma issue_installs (m m' : Manager) (not_after : Z) :
  issue_certificate config m = (Ok not_after, m') ->
  exists issued m1, install config issued m1 = (Ok not_after, m') /\ issued_by_authority issued.1 issued.2.
Proof.
  unfold issue_certificate, then_do.
  match goal with |- context [on_disk ?f m] => destruct (on_disk f m) as [[u1|e1] m1] end; [|done].
  destruct (load_or_create_account config m1) as [[account|e2] m2]; [|done].
  match goal with |- context [on_net ?f m2] => destruct (on_net f m2) as [[order|e3] m3] end; [|done].
  case_match; [|apply run_order_installs]. case_match; [apply run_order_installs|done].
Qed.

(** A certificate that is reported as issued is on the disk whole, readable
    by all, with the key it was issued for, for the owner alone. *)
Theorem issued_certificates_are_installed (m m' : Manager) (not_after : Z) :
  issue_certificate config m = (Ok not_after, m') ->
  exists certificate key,
    issued_by_authority certificate key /\
    nodes (store_disk m') !! fullchain = Some {| Node.text := certificate; Node.mode := EVERYONE_READS |} /\
    nodes (store_disk m') !! privkey = Some {| Node.text := key; Node.mode := OWNER_ONLY |} /\
    x509_not_after certificate = Ok not_after /\ st_running (status m') = st_running (status m).
Proof.
  intros Hissue. pose proof (issue_withdrawn m) as [_ Hs]. rewrite Hissue in Hs. cbn in Hs.
  destruct (issue_installs m m' not_after Hissue) as (issued & m1 & Hi & Hby).
  destruct (install_ok issued m1 m' not_after Hi) as (H1 & H2 & H3).
  exists issued.1, issued.2. split_and!; [done|done|done|done|by rewrite Hs].
Qed.
End AcmeTheorems.

(** *** Examples *)

Module Example.

(** An authority that issues [CERT2] with [KEY2] for one name after an answer
    over HTTP, unless [offline]. *)
Record Sim : Type := { clock : Z; drawn : Z; offline : bool }.

Definition pending : Authorization :=
  {| au_status := AuthPending; au_identifier := "mirror.example";
     au_challenges := [{| ch_type := Dns01; ch_token := "d"; ch_error := None |};
                       {| ch_type := Http01; ch_token := "tok"; ch_error := None |}] |}.

#[local] Instance no_json : JsonApi := {| json_from_slice _ := None; json_to_vec _ := None |}.
#[local] Instance plain_csrf : CsrfApi :=
  {| hmac_sha256 k v := k +:+ v; hex_encode s := s; hex_decode s := Some s; authority_parse s := Some (s, None) |}.
#[local] Instance no_dns : DnsApi :=
  {| DnsNet := Sim; dns_send _ n := (Err "offline", n); dns_uuid n := (show_uint (drawn n), n); dns_now n := clock n;
     format_time _ _ := ""; date_of_timestamp _ := None; hmac_sha1 k v := k +:+ v; status_text := show_uint; base64_standard s := s; xml_events _ := [] |}.

#[local] Instance authority : AcmeApi :=
  {| Account := unit; Credentials := unit; Order := unit; AuthorizationUrl := unit;
     parse_credentials _ := Some tt; restore_account _ n := (Ok tt, n);
     create_account _ _ n := (Ok (tt, "CREDENTIALS"), n);
     new_order _ _ n := (if offline n then Err "connection refused" else Ok tt, n);
     order_authorizations _ := [tt];
     fetch_authorization _ n := (Ok pending, n);
     key_authorization _ token := token +:+ ".thumbprint";
     dns_value key := key;
     set_ready _ _ n := (Ok tt, n);
     poll_ready _ n := (Ok None, n);
     finalize _ n := (Ok "KEY2", n);
     poll_certificate _ n := (Ok "CERT2", n);
     x509_not_after text := if (text =? "CERT2")%string then Ok 100000000 else if (text =? "CERT1")%string then Ok 0 else Err "PEM";
     sleep_secs _ n := n;
     unix_timestamp n := clock n;
     new_uuid n := (show_uint (drawn n), {| clock := clock n; drawn := (drawn n + 1)%Z; offline := offline n |}) |}.

Definition settings : AcmeConfig.t :=
  {| AcmeConfig.enabled := true; AcmeConfig.email := "ops@example.com"; AcmeConfig.domains := ["mirror.example"];
     AcmeConfig.challenge := "http-01"; AcmeConfig.directory_url := "https://acme.example"; AcmeConfig.storage_directory := "/acme";
     AcmeConfig.renew_before_days := 30; AcmeConfig.check_interval_hours := 12; AcmeConfig.direct_https := false;
     AcmeConfig.http_listen_addr := ""; AcmeConfig.https_listen_addr := ""; AcmeConfig.redirect_http_to_https := true;
     AcmeConfig.dns := AcmeDnsConfig.default |}.

Definition quiet_status : AcmeStatus :=
  {| st_certificate_not_after := Some 0; st_last_success_at := None; st_last_error := None; st_running := false; st_https_active := true |}.

Definition kept (text : string) (mode : Z) : Node.t := {| Node.text := text; Node.mode := mode |}.

(** A host whose certificate has run out; the calls of the file system take
    their outcomes from [faults]. *)
Definition host (faults : list fault) (is_offline : bool) : Manager :=
  {| store_disk := {| nodes := <["/acme/fullchain.pem" := kept "CERT1" 420]> (<["/acme/privkey.pem" := kept "KEY1" 384]>
                       (<["/acme/account.json" := kept "CREDENTIALS" 384]> ∅)); links := ∅; tape := faults; sequence := 0 |};
     challenges := ∅; status := quiet_status; generation := 0; net := ({| clock := 50000000; drawn := 7; offline := is_offline |} : DnsNet);
     effects := [] |}.

Definition pair_of (m : Manager) : option string * option string :=
  (text_at (store_disk m) "/acme/fullchain.pem", text_at (store_disk m) "/acme/privkey.pem").

Definition renewed (m : Manager) : Manager := refresh settings false m.

Lemma renewal_works :
  let m := renewed (host [] false) in
  pair_of m = (Some "CERT2", Some "KEY2") /\ effects m = [Presented (ProvisionedHttp "tok"); CleanedUp (ProvisionedHttp "tok") (Ok tt)] /\
  challenges m = ∅ /\ generation m = 1 /\ status m = succeeded 50000000 100000000 (begun quiet_status).
Proof. vm_compute. repeat split. Qed.

(** The certificate is installed, then the write of its key fails. The next
    refreshes find a certificate that is not due and leave the pair that does
    not belong together. *)
Definition half_renewed : Manager := renewed (host (repeat Fine 11 ++ [Fails 0]) false).

Lemma mismatched_pair_is_kept :
  pair_of half_renewed = (Some "CERT2", Some "KEY1") /\ generation half_renewed = 0 /\
  pair_of (renewed half_renewed) = (Some "CERT2", Some "KEY1") /\
  st_last_error (status (renewed half_renewed)) = st_last_error (status half_renewed).
Proof. vm_compute. repeat split. Qed.

(** The worker takes the message of a trigger and fails before the trigger
    goes on to set [running]: every later one is refused, and a refresh that is
    not due does not clear it. *)
Definition raced : AcmeWorld :=
  run_acme settings [AskRenewal; SendTrigger 0; WorkerMessage; MarkRunning 0]
    {| manager := with_store {| nodes := <["/acme/fullchain.pem" := kept "CERT2" 420]> ∅; links := ∅; tape := []; sequence := 0 |}
                    (host [] true); queued := false; triggers := [] |}.

Lemma trigger_stays_running :
  st_running (status (manager raced)) = true /\ st_last_error (status (manager raced)) = Some "connection refused" /\
  (acme_step settings AskRenewal raced).1 = Some RenewalRunning /\
  (acme_step settings AskRenewal (run_acme settings [WorkerTimer; WorkerMessage; WorkerTimer] raced)).1 =
    Some RenewalRunning.
Proof. vm_compute. repeat split. Qed.

Lemma secrets_stay_private_witness :
  nodes (store_disk (host [] false)) !! "/acme/privkey.pem" = Some (kept "KEY2" 384) \/ 384 = OWNER_ONLY \/
  public_file settings "/acme/privkey.pem".
Proof.
  apply (secrets_stay_private settings false (host [] false) "/acme/privkey.pem" (kept "KEY2" 384)).
  vm_compute. reflexivity.
Defined.

Lemma issued_certificates_are_installed_witness :
  exists certificate, x509_not_after certificate = Ok 100000000.
Proof.
  destruct (issued_certificates_are_installed settings (host [] false)
    (issue_certificate settings (host [] false)).2 100000000) as (certificate & key & _ & _ & _ & Ht & _).
  - vm_compute. reflexivity.
  - exists certificate. exact Ht.
Defined.
End Example.
