(* ===== verification/ClientDownload.v ===== *)
(** * Downloads of the client

    [crates/client/src/download.rs]: the token of an instance, the requests to
    its download service, and the file a download becomes.  The service, the
    canonical form of a directory and what other processes do to the disk while
    a response is awaited are variables; paths are as written, a trailing slash
    or dot is dropped.  Input that is not UTF-8 is no valid token. *)
From stdpp Require Import gmap.
From S2P Require Import Prelude RustStr Lines Headers Url Json Users Fs ClientFiles Systems SystemRewrite Setup ClientSources.
Open Scope string_scope.
Open Scope Z_scope.
Open Scope list_scope.
Open Scope mirror_scope.
Open Scope act_scope.

(** A response: its body comes in chunks and may be cut off; a content type that
    is not text is [None]. *)
Record Reply : Type := {
  rp_status : Z;
  rp_content_type : option string;
  rp_content_length : option Z;
  rp_chunks : list string;
  rp_interrupted : bool;
}.

(** The answer to a [GET] with a query and a bearer token. *)
Class DownloadService : Type := {
  download_get : string -> list (string * string) -> string -> option Reply;
}.

Inductive DownloadCommand : Type :=
| Auth (logout : bool)
| Check (url : string)
| Fetch (url output : string) (max_bytes : Z).

(** ** Tokens *)

Definition valid_token (token : string) : bool :=
  (str_len token =? 52) && starts_with "mpd_" token && all_bytes is_ascii_alphanumeric (String.substring 4 48 token).

Definition first_line (s : string) : string :=
  match split_once newline s with Some (line, _) => line | None => s end.

Definition read_auth_token (input : string) (interactive : bool) : result string string :=
  let bounded := String.substring 0 256 input in
  let token := str_trim (if interactive then first_line bounded else bounded) in
  if valid_token token then Ok token else Err "expected a download-only token from the account page".

Section Client.
Context `{UrlApi} `{JsonApi} `{SecretApi} {service : DownloadService}.
Variable env : Env.
(** [MIRRORPROXY_DOWNLOAD_TOKEN]. *)
Variable env_token : option string.
(** [std::process::id()]. *)
Variable pid : Z.
(** [fs::canonicalize] of a directory. *)
Variable canonicalize : string -> option string.
(** What other processes do during the [k]-th wait. *)
Variable meanwhile : nat -> Disk -> Disk.

Definition loopback (host : option string) : bool :=
  match host with Some h => one_of ["localhost"; "127.0.0.1"; "[::1]"] h | None => false end.

Definition base (value : string) : result string string :=
  let? base := validated_base_url value in
  match url_parse base with
  | None => Err "invalid URL"
  | Some u =>
      if (url_scheme u =? "https")%string || loopback (url_host_str u) then Ok base
      else Err "download authentication requires HTTPS (except loopback development)"
  end.

Definition credential_path (base : string) : result string string :=
  let? home := result_of_option (user_home env) "user home is unavailable" in
  Ok (path_join (path_join home ".mirrorproxy/credentials") (sha256_hex base +:+ ".token")).

Definition unavailable : string :=
  "download token unavailable; configure it locally with mirrorproxy download --base-url ORIGIN auth --token-stdin".

(** The file is opened, then looked at, then read. *)
Definition token (base : string) : act string :=
  match env_token with
  | Some token => do? _ := ensure (valid_token token) "invalid download token in environment" in ret token
  | None =>
      do? path := of_result (credential_path base) in
      do? _ := reject_symlink path in
      do? file := context unavailable (metadata path) in
      do? _ := call (fun d => (Ok tt, d)) in
      do? _ := ensure (Z.land (Node.mode file) 63 =? 0) "download credential permissions must be 0600" in
      do? text := call (fun d => (Ok (String.substring 0 256 (Node.text file)), d)) in
      let text := str_trim text in
      do? _ := ensure (valid_token text) "invalid stored download token" in
      ret text
  end.

(** ** Requests *)

Definition validate_url (value : string) : result unit string :=
  if negb (str_len value <=? 8192) then Err "download URL is too long"
  else
    match url_parse value with
    | None => Err "invalid download URL"
    | Some u =>
        if (url_scheme u =? "https")%string && bool_decide (url_port_or_known_default u = Some 443)
           && bool_decide (is_Some (url_host_str u)) && no_credentials u && bool_decide (url_fragment u = None)
        then Ok tt else Err "download target must be credential-free HTTPS on port 443"
    end.

(** The wait number [k]. *)
Definition wait (k : nat) : act unit := fun d => (Ok tt, meanwhile k d).

Definition request (origin url : string) (check : bool) : act Reply :=
  do? _ := of_result (validate_url url) in
  do? origin := of_result (base origin) in
  do? token := token origin in
  do? _ := wait 0 in
  do? response := of_option (download_get (origin +:+ "/api/download" +:+ if check then "/check" else "") [("url", url)] token)
    "download service request failed; check instance connectivity and TLS" in
  do? _ := ensure ((200 <=? rp_status response) && (rp_status response <? 300))
    ("download service rejected request (HTTP " +:+ show_uint (rp_status response)
     +:+ "); check permission, domain policy and quota") in
  ret response.

(** The body of a policy response. *)
Fixpoint collect_policy (chunks : list string) (interrupted : bool) (bytes : string) : result string string :=
  match chunks with
  | [] => if interrupted then Err "policy response interrupted" else Ok bytes
  | chunk :: chunks =>
      if str_len bytes + str_len chunk <=? 65536 then collect_policy chunks interrupted (bytes +:+ chunk)
      else Err "policy response too large"
  end.

Definition check (base url : string) : act Value :=
  do? response := request base url true in
  do? _ := ensure match rp_content_type response with Some v => starts_with "application/json" v | None => false end
    "download service returned non-JSON policy response" in
  do? bytes := of_result (collect_policy (rp_chunks response) (rp_interrupted response) "") in
  of_option (json_from_slice bytes) "invalid policy response".

(** ** Files *)

Definition drop_current (path : string) : string :=
  match strip_suffix "/." path with Some p => trim_end_matches "/" p | None => path end.

(** [Path::parent] and [Path::file_name]. *)
Definition parent_and_name (path : string) : string * option string :=
  let path := Nat.iter (String.length path) drop_current (trim_end_matches "/" path) in
  let '(name, parent) := split_name path in
  (parent, if one_of [""; "."; ".."] name then None else Some name).

(** [write_all] at the end of the open file. *)
Definition append_all (path content : string) : act unit := fun d =>
  let put text := on_nodes (alter (fun n => {| Node.text := Node.text n +:+ text; Node.mode := Node.mode n |}) path) in
  match next d with
  | (Fine, d) => (Ok tt, put content d)
  | (Fails n, d) => (Err "input/output error", put (String.substring 0 n content) d)
  end.

(** [fs::hard_link]. *)
Definition hard_link (from to : string) : act unit := call (fun d =>
  if bool_decide (is_Some (nodes d !! to) \/ is_Some (links d !! to)) then (Err "file exists", d)
  else match nodes d !! from with
       | Some n => (Ok tt, on_nodes <[to := n]> d)
       | None => (Err not_found, d)
       end).

Definition temporary_path (parent : string) : act string := fun d =>
  (Ok (path_join parent (".mirrorproxy-download-" +:+ show_uint pid +:+ "-" +:+ show_uint (Z.of_nat (sequence d)))),
   {| nodes := nodes d; links := links d; tape := tape d; sequence := S (sequence d) |}).

(** [Temporary] is removed when it goes out of scope. *)
Definition with_temporary {A} (path : string) (m : act A) : act A := fun d =>
  let '(r, d) := m d in (r, (remove_file path d).2).

(** The loop of [fetch]: the length and the bytes that were written. *)
Fixpoint receive (max_bytes : Z) (temporary : string) (chunks : list string) (interrupted : bool) (k : nat) (size : Z)
    (body : string) : act (Z * string) :=
  match chunks with
  | [] =>
      do? _ := wait k in
      do? _ := ensure (negb interrupted) "download interrupted; partial file removed" in
      ret (size, body)
  | chunk :: chunks =>
      do? _ := wait k in
      let size := sat_add_u64 size (str_len chunk) in
      do? _ := ensure (size <=? max_bytes) "download exceeds local file size limit" in
      do? _ := append_all temporary chunk in
      receive max_bytes temporary chunks interrupted (S k) size (body +:+ chunk)
  end.

Definition length_allows (expected : option Z) (p : Z -> bool) : bool :=
  match expected with Some n => p n | None => true end.

Definition report (output : string) (size : Z) (body : string) : Value :=
  Object [("bytes", Number (show_uint size)); ("path", Str output); ("sha256", Str (sha256_hex body))].

(** What follows when the temporary file is there. *)
Definition fill_and_publish (temporary output : string) (max_bytes : Z) (response : Reply) : act Value :=
  do? received := receive max_bytes temporary (rp_chunks response) (rp_interrupted response) 1 0 "" in
  do? _ := ensure (length_allows (rp_content_length response) (fun n => n =? received.1)) "incomplete download" in
  do? _ := sync_all temporary in
  do? _ := context "cannot publish output; filesystem must support hard links and destination must not exist"
    (hard_link temporary output) in
  ret (report output received.1 received.2).

Definition save (parent output : string) (max_bytes : Z) (response : Reply) : act Value :=
  do? _ := ensure (rp_status response =? 200) "partial download responses are not supported by this command" in
  do? _ := ensure (length_allows (rp_content_length response) (fun n => n <=? max_bytes)) "download exceeds local file size limit" in
  do? temporary := temporary_path parent in
  do? _ := context "cannot create download temporary file" (create_new temporary) in
  with_temporary temporary (fill_and_publish temporary output max_bytes response).

Definition fetch (base url output : string) (max_bytes : Z) : act Value :=
  do? _ := ensure ((1 <=? max_bytes) && (max_bytes <=? Z.shiftl 64 30)) "max_bytes must be 1 to 64 GiB" in
  do? _ := reject_symlink output in
  do? _ := absent output "output already exists; choose a new file" in
  let '(parent, name) := parent_and_name output in
  do? parent := context "output directory is unavailable"
    (call (fun d => (result_of_option (canonicalize (if str_is_empty parent then "." else parent)) not_found, d))) in
  do? name := of_option name "output must name a file" in
  let output := path_join parent name in
  do? response := request base url false in
  save parent output max_bytes response.

(** ** The command *)

(** What is printed. *)
Inductive Printed : Type := PrintedText (text : string) | PrintedValue (v : Value).

Definition auth (base : string) (logout : bool) (input : string) (interactive : bool) : act Printed :=
  do? path := of_result (credential_path base) in
  do? _ := reject_symlink path in
  if logout then
    do? _ := fun d => if exists_at path d then remove_file path d else (Ok tt, d) in
    ret (PrintedText "Download credential removed.")
  else
    do? token := of_result (read_auth_token input interactive) in
    let parent := (split_name path).2 in
    do? _ := create_dir_all parent in
    do? _ := reject_symlink path in
    do? _ := call (fun d => (Ok tt, d)) in
    do? _ := write_atomic pid path token in
    do? _ := set_permissions path OWNER_ONLY in
    ret (PrintedText "Download credential saved for this instance.").

Definition run (base_url : string) (command : DownloadCommand) (input : string) (interactive : bool) : act Printed :=
  do? base := of_result (base base_url) in
  match command with
  | Auth logout => auth base logout input interactive
  | Check url => do? v := check base url in ret (PrintedValue v)
  | Fetch url output max_bytes => do? v := fetch base url output max_bytes in ret (PrintedValue v)
  end.
End Client.
