(* ===== verification/ClientDownloadSpec.v ===== *)
(** * Theorems on the downloads of the client *)
From stdpp Require Import gmap.
From S2P Require Import Prelude RustStr Lines Headers Url Json Users Fs ClientFiles Systems SystemRewrite Setup SetupSpec.
From S2P Require Import ClientSources ClientSteps ClientDownload.
Open Scope string_scope.
Open Scope Z_scope.
Open Scope list_scope.
Open Scope mirror_scope.
Open Scope act_scope.

(** ** Steps that change nothing, steps that keep a file *)

Definition still {A} (m : act A) : Prop :=
  forall d, nodes (m d).2 = nodes d /\ (tape d = [] -> tape (m d).2 = []).

Definition keeps {A} (q : string) (n : Node.t) (m : act A) : Prop :=
  forall d, nodes d !! q = Some n -> nodes (m d).2 !! q = Some n.

Create HintDb keeps.

Lemma still_ret {A} (a : A) : still (ret a).
Proof. by intros d. Qed.
Lemma still_bail {A} (e : string) : still (bail (A := A) e).
Proof. by intros d. Qed.
Lemma still_ensure (b : bool) (e : string) : still (ensure b e).
Proof. intros d. by destruct b. Qed.
Lemma still_option {A} (o : option A) (e : string) : still (of_option o e).
Proof. intros d. by destruct o. Qed.
Lemma still_result {A} (r : result A string) : still (of_result r).
Proof. by intros d. Qed.
Lemma still_context {A} (e : string) (m : act A) : still m -> still (context e m).
Proof. intros Hm d. destruct (Hm d) as [Hn Ht]. unfold context. by destruct (m d) as [[a|x] d']. Qed.
Lemma still_bind {A B} (m : act A) (k : A -> act B) : still m -> (forall a, still (k a)) -> still (bind m k).
Proof.
  intros Hm Hk d. destruct (Hm d) as [Hn Ht]. unfold bind. destruct (m d) as [[a|e] d']; cbn in *; [|done].
  destruct (Hk a d') as [Hn' Ht']. split; [congruence|auto].
Qed.
Lemma still_call {A} (f : Disk -> result A string * Disk) : (forall d, (f d).2 = d) -> still (call f).
Proof.
  intros Hf d. unfold call, next. destruct (tape d) as [|[|k] t] eqn:Et; [|by rewrite Hf|done].
  by rewrite Hf.
Qed.
Lemma still_reject (path : string) : still (reject_symlink path).
Proof.
  unfold reject_symlink. induction (ancestors path) as [|p l IH]; [apply still_ret|]. cbn [reject_symlinks].
  apply still_bind; [|done]. apply still_context, still_call. intros d. by case_bool_decide.
Qed.
Lemma still_absent (path e : string) : still (absent path e).
Proof. intros d. unfold absent. by case_match. Qed.

#[export] Hint Resolve still_ret still_bail still_ensure still_option still_result still_context still_bind still_call
  still_reject still_absent : keeps.

Lemma keeps_still {A} (q : string) (n : Node.t) (m : act A) : still m -> keeps q n m.
Proof. intros Hm d Hd. by rewrite (proj1 (Hm d)). Qed.
Lemma keeps_bind {A B} (q : string) (n : Node.t) (m : act A) (k : A -> act B) :
  keeps q n m -> (forall a, keeps q n (k a)) -> keeps q n (bind m k).
Proof. intros Hm Hk d Hd. specialize (Hm d Hd). unfold bind. destruct (m d) as [[a|e] d']; [by apply Hk|done]. Qed.
Lemma keeps_context {A} (q : string) (n : Node.t) (e : string) (m : act A) : keeps q n m -> keeps q n (context e m).
Proof. intros Hm d Hd. specialize (Hm d Hd). unfold context. by destruct (m d) as [[a|x] d']. Qed.

#[export] Hint Resolve keeps_still keeps_context : keeps.

Section Fetch.
Context {url : UrlApi} {json : JsonApi} {secret : SecretApi} {service : DownloadService}.
Variable env : Env.
Variable env_token : option string.
Variable pid : Z.
Variable canonicalize : string -> option string.
Variable meanwhile : nat -> Disk -> Disk.

Abbreviation request := (request env env_token meanwhile).
Abbreviation receive := (receive meanwhile).
Abbreviation fetch := (fetch env env_token pid canonicalize meanwhile).

Lemma keeps_wait (q : string) (n : Node.t) (k : nat) :
  (forall d, nodes d !! q = Some n -> nodes (meanwhile k d) !! q = Some n) -> keeps q n (wait meanwhile k).
Proof. intros Hk d Hd. by apply Hk. Qed.

Lemma still_token (base : string) : still (token env env_token base).
Proof. unfold token, metadata. destruct env_token; auto 20 with keeps. Qed.

Lemma keeps_request (q : string) (n : Node.t) (base target : string) (check : bool) :
  (forall d, nodes d !! q = Some n -> nodes (meanwhile 0 d) !! q = Some n) -> keeps q n (request base target check).
Proof.
  intros Hk. unfold ClientDownload.request. repeat (apply keeps_bind; [|intros ?]); auto using still_token, keeps_wait with keeps.
Qed.

Lemma keeps_append (q : string) (n : Node.t) (path content : string) : q <> path -> keeps q n (append_all path content).
Proof.
  intros Hq d Hd. unfold append_all. pose proof (next_after d) as (Hn & _ & _).
  destruct (next d) as [[|k] d1]; cbn in *; by rewrite lookup_alter_ne, Hn by done.
Qed.

Lemma keeps_link (q : string) (n : Node.t) (from to : string) : keeps q n (hard_link from to).
Proof.
  intros d Hd. unfold hard_link, call. pose proof (next_after d) as (Hn & _ & _). destruct (next d) as [[|k] d1]; cbn in *; [|by rewrite Hn].
  case_bool_decide as Ht; cbn; [by rewrite Hn|]. destruct (nodes d1 !! from); cbn; [|by rewrite Hn].
  rewrite lookup_insert_ne, Hn; [done|]. intros ->. apply Ht. left. rewrite Hn, Hd. by eexists.
Qed.

Lemma keeps_receive (q : string) (n : Node.t) (max_bytes : Z) (temporary : string) (chunks : list string) (interrupted : bool) :
  q <> temporary -> forall k size body,
  (forall j d, (k <= j)%nat -> nodes d !! q = Some n -> nodes (meanwhile j d) !! q = Some n) ->
  keeps q n (receive max_bytes temporary chunks interrupted k size body).
Proof.
  intros Hq. induction chunks as [|c chunks IH]; intros k size body Hk; cbn [ClientDownload.receive];
    (apply keeps_bind; [apply keeps_wait; intros d; by apply Hk|intros _]); [auto with keeps|].
  apply keeps_bind; [auto with keeps|intros _]. apply keeps_bind; [by apply keeps_append|intros _].
  apply IH. intros j d Hj. apply Hk. lia.
Qed.

Lemma keeps_fill (q : string) (n : Node.t) (temporary output : string) (max_bytes : Z) (response : Reply) :
  q <> temporary -> (forall j d, (1 <= j)%nat -> nodes d !! q = Some n -> nodes (meanwhile j d) !! q = Some n) ->
  keeps q n (fill_and_publish meanwhile temporary output max_bytes response).
Proof.
  intros Hq Hk. unfold fill_and_publish, sync_all. apply keeps_bind; [by apply keeps_receive|intros received].
  repeat (apply keeps_bind; [|intros ?]); auto using keeps_link with keeps.
Qed.

Lemma remove_keeps (q path : string) (n : Node.t) : q <> path -> keeps q n (remove_file path).
Proof.
  intros Hq d Hd. rewrite (af_nodes [path] d _ (remove_file_after path d)); [done|set_solver].
Qed.

(** A download never takes the place of a file and never changes one,
    whatever fails: what other processes leave alone stays as it was. *)
Theorem files_stay (base target output : string) (max_bytes : Z) (d : Disk) (q : string) (n : Node.t) :
  (forall k d, nodes d !! q = Some n -> nodes (meanwhile k d) !! q = Some n) ->
  nodes d !! q = Some n -> nodes (fetch base target output max_bytes d).2 !! q = Some n.
Proof.
  intros Hk. revert d. change (keeps q n (fetch base target output max_bytes)). unfold ClientDownload.fetch.
  do 3 (apply keeps_bind; [auto with keeps|intros _]). destruct (parent_and_name output) as [parent name].
  do 2 (apply keeps_bind; [auto with keeps|intros ?]).
  apply keeps_bind; [apply keeps_request, Hk|intros response]. unfold save.
  do 2 (apply keeps_bind; [auto with keeps|intros _]). apply keeps_bind; [by intros d|intros temporary].
  intros d Hd. unfold bind, context. destruct (create_new temporary d) as [[u|e] d1] eqn:E.
  - assert (q <> temporary /\ nodes d1 !! q = Some n) as [Hq Hd1].
    { revert E. unfold create_new, call. pose proof (next_after d) as (Hn & _ & _). destruct (next d) as [[|j] d2]; [|done]. cbn in Hn.
      rewrite Hn. destruct (nodes d !! temporary) eqn:Et; [done|]. intros [= _ <-]. cbn. split; [congruence|].
      rewrite lookup_insert_ne, Hn by congruence. done. }
    unfold with_temporary. pose proof (keeps_fill q n temporary (path_join a a0) max_bytes response Hq (fun j d _ => Hk j d) d1 Hd1) as Hf.
    destruct (fill_and_publish _ _ _ _ _ d1) as [r d2]. by apply remove_keeps.
  - cbn. revert E. unfold create_new, call. pose proof (next_after d) as (Hn & _ & _). destruct (next d) as [[|j] d2]; cbn in Hn.
    + destruct (nodes d2 !! temporary); intros [= _ <-]; by rewrite Hn.
    + intros [= _ <-]. by rewrite Hn.
Qed.

(** ** Files that others bring *)

Definition temporary_name (parent : string) (k : nat) : string :=
  path_join parent (".mirrorproxy-download-" +:+ show_uint pid +:+ "-" +:+ show_uint (Z.of_nat k)).

Definition own (q : string) : Prop := exists parent k, q = temporary_name parent k.

(** What the steps of a run that returned did. *)
Lemma bind_ok {A B} (m : act A) (k : A -> act B) (d d' : Disk) (b : B) :
  bind m k d = (Ok b, d') -> exists a d1, m d = (Ok a, d1) /\ k a d1 = (Ok b, d').
Proof. unfold bind. destruct (m d) as [[a|e] d1]; [|done]. by exists a, d1. Qed.

Lemma context_ok {A} (e : string) (m : act A) (d d' : Disk) (a : A) : context e m d = (Ok a, d') -> m d = (Ok a, d').
Proof. unfold context. by destruct (m d) as [[x|?] d1]. Qed.

Lemma ensure_ok (b : bool) (e : string) (d d' : Disk) (u : unit) : ensure b e d = (Ok u, d') -> b = true /\ d' = d.
Proof. destruct b; [by intros [= _ ->]|done]. Qed.

Lemma option_ok {A} (o : option A) (e : string) (d d' : Disk) (a : A) : of_option o e d = (Ok a, d') -> o = Some a /\ d' = d.
Proof. destruct o; [by intros [= -> ->]|done]. Qed.

Lemma result_ok {A} (r : result A string) (d d' : Disk) (a : A) : of_result r d = (Ok a, d') -> r = Ok a /\ d' = d.
Proof. by intros [= -> ->]. Qed.

(** Takes a run that returned apart. *)
Ltac step_ok H a d E :=
  apply bind_ok in H as (a & d & E & H);
  lazymatch type of E with
  | ensure _ _ _ = _ => apply ensure_ok in E as [E ->]
  | of_option _ _ _ = _ => apply option_ok in E as [E ->]
  | of_result _ _ = _ => apply result_ok in E as [E ->]
  | ClientFiles.context _ _ _ = _ => apply context_ok in E
  | _ => idtac
  end.

Ltac skip_ok H := let a := fresh "u" in let d := fresh "x" in let E := fresh "Hx" in step_ok H a d E.

Section Late.
Context (q : string) (n : Node.t) (j : nat).
Hypothesis appears : forall d, nodes (meanwhile j d) !! q = Some n.
Hypothesis remains : forall k d, (j < k)%nat -> nodes d !! q = Some n -> nodes (meanwhile k d) !! q = Some n.

(** The same processes, but for the [j]-th wait. *)
Definition but_then (other : Disk -> Disk) (k : nat) : Disk -> Disk := if (k =? j)%nat then other else meanwhile k.

Lemma but_then_ne (other : Disk -> Disk) (k : nat) : k <> j -> but_then other k = meanwhile k.
Proof. unfold but_then. by destruct (Nat.eqb_spec k j). Qed.

(** Either the file is there afterwards, or the wait was not reached. *)
Lemma receive_late (max_bytes : Z) (temporary : string) (chunks : list string) (interrupted : bool) :
  q <> temporary -> forall k size body d, (k <= j)%nat ->
  nodes (receive max_bytes temporary chunks interrupted k size body d).2 !! q = Some n \/
  forall other, ClientDownload.receive (but_then other) max_bytes temporary chunks interrupted k size body d =
                receive max_bytes temporary chunks interrupted k size body d.
Proof.
  intros Hq. induction chunks as [|c chunks IH]; intros k size body d Hj.
  - destruct (decide (k = j)) as [->|Hne].
    + left. cbn [ClientDownload.receive]. unfold bind, wait. destruct interrupted; apply appears.
    + right. intros other. cbn [ClientDownload.receive]. unfold bind, wait. by rewrite but_then_ne.
  - destruct (decide (k = j)) as [->|Hne].
    + left. cbn [ClientDownload.receive]. unfold bind at 1, wait.
      assert (Hk : keeps q n (bind (ensure (sat_add_u64 size (str_len c) <=? max_bytes) "download exceeds local file size limit")
        (fun _ => bind (append_all temporary c) (fun _ =>
           receive max_bytes temporary chunks interrupted (S j) (sat_add_u64 size (str_len c)) (body +:+ c))))).
      { apply keeps_bind; [auto with keeps|intros _]. apply keeps_bind; [by apply keeps_append|intros _].
        apply keeps_receive; [done|]. intros i d1 Hi. apply remains. lia. }
      apply Hk, appears.
    + cbn [ClientDownload.receive]. unfold bind, wait.
      destruct (ensure (sat_add_u64 size (str_len c) <=? max_bytes) "download exceeds local file size limit" (meanwhile k d))
        as [[u1|e1] d1] eqn:E1; [|right; intros other; rewrite but_then_ne by done; by rewrite E1].
      destruct (append_all temporary c d1) as [[u2|e2] d2] eqn:E2;
        [|right; intros other; rewrite but_then_ne by done; by rewrite E1, E2].
      destruct (IH (S k) (sat_add_u64 size (str_len c)) (body +:+ c) d2 ltac:(lia)) as [Hl|Hr]; [by left|].
      right. intros other. rewrite but_then_ne by done. rewrite E1, E2. apply Hr.
Qed.

(** A file at the output is in the way. *)
Lemma link_in_way (from : string) (d : Disk) : nodes d !! q = Some n -> is_ok (hard_link from q d).1 = false.
Proof.
  intros Hd. unfold hard_link, call. pose proof (next_after d) as (Hn & _ & _). destruct (next d) as [[|k] d1]; [|done].
  cbn in Hn. rewrite bool_decide_eq_true_2; [done|]. left. rewrite Hn, Hd. by eexists.
Qed.

(** The steps after the last wait, with the file there. *)
Lemma publish_late (temporary output : string) (response : Reply) (received : Z * string) (d : Disk) :
  q <> temporary -> nodes d !! q = Some n ->
  let publish := (do? _ := ensure (length_allows (rp_content_length response) (fun n => n =? received.1)) "incomplete download" in
    do? _ := sync_all temporary in
    do? _ := context "cannot publish output; filesystem must support hard links and destination must not exist"
      (hard_link temporary output) in
    ret (report output received.1 received.2)) in
  nodes (publish d).2 !! q = Some n /\ (q = output -> is_ok (publish d).1 = false).
Proof.
  intros Hq Hd publish. split.
  - assert (keeps q n publish) as Hk; [|by apply Hk]. unfold publish, sync_all.
    repeat (apply keeps_bind; [|intros ?]); auto using keeps_link with keeps.
  - intros <-. unfold publish, bind, ensure. destruct (length_allows _ _); [|done]. unfold ret.
    pose proof (keeps_still q n (sync_all temporary) ltac:(unfold sync_all; auto with keeps) d Hd) as Hs.
    destruct (sync_all temporary d) as [[u1|e1] d1]; [|done]. cbn in Hs.
    unfold context. pose proof (link_in_way temporary d1 Hs) as Hl. by destruct (hard_link temporary q d1) as [[u2|e2] d2].
Qed.

Lemma fill_late (temporary output : string) (max_bytes : Z) (response : Reply) (d : Disk) :
  q <> temporary -> (1 <= j)%nat \/ (j = 0)%nat /\ nodes d !! q = Some n ->
  (nodes (fill_and_publish meanwhile temporary output max_bytes response d).2 !! q = Some n /\
   (q = output -> is_ok (fill_and_publish meanwhile temporary output max_bytes response d).1 = false)) \/
  (1 <= j)%nat /\ forall other, fill_and_publish (but_then other) temporary output max_bytes response d =
                             fill_and_publish meanwhile temporary output max_bytes response d.
Proof.
  intros Hq Hj. unfold fill_and_publish, bind at 1 5 7.
  assert (H1 : nodes (receive max_bytes temporary (rp_chunks response) (rp_interrupted response) 1 0 "" d).2 !! q = Some n \/
    (1 <= j)%nat /\ forall other,
      ClientDownload.receive (but_then other) max_bytes temporary (rp_chunks response) (rp_interrupted response) 1 0 "" d =
      receive max_bytes temporary (rp_chunks response) (rp_interrupted response) 1 0 "" d).
  { destruct Hj as [Hj|[Hj Hd]].
    - destruct (receive_late max_bytes temporary (rp_chunks response) (rp_interrupted response) Hq 1 0 "" d Hj); auto.
    - left. apply keeps_receive; [done| |done]. intros i d1 Hi. apply remains. lia. }
  destruct H1 as [H1|[Hj1 H1]]; [left|right; split; [done|intros other; unfold bind at 1; by rewrite H1]].
  unfold bind at 1. destruct (receive max_bytes temporary _ _ 1 0 "" d) as [[received|e] d1]; cbn in H1; [|done].
  by apply publish_late.
Qed.

(** A step [x] that becomes [y other] with other processes: the file is there
    afterwards, with [S] of the result, or it makes no difference. *)
Definition late_at {A} (S : result A string -> Prop) (x : act A) (y : (Disk -> Disk) -> act A) (d : Disk) : Prop :=
  (nodes (x d).2 !! q = Some n /\ S (x d).1) \/ forall other, y other d = x d.

Lemma late_step {A B} (S : result B string -> Prop) (m : act A) (k : A -> act B) (k' : (Disk -> Disk) -> A -> act B) (d : Disk) :
  (forall a d1, m d = (Ok a, d1) -> late_at S (k a) (fun other => k' other a) d1) ->
  late_at S (bind m k) (fun other => bind m (k' other)) d.
Proof.
  unfold late_at, bind. destruct (m d) as [[a|e] d1]; [|by right]. intros Hk. by apply Hk.
Qed.

Lemma request_late (base target : string) (check : bool) (d : Disk) :
  (j = 0%nat /\ nodes (request base target check d).2 !! q = Some n) \/
  (((1 <= j)%nat \/ is_ok (request base target check d).1 = false) /\
   forall other, ClientDownload.request env env_token (but_then other) base target check d = request base target check d).
Proof.
  unfold ClientDownload.request, bind.
  destruct (of_result (validate_url target) d) as [[u1|e1] d1]; [|right; split; [by right|done]].
  destruct (of_result (ClientDownload.base base) d1) as [[origin|e2] d2]; [|right; split; [by right|done]].
  destruct (token env env_token origin d2) as [[tok|e3] d3]; [|right; split; [by right|done]]. unfold wait.
  destruct (decide (j = 0%nat)) as [Hz|Hz]; [left|right; split; [left; lia|intros other; by rewrite but_then_ne]].
  split; [done|]. rewrite <-Hz. unfold of_option, ensure, ret.
  destruct (download_get _ _ _) as [response|]; [|apply appears]. destruct (_ && _); apply appears.
Qed.

(** The file is there already: what follows leaves it. *)
Lemma present_step {A B} (S : result B string -> Prop) (m : act A) (k : A -> act B) (d : Disk) :
  keeps q n m -> nodes d !! q = Some n -> (forall e, S (Err e)) ->
  (forall a d1, m d = (Ok a, d1) -> nodes d1 !! q = Some n -> nodes (k a d1).2 !! q = Some n /\ S (k a d1).1) ->
  nodes (bind m k d).2 !! q = Some n /\ S (bind m k d).1.
Proof.
  intros Hm Hd He Hk. specialize (Hm d Hd). unfold bind. destruct (m d) as [[a|e] d1]; cbn in Hm; [by apply Hk|split; [exact Hm|apply He]].
Qed.

Lemma save_present (parent output : string) (max_bytes : Z) (response : Reply) (d : Disk) :
  ~ own q -> j = 0%nat -> nodes d !! q = Some n ->
  nodes (save pid meanwhile parent output max_bytes response d).2 !! q = Some n /\
  (q = output -> is_ok (save pid meanwhile parent output max_bytes response d).1 = false).
Proof.
  intros Hown Hj Hd. unfold save.
  apply (present_step (fun r => q = output -> is_ok r = false)); [auto with keeps|done|done|intros u1 d1 _ Hd1].
  apply (present_step (fun r => q = output -> is_ok r = false)); [auto with keeps|done|done|intros u2 d2 _ Hd2].
  apply (present_step (fun r => q = output -> is_ok r = false)); [by intros d0 Hd0|done|done|intros temporary d3 E3 Hd3].
  assert (q <> temporary) as Hq.
  { unfold temporary_path in E3. injection E3 as <- _. intros ->. apply Hown. by exists parent, (sequence d2). }
  apply (present_step (fun r => q = output -> is_ok r = false)); [|done|done|intros u4 d4 _ Hd4].
  { apply keeps_context. intros d0 Hd0. rewrite (af_nodes [temporary] d0 _ (create_new_after temporary d0)); [done|set_solver]. }
  unfold with_temporary. destruct (fill_late temporary output max_bytes response d4 Hq ltac:(by right)) as [[Hl Ho]|[? _]]; [|lia].
  destruct (fill_and_publish meanwhile temporary output max_bytes response d4) as [r d5]. cbn in *.
  split; [by apply remove_keeps|done].
Qed.

Lemma save_late (parent output : string) (max_bytes : Z) (response : Reply) (d : Disk) :
  ~ own q -> (1 <= j)%nat ->
  late_at (fun r => q = output -> is_ok r = false) (save pid meanwhile parent output max_bytes response)
    (fun other => save pid (but_then other) parent output max_bytes response) d.
Proof.
  intros Hown Hj. unfold save. apply late_step. intros u1 d1 E1. apply late_step. intros u2 d2 E2.
  apply late_step. intros temporary d3 E3.
  assert (q <> temporary) as Hq.
  { unfold temporary_path in E3. injection E3 as <- <-. intros ->. apply Hown. by exists parent, (sequence d2). }
  apply late_step. intros u4 d4 E4. unfold late_at, with_temporary.
  destruct (fill_late temporary output max_bytes response d4 Hq ltac:(by left)) as [[Hl Ho]|[_ Hr]].
  - left. destruct (fill_and_publish meanwhile temporary output max_bytes response d4) as [r d5]. cbn in *.
    split; [by apply remove_keeps|done].
  - right. intros other. by rewrite Hr.
Qed.

(** C23: A file that another process brings during any wait of a download, be it
    at the output or elsewhere (but under a temporary name of the client), and
    that the others leave alone, is still there, unchanged, when the download
    has returned, whether it succeeded or failed; and a download whose output it
    is has failed.  Otherwise the download was over before that wait: what the
    others did in it makes no difference. *)
Theorem late_files_stay (base target output : string) (max_bytes : Z) (d : Disk) :
  ~ own q ->
  let r := fetch base target output max_bytes d in
  (nodes r.2 !! q = Some n /\
   (forall parent name dir, parent_and_name output = (parent, Some name) ->
      canonicalize (if str_is_empty parent then "." else parent) = Some dir -> q = path_join dir name ->
      is_ok r.1 = false)) \/
  forall other, ClientDownload.fetch env env_token pid canonicalize (but_then other) base target output max_bytes d = r.
Proof.
  intros Hown r.
  enough (late_at (fun r => forall parent name dir, parent_and_name output = (parent, Some name) ->
      canonicalize (if str_is_empty parent then "." else parent) = Some dir -> q = path_join dir name -> is_ok r = false)
    (fetch base target output max_bytes)
    (fun other => ClientDownload.fetch env env_token pid canonicalize (but_then other) base target output max_bytes) d) by done.
  unfold ClientDownload.fetch. apply late_step. intros u1 d1 _. apply late_step. intros u2 d2 _.
  apply late_step. intros u3 d3 _. destruct (parent_and_name output) as [parent name].
  apply late_step. intros dir d4 E4. apply context_ok, call_ok in E4 as (d4' & _ & E4).
  apply late_step. intros base_name d5 E5. apply option_ok in E5 as [-> ->].
  assert (Hdir : canonicalize (if str_is_empty parent then "." else parent) = Some dir).
  { by destruct (canonicalize _) as [x|]; [injection E4 as -> _|]. }
  assert (Hout : forall r : result Value string, (q = path_join dir base_name -> is_ok r = false) ->
    forall p m dir', (parent, Some base_name) = (p, Some m) -> canonicalize (if str_is_empty p then "." else p) = Some dir' ->
      q = path_join dir' m -> is_ok r = false).
  { intros r' Hr' p m dir' [= <- <-] Hdir' Hq. apply Hr'. congruence. }
  unfold late_at, bind. destruct (request_late base target false d4) as [[Hj Hd]|[Hj Heq]].
  - left. destruct (request base target false d4) as [[response|e] d6]; [|by split].
    destruct (save_present dir (path_join dir base_name) max_bytes response d6 Hown Hj Hd) as [Hn Ho].
    split; [done|]. by apply Hout.
  - destruct (request base target false d4) as [[response|e] d6]; [|right; intros other; by rewrite Heq].
    assert (1 <= j)%nat as Hj1 by (by destruct Hj).
    destruct (save_late dir (path_join dir base_name) max_bytes response d6 Hown Hj1) as [[Hn Ho]|Hs].
    + left. split; [done|]. by apply Hout.
    + right. intros other. by rewrite Heq, Hs.
Qed.
End Late.

(** ** What a download leaves *)

Lemma token_valid (origin tok : string) (d d' : Disk) : token env env_token origin d = (Ok tok, d') -> valid_token tok = true.
Proof.
  unfold token. destruct env_token as [t|]; intros Ht.
  - step_ok Ht u d1 E. by injection Ht as -> _.
  - do 6 skip_ok Ht. skip_ok Ht. by injection Ht as <- _.
Qed.

(** The request that was answered. *)
Lemma request_ok (base target : string) (check : bool) (d d' : Disk) (response : Reply) :
  request base target check d = (Ok response, d') -> exists origin bearer,
    ClientDownload.base base = Ok origin /\ valid_token bearer = true /\ validate_url target = Ok tt /\
    download_get (origin +:+ "/api/download" +:+ if check then "/check" else "") [("url", target)] bearer = Some response.
Proof.
  unfold ClientDownload.request. intros Hr. step_ok Hr u d1 E1. step_ok Hr origin d2 E2. step_ok Hr bearer d3 E3.
  step_ok Hr w d4 E4. step_ok Hr answer d5 E5. skip_ok Hr. injection Hr as -> _.
  exists origin, bearer. destruct u. split_and!; [done|by eapply token_valid|done|done].
Qed.

Section Whole.
Hypothesis private : forall k d q, own q -> nodes (meanwhile k d) !! q = nodes d !! q.

Definition partial (body : string) : Node.t := {| Node.text := body; Node.mode := OWNER_ONLY |}.

Lemma append_ok (path content body : string) (d d' : Disk) (u : unit) :
  append_all path content d = (Ok u, d') -> nodes d !! path = Some (partial body) ->
  nodes d' !! path = Some (partial (body +:+ content)).
Proof.
  unfold append_all. pose proof (next_after d) as (Hn & _ & _). destruct (next d) as [[|k] d1]; [|done].
  intros [= _ <-] Hd. cbn in *. by rewrite lookup_alter_eq, Hn, Hd.
Qed.

Lemma receive_whole (max_bytes : Z) (temporary : string) (chunks : list string) (interrupted : bool) :
  own temporary -> max_bytes < U64_MAX -> forall k body d d' r,
  str_len body <= max_bytes -> nodes d !! temporary = Some (partial body) ->
  receive max_bytes temporary chunks interrupted k (str_len body) body d = (Ok r, d') ->
  let whole := body +:+ joined chunks in
  interrupted = false /\ r = (str_len whole, whole) /\ str_len whole <= max_bytes /\
  nodes d' !! temporary = Some (partial whole).
Proof.
  intros Hown Hmax. induction chunks as [|c chunks IH]; intros k body d d' r Hlen Hd Hr; cbn [ClientDownload.receive] in Hr;
    step_ok Hr u1 d1 E1; injection E1 as _ <-.
  - skip_ok Hr. injection Hr as <- <-. change (joined []) with "". rewrite str_app_nil_r.
    apply negb_true_iff in Hx. by rewrite private.
  - step_ok Hr u2 d2 E2. step_ok Hr u3 d3 E3. apply Z.leb_le in E2.
    assert (sat_add_u64 (str_len body) (str_len c) = str_len (body +:+ c)) as Hs.
    { rewrite str_len_app. unfold sat_add_u64 in *. lia. }
    rewrite Hs in *. eapply append_ok in E3; [|by rewrite private].
    specialize (IH (S k) (body +:+ c) d3 d' r E2 E3 Hr). cbn zeta in IH. change (joined (c :: chunks)) with (c +:+ joined chunks).
    by rewrite str_app_assoc.
Qed.

(** After the last wait nobody else touches the disk. *)
Lemma receive_last (max_bytes : Z) (temporary : string) (chunks : list string) (interrupted : bool) : forall k size body d d' r,
  receive max_bytes temporary chunks interrupted k size body d = (Ok r, d') ->
  exists last, d' = meanwhile (k + length chunks) last.
Proof.
  induction chunks as [|c chunks IH]; intros k size body d d' r Hr; cbn [ClientDownload.receive length] in *;
    step_ok Hr u1 d1 E1; injection E1 as _ <-.
  - step_ok Hr u2 d2 E2. injection Hr as _ <-. exists d. by rewrite Nat.add_0_r.
  - step_ok Hr u2 d2 E2. step_ok Hr u3 d3 E3. apply IH in Hr as [last ->]. exists last. by rewrite Nat.add_succ_r.
Qed.

Lemma call_ok_links {A} (f : Disk -> result A string * Disk) (d d' : Disk) (a : A) :
  call f d = (Ok a, d') -> exists d1, nodes d1 = nodes d /\ links d1 = links d /\ f d1 = (Ok a, d').
Proof.
  unfold call. pose proof (next_after d) as (Hn & Hl & _). destruct (next d) as [[|k] d1]; [|done]. intros Hf. by exists d1.
Qed.

(** What publishing did, when it returned. *)
Lemma publish_ok (temporary output : string) (d d' : Disk) (u u' : unit) (d1 : Disk) :
  sync_all temporary d = (Ok u, d1) -> hard_link temporary output d1 = (Ok u', d') ->
  nodes d !! output = None /\ links d !! output = None /\
  exists x, nodes d !! temporary = Some x /\ nodes d' = <[output := x]> (nodes d).
Proof.
  intros Es Eh. apply call_ok_links in Es as (d2 & N2 & L2 & [= _ <-]).
  apply call_ok_links in Eh as (d3 & N3 & L3 & Eh). case_bool_decide as Hfree; [done|].
  destruct (nodes d3 !! temporary) as [x|] eqn:Ex; [|done]. injection Eh as _ <-. rewrite N3, N2 in *. rewrite L3, L2 in *.
  split; [|split]; [apply eq_None_not_Some; tauto..|]. exists x. split; [done|]. cbn. congruence.
Qed.

(** C21: A download that succeeded came from the download service of the
    instance, with a valid token.  The file is at the output that was asked
    for, in the canonical form of its directory; nothing was there when the
    others acted last, and nothing else but the client's own temporary names
    has changed since: it took the place of no file.  It is for its owner alone
    and holds all bytes of the response and no more than the limit; the report
    is true. *)
Theorem fetched_files_are_whole (base target output : string) (max_bytes : Z) (d d' : Disk) (v : Value) :
  fetch base target output max_bytes d = (Ok v, d') -> exists origin bearer response parent name dir last,
    ClientDownload.base base = Ok origin /\ valid_token bearer = true /\
    download_get (origin +:+ "/api/download") [("url", target)] bearer = Some response /\
    rp_status response = 200 /\ rp_interrupted response = false /\
    parent_and_name output = (parent, Some name) /\
    canonicalize (if str_is_empty parent then "." else parent) = Some dir /\
    let body := joined (rp_chunks response) in
    let path := path_join dir name in
    let before := meanwhile (S (length (rp_chunks response))) last in
    length_allows (rp_content_length response) (fun n => n =? str_len body) = true /\ str_len body <= max_bytes /\
    v = report path (str_len body) body /\
    nodes before !! path = None /\ links before !! path = None /\
    nodes d' !! path = Some (partial body) /\
    forall q, q <> path -> ~ own q -> nodes d' !! q = nodes before !! q.
Proof.
  unfold ClientDownload.fetch. intros Hr. step_ok Hr u0 d0 E0. do 2 skip_ok Hr. apply andb_true_iff in E0 as [Hmin%Z.leb_le Hmax].
  apply Z.leb_le in Hmax. change (Z.shiftl 64 30) with 68719476736 in Hmax.
  destruct (parent_and_name output) as [parent name] eqn:Epn. step_ok Hr dir d1 E1. step_ok Hr base_name d2 E2. subst name.
  apply call_ok in E1 as (d1' & _ & E1).
  assert (Hdir : canonicalize (if str_is_empty parent then "." else parent) = Some dir).
  { by destruct (canonicalize _) as [there|]; [injection E1 as -> _|]. }
  step_ok Hr response d3 E3.
  apply request_ok in E3 as (origin & bearer & Hbase & Hbearer & _ & Hget). rewrite str_app_nil_r in Hget.
  unfold save in Hr. step_ok Hr u4 d4 E4. apply Z.eqb_eq in E4. skip_ok Hr. step_ok Hr temporary d5 E5.
  assert (own temporary) as Hown by (injection E5 as <- _; by exists dir, (sequence d3)). step_ok Hr u6 d6 E6.
  assert (nodes d6 !! temporary = Some (partial "")) as Hd6.
  { apply call_ok in E6 as (d6' & _ & E6). destruct (nodes d6' !! temporary); [done|]. injection E6 as _ <-. apply lookup_insert_eq. }
  unfold with_temporary in Hr. destruct (fill_and_publish _ _ _ _ _ d6) as [r d7] eqn:E7. injection Hr as -> <-.
  unfold fill_and_publish in E7. step_ok E7 received d8 E8. pose proof E8 as Elast. apply receive_last in Elast as [last Hlast].
  destruct (receive_whole max_bytes temporary _ _ Hown ltac:(unfold U64_MAX; lia) 1 "" d6 d8 received ltac:(change (str_len "") with 0; lia) Hd6 E8) as (Hi & -> & Hle & Hd8).
  change ("" +:+ ?s) with s in *. step_ok E7 u9 d9 E9. step_ok E7 u10 d10 E10. step_ok E7 u11 d11 E11. injection E7 as <- <-.
  destruct (publish_ok _ _ _ _ _ _ _ E10 E11) as (Hnone & Hlinks & file & Hx2 & Hnodes). rewrite Hd8 in Hx2. injection Hx2 as <-.
  exists origin, bearer, response, parent, base_name, dir, last. cbv zeta. change (S (length ?l)) with (1 + length l)%nat.
  rewrite <-Hlast. split_and!; try done.
  - rewrite (af_nodes [temporary] _ _ (remove_file_after temporary _)), Hnodes, lookup_insert_eq; [done|].
    apply not_elem_of_cons. split; [|apply not_elem_of_nil]. intros Heq. rewrite Heq in Hnone. congruence.
  - intros q Hq Hnown. rewrite (af_nodes [temporary] _ _ (remove_file_after temporary _)), Hnodes, lookup_insert_ne; [done..|].
    apply not_elem_of_cons. split; [|apply not_elem_of_nil]. by intros ->.
Qed.
End Whole.

(** ** Failures *)

Section Alone.
Hypothesis alone : forall k d, meanwhile k d = d.

Lemma still_wait (k : nat) : still (wait meanwhile k).
Proof. intros d. unfold wait. by rewrite alone. Qed.

Lemma still_request (base target : string) (check : bool) : still (request base target check).
Proof.
  unfold ClientDownload.request. repeat (apply still_bind; [auto using still_token, still_wait with keeps|intros ?]); auto with keeps.
Qed.

Lemma receive_leaves (max_bytes : Z) (temporary : string) (chunks : list string) (interrupted : bool) (k : nat) (size : Z)
    (body : string) (d : Disk) :
  tape d = [] -> is_Some (nodes d !! temporary) ->
  let d' := (receive max_bytes temporary chunks interrupted k size body d).2 in
  tape d' = [] /\ is_Some (nodes d' !! temporary) /\ forall q, q <> temporary -> nodes d' !! q = nodes d !! q.
Proof.
  revert k size body d. induction chunks as [|c chunks IH]; intros k size body d Ht Hs; cbn [ClientDownload.receive];
    unfold bind, wait; rewrite alone.
  { by destruct interrupted. }
  unfold ensure. destruct (sat_add_u64 size (str_len c) <=? max_bytes); [|done]. cbn.
  unfold append_all, next. rewrite Ht. cbn.
  match goal with |- context [receive _ _ _ _ (S k) ?z ?b ?d1] => destruct (IH (S k) z b d1) as (H1 & H2 & H3) end.
  - exact Ht.
  - cbn. rewrite lookup_alter_eq. by destruct Hs as [x ->]; eexists.
  - split; [exact H1|]. split; [exact H2|]. intros q Hq. rewrite H3 by done. cbn. by rewrite lookup_alter_ne.
Qed.

Lemma fill_leaves (temporary path : string) (max_bytes : Z) (response : Reply) (e : string) (d d' : Disk) :
  tape d = [] -> nodes d !! temporary = Some (partial "") ->
  with_temporary temporary (fill_and_publish meanwhile temporary path max_bytes response) d = (Err e, d') ->
  nodes d' = delete temporary (nodes d).
Proof.
  intros Ht Hd. unfold with_temporary, fill_and_publish, bind.
  destruct (receive_leaves max_bytes temporary (rp_chunks response) (rp_interrupted response) 1 0 "" d Ht ltac:(by eexists))
    as (Ht1 & [n1 Hs1] & Hq1). destruct (receive _ _ _ _ _ _ _ d) as [r d2]. cbn in Ht1, Hs1, Hq1.
  assert (Hend : nodes (remove_file temporary d2).2 = delete temporary (nodes d)).
  { unfold remove_file, call. rewrite (next_quiet d2 Ht1), Hs1. cbn. apply map_eq. intros q.
    destruct (decide (q = temporary)) as [->|Hne]; [by rewrite !lookup_delete_eq|].
    rewrite !lookup_delete_ne by done. by apply Hq1. }
  destruct r as [received|x]; [|by intros [= _ <-]].
  unfold ensure. destruct (length_allows _ _); [|by intros [= _ <-]]. unfold ret, sync_all, context, call.
  rewrite (next_quiet d2 Ht1). unfold hard_link, call. rewrite (next_quiet d2 Ht1). case_bool_decide; [by intros [= _ <-]|].
  by rewrite Hs1.
Qed.

Lemma still_step {A B} (m : act A) (k : A -> act B) (e : string) (d d' : Disk) :
  still m -> tape d = [] ->
  (forall a d1, tape d1 = [] -> nodes d1 = nodes d -> k a d1 = (Err e, d') -> nodes d' = nodes d1) ->
  bind m k d = (Err e, d') -> nodes d' = nodes d.
Proof.
  intros Hm Ht Hk. destruct (Hm d) as [Hn Ht']. unfold bind. destruct (m d) as [[a|x] d1]; cbn in *.
  - intros Hr. rewrite <- Hn. apply (Hk a); auto.
  - by intros [= _ <-].
Qed.

(** C22: A download that fails leaves the disk as it was, when the calls of the
    file system themselves do not fail and nobody else writes. *)
Theorem failed_downloads_leave_nothing (base target output : string) (max_bytes : Z) (d d' : Disk) (e : string) :
  tape d = [] -> fetch base target output max_bytes d = (Err e, d') -> nodes d' = nodes d.
Proof.
  unfold ClientDownload.fetch. intros Ht. do 3 (apply still_step; [auto with keeps|done|clear Ht; intros _ ? Ht _]).
  destruct (parent_and_name output) as [parent name].
  do 2 (apply still_step; [auto with keeps|done|clear Ht; intros ? ? Ht _]). apply still_step; [apply still_request|done|clear Ht; intros response ? Ht _].
  unfold save. do 2 (apply still_step; [auto with keeps|done|clear Ht; intros _ ? Ht _]).
  apply still_step; [by intros ?|done|clear Ht; intros temporary dt Ht _].
  unfold bind, context, create_new, call. rewrite (next_quiet dt Ht). destruct (nodes dt !! temporary) eqn:E; [by intros [= _ <-]|].
  intros Hr. apply fill_leaves in Hr; [|exact Ht|apply lookup_insert_eq]. rewrite Hr. cbn. by apply delete_insert_id.
Qed.
End Alone.
End Fetch.

(** ** The token of an instance *)

Section Tokens.
Context {url : UrlApi} {json : JsonApi} {secret : SecretApi}.
Variable env : Env.
Variable pid : Z.

Lemma valid_token_text (tok : string) :
  valid_token tok = true -> str_trim tok = tok /\ String.substring 0 256 tok = tok.
Proof.
  unfold valid_token. intros [[Hl%Z.eqb_eq Hs]%andb_true_iff Hb]%andb_true_iff. unfold str_len in Hl.
  split; [|apply substring_short; lia]. apply str_trim_graphic.
  apply starts_with_spec in Hs as [rest ->]. rewrite str_length_app in Hl. change (String.length "mpd_") with 4%nat in Hl.
  rewrite all_bytes_app. apply andb_true_iff. split; [done|].
  assert (String.substring 4 48 ("mpd_" +:+ rest) = rest) as Hr.
  { cbn [String.append String.substring]. apply substring_short. lia. }
  rewrite Hr in Hb. eapply all_bytes_impl; [|exact Hb]. intros c. by destruct c as [[] [] [] [] [] [] [] []].
Qed.

Lemma reject_symlink_ok (path : string) (d : Disk) :
  tape d = [] -> ((reject_symlink path d).1 = Ok tt <-> Forall (fun p => links d !! p = None) (ancestors path)) /\
  (reject_symlink path d).2 = d.
Proof.
  intros Ht. unfold reject_symlink. induction (ancestors path) as [|p l IH]; [by split|]. cbn [reject_symlinks].
  unfold bind, reject_single_symlink, context, call. rewrite (next_quiet d Ht). case_bool_decide as Hp; cbn.
  - split; [|done]. split; [done|]. intros Hf. inversion Hf as [|? ? Hn _]. rewrite Hn in Hp. by destruct Hp.
  - destruct IH as [IH1 IH2]. split; [|done]. rewrite IH1, Forall_cons. apply eq_None_not_Some in Hp. tauto.
Qed.

(** A token that was saved is read back, from a file for the owner alone. *)
Theorem saved_tokens_read_back (base input path : string) (interactive : bool) (d d' : Disk) (p : Printed) :
  credential_path env base = Ok path -> tape d = [] -> fresh pid d -> ordinary pid path ->
  auth env pid base false input interactive d = (Ok p, d') ->
  exists tok, read_auth_token input interactive = Ok tok /\ nodes d' !! path = Some (written tok) /\
    (token env None base d').1 = Ok tok.
Proof.
  intros Hpath Ht Hf Ho. unfold auth. rewrite Hpath. unfold bind at 1. cbn [of_result]. intros Hr.
  destruct (reject_symlink_ok path d Ht) as [Hl Hd]. unfold bind at 1 in Hr.
  destruct (reject_symlink path d) as [[u|e] d1] eqn:E1; [|done]. cbn in Hd. subst d1. destruct u.
  assert (Forall (fun p => links d !! p = None) (ancestors path)) as Hlinks by (by apply Hl).
  destruct (read_auth_token input interactive) as [tok|e] eqn:Etok; [|done]. exists tok. split; [done|].
  unfold bind at 1 in Hr. cbn [of_result] in Hr. unfold bind at 1, create_dir_all, call at 1 in Hr. rewrite (next_quiet d Ht) in Hr.
  unfold bind at 1 in Hr. rewrite E1 in Hr. unfold bind at 1, call at 1 in Hr. rewrite (next_quiet d Ht) in Hr.
  unfold bind at 1 in Hr. destruct (has_parent path) eqn:Ehp; [|unfold write_atomic in Hr; rewrite Ehp in Hr; done].
  pose proof (write_atomic_outcome pid path tok d Hf Ho) as Hw.
  destruct (write_atomic pid path tok d) as [[u|e] d2]; [|done]. destruct Hw as (Htouch & Hworks & Hnode).
  destruct (Hworks Ehp Ht) as [_ Ht2]. unfold bind, set_permissions, call in Hr. rewrite (next_quiet d2 Ht2), Hnode in Hr.
  injection Hr as _ <-. set (d3 := on_nodes _ d2).
  assert (nodes d3 !! path = Some (written tok)) as H3 by apply lookup_insert_eq. split; [exact H3|].
  assert (valid_token tok = true) as Hv by (unfold read_auth_token in Etok; revert Etok; by case_match; intros [= <-]).
  destruct (valid_token_text tok Hv) as [Htrim Hcut].
  destruct (reject_symlink_ok path d3 Ht2) as [Hl3 Hd3].
  assert ((reject_symlink path d3).1 = Ok tt) as Hok.
  { apply Hl3. change (links d3) with (links d2). by rewrite (to_links _ _ _ _ Htouch). }
  unfold token. rewrite Hpath. unfold bind. cbn [of_result]. destruct (reject_symlink path d3) as [r d4]. cbn in Hok, Hd3. subst r d4.
  unfold context, metadata, call. rewrite (next_quiet d3 Ht2), H3. cbn [result_of_option]. rewrite (next_quiet d3 Ht2).
  cbn [Node.mode written]. change (Z.land OWNER_ONLY 63 =? 0) with true. cbn [ensure ret]. rewrite (next_quiet d3 Ht2).
  cbn [Node.text written]. by rewrite Hcut, Htrim, Hv.
Qed.
End Tokens.

(** ** A download *)
Module Example.

#[local] Instance no_json : JsonApi := {| json_from_slice _ := None; json_to_vec _ := None |}.

Definition answer : Reply :=
  {| rp_status := 200; rp_content_type := Some "application/octet-stream"; rp_content_length := Some 5;
     rp_chunks := ["he"; "llo"]; rp_interrupted := false |}.

#[local] Instance mirror : DownloadService := {| download_get _ _ _ := Some answer |}.

Definition bearer : string := "mpd_0123456789abcdef0123456789abcdef0123456789abcdef".

Definition home : Env :=
  {| HOME := Some "/home/user"; USERPROFILE := None; XDG_CONFIG_HOME := None; XDG_STATE_HOME := None |}.

Definition empty_disk (faults : list fault) : Disk := {| nodes := ∅; links := ∅; tape := faults; sequence := 0 |}.

Definition neighbour : Node.t := {| Node.text := "theirs"; Node.mode := 420 |}.

(** Someone writes another file during the second wait. *)
Definition busy (k : nat) (d : Disk) : Disk :=
  if (k =? 1)%nat then on_nodes <["/downloads/theirs" := neighbour]> d else d.

Definition download (others : nat -> Disk -> Disk) (target output : string) (faults : list fault) : result Value string * Disk :=
  fetch home (Some bearer) 42 (fun dir => Some dir) others "https://mirror.example" target output 100 (empty_disk faults).

Lemma download_works :
  let '(r, d) := download busy "https://example.org/a" "/downloads/a" [] in
  r = Ok (report "/downloads/a" 5 "hello") /\ text_at d "/downloads/a" = Some "hello" /\
  text_at d "/downloads/theirs" = Some "theirs" /\ nodes d !! "/downloads/.mirrorproxy-download-42-0" = None.
Proof. vm_compute. repeat split. Qed.

(** The others are first at the name of the output. *)
Lemma the_output_is_lost :
  let '(r, d) := download busy "https://example.org/a" "/downloads/theirs" [] in
  is_ok r = false /\ text_at d "/downloads/theirs" = Some "theirs".
Proof. vm_compute. repeat split. Qed.

Lemma not_own (q : string) : contains_str ".mirrorproxy-download-" q = false -> ~ own 42 q.
Proof.
  intros Hq (parent & k & ->). unfold temporary_name in Hq. rewrite path_join_prefix in Hq.
  by rewrite contains_str_middle in Hq.
Qed.

(** Another process takes the name of the output: its file stays and the
    download fails. *)
Lemma late_files_stay_witness :
  let r := download busy "https://example.org/a" "/downloads/theirs" [] in
  nodes r.2 !! "/downloads/theirs" = Some neighbour /\ is_ok r.1 = false.
Proof.
  destruct (late_files_stay home (Some bearer) 42 (fun dir => Some dir) busy "/downloads/theirs" neighbour 1
    ltac:(intros d; apply lookup_insert_eq) ltac:(intros [|[|k]] d Hk; [lia|lia|done])
    "https://mirror.example" "https://example.org/a" "/downloads/theirs" 100 (empty_disk []) ltac:(by apply not_own)) as [[Hn Ho]|Hsame].
  - split; [exact Hn|]. apply (Ho "/downloads/" "theirs" "/downloads/"); vm_compute; reflexivity.
  - exfalso. specialize (Hsame (fun d => d)). apply (f_equal (fun r => is_ok r.1)) in Hsame. vm_compute in Hsame. discriminate Hsame.
Defined.

Lemma files_stay_witness :
  nodes (fetch home (Some bearer) 42 (fun dir => Some dir) busy "https://mirror.example" "https://example.org/a" "/downloads/a" 100
    (busy 1 (empty_disk [Fine; Fine; Fine; Fine; Fine; Fails 1]))).2 !! "/downloads/theirs" = Some neighbour.
Proof.
  apply files_stay; [|apply lookup_insert_eq].
  intros [|[|k]] d Hd; [exact Hd|apply lookup_insert_eq|exact Hd].
Defined.

Lemma fetched_files_are_whole_witness :
  exists dir name body, parent_and_name "/downloads/a" = ("/downloads/", Some name) /\ str_len body <= 100 /\
    nodes (download (fun _ d => d) "https://example.org/a" "/downloads/a" []).2 !! path_join dir name = Some (partial body).
Proof.
  destruct (fetched_files_are_whole home (Some bearer) 42 (fun dir => Some dir) (fun _ d => d) ltac:(done)
    "https://mirror.example" "https://example.org/a" "/downloads/a" 100 (empty_disk [])
    (download (fun _ d => d) "https://example.org/a" "/downloads/a" []).2 (report "/downloads/a" 5 "hello"))
    as (origin & tok & response & parent & name & dir & last & _ & _ & _ & _ & _ & Hp & _ & _ & Hle & _ & _ & _ & Hnode & _).
  - vm_compute. reflexivity.
  - exists dir, name, (joined (rp_chunks response)). split; [|split; [exact Hle|exact Hnode]].
    rewrite Hp. f_equal. vm_compute in Hp. by injection Hp as <- _.
Defined.

(** A response that is too long. *)
Lemma failed_downloads_leave_nothing_witness :
  nodes (fetch home (Some bearer) 42 (fun dir => Some dir) (fun _ d => d) "https://mirror.example" "https://example.org/a"
    "/downloads/a" 4 (busy 1 (empty_disk []))).2 = nodes (busy 1 (empty_disk [])).
Proof.
  apply (failed_downloads_leave_nothing home (Some bearer) 42 (fun dir => Some dir) (fun _ d => d) ltac:(done)
    "https://mirror.example" "https://example.org/a" "/downloads/a" 4 (busy 1 (empty_disk [])) _
    "download exceeds local file size limit").
  - reflexivity.
  - vm_compute. reflexivity.
Defined.

Definition credentials : string := "/home/user/.mirrorproxy/credentials/https://mirror.example.token".

Lemma saved_tokens_read_back_witness :
  exists tok, (token home None "https://mirror.example"
    (auth home 42 "https://mirror.example" false (bearer +:+ nl) false (empty_disk [])).2).1 = Ok tok.
Proof.
  destruct (saved_tokens_read_back home 42 "https://mirror.example" (bearer +:+ nl) credentials false (empty_disk [])
    (auth home 42 "https://mirror.example" false (bearer +:+ nl) false (empty_disk [])).2
    (PrintedText "Download credential saved for this instance.")) as (tok & _ & _ & Htok).
  - vm_compute. reflexivity.
  - reflexivity.
  - intros p role n Hn. apply lookup_empty.
  - apply ordinary_path. reflexivity.
  - vm_compute. reflexivity.
  - exists tok. exact Htok.
Defined.
End Example.
