(* ===== verification/AgentSpec.v ===== *)
(** * Theorems on the server for agents *)
From stdpp Require Import gmap.
From S2P Require Import Prelude RustStr Lines Headers Url Json Users Fs ClientFiles Systems SystemRewrite Setup SetupSpec.
From S2P Require Import ClientSources ClientDownload Agent.
Open Scope string_scope.
Open Scope Z_scope.
Open Scope list_scope.
Open Scope mirror_scope.

(** ** Objects *)

Lemma json_get_btree (m : list (string * Value)) (key : string) : json_get (Object m) key = btree_get key m.
Proof.
  cbn. unfold find_first. induction m as [|[k v] m IH]; [done|]. cbn. rewrite (String.eqb_sym key k).
  destruct (k =? key)%string; [done|exact IH].
Qed.

Lemma get_insert (key k : string) (v : Value) (m : list (string * Value)) :
  json_get (Object (btree_insert k v m)) key = if (k =? key)%string then Some v else json_get (Object m) key.
Proof.
  rewrite !json_get_btree. destruct (String.eqb_spec k key) as [->|Hk]; [apply btree_get_insert_eq|].
  by apply btree_get_insert_ne.
Qed.

Lemma answered_fields (id v : Value) :
  json_get (answered id v) "jsonrpc" = Some (Str "2.0") /\ json_get (answered id v) "id" = Some id /\
  json_get (answered id v) "result" = Some v /\ json_get (answered id v) "error" = None.
Proof. done. Qed.

Lemma error_fields (id : Value) (code message : string) :
  json_get (error id code message) "jsonrpc" = Some (Str "2.0") /\ json_get (error id code message) "id" = Some id /\
  json_get (error id code message) "result" = None /\ is_Some (json_get (error id code message) "error").
Proof. split_and!; try done. Qed.

(** ** Sources *)

(** What an agent is told of a proxied source lies below the instance it
    asked: its origin with an absolute path, without a second slash, control
    characters or backslashes; other sources are as the catalogue has them. *)
Theorem proxied_sources_lie_below_the_instance (base_url : string) (config : PublicConfig) (s : Source) (row : Value) :
  source_row base_url config s = Ok row ->
  if is_proxy_source s then
    json_get row "url" = Some (Str (base_url +:+ s_repo_url s)) /\ valid_proxy_path (s_repo_url s) = true /\
    json_get row "enabled" = Some (Bool (one_of (enabled_proxies config) (adapter_of (s_repo_url s))))
  else json_get row "url" = Some (Str (s_repo_url s)) /\ json_get row "enabled" = Some Null.
Proof.
  unfold source_row. destruct (is_proxy_source s); [destruct (valid_proxy_path (s_repo_url s)) eqn:Hp; [|done]|];
    intros [= <-]; unfold insert_all; cbn [fold_left fst snd]; by rewrite !get_insert.
Qed.

Section Server.
Context {url : UrlApi} {json : JsonApi} {secret : SecretApi}.
Variable env : Env.
Variable env_token : option string.
Variable pid : Z.
Variable canonicalize : string -> option string.
Variable meanwhile : nat -> nat -> Disk -> Disk.
Variable base_url : string.

(** ** One answer to each request *)

Section Session.
Context {world : AgentWorld}.

Abbreviation handle := (handle env env_token pid canonicalize meanwhile base_url).
Abbreviation respond := (respond env env_token pid canonicalize meanwhile base_url).
Abbreviation serve := (serve env env_token pid canonicalize meanwhile base_url).

(** A response to the request with this id: a result or an error. *)
Definition responds_to (id r : Value) : Prop :=
  json_get r "jsonrpc" = Some (Str "2.0") /\ json_get r "id" = Some id /\
  (is_Some (json_get r "result") <-> json_get r "error" = None).

Lemma answered_responds (id v : Value) : responds_to id (answered id v).
Proof. destruct (answered_fields id v) as (H1 & H2 & H3 & H4). split_and!; try done. Qed.

Lemma error_responds (id : Value) (code message : string) : responds_to id (error id code message).
Proof.
  destruct (error_fields id code message) as (H1 & H2 & H3 & [x H4]). split; [done|]. split; [done|]. rewrite H3, H4.
  split; [by intros []|done].
Qed.

#[local] Hint Resolve answered_responds error_responds : core.

Lemma call_tool_responds (id params : Value) (w : World) :
  responds_to id (call_tool env env_token pid canonicalize meanwhile base_url id params w).1.
Proof.
  unfold call_tool. destruct (parse_call params) as [c|e]; [|apply error_responds].
  by destruct (call _ _ _ _ _ _ c w) as [[data|e] w'].
Qed.

(** Every request with an id gets one response with that id, a result or an
    error; a notification gets none and touches nothing; what is not a request
    changes nothing. *)
Theorem requests_are_answered_once (state : SessionState) (request : Value) (w : World) :
  let '(response, state', w') := handle state request w in
  if valid_request request then
    match json_get request "id" with
    | Some id => exists r, response = Some r /\ responds_to id r
    | None => response = None /\ w' = w
    end
  else response = Some (error Null "-32600" "Invalid Request") /\ state' = state /\ w' = w.
Proof.
  unfold Agent.handle. destruct (valid_request request); [|done]. cbn [negb].
  destruct (json_get request "id") as [id|]; [|done].
  pose proof (call_tool_responds id (default empty_object (json_get request "params")) w) as Hc.
  repeat case_match; try (by eexists; split; [done|eauto]); simplify_eq; eauto.
Qed.

(** ** The loop reads lines *)

(** What [serve] is to do with the lines of its input. *)
Fixpoint answer_lines (limit : nat) (lines : list string) (state : SessionState) (w : World) :
    list Value * result unit string * World :=
  match lines with
  | [] => ([], Ok tt, w)
  | line :: lines =>
      if negb (String.length line <=? limit)%nat then ([], Err "MCP message exceeds 1 MiB", w)
      else
        let '(response, state, w) := respond line state w in
        let '(responses, ended, w) := answer_lines limit lines state w in
        (match response with Some r => r :: responses | None => responses end, ended, w)
  end.

Lemma read_until_line (a rest : string) (fuel : nat) :
  contains_char newline a = false -> (String.length a < fuel)%nat ->
  read_until fuel (a +:+ String newline rest) = (a +:+ String newline "", rest).
Proof.
  revert fuel. induction a as [|c a IH]; intros [|fuel] Ha Hf; cbn in *; try lia; [done|].
  apply orb_false_iff in Ha as [Hc Ha]. rewrite Hc, IH by (done || lia). done.
Qed.

Lemma read_until_end (a : string) (fuel : nat) :
  contains_char newline a = false -> (String.length a <= fuel)%nat -> read_until fuel a = (a, "").
Proof.
  revert fuel. induction a as [|c a IH]; intros [|fuel] Ha Hf; cbn in *; try lia; [done..|].
  apply orb_false_iff in Ha as [Hc Ha]. rewrite Hc, IH by (done || lia). done.
Qed.

Lemma read_until_long (a rest : string) (fuel : nat) :
  contains_char newline a = false -> (fuel <= String.length a)%nat -> (0 < fuel)%nat ->
  String.length (read_until fuel (a +:+ rest)).1 = fuel.
Proof.
  revert fuel. induction a as [|c a IH]; intros [|fuel] Ha Hf H0; cbn in *; try lia.
  apply orb_false_iff in Ha as [Hc Ha]. rewrite Hc. destruct (decide (fuel = 0%nat)) as [->|Hne]; [by destruct (a +:+ rest)|].
  specialize (IH fuel Ha ltac:(lia) ltac:(lia)). by destruct (read_until fuel (a +:+ rest)); cbn in *; rewrite IH.
Qed.

(** The server answers the lines of its input one after the other until the
    input ends or a line is too long, of which it holds no more than the limit
    and a byte. *)
Theorem serve_answers_lines (fuel limit : nat) (input : string) (state : SessionState) (w : World) :
  (String.length input < fuel)%nat ->
  serve fuel limit input state w = answer_lines limit (split_inclusive newline input) state w.
Proof.
  intros Hfuel. pose proof (split_inclusive_joined newline input) as Hj. pose proof (split_inclusive_pieces newline input) as Hp.
  revert Hj Hp. generalize (split_inclusive newline input). intros lines. revert fuel input state w Hfuel.
  induction lines as [|line lines IH]; intros [|fuel] input state w Hfuel <- Hp; try (cbn in Hfuel; lia); [done|].
  cbn [Agent.serve answer_lines]. destruct Hp as [[(a & -> & Ha)|(-> & Hne & Ha)] Hp].
  - change (joined ((a +:+ String newline "") :: lines)) with ((a +:+ String newline "") +:+ joined lines) in *.
    rewrite <- str_app_assoc in *. change (String newline "" +:+ joined lines) with (String newline (joined lines)) in *.
    rewrite str_length_app in Hfuel. cbn in Hfuel. destruct (Nat.leb_spec (String.length (a +:+ String newline "")) limit) as [Hle|Hgt].
    + rewrite str_length_app in Hle. cbn in Hle. rewrite read_until_line by (done || lia).
      assert (str_is_empty (a +:+ String newline "") = false) as -> by (by destruct a).
      rewrite (proj2 (Nat.leb_le _ _)) by (rewrite str_length_app; cbn; lia). cbn [negb].
      destruct (respond _ state w) as [[response state'] w']. rewrite (IH fuel (joined lines)) by (done || lia). done.
    + cbn [negb]. rewrite str_length_app in Hgt. cbn in Hgt. destruct (decide (String.length a < S limit)%nat) as [Hlt|Hlt].
      * rewrite read_until_line by (done || lia). assert (str_is_empty (a +:+ String newline "") = false) as -> by (by destruct a).
        rewrite (proj2 (Nat.leb_gt _ _)) by (rewrite str_length_app; cbn; lia). done.
      * pose proof (read_until_long a (String newline (joined lines)) (S limit) Ha ltac:(lia) ltac:(lia)) as Hlen.
        destruct (read_until (S limit) _) as [l rest]. cbn in Hlen. destruct l as [|c l]; [done|]. cbn [str_is_empty].
        rewrite (proj2 (Nat.leb_gt _ _)) by lia. done.
  - change (joined [line]) with (line +:+ "") in *. rewrite str_app_nil_r in *.
    destruct (Nat.leb_spec (String.length line) limit) as [Hle|Hgt].
    + rewrite read_until_end by (done || lia). destruct line as [|c line]; [done|]. cbn [str_is_empty].
      rewrite (proj2 (Nat.leb_le _ _)) by lia. cbn [negb]. destruct (respond _ state w) as [[response state'] w'].
      destruct fuel as [|fuel]; [cbn in Hfuel; lia|done].
    + pose proof (read_until_long line "" (S limit) Ha ltac:(lia) ltac:(lia)) as Hlen. rewrite str_app_nil_r in Hlen.
      destruct (read_until (S limit) line) as [l rest]. cbn in Hlen. destruct l as [|c l]; [done|]. cbn [str_is_empty].
      rewrite (proj2 (Nat.leb_gt _ _)) by lia. done.
Qed.

(** ** Tools wait for the initialization *)

Definition method_of (line : string) : option string :=
  request ← json_from_slice line; if valid_request request then as_str (index request "method") else None.

Definition says (method : string) (line : string) : Prop := method_of line = Some method.

Lemma respond_moves (line : string) (state : SessionState) (w : World) :
  let '(_, state', w') := respond line state w in
  (w' = w \/ state = Ready /\ says "tools/call" line) /\
  (state' = state \/ state = New /\ state' = Initializing /\ says "initialize" line \/
   state = Initializing /\ state' = Ready /\ says "notifications/initialized" line).
Proof.
  unfold says, method_of, Agent.respond. destruct (json_from_slice line) as [request|]; [|by split; left]. cbn [mbind option_bind].
  unfold Agent.handle. destruct (valid_request request) eqn:Hv; [|by split; left]. cbn [negb].
  assert (as_str (index request "method") = Some (default "" (as_str (index request "method")))) as ->.
  { unfold valid_request in Hv. do 2 (apply andb_true_iff in Hv as [Hv _]). apply andb_true_iff in Hv as [_ Hv].
    by destruct (index request "method"). }
  generalize (default "" (as_str (index request "method"))). intros method. change (default "" (Some method)) with method. destruct (json_get request "id") as [id|].
  2: { split; [by left|]. destruct (String.eqb_spec method "notifications/initialized") as [->|]; [|by left]. cbn [andb].
       case_bool_decide; [right; right|left]; auto. }
  destruct (String.eqb_spec method "ping"); [by split; left|]. destruct (String.eqb_spec method "initialize") as [->|].
  { case_bool_decide as Hs; [|by split; left]. cbn [negb]. destruct (valid_initialization _); (split; [by left|]); [right; left; auto|by left]. }
  case_bool_decide as Hs; [|by split; left]. cbn [negb]. destruct (String.eqb_spec method "tools/list"); [by destruct (json_get _ "cursor") as [[]|]; split; left|].
  destruct (String.eqb_spec method "tools/call") as [->|]; [|by split; left]. destruct (call_tool _ _ _ _ _ _ id _ w) as [r w']. split; [right; auto|by left].
Qed.

(** What has to be among the lines before a tool is called. *)
Definition led_up_to_call (state : SessionState) (lines : list string) : Prop :=
  match state with
  | New => exists l1 l2 l3, sublist [l1; l2; l3] lines /\ says "initialize" l1 /\ says "notifications/initialized" l2 /\ says "tools/call" l3
  | Initializing => exists l2 l3, sublist [l2; l3] lines /\ says "notifications/initialized" l2 /\ says "tools/call" l3
  | Ready => exists l3, sublist [l3] lines /\ says "tools/call" l3
  end.

Lemma led_up_cons (state : SessionState) (line : string) (lines : list string) :
  led_up_to_call state lines -> led_up_to_call state (line :: lines).
Proof. destruct state; cbn; naive_solver eauto using sublist_cons. Qed.

Lemma calls_are_led_up_to (limit : nat) (lines : list string) (state : SessionState) (w : World) :
  (answer_lines limit lines state w).2 <> w -> led_up_to_call state lines.
Proof.
  revert state w. induction lines as [|line lines IH]; intros state w; cbn [answer_lines]; [done|].
  destruct (negb _); [done|]. pose proof (respond_moves line state w) as Hm.
  destruct (respond line state w) as [[response state'] w1]. destruct Hm as [[->|[-> Hl]] Hs].
  - specialize (IH state' w). destruct (answer_lines limit lines state' w) as [[responses ended] w2]. intros Hne. specialize (IH Hne).
    destruct Hs as [->|[(-> & -> & Hl)|(-> & -> & Hl)]]; [by apply led_up_cons| |].
    + destruct IH as (l2 & l3 & Hsub & H2 & H3). exists line, l2, l3. split_and!; try done. by apply sublist_skip.
    + destruct IH as (l3 & Hsub & H3). exists line, l3. split_and!; try done. by apply sublist_skip.
  - intros _. exists line. split; [|done]. apply sublist_skip, sublist_nil_l.
Qed.

(** C20: Nothing is asked of the instance and no file is touched before a client
    has initialized the session, said so, and then called a tool. *)
Theorem tools_wait_for_initialization (input : string) (w : World) :
  (serve_input env env_token pid canonicalize meanwhile base_url input w).2 <> w ->
  exists l1 l2 l3, sublist [l1; l2; l3] (split_inclusive newline input) /\
    says "initialize" l1 /\ says "notifications/initialized" l2 /\ says "tools/call" l3.
Proof.
  unfold serve_input. rewrite serve_answers_lines by lia. intros Hne. by apply calls_are_led_up_to in Hne.
Qed.
End Session.

(** ** Only the instance is asked *)

Lemma bind_ext {A B} (m m' : act A) (k k' : A -> act B) (d : Disk) :
  (forall d, m d = m' d) -> (forall a d, k a d = k' a d) -> bind m k d = bind m' k' d.
Proof. intros Hm Hk. unfold bind. rewrite Hm. by destruct (m' d) as [[a|e] d']. Qed.

Lemma bind_result {A B} (r : result A string) (k : A -> act B) (d : Disk) :
  bind (of_result r) k d = match r with Ok a => k a d | Err e => (Err e, d) end.
Proof. by destruct r. Qed.

Section Confined.
Context (one other : AgentWorld).
Hypothesis same_reads : forall n p, p ∈ ["/api/public-config"; "/api/sources"] ->
  @agent_get one n (base_url +:+ p) = @agent_get other n (base_url +:+ p).
Hypothesis same_downloads : forall n origin p query bearer, ClientDownload.base base_url = Ok origin ->
  p ∈ ["/api/download"; "/api/download/check"] ->
  @download_get (@download_at one n) (origin +:+ p) query bearer = @download_get (@download_at other n) (origin +:+ p) query bearer.

Lemma same_request (n : nat) (target : string) (check : bool) (d : Disk) :
  request (service := @download_at one n) env env_token (meanwhile n) base_url target check d =
  request (service := @download_at other n) env env_token (meanwhile n) base_url target check d.
Proof.
  unfold request. apply bind_ext; [done|intros _ d1]. rewrite !bind_result.
  destruct (ClientDownload.base base_url) as [origin|e] eqn:Eb; [|done].
  apply bind_ext; [done|intros bearer ?]. apply bind_ext; [done|intros _ ?].
  assert (Hp : (if check then "/check" else "") = "/check" \/ (if check then "/check" else "") = "") by (destruct check; auto).
  destruct Hp as [->| ->]; cbn [String.append]; rewrite same_downloads; try done; by repeat constructor.
Qed.

Lemma same_call (c : Call) (w : World) :
  call (H2 := one) env env_token pid canonicalize meanwhile base_url c w =
  call (H2 := other) env env_token pid canonicalize meanwhile base_url c w.
Proof.
  assert (Hread : forall A (decode : Value -> option A) p w, p ∈ ["/api/public-config"; "/api/sources"] ->
    read (H2 := one) base_url decode p w = read (H2 := other) base_url decode p w).
  { intros A decode p w0 Hp. unfold read, ask. by rewrite same_reads. }
  assert (Hthen : forall A B (m m' : World -> result A string * World) (k k' : A -> World -> result B string * World) w,
    (forall w, m w = m' w) -> (forall a w, k a w = k' a w) -> then_ m k w = then_ m' k' w).
  { intros A B m m' k k' w0 Hm Hk. unfold then_. rewrite Hm. by destruct (m' w0) as [[a|e] w1]. }
  destruct c as [target|target output max_bytes|category enabled_only|target|]; cbn [call].
  - unfold downloading. assert (forall d, ClientDownload.check (service := @download_at one (asked w)) env env_token (meanwhile (asked w)) base_url target d
      = ClientDownload.check (service := @download_at other (asked w)) env env_token (meanwhile (asked w)) base_url target d) as ->; [|done].
    intros d. unfold ClientDownload.check. apply bind_ext; [intros ?; apply same_request|done].
  - unfold downloading. assert (forall d, fetch (service := @download_at one (asked w)) env env_token pid canonicalize (meanwhile (asked w)) base_url target output max_bytes d
      = fetch (service := @download_at other (asked w)) env env_token pid canonicalize (meanwhile (asked w)) base_url target output max_bytes d) as ->; [|done].
    intros d. unfold fetch. do 3 (apply bind_ext; [done|intros _ ?]). destruct (parent_and_name output) as [parent name].
    do 2 (apply bind_ext; [done|intros ? ?]). apply bind_ext; [intros ?; apply same_request|done].
  - apply Hthen; [intros ?; apply Hread; set_solver|intros config w1]. apply Hthen; [intros ?; apply Hread; set_solver|done].
  - apply Hthen; [intros ?; apply Hread; set_solver|intros config w1]. apply Hthen; [intros ?; apply Hread; set_solver|done].
  - apply Hthen; [intros ?; apply Hread; set_solver|done].
Qed.

(** Whatever the messages, the server asks the operator's instance only,
    and there for four fixed paths: how any other address would answer makes no
    difference. *)
Theorem only_the_instance_is_asked (input : string) (w : World) :
  serve_input (H2 := one) env env_token pid canonicalize meanwhile base_url input w =
  serve_input (H2 := other) env env_token pid canonicalize meanwhile base_url input w.
Proof.
  unfold serve_input. generalize (S (String.length input)), (Z.to_nat MAX_MESSAGE), New. intros fuel limit.
  revert input w. induction fuel as [|fuel IH]; intros input w state; [done|]. cbn [serve].
  destruct (read_until (S limit) input) as [line rest]. destruct (str_is_empty line); [done|]. destruct (negb _); [done|].
  assert (respond (H2 := one) env env_token pid canonicalize meanwhile base_url line state w =
          respond (H2 := other) env env_token pid canonicalize meanwhile base_url line state w) as ->.
  { unfold respond. destruct (json_from_slice line) as [request|]; [|done]. unfold handle, call_tool.
    destruct (parse_call _); [|done]. by rewrite same_call. }
  destruct (respond _ _ _ _ _ _ line state w) as [[response state'] w']. by rewrite IH.
Qed.
End Confined.
End Server.

(** ** A session *)
Module Example.

Definition message (method : string) (more : list (string * Value)) : Value :=
  Object ([("jsonrpc", Str "2.0"); ("method", Str method)] ++ more).

Definition initialize : Value :=
  message "initialize" [("id", Number "1"); ("params", Object [("protocolVersion", Str "2025-06-18"); ("capabilities", Object []);
    ("clientInfo", Object [("name", Str "agent"); ("version", Str "1")])])].

Definition list_call : Value :=
  message "tools/call" [("id", Str "two"); ("params", Object [("name", Str "list_sources"); ("arguments", Object [("enabled_only", Bool true)])])].

(** Bodies and messages by their names. *)
Definition documents : list (string * Value) := [
  ("config", Object [("enabled_proxies", Array [Str "npm"]); ("unknown", Null)]);
  ("catalog", Object [("targets", Array [Object [("code", Str "npm"); ("category", Str "lang"); ("name", Str "npm")];
                                         Object [("code", Str "go"); ("category", Str "lang"); ("aliases", Array [Str "golang"])]]);
     ("sources", Array [Object [("target_code", Str "npm"); ("provider_code", Str "mirrorproxy"); ("repo_url", Str "/npm/"); ("capability", Str "proxy")];
                        Object [("target_code", Str "go"); ("provider_code", Str "mirrorproxy"); ("repo_url", Str "/goproxy"); ("capability", Str "proxy")]])]);
  ("initialize" +:+ nl, initialize);
  ("initialized" +:+ nl, message "notifications/initialized" []);
  ("list" +:+ nl, list_call)].

#[local] Instance script : JsonApi := {|
  json_from_slice s := snd <$> find_first (fun e => (e.1 =? s)%string) documents; json_to_vec _ := Some "DATA"
|}.

Definition body (name : string) : Reply :=
  {| rp_status := 200; rp_content_type := Some "application/json; charset=utf-8"; rp_content_length := None;
     rp_chunks := [name]; rp_interrupted := false |}.

#[local] Instance mirror : AgentWorld := {|
  agent_get _ url := if (url =? "https://mirror.example/api/public-config")%string then Some (body "config") else Some (body "catalog");
  download_at _ := {| download_get _ _ _ := None |}
|}.

Definition nobody : Env := {| HOME := None; USERPROFILE := None; XDG_CONFIG_HOME := None; XDG_STATE_HOME := None |}.

Definition start : World := {| disk := {| nodes := ∅; links := ∅; tape := []; sequence := 0 |}; asked := 0 |}.

Definition session (input : string) : list Value * result unit string * World :=
  serve_input nobody None 1 (fun _ => None) (fun _ _ d => d) "https://mirror.example" input start.

Definition greeting : string := "initialize" +:+ nl +:+ "initialized" +:+ nl +:+ "list" +:+ nl.

Lemma a_session :
  session greeting =
  ([answered (Number "1") (initialize_result (index initialize "params")); answered (Str "two") (content "DATA" false)],
   Ok tt, {| disk := disk start; asked := 2 |}).
Proof. vm_compute. reflexivity. Qed.

(** Only npm is enabled. *)
Lemma enabled_sources :
  let '(r, _) := call nobody None 1 (fun _ => None) (fun _ _ d => d) "https://mirror.example" (Sources None true) start in
  match r with
  | Ok v => match index v "targets" with
            | Array [t] => index t "code" = Str "npm" /\
                match index t "sources" with Array [s] => index s "url" = Str "https://mirror.example/npm/" | _ => False end
            | _ => False end
  | Err _ => False
  end.
Proof. vm_compute. split; reflexivity. Qed.

Lemma tools_wait_for_initialization_witness :
  exists l1 l2 l3, sublist [l1; l2; l3] (split_inclusive newline greeting) /\
    says "initialize" l1 /\ says "notifications/initialized" l2 /\ says "tools/call" l3.
Proof.
  apply (tools_wait_for_initialization nobody None 1 (fun _ => None) (fun _ _ d => d) "https://mirror.example" greeting start).
  change (serve_input nobody None 1 (fun _ => None) (fun _ _ d => d) "https://mirror.example" greeting start) with (session greeting).
  rewrite a_session. cbn [snd]. intros Heq. discriminate (f_equal asked Heq).
Defined.

Lemma serve_answers_lines_witness :
  (serve nobody None 1 (fun _ => None) (fun _ _ d => d) "https://mirror.example" 12 5 "long line" New start).1.2 =
  Err "MCP message exceeds 1 MiB".
Proof.
  rewrite (serve_answers_lines nobody None 1 (fun _ => None) (fun _ _ d => d) "https://mirror.example" 12 5 "long line" New start);
    [reflexivity|cbn; lia].
Defined.

Definition proxied : Source :=
  {| s_target_code := "npm"; s_provider_code := "mirrorproxy"; s_repo_url := "/npm/"; s_capability := "proxy"; s_metadata := [] |}.

Lemma proxied_sources_lie_below_the_instance_witness :
  exists row, json_get row "url" = Some (Str "https://mirror.example/npm/").
Proof.
  destruct (source_row "https://mirror.example" {| enabled_proxies := ["npm"]; user_access := Null; quota := Null; download := Null |} proxied)
    as [row|e] eqn:E; [|discriminate E].
  exists row. exact (proj1 (proxied_sources_lie_below_the_instance "https://mirror.example" _ proxied row E)).
Defined.
(** A world in which every other address answers otherwise. *)
Definition hostile : AgentWorld := {|
  agent_get n url := if one_of ["https://mirror.example/api/public-config"; "https://mirror.example/api/sources"] url
                     then @agent_get mirror n url else Some (body "list");
  download_at := @download_at mirror
|}.

Lemma only_the_instance_is_asked_witness :
  (serve_input (H2 := hostile) nobody None 1 (fun _ => None) (fun _ _ d => d) "https://mirror.example" greeting start).1.2 = Ok tt.
Proof.
  rewrite (only_the_instance_is_asked nobody None 1 (fun _ => None) (fun _ _ d => d) "https://mirror.example" hostile mirror).
  - change (serve_input _ _ _ _ _ _ greeting start) with (session greeting). rewrite a_session. reflexivity.
  - intros n p Hp. apply elem_of_cons in Hp as [->|Hp]; [reflexivity|]. apply elem_of_cons in Hp as [->|Hp]; [reflexivity|].
    by apply elem_of_nil in Hp.
  - done.
Defined.
End Example.
