(* ===== verification/SsoFlow.v ===== *)
(** * The handlers of [oauth.rs]

    Administrators configure providers; a browser starts a flow, comes back
    with a code, and the code is exchanged for claims that sign a user in, link
    an identity to an account or create one.  A handler that awaits is a
    sequence of steps: a [Task] is a request at an await point, with the
    variables that are in scope there, and [advance] runs it to the next one,
    so that other requests may run in between.  The crates [oauth2] and
    [openidconnect] are the class [IdentityApi]; the answers of the network are
    arguments of a step. *)
From stdpp Require Import gmap.
From S2P Require Import Prelude RustStr Headers Url Json Config Quota Users Secrets Email EmailFlow Requests Sso.
Open Scope string_scope.
Open Scope Z_scope.
Open Scope list_scope.
Open Scope mirror_scope.

Definition FLOW_COOKIE : string := "mirrorproxy_oauth_state".
Definition FLOW_LIFETIME_SECS : Z := 10 * 60.

(** ** Requests and answers *)

Module ProviderRequest.
Record t : Type := {
  slug : string; display_name : string; kind : string; preset : string; enabled : bool; client_id : string;
  client_secret : option string; issuer_url : option string; authorization_url : option string;
  token_url : option string; userinfo_url : option string; emails_url : option string; scopes : list string;
  subject_field : string; email_field : string; email_verified_field : option string; display_name_field : string;
}.
End ProviderRequest.

Record CallbackQuery : Type := { cq_code : option string; cq_state : option string; cq_error : option string }.

Record FlowPayload : Type := { pkce_verifier : string; nonce : option string; invitation : option string }.

Record ExternalClaims : Type := { ec_subject : string; ec_email : option string; ec_email_verified : bool; ec_display_name : string }.

(** Why a provider is refused: [InvalidUrl] is an error of [Url::parse]. *)
Inductive ProviderError : Type :=
| Message (text : string)
| InvalidUrl.

Record PublicProvider : Type := { pp_slug : string; pp_display_name : string; pp_kind : string }.

(** What an administrator sees of a provider: its columns but the secret. *)
Record ProviderView : Type := { pv_provider : ProviderRequest.t; pv_id : Z; pv_has_client_secret : bool }.

(** ** Templates of the console *)

Record ProviderTemplate : Type := {
  pt_preset : string; pt_display_name : string; pt_kind : string; pt_issuer_url : option string;
  pt_authorization_url : option string; pt_token_url : option string; pt_userinfo_url : option string;
  pt_emails_url : option string; pt_scopes : list string;
}.

Definition oauth2_template (preset display_name : string) (authorization token userinfo emails : option string)
    (scopes : list string) : ProviderTemplate := {|
  pt_preset := preset; pt_display_name := display_name; pt_kind := "oauth2"; pt_issuer_url := None;
  pt_authorization_url := authorization; pt_token_url := token; pt_userinfo_url := userinfo; pt_emails_url := emails;
  pt_scopes := scopes;
|}.

Definition oidc_template (preset display_name : string) (issuer : option string) : ProviderTemplate := {|
  pt_preset := preset; pt_display_name := display_name; pt_kind := "oidc"; pt_issuer_url := issuer;
  pt_authorization_url := None; pt_token_url := None; pt_userinfo_url := None; pt_emails_url := None;
  pt_scopes := ["openid"; "email"; "profile"];
|}.

Definition TEMPLATES : list ProviderTemplate := [
  oauth2_template "github" "GitHub" (Some "https://github.com/login/oauth/authorize")
    (Some "https://github.com/login/oauth/access_token") (Some "https://api.github.com/user")
    (Some "https://api.github.com/user/emails") ["read:user"; "user:email"];
  oauth2_template "gitlab" "GitLab" (Some "https://gitlab.com/oauth/authorize") (Some "https://gitlab.com/oauth/token")
    (Some "https://gitlab.com/api/v4/user") None ["read_user"];
  oauth2_template "gitee" "Gitee" (Some "https://gitee.com/oauth/authorize") (Some "https://gitee.com/oauth/token")
    (Some "https://gitee.com/api/v5/user") None ["user_info"];
  oidc_template "google" "Google" (Some "https://accounts.google.com");
  oidc_template "microsoft" "Microsoft" (Some "https://login.microsoftonline.com/YOUR_TENANT_ID/v2.0");
  oidc_template "keycloak" "Keycloak" None;
  oidc_template "authentik" "Authentik" None;
  oauth2_template "custom_oauth2" "Custom OAuth2" None None None None [];
  oidc_template "custom_oidc" "Custom OIDC" None].

Module SsoAnswer.
Inductive t : Type :=
| CallbackRedirect (path : string) (session : option string)
| AuthorizeRedirect (url state_token : string) (secure : bool)
| Saved (id : Z)
| NoContent
| Reachable
| PublicProviders (providers : list PublicProvider)
| AdminProviders (providers : list ProviderView) (templates : list ProviderTemplate)
| Identities (rows : list (Identity.t * string))
| BadRequest (error : ProviderError)
| Unauthorized
| Forbidden
| NotFound
| Conflict (error : string)
| BadGateway
| Unavailable (error : string)
| InternalError.
End SsoAnswer.

(** The answers of [require_super_admin] to anybody else. *)
Inductive AdminRefusal : Type := NoAdmin | OtherRole | AdminCheckFailed.

Definition refusal (r : AdminRefusal) : SsoAnswer.t :=
  match r with
  | NoAdmin => SsoAnswer.Unauthorized
  | OtherRole => SsoAnswer.Forbidden
  | AdminCheckFailed => SsoAnswer.InternalError
  end.

Definition callback_error (code : string) : SsoAnswer.t := SsoAnswer.CallbackRedirect ("/login?oauth_error=" +:+ code) None.

(** ** Cookies *)

Section Cookies.
Context `{HeaderApi} `{UrlApi} `{CsrfApi}.

Definition user_csrf_cookie (token : string) : option HeaderValue :=
  h_from_str (USER_CSRF_COOKIE +:+ "=" +:+ csrf_token token +:+ "; Path=/; Secure; SameSite=Lax; Max-Age=" +:+
              show_uint USER_SESSION_COOKIE_MAX_AGE_SECS).

Definition flow_cookie (value : string) (secure : bool) : option HeaderValue :=
  h_from_str (FLOW_COOKIE +:+ "=" +:+ value +:+ "; Path=/api/auth; HttpOnly; SameSite=Lax; Max-Age=" +:+
              show_uint FLOW_LIFETIME_SECS +:+ (if secure then "; Secure" else "")).

Definition clear_flow_cookie : option HeaderValue :=
  h_from_str "mirrorproxy_oauth_state=; Path=/api/auth; HttpOnly; SameSite=Lax; Max-Age=0".

(** The [Set-Cookie] headers of an answer; [None] would be a panic. *)
Definition set_cookies (a : SsoAnswer.t) : option (list HeaderValue) :=
  match a with
  | SsoAnswer.CallbackRedirect _ (Some session) =>
      mapM id [user_session_cookie session; user_csrf_cookie session; clear_flow_cookie]
  | SsoAnswer.CallbackRedirect _ None => mapM id [clear_flow_cookie]
  | SsoAnswer.AuthorizeRedirect _ state_token secure => mapM id [flow_cookie state_token secure]
  | _ => Some []
  end.
End Cookies.

(** ** Reading the claims out of a JSON document *)

Definition as_bool (v : Value) : option bool := match v with Bool b => Some b | _ => None end.

(** [as_i64] or [as_u64], printed again; serde_json reads [-0] and numbers
    with a point or an exponent as floating-point numbers. *)
Definition integer_text (text : string) : option string :=
  match text with
  | EmptyString => None
  | String c digits =>
      if Ascii.eqb c "-" then
        match digits, parse_digits (I64_MAX + 1) 0 digits with
        | String _ _, Some n => if n =? 0 then None else Some ("-" +:+ show_uint n)
        | _, _ => None
        end
      else show_uint <$> parse_digits U64_MAX 0 text
  end.

Fixpoint follow (value : Value) (keys : list string) : option Value :=
  match keys with
  | [] => Some value
  | key :: rest => match json_get value key with Some inner => follow inner rest | None => None end
  end.

Definition json_value (value : Value) (path : string) : option Value := follow value (str_split "." path).

Definition json_text (value : Value) (path : string) : option string :=
  match json_value value path with
  | Some (Str s) => Some s
  | Some (Number text) => integer_text text
  | _ => None
  end.

Definition json_bool (value : Value) (path : string) : option bool := json_value value path ≫= as_bool.

Definition is_true_field (key : string) (item : Value) : bool :=
  match json_get item key ≫= as_bool with Some b => b | None => false end.

(** The primary verified address, or the first verified one. *)
Definition verified_item (items : list Value) : option Value :=
  match find_first (fun item => is_true_field "verified" item && is_true_field "primary" item) items with
  | Some item => Some item
  | None => find_first (is_true_field "verified") items
  end.

(** ** Payloads of flows *)

Definition opt_text (o : option string) : Value := match o with Some s => Str s | None => Null end.

Definition payload_value (p : FlowPayload) : Value :=
  Object [("pkce_verifier", Str (pkce_verifier p)); ("nonce", opt_text (nonce p)); ("invitation", opt_text (invitation p))].

(** An [Option<String>] field: absent, null or a string. *)
Definition text_field (v : Value) (key : string) : option (option string) :=
  match json_get v key with
  | None | Some Null => Some None
  | Some (Str s) => Some (Some s)
  | Some _ => None
  end.

Definition payload_of_value (v : Value) : option FlowPayload :=
  match json_get v "pkce_verifier", text_field v "nonce", text_field v "invitation" with
  | Some (Str verifier), Some nonce, Some invitation =>
      Some {| pkce_verifier := verifier; nonce := nonce; invitation := invitation |}
  | _, _, _ => None
  end.

(** ** Providers: what is accepted *)

Definition clean_optional (value : option string) : option string :=
  match str_trim <$> value with
  | Some v => if str_is_empty v then None else Some v
  | None => None
  end.

Definition provider_of_request (id : Z) (request : ProviderRequest.t) : AuthProvider.t := {|
  AuthProvider.id := id;
  AuthProvider.slug := to_ascii_lowercase (str_trim (ProviderRequest.slug request));
  AuthProvider.display_name := str_trim (ProviderRequest.display_name request);
  AuthProvider.kind := to_ascii_lowercase (str_trim (ProviderRequest.kind request));
  AuthProvider.preset := to_ascii_lowercase (str_trim (ProviderRequest.preset request));
  AuthProvider.enabled := ProviderRequest.enabled request;
  AuthProvider.client_id := str_trim (ProviderRequest.client_id request);
  AuthProvider.client_secret := clean_optional (ProviderRequest.client_secret request);
  AuthProvider.issuer_url := clean_optional (ProviderRequest.issuer_url request);
  AuthProvider.authorization_url := clean_optional (ProviderRequest.authorization_url request);
  AuthProvider.token_url := clean_optional (ProviderRequest.token_url request);
  AuthProvider.userinfo_url := clean_optional (ProviderRequest.userinfo_url request);
  AuthProvider.emails_url := clean_optional (ProviderRequest.emails_url request);
  AuthProvider.scopes := List.filter (fun v => negb (str_is_empty v)) (str_trim <$> ProviderRequest.scopes request);
  AuthProvider.subject_field := str_trim (ProviderRequest.subject_field request);
  AuthProvider.email_field := str_trim (ProviderRequest.email_field request);
  AuthProvider.email_verified_field := clean_optional (ProviderRequest.email_verified_field request);
  AuthProvider.display_name_field := str_trim (ProviderRequest.display_name_field request);
  AuthProvider.allow_registration := true;
  AuthProvider.auto_link_by_email := true;
|}.

Definition preserve_secret (request : ProviderRequest.t) : bool :=
  match ProviderRequest.client_secret request with
  | None => true
  | Some value => str_is_empty (str_trim value)
  end.

Definition provider_view (p : AuthProvider.t) : ProviderView := {|
  pv_provider := {|
    ProviderRequest.slug := AuthProvider.slug p; ProviderRequest.display_name := AuthProvider.display_name p;
    ProviderRequest.kind := AuthProvider.kind p; ProviderRequest.preset := AuthProvider.preset p;
    ProviderRequest.enabled := AuthProvider.enabled p; ProviderRequest.client_id := AuthProvider.client_id p;
    ProviderRequest.client_secret := None; ProviderRequest.issuer_url := AuthProvider.issuer_url p;
    ProviderRequest.authorization_url := AuthProvider.authorization_url p;
    ProviderRequest.token_url := AuthProvider.token_url p; ProviderRequest.userinfo_url := AuthProvider.userinfo_url p;
    ProviderRequest.emails_url := AuthProvider.emails_url p; ProviderRequest.scopes := AuthProvider.scopes p;
    ProviderRequest.subject_field := AuthProvider.subject_field p; ProviderRequest.email_field := AuthProvider.email_field p;
    ProviderRequest.email_verified_field := AuthProvider.email_verified_field p;
    ProviderRequest.display_name_field := AuthProvider.display_name_field p |};
  pv_id := AuthProvider.id p;
  pv_has_client_secret := bool_decide (is_Some (AuthProvider.client_secret p));
|}.

Definition slug_char (c : ascii) : bool := is_lower c || is_digit c || Ascii.eqb c "-".

Section Providers.
Context `{UrlApi}.

Definition validate_https (value : string) : result unit ProviderError :=
  match url_parse value with
  | None => Err InvalidUrl
  | Some url =>
      if negb (url_scheme url =? "https")%string || negb (bool_decide (is_Some (url_host_str url)))
         || negb (str_is_empty (url_username url)) || bool_decide (is_Some (url_password url))
         || bool_decide (is_Some (url_fragment url))
      then Err (Message "provider endpoints must be credential-free HTTPS URLs without fragments")
      else Ok tt
  end.

Definition required_https (message : string) (value : option string) : result unit ProviderError :=
  let? url := result_of_option value (Message message) in validate_https url.

Definition OAUTH2_URLS : string := "authorization_url, token_url, and userinfo_url are required for OAuth2".

Definition validate_provider (provider : AuthProvider.t) (has_preserved_secret : bool) : result unit ProviderError :=
  if negb ((2 <=? str_len (AuthProvider.slug provider)) && (str_len (AuthProvider.slug provider) <=? 50))
     || negb (all_bytes slug_char (AuthProvider.slug provider))
  then Err (Message "slug must contain 2 to 50 lowercase ASCII letters, numbers, or hyphens")
  else if str_is_empty (AuthProvider.display_name provider) || (80 <? char_count (AuthProvider.display_name provider))
          || str_is_empty (AuthProvider.client_id provider)
  then Err (Message "display_name and client_id are required")
  else if negb (AuthProvider.kind provider =? "oauth2")%string && negb (AuthProvider.kind provider =? "oidc")%string
  then Err (Message "kind must be oauth2 or oidc")
  else if AuthProvider.enabled provider && bool_decide (AuthProvider.client_secret provider = None)
          && negb has_preserved_secret
  then Err (Message "client_secret is required before enabling a provider")
  else if (AuthProvider.kind provider =? "oidc")%string then
    let? _ := required_https "issuer_url is required for OIDC" (AuthProvider.issuer_url provider) in
    if negb (existsb (String.eqb "openid") (AuthProvider.scopes provider))
    then Err (Message "OIDC scopes must include openid") else Ok tt
  else
    let? _ := required_https OAUTH2_URLS (AuthProvider.authorization_url provider) in
    let? _ := required_https OAUTH2_URLS (AuthProvider.token_url provider) in
    let? _ := required_https OAUTH2_URLS (AuthProvider.userinfo_url provider) in
    let? _ := match AuthProvider.emails_url provider with Some value => validate_https value | None => Ok tt end in
    if str_is_empty (AuthProvider.subject_field provider)
    then Err (Message "subject_field is required for OAuth2") else Ok tt.
End Providers.

(** ** The protocols *)

Record OAuthClient : Type := {
  oa_client_id : string; oa_client_secret : string; oa_auth_url : string; oa_token_url : string; oa_redirect_url : string;
  oa_request_body : bool;
}.

Record OidcClient (M : Type) : Type := {
  oi_metadata : M; oi_client_id : string; oi_client_secret : string; oi_redirect_url : string;
}.
Arguments oi_metadata {M}.
Arguments oi_client_id {M}.
Arguments oi_client_secret {M}.
Arguments oi_redirect_url {M}.

(** The claims of an ID token whose signature, issuer, audience, expiry and
    nonce the crate has verified, and those of the UserInfo endpoint. *)
Record IdClaims : Type := {
  ic_subject : string; ic_email : option string; ic_email_verified : option bool; ic_name : option string;
  ic_access_token_hash : option string;
}.

Record UserInfo : Type := { info_email : option string; info_email_verified : option bool; info_name : option string }.

(** The crates [oauth2] and [openidconnect]: discovered metadata, answers of
    the token endpoint and ID tokens are values of theirs. *)
Class IdentityApi : Type := {
  Metadata : Type;
  Tokens : Type;
  IdToken : Type;
  (** [authorize_url] with the state, the PKCE challenge of a verifier, and scopes *)
  oauth_authorize_url : OAuthClient -> string -> string -> list string -> string;
  (** the same with a nonce before the verifier *)
  oidc_authorize_url : OidcClient Metadata -> string -> string -> string -> list string -> string;
  user_info_url : Metadata -> option string;
  access_token : Tokens -> string;
  id_token : Tokens -> option IdToken;
  (** [id_token.claims(&verifier, &nonce)] *)
  id_claims : OidcClient Metadata -> IdToken -> string -> option IdClaims;
  (** [AccessTokenHash::from_token] for the signing algorithm and key of the token *)
  token_hash : OidcClient Metadata -> Tokens -> IdToken -> option string;
}.

(** What the network answers while a request is handled; [None] is any
    failure: no connection, an error status, a body that is not JSON. *)
Record IdentityNet `{IdentityApi} : Type := {
  net_discover : string -> option Metadata;
  net_exchange : OAuthClient -> string -> string -> option string;
  net_get : string -> string -> option Value;
  net_oidc_exchange : OidcClient Metadata -> string -> string -> option Tokens;
  net_user_info : OidcClient Metadata -> string -> string -> option UserInfo;
  net_reaches : string -> bool;
}.

Section Protocols.
Context `{UrlApi} `{IdentityApi}.

Definition url_ok (url : string) : bool := bool_decide (is_Some (url_parse url)).

Definition SECRET_IN_BODY : list string := ["github"; "gitlab"; "gitee"].

Definition oauth_client (provider : AuthProvider.t) (secret callback : string) : option OAuthClient :=
  match AuthProvider.authorization_url provider, AuthProvider.token_url provider with
  | Some authorization, Some token =>
      if url_ok authorization && url_ok token && url_ok callback
      then Some {|
        oa_client_id := AuthProvider.client_id provider; oa_client_secret := secret; oa_auth_url := authorization;
        oa_token_url := token; oa_redirect_url := callback;
        oa_request_body := existsb (String.eqb (AuthProvider.preset provider)) SECRET_IN_BODY |}
      else None
  | _, _ => None
  end.

Definition oidc_client (net : IdentityNet) (provider : AuthProvider.t) (secret callback : string) :
    option (OidcClient Metadata) :=
  match AuthProvider.issuer_url provider with
  | None => None
  | Some issuer =>
      if negb (url_ok issuer) then None
      else match net_discover net issuer with
           | None => None
           | Some metadata =>
               if url_ok callback
               then Some {| oi_metadata := metadata; oi_client_id := AuthProvider.client_id provider;
                            oi_client_secret := secret; oi_redirect_url := callback |}
               else None
           end
  end.

(** The address to send the browser to, the PKCE verifier and the nonce. *)
Definition oauth_authorization_with_secret (verifier : string) (provider : AuthProvider.t) (secret callback state : string) :
    option (string * string * option string) :=
  client ← oauth_client provider secret callback;
  Some (oauth_authorize_url client state verifier (AuthProvider.scopes provider), verifier, None).

Definition oidc_authorization (net : IdentityNet) (verifier nonce : string) (provider : AuthProvider.t)
    (secret callback state : string) : option (string * string * option string) :=
  client ← oidc_client net provider secret callback;
  Some (oidc_authorize_url client state nonce verifier (AuthProvider.scopes provider), verifier, Some nonce).

(** The address and its state according to the profile. *)
Definition profile_email (provider : AuthProvider.t) (value : Value) : option string * bool :=
  (to_ascii_lowercase <$> json_text value (AuthProvider.email_field provider),
   match AuthProvider.email_verified_field provider with
   | Some field => match json_bool value field with Some b => b | None => false end
   | None => false
   end).

(** The list of addresses overrides the profile when it has a verified one. *)
Definition listed_email (emails : Value) (found : option string * bool) : option string * bool :=
  match emails with
  | Array items =>
      match verified_item items with
      | Some item =>
          let email := to_ascii_lowercase <$> (json_get item "email" ≫= as_str) in
          (email, bool_decide (is_Some email))
      | None => found
      end
  | _ => found
  end.

Definition oauth_exchange (net : IdentityNet) (provider : AuthProvider.t) (secret callback code : string)
    (payload : FlowPayload) : option ExternalClaims :=
  client ← oauth_client provider secret callback;
  token ← net_exchange net client code (pkce_verifier payload);
  userinfo_url ← AuthProvider.userinfo_url provider;
  value ← net_get net userinfo_url token;
  subject ← json_text value (AuthProvider.subject_field provider);
  let found := profile_email provider value in
  found ← (if negb found.2 || bool_decide (found.1 = None) then
             match AuthProvider.emails_url provider with
             | Some url => (fun emails => listed_email emails found) <$> net_get net url token
             | None => Some found
             end
           else Some found);
  let display_name := match json_text value (AuthProvider.display_name_field provider) with
                      | Some name => name
                      | None => subject
                      end in
  Some {| ec_subject := subject; ec_email := found.1; ec_email_verified := found.2; ec_display_name := display_name |}.

(** [claims.access_token_hash()], when the provider sent one. *)
Definition token_hash_matches (client : OidcClient Metadata) (tokens : Tokens) (token : IdToken) (claims : IdClaims) : bool :=
  match ic_access_token_hash claims with
  | None => true
  | Some expected => match token_hash client tokens token with
                     | Some actual => (actual =? expected)%string
                     | None => false
                     end
  end.

Definition local_part (email : string) : option string := head (str_split "@" email).

Definition is_verified (o : option bool) : bool := match o with Some b => b | None => false end.

(** The ID token's address, or the one UserInfo calls verified; the name. *)
Definition oidc_profile (net : IdentityNet) (client : OidcClient Metadata) (tokens : Tokens) (claims : IdClaims) :
    option ((option string * bool) * option string) :=
  let email := to_ascii_lowercase <$> ic_email claims in
  let verified := is_verified (ic_email_verified claims) in
  if (negb verified || bool_decide (email = None)) && bool_decide (is_Some (user_info_url (oi_metadata client))) then
    info ← net_user_info net client (access_token tokens) (ic_subject claims);
    let found := if is_verified (info_email_verified info)
                 then let email := to_ascii_lowercase <$> info_email info in (email, bool_decide (is_Some email))
                 else (email, verified) in
    Some (found, match ic_name claims with Some name => Some name | None => info_name info end)
  else Some ((email, verified), ic_name claims).

Definition oidc_exchange (net : IdentityNet) (provider : AuthProvider.t) (secret callback code : string)
    (payload : FlowPayload) : option ExternalClaims :=
  client ← oidc_client net provider secret callback;
  tokens ← net_oidc_exchange net client code (pkce_verifier payload);
  token ← id_token tokens;
  nonce ← nonce payload;
  claims ← id_claims client token nonce;
  if negb (token_hash_matches client tokens token claims) then None
  else
    profile ← oidc_profile net client tokens claims;
    let '(found, name) := profile in
    let display_name :=
      match name with
      | Some name => name
      | None => match found.1 ≫= local_part with Some name => name | None => ic_subject claims end
      end in
    Some {| ec_subject := ic_subject claims; ec_email := found.1; ec_email_verified := found.2;
            ec_display_name := display_name |}.

(** What the provider says of the user, by the protocol it speaks. *)
Definition external_claims (net : IdentityNet) (provider : AuthProvider.t) (secret callback_url code : string)
    (payload : FlowPayload) : option ExternalClaims :=
  if (AuthProvider.kind provider =? "oidc")%string then oidc_exchange net provider secret callback_url code payload
  else oauth_exchange net provider secret callback_url code payload.
End Protocols.

(** ** The steps of a request

    [Env] is what a step finds: the clock, fresh random values, the
    configuration and the network of that moment. *)
Record Env `{IdentityApi} : Type := {
  now : Z;
  config : Config.t;
  net : IdentityNet;
  session_token : string;
  state_token : string;
  verifier : string;
  oidc_nonce : string;
  seal_nonce : string;
  routing_draws : list Z;
}.

(** Requests at their await points; every constructor names the call that
    comes next and holds the variables the code still uses. *)
Inductive Task `{HeaderApi} : Type :=
(* save_provider *)
| InspectSecret (actor : string) (provider : AuthProvider.t) (preserve : bool)
| ReadSecret (actor : string) (provider : AuthProvider.t) (preserve : bool)
| WriteProvider (actor : string) (provider : AuthProvider.t) (client_secret : option string)
(* delete_provider *)
| CountIdentities (actor : string) (id : Z)
| DeleteProvider (actor : string) (id : Z)
(* test_provider, list_admin_providers, public_providers, account_providers *)
| LoadTested (id : Z)
| TestProvider (provider : AuthProvider.t)
| ListAdmin
| ListPublic
| ListOwn (headers : HeaderMap)
| ListFor (user_id : Z)
(* start_login, start_link *)
| AuthorizeLink (headers : HeaderMap) (slug : string)
| StartFlow (headers : HeaderMap) (slug mode : string) (user_id : option Z) (invitation : option string)
| Authorize (provider : AuthProvider.t) (secret callback_url mode : string) (user_id : option Z) (invitation : option string)
| StoreFlow (provider_id : Z) (payload mode : string) (user_id : option Z) (state_token url callback_url : string)
(* callback *)
| TakeFlow (headers : HeaderMap) (slug code returned_state : string)
| LoadProvider (headers : HeaderMap) (slug code : string) (flow : StoredAuthFlow)
| Exchange (provider : AuthProvider.t) (secret callback_url code : string) (payload : FlowPayload) (flow : StoredAuthFlow)
(* complete_identity *)
| CheckLinked (provider : AuthProvider.t) (user_id : Z) (claims : ExternalClaims)
| BindLinked (provider : AuthProvider.t) (user_id : Z) (claims : ExternalClaims)
| FindIdentity (provider : AuthProvider.t) (invitation : option string) (claims : ExternalClaims)
| FindByEmail (provider : AuthProvider.t) (invitation : option string) (claims : ExternalClaims) (email : string)
| AutoLink (provider : AuthProvider.t) (claims : ExternalClaims) (email : string) (user : UserAccount)
| CheckInvitation (provider : AuthProvider.t) (claims : ExternalClaims) (email token : string)
| Register (provider : AuthProvider.t) (claims : ExternalClaims) (email : string) (invitation_id : option Z)
| CreateSession (provider : AuthProvider.t) (claims : ExternalClaims) (user_id : Z)
| AuditLogin (provider : AuthProvider.t) (user_id : Z) (session : UserSession)
(* unlink_identity, admin_unlink_user_identity *)
| AuthorizeUnlink (headers : HeaderMap) (id : Z)
| CountOwn (user_id id : Z)
| CheckMail (user_id id count : Z)
| Unlink (actor : string) (user_id id : Z)
| Answered (answer : SsoAnswer.t).

(** ** Requests as they arrive

    The administrator [require_super_admin] recognises, or its refusal, is
    given; what a handler does before its first other call is done here. *)
Inductive SsoRequest `{HeaderApi} : Type :=
| SaveProvider (admin : result string AdminRefusal) (id : Z) (request : ProviderRequest.t)
| RemoveProvider (admin : result string AdminRefusal) (id : Z)
| TryProvider (admin : result string AdminRefusal) (id : Z)
| AdminProviders (admin : result string AdminRefusal)
| PublicProvidersList
| AccountProviders (headers : HeaderMap)
| AdminUserIdentities (admin : result string AdminRefusal) (user_id : Z)
| StartLogin (headers : HeaderMap) (slug : string) (invitation : option string)
| StartLink (headers : HeaderMap) (slug : string)
| Callback (headers : HeaderMap) (slug : string) (query : CallbackQuery)
| UnlinkIdentity (headers : HeaderMap) (id : Z)
| AdminUnlink (admin : result string AdminRefusal) (user_id id : Z).

Section Handlers.
Context `{SecretApi} `{CipherApi} `{HeaderApi} `{UrlApi} `{JsonApi} `{IdentityApi}.
Variable cipher : option string.

Notation Step := (Env -> Sso -> Task * Sso).

Definition answer (a : SsoAnswer.t) (s : Sso) : Task * Sso := (Answered a, s).

Definition actor_of_user (user_id : Z) : string := "user:" +:+ show_uint user_id.

Definition method_of (provider : AuthProvider.t) : string := "oauth:" +:+ AuthProvider.slug provider.

Definition with_admin (admin : result string AdminRefusal) (k : string -> Task) : Task :=
  match admin with Ok username => k username | Err r => Answered (refusal r) end.

(** The beginning of [callback]: the browser must hold the state it returns. *)
Definition callback_start (headers : HeaderMap) (slug : string) (query : CallbackQuery) : Task :=
  if bool_decide (is_Some (cq_error query)) then Answered (callback_error "provider_denied")
  else match cq_code query, cq_state query with
       | Some code, Some returned_state =>
           if bool_decide (cookie_value headers FLOW_COOKIE = Some returned_state)
           then TakeFlow headers slug code returned_state
           else Answered (callback_error "invalid_state")
       | _, _ => Answered (callback_error "invalid_callback")
       end.

(** The beginning of [start_flow]. *)
Definition flow_start (headers : HeaderMap) (slug mode : string) (user_id : option Z) (invitation : option string) : Task :=
  match invitation with
  | Some token => if 128 <? str_len token then Answered (SsoAnswer.BadRequest (Message "invitation token is too long"))
                  else StartFlow headers slug mode user_id invitation
  | None => StartFlow headers slug mode user_id invitation
  end.

Definition receive (r : SsoRequest) : Task :=
  match r with
  | SaveProvider admin id request =>
      with_admin admin (fun username => InspectSecret username (provider_of_request id request) (preserve_secret request))
  | RemoveProvider admin id => with_admin admin (fun username => CountIdentities username id)
  | TryProvider admin id => with_admin admin (fun _ => LoadTested id)
  | AdminProviders admin => with_admin admin (fun _ => ListAdmin)
  | PublicProvidersList => ListPublic
  | AccountProviders headers => ListOwn headers
  | AdminUserIdentities admin user_id => with_admin admin (fun _ => ListFor user_id)
  | StartLogin headers slug invitation => flow_start headers slug "login" None invitation
  | StartLink headers slug => AuthorizeLink headers slug
  | Callback headers slug query => callback_start headers slug query
  | UnlinkIdentity headers id => AuthorizeUnlink headers id
  | AdminUnlink admin user_id id => with_admin admin (fun username => Unlink username user_id id)
  end.

(** [authenticated_user]: the user of the session cookie. *)
Definition authenticated_user (headers : HeaderMap) (k : Z -> Task) : Step := fun env s =>
  match user_token headers with
  | None => answer SsoAnswer.Unauthorized s
  | Some token =>
      let '(user, d) := authenticate_user_session (now env) token (people s) in
      match user with
      | Some user => (k (ui_user_id user), with_people (fun _ => d) s)
      | None => answer SsoAnswer.Unauthorized (with_people (fun _ => d) s)
      end
  end.

(** *** Providers *)

Definition save_answer (r : result Z SsoError) : SsoAnswer.t :=
  match r with
  | Ok id => SsoAnswer.Saved id
  | Err UniqueConstraint => SsoAnswer.Conflict "provider slug is already in use"
  | Err _ => SsoAnswer.InternalError
  end.

(** [has_preserved_secret], and [validate_provider]. *)
Definition inspect_secret (actor : string) (provider : AuthProvider.t) (preserve : bool) : Step := fun _ s =>
  let has_preserved_secret :=
    negb (AuthProvider.id provider =? 0) && preserve
    && match auth_provider_by_id cipher (AuthProvider.id provider) s with
       | Ok (Some existing) => bool_decide (is_Some (AuthProvider.client_secret existing))
       | _ => false
       end in
  match validate_provider provider has_preserved_secret with
  | Err e => answer (SsoAnswer.BadRequest e) s
  | Ok _ => (ReadSecret actor provider preserve, s)
  end.

Definition read_secret (actor : string) (provider : AuthProvider.t) (preserve : bool) : Step := fun env s =>
  match secret_to_store cipher (seal_nonce env) provider preserve s with
  | Err e => answer (save_answer (Err e)) s
  | Ok secret => (WriteProvider actor provider secret, s)
  end.

Definition save_provider_row (actor : string) (provider : AuthProvider.t) (secret : option string) : Step := fun env s =>
  let '(r, s) := write_provider (now env) actor provider secret s in answer (save_answer r) s.

Definition count_identities (actor : string) (id : Z) : Step := fun _ s =>
  if auth_provider_identity_count id s =? 0 then (DeleteProvider actor id, s)
  else answer (SsoAnswer.Conflict "unlink all user identities before deleting this provider") s.

Definition delete_provider (actor : string) (id : Z) : Step := fun env s =>
  let '(done, s) := delete_auth_provider (now env) actor id s in
  answer (if done then SsoAnswer.NoContent else SsoAnswer.NotFound) s.

Definition load_tested (id : Z) : Step := fun _ s =>
  match auth_provider_by_id cipher id s with
  | Ok (Some provider) => (TestProvider provider, s)
  | Ok None => answer SsoAnswer.NotFound s
  | Err _ => answer SsoAnswer.InternalError s
  end.

Definition provider_reachable (net : IdentityNet) (provider : AuthProvider.t) : bool :=
  if (AuthProvider.kind provider =? "oidc")%string then
    match AuthProvider.issuer_url provider with
    | Some issuer => url_ok issuer && bool_decide (is_Some (net_discover net issuer))
    | None => false
    end
  else match AuthProvider.authorization_url provider with Some url => net_reaches net url | None => false end.

Definition test_provider (provider : AuthProvider.t) : Step := fun env s =>
  answer (if provider_reachable (net env) provider then SsoAnswer.Reachable else SsoAnswer.BadGateway) s.

Definition list_admin_providers : Step := fun _ s =>
  match list_auth_providers cipher s with
  | Ok providers => answer (SsoAnswer.AdminProviders (provider_view <$> providers) TEMPLATES) s
  | Err _ => answer SsoAnswer.InternalError s
  end.

Definition public_providers : Step := fun _ s =>
  match list_auth_providers cipher s with
  | Ok providers =>
      answer (SsoAnswer.PublicProviders
        ((fun p => {| pp_slug := AuthProvider.slug p; pp_display_name := AuthProvider.display_name p;
                      pp_kind := AuthProvider.kind p |}) <$> List.filter AuthProvider.enabled providers)) s
  | Err _ => answer SsoAnswer.InternalError s
  end.

Definition list_identities (user_id : Z) : Step := fun _ s =>
  answer (SsoAnswer.Identities (list_external_identities user_id s)) s.

(** *** Starting a flow *)

Definition callback_url (config : Config.t) (headers : HeaderMap) (slug : string) : option string :=
  let base := public_base_url config headers in
  if str_is_empty base then None
  else Some (trim_end_matches "/" base +:+ "/api/auth/" +:+ slug +:+ "/callback").

Definition NO_BASE_URL : string := "public_base_url or forwarded Host is required for external authentication".

Definition start_flow (headers : HeaderMap) (slug mode : string) (user_id : option Z) (invitation : option string) : Step :=
  fun env s =>
  match auth_provider_by_slug cipher slug s with
  | Err _ => answer SsoAnswer.InternalError s
  | Ok None => answer SsoAnswer.NotFound s
  | Ok (Some provider) =>
      if negb (AuthProvider.enabled provider) then answer SsoAnswer.NotFound s
      else match callback_url (config env) headers (AuthProvider.slug provider) with
           | None => answer (SsoAnswer.BadRequest (Message NO_BASE_URL)) s
           | Some callback_url =>
               match AuthProvider.client_secret provider with
               | None => answer (SsoAnswer.Unavailable "external authentication credentials are unavailable") s
               | Some secret => (Authorize provider secret callback_url mode user_id invitation, s)
               end
           end
  end.

Definition authorize (provider : AuthProvider.t) (secret callback_url mode : string) (user_id : option Z)
    (invitation : option string) : Step := fun env s =>
  let authorization :=
    if (AuthProvider.kind provider =? "oidc")%string
    then oidc_authorization (net env) (verifier env) (oidc_nonce env) provider secret callback_url (state_token env)
    else oauth_authorization_with_secret (verifier env) provider secret callback_url (state_token env) in
  match authorization with
  | None => answer SsoAnswer.BadGateway s
  | Some (url, verifier, nonce) =>
      match json_to_vec (payload_value {| pkce_verifier := verifier; nonce := nonce; invitation := invitation |}) with
      | None => answer SsoAnswer.InternalError s
      | Some encoded => (StoreFlow (AuthProvider.id provider) encoded mode user_id (state_token env) url callback_url, s)
      end
  end.

Definition store_flow (provider_id : Z) (payload mode : string) (user_id : option Z) (state_token url callback_url : string) :
    Step := fun env s =>
  match store_user_auth_flow cipher (now env) (seal_nonce env) state_token provider_id payload mode user_id
          (now env + FLOW_LIFETIME_SECS) s with
  | (Err _, s) => answer SsoAnswer.InternalError s
  | (Ok _, s) => answer (SsoAnswer.AuthorizeRedirect url state_token (starts_with "https://" callback_url)) s
  end.

(** *** Coming back *)

Definition take_flow (headers : HeaderMap) (slug code returned_state : string) : Step := fun env s =>
  match take_user_auth_flow cipher (now env) returned_state s with
  | (Ok (Some flow), s) => (LoadProvider headers slug code flow, s)
  | (Ok None, s) => answer (callback_error "expired_state") s
  | (Err _, s) => answer (callback_error "internal") s
  end.

Definition load_provider (headers : HeaderMap) (slug code : string) (flow : StoredAuthFlow) : Step := fun env s =>
  match auth_provider_by_id cipher (fl_provider_id flow) s with
  | Ok (Some provider) =>
      if negb (AuthProvider.enabled provider && eq_ignore_ascii_case (AuthProvider.slug provider) slug)
      then answer (callback_error "invalid_provider") s
      else match json_from_slice (fl_payload flow) ≫= payload_of_value with
           | None => answer (callback_error "invalid_state") s
           | Some payload =>
               match callback_url (config env) headers (AuthProvider.slug provider) with
               | None => answer (callback_error "invalid_callback") s
               | Some callback_url =>
                   match AuthProvider.client_secret provider with
                   | None => answer (callback_error "not_configured") s
                   | Some secret => (Exchange provider secret callback_url code payload flow, s)
                   end
               end
           end
  | _ => answer (callback_error "invalid_provider") s
  end.

(** The beginning of [complete_identity]. *)
Definition complete_identity (provider : AuthProvider.t) (mode : string) (flow_user_id : option Z)
    (invitation : option string) (claims : ExternalClaims) : Task :=
  if (mode =? "link")%string then
    match flow_user_id with
    | None => Answered (callback_error "invalid_state")
    | Some user_id => CheckLinked provider user_id claims
    end
  else FindIdentity provider invitation claims.

Definition exchange (provider : AuthProvider.t) (secret callback_url code : string) (payload : FlowPayload)
    (flow : StoredAuthFlow) : Step := fun env s =>
  match external_claims (net env) provider secret callback_url code payload with
  | None => answer (callback_error "provider_error") s
  | Some claims => (complete_identity provider (fl_mode flow) (fl_user_id flow) (invitation payload) claims, s)
  end.

(** *** Linking an identity to the account that asked for it *)

Definition check_linked (provider : AuthProvider.t) (user_id : Z) (claims : ExternalClaims) : Step := fun _ s =>
  match user_account user_id (people s) with
  | Some user => if ua_disabled user then answer (callback_error "account_disabled") s
                 else (BindLinked provider user_id claims, s)
  | None => answer (callback_error "account_disabled") s
  end.

Definition bind_linked (provider : AuthProvider.t) (user_id : Z) (claims : ExternalClaims) : Step := fun env s =>
  match bind_external_identity (now env) (actor_of_user user_id) user_id (AuthProvider.slug provider) (ec_subject claims)
          (ec_email claims) (ec_email_verified claims) s with
  | (Ok true, s) => answer (SsoAnswer.CallbackRedirect "/account?provider=linked" None) s
  | (_, s) => answer (callback_error "identity_in_use") s
  end.

(** *** Signing in *)

Definition find_identity (provider : AuthProvider.t) (invitation : option string) (claims : ExternalClaims) : Step := fun _ s =>
  match user_by_external_identity (AuthProvider.slug provider) (ec_subject claims) s with
  | Some user => (CreateSession provider claims (ua_id user), s)
  | None =>
      if negb (ec_email_verified claims) then answer (callback_error "verified_email_required") s
      else match ec_email claims with
           | Some email => if valid_user_email email then (FindByEmail provider invitation claims email, s)
                           else answer (callback_error "verified_email_required") s
           | None => answer (callback_error "verified_email_required") s
           end
  end.

(** [registration_allowed], up to its look-up of an invitation. *)
Definition registration_allowed (provider : AuthProvider.t) (claims : ExternalClaims) (email : string)
    (invitation : option string) (registration : RegistrationConfig.t) : Task :=
  let mode := RegistrationConfig.mode registration in
  if (mode =? "open")%string then Register provider claims email None
  else if (mode =? "domain_allowlist")%string
          && email_domain_allowed email (RegistrationConfig.allowed_email_domains registration)
  then Register provider claims email None
  else if (mode =? "invite_only")%string then
    match invitation with
    | None => Answered (callback_error "invitation_required")
    | Some token => CheckInvitation provider claims email token
    end
  else Answered (callback_error "registration_disabled").

Definition find_by_email (provider : AuthProvider.t) (invitation : option string) (claims : ExternalClaims) (email : string) :
    Step := fun env s =>
  match user_by_email email (people s) with
  | Some user => (AutoLink provider claims email user, s)
  | None => (registration_allowed provider claims email invitation (Config.registration (config env)), s)
  end.

Definition auto_link (provider : AuthProvider.t) (claims : ExternalClaims) (email : string) (user : UserAccount) : Step :=
  fun env s =>
  match bind_external_identity (now env) "oauth:auto-link" (ua_id user) (AuthProvider.slug provider) (ec_subject claims)
          (Some email) true s with
  | (Ok true, s) => (CreateSession provider claims (ua_id user), s)
  | (_, s) => answer (callback_error "identity_in_use") s
  end.

Definition check_invitation (provider : AuthProvider.t) (claims : ExternalClaims) (email token : string) : Step := fun env s =>
  match valid_invitation (now env) email token (mail s) with
  | Some id => (Register provider claims email (Some id), s)
  | None => answer (callback_error "invalid_invitation") s
  end.

Definition shown_name (claims : ExternalClaims) (email : string) : string :=
  let name := str_trim (ec_display_name claims) in
  if str_is_empty name then match local_part email with Some local => local | None => "user" end else name.

Definition register (provider : AuthProvider.t) (claims : ExternalClaims) (email : string) (invitation_id : option Z) : Step :=
  fun env s =>
  match create_user_with_external_identity (now env) (routing_draws env) {|
          er_actor := method_of provider; er_email := email; er_display_name := shown_name claims email;
          er_routing_min_length := UserAccessConfig.routing_id_min_length (Config.user_access (config env));
          er_provider_slug := AuthProvider.slug provider; er_provider_subject := ec_subject claims;
          er_invitation_id := invitation_id |} s with
  | (Ok (Some user), s) => (CreateSession provider claims (ua_id user), s)
  | (Ok None, s) => answer (callback_error "manual_link_required") s
  | (Err _, s) => answer (callback_error "internal") s
  end.

Definition create_session (provider : AuthProvider.t) (user_id : Z) : Step := fun env s =>
  let '(r, d) := create_user_session (now env) (session_token env) user_id (method_of provider) (people s) in
  match r with
  | Ok (Some session) => (AuditLogin provider user_id session, with_people (fun _ => d) s)
  | _ => answer (callback_error "account_disabled") (with_people (fun _ => d) s)
  end.

Definition audit_login (provider : AuthProvider.t) (user_id : Z) (session : UserSession) : Step := fun env s =>
  answer (SsoAnswer.CallbackRedirect "/account" (Some (us_token session)))
    (with_people (audit_user_login (now env) user_id (method_of provider)) s).

(** *** Unlinking *)

Definition count_own (user_id id : Z) : Step := fun _ s => (CheckMail user_id id (external_identity_count user_id s), s).

Definition email_login_available (s : Sso) : bool :=
  match smtp_settings cipher (mail s) with
  | Ok (Some settings) => SmtpSettings.enabled settings
  | _ => false
  end.

Definition check_mail (user_id id count : Z) : Step := fun _ s =>
  if (count <=? 1) && negb (email_login_available s)
  then answer (SsoAnswer.Conflict "cannot remove the last external identity while email login is unavailable") s
  else (Unlink (actor_of_user user_id) user_id id, s).

Definition unlink (actor : string) (user_id id : Z) : Step := fun env s =>
  let '(done, s) := delete_external_identity (now env) actor user_id id s in
  answer (if done then SsoAnswer.NoContent else SsoAnswer.NotFound) s.

(** ** One step of a request *)
Definition advance (t : Task) : Step := fun env s =>
  match t with
  | InspectSecret actor provider preserve => inspect_secret actor provider preserve env s
  | ReadSecret actor provider preserve => read_secret actor provider preserve env s
  | WriteProvider actor provider secret => save_provider_row actor provider secret env s
  | CountIdentities actor id => count_identities actor id env s
  | DeleteProvider actor id => delete_provider actor id env s
  | LoadTested id => load_tested id env s
  | TestProvider provider => test_provider provider env s
  | ListAdmin => list_admin_providers env s
  | ListPublic => public_providers env s
  | ListOwn headers => authenticated_user headers ListFor env s
  | ListFor user_id => list_identities user_id env s
  | AuthorizeLink headers slug => authenticated_user headers (fun user => flow_start headers slug "link" (Some user) None) env s
  | StartFlow headers slug mode user_id invitation => start_flow headers slug mode user_id invitation env s
  | Authorize provider secret callback mode user_id invitation => authorize provider secret callback mode user_id invitation env s
  | StoreFlow provider_id payload mode user_id token url callback => store_flow provider_id payload mode user_id token url callback env s
  | TakeFlow headers slug code returned_state => take_flow headers slug code returned_state env s
  | LoadProvider headers slug code flow => load_provider headers slug code flow env s
  | Exchange provider secret callback code payload flow => exchange provider secret callback code payload flow env s
  | CheckLinked provider user_id claims => check_linked provider user_id claims env s
  | BindLinked provider user_id claims => bind_linked provider user_id claims env s
  | FindIdentity provider invitation claims => find_identity provider invitation claims env s
  | FindByEmail provider invitation claims email => find_by_email provider invitation claims email env s
  | AutoLink provider claims email user => auto_link provider claims email user env s
  | CheckInvitation provider claims email token => check_invitation provider claims email token env s
  | Register provider claims email invitation_id => register provider claims email invitation_id env s
  | CreateSession provider claims user_id => create_session provider user_id env s
  | AuditLogin provider user_id session => audit_login provider user_id session env s
  | AuthorizeUnlink headers id => authenticated_user headers (fun user => CountOwn user id) env s
  | CountOwn user_id id => count_own user_id id env s
  | CheckMail user_id id count => check_mail user_id id count env s
  | Unlink actor user_id id => unlink actor user_id id env s
  | Answered a => answer a s
  end.

(** ** The server

    Requests in flight, and what else changes the accounts: a request arrives,
    one of those in flight takes a step, or the directory or the settings of
    email change. *)
Inductive SsoOp : Type :=
| Arrive (r : SsoRequest)
| Run (i : nat) (env : Env)
| Elsewhere (op : Op)
| Invite (now : Z) (actor email display_name token : string) (expires_at : Z)
| SmtpSaved (row : SmtpSettings.t).

Record Server : Type := { sso : Sso; tasks : list Task }.

Definition serve (op : SsoOp) (w : Server) : Server :=
  match op with
  | Arrive r => {| sso := sso w; tasks := tasks w ++ [receive r] |}
  | Run i env =>
      match tasks w !! i with
      | None => w
      | Some t => let '(t, s) := advance t env (sso w) in {| sso := s; tasks := <[i := t]> (tasks w) |}
      end
  | Elsewhere op => {| sso := with_people (apply op) (sso w); tasks := tasks w |}
  | Invite now actor email name token expires =>
      {| sso := with_mail (fun m => (create_email_invitation now actor email name token expires m).2) (sso w); tasks := tasks w |}
  | SmtpSaved row => {| sso := with_mail (with_smtp row) (sso w); tasks := tasks w |}
  end.

Definition serve_all (ops : list SsoOp) (w : Server) : Server := foldl (fun w op => serve op w) w ops.
End Handlers.
