(* ===== verification/SsoSpec.v ===== *)
(** * What single sign-on promises

    Requests of [SsoFlow] run interleaved, one database call or network
    exchange at a time, while accounts change elsewhere.  Whatever the
    interleaving: an identity never names a second user and
    never moves; it comes from a link its user asked for while signed in, from
    an address its provider verified, or from a registration; a session comes
    after an identity of its user; a state token is used once, by the browser
    that got it, within its lifetime. *)
From stdpp Require Import gmap.
From S2P Require Import Prelude RustStr Headers Url Json Config Quota Users Secrets Email EmailFlow Requests Sso SsoFlow.
Open Scope string_scope.
Open Scope Z_scope.
Open Scope list_scope.

(** Unfold a step and go through its branches. *)
Ltac step_cases :=
  cbn [SsoFlow.advance];
  unfold inspect_secret, read_secret, save_provider_row, count_identities, delete_provider, load_tested, test_provider,
    list_admin_providers, public_providers, list_identities, authenticated_user, start_flow, authorize, store_flow, take_flow,
    load_provider, exchange, complete_identity, check_linked, bind_linked, find_identity, find_by_email, registration_allowed,
    auto_link, check_invitation, register, create_session, audit_login, count_own, check_mail, unlink, flow_start, answer;
  repeat case_match.

(** ** What the calls to the database do *)

Definition keys (s : Sso) : list (string * string) := identity_key <$> user_identities s.

Section Outcomes.
Context `{SecretApi} `{CipherApi}.
Variable cipher : option string.

Lemma insert_identity_Some (now user : Z) (slug subject : string) (email : option string) (verified : bool) (s s' : Sso) :
  insert_identity now user slug subject email verified s = Some s' ->
  exists r, user_identities s' = user_identities s ++ [r] /\ Identity.id r = next_identity s /\
    next_identity s' = next_identity s + 1 /\ identity_key r ∉ keys s /\ Identity.user_id r = user /\
    identity_key r = (slug, subject) /\ auth_providers s' = auth_providers s /\ next_provider s' = next_provider s /\
    user_auth_flows s' = user_auth_flows s /\ mail s' = mail s.
Proof. unfold insert_identity. case_bool_decide as Hk; [done|]. intros [= <-]. by eexists. Qed.

(** Binding adds the row, or finds it; it touches nothing else but the log. *)
Lemma bind_outcome (now : Z) (actor : string) (user : Z) (slug subject : string) (email : option string) (verified : bool)
    (s s' : Sso) (res : result bool SsoError) :
  bind_external_identity now actor user slug subject email verified s = (res, s') ->
  (s' = s \/ exists r, user_identities s' = user_identities s ++ [r] /\ Identity.id r = next_identity s /\
     next_identity s' = next_identity s + 1 /\ identity_key r ∉ keys s /\ Identity.user_id r = user /\
     identity_key r = (slug, subject)) /\
  auth_providers s' = auth_providers s /\ next_provider s' = next_provider s /\ user_auth_flows s' = user_auth_flows s /\
  users (dir_accounts (people s')) = users (dir_accounts (people s)) /\
  (res = Ok true -> exists r, r ∈ user_identities s' /\ Identity.names slug subject r = true /\ Identity.user_id r = user).
Proof.
  unfold bind_external_identity. destruct (insert_identity _ _ _ _ _ _ _) as [bound|] eqn:Hi.
  - apply insert_identity_Some in Hi as (r & Hr & Hid & Hn & Hk & Hu & Hkey & Hp & Hnp & Hf & Hm). case_bool_decide; intros [= <- <-].
    + split_and!; try done; [right; by exists r|unfold people; cbn; by rewrite Hm|]. intros _. exists r. split_and!; [|..|done].
      * cbn. rewrite Hr. apply elem_of_app. right. by apply list_elem_of_singleton.
      * unfold Identity.names, identity_key in *. injection Hkey as -> ->.
        unfold eq_ignore_ascii_case. by rewrite !String.eqb_refl.
    + split_and!; try done. by left.
  - destruct (find_first _ _) as [owner|] eqn:Ho; intros [= <- <-]; split_and!; try done; try (by left).
    intros [= Hu]. apply find_first_Some in Ho as [Hin Hn]. exists owner. bool_to_prop. done.
Qed.

Lemma create_outcome (now : Z) (draws : list Z) (e : ExternalRegistration) (s s' : Sso) (res : result (option UserAccount) SsoError) :
  create_user_with_external_identity now draws e s = (res, s') ->
  (s' = s /\ (forall user, res <> Ok (Some user))) \/
  exists user r, res = Ok (Some user) /\ ua_id user = next_user_id (people s) /\
    user_identities s' = user_identities s ++ [r] /\ Identity.id r = next_identity s /\
    next_identity s' = next_identity s + 1 /\ identity_key r ∉ keys s /\ Identity.user_id r = ua_id user /\
    identity_key r = (er_provider_slug e, er_provider_subject e) /\ auth_providers s' = auth_providers s /\
    next_provider s' = next_provider s /\ user_auth_flows s' = user_auth_flows s /\
    exists u, users (dir_accounts (people s')) = <[ua_id user := u]> (users (dir_accounts (people s))) /\
      User.email u = normalize_email (er_email e).
Proof.
  unfold create_user_with_external_identity, insert_user. destruct (user_conflict _ _ _); [intros [= <- <-]; by left|].
  destruct (insert_unique_routing_id _ _ _ _ _) as [[routing d]|] eqn:Hd; [|intros [= <- <-]; by left].
  unfold insert_unique_routing_id in Hd. destruct (try_routing_ids _ _ _ _ _) as [[id rows]|]; [|done]. injection Hd as -> <-.
  destruct (insert_identity _ _ _ _ _ _ _) as [s1|] eqn:Hi; [|intros [= <- <-]; by left].
  apply insert_identity_Some in Hi as (r & Hr & Hid & Hn & Hk & Hu & Hkey & Hp & Hnp & Hf & Hm).
  destruct (match er_invitation_id e with Some _ => _ | None => _ end) as [m|] eqn:Ha; [|intros [= <- <-]; by left].
  assert (Hdir : directory m = directory (mail s1)).
  { destruct (er_invitation_id e); [|by injection Ha as <-]. unfold accept_pending in Ha. repeat case_match; by simplify_eq. }
  intros [= <- <-]. right. eexists _, r. split_and!; try done; try (by cbn).
  unfold people, sso_audit, mail_audit, with_mail, with_directory, audit_dir, on_accounts. cbn. rewrite Hdir, Hm. cbn.
  eexists. split_and!; try done.
Qed.

(** The parts of the state that most calls leave alone. *)
Definition same_identities (s s' : Sso) : Prop :=
  user_identities s' = user_identities s /\ next_identity s' = next_identity s.
Definition same_providers (s s' : Sso) : Prop :=
  auth_providers s' = auth_providers s /\ next_provider s' = next_provider s.

Lemma write_provider_outcome (now : Z) (actor : string) (p : AuthProvider.t) (secret : option string) (s s' : Sso) (r : result Z SsoError) :
  write_provider now actor p secret s = (r, s') ->
  user_auth_flows s' = user_auth_flows s /\ users (dir_accounts (people s')) = users (dir_accounts (people s)) /\
  let row := AuthProvider.with_secret secret p in
  s' = s \/
  AuthProvider.id p = 0 /\ same_identities s s' /\ next_provider s' = next_provider s + 1 /\
    auth_providers s' = <[next_provider s := AuthProvider.with_id (next_provider s) row]> (auth_providers s) \/
  exists previous, auth_providers s !! AuthProvider.id p = Some previous /\ next_provider s' = next_provider s /\
    auth_providers s' = <[AuthProvider.id p := row]> (auth_providers s) /\ next_identity s' = next_identity s /\
    (user_identities s' = user_identities s \/
     user_identities s' = rename_identities now (AuthProvider.slug previous) (AuthProvider.slug p) (user_identities s) /\
     NoDup (keys s')).
Proof.
  unfold write_provider. destruct (Z.eqb_spec (AuthProvider.id p) 0) as [Hz|Hz].
  - destruct (slug_taken _ _ _); intros [= <- <-]; split_and!; try done; [by left|right; by left].
  - destruct (auth_providers s !! AuthProvider.id p) as [previous|] eqn:Hp; [|intros [= <- <-]; split_and!; try done; by left].
    destruct (slug_taken _ _ _); [intros [= <- <-]; split_and!; try done; by left|].
    case_bool_decide as Hk; intros [= <- <-]; split_and!; try done; [|by left].
    right; right. exists previous. cbn in *. unfold keys. cbn. split_and!; try done. destruct (_ =? _)%string; [by left|by right].
Qed.

Lemma delete_provider_outcome (now : Z) (actor : string) (id : Z) (s s' : Sso) (b : bool) :
  delete_auth_provider now actor id s = (b, s') ->
  same_identities s s' /\ next_provider s' = next_provider s /\
  users (dir_accounts (people s')) = users (dir_accounts (people s)) /\
  (s' = s \/ auth_providers s' = delete id (auth_providers s) /\
     user_auth_flows s' = filter (fun f => AuthFlow.provider_id f.2 <> id) (user_auth_flows s)).
Proof.
  unfold delete_auth_provider. destruct (auth_providers s !! id); [|intros [= <- <-]; split_and!; try done; by left].
  destruct (provider_identities _ _); intros [= <- <-]; split_and!; try done; [by right|by left].
Qed.

Lemma store_outcome (now : Z) (nonce state : string) (provider : Z) (payload mode : string) (user : option Z) (expires : Z)
    (s s' : Sso) (r : result unit SsoError) :
  store_user_auth_flow cipher now nonce state provider payload mode user expires s = (r, s') ->
  same_identities s s' /\ same_providers s s' /\ mail s' = mail s /\
  let fresh := filter (fun f => stale_flow now f.2 = false) (user_auth_flows s) in
  match r with
  | Err _ => user_auth_flows s' = fresh
  | Ok _ => fresh !! hash_token state = None /\ exists sealed, user_auth_flows s' = <[hash_token state := {|
      AuthFlow.provider_id := provider; AuthFlow.payload := sealed; AuthFlow.mode := mode; AuthFlow.user_id := user;
      AuthFlow.expires_at := expires; AuthFlow.used_at := None; AuthFlow.created_at := now |}]> fresh
  end.
Proof.
  unfold store_user_auth_flow. destruct (seal _ _ _ _) as [sealed|]; [|by intros [= <- <-]].
  case_bool_decide as Hn; [by intros [= <- <-]|]. case_match; intros [= <- <-]; split_and!; try done; [|by exists sealed].
  by apply eq_None_not_Some.
Qed.

Lemma take_outcome (now : Z) (state : string) (s s' : Sso) (r : result (option StoredAuthFlow) SsoError) :
  take_user_auth_flow cipher now state s = (r, s') ->
  same_identities s s' /\ same_providers s s' /\ mail s' = mail s /\
  match open_flow now state s with
  | None => s' = s /\ r = Ok None
  | Some f => user_auth_flows s' = <[hash_token state := AuthFlow.use now f]> (user_auth_flows s) /\
      match r with
      | Ok (Some flow) => fl_mode flow = AuthFlow.mode f /\ fl_user_id flow = AuthFlow.user_id f /\
          fl_provider_id flow = AuthFlow.provider_id f
      | Ok None => False
      | Err _ => True
      end
  end.
Proof.
  unfold take_user_auth_flow. destruct (open_flow now state s); [|by intros [= <- <-]]. by destruct (open _ _ _); intros [= <- <-].
Qed.

Lemma unlink_outcome (now : Z) (actor : string) (user id : Z) (s s' : Sso) (b : bool) :
  delete_external_identity now actor user id s = (b, s') ->
  same_providers s s' /\ user_auth_flows s' = user_auth_flows s /\ next_identity s' = next_identity s /\
  users (dir_accounts (people s')) = users (dir_accounts (people s)) /\
  (s' = s \/ user_identities s' =
     filter (fun r => (Identity.id r =? id) && (Identity.user_id r =? user) = false) (user_identities s)).
Proof.
  unfold delete_external_identity. destruct (existsb _ _); intros [= <- <-]; split_and!; try done; [by right|by left].
Qed.

End Outcomes.

(** Name the result of the one call a step makes, and use what is known of it. *)
Ltac call_outcome :=
  match goal with
  | |- context [write_provider ?a ?b ?c ?d ?e] =>
      destruct (write_provider a b c d e) as [? ?] eqn:Hcall; apply write_provider_outcome in Hcall
  | |- context [delete_auth_provider ?a ?b ?c ?d] =>
      destruct (delete_auth_provider a b c d) as [? ?] eqn:Hcall; apply delete_provider_outcome in Hcall
  | |- context [store_user_auth_flow ?z ?a ?b ?c ?d ?e ?f ?g ?h ?i] =>
      destruct (store_user_auth_flow z a b c d e f g h i) as [? ?] eqn:Hcall
  | |- context [take_user_auth_flow ?z ?a ?b ?c] =>
      destruct (take_user_auth_flow z a b c) as [? ?] eqn:Hcall; apply take_outcome in Hcall
  | |- context [bind_external_identity ?a ?b ?c ?d ?e ?f ?g ?h] =>
      destruct (bind_external_identity a b c d e f g h) as [? ?] eqn:Hcall; apply bind_outcome in Hcall
  | |- context [create_user_with_external_identity ?a ?b ?c ?d] =>
      destruct (create_user_with_external_identity a b c d) as [? ?] eqn:Hcall; apply create_outcome in Hcall
  | |- context [delete_external_identity ?a ?b ?c ?d ?e] =>
      destruct (delete_external_identity a b c d e) as [? ?] eqn:Hcall; apply unlink_outcome in Hcall
  end.

Section Theorems.
Context `{SecretApi} `{CipherApi} `{HeaderApi} `{UrlApi} `{JsonApi} `{IdentityApi}.
Variable cipher : option string.

Notation advance := (advance cipher).
Notation serve := (serve cipher).
Notation serve_all := (serve_all cipher).

(** ** What happens to identities *)

(** The requests that add a row, and the row they add. *)
Definition cause (t : Task) (s : Sso) (r : Identity.t) : Prop :=
  match t with
  | BindLinked p u c => Identity.user_id r = u /\ identity_key r = (AuthProvider.slug p, ec_subject c)
  | AutoLink p c _ user => Identity.user_id r = ua_id user /\ identity_key r = (AuthProvider.slug p, ec_subject c)
  | Register p c _ _ => Identity.user_id r = next_user_id (people s) /\ identity_key r = (AuthProvider.slug p, ec_subject c)
  | _ => False
  end.

Inductive identity_change (t : Task) (s s' : Sso) : Prop :=
| identity_same : user_identities s' = user_identities s -> next_identity s' = next_identity s -> identity_change t s s'
| identity_added r : user_identities s' = user_identities s ++ [r] -> Identity.id r = next_identity s ->
    next_identity s' = next_identity s + 1 -> identity_key r ∉ keys s -> cause t s r -> identity_change t s s'
| identity_renamed now actor p secret previous : t = WriteProvider actor p secret ->
    auth_providers s !! AuthProvider.id p = Some previous ->
    user_identities s' = rename_identities now (AuthProvider.slug previous) (AuthProvider.slug p) (user_identities s) ->
    NoDup (keys s') -> next_identity s' = next_identity s -> identity_change t s s'
| identity_removed actor u id : t = Unlink actor u id ->
    user_identities s' = filter (fun r => (Identity.id r =? id) && (Identity.user_id r =? u) = false) (user_identities s) ->
    next_identity s' = next_identity s -> identity_change t s s'.

Lemma advance_identities (t : Task) (env : Env) (s : Sso) : identity_change t s (advance t env s).2.
Proof.
  destruct t; try (by apply identity_same; step_cases; simplify_eq).
  all: cbn [SsoFlow.advance]; unfold save_provider_row, delete_provider, store_flow, take_flow, bind_linked, auto_link, register,
    unlink, answer; call_outcome;
    lazymatch goal with |- identity_change _ _ ?x => replace x with s0 by (repeat case_match; done) end.
  - destruct Hcall as (_ & _ & [-> | [(_ & [Hi Hn] & _)|(previous & Hp & _ & _ & Hn & [Hi|[Hi Hk]])]]);
      [by apply identity_same..|by eapply identity_renamed].
  - destruct Hcall as ([Hi Hn] & _). by apply identity_same.
  - apply store_outcome in Hcall as ([Hi Hn] & _). by apply identity_same.
  - destruct Hcall as ([Hi Hn] & _). by apply identity_same.
  - destruct Hcall as ([-> | (x & Hi & Hid & Hn & Hk & Hu & Hkey)] & _); [by apply identity_same|by eapply identity_added].
  - destruct Hcall as ([-> | (x & Hi & Hid & Hn & Hk & Hu & Hkey)] & _); [by apply identity_same|by eapply identity_added].
  - destruct Hcall as [[-> _]|(u & x & _ & Hu0 & Hi & Hid & Hn & Hk & Hu & Hkey & _)]; [by apply identity_same|].
    eapply identity_added; try done. split; [congruence|done].
  - destruct Hcall as (_ & _ & Hn & _ & [-> | Hi]); [by apply identity_same|by eapply identity_removed].
Qed.

(** ** Slugs are in lower case

    The unique key of identities compares bytes, the look-ups do not: they
    agree because every slug the server handles is in lower case. *)

Definition lower (slug : string) : Prop := to_ascii_lowercase slug = slug.

Definition task_provider (t : Task) : option AuthProvider.t :=
  match t with
  | InspectSecret _ p _ | ReadSecret _ p _ | WriteProvider _ p _ | TestProvider p | Authorize p _ _ _ _ _ | Exchange p _ _ _ _ _
  | CheckLinked p _ _ | BindLinked p _ _ | FindIdentity p _ _ | FindByEmail p _ _ _ | AutoLink p _ _ _
  | CheckInvitation p _ _ _ | Register p _ _ _ | CreateSession p _ _ | AuditLogin p _ _ => Some p
  | _ => None
  end.

Lemma optional_row_Some (row : option AuthProvider.t) (p : AuthProvider.t) :
  optional_row cipher row = Ok (Some p) -> exists r secret, row = Some r /\ p = AuthProvider.with_secret secret r.
Proof.
  destruct row as [r|]; [|done]. cbn. unfold auth_provider_from_row. destruct (secret_result _) as [secret|]; [|done].
  intros [= <-]. by exists r, secret.
Qed.

Lemma by_slug_Some (slug : string) (s : Sso) (p : AuthProvider.t) :
  auth_provider_by_slug cipher slug s = Ok (Some p) ->
  exists id r secret, auth_providers s !! id = Some r /\ p = AuthProvider.with_secret secret r.
Proof.
  intros (r & secret & Hr & ->)%optional_row_Some. apply fmap_Some in Hr as ([id r'] & Hf & ->).
  apply find_first_Some in Hf as [Hin _]. apply elem_of_map_to_list in Hin. by eexists _, _, _.
Qed.

Lemma by_id_Some (id : Z) (s : Sso) (p : AuthProvider.t) :
  auth_provider_by_id cipher id s = Ok (Some p) ->
  exists r secret, auth_providers s !! id = Some r /\ p = AuthProvider.with_secret secret r.
Proof. intros (r & secret & Hr & ->)%optional_row_Some. by eexists _, _. Qed.

(** A request keeps its provider, or has just read it from the table. *)
Lemma advance_provider (t : Task) (env : Env) (s : Sso) (p : AuthProvider.t) :
  task_provider (advance t env s).1 = Some p ->
  task_provider t = Some p \/ exists id r secret, auth_providers s !! id = Some r /\ p = AuthProvider.with_secret secret r.
Proof.
  destruct t; step_cases; cbn; intros Hp; simplify_eq; try (by left).
  all: right; first [by eapply by_slug_Some|by eexists; eapply by_id_Some].
Qed.

(** What a step does to the other tables. *)
Inductive provider_change (t : Task) (s s' : Sso) : Prop :=
| providers_same : same_providers s s' -> provider_change t s s'
| provider_added actor p secret : t = WriteProvider actor p secret -> AuthProvider.id p = 0 ->
    next_provider s' = next_provider s + 1 ->
    auth_providers s' = <[next_provider s := AuthProvider.with_id (next_provider s) (AuthProvider.with_secret secret p)]>
                          (auth_providers s) -> provider_change t s s'
| provider_updated actor p secret : t = WriteProvider actor p secret -> is_Some (auth_providers s !! AuthProvider.id p) ->
    next_provider s' = next_provider s ->
    auth_providers s' = <[AuthProvider.id p := AuthProvider.with_secret secret p]> (auth_providers s) -> provider_change t s s'
| provider_deleted id : next_provider s' = next_provider s -> auth_providers s' = delete id (auth_providers s) ->
    provider_change t s s'.

Lemma advance_providers (t : Task) (env : Env) (s : Sso) : provider_change t s (advance t env s).2.
Proof.
  destruct t; try (by apply providers_same; step_cases; simplify_eq).
  all: cbn [SsoFlow.advance]; unfold save_provider_row, delete_provider, store_flow, take_flow, bind_linked, auto_link, register,
    unlink, answer; call_outcome;
    lazymatch goal with |- provider_change _ _ ?x => replace x with s0 by (repeat case_match; done) end.
  - destruct Hcall as (_ & _ & [-> | [(Hz & _ & Hn & Hp)|(previous & Hpre & Hn & Hp & _)]]);
      [by apply providers_same|by eapply provider_added|by eapply provider_updated].
  - destruct Hcall as (_ & Hn & _ & [-> | [Hp _]]); [by apply providers_same|by eapply provider_deleted].
  - apply store_outcome in Hcall as (_ & Hp & _). by apply providers_same.
  - destruct Hcall as (_ & Hp & _). by apply providers_same.
  - destruct Hcall as (_ & Hp & Hn & _). by apply providers_same.
  - destruct Hcall as (_ & Hp & Hn & _). by apply providers_same.
  - destruct Hcall as [[-> _]|(u & x & _ & _ & _ & _ & _ & _ & _ & _ & Hp & Hn & _)]; by apply providers_same.
  - destruct Hcall as (Hp & _). by apply providers_same.
Qed.

(** What is left of the flows when the stale ones are gone. *)
Definition fresh_flows (now : Z) (s : Sso) : gmap string AuthFlow.t :=
  filter (fun f => stale_flow now f.2 = false) (user_auth_flows s).

(** Flows are dropped, stored for a state that has none, or used. *)
Inductive flow_change (t : Task) (env : Env) (s s' : Sso) : Prop :=
| flows_fewer : user_auth_flows s' ⊆ user_auth_flows s ->
    (forall headers slug code state, t = TakeFlow headers slug code state -> open_flow (now env) state s = None) ->
    flow_change t env s s'
| flow_stored provider payload mode user state url callback f : t = StoreFlow provider payload mode user state url callback ->
    is_ok (store_user_auth_flow cipher (now env) (seal_nonce env) state provider payload mode user (now env + FLOW_LIFETIME_SECS) s).1 = true ->
    fresh_flows (now env) s !! hash_token state = None ->
    user_auth_flows s' = <[hash_token state := f]> (fresh_flows (now env) s) ->
    AuthFlow.mode f = mode -> AuthFlow.user_id f = user -> AuthFlow.provider_id f = provider -> AuthFlow.used_at f = None ->
    AuthFlow.expires_at f = now env + FLOW_LIFETIME_SECS -> flow_change t env s s'
| flow_taken headers slug code state f : t = TakeFlow headers slug code state -> open_flow (now env) state s = Some f ->
    user_auth_flows s' = <[hash_token state := AuthFlow.use (now env) f]> (user_auth_flows s) -> flow_change t env s s'.

Lemma advance_flows (t : Task) (env : Env) (s : Sso) : flow_change t env s (advance t env s).2.
Proof.
  destruct t; try (by apply flows_fewer; step_cases; simplify_eq).
  all: cbn [SsoFlow.advance]; unfold save_provider_row, delete_provider, store_flow, take_flow, bind_linked, auto_link, register,
    unlink, answer; call_outcome;
    lazymatch goal with |- flow_change _ _ _ ?x => replace x with s0 by (repeat case_match; done) end.
  - destruct Hcall as (Hf & _). apply flows_fewer; [by rewrite Hf|done].
  - destruct Hcall as (_ & _ & _ & [-> | [_ Hf]]); apply flows_fewer; try done. rewrite Hf. apply map_filter_subseteq.
  - pose proof Hcall as Hf. apply store_outcome in Hf as (_ & _ & _ & Hf). destruct r as [[]|].
    + destruct Hf as (Hnone & sealed & Hf). eapply flow_stored; try done. by rewrite Hcall.
    + apply flows_fewer; [|done]. rewrite Hf. apply map_filter_subseteq.
  - destruct Hcall as (_ & _ & _ & Hf). destruct (open_flow _ _ _) as [f|] eqn:Ho.
    + destruct Hf as [Hf _]. by eapply flow_taken.
    + destruct Hf as [-> _]. apply flows_fewer; [done|]. by intros ? ? ? ? [= <- <- <- <-].
  - destruct Hcall as (_ & _ & _ & Hf & _). apply flows_fewer; [by rewrite Hf|done].
  - destruct Hcall as (_ & _ & _ & Hf & _). apply flows_fewer; [by rewrite Hf|done].
  - destruct Hcall as [[-> _]|(u & x & _ & _ & _ & _ & _ & _ & _ & _ & _ & _ & Hf & _)]; apply flows_fewer; try done; by rewrite Hf.
  - destruct Hcall as (_ & Hf & _). apply flows_fewer; [by rewrite Hf|done].
Qed.

Lemma receive_provider (r : SsoRequest) (p : AuthProvider.t) :
  task_provider (receive r) = Some p -> lower (AuthProvider.slug p).
Proof.
  destruct r; cbn [receive]; unfold with_admin, flow_start, callback_start; repeat case_match; try done.
  intros [= <-]. apply lower_idem.
Qed.

(** ** An identity is its user's for good *)

Record kept (w : Server) : Prop := {
  kept_ids : Forall (fun r => Identity.id r < next_identity (sso w)) (user_identities (sso w));
  kept_unique : NoDup (Identity.id <$> user_identities (sso w));
  kept_keys : NoDup (keys (sso w));
  kept_slugs : Forall (fun r => lower (Identity.provider r)) (user_identities (sso w));
  kept_providers : map_Forall (fun _ p => lower (AuthProvider.slug p)) (auth_providers (sso w));
  kept_tasks : Forall (fun t => forall p, task_provider t = Some p -> lower (AuthProvider.slug p)) (tasks w);
}.

(** The rows of a later state that are not new were there, under the same
    user and subject. *)
Definition still (s s' : Sso) : Prop :=
  next_identity s <= next_identity s' /\
  forall r', r' ∈ user_identities s' -> next_identity s <= Identity.id r' \/
    exists r, r ∈ user_identities s /\ Identity.id r = Identity.id r' /\ Identity.user_id r = Identity.user_id r' /\
      Identity.subject r = Identity.subject r'.

#[local] Instance still_preorder : PreOrder still.
Proof.
  split.
  - intros s. split; [lia|]. intros r Hr. right. by exists r.
  - intros a b c [Hab Fab] [Hbc Fbc]. split; [lia|]. intros r Hr.
    destruct (Fbc r Hr) as [Hn|(r1 & Hr1 & Hi & Hu & Hs)]; [left; lia|].
    destruct (Fab r1 Hr1) as [Hn|(r0 & Hr0 & Hi0 & Hu0 & Hs0)]; [left; lia|]. right. exists r0. split_and!; [done|congruence..].
Qed.

Lemma renamed_in (now : Z) (previous slug : string) (rows : list Identity.t) (r' : Identity.t) :
  r' ∈ rename_identities now previous slug rows ->
  exists r, r ∈ rows /\ Identity.id r' = Identity.id r /\ Identity.user_id r' = Identity.user_id r /\
    Identity.subject r' = Identity.subject r /\ (Identity.provider r' = Identity.provider r \/
      eq_ignore_ascii_case (Identity.provider r) previous = true /\ Identity.provider r' = slug).
Proof.
  intros (r & -> & Hr)%list_elem_of_fmap. exists r. destruct (eq_ignore_ascii_case _ _) eqn:He; cbn; split_and!; try done; [by right|by left].
Qed.

Lemma rename_ids (now : Z) (previous slug : string) (rows : list Identity.t) :
  Identity.id <$> rename_identities now previous slug rows = Identity.id <$> rows.
Proof.
  unfold rename_identities. rewrite <-list_fmap_compose. apply list_fmap_ext. intros ? r _. cbn. by destruct (eq_ignore_ascii_case _ _).
Qed.

Lemma identity_change_still (t : Task) (s s' : Sso) : identity_change t s s' -> still s s'.
Proof.
  intros [Hi Hn|x Hi Hid Hn _ _|now actor p secret previous _ _ Hi _ Hn|actor u id _ Hi Hn]; (split; [lia|]); intros r Hr; rewrite Hi in Hr.
  - right. by exists r.
  - apply elem_of_app in Hr as [Hr| ->%list_elem_of_singleton]; [right; by exists r|left; lia].
  - apply renamed_in in Hr as (r0 & Hr0 & ? & ? & ? & _). right. by exists r0.
  - apply list_elem_of_filter in Hr as [_ Hr]. right. by exists r.
Qed.

Lemma cause_provider (t : Task) (s : Sso) (r : Identity.t) :
  cause t s r -> exists p, task_provider t = Some p /\ Identity.provider r = AuthProvider.slug p.
Proof. destruct t; cbn; try done; intros [_ [= Hp _]]; by eexists. Qed.

Lemma kept_step (t : Task) (s s' : Sso) (ts ts' : list Task) :
  identity_change t s s' -> provider_change t s s' -> t ∈ ts ->
  Forall (fun u => forall p, task_provider u = Some p -> lower (AuthProvider.slug p)) ts' ->
  kept {| sso := s; tasks := ts |} -> kept {| sso := s'; tasks := ts' |}.
Proof.
  intros Hi Hp Hin Hts []. cbn [sso tasks] in *. rewrite Forall_forall in kept_tasks0. specialize (kept_tasks0 t Hin).
  assert (Hprov : map_Forall (fun _ p => lower (AuthProvider.slug p)) (auth_providers s')).
  { destruct Hp as [[-> _]|actor p secret -> _ _ ->|actor p secret -> _ _ ->|id _ ->]; [done|..|by apply map_Forall_delete];
      (apply map_Forall_insert_2; [|done]); cbn; by apply kept_tasks0. }
  assert (Hsub : forall f : Identity.t -> Prop, forall rows, Forall f (user_identities s) -> rows ⊆ user_identities s -> Forall f rows).
  { intros f rows Hf Hs. rewrite Forall_forall in *. intros r Hr. by apply Hf, Hs. }
  destruct Hi as [Hi Hn|x Hi Hid Hn Hk Hc|now actor p secret previous -> _ Hi Hk Hn|actor u id -> Hi Hn].
  - split; cbn; unfold keys; rewrite ?Hi, ?Hn; done.
  - apply cause_provider in Hc as (p & Hp' & Hs). split; cbn; unfold keys in *; rewrite ?Hi, ?Hn; try done.
    + apply Forall_app. split; [|apply Forall_singleton; rewrite Hid; lia]. rewrite Forall_forall in *. intros r Hr. specialize (kept_ids0 r Hr). cbn beta in *. lia.
    + rewrite fmap_app. apply NoDup_app. split_and!; [done| |apply NoDup_singleton].
      intros i (r & -> & Hr)%list_elem_of_fmap Hx%list_elem_of_singleton. rewrite Forall_forall in kept_ids0. specialize (kept_ids0 r Hr). lia.
    + rewrite fmap_app. apply NoDup_app. split_and!; [done| |apply NoDup_singleton]. by intros i Hr ->%list_elem_of_singleton.
    + apply Forall_app. split; [done|]. apply Forall_singleton. rewrite Hs. by apply kept_tasks0.
  - split; cbn; rewrite ?Hi, ?Hn; try done.
    + rewrite Forall_forall in *. intros r (r0 & Hr0 & -> & _)%renamed_in. by apply kept_ids0.
    + by rewrite rename_ids.
    + rewrite Forall_forall in *. intros r (r0 & Hr0 & _ & _ & _ & [-> |[_ ->]])%renamed_in; [by apply kept_slugs0|]. by apply kept_tasks0.
  - assert (Hsl : sublist (user_identities s') (user_identities s)) by (rewrite Hi; apply sublist_filter).
    assert (Hss : user_identities s' ⊆ user_identities s) by (intros r Hr; by eapply elem_of_sublist).
    split; cbn; unfold keys in *; rewrite ?Hn; try done.
    + by eapply Hsub.
    + by eapply sublist_NoDup, fmap_sublist.
    + by eapply sublist_NoDup, fmap_sublist.
    + by eapply Hsub.
Qed.

Lemma kept_serve (op : SsoOp) (w : Server) : kept w -> kept (serve op w).
Proof.
  intros Hw. destruct op; cbn [SsoFlow.serve]; [| |destruct Hw; by split..].
  - destruct Hw. split; cbn; try done. apply Forall_app. split; [done|]. apply Forall_singleton. apply receive_provider.
  - destruct (tasks w !! i) as [t|] eqn:Ht; [|done].
    pose proof (advance_identities t env (sso w)) as Hi. pose proof (advance_providers t env (sso w)) as Hp.
    pose proof (advance_provider t env (sso w)) as Ht'. destruct (advance t env (sso w)) as [t' s']. cbn [fst snd] in *.
    destruct w as [s ts]. cbn [sso tasks] in *. eapply kept_step; [done..|by eapply list_elem_of_lookup_2| |done].
    destruct Hw. cbn [sso tasks] in *. apply Forall_insert; [done|]. intros p [Hp'|(id & row & secret & Hr & ->)]%Ht'.
    + rewrite Forall_forall in kept_tasks0. by eapply kept_tasks0; [eapply list_elem_of_lookup_2|].
    + by apply (kept_providers0 _ _ Hr).
Qed.

Lemma still_serve (op : SsoOp) (w : Server) : still (sso w) (sso (serve op w)).
Proof.
  destruct op; cbn [SsoFlow.serve]; [by apply still_preorder| |split; [cbn; lia|]; intros r Hr; right; by exists r..].
  destruct (tasks w !! i) as [t|]; [|by apply still_preorder]. pose proof (advance_identities t env (sso w)) as Hi.
  destruct (advance t env (sso w)) as [t' s']. by eapply identity_change_still.
Qed.

Lemma kept_run (ops : list SsoOp) : forall w, kept w -> kept (serve_all ops w).
Proof. induction ops as [|op ops IH]; intros w Hw; [done|]. by apply IH, kept_serve. Qed.

Lemma still_run (ops : list SsoOp) : forall w, still (sso w) (sso (serve_all ops w)).
Proof.
  induction ops as [|op ops IH]; intros w; [by apply still_preorder|]. etrans; [apply (still_serve op)|apply IH].
Qed.

(** A server with empty tables. *)
Definition start (m : Mail) : Server := {|
  sso := {| auth_providers := ∅; next_provider := 1; user_identities := []; next_identity := 1; user_auth_flows := ∅; mail := m |};
  tasks := [];
|}.

Lemma kept_start (m : Mail) : kept (start m).
Proof. split; cbn; try constructor. apply map_Forall_empty. Qed.

(** C26: Whatever the interleaving of requests, a provider and a subject, in any
    case of the slug, name at most one identity; an identity keeps its user
    and its subject for as long as it exists, also when its provider gets
    another slug, and an identity that was removed never comes back. *)
Theorem identities_never_move (m : Mail) (ops later : list SsoOp) :
  let s := sso (serve_all ops (start m)) in
  let s' := sso (serve_all later (serve_all ops (start m))) in
  (forall a b, a ∈ user_identities s -> b ∈ user_identities s ->
     Identity.names (Identity.provider b) (Identity.subject b) a = true -> a = b) /\
  (forall a b, a ∈ user_identities s -> b ∈ user_identities s' -> Identity.id a = Identity.id b ->
     Identity.user_id a = Identity.user_id b /\ Identity.subject a = Identity.subject b) /\
  (forall b, b ∈ user_identities s' -> Identity.id b < next_identity s ->
     exists a, a ∈ user_identities s /\ Identity.id a = Identity.id b).
Proof.
  intros s s'. pose proof (kept_run ops _ (kept_start m)) as Hk. destruct (still_run later (serve_all ops (start m))) as [_ Hs].
  fold s in Hs, Hk. fold s' in Hs. destruct Hk as [Hids Hu Hk Hl _ _]. fold s in Hids, Hu, Hk, Hl. rewrite Forall_forall in Hids, Hl.
  split_and!.
  - intros a b Ha Hb Hn. apply (NoDup_fmap_inj identity_key _ _ _ Hk Ha Hb). unfold identity_key, Identity.names in *.
    bool_to_prop. unfold eq_ignore_ascii_case in *. bool_to_prop. f_equal; [|done].
    specialize (Hl a Ha) as Hla. specialize (Hl b Hb) as Hlb. unfold lower in *. congruence.
  - intros a b Ha Hb He. destruct (Hs b Hb) as [Hn|(r & Hr & Hi & Hur & Hsr)]; [specialize (Hids a Ha); cbn beta in *; lia|].
    assert (a = r) as -> by (apply (NoDup_fmap_inj Identity.id _ _ _ Hu Ha Hr); congruence). done.
  - intros b Hb Hn. destruct (Hs b Hb) as [Hn'|(r & Hr & Hi & _)]; [lia|]. by exists r.
Qed.

(** ** Endpoints are HTTPS *)

Definition valid_provider (p : AuthProvider.t) : Prop := validate_provider p true = Ok tt.

(** A secret changes nothing else of what is accepted. *)
Lemma valid_with_secret (p : AuthProvider.t) (secret : option string) :
  valid_provider p -> valid_provider (AuthProvider.with_secret secret p).
Proof. unfold valid_provider, validate_provider. cbn. by rewrite !andb_false_r. Qed.

Lemma validate_preserved (p : AuthProvider.t) (has : bool) (u : unit) : validate_provider p has = Ok u -> valid_provider p.
Proof.
  unfold valid_provider, validate_provider. rewrite andb_false_r. destruct u. repeat (case_match; try done).
Qed.

(** A provider that a request has not checked yet is not used. *)
Definition checked_provider (t : Task) : option AuthProvider.t :=
  match t with InspectSecret _ _ _ => None | _ => task_provider t end.

Lemma advance_checked (t : Task) (env : Env) (s : Sso) (p : AuthProvider.t) :
  map_Forall (fun _ p => valid_provider p) (auth_providers s) ->
  (forall q, checked_provider t = Some q -> valid_provider q) ->
  checked_provider (advance t env s).1 = Some p -> valid_provider p.
Proof.
  intros Hs Ht. destruct t; step_cases; cbn; intros Hp; simplify_eq; try (by apply Ht).
  all: try (by eapply validate_preserved).
  all: lazymatch goal with
       | Hb : auth_provider_by_id _ _ _ = Ok (Some _) |- _ => apply by_id_Some in Hb as (row & secret & Hr & ->)
       | Hb : auth_provider_by_slug _ _ _ = Ok (Some _) |- _ => apply by_slug_Some in Hb as (key & row & secret & Hr & ->)
       end; apply valid_with_secret; exact (Hs _ _ Hr).
Qed.

Record all_valid (w : Server) : Prop := {
  rows_valid : map_Forall (fun _ p => valid_provider p) (auth_providers (sso w));
  tasks_valid : Forall (fun t => forall p, checked_provider t = Some p -> valid_provider p) (tasks w);
}.

Lemma all_valid_serve (op : SsoOp) (w : Server) : all_valid w -> all_valid (serve op w).
Proof.
  intros [Hr Ht]. destruct op; cbn [SsoFlow.serve]; [| |by split..].
  - split; cbn; [done|]. apply Forall_app. split; [done|]. apply Forall_singleton.
    destruct r; cbn [receive]; unfold with_admin, flow_start, callback_start; repeat case_match; done.
  - destruct (tasks w !! i) as [t|] eqn:Hi; [|done].
    assert (Hc : forall p, checked_provider t = Some p -> valid_provider p)
      by (rewrite Forall_forall in Ht; by eapply Ht, list_elem_of_lookup_2).
    pose proof (advance_checked t env (sso w)) as Ht'. pose proof (advance_providers t env (sso w)) as Hp.
    destruct (advance t env (sso w)) as [t' s']. cbn [fst snd] in *. split; cbn [sso tasks].
    + destruct Hp as [[-> _]|actor p secret -> _ _ ->|actor p secret -> _ _ ->|id _ ->]; [done|..|by apply map_Forall_delete];
        (apply map_Forall_insert_2; [|done]); by apply (valid_with_secret p), Hc.
    + apply Forall_insert; [done|]. intros p. by apply Ht'.
Qed.

(** The addresses a provider is talked to at. *)
Definition endpoints (p : AuthProvider.t) : list (option string) :=
  if (AuthProvider.kind p =? "oidc")%string then [AuthProvider.issuer_url p]
  else [AuthProvider.authorization_url p; AuthProvider.token_url p; AuthProvider.userinfo_url p] ++
       match AuthProvider.emails_url p with Some url => [Some url] | None => [] end.

Lemma valid_endpoints (p : AuthProvider.t) :
  valid_provider p -> Forall (fun url => exists value, url = Some value /\ validate_https value = Ok tt) (endpoints p).
Proof.
  unfold valid_provider, validate_provider, endpoints, required_https, result_of_option. rewrite andb_false_r.
  assert (Hx : forall (o : option string) (e : ProviderError) (A : Type) (k : unit -> result A ProviderError) (a : A),
    result_bind (result_bind match o with Some v => Ok v | None => Err e end validate_https) k = Ok a ->
    (exists value, o = Some value /\ validate_https value = Ok tt) /\ exists u, k u = Ok a).
  { intros [v|] e A k a; cbn; [|done]. destruct (validate_https v) as [[]|] eqn:Hv; [|done]. intros Hk. split; [by exists v|by exists tt]. }
  do 3 (case_match; [done|]). case_match.
  - intros [Hi _]%Hx. by repeat constructor.
  - intros [Ha [_ [Ht [_ [Hu [_ He]]%Hx]]%Hx]]%Hx. apply Forall_app. split; [by repeat constructor|].
    destruct (AuthProvider.emails_url p) as [url|]; [|constructor]. cbn in He. destruct (validate_https url) as [[]|] eqn:Hv; [|done].
    apply Forall_singleton. by exists url.
Qed.

(** Whatever runs in between, the provider a code, a client secret or a
    token is sent to was accepted: all its endpoints are HTTPS addresses
    without credentials. *)
Theorem providers_stay_https (m : Mail) (ops : list SsoOp) :
  Forall (fun t => match t with
                   | Exchange p _ _ _ _ _ | Authorize p _ _ _ _ _ =>
                       Forall (fun url => exists value, url = Some value /\ validate_https value = Ok tt) (endpoints p)
                   | _ => True
                   end) (tasks (serve_all ops (start m))).
Proof.
  assert (Hv : forall w, all_valid w -> all_valid (serve_all ops w)).
  { induction ops as [|op ops IH]; intros w Hw; [done|]. by apply IH, all_valid_serve. }
  destruct (Hv (start m)) as [_ Ht]; [split; [apply map_Forall_empty|constructor]|]. eapply Forall_impl; [exact Ht|].
  intros t Hc. destruct t; try done; by apply valid_endpoints, Hc.
Qed.
End Theorems.
