(* ===== verification/SsoSafety.v ===== *)
(** * What an identity, a session and a state token of single sign-on rest on

    The theorems speak of the history of a server: the steps its requests took,
    each with what it found.  Every row, session and answer is traced back to
    the steps that justify it, whatever ran in between. *)
From stdpp Require Import gmap.
From S2P Require Import Prelude RustStr Headers Url Json Config Quota Users Secrets Email EmailFlow Requests Sso SsoFlow SsoSpec.
Open Scope string_scope.
Open Scope Z_scope.
Open Scope list_scope.

(** A step: the environment and the state it found, and the request. *)
Record Moment `{HeaderApi} `{IdentityApi} : Type := { at_env : Env; at_task : Task; at_state : Sso }.

Section Safety.
Context `{SecretApi} `{CipherApi} `{HeaderApi} `{UrlApi} `{JsonApi} `{IdentityApi}.
Variable cipher : option string.

Notation advance := (advance cipher).
Notation serve := (serve cipher).
Notation serve_all := (serve_all cipher).

Definition moment (op : SsoOp) (w : Server) : list Moment :=
  match op with
  | Run i env => match tasks w !! i with
                 | Some t => [{| at_env := env; at_task := t; at_state := sso w |}]
                 | None => []
                 end
  | _ => []
  end.

Fixpoint history (ops : list SsoOp) (w : Server) : list Moment :=
  match ops with
  | [] => []
  | op :: rest => moment op w ++ history rest (serve op w)
  end.

Lemma history_snoc (ops : list SsoOp) (op : SsoOp) : forall w,
  history (ops ++ [op]) w = history ops w ++ moment op (serve_all ops w).
Proof.
  induction ops as [|o ops IH]; intros w; cbn; [by rewrite app_nil_r|]. rewrite IH. by rewrite app_assoc.
Qed.

Lemma serve_all_snoc (ops : list SsoOp) (op : SsoOp) (w : Server) : serve_all (ops ++ [op]) w = serve op (serve_all ops w).
Proof. unfold SsoFlow.serve_all. by rewrite foldl_app. Qed.

(** ** What is known from the history *)

Definition seen (h : list Moment) (P : Moment -> Prop) : Prop := Exists P h.

Lemma seen_later (h k : list Moment) (P : Moment -> Prop) : seen h P -> seen (h ++ k) P.
Proof. intros Hs. apply Exists_app. by left. Qed.

Lemma seen_now (h : list Moment) (m : Moment) (P : Moment -> Prop) : P m -> seen (h ++ [m]) P.
Proof. intros Hm. apply Exists_app. right. by apply Exists_cons_hd. Qed.

(** [Q] happened, and [P] was known before. *)
Definition followed (P : list Moment -> Prop) (Q : Moment -> Prop) (h : list Moment) : Prop :=
  exists before m after, h = before ++ m :: after /\ P before /\ Q m.

Lemma followed_later (P : list Moment -> Prop) (Q : Moment -> Prop) (h k : list Moment) : followed P Q h -> followed P Q (h ++ k).
Proof. intros (b & m & a & -> & Hf). exists b, m, (a ++ k). split; [by rewrite <-app_assoc|done]. Qed.

Lemma followed_now (P : list Moment -> Prop) (Q : Moment -> Prop) (h : list Moment) (m : Moment) : P h -> Q m -> followed P Q (h ++ [m]).
Proof. intros Hp Hq. by exists h, m, []. Qed.

(** The user asked at [slug], with a session of his, to link an identity. *)
Definition signed_in (h : list Moment) (headers : HeaderMap) (slug : string) (user : Z) : Prop := seen h (fun m =>
  exists token identity, at_task m = AuthorizeLink headers slug /\ user_token headers = Some token /\
    (authenticate_user_session (now (at_env m)) token (people (at_state m))).1 = Some identity /\ ui_user_id identity = user).

(** Then [slug] was the provider's. *)
Definition started (h : list Moment) (user provider : Z) : Prop := exists headers slug p,
  followed (fun before => signed_in before headers slug user)
    (fun m => at_task m = StartFlow headers slug "link" (Some user) None /\
       auth_provider_by_slug cipher slug (at_state m) = Ok (Some p) /\ AuthProvider.id p = provider) h.

(** Then a flow was stored for the user, the provider and a state with the hash [x]. *)
Definition asked (h : list Moment) (user provider : Z) (x : string) : Prop := exists payload state url callback,
  hash_token state = x /\
  followed (fun before => started before user provider)
    (fun m => at_task m = StoreFlow provider payload "link" (Some user) state url callback) h.

(** A browser came back with a state of the hash [x], and with the code. *)
Definition came_back (h : list Moment) (code x : string) : Prop := seen h (fun m => exists headers slug state,
  at_task m = TakeFlow headers slug code state /\ hash_token state = x).

(** Then the provider was read from the table, under its id. *)
Definition loaded (h : list Moment) (p : AuthProvider.t) (code x : string) : Prop :=
  followed (fun before => came_back before code x)
    (fun m => (exists headers slug flow, at_task m = LoadProvider headers slug code flow) /\
       auth_provider_by_id cipher (AuthProvider.id p) (at_state m) = Ok (Some p)) h.

(** Then the provider vouched for the claims in exchange for the code. *)
Definition called_back (h : list Moment) (p : AuthProvider.t) (x : string) (c : ExternalClaims) : Prop := exists code,
  followed (fun before => loaded before p code x) (fun m => exists secret callback payload flow,
    at_task m = Exchange p secret callback code payload flow /\
    external_claims (net (at_env m)) p secret callback code payload = Some c) h.

Definition vouched (h : list Moment) (p : AuthProvider.t) (c : ExternalClaims) : Prop := exists x, called_back h p x c.

Definition verified (c : ExternalClaims) (email : string) : Prop :=
  ec_email_verified c = true /\ ec_email c = Some email /\ valid_user_email email = true.

(** The account of an address. *)
Definition matched (h : list Moment) (p : AuthProvider.t) (c : ExternalClaims) (email : string) (user : Z) : Prop :=
  seen h (fun m => exists invitation account, at_task m = FindByEmail p invitation c email /\
    user_by_email email (people (at_state m)) = Some account /\ ua_id account = user).

(** An address without an account, under a registration policy. *)
Definition policy (h : list Moment) (p : AuthProvider.t) (c : ExternalClaims) (email : string) (invitation : option string)
    (P : RegistrationConfig.t -> Prop) : Prop :=
  seen h (fun m => at_task m = FindByEmail p invitation c email /\
    user_by_email email (people (at_state m)) = None /\ P (Config.registration (config (at_env m)))).

Definition open_to (email : string) (r : RegistrationConfig.t) : Prop :=
  RegistrationConfig.mode r = "open" \/ RegistrationConfig.mode r = "domain_allowlist" /\
    email_domain_allowed email (RegistrationConfig.allowed_email_domains r) = true.

Definition invite_only (r : RegistrationConfig.t) : Prop := RegistrationConfig.mode r = "invite_only".

(** The policy let the address register, by an invitation for it if need be. *)
Definition admitted (h : list Moment) (p : AuthProvider.t) (c : ExternalClaims) (email : string) (invitation_id : option Z) : Prop :=
  match invitation_id with
  | None => exists invitation, policy h p c email invitation (open_to email)
  | Some id => exists token, policy h p c email (Some token) invite_only /\
      seen h (fun m => valid_invitation (now (at_env m)) email token (mail (at_state m)) = Some id)
  end.

(** The identity was the user's after some step. *)
Definition bound (h : list Moment) (slug subject : string) (user : Z) : Prop := seen h (fun m =>
  exists r, r ∈ user_identities (advance (at_task m) (at_env m) (at_state m)).2 /\
    Identity.names slug subject r = true /\ Identity.user_id r = user).

(** The session was created for the user, to whom the identity was bound before. *)
Definition opened (h : list Moment) (p : AuthProvider.t) (c : ExternalClaims) (user : Z) (session : UserSession) : Prop :=
  exists before m after, h = before ++ m :: after /\
    vouched before p c /\ bound before (AuthProvider.slug p) (ec_subject c) user /\
    (create_user_session (now (at_env m)) (session_token (at_env m)) user (method_of p) (people (at_state m))).1 = Ok (Some session).

(** In a flow of mode [link], the user asked. *)
Definition linking (P : Z -> Prop) (mode : string) (user : option Z) : Prop := mode = "link" -> exists u, user = Some u /\ P u.

(** ** What a request in flight rests on *)
Definition grounded (h : list Moment) (t : Task) : Prop :=
  match t with
  | StartFlow headers slug mode user invitation =>
      linking (fun u => signed_in h headers slug u /\ invitation = None) mode user
  | Authorize p _ _ mode user _ => linking (fun u => started h u (AuthProvider.id p)) mode user
  | StoreFlow id _ mode user _ _ _ => linking (fun u => started h u id) mode user
  | LoadProvider _ _ code flow => exists x, came_back h code x /\
      linking (fun u => asked h u (fl_provider_id flow) x) (fl_mode flow) (fl_user_id flow)
  | Exchange p _ _ code _ flow => exists x, loaded h p code x /\
      linking (fun u => asked h u (AuthProvider.id p) x) (fl_mode flow) (fl_user_id flow)
  | CheckLinked p u c | BindLinked p u c => exists x, asked h u (AuthProvider.id p) x /\ called_back h p x c
  | FindIdentity p _ c => vouched h p c
  | FindByEmail p _ c email => vouched h p c /\ verified c email
  | AutoLink p c email user => vouched h p c /\ verified c email /\ matched h p c email (ua_id user)
  | CheckInvitation p c email token => vouched h p c /\ verified c email /\ policy h p c email (Some token) invite_only
  | Register p c email invitation_id => vouched h p c /\ verified c email /\ admitted h p c email invitation_id
  | CreateSession p c u => vouched h p c /\ bound h (AuthProvider.slug p) (ec_subject c) u
  | AuditLogin p u session => exists c, opened h p c u session
  | Answered (SsoAnswer.CallbackRedirect _ (Some token)) => exists p c u session, us_token session = token /\ opened h p c u session
  | _ => True
  end.

Definition grounded_flows (h : list Moment) (s : Sso) : Prop :=
  map_Forall (fun x f => linking (fun u => asked h u (AuthFlow.provider_id f) x) (AuthFlow.mode f) (AuthFlow.user_id f)) (user_auth_flows s).

(** Providers are kept under their ids. *)
Definition keyed (s : Sso) : Prop := map_Forall (fun id p => AuthProvider.id p = id) (auth_providers s).

(** What was known stays known. *)
Lemma started_later (h k : list Moment) (user provider : Z) : started h user provider -> started (h ++ k) user provider.
Proof. intros (hd & slug & p & Hf). exists hd, slug, p. by apply followed_later. Qed.

Lemma asked_later (h k : list Moment) (user provider : Z) (x : string) : asked h user provider x -> asked (h ++ k) user provider x.
Proof. intros (payload & state & url & callback & Hx & Hf). exists payload, state, url, callback. split; [done|by apply followed_later]. Qed.

Lemma called_back_later (h k : list Moment) (p : AuthProvider.t) (x : string) (c : ExternalClaims) :
  called_back h p x c -> called_back (h ++ k) p x c.
Proof. intros (code & Hf). exists code. by apply followed_later. Qed.

Lemma vouched_later (h k : list Moment) (p : AuthProvider.t) (c : ExternalClaims) : vouched h p c -> vouched (h ++ k) p c.
Proof. intros (x & Hc). exists x. by apply called_back_later. Qed.

Lemma linking_impl (P Q : Z -> Prop) (mode : string) (user : option Z) :
  (forall u, P u -> Q u) -> linking P mode user -> linking Q mode user.
Proof. intros Hpq Hl (u & Hu & Hp)%Hl. exists u. split; [done|by apply Hpq]. Qed.

Lemma admitted_later (h k : list Moment) (p : AuthProvider.t) (c : ExternalClaims) (email : string) (id : option Z) :
  admitted h p c email id -> admitted (h ++ k) p c email id.
Proof.
  destruct id as [id|]; cbn; [intros (token & Hp & Hv); exists token; split|intros (inv & Hp); exists inv]; by apply seen_later.
Qed.

Lemma opened_later (h k : list Moment) (p : AuthProvider.t) (c : ExternalClaims) (user : Z) (session : UserSession) :
  opened h p c user session -> opened (h ++ k) p c user session.
Proof. intros (b & m & a & -> & Ho). exists b, m, (a ++ k). split; [by rewrite <-app_assoc|done]. Qed.

Ltac known := first [done | by apply seen_later | by apply followed_later | by apply started_later | by apply asked_later
  | by apply called_back_later | by apply vouched_later | by apply admitted_later | by apply opened_later
  | (eapply linking_impl; [|eassumption]; cbv beta; intros; split_and?; known)].

Lemma grounded_later (h k : list Moment) (t : Task) : grounded h t -> grounded (h ++ k) t.
Proof.
  destruct t; cbn; try done; intros Hg; try known; try (destruct Hg as (x & ? & ?); exists x; split; known);
    try (destruct Hg; split_and?; known).
  - eapply linking_impl; [|exact Hg]. intros u [? ->]. split; known.
  - destruct Hg as (? & ? & ?). split_and!; known.
  - destruct Hg as (? & ? & ?). split_and!; known.
  - destruct Hg as (? & ? & ?). split_and!; known.
  - destruct Hg as (c & ?). exists c. known.
  - destruct answer; try done. destruct session; [|done]. destruct Hg as (p & c & u & x & ? & ?). exists p, c, u, x. split; known.
Qed.

(** ** A step keeps it all *)

Lemma grounded_advance (h : list Moment) (t : Task) (env : Env) (s : Sso) :
  grounded h t -> grounded_flows h s -> keyed s ->
  grounded (h ++ [{| at_env := env; at_task := t; at_state := s |}]) (advance t env s).1.
Proof.
  set (m := {| at_env := env; at_task := t; at_state := s |}). intros Hg Hf Hkeyed.
  destruct t; cbn [grounded] in Hg; try (step_cases; simplify_eq; cbn [fst grounded]; first [done|known]).
  - cbn. unfold read_secret. by destruct (secret_to_store _ _ _ _ _) as [|[]].
  - cbn. unfold save_provider_row. by destruct (write_provider _ _ _ _ _) as [[|[]] ?].
  - cbn. unfold authenticated_user. destruct (user_token headers) as [token|] eqn:Ht; [|done].
    destruct (authenticate_user_session _ _ _) as [[user|] d] eqn:Ha; [|done]. cbn. intros _. eexists. split_and!; [done| |done].
    apply seen_now. exists token, user. split_and!; try done. cbn. by rewrite Ha.
  - cbn. unfold start_flow. destruct (auth_provider_by_slug _ _ _) as [[p|]|] eqn:Hp; try done. repeat (case_match; try done).
    cbn. intros ->. destruct (Hg eq_refl) as (u & -> & Hs & ->). exists u. split; [done|]. exists headers, slug, p. by apply followed_now.
  - cbn. unfold take_flow. destruct (take_user_auth_flow _ _ _ _) as [r s'] eqn:Hc. apply take_outcome in Hc as (_ & _ & _ & Hc).
    destruct r as [[flow|]|]; try done. destruct (open_flow _ _ _) as [f|] eqn:Ho; [|by destruct Hc]. destruct Hc as (_ & Hm & Hu & Hp).
    cbn. exists (hash_token returned_state). split; [apply seen_now; by exists headers, slug, returned_state|]. rewrite Hm, Hu, Hp.
    unfold open_flow in Ho. destruct (user_auth_flows s !! _) as [f'|] eqn:Hl; [|done].
    apply Hf in Hl. case_match; simplify_eq. known.
  - cbn. unfold load_provider. destruct (auth_provider_by_id _ _ _) as [[p|]|] eqn:Hp; try done. repeat (case_match; try done).
    assert (Hid : AuthProvider.id p = fl_provider_id flow).
    { apply by_id_Some in Hp as (r & secret & Hr%Hkeyed & ->). exact Hr. }
    destruct Hg as (x & Hc & Hl). cbn. exists x. rewrite Hid. split; [|known]. apply followed_now; [done|]. cbn. rewrite Hid.
    split; [by exists headers, slug, flow|done].
  - cbn. unfold exchange. destruct (external_claims _ _ _ _ _ _) as [c|] eqn:Hx; [|done]. destruct Hg as (x & Hload & Hlink).
    assert (Hv : called_back (h ++ [m]) provider x c) by (exists code; apply followed_now; [done|]; by exists secret, callback_url, payload, flow).
    cbn [fst]. unfold complete_identity. destruct (String.eqb_spec (fl_mode flow) "link") as [Hl|Hl]; [|by exists x].
    destruct (Hlink Hl) as (u & -> & Ha). cbn. exists x. split; [known|done].
  - cbn. unfold check_linked. destruct Hg as (x & Ha & Hv). destruct (user_account _ _) as [user|]; [|done].
    destruct (ua_disabled user); [done|]. exists x. split; known.
  - cbn. unfold find_identity. destruct (user_by_external_identity _ _ _) as [user|] eqn:Hu.
    + split; [known|]. apply seen_now. unfold user_by_external_identity in Hu.
      apply find_map_Some in Hu as (pre & r & post & Hl & Hr & _). destruct (Identity.names _ _ r) eqn:Hn; [|done].
      assert (Hid : Identity.user_id r = ua_id user) by (unfold user_account in Hr; repeat case_match; by simplify_eq).
      exists r. split_and!; try done. cbn. unfold find_identity, answer.
      assert (Hin : r ∈ user_identities s) by (rewrite Hl; set_solver). repeat case_match; done.
    + destruct (ec_email_verified claims) eqn:Hev; [|done]. destruct (ec_email claims) as [email|] eqn:He; [|done].
      destruct (valid_user_email email) eqn:Hve; [|done]. split; [known|done].
  - cbn. unfold find_by_email. destruct Hg as [Hv Hver]. destruct (user_by_email _ _) as [user|] eqn:Hu.
    + split_and!; [known|done|]. apply seen_now. by exists invitation, user.
    + unfold registration_allowed.
      destruct (String.eqb_spec (RegistrationConfig.mode (Config.registration (config env))) "open") as [Ho|_].
      { split_and!; [known|done|]. exists invitation. apply seen_now. split_and!; try done. by left. }
      destruct (_ && _) eqn:Hd.
      { split_and!; [known|done|]. exists invitation. apply seen_now. bool_to_prop. split_and!; try done. by right. }
      destruct (String.eqb_spec (RegistrationConfig.mode (Config.registration (config env))) "invite_only") as [Hi|_]; [|done].
      destruct invitation as [token|]; [|done]. split_and!; [known|done|]. by apply seen_now.
  - cbn. unfold auto_link. destruct Hg as (Hv & Hver & Hm). destruct (bind_external_identity _ _ _ _ _ _ _ _) as [r s'] eqn:Hb.
    pose proof Hb as Hc. apply bind_outcome in Hc as (_ & _ & _ & _ & _ & Hc).
    destruct r as [[]|]; try done. split; [known|]. apply seen_now. destruct (Hc eq_refl) as (r & Hr & Hn & Hu).
    exists r. split_and!; try done. cbn. unfold auto_link. by rewrite Hb.
  - cbn. unfold check_invitation. destruct Hg as (Hv & Hver & Hp). destruct (valid_invitation _ _ _ _) as [id|] eqn:Hi; [|done].
    split_and!; [known|done|]. exists token. split; [by apply seen_later|]. by apply seen_now.
  - cbn. unfold register. destruct Hg as (Hv & Hver & Had). destruct (create_user_with_external_identity _ _ _ _) as [r s'] eqn:Hb.
    pose proof Hb as Hc. apply create_outcome in Hc as [[_ Hc]|(user & r' & -> & _ & Hi & _ & _ & _ & Hu & Hk & _)];
      [by destruct r as [[user|]|]; [destruct (Hc user)|..]|].
    split; [known|]. apply seen_now. exists r'. unfold identity_key in Hk. injection Hk as Hp Hs. split_and!; [|..|done].
    + cbn. unfold register. rewrite Hb. cbn. rewrite Hi. apply elem_of_app. right. by apply list_elem_of_singleton.
    + unfold Identity.names, eq_ignore_ascii_case. cbn in Hp, Hs. by rewrite Hp, Hs, !String.eqb_refl.
  - cbn. unfold create_session. destruct Hg as [Hv Hb]. destruct (create_user_session _ _ _ _ _) as [[[session|]|] d] eqn:Hc; try done.
    exists claims, h, m, []. split_and!; try done. exact (f_equal fst Hc).
  - cbn. destruct Hg as (c & Ho). exists provider, c, user_id, session. split; known.
  - by apply grounded_later.
Qed.

Lemma flows_advance (h : list Moment) (t : Task) (env : Env) (s : Sso) :
  grounded h t -> grounded_flows h s ->
  grounded_flows (h ++ [{| at_env := env; at_task := t; at_state := s |}]) (advance t env s).2.
Proof.
  set (m := {| at_env := env; at_task := t; at_state := s |}). intros Hg Hf.
  assert (Hf' : grounded_flows (h ++ [m]) s) by (intros k f Hk; apply Hf in Hk; known).
  destruct (advance_flows cipher t env s) as [Hs _|provider payload mode user state url callback f -> _ _ Hs <- <- <- _ _|hd slug code state f -> Ho Hs].
  - intros k f Hk. apply (Hf' k f). by eapply lookup_weaken.
  - unfold grounded_flows. rewrite Hs. apply map_Forall_insert_2.
    + cbn in Hg. intros Hm. destruct (Hg Hm) as (u & Hu & Hst). exists u. split; [done|]. exists payload, state, url, callback.
      split; [done|]. apply followed_now; [done|]. by rewrite <-Hm, <-Hu.
    + intros k g Hk. apply (Hf' k g). eapply lookup_weaken; [done|]. apply map_filter_subseteq.
  - unfold grounded_flows. rewrite Hs. apply map_Forall_insert_2; [|done]. unfold open_flow in Ho.
    destruct (user_auth_flows s !! _) as [f'|] eqn:Hl; [|done]. apply Hf' in Hl. case_match; by simplify_eq.
Qed.

Lemma keyed_advance (t : Task) (env : Env) (s : Sso) : keyed s -> keyed (advance t env s).2.
Proof.
  intros Hk. unfold keyed. destruct (advance_providers cipher t env s) as [[-> _]|actor p secret _ _ _ ->|actor p secret _ _ _ ->|id _ ->];
    [done|by apply map_Forall_insert_2..|by apply map_Forall_delete].
Qed.

(** The tables and the requests of a server rest on its history. *)
Definition justified (h : list Moment) (w : Server) : Prop :=
  Forall (grounded h) (tasks w) /\ grounded_flows h (sso w) /\ keyed (sso w).

Lemma receive_grounded (h : list Moment) (r : SsoRequest) : grounded h (receive r).
Proof.
  destruct r; cbn [receive]; unfold with_admin, flow_start, callback_start; repeat case_match; try done; by destruct e.
Qed.

Lemma justified_serve (h : list Moment) (op : SsoOp) (w : Server) : justified h w -> justified (h ++ moment op w) (serve op w).
Proof.
  intros Hw. pose proof Hw as (Ht & Hf & Hk). destruct op; cbn [moment SsoFlow.serve]; rewrite ?app_nil_r; try exact Hw.
  - split; [|done]. apply Forall_app. split; [exact Ht|]. apply Forall_singleton, receive_grounded.
  - destruct (tasks w !! i) as [t|] eqn:Hi; [|by rewrite app_nil_r].
    assert (Hg : grounded h t) by (rewrite Forall_forall in Ht; by eapply Ht, list_elem_of_lookup_2).
    pose proof (grounded_advance h t env (sso w) Hg Hf Hk) as Hg'. pose proof (flows_advance h t env (sso w) Hg Hf) as Hf'.
    pose proof (keyed_advance t env (sso w) Hk) as Hk'.
    destruct (advance t env (sso w)) as [t' s']. cbn [fst snd] in *. split_and!; cbn [sso tasks]; [|done..].
    apply Forall_insert; [|done]. eapply Forall_impl; [exact Ht|]. intros u. apply grounded_later.
Qed.

Lemma justified_run (m : Mail) (ops : list SsoOp) : justified (history ops (start m)) (serve_all ops (start m)).
Proof.
  induction ops as [|op ops IH] using rev_ind; [split_and!; [constructor|apply map_Forall_empty..]|].
  rewrite history_snoc, serve_all_snoc. by apply justified_serve.
Qed.

(** ** Identities come with consent *)

(** The account was created for the address when the request registered. *)
Definition registered (h : list Moment) (p : AuthProvider.t) (c : ExternalClaims) (email : string) (user : Z) : Prop :=
  seen h (fun m => exists invitation u, at_task m = Register p c email invitation /\
    user = next_user_id (people (at_state m)) /\
    users (dir_accounts (people (advance (at_task m) (at_env m) (at_state m)).2)) !! user = Some u /\
    User.email u = normalize_email email).

(** Why a user, a slug and a subject belong together.  One provider is asked,
    vouches and lends its slug, as the callback read it from the table; when a
    later save of a provider changes a slug, the identities under the old slug
    take the new one. *)
Inductive consented : list Moment -> Z -> string -> string -> Prop :=
| by_link h p c x user : asked h user (AuthProvider.id p) x -> called_back h p x c ->
    consented h user (AuthProvider.slug p) (ec_subject c)
| by_email h p c email user : vouched h p c -> verified c email -> matched h p c email user ->
    consented h user (AuthProvider.slug p) (ec_subject c)
| by_registration h p c email invitation user : vouched h p c -> verified c email -> admitted h p c email invitation ->
    registered h p c email user -> consented h user (AuthProvider.slug p) (ec_subject c)
| by_rename before m after user slug subject actor p secret previous : consented before user slug subject ->
    at_task m = WriteProvider actor p secret -> auth_providers (at_state m) !! AuthProvider.id p = Some previous ->
    eq_ignore_ascii_case slug (AuthProvider.slug previous) = true ->
    consented (before ++ m :: after) user (AuthProvider.slug p) subject.

Lemma consented_later (h k : list Moment) (user : Z) (slug subject : string) :
  consented h user slug subject -> consented (h ++ k) user slug subject.
Proof.
  intros [h' p c x u Ha Hc|h' p c email u Hv Hver Hm|h' p c email inv u Hv Hver Had Hr|b m a u s s' actor p secret prev Hc Ht Hp He].
  - by apply by_link with x; known.
  - by apply by_email with email; known.
  - by apply by_registration with email inv; known.
  - rewrite <-app_assoc. by eapply by_rename.
Qed.

Lemma cause_consented (h : list Moment) (t : Task) (env : Env) (s : Sso) (r : Identity.t) :
  grounded h t -> cause t s r -> r ∈ user_identities (advance t env s).2 -> identity_key r ∉ keys s ->
  consented (h ++ [{| at_env := env; at_task := t; at_state := s |}]) (Identity.user_id r) (Identity.provider r) (Identity.subject r).
Proof.
  intros Hg Hc Hin Hk. destruct t; try done; destruct Hc as [Hu Hkey]; injection Hkey as Hp Hs; rewrite Hp, Hs.
  - destruct Hg as (x & Ha & Hv). rewrite Hu. apply consented_later. by apply by_link with x.
  - destruct Hg as (Hv & Hver & Hm). rewrite Hu. apply consented_later. by apply by_email with email.
  - destruct Hg as (Hv & Hver & Had). apply by_registration with email invitation_id; [known|done|known|].
    apply seen_now. cbn [at_task at_state at_env]. revert Hin. cbn [SsoFlow.advance]. unfold register.
    destruct (create_user_with_external_identity _ _ _ _) as [res s'] eqn:Hb. apply create_outcome in Hb.
    destruct Hb as [[-> Hn]|(user & x & -> & Hid & _ & _ & _ & _ & _ & _ & _ & _ & _ & u & Hus & He)].
    + assert (r ∉ user_identities s) by (intros Hr; apply Hk, list_elem_of_fmap; by exists r). repeat case_match; done.
    + intros _. exists invitation_id, u. split_and!; try done. cbn. rewrite Hus, Hid, Hu. by rewrite lookup_insert_eq.
Qed.

Definition all_consented (h : list Moment) (s : Sso) : Prop :=
  Forall (fun r => consented h (Identity.user_id r) (Identity.provider r) (Identity.subject r)) (user_identities s).

Lemma consented_serve (h : list Moment) (op : SsoOp) (w : Server) :
  justified h w -> all_consented h (sso w) -> all_consented (h ++ moment op w) (sso (serve op w)).
Proof.
  intros [Ht _] Ha. destruct op; cbn [moment SsoFlow.serve]; rewrite ?app_nil_r; try exact Ha.
  destruct (tasks w !! i) as [t|] eqn:Hi; [|by rewrite app_nil_r].
  assert (Hg : grounded h t) by (rewrite Forall_forall in Ht; by eapply Ht, list_elem_of_lookup_2).
  pose proof (cause_consented h t env (sso w)) as Hcause. pose proof (advance_identities cipher t env (sso w)) as Hch.
  destruct (advance t env (sso w)) as [t' s'] eqn:Hadv. cbn [fst snd] in *. cbn [sso]. set (m := {| at_env := env |}) in *.
  assert (Hold : all_consented (h ++ [m]) (sso w)) by (eapply Forall_impl; [exact Ha|]; intros x; apply consented_later).
  unfold all_consented in *. destruct Hch as [Hr _|x Hr _ _ Hk Hc|now' actor p secret previous Hw Hp Hr _ _|actor u id _ Hr _]; rewrite Hr in *.
  - done.
  - apply Forall_app. split; [done|]. apply Forall_singleton. apply Hcause; try done. apply elem_of_app. right. by apply list_elem_of_singleton.
  - rewrite Forall_forall in *. intros r (r0 & Hr0 & _ & -> & -> & [-> |[He ->]])%renamed_in; [by apply Hold|].
    eapply by_rename; [by apply Ha|done..].
  - rewrite Forall_forall in *. intros r [_ Hr0]%list_elem_of_filter. by apply Hold.
Qed.

(** C24: Whatever runs in between, an identity belongs to its user for one of
    three reasons.  The user asked, at the slug of a provider and with a
    session of his, to link an identity, and the provider with that id vouched
    for the subject to the callback that came back with the state of this very
    request; or the provider vouched for the subject with a verified address
    which was the user's; or it vouched with a verified address for which the
    account was registered in that callback, under the policy of that moment
    and with an invitation that was valid for the address where the policy
    asks for one.  The identity bears the slug of the provider that vouched, as
    the callback read it from the table, or what later saves of providers have
    made of that slug.  (A save during the exchange may have given the slug to
    another provider: [Example.stale_provider_binds_elsewhere].) *)
Theorem identities_have_consent (m : Mail) (ops : list SsoOp) :
  Forall (fun r => consented (history ops (start m)) (Identity.user_id r) (Identity.provider r) (Identity.subject r))
    (user_identities (sso (serve_all ops (start m)))).
Proof.
  change (all_consented (history ops (start m)) (sso (serve_all ops (start m)))).
  induction ops as [|op ops IH] using rev_ind; [constructor|].
  rewrite history_snoc, serve_all_snoc. apply consented_serve; [apply justified_run|done].
Qed.

(** ** Sessions come with an identity *)

(** What a session that a request hands out rests on. *)
Definition rightly (h : list Moment) (t : Task) : Prop :=
  match t with
  | Answered (SsoAnswer.CallbackRedirect _ (Some token)) => exists p c user before m after, h = before ++ m :: after /\
      vouched before p c /\ bound before (AuthProvider.slug p) (ec_subject c) user /\
      exists u session, users (dir_accounts (people (at_state m))) !! user = Some u /\ user_enabled u = true /\
        (create_user_session (now (at_env m)) (session_token (at_env m)) user (method_of p) (people (at_state m))).1
          = Ok (Some session) /\ us_token session = token /\ ui_user_id (us_identity session) = user
  | _ => True
  end.

(** Whatever runs in between, a session that a callback hands out belongs
    to a user who was enabled when it was created, and to whom an identity was
    bound before, of a subject the provider vouched for in exchange for the
    code; nobody signs in by an address alone. *)
Theorem sso_sessions_have_identities (m : Mail) (ops : list SsoOp) :
  Forall (rightly (history ops (start m))) (tasks (serve_all ops (start m))).
Proof.
  destruct (justified_run m ops) as [Ht _]. eapply Forall_impl; [exact Ht|]. intros t Hg. destruct t; try done.
  destruct answer; try done. destruct session as [token|]; [|done].
  destruct Hg as (p & c & u & session & Htok & b & x & a & Hh & Hv & Hb & Ho). exists p, c, u, b, x, a. split_and!; [done..|].
  destruct (create_user_session (now (at_env x)) (session_token (at_env x)) u (method_of p) (people (at_state x))) as [r d] eqn:Hc.
  cbn [fst] in Ho |- *. subst r. apply create_user_session_spec in Hc as (_ & _ & user & Hu & He & Hid).
  exists user, session. rewrite Hid. by split_and!.
Qed.

(** ** A state token is used once *)

(** The steps that store a flow for a state, and those that take it, by the
    hash of the state. *)
Definition stores (x : string) (m : Moment) : bool :=
  match at_task m with
  | StoreFlow provider payload mode user state _ _ =>
      (hash_token state =? x)%string
      && is_ok (store_user_auth_flow cipher (now (at_env m)) (seal_nonce (at_env m)) state provider payload mode user
                  (now (at_env m) + FLOW_LIFETIME_SECS) (at_state m)).1
  | _ => false
  end.

Definition takes (x : string) (m : Moment) : bool :=
  match at_task m with
  | TakeFlow _ _ _ state => (hash_token state =? x)%string && bool_decide (is_Some (open_flow (now (at_env m)) state (at_state m)))
  | _ => false
  end.

(** The browser shows the cookie of the state, and the flow was stored less
    than ten minutes ago. *)
Definition redeems (before : list Moment) (x : string) (m : Moment) : Prop :=
  match at_task m with
  | TakeFlow headers _ _ state => cookie_value headers FLOW_COOKIE = Some state
  | _ => False
  end /\
  seen before (fun k => stores x k = true /\ now (at_env m) < now (at_env k) + FLOW_LIFETIME_SECS).

Definition redeemed_rightly (h : list Moment) (x : string) : Prop :=
  forall before m after, h = before ++ m :: after -> takes x m = true -> redeems before x m.

Definition waiting (x : string) (s : Sso) : Z :=
  match user_auth_flows s !! x with
  | Some f => if bool_decide (AuthFlow.used_at f = None) then 1 else 0
  | None => 0
  end.

(** Only an arriving callback is a request that takes a flow. *)
Definition holds_cookie (t : Task) : Prop :=
  match t with TakeFlow headers _ _ state => cookie_value headers FLOW_COOKIE = Some state | _ => True end.

Record tokens_ok (x : string) (h : list Moment) (w : Server) : Prop := {
  tokens_count : count_if (takes x) h + waiting x (sso w) <= count_if (stores x) h;
  tokens_stored : forall f, user_auth_flows (sso w) !! x = Some f ->
    seen h (fun k => stores x k = true /\ AuthFlow.expires_at f = now (at_env k) + FLOW_LIFETIME_SECS);
  tokens_cookies : Forall holds_cookie (tasks w);
  tokens_redeemed : redeemed_rightly h x;
}.

Lemma waiting_fewer (x : string) (s : Sso) (flows : gmap string AuthFlow.t) :
  flows ⊆ user_auth_flows s ->
  (match flows !! x with Some f => if bool_decide (AuthFlow.used_at f = None) then 1 else 0 | None => 0 end) <= waiting x s.
Proof.
  intros Hs. unfold waiting. destruct (flows !! x) as [f|] eqn:Hf; [by rewrite (lookup_weaken _ _ _ _ Hf Hs)|].
  repeat case_match; lia.
Qed.

Lemma advance_cookie (t : Task) (env : Env) (s : Sso) : holds_cookie t -> holds_cookie (advance t env s).1.
Proof. intros Ht. destruct t; try (step_cases; done). Qed.

Lemma receive_cookie (r : SsoRequest) : holds_cookie (receive r).
Proof.
  destruct r; cbn [receive]; unfold with_admin, flow_start, callback_start; repeat case_match; try done; try (by destruct e).
  by eapply bool_decide_eq_true_1.
Qed.

Lemma redeemed_snoc (x : string) (h : list Moment) (m : Moment) :
  redeemed_rightly h x -> (takes x m = true -> redeems h x m) -> redeemed_rightly (h ++ [m]) x.
Proof.
  intros Hh Hm b k a. destruct a as [|l a _] using rev_ind.
  - intros [<- <-]%app_inj_tail. exact Hm.
  - intros He. change (b ++ k :: a ++ [l]) with (b ++ (k :: a) ++ [l]) in He. rewrite app_assoc in He.
    apply app_inj_tail in He as [-> _]. exact (Hh b k a eq_refl).
Qed.

Lemma count_snoc (p : Moment -> bool) (h : list Moment) (m : Moment) :
  count_if p (h ++ [m]) = count_if p h + (if p m then 1 else 0).
Proof. rewrite count_if_app. unfold count_if at 2. cbn. by destruct (p m). Qed.

Lemma open_flow_Some (now : Z) (state : string) (s : Sso) (f : AuthFlow.t) :
  open_flow now state s = Some f ->
  user_auth_flows s !! hash_token state = Some f /\ now < AuthFlow.expires_at f /\ AuthFlow.used_at f = None.
Proof.
  unfold open_flow. destruct (user_auth_flows s !! _) as [g|]; [|done]. case_match eqn:Hc; [|done]. intros [= <-].
  apply andb_true_iff in Hc as [Hn Hu%bool_decide_eq_true_1]. by bool_to_prop.
Qed.

Lemma tokens_step (x : string) (h : list Moment) (i : nat) (t : Task) (env : Env) (w : Server) :
  tasks w !! i = Some t -> tokens_ok x h w ->
  tokens_ok x (h ++ [{| at_env := env; at_task := t; at_state := sso w |}])
    {| sso := (advance t env (sso w)).2; tasks := <[i := (advance t env (sso w)).1]> (tasks w) |}.
Proof.
  intros Hi [Hc Hs Hck Hr]. set (m := {| at_env := env; at_task := t; at_state := sso w |}).
  assert (Ht : holds_cookie t) by (rewrite Forall_forall in Hck; by eapply Hck, list_elem_of_lookup_2).
  assert (Hck' : Forall holds_cookie (<[i := (advance t env (sso w)).1]> (tasks w))) by (by apply Forall_insert, advance_cookie).
  destruct (advance_flows cipher t env (sso w)) as
    [Hf Hno|provider payload mode user state url callback f -> Hok Hfresh Hf Hmode Huser Hunused Hexp|hd slug code state f -> Ho Hf].
  - assert (Htk : takes x m = false).
    { unfold takes. cbn. destruct t; try done. rewrite (Hno _ _ _ _ eq_refl). by rewrite bool_decide_false, andb_false_r by (intros [? [=]]). }
    split; cbn [sso tasks]; try done.
    + rewrite !count_snoc, Htk. pose proof (waiting_fewer x _ _ Hf) as Hw. unfold waiting at 1. destruct (stores x m); lia.
    + intros f Hx. apply seen_later, Hs. by eapply lookup_weaken.
    + apply redeemed_snoc; [done|]. by rewrite Htk.
  - assert (Htk : takes x m = false) by done.
    assert (Hst : stores x m = (hash_token state =? x)%string) by (unfold stores; cbn; by rewrite Hok, andb_true_r).
    assert (Hsub : fresh_flows (now env) (sso w) ⊆ user_auth_flows (sso w)) by apply map_filter_subseteq.
    split; cbn [sso tasks]; try done.
    + rewrite !count_snoc, Htk, Hst. unfold waiting at 1. rewrite Hf. destruct (String.eqb_spec (hash_token state) x) as [<-|Hne].
      * rewrite lookup_insert_eq, bool_decide_true by done. unfold waiting in Hc. repeat case_match; lia.
      * rewrite lookup_insert_ne by done. pose proof (waiting_fewer x _ _ Hsub). lia.
    + rewrite Hf. intros g [[He <-]|[_ Hx]]%lookup_insert_Some.
      * apply seen_now. rewrite Hst. split; [by apply String.eqb_eq|done].
      * apply seen_later, Hs. by eapply lookup_weaken.
    + by apply redeemed_snoc.
  - assert (Htk : takes x m = (hash_token state =? x)%string).
    { unfold takes. cbn. by rewrite Ho, bool_decide_true, andb_true_r by done. }
    apply open_flow_Some in Ho as (Hl & Hlive & Hun). assert (Hst : stores x m = false) by done. split; cbn [sso tasks]; try done.
    + rewrite !count_snoc, Htk, Hst. unfold waiting at 1. rewrite Hf. destruct (String.eqb_spec (hash_token state) x) as [<-|Hne].
      * rewrite lookup_insert_eq. cbn. unfold waiting in Hc. rewrite Hl, bool_decide_true in Hc by done. lia.
      * rewrite lookup_insert_ne by done. unfold waiting in Hc. lia.
    + rewrite Hf. intros g [[<- <-]|[_ Hx]]%lookup_insert_Some; apply seen_later; [by apply (Hs f)|by apply Hs].
    + apply redeemed_snoc; [done|]. rewrite Htk. intros <-%String.eqb_eq. split; [exact Ht|].
      eapply Exists_impl; [exact (Hs _ Hl)|]. intros k [Hk He]. cbn beta in *. cbn. split; [done|lia].
Qed.

Lemma tokens_run (x : string) (m : Mail) (ops : list SsoOp) : tokens_ok x (history ops (start m)) (serve_all ops (start m)).
Proof.
  induction ops as [|op ops IH] using rev_ind.
  { split; cbn; try done. intros b k a He. by destruct b. }
  rewrite history_snoc, serve_all_snoc. set (w := serve_all ops (start m)) in *. set (h := history ops (start m)) in *.
  destruct op; cbn [moment SsoFlow.serve]; rewrite ?app_nil_r; try exact IH.
  - destruct IH as [Hc Hs Hck Hr]. split; try done. cbn. apply Forall_app. split; [done|]. apply Forall_singleton, receive_cookie.
  - destruct (tasks w !! i) as [t|] eqn:Hi; [|by rewrite app_nil_r]. pose proof (tokens_step x h i t env w Hi IH) as Hw.
    by destruct (advance t env (sso w)) as [t' s'].
  - by destruct IH.
  - by destruct IH.
  - by destruct IH.
Qed.

(** C25: Whatever runs in between, a state token is redeemed at most as often as
    a flow was stored for it, so once for every token that is drawn once; and
    only by a callback from the browser whose cookie holds the token, within
    ten minutes of the flow being stored. *)
Theorem state_tokens_single_use (m : Mail) (ops : list SsoOp) (x : string) :
  count_if (takes x) (history ops (start m)) <= count_if (stores x) (history ops (start m)) /\
  redeemed_rightly (history ops (start m)) x.
Proof.
  destruct (tokens_run x m ops) as [Hc _ _ Hr]. split; [|done]. unfold waiting in Hc. repeat case_match; lia.
Qed.
End Safety.

(** ** What the protocols let through *)

Section Claims.
Context `{UrlApi} `{IdentityApi}.

Lemma profile_verified (p : AuthProvider.t) (value : Value) (e : option string) :
  profile_email p value = (e, true) -> exists field, AuthProvider.email_verified_field p = Some field /\
    json_bool value field = Some true /\ e = to_ascii_lowercase <$> json_text value (AuthProvider.email_field p).
Proof.
  unfold profile_email. intros [= <- Hv]. destruct (AuthProvider.email_verified_field p) as [field|]; [|done].
  exists field. by destruct (json_bool value field) as [[]|].
Qed.

Lemma verified_item_Some (items : list Value) (item : Value) :
  verified_item items = Some item -> item ∈ items /\ is_true_field "verified" item = true.
Proof.
  unfold verified_item. destruct (find_first _ items) as [y|] eqn:Hf; [|apply find_first_Some].
  intros [= <-]. apply find_first_Some in Hf as [Hin Hv]. by bool_to_prop.
Qed.

Lemma listed_verified (emails : Value) (found : option string * bool) (e : option string) :
  listed_email emails found = (e, true) -> found = (e, true) \/
  exists items item email, emails = Array items /\ item ∈ items /\ is_true_field "verified" item = true /\
    json_get item "email" = Some (Str email) /\ e = Some (to_ascii_lowercase email).
Proof.
  destruct emails as [| | | |items|]; cbn; try by left. destruct (verified_item items) as [item|] eqn:Hi; [|by left].
  intros [= <- Hv%bool_decide_eq_true_1]. right. apply verified_item_Some in Hi as [Hin Ht].
  destruct (json_get item "email") as [[| | |email| |]|] eqn:Hx; cbn in Hv; try by destruct Hv.
  by exists items, item, email.
Qed.

(** An address of an OAuth2 provider counts as verified only when the profile
    says so in the configured field, or the list of addresses has it so. *)
Lemma verified_needs_evidence (net : IdentityNet) (p : AuthProvider.t) (secret callback code : string) (payload : FlowPayload)
    (c : ExternalClaims) :
  oauth_exchange net p secret callback code payload = Some c -> ec_email_verified c = true ->
  (exists field value, AuthProvider.email_verified_field p = Some field /\ json_bool value field = Some true /\
     (exists token url, AuthProvider.userinfo_url p = Some url /\ net_get net url token = Some value) /\
     ec_email c = to_ascii_lowercase <$> json_text value (AuthProvider.email_field p)) \/
  exists items item email, item ∈ items /\ is_true_field "verified" item = true /\
    json_get item "email" = Some (Str email) /\ ec_email c = Some (to_ascii_lowercase email) /\
    exists token url, AuthProvider.emails_url p = Some url /\ net_get net url token = Some (Array items).
Proof.
  unfold oauth_exchange. intros (client & _ & Hc)%bind_Some Hv. apply bind_Some in Hc as (token & _ & Hc).
  apply bind_Some in Hc as (userinfo & Huser & Hc). apply bind_Some in Hc as (value & Hvalue & Hc).
  apply bind_Some in Hc as (subject & _ & Hc). apply bind_Some in Hc as ([e v] & Hfound & [= <-]). cbn in Hv. subst v. cbn [ec_email].
  assert (Hprofile : profile_email p value = (e, true) ->
    exists field value, AuthProvider.email_verified_field p = Some field /\ json_bool value field = Some true /\
      (exists token url, AuthProvider.userinfo_url p = Some url /\ net_get net url token = Some value) /\
      e = to_ascii_lowercase <$> json_text value (AuthProvider.email_field p)).
  { intros (field & Hf & Hb & ->)%profile_verified. exists field, value. split_and!; try done. by exists token, userinfo. }
  case_match; [|left; apply (inj Some) in Hfound; by apply Hprofile].
  destruct (AuthProvider.emails_url p) as [url|] eqn:Hu; [|left; apply (inj Some) in Hfound; by apply Hprofile].
  apply fmap_Some in Hfound as (emails & He & Hl). symmetry in Hl.
  apply listed_verified in Hl as [Hl|(items & item & email & -> & Hin & Ht & Hx & ->)]; [left; by apply Hprofile|].
  right. exists items, item, email. split_and!; try done. by exists token, url.
Qed.

(** Neither GitLab's template nor Gitee's names a field or a list that says
    an address is verified, and the console leaves both empty: nobody can
    register or be recognised by address through them. *)
Lemma unverified_templates (net : IdentityNet) (p : AuthProvider.t) (secret callback code : string) (payload : FlowPayload)
    (c : ExternalClaims) :
  AuthProvider.email_verified_field p = None -> AuthProvider.emails_url p = None ->
  oauth_exchange net p secret callback code payload = Some c -> ec_email_verified c = false.
Proof.
  intros Hf He Hc. destruct (ec_email_verified c) eqn:Hv; [|done].
  destruct (verified_needs_evidence _ _ _ _ _ _ _ Hc Hv) as [(field & value & Hx & _)|(items & item & email & _ & _ & _ & _ & token & url & Hx & _)]; congruence.
Qed.

Lemma templates_without_evidence :
  pt_preset <$> List.filter (fun t => (pt_kind t =? "oauth2")%string && bool_decide (pt_emails_url t = None)) TEMPLATES =
  ["gitlab"; "gitee"; "custom_oauth2"].
Proof. reflexivity. Qed.
End Claims.

(** ** A run

    Bob has an account and a session.  An administrator configures GitHub; Bob
    signs in with it, and GitHub's list of addresses has his as verified. *)
Module Example.

#[local] Instance sample_json : JsonApi := {|
  json_from_slice text := Some (payload_value {| pkce_verifier := text; nonce := None; invitation := None |});
  json_to_vec v := match payload_of_value v with Some p => Some (pkce_verifier p) | None => None end;
|}.

#[local] Instance sample_identity : IdentityApi := {|
  Metadata := unit; Tokens := unit; IdToken := unit;
  oauth_authorize_url c state verifier _ := oa_auth_url c +:+ "?state=" +:+ state +:+ "&code_challenge=" +:+ verifier;
  oidc_authorize_url c state _ _ _ := oi_client_id c +:+ state;
  user_info_url _ := None; access_token _ := ""; id_token _ := Some tt; id_claims _ _ _ := None; token_hash _ _ _ := None;
|}.

Definition addresses (email : string) : Value :=
  Array [Object [("email", Str "bob@other.test"); ("verified", Bool false); ("primary", Bool true)];
         Object [("email", Str email); ("verified", Bool true); ("primary", Bool false)]].

Definition network (email : string) : IdentityNet := {|
  net_discover _ := None; net_exchange _ _ _ := Some "bearer";
  net_get url _ := Some (if (url =? "https://api.github.com/user/emails")%string then addresses email
                         else Object [("id", Number "7"); ("name", Str "Bob")]);
  net_oidc_exchange _ _ _ := None; net_user_info _ _ _ := None; net_reaches _ := true;
|}.

Definition env (at_ : Z) : Env := {|
  now := at_; config := Config.default; net := network "Bob@Mirror.test"; session_token := "s"; state_token := "st";
  verifier := "v"; oidc_nonce := "n"; seal_nonce := "0"; routing_draws := [9];
|}.

Definition github : ProviderRequest.t := {|
  ProviderRequest.slug := "GitHub"; ProviderRequest.display_name := "GitHub"; ProviderRequest.kind := "oauth2";
  ProviderRequest.preset := "github"; ProviderRequest.enabled := true; ProviderRequest.client_id := "id";
  ProviderRequest.client_secret := Some "secret"; ProviderRequest.issuer_url := None;
  ProviderRequest.authorization_url := Some "https://github.com/login/oauth/authorize";
  ProviderRequest.token_url := Some "https://github.com/login/oauth/access_token";
  ProviderRequest.userinfo_url := Some "https://api.github.com/user";
  ProviderRequest.emails_url := Some "https://api.github.com/user/emails"; ProviderRequest.scopes := ["user:email"];
  ProviderRequest.subject_field := "id"; ProviderRequest.email_field := "email";
  ProviderRequest.email_verified_field := None; ProviderRequest.display_name_field := "name";
|}.

Definition browser : @HeaderMap AssocHeaders := [("host", "m.test"); ("cookie", "mirrorproxy_oauth_state=st")].

Definition steps (i n : nat) (at_ : Z) : list (@SsoOp AssocHeaders sample_identity) := repeat (Run i (env at_)) n.

Definition configured : list (@SsoOp AssocHeaders sample_identity) :=
  Arrive (SaveProvider (Ok "root") 0 github) :: steps 0 3 100.

Definition signing_in : list (@SsoOp AssocHeaders sample_identity) :=
  configured ++ [Arrive (StartLogin browser "github" None)] ++ steps 1 3 200 ++
  [Arrive (Callback browser "github" {| cq_code := Some "code"; cq_state := Some "st"; cq_error := None |})] ++ steps 2 8 300.

Definition answer_of (t : @Task AssocHeaders) : option SsoAnswer.t := match t with Answered a => Some a | _ => None end.

Definition answers (ops : list (@SsoOp AssocHeaders sample_identity)) : list (option SsoAnswer.t) :=
  answer_of <$> tasks (serve_all None ops (start sample_mail)).

Lemma signing_in_run :
  answers signing_in = [
    Some (SsoAnswer.Saved 1);
    Some (SsoAnswer.AuthorizeRedirect "https://github.com/login/oauth/authorize?state=st&code_challenge=v" "st" false);
    Some (SsoAnswer.CallbackRedirect "/account" (Some "s"))] /\
  identity_key <$> user_identities (sso (serve_all None signing_in (start sample_mail))) = [("github", "7")].
Proof. split; vm_compute; reflexivity. Qed.

Lemma identities_have_consent_witness :
  exists r, user_identities (sso (serve_all None signing_in (start sample_mail))) = [r] /\ Identity.user_id r = 1 /\
    consented None (history None signing_in (start sample_mail)) 1 "github" "7".
Proof.
  pose proof (identities_have_consent None sample_mail signing_in) as Hc.
  assert (Hr : (fun r => (Identity.user_id r, Identity.provider r, Identity.subject r)) <$>
                 user_identities (sso (serve_all None signing_in (start sample_mail))) = [(1, "github", "7")]) by (vm_compute; reflexivity).
  destruct (user_identities _) as [|r [|? ?]]; try discriminate Hr. injection Hr as Hu Hp Hs. exists r.
  apply Forall_inv in Hc. rewrite Hu, Hp, Hs in Hc. by split_and!.
Defined.

Lemma rightly_at (h : list (@Moment AssocHeaders sample_identity)) (ts : list (@Task AssocHeaders)) (i : nat) (a : SsoAnswer.t) :
  Forall (rightly None h) ts -> (answer_of <$> ts) !! i = Some (Some a) -> rightly None h (Answered a).
Proof.
  intros Hr Hi. rewrite list_lookup_fmap in Hi. apply fmap_Some in Hi as (t & Ht & Ha). rewrite Forall_lookup in Hr.
  specialize (Hr _ _ Ht). destruct t; try discriminate Ha. by injection Ha as ->.
Qed.

Lemma sso_sessions_have_identities_witness :
  rightly None (history None signing_in (start sample_mail)) (Answered (SsoAnswer.CallbackRedirect "/account" (Some "s"))).
Proof.
  assert (Ha : (answer_of <$> tasks (serve_all None signing_in (start sample_mail))) !! 2%nat
               = Some (Some (SsoAnswer.CallbackRedirect "/account" (Some "s")))) by (vm_compute; reflexivity).
  exact (rightly_at _ _ _ _ (sso_sessions_have_identities None sample_mail signing_in) Ha).
Defined.

Lemma state_tokens_single_use_witness :
  count_if (takes "st") (history None (signing_in ++ steps 2 8 400) (start sample_mail)) = 1 /\
  redeemed_rightly None (history None (signing_in ++ steps 2 8 400) (start sample_mail)) "st".
Proof. split; [vm_compute; reflexivity|apply state_tokens_single_use]. Defined.

(** While GitHub answers, an administrator gives its provider another slug and
    the old slug to a new provider: the identity GitHub vouched for is bound
    under the new provider, where the same subject may be somebody else. *)
Definition renamed (slug token_url : string) : ProviderRequest.t := {|
  ProviderRequest.slug := slug; ProviderRequest.display_name := "Login"; ProviderRequest.kind := "oauth2";
  ProviderRequest.preset := "custom_oauth2"; ProviderRequest.enabled := true; ProviderRequest.client_id := "id";
  ProviderRequest.client_secret := Some "secret"; ProviderRequest.issuer_url := None;
  ProviderRequest.authorization_url := Some token_url; ProviderRequest.token_url := Some token_url;
  ProviderRequest.userinfo_url := Some token_url; ProviderRequest.emails_url := None; ProviderRequest.scopes := [];
  ProviderRequest.subject_field := "id"; ProviderRequest.email_field := "email";
  ProviderRequest.email_verified_field := None; ProviderRequest.display_name_field := "name";
|}.

Definition overtaken : list (@SsoOp AssocHeaders sample_identity) :=
  configured ++ [Arrive (StartLogin browser "github" None)] ++ steps 1 3 200 ++
  [Arrive (Callback browser "github" {| cq_code := Some "code"; cq_state := Some "st"; cq_error := None |})] ++ steps 2 3 300 ++
  [Arrive (SaveProvider (Ok "root") 1 (renamed "gh" "https://github.com/token"))] ++ steps 3 3 300 ++
  [Arrive (SaveProvider (Ok "root") 0 (renamed "github" "https://other.test/token"))] ++ steps 4 3 300 ++ steps 2 5 300.

Lemma stale_provider_binds_elsewhere :
  let s := sso (serve_all None overtaken (start sample_mail)) in
  auth_provider_identity_count 1 s = 0 /\ auth_provider_identity_count 2 s = 1 /\
  ua_id <$> user_by_external_identity "github" "7" s = Some 1.
Proof. split_and!; vm_compute; reflexivity. Qed.

(** Bob has two identities and no other way in.  He removes one in each of two
    windows: both requests count two identities, and both remove one. *)
Definition identity (id : Z) (subject : string) : Identity.t := {|
  Identity.id := id; Identity.user_id := 1; Identity.provider := "github"; Identity.subject := subject; Identity.email := None;
  Identity.email_verified := false; Identity.created_at := 1; Identity.updated_at := 1;
|}.

Definition two_identities : Server := {|
  sso := {| auth_providers := ∅; next_provider := 1; user_identities := [identity 1 "7"; identity 2 "8"]; next_identity := 3;
            user_auth_flows := ∅; mail := sample_mail |};
  tasks := [];
|}.

Definition window : @HeaderMap AssocHeaders := [("cookie", "mirrorproxy_user_session=t")].

Definition two_windows : list (@SsoOp AssocHeaders sample_identity) :=
  [Arrive (UnlinkIdentity window 1); Arrive (UnlinkIdentity window 2)] ++ steps 0 3 21 ++ steps 1 3 21 ++ steps 0 1 22 ++ steps 1 1 22.

Lemma parallel_unlinks_remove_the_last :
  answer_of <$> tasks (serve_all None two_windows two_identities) = [Some SsoAnswer.NoContent; Some SsoAnswer.NoContent] /\
  length (user_identities (sso (serve_all None two_windows two_identities))) = 0%nat /\
  email_login_available None (sso (serve_all None two_windows two_identities)) = false.
Proof. split_and!; vm_compute; reflexivity. Qed.
End Example.
