(* ===== verification/Pipeline.v ===== *)
(** * The middleware around every handler

    The layers of [main.rs] between the listener and a handler, outermost
    first: [security_headers_middleware], [strip_untrusted_forwarded_headers],
    [csrf_protection_middleware], [user_routing_middleware] and
    [rate_limit_middleware].  A handler is a function of the request and the
    state of the application; a layer answers itself or calls the [next] one.
    Left out are metrics and logs, and the CORS layer of the [tower-http] crate. *)
From S2P Require Import Prelude RustStr Net Headers Url Config TrustedProxy Routes RateLimit Fs Geo Json Quota Traffic Users Requests.
Open Scope string_scope.
Open Scope list_scope.

(** [sys] is the database with the accounting of the requests in flight;
    [db_up] tells whether the database answers; [rejections] counts refused
    requests by reason. *)
Record App : Type := {
  sys : Sys;
  db_up : bool;
  routing_ids : list RoutingId.t;
  limiter : RateLimiter.t;
  policy : IpAccessPolicy;
  geoip : GeoIpService;
  rejections : list string;
}.

Definition with_sys (s : Sys) (app : App) : App := {|
  sys := s; db_up := db_up app; routing_ids := routing_ids app; limiter := limiter app; policy := policy app;
  geoip := geoip app; rejections := rejections app;
|}.

Definition with_limiter (l : RateLimiter.t) (app : App) : App := {|
  sys := sys app; db_up := db_up app; routing_ids := routing_ids app; limiter := l; policy := policy app;
  geoip := geoip app; rejections := rejections app;
|}.

Definition observe_rejection (reason : string) (app : App) : App := {|
  sys := sys app; db_up := db_up app; routing_ids := routing_ids app; limiter := limiter app; policy := policy app;
  geoip := geoip app; rejections := reason :: rejections app;
|}.

(** The clock readings of a request: an [Instant], and the day and month of
    [quota_period] in the configured timezone. *)
Record Clock : Type := { c_instant : Z; c_day : string; c_month : string }.

Definition user_by_routing_id (routing_id : string) (app : App) : result (option UserRoutingContext) unit :=
  if negb (db_up app) then Err tt
  else Ok ((fun p => {| ctx_user_id := p.1; ctx_routing_id := p.2 |}) <$>
           find_by_routing_id routing_id (routing_ids app) (accounts (db (sys app)))).

Section Pipeline.
Context `{HeaderApi} `{UrlApi} `{CsrfApi} (to_uppercase : string -> string).

Record Response : Type := { rs_status : Z; rs_headers : HeaderMap; rs_body : Value }.

Definition Handler : Type := Request -> App -> Response * App.

(** [HeaderValue::from_static] of a constant. *)
Definition set_static (name value : string) (h : HeaderMap) : HeaderMap :=
  match h_from_str value with Some v => h_insert name v h | None => h end.

(** [(status, Json(json!({..}))).into_response()]. *)
Definition json_response (status : Z) (extra : list (string * string)) (fields : list (string * Value)) : Response := {|
  rs_status := status;
  rs_headers := fold_left (fun h e => set_static e.1 e.2 h) extra (set_static "content-type" "application/json" h_empty);
  rs_body := Object fields;
|}.

Definition error_response (status : Z) (error : string) : Response := json_response status [] [("error", Str error)].

Definition internal_error_response : Response := error_response 500 "internal server error".
Definition bad_request_response (error : string) : Response := error_response 400 error.
Definition unknown_user_subdomain_response : Response := error_response 404 "user subdomain is unavailable".

(** ** Forwarding headers of strangers *)

Definition trusted_peer (config : Config.t) (request : Request) : bool :=
  match rq_peer request with
  | Some peer => is_trusted_proxy (Config.trusted_proxies config) peer
  | None => false
  end.

Definition FORWARDED : list string := ["x-forwarded-host"; "x-forwarded-proto"; "x-forwarded-for"; "x-real-ip"].

Definition diagnostics (config : Config.t) (request : Request) : ConnectionDiagnostics := {|
  cd_peer_ip := rq_peer request;
  cd_trusted_proxy := trusted_peer config request;
  cd_forwarded_https := match forwarded_header_value (rq_headers request) "x-forwarded-proto" with
                        | Some scheme => eq_ignore_ascii_case scheme "https"
                        | None => false
                        end;
  cd_effective_https := request_uses_https request config;
|}.

Definition strip_untrusted_forwarded_headers (config : Config.t) (next : Handler) : Handler := fun request app =>
  let request := with_diagnostics (Some (diagnostics config request)) request in
  if negb (trusted_peer config request)
  then next (with_headers (fold_left (fun h name => h_remove name h) FORWARDED (rq_headers request)) request) app
  else next request app.

(** ** Cross-site requests *)

Definition csrf_protection_middleware (next : Handler) : Handler := fun request app =>
  if csrf_passes request then next request app
  else (json_response 403 [] [("error", Str "invalid CSRF proof"); ("code", Str "csrf_invalid")], app).

(** ** Hosts of users *)

Definition user_routing_middleware (config : Config.t) (next : Handler) : Handler := fun request app =>
  let base_domain := UserAccessConfig.base_domain (Config.user_access config) in
  if str_is_empty base_domain then next request app
  else match request_host (rq_headers request) with
  | None => (bad_request_response "a valid Host header is required", app)
  | Some host =>
      let path := rq_path request in
      if host =? base_domain then
        if (UserAccessConfig.mode (Config.user_access config) =? "subdomain_required") && is_proxy_path path
        then (error_response 403 "package proxy requests require an assigned user subdomain", app)
        else next request app
      else match strip_suffix ("." +:+ base_domain) host with
      | None => (error_response 421 "unrecognized host", app)
      | Some label =>
          if str_is_empty label || contains_char "." label || is_reserved_user_subdomain label
             || is_user_control_path path
          then (unknown_user_subdomain_response, app)
          else match user_by_routing_id label app with
               | Ok (Some identity) => next (with_user identity request) app
               | Ok None => (unknown_user_subdomain_response, app)
               | Err _ => (internal_error_response, app)
               end
      end
  end.

(** ** Limits *)

Definition resolve_client_ip (config : Config.t) (request : Request) : IpAddr :=
  let peer := match rq_peer request with Some ip => ip | None => V4 0 end in
  resolve_client_ip_from peer (rq_headers request) (Config.trusted_proxies config).

Definition show_int (n : Z) : string := if (n <? 0)%Z then "-" +:+ show_uint (- n) else show_uint n.

Definition rate_limit_key (config : Config.t) (request : Request) : string :=
  match rq_user request with
  | Some context => "user:" +:+ show_int (ctx_user_id context)
  | None => "ip:" +:+ show_ip (resolve_client_ip config request)
  end.

Definition quota_rejection (config : Config.t) (scope : string) (app : App) : Response * App :=
  let '(status, retry_after) :=
    if QuotaConfig.on_exceeded (Config.quota config) =? "throttle" then (429, "60")%Z else (503, "3600")%Z in
  (json_response status [("retry-after", retry_after)]
     [("error", Str "monthly traffic quota exceeded"); ("scope", Str scope)],
   observe_rejection "monthly_quota" app).

Definition access_reason (d : AccessDecision) : option string :=
  match d with
  | Allow => None
  | DenyRule => Some "ip_deny_rule"
  | AllowlistRequired => Some "ip_allowlist_required"
  end.

(** [saturating_mul(1024 * 1024 * 1024)]. *)
Definition gib (gb : Z) : Z := sat_mul_u64 gb (1024 * 1024 * 1024).

Definition global_limit (config : Config.t) : option Z :=
  if QuotaConfig.enabled (Config.quota config) then Some (gib (QuotaConfig.monthly_gb (Config.quota config))) else None.

Definition default_user_limit (config : Config.t) : option Z :=
  gib <$> QuotaConfig.default_user_monthly_gb (Config.quota config).

Definition reservation_bytes (config : Config.t) : Z := sat_mul_u64 QUOTA_RESERVATION_BYTES (multiplier config).

(** The guard of a request, before it reserves anything. *)
Definition request_traffic (config : Config.t) (clock : Clock) (target_code : string) (request : Request) (app : App) :
    ProxyTraffic :=
  new (c_day clock) (c_month clock) target_code (rq_method request) (rq_path request) (multiplier config)
    (ctx_user_id <$> rq_user request) (QuotaConfig.request_event_retention_days (Config.quota config))
    (geo_lookup to_uppercase (geoip app) (resolve_client_ip config request)).

(** The admission of one request with its guard, the handler, and the guard's
    move into the response body. *)
Definition serve_tracked (guard : ProxyTraffic) (d : Db) (next : Handler) (request : Request) (app : App) :
    Response * App :=
  let s := sys app in
  let i := length (guards s) in
  let s := {| db := d; guards := guards s ++ [guard]; tasks := tasks s; lost := lost s; settled := settled s;
              admissions := S (admissions s) |} in
  let '(response, app) := next request (with_sys s app) in
  (response, with_sys (advance i (track_proxy_response (rs_status response)) (sys app)) app).

Definition rate_limit_middleware (config : Config.t) (clock : Clock) (next : Handler) :
    Handler := fun request app =>
  match proxy_target_for_path (rq_path request) with
  | None => next request app
  | Some target_code =>
      let '(admitted, app) :=
        if RateLimitConfig.enabled (Config.rate_limit config)
        then let '(ok, l) := RateLimiter.check (rate_limit_key config request)
                               (RateLimitConfig.requests_per_minute (Config.rate_limit config)) (c_instant clock)
                               (limiter app) in
             (ok, with_limiter l app)
        else (true, app) in
      if negb admitted then
        (json_response 429 [("retry-after", "60")] [("error", Str "rate limit exceeded")],
         observe_rejection "rate_limit" app)
      else
        let client_ip := resolve_client_ip config request in
        match access_reason (decide_access (policy app) client_ip) with
        | Some reason => (error_response 403 "access denied by IP policy", observe_rejection reason app)
        | None =>
            let user := ctx_user_id <$> rq_user request in
            let allowed := match user with
                           | None => Ok true
                           | Some id => if negb (db_up app) then Err tt
                                        else Ok (user_target_allowed id target_code (accounts (db (sys app))))
                           end in
            match allowed with
            | Err _ => (internal_error_response, app)
            | Ok false =>
                (error_response 403 "this mirror target is not enabled for the user's team",
                 observe_rejection "team_target_policy" app)
            | Ok true =>
                if negb (db_up app) && (bool_decide (is_Some user) || bool_decide (is_Some (global_limit config)))
                then quota_rejection config "internal" app
                else match reserve (global_limit config) (default_user_limit config) (reservation_bytes config)
                             (request_traffic config clock target_code request app) (db (sys app)) with
                | (Err (QuotaExceeded scope), d) =>
                    let app := with_sys (set_db d (sys app)) app in
                    let app := if (scope =? "global") && bool_decide (is_Some user)
                               then with_sys (set_db (mark_month_quota_exceeded (c_month clock) (db (sys app))) (sys app)) app
                               else app in
                    quota_rejection config scope app
                | (Err Settled, _) => quota_rejection config "internal" app
                | (Ok guard, d) => serve_tracked guard d next request app
                end
            end
        end
  end.

(** ** Transport *)

Definition CONTENT_SECURITY_POLICY : string := "default-src 'none'; base-uri 'none'; connect-src 'self'; font-src 'self'; form-action 'self'; frame-ancestors 'none'; img-src 'self' data: https:; manifest-src 'self'; script-src 'self'; style-src 'self' 'unsafe-inline'".
Definition PERMISSIONS_POLICY : string := "accelerometer=(), ambient-light-sensor=(), autoplay=(), camera=(), display-capture=(), encrypted-media=(), fullscreen=(self), geolocation=(), gyroscope=(), magnetometer=(), microphone=(), midi=(), payment=(), picture-in-picture=(), publickey-credentials-get=(self), screen-wake-lock=(), usb=()".
Definition STRICT_TRANSPORT_SECURITY : string := "max-age=63072000".

Definition SECURITY_HEADERS : list (string * string) := [
  ("content-security-policy", CONTENT_SECURITY_POLICY); ("x-frame-options", "DENY");
  ("x-content-type-options", "nosniff"); ("referrer-policy", "strict-origin-when-cross-origin");
  ("permissions-policy", PERMISSIONS_POLICY)].

(** [None] is a panic: a cookie that is no header value. *)
Definition security_headers_middleware (config : Config.t) (next : Handler) (request : Request) (app : App) :
    option (Response * App) :=
  let secure_transport := request_uses_https request config in
  match normalize_browser_session_cookies secure_transport (rq_headers request) with
  | None => None
  | Some h =>
      let '(response, app) := next (with_headers h request) app in
      match (if secure_transport then Some (rs_headers response)
             else adapt_http_browser_cookies (rs_headers response)) with
      | None => None
      | Some h =>
          let h := fold_left (fun h e => set_static e.1 e.2 h) SECURITY_HEADERS h in
          let h := if secure_transport then set_static "strict-transport-security" STRICT_TRANSPORT_SECURITY h
                   else h_remove "strict-transport-security" h in
          Some ({| rs_status := rs_status response; rs_headers := h; rs_body := rs_body response |}, app)
      end
  end.

(** The stack around the router. *)
Definition application (config : Config.t) (clock : Clock) (router : Handler) :
    Request -> App -> option (Response * App) :=
  security_headers_middleware config
    (strip_untrusted_forwarded_headers config
       (csrf_protection_middleware
          (user_routing_middleware config
             (rate_limit_middleware config clock router)))).
End Pipeline.

(** ** Requests that read alike

    A header map is read through [get] and [get_all]: two maps with the same
    values under every name are the same to a handler. *)

Definition header_equiv `{HeaderApi} (h h' : HeaderMap) : Prop := forall n, h_get_all h n = h_get_all h' n.

#[export] Instance header_equiv_equivalence `{HeaderApi} : Equivalence header_equiv.
Proof. split; [by intros h n|by intros h h' Hh n|intros h h' h'' H1 H2 n; by rewrite H1]. Qed.

(** [r] with the headers and the diagnostics of [r']. *)
Definition read_as `{HeaderApi} (r r' : Request) : Request :=
  with_diagnostics (rq_diagnostics r') (with_headers (rq_headers r') r).

(** Equal but for the headers, which read alike, and the diagnostics, which
    no decision reads. *)
Definition request_equiv `{HeaderApi} (r r' : Request) : Prop :=
  header_equiv (rq_headers r) (rq_headers r') /\ read_as r r' = r'.

#[export] Instance request_equiv_equivalence `{HeaderApi} : Equivalence request_equiv.
Proof.
  split.
  - intros r. split; [done|]. by destruct r.
  - intros r r' [Hh Hr]. split; [by symmetry|]. rewrite <- Hr. by destruct r.
  - intros r r' r'' [H1 E1] [H2 E2]. split; [by rewrite H1|]. rewrite <- E2, <- E1. by destruct r.
Qed.

Section Equiv.
Context `{HeaderApi} `{UrlApi} `{CsrfApi}.

#[export] Instance h_get_all_proper : Proper (header_equiv ==> eq ==> eq) h_get_all.
Proof. intros h h' Hh n ? <-. apply Hh. Qed.

#[export] Instance h_get_str_proper : Proper (header_equiv ==> eq ==> eq) h_get_str.
Proof. intros h h' Hh n ? <-. unfold h_get_str, h_get. by rewrite Hh. Qed.

#[export] Instance header_value_proper : Proper (header_equiv ==> eq ==> eq) header_value.
Proof. intros h h' Hh n ? <-. unfold header_value. by rewrite Hh. Qed.

#[export] Instance forwarded_header_value_proper : Proper (header_equiv ==> eq ==> eq) forwarded_header_value.
Proof. intros h h' Hh n ? <-. unfold forwarded_header_value. by rewrite Hh. Qed.

#[export] Instance cookie_value_proper : Proper (header_equiv ==> eq ==> eq) cookie_value.
Proof. intros h h' Hh n ? <-. unfold cookie_value. by rewrite Hh. Qed.

(** The instances as equations: rewriting does not go under a [match]. *)
Ltac read_alike Hh :=
  rewrite ?(fun n => h_get_str_proper _ _ Hh n n eq_refl), ?(fun n => header_value_proper _ _ Hh n n eq_refl),
    ?(fun n => forwarded_header_value_proper _ _ Hh n n eq_refl), ?(fun n => cookie_value_proper _ _ Hh n n eq_refl).

#[export] Instance authority_header_proper : Proper (header_equiv ==> eq) authority_header.
Proof. intros h h' Hh. unfold authority_header. by read_alike Hh. Qed.

#[export] Instance request_host_proper : Proper (header_equiv ==> eq) request_host.
Proof. intros h h' Hh. unfold request_host. by rewrite (authority_header_proper _ _ Hh). Qed.

#[export] Instance request_has_same_origin_proper : Proper (header_equiv ==> eq) request_has_same_origin.
Proof.
  intros h h' Hh. unfold request_has_same_origin. read_alike Hh. by rewrite (authority_header_proper _ _ Hh).
Qed.

#[export] Instance valid_csrf_header_proper : Proper (header_equiv ==> eq ==> eq) valid_csrf_header.
Proof. intros h h' Hh t ? <-. unfold valid_csrf_header. by read_alike Hh. Qed.

#[export] Instance csrf_passes_proper : Proper (request_equiv ==> eq) csrf_passes.
Proof.
  intros r r' [Hh Hr]. rewrite <- Hr. unfold csrf_passes, guarded_session. simpl. read_alike Hh.
  rewrite (request_has_same_origin_proper _ _ Hh).
  case_bool; [done|]. destruct (if _ && _ then _ else _) as [t|]; [|done].
  by rewrite (valid_csrf_header_proper _ _ Hh t t eq_refl).
Qed.

#[export] Instance resolve_client_ip_proper config : Proper (request_equiv ==> eq) (resolve_client_ip config).
Proof.
  intros r r' [Hh Hr]. rewrite <- Hr. unfold resolve_client_ip, resolve_client_ip_from. simpl. by read_alike Hh.
Qed.

#[export] Instance rate_limit_key_proper config : Proper (request_equiv ==> eq) (rate_limit_key config).
Proof.
  intros r r' Hr. unfold rate_limit_key. rewrite (resolve_client_ip_proper _ _ _ Hr).
  destruct Hr as [_ Hr]. by rewrite <- Hr.
Qed.
End Equiv.

(** ** Handlers that read requests alike *)

Section Related.
Context `{HeaderLaws} `{UrlApi} `{CsrfApi} (to_uppercase : string -> string) (config : Config.t) (clock : Clock).

Lemma request_equiv_eq (r r' : Request) : request_equiv r r' -> r' = read_as r r'.
Proof. by intros [_ ->]. Qed.

(** Two requests that read alike, with their diagnostics. *)
Definition handed (d d' : option ConnectionDiagnostics) (q q' : Request) : Prop :=
  request_equiv q q' /\ rq_diagnostics q = d /\ rq_diagnostics q' = d'.

(** Two handlers that do the same with such requests. *)
Variables d d' : option ConnectionDiagnostics.

Definition related (next next' : Handler) : Prop :=
  forall q q' app, handed d d' q q' -> next q app = next' q' app.

Lemma csrf_related (next next' : Handler) :
  related next next' -> related (csrf_protection_middleware next) (csrf_protection_middleware next').
Proof.
  intros Hn r r' app Hr. unfold csrf_protection_middleware. rewrite (csrf_passes_proper _ _ (proj1 Hr)).
  by rewrite (Hn r r' app Hr).
Qed.

Lemma with_user_handed (user : UserRoutingContext) (r r' : Request) :
  handed d d' r r' -> handed d d' (with_user user r) (with_user user r').
Proof. intros ([Hh Hr] & Hd & Hd'). split_and!; [split; [done|by rewrite <- Hr]|exact Hd|exact Hd']. Qed.

Lemma routing_related (next next' : Handler) :
  related next next' -> related (user_routing_middleware config next) (user_routing_middleware config next').
Proof.
  intros Hn r r' app Hr. unfold user_routing_middleware. rewrite (Hn r r' app Hr).
  rewrite (request_host_proper _ _ (proj1 (proj1 Hr))).
  assert (rq_path r = rq_path r') as -> by (by rewrite (request_equiv_eq r r' (proj1 Hr))).
  case_bool; [done|]. destruct (request_host _); [|done]. case_bool; [done|]. destruct (strip_suffix _ _); [|done].
  case_bool; [done|]. destruct (user_by_routing_id _ _) as [[user|]|]; [|done|done].
  apply Hn. by apply with_user_handed.
Qed.

Lemma serve_tracked_related (next next' : Handler) guard db0 r r' app :
  related next next' -> handed d d' r r' -> serve_tracked guard db0 next r app = serve_tracked guard db0 next' r' app.
Proof. intros Hn Hr. unfold serve_tracked. cbv zeta. by rewrite (Hn r r' _ Hr). Qed.

Lemma request_traffic_equiv (target : string) (r r' : Request) (app : App) :
  request_equiv r r' ->
  request_traffic to_uppercase config clock target r app = request_traffic to_uppercase config clock target r' app.
Proof.
  intros Hr. unfold request_traffic. rewrite (resolve_client_ip_proper config _ _ Hr).
  by rewrite (request_equiv_eq r r' Hr).
Qed.

Lemma rate_limit_related (next next' : Handler) :
  related next next' ->
  related (rate_limit_middleware to_uppercase config clock next) (rate_limit_middleware to_uppercase config clock next').
Proof.
  intros Hn r r' app Hr. pose proof (proj1 Hr) as He. unfold rate_limit_middleware.
  rewrite (Hn r r' app Hr), (rate_limit_key_proper config _ _ He), (resolve_client_ip_proper config _ _ He).
  assert (rq_path r = rq_path r' /\ rq_user r = rq_user r') as (-> & ->) by (by rewrite (request_equiv_eq r r' He)).
  destruct (proxy_target_for_path _); [|done]. cbv zeta.
  match goal with |- (let '(_, _) := ?x in _) = _ => destruct x as [admitted app'] end.
  case_bool; [done|]. destruct (access_reason _); [done|].
  match goal with |- match ?x with Ok _ => _ | Err _ => _ end = _ => destruct x as [[|]|] end; [|done|done].
  case_bool; [done|]. rewrite (request_traffic_equiv _ r r' app' He).
  destruct (reserve _ _ _ _ _) as [[guard|[]] db0]; [|done|done].
  by apply serve_tracked_related.
Qed.
End Related.

Section Respects.
Context `{HeaderLaws} `{UrlApi} `{CsrfApi} (to_uppercase : string -> string) (config : Config.t) (clock : Clock).

(** Requests that differ in nothing but the forwarding headers. *)
Definition same_but_forwarded (r r' : Request) : Prop :=
  with_headers (rq_headers r') r = r' /\
  forall n, to_ascii_lowercase n ∉ ["x-forwarded-host"; "x-forwarded-proto"; "x-forwarded-for"; "x-real-ip"] ->
    h_get_all (rq_headers r) n = h_get_all (rq_headers r') n.

Lemma strip_get_all (h : HeaderMap) (n : string) :
  h_get_all (fold_left (fun h name => h_remove name h) FORWARDED h) n =
  if decide (to_ascii_lowercase n ∈ FORWARDED) then [] else h_get_all h n.
Proof.
  unfold FORWARDED. cbn [fold_left]. rewrite !h_get_all_remove.
  cbn [to_ascii_lowercase]. repeat case_decide; try done; set_solver.
Qed.

Lemma strip_strangers (r r' : Request) (next next' : Handler) app :
  trusted_peer config r = false -> same_but_forwarded r r' ->
  related (Some (diagnostics config r)) (Some (diagnostics config r')) next next' ->
  strip_untrusted_forwarded_headers config next r app = strip_untrusted_forwarded_headers config next' r' app.
Proof.
  intros Ht [Hr Hh] Hn. unfold strip_untrusted_forwarded_headers.
  assert (Ht' : trusted_peer config r' = false) by (by rewrite <- Hr). unfold trusted_peer in *.
  cbn [with_diagnostics rq_peer]. rewrite Ht, Ht'. cbn [negb]. apply Hn. split_and!; [split|done|done].
  - intros n. cbn [with_diagnostics with_headers rq_headers]. rewrite !strip_get_all. case_decide; [done|]. by apply Hh.
  - rewrite <- Hr. by destruct r.
Qed.

Lemma to_lower_cookie : to_ascii_lowercase "cookie" = "cookie".
Proof. reflexivity. Qed.

(** Normalizing the cookies keeps requests the same but for the forwarding headers. *)
Lemma normalize_strangers (secure : bool) (r r' : Request) :
  same_but_forwarded r r' ->
  match normalize_browser_session_cookies secure (rq_headers r),
        normalize_browser_session_cookies secure (rq_headers r') with
  | Some h, Some h' => same_but_forwarded (with_headers h r) (with_headers h' r')
  | None, None => True
  | _, _ => False
  end.
Proof.
  intros [Hr Hh]. unfold normalize_browser_session_cookies.
  assert (h_get_all (rq_headers r) "cookie" = h_get_all (rq_headers r') "cookie") as ->.
  { apply Hh. rewrite to_lower_cookie. unfold FORWARDED. set_solver. }
  cbv zeta. case_bool.
  - split; [by rewrite <- Hr|]. intros n Hn. simpl. rewrite !h_get_all_remove. case_decide; [done|]. by apply Hh.
  - destruct (h_from_str _) as [v|]; simpl; [|done]. split; [by rewrite <- Hr|]. intros n Hn. simpl.
    rewrite !h_get_all_insert, !h_get_all_remove. case_decide; [done|]. by apply Hh.
Qed.

(** The claim to be reached over HTTPS that a request makes in
    [X-Forwarded-Proto]. *)
Definition claims_https (r : Request) : bool :=
  match forwarded_header_value (rq_headers r) "x-forwarded-proto" with
  | Some scheme => eq_ignore_ascii_case scheme "https"
  | None => false
  end.

(** A handler that is told another claim in the diagnostics. *)
Definition told (claim : bool) (next : Handler) : Handler := fun q =>
  next (with_diagnostics ((fun d => {|
    cd_peer_ip := cd_peer_ip d; cd_trusted_proxy := cd_trusted_proxy d; cd_forwarded_https := claim;
    cd_effective_https := cd_effective_https d |}) <$> rq_diagnostics q) q).

(** A handler that reads headers by name: maps with the same values under
    every name are the same to it. *)
Definition reads_by_name (next : Handler) : Prop :=
  forall q h app, header_equiv (rq_headers q) h -> next q app = next (with_headers h q) app.

(** Normalizing the cookies leaves the forwarding headers. *)
Lemma normalize_keeps_claim (secure : bool) (r : Request) (h : HeaderMap) :
  normalize_browser_session_cookies secure (rq_headers r) = Some h ->
  h_get_all h "x-forwarded-proto" = h_get_all (rq_headers r) "x-forwarded-proto".
Proof.
  unfold normalize_browser_session_cookies. cbv zeta. case_bool.
  - intros [= <-]. by rewrite h_get_all_remove, decide_False by done.
  - destruct (h_from_str _) as [v|]; [|done]. intros [= <-].
    by rewrite h_get_all_insert, h_get_all_remove, !decide_False by done.
Qed.

Lemma trusted_peer_headers (h : HeaderMap) (r : Request) : trusted_peer config (with_headers h r) = trusted_peer config r.
Proof. done. Qed.

(** The diagnostics of the requests differ in the claim alone. *)
Lemma diagnostics_strangers (r r' : Request) :
  trusted_peer config r = false -> same_but_forwarded r r' ->
  diagnostics config r' = {| cd_peer_ip := cd_peer_ip (diagnostics config r);
    cd_trusted_proxy := cd_trusted_proxy (diagnostics config r); cd_forwarded_https := claims_https r';
    cd_effective_https := cd_effective_https (diagnostics config r) |}.
Proof.
  intros Ht [Hr _]. unfold diagnostics. cbn. rewrite <- Hr. f_equal. unfold request_uses_https.
  fold (trusted_peer config r) (trusted_peer config (with_headers (rq_headers r') r)).
  by rewrite trusted_peer_headers, Ht.
Qed.

(** Two routers that do the same with the requests the stack hands them give
    the same answers. *)
Lemma application_related (router1 router : Handler) (r r' : Request) (app : App) :
  trusted_peer config r = false -> same_but_forwarded r r' ->
  (forall q q', trusted_peer config q = false -> same_but_forwarded q q' -> claims_https q' = claims_https r' ->
     related (Some (diagnostics config q)) (Some (diagnostics config q')) router1 router) ->
  application to_uppercase config clock router1 r app = application to_uppercase config clock router r' app.
Proof.
  intros Ht Hr Hrel. unfold application, security_headers_middleware.
  assert (Ht' : trusted_peer config r' = false) by (by rewrite <- (proj1 Hr)).
  assert (request_uses_https r config = request_uses_https r' config) as ->.
  { unfold request_uses_https. fold (trusted_peer config r) (trusted_peer config r'). rewrite Ht, Ht'. cbn [andb].
    by rewrite <- (proj1 Hr). }
  pose proof (normalize_strangers (request_uses_https r' config) r r' Hr) as Hnorm.
  pose proof (normalize_keeps_claim (request_uses_https r' config) r') as Hc.
  destruct (normalize_browser_session_cookies _ (rq_headers r)) as [h|],
    (normalize_browser_session_cookies _ (rq_headers r')) as [h'|]; [|done..].
  assert (Hclaim : claims_https (with_headers h' r') = claims_https r').
  { unfold claims_https, forwarded_header_value, h_get_str, h_get. cbn [with_headers rq_headers]. by rewrite (Hc h' eq_refl). }
  erewrite (strip_strangers (with_headers h r) (with_headers h' r')); [done|exact Ht|exact Hnorm|].
  by apply csrf_related, routing_related, rate_limit_related, Hrel.
Qed.

(** C8: a client that is no trusted proxy gains nothing through forwarding
    headers. Whatever it puts into [X-Forwarded-Host], [X-Forwarded-Proto],
    [X-Forwarded-For] and [X-Real-IP], the whole stack around any router that
    reads headers by name gives the answer, and leaves the state, of the
    request without them: the limit it counts against, the user it is taken
    for, the cookies it may use and the checks it has to pass are the same.
    One bit reaches the router: the diagnostics the stack attaches say whether
    [X-Forwarded-Proto] claimed HTTPS, next to whether the request really is
    over HTTPS; the answer is the one the unforged request gets from the
    router told that claim.  A router that does not read the diagnostics gives
    the very same answer. *)
Theorem strangers_cannot_forward (router : Handler) (r r' : Request) (app : App) :
  reads_by_name router -> trusted_peer config r = false -> same_but_forwarded r r' ->
  application to_uppercase config clock router r' app =
  application to_uppercase config clock (told (claims_https r') router) r app /\
  ((forall q d a, router (with_diagnostics d q) a = router q a) ->
   application to_uppercase config clock router r' app = application to_uppercase config clock router r app).
Proof.
  intros Hn Ht Hr. split; [|intros Hd]; symmetry; apply application_related; [done|done| |done|done|];
    intros q q' Hq Hs Hc q1 q1' a (He & Hd1 & Hd2).
  - unfold told. rewrite Hd1. cbn [fmap option_fmap option_map].
    rewrite (diagnostics_strangers q q' Hq Hs), Hc in Hd2. cbn in Hd2 |- *. rewrite <- Hd2.
    rewrite (Hn (with_diagnostics (rq_diagnostics q1') q1) (rq_headers q1') a (proj1 He)).
    by rewrite (request_equiv_eq _ _ He) at 3.
  - rewrite (Hn q1 (rq_headers q1') a (proj1 He)), <- (Hd _ (rq_diagnostics q1') a).
    by rewrite (request_equiv_eq _ _ He) at 3.
Qed.
End Respects.

(** ** Which requests reach a handler *)

Section Gate.
Context `{HeaderApi} `{UrlApi} `{CsrfApi} (to_uppercase : string -> string) (config : Config.t) (clock : Clock).

(** Two handlers that do the same with the requests of [P]. *)
Definition agree (P : Request -> Prop) (next next' : Handler) : Prop :=
  forall r app, P r -> next r app = next' r app.

(** A property of path and user only. *)
Definition stable (P : Request -> Prop) : Prop :=
  forall r r', rq_path r = rq_path r' -> rq_user r = rq_user r' -> P r -> P r'.

(** Requests without a user yet, as they come from the connection. *)
Definition fresh (r : Request) : Prop := rq_user r = None.

Lemma rate_limit_agree (P : Request -> Prop) next next' :
  agree P next next' ->
  agree P (rate_limit_middleware to_uppercase config clock next) (rate_limit_middleware to_uppercase config clock next').
Proof.
  intros Ha r app Hp. unfold rate_limit_middleware. rewrite (Ha r app Hp).
  destruct (proxy_target_for_path _); [|done]. cbv zeta.
  match goal with |- (let '(_, _) := ?x in _) = _ => destruct x as [admitted app'] end.
  case_bool; [done|]. destruct (access_reason _); [done|].
  match goal with |- match ?x with Ok _ => _ | Err _ => _ end = _ => destruct x as [[|]|] end; [|done|done].
  case_bool; [done|]. destruct (reserve _ _ _ _ _) as [[guard|[]] d]; [|done|done].
  unfold serve_tracked. cbv zeta. by rewrite (Ha r _ Hp).
Qed.

(** What [user_routing_middleware] lets through in the mode that requires
    subdomains. *)
Definition has_user (r : Request) : Prop := is_proxy_path (rq_path r) = true -> is_Some (rq_user r).

Lemma routing_agree next next' :
  UserAccessConfig.base_domain (Config.user_access config) <> "" ->
  UserAccessConfig.mode (Config.user_access config) = "subdomain_required" ->
  agree has_user next next' ->
  agree (fun _ => True) (user_routing_middleware config next) (user_routing_middleware config next').
Proof.
  intros Hb Hm Ha r app _. unfold user_routing_middleware. rewrite Hm, String.eqb_refl.
  destruct (str_is_empty _) eqn:He.
  { destruct (UserAccessConfig.base_domain _); done. }
  destruct (request_host _) as [host|]; [|done]. case_bool.
  - destruct (is_proxy_path (rq_path r)) eqn:Hp; cbn [andb]; [done|]. apply Ha. unfold has_user. congruence.
  - destruct (strip_suffix _ _); [|done]. case_bool; [done|].
    destruct (user_by_routing_id _ _) as [[user|]|]; [|done|done]. apply Ha. intros _. by eexists.
Qed.

(** A site that requires subdomains serves packages to its users only.
    With [subdomain_required] no request for a package reaches the router
    without the user its host belongs to: two routers that agree on all other
    requests cannot be told apart from outside. *)
Theorem subdomain_requests_have_users (router router' : Handler) (r : Request) (app : App) :
  UserAccessConfig.base_domain (Config.user_access config) <> "" ->
  UserAccessConfig.mode (Config.user_access config) = "subdomain_required" ->
  agree has_user router router' ->
  application to_uppercase config clock router r app = application to_uppercase config clock router' r app.
Proof.
  intros Hb Hm Ha. unfold application, security_headers_middleware.
  destruct (normalize_browser_session_cookies _ _) as [h|]; [|done].
  enough (forall r app,
    csrf_protection_middleware (user_routing_middleware config (rate_limit_middleware to_uppercase config clock router)) r app =
    csrf_protection_middleware (user_routing_middleware config (rate_limit_middleware to_uppercase config clock router')) r app)
    as He by (unfold strip_untrusted_forwarded_headers; by rewrite !He).
  intros r' app'. unfold csrf_protection_middleware. case_bool; [|done].
  by apply routing_agree; [done|done|apply rate_limit_agree|].
Qed.

(** ** The gate in front of the adapters *)

(** A refusal: it is counted under its reason, holds no reservation, and what
    the rows of the accounts say is still what the open reservations and the
    settled requests add up to. *)
Definition refused (app : App) (reason : list string) (app' : App) : Prop :=
  rejections app' = reason ++ rejections app /\ held (sys app') = held (sys app) /\
  forall A S, ledger_tracked (ledger (db (sys app))) A S -> ledger_tracked (ledger (db (sys app'))) A S.

(** The gate refuses with this answer, whatever the adapter is. *)
Definition refuses (r : Request) (app : App) (answer : Response) (reason : list string) : Prop :=
  exists app', refused app reason app' /\
    forall next, rate_limit_middleware to_uppercase config clock next r app = (answer, app').

(** The answer when a quota is full or cannot be read. *)
Definition over_quota (scope : string) : Response :=
  let fields := [("error", Str "monthly traffic quota exceeded"); ("scope", Str scope)] in
  if (QuotaConfig.on_exceeded (Config.quota config) =? "throttle")%string
  then json_response 429 [("retry-after", "60")] fields
  else json_response 503 [("retry-after", "3600")] fields.

(** The request limit is on and used up. *)
Definition limited (r : Request) (app : App) : Prop :=
  RateLimitConfig.enabled (Config.rate_limit config) = true /\
  (RateLimiter.check (rate_limit_key config r) (RateLimitConfig.requests_per_minute (Config.rate_limit config))
     (c_instant clock) (limiter app)).1 = false.

Lemma quota_rejection_refused (scope : string) (app app1 : App) :
  (forall A S, ledger_tracked (ledger (db (sys app))) A S -> ledger_tracked (ledger (db (sys app1))) A S) ->
  held (sys app1) = held (sys app) -> rejections app1 = rejections app ->
  exists app', refused app ["monthly_quota"] app' /\ quota_rejection config scope app1 = (over_quota scope, app').
Proof.
  intros Hd Hh Hr. eexists. unfold quota_rejection, over_quota. destruct (_ =? _); (split; [|reflexivity]);
    split_and!; try done; cbn; by rewrite Hr.
Qed.

(** The quota that is full. *)
Lemma exceeded_refused (scope : string) (user : bool) (app app1 : App) gl dl bytes traffic r d :
  sys app1 = sys app -> rejections app1 = rejections app ->
  record traffic = Some r -> reserved_bytes r = 0%Z -> group_id r = None ->
  reserve gl dl bytes traffic (db (sys app)) = (Err (QuotaExceeded scope), d) ->
  exists app', refused app ["monthly_quota"] app' /\
  quota_rejection config scope
    (let app1 := with_sys (set_db d (sys app1)) app1 in
     if user then with_sys (set_db (mark_month_quota_exceeded (c_month clock) (db (sys app1))) (sys app1)) app1
     else app1) = (over_quota scope, app').
Proof.
  intros Hsys Hrej Hrec Hz Hg Hres. apply quota_rejection_refused.
  - intros A S Ht. eapply reserve_tracked in Hres; [|exact Ht|done..]. cbn in Hres.
    destruct user; cbn -[mark_month_quota_exceeded]; [by apply mark_tracked|done].
  - destruct user; cbn; by rewrite Hsys.
  - by destruct user.
Qed.

(** The first gates, one by one: the state after counting against the limit. *)
Lemma counted_state (r : Request) (app : App) :
  let checked :=
    if RateLimitConfig.enabled (Config.rate_limit config)
    then let '(ok, l) := RateLimiter.check (rate_limit_key config r)
                           (RateLimitConfig.requests_per_minute (Config.rate_limit config)) (c_instant clock)
                           (limiter app) in (ok, with_limiter l app)
    else (true, app) in
  sys checked.2 = sys app /\ policy checked.2 = policy app /\ db_up checked.2 = db_up app /\
  geoip checked.2 = geoip app /\ rejections checked.2 = rejections app /\ (checked.1 = false <-> limited r app).
Proof.
  cbv zeta. unfold limited. destruct (RateLimitConfig.enabled _); [|by split_and!; [..|split; [|intros []]]].
  destruct (RateLimiter.check _ _ _ _) as [ok l]. cbn. by split_and!; [..|split; [|intros []]].
Qed.

(** C10: what each gate in front of the adapters answers, and in which order
    they are asked; the first one that is shut decides.  A request for a
    package over the limit of its user or address gets a 429; then one whose
    address is denied, or not on the list that is required, gets a 403 of the
    address rules; then one of a user gets a 500 when the database is down, and
    a 403 of the team when its target is not enabled; then the quotas answer
    429 or 503, as configured, when a reservation does not fit or cannot be
    made.  Every refusal is counted under its reason, holds no reservation, and
    does not depend on the adapter; with all gates open the adapter gets the
    request with the guard of its reservation. *)
Theorem admission_gate (r : Request) (app : App) (target : string) :
  proxy_target_for_path (rq_path r) = Some target ->
  let access := decide_access (policy app) (resolve_client_ip config r) in
  let allowed u := user_target_allowed (ctx_user_id u) target (accounts (db (sys app))) in
  (limited r app ->
   refuses r app (json_response 429 [("retry-after", "60")] [("error", Str "rate limit exceeded")]) ["rate_limit"]) /\
  (~ limited r app ->
   (access = DenyRule -> refuses r app (error_response 403 "access denied by IP policy") ["ip_deny_rule"]) /\
   (access = AllowlistRequired ->
    refuses r app (error_response 403 "access denied by IP policy") ["ip_allowlist_required"]) /\
   (access = Allow ->
    (forall u, rq_user r = Some u -> db_up app = false -> refuses r app internal_error_response []) /\
    (forall u, rq_user r = Some u -> db_up app = true -> allowed u = false ->
     refuses r app (error_response 403 "this mirror target is not enabled for the user's team") ["team_target_policy"]) /\
    ((forall u, rq_user r = Some u -> db_up app = true /\ allowed u = true) ->
     (db_up app = false -> global_limit config <> None -> refuses r app (over_quota "internal") ["monthly_quota"]) /\
     (db_up app = true \/ global_limit config = None ->
      match reserve (global_limit config) (default_user_limit config) (reservation_bytes config)
              (request_traffic to_uppercase config clock target r app) (db (sys app)) with
      | (Err (QuotaExceeded scope), _) => refuses r app (over_quota scope) ["monthly_quota"]
      | (Err Settled, _) => False
      | (Ok guard, d) =>
          exists app1, sys app1 = sys app /\ rejections app1 = rejections app /\
            forall next, rate_limit_middleware to_uppercase config clock next r app = serve_tracked guard d next r app1
      end)))).
Proof.
  intros Htarget access allowed. pose proof (counted_state r app) as Hc. unfold refuses, rate_limit_middleware.
  rewrite Htarget. cbv zeta in Hc |- *. set (checked := if RateLimitConfig.enabled _ then _ else _) in *.
  destruct checked as [admitted app1]. cbn [fst snd] in Hc. destruct Hc as (Hsys & Hpol & Hup & Hgeo & Hrej & Hlim).
  assert (Hsame : forall reason, refused app [reason] (observe_rejection reason app1))
    by (intros reason; unfold refused; cbn; by rewrite Hsys, Hrej).
  split; [intros Hl|intros Hnl].
  { apply Hlim in Hl as ->. cbn [negb]. by eexists. }
  destruct admitted; [cbn [negb]|by destruct Hnl; apply Hlim].
  unfold request_traffic. rewrite Hpol, Hup, Hsys, Hgeo. fold access.
  split_and!; [intros ->; by eexists|intros ->; by eexists|]. intros ->. cbn [access_reason].
  split_and!.
  - intros u -> ->. exists app1. split; [|done]. unfold refused. by rewrite Hsys, Hrej.
  - intros u -> -> Ha. cbn [fmap option_fmap option_map negb]. fold (allowed u). rewrite Ha. by eexists.
  - intros Hopen.
    assert (Hteam : match ctx_user_id <$> rq_user r with
                    | Some id => if negb (db_up app) then Err tt else Ok (user_target_allowed id target (accounts (db (sys app))))
                    | None => Ok true end = Ok true).
    { destruct (rq_user r) as [u|]; [|done]. destruct (Hopen u eq_refl) as [-> Ha]. cbn. by rewrite <- Ha. }
    rewrite Hteam. split.
    + intros Hdown Hg. rewrite Hdown. cbn [negb andb]. rewrite (bool_decide_eq_true_2 (is_Some (global_limit config)))
        by by apply not_eq_None_Some. rewrite orb_true_r.
      destruct (quota_rejection_refused "internal" app app1) as (app2 & Hr & Hq); [by rewrite Hsys..|done|].
      by exists app2.
    + intros Hup2. assert (negb (db_up app) && (bool_decide (is_Some (ctx_user_id <$> rq_user r))
        || bool_decide (is_Some (global_limit config))) = false) as ->.
      { destruct (db_up app) eqn:Hdb; [done|]. destruct Hup2 as [?| ->]; [done|].
        destruct (rq_user r) as [u|]; [by destruct (Hopen u eq_refl)|done]. }
      destruct (reserve _ _ _ _ _) as [[guard|[scope|]] d] eqn:Hres.
      * by exists app1.
      * match goal with |- context [quota_rejection config scope (if ?b then _ else _)] =>
          edestruct (exceeded_refused scope b app app1) as (app2 & Hr & Hq);
            [exact Hsys|exact Hrej| | | |exact Hres|]; [reflexivity..|] end.
        exists app2. split; [done|]. intros _. cbv zeta in Hq. rewrite Hsys in Hq. exact Hq.
      * revert Hres. unfold reserve, new. cbn. repeat case_match; congruence.
Qed.
End Gate.

(** ** The stack as a user of the accounting *)

Section Refinement.
Context `{HeaderApi} `{UrlApi} `{CsrfApi} (to_uppercase : string -> string) (config : Config.t) (clock : Clock).

(** What a handler may do to the accounting: steps of the process of
    [Traffic]. *)
Definition accounted (next : Handler) : Prop := forall r app,
  exists events, Forall valid events /\ sys (next r app).2 = run events (sys app).

Lemma run_app (l k : list Event) (st : Sys) : run (l ++ k) st = run k (run l st).
Proof. apply fold_left_app. Qed.

Lemma csrf_accounted (next : Handler) : accounted next -> accounted (csrf_protection_middleware next).
Proof. intros Hn r app. unfold csrf_protection_middleware. case_bool; [apply Hn|by exists []]. Qed.

Lemma strip_accounted (next : Handler) : accounted next -> accounted (strip_untrusted_forwarded_headers config next).
Proof. intros Hn r app. unfold strip_untrusted_forwarded_headers. case_bool; apply Hn. Qed.

Lemma routing_accounted (next : Handler) : accounted next -> accounted (user_routing_middleware config next).
Proof.
  intros Hn r app. unfold user_routing_middleware. case_bool; [apply Hn|].
  destruct (request_host _); [|by exists []]. case_bool; [case_bool; [by exists []|apply Hn]|].
  destruct (strip_suffix _ _); [|by exists []]. case_bool; [by exists []|].
  destruct (user_by_routing_id _ _) as [[user|]|]; [apply Hn|by exists []..].
Qed.

Lemma reservation_bytes_nonneg : (0 <= reservation_bytes config)%Z.
Proof.
  unfold reservation_bytes, multiplier, QUOTA_RESERVATION_BYTES, sat_mul_u64, U64_MAX.
  destruct (QuotaConfig.bidirectional_accounting _); lia.
Qed.

(** The admission event of a request. *)
Definition admission (target : string) (r : Request) (app : App) : Event :=
  Admit (c_day clock) (c_month clock) target (rq_method r) (rq_path r) (multiplier config)
    (ctx_user_id <$> rq_user r) (QuotaConfig.request_event_retention_days (Config.quota config))
    (geo_lookup to_uppercase (geoip app) (resolve_client_ip config r)) (global_limit config)
    (default_user_limit config) (reservation_bytes config).

Lemma serve_tracked_accounted (next : Handler) target guard d r app app0 :
  accounted next -> sys app = sys app0 ->
  reserve (global_limit config) (default_user_limit config) (reservation_bytes config)
    (request_traffic to_uppercase config clock target r app0) (db (sys app0)) = (Ok guard, d) ->
  exists events, Forall valid events /\ sys (serve_tracked guard d next r app).2 = run events (sys app0).
Proof.
  intros Hn Hsys Hres. unfold serve_tracked. cbv zeta. rewrite Hsys.
  match goal with |- context [next r (with_sys ?s app)] => remember s as s1 eqn:Hs1 end.
  destruct (Hn r (with_sys s1 app)) as (evs & Hv & Hs).
  destruct (next r (with_sys s1 app)) as [response app1]. cbn [snd sys with_sys] in *.
  exists (admission target r app0 :: evs ++ [Respond (length (guards (sys app0))) (rs_status response)]). split.
  - constructor; [apply reservation_bytes_nonneg|]. apply Forall_app. split; [done|]. by apply Forall_singleton.
  - assert (Hstep : step (sys app0) (admission target r app0) = s1).
    { unfold step, admission. unfold request_traffic in Hres. by rewrite Hres, Hs1. }
    change (admission target r app0 :: evs ++ _) with ([admission target r app0] ++ evs ++
      [Respond (length (guards (sys app0))) (rs_status response)]).
    rewrite !run_app. cbn [run fold_left]. rewrite Hstep, Hs. reflexivity.
Qed.

Lemma rate_limit_accounted (next : Handler) :
  accounted next -> accounted (rate_limit_middleware to_uppercase config clock next).
Proof.
  intros Hn r app. unfold rate_limit_middleware. destruct (proxy_target_for_path (rq_path r)) as [target|]; [|apply Hn].
  cbv zeta. set (checked := if RateLimitConfig.enabled _ then _ else _).
  assert (Hsys : sys checked.2 = sys app).
  { unfold checked. case_bool; [|done]. by destruct (RateLimiter.check _ _ _ _). }
  destruct checked as [admitted app1]. cbn [snd] in Hsys. rewrite <- Hsys.
  destruct admitted; cbn [negb]; [|by exists []]. destruct (access_reason _); [by exists []|].
  match goal with |- context [match ?x with Ok _ => _ | Err _ => _ end] => destruct x as [[|]|] end; [|by exists []..].
  assert (Hquota : forall scope app2 evs, Forall valid evs -> sys app2 = run evs (sys app1) ->
    exists events, Forall valid events /\ sys (quota_rejection config scope app2).2 = run events (sys app1)).
  { intros scope app2 evs Hv Hs. exists evs. split; [done|]. unfold quota_rejection. by destruct (_ =? _). }
  case_bool; [by apply (Hquota _ _ [])|].
  destruct (reserve _ _ _ _ _) as [[guard|[scope|]] d] eqn:Hres.
  - by eapply serve_tracked_accounted.
  - assert (Hstep : step (sys app1) (admission target r app1) = set_db d (sys app1)).
    { unfold step, admission. unfold request_traffic in Hres. by rewrite Hres. }
    case_bool.
    + apply (Hquota _ _ [admission target r app1; MarkExceeded (c_month clock)]).
      * repeat constructor. apply reservation_bytes_nonneg.
      * cbn [run fold_left]. by rewrite Hstep.
    + apply (Hquota _ _ [admission target r app1]).
      * repeat constructor. apply reservation_bytes_nonneg.
      * cbn [run fold_left]. by rewrite Hstep.
  - by apply (Hquota _ _ []).
Qed.

(** C40: serving a request is a run of the accounting process. Whatever a
    request is and whatever the router does with it within the process, what
    the stack leaves in the ledger, in the guards and in the settlement tasks
    is what some sequence of admissions, responses and quota marks leaves, so
    everything proved about such sequences holds of the running server. *)
Theorem requests_refine_accounting (router : Handler) (r : Request) (app app' : App) (response : Response) (a : Accounts) :
  accounted router ->
  application to_uppercase config clock router r app = Some (response, app') ->
  (exists events, Forall valid events /\ sys app = run events (init a)) ->
  exists events, Forall valid events /\ sys app' = run events (init a).
Proof.
  intros Hr. unfold application, security_headers_middleware.
  destruct (normalize_browser_session_cookies _ _) as [h|]; [|done].
  assert (Ha : accounted (strip_untrusted_forwarded_headers config (csrf_protection_middleware
      (user_routing_middleware config (rate_limit_middleware to_uppercase config clock router))))).
  { by apply strip_accounted, csrf_accounted, routing_accounted, rate_limit_accounted. }
  destruct (Ha (with_headers h r) app) as (evs & Hv & Hs).
  destruct (strip_untrusted_forwarded_headers _ _ _ _) as [resp app1]. cbn [snd] in Hs. cbv zeta.
  destruct (if request_uses_https _ _ then _ else _) as [h'|]; [|done]. intros [= <- <-] (evs0 & Hv0 & Hs0).
  exists (evs0 ++ evs). split; [by apply Forall_app|]. by rewrite Hs, Hs0, run_app.
Qed.
End Refinement.

(** ** Witnesses *)

(** A code in place of HMAC, hexadecimal in place of [hex]: enough to tell
    tokens apart. *)
#[export] Instance SampleCsrf : CsrfApi := {|
  hmac_sha256 key message := key +:+ "/" +:+ message;
  hex_encode s := "x" +:+ s;
  hex_decode s := strip_prefix "x" s;
  authority_parse s :=
    match split_once ":" s with
    | Some (host, port) => (fun p => (host, Some p)) <$> parse_uint U16_MAX port
    | None => if str_is_empty s then None else Some (s, None)
    end;
|}.

#[export] Instance SampleCsrf_laws : CsrfLaws.
Proof. split. intros s. apply strip_prefix_app. Qed.

Definition sample_app : App := {|
  sys := init sample_accounts; db_up := true;
  routing_ids := [RoutingId.Build_t 7 1 "k3x9" true 0 None];
  limiter := RateLimiter.new; policy := {| allow := []; deny := [] |};
  geoip := {| enabled := false; ipv4_path := ""; ipv6_path := ""; readers := {| r_ipv4 := None; r_ipv6 := None; ipv4_error := None; ipv6_error := None |} |};
  rejections := [];
|}.

Definition sample_clock : Clock := {| c_instant := 0; c_day := "2026-07-01"; c_month := "2026-07" |}.

(** 203.0.113.9, which is no trusted proxy, asks for a package. *)
Definition sample_request (headers : list (string * string)) : @Request AssocHeaders := {|
  rq_method := "GET"; rq_scheme := None; rq_path := "/npm/left-pad"; rq_query := None; rq_headers := headers;
  rq_peer := Some (V4 3405803785); rq_https_transport := false; rq_user := None; rq_diagnostics := None;
|}.

Definition ok_router : @Handler AssocHeaders := fun r app => (error_response 200 "ok", app).

Definition honest : @Request AssocHeaders := sample_request [("host", "mirror.test")].
Definition forged : @Request AssocHeaders :=
  sample_request [("host", "mirror.test"); ("x-forwarded-for", "127.0.0.1"); ("x-forwarded-host", "k3x9.mirror.test");
    ("x-forwarded-proto", "https")].

Lemma forged_same : @same_but_forwarded AssocHeaders honest forged.
Proof.
  split; [done|]. intros n Hn. unfold h_get_all. cbn [h_iter AssocHeaders honest forged sample_request rq_headers].
  unfold assoc_iter. rewrite !fmap_cons, !filter_cons. simpl.
  rewrite (decide_False (P := "x-forwarded-for" = _)), (decide_False (P := "x-forwarded-host" = _)),
    (decide_False (P := "x-forwarded-proto" = _)); [done| | |];
    intros E; apply Hn; rewrite <- E; unfold FORWARDED; set_solver.
Qed.

(** A handler that answers with the claim, as the page of the administrator
    about his connection does. *)
Definition connection_router : @Handler AssocHeaders := fun r app =>
  (error_response 200 (match rq_diagnostics r with
                       | Some d => if cd_forwarded_https d then "https was claimed" else "no claim"
                       | None => "no diagnostics"
                       end), app).

Lemma strangers_cannot_forward_witness :
  @application AssocHeaders SimpleUrlApi SampleCsrf id Config.default sample_clock connection_router forged sample_app =
  @application AssocHeaders SimpleUrlApi SampleCsrf id Config.default sample_clock (told true connection_router)
    honest sample_app /\
  @application AssocHeaders SimpleUrlApi SampleCsrf id Config.default sample_clock ok_router forged sample_app =
  @application AssocHeaders SimpleUrlApi SampleCsrf id Config.default sample_clock ok_router honest sample_app.
Proof.
  split.
  - refine (proj1 (@strangers_cannot_forward AssocHeaders AssocHeaders_laws SimpleUrlApi SampleCsrf id Config.default
      sample_clock connection_router honest forged sample_app _ _ forged_same)); [done|vm_compute; reflexivity].
  - refine (proj2 (@strangers_cannot_forward AssocHeaders AssocHeaders_laws SimpleUrlApi SampleCsrf id Config.default
      sample_clock ok_router honest forged sample_app _ _ forged_same) _); [done|vm_compute; reflexivity|done].
Defined.

Definition subdomains : Config.t := Config.sample QuotaConfig.default {|
  UserAccessConfig.base_domain := "mirror.test"; UserAccessConfig.mode := "subdomain_required";
  UserAccessConfig.infrastructure_ready := true; UserAccessConfig.routing_id_min_length := 4;
  UserAccessConfig.routing_rotation_cooldown_hours := 24 |}.

(** A router that would give packages away to anyone. *)
Definition leaky_router : @Handler AssocHeaders := fun r app =>
  match rq_user r with
  | None => if is_proxy_path (rq_path r) then (error_response 206 "leaked", app) else ok_router r app
  | Some _ => ok_router r app
  end.

Lemma subdomain_requests_have_users_witness :
  @application AssocHeaders SimpleUrlApi SampleCsrf id subdomains sample_clock leaky_router honest sample_app =
  @application AssocHeaders SimpleUrlApi SampleCsrf id subdomains sample_clock ok_router honest sample_app.
Proof.
  apply (@subdomain_requests_have_users AssocHeaders SimpleUrlApi SampleCsrf id subdomains sample_clock leaky_router
    ok_router honest sample_app); [done|done|].
  intros r app Hu. unfold leaky_router. destruct (rq_user r) eqn:E; [done|].
  destruct (is_proxy_path (rq_path r)) eqn:Hp; [|done]. destruct (Hu Hp) as [u Hr]. congruence.
Defined.

(** The same site, with the network of the client denied. *)
Definition denying_app : App := {|
  sys := sys sample_app; db_up := true; routing_ids := routing_ids sample_app; limiter := RateLimiter.new;
  policy := {| allow := []; deny := [{| IpNetwork.network := V4 3405803776; IpNetwork.prefix := 24 |}] |};
  geoip := geoip sample_app; rejections := [];
|}.

(** A denied client is refused; where it is not, its request is handed on. *)
Lemma admission_gate_witness :
  @refuses AssocHeaders id Config.default sample_clock honest denying_app
    (error_response 403 "access denied by IP policy") ["ip_deny_rule"] /\
  exists guard d app1, sys app1 = sys sample_app /\ rejections app1 = [] /\
    forall next, @rate_limit_middleware AssocHeaders id Config.default sample_clock next honest sample_app =
      serve_tracked guard d next honest app1.
Proof.
  split.
  - refine (proj1 (proj2 (@admission_gate AssocHeaders id Config.default sample_clock honest denying_app "npm" eq_refl) _) _);
      [intros [_ H]; vm_compute in H; discriminate|vm_compute; reflexivity].
  - pose proof (proj2 (proj2 (proj2 (proj2 (proj2 (proj2 (@admission_gate AssocHeaders id Config.default sample_clock honest
      sample_app "npm" eq_refl) ltac:(intros [_ H]; vm_compute in H; discriminate))) ltac:(vm_compute; reflexivity)))
      ltac:(done)) ltac:(by left)) as Hs.
    destruct (reserve _ _ _ _ _) as [[guard|[]] d] eqn:E; [|vm_compute in E; discriminate|done].
    destruct Hs as (app1 & H1 & H2 & H3). by exists guard, d, app1.
Defined.

(** The same request on the HTTPS listener. *)
Definition encrypted : @Request AssocHeaders := {|
  rq_method := "GET"; rq_scheme := None; rq_path := "/npm/left-pad"; rq_query := None;
  rq_headers := [("host", "mirror.test")]; rq_peer := None; rq_https_transport := true; rq_user := None; rq_diagnostics := None;
|}.

Lemma requests_refine_accounting_witness :
  exists response app',
    @application AssocHeaders SimpleUrlApi SampleCsrf id Config.default sample_clock ok_router encrypted sample_app =
      Some (response, app') /\
    exists events, Forall valid events /\ sys app' = run events (init sample_accounts).
Proof.
  destruct (application id Config.default sample_clock ok_router encrypted sample_app) as [[response app']|] eqn:E.
  - exists response, app'. split; [done|].
    apply (@requests_refine_accounting AssocHeaders SimpleUrlApi SampleCsrf id Config.default sample_clock ok_router encrypted
      sample_app app' response sample_accounts); [|exact E|by exists []].
    intros r app. by exists [].
  - exfalso. revert E. unfold application, security_headers_middleware.
    destruct (normalize_browser_session_cookies _ _) as [h|] eqn:Hn; [|by vm_compute in Hn].
    destruct (strip_untrusted_forwarded_headers _ _ _ _) as [resp app1]. done.
Defined.
